(* ===== verification/_CoqProject ===== *)
-Q . S2P
Prelude.v
Glib.v
Casemap.v
Glob.v
Text.v
Tree.v
Access.v
Userlist.v
UserlistSpec.v
Modes.v
ModesSpec.v
Isupport.v
SendQueue.v
Server.v
Words.v
Proto.v
ProtoSpec.v
Tags.v
Scrollback.v
ScrollbackSpec.v
FtsSpec.v
GapLedger.v
GapLedgerSpec.v
Chathistory.v
ChathistorySpec.v
Catchup.v
CatchupSpec.v
CatchupCases.v
GapFillSpec.v
Persistence.v
PersistenceSpec.v
Batches.v
BatchesSpec.v
WireSpec.v
BatchCases.v
Sts.v
Scram.v
ScramSpec.v
Cap.v
CapSpec.v
Notify.v
NotifySpec.v
UserlistNicks.v
Channels.v
ChannelsNet.v
ChannelsSpec.v
ChannelsLines.v
ChannelsRun.v
ChannelsCases.v
TextEvents.v
TextEventsSpec.v
TextEventsCases.v
Ignore.v
IgnoreSpec.v
IgnoreCases.v
Alerts.v
Messages.v
MessagesSpec.v
MessagesCases.v
Hooks.v
HooksSpec.v
HooksWalk.v
HooksCases.v
History.v
Input.v
InputSpec.v
InputCases.v
