(* ===== verification/Prelude.v ===== *)
(** * PoxChat: a verification library for the client core

    PoxChat is an IRC client written in C on top of GLib (a descendant of
    XChat and HexChat).  This library translates the parts of [src/common] that
    carry the client's own logic into executable Rocq definitions and proves
    what makes them correct.

    ** How the program is put together, and which file models what

    A server connection ([struct server]) owns a socket, an outgoing queue and
    the facts the server announced in numeric 005; every channel or query is a
    [struct session] with its user list.  Bytes from the socket are assembled
    into lines ([server_read]), a line is split into tags and words
    ([irc_inline], [process_data_init]) and handed to a handler; handlers
    change sessions (user list, recorded modes) and emit text events; commands
    of the user become lines ([irc_*] senders) that go through the throttled
    queue ([tcp_send_len], [tcp_send_queue]) to the socket.  Joined channels
    fetch the history they miss and a ledger in the scrollback database records
    which stretches are still missing.

    - [Prelude] (this file): bytes and C strings, scopes, tactics, generic lemmas
      on lists and options, the class [CmpOrder] of comparison callbacks that a
      sorted structure may rely on, decimal printing.
    - [Glib]: the interface [GLib] of the library functions the sources call,
      the laws [GLibLaws] the theorems need, and the instance [glib_ref].
    - [Casemap]: [rfc_tolowertab], [rfc_casecmp], [rfc_ncasecmp], the string
      hashes (util.c, util.h).
    - [Glob]: [match] (util.c), the wildcard matcher with one rollback point.
    - [Text]: [safe_strcpy], [strip_color2], [buf_get_line], [token_foreach] and
      others (util.c).
    - [Tree]: the growable sorted array (tree.c), cell by cell.
    - [Access]: status prefixes and mode classes (modes.c).
    - [Userlist], [UserlistSpec]: the channel user list (userlist.c): users live
      in a store, the array and the session's [me] hold their addresses.
    - [Modes], [ModesSpec]: batches of mode changes, the recorded channel modes,
      MODE lines (modes.c).
    - [Isupport]: numeric 005 (modes.c) and the CHATHISTORY limits
      (chathistory.c).
    - [SendQueue]: the outgoing queue and its timers (server.c).
    - [Server]: line assembly, base64, labels and their sweep, CLIENTTAGDENY,
      away messages (server.c).
    - [Words]: [process_data_init] (outbound.c).
    - [Proto], [ProtoSpec]: the senders of the protocol table (proto-irc.c), and
      a reader of the lines they hand on.
    - [Tags]: message tags and the splitting of an incoming line (proto-irc.c).
    - [Scrollback], [ScrollbackSpec]: the message rows of the scrollback
      database, the per-channel cache of counts and ordinal anchors that paging
      uses, and the operations on them (scrollback.c).
    - [FtsSpec]: the full-text index of [Scrollback]: what is indexed while the
      idle backfill of old rows and live traffic interleave.
    - [GapLedger], [GapLedgerSpec]: the ledger of missing stretches
      (scrollback.c, the [scrollback_gap_] functions).
    - [Chathistory], [ChathistorySpec]: requests for history: the two slots of a
      session, gap fill, the set of messages already shown (chathistory.c).
    - [Catchup], [CatchupSpec]: the answers: batches processed at once or in
      pieces, the LATEST and BEFORE phases over all sessions of a server,
      failures, closed windows and lost connections (chathistory.c, and the
      parts of text.c, inbound.c, server.c, poxchat.c and persistence.c they
      touch).
    - [CatchupCases]: concrete histories, among them those in which the code
      does not do what its comments say.
    - [GapFillSpec]: gap fill against a server with a fixed history.
    - [Persistence], [PersistenceSpec]: the draft/persistence negotiation
      (persistence.c): names in namespaces, ATTACH, its answers, the gate that
      holds the catch-up back.
    - [Batches], [BatchesSpec]: BATCH (inbound.c): opening, collecting,
      multiline messages, the end of a batch; labels, their echoes
      ([scrollback_confirm_pending], text.c), the sweep of stale labels and
      batches, and what a disconnect clears (server.c, outbound.c).
    - [WireSpec]: BATCH lines, collected lines, labeled lines, echoes, sweeps and
      history calls in any order.
    - [BatchCases]: lines as they come from the wire, and the witnesses.
    - [Sts]: strict transport policies and their file (servlist.c).
    - [Scram], [ScramSpec]: the client of the SCRAM exchange (scram.c), against
      a server of RFC 5802.
    - [Cap], [CapSpec]: capability negotiation, SASL, the STS upgrade and the
      registration flight (inbound.c, proto-irc.c, server.c, util.c, oauth.c).
    - [Notify], [NotifySpec]: the list of friends: what each server said of them,
      WATCH, MONITOR and ISON, accounts, notify.conf and the command (notify.c,
      cmd_notify in outbound.c, server_get_network in server.c).
    - [UserlistNicks]: what the calls of userlist.c do to the set of nicks.
    - [Channels]: the handlers that say who is on a channel, over all windows of
      a server (inbound.c, proto-irc.c, [new_ircwindow] of poxchat.c,
      [server_disconnect]).
    - [ChannelsNet]: the channels as the server knows them and what can happen
      on them.
    - [ChannelsSpec], [ChannelsLines], [ChannelsRun], [ChannelsCases]: every
      handler keeps the windows in step with the network; the lines that carry
      what happens; concrete lines.
    - [TextEvents], [TextEventsSpec], [TextEventsCases]: the texts of the events
      (text.c): pevents.conf, [pevt_build_string] with [check_special_chars] of
      outbound.c, [format_event].
    - [Ignore], [IgnoreSpec], [IgnoreCases]: the ignore list and the flood
      counters (ignore.c), /ignore and /unignore (outbound.c), [cfg_get_str]
      (cfgfiles.c).
    - [Alerts]: which messages are highlighted (inbound.c).
    - [Messages], [MessagesSpec], [MessagesCases]: PRIVMSG, NOTICE, INVITE, CTCP
      and actions over the windows of [Channels] (inbound.c, ctcp.c,
      proto-irc.c), with ignores, floods, alerts and echoes of our lines.
    - [Hooks], [HooksSpec], [HooksWalk], [HooksCases]: the hooks of plugins
      (plugin.c): the list, the loops over it while callbacks call back, timers
      and inputs of the main loop, loading and unloading.
    - [History]: the lines of the input box (history.c), a ring against the log.
    - [Input], [InputSpec], [InputCases]: what the user enters (outbound.c): the
      table of commands, [auto_insert], [split_up_text], pasted lines, nick
      completion, [command_insert_vars] and the typing indicator.

    ** Conventions

    - A NUL-terminated string is the list of its bytes before the NUL ([cstr]);
      [char] is signed, as on the x86 ABIs, so a byte above 127 is negative
      where the source compares plain [char]s ([schar]) and not where it casts.
    - [None] is undefined behaviour or a loop that did not stop within its fuel:
      a read or write outside an array, a dangling pointer, a shift by a negative
      count.  A theorem that an operation yields [Some] therefore says that it
      terminates and stays in bounds.
    - Fuel is always computed from the input and the theorems show that it is
      enough: the length of the remaining string for loops over a string, the
      number of rows for the binary searches of [Tree], the number of queued
      lines for the queue, the mask and string together for [Glob].
      A few definitions take the fuel as an argument; their theorems quantify
      over every sufficiently large one.
    - Calls that leave the modelled state (the frontend, text events, the
      socket) are recorded in a trace, in call order.
    - Code outside the repository is a parameter: GLib ([GLib]/[GLibLaws]), the
      C library's [mktime] ([Clock]), SQLite's pattern matching and the order in
      which it walks a table ([Sqlite], [SqliteScan]), the calendar of GDateTime
      ([Dates]), OpenSSL ([OpenSSL]), base64 ([Base64]) and two string functions of
      GLib ([GStrings]); every theorem that uses a law has a witness at the reference
      instances ([glib_ref] and the like).  The tables themselves are lists of
      rows, a statement is the function its SQL text denotes.
    - The history functions of one session take a [view] (the session, its
      server, the database, the trace); those of several sessions take the
      [world] of a server, in which sessions and unfinished batches have
      addresses.  What the inbound handlers store of a replayed message is the
      class [Inbound].

    ** What the theorems show

    - Safety and termination: [tree_insert_safe], [userlist_reachable_invariant],
      [handle_mode_keeps_users], [server_read_lines], [safe_strcpy_bounded].
    - Data structures against abstract specifications: the sorted array against
      sorted lists ([tree_insert_refines], [tree_remove_insert]), the user list
      against an exact set of users with exact counters, the recorded mode
      string against an association list ([record_chan_mode_refines]), the
      queue against one FIFO per priority ([sendqueue_history]).
    - Parsers and printers: [handle_message_tags_table], [tag_value_roundtrip],
      [parse_005_token_roundtrip], [base64_roundtrip], [process_data_init_words].
    - Caches and indexes against a scan of the table: [paging_cache_transparent],
      [search_fts_is_a_scan]; the backfill ends ([fts_backfill_completes]).
    - The gap ledger: [gap_record_adds_the_stretch], [ledger_stays_separated],
      [gap_bootstrap_finds_silences_once] and others of its file.
    - History and batches: [wire_handlers_safe] (no order of arrival makes a
      handler follow a dangling session, unless the tab of the BEFORE phase or of
      the server is closed; the slots stay in step),
      [one_request_in_flight], [user_request_is_sent], [gap_fill_closes]
      (repeated gap fills close a gap and lose no message, when nothing else is
      waiting and no message is context),
      [history_batch_delivered], [multiline_in_history], [multiline_roundtrip],
      [echo_leaves_one_copy].
    - The gate before the catch-up: [held_back_for_a_cursor],
      [settled_gate_stays]; its parsers [strip_namespace_spec],
      [persistence_split_words].
    - Registration: [registration_completes] (on TLS, with nothing left over from
      another connection, the flight does not stall once the capabilities are
      listed), [cap_ls_request], [cap_end_once],
      [sasl_credentials_arrive], [scram_exchange_succeeds],
      [scram_success_needs_server_key], [sts_policies_are_a_map],
      [sts_file_roundtrip].
    - Channels: [channels_show_members] (over any history of joins, parts,
      kicks, quits, nick changes, NAMES replies and lost connections the windows
      and user lists are those of the network).
    - Messages: [privmsg_is_shown_once] (over windows that show the network a
      message is shown once, where it belongs), [is_hilight_decides].
    - Text events: [event_text_displayed] (the compiled format, run over the
      arguments, gives what the format says), [pevents_file_roundtrip].
    - Ignores: [ignore_check_decides], [ignore_list_is_a_map],
      [ignore_file_roundtrip], [flood_is_cut_off].
    - Friends: [notify_presence] (the list says what was last heard),
      [notify_watches_complete], [notify_file_roundtrip].
    - Completeness and limits of what is sent: [send_channel_modes_complete],
      [irc_join_list_complete], [commands_read_back], [labels_distinct_and_whole].
    - Hooks: [event_walks_a_snapshot] (a run that uses no freed memory goes as if
      unhooking removed at once), [hooks_stay_in_order], [quiet_event_ends],
      [unloaded_plugin_leaves_nothing].
    - Input: [long_text_is_sent_whole], [paste_goes_out_whole],
      [find_internal_command_finds], [user_command_expands],
      [active_typing_is_taken_back], [history_walks_the_log].
    - Where the code does not do what it means to, a concrete counterexample is
      proved next to the component; the doc comment of a theorem that has to leave
      such a case out names it (for instance [rfc_casecmp_utf8_cycle],
      [userlist_change_collision_loses_user], [irc_join_list_overlong]).

    ** What is not modelled

    The frontends, plugins and their bindings (a callback of a plugin is a
    parameter of [Hooks]), opening and migrating the database file, the
    configuration and log files, TLS, proxies and reconnect delays, DCC
    transfers, the commands of CTCP replies, the HTTP side of OAuth, reactions
    and redactions, the list of networks, the options of channels, the
    preferences of plugins, the dispatch of a line to its command and most of
    the commands, and the handlers of the remaining numerics (WHOIS, LIST, bans,
    errors).  They are input and output around the core or not reached; the
    parts of them that modelled code reads appear as arguments. *)
From Stdlib Require Export ZArith Lia Ascii String Permutation Sorted.
From stdpp Require Export base tactics option list strings gmap.

(** ** Scopes *)

Declare Scope pox_scope.
Delimit Scope pox_scope with pox.
#[global] Open Scope Z_scope.
#[global] Open Scope pox_scope.

(** ** C strings

    A NUL-terminated [char *] is the list of the bytes before its NUL; moving
    the pointer one byte forward is [tail].  String literals of the source are
    written as Rocq string literals and coerced. *)

Abbreviation cstr := (list ascii).
Coercion list_ascii_of_string : string >-> list.

Definition NUL : ascii := "000".
Definition LF : ascii := "010".
Definition CR : ascii := "013".

(** [*s] *)
Definition peek (s : cstr) : ascii := hd NUL s.

(** [(unsigned char) c], and [(int) c] where [char] is signed (the x86 ABIs). *)
Definition uchar (c : ascii) : Z := Z.of_N (N_of_ascii c).
Definition schar (c : ascii) : Z :=
  if uchar c <? 128 then uchar c else uchar c - 256.

Infix "=c" := Ascii.eqb (at level 70, no associativity) : pox_scope.

(** A C string holds no NUL; a 7-bit string holds no byte above 127. *)
Definition nonul (s : cstr) : Prop := Forall (fun c => c <> NUL) s.
Definition ascii7 (s : cstr) : Prop := Forall (fun c => uchar c < 128) s.

(** ** Machine integers *)

Definition wrap_i32 (z : Z) : Z := (z + 2 ^ 31) mod 2 ^ 32 - 2 ^ 31.
Definition wrap_u32 (z : Z) : Z := z mod 2 ^ 32.

(** ** Arrays

    Reading a C array at a machine index; [None] is a read outside it. *)
Definition zlookup {A} (l : list A) (i : Z) : option A :=
  if (0 <=? i) && (i <? Z.of_nat (length l)) then l !! Z.to_nat i else None.

(** ** Automation *)

Create HintDb pox.

(** Case analysis on byte tests. *)
Ltac byte_case :=
  match goal with
  | |- context [Ascii.eqb ?a ?b] => destruct (Ascii.eqb_spec a b); simplify_eq/=
  | H : context [Ascii.eqb ?a ?b] |- _ => destruct (Ascii.eqb_spec a b); simplify_eq/=
  end.

(** Case analysis on integer tests. *)
Ltac z_case :=
  match goal with
  | |- context [Z.eqb ?a ?b] => destruct (Z.eqb_spec a b)
  | |- context [Z.ltb ?a ?b] => destruct (Z.ltb_spec a b)
  | |- context [Z.leb ?a ?b] => destruct (Z.leb_spec a b)
  | H : context [Z.eqb ?a ?b] |- _ => destruct (Z.eqb_spec a b)
  | H : context [Z.ltb ?a ?b] |- _ => destruct (Z.ltb_spec a b)
  | H : context [Z.leb ?a ?b] |- _ => destruct (Z.leb_spec a b)
  end.

(** ** Bytes *)

Lemma uchar_bound c : 0 <= uchar c < 256.
Proof. unfold uchar. pose proof (N_ascii_bounded c). lia. Qed.

Lemma uchar_inj c d : uchar c = uchar d -> c = d.
Proof.
  unfold uchar. intros H. apply N2Z.inj in H.
  rewrite <- (ascii_N_embedding c), <- (ascii_N_embedding d). by f_equal.
Qed.

Lemma uchar_pos c : c <> NUL -> 0 < uchar c.
Proof.
  intros H. pose proof (uchar_bound c).
  assert (uchar c <> 0); [|lia].
  intros E. apply H. by apply uchar_inj.
Qed.

Lemma schar_ascii7 c : uchar c < 128 -> schar c = uchar c.
Proof. unfold schar. z_case; lia. Qed.

Lemma schar_bound c : -128 <= schar c < 128.
Proof. unfold schar. pose proof (uchar_bound c). z_case; lia. Qed.

Lemma schar_inj c d : schar c = schar d -> c = d.
Proof.
  unfold schar. pose proof (uchar_bound c). pose proof (uchar_bound d).
  intros. apply uchar_inj. repeat z_case; lia.
Qed.

Lemma schar_nonul c : c <> NUL -> schar c <> 0.
Proof. intros H E. apply H. by apply schar_inj. Qed.

(** A property of all 256 bytes is decided by enumerating them. *)
Definition all_bytes : list ascii := map ascii_of_nat (seq 0 256).

Lemma all_bytes_spec (c : ascii) : c ∈ all_bytes.
Proof.
  unfold all_bytes. rewrite list_elem_of_In, in_map_iff.
  exists (nat_of_ascii c). split; [apply ascii_nat_embedding|].
  rewrite in_seq. pose proof (nat_ascii_bounded c). lia.
Qed.

Lemma all_bytes_forall (P : ascii -> bool) :
  forallb P all_bytes = true -> forall c, P c = true.
Proof.
  rewrite forallb_forall. intros H c. apply H.
  apply list_elem_of_In, all_bytes_spec.
Qed.

Lemma nonul_cons c s : nonul (c :: s) <-> c <> NUL /\ nonul s.
Proof. unfold nonul. by rewrite Forall_cons. Qed.

Lemma nonul_app s t : nonul (s ++ t) <-> nonul s /\ nonul t.
Proof. unfold nonul. by rewrite Forall_app. Qed.

Lemma ascii7_cons c s : ascii7 (c :: s) <-> uchar c < 128 /\ ascii7 s.
Proof. unfold ascii7. by rewrite Forall_cons. Qed.

#[export] Hint Resolve uchar_bound schar_bound : pox.

(** ** Lists of tests *)

Lemma forallb_elem {A} (f : A -> bool) l : forallb f l = true -> forall x, x ∈ l -> f x = true.
Proof. intros Hf x Hx. rewrite List.forallb_forall in Hf. apply Hf. by apply list_elem_of_In. Qed.

(** ** Array reads *)

Lemma zlookup_nat {A} (l : list A) (n : nat) : zlookup l (Z.of_nat n) = l !! n.
Proof.
  unfold zlookup. rewrite Nat2Z.id.
  destruct (Z.leb_spec 0 (Z.of_nat n)); [|lia].
  destruct (Z.ltb_spec (Z.of_nat n) (Z.of_nat (length l))); [done|].
  symmetry. apply lookup_ge_None. lia.
Qed.

Lemma zlookup_Some {A} (l : list A) i x :
  zlookup l i = Some x -> 0 <= i < Z.of_nat (length l) /\ l !! Z.to_nat i = Some x.
Proof.
  unfold zlookup. destruct (Z.leb_spec 0 i), (Z.ltb_spec i (Z.of_nat (length l)));
    simpl; done || lia.
Qed.

Lemma zlookup_None {A} (l : list A) i :
  zlookup l i = None <-> ~ (0 <= i < Z.of_nat (length l)).
Proof.
  split.
  - unfold zlookup.
    destruct (Z.leb_spec 0 i), (Z.ltb_spec i (Z.of_nat (length l))); simpl; try lia.
    intros ?%lookup_ge_None. lia.
  - unfold zlookup.
    destruct (Z.leb_spec 0 i), (Z.ltb_spec i (Z.of_nat (length l))); done || lia.
Qed.

(** ** Comparators

    The contract of a C comparison callback on the values [D]: its sign is
    antisymmetric and "not greater" is transitive, i.e. it is a total preorder.
    [tree.c] is verified against this interface, [util.c] implements it. *)
Class CmpOrder {A} (D : A -> Prop) (cmp : A -> A -> Z) : Prop := {
  cmp_sym x y : D x -> D y -> Z.sgn (cmp x y) = - Z.sgn (cmp y x);
  cmp_trans x y z :
    D x -> D y -> D z -> cmp x y <= 0 -> cmp y z <= 0 -> cmp x z <= 0 }.

Section comparators.
Context {A : Type} (D : A -> Prop) (cmp : A -> A -> Z) `{!CmpOrder D cmp}.

(** [lia] with the sign equation between [x] and [y]. *)
Ltac sgn_lia x y := let H := fresh in assert (H := cmp_sym x y ltac:(done) ltac:(done)); lia.

Lemma cmp_refl x : D x -> cmp x x = 0.
Proof. intros. sgn_lia x x. Qed.

Lemma cmp_gt_lt x y : D x -> D y -> 0 < cmp x y <-> cmp y x < 0.
Proof. intros. sgn_lia x y. Qed.

Lemma cmp_eq_sym x y : D x -> D y -> cmp x y = 0 <-> cmp y x = 0.
Proof. intros. sgn_lia x y. Qed.

Lemma cmp_lt_le_trans x y z :
  D x -> D y -> D z -> cmp x y < 0 -> cmp y z <= 0 -> cmp x z < 0.
Proof.
  intros Dx Dy Dz H1 H2.
  destruct (Z_lt_ge_dec (cmp x z) 0) as [|H3]; [done|].
  assert (cmp z x <= 0) by (sgn_lia x z).
  assert (cmp y x <= 0) by (eapply (cmp_trans y z x); eauto).
  sgn_lia x y.
Qed.

Lemma cmp_le_lt_trans x y z :
  D x -> D y -> D z -> cmp x y <= 0 -> cmp y z < 0 -> cmp x z < 0.
Proof.
  intros Dx Dy Dz H1 H2.
  destruct (Z_lt_ge_dec (cmp x z) 0) as [|H3]; [done|].
  assert (cmp z x <= 0) by (sgn_lia x z).
  assert (cmp z y <= 0) by (eapply (cmp_trans z x y); eauto).
  sgn_lia z y.
Qed.

(** Equal elements compare alike with everything. *)
Lemma cmp_eq_compat x y z :
  D x -> D y -> D z -> cmp x y = 0 -> Z.sgn (cmp x z) = Z.sgn (cmp y z).
Proof.
  intros Dx Dy Dz H.
  assert (Hyx : cmp y x = 0) by (by apply cmp_eq_sym).
  destruct (Z.lt_trichotomy (cmp x z) 0) as [H1|[H1|H1]].
  - assert (cmp y z < 0) by (apply (cmp_le_lt_trans y x z); auto; lia). lia.
  - assert (cmp y z <= 0) by (apply (cmp_trans y x z); auto; lia).
    assert (Hzx : cmp z x = 0) by (by apply cmp_eq_sym).
    assert (cmp z y <= 0) by (apply (cmp_trans z x y); auto; lia).
    sgn_lia y z.
  - assert (cmp z x < 0) by (by apply cmp_gt_lt).
    assert (cmp z y < 0) by (apply (cmp_lt_le_trans z x y); auto; lia).
    sgn_lia y z.
Qed.
End comparators.

(** ** Decimal numbers *)

(** The digits of a number, as "%u" prints them. *)
Fixpoint decimal (fuel : nat) (n : Z) (acc : cstr) : cstr :=
  match fuel with
  | O => acc
  | S fuel =>
      let acc := ascii_of_N (Z.to_N (48 + n mod 10)) :: acc in
      if n / 10 =? 0 then acc else decimal fuel (n / 10) acc
  end.

Lemma decimal_value fuel n acc :
  0 <= n < 10 ^ Z.of_nat fuel ->
  foldl (fun a c => a * 10 + (uchar c - 48)) 0 (decimal fuel n acc) =
  foldl (fun a c => a * 10 + (uchar c - 48)) n acc.
Proof.
  revert n acc; induction fuel as [|fuel IH]; intros n acc Hn.
  { simpl in *. f_equal. lia. }
  cbn [decimal]. assert (Hd : uchar (ascii_of_N (Z.to_N (48 + n mod 10))) = 48 + n mod 10).
  { unfold uchar. rewrite N_ascii_embedding, Z2N.id; Z.to_euclidean_division_equations; lia. }
  destruct (Z.eqb_spec (n / 10) 0) as [H0|H0].
  - cbn [foldl]. rewrite Hd. f_equal. Z.to_euclidean_division_equations; lia.
  - rewrite IH.
    + cbn [foldl]. rewrite Hd. f_equal. Z.to_euclidean_division_equations; lia.
    + rewrite Nat2Z.inj_succ, Z.pow_succ_r in Hn by lia. split; [apply Z.div_pos; lia|].
      apply Z.div_lt_upper_bound; lia.
Qed.

Lemma decimal_length fuel n acc : (length (decimal fuel n acc) <= fuel + length acc)%nat.
Proof.
  revert n acc; induction fuel as [|fuel IH]; intros n acc; cbn [decimal]; [lia|].
  destruct (_ =? _); [simpl; lia|]. etrans; [apply IH|]. simpl. lia.
Qed.
