(* ===== verification/Glib.v ===== *)
(** * GLib, as far as the sources use it

    GLib is not part of the repository: its functions are the fields of an
    interface [GLib] that the models take as an argument, and [GLibLaws] states
    the documented behaviour the theorems rely on.  [glib_ref] is one
    implementation of both, used to run the models on concrete inputs. *)
From S2P Require Import Prelude.

(** ASCII lower case, the mapping [g_ascii_tolower] documents. *)
Definition ascii_lower (c : ascii) : ascii :=
  if (65 <=? uchar c) && (uchar c <=? 90) then ascii_of_N (Z.to_N (uchar c + 32)) else c.

Definition digit_byte (c : ascii) : bool := (48 <=? uchar c) && (uchar c <=? 57).
Definition xdigit_byte (c : ascii) : bool :=
  digit_byte c || ((97 <=? uchar (ascii_lower c)) && (uchar (ascii_lower c) <=? 102)).

Class GLib := {
  (** bytes of the UTF-8 character that starts with this byte *)
  g_utf8_skip : ascii -> Z;
  (** case-insensitive comparison, of whole strings and of at most [n] bytes *)
  g_ascii_strcasecmp : cstr -> cstr -> Z;
  g_ascii_strncasecmp : cstr -> cstr -> nat -> Z;
  (** character classes and lower case of the ASCII range *)
  g_ascii_isdigit : ascii -> bool;
  g_ascii_isxdigit : ascii -> bool;
  g_ascii_tolower : ascii -> ascii;
  (** GString editing: erase [len] bytes at [pos], insert at [pos] *)
  g_string_erase : cstr -> Z -> Z -> cstr;
  g_string_insert : cstr -> Z -> cstr -> cstr;
  (** pieces between single-character delimiters, all of them *)
  g_strsplit : cstr -> ascii -> list cstr }.

Class GLibLaws (G : GLib) : Prop := {
  g_utf8_skip_ascii c : uchar c < 128 -> g_utf8_skip c = 1;
  g_utf8_skip_range c : 1 <= g_utf8_skip c <= 6;
  g_ascii_strcasecmp_zero s1 s2 :
    nonul s1 -> nonul s2 ->
    g_ascii_strcasecmp s1 s2 = 0 <-> map ascii_lower s1 = map ascii_lower s2;
  g_ascii_strncasecmp_zero s1 s2 n :
    nonul s1 -> nonul s2 ->
    g_ascii_strncasecmp s1 s2 n = 0 <->
    map ascii_lower (take n s1) = map ascii_lower (take n s2);
  g_ascii_isdigit_spec c : g_ascii_isdigit c = digit_byte c;
  g_ascii_isxdigit_spec c : g_ascii_isxdigit c = xdigit_byte c;
  g_ascii_tolower_spec c : g_ascii_tolower c = ascii_lower c;
  g_string_erase_spec s (pos len : nat) :
    (pos + len <= length s)%nat ->
    g_string_erase s (Z.of_nat pos) (Z.of_nat len) = take pos s ++ drop (pos + len) s;
  g_string_insert_spec s (pos : nat) v :
    (pos <= length s)%nat -> g_string_insert s (Z.of_nat pos) v = take pos s ++ v ++ drop pos s;
  g_strsplit_nil d : g_strsplit [] d = [];
  g_strsplit_pieces d p ps :
    Forall (fun q => d ∉ q) (p :: ps) -> p ++ concat (map (cons d) ps) <> [] ->
    g_strsplit (p ++ concat (map (cons d) ps)) d = p :: ps }.

(** ** A reference implementation *)

Definition skip_ref (c : ascii) : Z :=
  if uchar c <? 192 then 1 else if uchar c <? 224 then 2
  else if uchar c <? 240 then 3 else if uchar c <? 248 then 4
  else if uchar c <? 252 then 5 else if uchar c <? 254 then 6 else 1.

Fixpoint strcasecmp_ref (s1 s2 : cstr) : Z :=
  match s1, s2 with
  | c1 :: t1, c2 :: t2 =>
      let k1 := uchar (ascii_lower c1) in
      let k2 := uchar (ascii_lower c2) in
      if k1 =? k2 then strcasecmp_ref t1 t2 else k1 - k2
  | _, _ => uchar (peek s1) - uchar (peek s2)
  end.

Fixpoint strsplit_ref (s : cstr) (d : ascii) : list cstr :=
  match s with
  | [] => [[]]
  | c :: s =>
      if c =c d then [] :: strsplit_ref s d
      else match strsplit_ref s d with [] => [[c]] | p :: ps => (c :: p) :: ps end
  end.

#[export] Instance glib_ref : GLib := {|
  g_utf8_skip := skip_ref;
  g_ascii_strcasecmp := strcasecmp_ref;
  g_ascii_strncasecmp s1 s2 n := strcasecmp_ref (take n s1) (take n s2);
  g_ascii_isdigit := digit_byte;
  g_ascii_isxdigit := xdigit_byte;
  g_ascii_tolower := ascii_lower;
  g_string_erase s pos len := take (Z.to_nat pos) s ++ drop (Z.to_nat pos + Z.to_nat len) s;
  g_string_insert s pos v := take (Z.to_nat pos) s ++ v ++ drop (Z.to_nat pos) s;
  g_strsplit s d := match s with [] => [] | _ => strsplit_ref s d end |}.

Lemma strsplit_ref_pieces d p ps :
  Forall (fun q => d ∉ q) (p :: ps) -> strsplit_ref (p ++ concat (map (cons d) ps)) d = p :: ps.
Proof.
  revert p; induction ps as [|q ps IH]; intros p [Hp Hps]%Forall_cons; simpl.
  - rewrite app_nil_r. induction p as [|c p IHp]; [done|]. simpl.
    apply not_elem_of_cons in Hp as [Hc Hp]. destruct (Ascii.eqb_spec c d); [congruence|].
    by rewrite IHp.
  - induction p as [|c p IHp]; simpl.
    + rewrite Ascii.eqb_refl. by rewrite IH.
    + apply not_elem_of_cons in Hp as [Hc Hp]. destruct (Ascii.eqb_spec c d); [congruence|].
      by rewrite IHp.
Qed.

Lemma strcasecmp_ref_zero s1 s2 :
  nonul s1 -> nonul s2 -> strcasecmp_ref s1 s2 = 0 <-> map ascii_lower s1 = map ascii_lower s2.
Proof.
  revert s2; induction s1 as [|c1 t1 IH]; intros [|c2 t2] H1 H2; simpl.
  - done.
  - apply nonul_cons in H2 as [Hc _]. apply uchar_pos in Hc.
    change (uchar NUL) with 0. split; [lia|done].
  - apply nonul_cons in H1 as [Hc _]. apply uchar_pos in Hc.
    change (uchar NUL) with 0. split; [lia|done].
  - apply nonul_cons in H1 as [_ H1]. apply nonul_cons in H2 as [_ H2].
    destruct (Z.eqb_spec (uchar (ascii_lower c1)) (uchar (ascii_lower c2))) as [E|E].
    + apply uchar_inj in E. rewrite IH, E by done. split; [by intros ->|congruence].
    + split; [lia|]. congruence.
Qed.

#[export] Instance glib_ref_laws : GLibLaws glib_ref.
Proof.
  split; simpl.
  - intros c Hc. unfold skip_ref. z_case; lia.
  - intros c. unfold skip_ref. repeat (z_case; try lia).
  - apply strcasecmp_ref_zero.
  - intros s1 s2 n H1 H2. apply strcasecmp_ref_zero; by apply Forall_take.
  - done.
  - done.
  - done.
  - intros s pos len _. by rewrite !Nat2Z.id.
  - intros s pos v _. by rewrite !Nat2Z.id.
  - done.
  - intros d p ps Hp Hne. rewrite strsplit_ref_pieces by done.
    by destruct (p ++ concat (map (cons d) ps)).
Qed.
