(* ===== verification/Casemap.v ===== *)
(** * RFC 1459 case mapping (src/common/util.c, src/common/util.h)

    [rfc_tolowertab], the macro [rfc_tolower] and the comparison functions that
    order and identify nicknames, channels and masks. *)
From S2P Require Import Prelude.

(** ** The table *)

Definition zrange (lo n : Z) : list Z := seqZ lo n.

Definition rfc_tolowertab : list Z :=
  zrange 0 32 ++
  zrange 32 32 ++                                  (* ' ' .. '?' *)
  [64] ++ zrange 97 26 ++ [123; 124; 125; 126] ++ [95] ++  (* '@' 'a'..'z' '{' '|' '}' '~' '_' *)
  [96] ++ zrange 97 26 ++ [123; 124; 125; 126] ++ [127] ++
  zrange 128 128.

Definition rfc_tolower (c : ascii) : Z :=
  nth (Z.to_nat (uchar c)) rfc_tolowertab 0.

(** ** Comparison *)

(** Compares the folded bytes; when one string ends first the bytes met there
    are subtracted unfolded, as [(int) *s1 - (int) *s2] with [char] signed. *)
Fixpoint rfc_casecmp (s1 s2 : cstr) : Z :=
  match s1, s2 with
  | c1 :: t1, c2 :: t2 =>
      let k1 := rfc_tolower c1 in
      let k2 := rfc_tolower c2 in
      if negb (k1 =? k2) then k1 - k2 else rfc_casecmp t1 t2
  | _, _ => schar (peek s1) - schar (peek s2)
  end.

Fixpoint rfc_ncasecmp (s1 s2 : cstr) (n : Z) : Z :=
  let tail :=
    if n =? 0 then 0 else rfc_tolower (peek s1) - rfc_tolower (peek s2) in
  match s1, s2 with
  | c1 :: t1, c2 :: t2 =>
      if 0 <? n then
        let k1 := rfc_tolower c1 in
        let k2 := rfc_tolower c2 in
        if negb (k1 =? k2) then k1 - k2 else rfc_ncasecmp t1 t2 (n - 1)
      else tail
  | _, _ => tail
  end.

(** [lower[i] = rfc_tolower (str[i])]: the table's value stored back in a byte. *)
Definition rfc_strlower (str : cstr) : cstr :=
  map (fun c => ascii_of_N (Z.to_N (rfc_tolower c))) str.

(** ** 32-bit string hashes *)

Definition str_hash (key : cstr) : Z :=
  let h := wrap_u32 (schar (peek key)) in
  if h =? 0 then h
  else fold_left (fun h c => wrap_u32 (Z.shiftl h 5 - h + schar c)) (tail key) h.

(** [str_ihash] walks the key through a [const char *], so a byte above 127
    indexes the 256-entry table far out of bounds ([None]). *)
Definition ihash_index (c : ascii) : option Z :=
  zlookup rfc_tolowertab (wrap_u32 (schar c)).

Fixpoint ihash_loop (h : Z) (p : cstr) : option Z :=
  match p with
  | [] => Some h
  | c :: p' =>
      k ← ihash_index c; ihash_loop (wrap_u32 (Z.shiftl h 5 - h + k)) p'
  end.

Definition str_ihash (key : cstr) : option Z :=
  h ← ihash_index (peek key);
  if h =? 0 then Some h else ihash_loop h (tail key).

(** ** The folding *)

Definition fold_case (s : cstr) : list Z := map rfc_tolower s.

(** The strings on which the comparison is an order: 7-bit C strings. *)
Definition plain (s : cstr) : Prop := nonul s /\ ascii7 s.

Lemma rfc_tolower_range c : 0 <= rfc_tolower c < 256.
Proof.
  cut ((fun c => (0 <=? rfc_tolower c) && (rfc_tolower c <? 256)) c = true).
  { simpl. rewrite andb_true_iff, Z.leb_le, Z.ltb_lt. done. }
  apply all_bytes_forall. by vm_compute.
Qed.

Lemma rfc_tolower_pos c : c <> NUL -> 0 < rfc_tolower c.
Proof.
  intros H.
  cut ((fun c => (c =c NUL) || (0 <? rfc_tolower c)) c = true).
  { simpl. rewrite orb_true_iff, Ascii.eqb_eq, Z.ltb_lt. by intros [|]. }
  apply all_bytes_forall. by vm_compute.
Qed.

Lemma rfc_tolower_NUL : rfc_tolower NUL = 0.
Proof. done. Qed.

Lemma rfc_tolower_zero c : rfc_tolower c = 0 <-> c = NUL.
Proof.
  split; [|by intros ->].
  intros H. destruct (decide (c = NUL)) as [|Hc]; [done|].
  pose proof (rfc_tolower_pos c Hc). lia.
Qed.

#[export] Hint Resolve rfc_tolower_pos : pox.

(** Folding is idempotent on bytes. *)
Lemma rfc_tolower_idem c :
  rfc_tolower (ascii_of_N (Z.to_N (rfc_tolower c))) = rfc_tolower c.
Proof.
  apply Z.eqb_eq.
  change ((fun c => rfc_tolower (ascii_of_N (Z.to_N (rfc_tolower c))) =? rfc_tolower c) c = true).
  apply all_bytes_forall. by vm_compute.
Qed.

Lemma fold_case_strlower s : fold_case (rfc_strlower s) = fold_case s.
Proof.
  unfold fold_case, rfc_strlower. rewrite map_map.
  apply map_ext. apply rfc_tolower_idem.
Qed.

Lemma peek_nonul c s : nonul (c :: s) -> peek (c :: s) <> NUL.
Proof. rewrite nonul_cons. tauto. Qed.

Lemma rfc_casecmp_zero s1 s2 :
  nonul s1 -> nonul s2 -> rfc_casecmp s1 s2 = 0 <-> fold_case s1 = fold_case s2.
Proof.
  revert s2; induction s1 as [|c1 t1 IH]; intros [|c2 t2] H1 H2; simpl.
  - done.
  - apply nonul_cons in H2 as [Hc _]. apply schar_nonul in Hc.
    change (schar NUL) with 0. split; [lia|done].
  - apply nonul_cons in H1 as [Hc _]. apply schar_nonul in Hc.
    change (schar NUL) with 0. split; [lia|done].
  - apply nonul_cons in H1 as [_ H1]. apply nonul_cons in H2 as [_ H2].
    destruct (Z.eqb_spec (rfc_tolower c1) (rfc_tolower c2)) as [E|E]; simpl.
    + rewrite (IH t2 H1 H2). rewrite E. split; [by intros ->|]. congruence.
    + split; [lia|]. congruence.
Qed.

Lemma plain_cons c s :
  plain (c :: s) -> 0 < schar c /\ 0 < rfc_tolower c /\ plain s.
Proof.
  intros [[Hc Hs]%nonul_cons [Hc7 Hs7]%ascii7_cons].
  rewrite schar_ascii7 by done. split_and!; auto using uchar_pos with pox. done.
Qed.

(** Case analysis shared by the order lemmas below. *)
Ltac casecmp_step :=
  repeat match goal with
  | H : plain (_ :: _) |- _ => apply plain_cons in H as (? & ? & ?)
  end;
  change (schar (peek [])) with 0 in *;
  repeat match goal with
  | |- context [Z.eqb ?a ?b] => destruct (Z.eqb_spec a b)
  | H : context [Z.eqb ?a ?b] |- _ => destruct (Z.eqb_spec a b)
  end; simpl in *; change (schar NUL) with 0 in *.

#[export] Instance rfc_casecmp_order : CmpOrder plain rfc_casecmp.
Proof.
  split.
  - induction x as [|c1 t1 IH]; intros [|c2 t2] H1 H2; simpl;
      casecmp_step; try lia. auto.
  - induction x as [|c1 t1 IH]; intros [|c2 t2] [|c3 t3] H1 H2 H3 L1 L2;
      simpl in *; casecmp_step; try lia; eapply (IH t2); done.
Qed.

Lemma ihash_index_spec c :
  ihash_index c = if uchar c <? 128 then Some (rfc_tolower c) else None.
Proof.
  apply (bool_decide_eq_true_1 _).
  change ((fun c => bool_decide (ihash_index c =
    if uchar c <? 128 then Some (rfc_tolower c) else None)) c = true).
  apply all_bytes_forall. by vm_compute.
Qed.

Lemma ihash_loop_fold h p :
  ascii7 p ->
  ihash_loop h p = Some (fold_left (fun h k => wrap_u32 (Z.shiftl h 5 - h + k)) (fold_case p) h).
Proof.
  revert h; induction p as [|c p IH]; intros h Hp; [done|].
  apply ascii7_cons in Hp as [Hc Hp]. simpl. rewrite ihash_index_spec.
  destruct (Z.ltb_spec (uchar c) 128); [|lia]. simpl. auto.
Qed.

Lemma ihash_loop_high h p : ~ ascii7 p -> ihash_loop h p = None.
Proof.
  revert h; induction p as [|c p IH]; intros h Hp.
  { exfalso. apply Hp. constructor. }
  simpl. rewrite ihash_index_spec.
  destruct (Z.ltb_spec (uchar c) 128); [|done]. simpl. apply IH.
  intros Hp'. apply Hp. by apply ascii7_cons.
Qed.

(** ** Properties *)

(** On 7-bit strings [rfc_casecmp] is a total preorder whose equality is
    equality of the RFC 1459 foldings: nicknames that differ only in letter
    case or in [[]\^] against [{}|~] are the same name, and sorting by it is
    well defined. *)
Theorem rfc_casecmp_total_preorder x y z :
  plain x -> plain y -> plain z ->
  (rfc_casecmp x y = 0 <-> fold_case x = fold_case y) /\
  Z.sgn (rfc_casecmp x y) = - Z.sgn (rfc_casecmp y x) /\
  (rfc_casecmp x y <= 0 -> rfc_casecmp y z <= 0 -> rfc_casecmp x z <= 0).
Proof.
  intros Hx Hy Hz. split_and!.
  - apply rfc_casecmp_zero; [apply Hx | apply Hy].
  - by apply cmp_sym.
  - by apply cmp_trans.
Qed.

Definition plainb (s : cstr) : bool :=
  forallb (fun c => negb (c =c NUL) && (uchar c <? 128)) s.

Lemma plainb_spec s : plainb s = true -> plain s.
Proof.
  unfold plainb. rewrite forallb_forall. intros H.
  split; apply List.Forall_forall; intros c Hc; apply H in Hc;
    apply andb_true_iff in Hc as [H1 H2].
  - intros ->. done.
  - lia.
Qed.

Lemma rfc_casecmp_total_preorder_witness :
  rfc_casecmp "Dan[x]^" "dAN{X}~" = 0 /\
  Z.sgn (rfc_casecmp "Dan[x]^" "dAN{X}~") = - Z.sgn (rfc_casecmp "dAN{X}~" "Dan[x]^") /\
  rfc_casecmp "Dan[x]^" "zed" <= 0.
Proof.
  destruct (rfc_casecmp_total_preorder "Dan[x]^" "dAN{X}~" "zed") as (H1 & H2 & H3);
    try (apply plainb_spec; reflexivity).
  split_and!; [by apply H1 | exact H2 | apply H3; vm_compute; congruence].
Defined.

(** Beyond 7 bits it is not an order: when a string ends the bytes met
    there are compared as signed chars, while two non-empty strings compare
    by unsigned table values.  "a" < "ab" < "a\xc3" < "a" is a cycle, so a user
    list holding such nicknames has no sorted arrangement. *)
Theorem rfc_casecmp_utf8_cycle :
  exists x y z,
    nonul x /\ nonul y /\ nonul z /\
    rfc_casecmp x y < 0 /\ rfc_casecmp y z < 0 /\ rfc_casecmp z x < 0.
Proof.
  exists ["a"%char], ["a"%char; "b"%char], ["a"%char; "195"%char].
  split_and!; try (repeat constructor; discriminate); by vm_compute.
Qed.

(** [str_ihash] reads outside its 256-entry table exactly on keys with a
    byte above 127 ([const char *p] is sign-extended before the conversion to
    unsigned); on 7-bit keys it depends only on the folding of the key. *)
Theorem str_ihash_in_bounds_iff key key' :
  nonul key -> nonul key' ->
  (str_ihash key = None <-> ~ ascii7 key) /\
  (ascii7 key -> ascii7 key' -> fold_case key = fold_case key' ->
   str_ihash key = str_ihash key').
Proof.
  assert (Hhash : forall k, nonul k -> ascii7 k -> str_ihash k =
    Some (match fold_case k with
          | [] => 0
          | h :: t => fold_left (fun h k => wrap_u32 (Z.shiftl h 5 - h + k)) t h
          end)).
  { intros [|c p] Hn H7; [done|].
    apply nonul_cons in Hn as [Hc Hn]. apply ascii7_cons in H7 as [Hc7 H7].
    unfold str_ihash. simpl peek. rewrite ihash_index_spec.
    destruct (Z.ltb_spec (uchar c) 128); [|lia]. simpl.
    pose proof (rfc_tolower_pos c Hc).
    destruct (Z.eqb_spec (rfc_tolower c) 0); [lia|]. by apply ihash_loop_fold. }
  intros Hn Hn'. split; [split|].
  - intros H H7. by rewrite Hhash in H.
  - destruct key as [|c p]; [intros []; constructor|]. intros H.
    apply nonul_cons in Hn as [Hc Hn].
    unfold str_ihash. simpl peek. rewrite ihash_index_spec.
    destruct (Z.ltb_spec (uchar c) 128); [|done]. simpl.
    pose proof (rfc_tolower_pos c Hc).
    destruct (Z.eqb_spec (rfc_tolower c) 0); [lia|]. apply ihash_loop_high.
    intros Hp. apply H. by apply ascii7_cons.
  - intros H7 H7' E. rewrite !Hhash by done. by rewrite E.
Qed.

Lemma str_ihash_in_bounds_iff_witness :
  str_ihash "PART[x]" = str_ihash "part{X}" /\ str_ihash ["195"%char] = None.
Proof.
  split.
  - apply (str_ihash_in_bounds_iff "PART[x]" "part{X}");
      try reflexivity; repeat constructor; discriminate.
  - apply (str_ihash_in_bounds_iff ["195"%char] []); [repeat constructor; discriminate|constructor|].
    intros H. apply ascii7_cons in H as [H _]. vm_compute in H. discriminate.
Defined.
