(* ===== verification/Glob.v ===== *)
(** * Wildcard masks (src/common/util.c, [match])

    The backtracking matcher behind /ignore masks, /set globs and file globs.
    It keeps one rollback point ([bm], [bs]) instead of recursing; the theorems
    relate it to the declarative meaning of a mask. *)
From S2P Require Import Prelude Casemap.

(** ** Mask characters *)

Inductive tok := TStar | TAny | TLit (c : ascii).

#[export] Instance tok_eq_dec : EqDecision tok.
Proof. solve_decision. Defined.

(** What [ch = *m++] and the switch on [ch] see: a backslash escapes a
    following ['?'] or ['*'] and stands for itself otherwise. *)
Fixpoint tokens (m : cstr) : list tok :=
  match m with
  | [] => []
  | c :: m' =>
      if c =c "*" then TStar :: tokens m'
      else if c =c "?" then TAny :: tokens m'
      else if c =c "\" then
        match m' with
        | d :: m'' =>
            if (d =c "?") || (d =c "*") then TLit d :: tokens m''
            else TLit c :: tokens m'
        | [] => [TLit c]
        end
      else TLit c :: tokens m'
  end.

(** ** The matcher *)

(** [Overread]: the byte after the string's NUL was read. *)
Inductive outcome := Ret (b : bool) | Overread | OutOfFuel.

(** How a loop of the function leaves: by [return], at a star with the mask and
    string positions, or at a mismatch that rolls back. *)
Inductive exit :=
| Return (b : bool)
| GotStar (m : list tok) (s : cstr)
| Rollback.

(** The "head" of the mask. *)
Fixpoint match_head (m : list tok) (s : cstr) : exit :=
  match m with
  | [] => Return (match s with [] => true | _ => false end)
  | TStar :: m' => GotStar m' s
  | TAny :: m' => match s with [] => Return false | _ :: s' => match_head m' s' end
  | TLit c :: m' =>
      if negb (rfc_tolower (peek s) =? rfc_tolower c) then Return false
      else match s with [] => Return false | _ :: s' => match_head m' s' end
  end.

(** After a star: stars and question marks are absorbed.  [inl b] is a return,
    [inr (bm, ch, m, s)] leaves the loop at a literal [ch] with [bm] on it. *)
Fixpoint star_skip (m : list tok) (s : cstr) : bool + (list tok * ascii * list tok * cstr) :=
  match m with
  | [] => inl true
  | TAny :: m' => match s with [] => inl false | _ :: s' => star_skip m' s' end
  | TStar :: m' => star_skip m' s
  | TLit c :: m' => inr (m, c, m', s)
  end.

(** [ch = rfc_tolower (ch)] is stored in a [char]. *)
Definition char_of_int (z : Z) : Z := (z + 128) mod 256 - 128.

(** [while (rfc_tolower( *s++) != ch) if (! *s) return 0;] *)
Inductive found := Found (bs : cstr) | NotFound | PastEnd.

Fixpoint star_search (ch : Z) (s : cstr) : found :=
  match s with
  | [] => PastEnd
  | c :: s' =>
      if negb (rfc_tolower c =? ch)
      then match s' with [] => NotFound | _ => star_search ch s' end
      else Found s'
  end.

(** The rest of the "chunk". *)
Fixpoint match_chunk (m : list tok) (s : cstr) : exit :=
  match m with
  | [] => match s with [] => Return true | _ => Rollback end
  | TStar :: m' => GotStar m' s
  | TAny :: m' => match s with [] => Return false | _ :: s' => match_chunk m' s' end
  | TLit c :: m' =>
      if negb (rfc_tolower (peek s) =? rfc_tolower c)
      then match s with [] => Return false | _ => Rollback end
      else match s with [] => Return false | _ :: s' => match_chunk m' s' end
  end.

(** One round from the label [got_star]. *)
Fixpoint got_star (fuel : nat) (m : list tok) (s : cstr) : outcome :=
  match fuel with
  | O => OutOfFuel
  | S fuel =>
      match star_skip m s with
      | inl b => Ret b
      | inr (bm, ch, m, s) =>
          match star_search (char_of_int (rfc_tolower ch)) s with
          | PastEnd => Overread
          | NotFound => Ret false
          | Found bs =>
              match match_chunk m bs with
              | Return b => Ret b
              | GotStar m' s' => got_star fuel m' s'
              | Rollback => got_star fuel bm bs
              end
          end
      end
  end.

Definition match_tokens (m : list tok) (s : cstr) : outcome :=
  match match_head m s with
  | Return b => Ret b
  | GotStar m' s' => got_star (S (length m' + length s')) m' s'
  | Rollback => Ret false
  end.

(** [match (mask, string)] *)
Definition glob_match (mask string : cstr) : outcome := match_tokens (tokens mask) string.

(** ** The meaning of a mask *)

Inductive glob : list tok -> cstr -> Prop :=
| glob_nil : glob [] []
| glob_any c m s : glob m s -> glob (TAny :: m) (c :: s)
| glob_lit c d m s : rfc_tolower d = rfc_tolower c -> glob m s -> glob (TLit c :: m) (d :: s)
| glob_star m s : glob m s -> glob (TStar :: m) s
| glob_eat c m s : glob (TStar :: m) s -> glob (TStar :: m) (c :: s).

Create HintDb glob.
#[export] Hint Constructors glob : glob.

Lemma glob_nil_inv s : glob [] s <-> s = [].
Proof. split; [by inversion 1|intros ->; constructor]. Qed.

Lemma glob_any_inv m s : glob (TAny :: m) s <-> exists c s', s = c :: s' /\ glob m s'.
Proof. split; [inversion 1; subst; eauto | intros (c & s' & -> & H); auto with glob]. Qed.

Lemma glob_lit_inv c m s :
  glob (TLit c :: m) s <->
  exists d s', s = d :: s' /\ rfc_tolower d = rfc_tolower c /\ glob m s'.
Proof. split; [inversion 1; subst; eauto | intros (d & s' & -> & E & H); auto with glob]. Qed.

(** A star consumes any prefix. *)
Lemma glob_star_inv m s : glob (TStar :: m) s <-> exists pre t, s = pre ++ t /\ glob m t.
Proof.
  split.
  - remember (TStar :: m) as p eqn:E. intros H. revert m E.
    induction H as [| | |m s H|c m s H IH]; intros m0 E; simplify_eq.
    + by exists [], s.
    + destruct (IH m0 eq_refl) as (pre & t & -> & H'). by exists (c :: pre), t.
  - intros (pre & t & -> & H). induction pre; simpl; auto with glob.
Qed.

Lemma glob_star_app m w t : glob (TStar :: m) t -> glob (TStar :: m) (w ++ t).
Proof.
  rewrite !glob_star_inv. intros (pre & u & -> & H).
  exists (w ++ pre), u. by rewrite <- app_assoc.
Qed.

Lemma glob_star_star m s : glob (TStar :: TStar :: m) s <-> glob (TStar :: m) s.
Proof.
  split; [|auto with glob].
  rewrite glob_star_inv. intros (pre & t & -> & H). by apply glob_star_app.
Qed.

Lemma glob_star_any m s :
  glob (TStar :: TAny :: m) s <-> exists c s', s = c :: s' /\ glob (TStar :: m) s'.
Proof.
  split.
  - rewrite glob_star_inv. intros (pre & t & -> & H).
    apply glob_any_inv in H as (c & s' & -> & H).
    destruct pre as [|d pre].
    + exists c, s'. auto with glob.
    + exists d, (pre ++ c :: s'). split; [done|]. apply glob_star_app. auto with glob.
  - intros (c & s' & -> & H). apply glob_star_inv in H as (pre & t & -> & H).
    apply glob_star_inv. destruct (exists_last (l := c :: pre)) as (l & d & E); [done|].
    exists l, (d :: t). split; [|auto with glob].
    change (c :: pre ++ t) with ((c :: pre) ++ t). rewrite E.
    by rewrite <- app_assoc.
Qed.

(** A string shorter than the mask's non-star characters does not match. *)
Fixpoint min_length (m : list tok) : nat :=
  match m with
  | [] => 0
  | TStar :: m' => min_length m'
  | _ :: m' => S (min_length m')
  end.

Lemma glob_min_length m s : glob m s -> (min_length m <= length s)%nat.
Proof. induction 1; simpl in *; lia. Qed.

(** ** The loops against the meaning *)

Lemma star_skip_spec m s :
  match star_skip m s with
  | inl b => b = true <-> glob (TStar :: m) s
  | inr (bm, ch, m', s') =>
      bm = TLit ch :: m' /\ (glob (TStar :: m) s <-> glob (TStar :: bm) s') /\
      suffix bm m /\ suffix s' s
  end.
Proof.
  revert s; induction m as [|[| |c] m IH]; intros s; simpl.
  - split; [|done]. intros _. apply glob_star_inv. exists s, [].
    rewrite app_nil_r. auto with glob.
  - specialize (IH s). destruct (star_skip m s) as [b|[[[bm ch] m'] s']].
    + by rewrite glob_star_star.
    + rewrite glob_star_star. destruct IH as (-> & H & ? & ?).
      split_and!; auto using suffix_cons_r.
  - destruct s as [|d s].
    + split; [done|]. rewrite glob_star_any. naive_solver.
    + specialize (IH s).
      assert (Hany : glob (TStar :: TAny :: m) (d :: s) <-> glob (TStar :: m) s)
        by (rewrite glob_star_any; naive_solver).
      destruct (star_skip m s) as [b|[[[bm ch] m'] s']].
      * by rewrite Hany.
      * rewrite Hany. destruct IH as (-> & H & ? & ?).
        split_and!; auto using suffix_cons_r.
  - by split_and!.
Qed.

(** The search stops at the first byte that folds to the literal. *)
Lemma star_search_spec c m s :
  uchar c < 128 ->
  match star_search (char_of_int (rfc_tolower c)) s with
  | Found bs =>
      exists pre d, s = pre ++ d :: bs /\ rfc_tolower d = rfc_tolower c /\
        Forall (fun x => (rfc_tolower x <> rfc_tolower c)) pre
  | NotFound | PastEnd => ~ glob (TStar :: TLit c :: m) s
  end.
Proof.
  intros Hc.
  assert (Hch : char_of_int (rfc_tolower c) = rfc_tolower c).
  { cut ((fun c => negb (uchar c <? 128) ||
           (char_of_int (rfc_tolower c) =? rfc_tolower c)) c = true).
    { simpl. destruct (Z.ltb_spec (uchar c) 128); simpl; lia. }
    apply all_bytes_forall. by vm_compute. }
  rewrite Hch.
  assert (Hnil : ~ glob (TStar :: TLit c :: m) []).
  { rewrite glob_star_inv. intros (pre & t & E & H).
    destruct pre, t; simplify_eq/=. apply glob_lit_inv in H. naive_solver. }
  induction s as [|d s IH]; simpl; [done|].
  destruct (Z.eqb_spec (rfc_tolower d) (rfc_tolower c)) as [E|E]; simpl.
  { by exists [], d. }
  assert (Hstep : ~ glob (TStar :: TLit c :: m) s -> ~ glob (TStar :: TLit c :: m) (d :: s)).
  { intros Hs H. inversion H as [| | |? ? H'|? ? ? H']; subst; [|done].
    apply glob_lit_inv in H'. naive_solver. }
  destruct s as [|e s]; [by apply Hstep|].
  destruct (star_search (rfc_tolower c) (e :: s)) as [bs| |]; [|by apply Hstep..].
  destruct IH as (pre & d' & -> & ? & ?). exists (d :: pre), d'. auto.
Qed.

(** Star-free mask parts match strings of their own length, position by position. *)
Definition tok_matches (t : tok) (c : ascii) : Prop :=
  match t with TStar => False | TAny => True | TLit d => rfc_tolower c = rfc_tolower d end.

Lemma glob_chunk_app ch m s :
  TStar ∉ ch ->
  glob (ch ++ m) s <-> exists u t, s = u ++ t /\ Forall2 tok_matches ch u /\ glob m t.
Proof.
  revert s; induction ch as [|k ch IH]; intros s Hk; simpl.
  { split; [intros; by exists [], s|]. intros (u & t & -> & H & ?). by inversion H. }
  apply not_elem_of_cons in Hk as [Hk0 Hk].
  split.
  - destruct k as [| |c]; [done| |].
    + intros (d & s' & -> & H)%glob_any_inv.
      apply IH in H as (u & t & -> & ? & ?); [|done]. exists (d :: u), t. by repeat constructor.
    + intros (d & s' & -> & E & H)%glob_lit_inv.
      apply IH in H as (u & t & -> & ? & ?); [|done]. exists (d :: u), t. by repeat constructor.
  - intros (u & t & -> & H & ?). inversion H as [|? d ? u' Hd Hu]; subst; simpl.
    destruct k as [| |c]; [done| |]; constructor; eauto; apply IH; eauto.
Qed.

Lemma match_chunk_spec m s :
  match match_chunk m s with
  | Return true => glob m s
  | Return false => (length s < min_length m)%nat
  | GotStar m' s' => exists ch u, m = ch ++ TStar :: m' /\ (TStar ∉ ch) /\
      s = u ++ s' /\ Forall2 tok_matches ch u
  | Rollback => ~ glob m s
  end.
Proof.
  revert s; induction m as [|k m IH]; intros s; simpl.
  { destruct s; [constructor|]. by rewrite glob_nil_inv. }
  assert (Hcons : forall d s', tok_matches k d ->
    (forall s'', glob (k :: m) s'' <-> exists d s', s'' = d :: s' /\ tok_matches k d /\ glob m s') ->
    min_length (k :: m) = S (min_length m) -> k <> TStar ->
    match match_chunk m s' with
    | Return true => glob (k :: m) (d :: s')
    | Return false => (length (d :: s') < min_length (k :: m))%nat
    | GotStar m' s'' => exists ch u, k :: m = ch ++ TStar :: m' /\ (TStar ∉ ch) /\
        d :: s' = u ++ s'' /\ Forall2 tok_matches ch u
    | Rollback => ~ glob (k :: m) (d :: s')
    end).
  { intros d s' Hd Hg Hl Hk. specialize (IH s').
    destruct (match_chunk m s') as [[]|m' s''|].
    - apply Hg. eauto.
    - rewrite Hl. simpl. lia.
    - destruct IH as (ch & u & -> & Hch & -> & ?).
      exists (k :: ch), (d :: u). split_and!; [done| |done|by constructor].
      apply not_elem_of_cons. auto.
    - rewrite Hg. naive_solver. }
  destruct k as [| |c].
  - exists [], []. split_and!; [done|apply not_elem_of_nil|done|constructor].
  - destruct s as [|d s']; [simpl; lia|]. apply Hcons; try done.
    intros s''. rewrite glob_any_inv. naive_solver.
  - assert (Hg : forall s'', glob (TLit c :: m) s'' <->
      exists d s', s'' = d :: s' /\ tok_matches (TLit c) d /\ glob m s')
      by (intros s''; by rewrite glob_lit_inv).
    destruct s as [|d s']; simpl peek.
    + change (rfc_tolower NUL) with 0.
      destruct (Z.eqb_spec 0 (rfc_tolower c)); simpl; lia.
    + destruct (Z.eqb_spec (rfc_tolower d) (rfc_tolower c)); simpl.
      * by apply Hcons.
      * rewrite Hg. naive_solver.
Qed.

Lemma match_chunk_suffix m s m' s' :
  match_chunk m s = GotStar m' s' ->
  (length m' < length m /\ length s' <= length s)%nat.
Proof.
  intros E. pose proof (match_chunk_spec m s) as H. rewrite E in H.
  destruct H as (ch & u & -> & _ & -> & _). rewrite !length_app. simpl. lia.
Qed.

Definition lits7 (m : list tok) : Prop :=
  Forall (fun t => match t with TLit c => uchar c < 128 | _ => True end) m.

(** What an answer has to say about a string. *)
Definition answers (o : outcome) (P : Prop) : Prop :=
  match o with
  | Ret true => P
  | Ret false | Overread => ~ P
  | OutOfFuel => False
  end.

Lemma answers_iff o P Q : (P <-> Q) -> answers o P -> answers o Q.
Proof. destruct o as [[]| |]; simpl; tauto. Qed.

(** Leftmost is enough: once a star-free chunk has been found at its first
    place, a later place cannot help. *)
Lemma glob_leftmost c ch m pre d u t :
  TStar ∉ ch -> rfc_tolower d = rfc_tolower c ->
  Forall (fun x => (rfc_tolower x <> rfc_tolower c)) pre ->
  Forall2 tok_matches ch u ->
  glob (TStar :: TLit c :: ch ++ TStar :: m) (pre ++ d :: u ++ t) <-> glob (TStar :: m) t.
Proof.
  intros Hch Hd Hpre Hu. split; intros H.
  - apply glob_star_inv in H as (pre' & s' & E & H).
    apply glob_lit_inv in H as (d' & s'' & -> & Hd' & H).
    apply glob_chunk_app in H as (u' & t' & -> & Hu' & H); [|done].
    assert (Hlen : (length pre <= length pre')%nat).
    { destruct (le_lt_dec (length pre) (length pre')) as [|Hlt]; [done|].
      rewrite Forall_lookup in Hpre. exfalso. apply (Hpre (length pre') d'); [|done].
      rewrite <- (lookup_app_l pre (d :: u ++ t)) by done.
      rewrite E, lookup_app_r by done. by rewrite Nat.sub_diag. }
    assert (suffix t' t) as [w ->]; [|by apply glob_star_app].
    apply Forall2_length in Hu, Hu'.
    assert (Ht : t' = drop (length (pre' ++ d' :: u')) (pre ++ d :: u ++ t)).
    { rewrite E. replace (pre' ++ d' :: u' ++ t') with ((pre' ++ d' :: u') ++ t')
        by by rewrite <- app_assoc. by rewrite drop_app_length. }
    rewrite Ht. replace (pre ++ d :: u ++ t) with ((pre ++ d :: u) ++ t)
      by by rewrite <- app_assoc.
    rewrite drop_app_ge by (rewrite !length_app; simpl; lia).
    by apply suffix_drop.
  - apply glob_star_inv. exists pre, (d :: u ++ t). split; [done|].
    constructor; [done|]. apply glob_chunk_app; eauto.
Qed.

(** A rolled-back first place leaves exactly the later places. *)
Lemma glob_rollback c m pre d bs :
  rfc_tolower d = rfc_tolower c ->
  Forall (fun x => (rfc_tolower x <> rfc_tolower c)) pre ->
  glob (TStar :: TLit c :: m) (pre ++ d :: bs) <->
  glob m bs \/ glob (TStar :: TLit c :: m) bs.
Proof.
  intros Hd Hpre. split.
  - induction pre as [|x pre IH]; simpl; intros H.
    + inversion H as [| | |? ? H'|? ? ? H']; subst; [|auto].
      left. apply glob_lit_inv in H'. naive_solver.
    + apply Forall_cons in Hpre as [Hx Hpre].
      inversion H as [| | |? ? H'|? ? ? H']; subst; [|auto].
      apply glob_lit_inv in H'. naive_solver.
  - intros [H|H].
    + apply glob_star_inv. exists pre, (d :: bs). auto with glob.
    + replace (pre ++ d :: bs) with ((pre ++ [d]) ++ bs) by by rewrite <- app_assoc.
      by apply glob_star_app.
Qed.

Lemma lits7_suffix m m' : suffix m' m -> lits7 m -> lits7 m'.
Proof. intros [w ->]. unfold lits7. rewrite Forall_app. tauto. Qed.

Lemma got_star_answers fuel m s :
  lits7 m -> (length m + length s < fuel)%nat ->
  answers (got_star fuel m s) (glob (TStar :: m) s).
Proof.
  revert m s; induction fuel as [|fuel IH]; intros m s H7 Hf; [lia|]. simpl.
  pose proof (star_skip_spec m s) as Hskip.
  destruct (star_skip m s) as [[]|[[[bm c] m'] s']]; [by apply Hskip| |].
  { simpl. by rewrite <- Hskip. }
  destruct Hskip as (-> & Hiff & Hm & Hs).
  assert (H7' : lits7 (TLit c :: m')) by (by eapply lits7_suffix).
  pose proof (suffix_length _ _ Hm) as Lm. pose proof (suffix_length _ _ Hs) as Ls.
  simpl in Lm. apply Forall_cons in H7' as [Hc H7'].
  eapply answers_iff; [symmetry; exact Hiff|].
  pose proof (star_search_spec c m' s' Hc) as Hsearch.
  destruct (star_search _ s') as [bs| |]; [|done..].
  destruct Hsearch as (pre & d & -> & Hd & Hpre).
  rewrite length_app in Ls. simpl in Ls.
  pose proof (glob_rollback c m' pre d bs Hd Hpre) as Hroll.
  pose proof (match_chunk_spec m' bs) as Hchunk.
  destruct (match_chunk m' bs) as [[]|m'' s''|] eqn:Echunk.
  - simpl. tauto.
  - simpl. rewrite Hroll. intros [H|H].
    + apply glob_min_length in H. lia.
    + apply glob_min_length in H. simpl in H. lia.
  - apply match_chunk_suffix in Echunk as [? ?].
    destruct Hchunk as (ch & u & -> & Hch & -> & Hu).
    eapply answers_iff; [symmetry; by apply glob_leftmost|].
    apply IH; [|simpl in *; lia].
    apply Forall_app in H7' as [_ H7']. by apply Forall_cons in H7' as [_ H7'].
  - eapply answers_iff.
    { rewrite Hroll. split; [intros H; right; exact H|]. intros [H|H]; [done|exact H]. }
    apply IH; [by apply Forall_cons | simpl in *; lia].
Qed.

Lemma match_head_spec m s :
  match match_head m s with
  | Return b => b = true <-> glob m s
  | GotStar m' s' => (glob m s <-> glob (TStar :: m') s') /\ suffix m' m
  | Rollback => False
  end.
Proof.
  revert s; induction m as [|[| |c] m IH]; intros s; simpl.
  - rewrite glob_nil_inv. by destruct s.
  - split; [done|]. by apply suffix_cons_r.
  - destruct s as [|d s].
    { split; [done|]. rewrite glob_any_inv. naive_solver. }
    specialize (IH s).
    assert (Hany : glob (TAny :: m) (d :: s) <-> glob m s) by (rewrite glob_any_inv; naive_solver).
    destruct (match_head m s) as [b|m' s'|]; rewrite ?Hany; [done| |done].
    destruct IH. split; [done|by apply suffix_cons_r].
  - destruct s as [|d s]; simpl peek.
    { assert (Hno : ~ glob (TLit c :: m) []) by (rewrite glob_lit_inv; naive_solver).
      destruct (negb _); by split. }
    destruct (Z.eqb_spec (rfc_tolower d) (rfc_tolower c)) as [E|E]; simpl.
    + specialize (IH s).
      assert (Hlit : glob (TLit c :: m) (d :: s) <-> glob m s)
        by (rewrite glob_lit_inv; naive_solver).
      destruct (match_head m s) as [b|m' s'|]; rewrite ?Hlit; [done| |done].
      destruct IH. split; [done|by apply suffix_cons_r].
    + split; [done|]. rewrite glob_lit_inv. naive_solver.
Qed.

Lemma tokens_lits7 n m : (length m <= n)%nat -> ascii7 m -> lits7 (tokens m).
Proof.
  revert m; induction n as [|n IH]; intros m Hl H7.
  { by destruct m; [constructor|simpl in Hl; lia]. }
  destruct m as [|c m]; [constructor|]. apply ascii7_cons in H7 as [Hc H7]. simpl in *.
  assert (Hrec : lits7 (tokens m)) by (apply IH; [lia|done]).
  destruct (c =c "*"); [by constructor|]. destruct (c =c "?"); [by constructor|].
  destruct (c =c "\"); [|by constructor].
  destruct m as [|d m']; [by repeat constructor|].
  apply ascii7_cons in H7 as [Hd H7]. simpl in Hl.
  destruct (_ || _); [|by constructor].
  constructor; [done|]. apply IH; [lia|done].
Qed.

(** ** Properties *)

(** C30. For a mask of 7-bit characters the one-rollback-point matcher terminates
    on every string, and it returns 1 exactly when the mask matches in the
    declarative sense; when the mask does not match it returns 0, or strays past
    the terminating NUL and has no defined answer ([glob_match_overread]). *)
Theorem glob_match_decides mask string :
  ascii7 mask ->
  match glob_match mask string with
  | Ret true => glob (tokens mask) string
  | Ret false | Overread => ~ glob (tokens mask) string
  | OutOfFuel => False
  end.
Proof.
  intros H7. apply (tokens_lits7 (length mask)) in H7; [|done].
  change (answers (glob_match mask string) (glob (tokens mask) string)).
  unfold glob_match, match_tokens.
  pose proof (match_head_spec (tokens mask) string) as Hhead.
  destruct (match_head (tokens mask) string) as [b|m' s'|]; [|..].
  - destruct b; simpl; [by apply Hhead|]. by rewrite <- Hhead.
  - destruct Hhead as [Hiff Hsuf]. eapply answers_iff; [symmetry; exact Hiff|].
    apply got_star_answers; [by eapply lits7_suffix|lia].
  - done.
Qed.

Lemma glob_match_decides_witness :
  glob (tokens "*!*@*.Example.[co?]") "nick!user@host.example.{com}".
Proof.
  refine (glob_match_decides "*!*@*.Example.[co?]" "nick!user@host.example.{com}" _).
  repeat constructor.
Defined.

Definition wildcard (c : ascii) : bool := (c =c "*") || (c =c "?") || (c =c "\").

Lemma tokens_lit c m : wildcard c = false -> tokens (c :: m) = TLit c :: tokens m.
Proof.
  unfold wildcard. rewrite !orb_false_iff. intros [[H1 H2] H3]. simpl.
  by rewrite H1, H2, H3.
Qed.

(** Whenever the part of the mask before a star has used the whole string
    and a literal follows the star, the matcher reads past the terminating NUL:
    the mask "nick*!x" on the string "nick" does. *)
Theorem glob_match_overread s c rest :
  nonul s -> Forall (fun x => wildcard x = false) s -> wildcard c = false -> c <> NUL ->
  glob_match (s ++ "*"%char :: c :: rest) s = Overread.
Proof.
  intros Hs Hw Hc Hcn. unfold glob_match, match_tokens.
  assert (E : match_head (tokens (s ++ "*"%char :: c :: rest)) s
              = GotStar (TLit c :: tokens rest) []).
  { induction s as [|x s IH]; simpl app.
    - change (tokens ("*"%char :: c :: rest)) with (TStar :: tokens (c :: rest)).
      by rewrite tokens_lit.
    - apply nonul_cons in Hs as [Hx Hs]. apply Forall_cons in Hw as [Hxw Hw].
      rewrite tokens_lit by done. simpl. rewrite Z.eqb_refl. simpl. auto. }
  rewrite E. reflexivity.
Qed.

Lemma glob_match_overread_witness : glob_match "nick*!x" "nick" = Overread.
Proof.
  apply (glob_match_overread "nick" "!" "x"); repeat constructor; discriminate.
Defined.

(** A byte above 127 right after a star never matches, not even itself:
    the folded byte is stored in a signed [char] and compared with the table's
    unsigned value.  Masks such as "*\xc3\xa9*" are dead. *)
Theorem glob_match_star_high c rest s :
  128 <= uchar c ->
  glob_match ("*"%char :: c :: rest) s <> Ret true /\
  glob (tokens ("*"%char :: [c])) [c].
Proof.
  intros Hc.
  assert (Hw : wildcard c = false).
  { cut ((fun c => (uchar c <? 128) || negb (wildcard c)) c = true).
    { simpl. destruct (Z.ltb_spec (uchar c) 128); [lia|]. by destruct (wildcard c). }
    apply all_bytes_forall. by vm_compute. }
  change (tokens ("*"%char :: c :: rest)) with (TStar :: tokens (c :: rest)).
  change (tokens ("*"%char :: [c])) with (TStar :: tokens [c]).
  rewrite tokens_lit by done. split; [|by repeat constructor].
  unfold glob_match, match_tokens.
  change (tokens ("*"%char :: c :: rest)) with (TStar :: tokens (c :: rest)).
  rewrite tokens_lit by done. simpl.
  assert (Hneg : char_of_int (rfc_tolower c) < 0).
  { cut ((fun c => (uchar c <? 128) || (char_of_int (rfc_tolower c) <? 0)) c = true).
    { simpl. destruct (Z.ltb_spec (uchar c) 128); simpl; lia. }
    apply all_bytes_forall. by vm_compute. }
  assert (Hsearch : forall bs, star_search (char_of_int (rfc_tolower c)) s <> Found bs).
  { induction s as [|d s IH]; intros bs; simpl; [done|].
    pose proof (rfc_tolower_range d).
    destruct (Z.eqb_spec (rfc_tolower d) (char_of_int (rfc_tolower c))); [lia|]. simpl.
    destruct s; [done|apply IH]. }
  destruct (star_search _ s) as [bs| |]; [by destruct (Hsearch bs)|done..].
Qed.

Definition e_acute : cstr := ["195"%char; "169"%char].

Lemma glob_match_star_high_witness :
  glob_match ("*"%char :: e_acute) ("caf" ++ e_acute) <> Ret true.
Proof.
  exact (proj1 (glob_match_star_high "195" ["169"%char] _ ltac:(vm_compute; congruence))).
Defined.
