(* ===== verification/Text.v ===== *)
(** * String utilities (src/common/util.c)

    Bounded copies that keep UTF-8 characters whole, the colour and attribute
    stripper, the config-file line reader and the token iterator. *)
From S2P Require Import Prelude Glib.

(** ** safe_strcpy *)

(** The bytes stored in [dest] before its NUL; [None] when a multibyte lead
    byte announces more bytes than the source has. *)
Fixpoint safe_strcpy_loop `{GLib} (fuel : nat) (src : cstr) (bytes_left : Z) : option cstr :=
  match fuel with
  | O => None
  | S fuel =>
      let mbl := g_utf8_skip (peek src) in
      if bytes_left <? mbl + 1 then Some []
      else if mbl =? 1 then
        match src with
        | [] => Some []
        | c :: src' => cons c <$> safe_strcpy_loop fuel src' (bytes_left - 1)
        end
      else if Z.of_nat (length src) <? mbl then None
      else
        app (take (Z.to_nat mbl) src) <$>
          safe_strcpy_loop fuel (drop (Z.to_nat mbl) src) (bytes_left - mbl)
  end.

Definition safe_strcpy `{GLib} (src : cstr) (bytes_left : Z) : option cstr :=
  safe_strcpy_loop (S (length src)) src bytes_left.

(** ** Colour codes and attributes *)

Definition STRIP_COLOR : Z := 1.
Definition STRIP_ATTRIB : Z := 2.
Definition STRIP_HIDDEN : Z := 4.
Definition STRIP_ALL : Z := 7.
Definition HIDDEN_CHAR : ascii := "008".

Definition isdigit (c : ascii) : bool := (48 <=? uchar c) && (uchar c <=? 57).

(** The attribute bytes: beep, reset, reverse, bold, underline, strikethrough, italics. *)
Definition attribute_byte (c : ascii) : bool :=
  bool_decide (c ∈ (["007"; "015"; "022"; "002"; "031"; "030"; "029"]%char : list ascii)).

Definition flag (flags bit : Z) : bool := negb (Z.land flags bit =? 0).

(** [while (len-- > 0)]; returns what is written at [dst]. *)
Fixpoint strip_loop (src : cstr) (len : nat) (flags rcol bgcol : Z) : cstr :=
  match len with
  | O => []
  | S len =>
      let c := peek src in
      let next := peek (tail src) in
      if (0 <? rcol) &&
         (isdigit c || ((c =c ",") && isdigit next && (bgcol =? 0)))
      then
        let rcol := if negb (next =c ",") then rcol - 1 else rcol in
        let '(rcol, bgcol) := if c =c "," then (2, 1) else (rcol, bgcol) in
        strip_loop (tail src) len flags rcol bgcol
      else if c =c "003" then
        if flag flags STRIP_COLOR then strip_loop (tail src) len flags 2 0
        else c :: strip_loop (tail src) len flags 0 0
      else if c =c HIDDEN_CHAR then
        if flag flags STRIP_HIDDEN then strip_loop (tail src) len flags 0 0
        else c :: strip_loop (tail src) len flags 0 0
      else if attribute_byte c then
        if flag flags STRIP_ATTRIB then strip_loop (tail src) len flags 0 0
        else c :: strip_loop (tail src) len flags 0 0
      else c :: strip_loop (tail src) len flags 0 0
  end.

(** [None] is a [len] past the source's NUL; -1 stands for [strlen]. *)
Definition strip_color2 (src : cstr) (len : Z) (flags : Z) : option cstr :=
  let len := if len =? -1 then Z.of_nat (length src) else len in
  if Z.of_nat (length src) <? len then None
  else Some (strip_loop src (Z.to_nat len) flags 0 0).

Fixpoint strip_hidden_attribute (src : cstr) : cstr :=
  match src with
  | [] => []
  | c :: src' =>
      if negb (c =c HIDDEN_CHAR) then c :: strip_hidden_attribute src'
      else strip_hidden_attribute src'
  end.

(** ** buf_get_line *)

(** [while (ibuf[pos++] != '\n') if (pos == len) return 0;]: the index of the
    newline at or after [pos]. *)
Fixpoint find_newline (ibuf : cstr) (pos : nat) (fuel : nat) : option nat :=
  match fuel with
  | O => None
  | S fuel =>
      match ibuf !! pos with
      | Some c =>
          if c =c LF then Some pos
          else if (S pos =? length ibuf)%nat then None
          else find_newline ibuf (S pos) fuel
      | None => None
      end
  end.

(** The line and the new [*position]; [None] is a 0 result.  The line's bytes
    are read from the buffer before the NULs are stored, which the caller sees
    as the same C string. *)
Definition buf_get_line (ibuf : cstr) (position : nat) : option (cstr * nat) :=
  if (position =? length ibuf)%nat then None
  else
    pos ← find_newline ibuf position (length ibuf);
    let line := take (pos - position) (drop position ibuf) in
    let line :=
      match last line with
      | Some c => if c =c CR then take (length line - 1) line else line
      | None => line
      end in
    Some (line, S pos).

(** ** token_foreach *)

(** The callback's state is threaded; it returns true to go on. *)
Fixpoint token_loop {S} (str : cstr) (sep : ascii) (callback : cstr -> S -> S * bool)
    (start : cstr) (ud : S) : S * bool :=
  match str with
  | [] => callback start ud
  | c :: str' =>
      if c =c sep then
        let '(ud, continue) := callback start ud in
        if continue then token_loop str' sep callback [] ud else (ud, false)
      else token_loop str' sep callback (start ++ [c]) ud
  end.

Definition token_foreach {S} (str : cstr) (sep : ascii) (callback : cstr -> S -> S * bool)
    (ud : S) : S * bool :=
  token_loop str sep callback [] ud.

(** ** Small helpers *)

(** The part after the last slash ([WIN32] not defined). *)
Fixpoint file_part_loop (file filepart : cstr) : cstr :=
  match file with
  | [] => filepart
  | c :: file' => if c =c "/" then file_part_loop file' file' else file_part_loop file' filepart
  end.

Definition file_part (file : option cstr) : cstr :=
  match file with None => [] | Some file => file_part_loop file file end.

Fixpoint text_has_interior_newline_loop (text : cstr) : bool :=
  match text with
  | [] => false
  | c :: text' => if c =c LF then negb (peek text' =c NUL) else text_has_interior_newline_loop text'
  end.

Definition text_has_interior_newline (text : option cstr) : bool :=
  match text with None => false | Some text => text_has_interior_newline_loop text end.

(** [tolower] in the C locale is the ASCII mapping. *)
Definition canonalize_key (key : cstr) : cstr :=
  map (fun token =>
    let t := schar token in
    if negb (t =? 95) && ((t <? 48) || (57 <? t)) && ((t <? 65) || (90 <? t)) &&
       ((t <? 97) || (122 <? t))
    then "_"%char else ascii_lower token) key.

(** ** Whole UTF-8 characters *)

Inductive whole_chars `{GLib} : cstr -> Prop :=
| whole_nil : whole_chars []
| whole_char c block rest :
    Z.of_nat (length (c :: block)) = g_utf8_skip c ->
    whole_chars rest -> whole_chars ((c :: block) ++ rest).

Section safe_strcpy.
Context `{GL : GLibLaws}.

Lemma skip_NUL : g_utf8_skip NUL = 1.
Proof. apply g_utf8_skip_ascii. by vm_compute. Qed.

(** A whole character is copied in one round if it and a NUL fit. *)
Lemma safe_strcpy_loop_char fuel c block rest n :
  Z.of_nat (length (c :: block)) = g_utf8_skip c ->
  safe_strcpy_loop (S fuel) ((c :: block) ++ rest) n =
  if n <? Z.of_nat (length (c :: block)) + 1 then Some []
  else app (c :: block) <$> safe_strcpy_loop fuel rest (n - Z.of_nat (length (c :: block))).
Proof.
  intros E. cbn [safe_strcpy_loop]. change (peek ((c :: block) ++ rest)) with c.
  rewrite <- E. destruct (Z.ltb_spec n (Z.of_nat (length (c :: block)) + 1)); [done|].
  destruct (Z.eqb_spec (Z.of_nat (length (c :: block))) 1) as [E1|E1].
  - assert (block = []) as -> by (destruct block; [done|simpl in E1; lia]). done.
  - rewrite length_app.
    destruct (Z.ltb_spec (Z.of_nat (length (c :: block) + length rest))
      (Z.of_nat (length (c :: block)))); [lia|].
    by rewrite Nat2Z.id, take_app_length, drop_app_length.
Qed.

Lemma safe_strcpy_loop_spec fuel s n :
  whole_chars s -> (length s < fuel)%nat -> 1 <= n ->
  exists d rest, safe_strcpy_loop fuel s n = Some d /\ s = d ++ rest /\
    whole_chars d /\ whole_chars rest /\ Z.of_nat (length d) + 1 <= n /\
    (rest <> [] -> n < Z.of_nat (length d) + g_utf8_skip (peek rest) + 1).
Proof.
  intros Hs. revert fuel n; induction Hs as [|c block rest E Hrest IH]; intros fuel n Hf Hn.
  - destruct fuel as [|fuel]; [lia|]. exists [], []. simpl. change (peek []) with NUL.
    rewrite skip_NUL. split_and!; try constructor; try done.
    by destruct (n <? 1 + 1).
  - destruct fuel as [|fuel]; [lia|]. rewrite safe_strcpy_loop_char by done.
    rewrite length_app in Hf.
    destruct (Z.ltb_spec n (Z.of_nat (length (c :: block)) + 1)).
    + exists [], ((c :: block) ++ rest).
      split_and!; [done|done|constructor|by constructor|done|].
      intros _. change (peek _) with c. simpl in *. lia.
    + destruct (IH fuel (n - Z.of_nat (length (c :: block)))) as (d & r & -> & -> & ? & ? & ? & Hmax);
        [simpl in *; lia|lia|].
      exists ((c :: block) ++ d), r. rewrite length_app.
      split_and!; [done|by rewrite <- app_assoc|by constructor|done|lia|].
      intros Hr. specialize (Hmax Hr). lia.
Qed.
End safe_strcpy.

(** ** Stripping *)

Definition control_byte (c : ascii) : bool :=
  (c =c "003") || (c =c HIDDEN_CHAR) || attribute_byte c.

Lemma strip_loop_clean src len rcol bgcol :
  Forall (fun c => control_byte c = false) (strip_loop src len STRIP_ALL rcol bgcol).
Proof.
  revert src rcol bgcol; induction len as [|len IH]; intros src rcol bgcol; [constructor|].
  cbn [strip_loop].
  change (flag STRIP_ALL STRIP_COLOR) with true. change (flag STRIP_ALL STRIP_HIDDEN) with true.
  change (flag STRIP_ALL STRIP_ATTRIB) with true. cbv iota.
  destruct ((0 <? rcol) && _); [by destruct (peek src =c ",")|].
  destruct (peek src =c "003") eqn:E1; [done|].
  destruct (peek src =c HIDDEN_CHAR) eqn:E2; [done|].
  destruct (attribute_byte (peek src)) eqn:E3; [done|].
  constructor; [|done]. unfold control_byte. by rewrite E1, E2, E3.
Qed.

Lemma strip_loop_id src flags bgcol :
  Forall (fun c => control_byte c = false) src ->
  strip_loop src (length src) flags 0 bgcol = src.
Proof.
  revert bgcol. induction src as [|c src IH]; intros bgcol Hs; [done|].
  apply Forall_cons in Hs as [Hc Hs]. unfold control_byte in Hc.
  apply orb_false_iff in Hc as [[H1 H2]%orb_false_iff H3].
  cbn [length strip_loop]. change (peek (c :: src)) with c. cbn [tail].
  change ((0 <? 0) && _) with false. cbv iota. rewrite H1, H2, H3. by rewrite IH.
Qed.

Lemma strip_loop_sublist src len flags rcol bgcol :
  (len <= length src)%nat ->
  sublist (strip_loop src len flags rcol bgcol) (take len src).
Proof.
  revert src rcol bgcol; induction len as [|len IH]; intros src rcol bgcol Hl.
  { constructor. }
  destruct src as [|c src]; [simpl in Hl; lia|]. simpl in Hl.
  cbn [strip_loop take tail]. change (peek (c :: src)) with c.
  assert (Hskip : forall r b, sublist (strip_loop src len flags r b) (c :: take len src))
    by (intros; apply sublist_cons, IH; lia).
  assert (Hkeep : forall r b, sublist (c :: strip_loop src len flags r b) (c :: take len src))
    by (intros; apply sublist_skip, IH; lia).
  repeat match goal with
  | |- context [if ?b then _ else _] => destruct b
  end; auto.
Qed.

(** ** Tokens *)

Fixpoint split_on (sep : ascii) (start str : cstr) : list cstr :=
  match str with
  | [] => [start]
  | c :: str' => if c =c sep then start :: split_on sep [] str' else split_on sep (start ++ [c]) str'
  end.

Fixpoint join (sep : ascii) (l : list cstr) : cstr :=
  match l with
  | [] => []
  | [s] => s
  | s :: l' => s ++ sep :: join sep l'
  end.

(** Running a callback over a list of tokens until it stops. *)
Fixpoint run_tokens {S} (callback : cstr -> S -> S * bool) (l : list cstr) (ud : S) : S * bool :=
  match l with
  | [] => (ud, true)
  | s :: l' =>
      let '(ud, continue) := callback s ud in
      if continue then run_tokens callback l' ud else (ud, false)
  end.

Lemma split_on_nonempty sep start str : split_on sep start str <> [].
Proof. revert start; induction str as [|c str IH]; intros start; simpl; [done|]. by destruct (c =c sep). Qed.

Lemma token_loop_run {S} str sep (callback : cstr -> S -> S * bool) start ud :
  token_loop str sep callback start ud = run_tokens callback (split_on sep start str) ud.
Proof.
  revert start ud; induction str as [|c str IH]; intros start ud; simpl.
  - by destruct (callback start ud) as [? []].
  - destruct (c =c sep); simpl; [|done].
    destruct (callback start ud) as [? []]; [apply IH|done].
Qed.

Lemma join_split_on sep start str : join sep (split_on sep start str) = start ++ str.
Proof.
  revert start; induction str as [|c str IH]; intros start; simpl; [by rewrite app_nil_r|].
  destruct (Ascii.eqb_spec c sep) as [->|]; simpl.
  - destruct (split_on sep [] str) eqn:E; [by apply split_on_nonempty in E|].
    rewrite <- E, IH. done.
  - by rewrite IH, <- app_assoc.
Qed.

Lemma split_on_no_sep sep start str :
  sep ∉ start -> Forall (fun s : cstr => sep ∉ s) (split_on sep start str).
Proof.
  revert start; induction str as [|c str IH]; intros start Hs; simpl; [by constructor|].
  destruct (Ascii.eqb_spec c sep) as [->|Hc].
  - constructor; [done|]. apply IH, not_elem_of_nil.
  - apply IH. set_solver.
Qed.

(** ** Properties *)

(** [safe_strcpy] never writes more than [bytes_left] bytes with its NUL,
    copies a prefix of whole UTF-8 characters, and stops only where the next
    character and a NUL would not fit; a source that fits is copied whole. *)
Theorem safe_strcpy_bounded (G : GLib) s n :
  GLibLaws G -> whole_chars s -> 1 <= n ->
  exists d rest, safe_strcpy s n = Some d /\ s = d ++ rest /\
    Z.of_nat (length d) + 1 <= n /\ whole_chars d /\
    (rest <> [] -> n < Z.of_nat (length d) + g_utf8_skip (peek rest) + 1) /\
    (Z.of_nat (length s) < n -> d = s).
Proof.
  intros GL Hs Hn. unfold safe_strcpy.
  destruct (safe_strcpy_loop_spec (S (length s)) s n Hs ltac:(lia) Hn)
    as (d & rest & -> & -> & Hd & Hrest & Hlen & Hmax).
  exists d, rest. split_and!; [done..|].
  intros Hfit. destruct Hrest as [|c block rest E Hrest]; [by rewrite app_nil_r|].
  exfalso. specialize (Hmax ltac:(done)). change (peek _) with c in Hmax.
  rewrite !length_app in Hfit. lia.
Qed.

Lemma safe_strcpy_bounded_witness :
  exists d, safe_strcpy ["a"; "195"; "169"; "b"]%char 3 = Some d /\ Z.of_nat (length d) + 1 <= 3.
Proof.
  destruct (safe_strcpy_bounded glib_ref ["a"; "195"; "169"; "b"]%char 3 _)
    as (d & rest & E & _ & H & _); [|done|eauto].
  apply (whole_char "a" [] ["195"; "169"; "b"]%char); [done|].
  apply (whole_char "195" ["169"%char] ["b"%char]); [done|].
  apply (whole_char "b" [] []); [done|constructor].
Defined.

(** [strip_color2] with all flags leaves no colour, attribute or hidden
    byte, is idempotent, and writes a subsequence of what it has read, so
    stripping in place never overtakes the source. *)
Theorem strip_color2_all src out :
  strip_color2 src (-1) STRIP_ALL = Some out ->
  Forall (fun c => control_byte c = false) out /\ sublist out src /\
  strip_color2 out (-1) STRIP_ALL = Some out.
Proof.
  unfold strip_color2. change (-1 =? -1) with true. cbv iota.
  destruct (Z.ltb_spec (Z.of_nat (length src)) (Z.of_nat (length src))); [lia|].
  rewrite Nat2Z.id. intros [= <-].
  pose proof (strip_loop_clean src (length src) 0 0) as Hclean. split_and!; [done| |].
  - pose proof (strip_loop_sublist src (length src) STRIP_ALL 0 0 ltac:(done)) as Hsub.
    by rewrite firstn_all in Hsub.
  - set (out := strip_loop src (length src) STRIP_ALL 0 0) in *.
    destruct (Z.ltb_spec (Z.of_nat (length out)) (Z.of_nat (length out))); [lia|].
    by rewrite Nat2Z.id, strip_loop_id.
Qed.

Lemma strip_color2_all_witness :
  strip_color2 (["003"; "0"; "4"; ","; "1"; "2"; "h"; "002"; "i"]%char) (-1) STRIP_ALL
    = Some (list_ascii_of_string "hi") /\
  Forall (fun c => control_byte c = false) (list_ascii_of_string "hi").
Proof.
  split; [reflexivity|].
  apply (strip_color2_all (["003"; "0"; "4"; ","; "1"; "2"; "h"; "002"; "i"]%char)). reflexivity.
Defined.

(** [token_foreach] hands its callback exactly the separator-free pieces
    whose concatenation with the separator is the string, in order, until the
    callback stops it. *)
Theorem token_foreach_pieces {S} str sep (callback : cstr -> S -> S * bool) ud :
  exists pieces, token_foreach str sep callback ud = run_tokens callback pieces ud /\
    join sep pieces = str /\ Forall (fun s : cstr => sep ∉ s) pieces.
Proof.
  exists (split_on sep [] str). split_and!.
  - apply token_loop_run.
  - apply join_split_on.
  - apply split_on_no_sep, not_elem_of_nil.
Qed.
