(* ===== verification/Tree.v ===== *)
(** * The sorted pointer array (src/common/tree.c)

    "Not really a tree, but it could be": a growable array kept sorted by a
    comparison callback, with binary search.  The C array is modelled cell by
    cell, with its allocated size; reading or writing outside it, reading an
    uninitialised cell, and a search loop that does not stop are all [None].
    The theorems refine it to a sorted list. *)
From stdpp Require Import sorting.
From S2P Require Import Prelude.

Definition ARRAY_GROW : Z := 32.

Section tree.
Context {A : Type}.

(** [array] holds the [array_size] allocated cells; [None] is a cell that has
    not been written.  The callback and its data are arguments of the
    operations, since what they compare lives outside the structure. *)
Record tree := Tree {
  elements : Z;
  array_size : Z;
  array : list (option A) }.

Definition tree_new : tree := Tree 0 0 [].

(** ** Cells *)

Definition cell (t : tree) (i : Z) : option A := mjoin (zlookup (array t) i).

(** [t->array[i] = x] *)
Definition set_cell (i : Z) (x : A) (t : tree) : option tree :=
  if (0 <=? i) && (i <? Z.of_nat (length (array t)))
  then Some (Tree (elements t) (array_size t) (<[Z.to_nat i := Some x]> (array t)))
  else None.

Definition set_elements (n : Z) (t : tree) : tree := Tree n (array_size t) (array t).

(** [memmove (&t->array[dst], &t->array[src], n * sizeof (void * ))] *)
Definition memmove (dst src n : Z) (t : tree) : option tree :=
  let size := Z.of_nat (length (array t)) in
  if (0 <=? n) && (0 <=? src) && (0 <=? dst) && (src + n <=? size) && (dst + n <=? size)
  then
    let a := array t in
    let block := take (Z.to_nat n) (drop (Z.to_nat src) a) in
    Some (Tree (elements t) (array_size t)
      (take (Z.to_nat dst) a ++ block ++ drop (Z.to_nat (dst + n)) a))
  else None.

(** ** Insertion *)

(** [while (1)] of [tree_find_insertion_pos] *)
Fixpoint insertion_loop (fuel : nat) (cmp : A -> A -> Z) (t : tree) (key : A)
    (l u : Z) : option Z :=
  match fuel with
  | O => None
  | S fuel =>
      let idx := Z.quot (l + u) 2 in
      x ← cell t idx;
      let c := cmp key x in
      if 0 >? c then insertion_loop fuel cmp t key l idx
      else
        next ← (if 0 <? c then y ← cell t (idx + 1); Some (0 >? cmp key y) else Some false);
        if (next : bool) then Some (idx + 1)
        else if c =? 0 then Some (-1)
        else insertion_loop fuel cmp t key (idx + 1) u
  end.

(** Returns the tree, the position and [*done]. *)
Definition tree_find_insertion_pos (cmp : A -> A -> Z) (t : tree) (key : A)
    : option (tree * Z * bool) :=
  if elements t <? 1 then
    t ← set_cell 0 key t;
    Some (set_elements (elements t + 1) t, 0, true)
  else if elements t <? 2 then
    x ← cell t 0;
    let c := cmp key x in
    if c =? 0 then Some (t, -1, true)
    else
      let t := set_elements (elements t + 1) t in
      if c >? 0 then
        t ← set_cell 1 key t; Some (t, 1, true)
      else
        t ← set_cell 1 x t;
        t ← set_cell 0 key t; Some (t, 0, true)
  else
    first ← cell t 0;
    if cmp key first <? 0 then Some (t, 0, false)
    else
      last ← cell t (elements t - 1);
      if cmp key last >? 0 then Some (t, elements t, false)
      else
        pos ← insertion_loop (Z.to_nat (elements t)) cmp t key 0 (elements t - 1);
        Some (t, pos, false).

Definition tree_insert_at_pos (key : A) (pos : Z) (t : tree) : option tree :=
  t ← (if negb (pos =? elements t)
       then memmove (pos + 1) pos (elements t - pos) t
       else Some t);
  t ← set_cell pos key t;
  Some (set_elements (elements t + 1) t).

(** [realloc] keeps the old cells and adds uninitialised ones. *)
Definition tree_grow (t : tree) : tree :=
  if array_size t <? elements t + 1 then
    let new_size := array_size t + ARRAY_GROW in
    Tree (elements t) new_size
      (take (Z.to_nat new_size) (array t ++ replicate (Z.to_nat ARRAY_GROW) None))
  else t.

Definition tree_insert (cmp : A -> A -> Z) (t : tree) (key : A) : option (tree * Z) :=
  '(t, pos, done) ← tree_find_insertion_pos cmp (tree_grow t) key;
  t ← (if negb done && negb (pos =? -1) then tree_insert_at_pos key pos t else Some t);
  Some (t, pos).

Definition tree_append (t : tree) (key : A) : option tree :=
  let t := tree_grow t in
  tree_insert_at_pos key (elements t) t.

(** ** Lookup and removal *)

Fixpoint mybsearch_loop {K} (fuel : nat) (key : K) (t : tree)
    (compar : K -> A -> Z) (l u : Z) : option (option (A * Z)) :=
  match fuel with
  | O => None
  | S fuel =>
      if l <? u then
        let idx := Z.quot (l + u) 2 in
        x ← cell t idx;
        let comparison := compar key x in
        if comparison <? 0 then mybsearch_loop fuel key t compar l idx
        else if comparison >? 0 then mybsearch_loop fuel key t compar (idx + 1) u
        else Some (Some (x, idx))
      else Some None
  end.

(** [Some None] is a NULL result; [Some (Some (x, pos))] sets [*pos]. *)
Definition mybsearch {K} (key : K) (t : tree) (nmemb : Z) (compar : K -> A -> Z)
    : option (option (A * Z)) :=
  mybsearch_loop (S (Z.to_nat nmemb)) key t compar 0 nmemb.

(** A NULL [array] has no cells. *)
Definition tree_find {K} (t : tree) (key : K) (cmp : K -> A -> Z) : option (option (A * Z)) :=
  if array_size t =? 0 then Some None
  else mybsearch key t (elements t) cmp.

Definition tree_remove_at_pos (t : tree) (pos : Z) : option (tree * A) :=
  ret ← cell t pos;
  let t := set_elements (elements t - 1) t in
  t ← (if negb (pos =? elements t)
       then memmove pos (pos + 1) (elements t - pos) t
       else Some t);
  Some (t, ret).

(** Returns the tree and 1 with the position, or 0. *)
Definition tree_remove (cmp : A -> A -> Z) (t : tree) (key : A) : option (tree * option Z) :=
  data ← tree_find t key cmp;
  match data with
  | None => Some (t, None)
  | Some (_, pos) => '(t, _) ← tree_remove_at_pos t pos; Some (t, Some pos)
  end.

(** [tree_foreach] hands the elements to a callback in order until it returns
    0; the callback's effects are a state [S]. *)
Fixpoint foreach_loop {S} (func : A -> S -> S * bool) (t : tree) (j : Z) (n : nat) (s : S)
    : option S :=
  match n with
  | O => Some s
  | Datatypes.S n =>
      x ← cell t j;
      let '(s, continue) := func x s in
      if (continue : bool) then foreach_loop func t (j + 1) n s else Some s
  end.

Definition tree_foreach {S} (func : A -> S -> S * bool) (t : tree) (s : S) : option S :=
  if array_size t =? 0 then Some s
  else foreach_loop func t 0 (Z.to_nat (elements t)) s.

Definition tree_size (t : tree) : Z := elements t.
End tree.

Arguments tree : clear implicits.

(** ** Refinement to lists *)

Section refinement.
Context {A : Type}.
Implicit Types (t : tree A) (l : list A).

(** [t] holds the elements [l]: the first [elements] cells of the array. *)
Definition holds t l : Prop :=
  elements t = Z.of_nat (length l) /\
  array_size t = Z.of_nat (length (array t)) /\
  exists junk, array t = map Some l ++ junk.

Definition room t : Prop := elements t < array_size t.

Lemma holds_new : holds (@tree_new A) [].
Proof. split_and!; [done..|]. by exists []. Qed.

Lemma cell_holds t l (i : nat) x : holds t l -> l !! i = Some x -> cell t (Z.of_nat i) = Some x.
Proof.
  intros (_ & _ & junk & E) Hx. unfold cell. rewrite zlookup_nat, E.
  rewrite lookup_app_l by (rewrite length_map; by eapply lookup_lt_Some).
  rewrite list_lookup_fmap, Hx. done.
Qed.

Lemma cell_holds_Z t l i x :
  holds t l -> 0 <= i -> l !! Z.to_nat i = Some x -> cell t i = Some x.
Proof. intros. rewrite <- (Z2Nat.id i) by done. by eapply cell_holds. Qed.

(** A callback that never stops sees every element, in order. *)
Lemma foreach_loop_holds {S} (f : A -> S -> S) t l (j n : nat) s :
  holds t l -> (j + n)%nat = length l ->
  foreach_loop (fun x s => (f x s, true)) t (Z.of_nat j) n s = Some (foldl (fun s x => f x s) s (drop j l)).
Proof.
  intros H. revert j s; induction n as [|n IH]; intros j s Hj; cbn [foreach_loop].
  - by rewrite drop_ge by lia.
  - destruct (lookup_lt_is_Some_2 l j) as [x Hx]; [lia|].
    rewrite (cell_holds t l j x H Hx), (drop_S l x j Hx). cbn [mbind option_bind].
    replace (Z.of_nat j + 1) with (Z.of_nat (Datatypes.S j)) by lia. apply IH. lia.
Qed.

Lemma foreach_holds {S} (f : A -> S -> S) t l s :
  holds t l ->
  tree_foreach (fun x s => (f x s, true)) t s = Some (foldl (fun s x => f x s) s l).
Proof.
  intros H. pose proof H as (He & Hs & junk & E). unfold tree_foreach.
  destruct (Z.eqb_spec (array_size t) 0) as [H0|_].
  - assert (length l = O) as ->%nil_length_inv; [|done].
    rewrite Hs, E, length_app, length_map in H0. lia.
  - rewrite He, Nat2Z.id. change 0 with (Z.of_nat 0).
    rewrite (foreach_loop_holds f t l 0 _ s H) by lia. by rewrite drop_0.
Qed.

Lemma holds_lookup_lt l (i : Z) :
  0 <= i < Z.of_nat (length l) -> exists x, l !! Z.to_nat i = Some x.
Proof. intros. apply lookup_lt_is_Some. lia. Qed.

Lemma grow_holds t l : holds t l -> holds (tree_grow t) l /\ room (tree_grow t).
Proof.
  intros (He & Hs & junk & E). unfold tree_grow, room.
  assert (Hgrow : ARRAY_GROW = 32) by done.
  assert (Hlen : (length l <= length (array t))%nat).
  { rewrite E, length_app, length_map. lia. }
  destruct (Z.ltb_spec (array_size t) (elements t + 1)) as [Hlt|];
    cbn [elements array_size array]; [|split; [split_and!; eauto|lia]].
  generalize dependent ARRAY_GROW. intros grow ->.
  rewrite take_ge by (rewrite length_app, length_replicate; lia).
  split; [|lia]. split_and!; cbn [elements array_size array]; [done| |].
  - rewrite length_app, length_replicate. lia.
  - exists (junk ++ replicate (Z.to_nat 32) None). by rewrite E, <- app_assoc.
Qed.

(** Overwriting a cell in use, and writing the first free cell. *)
Lemma set_cell_holds t l (i : nat) x :
  holds t l -> (i < length l)%nat ->
  exists t', set_cell (Z.of_nat i) x t = Some t' /\ holds t' (<[i := x]> l) /\
    elements t' = elements t /\ array_size t' = array_size t.
Proof.
  intros (He & Hs & junk & E) Hi. unfold set_cell.
  assert (Hlen : (length l <= length (array t))%nat) by (rewrite E, length_app, length_map; lia).
  destruct (Z.leb_spec 0 (Z.of_nat i)); [|lia].
  destruct (Z.ltb_spec (Z.of_nat i) (Z.of_nat (length (array t)))); [|lia].
  eexists; split_and!; [reflexivity|..]; simpl; try done.
  split_and!; simpl.
  - by rewrite length_insert.
  - by rewrite length_insert.
  - exists junk. rewrite Nat2Z.id, E, insert_app_l by (by rewrite length_map).
    by rewrite list_fmap_insert.
Qed.

Lemma push_holds t l x :
  holds t l -> room t ->
  exists t', set_cell (Z.of_nat (length l)) x t = Some t' /\
    holds (set_elements (elements t + 1) t') (l ++ [x]) /\ elements t' = elements t.
Proof.
  intros (He & Hs & junk & E) Hr. unfold room, set_cell in *.
  destruct (Z.leb_spec 0 (Z.of_nat (length l))); [|lia].
  destruct (Z.ltb_spec (Z.of_nat (length l)) (Z.of_nat (length (array t)))); [|lia].
  eexists; split_and!; [reflexivity| |done]. simpl.
  split_and!; simpl.
  - rewrite length_app. simpl. lia.
  - by rewrite length_insert.
  - destruct junk as [|j junk].
    { rewrite app_nil_r in E. rewrite E, length_map in *. lia. }
    exists junk. rewrite Nat2Z.id, E.
    rewrite map_app. replace (length l) with (length (map Some l) + 0)%nat
      by (rewrite length_map; lia).
    rewrite insert_app_r. simpl. by rewrite <- app_assoc.
Qed.

Lemma set_cell_set_elements t i x n :
  set_cell i x (set_elements n t) = set_elements n <$> set_cell i x t.
Proof. unfold set_cell. simpl. by destruct (_ && _). Qed.

Lemma insert_at_pos_holds t l1 l2 x :
  holds t (l1 ++ l2) -> room t ->
  exists t', tree_insert_at_pos x (Z.of_nat (length l1)) t = Some t' /\ holds t' (l1 ++ x :: l2).
Proof.
  intros Hh Hr. unfold tree_insert_at_pos. pose proof Hh as (He & Hs & junk & E).
  rewrite length_app in He.
  destruct (Z.eqb_spec (Z.of_nat (length l1)) (elements t)) as [El|El]; simpl.
  { assert (l2 = []) as -> by (destruct l2; [done|simpl in *; lia]).
    rewrite app_nil_r in Hh.
    destruct (push_holds t l1 x Hh Hr) as (t' & -> & H & Ht'). simpl.
    eexists; split; [reflexivity|]. by rewrite Ht'. }
  unfold memmove. rewrite map_app in E.
  assert (Hjunk : exists j junk', junk = j :: junk').
  { destruct junk as [|j junk']; [|by eauto]. exfalso. unfold room in Hr.
    rewrite Hs, E, !length_app, !length_map in Hr. simpl in Hr. lia. }
  destruct Hjunk as (j & junk' & ->).
  assert (Hlen : length (array t) = (length l1 + length l2 + 1 + length junk')%nat).
  { rewrite E, !length_app, !length_map. simpl. lia. }
  repeat (z_case; [|lia]). simpl.
  set (n := Z.to_nat (elements t - Z.of_nat (length l1))).
  assert (Hn : n = length l2) by lia.
  replace (Z.to_nat (Z.of_nat (length l1))) with (length l1) by lia.
  replace (Z.to_nat (Z.of_nat (length l1) + 1)) with (S (length l1)) by lia.
  replace (Z.to_nat (Z.of_nat (length l1) + 1 + (elements t - Z.of_nat (length l1))))
    with (length l1 + length l2 + 1)%nat by lia.
  assert (Hblock : take n (drop (length l1) (array t)) = map Some l2).
  { rewrite E, <- app_assoc, drop_app_length' by by rewrite length_map.
    rewrite take_app_length' by (by rewrite length_map). done. }
  assert (Hdrop : drop (length l1 + length l2 + 1) (array t) = junk').
  { rewrite E. replace ((map Some l1 ++ map Some l2) ++ j :: junk') with
      (((map Some l1 ++ map Some l2) ++ [j]) ++ junk') by (by rewrite <- app_assoc).
    apply drop_app_length'. rewrite !length_app, !length_map. simpl. lia. }
  assert (Htake : exists c, take (S (length l1)) (array t) = map Some l1 ++ [c]).
  { destruct l2 as [|y l2]; [simpl in *; lia|]. exists (Some y).
    rewrite E. simpl.
    replace ((map Some l1 ++ Some y :: map Some l2) ++ j :: junk') with
      ((map Some l1 ++ [Some y]) ++ map Some l2 ++ j :: junk') by (by rewrite <- !app_assoc).
    apply take_app_length'. rewrite length_app, length_map. simpl. lia. }
  destruct Htake as (c & ->). rewrite Hblock, Hdrop.
  unfold set_cell. simpl.
  destruct (Z.leb_spec 0 (Z.of_nat (length l1))); [|lia].
  destruct (Z.ltb_spec (Z.of_nat (length l1))
    (Z.of_nat (length ((map Some l1 ++ [c]) ++ map Some l2 ++ junk')))) as [|Hlt];
    [|rewrite !length_app, !length_map in Hlt; simpl in Hlt; lia].
  simpl. eexists; split; [reflexivity|]. split_and!; simpl.
  - rewrite length_app. simpl. lia.
  - rewrite length_insert, !length_app, !length_map. simpl. lia.
  - exists junk'. rewrite Nat2Z.id, map_app. simpl. rewrite <- !app_assoc.
    replace (length l1) with (length (map Some l1) + 0)%nat by (rewrite length_map; lia).
    rewrite insert_app_r. done.
Qed.

Lemma remove_at_pos_holds t l1 x l2 :
  holds t (l1 ++ x :: l2) ->
  exists t', tree_remove_at_pos t (Z.of_nat (length l1)) = Some (t', x) /\ holds t' (l1 ++ l2).
Proof.
  intros Hh. unfold tree_remove_at_pos.
  rewrite (cell_holds t _ (length l1) x Hh) by (by apply list_lookup_middle).
  destruct Hh as (He & Hs & junk & E). rewrite length_app in He. simpl in He.
  rewrite map_app in E. simpl in *.
  assert (Hlen : length (array t) = (length l1 + S (length l2) + length junk)%nat).
  { rewrite E, !length_app. simpl. rewrite !length_map. lia. }
  destruct (Z.eqb_spec (Z.of_nat (length l1)) (elements t - 1)) as [El|El]; simpl.
  { assert (l2 = []) as -> by (destruct l2; [done|simpl in *; lia]).
    eexists; split; [reflexivity|]. split_and!; simpl.
    - rewrite app_nil_r. simpl in *. lia.
    - done.
    - exists (Some x :: junk). rewrite E, app_nil_r. simpl. by rewrite <- app_assoc. }
  unfold memmove. simpl.
  repeat (z_case; [|lia]). simpl.
  eexists; split; [reflexivity|]. split_and!; simpl.
  - rewrite length_app. lia.
  - rewrite !length_app, length_take, length_take, !length_drop. lia.
  - eexists. rewrite map_app, <- app_assoc.
    replace (Z.to_nat (Z.of_nat (length l1))) with (length l1) by lia.
    replace (Z.to_nat (Z.of_nat (length l1) + 1)) with (S (length l1)) by lia.
    assert (Ht : take (length l1) (array t) = map Some l1).
    { rewrite E, <- app_assoc. apply take_app_length'. by rewrite length_map. }
    rewrite Ht. f_equal.
    assert (Hb : take (Z.to_nat (elements t - 1 - Z.of_nat (length l1)))
                   (drop (S (length l1)) (array t)) = map Some l2).
    { rewrite E, <- app_assoc. simpl.
      replace (map Some l1 ++ Some x :: map Some l2 ++ junk) with
        ((map Some l1 ++ [Some x]) ++ map Some l2 ++ junk) by (by rewrite <- app_assoc).
      rewrite drop_app_length' by (rewrite length_app, length_map; simpl; lia).
      apply take_app_length'. rewrite length_map. lia. }
    rewrite Hb. reflexivity.
Qed.
End refinement.

(** ** The search loops *)

Section loops.
Context {A : Type} (cmp : A -> A -> Z).
Implicit Types (t : tree A) (l : list A).

(** The position an insertion returns, judged by the neighbours alone: -1
    with an equal element present, or the length of a prefix whose last
    element is smaller and whose successor is greater than the key. *)
Definition insertion_result (l : list A) (key : A) (pos : Z) : Prop :=
  (pos = -1 /\ exists x, x ∈ l /\ cmp key x = 0) \/
  (exists l1 l2, l = l1 ++ l2 /\ pos = Z.of_nat (length l1) /\
    (forall x, last l1 = Some x -> cmp key x > 0) /\
    (forall y, head l2 = Some y -> cmp key y < 0)).

Lemma quot2_bounds lo hi :
  0 <= lo -> lo <= hi -> lo <= Z.quot (lo + hi) 2 <= hi /\ (lo < hi -> Z.quot (lo + hi) 2 < hi).
Proof. intros. rewrite Z.quot_div_nonneg by lia. pose proof (Z.div_mod (lo + hi) 2).
  pose proof (Z.mod_pos_bound (lo + hi) 2). lia. Qed.

Lemma split_at l (i : Z) x y :
  0 <= i -> l !! Z.to_nat i = Some x -> l !! Z.to_nat (i + 1) = Some y ->
  exists l1 l2, l = l1 ++ l2 /\ i + 1 = Z.of_nat (length l1) /\
    last l1 = Some x /\ head l2 = Some y.
Proof.
  intros Hi Hx Hy. replace (Z.to_nat (i + 1)) with (S (Z.to_nat i)) in Hy by lia.
  exists (take (S (Z.to_nat i)) l), (drop (S (Z.to_nat i)) l).
  pose proof (lookup_lt_Some _ _ _ Hy). split_and!.
  - by rewrite take_drop.
  - rewrite length_take. lia.
  - rewrite last_lookup, length_take, lookup_take. rewrite decide_True by lia.
    rewrite <- Hx. f_equal. lia.
  - rewrite head_lookup, lookup_drop. rewrite <- Hy. f_equal. lia.
Qed.

(** The loop stops inside the array whatever the callback computes. *)
Lemma insertion_loop_result t l key fuel lo hi xlo xhi :
  holds t l -> 0 <= lo -> lo <= hi -> (Z.to_nat (hi - lo) < fuel)%nat ->
  l !! Z.to_nat lo = Some xlo -> cmp key xlo >= 0 ->
  l !! Z.to_nat hi = Some xhi -> cmp key xhi <= 0 ->
  exists pos, insertion_loop fuel cmp t key lo hi = Some pos /\ insertion_result l key pos.
Proof.
  intros Ht. revert lo hi xlo xhi; induction fuel as [|fuel IH];
    intros lo hi xlo xhi Hlo Hle Hf Elo Clo Ehi Chi; [lia|]. simpl.
  destruct (quot2_bounds lo hi Hlo Hle) as [Hidx Hidx']. set (idx := Z.quot (lo + hi) 2) in *.
  pose proof (lookup_lt_Some _ _ _ Ehi) as Hhi.
  destruct (holds_lookup_lt l idx ltac:(lia)) as [x Ex].
  rewrite (cell_holds_Z t l idx x) by (done || lia). simpl.
  destruct (Z.ltb_spec (cmp key x) 0) as [C|C].
  { rewrite (proj2 (Z.gtb_lt _ _)) by lia.
    assert (lo <> idx) by (intros E; rewrite <- E, Elo in Ex; simplify_eq; lia).
    apply (IH lo idx xlo x); done || lia. }
  replace (0 >? cmp key x) with false by lia.
  destruct (Z.ltb_spec 0 (cmp key x)) as [C'|C'].
  - assert (idx <> hi) by (intros E; rewrite E, Ehi in Ex; simplify_eq; lia).
    destruct (holds_lookup_lt l (idx + 1) ltac:(lia)) as [y Ey].
    rewrite (cell_holds_Z t l (idx + 1) y) by (done || lia). simpl.
    destruct (Z.ltb_spec (cmp key y) 0) as [Cy|Cy].
    + rewrite (proj2 (Z.gtb_lt _ _)) by lia. eexists; split; [reflexivity|].
      destruct (split_at l idx x y) as (l1 & l2 & ? & ? & Hl1 & Hl2); [lia|done..|].
      right. exists l1, l2. split_and!; [done..| |].
      * intros z Hz. rewrite Hl1 in Hz. simplify_eq. lia.
      * intros z Hz. rewrite Hl2 in Hz. simplify_eq. lia.
    + replace (0 >? cmp key y) with false by lia.
      destruct (Z.eqb_spec (cmp key x) 0); [lia|].
      apply (IH (idx + 1) hi y xhi); done || lia.
  - simpl. destruct (Z.eqb_spec (cmp key x) 0); [|lia].
    eexists; split; [reflexivity|]. left. split; [done|].
    exists x. split; [by eapply list_elem_of_lookup_2|done].
Qed.

Lemma find_insertion_pos_small t l key :
  holds t l -> room t -> (length l < 2)%nat ->
  exists t' pos, tree_find_insertion_pos cmp t key = Some (t', pos, true) /\
    insertion_result l key pos /\
    if pos =? -1 then holds t' l
    else holds t' (take (Z.to_nat pos) l ++ key :: drop (Z.to_nat pos) l).
Proof.
  intros Ht Hr Hl. unfold tree_find_insertion_pos. pose proof Ht as (He & _ & _).
  destruct l as [|x [|]]; [| |simpl in Hl; lia]; simpl in He.
  - destruct (Z.ltb_spec (elements t) 1); [|lia].
    destruct (push_holds t [] key Ht Hr) as (t' & Hset & Ht' & Ee).
    change (Z.of_nat (length [])) with 0 in Hset.
          rewrite Hset. simpl. rewrite Ee. do 2 eexists; split_and!; [reflexivity| |done].
    right. exists [], []. by split_and!.
  - destruct (Z.ltb_spec (elements t) 1), (Z.ltb_spec (elements t) 2); try lia.
    rewrite (cell_holds_Z t [x] 0 x) by done. simpl.
    destruct (Z.eqb_spec (cmp key x) 0) as [C|C].
    { do 2 eexists; split_and!; [reflexivity| |done]. left. split; [done|].
      exists x. split; [by constructor|done]. }
    destruct (Z.ltb_spec 0 (cmp key x)) as [C'|C'].
    + rewrite (proj2 (Z.gtb_lt _ _)) by lia.
      destruct (push_holds t [x] key Ht Hr) as (t' & Hset & Ht' & Ee).
      change (Z.of_nat (length [x])) with 1 in Hset.
      rewrite set_cell_set_elements, Hset. simpl.
      do 2 eexists; split_and!; [reflexivity| |exact Ht'].
      right. exists [x], []. split_and!; [done..| |done]. intros; simplify_eq/=; lia.
    + replace (cmp key x >? 0) with false by lia.
      destruct (push_holds t [x] x Ht Hr) as (t' & Hset & Ht' & Ee).
      change (Z.of_nat (length [x])) with 1 in Hset.
      destruct (set_cell_holds _ _ 0 key Ht') as (t'' & Hset'' & Ht'' & _); [simpl; lia|].
      change (Z.of_nat 0) with 0 in Hset''.
      rewrite set_cell_set_elements, Hset. simpl.
      rewrite Hset''. simpl.
      do 2 eexists; split_and!; [reflexivity| |exact Ht''].
      right. exists [], [x]. split_and!; [done..|]. intros; simplify_eq/=; lia.
Qed.

Lemma find_insertion_pos_large t l key :
  holds t l -> (2 <= length l)%nat ->
  exists pos, tree_find_insertion_pos cmp t key = Some (t, pos, false) /\
    insertion_result l key pos.
Proof.
  intros Ht Hl. unfold tree_find_insertion_pos. pose proof Ht as (He & _ & _).
  destruct (Z.ltb_spec (elements t) 1), (Z.ltb_spec (elements t) 2); try lia.
  destruct l as [|x l']; [simpl in Hl; lia|].
  rewrite (cell_holds_Z t (x :: l') 0 x) by done. simpl.
  destruct (Z.ltb_spec (cmp key x) 0) as [C|C].
  { eexists; split; [reflexivity|]. right. exists [], (x :: l').
    split_and!; [done..|]. intros; simplify_eq/=; done. }
  destruct (holds_lookup_lt (x :: l') (elements t - 1) ltac:(lia)) as [y Ey].
  rewrite (cell_holds_Z t (x :: l') (elements t - 1) y) by (done || lia). simpl.
  destruct (Z.ltb_spec 0 (cmp key y)) as [C'|C'].
  { rewrite (proj2 (Z.gtb_lt _ _)) by lia. eexists; split; [reflexivity|].
    right. exists (x :: l'), []. rewrite app_nil_r. split_and!; [done..| |done].
    intros z Hz. rewrite last_lookup in Hz.
    replace (pred (length (x :: l'))) with (Z.to_nat (elements t - 1)) in Hz by lia.
    rewrite Ey in Hz. simplify_eq. lia. }
  replace (cmp key y >? 0) with false by lia.
  destruct (insertion_loop_result t (x :: l') key (Z.to_nat (elements t)) 0
    (elements t - 1) x y) as (pos & -> & Hpos); try done; try lia.
  simpl. eauto.
Qed.

(** Insertion never leaves the array, never loops, and whatever the callback
    answers the result is decided by the neighbours. *)
Lemma tree_insert_result t l key :
  holds t l ->
  exists t' pos, tree_insert cmp t key = Some (t', pos) /\
    ((pos = -1 /\ holds t' l /\ exists x, x ∈ l /\ cmp key x = 0) \/
     (exists l1 l2, l = l1 ++ l2 /\ pos = Z.of_nat (length l1) /\
        holds t' (l1 ++ key :: l2) /\
        (forall x, last l1 = Some x -> cmp key x > 0) /\
        (forall y, head l2 = Some y -> cmp key y < 0))).
Proof.
  intros Ht. apply grow_holds in Ht as [Ht Hr]. unfold tree_insert.
  destruct (le_lt_dec 2 (length l)) as [Hl|Hl].
  - destruct (find_insertion_pos_large (tree_grow t) l key Ht Hl) as (pos & -> & Hpos). simpl.
    destruct Hpos as [[-> Hx]|(l1 & l2 & -> & -> & H1 & H2)]; [simpl; naive_solver|].
    destruct (insert_at_pos_holds (tree_grow t) l1 l2 key Ht Hr) as (t' & Hins & Ht').
    destruct (Z.eqb_spec (Z.of_nat (length l1)) (-1)); [lia|]. simpl. rewrite Hins. simpl.
    do 2 eexists; split; [reflexivity|]. right. exists l1, l2. split_and!; done.
  - destruct (find_insertion_pos_small (tree_grow t) l key Ht Hr Hl) as (t' & pos & -> & Hpos & H).
    simpl. do 2 eexists; split; [reflexivity|].
    destruct Hpos as [[-> Hx]|(l1 & l2 & -> & -> & H1 & H2)]; [naive_solver|].
    destruct (Z.eqb_spec (Z.of_nat (length l1)) (-1)); [lia|].
    rewrite Nat2Z.id, take_app_length, drop_app_length in H.
    right. exists l1, l2. split_and!; done.
Qed.

End loops.

Section find.
Context {A K : Type} (kcmp : K -> A -> Z).
Implicit Types (t : tree A) (l : list A).

(** [kcmp k] is compatible with the array's order: once below, below for the
    rest; above, above for everything before. *)
Definition key_monotone (k : K) (l : list A) : Prop :=
  forall i j x y, (i < j)%nat -> l !! i = Some x -> l !! j = Some y ->
    (kcmp k x < 0 -> kcmp k y < 0) /\ (kcmp k y > 0 -> kcmp k x > 0).

Lemma mybsearch_loop_result t l k fuel lo hi :
  holds t l -> 0 <= lo -> hi <= Z.of_nat (length l) -> (Z.to_nat (hi - lo) < fuel)%nat ->
  key_monotone k l ->
  (forall i x, l !! i = Some x -> Z.of_nat i < lo -> kcmp k x > 0) ->
  (forall i x, l !! i = Some x -> hi <= Z.of_nat i -> kcmp k x < 0) ->
  exists r, mybsearch_loop fuel k t kcmp lo hi = Some r /\
    match r with
    | Some (x, pos) => 0 <= pos /\ l !! Z.to_nat pos = Some x /\ kcmp k x = 0
    | None => forall x, x ∈ l -> kcmp k x <> 0
    end.
Proof.
  intros Ht Hlo Hhi Hf Hmono. revert lo hi Hlo Hhi Hf.
  induction fuel as [|fuel IH]; intros lo hi Hlo Hhi Hf Hbelow Habove; [lia|]. simpl.
  destruct (Z.ltb_spec lo hi) as [Hlt|Hge].
  - destruct (quot2_bounds lo hi ltac:(lia) ltac:(lia)) as [Hidx Hidx'].
    set (idx := Z.quot (lo + hi) 2) in *.
    destruct (holds_lookup_lt l idx ltac:(lia)) as [x Ex].
    rewrite (cell_holds_Z t l idx x) by (done || lia). simpl.
    destruct (Z.ltb_spec (kcmp k x) 0) as [C|C].
    { apply IH; [lia..|done|]. intros i y Ey Hi.
      destruct (decide (i = Z.to_nat idx)) as [->|Hne]; [naive_solver|].
      destruct (Hmono (Z.to_nat idx) i x y) as [H _]; [lia|done..|auto]. }
    destruct (Z.ltb_spec 0 (kcmp k x)) as [C'|C'].
    { rewrite (proj2 (Z.gtb_lt _ _)) by lia. apply IH; [lia..| |done]. intros i y Ey Hi.
      destruct (decide (i = Z.to_nat idx)) as [->|Hne]; [rewrite Ex in Ey; simplify_eq; lia|].
      destruct (Hmono i (Z.to_nat idx) y x) as [_ H]; [lia|done..|]. apply H. lia. }
    replace (kcmp k x >? 0) with false by lia.
    eexists; split; [reflexivity|]. split_and!; [lia|done|lia].
  - eexists; split; [reflexivity|]. intros x Hx.
    apply list_elem_of_lookup in Hx as [i Ex].
    destruct (Z.lt_ge_cases (Z.of_nat i) lo) as [Hi|Hi].
    + pose proof (Hbelow i x Ex Hi). lia.
    + pose proof (Habove i x Ex ltac:(lia)). lia.
Qed.

Lemma tree_find_result t l k :
  holds t l -> key_monotone k l ->
  exists r, tree_find t k kcmp = Some r /\
    match r with
    | Some (x, pos) => 0 <= pos /\ l !! Z.to_nat pos = Some x /\ kcmp k x = 0
    | None => forall x, x ∈ l -> kcmp k x <> 0
    end.
Proof.
  intros Ht Hmono. unfold tree_find, mybsearch. pose proof Ht as (He & Hs & junk & E).
  destruct (Z.eqb_spec (array_size t) 0) as [H0|H0].
  - eexists; split; [reflexivity|]. intros x Hx.
    destruct l; [by apply not_elem_of_nil in Hx|].
    rewrite Hs, E, length_app in H0. simpl in H0. lia.
  - apply mybsearch_loop_result with (l := l); try done; try lia.
    intros i x Ex Hi. apply lookup_lt_Some in Ex. lia.
Qed.
End find.

(** ** Sorted arrays *)

Section ordered.
Context {A : Type} (D : A -> Prop) (cmp : A -> A -> Z) `{!CmpOrder D cmp}.
Implicit Types (t : tree A) (l : list A).

Definition ordered l : Prop := StronglySorted (fun x y => cmp x y < 0) l.

Lemma ordered_app l1 l2 :
  ordered (l1 ++ l2) <->
  ordered l1 /\ ordered l2 /\ (forall x y, x ∈ l1 -> y ∈ l2 -> cmp x y < 0).
Proof. unfold ordered. rewrite StronglySorted_app. tauto. Qed.

Lemma ordered_lookup_lt l i j x y :
  ordered l -> (i < j)%nat -> l !! i = Some x -> l !! j = Some y -> cmp x y < 0.
Proof.
  intros Ho Hij Hi Hj. rewrite <- (take_drop_middle l i x Hi) in Ho, Hj.
  apply ordered_app in Ho as (_ & [_ Ho]%StronglySorted_inv & _).
  pose proof (lookup_lt_Some _ _ _ Hi).
  rewrite lookup_app_r in Hj by (rewrite length_take; lia).
  rewrite length_take in Hj.
  replace (j - i `min` length l)%nat with (S (j - S i)) in Hj by lia. simpl in Hj.
  rewrite Forall_lookup in Ho. by eapply Ho.
Qed.

Lemma ordered_snoc_last l x z :
  ordered l -> last l = Some z -> x ∈ l -> x = z \/ cmp x z < 0.
Proof.
  intros Ho [l' ->]%last_Some Hx. apply ordered_app in Ho as (_ & _ & H).
  apply elem_of_app in Hx as [Hx|Hx%list_elem_of_singleton]; [|by left].
  right. apply H; [done|by constructor].
Qed.

Lemma ordered_cons_head l x z :
  ordered l -> head l = Some z -> x ∈ l -> x = z \/ cmp z x < 0.
Proof.
  destruct l as [|y l]; [done|]. intros [_ H]%StronglySorted_inv ? Hx. simplify_eq/=.
  apply elem_of_cons in Hx as [->|Hx]; [by left|]. right.
  rewrite Forall_forall in H. auto.
Qed.

(** A key between two neighbours is on the right side of everything. *)
Lemma neighbours_suffice l1 l2 key :
  D key -> Forall D (l1 ++ l2) -> ordered (l1 ++ l2) ->
  (forall x, last l1 = Some x -> cmp key x > 0) ->
  (forall y, head l2 = Some y -> cmp key y < 0) ->
  (forall x, x ∈ l1 -> cmp x key < 0) /\ (forall y, y ∈ l2 -> cmp key y < 0).
Proof.
  intros Dk [D1 D2]%Forall_app (O1 & O2 & _)%ordered_app H1 H2.
  rewrite Forall_forall in D1, D2. split.
  - intros x Hx. destruct (last l1) as [z|] eqn:El.
    2: { apply last_None in El as ->. by apply not_elem_of_nil in Hx. }
    assert (z ∈ l1) by (apply last_Some in El as [? ->]; set_solver).
    assert (cmp z key < 0) by (apply cmp_gt_lt with D; auto; specialize (H1 z eq_refl); lia).
    destruct (ordered_snoc_last l1 x z O1 El Hx) as [->|?]; [done|].
    apply (cmp_lt_le_trans D cmp x z key); auto. lia.
  - intros y Hy. destruct (head l2) as [z|] eqn:El.
    2: { destruct l2; [by apply not_elem_of_nil in Hy|done]. }
    assert (z ∈ l2) by (destruct l2; simplify_eq/=; by constructor).
    specialize (H2 z eq_refl).
    destruct (ordered_cons_head l2 y z O2 El Hy) as [->|?]; [done|].
    apply (cmp_lt_le_trans D cmp key z y); auto. lia.
Qed.

Lemma ordered_insert l1 l2 key :
  ordered (l1 ++ l2) -> (forall x, x ∈ l1 -> cmp x key < 0) ->
  (forall y, y ∈ l2 -> cmp key y < 0) -> ordered (l1 ++ key :: l2).
Proof.
  intros (O1 & O2 & O12)%ordered_app H1 H2. apply ordered_app. split_and!; [done| |].
  - constructor; [done|]. by apply Forall_forall.
  - intros x y Hx [->|Hy]%elem_of_cons; auto.
Qed.

Lemma ordered_remove l1 x l2 : ordered (l1 ++ x :: l2) -> ordered (l1 ++ l2).
Proof.
  intros (O1 & [O2 _]%StronglySorted_inv & O12)%ordered_app. apply ordered_app.
  split_and!; [done..|]. intros. apply O12; [done|by constructor].
Qed.

Lemma ordered_monotone l key :
  D key -> Forall D l -> ordered l -> key_monotone cmp key l.
Proof.
  intros Dk Dl Ho i j x y Hij Hi Hj.
  pose proof (ordered_lookup_lt l i j x y Ho Hij Hi Hj) as Hxy.
  rewrite Forall_lookup in Dl. pose proof (Dl i x Hi). pose proof (Dl j y Hj).
  split; intros C.
  - apply (cmp_lt_le_trans D cmp key x y); auto. lia.
  - apply Z.lt_gt, (cmp_gt_lt D cmp); auto.
    apply (cmp_lt_le_trans D cmp x y key); auto.
    apply Z.lt_le_incl, (cmp_gt_lt D cmp); auto. lia.
Qed.

(** Strict order: at most one element equals a key. *)
Lemma ordered_eq_unique l key i j x y :
  D key -> Forall D l -> ordered l -> l !! i = Some x -> l !! j = Some y ->
  cmp key x = 0 -> cmp key y = 0 -> i = j.
Proof.
  intros Dk Dl Ho Hi Hj Ex Ey. rewrite Forall_lookup in Dl.
  assert (Hlt : forall i j x y, l !! i = Some x -> l !! j = Some y ->
    cmp key x = 0 -> cmp key y = 0 -> (i < j)%nat -> False).
  { clear i j x y Hi Hj Ex Ey. intros i j x y Hi Hj Ex Ey Hij.
    pose proof (ordered_lookup_lt l i j x y Ho Hij Hi Hj).
    pose proof (cmp_eq_compat D cmp key x y Dk (Dl _ _ Hi) (Dl _ _ Hj) Ex). lia. }
  destruct (Nat.lt_trichotomy i j) as [Hij|[Hij|Hij]]; [|done|]; exfalso; eauto.
Qed.

Lemma tree_remove_result t l1 x l2 key :
  holds t (l1 ++ x :: l2) -> ordered (l1 ++ x :: l2) -> Forall D (l1 ++ x :: l2) -> D key ->
  cmp key x = 0 ->
  exists t', tree_remove cmp t key = Some (t', Some (Z.of_nat (length l1))) /\
    holds t' (l1 ++ l2).
Proof.
  intros Ht Ho Dl Dk Ex. unfold tree_remove.
  destruct (tree_find_result cmp t _ key Ht (ordered_monotone _ key Dk Dl Ho)) as (r & -> & Hr).
  simpl. destruct r as [[y pos]|].
  - destruct Hr as (Hpos & Hy & Ey).
    assert (Z.to_nat pos = length l1).
    { apply (ordered_eq_unique (l1 ++ x :: l2) key _ _ y x); try done.
      by apply list_lookup_middle. }
    assert (pos = Z.of_nat (length l1)) as -> by lia.
    destruct (remove_at_pos_holds t l1 x l2 Ht) as (t' & -> & Ht'). simpl. eauto.
  - exfalso. apply (Hr x); [set_solver|done].
Qed.
End ordered.

(** ** Properties *)

(** With a lawful comparison callback [tree_insert] refines insertion into a
    sorted list: it is refused (-1) exactly when an equal element is present,
    and otherwise the key enters at the returned row and the array stays
    sorted. *)
Theorem tree_insert_refines {A} (D : A -> Prop) (cmp : A -> A -> Z) t l key :
  CmpOrder D cmp -> holds t l -> ordered cmp l -> Forall D l -> D key ->
  exists t' pos, tree_insert cmp t key = Some (t', pos) /\
    ((pos = -1 /\ holds t' l /\ exists x, x ∈ l /\ cmp key x = 0) \/
     (exists l1 l2, l = l1 ++ l2 /\ pos = Z.of_nat (length l1) /\
        holds t' (l1 ++ key :: l2) /\ ordered cmp (l1 ++ key :: l2) /\
        forall x, x ∈ l -> cmp key x <> 0)).
Proof.
  intros HC Ht Ho Dl Dk.
  destruct (tree_insert_result cmp t l key Ht) as (t' & pos & -> & H).
  do 2 eexists; split; [reflexivity|]. destruct H as [?|(l1 & l2 & -> & -> & Ht' & H1 & H2)]; [by left|].
  destruct (neighbours_suffice D cmp l1 l2 key Dk Dl Ho H1 H2) as [Hl1 Hl2].
  right. exists l1, l2. split_and!; [done..| |].
  - by apply ordered_insert.
  - intros x Hx E. rewrite Forall_forall in Dl. apply elem_of_app in Hx as [Hx|Hx].
    + assert (cmp x key = 0) by (apply (cmp_eq_sym D cmp key x); auto; apply Dl; set_solver).
      pose proof (Hl1 x Hx). lia.
    + pose proof (Hl2 x Hx). lia.
Qed.

(** Whatever the callback answers, even with no consistent order,
    [tree_insert] on a well-formed array terminates, stays inside the allocated
    cells and either leaves the contents alone or adds the key once. *)
Theorem tree_insert_safe {A} (cmp : A -> A -> Z) t l key :
  holds t l ->
  exists t' pos l', tree_insert cmp t key = Some (t', pos) /\ holds t' l' /\
    ((pos = -1 /\ l' = l) \/ (0 <= pos <= tree_size t /\ l' ≡ₚ key :: l)).
Proof.
  intros Ht. destruct (tree_insert_result cmp t l key Ht) as (t' & pos & -> & H).
  destruct Ht as (He & _).
  destruct H as [(-> & Ht' & _)|(l1 & l2 & -> & -> & Ht' & _ & _)]; do 3 eexists;
    split_and!; [reflexivity|exact Ht'|by left|reflexivity|exact Ht'|].
  right. unfold tree_size. rewrite length_app in He. split; [lia|].
  symmetry. apply Permutation_middle.
Qed.

(** [tree_remove] undoes [tree_insert]. *)
Theorem tree_remove_insert {A} (D : A -> Prop) (cmp : A -> A -> Z) t l key t1 pos :
  CmpOrder D cmp -> holds t l -> ordered cmp l -> Forall D l -> D key ->
  tree_insert cmp t key = Some (t1, pos) -> pos <> -1 ->
  exists t2, tree_remove cmp t1 key = Some (t2, Some pos) /\ holds t2 l.
Proof.
  intros HC Ht Ho Dl Dk Hins Hpos.
  destruct (tree_insert_result cmp t l key Ht) as (t' & pos' & E & H).
  rewrite E in Hins. simplify_eq.
  destruct H as [(-> & _)|(l1 & l2 & -> & -> & Ht' & H1 & H2)]; [done|].
  destruct (neighbours_suffice D cmp l1 l2 key Dk Dl Ho H1 H2) as [Hl1 Hl2].
  apply (tree_remove_result D cmp t1 l1 key l2 key); try done.
  - by apply ordered_insert.
  - apply Forall_app in Dl as [? ?]. apply Forall_app. by split; [|constructor].
  - by apply (cmp_refl D cmp).
Qed.

(** *** Witnesses *)

#[local] Instance Zsub_order : CmpOrder (fun _ => True) Z.sub.
Proof. split; intros; lia. Qed.

Definition tree_123 : tree Z := Tree 3 4 [Some 1; Some 3; Some 5; None].

Lemma tree_123_holds : holds tree_123 [1; 3; 5].
Proof. split_and!; [done..|]. by exists [None]. Qed.

Lemma tree_123_ordered : ordered Z.sub [1; 3; 5].
Proof. repeat constructor. Qed.

Lemma tree_insert_refines_witness :
  exists t' pos, tree_insert Z.sub tree_123 4 = Some (t', pos) /\ pos <> -1.
Proof.
  destruct (tree_insert_refines (fun _ => True) Z.sub tree_123 [1; 3; 5] 4 Zsub_order
    tree_123_holds tree_123_ordered) as (t' & pos & E & _); [by repeat constructor|done|].
  exists t', pos. split; [exact E|]. vm_compute in E. injection E as _ <-. discriminate.
Defined.

Lemma tree_insert_safe_witness :
  exists t' pos l', tree_insert (fun _ _ => 1) tree_123 2 = Some (t', pos) /\ holds t' l'.
Proof.
  destruct (tree_insert_safe (fun _ _ => 1) tree_123 [1; 3; 5] 2 tree_123_holds)
    as (t' & pos & l' & E & H & _). eauto.
Defined.

Lemma tree_remove_insert_witness :
  exists t1 pos t2, tree_insert Z.sub tree_123 4 = Some (t1, pos) /\
    tree_remove Z.sub t1 4 = Some (t2, Some pos) /\ holds t2 [1; 3; 5].
Proof.
  destruct (tree_insert Z.sub tree_123 4) as [[t1 pos]|] eqn:E; [|vm_compute in E; discriminate].
  exists t1, pos.
  destruct (tree_remove_insert (fun _ => True) Z.sub tree_123 [1; 3; 5] 4 t1 pos Zsub_order
    tree_123_holds tree_123_ordered) as (t2 & H1 & H2); [by repeat constructor|done|exact E| |].
  { vm_compute in E. injection E as _ <-. discriminate. }
  exists t2. split_and!; done.
Defined.
