(* ===== verification/Access.v ===== *)
(** * Channel prefixes, nick modes and CHANMODES (src/common/modes.c)

    The parts of [struct server] that numeric 005 fills in and the functions
    that read them: who has which access, which modes take an argument. *)
From S2P Require Import Prelude.

Definition USERACCESS_SIZE : nat := 12.

(** The fields of [struct server] set from ISUPPORT that the lookups use. *)
Record isupport := ISupport {
  chantypes : cstr;
  chanmodes : cstr;
  nick_prefixes : cstr;              (* e.g. "*@%+" *)
  nick_modes : cstr;                 (* e.g. "aohv" *)
  bad_prefix : bool;
  bad_nick_prefixes : option cstr }.

(** [strchr (s, c) != NULL]: the NUL of [s] is found too. *)
Definition strchr_b (s : cstr) (c : ascii) : bool := (c =c NUL) || existsb (fun x => x =c c) s.

(** [strchr (s, c) - s] where a character of [s] is found. *)
Fixpoint index_of (c : ascii) (s : cstr) : option nat :=
  match s with
  | [] => None
  | x :: s' => if x =c c then Some O else S <$> index_of c s'
  end.

(** does 'chan' have a valid prefix? *)
Definition is_channel (serv : isupport) (chan : cstr) : bool := strchr_b (chantypes serv) (peek chan).

(** The [while (np[0])] scan. *)
Fixpoint prefix_scan (np : cstr) (pos : Z) (c : ascii) : option Z :=
  match np with
  | [] => None
  | x :: np' => if x =c c then Some pos else prefix_scan np' (pos + 1) c
  end.

Definition is_prefix_char (serv : isupport) (c : ascii) : Z :=
  match prefix_scan (nick_prefixes serv) 0 c with
  | Some pos => pos
  | None =>
      if bad_prefix serv then
        match bad_nick_prefixes serv with
        | Some bad => if strchr_b bad c then -2 else -1
        | None => -1
        end
      else -1
  end.

Fixpoint get_nick_prefix_loop (np : cstr) (pos : Z) (n : nat) (access : Z) {struct n} : ascii :=
  match n with
  | O => NUL
  | S n =>
      match np with
      | [] => NUL
      | c :: np' =>
          if negb (Z.land access (Z.shiftl 1 pos) =? 0) then c
          else get_nick_prefix_loop np' (pos + 1) n access
      end
  end.

(** returns '@' for ops etc. *)
Definition get_nick_prefix (serv : isupport) (access : Z) : ascii :=
  get_nick_prefix_loop (nick_prefixes serv) 0 USERACCESS_SIZE access.

(** [1 << i] in a 32-bit [int]: a shift that leaves its 31 value bits is undefined. *)
Definition int_bit (i : Z) : option Z := if (0 <=? i) && (i <? 31) then Some (Z.shiftl 1 i) else None.

Fixpoint nick_access_loop (serv : isupport) (nick : cstr) (access modechars : Z) : option (Z * Z) :=
  match nick with
  | [] => Some (access, modechars)
  | c :: nick' =>
      let i := is_prefix_char serv c in
      if i =? -1 then Some (access, modechars)
      else
        access ← (if negb (i =? -2) then Z.lor access <$> int_bit i else Some access);
        nick_access_loop serv nick' access (modechars + 1)
  end.

(** The access bits and the number of prefix characters of a nickname. *)
Definition nick_access (serv : isupport) (nick : cstr) : option (Z * Z) := nick_access_loop serv nick 0 0.

(** The position of a mode and its prefix character; [None] is a read past the
    end of [nick_prefixes] when that is shorter than [nick_modes]. *)
Definition mode_access (serv : isupport) (mode : ascii) : option (Z * ascii) :=
  match index_of mode (nick_modes serv) with
  | Some pos =>
      prefix ← zlookup (nick_prefixes serv ++ [NUL]) (Z.of_nat pos);
      Some (Z.of_nat pos, prefix)
  | None => Some (-1, NUL)
  end.

Fixpoint chanmode_scan (cm : cstr) (type : Z) (mode : ascii) : Z :=
  match cm with
  | [] => -1
  | c :: cm' =>
      if c =c "," then chanmode_scan cm' (type + 1) mode
      else if c =c mode then type
      else chanmode_scan cm' type mode
  end.

Definition mode_chanmode_type (serv : isupport) (mode : ascii) : Z :=
  chanmode_scan (chanmodes serv) 0 mode.

Definition mode_has_arg (serv : isupport) (sign mode : ascii) : bool :=
  if strchr_b (nick_modes serv) mode then true
  else
    let type := mode_chanmode_type serv mode in
    if (type =? 0) || (type =? 1) then true
    else if type =? 2 then (sign =c "+")
    else false.

(** ** Lookup lemmas *)

Lemma strchr_b_spec s c : c <> NUL -> strchr_b s c = true <-> c ∈ s.
Proof.
  intros Hc. unfold strchr_b. destruct (Ascii.eqb_spec c NUL); [done|]. simpl.
  rewrite existsb_exists, list_elem_of_In. split.
  - intros (x & Hx & <-%Ascii.eqb_eq). done.
  - intros H. exists c. by rewrite Ascii.eqb_refl.
Qed.

Lemma index_of_Some c s i : index_of c s = Some i -> s !! i = Some c.
Proof.
  revert i; induction s as [|x s IH]; intros i; simpl; [done|].
  destruct (Ascii.eqb_spec x c) as [->|]; [by intros [= <-]|].
  destruct (index_of c s) as [j|]; intros [= <-]. by apply IH.
Qed.

Lemma index_of_None c s : index_of c s = None <-> c ∉ s.
Proof.
  induction s as [|x s IH]; simpl; [by split; [intros _; apply not_elem_of_nil|]|].
  destruct (Ascii.eqb_spec x c) as [->|Hx].
  - split; [done|]. intros H. exfalso. apply H. by constructor.
  - rewrite not_elem_of_cons, <- IH. destruct (index_of c s); simpl; naive_solver.
Qed.

Lemma index_of_split c s i :
  index_of c s = Some i -> s = take i s ++ c :: drop (S i) s /\ (c ∉ take i s) /\ (i < length s)%nat.
Proof.
  revert i; induction s as [|x s IH]; intros i; simpl; [done|].
  destruct (Ascii.eqb_spec x c) as [->|Hx].
  - intros [= <-]. simpl. rewrite drop_0. split_and!; [done|apply not_elem_of_nil|lia].
  - destruct (index_of c s) as [j|]; intros [= <-]. destruct (IH j eq_refl) as (E & Hj & Hl). simpl.
    split_and!; [by f_equal|by apply not_elem_of_cons|lia].
Qed.

Lemma index_of_nth s i c : NoDup s -> s !! i = Some c -> index_of c s = Some i.
Proof.
  intros Hs. revert i; induction Hs as [|x s Hx Hs IH]; intros [|i] Hi; simplify_eq/=.
  - by rewrite Ascii.eqb_refl.
  - destruct (Ascii.eqb_spec x c) as [->|]; [|by rewrite (IH i Hi)].
    exfalso. apply Hx. by eapply list_elem_of_lookup_2.
Qed.

Lemma prefix_scan_index np pos c :
  prefix_scan np pos c = (fun i => pos + Z.of_nat i) <$> index_of c np.
Proof.
  revert pos; induction np as [|x np IH]; intros pos; simpl; [done|].
  destruct (x =c c); simpl; [f_equal; lia|].
  rewrite IH. destruct (index_of c np); simpl; [f_equal; lia|done].
Qed.

(** Without the bad-prefix fallback the result is the index of the prefix. *)
Lemma is_prefix_char_index serv c :
  bad_prefix serv = false ->
  is_prefix_char serv c =
  match index_of c (nick_prefixes serv) with Some i => Z.of_nat i | None => -1 end.
Proof.
  intros Hb. unfold is_prefix_char. rewrite prefix_scan_index, Hb.
  destruct (index_of c (nick_prefixes serv)); simpl; lia.
Qed.

Lemma land_shiftl_bit a i : 0 <= i -> negb (Z.land a (Z.shiftl 1 i) =? 0) = Z.testbit a i.
Proof.
  intros Hi. rewrite Z.shiftl_1_l. destruct (Z.testbit a i) eqn:E.
  - destruct (Z.eqb_spec (Z.land a (2 ^ i)) 0) as [H|]; [|done].
    apply (f_equal (fun z => Z.testbit z i)) in H.
    rewrite Z.land_spec, Z.pow2_bits_true, Z.bits_0, E in H by done. done.
  - destruct (Z.eqb_spec (Z.land a (2 ^ i)) 0) as [|H]; [done|].
    exfalso. apply H. apply Z.bits_inj'. intros n Hn.
    rewrite Z.land_spec, Z.bits_0. destruct (Z.eq_dec i n) as [->|Hne]; [by rewrite E|].
    rewrite Z.pow2_bits_false by done. apply andb_false_r.
Qed.

Lemma testbit_set a i j : 0 <= i -> 0 <= j ->
  Z.testbit (Z.lor a (Z.shiftl 1 i)) j = Z.testbit a j || bool_decide (i = j).
Proof.
  intros Hi Hj. rewrite Z.lor_spec, Z.shiftl_1_l. f_equal.
  case_bool_decide as H; [subst; by apply Z.pow2_bits_true|]. by apply Z.pow2_bits_false.
Qed.

Lemma get_nick_prefix_loop_spec np pos n access :
  0 <= pos ->
  (exists i, np !! i = Some (get_nick_prefix_loop np pos n access) /\ (i < n)%nat /\
     Z.testbit access (pos + Z.of_nat i) = true /\
     forall j, (j < i)%nat -> Z.testbit access (pos + Z.of_nat j) = false) \/
  (get_nick_prefix_loop np pos n access = NUL /\
     forall i, (i < n)%nat -> (i < length np)%nat -> Z.testbit access (pos + Z.of_nat i) = false).
Proof.
  revert np pos; induction n as [|n IH]; intros np pos Hpos; simpl.
  { right. split; [done|]. intros; lia. }
  destruct np as [|c np]; [right; split; [done|]; intros i _ Hi; simpl in Hi; lia|].
  rewrite land_shiftl_bit by done. destruct (Z.testbit access pos) eqn:E.
  - left. exists O. rewrite Z.add_0_r. split_and!; [done|lia|done|lia].
  - destruct (IH np (pos + 1) ltac:(lia)) as [(i & H1 & H2 & H3 & H4)|[H1 H2]].
    + left. exists (S i). split_and!; [done|lia| |].
      * rewrite <- H3. f_equal. lia.
      * intros [|j] Hj; [by rewrite Z.add_0_r|].
        rewrite <- (H4 j) by lia. f_equal. lia.
    + right. split; [done|]. intros [|i] Hi Hl; [by rewrite Z.add_0_r|].
      rewrite <- (H2 i) by (simpl in Hl; lia). f_equal. lia.
Qed.

Lemma int_bit_small i : 0 <= i < 31 -> int_bit i = Some (Z.shiftl 1 i).
Proof. intros Hi. unfold int_bit. destruct (Z.leb_spec 0 i), (Z.ltb_spec i 31); (done || lia). Qed.

(** The bits and the count gathered over the prefix characters. *)
Lemma nick_access_loop_spec serv pre rest access n :
  bad_prefix serv = false -> (length (nick_prefixes serv) <= 31)%nat ->
  Forall (fun c => c ∈ nick_prefixes serv) pre ->
  (forall c, head rest = Some c -> c ∉ nick_prefixes serv) ->
  exists bits, nick_access_loop serv (pre ++ rest) access n = Some (bits, n + Z.of_nat (length pre)) /\
    forall i, Z.testbit bits (Z.of_nat i) = true <->
      Z.testbit access (Z.of_nat i) = true \/
      exists c, c ∈ pre /\ index_of c (nick_prefixes serv) = Some i.
Proof.
  intros Hb Hw Hpre Hrest. revert access n; induction Hpre as [|c pre Hc Hpre IH]; intros access n; simpl.
  - exists access. split.
    + destruct rest as [|c rest]; simpl; [do 2 f_equal; lia|].
      rewrite is_prefix_char_index by done. specialize (Hrest c eq_refl).
      apply index_of_None in Hrest. rewrite Hrest. simpl. do 2 f_equal. lia.
    + intros i. split; [by left|]. intros [|(c & Hc & _)]; [done|]. by apply not_elem_of_nil in Hc.
  - rewrite is_prefix_char_index by done.
    destruct (index_of c (nick_prefixes serv)) as [k|] eqn:Ek.
    2: { apply index_of_None in Ek. done. }
    destruct (Z.eqb_spec (Z.of_nat k) (-1)), (Z.eqb_spec (Z.of_nat k) (-2)); try lia. simpl.
    assert (Hk : (k < length (nick_prefixes serv))%nat) by (apply index_of_Some in Ek; by apply lookup_lt_Some in Ek).
    rewrite int_bit_small by lia. simpl.
    destruct (IH (Z.lor access (Z.shiftl 1 (Z.of_nat k))) (n + 1)) as (bits & -> & Hbits).
    exists bits. split; [do 2 f_equal; lia|]. intros i. rewrite Hbits, testbit_set by lia.
    rewrite orb_true_iff, bool_decide_eq_true. split.
    + intros [[?|Hki]|(d & ? & ?)]; [by left| |].
      * right. exists c. split; [by constructor|]. rewrite Ek. f_equal. lia.
      * right. exists d. split; [by constructor|done].
    + intros [?|(d & [->|Hd]%elem_of_cons & Hi)]; [by left; left| |].
      * left. right. rewrite Ek in Hi. simplify_eq. done.
      * right. eauto.
Qed.

(** ** Properties *)

(** [nick_access] strips exactly the leading prefix characters and sets
    the bit of each; [get_nick_prefix] of that access is the highest-ranked of
    them (the one that comes first in PREFIX). *)
Theorem nick_access_highest serv pre rest :
  bad_prefix serv = false -> NoDup (nick_prefixes serv) ->
  (length (nick_prefixes serv) <= USERACCESS_SIZE)%nat ->
  Forall (fun c => c ∈ nick_prefixes serv) pre -> pre <> [] ->
  (forall c, head rest = Some c -> c ∉ nick_prefixes serv) ->
  exists access, nick_access serv (pre ++ rest) = Some (access, Z.of_nat (length pre)) /\
  exists i, nick_prefixes serv !! i = Some (get_nick_prefix serv access) /\
    get_nick_prefix serv access ∈ pre /\
    forall j c, c ∈ pre -> nick_prefixes serv !! j = Some c -> (i <= j)%nat.
Proof.
  intros Hb Hnd Hlen Hpre Hne Hrest. unfold nick_access.
  destruct (nick_access_loop_spec serv pre rest 0 0 Hb ltac:(unfold USERACCESS_SIZE in *; lia) Hpre Hrest) as (bits & -> & Hbits).
  exists bits. split; [done|]. unfold get_nick_prefix.
  destruct (get_nick_prefix_loop_spec (nick_prefixes serv) 0 USERACCESS_SIZE bits ltac:(done))
    as [(i & Hi & _ & Hbit & Hlow)|[_ Hnone]].
  - exists i. split; [done|]. rewrite Z.add_0_l in Hbit. apply Hbits in Hbit as [Hbit|(c & Hc & Hci)].
    { by rewrite Z.bits_0 in Hbit. }
    apply index_of_Some in Hci. rewrite Hi in Hci. simplify_eq. split; [done|].
    intros j c Hc' Hj. destruct (le_lt_dec i j) as [|Hlt]; [done|].
    exfalso. specialize (Hlow j Hlt). rewrite Z.add_0_l in Hlow.
    assert (Z.testbit bits (Z.of_nat j) = true); [|congruence].
    apply Hbits. right. exists c. split; [done|]. by apply index_of_nth.
  - exfalso. destruct pre as [|c pre]; [done|].
    apply Forall_cons in Hpre as [Hc _]. apply list_elem_of_lookup in Hc as [j Hj].
    pose proof (lookup_lt_Some _ _ _ Hj).
    specialize (Hnone j ltac:(lia) ltac:(done)). rewrite Z.add_0_l in Hnone.
    assert (Z.testbit bits (Z.of_nat j) = true); [|congruence].
    apply Hbits. right. exists c. split; [by constructor|]. by apply index_of_nth.
Qed.

Definition isupport_example : isupport :=
  ISupport "#&" "beI,k,l,imnpst" "~&@%+" "qaohv" false None.

Lemma nick_access_highest_witness :
  nick_access isupport_example "+@alice" = Some (20, 2) /\
  get_nick_prefix isupport_example 20 ∈ list_ascii_of_string "+@".
Proof.
  split; [reflexivity|].
  pose proof (nick_access_highest isupport_example "+@" "alice") as H.
  change (nick_access isupport_example (list_ascii_of_string "+@" ++ list_ascii_of_string "alice"))
    with (Some (20, 2)) in H.
  destruct H as (a & [= <-] & i & _ & H & _); [reflexivity|by apply (bool_decide_unpack _); vm_compute|
    by apply (bool_decide_unpack _); vm_compute|by apply (bool_decide_unpack _); vm_compute|done| |exact H].
  intros c [= <-]. by apply (bool_decide_unpack _); vm_compute.
Defined.

(** With CHANMODES=A,B,C,D (no type repeated, no mode also a prefix mode)
    [mode_has_arg] is what the ISUPPORT specification says: types A and B
    always take an argument, type C only when set, type D and unknown modes
    never, and prefix modes always. *)
Theorem mode_has_arg_spec serv A B C D sign mode :
  chanmodes serv = A ++ ","%char :: B ++ ","%char :: C ++ ","%char :: D ->
  ","%char ∉ A ++ B ++ C ++ D -> NoDup (nick_modes serv ++ A ++ B ++ C ++ D) ->
  mode <> NUL -> mode <> ","%char ->
  mode_has_arg serv sign mode = true <->
  (mode ∈ nick_modes serv \/ mode ∈ A \/ mode ∈ B \/ (mode ∈ C /\ sign = "+"%char)).
Proof.
  intros Hcm Hcomma Hnd Hnul Hmode. unfold mode_has_arg, mode_chanmode_type. rewrite Hcm.
  assert (Hscan : forall s t rest, ","%char ∉ s ->
    chanmode_scan (s ++ rest) t mode = if bool_decide (mode ∈ s) then t else chanmode_scan rest t mode).
  { clear -Hmode. induction s as [|c s IH]; intros t rest Hs; simpl; [done|].
    apply not_elem_of_cons in Hs as [Hc Hs].
    destruct (Ascii.eqb_spec c ","); [congruence|].
    destruct (Ascii.eqb_spec c mode) as [->|Hne].
    - rewrite bool_decide_true by constructor. done.
    - rewrite IH by done. repeat case_bool_decide; set_solver. }
  rewrite !not_elem_of_app in Hcomma. destruct Hcomma as (HA & HB & HC & HD).
  rewrite Hscan by done. simpl. rewrite Hscan by done. simpl. rewrite Hscan by done. simpl.
  rewrite <- (app_nil_r D), Hscan by done. simpl.
  assert (Hdis : forall X Y, NoDup (X ++ Y) -> mode ∈ X -> mode ∉ Y).
  { intros X Y H HX HY. apply NoDup_app in H as (_ & H & _). by apply (H mode). }
  pose proof (Hdis _ _ Hnd) as Hd1. apply NoDup_app in Hnd as (_ & _ & Hnd).
  pose proof (Hdis _ _ Hnd) as Hd2. apply NoDup_app in Hnd as (_ & _ & Hnd).
  pose proof (Hdis _ _ Hnd) as Hd3. apply NoDup_app in Hnd as (_ & _ & Hnd).
  pose proof (Hdis _ _ Hnd) as Hd4. rewrite !elem_of_app in Hd1, Hd2, Hd3.
  destruct (strchr_b (nick_modes serv) mode) eqn:Hn.
  { apply strchr_b_spec in Hn; [|done]. tauto. }
  assert (mode ∉ nick_modes serv).
  { intros H. apply strchr_b_spec in H; [congruence|done]. }
  repeat case_bool_decide; simpl; rewrite ?Ascii.eqb_eq; intuition (congruence || tauto).
Qed.

Lemma mode_has_arg_spec_witness :
  mode_has_arg isupport_example "+" "l" = true /\ mode_has_arg isupport_example "-" "l" = false.
Proof.
  pose proof (fun sign => mode_has_arg_spec isupport_example "beI" "k" "l" "imnpst" sign "l") as H.
  split.
  - apply H; by apply (bool_decide_unpack _); vm_compute.
  - destruct (mode_has_arg _ _ _) eqn:E; [|done].
    apply H in E; try (by apply (bool_decide_unpack _); vm_compute).
    exfalso. revert E. by apply (bool_decide_unpack _); vm_compute.
Defined.
