(* ===== verification/Userlist.v ===== *)
(** * The channel user list (src/common/userlist.c)

    Every [struct User] lives in a store; the sorted array of [Tree] and the
    session's [me] pointer hold its address.  Frontend and notify-list calls
    are recorded in a trace, in call order.  [None] is undefined behaviour: a
    dangling pointer, an array access outside bounds, a shift by a negative
    count. *)
From stdpp Require Import sorting.
From S2P Require Import Prelude Glib Casemap Text Tree Access.

Definition NICKLEN : Z := 64.

(** ** Data *)

Record User := MkUser {
  nick : cstr;
  hostname : option cstr;
  realname : option cstr;
  servername : option cstr;
  account : option cstr;
  access : Z;            (* axs bit field *)
  prefix : ascii;        (* prefix[0]: @ + % or NUL *)
  op : bool;
  hop : bool;
  voice : bool;
  is_me : bool;
  away : Z               (* a 1-bit field *) }.

Inductive event :=
| FeRehash (u : positive)
| FeUpdate (u : positive)
| FeInsert (u : positive)
| FeRemove (u : positive)
| FeNumbers
| FeClear
| NotifyOnline (name : cstr).

(** The fields of [session] that userlist.c owns. *)
Record session := Session {
  heap : gmap positive User;
  usertree : option (tree positive);
  me : option positive;
  ops : Z;
  hops : Z;
  voices : Z;
  total : Z;
  end_of_names : bool;
  trace : list event }.

(** The fields of [server] it reads. *)
Record server := Server {
  isup : isupport;
  p_cmp : cstr -> cstr -> Z;
  serv_nick : cstr;
  have_extjoin : bool }.

(** ** Field updates *)

Definition set_nick v x := MkUser v (hostname x) (realname x) (servername x) (account x)
  (access x) (prefix x) (op x) (hop x) (voice x) (is_me x) (away x).
Definition set_hostname v x := MkUser (nick x) v (realname x) (servername x) (account x)
  (access x) (prefix x) (op x) (hop x) (voice x) (is_me x) (away x).
Definition set_realname v x := MkUser (nick x) (hostname x) v (servername x) (account x)
  (access x) (prefix x) (op x) (hop x) (voice x) (is_me x) (away x).
Definition set_servername v x := MkUser (nick x) (hostname x) (realname x) v (account x)
  (access x) (prefix x) (op x) (hop x) (voice x) (is_me x) (away x).
Definition set_account v x := MkUser (nick x) (hostname x) (realname x) (servername x) v
  (access x) (prefix x) (op x) (hop x) (voice x) (is_me x) (away x).
Definition set_access v x := MkUser (nick x) (hostname x) (realname x) (servername x) (account x)
  v (prefix x) (op x) (hop x) (voice x) (is_me x) (away x).
Definition set_prefix v x := MkUser (nick x) (hostname x) (realname x) (servername x) (account x)
  (access x) v (op x) (hop x) (voice x) (is_me x) (away x).
Definition set_op v x := MkUser (nick x) (hostname x) (realname x) (servername x) (account x)
  (access x) (prefix x) v (hop x) (voice x) (is_me x) (away x).
Definition set_hop v x := MkUser (nick x) (hostname x) (realname x) (servername x) (account x)
  (access x) (prefix x) (op x) v (voice x) (is_me x) (away x).
Definition set_voice v x := MkUser (nick x) (hostname x) (realname x) (servername x) (account x)
  (access x) (prefix x) (op x) (hop x) v (is_me x) (away x).
Definition set_away_bit v x := MkUser (nick x) (hostname x) (realname x) (servername x) (account x)
  (access x) (prefix x) (op x) (hop x) (voice x) (is_me x) (v mod 2).

Definition set_heap v s := Session v (usertree s) (me s) (ops s) (hops s) (voices s) (total s)
  (end_of_names s) (trace s).
Definition set_usertree v s := Session (heap s) v (me s) (ops s) (hops s) (voices s) (total s)
  (end_of_names s) (trace s).
Definition set_me v s := Session (heap s) (usertree s) v (ops s) (hops s) (voices s) (total s)
  (end_of_names s) (trace s).
Definition set_counts o h v t s := Session (heap s) (usertree s) (me s) o h v t
  (end_of_names s) (trace s).
Definition emit (e : event) s := Session (heap s) (usertree s) (me s) (ops s) (hops s) (voices s)
  (total s) (end_of_names s) (trace s ++ [e]).

(** [*user = f ( *user)] *)
Definition modify (u : positive) (f : User -> User) (s : session) : option session :=
  x ← heap s !! u; Some (set_heap (<[u := f x]> (heap s)) s).

(** ** Comparison callbacks *)

(** The nick behind a pointer; every pointer of the tree is allocated
    ([wf_heap] below). *)
Definition user_nick (s : session) (u : positive) : cstr :=
  match heap s !! u with Some x => nick x | None => [] end.

Fixpoint az_ops_loop (access1 access2 pos : Z) (n : nat) : option Z :=
  match n with
  | O => None
  | S n =>
      let b1 := negb (Z.land access1 (Z.shiftl 1 pos) =? 0) in
      let b2 := negb (Z.land access2 (Z.shiftl 1 pos) =? 0) in
      if b1 && b2 then None
      else if b1 && negb b2 then Some (-1)
      else if negb b1 && b2 then Some 1
      else az_ops_loop access1 access2 (pos + 1) n
  end.

Definition nick_cmp_az_ops (serv : server) (user1 user2 : User) : Z :=
  match (if negb (access user1 =? access user2)
         then az_ops_loop (access user1) (access user2) 0 USERACCESS_SIZE else None) with
  | Some r => r
  | None => p_cmp serv (nick user1) (nick user2)
  end.

Definition nick_cmp_alpha (serv : server) (s : session) (u1 u2 : positive) : Z :=
  p_cmp serv (user_nick s u1) (user_nick s u2).

Definition find_cmp (serv : server) (s : session) (name : cstr) (u : positive) : Z :=
  p_cmp serv name (user_nick s u).

(** ** Lookup *)

(** [Some None] is NULL. *)
Definition userlist_find (serv : server) (s : session) (name : cstr) : option (option positive) :=
  match usertree s with
  | Some t =>
      match tree_find t name (find_cmp serv s) with
      | Some (Some (u, _)) => Some (Some u)
      | Some None => Some None
      | None => None
      end
  | None => Some None
  end.

(** [sess_list] pairs each session with whether it belongs to [serv]; the
    result is the session's position with the user. *)
Fixpoint userlist_find_global (serv : server) (sess_list : list (bool * session)) (name : cstr)
    (i : nat) : option (option (nat * positive)) :=
  match sess_list with
  | [] => Some None
  | (same_server, s) :: rest =>
      if same_server then
        user ← userlist_find serv s name;
        match user with
        | Some u => Some (Some (i, u))
        | None => userlist_find_global serv rest name (S i)
        end
      else userlist_find_global serv rest name (S i)
  end.

(** ** Updates of one user *)

Definition userlist_set_away (serv : server) (s : session) (name : cstr) (new_away : Z)
    : option session :=
  user ← userlist_find serv s name;
  match user with
  | None => Some s
  | Some u =>
      x ← heap s !! u;
      if negb (away x =? new_away) then
        s ← modify u (set_away_bit new_away) s;
        let s := emit (FeRehash u) s in
        Some (if negb (new_away =? 0) then emit (FeUpdate u) s else s)
      else Some s
  end.

Definition userlist_set_account (serv : server) (s : session) (name new_account : cstr)
    : option session :=
  user ← userlist_find serv s name;
  match user with
  | None => Some s
  | Some u =>
      x ← heap s !! u;
      if bool_decide (new_account = ("*" : string)) then modify u (set_account None) s
      else if bool_decide (account x <> Some new_account)
           then modify u (set_account (Some new_account)) s
      else Some s
  end.

(** Returns 1 when the user was found. *)
Definition userlist_add_hostname (serv : server) (show_hosts : bool) (s : session) (name : cstr)
    (new_hostname new_realname new_servername new_account : option cstr) (new_away : Z)
    : option (session * bool) :=
  user ← userlist_find serv s name;
  match user with
  | None => Some (s, false)
  | Some u =>
      x ← heap s !! u;
      let changed_host :=
        match new_hostname with
        | Some h => bool_decide (hostname x <> Some h)
        | None => false
        end in
      let do_rehash := changed_host && show_hosts in
      s ← (if changed_host then modify u (set_hostname new_hostname) s else Some s);
      s ← (match new_realname with
           | Some r =>
               if negb (bool_decide (r = [])) && bool_decide (realname x <> Some r)
               then modify u (set_realname (Some r)) s else Some s
           | None => Some s
           end);
      s ← (match servername x, new_servername with
           | None, Some n => modify u (set_servername (Some n)) s
           | _, _ => Some s
           end);
      s ← (match account x, new_account with
           | None, Some a =>
               if bool_decide (a = ("0" : string)) then Some s
               else modify u (set_account (Some a)) s
           | _, _ => Some s
           end);
      '(s, do_rehash) ←
        (if negb (new_away =? 255) then
           s ← modify u (set_away_bit new_away) s;
           Some (s, do_rehash || negb (away x =? new_away))
         else Some (s, do_rehash));
      let s := emit (FeUpdate u) s in
      Some (if (do_rehash : bool) then emit (FeRehash u) s else s, true)
  end.

(** ** Counters *)

Definition update_counts (u : positive) (prefix : ascii) (level : bool) (offset : Z) (s : session)
    : option session :=
  if prefix =c "@" then
    s ← modify u (set_op level) s;
    Some (set_counts (ops s + offset) (hops s) (voices s) (total s) s)
  else if prefix =c "%" then
    s ← modify u (set_hop level) s;
    Some (set_counts (ops s) (hops s + offset) (voices s) (total s) s)
  else if prefix =c "+" then
    s ← modify u (set_voice level) s;
    Some (set_counts (ops s) (hops s) (voices s + offset) (total s) s)
  else Some s.

(** ** Insertion and removal *)

(** [tree_remove (sess->usertree, user, &pos)]; a NULL tree finds nothing. *)
Definition tree_remove_user (serv : server) (u : positive) (s : session) : option session :=
  match usertree s with
  | None => Some s
  | Some t =>
      '(t, _) ← tree_remove (nick_cmp_alpha serv s) t u;
      Some (set_usertree (Some t) s)
  end.

(** Returns the row number, or -1 for a duplicate. *)
Definition userlist_insertname (serv : server) (u : positive) (s : session) : option (session * Z) :=
  let t := default tree_new (usertree s) in
  '(t, row) ← tree_insert (nick_cmp_alpha serv s) t u;
  Some (set_usertree (Some t) s, row).

Definition userlist_update_mode (serv : server) (s : session) (name : cstr) (mode sign : ascii)
    : option session :=
  user ← userlist_find serv s name;
  match user with
  | None => Some s
  | Some u =>
      s ← tree_remove_user serv u s;
      let s := emit (FeRemove u) s in
      '(bit, prefix) ← mode_access (isup serv) mode;
      x ← heap s !! u;
      mask ← int_bit bit;
      let has := negb (Z.land (access x) mask =? 0) in
      let '(level, offset, new_access) :=
        if sign =c "+" then (true, if has then 0 else 1, Z.lor (access x) mask)
        else (false, if has then -1 else 0, Z.ldiff (access x) mask) in
      s ← modify u (fun x => set_prefix (get_nick_prefix (isup serv) new_access)
                               (set_access new_access x)) s;
      s ← update_counts u prefix level offset s;
      '(s, _) ← userlist_insertname serv u s;
      Some (emit FeNumbers (emit (FeInsert u) s))
  end.

Definition userlist_change `{GLib} (serv : server) (s : session) (oldname newname : cstr)
    : option (session * bool) :=
  user ← userlist_find serv s oldname;
  match user with
  | None => Some (s, false)
  | Some u =>
      s ← tree_remove_user serv u s;
      let s := emit (FeRemove u) s in
      n ← safe_strcpy newname NICKLEN;
      s ← modify u (set_nick n) s;
      '(s, _) ← userlist_insertname serv u s;
      Some (emit (FeInsert u) s, true)
  end.

Definition userlist_remove_user (serv : server) (u : positive) (s : session) : option session :=
  x ← heap s !! u;
  let s := set_counts
    (if op x then ops s - 1 else ops s) (if hop x then hops s - 1 else hops s)
    (if voice x then voices s - 1 else voices s) (total s - 1) s in
  let s := emit (FeRemove u) (emit FeNumbers s) in
  let s := if bool_decide (me s = Some u) then set_me None s else s in
  s ← tree_remove_user serv u s;
  Some (set_heap (delete u (heap s)) s).

Definition userlist_remove (serv : server) (s : session) (name : cstr) : option (session * bool) :=
  user ← userlist_find serv s name;
  match user with
  | None => Some (s, false)
  | Some u => s ← userlist_remove_user serv u s; Some (s, true)
  end.

(** [while (prefix_chars) update_counts (sess, user, name[0], TRUE, 1)] *)
Fixpoint count_prefixes (u : positive) (prefixes : cstr) (s : session) : option session :=
  match prefixes with
  | [] => Some s
  | c :: rest => s ← update_counts u c true 1 s; count_prefixes u rest s
  end.

Definition userlist_add `{GLib} (serv : server) (s : session) (name : cstr)
    (new_hostname new_account new_realname : option cstr) : option session :=
  '(acc, prefix_chars) ← nick_access (isup serv) name;
  let bare := drop (Z.to_nat prefix_chars) name in
  let s := emit (NotifyOnline bare) s in
  let u := fresh (dom (heap s)) in
  n ← safe_strcpy bare NICKLEN;
  let nonempty (v : option cstr) := v ≫= fun a => if bool_decide (a = []) then None else Some a in
  let user := MkUser n new_hostname
    (if have_extjoin serv then nonempty new_realname else None) None
    (if have_extjoin serv then nonempty new_account else None)
    acc (if negb (prefix_chars =? 0) then peek name else NUL)
    false false false (p_cmp serv n (serv_nick serv) =? 0) 0 in
  let s := set_heap (<[u := user]> (heap s)) s in
  '(s, row) ← userlist_insertname serv u s;
  if row =? -1 then Some (set_heap (delete u (heap s)) s)
  else
    let s := set_counts (ops s) (hops s) (voices s) (total s + 1) s in
    s ← count_prefixes u (take (Z.to_nat prefix_chars) name) s;
    let s := if is_me user then set_me (Some u) s else s in
    let s := emit (FeInsert u) s in
    Some (if end_of_names s then emit FeNumbers s else s).

(** ** Whole-list operations *)

Definition userlist_free (s : session) : option session :=
  h ← match usertree s with
      | Some t => tree_foreach (fun u h => (delete u h, true)) t (heap s)
      | None => Some (heap s)
      end;
  Some (set_counts 0 0 0 0 (set_me None (set_usertree None (set_heap h s)))).

Definition userlist_clear (s : session) : option session :=
  s ← userlist_free (emit FeClear s); Some (emit FeNumbers s).

Definition userlist_rehash (s : session) : option session :=
  match usertree s with
  | Some t => tree_foreach (fun u s => (emit (FeRehash u) s, true)) t s
  | None => Some s
  end.

(** Prepending every user, then reversing. *)
Definition userlist_flat_list (s : session) : option (list positive) :=
  match usertree s with
  | Some t => l ← tree_foreach (fun u l => (u :: l, true)) t []; Some (rev l)
  | None => Some []
  end.

Definition userlist_double_list (s : session) : option (list positive) :=
  match usertree s with
  | Some t => tree_foreach (fun u l => (u :: l, true)) t []
  | None => Some []
  end.

(** ** Invariant *)

(** The servers the invariant is about: a lawful nick comparison and a
    well-formed PREFIX of at most 31 statuses, whose bits fit an [int]. *)
Record server_ok (serv : server) : Prop := {
  so_cmp : CmpOrder plain (p_cmp serv);
  so_good : bad_prefix (isup serv) = false;
  so_prefixes : NoDup (nick_prefixes (isup serv));
  so_width : (length (nick_prefixes (isup serv)) <= 31)%nat;
  so_modes : length (nick_modes (isup serv)) = length (nick_prefixes (isup serv)) }.

Definition flag_of (f : User -> bool) (h : gmap positive User) (u : positive) : bool :=
  match h !! u with Some x => f x | None => false end.

Definition count (f : User -> bool) (h : gmap positive User) (l : list positive) : Z :=
  Z.of_nat (length (filter (fun u => flag_of f h u = true) l)).

(** The access bit of a status prefix. *)
Definition status_bit (serv : server) (c : ascii) (a : Z) : bool :=
  match index_of c (nick_prefixes (isup serv)) with
  | Some i => Z.testbit a (Z.of_nat i)
  | None => false
  end.

Definition flags_agree (serv : server) (x : User) : Prop :=
  op x = status_bit serv "@" (access x) /\
  hop x = status_bit serv "%" (access x) /\
  voice x = status_bit serv "+" (access x).

Record wf (serv : server) (s : session) (l : list positive) : Prop := {
  wf_tree : match usertree s with Some t => holds t l | None => l = [] end;
  wf_heap : forall u, u ∈ l <-> is_Some (heap s !! u);
  wf_plain : forall u x, heap s !! u = Some x -> plain (nick x);
  wf_ordered : ordered (nick_cmp_alpha serv s) l;
  wf_total : total s = Z.of_nat (length l);
  wf_ops : ops s = count op (heap s) l;
  wf_hops : hops s = count hop (heap s) l;
  wf_voices : voices s = count voice (heap s) l;
  wf_me : forall u, me s = Some u -> u ∈ l;
  wf_bits : forall u x, heap s !! u = Some x -> flags_agree serv x }.

(** ** Counting *)

Lemma count_perm f h l l' : l ≡ₚ l' -> count f h l = count f h l'.
Proof. intros E. unfold count. by rewrite E. Qed.

Lemma count_cons f h u l :
  count f h (u :: l) = (if flag_of f h u then 1 else 0) + count f h l.
Proof.
  unfold count. rewrite filter_cons. destruct (flag_of f h u) eqn:E.
  - rewrite decide_True by done. simpl. lia.
  - by rewrite decide_False.
Qed.

Lemma count_insert_other f h u x l : u ∉ l -> count f (<[u := x]> h) l = count f h l.
Proof.
  induction l as [|v l IH]; intros Hu; [done|]. apply not_elem_of_cons in Hu as [Hne Hu].
  rewrite !count_cons, IH by done. unfold flag_of. by rewrite lookup_insert_ne.
Qed.

Lemma count_delete_other f h u l : u ∉ l -> count f (delete u h) l = count f h l.
Proof.
  induction l as [|v l IH]; intros Hu; [done|]. apply not_elem_of_cons in Hu as [Hne Hu].
  rewrite !count_cons, IH by done. unfold flag_of. by rewrite lookup_delete_ne.
Qed.

Lemma flag_of_insert f h u x : flag_of f (<[u := x]> h) u = f x.
Proof. unfold flag_of. by rewrite lookup_insert_eq. Qed.

Lemma flag_of_Some f h u x : h !! u = Some x -> flag_of f h u = f x.
Proof. unfold flag_of. by intros ->. Qed.

(** ** Order *)

Section order.
Context (serv : server) (Hcmp : CmpOrder plain (p_cmp serv)).

Definition plain_user (s : session) (u : positive) : Prop := plain (user_nick s u).

#[local] Instance nick_order s : CmpOrder (plain_user s) (nick_cmp_alpha serv s).
Proof.
  split; unfold plain_user, nick_cmp_alpha; intros.
  - by apply (cmp_sym (D := plain)).
  - by apply (cmp_trans (D := plain) _ (user_nick s y)).
Qed.

Lemma ordered_map s l :
  ordered (nick_cmp_alpha serv s) l <-> ordered (p_cmp serv) (map (user_nick s) l).
Proof.
  unfold ordered. induction l as [|u l IH]; simpl; [by split; constructor|].
  rewrite !StronglySorted_cons, IH, Forall_map. done.
Qed.

Lemma ordered_agree s s' l :
  (forall u, u ∈ l -> user_nick s' u = user_nick s u) ->
  ordered (nick_cmp_alpha serv s) l -> ordered (nick_cmp_alpha serv s') l.
Proof.
  intros H. rewrite !ordered_map. replace (map (user_nick s') l) with (map (user_nick s) l); [done|].
  induction l as [|u l IH]; simpl; [done|]. rewrite H by constructor.
  f_equal. apply IH. intros. apply H. by constructor.
Qed.

Lemma ordered_NoDup s l :
  Forall (plain_user s) l -> ordered (nick_cmp_alpha serv s) l -> NoDup l.
Proof.
  intros Hl Ho. apply NoDup_alt. intros i j u Hi Hj.
  destruct (Nat.lt_trichotomy i j) as [H|[H|H]]; [|done|]; exfalso.
  - pose proof (ordered_lookup_lt _ l i j u u Ho H Hi Hj) as Hlt.
    rewrite (cmp_refl (plain_user s) (nick_cmp_alpha serv s)) in Hlt; [lia|]. by eapply Forall_lookup_1.
  - pose proof (ordered_lookup_lt _ l j i u u Ho H Hj Hi) as Hlt.
    rewrite (cmp_refl (plain_user s) (nick_cmp_alpha serv s)) in Hlt; [lia|]. by eapply Forall_lookup_1.
Qed.

Lemma find_monotone s l name :
  Forall (plain_user s) l -> plain name -> ordered (nick_cmp_alpha serv s) l ->
  key_monotone (find_cmp serv s) name l.
Proof.
  intros Hl Hn Ho i j u v Hij Hi Hj.
  assert (Hm : key_monotone (p_cmp serv) name (map (user_nick s) l)).
  { apply (ordered_monotone plain (p_cmp serv)); [done| |by apply ordered_map].
    by apply Forall_map. }
  unfold find_cmp. apply (Hm i j); [done|by rewrite list_lookup_fmap, Hi|by rewrite list_lookup_fmap, Hj].
Qed.

(** Two users of a sorted list with equal nicks are the same user. *)
Lemma nick_unique s l u v :
  Forall (plain_user s) l -> ordered (nick_cmp_alpha serv s) l -> u ∈ l -> v ∈ l ->
  nick_cmp_alpha serv s u v = 0 -> u = v.
Proof.
  intros Hl Ho Hu Hv E. pose proof Hl as Hl'. rewrite Forall_forall in Hl'.
  apply list_elem_of_lookup in Hu as [i Hi], Hv as [j Hj].
  assert (i = j) as ->; [|congruence].
  apply (ordered_eq_unique (plain_user s) (nick_cmp_alpha serv s) l u i j u v); try done.
  - apply Hl'. by eapply list_elem_of_lookup_2.
  - apply (cmp_refl (plain_user s) (nick_cmp_alpha serv s)). apply Hl'. by eapply list_elem_of_lookup_2.
Qed.

(** Inserting a user nobody else is named like. *)
Lemma insertname_fresh s l u :
  match usertree s with Some t => holds t l | None => l = [] end ->
  Forall (plain_user s) (u :: l) -> ordered (nick_cmp_alpha serv s) l ->
  exists t' row, userlist_insertname serv u s = Some (set_usertree (Some t') s, row) /\
    ((row = -1 /\ holds t' l /\ exists v, v ∈ l /\ nick_cmp_alpha serv s u v = 0) \/
     (0 <= row /\ exists l', holds t' l' /\ l' ≡ₚ u :: l /\ ordered (nick_cmp_alpha serv s) l' /\
       forall v, v ∈ l -> nick_cmp_alpha serv s u v <> 0)).
Proof.
  intros Ht [Hu Hl]%Forall_cons Ho. unfold userlist_insertname.
  assert (Ht' : holds (default tree_new (usertree s)) l).
  { destruct (usertree s); [done|]. subst l. apply holds_new. }
  destruct (tree_insert_result (nick_cmp_alpha serv s) _ l u Ht') as (t' & row & -> & H).
  exists t', row. split; [done|].
  destruct H as [H|(l1 & l2 & -> & -> & Ht2 & H1 & H2)]; [by left|]. right. split; [lia|].
  destruct (neighbours_suffice (plain_user s) (nick_cmp_alpha serv s) l1 l2 u Hu Hl Ho H1 H2)
    as [Hl1 Hl2].
  exists (l1 ++ u :: l2). split_and!; [done|symmetry; apply Permutation_middle|by apply ordered_insert|].
  intros v Hv E. rewrite Forall_forall in Hl. apply elem_of_app in Hv as [Hv|Hv].
  - pose proof (Hl1 v Hv). assert (nick_cmp_alpha serv s v u = 0); [|lia].
    apply (cmp_eq_sym (plain_user s) (nick_cmp_alpha serv s)); [apply Hl; set_solver|done|done].
  - pose proof (Hl2 v Hv). lia.
Qed.
End order.

(** ** Consequences of the invariant *)

Section invariant.
Context (serv : server) (Hserv : server_ok serv).

Lemma wf_plain_users s l : wf serv s l -> Forall (plain_user s) l.
Proof.
  intros W. apply Forall_forall. intros u Hu. apply (wf_heap _ _ _ W) in Hu as [x Hx].
  unfold plain_user, user_nick. rewrite Hx. by eapply wf_plain.
Qed.

Lemma wf_nodup s l : wf serv s l -> NoDup l.
Proof.
  intros W. eapply (ordered_NoDup serv (so_cmp _ Hserv)); [by apply wf_plain_users|apply W].
Qed.

Lemma userlist_find_spec s l name :
  wf serv s l -> plain name ->
  exists r, userlist_find serv s name = Some r /\
    match r with
    | Some u => u ∈ l /\ p_cmp serv name (user_nick s u) = 0
    | None => forall u, u ∈ l -> p_cmp serv name (user_nick s u) <> 0
    end.
Proof.
  intros W Hn. pose proof (wf_tree _ _ _ W) as Ht. unfold userlist_find.
  destruct (usertree s) as [t|].
  - destruct (tree_find_result (find_cmp serv s) t l name Ht) as (r & -> & Hr).
    { apply (find_monotone serv (so_cmp _ Hserv)); [by apply wf_plain_users|done|apply W]. }
    destruct r as [[u pos]|]; eexists; split; try reflexivity.
    + destruct Hr as (_ & Hu & E). split; [by eapply list_elem_of_lookup_2|done].
    + exact Hr.
  - subst l. eexists; split; [reflexivity|]. intros u Hu. by apply not_elem_of_nil in Hu.
Qed.

Lemma tree_remove_user_spec s l u :
  wf serv s l -> u ∈ l ->
  exists t' l', tree_remove_user serv u s = Some (set_usertree (Some t') s) /\
    holds t' l' /\ l ≡ₚ u :: l' /\ (u ∉ l') /\ ordered (nick_cmp_alpha serv s) l'.
Proof.
  intros W Hu. pose proof (wf_tree _ _ _ W) as Ht. unfold tree_remove_user.
  destruct (usertree s) as [t|]; [|subst l; by apply not_elem_of_nil in Hu].
  pose proof (wf_plain_users _ _ W) as Hp. pose proof (wf_nodup _ _ W) as Hnd.
  apply list_elem_of_split in Hu as (l1 & l2 & ->).
  pose proof (nick_order serv (so_cmp _ Hserv) s) as HO.
  destruct (tree_remove_result (plain_user s) (nick_cmp_alpha serv s) t l1 u l2 u)
    as (t' & -> & Ht').
  - done.
  - apply W.
  - done.
  - apply Forall_app in Hp as [_ Hp]. by apply Forall_cons in Hp as [? _].
  - apply Forall_app in Hp as [_ Hp]. apply Forall_cons in Hp as [? _].
    by apply (cmp_refl (plain_user s) (nick_cmp_alpha serv s)).
  - exists t', (l1 ++ l2). split_and!; [done|done|symmetry; apply Permutation_middle| |].
    + rewrite <- Permutation_middle in Hnd. by apply NoDup_cons in Hnd as [? _].
    + eapply ordered_remove. apply W.
Qed.
End invariant.
