(* ===== verification/UserlistSpec.v ===== *)
(** * Correctness of the channel user list

    The invariant [wf] of [Userlist] holds of the empty list and is kept by
    every operation; every admissible operation succeeds (no dangling pointer,
    no access outside the array). *)
From S2P Require Import Prelude Glib Casemap Text Tree Access Userlist.

(** ** Calls *)

Inductive call :=
| CAdd (name : cstr) (hostname account realname : option cstr)
| CRemove (name : cstr)
| CChange (oldname newname : cstr)
| CMode (name : cstr) (mode sign : ascii)
| CAway (name : cstr) (away : Z)
| CAccount (name account : cstr)
| CHostname (show_hosts : bool) (name : cstr) (hostname realname servername account : option cstr)
    (away : Z)
| CClear.

Definition exec `{GLib} (serv : server) (c : call) (s : session) : option session :=
  match c with
  | CAdd name h a r => userlist_add serv s name h a r
  | CRemove name => fst <$> userlist_remove serv s name
  | CChange old new => fst <$> userlist_change serv s old new
  | CMode name mode sign => userlist_update_mode serv s name mode sign
  | CAway name a => userlist_set_away serv s name a
  | CAccount name a => userlist_set_account serv s name a
  | CHostname sh name h r sv a aw => fst <$> userlist_add_hostname serv sh s name h r sv a aw
  | CClear => userlist_clear s
  end.

(** Names from the wire: status prefixes without repetition before a plain
    nick; a nick change to a nick nobody else has; a nick mode. *)
Inductive admissible (serv : server) (s : session) : call -> Prop :=
| adm_add pre rest h a r :
    NoDup pre -> Forall (fun c => c ∈ nick_prefixes (isup serv)) pre ->
    (forall c, head rest = Some c -> c ∉ nick_prefixes (isup serv)) -> plain rest ->
    admissible serv s (CAdd (pre ++ rest) h a r)
| adm_remove name : plain name -> admissible serv s (CRemove name)
| adm_change old new :
    plain old -> plain new ->
    (forall u x, heap s !! u = Some x -> p_cmp serv old (nick x) <> 0 ->
       p_cmp serv (take 63 new) (nick x) <> 0) ->
    admissible serv s (CChange old new)
| adm_mode name mode sign :
    plain name -> mode ∈ nick_modes (isup serv) -> admissible serv s (CMode name mode sign)
| adm_away name a : plain name -> admissible serv s (CAway name a)
| adm_account name a : plain name -> admissible serv s (CAccount name a)
| adm_hostname sh name h r sv a aw :
    plain name -> admissible serv s (CHostname sh name h r sv a aw)
| adm_clear : admissible serv s CClear.

Definition session_new : session := Session ∅ None None 0 0 0 0 false [].

Inductive reachable `{GLib} (serv : server) : session -> Prop :=
| reach_new : reachable serv session_new
| reach_call s c s' :
    reachable serv s -> admissible serv s c -> exec serv c s = Some s' -> reachable serv s'.

(** ** Names *)

Lemma plain_take n s : plain s -> plain (take n s).
Proof. intros [H1 H2]. split; by apply Forall_take. Qed.

(** A 7-bit name is cut after 63 characters. *)
Lemma safe_strcpy_loop_plain (G : GLib) (GL : GLibLaws G) fuel s n :
  plain s -> (length s < fuel)%nat -> 1 <= n ->
  safe_strcpy_loop fuel s n = Some (take (Z.to_nat (n - 1)) s).
Proof.
  revert fuel n; induction s as [|c s IH]; intros fuel n Hs Hf Hn.
  - destruct fuel as [|fuel]; [lia|]. simpl. change (peek []) with NUL.
    rewrite skip_NUL. by destruct (n <? 1 + 1); rewrite ?take_nil.
  - destruct fuel as [|fuel]; [lia|]. cbn [safe_strcpy_loop]. change (peek (c :: s)) with c.
    assert (Hc : uchar c < 128) by (destruct Hs as [_ [Hc _]%Forall_cons]; exact Hc).
    rewrite g_utf8_skip_ascii by done. change (1 =? 1) with true. apply plain_cons in Hs as (_ & _ & Hs).
    destruct (Z.ltb_spec n (1 + 1)) as [H1|H1].
    + by replace n with 1 by lia.
    + simpl in Hf. rewrite IH by (done || lia). simpl. do 2 f_equal.
      by replace (Z.to_nat (n - 1)) with (S (Z.to_nat (n - 1 - 1))) by lia.
Qed.

Lemma safe_strcpy_plain (G : GLib) (GL : GLibLaws G) s :
  plain s -> safe_strcpy s NICKLEN = Some (take 63 s).
Proof. intros. unfold safe_strcpy. rewrite safe_strcpy_loop_plain by (done || lia). done. Qed.

(** ** Single-user updates *)

Section operations.
Context `{GL : GLibLaws} (serv : server) (Hserv : server_ok serv).

(** What the invariant reads of a user. *)
Definition same_view (x y : User) : Prop :=
  nick y = nick x /\ access y = access x /\ op y = op x /\ hop y = hop x /\ voice y = voice x.

Lemma count_same f h u x y l :
  h !! u = Some x -> f y = f x -> count f (<[u := y]> h) l = count f h l.
Proof.
  intros Hx Hf. induction l as [|v l IH]; [done|]. rewrite !count_cons, IH.
  unfold flag_of. destruct (decide (u = v)) as [->|Hne].
  - by rewrite lookup_insert_eq, Hx, Hf.
  - by rewrite lookup_insert_ne.
Qed.

Lemma user_nick_same s u x y v :
  heap s !! u = Some x -> nick y = nick x ->
  user_nick (set_heap (<[u := y]> (heap s)) s) v = user_nick s v.
Proof.
  intros Hx Hn. unfold user_nick. simpl. destruct (decide (u = v)) as [->|Hne].
  - by rewrite lookup_insert_eq, Hx.
  - by rewrite lookup_insert_ne.
Qed.

Lemma wf_emit s l e : wf serv s l -> wf serv (emit e s) l.
Proof. intros [? ? ? ? ? ? ? ? ? ?]. by split. Qed.

Lemma wf_modify s l u x f :
  wf serv s l -> heap s !! u = Some x -> same_view x (f x) ->
  exists s', modify u f s = Some s' /\ wf serv s' l /\ heap s' = <[u := f x]> (heap s).
Proof.
  intros W Hx (Hn & Ha & Ho & Hh & Hv). unfold modify. rewrite Hx. simpl.
  eexists; split; [reflexivity|]. split; [|done]. destruct W; split; simpl; try done.
  - intros v. rewrite wf_heap. destruct (decide (u = v)) as [->|Hne].
    + rewrite lookup_insert_eq, Hx. naive_solver.
    + by rewrite lookup_insert_ne.
  - intros v y [[<- <-]|[_ Hy]]%lookup_insert_Some; [rewrite Hn|]; by eapply wf_plain.
  - eapply ordered_agree; [|done]. intros v _. by apply (user_nick_same s u x).
  - by rewrite (count_same op _ u x).
  - by rewrite (count_same hop _ u x).
  - by rewrite (count_same voice _ u x).
  - intros v y [[<- <-]|[_ Hy]]%lookup_insert_Some; [|by eapply wf_bits].
    unfold flags_agree. rewrite Ha, Ho, Hh, Hv. by apply wf_bits in Hx.
Qed.

(** Lookup in terms of the store. *)
Lemma find_result s l name :
  wf serv s l -> plain name ->
  exists r, userlist_find serv s name = Some r /\
    match r with
    | Some u => exists x, u ∈ l /\ heap s !! u = Some x /\ p_cmp serv name (nick x) = 0
    | None => forall u x, heap s !! u = Some x -> p_cmp serv name (nick x) <> 0
    end.
Proof.
  intros W Hn. destruct (userlist_find_spec serv Hserv s l name W Hn) as ([u|] & -> & Hr);
    eexists; (split; [reflexivity|]).
  - destruct Hr as [Hu E]. pose proof Hu as Hu'. apply (wf_heap _ _ _ W) in Hu' as [x Hx].
    unfold user_nick in E. rewrite Hx in E. eauto.
  - intros u x Hx. assert (u ∈ l) as Hu by (apply (wf_heap _ _ _ W); eauto).
    specialize (Hr u Hu). unfold user_nick in Hr. by rewrite Hx in Hr.
Qed.

Lemma find_cases s l name (P : option (option positive) -> Prop) :
  wf serv s l -> plain name ->
  (forall u x, u ∈ l -> heap s !! u = Some x -> p_cmp serv name (nick x) = 0 -> P (Some (Some u))) ->
  ((forall u x, heap s !! u = Some x -> p_cmp serv name (nick x) <> 0) -> P (Some None)) ->
  P (userlist_find serv s name).
Proof.
  intros W Hn H1 H2. destruct (find_result s l name W Hn) as ([u|] & -> & Hr); [|by apply H2].
  destruct Hr as (x & ? & ? & ?). eauto.
Qed.

(** At most one allocated user compares equal to a name. *)
Lemma found_unique s l name u v x y :
  wf serv s l -> plain name -> heap s !! u = Some x -> heap s !! v = Some y ->
  p_cmp serv name (nick x) = 0 -> p_cmp serv name (nick y) = 0 -> u = v.
Proof.
  intros W Hn Hx Hy Ex Ey. apply (nick_unique serv (so_cmp _ Hserv) s l).
  - by eapply wf_plain_users.
  - apply W.
  - apply (wf_heap _ _ _ W); eauto.
  - apply (wf_heap _ _ _ W); eauto.
  - unfold nick_cmp_alpha, user_nick. rewrite Hx, Hy.
    pose proof (cmp_eq_compat plain (p_cmp serv) name (nick x) (nick y) (CmpOrder0:=so_cmp _ Hserv)
      Hn (wf_plain _ _ _ W _ _ Hx) (wf_plain _ _ _ W _ _ Hy) Ex) as Hc.
    rewrite Ey in Hc. simpl in Hc. lia.
Qed.

Lemma userlist_set_away_wf s l name a :
  wf serv s l -> plain name -> exists s', userlist_set_away serv s name a = Some s' /\ wf serv s' l.
Proof.
  intros W Hn. unfold userlist_set_away. apply (find_cases s l name); [done|done| |by eauto].
  intros u x Hu Hx _. simpl. rewrite Hx. simpl. destruct (negb (away x =? a)); [|eauto].
  destruct (wf_modify s l u x (set_away_bit a) W Hx) as (s' & -> & W' & _); [done|]. simpl.
  destruct (negb (a =? 0)); eauto using wf_emit.
Qed.

Lemma userlist_set_account_wf s l name a :
  wf serv s l -> plain name ->
  exists s', userlist_set_account serv s name a = Some s' /\ wf serv s' l.
Proof.
  intros W Hn. unfold userlist_set_account. apply (find_cases s l name); [done|done| |by eauto].
  intros u x Hu Hx _. simpl. rewrite Hx. simpl. case_bool_decide; [|case_bool_decide; [|by eauto]].
  - destruct (wf_modify s l u x (set_account None) W Hx) as (s' & -> & W' & _); [done|]; eauto.
  - destruct (wf_modify s l u x (set_account (Some a)) W Hx) as (s' & -> & W' & _); [done|]; eauto.
Qed.

(** One guarded update of a chain of field updates. *)
Lemma guarded_modify (b : bool) f s l u x :
  wf serv s l -> heap s !! u = Some x -> (forall y, same_view y (f y)) ->
  exists s' x', (if b then modify u f s else Some s) = Some s' /\ wf serv s' l /\ heap s' !! u = Some x'.
Proof.
  intros W Hx Hf. destruct b; [|by exists s, x].
  destruct (wf_modify s l u x f W Hx (Hf x)) as (s' & -> & W' & Hh).
  exists s', (f x). rewrite Hh. by rewrite lookup_insert_eq.
Qed.

Lemma userlist_add_hostname_wf sh s l name h r sv a aw :
  wf serv s l -> plain name ->
  exists s' b, userlist_add_hostname serv sh s name h r sv a aw = Some (s', b) /\ wf serv s' l.
Proof.
  intros W Hn. unfold userlist_add_hostname. apply (find_cases s l name); [done|done| |by eauto].
  intros u x Hu Hx _. cbn [mbind option_bind]. rewrite Hx. cbn [mbind option_bind].
  set (b1 := match h with Some _ => _ | None => false end).
  destruct (guarded_modify b1 (set_hostname h) s l u x W Hx) as (s1 & x1 & -> & W1 & H1); [done|].
  cbn [mbind option_bind].
  set (m2 := match r with Some _ => _ | None => _ end).
  assert (exists s2 x2, m2 = Some s2 /\ wf serv s2 l /\ heap s2 !! u = Some x2) as (s2 & x2 & -> & W2 & H2).
  { subst m2. destruct r as [r|]; [|by eauto]. by eapply guarded_modify. }
  cbn [mbind option_bind].
  set (m3 := match servername x with Some _ => _ | None => _ end).
  assert (exists s3 x3, m3 = Some s3 /\ wf serv s3 l /\ heap s3 !! u = Some x3) as (s3 & x3 & -> & W3 & H3).
  { subst m3. destruct (servername x); [by eauto|]. destruct sv as [sv|]; [|by eauto].
    by apply (guarded_modify true (set_servername (Some sv)) s2 l u x2). }
  cbn [mbind option_bind].
  set (m4 := match account x with Some _ => _ | None => _ end).
  assert (exists s4 x4, m4 = Some s4 /\ wf serv s4 l /\ heap s4 !! u = Some x4) as (s4 & x4 & -> & W4 & H4).
  { subst m4. destruct (account x); [by eauto|]. destruct a as [a|]; [|by eauto].
    case_bool_decide; [by eauto|].
    by apply (guarded_modify true (set_account (Some a)) s3 l u x3). }
  cbn [mbind option_bind].
  destruct (negb (aw =? 255)).
  - destruct (wf_modify s4 l u x4 (set_away_bit aw) W4 H4) as (s5 & -> & W5 & _); [done|].
    cbn [mbind option_bind]. destruct (_ || _); eauto 8 using wf_emit.
  - cbn [mbind option_bind]. destruct (b1 && sh); eauto 8 using wf_emit.
Qed.
(** ** Counters *)

Definition cnt (c : ascii) (p : cstr) : Z := Z.of_nat (length (filter (eq c) p)).

Lemma cnt_cons c d p : cnt c (d :: p) = (if decide (c = d) then 1 else 0) + cnt c p.
Proof. unfold cnt. rewrite filter_cons. destruct (decide (c = d)); simpl; lia. Qed.

Lemma cnt_NoDup c p : NoDup p -> cnt c p = if bool_decide (c ∈ p) then 1 else 0.
Proof.
  induction 1 as [|d p Hd Hp IH]; [done|]. rewrite cnt_cons, IH.
  destruct (decide (c = d)) as [->|Hne]; repeat case_bool_decide; set_solver.
Qed.

(** The user after some of its prefixes were counted. *)
Definition raised (p : cstr) (x : User) : User :=
  set_voice (voice x || bool_decide ("+"%char ∈ p))
    (set_hop (hop x || bool_decide ("%"%char ∈ p)) (set_op (op x || bool_decide ("@"%char ∈ p)) x)).

Lemma bool_decide_elem_cons (c d : ascii) p :
  bool_decide (c ∈ d :: p) = bool_decide (c = d) || bool_decide (c ∈ p).
Proof. repeat case_bool_decide; set_solver. Qed.

Lemma raised_nil x : raised [] x = x.
Proof. unfold raised, set_voice, set_hop, set_op. simpl. rewrite !orb_false_r. by destruct x. Qed.

Lemma raised_cons c p x : raised p (raised [c] x) = raised (c :: p) x.
Proof.
  destruct x. unfold raised. cbn. rewrite !bool_decide_elem_cons.
  rewrite !(bool_decide_false (_ ∈ [])) by apply not_elem_of_nil.
  by rewrite !orb_false_r, !orb_assoc.
Qed.

(** The user after [update_counts]. *)
Definition leveled (c : ascii) (level : bool) (x : User) : User :=
  set_voice (if c =c "+" then level else voice x)
    (set_hop (if c =c "%" then level else hop x) (set_op (if c =c "@" then level else op x) x)).

Lemma update_counts_spec u c level offset s x :
  heap s !! u = Some x ->
  update_counts u c level offset s =
  Some (set_counts (ops s + if c =c "@" then offset else 0) (hops s + if c =c "%" then offset else 0)
          (voices s + if c =c "+" then offset else 0) (total s)
          (set_heap (<[u := leveled c level x]> (heap s)) s)).
Proof.
  intros Hx. unfold update_counts, modify, leveled. rewrite Hx.
  unfold set_voice, set_hop, set_op, set_counts, set_heap.
  destruct x, s. simpl in *. destruct (Ascii.eqb_spec c "@") as [->|H1].
  { simpl. by rewrite !Z.add_0_r. }
  destruct (Ascii.eqb_spec c "%") as [->|H2].
  { simpl. by rewrite !Z.add_0_r. }
  destruct (Ascii.eqb_spec c "+") as [->|H3]; rewrite ?Z.add_0_r; [done|].
  by rewrite insert_id.
Qed.

Lemma leveled_raised c x : leveled c true x = raised [c] x.
Proof.
  assert (Hm : forall d : ascii, bool_decide (d ∈ [c]) = (c =c d)).
  { intros d. destruct (Ascii.eqb_spec c d); case_bool_decide as H; set_solver. }
  unfold leveled, raised. rewrite !Hm.
  by destruct (c =c "@"), (c =c "%"), (c =c "+"); rewrite ?orb_true_r, ?orb_false_r.
Qed.

Lemma count_prefixes_spec u p s x :
  heap s !! u = Some x ->
  count_prefixes u p s =
  Some (set_counts (ops s + cnt "@" p) (hops s + cnt "%" p) (voices s + cnt "+" p) (total s)
          (set_heap (<[u := raised p x]> (heap s)) s)).
Proof.
  revert s x; induction p as [|c p IH]; intros s x Hx; cbn [count_prefixes].
  - rewrite raised_nil, insert_id by done.
    unfold cnt. simpl. rewrite !Z.add_0_r. by destruct s.
  - rewrite (update_counts_spec u c true 1 s x Hx), leveled_raised. cbn [mbind option_bind].
    erewrite IH by (simpl; by rewrite lookup_insert_eq). rewrite raised_cons.
    unfold set_counts, set_heap. simpl. rewrite insert_insert_eq, <- !Z.add_assoc.
    assert (Hc : forall d, (if c =c d then 1 else 0) + cnt d p = cnt d (c :: p)).
    { intros d. rewrite cnt_cons. destruct (Ascii.eqb_spec c d), (decide (d = c)); congruence. }
    by rewrite !Hc.
Qed.

(** ** Insertion *)

Lemma wf_put s s' l l' u x t' :
  wf serv s l -> usertree s' = Some t' -> holds t' l' -> l' ≡ₚ u :: l -> u ∉ l ->
  heap s' = <[u := x]> (heap s) -> plain (nick x) -> flags_agree serv x ->
  ordered (nick_cmp_alpha serv s') l' -> total s' = total s + 1 ->
  ops s' = (if op x then 1 else 0) + ops s -> hops s' = (if hop x then 1 else 0) + hops s ->
  voices s' = (if voice x then 1 else 0) + voices s ->
  (me s' = me s \/ me s' = Some u) -> wf serv s' l'.
Proof.
  intros W Ht Hl Hp Hu Hh Hn Hf Hord Htot Ho Hho Hv Hme.
  assert (Hc : forall f, count f (heap s') l' = (if f x then 1 else 0) + count f (heap s) l).
  { intros f. rewrite (count_perm f _ _ _ Hp), count_cons, Hh, flag_of_insert.
    by rewrite count_insert_other. }
  destruct W. split; rewrite ?Hc; try done; try congruence.
  - by rewrite Ht.
  - intros v. rewrite Hp, elem_of_cons, wf_heap, Hh. destruct (decide (u = v)) as [->|Hne].
    + rewrite lookup_insert_eq. split; [by eauto|by left].
    + rewrite lookup_insert_ne by done. naive_solver.
  - intros v y. rewrite Hh. intros [[<- <-]|[_ Hy]]%lookup_insert_Some; [done|]. by eapply wf_plain.
  - rewrite Htot, Hp. simpl. lia.
  - intros v Hv'. rewrite Hp, elem_of_cons. destruct Hme as [E|E]; rewrite E in Hv'.
    + right. by apply wf_me.
    + left. congruence.
  - intros v y. rewrite Hh. intros [[<- <-]|[_ Hy]]%lookup_insert_Some; [done|]. by eapply wf_bits.
Qed.

(** The view of a session the removal of [u] leaves before the next insertion:
    [u] is allocated but in no array cell. *)
Lemma wf_detached s l u x :
  wf serv s l -> u ∈ l -> heap s !! u = Some x ->
  exists t' l', tree_remove_user serv u s = Some (set_usertree (Some t') s) /\ holds t' l' /\
    l ≡ₚ u :: l' /\ (u ∉ l') /\
    wf serv (Session (delete u (heap s)) (Some t') (if bool_decide (me s = Some u) then None else me s)
      ((if op x then -1 else 0) + ops s) ((if hop x then -1 else 0) + hops s)
      ((if voice x then -1 else 0) + voices s) (total s - 1) (end_of_names s) (trace s)) l'.
Proof.
  intros W Hu Hx. destruct (tree_remove_user_spec serv Hserv s l u W Hu)
    as (t' & l' & Htr & Ht' & Hp & Hu' & Hord).
  exists t', l'. split_and!; try done.
  assert (Hc : forall f, count f (delete u (heap s)) l' = (if f x then -1 else 0) + count f (heap s) l).
  { intros f. rewrite (count_perm f _ _ _ Hp), count_cons, count_delete_other by done.
    rewrite (flag_of_Some f _ _ _ Hx). destruct (f x); lia. }
  destruct W. split; simpl; rewrite ?Hc; try done; try congruence.
  - intros v. destruct (decide (u = v)) as [->|Hne].
    + rewrite lookup_delete_eq. split; [done|by intros [? ?]].
    + rewrite lookup_delete_ne by done. rewrite <- wf_heap, Hp. set_solver.
  - intros v y [_ Hy]%lookup_delete_Some. by eapply wf_plain.
  - eapply ordered_agree; [|done]. intros v Hv. unfold user_nick. simpl.
    rewrite lookup_delete_ne; [done|]. by intros ->.
  - rewrite wf_total, Hp. simpl. lia.
  - intros v. case_bool_decide as E; [done|]. intros Hv. apply wf_me in Hv as Hv'.
    rewrite Hp in Hv'. apply elem_of_cons in Hv' as [->|]; [congruence|done].
  - intros v y [_ Hy]%lookup_delete_Some. by eapply wf_bits.
Qed.

(** ** Access bits *)

Lemma status_bit_gathered pre bits d :
  Forall (fun c => c ∈ nick_prefixes (isup serv)) pre ->
  (forall i, Z.testbit bits (Z.of_nat i) = true <->
     exists c, c ∈ pre /\ index_of c (nick_prefixes (isup serv)) = Some i) ->
  status_bit serv d bits = bool_decide (d ∈ pre).
Proof.
  intros Hpre Hbits. unfold status_bit. destruct (index_of d _) as [i|] eqn:Hd.
  - apply eq_bool_prop_intro. rewrite bool_decide_spec, Is_true_true, Hbits. split; [|by eauto].
    intros (c & Hc & Hci). apply index_of_Some in Hci, Hd. congruence.
  - symmetry. apply bool_decide_eq_false. intros H. apply index_of_None in Hd.
    rewrite Forall_forall in Hpre. auto.
Qed.

Lemma status_bit_update d c i a a' level :
  nick_prefixes (isup serv) !! i = Some c ->
  (forall j, Z.testbit a' (Z.of_nat j) = if decide (j = i) then level else Z.testbit a (Z.of_nat j)) ->
  status_bit serv d a' = if c =c d then level else status_bit serv d a.
Proof.
  intros Hi Hbits. unfold status_bit. destruct (index_of d _) as [j|] eqn:Hd.
  - rewrite Hbits. destruct (Ascii.eqb_spec c d) as [->|Hne].
    + assert (index_of d (nick_prefixes (isup serv)) = Some i).
      { apply index_of_nth; [apply Hserv|done]. }
      by rewrite decide_True by congruence.
    + rewrite decide_False; [done|]. intros ->. apply index_of_Some in Hd. congruence.
  - destruct (Ascii.eqb_spec c d) as [->|Hne]; [|done].
    apply index_of_None in Hd. exfalso. apply Hd. by eapply list_elem_of_lookup_2.
Qed.

(** ** The remaining operations *)

Lemma userlist_add_wf s l pre rest h a r :
  wf serv s l -> NoDup pre -> Forall (fun c => c ∈ nick_prefixes (isup serv)) pre ->
  (forall c, head rest = Some c -> c ∉ nick_prefixes (isup serv)) -> plain rest ->
  exists s' l', userlist_add serv s (pre ++ rest) h a r = Some s' /\ wf serv s' l' /\
    exists u x, heap s' !! u = Some x /\ p_cmp serv (take 63 rest) (nick x) = 0.
Proof.
  intros W Hnd Hpre Hrest Hplain. unfold userlist_add, nick_access.
  destruct (nick_access_loop_spec (isup serv) pre rest 0 0 (so_good _ Hserv) (so_width _ Hserv) Hpre Hrest)
    as (bits & -> & Hbits).
  cbn [mbind option_bind].
  rewrite Z.add_0_l, Nat2Z.id, drop_app_length, take_app_length.
  rewrite (safe_strcpy_plain _ GL) by done. cbn [mbind option_bind].
  set (s1 := emit (NotifyOnline rest) s). set (u := fresh _).
  match goal with |- context [<[u := ?y]> (heap s1)] => set (user := y) end.
  assert (Hfresh : heap s !! u = None) by (apply not_elem_of_dom, is_fresh).
  assert (Hu : u ∉ l) by (rewrite (wf_heap _ _ _ W), Hfresh; by intros [? ?]).
  assert (Hn : plain (take 63 rest)) by by apply plain_take.
  assert (W1 : wf serv s1 l) by by apply wf_emit.
  set (s2 := set_heap _ s1).
  assert (Hagree : forall v, v ∈ l -> user_nick s2 v = user_nick s v).
  { intros v Hv. unfold user_nick. simpl. rewrite lookup_insert_ne; [done|]. by intros ->. }
  assert (Hord : ordered (nick_cmp_alpha serv s2) l).
  { eapply ordered_agree; [exact Hagree|]. apply W. }
  assert (Hpl : Forall (plain_user s2) (u :: l)).
  { constructor; [unfold plain_user, user_nick; simpl; by rewrite lookup_insert_eq|].
    apply Forall_forall. intros v Hv. unfold plain_user. rewrite Hagree by done.
    pose proof (wf_plain_users serv s l W) as Hp. rewrite Forall_forall in Hp. by apply Hp. }
  destruct (insertname_fresh serv (so_cmp _ Hserv) s2 l u) as (t' & row & -> & Hrow);
    [apply W|done|done|].
  cbn [mbind option_bind]. destruct Hrow as [(-> & Ht' & v & Hv & Ev)|(Hrow & l' & Ht' & Hp & Ho' & Hne)].
  - change (-1 =? -1) with true. cbv iota. eexists _, l. split; [reflexivity|].
    unfold s2, set_heap, set_usertree. cbn [heap]. rewrite delete_insert_id by done. split.
    + destruct W1. by split.
    + pose proof Hv as Hv'. apply (wf_heap _ _ _ W) in Hv' as [x Hx]. exists v, x. split; [done|].
      unfold nick_cmp_alpha in Ev. rewrite (Hagree v Hv) in Ev. unfold user_nick in Ev. simpl in Ev.
      by rewrite lookup_insert_eq, Hx in Ev.
  - destruct (Z.eqb_spec row (-1)); [lia|].
    erewrite count_prefixes_spec by (simpl; by rewrite lookup_insert_eq).
    cbn [mbind option_bind].
    match goal with |- context [emit (FeInsert u) ?z] => set (s4 := z) end.
    assert (W4 : wf serv s4 l').
    { assert (Hf : flags_agree serv (raised pre user)).
      { unfold flags_agree. cbn. assert (Hb : forall d, status_bit serv d bits = bool_decide (d ∈ pre)).
        { intros d. apply status_bit_gathered; [done|]. intros i. rewrite Hbits, Z.bits_0. naive_solver. }
        by rewrite !Hb. }
      assert (E : forall b : bool, (if b then 1 else 0) = Z.b2z b) by by intros [].
      subst s4. destruct (is_me user);
      (apply (wf_put s1 _ l l' u (raised pre user) t'); try done;
        [cbn; by rewrite insert_insert_eq|
         eapply ordered_agree; [|exact Ho']; intros w _; unfold user_nick; cbn;
           destruct (decide (u = w)) as [->|Hw];
           [by rewrite !lookup_insert_eq|by rewrite !lookup_insert_ne]|
         cbn; rewrite cnt_NoDup by done; destruct (bool_decide _); lia..|
         cbn; by auto]). }
    exists (if end_of_names (emit (FeInsert u) s4) then emit FeNumbers (emit (FeInsert u) s4)
            else emit (FeInsert u) s4), l'.
    split; [done|]. split; [destruct (end_of_names _); by auto using wf_emit|].
    exists u, (raised pre user). split.
    + subst s4. destruct (end_of_names _), (is_me user); cbn; by rewrite insert_insert_eq, lookup_insert_eq.
    + cbn. by apply (cmp_refl plain); [apply Hserv|].
Qed.

(** Putting a detached user back under a nick nobody else has. *)
Lemma reinsert_wf sd s' l u x t :
  wf serv sd l -> u ∉ l -> usertree s' = Some t -> holds t l ->
  heap s' = <[u := x]> (heap sd) -> plain (nick x) -> flags_agree serv x ->
  total s' = total sd + 1 -> ops s' = (if op x then 1 else 0) + ops sd ->
  hops s' = (if hop x then 1 else 0) + hops sd -> voices s' = (if voice x then 1 else 0) + voices sd ->
  (me s' = me sd \/ me s' = Some u) ->
  (forall v y, heap sd !! v = Some y -> p_cmp serv (nick x) (nick y) <> 0) ->
  exists s'' row l', userlist_insertname serv u s' = Some (s'', row) /\ wf serv s'' l' /\
    heap s'' = heap s'.
Proof.
  intros W Hu Hts Ht Hh Hn Hf Htot Ho Hho Hv Hme Hfree.
  assert (Hagree : forall v, v ∈ l -> user_nick s' v = user_nick sd v).
  { intros v Hvl. unfold user_nick. rewrite Hh, lookup_insert_ne; [done|]. by intros ->. }
  assert (Hnu : user_nick s' u = nick x) by (unfold user_nick; by rewrite Hh, lookup_insert_eq).
  destruct (insertname_fresh serv (so_cmp _ Hserv) s' l u) as (t' & row & -> & Hrow).
  - by rewrite Hts.
  - constructor; [unfold plain_user; by rewrite Hnu|]. apply Forall_forall. intros v Hvl.
    unfold plain_user. rewrite Hagree by done.
    pose proof (wf_plain_users serv sd l W) as Hp. rewrite Forall_forall in Hp. by apply Hp.
  - eapply ordered_agree; [exact Hagree|]. apply W.
  - destruct Hrow as [(-> & _ & v & Hvl & Ev)|(_ & l' & Ht' & Hp & Ho' & _)].
    + exfalso. unfold nick_cmp_alpha in Ev. rewrite Hnu, Hagree in Ev by done.
      apply (wf_heap _ _ _ W) in Hvl as [y Hy]. unfold user_nick in Ev. rewrite Hy in Ev.
      by apply (Hfree v y).
    + exists (set_usertree (Some t') s'), row, l'. split; [done|]. split; [|done].
      by eapply (wf_put sd _ l l' u x t').
Qed.

(** Nobody else compares equal to an allocated user. *)
Lemma detached_free s l u x v y :
  wf serv s l -> heap s !! u = Some x -> delete u (heap s) !! v = Some y ->
  p_cmp serv (nick x) (nick y) <> 0.
Proof.
  intros W Hx [Hne Hy]%lookup_delete_Some E. apply Hne.
  apply (nick_unique serv (so_cmp _ Hserv) s l).
  - by eapply wf_plain_users.
  - apply W.
  - apply (wf_heap _ _ _ W); eauto.
  - apply (wf_heap _ _ _ W); eauto.
  - unfold nick_cmp_alpha, user_nick. by rewrite Hx, Hy.
Qed.

Lemma if_neg (b : bool) : (if b then 1 else 0) + (if b then -1 else 0) = 0.
Proof. by destruct b. Qed.

Lemma userlist_remove_user_wf s l u x :
  wf serv s l -> heap s !! u = Some x ->
  exists s' l', userlist_remove_user serv u s = Some s' /\ wf serv s' l' /\ heap s' = delete u (heap s).
Proof.
  intros W Hx. assert (Hu : u ∈ l) by (apply (wf_heap _ _ _ W); eauto).
  destruct (wf_detached s l u x W Hu Hx) as (t' & l' & Htr & Ht' & Hp & Hu' & Wd).
  unfold userlist_remove_user. rewrite Hx. cbn [mbind option_bind].
  match goal with |- context [bool_decide (me ?z = Some u)] => change (me z) with (me s) end.
  match goal with |- context [tree_remove_user serv u ?z] => set (s1 := z) end.
  set (b := bool_decide (me s = Some u)) in *.
  assert (Htr1 : tree_remove_user serv u s1 = Some (set_usertree (Some t') s1)).
  { revert Htr. unfold tree_remove_user.
    assert (usertree s1 = usertree s) as -> by (subst s1; by destruct b).
    replace (nick_cmp_alpha serv s1) with (nick_cmp_alpha serv s); [|
      unfold nick_cmp_alpha, user_nick; subst s1; by destruct b].
    destruct (usertree s) as [t|] eqn:Eu;
      [|intros [= E]; apply (f_equal usertree) in E; simpl in E; congruence].
    destruct (tree_remove _ _ _) as [[t'' ?]|]; simpl; [|done].
    unfold set_usertree. by intros [= ->]. }
  rewrite Htr1. cbn [mbind option_bind]. eexists _, l'. split; [reflexivity|].
  split; [|subst s1; by destruct b].
  subst s1. destruct Wd. destruct b; split; simpl in *; try done;
    (rewrite <- wf_ops || rewrite <- wf_hops || rewrite <- wf_voices);
    destruct (op x), (hop x), (voice x); lia.
Qed.

Lemma userlist_remove_wf s l name :
  wf serv s l -> plain name ->
  exists s' b l', userlist_remove serv s name = Some (s', b) /\ wf serv s' l' /\
    forall u x, heap s' !! u = Some x <-> heap s !! u = Some x /\ p_cmp serv name (nick x) <> 0.
Proof.
  intros W Hn. unfold userlist_remove.
  destruct (find_result s l name W Hn) as ([u|] & -> & Hr); cbn [mbind option_bind].
  - destruct Hr as (x & Hu & Hx & E).
    destruct (userlist_remove_user_wf s l u x W Hx) as (s' & l' & -> & W' & Hh).
    cbn [mbind option_bind]. exists s', true, l'. split_and!; [done|done|].
    intros v y. rewrite Hh, lookup_delete_Some. split; [|intros [Hy Hc]; split; [|done]].
    + intros [Hne Hy]. split; [done|]. intros E'. by apply Hne, (found_unique s l name u v x y).
    + intros ->. congruence.
  - eexists _, _, l. split_and!; [done|done|]. intros u x. split; [|by intros [? _]].
    intros Hx. split; [done|]. by apply (Hr u).
Qed.

(** [mode_access] of a nick mode: its position and the prefix there. *)
Lemma mode_access_mode mode :
  mode ∈ nick_modes (isup serv) ->
  exists i c, mode_access (isup serv) mode = Some (Z.of_nat i, c) /\
    nick_prefixes (isup serv) !! i = Some c.
Proof.
  intros Hm. unfold mode_access. destruct (index_of mode _) as [i|] eqn:Hi.
  - apply index_of_Some in Hi. apply lookup_lt_Some in Hi as Hlt.
    rewrite (so_modes _ Hserv) in Hlt. apply lookup_lt_is_Some in Hlt as [c Hc].
    exists i, c. split; [|done]. rewrite zlookup_nat, lookup_app_l by (by eapply lookup_lt_Some).
    by rewrite Hc.
  - by apply index_of_None in Hi.
Qed.

(** The user after a mode change. *)
Definition changed_mode (i : nat) (c sign : ascii) (x : User) : User :=
  let b := Z.of_nat i in
  let a := if sign =c "+" then Z.lor (access x) (Z.shiftl 1 b) else Z.ldiff (access x) (Z.shiftl 1 b) in
  leveled c (sign =c "+") (set_prefix (get_nick_prefix (isup serv) a) (set_access a x)).

Lemma changed_mode_bits i c sign x j :
  Z.testbit (access (changed_mode i c sign x)) (Z.of_nat j) =
  if decide (j = i) then (sign =c "+") else Z.testbit (access x) (Z.of_nat j).
Proof.
  unfold changed_mode. cbn. destruct (sign =c "+").
  - rewrite testbit_set by lia. destruct (decide (j = i)) as [->|Hne].
    + rewrite bool_decide_true by done. apply orb_true_r.
    + rewrite bool_decide_false by lia. apply orb_false_r.
  - rewrite Z.ldiff_spec, Z.shiftl_1_l. destruct (decide (j = i)) as [->|Hne].
    + rewrite Z.pow2_bits_true by lia. apply andb_false_r.
    + rewrite Z.pow2_bits_false by lia. apply andb_true_r.
Qed.

Lemma changed_mode_flags i c sign x :
  nick_prefixes (isup serv) !! i = Some c -> flags_agree serv x ->
  flags_agree serv (changed_mode i c sign x).
Proof.
  intros Hi (Ho & Hh & Hv).
  pose proof (fun d => status_bit_update d c i _ _ _ Hi (changed_mode_bits i c sign x)) as Hs.
  unfold flags_agree. rewrite !Hs. unfold changed_mode. cbn. by rewrite Ho, Hh, Hv.
Qed.

Lemma status_bit_at i c a :
  nick_prefixes (isup serv) !! i = Some c -> status_bit serv c a = Z.testbit a (Z.of_nat i).
Proof.
  intros Hi. unfold status_bit. by rewrite (index_of_nth _ i) by (done || apply Hserv).
Qed.

Lemma userlist_update_mode_wf s l name mode sign :
  wf serv s l -> plain name -> mode ∈ nick_modes (isup serv) ->
  exists s' l', userlist_update_mode serv s name mode sign = Some s' /\ wf serv s' l' /\
    forall u x, heap s !! u = Some x -> p_cmp serv name (nick x) = 0 ->
      exists i c, mode_access (isup serv) mode = Some (Z.of_nat i, c) /\
        heap s' = <[u := changed_mode i c sign x]> (heap s).
Proof.
  intros W Hn Hm. unfold userlist_update_mode.
  destruct (find_result s l name W Hn) as ([u|] & -> & Hr); cbn [mbind option_bind].
  2: { exists s, l. split_and!; [done|done|]. intros u x Hx E. by apply Hr in Hx. }
  destruct Hr as (x & Hu & Hx & E).
  destruct (wf_detached s l u x W Hu Hx) as (t' & l' & -> & Ht' & Hp & Hu' & Wd).
  destruct (mode_access_mode mode Hm) as (i & c & Hma & Hi).
  rewrite Hma. cbn [mbind option_bind]. change (heap (emit _ (set_usertree _ s))) with (heap s).
  rewrite Hx. cbn [mbind option_bind].
  rewrite int_bit_small by (apply lookup_lt_Some in Hi; pose proof (so_width _ Hserv); lia). cbn [mbind option_bind].
  rewrite land_shiftl_bit by lia. pose proof (wf_bits _ _ _ W u x Hx) as (Ho & Hh & Hv).
  set (offset := if sign =c "+" then if Z.testbit (access x) (Z.of_nat i) then 0 else 1
                 else if Z.testbit (access x) (Z.of_nat i) then -1 else 0).
  set (a := if sign =c "+" then Z.lor (access x) (Z.shiftl 1 (Z.of_nat i))
            else Z.ldiff (access x) (Z.shiftl 1 (Z.of_nat i))).
  replace (if sign =c "+" then _ else _) with ((sign =c "+"), offset, a)
    by (subst offset a; by destruct (sign =c "+")).
  unfold modify. cbn [heap emit set_usertree]. rewrite Hx. cbn [mbind option_bind].
  erewrite update_counts_spec by (cbn; by rewrite lookup_insert_eq). cbn [mbind option_bind].
  match goal with |- context [userlist_insertname serv u ?z] => set (s1 := z) end.
  assert (Hs1 : heap s1 = <[u := changed_mode i c sign x]> (heap s)).
  { subst s1. cbn. by rewrite insert_insert_eq. }
  pose proof (changed_mode_flags i c sign x Hi (conj Ho (conj Hh Hv))) as Hf'.
  assert (Hoff : forall d o, o = status_bit serv d (access x) ->
    0 + (if c =c d then offset else 0) =
    (if (if c =c d then (sign =c "+") else o) then 1 else 0) + (if o then -1 else 0)).
  { intros d o ->. destruct (Ascii.eqb_spec c d) as [<-|];
      [|destruct (status_bit serv d (access x)); reflexivity].
    rewrite (status_bit_at i c) by done. subst offset.
    by destruct (sign =c "+"), (Z.testbit _ _). }
  destruct (reinsert_wf _ s1 l' u (changed_mode i c sign x) t' Wd) as (s' & row & l'' & -> & W' & Hh');
    try done.
  - rewrite Hs1. cbn. by rewrite insert_delete_eq.
  - by apply (wf_plain _ _ _ W u x).
  - cbn. lia.
  - cbn. specialize (Hoff "@"%char (op x) Ho). lia.
  - cbn. specialize (Hoff "%"%char (hop x) Hh). lia.
  - cbn. specialize (Hoff "+"%char (voice x) Hv). lia.
  - cbn. case_bool_decide; auto.
  - intros v y Hy. by apply (detached_free s l u x v y).
  - cbn [mbind option_bind]. eexists _, l''. split; [reflexivity|].
    split; [by auto using wf_emit|]. intros v y Hy Ey. exists i, c. split; [done|].
    cbn. rewrite Hh', Hs1. assert (u = v) as <-; [|congruence]. by apply (found_unique s l name u v x y).
Qed.

Lemma userlist_change_wf s l old new :
  wf serv s l -> plain old -> plain new ->
  (forall u x, heap s !! u = Some x -> p_cmp serv old (nick x) <> 0 ->
     p_cmp serv (take 63 new) (nick x) <> 0) ->
  exists s' b l', userlist_change serv s old new = Some (s', b) /\ wf serv s' l' /\
    forall u x, heap s !! u = Some x -> p_cmp serv old (nick x) = 0 ->
      b = true /\ heap s' = <[u := set_nick (take 63 new) x]> (heap s).
Proof.
  intros W Ho Hn Hfree. unfold userlist_change.
  destruct (find_result s l old W Ho) as ([u|] & -> & Hr); cbn [mbind option_bind].
  2: { exists s, false, l. split_and!; [done|done|]. intros u x Hx E. by apply Hr in Hx. }
  destruct Hr as (x & Hu & Hx & E).
  destruct (wf_detached s l u x W Hu Hx) as (t' & l' & -> & Ht' & Hp & Hu' & Wd).
  cbn [mbind option_bind]. rewrite (safe_strcpy_plain _ GL) by done. cbn [mbind option_bind].
  unfold modify. cbn [heap emit set_usertree]. rewrite Hx. cbn [mbind option_bind].
  match goal with |- context [userlist_insertname serv u ?z] => set (s1 := z) end.
  assert (Hn' : plain (take 63 new)) by by apply plain_take.
  destruct (reinsert_wf _ s1 l' u (set_nick (take 63 new) x) t' Wd) as (s' & row & l'' & -> & W' & Hh');
    try done; try (cbn; lia).
  - cbn. by rewrite insert_delete_eq.
  - by apply (wf_bits _ _ _ W u x).
  - cbn. destruct (op x); lia.
  - cbn. destruct (hop x); lia.
  - cbn. destruct (voice x); lia.
  - cbn. case_bool_decide; auto.
  - cbn [heap]. intros v y [Hne Hy]%lookup_delete_Some. apply (Hfree v y); [done|].
    intros Ey. by apply Hne, (found_unique s l old u v x y).
  - cbn [mbind option_bind]. eexists _, true, l''. split; [reflexivity|].
    split; [by auto using wf_emit|]. intros v y Hy Ey. split; [done|].
    cbn. rewrite Hh'. assert (u = v) as <-; [|cbn; congruence]. by apply (found_unique s l old u v x y).
Qed.

(** Deleting every listed user empties the store. *)
Lemma free_all l (h : gmap positive User) :
  (forall u, u ∈ l <-> is_Some (h !! u)) -> foldl (fun (h : gmap positive User) u => delete u h) h l = ∅.
Proof.
  intros Hl. apply map_empty. intros u.
  assert (H : forall h : gmap positive User,
    foldl (fun (h : gmap positive User) u => delete u h) h l !! u = if decide (u ∈ l) then None else h !! u).
  { clear. induction l as [|v l IH]; intros h; [done|]. cbn [foldl]. rewrite IH.
    destruct (decide (u = v)) as [->|Hne].
    - rewrite lookup_delete_eq, (decide_True (P := v ∈ v :: l)) by constructor.
      by destruct (decide _).
    - rewrite lookup_delete_ne by done. repeat destruct (decide _); set_solver. }
  rewrite H. destruct (decide (u ∈ l)) as [|Hu]; [done|].
  apply eq_None_not_Some. by rewrite <- Hl.
Qed.

Lemma userlist_clear_wf s l :
  wf serv s l -> exists s', userlist_clear s = Some s' /\ wf serv s' [] /\ heap s' = ∅.
Proof.
  intros W. pose proof (wf_heap _ _ _ W) as Hh. pose proof (wf_tree _ _ _ W) as Ht.
  unfold userlist_clear, userlist_free. cbn [usertree heap emit].
  assert (E : match usertree s with
    | Some t => tree_foreach (fun u h => (delete u h, true)) t (heap s)
    | None => Some (heap s) end = Some ∅).
  { destruct (usertree s) as [t|].
    - rewrite (foreach_holds (fun u (h : gmap positive User) => delete u h) t l) by done. by rewrite free_all.
    - f_equal. apply map_empty. intros u. apply eq_None_not_Some. rewrite <- Hh, Ht.
      apply not_elem_of_nil. }
  rewrite E. cbn [mbind option_bind]. eexists. split; [reflexivity|]. split; [|done].
  split; cbn; try done; try constructor.
  - intros H. by apply not_elem_of_nil in H.
  - by intros [? ?].
Qed.

Lemma wf_new : wf serv session_new [].
Proof.
  split; cbn; try done; try constructor.
  - intros H. by apply not_elem_of_nil in H.
  - by intros [? ?].
Qed.

Lemma exec_wf s l c :
  wf serv s l -> admissible serv s c -> exists s' l', exec serv c s = Some s' /\ wf serv s' l'.
Proof.
  intros W Hc. destruct Hc; cbn [exec].
  - destruct (userlist_add_wf s l pre rest h a r) as (? & ? & ? & ? & _); eauto.
  - destruct (userlist_remove_wf s l name) as (? & ? & ? & -> & ? & _); cbn; eauto.
  - destruct (userlist_change_wf s l old new) as (? & ? & ? & -> & ? & _); cbn; eauto.
  - destruct (userlist_update_mode_wf s l name mode sign) as (? & ? & ? & ? & _); eauto.
  - destruct (userlist_set_away_wf s l name a) as (? & ? & ?); eauto.
  - destruct (userlist_set_account_wf s l name a) as (? & ? & ?); eauto.
  - destruct (userlist_add_hostname_wf sh s l name h r sv a aw) as (? & ? & -> & ?); cbn; eauto.
  - destruct (userlist_clear_wf s l W) as (? & ? & ? & _); eauto.
Qed.

Lemma reachable_wf s : reachable serv s -> exists l, wf serv s l.
Proof.
  induction 1 as [|s c s' _ [l W] Hc E]; [by exists []; apply wf_new|].
  destruct (exec_wf s l c W Hc) as (s'' & l' & E' & W'). rewrite E in E'. simplify_eq. eauto.
Qed.
End operations.

Definition server_example : server := Server isupport_example rfc_casecmp "me" false.

Lemma server_example_ok : server_ok server_example.
Proof.
  split; [apply rfc_casecmp_order|reflexivity| |cbn; lia|reflexivity].
  by apply (bool_decide_unpack _); vm_compute.
Qed.

(** ** Properties *)

(** C1. In every session state that admissible calls of userlist.c can reach from
    the empty list, on a server with a lawful order of nicks and at most 31
    distinct statuses, the array holds exactly the allocated users in strictly
    increasing nick order, [total], [ops], [hops] and [voices] are the numbers of
    users and of users with each flag, every flag agrees with the access bits, and
    [me] is listed or NULL; every further admissible call succeeds without leaving
    the array or following a dangling pointer, and keeps all of this. What is not
    admissible is a status character twice in front of a nick
    ([userlist_repeated_prefix_drift]), a nick changed to that of another user
    ([userlist_change_collision_loses_user]), and a mode that is no status. *)
Theorem userlist_reachable_invariant (G : GLib) serv s :
  GLibLaws G -> server_ok serv -> reachable serv s ->
  exists l, wf serv s l /\
    forall c, admissible serv s c -> exists s' l', exec serv c s = Some s' /\ wf serv s' l'.
Proof.
  intros GL Hserv Hs. destruct (reachable_wf serv Hserv s Hs) as [l W]. exists l. split; [done|].
  intros c Hc. by apply (exec_wf serv Hserv s l).
Qed.

(** Under the invariant [userlist_update_mode] on a listed name changes that
    one user: exactly the bit of the mode is set or cleared, the flag and the
    counter of the mode's prefix follow it, every other counter and every other
    user stays, and the status prefix is that of the new access. *)
Theorem userlist_update_mode_effect (G : GLib) serv s l name mode sign u x :
  GLibLaws G -> server_ok serv -> wf serv s l -> plain name -> mode ∈ nick_modes (isup serv) ->
  heap s !! u = Some x -> p_cmp serv name (nick x) = 0 ->
  exists s' l' x' i c, userlist_update_mode serv s name mode sign = Some s' /\ wf serv s' l' /\
    mode_access (isup serv) mode = Some (Z.of_nat i, c) /\ heap s' = <[u := x']> (heap s) /\
    nick x' = nick x /\ prefix x' = get_nick_prefix (isup serv) (access x') /\
    forall d, status_bit serv d (access x') = if c =c d then (sign =c "+") else status_bit serv d (access x).
Proof.
  intros GL Hserv W Hn Hm Hx E.
  destruct (userlist_update_mode_wf serv Hserv s l name mode sign W Hn Hm) as (s' & l' & H1 & W' & H).
  destruct (H u x Hx E) as (i & c & Hma & Hh).
  destruct (mode_access_mode serv Hserv mode Hm) as (i' & c' & Hma' & Hi).
  rewrite Hma in Hma'. simplify_eq.
  eexists s', l', _, _, _. split_and!; try done.
  intros d. eapply status_bit_update; [done..|]. intros j. by apply changed_mode_bits.
Qed.

(** Under the invariant [userlist_remove] succeeds and afterwards exactly
    the users that do not compare equal to the name remain, the others
    unchanged; a later lookup of the name finds nobody. *)
Theorem userlist_remove_effect (G : GLib) serv s l name :
  GLibLaws G -> server_ok serv -> wf serv s l -> plain name ->
  exists s' b, userlist_remove serv s name = Some (s', b) /\
    (forall u x, heap s' !! u = Some x <-> heap s !! u = Some x /\ p_cmp serv name (nick x) <> 0) /\
    userlist_find serv s' name = Some None.
Proof.
  intros GL Hserv W Hn. destruct (userlist_remove_wf serv Hserv s l name W Hn) as (s' & b & l' & H1 & W' & H).
  exists s', b. split_and!; [done|done|].
  destruct (find_result serv Hserv s' l' name W' Hn) as ([u|] & -> & Hr); [|done].
  destruct Hr as (x & _ & Hx & E). by apply H in Hx as [_ Hx].
Qed.

(** A status prefix repeated in NAMES ("@@nick") is counted twice by
    [userlist_add] but once by [userlist_remove]: the empty channel is left
    with one operator. *)
Theorem userlist_repeated_prefix_drift :
  exists s1 s2, userlist_add server_example session_new "@@bob" None None None = Some s1 /\
    userlist_remove server_example s1 "bob" = Some (s2, true) /\
    total s2 = 0 /\ ops s2 = 1 /\ userlist_flat_list s2 = Some [].
Proof. do 2 eexists. split; [by vm_compute|]. by vm_compute. Qed.

(** [userlist_change] ignores that [userlist_insertname] refuses a nick in
    use: the renamed user stays allocated and counted but is in no array cell. *)
Theorem userlist_change_collision_loses_user :
  exists s1 s2 s3, userlist_add server_example session_new "alice" None None None = Some s1 /\
    userlist_add server_example s1 "bob" None None None = Some s2 /\
    userlist_change server_example s2 "alice" "BOB" = Some (s3, true) /\
    total s3 = 2 /\ userlist_flat_list s3 = Some [2%positive] /\ size (heap s3) = 2%nat.
Proof. do 3 eexists. split; [by vm_compute|]. split; [by vm_compute|]. by vm_compute. Qed.

(** ** Witnesses *)

Definition example_joins : list call :=
  [CAdd ("@" ++ "bob") None None None; CAdd ([] ++ "alice") None None None;
   CAdd ("+" ++ "carol") None None None].

Definition run `{GLib} (serv : server) (cs : list call) (s : session) : option session :=
  foldl (fun s c => s ← s; exec serv c s) (Some s) cs.

Definition example_after (n : nat) : session :=
  default session_new (run server_example (take n example_joins) session_new).

Definition example_session : session := example_after 3.

Lemma example_admissible s pre rest :
  bool_decide (NoDup pre) && forallb (fun c => bool_decide (c ∈ nick_prefixes (isup server_example))) pre &&
  plainb rest && negb (bool_decide (peek rest ∈ nick_prefixes (isup server_example))) = true ->
  admissible server_example s (CAdd (pre ++ rest) None None None).
Proof.
  rewrite !andb_true_iff, negb_true_iff, bool_decide_eq_true, bool_decide_eq_false.
  intros [[[H1 H2] H3] H4]. apply adm_add; [done| | |by apply plainb_spec].
  - apply Forall_forall. intros c Hc. rewrite forallb_forall in H2.
    eapply bool_decide_eq_true_1. apply H2. by apply list_elem_of_In.
  - intros c Hc. destruct rest; [done|]. simpl in *. congruence.
Qed.

Lemma example_reachable : reachable server_example example_session.
Proof.
  apply (reach_call _ (example_after 2) (CAdd ("+" ++ "carol") None None None));
    [|by apply example_admissible|by vm_compute].
  apply (reach_call _ (example_after 1) (CAdd ([] ++ "alice") None None None));
    [|by apply example_admissible|by vm_compute].
  apply (reach_call _ (example_after 0) (CAdd ("@" ++ "bob") None None None));
    [|by apply example_admissible|by vm_compute].
  constructor.
Qed.

Lemma example_wf : exists l, wf server_example example_session l.
Proof. apply (reachable_wf _ server_example_ok), example_reachable. Qed.

Lemma userlist_reachable_invariant_witness :
  exists l, wf server_example example_session l /\
    exists s' l', exec server_example (CRemove "alice") example_session = Some s' /\
      wf server_example s' l'.
Proof.
  destruct (userlist_reachable_invariant glib_ref server_example example_session
    glib_ref_laws server_example_ok example_reachable) as (l & W & H).
  exists l. split; [exact W|]. apply H. apply adm_remove. by apply plainb_spec.
Defined.

Lemma userlist_update_mode_effect_witness :
  exists s' u x', userlist_update_mode server_example example_session "CAROL" "o" "+" = Some s' /\
    heap s' !! u = Some x' /\ nick x' = "carol".
Proof.
  destruct example_wf as [l W].
  destruct (heap example_session !! 3%positive) as [x|] eqn:Hx; [|by vm_compute in Hx].
  assert (Hn : nick x = "carol") by (vm_compute in Hx; by injection Hx as <-).
  destruct (userlist_update_mode_effect glib_ref server_example example_session l "CAROL" "o" "+" 3 x)
    as (s' & l' & x' & i & c & H & _ & _ & Hh & Hn' & _).
  - exact glib_ref_laws.
  - exact server_example_ok.
  - exact W.
  - by apply plainb_spec.
  - by apply (bool_decide_unpack _); vm_compute.
  - exact Hx.
  - rewrite Hn. by vm_compute.
  - exists s', 3%positive, x'. split; [exact H|]. split; [|rewrite Hn'; exact Hn].
    rewrite Hh. exact (lookup_insert_eq (heap example_session) 3%positive x').
Defined.

Lemma userlist_remove_effect_witness :
  exists s' b, userlist_remove server_example example_session "Alice" = Some (s', b) /\
    userlist_find server_example s' "Alice" = Some None.
Proof.
  destruct example_wf as [l W].
  destruct (userlist_remove_effect glib_ref server_example example_session l "Alice")
    as (s' & b & H & _ & Hf); [exact glib_ref_laws|exact server_example_ok|exact W|by apply plainb_spec|].
  eauto.
Defined.
