(* ===== verification/Modes.v ===== *)
(** * Channel mode handling (src/common/modes.c)

    Sending mode changes in batches, keeping the recorded channel modes, and
    handling MODE and numeric 324.  Text events and frontend calls are recorded
    in a trace next to the session they are for. *)
From S2P Require Import Prelude Glib Casemap Text Tree Access Userlist.

(** ** Sending mode changes *)

(** One line's nicks: how many of the remaining words fit. *)
Fixpoint fit_loop (words : list cstr) (max : Z) (n : nat) (len i : Z) {struct n} : Z :=
  match n with
  | O => i
  | S n =>
      match words with
      | [] => i
      | w :: words =>
          let wlen := Z.of_nat (length w) + 1 in
          if max <? wlen + len then i else fit_loop words max n (len + wlen) (i + 1)
      end
  end.

(** [+ooo nick nick nick] *)
Definition mode_line (sign mode : ascii) (nicks : list cstr) : cstr :=
  sign :: repeat mode (length nicks) ++ concat (map (fun w => " "%char :: w) nicks).

Fixpoint send_loop (fuel : nat) (words : list cstr) (sign mode : ascii) (max modes_per_line : Z) {struct fuel}
    : option (list cstr) :=
  match words with
  | [] => Some []
  | _ =>
      match fuel with
      | O => None
      | S fuel =>
          let i := fit_loop words max (Z.to_nat modes_per_line) modes_per_line 0 in
          if i <? 1 then Some []
          else
            let usable := Z.to_nat i in
            rest ← send_loop fuel (drop usable words) sign mode max modes_per_line;
            Some (mode_line sign mode (take usable words) :: rest)
      end
  end.

(** [words] are word[wpos] .. word[end-1]; the result is the server's
    [modes_per_line] and the arguments of the [p_mode] calls. *)
Definition send_channel_modes (channel : cstr) (serv_modes_per_line : Z) (words : list cstr)
    (sign mode : ascii) (modes_per_line : Z) : option (Z * list cstr) :=
  let serv_mpl := if serv_modes_per_line <? 1 then 3 else serv_modes_per_line in
  let mpl := if modes_per_line <? 1 then serv_mpl else modes_per_line in
  let max := 503 - Z.of_nat (length channel) in
  lines ← send_loop (length words) words sign mode max mpl;
  Some (serv_mpl, lines).

(** ** The recorded channel modes *)

Fixpoint mode_pos_loop (s : cstr) (i : Z) (n : nat) (mode : ascii) {struct n} : Z :=
  match n with
  | O => -1
  | S n =>
      match s with
      | [] => -1
      | c :: s => if c =c mode then i else mode_pos_loop s (i + 1) n mode
      end
  end.

Fixpoint count_args (serv : isupport) (s : cstr) (n : nat) {struct n} : Z :=
  match n, s with
  | S n, c :: s => (if mode_has_arg serv "+" c then 1 else 0) + count_args serv s n
  | _, _ => 0
  end.

(** From the arguments on, to the space before argument [num]: the rest of the
    string there, its offset, and the number of spaces met. *)
Fixpoint arg_seek (s : cstr) (i num off : Z) : cstr * Z * Z :=
  match s with
  | [] => (s, off, i)
  | c :: s' =>
      if i <? num then
        let i := if c =c " " then i + 1 else i in
        if i =? num then (s, off, i) else arg_seek s' i num (off + 1)
      else (s, off, i)
  end.

Fixpoint arg_length_loop (s : cstr) (len : Z) : Z :=
  match s with
  | [] => len
  | c :: s => if c =c " " then len else arg_length_loop s (len + 1)
  end.

(** [sess->current_modes] before and after. *)
Definition record_chan_mode `{GLib} (serv : isupport) (current_modes : option cstr)
    (sign mode : ascii) (arg : cstr) : option cstr :=
  let current := default [] current_modes in
  let modes_length := default (length current) (index_of " " current) in
  let mode_pos := mode_pos_loop current 0 modes_length mode in
  let '(argument_offset, argument_length) :=
    if negb (mode_pos =? -1) && mode_has_arg serv "+" mode then
      let argument_num := count_args serv current (Z.to_nat (mode_pos + 1)) in
      let '(rest, off, i) := arg_seek (drop modes_length current) 0 argument_num (Z.of_nat modes_length) in
      (off, if i =? argument_num then arg_length_loop (drop 1 rest) 1 else 0)
    else (0, 0) in
  if sign =c "+" then
    if negb (mode_pos =? -1) then
      if mode_has_arg serv sign mode then
        Some (g_string_insert (g_string_erase current (argument_offset + 1) (argument_length - 1))
                (argument_offset + 1) arg)
      else current_modes
    else
      let current := g_string_insert current (Z.of_nat modes_length) [mode] in
      Some (if mode_has_arg serv sign mode then current ++ " "%char :: arg else current)
  else if (sign =c "-") && negb (mode_pos =? -1) then
    let current :=
      if mode_has_arg serv "+" mode then g_string_erase current argument_offset argument_length
      else current in
    Some (g_string_erase current mode_pos 1)
  else current_modes.

(** ** Sessions and events *)

Inductive text_event :=
| XP_TE_RAWMODES | XP_TE_CHANSETKEY | XP_TE_CHANRMKEY | XP_TE_CHANSETLIMIT | XP_TE_CHANRMLIMIT
| XP_TE_CHANOP | XP_TE_CHANDEOP | XP_TE_CHANHOP | XP_TE_CHANDEHOP | XP_TE_CHANVOICE
| XP_TE_CHANDEVOICE | XP_TE_CHANBAN | XP_TE_CHANUNBAN | XP_TE_CHANEXEMPT | XP_TE_CHANRMEXEMPT
| XP_TE_CHANINVITE | XP_TE_CHANRMINVITE | XP_TE_CHANQUIET | XP_TE_CHANUNQUIET | XP_TE_CHANMODEGEN.

Inductive mode_event :=
| Signal (e : text_event) (args : list cstr)
| FeUpdateModeButtons (mode sign : ascii)
| FeUpdateChannelKey
| FeUpdateChannelLimit
| FeSetTitle
| InboundIdentified.

Record chan_session := Chan {
  same_server : bool;
  type_channel : bool;
  channel : cstr;
  channelkey : cstr;
  chan_limit : Z;
  ignore_mode : bool;
  current_modes : option cstr;
  users : session }.

Record mstate := MState {
  sess_list : list chan_session;
  front_session : nat;
  events : list (nat * mode_event) }.

Record mode_run := ModeRun {
  mr_op : option cstr; mr_deop : option cstr; mr_voice : option cstr; mr_devoice : option cstr }.

Definition set_channelkey v c := Chan (same_server c) (type_channel c) (channel c) v (chan_limit c)
  (ignore_mode c) (current_modes c) (users c).
Definition set_chan_limit v c := Chan (same_server c) (type_channel c) (channel c) (channelkey c) v
  (ignore_mode c) (current_modes c) (users c).
Definition set_current_modes v c := Chan (same_server c) (type_channel c) (channel c) (channelkey c)
  (chan_limit c) (ignore_mode c) v (users c).
Definition set_users v c := Chan (same_server c) (type_channel c) (channel c) (channelkey c)
  (chan_limit c) (ignore_mode c) (current_modes c) v.

Definition update_sess (i : nat) (f : chan_session -> chan_session) (m : mstate) : mstate :=
  MState (alter f i (sess_list m)) (front_session m) (events m).
Definition signal (i : nat) (e : mode_event) (m : mstate) : mstate :=
  MState (sess_list m) (front_session m) (events m ++ [(i, e)]).

(** src/common/poxchat.c *)
Fixpoint find_channel_loop (serv : server) (l : list chan_session) (i : nat) (chan : cstr) : option nat :=
  match l with
  | [] => None
  | sess :: l =>
      if same_server sess && type_channel sess && (p_cmp serv chan (channel sess) =? 0) then Some i
      else find_channel_loop serv l (S i) chan
  end.

Definition find_channel (serv : server) (m : mstate) (chan : cstr) : option nat :=
  find_channel_loop serv (sess_list m) 0 chan.

(** ** One mode *)

Definition mode_cat (str : option cstr) (addition : cstr) : option cstr :=
  match str with
  | Some s => Some (s ++ " "%char :: addition)
  | None => Some addition
  end.

(** [atoi] of a decimal string: leading blanks, a sign, digits. *)
Fixpoint atoi_digits (s : cstr) (acc : Z) : Z :=
  match s with
  | c :: s => if isdigit c then atoi_digits s (10 * acc + (uchar c - 48)) else acc
  | [] => acc
  end.

(** glibc: [strtol], which saturates, cut to an int. *)
Definition strtol_int (z : Z) : Z := wrap_i32 (Z.max (- 2 ^ 63) (Z.min (2 ^ 63 - 1) z)).

Fixpoint atoi (s : cstr) : Z :=
  match s with
  | c :: s' =>
      if (c =c " ") || ((9 <=? uchar c) && (uchar c <=? 13)) then atoi s'
      else if c =c "-" then strtol_int (- atoi_digits s' 0)
      else if c =c "+" then strtol_int (atoi_digits s' 0)
      else strtol_int (atoi_digits s 0)
  | [] => 0
  end.

(** Is q a chanmode on this server? *)
Fixpoint supports_q (cm : cstr) : bool :=
  match cm with
  | [] => false
  | c :: cm => if c =c "," then false else (c =c "q") || supports_q cm
  end.

Definition KEYLEN : Z := 64.

Section single_mode.
Context `{GLib} (serv : server).

(** From label [genmode] on, for session [i]. *)
Definition genmode (sign mode : ascii) (nick chan arg : cstr) (quiet : bool) (i : nat) (m : mstate)
    : mstate :=
  let m :=
    if (mode =c "e") && (sign =c "+") && (p_cmp serv chan (serv_nick serv) =? 0)
    then signal i InboundIdentified m else m in
  if quiet then m
  else
    match arg with
    | _ :: _ => signal i (Signal XP_TE_CHANMODEGEN [nick; [sign]; [mode]; chan ++ " "%char :: arg]) m
    | [] => signal i (Signal XP_TE_CHANMODEGEN [nick; [sign]; [mode]; chan]) m
    end.

Definition unless_quiet (quiet : bool) (i : nat) (e : text_event) (args : list cstr) (m : mstate)
    : mstate :=
  if quiet then m else signal i (Signal e args) m.

(** The [switch (sign)]; [None] is the fall-through to [genmode]. *)
Definition mode_switch (mr : mode_run) (sign mode : ascii) (nick arg : cstr) (quiet supportsq : bool)
    (i : nat) (m : mstate) : option (option (mstate * mode_run)) :=
  let emits te := Some (Some (unless_quiet quiet i te [nick; arg] m, mr)) in
  let buttons := signal i (FeUpdateModeButtons mode sign) in
  if sign =c "+" then
    if mode =c "k" then
      key ← safe_strcpy arg KEYLEN;
      let m := buttons (signal i FeUpdateChannelKey (update_sess i (set_channelkey key) m)) in
      Some (Some (unless_quiet quiet i XP_TE_CHANSETKEY [nick; arg] m, mr))
    else if mode =c "l" then
      let m := buttons (signal i FeUpdateChannelLimit (update_sess i (set_chan_limit (atoi arg)) m)) in
      Some (Some (unless_quiet quiet i XP_TE_CHANSETLIMIT [nick; arg] m, mr))
    else if mode =c "o" then
      Some (Some (m, if quiet then mr
                     else ModeRun (mode_cat (mr_op mr) arg) (mr_deop mr) (mr_voice mr) (mr_devoice mr)))
    else if mode =c "h" then emits XP_TE_CHANHOP
    else if mode =c "v" then
      Some (Some (m, if quiet then mr
                     else ModeRun (mr_op mr) (mr_deop mr) (mode_cat (mr_voice mr) arg) (mr_devoice mr)))
    else if mode =c "b" then emits XP_TE_CHANBAN
    else if mode =c "e" then emits XP_TE_CHANEXEMPT
    else if mode =c "I" then emits XP_TE_CHANINVITE
    else if mode =c "q" then if supportsq : bool then emits XP_TE_CHANQUIET else Some None
    else Some None
  else if sign =c "-" then
    if mode =c "k" then
      let m := buttons (signal i FeUpdateChannelKey (update_sess i (set_channelkey []) m)) in
      Some (Some (unless_quiet quiet i XP_TE_CHANRMKEY [nick] m, mr))
    else if mode =c "l" then
      let m := buttons (signal i FeUpdateChannelLimit (update_sess i (set_chan_limit 0) m)) in
      Some (Some (unless_quiet quiet i XP_TE_CHANRMLIMIT [nick] m, mr))
    else if mode =c "o" then
      Some (Some (m, if quiet then mr
                     else ModeRun (mr_op mr) (mode_cat (mr_deop mr) arg) (mr_voice mr) (mr_devoice mr)))
    else if mode =c "h" then emits XP_TE_CHANDEHOP
    else if mode =c "v" then
      Some (Some (m, if quiet then mr
                     else ModeRun (mr_op mr) (mr_deop mr) (mr_voice mr) (mode_cat (mr_devoice mr) arg)))
    else if mode =c "b" then emits XP_TE_CHANUNBAN
    else if mode =c "e" then emits XP_TE_CHANRMEXEMPT
    else if mode =c "I" then emits XP_TE_CHANRMINVITE
    else if mode =c "q" then if supportsq : bool then emits XP_TE_CHANUNQUIET else Some None
    else Some None
  else Some None.

Definition handle_single_mode (m : mstate) (mr : mode_run) (sign mode : ascii)
    (nick chan arg : cstr) (quiet is_324 : bool) : option (mstate * mode_run) :=
  match find_channel serv m chan with
  | Some i =>
      if negb (is_channel (isup serv) chan) then
        Some (genmode sign mode nick chan arg quiet (front_session m) m, mr)
      else
        sess ← sess_list m !! i;
        m ← (if strchr_b (nick_modes (isup serv)) mode then
               u ← userlist_update_mode serv (users sess) arg mode sign;
               Some (update_sess i (set_users u) m)
             else if negb is_324 && negb (ignore_mode sess) &&
                     (1 <=? mode_chanmode_type (isup serv) mode)
             then Some (update_sess i (set_current_modes
                    (record_chan_mode (isup serv) (current_modes sess) sign mode arg)) m)
             else Some m);
        switched ← mode_switch mr sign mode nick arg quiet (supports_q (chanmodes (isup serv))) i m;
        match switched with
        | Some r => Some r
        | None =>
            let m := signal i (FeUpdateModeButtons mode sign) m in
            Some (genmode sign mode nick chan arg quiet i m, mr)
        end
  | None => Some (genmode sign mode nick chan arg quiet (front_session m) m, mr)
  end.

Definition print_group (g : option cstr) (te : text_event) (i : nat) (nick : cstr) (m : mstate) : mstate :=
  match g with Some s => signal i (Signal te [nick; s]) m | None => m end.

Definition mode_print_grouped (i : nat) (nick : cstr) (mr : mode_run) (m : mstate)
    : mstate * mode_run :=
  let m := print_group (mr_op mr) XP_TE_CHANOP i nick m in
  let m := print_group (mr_deop mr) XP_TE_CHANDEOP i nick m in
  let m := print_group (mr_voice mr) XP_TE_CHANVOICE i nick m in
  let m := print_group (mr_devoice mr) XP_TE_CHANDEVOICE i nick m in
  (m, ModeRun None None None None).

(** ** A MODE line *)

(** The split line: [word[]] (missing words are empty) and [word_eol[]] as
    offsets into the one text they all point into. *)
Record line := Line { words : list cstr; text : cstr; eol_offsets : list nat }.

Definition word (ln : line) (i : nat) : cstr := nth i (words ln) [].
Definition word_eol (ln : line) (i : nat) : cstr := drop (nth i (eol_offsets ln) (length (text ln))) (text ln).

Definition PDIWORDS : nat := 32.

(** The loop after [num_args = 0]. *)
Fixpoint count_words (ln : line) (offset i : nat) (fuel : nat) : nat :=
  match fuel with
  | O => O
  | S fuel =>
      if (i + offset + 1 <? PDIWORDS)%nat then
        let w := word ln (S i + offset) in
        match w with
        | [] => O
        | c :: _ => if c =c ":" then 1%nat else S (count_words ln offset (S i) fuel)
        end
      else O
  end.

Definition is_sign (c : ascii) : bool := (c =c "+") || (c =c "-").

Definition count_modes (modes : cstr) : nat := length (filter (fun c => is_sign c = false) modes).

Definition strip_colon (ln : line) (i : nat) : cstr :=
  if peek (word ln i) =c ":" then drop 1 (word_eol ln i) else word ln i.

Fixpoint mode_loop (ln : line) (offset num_args : nat) (all_args : bool) (nick chan : cstr)
    (quiet is_324 : bool) (sess : nat) (modes : cstr) (sign : ascii) (arg : nat)
    (mr : mode_run) (m : mstate) : option (mstate * mode_run) :=
  match modes with
  | [] => Some (m, mr)
  | c :: modes =>
      if is_sign c then
        let '(m, mr) := mode_print_grouped sess nick mr m in
        mode_loop ln offset num_args all_args nick chan quiet is_324 sess modes c arg mr m
      else
        let takes := (all_args || mode_has_arg (isup serv) sign c) && (arg <? num_args + 1)%nat in
        let arg := if takes then S arg else arg in
        let argstr := if takes then strip_colon ln (arg + offset) else [] in
        '(m, mr) ← handle_single_mode m mr sign c nick chan argstr quiet is_324;
        mode_loop ln offset num_args all_args nick chan quiet is_324 sess modes sign arg mr m
  end.

Definition handle_mode (hex_irc_raw_modes : bool) (ln : line) (nick : cstr) (numeric_324 : bool)
    (m : mstate) : option mstate :=
  let offset := if numeric_324 then 4%nat else 3%nat in
  let chan := word ln offset in
  let modes := word ln (S offset) in
  let modes := if peek modes =c ":" then drop 1 modes else modes in
  match modes with
  | [] => Some m
  | sign :: modes =>
      let '(sess, using_front_tab) :=
        match find_channel serv m chan with
        | Some i => (i, false)
        | None => (front_session m, true)
        end in
      c ← zlookup (word_eol ln offset) (Z.of_nat (length (word_eol ln offset)) - 1);
      let ln := if c =c " " then Line (words ln) (removelast (text ln)) (eol_offsets ln) else ln in
      let m := if hex_irc_raw_modes && negb numeric_324
               then signal sess (Signal XP_TE_RAWMODES [nick; word_eol ln offset]) m else m in
      let m := if numeric_324 && negb using_front_tab
               then update_sess sess (set_current_modes (Some (word_eol ln (S offset)))) m else m in
      let num_args := count_words ln offset 1 PDIWORDS in
      let all_args := (num_args =? count_modes modes)%nat in
      '(m, mr) ← mode_loop ln offset num_args all_args nick chan (numeric_324 || hex_irc_raw_modes)
                   numeric_324 sess modes sign 1 (ModeRun None None None None) m;
      let m := if negb using_front_tab then signal sess FeSetTitle m else m in
      Some (fst (mode_print_grouped sess nick mr m))
  end.
End single_mode.
