(* ===== verification/ModesSpec.v ===== *)
(** * Correctness of channel mode handling

    Batches of mode changes are complete and fit the line limit, the recorded
    modes are an association list kept in step, and MODE lines keep the user
    lists well formed. *)
From S2P Require Import Prelude Glib Casemap Text Tree Access Userlist UserlistSpec Modes.

(** ** Batches *)

Definition nicks_length (ws : list cstr) : Z :=
  Z.of_nat (length (concat (map (fun w => " "%char :: w) ws))).

Lemma nicks_length_cons w ws : nicks_length (w :: ws) = Z.of_nat (length w) + 1 + nicks_length ws.
Proof. unfold nicks_length. simpl. rewrite length_app. lia. Qed.

Lemma fit_loop_spec ws max n len i :
  exists k : nat, fit_loop ws max n len i = i + Z.of_nat k /\ (k <= n)%nat /\ (k <= length ws)%nat /\
    (k = O \/ len + nicks_length (take k ws) <= max) /\
    (k = O -> n <> O -> forall w ws', ws = w :: ws' -> max < Z.of_nat (length w) + 1 + len).
Proof.
  revert ws len i; induction n as [|n IH]; intros ws len i.
  { exists O. simpl. split_and!; try lia; try (by left). }
  destruct ws as [|w ws]; cbn [fit_loop].
  { exists O. simpl. split_and!; try lia; try (by left). intros _ _ ? ? [=]. }
  destruct (Z.ltb_spec max (Z.of_nat (length w) + 1 + len)) as [H|H].
  { exists O. simpl. split_and!; try lia; try (by left). intros _ _ w' ws' [= <- <-]. lia. }
  destruct (IH ws (len + (Z.of_nat (length w) + 1)) (i + 1)) as (k & -> & H1 & H2 & H3 & _).
  exists (S k). simpl. split_and!; try lia. right. rewrite nicks_length_cons.
  destruct H3 as [->|H3]; [|lia]. change (nicks_length (take 0 ws)) with 0. lia.
Qed.

Lemma mode_line_length sign mode ws :
  Z.of_nat (length (mode_line sign mode ws)) = 1 + Z.of_nat (length ws) + nicks_length ws.
Proof.
  unfold mode_line, nicks_length. simpl. rewrite length_app, repeat_length. lia.
Qed.

Lemma send_loop_spec fuel ws sign mode max mpl :
  (length ws <= fuel)%nat -> 1 <= mpl ->
  exists groups rest, send_loop fuel ws sign mode max mpl = Some (map (mode_line sign mode) groups) /\
    ws = concat groups ++ rest /\
    Forall (fun g => g <> [] /\ Z.of_nat (length g) <= mpl /\
              Z.of_nat (length (mode_line sign mode g)) <= 1 + max) groups /\
    (forall w ws', rest = w :: ws' -> max < Z.of_nat (length w) + 1 + mpl).
Proof.
  revert ws; induction fuel as [|fuel IH]; intros ws Hf Hm.
  { destruct ws; [|simpl in Hf; lia]. exists [], []. by split_and!. }
  destruct ws as [|w ws]; [exists [], []; by split_and!|]. cbn [send_loop].
  destruct (fit_loop_spec (w :: ws) max (Z.to_nat mpl) mpl 0) as (k & -> & H1 & H2 & H3 & H4).
  destruct (Z.ltb_spec (0 + Z.of_nat k) 1) as [Hk|Hk].
  - exists [], (w :: ws). split_and!; [done|done|constructor|]. intros w' ws' [= <- <-].
    apply (H4 ltac:(lia) ltac:(lia) w ws). done.
  - rewrite Z.add_0_l, Nat2Z.id.
    destruct (IH (drop k (w :: ws))) as (groups & rest & -> & E & Hg & Hr);
      [rewrite length_drop; simpl in *; lia|done|].
    exists (take k (w :: ws) :: groups), rest. split_and!; [done| | |done].
    + simpl. rewrite <- app_assoc, <- E. symmetry. apply take_drop.
    + constructor; [|done]. rewrite mode_line_length, length_take.
      destruct H3 as [->|H3]; [lia|]. split_and!; try lia.
      destruct k; [lia|]. done.
Qed.

(** ** The recorded modes as an association list *)

Abbreviation mode_entry := (ascii * option cstr)%type.

Definition arg_text (e : mode_entry) : cstr :=
  match e.2 with Some a => " "%char :: a | None => [] end.

Definition args_text (ms : list mode_entry) : cstr := concat (map arg_text ms).

(** "+ntk key": the letters, then the arguments in the order of their letters. *)
Definition render (ms : list mode_entry) : cstr := map fst ms ++ args_text ms.

Definition entry_ok (serv : isupport) (e : mode_entry) : Prop :=
  e.1 <> " "%char /\ (mode_has_arg serv "+" e.1 = true <-> is_Some e.2) /\
  forall a, e.2 = Some a -> " "%char ∉ a.

Definition modes_ok (serv : isupport) (ms : list mode_entry) : Prop :=
  NoDup (map fst ms) /\ Forall (entry_ok serv) ms.

(** Setting and clearing a mode in the list. *)
Definition set_mode (ms : list mode_entry) (m : ascii) (a : option cstr) : list mode_entry :=
  if bool_decide (m ∈ map fst ms)
  then map (fun e => if e.1 =c m then (m, a) else e) ms
  else ms ++ [(m, a)].

Definition clear_mode (ms : list mode_entry) (m : ascii) : list mode_entry :=
  filter (fun e => e.1 <> m) ms.

Definition nargs (ms : list mode_entry) : Z :=
  Z.of_nat (length (filter (fun e => is_Some e.2) ms)).

Lemma clear_mode_absent (ms : list mode_entry) m : m ∉ map fst ms -> clear_mode ms m = ms.
Proof.
  induction ms as [|[c y] ms IH]; [done|]. intros [Hc Hl]%not_elem_of_cons.
  unfold clear_mode in *. rewrite filter_cons_True by (simpl in *; congruence). by rewrite IH.
Qed.

Section record.
Context `{GL : GLibLaws} (serv : isupport).

Lemma args_text_app l1 l2 : args_text (l1 ++ l2) = args_text l1 ++ args_text l2.
Proof. unfold args_text. by rewrite map_app, concat_app. Qed.

Lemma args_text_head l c s : args_text l = c :: s -> c = " "%char.
Proof.
  induction l as [|[d [a|]] l IH]; [done| |]; unfold args_text in *; simpl; [|done].
  by intros [= <- _].
Qed.

Lemma index_of_app c s t : c ∉ s -> index_of c (s ++ t) = (fun i => length s + i)%nat <$> index_of c t.
Proof.
  induction s as [|x s IH]; intros Hc; simpl; [by destruct (index_of c t)|].
  apply not_elem_of_cons in Hc as [Hx Hc]. destruct (Ascii.eqb_spec x c) as [->|]; [done|].
  rewrite IH by done. by destruct (index_of c t).
Qed.

Lemma letters_nospace ms : Forall (entry_ok serv) ms -> " "%char ∉ map fst ms.
Proof.
  intros H Hin. apply list_elem_of_fmap in Hin as (e & He & Hin).
  rewrite Forall_forall in H. destruct (H e Hin) as [Hs _]. congruence.
Qed.

Lemma modes_length_render ms :
  Forall (entry_ok serv) ms ->
  default (length (render ms)) (index_of " " (render ms)) = length ms.
Proof.
  intros H. unfold render. rewrite index_of_app by by apply letters_nospace.
  destruct (args_text ms) as [|c s] eqn:E; simpl.
  - by rewrite app_nil_r, length_map.
  - apply args_text_head in E as ->. simpl. rewrite length_map. lia.
Qed.

Lemma mode_pos_loop_found l1 m rest i n :
  m ∉ l1 -> (length l1 < n)%nat ->
  mode_pos_loop (l1 ++ m :: rest) i n m = i + Z.of_nat (length l1).
Proof.
  revert i n; induction l1 as [|c l1 IH]; intros i [|n] Hm Hn; simpl in *; try lia.
  - rewrite Ascii.eqb_refl. lia.
  - apply not_elem_of_cons in Hm as [Hc Hm]. destruct (Ascii.eqb_spec c m); [congruence|].
    rewrite IH by (done || lia). lia.
Qed.

Lemma mode_pos_loop_none s rest i m :
  m ∉ s -> mode_pos_loop (s ++ rest) i (length s) m = -1.
Proof.
  revert i; induction s as [|c s IH]; intros i Hm; simpl; [done|].
  apply not_elem_of_cons in Hm as [Hc Hm]. destruct (Ascii.eqb_spec c m); [congruence|]. by apply IH.
Qed.

Lemma nargs_cons e l : nargs (e :: l) = (if e.2 is Some _ then 1 else 0) + nargs l.
Proof. unfold nargs. rewrite filter_cons. destruct e as [c [a|]]; simpl; lia.
Qed.

Lemma count_args_prefix l rest :
  Forall (entry_ok serv) l -> count_args serv (map fst l ++ rest) (length l) = nargs l.
Proof.
  induction 1 as [|[c a] l (_ & Ha & _) Hl IH]; [by destruct rest|].
  rewrite nargs_cons. simpl in *. rewrite IH. destruct a as [a|].
  - by rewrite (proj2 Ha) by eauto.
  - destruct (mode_has_arg serv "+" c); [|done]. by destruct (proj1 Ha eq_refl).
Qed.

(** Characters that are no space are skipped. *)
Lemma arg_seek_skip x s i num off :
  " "%char ∉ x -> i < num -> arg_seek (x ++ s) i num off = arg_seek s i num (off + Z.of_nat (length x)).
Proof.
  revert off; induction x as [|c x IH]; intros off Hx Hi; simpl; [by rewrite Z.add_0_r|].
  apply not_elem_of_cons in Hx as [Hc Hx]. destruct (Z.ltb_spec i num); [|lia].
  destruct (Ascii.eqb_spec c " "); [congruence|]. destruct (Z.eqb_spec i num); [lia|].
  rewrite IH by done. f_equal. lia.
Qed.

Lemma nargs_nonneg l : 0 <= nargs l.
Proof. unfold nargs. lia. Qed.

Lemma arg_seek_found l rest i num off :
  Forall (entry_ok serv) l -> num = i + nargs l + 1 ->
  arg_seek (args_text l ++ " "%char :: rest) i num off =
  (" "%char :: rest, off + Z.of_nat (length (args_text l)), num).
Proof.
  intros Hl. revert i off; induction Hl as [|[c a] l (_ & _ & Hs) Hl IH]; intros i off Hnum.
  - simpl. change (nargs []) with 0 in Hnum. destruct (Z.ltb_spec i num); [|lia].
    destruct (Z.eqb_spec (i + 1) num); [|lia]. rewrite Z.add_0_r. f_equal. lia.
  - rewrite nargs_cons in Hnum. pose proof (nargs_nonneg l). destruct a as [a|]; cbn [snd] in *.
    + unfold args_text. simpl. rewrite <- app_assoc.
      destruct (Z.ltb_spec i num); [|lia]. destruct (Z.eqb_spec (i + 1) num); [lia|].
      rewrite arg_seek_skip by (by apply Hs || lia).
      change (concat (map arg_text l)) with (args_text l). rewrite IH by lia.
      rewrite length_app. do 2 f_equal; lia.
    + unfold args_text. simpl. change (concat (map arg_text l)) with (args_text l).
      by rewrite IH by lia.
Qed.

Lemma arg_length_loop_spec a rest n :
  " "%char ∉ a -> (forall c s, rest = c :: s -> c = " "%char) ->
  arg_length_loop (a ++ rest) n = n + Z.of_nat (length a).
Proof.
  intros Ha Hr. revert n; induction a as [|c a IH]; intros n; simpl.
  - destruct rest as [|c s]; simpl; [lia|]. rewrite (Hr c s eq_refl), Ascii.eqb_refl. lia.
  - apply not_elem_of_cons in Ha as [Hc Ha]. destruct (Ascii.eqb_spec c " "); [congruence|].
    rewrite IH by done. lia.
Qed.

Lemma erase_at (s p x q : cstr) i n :
  s = p ++ x ++ q -> i = Z.of_nat (length p) -> n = Z.of_nat (length x) ->
  g_string_erase s i n = p ++ q.
Proof.
  intros -> -> ->. rewrite g_string_erase_spec by (rewrite !length_app; lia).
  by rewrite take_app_length, <- length_app, (app_assoc p), drop_app_length.
Qed.

Lemma insert_at (s p q v : cstr) i :
  s = p ++ q -> i = Z.of_nat (length p) -> g_string_insert s i v = p ++ v ++ q.
Proof.
  intros -> ->. rewrite g_string_insert_spec by (rewrite !length_app; lia).
  by rewrite take_app_length, drop_app_length.
Qed.
(** Looking a present mode up: where its letter and its argument are. *)
Lemma render_split l1 m a l2 :
  render (l1 ++ (m, a) :: l2) =
  (map fst l1 ++ m :: map fst l2) ++ args_text l1 ++ arg_text (m, a) ++ args_text l2.
Proof.
  unfold render. rewrite map_app, args_text_app. simpl. by unfold args_text at 2.
Qed.

Lemma arg_lookup l1 m a l2 :
  Forall (entry_ok serv) (l1 ++ (m, Some a) :: l2) ->
  let s := render (l1 ++ (m, Some a) :: l2) in
  let n := length (l1 ++ (m, Some a) :: l2) in
  arg_seek (drop n s) 0 (count_args serv s (S (length l1))) (Z.of_nat n) =
    (" "%char :: a ++ args_text l2, Z.of_nat (n + length (args_text l1)),
     count_args serv s (S (length l1))) /\
  arg_length_loop (a ++ args_text l2) 1 = 1 + Z.of_nat (length a).
Proof.
  intros Hms s n. apply Forall_app in Hms as Hms'. destruct Hms' as [H1 [Hm H2]%Forall_cons].
  assert (Hcount : count_args serv s (S (length l1)) = nargs l1 + 1).
  { replace s with (map fst (l1 ++ [(m, Some a)]) ++ (map fst l2 ++ args_text (l1 ++ (m, Some a) :: l2))).
    - replace (S (length l1)) with (length (l1 ++ [(m, Some a)])) by (rewrite length_app; simpl; lia).
      rewrite count_args_prefix by (apply Forall_app; split; [done|by constructor]).
      unfold nargs. rewrite filter_app, length_app. simpl. lia.
    - subst s. unfold render. rewrite !map_app. simpl. by rewrite <- !app_assoc. }
  rewrite Hcount. split.
  - assert (drop n s = args_text l1 ++ " "%char :: a ++ args_text l2) as ->.
    { subst s n. rewrite render_split. rewrite drop_app_length'; [done|].
      rewrite !length_app. simpl. by rewrite !length_map. }
    rewrite arg_seek_found by (done || lia). do 2 f_equal. lia.
  - apply arg_length_loop_spec; [by apply Hm|]. apply args_text_head.
Qed.

Lemma record_letter_pos l1 m a l2 :
  NoDup (map fst (l1 ++ (m, a) :: l2)) ->
  mode_pos_loop (render (l1 ++ (m, a) :: l2)) 0 (length (l1 ++ (m, a) :: l2)) m = Z.of_nat (length l1).
Proof.
  intros Hnd. rewrite render_split, <- app_assoc. simpl. rewrite mode_pos_loop_found.
  - by rewrite length_map.
  - rewrite map_app in Hnd. apply NoDup_app in Hnd as (_ & Hd & _). intros Hin.
    apply (Hd m Hin). by constructor.
  - rewrite length_map, length_app. simpl. lia.
Qed.

Lemma record_present l1 m a l2 arg :
  modes_ok serv (l1 ++ (m, a) :: l2) ->
  record_chan_mode serv (Some (render (l1 ++ (m, a) :: l2))) "+" m arg =
    Some (render (l1 ++ (m, if mode_has_arg serv "+" m then Some arg else None) :: l2)) /\
  record_chan_mode serv (Some (render (l1 ++ (m, a) :: l2))) "-" m arg = Some (render (l1 ++ l2)).
Proof.
  intros [Hnd Hms]. unfold record_chan_mode. cbn [default id from_option].
  rewrite modes_length_render by done. rewrite record_letter_pos by done.
  destruct (Z.eqb_spec (Z.of_nat (length l1)) (-1)); [lia|]. simpl negb. cbv iota.
  pose proof Hms as Hms'. apply Forall_app in Hms' as [_ [[_ [Hm _]] _]%Forall_cons]. simpl in Hm.
  change ("-" =c "+") with false. change ("-" =c "-") with true. change ("+" =c "+") with true.
  destruct (mode_has_arg serv "+" m) eqn:Harg; cbn [andb].
  - destruct a as [a|]; [|by destruct (proj1 Hm eq_refl)].
    replace (Z.to_nat (Z.of_nat (length l1) + 1)) with (S (length l1)) by lia.
    destruct (arg_lookup l1 m a l2 Hms) as [-> Hl]. rewrite Z.eqb_refl. cbv beta iota. simpl drop. rewrite drop_0, Hl.
    set (k := length (l1 ++ (m, Some a) :: l2)).
    assert (Hk : k = length (map fst l1 ++ m :: map fst l2)).
    { subst k. rewrite !length_app. simpl. by rewrite !length_map. }
    split; f_equal.
    + erewrite (erase_at _ ((map fst l1 ++ m :: map fst l2) ++ args_text l1 ++ [" "%char]) a (args_text l2)).
      * erewrite (insert_at _ ((map fst l1 ++ m :: map fst l2) ++ args_text l1 ++ [" "%char])
          (args_text l2)); [|done|rewrite Hk, !length_app; simpl; lia].
        rewrite render_split. simpl. by rewrite <- !app_assoc.
      * rewrite render_split. simpl. by rewrite <- !app_assoc.
      * rewrite Hk, !length_app. simpl. lia.
      * lia.
    + erewrite (erase_at (render _) ((map fst l1 ++ m :: map fst l2) ++ args_text l1) (" "%char :: a) (args_text l2)).
      * erewrite (erase_at _ (map fst l1) [m] (map fst l2 ++ args_text l1 ++ args_text l2)).
        -- unfold render. by rewrite map_app, args_text_app, <- app_assoc.
        -- simpl. by rewrite <- !app_assoc.
        -- by rewrite length_map.
        -- done.
      * rewrite render_split. simpl. by rewrite <- !app_assoc.
      * rewrite Hk, !length_app. simpl. lia.
      * simpl. lia.
  - destruct a as [a|]; [by discriminate (proj2 Hm ltac:(eauto))|]. split; f_equal.
    erewrite (erase_at _ (map fst l1) [m] (map fst l2 ++ args_text l1 ++ args_text l2)).
    + unfold render. by rewrite map_app, args_text_app, <- app_assoc.
    + rewrite render_split. simpl. by rewrite <- !app_assoc.
    + by rewrite length_map.
    + done.
Qed.

Lemma record_absent ms m arg :
  modes_ok serv ms -> m ∉ map fst ms ->
  record_chan_mode serv (Some (render ms)) "+" m arg =
    Some (render (ms ++ [(m, if mode_has_arg serv "+" m then Some arg else None)])) /\
  record_chan_mode serv (Some (render ms)) "-" m arg = Some (render ms).
Proof.
  intros [Hnd Hms] Hm. unfold record_chan_mode. cbn [default id from_option].
  rewrite modes_length_render by done.
  assert (mode_pos_loop (render ms) 0 (length ms) m = -1) as ->.
  { unfold render. rewrite <- (length_map fst ms). by apply mode_pos_loop_none. }
  simpl negb. cbv iota. cbn [andb]. split; [|done]. f_equal.
  erewrite (insert_at _ (map fst ms) (args_text ms)); [|done|by rewrite length_map].
  unfold render. rewrite map_app, args_text_app. simpl.
  destruct (mode_has_arg serv "+" m); unfold args_text; simpl; by rewrite <- ?app_assoc, ?app_nil_r.
Qed.

(** The list operations on a list split at the mode. *)
Lemma modes_split (ms : list mode_entry) m :
  NoDup (map fst ms) -> m ∈ map fst ms ->
  exists l1 a l2, ms = l1 ++ (m, a) :: l2 /\ (m ∉ map fst l1) /\ (m ∉ map fst l2).
Proof.
  intros Hnd Hin. apply list_elem_of_fmap in Hin as ([c a] & Hc & Hin). simpl in Hc. subst c.
  apply list_elem_of_split in Hin as (l1 & l2 & ->). exists l1, a, l2. split; [done|].
  rewrite map_app in Hnd. simpl in Hnd. apply NoDup_app in Hnd as (_ & Hd & [Hm _]%NoDup_cons).
  split; [|done]. intros H. apply (Hd m H). by constructor.
Qed.

Lemma set_mode_split (l1 l2 : list mode_entry) m a x :
  m ∉ map fst l1 -> m ∉ map fst l2 -> set_mode (l1 ++ (m, a) :: l2) m x = l1 ++ (m, x) :: l2.
Proof.
  intros H1 H2. unfold set_mode. rewrite bool_decide_true by (rewrite map_app; set_solver).
  assert (Hid : forall l : list mode_entry, m ∉ map fst l -> map (fun e => if e.1 =c m then (m, x) else e) l = l).
  { intros l Hl. induction l as [|[c y] l IH]; simpl; [done|]. apply not_elem_of_cons in Hl as [Hc Hl].
    destruct (Ascii.eqb_spec c m); [simpl in Hc; congruence|]. by rewrite IH. }
  rewrite map_app. simpl. by rewrite Ascii.eqb_refl, !Hid.
Qed.

Lemma clear_mode_split (l1 l2 : list mode_entry) m a :
  m ∉ map fst l1 -> m ∉ map fst l2 -> clear_mode (l1 ++ (m, a) :: l2) m = l1 ++ l2.
Proof.
  intros H1 H2. unfold clear_mode. rewrite filter_app, filter_cons_False by (by intros []).
  f_equal; by apply clear_mode_absent.
Qed.
End record.

(** ** Well-formed recorded modes *)

Section modes_ok.
Context (serv : isupport).
Implicit Types (l ms : list mode_entry).

Lemma entry_ok_new m arg :
  m <> " "%char -> " "%char ∉ arg ->
  entry_ok serv (m, if mode_has_arg serv "+" m then Some arg else None).
Proof.
  intros Hm Ha. unfold entry_ok. simpl. split_and!; [done| |].
  - destruct (mode_has_arg serv "+" m); [by eauto|]. split; [done|by intros [? ?]].
  - destruct (mode_has_arg serv "+" m); [by intros ? [= <-]|done].
Qed.

Lemma modes_ok_replace l1 m a l2 arg :
  modes_ok serv (l1 ++ (m, a) :: l2) -> m <> " "%char -> " "%char ∉ arg ->
  modes_ok serv (l1 ++ (m, if mode_has_arg serv "+" m then Some arg else None) :: l2).
Proof.
  intros [Hnd Hf] Hm Ha. split; [by rewrite map_app in *|].
  apply Forall_app in Hf as [H1 [_ H2]%Forall_cons]. apply Forall_app. split; [done|].
  constructor; [by apply entry_ok_new|done].
Qed.

Lemma modes_ok_append ms m arg :
  modes_ok serv ms -> m ∉ map fst ms -> m <> " "%char -> " "%char ∉ arg ->
  modes_ok serv (ms ++ [(m, if mode_has_arg serv "+" m then Some arg else None)]).
Proof.
  intros [Hnd Hf] Hin Hm Ha. split.
  - rewrite map_app. apply NoDup_app. split_and!; [done| |apply NoDup_singleton].
    intros c Hc ->%list_elem_of_singleton. done.
  - apply Forall_app. split; [done|]. constructor; [by apply entry_ok_new|constructor].
Qed.

Lemma modes_ok_remove l1 m a l2 : modes_ok serv (l1 ++ (m, a) :: l2) -> modes_ok serv (l1 ++ l2).
Proof.
  intros [Hnd Hf]. split.
  - rewrite map_app in *. simpl in Hnd. apply NoDup_app in Hnd as (H1 & H2 & [_ H3]%NoDup_cons).
    apply NoDup_app. split_and!; [done| |done]. intros c Hc Hc'. apply (H2 c Hc). by constructor.
  - apply Forall_app in Hf as [H1 [_ H2]%Forall_cons]. by apply Forall_app.
Qed.
End modes_ok.

(** ** MODE lines and the user lists *)

Section safety.
Context `{GL : GLibLaws} (serv : server) (Hserv : server_ok serv).

Definition users_ok (m : mstate) : Prop := Forall (fun c => exists l, wf serv (users c) l) (sess_list m).

Lemma users_ok_signal i e m : users_ok m -> users_ok (signal i e m).
Proof. done. Qed.

Lemma users_ok_update i f m :
  users_ok m -> (forall c, sess_list m !! i = Some c -> exists l, wf serv (users (f c)) l) ->
  users_ok (update_sess i f m).
Proof.
  unfold users_ok. simpl. intros H Hf. rewrite Forall_lookup in *. intros j c.
  destruct (decide (i = j)) as [<-|Hne].
  - rewrite list_lookup_alter_eq. destruct (sess_list m !! i) as [c0|] eqn:E; [|done].
    intros [= <-]. by apply Hf.
  - rewrite list_lookup_alter_ne by done. apply H.
Qed.

Lemma users_ok_frame i f m :
  users_ok m -> (forall c, users (f c) = users c) -> users_ok (update_sess i f m).
Proof.
  intros H Hf. apply users_ok_update; [done|]. intros c Hc. rewrite Hf.
  unfold users_ok in H. rewrite Forall_lookup in H. by eapply H.
Qed.

Lemma users_ok_unless_quiet quiet i e args m : users_ok m -> users_ok (unless_quiet quiet i e args m).
Proof. by destruct quiet. Qed.

Lemma users_ok_genmode sign mode nick chan arg quiet i m :
  users_ok m -> users_ok (genmode serv sign mode nick chan arg quiet i m).
Proof. intros H. unfold genmode. by destruct (_ && _), quiet, arg. Qed.

Hint Resolve users_ok_signal users_ok_frame users_ok_unless_quiet users_ok_genmode : core.

Lemma find_channel_loop_lookup l k chan i :
  find_channel_loop serv l k chan = Some i -> exists c, (k <= i)%nat /\ l !! (i - k)%nat = Some c.
Proof.
  revert k; induction l as [|c l IH]; intros k; simpl; [done|]. destruct (_ && _).
  - intros [= <-]. exists c. rewrite Nat.sub_diag. by split; [lia|].
  - intros H. destruct (IH (S k) H) as (d & Hk & Hd). exists d. split; [lia|].
    by replace (i - k)%nat with (S (i - S k)) by lia.
Qed.

Lemma find_channel_lookup m chan i :
  find_channel serv m chan = Some i -> exists c, sess_list m !! i = Some c.
Proof.
  intros (c & _ & Hc)%find_channel_loop_lookup. rewrite Nat.sub_0_r in Hc. eauto.
Qed.

(** Decides the next character test. *)
Ltac char_case := match goal with |- context [if (?a =c ?b) then _ else _] => destruct (a =c b) end.

Lemma mode_switch_ok mr sign mode nick arg quiet supportsq i m :
  users_ok m -> plain arg ->
  exists r, mode_switch mr sign mode nick arg quiet supportsq i m = Some r /\
    forall m' mr', r = Some (m', mr') -> users_ok m'.
Proof.
  intros Hm Harg. unfold mode_switch.
  assert (exists key, safe_strcpy arg KEYLEN = Some key) as [key ->].
  { change KEYLEN with NICKLEN. rewrite (safe_strcpy_plain _ GL) by done. eauto. }
  cbn [mbind option_bind].
  repeat char_case; try (destruct supportsq); eexists; (split; [reflexivity|]);
    intros m' mr' E; simplify_eq; auto.
Qed.

Lemma handle_single_mode_ok m mr sign mode nick chan arg quiet is_324 :
  users_ok m -> plain arg -> mode <> NUL ->
  exists m' mr', handle_single_mode serv m mr sign mode nick chan arg quiet is_324 = Some (m', mr') /\
    users_ok m'.
Proof.
  intros Hm Harg Hmode. unfold handle_single_mode.
  destruct (find_channel serv m chan) as [i|] eqn:Hi; [|by eauto].
  destruct (negb _); [by eauto|].
  destruct (find_channel_lookup m chan i Hi) as [sess Hs]. rewrite Hs. cbn [mbind option_bind].
  assert (Hsess : exists l, wf serv (users sess) l).
  { unfold users_ok in Hm. rewrite Forall_lookup in Hm. by eapply Hm. }
  assert (Hstep : exists m1, (if strchr_b (nick_modes (isup serv)) mode then
               u ← userlist_update_mode serv (users sess) arg mode sign;
               Some (update_sess i (set_users u) m)
             else if negb is_324 && negb (ignore_mode sess) &&
                     (1 <=? mode_chanmode_type (isup serv) mode)
             then Some (update_sess i (set_current_modes
                    (record_chan_mode (isup serv) (current_modes sess) sign mode arg)) m)
             else Some m) = Some m1 /\ users_ok m1).
  { destruct (strchr_b _ mode) eqn:Hnick.
    - apply strchr_b_spec in Hnick; [|done]. destruct Hsess as [l W].
      destruct (userlist_update_mode_wf serv Hserv _ l arg mode sign W Harg Hnick)
        as (u & l' & -> & W' & _). eexists. split; [reflexivity|].
      apply users_ok_update; [done|]. eauto.
    - destruct (_ && _); eauto. }
  destruct Hstep as (m1 & -> & Hm1). cbn [mbind option_bind].
  destruct (mode_switch_ok mr sign mode nick arg quiet (supports_q (chanmodes (isup serv))) i m1 Hm1 Harg)
    as ([[m' mr']|] & -> & Hr); cbn [mbind option_bind]; eauto 8.
Qed.

Lemma print_grouped_ok i nick mr m : users_ok m -> users_ok (mode_print_grouped i nick mr m).1.
Proof. intros H. unfold mode_print_grouped, print_group. by destruct mr as [[] [] [] []]. Qed.

Lemma last_char (s : cstr) : s <> [] -> exists c, zlookup s (Z.of_nat (length s) - 1) = Some c.
Proof.
  intros Hs. destruct (zlookup s (Z.of_nat (length s) - 1)) as [c|] eqn:E; [by eauto|].
  apply zlookup_None in E. destruct s; [done|]. simpl in E. lia.
Qed.

Lemma Forall_removelast {A} (P : A -> Prop) l : Forall P l -> Forall P (removelast l).
Proof. induction 1 as [|x l Hx Hl IH]; simpl; [constructor|]. destruct l; by constructor. Qed.

Definition line_ok (ln : line) : Prop := Forall plain (words ln) /\ plain (text ln).

Lemma word_plain ln i : line_ok ln -> plain (word ln i).
Proof.
  intros [H _]. unfold word. destruct (nth_in_or_default i (words ln) []) as [Hin | ->].
  - rewrite Forall_forall in H. apply H. by apply list_elem_of_In.
  - by split; constructor.
Qed.

Lemma plain_drop n s : plain s -> plain (drop n s).
Proof. intros [H1 H2]. split; by apply Forall_drop. Qed.

Lemma strip_colon_plain ln i : line_ok ln -> plain (strip_colon ln i).
Proof.
  intros H. unfold strip_colon. destruct (_ =c _); [|by apply word_plain].
  apply plain_drop, plain_drop, H.
Qed.

Lemma mode_loop_ok ln offset num_args all_args nick chan quiet is_324 sess modes sign arg mr m :
  users_ok m -> line_ok ln -> nonul modes ->
  exists m' mr', mode_loop serv ln offset num_args all_args nick chan quiet is_324 sess modes sign arg mr m
    = Some (m', mr') /\ users_ok m'.
Proof.
  intros Hm Hln Hmodes. revert sign arg mr m Hm.
  induction Hmodes as [|c modes Hc Hmodes IH]; intros sign arg mr m Hm; cbn [mode_loop]; [by eauto|].
  destruct (is_sign c).
  - pose proof (print_grouped_ok sess nick mr m Hm) as Hp.
    destruct (mode_print_grouped sess nick mr m) as [m1 mr1]. by apply IH.
  - match goal with |- context [handle_single_mode _ _ _ _ _ _ _ ?a _ _] => set (argstr := a) end.
    assert (Ha : plain argstr).
    { subst argstr. destruct (_ && _); [by apply strip_colon_plain|by split; constructor]. }
    destruct (handle_single_mode_ok m mr sign c nick chan argstr quiet is_324 Hm Ha Hc)
      as (m1 & mr1 & -> & Hm1). cbn [mbind option_bind]. by apply IH.
Qed.
End safety.

Lemma handle_mode_ok (G : GLib) serv raw ln nick numeric_324 m :
  GLibLaws G -> server_ok serv -> users_ok serv m -> line_ok ln ->
  word_eol ln (if numeric_324 : bool then 4 else 3) <> [] ->
  exists m', handle_mode serv raw ln nick numeric_324 m = Some m' /\ users_ok serv m'.
Proof.
  intros GL Hserv Hm Hln Heol. unfold handle_mode. set (offset := if numeric_324 then 4%nat else 3%nat).
  set (modes := if peek (word ln (S offset)) =c ":" then drop 1 (word ln (S offset)) else word ln (S offset)).
  assert (Hmodes : plain modes).
  { subst modes. destruct (_ =c _); [apply plain_drop|]; by apply word_plain. }
  destruct modes as [|sign modes]; [by eauto|].
  destruct Hmodes as [[_ Hmodes]%nonul_cons _].
  destruct (last_char (word_eol ln offset) Heol) as [c ->]. cbn [mbind option_bind].
  match goal with |- context [count_words ?l _ _ _] => set (ln' := l) end.
  assert (Hln' : line_ok ln').
  { subst ln'. destruct (c =c " "); [|done]. destruct Hln as [? [? ?]]. split; [done|].
    split; by apply Forall_removelast. }
  set (target := match find_channel serv m (word ln offset) with Some i => (i, false) | None => _ end).
  destruct target as [sess front].
  match goal with |- context [mode_loop _ _ _ _ _ _ _ _ _ _ _ _ _ _ ?z] => set (m2 := z) end.
  assert (Hm2 : users_ok serv m2).
  { subst m2. destruct (raw && _), (numeric_324 && _); by auto using users_ok_frame. }
  destruct (mode_loop_ok serv Hserv ln' offset (count_words ln' offset 1 PDIWORDS)
    (count_words ln' offset 1 PDIWORDS =? count_modes modes)%nat nick (word ln offset)
    (numeric_324 || raw) numeric_324 sess modes sign 1%nat (ModeRun None None None None) m2
    Hm2 Hln' Hmodes) as (m3 & mr & -> & Hm3).
  cbn [mbind option_bind]. eexists. split; [reflexivity|]. apply print_grouped_ok.
  by destruct (negb front).
Qed.

(** ** Properties *)

(** [send_channel_modes] terminates; the nicks of its lines are a prefix of
    the given ones in order, each line holds at least one and at most
    [modes_per_line] of them behind as many mode letters, and "MODE channel
    line" with CR LF stays within 512 bytes; only a nick too long for any line
    ends the sending early. *)
Theorem send_channel_modes_complete channel serv_mpl words sign mode mpl :
  exists mpl' groups rest,
    send_channel_modes channel serv_mpl words sign mode mpl = Some (mpl', map (mode_line sign mode) groups) /\
    1 <= mpl' /\ words = concat groups ++ rest /\
    Forall (fun g => g <> [] /\ Z.of_nat (length g) <= (if mpl <? 1 then mpl' else mpl) /\
      Z.of_nat (length ("MODE " ++ channel ++ " " ++ mode_line sign mode g ++ [CR; LF])) <= 512) groups /\
    forall w ws', rest = w :: ws' ->
      503 - Z.of_nat (length channel) < Z.of_nat (length w) + 1 + (if mpl <? 1 then mpl' else mpl).
Proof.
  unfold send_channel_modes. set (m1 := if serv_mpl <? 1 then 3 else serv_mpl).
  assert (H1 : 1 <= m1) by (subst m1; z_case; lia).
  set (m2 := if mpl <? 1 then m1 else mpl).
  assert (H2 : 1 <= m2) by (subst m2; z_case; lia).
  destruct (send_loop_spec (length words) words sign mode (503 - Z.of_nat (length channel)) m2
    (le_n _) H2) as (groups & rest & -> & E & Hg & Hr).
  exists m1, groups, rest. split_and!; [done|done|done| |exact Hr].
  eapply Forall_impl; [exact Hg|]. cbn beta. intros g (G1 & G2 & G3). split_and!; [done|done|].
  rewrite !length_app. simpl in *. rewrite ?length_app in *. simpl in *. lia.
Qed.

(** C15. With the recorded modes read as an association list from letters to
    arguments, [record_chan_mode] implements setting and clearing: '+' replaces
    the argument of a letter present or appends the letter and its argument,
    '-' removes both, and the text stays the rendering of the list. *)
Theorem record_chan_mode_refines (G : GLib) serv ms m arg :
  GLibLaws G -> modes_ok serv ms ->
  record_chan_mode serv (Some (render ms)) "+" m arg =
    Some (render (set_mode ms m (if mode_has_arg serv "+" m then Some arg else None))) /\
  record_chan_mode serv (Some (render ms)) "-" m arg = Some (render (clear_mode ms m)) /\
  (m <> " "%char -> " "%char ∉ arg ->
     modes_ok serv (set_mode ms m (if mode_has_arg serv "+" m then Some arg else None))) /\
  modes_ok serv (clear_mode ms m).
Proof.
  intros GL Hms. destruct (decide (m ∈ map fst ms)) as [Hin|Hin].
  - destruct (modes_split ms m (proj1 Hms) Hin) as (l1 & a & l2 & -> & H1 & H2).
    destruct (record_present serv l1 m a l2 arg Hms) as [-> ->].
    rewrite set_mode_split, clear_mode_split by done. split_and!; [done|done| |].
    + intros Hm Ha. by apply modes_ok_replace with a.
    + by apply modes_ok_remove in Hms.
  - destruct (record_absent serv ms m arg Hms Hin) as [-> ->].
    rewrite clear_mode_absent by done. split_and!; [|done| |done].
    + unfold set_mode. by rewrite bool_decide_false.
    + intros Hm Ha. unfold set_mode. rewrite bool_decide_false by done. by apply modes_ok_append.
Qed.

(** Handling a MODE line or numeric 324 never leaves an array, shifts by a
    negative count or reads past PREFIX, and keeps every channel's user list
    well formed, whatever modes and arguments the line carries. *)
Theorem handle_mode_keeps_users (G : GLib) serv raw ln nick numeric_324 m :
  GLibLaws G -> server_ok serv -> users_ok serv m -> line_ok ln ->
  word_eol ln (if numeric_324 : bool then 4 else 3) <> [] ->
  exists m', handle_mode serv raw ln nick numeric_324 m = Some m' /\ users_ok serv m'.
Proof. apply handle_mode_ok. Qed.

(** ** Witnesses *)

Definition example_modes : list mode_entry :=
  [("+"%char, None); ("n"%char, None); ("k"%char, Some ("key" : cstr)); ("t"%char, None)].

Lemma example_modes_ok : modes_ok isupport_example example_modes.
Proof.
  split; [by apply (bool_decide_unpack _); vm_compute|].
  repeat constructor; cbn; try done; try (by intros [? ?]); try (by eauto);
    try (by apply (bool_decide_unpack _); vm_compute).
  intros a [= <-]. by apply (bool_decide_unpack _); vm_compute.
Qed.

Lemma record_chan_mode_refines_witness :
  record_chan_mode isupport_example (Some (list_ascii_of_string "+nkt key")) "+" "l" "5" =
    Some (list_ascii_of_string "+nktl key 5") /\
  record_chan_mode isupport_example (Some (list_ascii_of_string "+nkt key")) "-" "k" "x" =
    Some (list_ascii_of_string "+nt").
Proof.
  destruct (record_chan_mode_refines glib_ref isupport_example example_modes "l" "5"
    glib_ref_laws example_modes_ok) as (H1 & _).
  destruct (record_chan_mode_refines glib_ref isupport_example example_modes "k" "x"
    glib_ref_laws example_modes_ok) as (_ & H2 & _).
  split; [exact H1|exact H2].
Defined.

Definition example_mstate : mstate :=
  MState [Chan true true "#c" [] 0 false (Some (list_ascii_of_string "+nt")) example_session] 0 [].

Definition example_line : line :=
  Line (map list_ascii_of_string [""; ":srv"; "MODE"; "#c"; "+ov-o"; "alice"; "carol"; "bob"]%string)
    ":srv MODE #c +ov-o alice carol bob" [0; 0; 5; 10; 13; 19; 25; 31]%nat.

Lemma handle_mode_keeps_users_witness :
  exists m', handle_mode server_example false example_line "srv" false example_mstate = Some m' /\
    users_ok server_example m'.
Proof.
  apply (handle_mode_keeps_users glib_ref).
  - exact glib_ref_laws.
  - exact server_example_ok.
  - constructor; [exact example_wf|constructor].
  - split; [|by apply plainb_spec]. repeat (constructor; [by apply plainb_spec|]). constructor.
  - by vm_compute.
Defined.
