(* ===== verification/Isupport.v ===== *)
(** * Numeric 005 (src/common/modes.c, src/common/chathistory.c)

    Parsing of ISUPPORT tokens and what each of them sets in the server.  The
    calls that leave the server record (sending, encoding, icons, the session
    title) are recorded in a trace. *)
From S2P Require Import Prelude Glib Casemap Text Access Userlist Modes.

(** ** Tokens *)

Definition hex_to_chr `{GLib} (chr : ascii) : Z :=
  if g_ascii_isdigit chr then uchar chr - 48 else uchar (g_ascii_tolower chr) - 97 + 10.

(** The bytes written to [*value] before the final NUL. *)
Fixpoint value_loop `{GLib} (fuel : nat) (toksplit : cstr) : cstr :=
  match fuel with
  | O => []
  | S fuel =>
      match toksplit with
      | [] => []
      | c :: rest =>
          if c =c "\" then
            let emitted :=
              match rest with
              | x :: h1 :: h2 :: _ =>
                  if (x =c "x") && g_ascii_isxdigit h1 && g_ascii_isxdigit h2
                  then [ascii_of_N (Z.to_N (Z.lor (Z.shiftl (hex_to_chr h1) 4) (hex_to_chr h2)))]
                  else []
              | _ => []
              end in
            emitted ++ value_loop fuel (drop 4 toksplit)
          else c :: value_loop fuel rest
      end
  end.

(** The C string a buffer holds. *)
Fixpoint c_string (buf : cstr) : cstr :=
  match buf with
  | [] => []
  | c :: buf => if c =c NUL then [] else c :: c_string buf
  end.

(** [(name, value, adding)] *)
Definition parse_005_token `{GLib} (token : cstr) : cstr * cstr * bool :=
  let '(token, adding) :=
    match token with
    | c :: rest => if c =c "-" then (rest, false) else (token, true)
    | [] => (token, true)
    end in
  match index_of "=" token with
  | Some i =>
      let toksplit := drop (S i) token in
      (take i token, c_string (value_loop (length toksplit) toksplit), adding)
  | None => (token, [], adding)
  end.

(** ** The server's 005 state *)

Inductive isupport_event :=
| FeSetChannel
| SetEncoding (name : cstr)
| AccountRequiredHint
| TcpSend (s : cstr)
| RetentionChanged
| NetworkIconClear
| NetworkIconFetch (url : cstr).

(** The one-bit fields. *)
Inductive flag_name :=
| SupportsWatch | SupportsMonitor | AccountRequired | Utf8Only | HaveNamesx | HaveWhox
| HaveExcept | HaveInvite | UseListargs.

#[export] Instance flag_name_eq : EqDecision flag_name.
Proof. solve_decision. Defined.

Record serv005 := Serv005 {
  s_isup : isupport;
  s_p_cmp : cstr -> cstr -> Z;
  modes_per_line : Z;
  flags : flag_name -> bool (* the 1-bit fields *);
  server_tab : bool (* server_session->type == SESS_SERVER *);
  tab_channel : cstr (* its name *);
  end_of_motd : bool;
  client_tag_deny : option cstr;
  chathistory_limit : Z;
  chathistory_retention_secs : Z;
  multiline_max_bytes : Z;
  multiline_max_lines : Z;
  network_icon_url : option cstr;
  log005 : list isupport_event }.

Definition put_s_isup v s := Serv005 v (s_p_cmp s) (modes_per_line s) (flags s) (server_tab s)
  (tab_channel s) (end_of_motd s) (client_tag_deny s) (chathistory_limit s)
  (chathistory_retention_secs s) (multiline_max_bytes s) (multiline_max_lines s) (network_icon_url s) (log005 s).
Definition put_s_p_cmp v s := Serv005 (s_isup s) v (modes_per_line s) (flags s) (server_tab s)
  (tab_channel s) (end_of_motd s) (client_tag_deny s) (chathistory_limit s)
  (chathistory_retention_secs s) (multiline_max_bytes s) (multiline_max_lines s) (network_icon_url s) (log005 s).
Definition put_modes_per_line v s := Serv005 (s_isup s) (s_p_cmp s) v (flags s) (server_tab s)
  (tab_channel s) (end_of_motd s) (client_tag_deny s) (chathistory_limit s)
  (chathistory_retention_secs s) (multiline_max_bytes s) (multiline_max_lines s) (network_icon_url s) (log005 s).
Definition put_flags v s := Serv005 (s_isup s) (s_p_cmp s) (modes_per_line s) v (server_tab s)
  (tab_channel s) (end_of_motd s) (client_tag_deny s) (chathistory_limit s)
  (chathistory_retention_secs s) (multiline_max_bytes s) (multiline_max_lines s) (network_icon_url s) (log005 s).
Definition put_tab_channel v s := Serv005 (s_isup s) (s_p_cmp s) (modes_per_line s) (flags s)
  (server_tab s) v (end_of_motd s) (client_tag_deny s) (chathistory_limit s)
  (chathistory_retention_secs s) (multiline_max_bytes s) (multiline_max_lines s) (network_icon_url s) (log005 s).
Definition put_client_tag_deny v s := Serv005 (s_isup s) (s_p_cmp s) (modes_per_line s) (flags s)
  (server_tab s) (tab_channel s) (end_of_motd s) v (chathistory_limit s)
  (chathistory_retention_secs s) (multiline_max_bytes s) (multiline_max_lines s) (network_icon_url s) (log005 s).
Definition put_chathistory_limit v s := Serv005 (s_isup s) (s_p_cmp s) (modes_per_line s) (flags
  s) (server_tab s) (tab_channel s) (end_of_motd s) (client_tag_deny s) v
  (chathistory_retention_secs s) (multiline_max_bytes s) (multiline_max_lines s) (network_icon_url s) (log005 s).
Definition put_chathistory_retention_secs v s := Serv005 (s_isup s) (s_p_cmp s) (modes_per_line
  s) (flags s) (server_tab s) (tab_channel s) (end_of_motd s) (client_tag_deny s)
  (chathistory_limit s) v (multiline_max_bytes s) (multiline_max_lines s) (network_icon_url s) (log005 s).
Definition put_multiline_max_bytes v s := Serv005 (s_isup s) (s_p_cmp s) (modes_per_line s)
  (flags s) (server_tab s) (tab_channel s) (end_of_motd s) (client_tag_deny s) (chathistory_limit
  s) (chathistory_retention_secs s) v (multiline_max_lines s) (network_icon_url s) (log005 s).
Definition put_multiline_max_lines v s := Serv005 (s_isup s) (s_p_cmp s) (modes_per_line s)
  (flags s) (server_tab s) (tab_channel s) (end_of_motd s) (client_tag_deny s) (chathistory_limit
  s) (chathistory_retention_secs s) (multiline_max_bytes s) v (network_icon_url s) (log005 s).
Definition put_network_icon_url v s := Serv005 (s_isup s) (s_p_cmp s) (modes_per_line s) (flags
  s) (server_tab s) (tab_channel s) (end_of_motd s) (client_tag_deny s) (chathistory_limit s)
  (chathistory_retention_secs s) (multiline_max_bytes s) (multiline_max_lines s) v (log005 s).
Definition put_log005 v s := Serv005 (s_isup s) (s_p_cmp s) (modes_per_line s) (flags s)
  (server_tab s) (tab_channel s) (end_of_motd s) (client_tag_deny s) (chathistory_limit s)
  (chathistory_retention_secs s) (multiline_max_bytes s) (multiline_max_lines s) (network_icon_url s) v.

Definition set_flag (f : flag_name) (b : bool) (s : serv005) : serv005 :=
  put_flags (fun g => if decide (g = f) then b else flags s g) s.
Definition log_event (e : isupport_event) (s : serv005) : serv005 := put_log005 (log005 s ++ [e]) s.

Definition CHANLEN : Z := 300.
Definition CHATHISTORY_RETENTION_TOKEN : cstr := "evilnet/CHATHISTORYRETENTION".

(** ** What a token sets *)

Section tokens.
Context `{GLib}.

(** [g_str_has_prefix]: what is left behind the prefix. *)
Fixpoint after_prefix (pre s : cstr) : option cstr :=
  match pre, s with
  | [], _ => Some s
  | p :: pre, c :: s => if p =c c then after_prefix pre s else None
  | _ :: _, [] => None
  end.

(** chathistory.c *)
Definition chathistory_limit_of (value : cstr) : Z :=
  match value with
  | [] => 0
  | _ =>
      let limit := atoi value in
      if (limit =? 0) && strchr_b value "=" then
        foldl (fun limit tok =>
                 match after_prefix "limit=" tok with Some n => atoi n | None => limit end)
          limit (g_strsplit value ",")
      else limit
  end.

Definition chathistory_parse_isupport (value : cstr) (s : serv005) : serv005 :=
  put_chathistory_limit (chathistory_limit_of value) s.

(** [g_ascii_strtoll (value, NULL, 10)], cut at the first other character. *)
Definition strtoll (s : cstr) : Z :=
  match s with
  | c :: s' =>
      Z.max (- 2 ^ 63) (Z.min (2 ^ 63 - 1)
        (if c =c "-" then - atoi_digits s' 0
         else if c =c "+" then atoi_digits s' 0 else atoi_digits s 0))
  | [] => 0
  end.

(** The retention; publishing the cutoff to the ledger is an event. *)
Definition chathistory_parse_retention (value : option cstr) (s : serv005) : serv005 :=
  let secs := match value with
              | Some (c :: v) => let n := strtoll (c :: v) in if 0 <? n then n else 0
              | _ => 0
              end in
  log_event RetentionChanged (put_chathistory_retention_secs secs s).

Definition multiline_token (s : serv005) (tok : cstr) : serv005 :=
  match after_prefix "max-bytes=" tok with
  | Some n => put_multiline_max_bytes (atoi n) s
  | None =>
      match after_prefix "max-lines=" tok with
      | Some n => put_multiline_max_lines (atoi n) s
      | None => s
      end
  end.

Definition with_chantypes v i := ISupport v (chanmodes i) (nick_prefixes i) (nick_modes i)
  (bad_prefix i) (bad_nick_prefixes i).
Definition with_chanmodes v i := ISupport (chantypes i) v (nick_prefixes i) (nick_modes i)
  (bad_prefix i) (bad_nick_prefixes i).
Definition with_prefix p m i := ISupport (chantypes i) (chanmodes i) p m
  (bad_prefix i) (bad_nick_prefixes i).
Definition with_bad_prefix v i := ISupport (chantypes i) (chanmodes i) (nick_prefixes i)
  (nick_modes i) true (Some v).

(** [tokvalue + 1] starts behind the NUL written over ')' when that is first. *)
Definition prefix_token (tokvalue : cstr) (i : isupport) : isupport :=
  match index_of ")" tokvalue with
  | Some O => with_prefix (drop 1 tokvalue) (drop 1 tokvalue) i
  | Some k => with_prefix (drop (S k) tokvalue) (drop 1 (take k tokvalue)) i
  | None => with_bad_prefix tokvalue i
  end.

(** The if chain of [inbound_005]. *)
Definition isupport_token (name value : cstr) (adding : bool) (s : serv005) : option serv005 :=
  let named (n : string) := bool_decide (name = n) in
  if named "MODES" then Some (put_modes_per_line (atoi value) s)
  else if named "CHANTYPES" then Some (put_s_isup (with_chantypes value (s_isup s)) s)
  else if named "CHANMODES" then Some (put_s_isup (with_chanmodes value (s_isup s)) s)
  else if named "PREFIX" then Some (put_s_isup (prefix_token value (s_isup s)) s)
  else if named "WATCH" then Some (set_flag SupportsWatch adding s)
  else if named "MONITOR" then Some (set_flag SupportsMonitor adding s)
  else if named "NETWORK" then
    if server_tab s && negb (bool_decide (value = [])) then
      channel ← safe_strcpy value CHANLEN;
      Some (log_event FeSetChannel (put_tab_channel channel s))
    else Some s
  else if named "CASEMAPPING" then
    Some (if bool_decide (value = ("ascii" : string)) then put_s_p_cmp g_ascii_strcasecmp s else s)
  else if named "CHARSET" then
    Some (if g_ascii_strcasecmp value "UTF-8" =? 0 then log_event (SetEncoding "UTF-8") s else s)
  else if named "draft/ACCOUNTREQUIRED" || named "ACCOUNTREQUIRED" then
    let s := set_flag AccountRequired adding s in
    Some (if adding && negb (end_of_motd s) then log_event AccountRequiredHint s else s)
  else if named "CLIENTTAGDENY" then
    Some (put_client_tag_deny
      (if adding && negb (bool_decide (value = [])) then Some value else None) s)
  else if named "UTF8ONLY" then Some (set_flag Utf8Only true (log_event (SetEncoding "UTF-8") s))
  else if named "NAMESX" then
    Some (if adding && negb (flags s HaveNamesx)
          then set_flag HaveNamesx true (log_event (TcpSend ("PROTOCTL NAMESX" ++ [CR; LF])) s) else s)
  else if named "WHOX" then Some (set_flag HaveWhox adding s)
  else if named "EXCEPTS" then Some (set_flag HaveExcept adding s)
  else if named "INVEX" then Some (set_flag HaveInvite adding s)
  else if named "ELIST" then
    Some (if strchr_b value "U" || strchr_b value "u" then set_flag UseListargs true s else s)
  else if named "CHATHISTORY" then Some (chathistory_parse_isupport value s)
  else if bool_decide (name = CHATHISTORY_RETENTION_TOKEN) then
    Some (chathistory_parse_retention (if adding then Some value else None) s)
  else if named "MULTILINE" then
    Some (if bool_decide (value = []) then s else foldl multiline_token s (g_strsplit value ","))
  else if named "draft/ICON" || named "ICON" then
    Some (if negb adding then log_event NetworkIconClear (put_network_icon_url None s)
          else log_event (NetworkIconFetch value) (put_network_icon_url (Some value) s))
  else Some s.

(** [words] are word[4] .. word[PDIWORDS-1], up to the first empty one. *)
Fixpoint inbound_005 (words : list cstr) (s : serv005) : option serv005 :=
  match words with
  | [] => Some s
  | w :: words =>
      match w with
      | [] => Some s
      | c :: _ =>
          if c =c ":" then Some s
          else
            let '(name, value, adding) := parse_005_token w in
            s ← isupport_token name value adding s;
            inbound_005 words s
      end
  end.
End tokens.

(** ** Properties *)

(** The documented escape of a byte: [\xHH]. *)
Definition hex_digit (n : Z) : ascii := ascii_of_N (Z.to_N (if n <? 10 then 48 + n else 55 + n)).
Definition escape_byte (c : ascii) : cstr :=
  ["\"%char; "x"%char; hex_digit (uchar c / 16); hex_digit (uchar c mod 16)].

Section escapes.
Context `{GL : GLibLaws}.

Lemma hex_digits_decode c :
  (g_ascii_isxdigit (hex_digit (uchar c / 16)) = true /\ g_ascii_isxdigit (hex_digit (uchar c mod 16)) = true) /\
  ascii_of_N (Z.to_N (Z.lor (Z.shiftl (hex_to_chr (hex_digit (uchar c / 16))) 4)
    (hex_to_chr (hex_digit (uchar c mod 16))))) = c.
Proof.
  unfold hex_to_chr. rewrite !g_ascii_isxdigit_spec, !g_ascii_isdigit_spec, !g_ascii_tolower_spec.
  rewrite <- andb_true_iff.
  cut ((fun c => (xdigit_byte (hex_digit (uchar c / 16)) && xdigit_byte (hex_digit (uchar c mod 16))) &&
    (ascii_of_N (Z.to_N (Z.lor (Z.shiftl
       (if digit_byte (hex_digit (uchar c / 16)) then uchar (hex_digit (uchar c / 16)) - 48
        else uchar (ascii_lower (hex_digit (uchar c / 16))) - 97 + 10) 4)
       (if digit_byte (hex_digit (uchar c mod 16)) then uchar (hex_digit (uchar c mod 16)) - 48
        else uchar (ascii_lower (hex_digit (uchar c mod 16))) - 97 + 10))) =c c)) c = true).
  { cbn beta. rewrite andb_true_iff, Ascii.eqb_eq. done. }
  apply all_bytes_forall. by vm_compute.
Qed.

Lemma value_loop_escape fuel c rest :
  value_loop (S fuel) (escape_byte c ++ rest) = c :: value_loop fuel rest.
Proof.
  destruct (hex_digits_decode c) as [[H1 H2] H3]. cbn [value_loop escape_byte app].
  rewrite Ascii.eqb_refl. change ("x" =c "x") with true. rewrite H1, H2. cbn [andb app].
  by rewrite H3.
Qed.

Lemma value_loop_length fuel s : (length (value_loop fuel s) <= length s)%nat.
Proof.
  revert s; induction fuel as [|fuel IH]; intros s; cbn [value_loop]; [simpl; lia|].
  destruct s as [|c s]; [done|]. destruct (c =c "\").
  - rewrite length_app. pose proof (IH (drop 4 (c :: s))) as H. rewrite length_drop in H. simpl in *.
    destruct s as [|x [|h1 [|h2 s]]]; simpl in *; try lia. destruct (_ && _); simpl; lia.
  - pose proof (IH s). simpl. lia.
Qed.

Lemma value_loop_plain s : "\"%char ∉ s -> value_loop (length s) s = s.
Proof.
  induction s as [|c s IH]; intros Hs; cbn [length value_loop]; [done|].
  apply not_elem_of_cons in Hs as [Hc Hs]. destruct (Ascii.eqb_spec c "\"); [congruence|].
  by rewrite IH.
Qed.

Lemma index_of_first c s t : c ∉ s -> index_of c (s ++ c :: t) = Some (length s).
Proof.
  induction s as [|x s IH]; simpl; [by rewrite Ascii.eqb_refl|].
  intros [Hx Hs]%not_elem_of_cons. destruct (Ascii.eqb_spec x c); [congruence|]. by rewrite IH.
Qed.

Lemma c_string_nonul s : nonul s -> c_string s = s.
Proof.
  induction 1 as [|c s Hc Hs IH]; simpl; [done|]. destruct (Ascii.eqb_spec c NUL); [done|]. by rewrite IH.
Qed.

Lemma value_loop_fuel_mono fuel s : (length s <= fuel)%nat -> value_loop fuel s = value_loop (length s) s.
Proof.
  revert s. induction fuel as [fuel IH] using lt_wf_ind. intros s Hf.
  destruct s as [|c s]; [by destruct fuel|]. destruct fuel as [|fuel]; [simpl in Hf; lia|].
  cbn [value_loop length]. simpl in Hf. destruct (c =c "\").
  - f_equal. rewrite (IH fuel), (IH (length s)); [done|lia| |lia|]; rewrite length_drop; simpl; lia.
  - f_equal. rewrite (IH fuel) by lia. done.
Qed.
(** A token with a value, given what its value decodes to. *)
Lemma parse_005_token_value name raw value :
  "="%char ∉ name -> peek name <> "-"%char -> nonul value -> value_loop (length raw) raw = value ->
  parse_005_token (name ++ "="%char :: raw) = (name, value, true) /\
  parse_005_token ("-"%char :: name ++ "="%char :: raw) = (name, value, false).
Proof.
  intros Hname Hneg Hval Hraw.
  assert (Hidx : index_of "=" (name ++ "="%char :: raw) = Some (length name)) by by apply index_of_first.
  assert (Hdrop : drop (S (length name)) (name ++ "="%char :: raw) = raw).
  { replace (name ++ "="%char :: raw) with ((name ++ ["="%char]) ++ raw) by by rewrite <- app_assoc.
    apply drop_app_length'. rewrite length_app. simpl. lia. }
  assert (Hbody : c_string (value_loop (length raw) raw) = value).
  { rewrite Hraw. by apply c_string_nonul. }
  assert (Hsign : forall t, match name ++ "="%char :: t with
    | c :: rest => if c =c "-" then (rest, false) else (name ++ "="%char :: t, true)
    | [] => (name ++ "="%char :: t, true) end = (name ++ "="%char :: t, true)).
  { intros t. destruct name as [|c name]; [done|]. simpl in *.
    destruct (Ascii.eqb_spec c "-"); [congruence|done]. }
  split; unfold parse_005_token.
  - by rewrite Hsign, Hidx, Hdrop, Hbody, take_app_length.
  - change ("-" =c "-") with true. cbv iota. by rewrite Hidx, Hdrop, Hbody, take_app_length.
Qed.
End escapes.

(** Token parsing inverts the documented escaping: a value in which any
    bytes (every backslash among them) are written as [\xHH] and the others as
    themselves is recovered exactly, with its name and sign, and the decoded
    value never outgrows the buffer allocated for it. *)
Theorem parse_005_token_roundtrip (G : GLib) name value (esc : ascii -> bool) :
  GLibLaws G -> "="%char ∉ name -> peek name <> "-"%char -> nonul value -> esc "\"%char = true ->
  let raw := concat (map (fun c => if esc c then escape_byte c else [c]) value) in
  parse_005_token (name ++ "="%char :: raw) = (name, value, true) /\
  parse_005_token ("-"%char :: name ++ "="%char :: raw) = (name, value, false) /\
  forall s, (length (value_loop (length s) s) <= length s)%nat.
Proof.
  intros GL Hname Hneg Hval Hesc raw.
  assert (Hraw : forall fuel, (length raw <= fuel)%nat -> value_loop fuel raw = value).
  { subst raw. clear -GL Hval Hesc. induction Hval as [|c value Hc Hval IH]; intros fuel Hf; simpl.
    - by destruct fuel.
    - simpl in Hf. destruct (esc c) eqn:Ec.
      + destruct fuel as [|fuel]; [simpl in Hf; lia|]. rewrite value_loop_escape, IH; [done|].
        simpl in Hf. lia.
      + destruct fuel as [|fuel]; [simpl in Hf; lia|]. cbn [value_loop app].
        destruct (Ascii.eqb_spec c "\"); [congruence|]. rewrite IH; [done|]. simpl in Hf. lia. }
  split_and!; [| |intros; apply value_loop_length];
    apply parse_005_token_value; try done; by apply Hraw.
Qed.

(** PREFIX=(modes)prefixes makes each mode lead to the prefix written at its
    place: afterwards [mode_access] of the i-th mode is (i, i-th prefix). *)
Theorem inbound_005_prefix (G : GLib) s modes prefixes i m p :
  GLibLaws G -> nonul (modes ++ prefixes) -> "\"%char ∉ modes ++ prefixes -> ")"%char ∉ modes ->
  NoDup modes -> length modes = length prefixes -> modes !! i = Some m -> prefixes !! i = Some p ->
  exists s', inbound_005 ["PREFIX=(" ++ modes ++ ")"%char :: prefixes] s = Some s' /\
    mode_access (s_isup s') m = Some (Z.of_nat i, p) /\
    bad_prefix (s_isup s') = bad_prefix (s_isup s).
Proof.
  intros GL Hnul Hesc Hp Hnd Hlen Hm Hpr.
  set (v := "("%char :: modes ++ ")"%char :: prefixes).
  assert (Hv : parse_005_token ("PREFIX=" ++ v) = ("PREFIX" : cstr, v, true)).
  { apply (parse_005_token_value "PREFIX" v v).
    - by apply (bool_decide_unpack _); vm_compute.
    - done.
    - apply nonul_app in Hnul as [? ?]. apply nonul_cons. split; [done|].
      apply nonul_app. split; [done|]. by apply nonul_cons.
    - apply value_loop_plain. subst v. set_solver. }
  cbn [inbound_005]. change ("PREFIX=(" ++ modes ++ ")"%char :: prefixes) with ("PREFIX=" ++ v).
  destruct ("PREFIX=" ++ v) as [|c w] eqn:Ew; [done|].
  assert (c = "P"%char) as -> by (simpl in Ew; congruence). change ("P" =c ":") with false. cbv iota.
  rewrite Hv. eexists. split; [reflexivity|]. cbn [s_isup put_s_isup].
  assert (Hi : index_of ")" v = Some (S (length modes))).
  { subst v. change ("("%char :: modes ++ ")"%char :: prefixes) with (("("%char :: modes) ++ ")"%char :: prefixes).
    rewrite index_of_first by set_solver. done. }
  unfold prefix_token. rewrite Hi.
  assert (Hpre : drop (S (S (length modes))) v = prefixes).
  { subst v. change ("("%char :: modes ++ ")"%char :: prefixes) with (("("%char :: modes) ++ ")"%char :: prefixes).
    replace (("("%char :: modes) ++ ")"%char :: prefixes) with ((("("%char :: modes) ++ [")"%char]) ++ prefixes)
      by by rewrite <- app_assoc.
    apply drop_app_length'. rewrite length_app. simpl. lia. }
  assert (Hmod : drop 1 (take (S (length modes)) v) = modes).
  { subst v. cbn [take drop]. rewrite take_app_length. by rewrite drop_0. }
  split; [|done]. unfold mode_access. cbn [nick_modes nick_prefixes with_prefix].
  rewrite Hpre, Hmod, (index_of_nth modes i m) by done.
  rewrite zlookup_nat, lookup_app_l by (by eapply lookup_lt_Some). by rewrite Hpr.
Qed.

(** A PREFIX with fewer prefixes than modes is stored as it is; looking up a
    mode beyond the end reads past the string's NUL ([mode_access] undefined). *)
Theorem inbound_005_short_prefix_overread (G : GLib) s :
  exists s', inbound_005 [list_ascii_of_string "PREFIX=(ohv)@"] s = Some s' /\
    mode_access (s_isup s') "v" = None.
Proof. eexists. split; [reflexivity|]. by vm_compute. Qed.

(** ** Witnesses *)

Definition example_serv005 : serv005 :=
  Serv005 isupport_example rfc_casecmp 3 (fun _ => false) true [] false None 0 0 0 0 None [].

Lemma parse_005_token_roundtrip_witness :
  parse_005_token "NETWORK=My\x20Net" = (list_ascii_of_string "NETWORK", list_ascii_of_string "My Net", true).
Proof.
  destruct (parse_005_token_roundtrip glib_ref "NETWORK" "My Net" (fun c => (c =c " ") || (c =c "\"))
    glib_ref_laws) as [H _].
  - by apply (bool_decide_unpack _); vm_compute.
  - by vm_compute.
  - by apply (bool_decide_unpack _); vm_compute.
  - reflexivity.
  - exact H.
Defined.

Lemma inbound_005_prefix_witness :
  exists s', inbound_005 [list_ascii_of_string "PREFIX=(ohv)@%+"] example_serv005 = Some s' /\
    mode_access (s_isup s') "h" = Some (1, "%"%char).
Proof.
  destruct (inbound_005_prefix glib_ref example_serv005 "ohv" "@%+" 1 "h" "%" glib_ref_laws)
    as (s' & H1 & H2 & _); try (by apply (bool_decide_unpack _); vm_compute); try reflexivity.
  exists s'. split; [exact H1|exact H2].
Defined.
