(* ===== verification/SendQueue.v ===== *)
(** * The outgoing queue (src/common/server.c)

    Prioritised, throttled sending.  The wire is the list of lines handed to
    the socket with the time of the call; times are seconds.  [fe_timeout_add]
    is a count of running 500 ms timers, each of which may tick. *)
From S2P Require Import Prelude Glib Casemap Access.

(** ** State *)

(** A line on the wire: when, from which priority ([None]: not queued), what. *)
Record sent := Sent { at_time : Z; via : option Z; payload : cstr }.

Record sendq := SendQ {
  is_server : bool;
  net_throttle : bool;               (* prefs.hex_net_throttle *)
  end_of_motd : bool;
  batch_burst : bool;
  batch_burst_bytes : Z;
  outbound_queue : list (Z * cstr);  (* priority byte, line *)
  sendq_len : Z;
  next_send : Z;
  prev_now : Z;
  timers : nat;
  wire : list sent }.

Definition put_queue q len s := SendQ (is_server s) (net_throttle s) (end_of_motd s) (batch_burst s)
  (batch_burst_bytes s) q len (next_send s) (prev_now s) (timers s) (wire s).
Definition put_clock ns pn s := SendQ (is_server s) (net_throttle s) (end_of_motd s) (batch_burst s)
  (batch_burst_bytes s) (outbound_queue s) (sendq_len s) ns pn (timers s) (wire s).
Definition put_burst b n s := SendQ (is_server s) (net_throttle s) (end_of_motd s) b n
  (outbound_queue s) (sendq_len s) (next_send s) (prev_now s) (timers s) (wire s).
Definition put_timers n s := SendQ (is_server s) (net_throttle s) (end_of_motd s) (batch_burst s)
  (batch_burst_bytes s) (outbound_queue s) (sendq_len s) (next_send s) (prev_now s) n (wire s).

Definition server_send_real (now : Z) (v : option Z) (buf : cstr) (s : sendq) : sendq :=
  SendQ (is_server s) (net_throttle s) (end_of_motd s) (batch_burst s) (batch_burst_bytes s)
    (outbound_queue s) (sendq_len s) (next_send s) (prev_now s) (timers s)
    (wire s ++ [Sent now v buf]).

(** ** Draining *)

(** The first entry of a priority, between those before and behind it. *)
Fixpoint find_pri (pri : Z) (q : list (Z * cstr)) : option (list (Z * cstr) * cstr * list (Z * cstr)) :=
  match q with
  | [] => None
  | (p, buf) :: q =>
      if p =? pri then Some ([], buf, q)
      else '(before, b, after) ← find_pri pri q; Some ((p, buf) :: before, b, after)
  end.

(** [for (p = buf, i = len; i && *p != ' '; p++, i--);] *)
Fixpoint tail_length (buf : cstr) : Z :=
  match buf with
  | [] => 0
  | c :: rest => if c =c " " then Z.of_nat (length buf) else tail_length rest
  end.

(** One line of the inner loop; [None] when the throttle holds it back. *)
Definition send_one (now pri : Z) (buf : cstr) (rest : list (Z * cstr)) (s : sendq) : option sendq :=
  let ns := if next_send s <? now then now else next_send s in
  let go (ns : Z) :=
    let s := put_clock (ns + (2 + Z.quot (tail_length buf) 120)) now s in
    let s := put_queue (outbound_queue s) (sendq_len s - Z.of_nat (length buf)) s in
    let s := server_send_real now (Some pri) buf s in
    Some (put_queue rest (sendq_len s) s) in
  if 10 <=? ns - now then
    if prev_now s <=? now then None else go now
  else go ns.

(** The scan for one priority, restarted at the head after every line; the
    flag tells that the throttle stopped it. *)
Fixpoint send_pri (fuel : nat) (now pri : Z) (s : sendq) : sendq * bool :=
  match fuel with
  | O => (s, true)
  | S fuel =>
      match find_pri pri (outbound_queue s) with
      | None => (s, false)
      | Some (before, buf, after) =>
          match send_one now pri buf (before ++ after) s with
          | None => (s, true)
          | Some s => send_pri fuel now pri s
          end
      end
  end.

Fixpoint send_pris (pris : list Z) (now : Z) (s : sendq) : sendq * bool :=
  match pris with
  | [] => (s, false)
  | pri :: pris =>
      let '(s, stopped) := send_pri (S (length (outbound_queue s))) now pri s in
      if stopped : bool then (s, true) else send_pris pris now s
  end.

(** The flag is the C function's result: keep the timer. *)
Definition tcp_send_queue (now : Z) (s : sendq) : sendq * bool :=
  if negb (is_server s) then (s, false) else send_pris [3; 2; 1; 0] now s.

(** ** Queueing *)

Fixpoint is_prefix (pre s : cstr) : bool :=
  match pre, s with
  | [], _ => true
  | p :: pre, c :: s => (p =c c) && is_prefix pre s
  | _ :: _, [] => false
  end.

(** [strstr (s, needle) != NULL] *)
Fixpoint strstr_b (s needle : cstr) : bool :=
  is_prefix needle s || match s with [] => false | _ :: s => strstr_b s needle end.

Fixpoint skip_spaces (s : cstr) : cstr :=
  match s with
  | c :: s' => if c =c " " then skip_spaces s' else s
  | [] => []
  end.

(** Is there a [c] before the first space? *)
Definition before_space (c : ascii) (s : cstr) : bool :=
  match index_of c s with
  | Some loc => match index_of " " s with Some e => (loc <? e)%nat | None => true end
  | None => false
  end.

(** A MODE line that asks and does not change; [buf] is the whole line. *)
Definition mode_is_query (buf : cstr) : bool :=
  let mode_str := skip_spaces (drop 4 buf) in
  match index_of " " mode_str with
  | Some i =>
      let mode_str := skip_spaces (drop i mode_str) in
      negb (before_space "-" mode_str || before_space "+" mode_str)
  | None => true
  end.

Definition starts_with `{GLib} (buf : cstr) (cmd : string) : bool :=
  g_ascii_strncasecmp buf cmd (String.length cmd) =? 0.

Definition priority `{GLib} (buf : cstr) : Z :=
  if starts_with buf "PRIVMSG" || starts_with buf "NOTICE" then 2
  else if starts_with buf "CHATHISTORY " || ((peek buf =c "@") && strstr_b buf " CHATHISTORY ") then 1
  else if starts_with buf "WHO " || starts_with buf "MARKREAD " then 0
  else if starts_with buf "MODE " then if mode_is_query buf then 0 else 3
  else 3.

(** [buf] is the first [len] bytes; what is queued is read back up to its NUL. *)
Definition tcp_send_len `{GLib} (now : Z) (buf : cstr) (s : sendq) : sendq :=
  let len := Z.of_nat (length buf) in
  let noqueue := match outbound_queue s with [] => true | _ => false end in
  if negb (net_throttle s) || negb (end_of_motd s) || batch_burst s then
    let s := if batch_burst s then put_burst true (batch_burst_bytes s + len) s else s in
    server_send_real now None buf s
  else
    let line := take (default (length buf) (index_of NUL buf)) buf in
    let s := put_queue (outbound_queue s ++ [(priority line, line)]) (sendq_len s + len) s in
    let '(s, keep) := tcp_send_queue now s in
    if keep && noqueue then put_timers (S (timers s)) s else s.

(** A 500 ms timer fires; its handler is removed when it returns 0. *)
Definition timer_tick (now : Z) (s : sendq) : sendq :=
  let '(s, keep) := tcp_send_queue now s in
  if keep then s else put_timers (Nat.pred (timers s)) s.

(** ** Formatting *)

(** [g_vsnprintf (send_buf, sizeof (send_buf) - 1, ...)] of the formatted text:
    the bytes passed on.  The result of vsnprintf is the untruncated length. *)
Definition SEND_BUF : Z := 1540.

Definition tcp_sendf_bytes (formatted : cstr) : cstr :=
  let stored := take (Z.to_nat (SEND_BUF - 1 - 1)) formatted in
  let len := Z.of_nat (length formatted) in
  let len := if (SEND_BUF - 1) <? len then Z.of_nat (length stored) else len in
  take (Z.to_nat len) (stored ++ replicate (Z.to_nat len) NUL).

Definition tcp_sendf `{GLib} (now : Z) (formatted : cstr) (s : sendq) : sendq :=
  tcp_send_len now (tcp_sendf_bytes formatted) s.

(** ** Multiline bursts and flushing *)

(** The throttle part of [tcp_batch_open_multiline] and [tcp_batch_close]: the
    lines of a batch go out at once and are paid for at its end. *)
Definition burst_begin (s : sendq) : sendq := put_burst true 0 s.

Definition burst_end (now : Z) (s : sendq) : sendq :=
  if batch_burst s then
    let ns := if next_send s <? now then now else next_send s in
    put_burst false 0 (put_clock (ns + (2 + Z.quot (batch_burst_bytes s) 120)) (prev_now s) s)
  else s.

Definition server_flush_queue (s : sendq) : sendq := put_queue [] 0 s.

(** ** Draining in terms of the queue's contents *)

(** The entries of one priority, and all of them in the order they go out. *)
Definition of_pri (p : Z) (q : list (Z * cstr)) : list (Z * cstr) := filter (fun e => e.1 = p) q.
Definition by_pri (q : list (Z * cstr)) : list (Z * cstr) :=
  of_pri 3 q ++ of_pri 2 q ++ of_pri 1 q ++ of_pri 0 q.
Definition bytes (q : list (Z * cstr)) : Z := Z.of_nat (length (concat (map snd q))).
Definition sent_now (now : Z) (e : Z * cstr) : sent := Sent now (Some e.1) e.2.

Lemma of_pri_app p q1 q2 : of_pri p (q1 ++ q2) = of_pri p q1 ++ of_pri p q2.
Proof. apply filter_app. Qed.

Lemma of_pri_same p b q : of_pri p ((p, b) :: q) = (p, b) :: of_pri p q.
Proof. unfold of_pri. by rewrite filter_cons_True. Qed.

Lemma of_pri_other p p' b q : p' <> p -> of_pri p ((p', b) :: q) = of_pri p q.
Proof. intros. unfold of_pri. by rewrite filter_cons_False. Qed.

Lemma bytes_cons e q : bytes (e :: q) = Z.of_nat (length e.2) + bytes q.
Proof. unfold bytes. simpl. rewrite length_app. lia. Qed.

Lemma bytes_app q1 q2 : bytes (q1 ++ q2) = bytes q1 + bytes q2.
Proof. unfold bytes. rewrite map_app, concat_app, length_app. lia. Qed.

Lemma find_pri_Some p q before buf after :
  find_pri p q = Some (before, buf, after) ->
  q = before ++ (p, buf) :: after /\ of_pri p before = [].
Proof.
  revert before; induction q as [|[p' b] q IH]; intros before; simpl; [done|].
  destruct (Z.eqb_spec p' p) as [->|Hne].
  - by intros [= <- -> ->].
  - destruct (find_pri p q) as [[[bf x] af]|]; simpl; [|done].
    intros [= <- <- <-]. destruct (IH bf eq_refl) as [-> Hb]. split; [done|].
    by rewrite of_pri_other.
Qed.

Lemma find_pri_None p q : find_pri p q = None -> of_pri p q = [].
Proof.
  induction q as [|[p' b] q IH]; simpl; [done|]. destruct (Z.eqb_spec p' p) as [->|Hne]; [done|].
  destruct (find_pri p q) as [[[bf x] af]|]; simpl; [done|]. intros _. rewrite of_pri_other by done. auto.
Qed.

(** What one line sent does, and what one drain does. *)
Record sends (now : Z) (s : sendq) (msgs : list (Z * cstr)) (s' : sendq) : Prop := {
  sends_wire : wire s' = wire s ++ map (sent_now now) msgs;
  sends_len : sendq_len s' = sendq_len s - bytes msgs;
  sends_timers : timers s' = timers s;
  sends_flags : is_server s' = is_server s /\ net_throttle s' = net_throttle s /\
    end_of_motd s' = end_of_motd s /\ batch_burst s' = batch_burst s }.

Lemma send_one_sends now pri buf rest s s' :
  send_one now pri buf rest s = Some s' ->
  sends now s [(pri, buf)] s' /\ outbound_queue s' = rest.
Proof.
  unfold send_one. intros E. assert (Hgo : forall ns, Some (put_queue rest (sendq_len s - Z.of_nat (length buf))
    (server_send_real now (Some pri) buf (put_queue (outbound_queue s) (sendq_len s - Z.of_nat (length buf))
      (put_clock (ns + (2 + Z.quot (tail_length buf) 120)) now s)))) = Some s' ->
    sends now s [(pri, buf)] s' /\ outbound_queue s' = rest).
  { intros ns [= <-]. split; [|done]. split; simpl; try done. rewrite bytes_cons. simpl.
    change (bytes []) with 0. lia. }
  destruct (10 <=? _); [destruct (_ <=? _); [done|]|]; by eapply Hgo.
Qed.

Lemma sends_trans now s m1 s1 m2 s2 : sends now s m1 s1 -> sends now s1 m2 s2 -> sends now s (m1 ++ m2) s2.
Proof.
  intros [W1 L1 T1 F1] [W2 L2 T2 F2]. split.
  - by rewrite W2, W1, map_app, app_assoc.
  - rewrite bytes_app. lia.
  - congruence.
  - naive_solver congruence.
Qed.

Lemma sends_refl now s : sends now s [] s.
Proof. split; simpl; rewrite ?app_nil_r; try done. change (bytes []) with 0. lia. Qed.

Lemma send_pri_spec fuel now p s :
  (length (outbound_queue s) < fuel)%nat ->
  exists s' stopped msgs, send_pri fuel now p s = (s', stopped) /\ sends now s msgs s' /\
    of_pri p (outbound_queue s) = msgs ++ of_pri p (outbound_queue s') /\
    (forall p', p' <> p -> of_pri p' (outbound_queue s') = of_pri p' (outbound_queue s)) /\
    (stopped = false -> of_pri p (outbound_queue s') = []) /\
    (stopped = true -> outbound_queue s' <> []).
Proof.
  revert s; induction fuel as [|fuel IH]; intros s Hf; [lia|]. cbn [send_pri].
  destruct (find_pri p (outbound_queue s)) as [[[before buf] after]|] eqn:Hfind.
  2: { exists s, false, []. split_and!; [done|apply sends_refl|done|done| |done].
       intros _. by apply find_pri_None. }
  apply find_pri_Some in Hfind as [Hq Hb].
  destruct (send_one now p buf (before ++ after) s) as [s1|] eqn:Hone.
  2: { exists s, true, []. split_and!; [done|apply sends_refl|done|done|done|]. intros _ E.
       rewrite E in Hq. by destruct before. }
  apply send_one_sends in Hone as [H1 Hq1].
  destruct (IH s1) as (s' & stopped & msgs & -> & H2 & Hp & Hother & Hstop & Hne).
  { rewrite Hq1. rewrite Hq in Hf. rewrite length_app in *. simpl in Hf. lia. }
  exists s', stopped, ((p, buf) :: msgs). split_and!; [done| | | |done|done].
  - by apply (sends_trans now s [(p, buf)] s1).
  - rewrite Hq, of_pri_app, of_pri_same, Hb. simpl. f_equal.
    rewrite <- Hp, Hq1, of_pri_app, Hb. done.
  - intros p' Hp'. rewrite Hother, Hq1, Hq, !of_pri_app, of_pri_other by done. done.
Qed.

Lemma of_pri_nil_all q : (forall e, e ∈ q -> e.1 = 0 \/ e.1 = 1 \/ e.1 = 2 \/ e.1 = 3) ->
  (forall p, of_pri p q = []) -> q = [].
Proof.
  intros Hv H. destruct q as [|[p b] q]; [done|]. specialize (H p). by rewrite of_pri_same in H.
Qed.

Lemma send_pris_spec pris now s :
  NoDup pris ->
  exists s' keep msgs, send_pris pris now s = (s', keep) /\ sends now s msgs s' /\
    concat (map (fun p => of_pri p (outbound_queue s)) pris) =
      msgs ++ concat (map (fun p => of_pri p (outbound_queue s')) pris) /\
    (forall p, p ∉ pris -> of_pri p (outbound_queue s') = of_pri p (outbound_queue s)) /\
    (keep = false -> forall p, p ∈ pris -> of_pri p (outbound_queue s') = []) /\
    (keep = true -> outbound_queue s' <> []).
Proof.
  intros Hnd. revert s; induction Hnd as [|p pris Hp Hnd IH]; intros s; cbn [send_pris].
  { exists s, false, []. split_and!; [done|apply sends_refl|done|done| |done].
    intros _ p H. by apply not_elem_of_nil in H. }
  destruct (send_pri_spec (S (length (outbound_queue s))) now p s (Nat.lt_succ_diag_r _))
    as (s1 & stopped & m1 & -> & H1 & Hp1 & Ho1 & Hs1 & Hn1).
  assert (Hrest : map (fun p => of_pri p (outbound_queue s1)) pris =
    map (fun p => of_pri p (outbound_queue s)) pris).
  { apply map_ext_in. intros p' Hin. apply Ho1. intros ->. apply Hp. by apply list_elem_of_In. }
  destruct stopped.
  - exists s1, true, m1. split_and!; [done|done| | |done|by auto].
    + simpl. by rewrite Hp1, Hrest, app_assoc.
    + intros p' [Hne _]%not_elem_of_cons. by apply Ho1.
  - destruct (IH s1) as (s' & keep & m2 & -> & H2 & Hp2 & Ho2 & Hk2 & Hn2).
    exists s', keep, (m1 ++ m2). split_and!; [done|by eapply sends_trans| | | |done].
    + simpl. rewrite Hp1, (Hs1 eq_refl), app_nil_r, <- Hrest, Hp2.
      rewrite (Ho2 p Hp), (Hs1 eq_refl). by rewrite app_assoc.
    + intros p' [Hne Hin]%not_elem_of_cons. rewrite Ho2, Ho1; done.
    + intros Hk p' [->|Hin]%elem_of_cons; [by rewrite (Ho2 p Hp), (Hs1 eq_refl)|by apply Hk2].
Qed.

Lemma tcp_send_queue_spec now s :
  is_server s = true -> Forall (fun e => 0 <= e.1 <= 3) (outbound_queue s) ->
  exists s' keep msgs, tcp_send_queue now s = (s', keep) /\ sends now s msgs s' /\
    by_pri (outbound_queue s) = msgs ++ by_pri (outbound_queue s') /\
    Forall (fun e => 0 <= e.1 <= 3) (outbound_queue s') /\
    (keep = false <-> outbound_queue s' = []).
Proof.
  intros Hs Hv. unfold tcp_send_queue. rewrite Hs. simpl negb. cbv iota.
  destruct (send_pris_spec [3; 2; 1; 0] now s) as (s' & keep & msgs & -> & H1 & H2 & H3 & H4 & H5).
  { by apply (bool_decide_unpack _); vm_compute. }
  exists s', keep, msgs.
  assert (Hby : forall q, concat (map (fun p => of_pri p q) [3; 2; 1; 0]) = by_pri q).
  { intros q. simpl. by rewrite app_nil_r. }
  rewrite !Hby in H2.
  assert (Hv' : Forall (fun e => 0 <= e.1 <= 3) (outbound_queue s')).
  { apply Forall_forall. intros [p b] Hin. simpl.
    destruct (decide (p ∈ [3; 2; 1; 0])) as [Hp|Hp].
    - repeat (apply elem_of_cons in Hp as [->|Hp]; [lia|]). by apply not_elem_of_nil in Hp.
    - specialize (H3 p Hp). rewrite Forall_forall in Hv.
      assert ((p, b) ∈ of_pri p (outbound_queue s)) as Hin' by (rewrite <- H3; by apply list_elem_of_filter).
      apply list_elem_of_filter in Hin' as [_ Hin']. by apply Hv in Hin'. }
  split_and!; [done|done|done|done|]. destruct keep; [split; [done|]; intros E; by destruct (H5 eq_refl)|].
  split; [|done]. intros _. destruct (outbound_queue s') as [|[p b] q]; [done|].
  apply Forall_cons in Hv' as [Hp _]. simpl in Hp.
  assert (p ∈ [3; 2; 1; 0]) as Hin.
  { assert (p = 3 \/ p = 2 \/ p = 1 \/ p = 0) as [-> | [-> | [-> | ->]]] by lia; by repeat constructor. }
  specialize (H4 eq_refl p Hin). by rewrite of_pri_same in H4.
Qed.

(** A property of the state that one line sent keeps is kept by the drain. *)
Section drain_ind.
Context (now : Z) (P : sendq -> Prop).
Hypothesis step : forall s pri buf rest s', P s -> send_one now pri buf rest s = Some s' -> P s'.

Lemma send_pri_ind fuel p s : P s -> P (send_pri fuel now p s).1.
Proof.
  revert s; induction fuel as [|fuel IH]; intros s Hs; cbn [send_pri]; [done|].
  destruct (find_pri p (outbound_queue s)) as [[[before buf] after]|]; [|done].
  destruct (send_one now p buf (before ++ after) s) eqn:E; [|done]. apply IH. by eapply step.
Qed.

Lemma tcp_send_queue_ind s : P s -> P (tcp_send_queue now s).1.
Proof.
  intros Hs. unfold tcp_send_queue. destruct (is_server s); [|done]. simpl negb. cbv iota.
  generalize [3; 2; 1; 0] as pris. intros pris. revert s Hs.
  induction pris as [|p pris IH]; intros s Hs; cbn [send_pris]; [done|].
  pose proof (send_pri_ind (S (length (outbound_queue s))) p s Hs) as H1.
  destruct (send_pri _ now p s) as [s1 stopped]. destruct stopped; [done|]. by apply IH.
Qed.
End drain_ind.

(** ** Histories *)

(** [qreach s clock queued base]: [s] is reached with the clock never running
    backwards; since the last flush, when the wire was [base], the lines
    [queued] went through the queue. *)
Inductive qreach `{G : GLib} : sendq -> Z -> list (Z * cstr) -> list sent -> Prop :=
| q_new clock throttle : qreach (SendQ true throttle false false 0 [] 0 0 clock 0 []) clock [] []
| q_send s clock now queued base buf :
    qreach s clock queued base -> clock <= now -> nonul buf ->
    qreach (tcp_send_len now buf s) now
      (if negb (net_throttle s) || negb (end_of_motd s) || batch_burst s then queued
       else queued ++ [(priority buf, buf)]) base
| q_tick s clock now queued base :
    qreach s clock queued base -> clock <= now -> (0 < timers s)%nat ->
    qreach (timer_tick now s) now queued base
| q_motd s clock queued base b :
    qreach s clock queued base ->
    qreach (SendQ (is_server s) (net_throttle s) b (batch_burst s) (batch_burst_bytes s)
      (outbound_queue s) (sendq_len s) (next_send s) (prev_now s) (timers s) (wire s)) clock queued base
| q_burst_begin s clock queued base : qreach s clock queued base -> qreach (burst_begin s) clock queued base
| q_burst_end s clock now queued base :
    qreach s clock queued base -> clock <= now -> qreach (burst_end now s) now queued base
| q_flush s clock queued base :
    qreach s clock queued base -> qreach (server_flush_queue s) clock [] (wire s).

(** The queued lines among those on the wire. *)
Definition from_queue (w : list sent) : list (Z * cstr) :=
  omap (fun x => p ← via x; Some (p, payload x)) w.

(** Line [j] of the queued lines leaves at the earliest two seconds per line
    after line [i], less the ten seconds of credit. *)
Definition paced (w : list sent) : Prop :=
  let q := filter (fun x => is_Some (via x)) w in
  forall i j x y, q !! i = Some x -> q !! j = Some y -> (i <= j)%nat ->
    2 * Z.of_nat (j - i) < at_time y - at_time x + 10.

Record qinv (s : sendq) (clock : Z) (queued : list (Z * cstr)) (base : list sent) : Prop := {
  qi_server : is_server s = true;
  qi_pris : Forall (fun e => 0 <= e.1 <= 3) (outbound_queue s);
  qi_len : sendq_len s = bytes (outbound_queue s);
  qi_timer : outbound_queue s <> [] -> (0 < timers s)%nat;
  qi_clock : prev_now s <= clock;
  qi_burst : 0 <= batch_burst_bytes s;
  qi_wire : exists w, wire s = base ++ w /\
    forall p, of_pri p queued = of_pri p (from_queue w) ++ of_pri p (outbound_queue s);
  qi_paced : paced (wire s) /\
    forall i x, filter (fun x => is_Some (via x)) (wire s) !! i = Some x ->
      at_time x + 2 * Z.of_nat (length (filter (fun x => is_Some (via x)) (wire s)) - i) <= next_send s }.

(** ** The invariant *)

Abbreviation queued_sends w := (filter (fun x => is_Some (via x)) w).

Definition on_time (s : sendq) : Prop :=
  paced (wire s) /\
  forall i x, queued_sends (wire s) !! i = Some x ->
    at_time x + 2 * Z.of_nat (length (queued_sends (wire s)) - i) <= next_send s.

Lemma queued_sends_app w1 w2 : queued_sends (w1 ++ w2) = queued_sends w1 ++ queued_sends w2.
Proof. apply filter_app. Qed.

Lemma tail_length_nonneg buf : 0 <= tail_length buf.
Proof. induction buf as [|c buf IH]; simpl; [done|]. destruct (c =c " "); lia. Qed.

Lemma from_queue_app w1 w2 : from_queue (w1 ++ w2) = from_queue w1 ++ from_queue w2.
Proof. apply omap_app. Qed.

Lemma from_queue_sent now msgs : from_queue (map (sent_now now) msgs) = msgs.
Proof.
  induction msgs as [|[p b] msgs IH]; [done|].
  change (from_queue (map (sent_now now) ((p, b) :: msgs))) with ((p, b) :: from_queue (map (sent_now now) msgs)).
  by rewrite IH.
Qed.

(** The throttle lets a line go only within ten seconds of credit. *)
Lemma send_one_clock now pri buf rest s s' :
  send_one now pri buf rest s = Some s' -> prev_now s <= now ->
  wire s' = wire s ++ [Sent now (Some pri) buf] /\ prev_now s' = now /\
  batch_burst_bytes s' = batch_burst_bytes s /\
  next_send s < now + 10 /\ Z.max (next_send s) now + 2 <= next_send s'.
Proof.
  unfold send_one. intros E Hc. pose proof (tail_length_nonneg buf) as Ht.
  pose proof (Z.quot_pos _ 120 Ht ltac:(lia)) as Hq.
  destruct (Z.leb_spec 10 ((if next_send s <? now then now else next_send s) - now)) as [H|H].
  - destruct (Z.leb_spec (prev_now s) now); [done|lia].
  - injection E as <-. simpl. revert H. destruct (Z.ltb_spec (next_send s) now); intros H'; split_and!; try done; lia.
Qed.

Lemma on_time_push s s' x :
  on_time s -> wire s' = wire s ++ [x] -> is_Some (via x) ->
  next_send s < at_time x + 10 -> Z.max (next_send s) (at_time x) + 2 <= next_send s' -> on_time s'.
Proof.
  intros [Hp Hn] Hw Hx Hlt Hle. unfold on_time, paced. rewrite Hw, queued_sends_app.
  assert (Hx' : queued_sends [x] = [x]) by (by rewrite filter_cons_True). rewrite Hx'.
  set (q := queued_sends (wire s)) in *. fold q in Hp. rewrite length_app. simpl. split.
  - intros i j y z Hi Hj Hij. apply lookup_snoc_Some in Hj as [[Hj1 Hj]|[-> <-]].
    + rewrite lookup_app_l in Hi by lia. by apply (Hp i j).
    + apply lookup_snoc_Some in Hi as [[Hi1 Hi]|[-> <-]].
      * specialize (Hn i y Hi). lia.
      * rewrite Nat.sub_diag. lia.
  - intros i y Hi. apply lookup_snoc_Some in Hi as [[Hi1 Hi]|[-> <-]].
    + specialize (Hn i y Hi). lia.
    + replace (length q + 1 - length q)%nat with 1%nat by lia. lia.
Qed.

Lemma on_time_direct s s' now buf :
  on_time s -> wire s' = wire s ++ [Sent now None buf] -> next_send s' = next_send s -> on_time s'.
Proof.
  intros H Hw Hn. unfold on_time, paced. rewrite Hw, Hn, queued_sends_app.
  assert (queued_sends [Sent now None buf] = []) as -> by (rewrite filter_cons_False; [done|by intros [? ?]]).
  rewrite app_nil_r. exact H.
Qed.

Lemma on_time_later s s' : on_time s -> wire s' = wire s -> next_send s <= next_send s' -> on_time s'.
Proof.
  intros [Hp Hn] Hw Hle. unfold on_time. rewrite Hw. split; [done|].
  intros i x Hi. specialize (Hn i x Hi). lia.
Qed.

(** The parts of the invariant every single line keeps. *)
Definition on_schedule (clock : Z) (s : sendq) : Prop :=
  on_time s /\ prev_now s <= clock /\ 0 <= batch_burst_bytes s.

Lemma tcp_send_queue_schedule now s :
  on_schedule now s -> on_schedule now (tcp_send_queue now s).1.
Proof.
  apply tcp_send_queue_ind. clear s. intros s pri buf rest s' (Hot & Hc & Hb) E.
  destruct (send_one_clock now pri buf rest s s' E Hc) as (Hw & Hp & Hbb & Hlt & Hle).
  split; [|lia]. by apply (on_time_push s s' (Sent now (Some pri) buf)).
Qed.

Lemma of_pri_filter_by_pri p q : Forall (fun e => 0 <= e.1 <= 3) q -> of_pri p (by_pri q) = of_pri p q.
Proof.
  intros Hv. unfold by_pri. rewrite !of_pri_app.
  assert (Hother : forall k, k <> p -> of_pri p (of_pri k q) = []).
  { intros k Hk. unfold of_pri. rewrite list_filter_filter. induction q as [|e q IH]; [done|].
    apply Forall_cons in Hv as [_ Hv]. rewrite filter_cons_False by naive_solver congruence. by apply IH. }
  assert (Hsame : of_pri p (of_pri p q) = of_pri p q).
  { unfold of_pri. rewrite list_filter_filter. apply list_filter_iff. naive_solver. }
  destruct (decide (0 <= p <= 3)) as [Hp|Hp].
  - assert (p = 0 \/ p = 1 \/ p = 2 \/ p = 3) as [-> | [-> | [-> | ->]]] by lia;
      rewrite Hsame, !Hother by lia; by rewrite ?app_nil_r.
  - rewrite !Hother by lia. simpl. symmetry. clear -Hv Hp.
    induction Hv as [|[k b] q Hk Hv IH]; [done|]. rewrite of_pri_other; [done|]. simpl in Hk. lia.
Qed.

Lemma priority_range `{GLib} buf : 0 <= priority buf <= 3.
Proof. unfold priority. repeat (case_match; try lia). Qed.

Lemma bytes_by_pri q : Forall (fun e => 0 <= e.1 <= 3) q -> bytes (by_pri q) = bytes q.
Proof.
  induction 1 as [|[p b] q Hp Hq IH]; [done|]. simpl in Hp. rewrite bytes_cons, <- IH. simpl.
  unfold by_pri. rewrite !bytes_app.
  assert (p = 0 \/ p = 1 \/ p = 2 \/ p = 3) as [-> | [-> | [-> | ->]]] by lia;
    rewrite of_pri_same, bytes_cons; rewrite !(of_pri_other _ _ b) by lia; simpl; lia.
Qed.

(** Running the queue keeps the invariant. *)
Lemma qinv_drain s clock now queued base s' keep :
  qinv s clock queued base -> clock <= now -> tcp_send_queue now s = (s', keep) ->
  (keep = false <-> outbound_queue s' = []) /\
  (forall n, (keep = true -> (0 < n)%nat) -> qinv (put_timers n s') now queued base) /\ timers s' = timers s.
Proof.
  intros I Hc E. destruct I as [I1 I2 I3 I4 I5 I6 (w & I7 & I8) I9].
  destruct (tcp_send_queue_spec now s I1 I2) as (s1 & k1 & msgs & E1 & S & Hby & Hv & Hk).
  rewrite E in E1. injection E1 as <- <-. destruct S as [W L T (F1 & F2 & F3 & F4)].
  split; [done|]. split; [|done]. intros n Hn.
  pose proof (tcp_send_queue_schedule now s (conj I9 (conj (Z.le_trans _ _ _ I5 Hc) I6))) as Hs.
  rewrite E in Hs. destruct Hs as (Hot & Hpn & Hbb). split; simpl; try done.
  - congruence.
  - assert (bytes (by_pri (outbound_queue s)) = bytes msgs + bytes (by_pri (outbound_queue s')))
      as Hb by (by rewrite Hby, bytes_app).
    rewrite !bytes_by_pri in Hb by done. lia.
  - intros Hne. apply Hn. destruct keep; [done|]. by destruct Hne; apply Hk.
  - exists (w ++ map (sent_now now) msgs). split; [by rewrite W, I7, app_assoc|].
    intros p. rewrite from_queue_app, from_queue_sent, of_pri_app, I8, <- app_assoc. f_equal.
    rewrite <- (of_pri_filter_by_pri p (outbound_queue s)), Hby, of_pri_app by done.
    by rewrite of_pri_filter_by_pri.
Qed.

(** Timers play no part in draining. *)
Lemma put_timers_id s : put_timers (timers s) s = s.
Proof. by destruct s. Qed.

Lemma send_pri_timers fuel now p n s :
  send_pri fuel now p (put_timers n s) =
  (put_timers n (send_pri fuel now p s).1, (send_pri fuel now p s).2).
Proof.
  revert s; induction fuel as [|fuel IH]; intros s; cbn [send_pri]; [done|].
  change (outbound_queue (put_timers n s)) with (outbound_queue s).
  destruct (find_pri p (outbound_queue s)) as [[[before buf] after]|]; [|done].
  assert (send_one now p buf (before ++ after) (put_timers n s) =
    put_timers n <$> send_one now p buf (before ++ after) s) as ->.
  { unfold send_one. simpl. destruct (10 <=? _); [destruct (_ <=? _)|]; done. }
  destruct (send_one _ _ _ _ s) as [s1|]; simpl; [apply IH|done].
Qed.

Lemma tcp_send_queue_timers now n s s' keep :
  tcp_send_queue now s = (s', keep) -> tcp_send_queue now (put_timers n s) = (put_timers n s', keep).
Proof.
  unfold tcp_send_queue. change (is_server (put_timers n s)) with (is_server s).
  destruct (negb (is_server s)); [by intros [= <- <-]|].
  generalize [3; 2; 1; 0] as pris. intros pris. revert s.
  induction pris as [|p pris IH]; intros s; cbn [send_pris]; [by intros [= <- <-]|].
  change (outbound_queue (put_timers n s)) with (outbound_queue s). rewrite send_pri_timers.
  destruct (send_pri _ now p s) as [s1 []]; simpl; [by intros [= <- <-]|apply IH].
Qed.

Lemma tcp_send_queue_keeps_timers now s : timers (tcp_send_queue now s).1 = timers s.
Proof.
  apply (tcp_send_queue_ind now (fun s' => timers s' = timers s)); [|done].
  intros s0 pri buf rest s' H0 E. apply send_one_sends in E as [[_ _ E _] _]. congruence.
Qed.

Lemma index_of_NUL buf : nonul buf -> index_of NUL buf = None.
Proof. intros H. apply index_of_None. intros Hin. unfold nonul in H. rewrite Forall_forall in H. by apply (H NUL). Qed.

Lemma qinv_send `{GLib} s clock now queued base buf :
  qinv s clock queued base -> clock <= now -> nonul buf ->
  qinv (tcp_send_len now buf s) now
    (if negb (net_throttle s) || negb (end_of_motd s) || batch_burst s then queued
     else queued ++ [(priority buf, buf)]) base.
Proof.
  intros I Hc Hbuf. unfold tcp_send_len. destruct (negb (net_throttle s) || _ || _).
  - assert (Hd : forall s1, outbound_queue s1 = outbound_queue s -> sendq_len s1 = sendq_len s ->
      timers s1 = timers s -> prev_now s1 = prev_now s -> is_server s1 = is_server s ->
      0 <= batch_burst_bytes s1 -> wire s1 = wire s -> next_send s1 = next_send s ->
      qinv (server_send_real now None buf s1) now queued base).
    { destruct I as [I1 I2 I3 I4 I5 I6 (w & I7 & I8) I9].
      intros s1 E1 E2 E3 E4 E5 E6 E7 E8. split; simpl; rewrite ?E1, ?E2, ?E3, ?E4, ?E5; try done; try lia.
      - exists (w ++ [Sent now None buf]). split; [by rewrite E7, I7, app_assoc|].
        intros p. rewrite from_queue_app. simpl. by rewrite app_nil_r.
      - apply (on_time_direct s (server_send_real now None buf s1) now buf I9); simpl; congruence. }
    pose proof (qi_burst _ _ _ _ I). destruct (batch_burst s); apply Hd; simpl; try done; lia.
  - rewrite index_of_NUL by done. cbn [default id from_option]. rewrite firstn_all.
    set (s1 := put_queue _ _ s).
    assert (I1 : qinv (put_timers (S (timers s)) s1) clock (queued ++ [(priority buf, buf)]) base).
    { destruct I as [I1 I2 I3 I4 I5 I6 (w & I7 & I8) I9]. split; simpl; try done; try lia.
      - apply Forall_app. split; [done|]. constructor; [apply priority_range|constructor].
      - rewrite bytes_app, bytes_cons, I3. change (bytes []) with 0. simpl. lia.
      - exists w. split; [done|]. intros p. by rewrite !of_pri_app, I8, app_assoc. }
    destruct (tcp_send_queue now s1) as [s' keep] eqn:E.
    assert (E' : tcp_send_queue now (put_timers (S (timers s)) s1) = (put_timers (S (timers s)) s', keep)).
    { by apply tcp_send_queue_timers. }
    destruct (qinv_drain _ _ now _ _ _ _ I1 Hc E') as (Hk & Hall & _).
    pose proof (tcp_send_queue_keeps_timers now s1) as Ht. rewrite E in Ht. cbn [fst] in Ht.
    change (timers s1) with (timers s) in Ht.
    assert (Hput : forall n, put_timers n (put_timers (S (timers s)) s') = put_timers n s') by done.
    destruct (outbound_queue s) as [|e q] eqn:Eq; destruct keep; cbn [andb].
    + rewrite Ht, <- Hput. apply Hall. lia.
    + rewrite <- (put_timers_id s'), <- Hput. apply Hall. done.
    + rewrite <- (put_timers_id s'), <- Hput. apply Hall. intros _. rewrite Ht.
      apply (qi_timer _ _ _ _ I). by rewrite Eq.
    + rewrite <- (put_timers_id s'), <- Hput. apply Hall. done.
Qed.

Lemma qreach_inv `{GLib} s clock queued base : qreach s clock queued base -> qinv s clock queued base.
Proof.
  induction 1 as [clock throttle|s clock now queued base buf _ I Hc Hb|s clock now queued base _ I Hc Ht
    |s clock queued base b _ I|s clock queued base _ I|s clock now queued base _ I Hc|s clock queued base _ I].
  - split; simpl; try done; try lia. by exists [].
  - by apply (qinv_send s clock).
  - unfold timer_tick. destruct (tcp_send_queue now s) as [s' keep] eqn:E.
    destruct (qinv_drain s clock now queued base s' keep I Hc E) as (Hk & Hall & Ht').
    destruct keep.
    + rewrite <- (put_timers_id s'). apply Hall. intros _. by rewrite Ht'.
    + by apply Hall.
  - destruct I as [I1 I2 I3 I4 I5 I6 I7 I8]. by split.
  - destruct I as [I1 I2 I3 I4 I5 I6 I7 I8]. by split.
  - unfold burst_end. destruct I as [I1 I2 I3 I4 I5 I6 I7 I8].
    destruct (batch_burst s); [|split; simpl; try done; lia].
    pose proof (Z.quot_pos _ 120 I6 ltac:(lia)). split; simpl; try done; try lia.
    refine (on_time_later s (put_clock ((if next_send s <? now then now else next_send s) +
      (2 + Z.quot (batch_burst_bytes s) 120)) 0 s) I8 eq_refl _). simpl.
    destruct (Z.ltb_spec (next_send s) now); lia.
  - destruct I as [I1 I2 I3 I4 I5 I6 I7 I8]. split; simpl; try done.
    exists []. split; [by rewrite app_nil_r|]. intros p. done.
Qed.

(** ** Priorities *)

Lemma skip_spaces_stop s : (forall c, head s = Some c -> c <> " "%char) -> skip_spaces s = s.
Proof.
  destruct s as [|c s]; [done|]. intros H. simpl. destruct (Ascii.eqb_spec c " "); [|done].
  by destruct (H c eq_refl).
Qed.

Lemma index_of_space s t : " "%char ∉ s -> index_of " " (s ++ " "%char :: t) = Some (length s).
Proof.
  induction s as [|c s IH]; intros Hs; simpl; [done|]. apply not_elem_of_cons in Hs as [Hc Hs].
  destruct (Ascii.eqb_spec c " "); [congruence|]. by rewrite IH.
Qed.

Lemma before_space_word c w rest :
  " "%char ∉ w -> c <> " "%char -> (rest = [] \/ exists t, rest = " "%char :: t) ->
  before_space c (w ++ rest) = bool_decide (c ∈ w).
Proof.
  intros Hw Hc Hrest. unfold before_space. destruct (index_of c (w ++ rest)) as [i|] eqn:Hi.
  - destruct (decide (c ∈ w)) as [Hin|Hin].
    + rewrite bool_decide_true by done.
      assert (Hlt : (i < length w)%nat).
      { clear -Hi Hin. revert i Hi Hin. induction w as [|d w IH]; intros i Hi Hin.
        - by apply not_elem_of_nil in Hin.
        - simpl in Hi. destruct (Ascii.eqb_spec d c); [simplify_eq; simpl; lia|].
          apply elem_of_cons in Hin as [->|Hin]; [done|].
          destruct (index_of c (w ++ rest)) as [k|]; [|done]. simpl in Hi. simplify_eq.
          specialize (IH k eq_refl Hin). simpl. lia. }
      destruct Hrest as [->|(t & ->)].
      * rewrite app_nil_r. apply index_of_None in Hw. by rewrite Hw.
      * rewrite index_of_space by done. by apply Nat.ltb_lt.
    + rewrite bool_decide_false by done. apply index_of_Some in Hi as Hl.
      destruct Hrest as [->|(t & ->)].
      * rewrite app_nil_r in Hl. exfalso. apply Hin. by eapply list_elem_of_lookup_2.
      * rewrite index_of_space by done. apply Nat.ltb_ge.
        destruct (decide (i < length w)%nat) as [Hlt|]; [|lia]. exfalso.
        rewrite lookup_app_l in Hl by done. apply Hin. by eapply list_elem_of_lookup_2.
  - apply index_of_None in Hi. rewrite bool_decide_false; [done|]. set_solver.
Qed.

Lemma mode_is_query_spec chan modes rest :
  chan <> [] -> " "%char ∉ chan -> modes <> [] -> " "%char ∉ modes ->
  (rest = [] \/ exists t, rest = " "%char :: t) ->
  mode_is_query ("MODE " ++ chan ++ " "%char :: modes ++ rest) =
  negb (bool_decide ("-"%char ∈ modes) || bool_decide ("+"%char ∈ modes)).
Proof.
  intros Hc Hcs Hm Hms Hrest. unfold mode_is_query.
  assert (Hd : drop 4 ("MODE " ++ chan ++ " "%char :: modes ++ rest) =
    " "%char :: (chan ++ " "%char :: modes ++ rest)) by done.
  rewrite Hd. simpl. rewrite skip_spaces_stop.
  2: { destruct chan as [|c chan]; [done|]. intros ? [= <-]. set_solver. }
  rewrite index_of_space, drop_app_length by done. simpl. rewrite skip_spaces_stop.
  2: { destruct modes as [|c modes]; [done|]. intros ? [= <-]. set_solver. }
  by rewrite !before_space_word by done.
Qed.

Lemma starts_with_spec (G : GLib) (GL : GLibLaws G) buf cmd :
  nonul buf -> nonul (list_ascii_of_string cmd) ->
  starts_with buf cmd =
  bool_decide (map ascii_lower (take (String.length cmd) buf) = map ascii_lower (list_ascii_of_string cmd)).
Proof.
  intros Hb Hc. unfold starts_with.
  assert (Hlen : length (list_ascii_of_string cmd) = String.length cmd)
    by (clear; induction cmd; simpl; congruence).
  assert (Ht : take (String.length cmd) (list_ascii_of_string cmd) = list_ascii_of_string cmd)
    by (rewrite <- Hlen; apply firstn_all).
  pose proof (g_ascii_strncasecmp_zero buf cmd (String.length cmd) Hb Hc) as H.
  rewrite Ht in H. destruct (Z.eqb_spec (g_ascii_strncasecmp buf cmd (String.length cmd)) 0) as [E|E].
  - symmetry. apply bool_decide_eq_true. by apply H.
  - symmetry. apply bool_decide_eq_false. intros E'. by apply E, H.
Qed.

(** A connected server with an empty queue. *)
Definition online : sendq := SendQ true true true false 0 [] 0 0 0 0 [].

(** ** Properties *)

(** One run of the queue sends a prefix of the queued lines taken in order of
    falling priority and, within a priority, in the order they were queued; the
    rest stays queued in its order, the byte count follows, and the handler
    asks to keep its timer exactly when something is left. *)
Theorem tcp_send_queue_in_order now s :
  is_server s = true -> Forall (fun e => 0 <= e.1 <= 3) (outbound_queue s) ->
  exists msgs, by_pri (outbound_queue s) = msgs ++ by_pri (outbound_queue (tcp_send_queue now s).1) /\
    wire (tcp_send_queue now s).1 = wire s ++ map (sent_now now) msgs /\
    sendq_len (tcp_send_queue now s).1 = sendq_len s - bytes msgs /\
    ((tcp_send_queue now s).2 = false <-> outbound_queue (tcp_send_queue now s).1 = []).
Proof.
  intros Hs Hv. destruct (tcp_send_queue_spec now s Hs Hv) as (s' & keep & msgs & -> & [W L _ _] & Hb & _ & Hk).
  by exists msgs.
Qed.

(** C5. Over any history of sends, timer ticks, bursts and flushes with a clock
    that does not run backwards: no queued line is lost, duplicated or reordered
    within its priority; [sendq_len] is the number of queued bytes; a timer runs
    while something is queued; and between two queued lines leaving the socket
    there are at least two seconds per line less ten seconds of credit. *)
Theorem sendqueue_history (G : GLib) s clock queued base :
  qreach s clock queued base ->
  (exists w, wire s = base ++ w /\
     forall p, of_pri p queued = of_pri p (from_queue w) ++ of_pri p (outbound_queue s)) /\
  sendq_len s = bytes (outbound_queue s) /\
  (outbound_queue s <> [] -> (0 < timers s)%nat) /\
  paced (wire s).
Proof.
  intros H. apply qreach_inv in H as [_ _ H3 H4 _ _ H7 [H8 _]]. by split_and!.
Qed.

(** A MODE line is a query, and waits behind everything else, exactly when
    its mode word has no sign; with a sign it goes with the user's commands. *)
Theorem mode_line_priority (G : GLib) chan modes rest :
  GLibLaws G -> nonul (chan ++ modes ++ rest) ->
  chan <> [] -> " "%char ∉ chan -> modes <> [] -> " "%char ∉ modes ->
  (rest = [] \/ exists t, rest = " "%char :: t) ->
  priority ("MODE " ++ chan ++ " "%char :: modes ++ rest) =
  if bool_decide ("-"%char ∈ modes) || bool_decide ("+"%char ∈ modes) then 3 else 0.
Proof.
  intros GL Hnul Hc Hcs Hm Hms Hrest. set (l := "MODE " ++ chan ++ " "%char :: modes ++ rest).
  assert (Hl : nonul l).
  { subst l. apply nonul_app in Hnul as [? [? ?]%nonul_app]. apply nonul_app. split.
    - by repeat constructor.
    - apply nonul_app. split; [done|]. apply nonul_cons. split; [done|]. by apply nonul_app. }
  assert (Hsw : forall cmd : string, (1 <= String.length cmd <= 5)%nat \/ True -> nonul (list_ascii_of_string cmd) ->
    starts_with l cmd = bool_decide (map ascii_lower (take (String.length cmd) l) =
      map ascii_lower (list_ascii_of_string cmd))) by (intros; by apply starts_with_spec).
  unfold priority. rewrite !Hsw by (by repeat constructor || by right).
  assert (Hne : forall cmd : string, ascii_lower (default NUL (head (list_ascii_of_string cmd))) <> "m"%char ->
    (0 < String.length cmd)%nat ->
    bool_decide (map ascii_lower (take (String.length cmd) l) = map ascii_lower (list_ascii_of_string cmd)) = false).
  { intros cmd H1 H2. apply bool_decide_eq_false. destruct cmd as [|c cmd]; [simpl in H2; lia|].
    simpl. intros [= E _]. simpl in H1. by rewrite <- E in H1. }
  rewrite (Hne "PRIVMSG"), (Hne "NOTICE"), (Hne "CHATHISTORY "), (Hne "WHO ") by (done || simpl; lia).
  change (peek l =c "@") with false. cbn [orb andb].
  assert (bool_decide (map ascii_lower (take (String.length "MARKREAD ") l) =
    map ascii_lower (list_ascii_of_string "MARKREAD ")) = false) as ->.
  { apply bool_decide_eq_false. subst l. simpl. intros [= ]. }
  rewrite bool_decide_true by done. subst l. rewrite mode_is_query_spec by done.
  by destruct (_ || _).
Qed.

(** [tcp_sendf] passes formatted text of at most 1538 bytes on unchanged and
    cuts longer text to its first 1538 bytes, its CR LF lost; at exactly 1539
    bytes it passes the terminating NUL on as part of the line. *)
Theorem tcp_sendf_truncation formatted :
  tcp_sendf_bytes formatted =
  if decide (length formatted <= 1538)%nat then formatted
  else if decide (length formatted = 1539%nat) then take 1538 formatted ++ [NUL]
  else take 1538 formatted.
Proof.
  unfold tcp_sendf_bytes. change (Z.to_nat (SEND_BUF - 1 - 1)) with 1538%nat.
  change (SEND_BUF - 1) with 1539.
  assert (Hlen : length (take 1538 formatted) = Nat.min 1538 (length formatted)) by apply length_take.
  destruct (Z.ltb_spec 1539 (Z.of_nat (length formatted))) as [H|H].
  - rewrite !decide_False by lia. rewrite Nat2Z.id. by rewrite take_app_length.
  - rewrite Nat2Z.id. destruct (decide (length formatted <= 1538)%nat) as [H'|H'].
    + rewrite (take_ge formatted) by lia. by rewrite take_app_length.
    + rewrite decide_True by lia.
      rewrite take_app_ge by lia. f_equal. rewrite Hlen, take_replicate.
      replace (length formatted `min` (length formatted))%nat with (length formatted) by lia.
      by replace ((length formatted - 1538 `min` length formatted) `min` length formatted)%nat with 1%nat by lia.
Qed.

(** The lines of a multiline batch go straight to the socket: they overtake
    a PRIVMSG the throttle still holds back. *)
Theorem batch_burst_overtakes :
  let line n : cstr := "PRIVMSG #a :" ++ [n] ++ [CR; LF] in
  let batched : cstr := "@batch=b PRIVMSG #a :x" ++ [CR; LF] in
  let s := foldl (fun s n => tcp_send_len 0 (line n) s) online ["1"; "2"; "3"; "4"; "5"; "6"]%char in
  let s' := tcp_send_len 0 batched (burst_begin s) in
  payload <$> wire s' = map line ["1"; "2"; "3"; "4"; "5"]%char ++ [batched] /\
  outbound_queue s' = [(2, line "6"%char)].
Proof. by vm_compute. Qed.

(** ** Witnesses *)

Lemma tcp_send_queue_in_order_witness :
  let q := [(0, "WHO #a" : cstr); (3, "JOIN #b" : cstr); (2, "PRIVMSG #a :x" : cstr); (3, "NICK y" : cstr)] in
  let s := put_queue q (bytes q) online in
  exists msgs, by_pri q = msgs ++ by_pri (outbound_queue (tcp_send_queue 0 s).1) /\ length msgs = 4%nat.
Proof.
  intros q s. destruct (tcp_send_queue_in_order 0 s) as (msgs & H & _ & _ & Hk).
  - reflexivity.
  - repeat (constructor; [simpl; lia|]). constructor.
  - exists msgs. split; [exact H|].
    assert (E : outbound_queue (tcp_send_queue 0 s).1 = []) by (by vm_compute).
    rewrite E, app_nil_r in H. rewrite <- H. reflexivity.
Defined.

Lemma online_reach : qreach (G := glib_ref) online 0 [] [].
Proof. exact (q_motd _ _ _ _ true (q_new 0 true)). Qed.

Lemma sendqueue_history_witness :
  paced (wire (tcp_send_len 5 "PRIVMSG #a :two" (tcp_send_len 0 "PRIVMSG #a :one" online))).
Proof.
  destruct (sendqueue_history glib_ref (tcp_send_len 5 "PRIVMSG #a :two" (tcp_send_len 0 "PRIVMSG #a :one" online))
    5 [(2, "PRIVMSG #a :one" : cstr); (2, "PRIVMSG #a :two" : cstr)] []) as (_ & _ & _ & H); [|exact H].
  refine (q_send _ 0 5 [(2, "PRIVMSG #a :one" : cstr)] [] "PRIVMSG #a :two" _ _ _).
  - refine (q_send online 0 0 [] [] "PRIVMSG #a :one" online_reach _ _); [lia|].
    by apply (bool_decide_unpack _); vm_compute.
  - lia.
  - by apply (bool_decide_unpack _); vm_compute.
Defined.

Lemma mode_line_priority_witness :
  priority ("MODE #c +o bob" ++ [CR; LF]) = 3 /\ priority ("MODE #c b" ++ [CR; LF]) = 0.
Proof.
  split.
  - pose proof (mode_line_priority glib_ref "#c" "+o" (" bob" ++ [CR; LF]) glib_ref_laws) as H.
    apply H; try done; try (by apply (bool_decide_unpack _); vm_compute). right. by eexists.
  - pose proof (mode_line_priority glib_ref "#c" ("b" ++ [CR; LF]) [] glib_ref_laws) as H.
    apply H; try done; try (by apply (bool_decide_unpack _); vm_compute). by left.
Defined.
