(* ===== verification/Server.v ===== *)
(** * Lines, labels and small services of a server (src/common/server.c)

    Line assembly from socket reads, base64 for proxy authentication, labels
    and the sweep of stale ones, CLIENTTAGDENY, and remembered away messages. *)
From S2P Require Import Prelude Glib Casemap Text Access SendQueue UserlistSpec.

(** ** Line assembly *)

Definition LINEBUF : Z := 8704.

(** [linebuf] up to [pos], the calls of [server_inline] so far; [None] is a
    write outside the buffer. *)
Record reader := Reader { linebuf : cstr; inlined : list cstr }.

Definition read_byte (r : reader) (c : ascii) : option reader :=
  let pos := Z.of_nat (length (linebuf r)) in
  if c =c CR then Some r
  else if LINEBUF <=? pos then None
  else if c =c LF then Some (Reader [] (inlined r ++ [linebuf r]))
  else if LINEBUF - 1 <=? pos then Some r
  else Some (Reader (linebuf r ++ [c]) (inlined r)).

Fixpoint read_chunk (lbuf : cstr) (r : reader) : option reader :=
  match lbuf with
  | [] => Some r
  | c :: lbuf => r ← read_byte r c; read_chunk lbuf r
  end.

(** [server_read] over the chunks successive calls of [recv] return. *)
Fixpoint server_read (chunks : list cstr) (r : reader) : option reader :=
  match chunks with
  | [] => Some r
  | c :: chunks => r ← read_chunk c r; server_read chunks r
  end.

(** ** base64 *)

Definition tab64 : cstr := "ABCDEFGHIJKLMNOPQRSTUVWXYZabcdefghijklmnopqrstuvwxyz0123456789+/".

Definition tab64_at (i : Z) : ascii := default NUL (zlookup tab64 i).

(** [from[]] is an array of (signed) char. *)
Definition three_to_four (f0 f1 f2 : ascii) : cstr :=
  [tab64_at (Z.land (Z.shiftr (schar f0) 2) 63);
   tab64_at (Z.land (Z.lor (Z.shiftl (schar f0) 4) (Z.shiftr (schar f1) 4)) 63);
   tab64_at (Z.land (Z.lor (Z.shiftl (schar f1) 2) (Z.shiftr (schar f2) 6)) 63);
   tab64_at (Z.land (schar f2) 63)].

Fixpoint base64_encode (from : cstr) : cstr :=
  match from with
  | f0 :: f1 :: f2 :: rest => three_to_four f0 f1 f2 ++ base64_encode rest
  | [f0; f1] => take 3 (three_to_four f0 f1 NUL) ++ ["="%char]
  | [f0] => take 2 (three_to_four f0 NUL NUL) ++ ["="; "="]%char
  | [] => []
  end.

(** ** Labels *)

Definition u32_text (n : Z) : cstr := decimal 10 n [].

(** [g_strdup_printf ("hc%u", serv->label_counter++)]: the label, the next count. *)
Definition tcp_generate_label (label_counter : Z) : cstr * Z :=
  ("hc" ++ u32_text label_counter, wrap_u32 (label_counter + 1)).

(** [g_snprintf] into a buffer of 1600 bytes: what is passed on. *)
Definition snprintf_1600 (s : cstr) : cstr := take 1599 s.

(** The label, the next count and the bytes for [tcp_send_len]; [cmd_buf] is
    the formatted command, cut like [tcp_sendf] cuts it. *)
Definition tcp_vsendf_labeled (have_labeled_response : bool) (label_counter : Z) (formatted : cstr)
    : option cstr * Z * cstr :=
  if negb have_labeled_response then (None, label_counter, tcp_sendf_bytes formatted)
  else
    let '(label, counter) := tcp_generate_label label_counter in
    (Some label, counter, snprintf_1600 ("@label=" ++ label ++ " " ++ take 1538 formatted)).

Definition tcp_vsendf_labeled_with_tags (have_labeled_response : bool) (label_counter : Z)
    (extra_tags formatted : cstr) : option cstr * Z * cstr :=
  let cmd_buf := take 1538 formatted in
  if negb have_labeled_response then
    match extra_tags with
    | [] => (None, label_counter, tcp_sendf_bytes formatted)
    | _ => (None, label_counter, snprintf_1600 ("@" ++ extra_tags ++ " " ++ cmd_buf))
    end
  else
    let '(label, counter) := tcp_generate_label label_counter in
    (Some label, counter,
     snprintf_1600 (match extra_tags with
                    | [] => "@label=" ++ label ++ " " ++ cmd_buf
                    | _ => "@label=" ++ label ++ ";" ++ extra_tags ++ " " ++ cmd_buf
                    end)).

(** ** The stale sweep *)

Definition STALE_LABEL_TIMEOUT : Z := 60.
Definition STALE_BATCH_TIMEOUT : Z := 120.

Record pending_label := PendingLabel { command : cstr; target : option cstr; sent_time : Z }.
Record batch_info := BatchInfo { batch_label : option cstr; started : Z }.

Record labels := Labels {
  pending_labels : gmap cstr pending_label;
  active_batches : gmap cstr batch_info;
  stale_sweep_timer : bool }.

(** [check_stale_label] over the table: the stale keys, last one first. *)
Definition stale_label_keys (now : Z) (m : gmap cstr pending_label) : list cstr :=
  foldl (fun keys kv => if STALE_LABEL_TIMEOUT <? now - sent_time kv.2 then kv.1 :: keys else keys)
    [] (map_to_list m).

Definition stale_batch_keys (now : Z) (m : gmap cstr batch_info) : list cstr :=
  foldl (fun keys kv => if STALE_BATCH_TIMEOUT <? now - started kv.2 then kv.1 :: keys else keys)
    [] (map_to_list m).

(** One round of the loop over stale batches. *)
Definition drop_batch (t : gmap cstr pending_label * gmap cstr batch_info) (id : cstr)
    : gmap cstr pending_label * gmap cstr batch_info :=
  let '(pl, ab) := t in
  (match ab !! id with
   | Some b => match batch_label b with Some l => delete l pl | None => pl end
   | None => pl
   end, delete id ab).

(** The flag is the C function's result: keep the timer. *)
Definition stale_sweep_cb (now : Z) (t : labels) : labels * bool :=
  let pl := foldl (fun m k => delete k m) (pending_labels t) (stale_label_keys now (pending_labels t)) in
  let labels_left := negb (size pl =? 0)%nat in
  let '(pl, ab) := foldl drop_batch (pl, active_batches t) (stale_batch_keys now (active_batches t)) in
  let have_entries := labels_left || negb (size ab =? 0)%nat in
  (Labels pl ab (have_entries && stale_sweep_timer t), have_entries).

Definition server_ensure_stale_sweep_timer (t : labels) : labels :=
  Labels (pending_labels t) (active_batches t) true.

(** The tracking part of [tcp_sendf_labeled_tracked]. *)
Definition track_label (now : Z) (label command : cstr) (target : option cstr) (t : labels) : labels :=
  server_ensure_stale_sweep_timer
    (Labels (<[label := PendingLabel command target now]> (pending_labels t)) (active_batches t)
       (stale_sweep_timer t)).

(** ** CLIENTTAGDENY *)

Definition tag_item `{GLib} (tag : cstr) (allowed : bool) (it : cstr) : bool :=
  if bool_decide (it = ("*" : string)) then false
  else if (peek it =c "-") && (g_ascii_strcasecmp (drop 1 it) tag =? 0) then true
  else if g_ascii_strcasecmp it tag =? 0 then false
  else allowed.

Definition server_client_tag_allowed `{GLib} (client_tag_deny : option cstr) (tag : cstr) : bool :=
  match client_tag_deny with
  | None => true
  | Some deny => foldl (tag_item tag) true (g_strsplit deny ",")
  end.

(** ** Away messages *)

Record away_msg := AwayMsg { away_server : nat; away_nick : cstr; away_message : cstr }.

Section away.
Context `{GLib} (p_cmp : cstr -> cstr -> Z).

Fixpoint server_away_find_message (serv : nat) (nick : cstr) (away_list : list away_msg)
    : option away_msg :=
  match away_list with
  | [] => None
  | a :: l =>
      if (away_server a =? serv)%nat && (p_cmp nick (away_nick a) =? 0) then Some a
      else server_away_find_message serv nick l
  end.

(** The entry [server_away_find_message] finds gets the new message. *)
Fixpoint set_found_message (serv : nat) (nick msg : cstr) (away_list : list away_msg) : list away_msg :=
  match away_list with
  | [] => []
  | a :: l =>
      if (away_server a =? serv)%nat && (p_cmp nick (away_nick a) =? 0)
      then AwayMsg (away_server a) (away_nick a) msg :: l
      else a :: set_found_message serv nick msg l
  end.

Definition server_away_save_message (serv : nat) (nick msg : cstr) (away_list : list away_msg)
    : option (list away_msg) :=
  match server_away_find_message serv nick away_list with
  | Some _ => Some (set_found_message serv nick msg away_list)
  | None => n ← safe_strcpy nick 64; Some (AwayMsg serv n msg :: away_list)
  end.

(** Restarted at the head after every removal. *)
Fixpoint server_away_free_messages (serv : nat) (away_list : list away_msg) : list away_msg :=
  match away_list with
  | [] => []
  | a :: l =>
      if (away_server a =? serv)%nat then server_away_free_messages serv l
      else a :: server_away_free_messages serv l
  end.
End away.

(** ** Line assembly: the lines of the text *)

(** Lines and the unfinished rest, [acc] being read already. *)
Fixpoint split_lf (acc s : cstr) : list cstr * cstr :=
  match s with
  | [] => ([], acc)
  | c :: s =>
      if c =c LF then let '(ls, r) := split_lf [] s in (acc :: ls, r) else split_lf (acc ++ [c]) s
  end.

Lemma split_lf_spec acc s ls r :
  split_lf acc s = (ls, r) -> LF ∉ acc ->
  acc ++ s = concat (map (fun l => l ++ [LF]) ls) ++ r /\ Forall (fun l => LF ∉ l) ls /\ LF ∉ r.
Proof.
  revert acc ls; induction s as [|c s IH]; intros acc ls; simpl.
  - intros [= <- <-] Ha. by rewrite app_nil_r.
  - destruct (Ascii.eqb_spec c LF) as [->|Hc].
    + destruct (split_lf [] s) as [ls' r'] eqn:E. intros [= <- <-] Ha.
      destruct (IH [] ls' E) as (H1 & H2 & H3); [apply not_elem_of_nil|]. simpl in H1.
      split_and!; [|by constructor|done]. simpl. by rewrite H1, <- !app_assoc.
    + intros E Ha. destruct (IH (acc ++ [c]) ls E) as (H1 & H2 & H3); [set_solver|].
      by rewrite <- app_assoc in H1.
Qed.

(** The longest line kept. *)
Definition line_max : nat := Z.to_nat (LINEBUF - 1).

Lemma line_max_Z : Z.of_nat line_max = LINEBUF - 1.
Proof. apply Z2Nat.id. by vm_compute. Qed.

Lemma take_snoc_min n (acc : cstr) c :
  take n (acc ++ [c]) = if (length (take n acc) <? n)%nat then take n acc ++ [c] else take n acc.
Proof.
  rewrite length_take. destruct (Nat.ltb_spec (n `min` length acc) n).
  - rewrite take_app_ge by lia. rewrite (take_ge acc) by lia. f_equal. apply take_ge. simpl. lia.
  - by rewrite take_app_le by lia.
Qed.

Lemma read_chunk_spec s acc done :
  let '(ls, r) := split_lf acc (filter (fun c => c <> CR) s) in
  read_chunk s (Reader (take line_max acc) done) = Some (Reader (take line_max r) (done ++ map (take line_max) ls)).
Proof.
  revert acc done; induction s as [|c s IH]; intros acc done; cbn [read_chunk].
  { simpl. by rewrite app_nil_r. }
  unfold read_byte. cbn [linebuf inlined]. destruct (Ascii.eqb_spec c CR) as [->|Hc].
  { rewrite filter_cons_False by (by intros []). cbn [mbind option_bind]. apply IH. }
  rewrite filter_cons_True by done. cbn [split_lf].
  assert (Hlen : (length (take line_max acc) <= line_max)%nat) by (rewrite length_take; lia).
  pose proof line_max_Z as Hmax.
  destruct (Z.leb_spec LINEBUF (Z.of_nat (length (take line_max acc)))); [lia|].
  destruct (Ascii.eqb_spec c LF) as [->|Hlf]; cbn [mbind option_bind].
  - specialize (IH [] (done ++ [take line_max acc])). destruct (split_lf [] _) as [ls r].
    rewrite take_nil in IH. rewrite IH. simpl map. by rewrite <- app_assoc.
  - specialize (IH (acc ++ [c]) done). destruct (split_lf (acc ++ [c]) _) as [ls r].
    rewrite <- IH. rewrite take_snoc_min.
    destruct (Z.leb_spec (LINEBUF - 1) (Z.of_nat (length (take line_max acc)))),
      (Nat.ltb_spec (length (take line_max acc)) line_max); try lia; done.
Qed.

Lemma read_chunk_app s t r : read_chunk (s ++ t) r = (r ← read_chunk s r; read_chunk t r).
Proof.
  revert r; induction s as [|c s IH]; intros r; simpl; [done|].
  destruct (read_byte r c); simpl; [apply IH|done].
Qed.

Lemma server_read_concat chunks r : server_read chunks r = read_chunk (concat chunks) r.
Proof.
  revert r; induction chunks as [|s chunks IH]; intros r; simpl; [done|]. rewrite read_chunk_app.
  destruct (read_chunk s r); simpl; [apply IH|done].
Qed.

(** ** base64: a decoder *)

(** The value of a digit of RFC 4648. *)
Definition digit64 (c : ascii) : Z := Z.of_nat (default 64%nat (index_of c tab64)).

Definition bytes3 (a b c d : Z) : cstr :=
  map (fun z => ascii_of_N (Z.to_N z)) [a * 4 + b / 16; (b mod 16) * 16 + c / 4; (c mod 4) * 64 + d].

Fixpoint base64_decode (s : cstr) : cstr :=
  match s with
  | a :: b :: c :: d :: rest =>
      if c =c "=" then take 1 (bytes3 (digit64 a) (digit64 b) 0 0)
      else if d =c "=" then take 2 (bytes3 (digit64 a) (digit64 b) (digit64 c) 0)
      else bytes3 (digit64 a) (digit64 b) (digit64 c) (digit64 d) ++ base64_decode rest
  | _ => []
  end.

Definition low_bytes : list ascii := map ascii_of_nat (seq 0 128).

Lemma low_bytes_all c : uchar c < 128 -> c ∈ low_bytes.
Proof.
  intros Hc.
  cut ((fun c => if uchar c <? 128 then existsb (fun d => d =c c) low_bytes else true) c = true).
  { cbn beta. destruct (Z.ltb_spec (uchar c) 128); [|lia]. intros Hex. apply existsb_exists in Hex as (d & Hd & E).
    apply Ascii.eqb_eq in E as <-. by apply list_elem_of_In. }
  apply all_bytes_forall. by vm_compute.
Qed.

Lemma low_pairs (f : ascii -> ascii -> bool) :
  forallb (fun x => forallb (f x) low_bytes) low_bytes = true ->
  forall x y, uchar x < 128 -> uchar y < 128 -> f x y = true.
Proof.
  intros H x y Hx%low_bytes_all Hy%low_bytes_all. rewrite forallb_forall in H.
  apply list_elem_of_In in Hx, Hy. specialize (H x Hx). rewrite forallb_forall in H. auto.
Qed.

(** The four digits' values. *)
Definition d0 (f0 : ascii) : Z := Z.land (Z.shiftr (schar f0) 2) 63.
Definition d1 (f0 f1 : ascii) : Z := Z.land (Z.lor (Z.shiftl (schar f0) 4) (Z.shiftr (schar f1) 4)) 63.
Definition d2 (f1 f2 : ascii) : Z := Z.land (Z.lor (Z.shiftl (schar f1) 2) (Z.shiftr (schar f2) 6)) 63.
Definition d3 (f2 : ascii) : Z := Z.land (schar f2) 63.

Lemma digit64_at i : 0 <= i < 64 -> digit64 (tab64_at i) = i.
Proof.
  intros Hi. assert (H : forallb (fun n => digit64 (tab64_at (Z.of_nat n)) =? Z.of_nat n) (seq 0 64) = true)
    by by vm_compute.
  rewrite forallb_forall in H. specialize (H (Z.to_nat i)). rewrite Z2Nat.id in H by lia.
  apply Z.eqb_eq, H, in_seq. lia.
Qed.

Lemma digit64_pad i : 0 <= i < 64 -> (tab64_at i =c "=") = false.
Proof.
  intros Hi. destruct (Ascii.eqb_spec (tab64_at i) "="%char) as [E|]; [|done].
  pose proof (digit64_at i Hi) as H. rewrite E in H. vm_compute in H. lia.
Qed.

Lemma land63_range z : 0 <= Z.land z 63 < 64.
Proof. change 63 with (Z.ones 6). rewrite Z.land_ones by lia. apply Z.mod_pos_bound. lia. Qed.

Lemma digits_values f0 f1 f2 :
  uchar f0 < 128 -> uchar f1 < 128 -> uchar f2 < 128 ->
  d0 f0 = uchar f0 / 4 /\ d1 f0 f1 = uchar f0 mod 4 * 16 + uchar f1 / 16 /\
  d2 f1 f2 = uchar f1 mod 16 * 4 + uchar f2 / 64 /\ d3 f2 = uchar f2 mod 64.
Proof.
  intros H0 H1 H2.
  assert (A : forall x y, uchar x < 128 -> uchar y < 128 ->
    ((d0 x =? uchar x / 4) && (d1 x y =? uchar x mod 4 * 16 + uchar y / 16)) &&
    ((d2 x y =? uchar x mod 16 * 4 + uchar y / 64) && (d3 y =? uchar y mod 64)) = true).
  { apply (low_pairs (fun x y => ((d0 x =? uchar x / 4) && (d1 x y =? uchar x mod 4 * 16 + uchar y / 16)) &&
    ((d2 x y =? uchar x mod 16 * 4 + uchar y / 64) && (d3 y =? uchar y mod 64)))). by vm_compute. }
  pose proof (A f0 f1 H0 H1) as A1. pose proof (A f1 f2 H1 H2) as A2.
  rewrite !andb_true_iff, !Z.eqb_eq in A1, A2. tauto.
Qed.

Lemma uchar_of c : ascii_of_N (Z.to_N (uchar c)) = c.
Proof. unfold uchar. by rewrite N2Z.id, ascii_N_embedding. Qed.

Lemma bytes3_digits f0 f1 f2 :
  uchar f0 < 128 -> uchar f1 < 128 -> uchar f2 < 128 ->
  bytes3 (d0 f0) (d1 f0 f1) (d2 f1 f2) (d3 f2) = [f0; f1; f2].
Proof.
  intros H0 H1 H2. destruct (digits_values f0 f1 f2 H0 H1 H2) as (-> & -> & -> & ->).
  unfold bytes3. cbn [map].
  pose proof (uchar_bound f0). pose proof (uchar_bound f1). pose proof (uchar_bound f2).
  assert (uchar f0 / 4 * 4 + (uchar f0 mod 4 * 16 + uchar f1 / 16) / 16 = uchar f0) as -> by (Z.to_euclidean_division_equations; lia).
  assert ((uchar f0 mod 4 * 16 + uchar f1 / 16) mod 16 * 16 + (uchar f1 mod 16 * 4 + uchar f2 / 64) / 4
    = uchar f1) as -> by (Z.to_euclidean_division_equations; lia).
  assert ((uchar f1 mod 16 * 4 + uchar f2 / 64) mod 4 * 64 + uchar f2 mod 64 = uchar f2) as -> by (Z.to_euclidean_division_equations; lia).
  by rewrite !uchar_of.
Qed.

Lemma list_ind3 {A} (P : list A -> Prop) :
  P [] -> (forall x, P [x]) -> (forall x y, P [x; y]) ->
  (forall x y z l, P l -> P (x :: y :: z :: l)) -> forall l, P l.
Proof.
  intros H0 H1 H2 H3 l. enough (P l /\ (forall x, P (x :: l)) /\ (forall x y, P (x :: y :: l))) by tauto.
  induction l as [|x l (IH0 & IH1 & IH2)]; split_and!; auto.
Qed.

(** ** Tables after a sweep *)

Lemma foldl_keys_elem {A} (stale : A -> bool) (l : list (cstr * A)) acc k :
  k ∈ foldl (fun keys kv => if stale kv.2 then kv.1 :: keys else keys) acc l <->
  k ∈ acc \/ exists x, (k, x) ∈ l /\ stale x = true.
Proof.
  revert acc; induction l as [|[k' x'] l IH]; intros acc; simpl.
  - split; [by left|]. intros [?|(x & Hx & _)]; [done|]. by apply not_elem_of_nil in Hx.
  - rewrite IH. destruct (stale x') eqn:E.
    + rewrite elem_of_cons. split.
      * intros [[->|?]|(x & ? & ?)]; [right; exists x'; split; [by left|done]|by left|].
        right. exists x. split; [by right|done].
      * intros [?|(x & [[= -> ->]|Hx]%elem_of_cons & ?)]; eauto.
    + split.
      * intros [?|(x & ? & ?)]; [by left|]. right. exists x. split; [by right|done].
      * intros [?|(x & [[= -> ->]|Hx]%elem_of_cons & ?)]; [by left|congruence|]. right. eauto.
Qed.

Lemma stale_keys_elem {A} (stale : A -> bool) (m : gmap cstr A) k :
  k ∈ foldl (fun keys kv => if stale kv.2 then kv.1 :: keys else keys) [] (map_to_list m) <->
  exists x, m !! k = Some x /\ stale x = true.
Proof.
  rewrite foldl_keys_elem. setoid_rewrite elem_of_map_to_list. split; [|by right].
  intros [H|H]; [|done]. by apply not_elem_of_nil in H.
Qed.

Lemma foldl_delete_lookup {A} (ks : list cstr) (m : gmap cstr A) k :
  foldl (fun m k => delete k m) m ks !! k = if decide (k ∈ ks) then None else m !! k.
Proof.
  revert m; induction ks as [|k' ks IH]; intros m; [done|]. cbn [foldl]. rewrite IH.
  destruct (decide (k = k')) as [->|Hne].
  - rewrite lookup_delete_eq, (decide_True (P := k' ∈ k' :: ks)) by constructor. by destruct (decide _).
  - rewrite lookup_delete_ne by done. repeat destruct (decide _); set_solver.
Qed.

(** Labels a list of batches carries. *)
Definition labels_of (ab : gmap cstr batch_info) (ids : list cstr) (l : cstr) : Prop :=
  exists id b, id ∈ ids /\ ab !! id = Some b /\ batch_label b = Some l.

Lemma drop_batches_lookup ids pl ab :
  NoDup ids ->
  let '(pl', ab') := foldl drop_batch (pl, ab) ids in
  (forall id, ab' !! id = if decide (id ∈ ids) then None else ab !! id) /\
  (forall l x, pl' !! l = Some x <-> pl !! l = Some x /\ ~ labels_of ab ids l).
Proof.
  intros Hnd. revert pl ab. induction Hnd as [|id ids Hid Hnd IH]; intros pl ab; cbn [foldl].
  - split; [done|]. intros l x. split; [|by intros [? _]]. intros H. split; [done|].
    intros (id & b & Hin & _). by apply not_elem_of_nil in Hin.
  - cbn [drop_batch]. set (pl1 := match ab !! id with Some _ => _ | None => _ end).
    specialize (IH pl1 (delete id ab)).
    destruct (foldl drop_batch (pl1, delete id ab) ids) as [pl' ab']. destruct IH as [Hab Hpl]. split.
    + intros id'. rewrite Hab. destruct (decide (id' = id)) as [->|Hne].
      * rewrite lookup_delete_eq, (decide_True (P := id ∈ id :: ids)) by constructor. by destruct (decide _).
      * rewrite lookup_delete_ne by done. repeat destruct (decide _); set_solver.
    + intros l x. rewrite Hpl.
      assert (Hpl1 : pl1 !! l = Some x <-> pl !! l = Some x /\ ~ exists b, ab !! id = Some b /\ batch_label b = Some l).
      { subst pl1. destruct (ab !! id) as [b|]; [|naive_solver].
        destruct (batch_label b) as [l'|] eqn:El; [|naive_solver].
        rewrite lookup_delete_Some. naive_solver. }
      rewrite Hpl1. unfold labels_of. split.
      * intros [[H1 H2] H3]. split; [done|]. intros (id' & b & [->|Hin]%elem_of_cons & Hb & Hl); [eauto|].
        apply H3. exists id', b. split_and!; [done| |done]. rewrite lookup_delete_ne; [done|]. by intros ->.
      * intros [H1 H2]. split_and!; [done| |].
        -- intros (b & Hb & Hl). apply H2. exists id, b. split_and!; [by left|done|done].
        -- intros (id' & b & Hin & [Hne Hb]%lookup_delete_Some & Hl). apply H2.
           exists id', b. split_and!; [by right|done|done].
Qed.

Lemma stale_keys_NoDup {A} (stale : A -> bool) (m : gmap cstr A) :
  NoDup (foldl (fun keys kv => if stale kv.2 then kv.1 :: keys else keys) [] (map_to_list m)).
Proof.
  assert (H : forall (l : list (cstr * A)) acc, NoDup (l.*1) -> NoDup acc -> (forall k, k ∈ acc -> k ∉ l.*1) ->
    NoDup (foldl (fun keys kv => if stale kv.2 then kv.1 :: keys else keys) acc l)).
  { induction l as [|[k x] l IH]; intros acc Hl Ha Hd; [done|]. simpl in *.
    apply NoDup_cons in Hl as [Hk Hl]. apply IH; [done| |].
    - destruct (stale x); [|done]. constructor; [|done]. intros Hin. apply (Hd k Hin). by left.
    - intros k' Hk'. destruct (stale x); [|specialize (Hd k' Hk'); set_solver].
      apply elem_of_cons in Hk' as [->|Hk']; [done|]. specialize (Hd k' Hk'). set_solver. }
  apply H; [apply NoDup_fst_map_to_list|constructor|]. intros k Hk. by apply not_elem_of_nil in Hk.
Qed.

(** ** CLIENTTAGDENY *)

Lemma tag_items_exempt (G : GLib) (GL : GLibLaws G) tag xs allowed :
  nonul tag -> peek tag <> "-"%char -> Forall nonul xs ->
  foldl (tag_item tag) allowed (map (cons "-"%char) xs) =
  allowed || bool_decide (map ascii_lower tag ∈ map (map ascii_lower) xs).
Proof.
  intros Ht Hneg Hxs. revert allowed. induction Hxs as [|x xs Hx Hxs IH]; intros allowed; cbn [map foldl].
  { by rewrite orb_false_r. }
  rewrite IH. unfold tag_item. rewrite bool_decide_false by done. cbn [peek drop].
  change (peek ("-"%char :: x) =c "-") with true. cbn [andb]. rewrite drop_0.
  assert (Hstar : (g_ascii_strcasecmp ("-"%char :: x) tag =? 0) = false).
  { apply Z.eqb_neq. rewrite g_ascii_strcasecmp_zero by (done || by apply nonul_cons).
    destruct tag as [|c tag]; [done|]. simpl in *. intros [= E _].
    apply Hneg. cut ((fun c => if ascii_lower c =c ascii_lower "-" then c =c "-" else true) c = true).
    { cbn beta. rewrite <- E. rewrite Ascii.eqb_refl. apply Ascii.eqb_eq. }
    apply all_bytes_forall. by vm_compute. }
  rewrite Hstar. destruct (Z.eqb_spec (g_ascii_strcasecmp x tag) 0) as [E|E].
  - rewrite g_ascii_strcasecmp_zero in E by done. rewrite E.
    rewrite (bool_decide_true (_ ∈ _ :: _)) by constructor. by rewrite orb_true_r.
  - f_equal. apply bool_decide_ext. rewrite elem_of_cons. split; [by right|]. intros [E'|?]; [|done].
    exfalso. apply E. by apply g_ascii_strcasecmp_zero.
Qed.

(** ** Properties *)

(** C26. Line assembly does not depend on how the socket cuts the stream and never
    writes outside [linebuf]: the lines handed on are the pieces of the stream
    between line feeds, carriage returns dropped, each cut to 8703 bytes, and
    the rest stays for the next read. *)
Theorem server_read_lines chunks :
  exists lines rest,
    filter (fun c => c <> CR) (concat chunks) = concat (map (fun l => l ++ [LF]) lines) ++ rest /\
    Forall (fun l => LF ∉ l) lines /\ (LF ∉ rest) /\
    server_read chunks (Reader [] []) =
      Some (Reader (take line_max rest) (map (take line_max) lines)).
Proof.
  rewrite server_read_concat. pose proof (read_chunk_spec (concat chunks) [] []) as H.
  destruct (split_lf [] (filter (fun c => c <> CR) (concat chunks))) as [ls r] eqn:E.
  apply split_lf_spec in E as (H1 & H2 & H3); [|apply not_elem_of_nil].
  exists ls, r. rewrite take_nil in H. by split_and!.
Qed.

(** [base64_encode] of 7-bit text is RFC 4648 base64: a standard decoder
    gives the text back. *)
Theorem base64_roundtrip s : ascii7 s -> base64_decode (base64_encode s) = s.
Proof.
  revert s. refine (list_ind3 _ _ _ _ _); cbn [base64_encode]; [done| | |].
  - intros f0 [H0 _]%ascii7_cons. simpl. fold (d0 f0) (d1 f0 NUL).
    rewrite !digit64_at by apply land63_range.
    destruct (digits_values f0 NUL NUL H0) as (-> & -> & _); [by vm_compute..|].
    cbn [map]. change (uchar NUL) with 0. pose proof (uchar_bound f0).
    replace (uchar f0 / 4 * 4 + (uchar f0 mod 4 * 16 + 0 / 16) / 16) with (uchar f0)
      by (Z.to_euclidean_division_equations; lia).
    by rewrite uchar_of.
  - intros f0 f1 [H0 [H1 _]%ascii7_cons]%ascii7_cons. simpl. fold (d0 f0) (d1 f0 f1) (d2 f1 NUL).
    rewrite digit64_pad by apply land63_range. rewrite !digit64_at by apply land63_range.
    pose proof (bytes3_digits f0 f1 NUL H0 H1 ltac:(by vm_compute)) as H.
    unfold bytes3 in *. cbn [map take] in *. by injection H as -> -> _.
  - intros f0 f1 f2 l IH [H0 [H1 [H2 Hl]%ascii7_cons]%ascii7_cons]%ascii7_cons.
    cbn [three_to_four app base64_decode]. fold (d0 f0) (d1 f0 f1) (d2 f1 f2) (d3 f2).
    rewrite !digit64_pad by apply land63_range. rewrite !digit64_at by apply land63_range.
    by rewrite bytes3_digits, IH.
Qed.

(** Bytes above 127 are sign-extended before they are shifted and spill into
    the digit of the byte before them: "aé" becomes another text. *)
Theorem base64_high_bytes_garbled :
  base64_decode (base64_encode ["a"; "195"; "169"]%char) = ["c"; "207"; "169"]%char.
Proof. by vm_compute. Qed.

(** A sweep removes exactly the labels older than a minute, the batches
    older than two minutes and the labels of those batches, and lets the timer
    stop only when nothing is left to wait for. *)
Theorem stale_sweep_exact now t :
  let '(t', keep) := stale_sweep_cb now t in
  (forall id b, active_batches t' !! id = Some b <->
     active_batches t !! id = Some b /\ now - started b <= STALE_BATCH_TIMEOUT) /\
  (forall l x, pending_labels t' !! l = Some x <->
     pending_labels t !! l = Some x /\ now - sent_time x <= STALE_LABEL_TIMEOUT /\
     ~ exists id b, active_batches t !! id = Some b /\ STALE_BATCH_TIMEOUT < now - started b /\
       batch_label b = Some l) /\
  (keep = false -> pending_labels t' = ∅ /\ active_batches t' = ∅).
Proof.
  unfold stale_sweep_cb. set (pl := foldl _ (pending_labels t) _).
  pose proof (drop_batches_lookup (stale_batch_keys now (active_batches t)) pl (active_batches t)
    (stale_keys_NoDup (fun b => STALE_BATCH_TIMEOUT <? now - started b) _)) as H.
  destruct (foldl drop_batch _ _) as [pl' ab']. destruct H as [Hab Hpl]. cbn [pending_labels active_batches].
  assert (Hid : forall id, id ∈ stale_batch_keys now (active_batches t) <->
    exists b, active_batches t !! id = Some b /\ STALE_BATCH_TIMEOUT < now - started b).
  { intros id. unfold stale_batch_keys. rewrite (stale_keys_elem (fun b => STALE_BATCH_TIMEOUT <? now - started b)).
    by setoid_rewrite Z.ltb_lt. }
  assert (Hp : forall l x, pl !! l = Some x <->
    pending_labels t !! l = Some x /\ now - sent_time x <= STALE_LABEL_TIMEOUT).
  { intros l x. subst pl. rewrite foldl_delete_lookup.
    pose proof (stale_keys_elem (fun x => STALE_LABEL_TIMEOUT <? now - sent_time x) (pending_labels t) l) as Hk.
    fold (stale_label_keys now (pending_labels t)) in Hk. setoid_rewrite Z.ltb_lt in Hk.
    destruct (decide (l ∈ _)) as [Hin|Hin].
    - split; [done|]. intros [H1 H2]. apply Hk in Hin as (y & Hy & Hlt). rewrite H1 in Hy.
      injection Hy as <-. lia.
    - split; [|by intros [? _]]. intros H1. split; [done|].
      destruct (Z.le_gt_cases (now - sent_time x) STALE_LABEL_TIMEOUT); [done|].
      exfalso. apply Hin, Hk. by exists x. }
  split_and!.
  - intros id b. rewrite Hab. destruct (decide (id ∈ _)) as [Hin|Hin].
    + split; [done|]. intros [H1 H2]. apply Hid in Hin as (b' & Hb' & Hlt). rewrite H1 in Hb'.
      injection Hb' as <-. lia.
    + split; [|by intros [? _]]. intros H1. split; [done|].
      destruct (Z.le_gt_cases (now - started b) STALE_BATCH_TIMEOUT); [done|].
      exfalso. apply Hin, Hid. by exists b.
  - intros l x. rewrite Hpl, Hp. unfold labels_of. setoid_rewrite Hid. split.
    + intros [[H1 H2] H3]. split_and!; [done|done|]. intros (id & b & Hb & Hlt & Hl). apply H3.
      exists id, b. split_and!; [by exists b|done|done].
    + intros (H1 & H2 & H3). split_and!; [done|done|]. intros (id & b & (b' & Hb' & Hlt) & Hb & Hl).
      apply H3. exists id, b. rewrite Hb in Hb'. injection Hb' as <-. by split_and!.
  - rewrite orb_false_iff, !negb_false_iff, !Nat.eqb_eq. intros [H1 H2].
    apply map_size_empty_inv in H1, H2. split; [|done]. apply map_empty. intros l.
    destruct (pl' !! l) as [x|] eqn:E; [|done]. apply Hpl in E as [E _]. by rewrite H1 in E.
Qed.

(** With CLIENTTAGDENY=*,-x,-y,... exactly the tags listed as exempt, in any
    letter case, may be sent. *)
Theorem client_tag_exemptions (G : GLib) tag xs :
  GLibLaws G -> nonul tag -> peek tag <> "-"%char ->
  Forall (fun x => nonul x /\ ","%char ∉ x) xs ->
  server_client_tag_allowed
    (Some (list_ascii_of_string "*" ++ concat (map (cons ","%char) (map (cons "-"%char) xs)))) tag =
  bool_decide (map ascii_lower tag ∈ map (map ascii_lower) xs).
Proof.
  intros GL Ht Hneg Hxs. unfold server_client_tag_allowed. rewrite g_strsplit_pieces.
  - cbn [foldl]. rewrite (tag_items_exempt _ GL); [|done|done|].
    + change (tag_item tag true "*") with false. done.
    + eapply Forall_impl; [exact Hxs|]. by intros x [? _].
  - constructor; [by apply (bool_decide_unpack _); vm_compute|]. apply Forall_map.
    eapply Forall_impl; [exact Hxs|]. intros x [_ Hx]. simpl. set_solver.
  - done.
Qed.

(** Labels of different counter values differ, and a labelled command is
    never cut by the label put in front of it. *)
Theorem labels_distinct_and_whole n m formatted :
  0 <= n < 2 ^ 32 -> 0 <= m < 2 ^ 32 ->
  ((tcp_generate_label n).1 = (tcp_generate_label m).1 -> n = m) /\
  (tcp_vsendf_labeled true n formatted).2 =
    "@label=" ++ (tcp_generate_label n).1 ++ " " ++ take 1538 formatted.
Proof.
  intros Hn Hm. split.
  - unfold tcp_generate_label, u32_text. cbn [fst]. intros E. apply app_inv_head in E.
    apply (f_equal (foldl (fun a c => a * 10 + (uchar c - 48)) 0)) in E.
    by rewrite !decimal_value in E by lia.
  - unfold tcp_vsendf_labeled, tcp_generate_label, snprintf_1600. cbn [fst snd negb]. cbv iota.
    apply take_ge. rewrite !length_app, length_take. pose proof (decimal_length 10 n []) as H.
    unfold u32_text. simpl length in *. lia.
Qed.

(** ** Witnesses *)

Lemma base64_roundtrip_witness :
  base64_encode "user:pass" = list_ascii_of_string "dXNlcjpwYXNz" /\
  base64_decode (base64_encode "user:pass") = list_ascii_of_string "user:pass".
Proof. split; [reflexivity|]. apply base64_roundtrip. by apply (bool_decide_unpack _); vm_compute. Defined.

Lemma client_tag_exemptions_witness :
  server_client_tag_allowed (Some (list_ascii_of_string "*,-typing,-draft/react")) "Draft/React" = true.
Proof.
  pose proof (client_tag_exemptions glib_ref "Draft/React"
    [list_ascii_of_string "typing"; list_ascii_of_string "draft/react"] glib_ref_laws) as H.
  etrans; [apply H|by vm_compute].
  - by apply (bool_decide_unpack _); vm_compute.
  - by vm_compute.
  - repeat constructor; by apply (bool_decide_unpack _); vm_compute.
Defined.

Lemma labels_distinct_and_whole_witness :
  (tcp_vsendf_labeled true 41 "WHO #a").2 = list_ascii_of_string "@label=hc41 WHO #a".
Proof.
  destruct (labels_distinct_and_whole 41 42 "WHO #a") as [_ H]; [lia|lia|].
  rewrite H. reflexivity.
Defined.
