(* ===== verification/Words.v ===== *)
(** * Splitting a line into words (src/common/outbound.c, process_data_init)

    The copy of the line in which separators become NULs, the word pointers
    into it and the word_eol pointers into the line itself. *)
From S2P Require Import Prelude Glib Casemap Text Access Isupport Modes.

Section split.
Context `{GLib}.

(** [buf] up to [j]; where word 2, 3, ... start in it and in the line. *)
Record pdi := Pdi { pdi_buf : cstr; pdi_starts : list (nat * nat) }.

Definition QUOTE : ascii := "034".

(** A write to a buffer of [size] bytes. *)
Definition put (size : nat) (s : cstr) (st : pdi) : option pdi :=
  if (length (pdi_buf st) + length s <=? size)%nat then Some (Pdi (pdi_buf st ++ s) (pdi_starts st)) else None.

(** The [while (1)] loop at offset [pos] of the line; [None] is a read past its
    NUL or a write past the buffer (or no fuel). *)
Fixpoint pdi_loop (size fuel : nat) (handle_quotes allow_escape_quotes : bool) (cmd : cstr) (pos : nat)
    (space quote : bool) (st : pdi) : option pdi :=
  match fuel with
  | O => None
  | S fuel =>
      let def (cmd : cstr) (pos : nat) :=
        match cmd with
        | [] => None
        | c :: cmd' =>
            let len := g_utf8_skip c in
            if len =? 1 then
              st ← put size [c] st;
              pdi_loop size fuel handle_quotes allow_escape_quotes cmd' (S pos) false quote st
            else if Z.of_nat (length cmd) <? len then None
            else
              st ← put size (take (Z.to_nat len) cmd) st;
              pdi_loop size fuel handle_quotes allow_escape_quotes (drop (Z.to_nat len) cmd)
                (pos + Z.to_nat len) false quote st
        end in
      match cmd with
      | [] => Some st
      | c :: cmd' =>
          if c =c QUOTE then
            if negb handle_quotes then def cmd pos
            else if allow_escape_quotes && (peek cmd' =c QUOTE) then def cmd' (S pos)
            else
              let '(quote, space) := if quote : bool then (false, false) else (true, space) in
              pdi_loop size fuel handle_quotes allow_escape_quotes cmd' (S pos) space quote st
          else if (c =c " ") && negb quote then
            st ←
              (if space : bool then Some st
               else
                 st ← put size [NUL] st;
                 Some (if (length (pdi_starts st) + 2 <? PDIWORDS)%nat
                       then Pdi (pdi_buf st) (pdi_starts st ++ [(length (pdi_buf st), S pos)]) else st));
            pdi_loop size fuel handle_quotes allow_escape_quotes cmd' (S pos) true quote st
          else def cmd pos
      end
  end.

(** word[0..] and the offsets of word_eol[0..], as a [line] of [Modes].  Every caller
    has a buffer for the line and its NUL. *)
Definition process_data_init (cmd : cstr) (handle_quotes allow_escape_quotes : bool) : option line :=
  let size := S (length cmd) in
  st ← pdi_loop size (S (length cmd)) handle_quotes allow_escape_quotes cmd 0 false false (Pdi [] []);
  st ← put size [NUL] st;
  let buf := pdi_buf st in
  Some (Line ([] :: c_string buf :: map (fun p => c_string (drop p.1 buf)) (pdi_starts st)) cmd
          (length cmd :: O :: map snd (pdi_starts st))).
End split.

(** ** Correctness without quoting *)

(** A run of spaces and the word behind it. *)
Abbreviation gap_word := (nat * cstr)%type.

Definition gap_text (g : gap_word) : cstr := repeat " "%char (S g.1) ++ g.2.
Definition line_text (w1 : cstr) (gs : list gap_word) : cstr := w1 ++ concat (map gap_text gs).

Section correctness.
Context `{GL : GLibLaws} (aq : bool) (size : nat).

(** Words without spaces, of whole characters. *)
Definition word_ok (w : cstr) : Prop := nonul w /\ (" "%char ∉ w) /\ whole_chars w.

Lemma ascii7_whole s : ascii7 s -> whole_chars s.
Proof.
  induction 1 as [|c s Hc Hs IH]; [constructor|]. apply (whole_char c [] s); [|done].
  by rewrite g_utf8_skip_ascii.
Qed.

Lemma nonul_c_string w rest : nonul w -> c_string (w ++ NUL :: rest) = w.
Proof.
  induction 1 as [|c w Hc Hw IH]; simpl; [done|]. destruct (Ascii.eqb_spec c NUL); [done|]. by rewrite IH.
Qed.

Lemma put_fits s st : (length (pdi_buf st) + length s <= size)%nat -> put size s st = Some (Pdi (pdi_buf st ++ s) (pdi_starts st)).
Proof. intros Hs. unfold put. by destruct (Nat.leb_spec (length (pdi_buf st) + length s) size); [|lia]. Qed.

Lemma loop_word w rest pos space st fuel :
  (length (pdi_buf st) + length w <= size)%nat -> whole_chars w -> " "%char ∉ w -> w <> [] -> (length (w ++ rest) < fuel)%nat ->
  exists fuel', (length rest < fuel')%nat /\
    pdi_loop size fuel false aq (w ++ rest) pos space false st =
    pdi_loop size fuel' false aq rest (pos + length w) false false (Pdi (pdi_buf st ++ w) (pdi_starts st)).
Proof.
  intros Hsz Hw. revert pos space st fuel Hsz.
  induction Hw as [|c block w E Hw IH]; intros pos space st fuel Hsz Hs Hne Hf; [done|].
  rewrite length_app in Hsz.
  destruct fuel as [|fuel]; [lia|]. apply not_elem_of_app in Hs as [[Hc Hblk]%not_elem_of_cons Hsw].
  assert (Hstep : pdi_loop size (S fuel) false aq (((c :: block) ++ w) ++ rest) pos space false st =
    pdi_loop size fuel false aq (w ++ rest) (pos + length (c :: block)) false false
      (Pdi (pdi_buf st ++ c :: block) (pdi_starts st))).
  { rewrite <- app_assoc. cbn [pdi_loop app]. destruct (Ascii.eqb_spec c " "); [congruence|].
    cbn [negb andb]. rewrite <- E.
    assert (Hd : forall (A : option pdi), (if c =c QUOTE then A else A) = A) by (intros; by destruct (_ =c _)).
    rewrite Hd. destruct (Z.eqb_spec (Z.of_nat (length (c :: block))) 1) as [E1|E1].
    - assert (block = []) as -> by (destruct block; [done|simpl in E1; lia]). simpl app.
      rewrite put_fits by (simpl in *; lia). by rewrite Nat.add_1_r.
    - destruct (Z.ltb_spec (Z.of_nat (length (c :: block ++ w ++ rest))) (Z.of_nat (length (c :: block)))).
      { simpl in *. rewrite length_app in *. lia. }
      rewrite Nat2Z.id. change (c :: block ++ w ++ rest) with ((c :: block) ++ w ++ rest).
      rewrite take_app_length, drop_app_length, put_fits by lia. done. }
  rewrite Hstep. destruct w as [|c' w].
  - exists fuel. rewrite app_nil_r in *. simpl in *. rewrite length_app in Hf. split; [lia|done].
  - destruct (IH (pos + length (c :: block))%nat false (Pdi (pdi_buf st ++ c :: block) (pdi_starts st)) fuel ltac:(cbn [pdi_buf]; rewrite length_app; lia) Hsw)
      as (fuel' & Hf' & ->); [done|rewrite !length_app in *; simpl in *; lia|].
    exists fuel'. split; [done|]. rewrite length_app. cbn [pdi_buf pdi_starts].
    by rewrite <- app_assoc, Nat.add_assoc.
Qed.

Lemma loop_more_spaces k rest pos st fuel :
  (k + length rest < fuel)%nat ->
  pdi_loop size fuel false aq (repeat " "%char k ++ rest) pos true false st =
  pdi_loop size (fuel - k) false aq rest (pos + k) true false st.
Proof.
  revert pos fuel; induction k as [|k IH]; intros pos fuel Hf; simpl.
  - by rewrite Nat.sub_0_r, Nat.add_0_r.
  - destruct fuel as [|fuel]; [lia|]. cbn [pdi_loop app]. change (" " =c QUOTE) with false.
    cbn [negb andb]. change (" " =c " ") with true. cbv iota. cbn [andb mbind option_bind].
    rewrite IH by lia. by rewrite <- Nat.add_succ_comm.
Qed.

(** The state after a run of spaces. *)
Definition new_word (pos : nat) (st : pdi) : pdi :=
  let buf := pdi_buf st ++ [NUL] in
  if (length (pdi_starts st) + 2 <? PDIWORDS)%nat
  then Pdi buf (pdi_starts st ++ [(length buf, S pos)]) else Pdi buf (pdi_starts st).

Lemma loop_spaces k rest pos st fuel :
  (length (pdi_buf st) + 1 <= size)%nat -> (S k + length rest < fuel)%nat ->
  pdi_loop size fuel false aq (repeat " "%char (S k) ++ rest) pos false false st =
  pdi_loop size (fuel - S k) false aq rest (pos + S k) true false (new_word pos st).
Proof.
  intros Hsz Hf. destruct fuel as [|fuel]; [lia|]. cbn [repeat app pdi_loop].
  change (" " =c QUOTE) with false. change (" " =c " ") with true. cbv iota. cbn [negb andb].
  rewrite put_fits by done. cbn [mbind option_bind pdi_buf pdi_starts].
  rewrite loop_more_spaces by lia. replace (S pos + k)%nat with (pos + S k)%nat by lia. reflexivity.
Qed.

(** Where the words and the rests of the line start. *)
Fixpoint starts_of (b p : nat) (gs : list gap_word) : list (nat * nat) :=
  match gs with
  | [] => []
  | (k, w) :: gs => (S b, S p) :: starts_of (S b + length w) (p + S k + length w) gs
  end.

Definition buf_text (gs : list gap_word) : cstr := concat (map (fun g => NUL :: g.2) gs).

Definition gaps_ok (gs : list gap_word) : Prop :=
  Forall (fun g => word_ok g.2) gs /\ Forall (fun g => g.2 <> []) (removelast gs).

Lemma loop_gaps gs pos st fuel :
  gaps_ok gs -> (length (pdi_buf st) + length (concat (map gap_text gs)) <= size)%nat -> (length (concat (map gap_text gs)) < fuel)%nat ->
  pdi_loop size fuel false aq (concat (map gap_text gs)) pos false false st =
  Some (Pdi (pdi_buf st ++ buf_text gs)
    (pdi_starts st ++ take (PDIWORDS - 2 - length (pdi_starts st)) (starts_of (length (pdi_buf st)) pos gs))).
Proof.
  revert pos st fuel; induction gs as [|[k w] gs IH]; intros pos st fuel [Hok Hne] Hsz Hf.
  - destruct fuel as [|fuel]; [simpl in Hf; lia|]. simpl. rewrite take_nil, !app_nil_r. by destruct st.
  - apply Forall_cons in Hok as [(Hnul & Hsp & Hw) Hok]. cbn [snd] in *.
    change (concat (map gap_text ((k, w) :: gs))) with ((repeat " "%char (S k) ++ w) ++ concat (map gap_text gs)) in *.
    rewrite <- app_assoc. rewrite !length_app, repeat_length in Hf, Hsz.
    rewrite loop_spaces by (rewrite ?length_app; lia).
    assert (Hgs : gaps_ok gs).
    { split; [done|]. destruct gs as [|g gs]; [constructor|]. by apply Forall_cons in Hne as [_ Hne]. }
    assert (Hstarts : forall rest, pdi_starts (new_word pos st) ++
      take (PDIWORDS - 2 - length (pdi_starts (new_word pos st))) rest =
      pdi_starts st ++ take (PDIWORDS - 2 - length (pdi_starts st)) ((S (length (pdi_buf st)), S pos) :: rest)).
    { intros rest. unfold new_word. destruct (Nat.ltb_spec (length (pdi_starts st) + 2) PDIWORDS); simpl pdi_starts.
      - rewrite !length_app. simpl length. rewrite <- app_assoc. f_equal.
        destruct (PDIWORDS - 2 - length (pdi_starts st))%nat as [|m] eqn:Em; [unfold PDIWORDS in *; lia|].
        replace (PDIWORDS - 2 - (length (pdi_starts st) + 1))%nat with m by lia.
        simpl. by rewrite Nat.add_1_r.
      - replace (PDIWORDS - 2 - length (pdi_starts st))%nat with O by (unfold PDIWORDS in *; lia). done. }
    assert (Hbuf : pdi_buf (new_word pos st) = pdi_buf st ++ [NUL]) by (unfold new_word; by destruct (_ <? _)%nat).
    destruct w as [|c w].
    + destruct gs as [|g gs]; [|by apply Forall_cons in Hne as [Hne _]]. simpl app.
      assert (0 < fuel - S k)%nat as Hf' by (simpl in Hf; lia).
      destruct (fuel - S k)%nat as [|f']; [lia|]. simpl pdi_loop. cbn [starts_of].
      change 30%nat with (PDIWORDS - 2)%nat. rewrite <- (Hstarts []), take_nil, app_nil_r. unfold buf_text. simpl. rewrite <- Hbuf.
      by destruct (new_word pos st).
    + destruct (loop_word (c :: w) (concat (map gap_text gs)) (pos + S k) true (new_word pos st) (fuel - S k))
        as (f' & Hf' & ->); [rewrite Hbuf, length_app; simpl in *; lia|done|done|done| |].
      { rewrite length_app. simpl in *. lia. }
      rewrite IH; [|done|cbn [pdi_buf]; rewrite Hbuf, !length_app; simpl in *; lia|done]. cbn [pdi_buf pdi_starts starts_of]. rewrite Hstarts, Hbuf. do 2 f_equal.
      * unfold buf_text. simpl. by rewrite <- !app_assoc.
      * rewrite !length_app. do 4 f_equal; simpl; lia.
Qed.

Lemma starts_of_lookup b p gs i :
  starts_of b p gs !! i =
  (fun _ => (S (b + length (buf_text (take i gs))), S (p + length (concat (map gap_text (take i gs))))))%nat
    <$> gs !! i.
Proof.
  revert b p i; induction gs as [|[k w] gs IH]; intros b p i; [done|]. destruct i as [|i].
  { simpl. by rewrite !Nat.add_0_r. }
  cbn [starts_of]. change (take (S i) ((k, w) :: gs)) with ((k, w) :: take i gs).
  change (((k, w) :: gs) !! S i) with (gs !! i).
  match goal with |- (?x :: ?l) !! S i = _ => change ((x :: l) !! S i) with (l !! i) end.
  rewrite IH. destruct (gs !! i); [|done]. cbn [fmap option_fmap option_map].
  assert (E1 : length (buf_text ((k, w) :: take i gs)) = (S (length w) + length (buf_text (take i gs)))%nat).
  { unfold buf_text. simpl. by rewrite length_app. }
  assert (E2 : length (concat (map gap_text ((k, w) :: take i gs))) =
    (S k + length w + length (concat (map gap_text (take i gs))))%nat).
  { change (concat (map gap_text ((k, w) :: take i gs))) with
      ((repeat " "%char (S k) ++ w) ++ concat (map gap_text (take i gs))).
    by rewrite !length_app, repeat_length. }
  rewrite E1, E2. do 2 f_equal; lia.
Qed.

Lemma starts_of_length b p gs : length (starts_of b p gs) = length gs.
Proof. revert b p; induction gs as [|[k w] gs IH]; intros b p; simpl; [done|]. by rewrite IH. Qed.
Lemma word_nonul gs i g : gaps_ok gs -> gs !! i = Some g -> nonul g.2.
Proof. intros [H _] Hi. rewrite Forall_lookup in H. by apply (H i g). Qed.

Lemma buf_word w1 gs i k w :
  gs !! i = Some (k, w) -> nonul w ->
  c_string (drop (S (length w1 + length (buf_text (take i gs)))) ((w1 ++ buf_text gs) ++ [NUL])) = w.
Proof.
  intros Hi Hw. rewrite <- (take_drop_middle gs i (k, w) Hi) at 2. unfold buf_text.
  rewrite map_app, concat_app. cbn [map concat snd].
  set (a := concat (map _ (take i gs))). set (b := concat (map _ (drop (S i) gs))).
  replace ((w1 ++ a ++ (NUL :: w) ++ b) ++ [NUL]) with ((w1 ++ a ++ [NUL]) ++ w ++ b ++ [NUL])
    by (simpl; rewrite <- ?app_assoc; simpl; rewrite <- ?app_assoc; done).
  rewrite drop_app_length' by (rewrite !length_app; simpl; lia).
  subst b. destruct (drop (S i) gs) as [|g gs']; simpl; by apply nonul_c_string.
Qed.

Lemma line_rest w1 gs i k w :
  gs !! i = Some (k, w) ->
  drop (S (length w1 + length (concat (map gap_text (take i gs))))) (w1 ++ concat (map gap_text gs)) =
  repeat " "%char k ++ w ++ concat (map gap_text (drop (S i) gs)).
Proof.
  intros Hi. rewrite <- (take_drop_middle gs i (k, w) Hi) at 2.
  rewrite map_app, concat_app. cbn [map concat]. unfold gap_text at 3. cbn [fst snd repeat].
  set (a := concat (map _ (take i gs))). set (b := concat (map _ (drop (S i) gs))).
  replace (w1 ++ a ++ ((" "%char :: repeat " "%char k) ++ w) ++ b)
    with ((w1 ++ a ++ [" "%char]) ++ repeat " "%char k ++ w ++ b)
    by (simpl; rewrite <- ?app_assoc; simpl; rewrite <- ?app_assoc; done).
  apply drop_app_length'. rewrite !length_app. simpl. lia.
Qed.

(** The buffer is never longer than the line. *)
Lemma buf_text_length gs : (length (buf_text gs) <= length (concat (map gap_text gs)))%nat.
Proof.
  induction gs as [|[k w] gs IH]; [done|]. unfold buf_text in *. cbn [map concat]. unfold gap_text at 1. cbn [fst snd].
  rewrite !length_app, repeat_length. simpl. lia.
Qed.
End correctness.

(** C25. For a line of whole characters made of words separated by runs of spaces,
    split without regard to quotes, [process_data_init] writes nothing behind a buffer
    for the line and its NUL, gives the words in order (the 31st is the last one told
    apart), empty strings for missing words, and as word_eol of a word everything
    behind the first space before it. *)
Theorem process_data_init_words (G : GLib) aq w1 gs :
  GLibLaws G -> w1 <> [] -> word_ok w1 -> gaps_ok gs ->
  exists ln, process_data_init (line_text w1 gs) false aq = Some ln /\
    word ln 1 = w1 /\ word_eol ln 1 = line_text w1 gs /\
    (forall i g, gs !! i = Some g -> (i + 2 < PDIWORDS)%nat ->
       word ln (i + 2) = g.2 /\
       word_eol ln (i + 2) = repeat " "%char g.1 ++ g.2 ++ concat (map gap_text (drop (S i) gs))) /\
    (forall i, (length gs + 2 <= i)%nat -> word ln i = [] /\ word_eol ln i = []).
Proof.
  intros GL Hne (Hnul & Hsp & Hw1) Hgs. unfold process_data_init, line_text.
  destruct (loop_word aq (S (length (w1 ++ concat (map gap_text gs)))) w1 (concat (map gap_text gs)) 0 false (Pdi [] []) _ ltac:(cbn; rewrite length_app; lia) Hw1 Hsp Hne (Nat.lt_succ_diag_r _))
    as (f' & Hf' & ->).
  cbn [pdi_buf pdi_starts app]. rewrite loop_gaps by (done || cbn; rewrite length_app; lia). cbn [mbind option_bind pdi_buf pdi_starts app].
  rewrite put_fits by (pose proof (buf_text_length gs); cbn [pdi_buf]; rewrite !length_app; simpl; lia).
  cbn [mbind option_bind pdi_buf pdi_starts].
  rewrite Nat.add_0_l. change (length (@nil (nat * nat))) with O. rewrite Nat.sub_0_r.
  set (sts := starts_of (length w1) (length w1) gs). set (cmd := w1 ++ concat (map gap_text gs)).
  set (buf := (w1 ++ buf_text gs) ++ [NUL]).
  eexists. split; [reflexivity|]. unfold word, word_eol. cbn [words text eol_offsets nth].
  split_and!; [| |intros i [k w] Hi Hlt|intros i Hi].
  - subst buf. unfold buf_text. destruct gs as [|g gs]; simpl; [by rewrite app_nil_r; apply nonul_c_string|].
    rewrite <- app_assoc. by apply nonul_c_string.
  - done.
  - rewrite Nat.add_comm. cbn [Nat.add nth].
    assert (Hst : take (PDIWORDS - 2) sts !! i = Some (S (length w1 + length (buf_text (take i gs))),
      S (length w1 + length (concat (map gap_text (take i gs)))))%nat).
    { rewrite lookup_take_lt by (unfold PDIWORDS in *; lia). subst sts. by rewrite starts_of_lookup, Hi. }
    split.
    + erewrite nth_lookup_Some by (rewrite list_lookup_fmap, Hst; reflexivity). cbn [fst].
      apply (buf_word w1 gs i k w); [done|]. by apply (word_nonul gs i (k, w)).
    + erewrite nth_lookup_Some by (rewrite list_lookup_fmap, Hst; reflexivity). cbn [snd fst].
      subst cmd. by apply line_rest.
  - destruct i as [|[|i]]; [simpl in Hi; lia|lia|]. cbn [nth]. split.
    + apply nth_overflow. rewrite length_map, length_take. subst sts. rewrite starts_of_length. lia.
    + rewrite nth_overflow; [apply drop_all|]. rewrite length_map, length_take. subst sts.
      rewrite starts_of_length. lia.
Qed.

Lemma process_data_init_words_witness :
  exists ln, process_data_init ":bob PRIVMSG  #c :hello there" false false = Some ln /\
    word ln 2 = "PRIVMSG" /\ word ln 3 = "#c" /\ word_eol ln 4 = ":hello there".
Proof.
  destruct (process_data_init_words glib_ref false ":bob"
    [(0%nat, "PRIVMSG" : cstr); (1%nat, "#c" : cstr); (0%nat, ":hello" : cstr); (0%nat, "there" : cstr)])
    as (ln & H & _ & _ & Hw & _).
  - exact glib_ref_laws.
  - done.
  - split_and!; [|by apply (bool_decide_unpack _); vm_compute|apply ascii7_whole];
      by apply (bool_decide_unpack _); vm_compute.
  - split; [|by repeat constructor].
    repeat (constructor; [split_and!;
      [by apply (bool_decide_unpack _); vm_compute|by apply (bool_decide_unpack _); vm_compute|
       apply ascii7_whole; by apply (bool_decide_unpack _); vm_compute]|]). constructor.
  - exists ln. split; [exact H|]. split_and!.
    + by apply (Hw 0%nat (0%nat, "PRIVMSG" : cstr)); [|vm_compute; lia].
    + by apply (Hw 1%nat (1%nat, "#c" : cstr)); [|vm_compute; lia].
    + by apply (Hw 2%nat (0%nat, ":hello" : cstr)); [|vm_compute; lia].
Defined.
