(* ===== verification/Proto.v ===== *)
(** * Outgoing IRC commands (src/common/proto-irc.c, IRC OUTPUT)

    One definition per sender: the texts it hands to the [tcp_send] family, in
    order.  The strings are the [printf] formats with their arguments put in. *)
From S2P Require Import Prelude Glib Casemap Text Access SendQueue.

(** What a sender hands on. *)
Inductive output :=
| Sendf (s : cstr)                                  (* tcp_sendf *)
| SendLen (s : cstr)                                (* tcp_send_len *)
| Tracked (command target s : cstr)                 (* tcp_sendf_labeled_tracked *)
| WithTags (command target key value s : cstr).     (* tcp_sendf_with_tags *)

Definition output_text (o : output) : cstr :=
  match o with Sendf s | SendLen s | Tracked _ _ s | WithTags _ _ _ _ s => s end.

Definition EOL : cstr := [CR; LF].
Definition SOH : ascii := "001".

Inductive login_method := LOGIN_PASS | LOGIN_MSG_NICKSERV | LOGIN_NICKSERV | LOGIN_CHALLENGEAUTH | LOGIN_OTHER.

Definition CHALLENGEAUTH_NICK : cstr := "Q@CServe.quakenet.org".

(** A format with string arguments: the pieces in order. *)
Definition fmt (pieces : list cstr) : cstr := concat pieces.

Definition irc_login (password : cstr) (loginmethod : login_method) (nick user realname : cstr) : list output :=
  [Sendf (fmt [("CAP LS 302" : cstr); EOL])] ++
  (match password, loginmethod with
   | c :: _, LOGIN_PASS =>
       [Sendf (fmt [("PASS " : cstr); (if (c =c ":") || strchr_b password " " then ":" else "") : cstr;
                    password; EOL])]
   | _, _ => []
   end) ++
  [Sendf (fmt [("NICK " : cstr); nick; EOL; ("USER " : cstr); user; (" 0 * :" : cstr); realname; EOL])].

Definition irc_nickserv (loginmethod : login_method) (cmd arg1 arg2 arg3 : cstr) : list output :=
  match loginmethod with
  | LOGIN_MSG_NICKSERV =>
      [Sendf (fmt [("PRIVMSG NICKSERV :" : cstr); cmd; (" " : cstr); arg1; arg2; arg3; EOL])]
  | _ => [Sendf (fmt [("NICKSERV " : cstr); cmd; (" " : cstr); arg1; arg2; arg3; EOL])]
  end.

Definition irc_ns_identify (loginmethod : login_method) (pass : cstr) : list output :=
  match loginmethod with
  | LOGIN_CHALLENGEAUTH => [Sendf (fmt [("PRIVMSG " : cstr); CHALLENGEAUTH_NICK; (" :CHALLENGE" : cstr); EOL])]
  | _ => irc_nickserv loginmethod "IDENTIFY" pass [] []
  end.

Definition irc_ns_ghost (loginmethod : login_method) (usname pass : cstr) : list output :=
  match loginmethod with
  | LOGIN_CHALLENGEAUTH => []
  | _ => irc_nickserv loginmethod "GHOST" usname " " pass
  end.

Definition irc_join (channel key : cstr) : list output :=
  match key with
  | _ :: _ => [Sendf (fmt [("JOIN " : cstr); channel; (" " : cstr); key; EOL])]
  | [] => [Sendf (fmt [("JOIN " : cstr); channel; EOL])]
  end.

(** *** Joining a list *)

Record favchannel := FavChannel { fav_name : cstr; fav_key : option cstr }.

Record join_state := JoinState {
  first_item : bool; send_keys : bool; join_len : Z; chanlist : cstr; keylist : cstr }.

Definition join_start : join_state := JoinState true false 9 [] [].

Definition irc_join_list_flush (st : join_state) : output :=
  if send_keys st
  then Sendf (fmt [("JOIN " : cstr); chanlist st; (" " : cstr); keylist st; EOL])
  else Sendf (fmt [("JOIN " : cstr); chanlist st; EOL]).

Fixpoint join_loop (favs : list favchannel) (st : join_state) : list output :=
  match favs with
  | [] => [irc_join_list_flush st]
  | fav :: favs =>
      let len := join_len st + Z.of_nat (length (fav_name fav)) +
        match fav_key fav with Some k => Z.of_nat (length k) | None => 0 end in
      let '(flushed, st) :=
        if 512 <=? len then ([irc_join_list_flush st], join_start)
        else ([], JoinState (first_item st) (send_keys st) len (chanlist st) (keylist st)) in
      let st :=
        if first_item st then st
        else JoinState false (send_keys st) (join_len st + 2) (chanlist st ++ [","%char])
               (keylist st ++ [","%char]) in
      let st :=
        match fav_key fav with
        | Some k => JoinState false true (join_len st) (chanlist st ++ fav_name fav) (keylist st ++ k)
        | None => JoinState false (send_keys st) (join_len st) (chanlist st ++ fav_name fav)
                    (keylist st ++ ["x"%char])
        end in
      flushed ++ join_loop favs st
  end.

Definition irc_join_list (favorites : list favchannel) : list output := join_loop favorites join_start.

(** *** The other senders *)

Definition irc_part (channel reason : cstr) : list output :=
  match reason with
  | _ :: _ => [Sendf (fmt [("PART " : cstr); channel; (" :" : cstr); reason; EOL])]
  | [] => [Sendf (fmt [("PART " : cstr); channel; EOL])]
  end.

Definition irc_quit (reason : cstr) : list output :=
  match reason with
  | _ :: _ => [Sendf (fmt [("QUIT :" : cstr); reason; EOL])]
  | [] => [SendLen (fmt [("QUIT" : cstr); EOL])]
  end.

Definition irc_set_back : list output := [SendLen (fmt [("AWAY" : cstr); EOL])].

Definition irc_set_away (reason : option cstr) : list output :=
  let reason : cstr := match reason with Some (c :: r) => c :: r | _ => [" "%char] end in
  [Sendf (fmt [("AWAY :" : cstr); reason; EOL])].

Definition irc_ctcp (to msg : cstr) : list output :=
  [Tracked "CTCP" to (fmt [("PRIVMSG " : cstr); to; (" :" : cstr); [SOH]; msg; [SOH]; EOL])].

Definition irc_nctcp (to msg : cstr) : list output :=
  [Sendf (fmt [("NOTICE " : cstr); to; (" :" : cstr); [SOH]; msg; [SOH]; EOL])].

Definition irc_cycle (channel key : cstr) : list output :=
  [Sendf (fmt [("PART " : cstr); channel; EOL; ("JOIN " : cstr); channel; (" " : cstr); key; EOL])].

Definition irc_kick (channel nick reason : cstr) : list output :=
  match reason with
  | _ :: _ => [Sendf (fmt [("KICK " : cstr); channel; (" " : cstr); nick; (" :" : cstr); reason; EOL])]
  | [] => [Sendf (fmt [("KICK " : cstr); channel; (" " : cstr); nick; EOL])]
  end.

Definition irc_invite (channel nick : cstr) : list output :=
  [Sendf (fmt [("INVITE " : cstr); nick; (" " : cstr); channel; EOL])].

Definition irc_mode (target mode : cstr) : list output :=
  [Sendf (fmt [("MODE " : cstr); target; (" " : cstr); mode; EOL])].

Definition irc_join_info (channel : cstr) : list output := [Sendf (fmt [("MODE " : cstr); channel; EOL])].

Definition irc_user_list (have_whox : bool) (channel : cstr) : list output :=
  if have_whox then [Sendf (fmt [("WHO " : cstr); channel; (" %chtsunfra,152" : cstr); EOL])]
  else [Sendf (fmt [("WHO " : cstr); channel; EOL])].

Definition irc_userhost (nick : cstr) : list output := [Sendf (fmt [("USERHOST " : cstr); nick; EOL])].

Definition irc_away_status (have_whox : bool) (channel : cstr) : list output :=
  irc_user_list have_whox channel.

Definition irc_user_whois (nicks : cstr) : list output := [Sendf (fmt [("WHOIS " : cstr); nicks; EOL])].

(** [reply_msgid] is that of the session found for the target; the flag tells
    that the session's reply state is cleared. *)
Definition irc_message (have_message_tags : bool) (reply_msgid : option cstr) (channel text : cstr)
    : list output * bool :=
  let body := fmt [("PRIVMSG " : cstr); channel; (" :" : cstr); text; EOL] in
  match reply_msgid with
  | Some id => if have_message_tags then ([WithTags "PRIVMSG" channel "+reply" id body], true)
               else ([Tracked "PRIVMSG" channel body], false)
  | None => ([Tracked "PRIVMSG" channel body], false)
  end.

Definition irc_action (have_message_tags : bool) (reply_msgid : option cstr) (channel act : cstr)
    : list output * bool :=
  let body := fmt [("PRIVMSG " : cstr); channel; (" :" : cstr); [SOH]; ("ACTION " : cstr); act; [SOH]; EOL] in
  match reply_msgid with
  | Some id => if have_message_tags then ([WithTags "ACTION" channel "+reply" id body], true)
               else ([Tracked "ACTION" channel body], false)
  | None => ([Tracked "ACTION" channel body], false)
  end.

Definition irc_notice (channel text : cstr) : list output :=
  [Tracked "NOTICE" channel (fmt [("NOTICE " : cstr); channel; (" :" : cstr); text; EOL])].

Definition irc_topic (channel : cstr) (topic : option cstr) : list output :=
  match topic with
  | None => [Sendf (fmt [("TOPIC " : cstr); channel; (" :" : cstr); EOL])]
  | Some [] => [Sendf (fmt [("TOPIC " : cstr); channel; EOL])]
  | Some t => [Sendf (fmt [("TOPIC " : cstr); channel; (" :" : cstr); t; EOL])]
  end.

(** "%d" *)
Definition int_text (n : Z) : cstr := if n <? 0 then "-"%char :: decimal 10 (- n) [] else decimal 10 n [].

Definition irc_list_channels (use_listargs : bool) (arg : cstr) (min_users : Z) : list output :=
  match arg with
  | _ :: _ => [Sendf (fmt [("LIST " : cstr); arg; EOL])]
  | [] => if use_listargs
          then [Sendf (fmt [("LIST >" : cstr); int_text (min_users - 1); (",<10000" : cstr); EOL])]
          else [SendLen (fmt [("LIST" : cstr); EOL])]
  end.

Definition irc_names (channel : cstr) : list output := [Sendf (fmt [("NAMES " : cstr); channel; EOL])].
Definition irc_change_nick (new_nick : cstr) : list output := [Sendf (fmt [("NICK " : cstr); new_nick; EOL])].

Definition irc_ping (to timestring : cstr) : list output :=
  match to with
  | _ :: _ => [Sendf (fmt [("PRIVMSG " : cstr); to; (" :" : cstr); [SOH]; ("PING " : cstr); timestring; [SOH]; EOL])]
  | [] => [Sendf (fmt [("PING " : cstr); timestring; EOL])]
  end.

Definition irc_raw (raw : cstr) : list output :=
  match raw with
  | [] => []
  | _ => if Z.of_nat (length raw) <? 4096 - 3 then [SendLen (raw ++ EOL)]
         else [SendLen raw; SendLen EOL]
  end.

(** ** The JOIN list *)

Fixpoint commas (l : list cstr) : cstr :=
  match l with [] => [] | [x] => x | x :: l => x ++ ","%char :: commas l end.

Definition key_or_x (f : favchannel) : cstr := default ["x"%char] (fav_key f).
Definition has_key (f : favchannel) : bool := match fav_key f with Some _ => true | None => false end.

(** One JOIN for a group of favourites. *)
Definition group_output (g : list favchannel) : output :=
  if existsb has_key g
  then Sendf (fmt [("JOIN " : cstr); commas (map fav_name g); (" " : cstr); commas (map key_or_x g); EOL])
  else Sendf (fmt [("JOIN " : cstr); commas (map fav_name g); EOL]).

Lemma commas_snoc l x : commas (l ++ [x]) = match l with [] => x | _ => commas l ++ ","%char :: x end.
Proof.
  induction l as [|y l IH]; [done|]. simpl. destruct l as [|z l]; simpl; [done|].
  simpl in IH. rewrite IH. by rewrite <- app_assoc.
Qed.

Definition collected (g : list favchannel) (st : join_state) : Prop :=
  first_item st = match g with [] => true | _ => false end /\ send_keys st = existsb has_key g /\
  chanlist st = commas (map fav_name g) /\ keylist st = commas (map key_or_x g).

Lemma collected_add g st fav len :
  collected g st ->
  let st := JoinState (first_item st) (send_keys st) len (chanlist st) (keylist st) in
  let st := if first_item st then st
            else JoinState false (send_keys st) (join_len st + 2) (chanlist st ++ [","%char])
                   (keylist st ++ [","%char]) in
  collected (g ++ [fav])
    match fav_key fav with
    | Some k => JoinState false true (join_len st) (chanlist st ++ fav_name fav) (keylist st ++ k)
    | None => JoinState false (send_keys st) (join_len st) (chanlist st ++ fav_name fav)
                (keylist st ++ ["x"%char])
    end.
Proof.
  intros (H1 & H2 & H3 & H4). destruct st as [f sk len' cl kl]. cbn in *. subst.
  unfold collected. rewrite !map_app, existsb_app. simpl map. rewrite !commas_snoc.
  assert (Hk : key_or_x fav = default ["x"%char] (fav_key fav)) by done. rewrite Hk.
  assert (Hh : existsb has_key [fav] = match fav_key fav with Some _ => true | None => false end).
  { simpl. unfold has_key. by destruct (fav_key fav). }
  rewrite Hh. destruct g as [|g0 g]; destruct (fav_key fav) as [k|]; cbn;
    rewrite ?orb_true_r, ?orb_false_r; split_and!; try done; by rewrite <- app_assoc.
Qed.

Lemma join_loop_spec favs g st :
  collected g st ->
  exists groups, join_loop favs st = map group_output groups /\ concat groups = g ++ favs.
Proof.
  revert g st; induction favs as [|fav favs IH]; intros g st Hst; cbn [join_loop].
  - exists [g]. split; [|simpl; by rewrite app_nil_r]. destruct Hst as (_ & H2 & H3 & H4). simpl.
    unfold irc_join_list_flush, group_output. by rewrite H2, H3, H4.
  - set (len := join_len st + _ + _). destruct (512 <=? len).
    + destruct (IH [fav] _ (collected_add [] join_start fav 9 ltac:(by split_and!))) as (groups & Hg & Hc).
      cbn [app] in Hg. exists (g :: groups). cbn [map app]. split; [|simpl; by rewrite Hc].
      assert (irc_join_list_flush st = group_output g) as ->.
      { destruct Hst as (_ & H2 & H3 & H4). unfold irc_join_list_flush, group_output. by rewrite H2, H3, H4. }
      f_equal. exact Hg.
    + destruct (IH (g ++ [fav]) _ (collected_add g st fav len Hst)) as (groups & Hg & Hc).
      exists groups. split; [exact Hg|]. by rewrite Hc, <- app_assoc.
Qed.

(** [irc_join_list] joins every favourite once and in order, each JOIN naming
    its channels with their keys in the same positions ("x" for none), and the
    keys left out when no channel of the line has one. *)
Theorem irc_join_list_complete favorites :
  exists groups, irc_join_list favorites = map group_output groups /\ concat groups = favorites.
Proof. apply (join_loop_spec favorites [] join_start). by split_and!. Qed.

(** The count starts over at 9 when a line is flushed, without the channel
    that caused the flush: three names of 300 bytes give a JOIN longer than the
    512 bytes the code means to stay under. *)
Theorem irc_join_list_overlong :
  let fav c := FavChannel (replicate 300 c) None in
  exists a b, irc_join_list [fav "a"; fav "b"; fav "c"]%char = [a; b] /\
    length (output_text b) = 608%nat.
Proof. do 2 eexists. split; [by vm_compute|]. by vm_compute. Qed.

(** A raw line of 4093 bytes or more is queued apart from its CR LF; when the
    throttle holds both, the line end has the higher priority and goes first. *)
Theorem irc_raw_split_by_priority :
  let raw : cstr := "PRIVMSG #a :" ++ replicate 4081 "x"%char in
  let held := put_clock 100 0 online in
  let s := foldl (fun s o => tcp_send_len 0 (output_text o) s) held (irc_raw raw) in
  map output_text (irc_raw raw) = [raw; EOL] /\
  payload <$> wire (timer_tick 100 s) = [EOL; raw].
Proof. by vm_compute. Qed.
