(* ===== verification/ProtoSpec.v ===== *)
(** * Outgoing IRC commands: what a server reads (src/common/proto-irc.c)

    The grammar of RFC 1459 as a reader of lines, what each call of the protocol
    table stands for, and that the one reads from the other. *)
From S2P Require Import Prelude Glib Casemap Text Access SendQueue Proto.

(** ** What a server reads *)

(** The lines of a text that is made of whole lines, each ended by CR LF. *)
Fixpoint read_lines (cur s : cstr) : option (list cstr) :=
  match s with
  | [] => match cur with [] => Some [] | _ => None end
  | c :: s =>
      if c =c CR then
        match s with d :: s => if d =c LF then cons cur <$> read_lines [] s else None | [] => None end
      else if c =c LF then None else read_lines (cur ++ [c]) s
  end.

Definition keep (cur : cstr) : list cstr := match cur with [] => [] | _ => [cur] end.

(** The command and its parameters: words between spaces, but what follows a
    space and a colon is one parameter to the end of the line. *)
Fixpoint words (cur s : cstr) : list cstr :=
  match s with
  | [] => keep cur
  | c :: s =>
      if c =c " " then
        keep cur ++ match s with d :: t => if d =c ":" then [t] else words [] s | [] => [] end
      else words (cur ++ [c]) s
  end.

(** A message with the client tags it is given. *)
Record message := Message { m_tags : list (cstr * cstr); m_words : list cstr }.

Definition output_tags (o : output) : list (cstr * cstr) := match o with WithTags _ _ k v _ => [(k, v)] | _ => [] end.

Definition read_output (o : output) : option (list message) :=
  map (fun l => Message (output_tags o) (words [] l)) <$> read_lines [] (output_text o).

Definition read_outputs (l : list output) : option (list message) := (fun ms => concat ms) <$> mapM read_output l.

(** No line end in it. *)
Definition line_safe (s : cstr) : Prop := (CR ∉ s) /\ (LF ∉ s).
(** One parameter anywhere in the line. *)
Definition middle (s : cstr) : Prop := line_safe s /\ s <> [] /\ (" "%char ∉ s) /\ peek s <> ":"%char.
(** Words at the end of the line. *)
Definition plain (s : cstr) : Prop := line_safe s /\ peek s <> ":"%char.

(** ** The protocol table *)

(** The calls through [serv->p_*], [irc_raw] and the JOIN list apart. *)
Inductive command :=
| PLogin (password : cstr) (method : login_method) (nick user realname : cstr)
| PNsIdentify (method : login_method) (pass : cstr)
| PNsGhost (method : login_method) (usname pass : cstr)
| PJoin (channel key : cstr) | PPart (channel reason : cstr) | PQuit (reason : cstr)
| PSetBack | PSetAway (reason : option cstr) | PCtcp (to msg : cstr) | PNctcp (to msg : cstr)
| PCycle (channel key : cstr) | PKick (channel nick reason : cstr) | PInvite (channel nick : cstr)
| PMode (target mode : cstr) | PJoinInfo (channel : cstr) | PUserList (whox : bool) (channel : cstr)
| PUserhost (nick : cstr) | PAwayStatus (whox : bool) (channel : cstr) | PUserWhois (nicks : cstr)
| PMessage (tags : bool) (reply : option cstr) (channel text : cstr)
| PAction (tags : bool) (reply : option cstr) (channel act : cstr)
| PNotice (channel text : cstr) | PTopic (channel : cstr) (topic : option cstr)
| PListChannels (listargs : bool) (arg : cstr) (min_users : Z) | PNames (channel : cstr)
| PChangeNick (nick : cstr) | PPing (to timestring : cstr).

Definition perform (c : command) : list output :=
  match c with
  | PLogin pw m n u r => irc_login pw m n u r
  | PNsIdentify m p => irc_ns_identify m p
  | PNsGhost m u p => irc_ns_ghost m u p
  | PJoin c k => irc_join c k
  | PPart c r => irc_part c r
  | PQuit r => irc_quit r
  | PSetBack => irc_set_back
  | PSetAway r => irc_set_away r
  | PCtcp t m => irc_ctcp t m
  | PNctcp t m => irc_nctcp t m
  | PCycle c k => irc_cycle c k
  | PKick c n r => irc_kick c n r
  | PInvite c n => irc_invite c n
  | PMode t m => irc_mode t m
  | PJoinInfo c => irc_join_info c
  | PUserList w c => irc_user_list w c
  | PUserhost n => irc_userhost n
  | PAwayStatus w c => irc_away_status w c
  | PUserWhois n => irc_user_whois n
  | PMessage tg r c t => fst (irc_message tg r c t)
  | PAction tg r c a => fst (irc_action tg r c a)
  | PNotice c t => irc_notice c t
  | PTopic c t => irc_topic c t
  | PListChannels l a m => irc_list_channels l a m
  | PNames c => irc_names c
  | PChangeNick n => irc_change_nick n
  | PPing t s => irc_ping t s
  end.

(** What each call stands for, in the words of the protocol. *)
Definition optional (s : cstr) : list cstr := keep s.
Definition says (l : list cstr) : message := Message [] l.
Definition cmd (name : string) (l : list cstr) : message := says (list_ascii_of_string name :: l).

Definition nickserv_says (m : login_method) (l : list cstr) (text : cstr) : list message :=
  match m with LOGIN_MSG_NICKSERV => [cmd "PRIVMSG" [("NICKSERV" : cstr); text]] | _ => [cmd "NICKSERV" l] end.

Definition quoted (kind : string) (text : cstr) : cstr := [SOH] ++ list_ascii_of_string kind ++ text ++ [SOH].

Definition private (tags : bool) (reply : option cstr) (channel text : cstr) : message :=
  Message match reply with Some id => if tags then [(("+reply" : cstr), id)] else [] | None => [] end [("PRIVMSG" : cstr); channel; text].

Definition meaning (c : command) : list message :=
  match c with
  | PLogin pw m n u r =>
      [cmd "CAP" [("LS" : cstr); ("302" : cstr)]] ++
      match pw, m with _ :: _, LOGIN_PASS => [cmd "PASS" [pw]] | _, _ => [] end ++
      [cmd "NICK" [n]; cmd "USER" [u; ("0" : cstr); ("*" : cstr); r]]
  | PNsIdentify LOGIN_CHALLENGEAUTH _ => [cmd "PRIVMSG" [CHALLENGEAUTH_NICK; ("CHALLENGE" : cstr)]]
  | PNsIdentify m p => nickserv_says m [("IDENTIFY" : cstr); p] ("IDENTIFY " ++ p)
  | PNsGhost LOGIN_CHALLENGEAUTH _ _ => []
  | PNsGhost m u p => nickserv_says m [("GHOST" : cstr); u; p] ("GHOST " ++ u ++ (" " : cstr) ++ p)
  | PJoin c k => [cmd "JOIN" (c :: optional k)]
  | PPart c r => [cmd "PART" (c :: optional r)]
  | PQuit r => [cmd "QUIT" (optional r)]
  | PSetBack => [cmd "AWAY" []]
  | PSetAway r => [cmd "AWAY" [match r with Some (c :: r) => c :: r | _ => [" "%char] end]]
  | PCtcp t m => [cmd "PRIVMSG" [t; quoted "" m]]
  | PNctcp t m => [cmd "NOTICE" [t; quoted "" m]]
  | PCycle c k => [cmd "PART" [c]; cmd "JOIN" (c :: optional k)]
  | PKick c n r => [cmd "KICK" (c :: n :: optional r)]
  | PInvite c n => [cmd "INVITE" [n; c]]
  | PMode t m => [cmd "MODE" (t :: words [] m)]
  | PJoinInfo c => [cmd "MODE" [c]]
  | PUserList w c | PAwayStatus w c => [cmd "WHO" (c :: if w then [("%chtsunfra,152" : cstr)] else [])]
  | PUserhost n => [cmd "USERHOST" (words [] n)]
  | PUserWhois n => [cmd "WHOIS" (words [] n)]
  | PMessage tg r c t => [private tg r c t]
  | PAction tg r c a => [private tg r c (quoted "ACTION " a)]
  | PNotice c t => [cmd "NOTICE" [c; t]]
  | PTopic c None => [cmd "TOPIC" [c; []]]
  | PTopic c (Some t) => [cmd "TOPIC" (c :: optional t)]
  | PListChannels _ (x :: a) _ => [cmd "LIST" (words [] (x :: a))]
  | PListChannels l [] n => [cmd "LIST" (if l then [">"%char :: int_text (n - 1) ++ (",<10000" : cstr)] else [])]
  | PNames c => [cmd "NAMES" (words [] c)]
  | PChangeNick n => [cmd "NICK" [n]]
  | PPing (x :: t) s => [cmd "PRIVMSG" [x :: t; quoted "PING " s]]
  | PPing [] s => [cmd "PING" (words [] s)]
  end.

(** The arguments fit their place in the line. *)
Definition fits (c : command) : Prop :=
  match c with
  | PLogin pw _ n u r => line_safe pw /\ middle n /\ middle u /\ line_safe r
  | PNsIdentify _ p => middle p
  | PNsGhost _ u p => middle u /\ middle p
  | PJoin c k | PCycle c k => middle c /\ (k = [] \/ middle k)
  | PPart c r | PCtcp c r | PNctcp c r | PMessage _ _ c r | PAction _ _ c r | PNotice c r => middle c /\ line_safe r
  | PQuit r => line_safe r
  | PSetBack => True
  | PSetAway r => line_safe (default [] r)
  | PKick c n r => middle c /\ middle n /\ line_safe r
  | PInvite c n => middle c /\ middle n
  | PMode t m => middle t /\ plain m
  | PJoinInfo c | PUserList _ c | PAwayStatus _ c | PChangeNick c => middle c
  | PUserhost n | PUserWhois n | PNames n => plain n
  | PTopic c t => middle c /\ line_safe (default [] t)
  | PListChannels _ a _ => plain a
  | PPing t s => (t = [] \/ middle t) /\ plain s
  end.

Lemma decimal_holds_no c fuel n acc : uchar c < 48 -> c ∉ acc -> c ∉ decimal fuel n acc.
Proof.
  intros Hc. revert n acc. induction fuel as [|fuel IH]; intros n acc Ha; [done|]. cbn [decimal].
  assert (Hs : c ∉ ascii_of_N (Z.to_N (48 + n mod 10)) :: acc).
  { assert (Hd : 0 <= n mod 10 < 10) by (apply Z.mod_pos_bound; lia). apply not_elem_of_cons. split; [|done].
    intros ->. unfold uchar in Hc. rewrite N_ascii_embedding in Hc by lia. lia. }
  destruct (_ =? _); [done|]. by apply IH.
Qed.

Lemma int_text_digits c n : uchar c < 48 -> c <> "-"%char -> c ∉ int_text n.
Proof.
  intros Hc Hm. unfold int_text. destruct (n <? 0); [apply not_elem_of_cons; split; [done|]|];
    apply decimal_holds_no; (done || apply not_elem_of_nil).
Qed.

Lemma int_text_safe n : line_safe (int_text n).
Proof. split; by apply int_text_digits. Qed.

(** *** Reading what was written *)

Lemma read_lines_safe cur s t : line_safe s -> read_lines cur (s ++ t) = read_lines (cur ++ s) t.
Proof.
  revert cur. induction s as [|c s IH]; intros cur [H1 H2]; [by rewrite app_nil_r|].
  apply not_elem_of_cons in H1 as [C1 H1], H2 as [C2 H2]. cbn [app read_lines].
  rewrite (proj2 (Ascii.eqb_neq c CR)), (proj2 (Ascii.eqb_neq c LF)) by congruence. rewrite IH by done. by rewrite <- app_assoc.
Qed.

Lemma read_lines_eol cur t : read_lines cur (EOL ++ t) = cons cur <$> read_lines [] t.
Proof. done. Qed.

(** The pieces of a format up to the end of a line. *)
Lemma read_line (ps : list cstr) t :
  Forall line_safe ps -> read_lines [] (concat ps ++ EOL ++ t) = cons (concat ps) <$> read_lines [] t.
Proof.
  intros Hp. rewrite <- read_lines_eol. assert (E : forall cur, read_lines cur (concat ps ++ EOL ++ t) = read_lines (cur ++ concat ps) (EOL ++ t)); [|by rewrite E].
  induction Hp as [|p ps Hp Hps IH]; intros cur; cbn [concat]; [by rewrite app_nil_r|].
  rewrite <- app_assoc, read_lines_safe by done. by rewrite IH, <- app_assoc.
Qed.

Lemma words_safe cur s t : " "%char ∉ s -> words cur (s ++ t) = words (cur ++ s) t.
Proof.
  revert cur. induction s as [|c s IH]; intros cur Hs; [by rewrite app_nil_r|]. apply not_elem_of_cons in Hs as [Hc Hs].
  cbn [app words]. rewrite (proj2 (Ascii.eqb_neq c " ")) by congruence. rewrite IH by done. by rewrite <- app_assoc.
Qed.

(** What stands behind a space. *)
Definition params (s : cstr) : list cstr := match s with d :: t => if d =c ":" then [t] else words [] s | [] => [] end.

Lemma words_space cur t : words cur ((" " : cstr) ++ t) = keep cur ++ params t.
Proof. done. Qed.

Lemma keep_full cur : cur <> [] -> keep cur = [cur].
Proof. by destruct cur. Qed.

Lemma params_plain s : peek s <> ":"%char -> params s = words [] s.
Proof. destruct s as [|d s]; [done|]. cbn. intros Hd. by rewrite (proj2 (Ascii.eqb_neq d ":")) by done. Qed.

(** A parameter, before another one or at the end. *)
Lemma params_middle s t : middle s -> params (s ++ (" " : cstr) ++ t) = s :: params t.
Proof.
  intros (_ & Hs & Hsp & Hc). rewrite params_plain by by destruct s. rewrite words_safe, app_nil_l, words_space, keep_full by done. done.
Qed.

Lemma params_last s : middle s -> params s = [s].
Proof.
  intros (_ & Hs & Hsp & Hc). rewrite params_plain by done. rewrite <- (app_nil_r s) at 1. rewrite words_safe by done. cbn. by rewrite keep_full.
Qed.

Lemma params_trail t : params ((":" : cstr) ++ t) = [t].
Proof. done. Qed.

Lemma params_text s t : middle s -> params (s ++ (" :" : cstr) ++ t) = [s; t].
Proof. apply (params_middle s ((":" : cstr) ++ t)). Qed.

Lemma params_key c k : middle c -> k = [] \/ middle k -> params (c ++ (" " : cstr) ++ k) = c :: optional k.
Proof.
  intros Hc [->|Hk]; rewrite params_middle by done; [done|]. rewrite params_last by done. destruct Hk as (_ & Hk & _). unfold optional. by rewrite keep_full.
Qed.

(** The name of a command, as it begins a format. *)
Definition names_command (x : string) : bool :=
  match last (list_ascii_of_string x) with Some c => c =c " " | None => false end &&
  forallb (fun c => negb (c =c " ")) (removelast (list_ascii_of_string x)) && negb (bool_decide (removelast (list_ascii_of_string x) = [])).

Lemma words_command x t :
  names_command x = true -> words [] (list_ascii_of_string x ++ t) = removelast (list_ascii_of_string x) :: params t.
Proof.
  unfold names_command. intros H. apply andb_prop in H as [H Hne]. apply andb_prop in H as [Hl Hall]. set (l := list_ascii_of_string x) in *.
  destruct (last l) as [c|] eqn:El; [|done]. apply Ascii.eqb_eq in Hl as ->. apply last_Some in El as [v El]. rewrite El in *.
  rewrite removelast_last in *. rewrite <- app_assoc, words_safe, app_nil_l; [|intros Hin; by apply (forallb_elem _ _ Hall) in Hin].
  rewrite words_space, keep_full; [done|]. by apply negb_true_iff, bool_decide_eq_false in Hne.
Qed.

Lemma line_safe_app s t : line_safe s -> line_safe t -> line_safe (s ++ t).
Proof. intros [H1 H2] [H3 H4]. split; by rewrite elem_of_app; intros [?|?]. Qed.

Lemma line_safe_plain (s : cstr) : bool_decide ((CR ∉ s) /\ (LF ∉ s)) = true -> line_safe s.
Proof. by intros ?%bool_decide_eq_true. Qed.

Lemma read_output_line o (ps : list cstr) :
  output_text o = fmt (ps ++ [EOL]) -> Forall line_safe ps -> read_output o = Some [Message (output_tags o) (words [] (concat ps))].
Proof.
  intros E Hp. unfold read_output. rewrite E. unfold fmt. rewrite concat_app. cbn [concat]. by rewrite (read_line ps []).
Qed.

(** Two lines in one text. *)
Lemma read_output_two o (ps qs : list cstr) :
  output_text o = fmt (ps ++ [EOL] ++ qs ++ [EOL]) -> Forall line_safe ps -> Forall line_safe qs ->
  read_output o = Some [Message (output_tags o) (words [] (concat ps)); Message (output_tags o) (words [] (concat qs))].
Proof.
  intros E Hp Hq. unfold read_output. rewrite E. unfold fmt. rewrite !concat_app. cbn [concat]. rewrite app_nil_r.
  rewrite (read_line ps) by done. by rewrite <- (app_nil_r EOL), (read_line qs []).
Qed.

Lemma read_outputs_cons o l : read_outputs (o :: l) = ms ← read_output o; ms' ← read_outputs l; Some (ms ++ ms').
Proof. unfold read_outputs. cbn [mapM]. destruct (read_output o); [|done]. cbn. by destruct (mapM read_output l). Qed.

Ltac safe :=
  first [ assumption | apply int_text_safe | apply line_safe_plain; by vm_compute
        | match goal with H : middle ?x |- line_safe ?x => apply H | H : plain ?x |- line_safe ?x => apply H end
        | match goal with H : ?x = [] \/ middle ?x |- line_safe ?x => destruct H as [->|H]; [by apply line_safe_plain|apply H] end
        | progress (repeat case_match); safe ].

Ltac safes := repeat first [apply Forall_nil_2 | apply Forall_cons_2; [safe|]].

(** Reads the one line that is handed on. *)
Ltac read :=
  rewrite read_outputs_cons;
  match goal with |- context [read_output ?o] =>
    let t := eval cbn [output_text] in (output_text o) in
    match t with fmt ?l =>
      let ps := eval cbn [removelast] in (removelast l) in
      rewrite (read_output_line o ps eq_refl) by safes
    end
  end; cbn [mbind option_bind concat app output_tags]; rewrite ?app_nil_r.

Ltac parse :=
  repeat first
    [ rewrite words_command by (vm_compute; reflexivity)
    | rewrite params_key by assumption
    | rewrite params_text by assumption
    | rewrite params_middle by assumption
    | rewrite params_last by assumption
    | rewrite params_plain by (match goal with H : plain ?x |- _ => apply H end) ].

Ltac parts := repeat match goal with H : _ /\ _ |- _ => destruct H end.

(** The senders with cases of their own. *)
Lemma params_who c : middle c -> params (c ++ list_ascii_of_string " %chtsunfra,152") = [c; ("%chtsunfra,152" : cstr)].
Proof. apply (params_middle c "%chtsunfra,152"). Qed.

Lemma params_empty c : middle c -> params (c ++ list_ascii_of_string " :") = [c; []].
Proof. apply (params_middle c ":"). Qed.

Lemma params_word x s :
  bool_decide ((CR ∉ list_ascii_of_string x) /\ (LF ∉ list_ascii_of_string x) /\ list_ascii_of_string x <> [] /\
    (" "%char ∉ list_ascii_of_string x) /\ peek (list_ascii_of_string x) <> ":"%char) = true ->
  params (list_ascii_of_string x ++ (" " : cstr) ++ s) = list_ascii_of_string x :: params s.
Proof. intros (?&?&?&?&?)%bool_decide_eq_true. by apply params_middle. Qed.

Lemma login_read pw m n u r :
  fits (PLogin pw m n u r) -> read_outputs (irc_login pw m n u r) = Some (meaning (PLogin pw m n u r)).
Proof.
  intros (Hp & Hn & Hu & Hr). unfold irc_login. cbn [meaning].
  match goal with |- context [_ ++ [Sendf (fmt (_ :: _ :: ?l))]] => set (ls := l); match goal with |- context [[Sendf (fmt (?a :: ?b :: ls))]] => set (o := Sendf (fmt (a :: b :: ls))) end end.
  assert (Last : read_outputs [o] = Some [cmd "NICK" [n]; cmd "USER" [u; ("0" : cstr); ("*" : cstr); r]]).
  { rewrite read_outputs_cons.
    rewrite (read_output_two o [("NICK " : cstr); n] [("USER " : cstr); u; (" 0 * :" : cstr); r] eq_refl); [|safes..].
    cbn [mbind option_bind concat app output_tags]. rewrite !app_nil_r. parse.
    change (params (u ++ (" 0 * :" : cstr) ++ r)) with (params (u ++ (" " : cstr) ++ ("0 * :" : cstr) ++ r)).
    by rewrite params_middle by done. }
  cbn [app]. clearbody o. clear ls. read.
  destruct pw as [|x pw]; [cbn [app]; rewrite Last; reflexivity|]. destruct m; try (cbn [app]; rewrite Last; reflexivity).
  cbn [app]. set (q := if _ || _ then _ else _).
  assert (Hq : line_safe q) by (subst q; by destruct (_ || _); apply line_safe_plain). read. rewrite Last. cbn [mbind option_bind app].
  assert (E : words [] (list_ascii_of_string "PASS " ++ q ++ x :: pw) = [("PASS" : cstr); x :: pw]); [|by rewrite E].
  assert (Ep : params (q ++ x :: pw) = [x :: pw]); [|parse; by rewrite Ep].
  subst q. destruct (Ascii.eqb_spec x ":") as [->|Hx]; [reflexivity|]. cbn [orb].
  destruct (strchr_b (x :: pw) " ") eqn:Es; [reflexivity|]. apply params_last. split; [done|]. split; [done|]. split; [|done].
  intros Hin. apply (strchr_b_spec (x :: pw) " ") in Hin; [congruence|done].
Qed.

Lemma cycle_read c k : fits (PCycle c k) -> read_outputs (irc_cycle c k) = Some (meaning (PCycle c k)).
Proof.
  intros [Hc Hk]. unfold irc_cycle. rewrite read_outputs_cons.
  match goal with |- context [read_output ?o] => rewrite (read_output_two o [("PART " : cstr); c] [("JOIN " : cstr); c; (" " : cstr); k] eq_refl) end; [|safes..].
  cbn [mbind option_bind concat app output_tags]. rewrite !app_nil_r. parse. reflexivity.
Qed.

Lemma list_read l a m : fits (PListChannels l a m) -> read_outputs (irc_list_channels l a m) = Some (meaning (PListChannels l a m)).
Proof.
  intros H. unfold irc_list_channels. destruct a as [|x a]; [destruct l|]; cbn [fits] in H; read.
  - assert (E : words [] (list_ascii_of_string "LIST >" ++ int_text (m - 1) ++ list_ascii_of_string ",<10000") =
      [("LIST" : cstr); ">"%char :: int_text (m - 1) ++ list_ascii_of_string ",<10000"]); [|by rewrite E].
    transitivity (("LIST" : cstr) :: words [">"%char] (int_text (m - 1) ++ list_ascii_of_string ",<10000")); [reflexivity|].
    rewrite (words_safe _ (int_text (m - 1))) by (apply int_text_digits; [vm_compute; reflexivity|discriminate]).
    rewrite <- (app_nil_r (list_ascii_of_string ",<10000")) at 1. rewrite words_safe by (by apply (bool_decide_unpack _); vm_compute). reflexivity.
  - reflexivity.
  - parse. reflexivity.
Qed.


