(* ===== verification/Tags.v ===== *)
(** * Message tags and incoming lines (src/common/proto-irc.c)

    Escaping of tag values, the tags of a line, server times, and the part of
    [irc_inline] that splits a line and chooses its handler.  [mktime] and the
    timezone come from the C library and the environment: they are the
    interface [Clock]. *)
From S2P Require Import Prelude Glib Casemap Text Access Isupport Modes Words Server.

(** ** Tag values *)

Definition escape_char (c : ascii) : cstr :=
  if c =c ";" then "\:" else if c =c " " then "\s" else if c =c "\" then "\\"
  else if c =c CR then "\r" else if c =c LF then "\n" else [c].

Definition escape_tag_value (value : cstr) : cstr := concat (map escape_char value).

Fixpoint unescape_tag_value (value : cstr) : cstr :=
  match value with
  | [] => []
  | p :: rest =>
      if p =c "\" then
        match rest with
        | [] => [p]
        | q :: rest =>
            (if q =c ":" then [";"%char] else if q =c "s" then [" "%char] else if q =c "\" then ["\"%char]
             else if q =c "r" then [CR] else if q =c "n" then [LF] else ["\"%char; q]) ++
            unescape_tag_value rest
        end
      else p :: unescape_tag_value rest
  end.

(** ** Server times *)

Record tm := Tm { tm_year : Z; tm_mon : Z; tm_mday : Z; tm_hour : Z; tm_min : Z; tm_sec : Z; tm_isdst : Z }.

(** libc's [mktime] and the value of [get_timezone]. *)
Class Clock := { mktime : tm -> Z; get_timezone : Z }.

(** "%d": blanks, a sign, digits; the number and the rest. *)
Fixpoint scan_digits (s : cstr) (acc : Z) : Z * cstr :=
  match s with
  | c :: s' => if isdigit c then scan_digits s' (10 * acc + (uchar c - 48)) else (acc, s)
  | [] => (acc, [])
  end.

Definition isspace (c : ascii) : bool := (c =c " ") || ((9 <=? uchar c) && (uchar c <=? 13)).

Fixpoint skip_blanks (s : cstr) : cstr :=
  match s with c :: s' => if isspace c then skip_blanks s' else s | [] => [] end.

Definition scan_int (s : cstr) : option (Z * cstr) :=
  let s := skip_blanks s in
  let '(neg, s) := match s with
                   | c :: s' => if c =c "-" then (true, s') else if c =c "+" then (false, s') else (false, s)
                   | [] => (false, [])
                   end in
  match s with
  | c :: _ => if isdigit c then let '(n, rest) := scan_digits s 0 in Some (if neg then - n else n, rest) else None
  | [] => None
  end.

Definition scan_char (c : ascii) (s : cstr) : option cstr :=
  match s with d :: s => if d =c c then Some s else None | [] => None end.

(** [sscanf (s, "%d-%d-%dT%d:%d:%d", ...)] where all six are assigned. *)
Definition scan_time (s : cstr) : option tm :=
  '(y, s) ← scan_int s; s ← scan_char "-" s; '(mo, s) ← scan_int s; s ← scan_char "-" s;
  '(d, s) ← scan_int s; s ← scan_char "T" s; '(h, s) ← scan_int s; s ← scan_char ":" s;
  '(mi, s) ← scan_int s; s ← scan_char ":" s; '(sec, s) ← scan_int s;
  Some (Tm (wrap_i32 (strtol_int y - 1900)) (wrap_i32 (strtol_int mo - 1)) (strtol_int d) (strtol_int h)
          (strtol_int mi) (strtol_int sec) 0).

Definition ends_with_Z (s : cstr) : bool :=
  match last s with Some c => c =c "Z" | None => false end.

Section time.
Context `{Clock}.

Definition parse_iso8601_to_time_t (timestr : option cstr) : Z :=
  match timestr with
  | None | Some [] => -1
  | Some s =>
      if ends_with_Z s then
        match scan_time s with
        | None => -1
        | Some t => let result := mktime t in if result <? 0 then -1 else result - get_timezone
        end
      else
        match scan_int s with Some (n, _) => Z.max (- 2 ^ 63) (Z.min (2 ^ 63 - 1) n) | None => 0 end
  end.

(** [tags_data->timestamp] afterwards. *)
Definition handle_message_tag_time (time : cstr) (timestamp : Z) : Z :=
  match time with
  | [] => timestamp
  | _ =>
      if ends_with_Z time then
        match scan_time time with
        | None => timestamp
        | Some t => let ts := mktime t in if ts <? 0 then 0 else ts - get_timezone
        end
      else
        match scan_int time with
        | Some (n, _) => Z.max (- 2 ^ 63) (Z.min (2 ^ 63 - 1) n)
        | None => timestamp
        end
  end.
End time.

(** ** The tags of a line *)

Record caps := Caps {
  have_message_tags : bool; have_batch : bool; have_account_tag : bool; have_idmsg : bool;
  have_server_time : bool; have_labeled_response : bool }.

Record message_tags_data := TagsData {
  account : option cstr;
  identified : bool;
  timestamp : Z;
  batch_id : option cstr;
  msgid : option cstr;
  tag_label : option cstr;
  all_tags : option (gmap cstr cstr);
  oper : option cstr }.

Definition MESSAGE_TAGS_DATA_INIT : message_tags_data := TagsData None false 0 None None None None None.

Section tags.
Context `{GLib} `{Clock} (serv : caps).

(** One element of the split tag list. *)
Definition split_tag (tag : cstr) : cstr * cstr :=
  match index_of "=" tag with
  | Some i => (take i tag, unescape_tag_value (drop (S i) tag))
  | None => (tag, [])
  end.

Definition handle_tag (t : message_tags_data) (tag : cstr) : message_tags_data :=
  let '(key, value) := split_tag tag in
  let named (n : string) := bool_decide (key = n) in
  let is_oper := named "draft/oper" in
  TagsData
    (if negb is_oper && (have_account_tag serv && named "account") then Some value else account t)
    (if have_idmsg serv && named "solanum.chat/identified" then true else identified t)
    (if have_server_time serv && named "time" then handle_message_tag_time value (timestamp t) else timestamp t)
    (if named "batch" && have_batch serv then Some value else batch_id t)
    (if have_message_tags serv && named "msgid" then Some value else msgid t)
    (if have_labeled_response serv && named "label" then Some value else tag_label t)
    (match all_tags t with
     | Some m => if have_message_tags serv || have_batch serv then Some (<[key := value]> m) else Some m
     | None => None
     end)
    (if is_oper then Some value else oper t).

Definition handle_message_tags (tags_str : cstr) (t : message_tags_data) : message_tags_data :=
  let t := if have_message_tags serv || have_batch serv
           then TagsData (account t) (identified t) (timestamp t) (batch_id t) (msgid t) (tag_label t)
                  (Some (default ∅ (all_tags t))) (oper t)
           else t in
  foldl handle_tag t (g_strsplit tags_str ";").
End tags.

(** ** One line *)

(** What [irc_inline] does with a line once plugins let it pass. *)
Inductive handler :=
| NamedServerMsg (type : cstr)                   (* process_named_servermsg *)
| Numeric (n : Z) (text : cstr)                  (* process_numeric *)
| NamedMsg (type : cstr).                        (* process_named_msg *)

Record inlined_line := InlinedLine {
  il_tags : message_tags_data;
  il_echo_confirmed : bool;
  il_labels : labels;
  il_line : line;
  il_handler : handler }.

Fixpoint to_space (s : cstr) : cstr :=
  match s with c :: s' => if c =c " " then s else to_space s' | [] => [] end.

(** A BATCH START answers with its label at the end of the batch. *)
Definition is_batch_start `{GLib} (buf : cstr) : bool :=
  let p := if peek buf =c ":" then SendQueue.skip_spaces (to_space buf) else buf in
  SendQueue.starts_with p "BATCH +".

Definition confirm_label `{GLib} (t : message_tags_data) (buf : cstr) (l : labels) : labels * bool :=
  match tag_label t with
  | Some label =>
      if is_batch_start buf then (l, false)
      else
        match pending_labels l !! label with
        | Some _ =>
            (Labels (delete label (pending_labels l)) (active_batches l) (stale_sweep_timer l), true)
        | None => (l, false)
        end
  | None => (l, false)
  end.

(** [None]: undefined behaviour; [Some None]: a tagged line without a space is dropped. *)
Definition irc_inline `{GLib} `{Clock} (serv : caps) (l : labels) (buf : cstr) : option (option inlined_line) :=
  let parts :=
    match buf with
    | c :: rest =>
        if c =c "@" then
          match index_of " " rest with
          | Some i => Some (handle_message_tags serv (take i rest) MESSAGE_TAGS_DATA_INIT, drop (S i) rest)
          | None => None
          end
        else Some (MESSAGE_TAGS_DATA_INIT, buf)
    | [] => Some (MESSAGE_TAGS_DATA_INIT, buf)
    end in
  match parts with
  | None => Some None
  | Some (t, buf) =>
      let '(l, echo) := confirm_label t buf l in
      ln ← process_data_init buf false false;
      if peek buf =c ":" then
        let type := word ln 2 in
        let h :=
          if isdigit (peek type) then
            let text := word_eol ln 4 in
            Numeric (atoi type) (if peek text =c ":" then drop 1 text else text)
          else NamedMsg type in
        Some (Some (InlinedLine t echo l
          (Line (type :: drop 1 (word ln 1) :: drop 2 (words ln)) (text ln)
             (nth 0 (eol_offsets ln) 0%nat :: 1%nat :: drop 2 (eol_offsets ln))) h))
      else
        let type := word ln 1 in
        Some (Some (InlinedLine t echo l (Line (type :: drop 1 (words ln)) (text ln) (eol_offsets ln))
          (NamedServerMsg type)))
  end.

Definition trailing_index (ln : line) : nat :=
  (fix go (fuel i : nat) : nat :=
     match fuel with
     | O => i
     | S fuel => if peek (word_eol ln i) =c ":" then i else go fuel (S i)
     end) (PDIWORDS - 3)%nat 3%nat.

(** ** Escaping *)

Lemma unescape_char c rest : unescape_tag_value (escape_char c ++ rest) = c :: unescape_tag_value rest.
Proof.
  unfold escape_char.
  destruct (Ascii.eqb_spec c ";") as [->|H1]; [done|]. destruct (Ascii.eqb_spec c " ") as [->|H2]; [done|].
  destruct (Ascii.eqb_spec c "\") as [->|H3]; [done|]. destruct (Ascii.eqb_spec c CR) as [->|H4]; [done|].
  destruct (Ascii.eqb_spec c LF) as [->|H5]; [done|]. simpl. by destruct (Ascii.eqb_spec c "\").
Qed.

Lemma unescape_escape v : unescape_tag_value (escape_tag_value v) = v.
Proof.
  induction v as [|c v IH]; [done|]. change (escape_tag_value (c :: v)) with (escape_char c ++ escape_tag_value v).
  by rewrite unescape_char, IH.
Qed.

(** The bytes an escaped value is free of. *)
Definition tag_special (c : ascii) : bool := (c =c ";") || (c =c " ") || (c =c CR) || (c =c LF).

Lemma escape_char_clean c : forallb (fun d => negb (tag_special d)) (escape_char c) = true.
Proof.
  cut ((fun c => forallb (fun d => negb (tag_special d)) (escape_char c)) c = true); [done|].
  apply all_bytes_forall. by vm_compute.
Qed.

Lemma escape_clean v d : tag_special d = true -> d ∉ escape_tag_value v.
Proof.
  intros Hd Hin. unfold escape_tag_value in Hin. apply list_elem_of_In, in_concat in Hin as (x & Hx & Hdx).
  apply in_map_iff in Hx as (c & <- & _). pose proof (escape_char_clean c) as H.
  rewrite forallb_forall in H. specialize (H d Hdx). by rewrite Hd in H.
Qed.

(** ** Tags of a line *)

Definition tag_text (kv : cstr * cstr) : cstr := kv.1 ++ "="%char :: escape_tag_value kv.2.

Definition tags_text (kvs : list (cstr * cstr)) : cstr :=
  match kvs with
  | [] => []
  | kv :: kvs => tag_text kv ++ concat (map (cons ";"%char) (map tag_text kvs))
  end.

Lemma split_tag_text k v : "="%char ∉ k -> split_tag (tag_text (k, v)) = (k, v).
Proof.
  intros Hk. unfold split_tag, tag_text. cbn [fst snd]. rewrite index_of_first by done.
  rewrite take_app_length. replace (k ++ "="%char :: escape_tag_value v) with ((k ++ ["="%char]) ++ escape_tag_value v)
    by by rewrite <- app_assoc.
  rewrite drop_app_length' by (rewrite length_app; simpl; lia). by rewrite unescape_escape.
Qed.

(** The fields that mirror an entry of the table. *)
Definition mirrors (serv : caps) (t : message_tags_data) (m : gmap cstr cstr) : Prop :=
  all_tags t = Some m /\
  msgid t = m !! ("msgid" : cstr) /\ oper t = m !! ("draft/oper" : cstr) /\
  (have_labeled_response serv = true -> tag_label t = m !! ("label" : cstr)) /\
  (have_batch serv = true -> batch_id t = m !! ("batch" : cstr)) /\
  (have_account_tag serv = true -> account t = m !! ("account" : cstr)).

Lemma lookup_insert_named (m : gmap cstr cstr) (k v : cstr) (n : string) :
  <[k := v]> m !! (n : cstr) = if bool_decide (k = n) then Some v else m !! (n : cstr).
Proof.
  case_bool_decide as E; [subst; by rewrite lookup_insert_eq|]. by rewrite lookup_insert_ne.
Qed.

Lemma handle_tag_mirrors (G : GLib) (CL : Clock) serv t m (k v : cstr) :
  have_message_tags serv = true -> "="%char ∉ k -> mirrors serv t m ->
  mirrors serv (handle_tag serv t (tag_text (k, v))) (<[k := v]> m).
Proof.
  intros Hcap Hk (Ha & Hm & Ho & Hl & Hb & Hc). unfold handle_tag, mirrors. rewrite split_tag_text by done.
  cbn [all_tags msgid oper tag_label batch_id account]. rewrite Ha, Hcap, !lookup_insert_named.
  split_and!; [done| | |intros E..]; rewrite ?E; cbn [andb orb].
  - by rewrite Hm.
  - by rewrite Ho.
  - by rewrite (Hl E).
  - rewrite andb_true_r. by rewrite (Hb E).
  - rewrite (Hc E). case_bool_decide as E1; case_bool_decide as E2; cbn [negb andb]; try done.
    rewrite E1 in E2. by vm_compute in E2.
Qed.

(** Escaping a tag value and unescaping it gives the value back, for every
    value, and the escaped text holds no byte that could end the tag or the line. *)
Theorem tag_value_roundtrip v :
  unescape_tag_value (escape_tag_value v) = v /\ forall d, tag_special d = true -> d ∉ escape_tag_value v.
Proof. split; [apply unescape_escape|]. intros d. apply escape_clean. Qed.

(** C19. The tags of a line, written as key=escaped value and joined by ';', are
    stored exactly: the table maps each key to its last value, and the message
    id, label, batch and account picked out are the table's entries. *)
Theorem handle_message_tags_table (G : GLib) (CL : Clock) serv kvs :
  GLibLaws G -> kvs <> [] -> have_message_tags serv = true ->
  Forall (fun kv => (";"%char ∉ kv.1) /\ ("="%char ∉ kv.1)) kvs ->
  let t := handle_message_tags serv (tags_text kvs) MESSAGE_TAGS_DATA_INIT in
  exists m, all_tags t = Some m /\ m = foldl (fun m kv => <[kv.1 := kv.2]> m) ∅ kvs /\
    msgid t = m !! ("msgid" : cstr) /\ oper t = m !! ("draft/oper" : cstr) /\
    (have_labeled_response serv = true -> tag_label t = m !! ("label" : cstr)) /\
    (have_batch serv = true -> batch_id t = m !! ("batch" : cstr)) /\
    (have_account_tag serv = true -> account t = m !! ("account" : cstr)).
Proof.
  intros GL Hne Hcap Hkvs t.
  assert (H : mirrors serv t (foldl (fun m kv => <[kv.1 := kv.2]> m) ∅ kvs)); [|destruct H as [Ha H]; eexists; split; [exact Ha|split; [done|exact H]]].
  subst t. unfold handle_message_tags. rewrite Hcap. cbn [orb].
  destruct kvs as [|kv0 kvs]; [done|]. cbn [tags_text]. rewrite g_strsplit_pieces.
  - change (tag_text kv0 :: map tag_text kvs) with (map tag_text (kv0 :: kvs)).
    match goal with |- mirrors _ (foldl _ ?t0 _) _ =>
      change t0 with (TagsData None false 0 None None None (Some ∅) None) end.
    generalize (kv0 :: kvs) as l, Hkvs. clear Hne.
    assert (H0 : mirrors serv (TagsData None false 0 None None None (Some ∅) None) ∅) by (by split_and!).
    revert H0. generalize (TagsData None false 0 None None None (Some ∅) None) as t.
    generalize (∅ : gmap cstr cstr) as m. intros m t Ht l Hl. revert m t Ht.
    induction Hl as [|[k v] l [_ Hk] Hl IH]; intros m t Ht; [done|]. cbn [map foldl fst snd].
    apply IH. by apply handle_tag_mirrors.
  - change (tag_text kv0 :: map tag_text kvs) with (map tag_text (kv0 :: kvs)).
    apply Forall_map. eapply Forall_impl; [exact Hkvs|]. intros [k v] [Hk _]. simpl in *.
    unfold tag_text. apply not_elem_of_app. split; [done|]. apply not_elem_of_cons.
    split; [done|]. by apply escape_clean.
  - unfold tag_text. by destruct (kv0.1).
Qed.

Lemma handle_message_tags_table_witness :
  let kvs := [("time" : cstr, "x" : cstr); ("msgid" : cstr, "a;b c" : cstr)] in
  let serv := Caps true true true true false true in
  msgid (handle_message_tags (H0 := Build_Clock (fun _ => 0) 0) serv "time=x;msgid=a\:b\sc" MESSAGE_TAGS_DATA_INIT) =
    Some (list_ascii_of_string "a;b c").
Proof.
  intros kvs serv.
  destruct (handle_message_tags_table glib_ref (Build_Clock (fun _ => 0) 0) serv kvs) as (m & _ & Hm & H & _).
  - exact glib_ref_laws.
  - done.
  - reflexivity.
  - repeat constructor; by apply (bool_decide_unpack _); vm_compute.
  - etrans; [exact H|]. rewrite Hm. by vm_compute.
Defined.
