(* ===== verification/Scrollback.v ===== *)
(** * The scrollback database (src/common/scrollback.c)

    Stored messages, their full-text index and the per-channel cache of row
    counts and ordinal anchors that spares the virtual scrollback its COUNT
    and OFFSET scans.  A table is the list of its rows in insertion order and
    every SQL statement of the source is a definition [stmt_*] or [sql_*] over
    the tables; what only SQLite decides (row ids, pattern matching) is the
    interface [Sqlite].  Pointers are not NULL and statements do not fail for
    lack of memory or disk; the guards against both are left out. *)
From stdpp Require Import sorting.
From S2P Require Import Prelude Glib Text.

Definition INT_MAX : Z := 2 ^ 31 - 1.
Definition INT64_MAX : Z := 2 ^ 63 - 1.

(** ** What SQLite decides *)

Class Sqlite := {
  (** the id of the next row, given the ids in use *)
  new_rowid : list Z -> Z;
  (** [text LIKE pattern] *)
  sql_like : cstr -> cstr -> bool;
  (** [text MATCH query] on the trigram table *)
  fts_match : cstr -> cstr -> bool }.

Class SqliteLaws (S : Sqlite) : Prop := {
  new_rowid_next ids :
    Forall (fun i => 0 < i < INT64_MAX) ids -> new_rowid ids = 1 + foldr Z.max 0 ids;
  sql_like_prefix p s :
    Forall (fun c => c <> "%"%char /\ c <> "_"%char) p ->
    sql_like s (p ++ "%") = bool_decide (map ascii_lower (take (length p) s) = map ascii_lower p) }.

(** ** Rows *)

Record message := Message {
  msg_id : Z; msg_channel : Z; msg_ts : Z; msgid : option cstr; msg_text : cstr;
  redacted_by : option cstr; redact_reason : option cstr; redact_time : Z; is_user_msg : bool }.

Record reaction := Reaction {
  rx_channel : option Z; rx_target : cstr; rx_text : cstr; rx_nick : cstr; rx_self : bool; rx_ts : Z }.

Record reply := Reply {
  rp_channel : option Z; rp_msgid : cstr; rp_target : cstr;
  rp_nick : option cstr; rp_preview : option cstr }.

Record channel_row := ChannelRow {
  ch_id : Z; ch_name : cstr; gap_bootstrap_done : bool; fts_built : bool }.

Record gap := Gap {
  gap_id : Z; gap_channel : Z; start_ts : Z; start_msgid : option cstr;
  end_ts : Z; end_msgid : option cstr; gap_state : Z; attempts : Z; last_attempt : Z }.

Record fts_row := FtsRow { fts_rowid : Z; fts_channel : Z; fts_text : cstr }.

Record tables := Tables {
  messages : list message; reactions : list reaction; replies : list reply;
  channels : list channel_row; gaps : list gap; messages_fts : list fts_row }.

(** ** The handle *)

Record sb_anchor := Anchor { ordinal : Z; a_ts : Z; a_id : Z }.
Record sb_chan_cache := ChanCache { count : Z; max_ts : Z; anchors : list sb_anchor }.

(** The backfill: states by channel, the queue, whether the idle source runs,
    the channel in progress (0: none), where to resume and where to stop. *)
Record fts_run := FtsRun {
  fts_states : gmap Z Z; fts_queue : list Z; fts_idle : bool;
  fts_cur_channel : Z; fts_cur_next : Z; fts_cur_max : Z }.

Record scrollback_db := Db {
  tbl : tables;
  channel_id_cache : gmap cstr Z;
  chan_cache : gmap Z sb_chan_cache;
  fts : bool;
  run : fts_run;
  retention_cutoff : Z }.

Definition set_tbl (f : tables -> tables) (db : scrollback_db) : scrollback_db :=
  Db (f (tbl db)) (channel_id_cache db) (chan_cache db) (fts db) (run db) (retention_cutoff db).
Definition set_channel_id_cache (f : gmap cstr Z -> gmap cstr Z) (db : scrollback_db) : scrollback_db :=
  Db (tbl db) (f (channel_id_cache db)) (chan_cache db) (fts db) (run db) (retention_cutoff db).
Definition set_chan_cache (f : gmap Z sb_chan_cache -> gmap Z sb_chan_cache) (db : scrollback_db)
    : scrollback_db :=
  Db (tbl db) (channel_id_cache db) (f (chan_cache db)) (fts db) (run db) (retention_cutoff db).
Definition set_run (f : fts_run -> fts_run) (db : scrollback_db) : scrollback_db :=
  Db (tbl db) (channel_id_cache db) (chan_cache db) (fts db) (f (run db)) (retention_cutoff db).

Definition set_messages (f : list message -> list message) (t : tables) : tables :=
  Tables (f (messages t)) (reactions t) (replies t) (channels t) (gaps t) (messages_fts t).
Definition set_reactions (f : list reaction -> list reaction) (t : tables) : tables :=
  Tables (messages t) (f (reactions t)) (replies t) (channels t) (gaps t) (messages_fts t).
Definition set_replies (f : list reply -> list reply) (t : tables) : tables :=
  Tables (messages t) (reactions t) (f (replies t)) (channels t) (gaps t) (messages_fts t).
Definition set_channels (f : list channel_row -> list channel_row) (t : tables) : tables :=
  Tables (messages t) (reactions t) (replies t) (f (channels t)) (gaps t) (messages_fts t).
Definition set_gaps (f : list gap -> list gap) (t : tables) : tables :=
  Tables (messages t) (reactions t) (replies t) (channels t) (f (gaps t)) (messages_fts t).
Definition set_fts (f : list fts_row -> list fts_row) (t : tables) : tables :=
  Tables (messages t) (reactions t) (replies t) (channels t) (gaps t) (f (messages_fts t)).

(** ** Queries

    [ORDER BY timestamp ASC, id ASC] and its reverse. *)

Definition key_le (x y : message) : Prop :=
  msg_ts x < msg_ts y \/ (msg_ts x = msg_ts y /\ msg_id x <= msg_id y).
Definition key_ge (x y : message) : Prop := key_le y x.

#[export] Instance key_le_dec x y : Decision (key_le x y).
Proof. unfold key_le. apply _. Defined.
#[export] Instance key_ge_dec x y : Decision (key_ge x y).
Proof. unfold key_ge. apply _. Defined.

Definition of_channel (cid : Z) (m : message) : bool := msg_channel m =? cid.

(** [(timestamp > ts OR (timestamp = ts AND id >= i))] and its mirror. *)
Definition at_or_after (ts i : Z) (m : message) : bool :=
  (ts <? msg_ts m) || ((msg_ts m =? ts) && (i <=? msg_id m)).
Definition at_or_before (ts i : Z) (m : message) : bool :=
  (msg_ts m <? ts) || ((msg_ts m =? ts) && (msg_id m <=? i)).
Definition strictly_after (ts i : Z) (m : message) : bool :=
  (ts <? msg_ts m) || ((msg_ts m =? ts) && (i <? msg_id m)).

Definition where_ {A} (p : A -> bool) (l : list A) : list A := List.filter p l.
Definition limit_offset {A} (lim off : Z) (l : list A) : list A :=
  take (Z.to_nat lim) (drop (Z.to_nat off) l).

Definition stmt_load_range (cid lim off : Z) (t : tables) : list message :=
  limit_offset lim off (merge_sort key_le (where_ (of_channel cid) (messages t))).
Definition stmt_load_range_fwd (cid ts i lim off : Z) (t : tables) : list message :=
  limit_offset lim off
    (merge_sort key_le (where_ (fun m => of_channel cid m && at_or_after ts i m) (messages t))).
Definition stmt_load_range_bwd (cid ts i lim off : Z) (t : tables) : list message :=
  limit_offset lim off
    (merge_sort key_ge (where_ (fun m => of_channel cid m && at_or_before ts i m) (messages t))).

Definition sql_count {A} (l : list A) : Z := Z.of_nat (length l).

(** [COUNT( * ), IFNULL(MAX(timestamp), 0)] *)
Definition sql_max (l : list Z) : option Z :=
  match l with [] => None | x :: l => Some (foldr Z.max x l) end.
Definition stmt_count (cid : Z) (t : tables) : Z * Z :=
  let rows := where_ (of_channel cid) (messages t) in
  (sql_count rows, default 0 (sql_max (map msg_ts rows))).

(** Rows in ((ts1, i1), (ts2, i2)]. *)
Definition stmt_count_span (cid ts1 i1 ts2 i2 : Z) (t : tables) : Z :=
  sql_count (where_ (fun m => of_channel cid m && strictly_after ts1 i1 m && at_or_before ts2 i2 m)
    (messages t)).

Definition stmt_row_key (rowid : Z) (t : tables) : option Z :=
  msg_ts <$> find (fun m => msg_id m =? rowid) (messages t).

(** The rows strictly before the row with this id; comparing with the NULL of
    an empty subquery selects nothing. *)
Definition stmt_index_of_rowid (cid rowid : Z) (t : tables) : Z :=
  match stmt_row_key rowid t with
  | None => 0
  | Some ts =>
      sql_count (where_ (fun m => of_channel cid m &&
        ((msg_ts m <? ts) || ((msg_ts m =? ts) && (msg_id m <? rowid)))) (messages t))
  end.

Definition some_eq (a : option cstr) (b : cstr) : bool := bool_decide (a = Some b).

(** ** Channel ids *)

Section operations.
Context `{Sqlite}.

(** [INSERT OR IGNORE INTO channels (name) VALUES (?)] *)
Definition stmt_channel_insert (name : cstr) (t : tables) : tables :=
  if existsb (fun c => bool_decide (ch_name c = name)) (channels t) then t
  else set_channels (fun l => l ++ [ChannelRow (new_rowid (map ch_id l)) name false false]) t.

Definition stmt_channel_lookup (name : cstr) (t : tables) : option Z :=
  ch_id <$> find (fun c => bool_decide (ch_name c = name)) (channels t).

Definition scrollback_get_channel_id (sdb : scrollback_db) (channel : cstr) : scrollback_db * Z :=
  match channel with
  | [] => (sdb, -1)
  | _ =>
      match channel_id_cache sdb !! channel with
      | Some cached => (sdb, cached)
      | None =>
          let sdb := set_tbl (stmt_channel_insert channel) sdb in
          match stmt_channel_lookup channel (tbl sdb) with
          | Some id => (set_channel_id_cache <[channel := wrap_i32 id]> sdb, id)
          | None => (sdb, -1)
          end
      end
  end.

(** ** The cache of counts and anchors *)

Definition SB_ANCHOR_MAX : nat := 128.

Definition chan_cache_get (db : scrollback_db) (channel_id : Z) : option sb_chan_cache :=
  chan_cache db !! channel_id.

Definition chan_cache_invalidate (channel_id : Z) (db : scrollback_db) : scrollback_db :=
  match chan_cache_get db channel_id with
  | None => db
  | Some _ => set_chan_cache <[channel_id := ChanCache (-1) 0 []]> db
  end.

Definition chan_cache_invalidate_all (db : scrollback_db) : scrollback_db :=
  set_chan_cache (fun _ => ∅) db.

(** The scan for the place of an ordinal: where it is, or where it goes. *)
Fixpoint anchor_scan (l : list sb_anchor) (i : nat) (ord : Z) : nat * bool :=
  match l with
  | [] => (i, false)
  | e :: l =>
      if ordinal e =? ord then (i, true)
      else if ord <? ordinal e then (i, false)
      else anchor_scan l (S i) ord
  end.

(** The scan for the anchor farthest from an ordinal: [far_i] and [far_d]. *)
Fixpoint far_scan (l : list sb_anchor) (j : nat) (ord : Z) (far_i : nat) (far_d : Z) : nat :=
  match l with
  | [] => far_i
  | e :: l =>
      let d := Z.abs (ordinal e - ord) in
      if far_d <? d then far_scan l (S j) ord j d else far_scan l (S j) ord far_i far_d
  end.

Definition chan_cache_add_anchor (ord ts id : Z) (c : sb_chan_cache) : sb_chan_cache :=
  if (count c <? 0) || (ord <? 0) then c
  else
    let '(i, found) := anchor_scan (anchors c) 0 ord in
    if found : bool then
      ChanCache (count c) (max_ts c)
        (take i (anchors c) ++ Anchor ord ts id :: drop (S i) (anchors c))
    else
      let '(l, i) :=
        if (SB_ANCHOR_MAX <=? length (anchors c))%nat then
          let far_i := far_scan (anchors c) 0 ord 0 (-1) in
          (take far_i (anchors c) ++ drop (S far_i) (anchors c),
           if (far_i <? i)%nat then (i - 1)%nat else i)
        else (anchors c, i) in
      ChanCache (count c) (max_ts c) (take i l ++ Anchor ord ts id :: drop i l).

Fixpoint find_anchors_loop (l : list sb_anchor) (ord end_ : Z) (before : option sb_anchor)
    : option sb_anchor * option sb_anchor :=
  match l with
  | [] => (before, None)
  | e :: l =>
      let before := if ordinal e <=? ord then Some e else before in
      if end_ <=? ordinal e then (before, Some e) else find_anchors_loop l ord end_ before
  end.

Definition chan_cache_find_anchors (c : sb_chan_cache) (ord end_ : Z)
    : option sb_anchor * option sb_anchor :=
  if count c <? 0 then (None, None) else find_anchors_loop (anchors c) ord end_ None.

Definition chan_cache_ensure_count (db : scrollback_db) (channel_id : Z)
    : scrollback_db * sb_chan_cache :=
  let c := default (ChanCache (-1) 0 []) (chan_cache_get db channel_id) in
  if 0 <=? count c then (db, c)
  else
    let '(n, ts) := stmt_count channel_id (tbl db) in
    let c := ChanCache (wrap_i32 n) ts (anchors c) in
    (set_chan_cache <[channel_id := c]> db, c).

Definition chan_cache_note_insert (channel_id ts : Z) (db : scrollback_db) : scrollback_db :=
  match chan_cache_get db channel_id with
  | None => db
  | Some c =>
      if count c <? 0 then db
      else if (count c =? 0) || (max_ts c <=? ts) then
        set_chan_cache <[channel_id := ChanCache (count c + 1) ts (anchors c)]> db
      else chan_cache_invalidate channel_id db
  end.

(** ** The full-text index *)

Definition FTS_UNINDEXED : Z := 0.
Definition FTS_BUILDING : Z := 1.
Definition FTS_BUILT : Z := 2.
Definition FTS_BACKFILL_CHUNK : Z := 500.

Definition fts_state_set (channel_id st : Z) (db : scrollback_db) : scrollback_db :=
  set_run (fun r => FtsRun (<[channel_id := st]> (fts_states r)) (fts_queue r) (fts_idle r)
    (fts_cur_channel r) (fts_cur_next r) (fts_cur_max r)) db.

Definition fts_state_get (db : scrollback_db) (channel_id : Z) : scrollback_db * Z :=
  if negb (fts db) then (db, FTS_UNINDEXED)
  else
    match fts_states (run db) !! channel_id with
    | Some v => (db, v)
    | None =>
        let st :=
          match find (fun c => ch_id c =? channel_id) (channels (tbl db)) with
          | Some c => if fts_built c then FTS_BUILT else FTS_UNINDEXED
          | None => FTS_UNINDEXED
          end in
        (fts_state_set channel_id st db, st)
    end.

(** [strip_color (text, -1, STRIP_ALL)] *)
Definition strip_color (text : cstr) : cstr := strip_loop text (length text) STRIP_ALL 0 0.

(** Inserting a row id that is already indexed fails and changes nothing. *)
Definition stmt_fts_insert (rowid channel_id : Z) (plain : cstr) (t : tables) : tables :=
  if existsb (fun r => fts_rowid r =? rowid) (messages_fts t) then t
  else set_fts (fun l => l ++ [FtsRow rowid channel_id plain]) t.

Definition fts_index_row (rowid channel_id : Z) (text : cstr) (db : scrollback_db) : scrollback_db :=
  if negb (fts db) then db
  else set_tbl (stmt_fts_insert rowid channel_id (strip_color text)) db.

Definition fts_row_indexed (db : scrollback_db) (rowid : Z) : bool :=
  existsb (fun r => fts_rowid r =? rowid) (messages_fts (tbl db)).

Definition fts_unindex_row (rowid : Z) (db : scrollback_db) : scrollback_db :=
  if negb (fts db) then db
  else set_tbl (set_fts (where_ (fun r => negb (fts_rowid r =? rowid)))) db.

(** [WHERE channel_id = ?1 AND id > ?2 AND id <= ?3 ORDER BY id ASC LIMIT ?4] *)
Definition id_le (x y : message) : Prop := msg_id x <= msg_id y.
#[export] Instance id_le_dec x y : Decision (id_le x y).
Proof. unfold id_le. apply _. Defined.

Definition stmt_fts_backfill (cid lo hi lim : Z) (t : tables) : list message :=
  limit_offset lim 0 (merge_sort id_le
    (where_ (fun m => of_channel cid m && (lo <? msg_id m) && (msg_id m <=? hi)) (messages t))).

(** One row of the chunk. *)
Definition backfill_row (cid : Z) (db : scrollback_db) (m : message) : scrollback_db :=
  if fts_row_indexed db (msg_id m) then db else fts_index_row (msg_id m) cid (msg_text m) db.

(** One chunk of the channel in progress, and where to go on. *)
Definition fts_backfill_chunk (db : scrollback_db) : scrollback_db :=
  let r := run db in
  let rows := stmt_fts_backfill (fts_cur_channel r) (fts_cur_next r) (fts_cur_max r)
                FTS_BACKFILL_CHUNK (tbl db) in
  let db := foldl (backfill_row (fts_cur_channel r)) db rows in
  if sql_count rows <? FTS_BACKFILL_CHUNK then
    let db := set_tbl (set_channels (map (fun c =>
      if ch_id c =? fts_cur_channel r
      then ChannelRow (ch_id c) (ch_name c) (gap_bootstrap_done c) true else c))) db in
    let db := fts_state_set (fts_cur_channel r) FTS_BUILT db in
    set_run (fun r => FtsRun (fts_states r) (fts_queue r) (fts_idle r) 0 (fts_cur_next r)
      (fts_cur_max r)) db
  else
    let last_ := match last rows with Some m => msg_id m | None => 0 end in
    set_run (fun r => FtsRun (fts_states r) (fts_queue r) (fts_idle r) (fts_cur_channel r)
      last_ (fts_cur_max r)) db.

(** [g_queue_pop_head] and the snapshot of the newest row. *)
Definition fts_backfill_start (next : Z) (queue : list Z) (db : scrollback_db) : scrollback_db :=
  let cur_max := default 0 (sql_max (map msg_id (where_ (of_channel next) (messages (tbl db))))) in
  set_run (fun r => FtsRun (fts_states r) queue (fts_idle r) next 0 cur_max) db.

(** The result: keep the idle source. *)
Definition fts_backfill_idle (db : scrollback_db) : scrollback_db * bool :=
  if fts_cur_channel (run db) =? 0 then
    match fts_queue (run db) with
    | [] => (set_run (fun r => FtsRun (fts_states r) (fts_queue r) false (fts_cur_channel r)
               (fts_cur_next r) (fts_cur_max r)) db, false)
    | next :: queue => (fts_backfill_chunk (fts_backfill_start next queue db), true)
    end
  else (fts_backfill_chunk db, true).

Definition scrollback_fts_schedule (db : scrollback_db) (channel : cstr) : scrollback_db :=
  if negb (fts db) then db
  else
    let '(db, channel_id) := scrollback_get_channel_id db channel in
    if channel_id <=? 0 then db
    else
      let '(db, st) := fts_state_get db channel_id in
      if negb (st =? FTS_UNINDEXED) then db
      else
        let db := fts_state_set channel_id FTS_BUILDING db in
        set_run (fun r => FtsRun (fts_states r) (fts_queue r ++ [channel_id]) true
          (fts_cur_channel r) (fts_cur_next r) (fts_cur_max r)) db.

Definition scrollback_fts_ready (db : scrollback_db) (channel : cstr) : scrollback_db * bool :=
  if negb (fts db) then (db, false)
  else
    let '(db, channel_id) := scrollback_get_channel_id db channel in
    if 0 <? channel_id then
      let '(db, st) := fts_state_get db channel_id in (db, st =? FTS_BUILT)
    else (db, false).

(** One quoted phrase. *)
Definition fts_query (needle : cstr) : cstr :=
  let dquote := "034"%char in
  dquote :: concat (map (fun c => if c =c dquote then [c; c] else [c]) needle) ++ [dquote].

(** The ids and texts of the matching rows, oldest first. *)
Definition scrollback_search_fts (db : scrollback_db) (channel needle : cstr)
    : scrollback_db * list (Z * cstr) :=
  if negb (fts db) || bool_decide (needle = []) then (db, [])
  else
    let '(db, channel_id) := scrollback_get_channel_id db channel in
    if channel_id <=? 0 then (db, [])
    else
      let hits := where_ (fun r => (fts_channel r =? channel_id) && fts_match (fts_query needle) (fts_text r))
                    (messages_fts (tbl db)) in
      let rows := concat (map (fun r => where_ (fun m => msg_id m =? fts_rowid r) (messages (tbl db))) hits) in
      (db, map (fun m => (msg_id m, msg_text m)) (merge_sort key_le rows)).

(** ** Storing and deleting messages *)

(** [INSERT OR IGNORE INTO messages] under the unique index on
    (channel_id, msgid) where msgid is not NULL; the id of the new row. *)
Definition stmt_insert (cid timestamp : Z) (mid : option cstr) (text : cstr) (user : bool) (t : tables)
    : option (tables * Z) :=
  if match mid with
     | Some m => existsb (fun r => of_channel cid r && some_eq (msgid r) m) (messages t)
     | None => false
     end
  then None
  else
    let rowid := new_rowid (map msg_id (messages t)) in
    Some (set_messages (fun l => l ++ [Message rowid cid timestamp mid text None None 0 user]) t, rowid).

Definition scrollback_db_save (db : scrollback_db) (channel : cstr) (timestamp : Z)
    (mid : option cstr) (text : cstr) (user : bool) : scrollback_db * Z :=
  let '(db, channel_id) := scrollback_get_channel_id db channel in
  if channel_id <? 0 then (db, -1)
  else
    let mid := match mid with Some [] => None | _ => mid end in
    match stmt_insert channel_id timestamp mid text user (tbl db) with
    | None => (db, -1)
    | Some (t, rowid) =>
        let db := chan_cache_note_insert channel_id timestamp (set_tbl (fun _ => t) db) in
        if negb (fts db) then (db, rowid)
        else
          let '(db, st) := fts_state_get db channel_id in
          if negb (st =? FTS_UNINDEXED) then (fts_index_row rowid channel_id text db, rowid)
          else (db, rowid)
    end.

(** [msgid LIKE 'pending:%'], NULL when there is no msgid. *)
Definition is_pending (m : message) : bool :=
  match msgid m with Some i => sql_like i "pending:%" | None => false end.
Definition is_confirmed (m : message) : bool :=
  match msgid m with Some i => negb (sql_like i "pending:%") | None => false end.

Definition scrollback_purge_pending (db : scrollback_db) (channel : cstr) : scrollback_db :=
  let '(db, channel_id) := scrollback_get_channel_id db channel in
  if channel_id <? 0 then db
  else
    let doomed := fun m => of_channel channel_id m && is_pending m in
    let db :=
      if fts db then
        set_tbl (fun t => set_fts (where_ (fun r =>
          negb (existsb (fun m => doomed m && (msg_id m =? fts_rowid r)) (messages t)))) t) db
      else db in
    let changes := sql_count (where_ doomed (messages (tbl db))) in
    let db := set_tbl (set_messages (where_ (fun m => negb (doomed m)))) db in
    if 0 <? changes then chan_cache_invalidate channel_id db else db.

Definition scrollback_delete_by_rowid (db : scrollback_db) (rowid : Z) : scrollback_db * bool :=
  if rowid <=? 0 then (db, false)
  else
    let changes := sql_count (where_ (fun m => msg_id m =? rowid) (messages (tbl db))) in
    let db := set_tbl (set_messages (where_ (fun m => negb (msg_id m =? rowid)))) db in
    if 0 <? changes then (fts_unindex_row rowid (chan_cache_invalidate_all db), true)
    else (db, false).

(** [UPDATE messages SET msgid = ?1 WHERE channel_id = ?2 AND msgid = ?3]; a
    clash with the unique index undoes the statement.  The new table and
    [sqlite3_changes], or [None] for the clash. *)
Definition stmt_update_pending (real : cstr) (cid : Z) (pending : cstr) (t : tables)
    : option (tables * Z) :=
  let hit m := of_channel cid m && some_eq (msgid m) pending in
  let changes := sql_count (where_ hit (messages t)) in
  if (0 <? changes) && existsb (fun m => of_channel cid m && some_eq (msgid m) real && negb (hit m)) (messages t)
  then None
  else Some (set_messages (map (fun m => if hit m then
      Message (msg_id m) (msg_channel m) (msg_ts m) (Some real) (msg_text m) (redacted_by m)
        (redact_reason m) (redact_time m) (is_user_msg m)
    else m)) t, changes).

Definition scrollback_update_pending_msgid (db : scrollback_db) (channel pending real : cstr)
    : scrollback_db * bool :=
  let '(db, channel_id) := scrollback_get_channel_id db channel in
  if channel_id <=? 0 then (db, false)
  else
    match stmt_update_pending real channel_id pending (tbl db) with
    | None => (db, false)
    | Some (t, changes) => (set_tbl (fun _ => t) db, 0 <? changes)
    end.

Definition scrollback_redact_message (db : scrollback_db) (channel mid : cstr)
    (by_ reason : option cstr) (time : Z) : scrollback_db * bool :=
  let '(db, channel_id) := scrollback_get_channel_id db channel in
  if channel_id <=? 0 then (db, false)
  else
    let hit m := of_channel channel_id m && some_eq (msgid m) mid in
    let changes := sql_count (where_ hit (messages (tbl db))) in
    (set_tbl (set_messages (map (fun m => if hit m then
        Message (msg_id m) (msg_channel m) (msg_ts m) (msgid m) (msg_text m)
          (Some (default (list_ascii_of_string "unknown") by_)) reason time (is_user_msg m)
      else m))) db, 0 <? changes).

(** [channel_id = ?1 OR (channel_id IS NULL AND msgid IN (...))] *)
Definition orphan_of (t : tables) (cid : Z) (chan : option Z) (mid : cstr) : bool :=
  match chan with
  | Some c => c =? cid
  | None => existsb (fun m => of_channel cid m && some_eq (msgid m) mid) (messages t)
  end.

Definition scrollback_clear (db : scrollback_db) (channel : cstr) : scrollback_db :=
  let '(db, channel_id) := scrollback_get_channel_id db channel in
  if channel_id <=? 0 then db
  else
    let db := set_tbl (fun t => set_replies (where_ (fun r =>
      negb (orphan_of t channel_id (rp_channel r) (rp_msgid r)))) t) db in
    let db := set_tbl (fun t => set_reactions (where_ (fun r =>
      negb (orphan_of t channel_id (rx_channel r) (rx_target r)))) t) db in
    let db := chan_cache_invalidate channel_id db in
    let db := if fts db then set_tbl (set_fts (where_ (fun r => negb (fts_channel r =? channel_id)))) db
              else db in
    set_tbl (set_messages (where_ (fun m => negb (of_channel channel_id m)))) db.

(** ** Reading messages *)

(** [ORDER BY timestamp DESC, id DESC LIMIT ?], prepended row by row. *)
Definition stmt_load (cid lim : Z) (t : tables) : list message :=
  limit_offset lim 0 (merge_sort key_ge (where_ (of_channel cid) (messages t))).

Definition scrollback_db_load (db : scrollback_db) (channel : cstr) (limit : Z)
    : scrollback_db * list message :=
  let '(db, channel_id) := scrollback_get_channel_id db channel in
  if channel_id <? 0 then (db, [])
  else
    let limit := if limit <=? 0 then 500 else limit in
    let db := scrollback_purge_pending db channel in
    (db, rev (stmt_load channel_id limit (tbl db))).

Definition stmt_newest_msgid (cid : Z) (t : tables) : option message :=
  head (merge_sort key_ge (where_ (fun m => of_channel cid m && is_confirmed m) (messages t))).
Definition stmt_oldest_msgid (cid : Z) (t : tables) : option message :=
  head (merge_sort key_le (where_ (fun m => of_channel cid m && is_confirmed m) (messages t))).

Definition scrollback_get_newest_msgid (db : scrollback_db) (channel : cstr) : scrollback_db * option cstr :=
  let '(db, channel_id) := scrollback_get_channel_id db channel in
  if channel_id <? 0 then (db, None)
  else (db, stmt_newest_msgid channel_id (tbl db) ≫= msgid).

Definition scrollback_get_oldest_msgid (db : scrollback_db) (channel : cstr) : scrollback_db * option cstr :=
  let '(db, channel_id) := scrollback_get_channel_id db channel in
  if channel_id <? 0 then (db, None)
  else (db, stmt_oldest_msgid channel_id (tbl db) ≫= msgid).

(** The newest of every channel's newest confirmed message. *)
Definition scrollback_get_global_newest_msgid (db : scrollback_db) : option cstr :=
  head (merge_sort key_ge (omap (fun c => stmt_newest_msgid (ch_id c) (tbl db)) (channels (tbl db))))
    ≫= msgid.

Definition scrollback_get_newest_time (db : scrollback_db) (channel : cstr) : scrollback_db * Z :=
  let '(db, channel_id) := scrollback_get_channel_id db channel in
  if channel_id <? 0 then (db, 0)
  else (db, default 0 (sql_max (map msg_ts (where_ (of_channel channel_id) (messages (tbl db)))))).

Definition scrollback_has_msgid (db : scrollback_db) (channel mid : cstr) (timestamp : Z)
    : scrollback_db * bool :=
  if bool_decide (mid = []) then (db, false)
  else
    let '(db, channel_id) := scrollback_get_channel_id db channel in
    if channel_id <=? 0 then (db, false)
    else (db, existsb (fun m => of_channel channel_id m && some_eq (msgid m) mid &&
                        ((timestamp =? 0) || (msg_ts m =? timestamp))) (messages (tbl db))).

Definition scrollback_get_max_rowid (db : scrollback_db) (channel : cstr) : scrollback_db * Z :=
  let '(db, channel_id) := scrollback_get_channel_id db channel in
  if channel_id <? 0 then (db, 0)
  else (db, default 0 (sql_max (map msg_id (where_ (of_channel channel_id) (messages (tbl db)))))).

Definition scrollback_get_text_by_msgid (db : scrollback_db) (channel mid : cstr)
    : scrollback_db * option cstr :=
  if bool_decide (mid = []) then (db, None)
  else
    let '(db, channel_id) := scrollback_get_channel_id db channel in
    if channel_id <? 0 then (db, None)
    else
      (db, m ← find (fun m => of_channel channel_id m && some_eq (msgid m) mid) (messages (tbl db));
           if bool_decide (msg_text m = []) then None else Some (msg_text m)).

Definition scrollback_get_rowid_by_msgid (db : scrollback_db) (channel mid : cstr) : scrollback_db * Z :=
  if bool_decide (mid = []) then (db, 0)
  else
    let '(db, channel_id) := scrollback_get_channel_id db channel in
    if channel_id <? 0 then (db, 0)
    else (db, default 0 (msg_id <$>
      find (fun m => of_channel channel_id m && some_eq (msgid m) mid) (messages (tbl db)))).

(** ** Paging *)

Definition scrollback_count (db : scrollback_db) (channel : cstr) : scrollback_db * Z :=
  let '(db, channel_id) := scrollback_get_channel_id db channel in
  if channel_id <? 0 then (db, 0)
  else let '(db, c) := chan_cache_ensure_count db channel_id in (db, count c).

(** Which rows to walk and from which side; [None] reads a NULL anchor. *)
Definition range_rows (c : sb_chan_cache) (cid offset end_ limit : Z) (t : tables)
    : option (list message * bool) :=
  let '(before, after) := chan_cache_find_anchors c offset end_ in
  let cost_plain := offset in
  let cost_fwd := match before with Some b => offset - ordinal b | None => INT_MAX end in
  let cost_bwd := match after with Some a => ordinal a - end_ | None => INT_MAX end in
  if (cost_fwd <=? cost_plain) && (cost_fwd <=? cost_bwd) then
    b ← before; Some (stmt_load_range_fwd cid (a_ts b) (a_id b) limit cost_fwd t, false)
  else if cost_bwd <? cost_plain then
    a ← after; Some (rev (stmt_load_range_bwd cid (a_ts a) (a_id a) limit cost_bwd t), true)
  else Some (stmt_load_range cid limit offset t, false).

(** Both edges of what was walked become anchors. *)
Definition remember_edges (rows : list message) (first_ord : Z) (c : sb_chan_cache) : sb_chan_cache :=
  match rows, last rows with
  | f :: _, Some l =>
      chan_cache_add_anchor (first_ord + sql_count rows - 1) (msg_ts l) (msg_id l)
        (chan_cache_add_anchor first_ord (msg_ts f) (msg_id f) c)
  | _, _ => c
  end.

(** [anchors_disabled] is [sb_anchors_disabled ()]: the environment variable
    POXCHAT_NO_ANCHORS.  [None] is the overflow of [offset + limit], or the use
    of the uninitialised [before] and [after] when anchors are disabled. *)
Definition scrollback_load_range (anchors_disabled : bool) (db : scrollback_db) (channel : cstr)
    (offset limit : Z) : option (scrollback_db * list message) :=
  let '(db, channel_id) := scrollback_get_channel_id db channel in
  if channel_id <? 0 then Some (db, [])
  else
    let limit := if limit <=? 0 then 500 else limit in
    let offset := if offset <? 0 then 0 else offset in
    let '(db, c) := chan_cache_ensure_count db channel_id in
    if INT_MAX <? offset + limit then None
    else
      let end_ := offset + limit - 1 in
      if (count c <=? 0) || (count c <=? offset) then Some (db, [])
      else
        let end_ := if count c - 1 <? end_ then count c - 1 else end_ in
        let limit := end_ - offset + 1 in
        if anchors_disabled then None
        else
          '(rows, backward) ← range_rows c channel_id offset end_ limit (tbl db);
          let first_ord := if backward : bool then end_ - sql_count rows + 1 else offset in
          Some (set_chan_cache <[channel_id := remember_edges rows first_ord c]> db, rows).

Fixpoint nearest_loop (l : list sb_anchor) (ts rowid : Z) (before : option sb_anchor)
    : option sb_anchor * option sb_anchor :=
  match l with
  | [] => (before, None)
  | e :: l =>
      if (a_ts e <? ts) || ((a_ts e =? ts) && (a_id e <=? rowid)) then nearest_loop l ts rowid (Some e)
      else (before, Some e)
  end.

(** The ordinal found from an anchor, and whether it is an anchor already. *)
Definition index_from_anchor (c : sb_chan_cache) (cid ts rowid : Z) (t : tables) : option (Z * bool) :=
  match nearest_loop (anchors c) ts rowid None with
  | (Some b, _) =>
      if (a_ts b =? ts) && (a_id b =? rowid) then Some (ordinal b, true)
      else Some (ordinal b + stmt_count_span cid (a_ts b) (a_id b) ts rowid t, false)
  | (None, Some a) => Some (ordinal a - stmt_count_span cid ts rowid (a_ts a) (a_id a) t, false)
  | (None, None) => None
  end.

Definition scrollback_get_index_of_rowid (anchors_disabled : bool) (db : scrollback_db)
    (channel : cstr) (rowid : Z) : scrollback_db * Z :=
  let '(db, channel_id) := scrollback_get_channel_id db channel in
  if channel_id <? 0 then (db, 0)
  else
    let '(db, c) := chan_cache_ensure_count db channel_id in
    let plain := (db, stmt_index_of_rowid channel_id rowid (tbl db)) in
    match stmt_row_key rowid (tbl db) with
    | Some ts =>
        if (0 <? count c) && negb (bool_decide (anchors c = [])) && negb anchors_disabled then
          match index_from_anchor c channel_id ts rowid (tbl db) with
          | Some (index, true) => (db, index)
          | Some (index, false) =>
              (set_chan_cache <[channel_id := chan_cache_add_anchor index ts rowid c]> db, index)
          | None => plain
          end
        else plain
    | None => plain
    end.
End operations.

(** ** A reference implementation of the interface *)

Fixpoint like_ref (s p : cstr) {struct p} : bool :=
  match p with
  | [] => bool_decide (s = [])
  | "%"%char :: p =>
      (fix rest (s : cstr) : bool :=
         like_ref s p || match s with [] => false | _ :: s => rest s end) s
  | "_"%char :: p => match s with [] => false | _ :: s => like_ref s p end
  | c :: p => match s with
              | [] => false
              | d :: s => (ascii_lower c =c ascii_lower d) && like_ref s p
              end
  end.

(** The phrase between the double quotes, and whether it occurs. *)
Fixpoint phrase_ref (q : cstr) : cstr :=
  match q with
  | [] => []
  | c :: q =>
      match q with
      | [] => []
      | d :: q' => if (c =c "034") && (d =c "034") then c :: phrase_ref q' else c :: phrase_ref q
      end
  end.
Fixpoint occurs_ref (p s : cstr) : bool :=
  bool_decide (p = take (length p) s) || match s with [] => false | _ :: s => occurs_ref p s end.

#[export] Instance sqlite_ref : Sqlite := {|
  new_rowid ids := 1 + foldr Z.max 0 ids;
  sql_like := like_ref;
  fts_match q t := occurs_ref (map ascii_lower (phrase_ref (tail q))) (map ascii_lower t) |}.

Lemma like_ref_any s : like_ref s "%" = true.
Proof. induction s as [|c s IH]; [done|]. exact IH. Qed.

Lemma like_ref_prefix p s :
  Forall (fun c => c <> "%"%char /\ c <> "_"%char) p ->
  like_ref s (p ++ "%") = bool_decide (map ascii_lower (take (length p) s) = map ascii_lower p).
Proof.
  intros Hp. revert s; induction Hp as [|c p [Hc1 Hc2] Hp IH]; intros s.
  { rewrite like_ref_any. by rewrite bool_decide_eq_true_2. }
  assert (Hstep : like_ref s ((c :: p) ++ "%") = match s with
    | [] => false | d :: s => (ascii_lower c =c ascii_lower d) && like_ref s (p ++ "%") end).
  { destruct c as [[] [] [] [] [] [] [] []]; try done; by destruct s. }
  rewrite Hstep. destruct s as [|d s]; [by rewrite bool_decide_eq_false_2|].
  rewrite IH. simpl. destruct (Ascii.eqb_spec (ascii_lower c) (ascii_lower d)) as [->|Hne]; simpl.
  - apply bool_decide_ext. split; [by intros ->|by intros [=]].
  - symmetry. apply bool_decide_eq_false_2. congruence.
Qed.

#[export] Instance sqlite_ref_laws : SqliteLaws sqlite_ref.
Proof. constructor; [done|]. intros p s. apply like_ref_prefix. Qed.
