(* ===== verification/ScrollbackSpec.v ===== *)
(** * Correctness of the scrollback cache

    Whatever was cached before, the paging functions of [Scrollback] answer as
    if they sorted the channel afresh, and every operation on the database
    keeps the cache truthful. *)
From stdpp Require Import sorting.
From S2P Require Import Prelude Glib Text Scrollback.

(** ** Key order *)

Definition key (m : message) : Z * Z := (msg_ts m, msg_id m).

#[export] Instance key_le_trans : Transitive key_le.
Proof. intros x y z. unfold key_le. lia. Qed.
#[export] Instance key_le_total : Total key_le.
Proof. intros x y. unfold key_le. lia. Qed.
#[export] Instance key_ge_trans : Transitive key_ge.
Proof. intros x y z. unfold key_ge, key_le. lia. Qed.
#[export] Instance key_ge_total : Total key_ge.
Proof. intros x y. unfold key_ge, key_le. lia. Qed.

(** The channel's messages, oldest first: what every paging query is about. *)
Definition rows_of (cid : Z) (t : tables) : list message :=
  merge_sort key_le (where_ (of_channel cid) (messages t)).
Definition keys_of (cid : Z) (t : tables) : list (Z * Z) := map key (rows_of cid t).

Definition ids_distinct (l : list message) : Prop := NoDup (map msg_id l).

Lemma elem_of_where {A} (p : A -> bool) l x : x ∈ where_ p l <-> p x = true /\ x ∈ l.
Proof. unfold where_. rewrite !list_elem_of_In, filter_In. tauto. Qed.

Lemma where_perm {A} (p : A -> bool) l1 l2 : l1 ≡ₚ l2 -> where_ p l1 ≡ₚ where_ p l2.
Proof.
  unfold where_. induction 1; simpl; repeat case_match; eauto using Permutation.
Qed.

Lemma where_where {A} (p q : A -> bool) l : where_ p (where_ q l) = where_ (fun x => q x && p x) l.
Proof.
  unfold where_. induction l as [|x l IH]; simpl; [done|].
  destruct (q x) eqn:?; simpl; [destruct (p x); simpl; by rewrite IH|done].
Qed.

Lemma where_app {A} (p : A -> bool) l1 l2 : where_ p (l1 ++ l2) = where_ p l1 ++ where_ p l2.
Proof. apply List.filter_app. Qed.

Lemma where_all {A} (p : A -> bool) l : (forall x, x ∈ l -> p x = true) -> where_ p l = l.
Proof.
  unfold where_. induction l as [|x l IH]; simpl; [done|]. intros Hp.
  rewrite (Hp x) by left. f_equal. apply IH. intros y Hy. apply Hp. by right.
Qed.

Lemma where_none {A} (p : A -> bool) l : (forall x, x ∈ l -> p x = false) -> where_ p l = [].
Proof.
  unfold where_. induction l as [|x l IH]; simpl; [done|]. intros Hp.
  rewrite (Hp x) by left. apply IH. intros y Hy. apply Hp. by right.
Qed.

Lemma where_sorted {A} (R : relation A) (p : A -> bool) l :
  StronglySorted R l -> StronglySorted R (where_ p l).
Proof.
  unfold where_. induction 1 as [|x l Hs IH Hx]; simpl; [constructor|]. case_match; [|done].
  constructor; [done|]. rewrite Forall_forall in *. intros y Hy.
  apply Hx. by apply (elem_of_where p) in Hy as [_ Hy].
Qed.

Lemma ids_distinct_eq l x y : ids_distinct l -> x ∈ l -> y ∈ l -> msg_id x = msg_id y -> x = y.
Proof.
  unfold ids_distinct. intros Hnd Hx Hy He. induction l as [|z l IH]; [by apply not_elem_of_nil in Hx|].
  cbn [map] in Hnd. apply NoDup_cons in Hnd as [Hz Hnd].
  apply elem_of_cons in Hx as [-> |Hx], Hy as [-> |Hy]; [done|..|by apply IH].
  - destruct Hz. rewrite He. by apply list_elem_of_fmap_2.
  - destruct Hz. rewrite <- He. by apply list_elem_of_fmap_2.
Qed.

(** Two sorted arrangements of rows with distinct ids are the same. *)
Lemma key_sorted_unique l l1 l2 :
  ids_distinct l -> l1 ≡ₚ l -> l2 ≡ₚ l -> StronglySorted key_le l1 -> StronglySorted key_le l2 -> l1 = l2.
Proof.
  intros Hnd H1 H2 Hs1 Hs2. apply (StronglySorted_unique_strong key_le); [|done|done|by rewrite H1, H2].
  intros x y Hx Hy Hxy Hyx. apply (ids_distinct_eq l); [done|by rewrite <- H1|by rewrite <- H2|].
  unfold key_le in *. lia.
Qed.

Lemma ids_distinct_perm l1 l2 : l1 ≡ₚ l2 -> ids_distinct l1 -> ids_distinct l2.
Proof. unfold ids_distinct. intros H. by rewrite H. Qed.

Lemma ids_distinct_where p l : ids_distinct l -> ids_distinct (where_ p l).
Proof.
  unfold ids_distinct, where_. induction l as [|x l IH]; [done|]. cbn [map]. rewrite NoDup_cons. intros [Hx Hnd].
  simpl. case_match; [|by apply IH]. cbn [map]. apply NoDup_cons. split; [|by apply IH].
  intros Hin. apply Hx. apply list_elem_of_fmap in Hin as (y & -> & Hy).
  apply list_elem_of_fmap_2. by apply (elem_of_where p) in Hy as [_ Hy].
Qed.

Lemma rows_of_perm cid t : rows_of cid t ≡ₚ where_ (of_channel cid) (messages t).
Proof. apply merge_sort_Permutation. Qed.

Lemma rows_of_sorted cid t : StronglySorted key_le (rows_of cid t).
Proof. apply StronglySorted_merge_sort; apply _. Qed.

Lemma rows_of_distinct cid t : ids_distinct (messages t) -> ids_distinct (rows_of cid t).
Proof.
  intros H. eapply ids_distinct_perm; [symmetry; apply rows_of_perm|]. by apply ids_distinct_where.
Qed.

Lemma elem_of_rows cid t m : m ∈ rows_of cid t <-> m ∈ messages t /\ msg_channel m = cid.
Proof. rewrite rows_of_perm, elem_of_where. unfold of_channel. rewrite Z.eqb_eq. tauto. Qed.

(** ** The queries over the sorted rows *)

Section queries.
Context (t : tables) (Hnd : ids_distinct (messages t)).

Lemma sort_where cid p :
  merge_sort key_le (where_ (fun m => of_channel cid m && p m) (messages t)) = where_ p (rows_of cid t).
Proof.
  apply (key_sorted_unique (where_ (fun m => of_channel cid m && p m) (messages t))).
  - by apply ids_distinct_where.
  - apply merge_sort_Permutation.
  - rewrite <- where_where. apply where_perm, rows_of_perm.
  - apply StronglySorted_merge_sort; apply _.
  - apply where_sorted, rows_of_sorted.
Qed.

Lemma sorted_rev l : StronglySorted key_ge l -> StronglySorted key_le (rev l).
Proof.
  induction 1 as [|x l Hs IH Hx]; simpl; [constructor|].
  apply StronglySorted_app_2; [|done|repeat constructor].
  intros y z Hy Hz%list_elem_of_singleton. subst z.
  rewrite Forall_forall in Hx. apply (Hx y). rewrite list_elem_of_In in *. by apply in_rev.
Qed.

Lemma sort_where_rev cid p :
  merge_sort key_ge (where_ (fun m => of_channel cid m && p m) (messages t)) = rev (where_ p (rows_of cid t)).
Proof.
  rewrite <- (rev_involutive (merge_sort key_ge _)). f_equal. rewrite <- sort_where.
  apply (key_sorted_unique (where_ (fun m => of_channel cid m && p m) (messages t))).
  - by apply ids_distinct_where.
  - by rewrite <- Permutation_rev, merge_sort_Permutation.
  - apply merge_sort_Permutation.
  - apply sorted_rev, StronglySorted_merge_sort; apply _.
  - apply StronglySorted_merge_sort; apply _.
Qed.

(** Splitting the rows at one of them. *)
Lemma rows_split cid k m :
  rows_of cid t !! k = Some m ->
  (forall x, x ∈ take k (rows_of cid t) -> key_le x m /\ msg_id x <> msg_id m) /\
  (forall x, x ∈ drop (S k) (rows_of cid t) -> key_le m x /\ msg_id x <> msg_id m).
Proof.
  intros Hk. pose proof (take_drop_middle _ _ _ Hk) as Heq.
  pose proof (rows_of_sorted cid t) as Hs. pose proof (rows_of_distinct cid t Hnd) as Hd.
  rewrite <- Heq in Hs, Hd. unfold ids_distinct in Hd.
  apply StronglySorted_app in Hs as (Hlt & _ & Hs). apply StronglySorted_cons in Hs as [Hgt _].
  rewrite map_app in Hd. cbn [map] in Hd. apply NoDup_app in Hd as (_ & Hd1 & Hd2).
  apply NoDup_cons in Hd2 as [Hd2 _]. rewrite Forall_forall in Hgt. split; intros x Hx.
  - split; [apply Hlt; [done|by left]|]. intros He. apply (Hd1 (msg_id m)); [|by left].
    rewrite <- He. by apply list_elem_of_fmap_2.
  - split; [by apply Hgt|]. intros He. apply Hd2. rewrite <- He. by apply list_elem_of_fmap_2.
Qed.

(** A predicate that holds exactly from position [k] on, or up to it. *)
Lemma where_from cid k (p : message -> bool) :
  (forall x, x ∈ take k (rows_of cid t) -> p x = false) ->
  (forall x, x ∈ drop k (rows_of cid t) -> p x = true) ->
  where_ p (rows_of cid t) = drop k (rows_of cid t).
Proof.
  intros H1 H2. rewrite <- (take_drop k (rows_of cid t)) at 1.
  by rewrite where_app, where_none, where_all.
Qed.

Lemma where_upto cid k (p : message -> bool) :
  (forall x, x ∈ take k (rows_of cid t) -> p x = true) ->
  (forall x, x ∈ drop k (rows_of cid t) -> p x = false) ->
  where_ p (rows_of cid t) = take k (rows_of cid t).
Proof.
  intros H1 H2. rewrite <- (take_drop k (rows_of cid t)) at 1.
  by rewrite where_app, where_all, where_none, app_nil_r by done.
Qed.

Ltac split_at Hk :=
  destruct (rows_split _ _ _ Hk) as [Hbefore Hafter];
  intros x Hx; unfold at_or_after, at_or_before, strictly_after, key_le in *.

Lemma rows_at_or_after cid k m :
  rows_of cid t !! k = Some m ->
  where_ (at_or_after (msg_ts m) (msg_id m)) (rows_of cid t) = drop k (rows_of cid t).
Proof.
  intros Hk. apply where_from; split_at Hk.
  - specialize (Hbefore x Hx). lia.
  - rewrite (drop_S _ _ _ Hk) in Hx. apply elem_of_cons in Hx as [-> |Hx]; [lia|].
    specialize (Hafter x Hx). lia.
Qed.

Lemma rows_strictly_after cid k m :
  rows_of cid t !! k = Some m ->
  where_ (strictly_after (msg_ts m) (msg_id m)) (rows_of cid t) = drop (S k) (rows_of cid t).
Proof.
  intros Hk. apply where_from; split_at Hk.
  - rewrite (take_S_r _ _ _ Hk) in Hx. apply elem_of_app in Hx as [Hx|Hx%list_elem_of_singleton].
    + specialize (Hbefore x Hx). lia.
    + subst x. lia.
  - specialize (Hafter x Hx). lia.
Qed.

Lemma rows_at_or_before cid k m :
  rows_of cid t !! k = Some m ->
  where_ (at_or_before (msg_ts m) (msg_id m)) (rows_of cid t) = take (S k) (rows_of cid t).
Proof.
  intros Hk. apply where_upto; split_at Hk.
  - rewrite (take_S_r _ _ _ Hk) in Hx. apply elem_of_app in Hx as [Hx|Hx%list_elem_of_singleton].
    + specialize (Hbefore x Hx). lia.
    + subst x. lia.
  - specialize (Hafter x Hx). lia.
Qed.

Lemma rows_before cid k m :
  rows_of cid t !! k = Some m ->
  where_ (fun x => (msg_ts x <? msg_ts m) || ((msg_ts x =? msg_ts m) && (msg_id x <? msg_id m)))
    (rows_of cid t) = take k (rows_of cid t).
Proof.
  intros Hk. apply where_upto; split_at Hk.
  - specialize (Hbefore x Hx). lia.
  - rewrite (drop_S _ _ _ Hk) in Hx. apply elem_of_cons in Hx as [-> |Hx]; [lia|].
    specialize (Hafter x Hx). lia.
Qed.
End queries.

(** ** Truthful cache entries *)

Definition anchor_lt (a b : sb_anchor) : Prop := ordinal a < ordinal b.

(** The anchor's key is the key of the row at its ordinal. *)
Definition anchor_at (ks : list (Z * Z)) (a : sb_anchor) : Prop :=
  0 <= ordinal a /\ ks !! Z.to_nat (ordinal a) = Some (a_ts a, a_id a).

Record anchors_ok (ks : list (Z * Z)) (l : list sb_anchor) : Prop := {
  anchors_sorted : StronglySorted anchor_lt l;
  anchors_true : Forall (anchor_at ks) l;
  anchors_bounded : (length l <= SB_ANCHOR_MAX)%nat }.

(** Either nothing is known, or the count is exact, [max_ts] bounds every
    timestamp and every anchor is true. *)
Definition entry_ok (ks : list (Z * Z)) (c : sb_chan_cache) : Prop :=
  (count c = -1 /\ anchors c = []) \/
  (count c = Z.of_nat (length ks) /\ Forall (fun k => k.1 <= max_ts c) ks /\ anchors_ok ks (anchors c)).

Lemma anchor_scan_spec ord l i :
  StronglySorted anchor_lt l ->
  exists l1 l2, l = l1 ++ l2 /\ Forall (fun e => ordinal e < ord) l1 /\
    (anchor_scan l i ord = ((i + length l1)%nat, false) /\ Forall (fun e => ord < ordinal e) l2 \/
     anchor_scan l i ord = ((i + length l1)%nat, true) /\
       exists e l3, l2 = e :: l3 /\ ordinal e = ord /\ Forall (fun e => ord < ordinal e) l3).
Proof.
  intros Hs. revert i; induction Hs as [|e l Hs IH He]; intros i; simpl.
  { exists [], []. split; [done|]. split; [done|]. left. split; [by rewrite Nat.add_0_r|done]. }
  assert (Hafter : ord <= ordinal e -> Forall (fun x => ord < ordinal x) l).
  { intros ?. eapply Forall_impl; [exact He|]. unfold anchor_lt. intros; lia. }
  destruct (Z.eqb_spec (ordinal e) ord) as [Heq|Hne]; [|destruct (Z.ltb_spec ord (ordinal e))].
  - exists [], (e :: l). split; [done|]. split; [done|]. right. split; [by rewrite Nat.add_0_r|].
    exists e, l. split; [done|]. split; [done|]. apply Hafter. lia.
  - exists [], (e :: l). split; [done|]. split; [done|]. left. split; [by rewrite Nat.add_0_r|].
    constructor; [done|]. apply Hafter. lia.
  - destruct (IH (S i)) as (l1 & l2 & -> & H1 & H2). exists (e :: l1), l2.
    split; [done|]. split; [constructor; [lia|done]|]. simpl length.
    replace (i + S (length l1))%nat with (S i + length l1)%nat by lia. done.
Qed.

Lemma far_scan_bound l j ord far_i far_d :
  (far_i <= j)%nat -> (0 < length l)%nat -> far_d < 0 \/ (far_i < j)%nat ->
  (far_scan l j ord far_i far_d < j + length l)%nat.
Proof.
  revert j far_i far_d; induction l as [|e l IH]; intros j far_i far_d Hj Hl Hd; simpl in *; [lia|].
  destruct (Z.ltb_spec far_d (Z.abs (ordinal e - ord))).
  - destruct l; [simpl; lia|]. specialize (IH (S j) j (Z.abs (ordinal e - ord))). simpl in *. lia.
  - destruct l; [simpl; lia|]. specialize (IH (S j) far_i far_d). simpl in *. lia.
Qed.

Lemma sorted_insert l1 a l2 :
  StronglySorted anchor_lt (l1 ++ l2) -> Forall (fun e => ordinal e < ordinal a) l1 ->
  Forall (fun e => ordinal a < ordinal e) l2 -> StronglySorted anchor_lt (l1 ++ a :: l2).
Proof.
  intros (H12 & H1 & H2)%StronglySorted_app Hl Hr. rewrite Forall_forall in Hl.
  apply StronglySorted_app_2; [|done|by constructor].
  intros x y Hx [-> |Hy]%elem_of_cons; [by apply Hl|by apply H12].
Qed.

(** Dropping position [f] of a split list: a split list again. *)
Lemma drop_one {A} (l1 l2 : list A) f :
  (f < length (l1 ++ l2))%nat ->
  exists l1' l2', take f (l1 ++ l2) ++ drop (S f) (l1 ++ l2) = l1' ++ l2' /\
    sublist l1' l1 /\ sublist l2' l2 /\
    length l1' = (if (f <? length l1)%nat then length l1 - 1 else length l1)%nat /\
    length (l1' ++ l2') = (length (l1 ++ l2) - 1)%nat.
Proof.
  intros Hf. rewrite length_app in Hf. destruct (Nat.ltb_spec f (length l1)).
  - exists (take f l1 ++ drop (S f) l1), l2. rewrite take_app_le, drop_app_le by lia.
    split; [by rewrite <- app_assoc|]. rewrite <- delete_take_drop.
    split; [apply sublist_delete|]. split; [done|].
    rewrite !length_app, length_delete by (by apply lookup_lt_is_Some_2). lia.
  - exists l1, (take (f - length l1) l2 ++ drop (S (f - length l1)) l2).
    rewrite take_app_ge, drop_app_ge by lia. replace (S f - length l1)%nat with (S (f - length l1)) by lia.
    split; [by rewrite <- app_assoc|]. rewrite <- !delete_take_drop.
    split; [done|]. split; [apply sublist_delete|]. split; [done|].
    rewrite !length_app, length_delete by (apply lookup_lt_is_Some_2; lia). lia.
Qed.

Lemma Forall_sublist {A} (P : A -> Prop) l1 l2 : sublist l1 l2 -> Forall P l2 -> Forall P l1.
Proof. induction 1; intros Hf; [done|..]; inversion Hf; subst; eauto. Qed.

Lemma sorted_sublist {A} (R : relation A) l1 l2 : sublist l1 l2 -> StronglySorted R l2 -> StronglySorted R l1.
Proof.
  induction 1 as [|x l1 l2 Hsub IH|x l1 l2 Hsub IH]; intros Hs; [done|..];
    apply StronglySorted_cons in Hs as [Hx Hs]; [|by apply IH].
  constructor; [by apply IH|by eapply Forall_sublist].
Qed.

Lemma add_anchor_ok ks l n mx ord ts id :
  anchors_ok ks l -> 0 <= n -> 0 <= ord -> ks !! Z.to_nat ord = Some (ts, id) ->
  exists l', chan_cache_add_anchor ord ts id (ChanCache n mx l) = ChanCache n mx l' /\ anchors_ok ks l'.
Proof.
  intros [Hs Ht Hb] Hn Hord Hk. unfold chan_cache_add_anchor. cbn [count anchors max_ts].
  rewrite (proj2 (Z.ltb_ge n 0)), (proj2 (Z.ltb_ge ord 0)) by lia. cbn [orb].
  destruct (anchor_scan_spec ord l 0 Hs) as (l1 & l2 & -> & H1 & [[-> H2]|[-> (e & l3 & -> & He & H3)]]);
    cbn [Nat.add].
  2: { rewrite take_app_length, drop_app_ge by lia.
    replace (S (length l1) - length l1)%nat with 1%nat by lia. cbn [drop].
    eexists. split; [done|]. apply Forall_app in Ht as [Ht1 [_ Ht2]%Forall_cons].
    split; [|apply Forall_app; split; [done|by constructor]|rewrite length_app in *; done].
    apply sorted_insert; [|done..]. apply StronglySorted_app in Hs as (H & Hs1 & Hs2).
    apply StronglySorted_cons in Hs2 as [_ Hs2]. apply StronglySorted_app_2; [|done..].
    intros x y Hx Hy. apply H; [done|by right]. }
  destruct (Nat.leb_spec SB_ANCHOR_MAX (length (l1 ++ l2))) as [Hfull|Hroom].
  - set (f := far_scan _ _ _ _ _).
    assert (Hf : (f < length (l1 ++ l2))%nat).
    { apply (far_scan_bound (l1 ++ l2) 0 ord 0 (-1)); [lia| |left; lia]. unfold SB_ANCHOR_MAX in *. lia. }
    destruct (drop_one l1 l2 f Hf) as (l1' & l2' & -> & Hsub1 & Hsub2 & Hlen & Hlen').
    assert (Hsub : sublist (l1' ++ l2') (l1 ++ l2)) by by apply sublist_app.
    rewrite <- Hlen, take_app_length, drop_app_length. eexists. split; [done|]. split.
    + apply sorted_insert; [by eapply sorted_sublist|by eapply Forall_sublist|by eapply Forall_sublist].
    + pose proof (Forall_sublist _ _ _ Hsub Ht) as Ht'. apply Forall_app in Ht' as [? ?].
      apply Forall_app. split; [done|]. by constructor.
    + rewrite length_app in Hlen' |- *. simpl. unfold SB_ANCHOR_MAX in *. lia.
  - rewrite take_app_length, drop_app_length. eexists. split; [done|]. split.
    + by apply sorted_insert.
    + apply Forall_app in Ht as [? ?]. apply Forall_app. split; [done|]. by constructor.
    + rewrite length_app in *. simpl. lia.
Qed.

(** ** Finding anchors *)

Lemma find_anchors_members l ord end_ before b a :
  find_anchors_loop l ord end_ before = (b, a) ->
  (forall x, b = Some x -> before = Some x \/ x ∈ l /\ ordinal x <= ord) /\
  (forall x, a = Some x -> x ∈ l /\ end_ <= ordinal x).
Proof.
  revert before; induction l as [|e l IH]; intros before; simpl.
  { intros [= <- <-]. split; [by left|done]. }
  destruct (Z.leb_spec end_ (ordinal e)).
  - intros [= <- <-]. split.
    + intros x Hx. destruct (Z.leb_spec (ordinal e) ord); [|by left].
      simplify_eq. right. split; [by left|done].
    + intros x [= <-]. split; [by left|done].
  - intros [Hb Ha]%IH. split.
    + intros x Hx. destruct (Hb x Hx) as [Hx'|[Hin Hle]]; [|right; split; [by right|done]].
      destruct (Z.leb_spec (ordinal e) ord); [|by left]. simplify_eq. right. split; [by left|done].
    + intros x Hx. destruct (Ha x Hx) as [Hin Hle]. split; [by right|done].
Qed.

Lemma nearest_members l ts rowid before b a :
  nearest_loop l ts rowid before = (b, a) ->
  (forall x, b = Some x -> before = Some x \/
     x ∈ l /\ (a_ts x < ts \/ a_ts x = ts /\ a_id x <= rowid)) /\
  (forall x, a = Some x -> x ∈ l /\ ~ (a_ts x < ts \/ a_ts x = ts /\ a_id x <= rowid)).
Proof.
  revert before; induction l as [|e l IH]; intros before; simpl.
  { intros [= <- <-]. split; [by left|done]. }
  destruct ((a_ts e <? ts) || ((a_ts e =? ts) && (a_id e <=? rowid))) eqn:He.
  - intros [Hb Ha]%IH. split.
    + intros x Hx. right. destruct (Hb x Hx) as [Hx'|[Hin Hle]]; [|split; [by right|done]].
      simplify_eq. split; [by left|lia].
    + intros x Hx. destruct (Ha x Hx) as [Hin Hle]. split; [by right|done].
  - intros [= <- <-]. split; [by left|]. intros x [= <-]. split; [by left|lia].
Qed.

(** ** Paging from the cache *)

Section paging.
Context (t : tables) (Hnd : ids_distinct (messages t)) (cid : Z).

Lemma length_keys : length (keys_of cid t) = length (rows_of cid t).
Proof. apply length_map. Qed.

Lemma anchor_row a :
  anchor_at (keys_of cid t) a ->
  0 <= ordinal a /\ exists m, rows_of cid t !! Z.to_nat (ordinal a) = Some m /\
    a_ts a = msg_ts m /\ a_id a = msg_id m.
Proof.
  intros [H0 H]. split; [done|]. unfold keys_of in H. apply list_lookup_fmap_Some in H as (m & Hk & Hm).
  exists m. unfold key in Hk. by simplify_eq.
Qed.

Lemma row_key_at k m : rows_of cid t !! k = Some m -> keys_of cid t !! k = Some (msg_ts m, msg_id m).
Proof. intros H. unfold keys_of. apply list_lookup_fmap_Some. by exists m. Qed.

Lemma load_range_plain lim off : stmt_load_range cid lim off t = limit_offset lim off (rows_of cid t).
Proof. done. Qed.

Lemma load_range_fwd lim off k m :
  rows_of cid t !! k = Some m -> 0 <= off ->
  stmt_load_range_fwd cid (msg_ts m) (msg_id m) lim off t =
  limit_offset lim (Z.of_nat k + off) (rows_of cid t).
Proof.
  intros Hk Hoff. unfold stmt_load_range_fwd. rewrite sort_where, (rows_at_or_after t Hnd cid k m Hk) by done.
  unfold limit_offset. rewrite drop_drop. by replace (Z.to_nat (Z.of_nat k + off)) with (k + Z.to_nat off)%nat by lia.
Qed.

Lemma load_range_bwd lim cost k m :
  rows_of cid t !! k = Some m -> 0 <= cost -> 0 <= lim -> 0 <= Z.of_nat k - cost - lim + 1 ->
  rev (stmt_load_range_bwd cid (msg_ts m) (msg_id m) lim cost t) =
  limit_offset lim (Z.of_nat k - cost - lim + 1) (rows_of cid t).
Proof.
  intros Hk Hcost Hlim Hoff. unfold stmt_load_range_bwd.
  rewrite sort_where_rev, (rows_at_or_before t Hnd cid k m Hk) by done. unfold limit_offset.
  pose proof (lookup_lt_Some _ _ _ Hk). rewrite skipn_rev, firstn_rev, rev_involutive.
  rewrite length_firstn, length_take, firstn_firstn.
  rewrite skipn_firstn_comm.
  f_equal; [lia|]. f_equal. lia.
Qed.

Lemma range_rows_spec c offset end_ :
  entry_ok (keys_of cid t) c -> 0 <= offset <= end_ -> end_ < count c -> offset < INT_MAX ->
  exists backward, range_rows c cid offset end_ (end_ - offset + 1) t =
    Some (limit_offset (end_ - offset + 1) offset (rows_of cid t), backward).
Proof.
  intros [[Hc _]|(Hc & _ & Hanch)] Ho He Hmax; [lia|]. unfold range_rows, chan_cache_find_anchors.
  rewrite (proj2 (Z.ltb_ge (count c) 0)) by lia.
  destruct (find_anchors_loop (anchors c) offset end_ None) as [before after] eqn:Hfind.
  destruct (find_anchors_members _ _ _ _ _ _ Hfind) as [Hb Ha]. clear Hfind.
  pose proof (anchors_true _ _ Hanch) as Htrue. rewrite Forall_forall in Htrue.
  set (cost_fwd := match before with Some b => _ | None => _ end).
  set (cost_bwd := match after with Some a => _ | None => _ end). cbv zeta.
  destruct ((cost_fwd <=? offset) && (cost_fwd <=? cost_bwd)) eqn:Hfwd; [|destruct (cost_bwd <? offset) eqn:Hbwd].
  - destruct before as [b|]; [|lia]. destruct (Hb b eq_refl) as [|[Hin Hle]]; [done|].
    cbn [mbind option_bind]. destruct (anchor_row b (Htrue b Hin)) as (Hpos & m & Hm & -> & ->).
    exists false. rewrite (load_range_fwd _ _ _ _ Hm) by lia. do 3 f_equal. lia.
  - destruct after as [a|]; [|lia]. destruct (Ha a eq_refl) as [Hin Hle].
    cbn [mbind option_bind]. destruct (anchor_row a (Htrue a Hin)) as (Hpos & m & Hm & -> & ->).
    exists true. rewrite (load_range_bwd _ _ _ _ Hm) by lia. do 3 f_equal. lia.
  - by exists false.
Qed.

Lemma length_limit_offset {A} lim off (l : list A) :
  0 <= off -> 0 <= lim -> off + lim <= Z.of_nat (length l) ->
  Z.of_nat (length (limit_offset lim off l)) = lim.
Proof. intros. unfold limit_offset. rewrite length_take, length_drop. lia. Qed.

Lemma remember_edges_ok c offset lim :
  entry_ok (keys_of cid t) c -> 0 <= offset -> 0 < lim -> offset + lim <= count c ->
  entry_ok (keys_of cid t) (remember_edges (limit_offset lim offset (rows_of cid t)) offset c).
Proof.
  intros [[Hc _]|(Hc & Hts & Hanch)] Ho Hl Hle; [lia|]. rewrite length_keys in Hc.
  assert (Hlen := length_limit_offset lim offset (rows_of cid t) Ho ltac:(lia) ltac:(lia)).
  assert (Hat : forall i m, limit_offset lim offset (rows_of cid t) !! i = Some m ->
    keys_of cid t !! Z.to_nat (offset + Z.of_nat i) = Some (msg_ts m, msg_id m)).
  { intros i m Hi. apply row_key_at. unfold limit_offset in Hi.
    apply lookup_take_Some in Hi as [Hi _]. rewrite lookup_drop in Hi.
    by replace (Z.to_nat (offset + Z.of_nat i)) with (Z.to_nat offset + i)%nat by lia. }
  unfold remember_edges. destruct (limit_offset lim offset (rows_of cid t)) as [|f rows] eqn:Hrows; [by right; rewrite length_keys|].
  case_match eqn:Hlast; [|by right; rewrite length_keys]. rename m into l.
  unfold sql_count. rewrite last_lookup in Hlast. apply Hat in Hlast as Hl'.
  specialize (Hat 0%nat f eq_refl). rewrite Z.add_0_r in Hat.
  destruct c as [n mx anc]. cbn [count max_ts anchors] in *.
  destruct (add_anchor_ok _ _ n mx offset (msg_ts f) (msg_id f) Hanch ltac:(lia) Ho Hat) as (anc1 & -> & H1).
  destruct (add_anchor_ok _ _ n mx (offset + Z.of_nat (length (f :: rows)) - 1) (msg_ts l) (msg_id l) H1
    ltac:(lia) ltac:(lia)) as (anc2 & -> & H2).
  { rewrite <- Hl'. f_equal. simpl. lia. }
  right. rewrite length_keys. split; [done|]. by split.
Qed.

(** The position of a row of the channel. *)
Lemma index_plain k m :
  rows_of cid t !! k = Some m -> stmt_row_key (msg_id m) t = Some (msg_ts m) /\
  stmt_index_of_rowid cid (msg_id m) t = Z.of_nat k.
Proof.
  intros Hk. assert (Hrow : stmt_row_key (msg_id m) t = Some (msg_ts m)).
  { assert (Hin : m ∈ messages t) by (by apply list_elem_of_lookup_2, elem_of_rows in Hk as [? _]).
    unfold stmt_row_key. destruct (find _ (messages t)) as [m'|] eqn:Hfind; simpl.
    - apply find_some in Hfind as [Hin' Heq]. apply list_elem_of_In in Hin'.
      by rewrite (ids_distinct_eq (messages t) m' m) by (done || lia).
    - apply list_elem_of_In in Hin. pose proof (find_none _ _ Hfind m Hin). simpl in *. lia. }
  split; [done|]. unfold stmt_index_of_rowid. rewrite Hrow. unfold sql_count.
  rewrite <- where_where, <- (Permutation_length (where_perm _ _ _ (rows_of_perm cid t))).
  rewrite (rows_before t Hnd cid k m Hk), length_take. pose proof (lookup_lt_Some _ _ _ Hk). lia.
Qed.

Lemma count_span k1 m1 k2 m2 :
  rows_of cid t !! k1 = Some m1 -> rows_of cid t !! k2 = Some m2 -> (k1 <= k2)%nat ->
  stmt_count_span cid (msg_ts m1) (msg_id m1) (msg_ts m2) (msg_id m2) t = Z.of_nat k2 - Z.of_nat k1.
Proof.
  intros H1 H2 Hle. unfold stmt_count_span, sql_count.
  assert (Heq : where_ (fun m => of_channel cid m && strictly_after (msg_ts m1) (msg_id m1) m &&
      at_or_before (msg_ts m2) (msg_id m2) m) (messages t) ≡ₚ
    where_ (strictly_after (msg_ts m1) (msg_id m1)) (where_ (at_or_before (msg_ts m2) (msg_id m2)) (rows_of cid t))).
  { rewrite (where_where (strictly_after _ _)). rewrite (where_perm _ _ _ (rows_of_perm cid t)), where_where.
    unfold where_. erewrite filter_ext; [done|]. intros x. simpl. destruct (of_channel cid x), (strictly_after _ _ x), (at_or_before _ _ x); done. }
  rewrite Heq, where_where.
  assert (Hcomm : where_ (fun x => at_or_before (msg_ts m2) (msg_id m2) x && strictly_after (msg_ts m1) (msg_id m1) x)
      (rows_of cid t) = take (S k2 - S k1) (drop (S k1) (rows_of cid t))).
  { rewrite <- where_where, (rows_at_or_before t Hnd cid k2 m2 H2).
    rewrite <- skipn_firstn_comm. replace (S k1 + (S k2 - S k1))%nat with (S k2) by lia.
    rewrite <- (take_drop (S k1) (take (S k2) (rows_of cid t))) at 1.
    destruct (rows_split t Hnd cid k1 m1 H1) as [Hbefore Hafter]. rewrite where_app, where_none, where_all; [done|..].
    - intros x Hx. rewrite skipn_firstn_comm in Hx. apply elem_of_take in Hx as (i & Hx & _).
      apply list_elem_of_lookup_2 in Hx. destruct (Hafter x Hx). unfold strictly_after, key_le in *. lia.
    - intros x Hx. rewrite take_take in Hx. replace (S k1 `min` S k2)%nat with (S k1) in Hx by lia.
      rewrite (take_S_r _ _ _ H1) in Hx. unfold strictly_after.
      apply elem_of_app in Hx as [Hx| ->%list_elem_of_singleton]; [|lia].
      destruct (Hbefore x Hx). unfold key_le in *. lia. }
  rewrite Hcomm, length_take, length_drop. pose proof (lookup_lt_Some _ _ _ H2). lia.
Qed.

Lemma key_position k1 m1 k2 m2 :
  rows_of cid t !! k1 = Some m1 -> rows_of cid t !! k2 = Some m2 -> key_le m1 m2 -> (k1 <= k2)%nat.
Proof.
  intros H1 H2 Hle. destruct (Nat.le_gt_cases k1 k2) as [|Hlt]; [done|].
  destruct (rows_split t Hnd cid k2 m2 H2) as [_ Hafter]. destruct (Hafter m1) as [Hle' Hne].
  - apply list_elem_of_lookup. exists (k1 - S k2)%nat. rewrite lookup_drop.
    by replace (S k2 + (k1 - S k2))%nat with k1 by lia.
  - unfold key_le in *. lia.
Qed.

Lemma index_from_anchor_spec c k m i found :
  anchors_ok (keys_of cid t) (anchors c) -> rows_of cid t !! k = Some m ->
  index_from_anchor c cid (msg_ts m) (msg_id m) t = Some (i, found) -> i = Z.of_nat k.
Proof.
  intros Hanch Hk. unfold index_from_anchor.
  destruct (nearest_loop (anchors c) (msg_ts m) (msg_id m) None) as [before after] eqn:Hnear.
  destruct (nearest_members _ _ _ _ _ _ Hnear) as [Hb Ha]. clear Hnear.
  pose proof (anchors_true _ _ Hanch) as Htrue. rewrite Forall_forall in Htrue.
  destruct before as [b|]; [|destruct after as [a|]; [|done]].
  - destruct (Hb b eq_refl) as [|[Hin Hle]]; [done|].
    destruct (anchor_row b (Htrue b Hin)) as (Hpos & mb & Hmb & Hts & Hid). rewrite Hts, Hid in *.
    assert (Hkb : (Z.to_nat (ordinal b) <= k)%nat) by (eapply key_position; [done..|unfold key_le; lia]).
    case_match eqn:Hsame; intros [= <- <-].
    + assert (Hkk : (k <= Z.to_nat (ordinal b))%nat) by (eapply key_position; [done..|unfold key_le; lia]). lia.
    + rewrite (count_span _ _ _ _ Hmb Hk) by done. lia.
  - intros [= <- <-]. destruct (Ha a eq_refl) as [Hin Hgt].
    destruct (anchor_row a (Htrue a Hin)) as (Hpos & ma & Hma & Hts & Hid). rewrite Hts, Hid in *.
    assert (Hka : (k <= Z.to_nat (ordinal a))%nat) by (eapply key_position; [done..|unfold key_le; lia]).
    rewrite (count_span _ _ _ _ Hk Hma) by done. lia.
Qed.
End paging.

(** ** The handle *)

Definition names (t : tables) : list (cstr * Z) := map (fun c => (ch_name c, ch_id c)) (channels t).

(** Ids identify messages and channels, cached channel ids are those of the
    table, and every cache entry is true of its channel. *)
Record db_ok (db : scrollback_db) : Prop := {
  ok_ids : ids_distinct (messages (tbl db));
  ok_ids_pos : Forall (fun m => 0 < msg_id m) (messages (tbl db));
  ok_names : NoDup (names (tbl db)).*1;
  ok_chan_ids : NoDup (names (tbl db)).*2;
  ok_chan_range : Forall (fun i => 0 < i <= INT_MAX) (names (tbl db)).*2;
  ok_cached_ids n i : channel_id_cache db !! n = Some i -> (n, i) ∈ names (tbl db);
  ok_cache cid c : chan_cache db !! cid = Some c -> entry_ok (keys_of cid (tbl db)) c }.

Definition id_room (db : scrollback_db) : Prop :=
  Forall (fun m => msg_id m < INT64_MAX) (messages (tbl db)).

(** There is room for another message and another channel. *)
Record roomy (db : scrollback_db) : Prop := {
  room_count : Z.of_nat (length (messages (tbl db))) < INT_MAX;
  room_ids : id_room db;
  room_chans : Forall (fun i => i < INT_MAX) (names (tbl db)).*2 }.

Lemma lookup_names n i t :
  NoDup (names t).*1 -> (n, i) ∈ names t -> stmt_channel_lookup n t = Some i.
Proof.
  unfold names, stmt_channel_lookup. induction (channels t) as [|c l IH]; simpl.
  { by intros _ ?%not_elem_of_nil. }
  intros [Hc Hnd]%NoDup_cons [[= -> ->]|Hin]%elem_of_cons.
  - by rewrite bool_decide_eq_true_2.
  - rewrite bool_decide_eq_false_2; [by apply IH|]. intros Heq. apply Hc. rewrite Heq.
    by apply (list_elem_of_fmap_2 fst) in Hin.
Qed.

Lemma lookup_in_names n i t : stmt_channel_lookup n t = Some i -> (n, i) ∈ names t.
Proof.
  unfold names, stmt_channel_lookup. intros H. apply fmap_Some in H as (c & Hfind & ->).
  apply find_some in Hfind as [Hin Heq]. apply bool_decide_eq_true in Heq as <-.
  apply (list_elem_of_fmap_2 (fun c => (ch_name c, ch_id c))). by apply list_elem_of_In.
Qed.

Lemma foldr_max_bound l x : x ∈ l -> x <= foldr Z.max 0 l.
Proof. induction l; simpl; [by intros ?%not_elem_of_nil|]. intros [-> |H]%elem_of_cons; [lia|]. specialize (IHl H). lia. Qed.

Lemma foldr_max_lt l b : 0 < b -> Forall (fun i => i < b) l -> foldr Z.max 0 l < b.
Proof. intros Hb. induction 1; simpl; lia. Qed.

Lemma foldr_max_nonneg l : 0 <= foldr Z.max 0 l.
Proof. induction l; simpl; lia. Qed.

Section handle.
Context `{SqliteLaws}.

(** The parts of the handle the cache depends on are the same. *)
Record same_rows (db db' : scrollback_db) : Prop := {
  same_messages : messages (tbl db') = messages (tbl db);
  same_names : names (tbl db') = names (tbl db);
  same_id_cache : channel_id_cache db' = channel_id_cache db;
  same_chan_cache : chan_cache db' = chan_cache db }.

Lemma same_keys db db' cid :
  messages (tbl db') = messages (tbl db) -> keys_of cid (tbl db') = keys_of cid (tbl db).
Proof. unfold keys_of, rows_of. by intros ->. Qed.

Lemma db_ok_same db db' : same_rows db db' -> db_ok db -> db_ok db'.
Proof.
  intros [Hm Hn Hi Hc] [H1 H2 H3 H4 H5 H6 H7]. constructor; rewrite ?Hm, ?Hn, ?Hi, ?Hc; try done.
  intros cid c Hcid. rewrite (same_keys db db' cid Hm). by apply H7.
Qed.

Lemma get_channel_id_spec db n :
  db_ok db -> roomy db -> n <> [] ->
  exists db' cid, scrollback_get_channel_id db n = (db', cid) /\ db_ok db' /\
    (n, cid) ∈ names (tbl db') /\ messages (tbl db') = messages (tbl db) /\
    chan_cache db' = chan_cache db /\ (forall p, p ∈ names (tbl db) -> p ∈ names (tbl db')) /\
    fts db' = fts db /\ run db' = run db /\ messages_fts (tbl db') = messages_fts (tbl db).
Proof.
  intros Hok Hroom Hn. unfold scrollback_get_channel_id. destruct n as [|x n]; [done|]. clear Hn.
  set (nm := x :: n). destruct (channel_id_cache db !! nm) as [i|] eqn:Hcached.
  { exists db, i. split_and!; try done. by apply (ok_cached_ids _ Hok). }
  set (db1 := set_tbl (stmt_channel_insert nm) db).
  assert (Hins : exists i, stmt_channel_lookup nm (tbl db1) = Some i /\ 0 < i <= INT_MAX /\
    NoDup (names (tbl db1)).*1 /\ NoDup (names (tbl db1)).*2 /\
    Forall (fun i => 0 < i <= INT_MAX) (names (tbl db1)).*2 /\
    (forall p, p ∈ names (tbl db) -> p ∈ names (tbl db1))).
  { destruct Hok as [_ _ Hnm Hid Hrange _ _]. destruct Hroom as [_ _ Hrc].
    unfold db1, set_tbl, stmt_channel_insert. cbn [tbl].
    destruct (existsb _ (channels (tbl db))) eqn:Hex.
    - apply existsb_exists in Hex as (c & Hin & Heq). apply bool_decide_eq_true in Heq.
      assert (Hin' : (nm, ch_id c) ∈ names (tbl db)).
      { rewrite <- Heq. apply (list_elem_of_fmap_2 (fun c => (ch_name c, ch_id c))). by apply list_elem_of_In. }
      exists (ch_id c). split; [by apply lookup_names|]. split_and!; try done.
      + rewrite Forall_forall in Hrange. apply Hrange. by apply (list_elem_of_fmap_2 snd) in Hin'.
      + rewrite Forall_forall in Hrange. apply Hrange. by apply (list_elem_of_fmap_2 snd) in Hin'.
    - set (i := new_rowid (map ch_id (channels (tbl db)))).
      assert (Hids : map ch_id (channels (tbl db)) = (names (tbl db)).*2).
      { unfold names. rewrite <- list_fmap_compose. done. }
      assert (Hi : i = 1 + foldr Z.max 0 (names (tbl db)).*2).
      { unfold i. rewrite Hids. apply new_rowid_next. rewrite Forall_forall in *. intros j Hj.
        specialize (Hrange j Hj). unfold INT_MAX, INT64_MAX in *. lia. }
      assert (Hnames : names (set_channels (fun l => l ++ [ChannelRow (new_rowid (map ch_id l)) nm false false]) (tbl db))
        = names (tbl db) ++ [(nm, i)]).
      { unfold names, set_channels. cbn [channels]. by rewrite map_app. }
      pose proof (foldr_max_lt _ INT_MAX ltac:(unfold INT_MAX; lia) Hrc) as Hmax.
      pose proof (foldr_max_nonneg (names (tbl db)).*2).
      rewrite Hnames, !fmap_app. cbn [fmap list_fmap fst snd].
      assert (Hnd1 : NoDup ((names (tbl db)).*1 ++ [nm])).
      { apply NoDup_app. split; [done|]. split; [|apply NoDup_singleton].
        intros y Hy Hy'%list_elem_of_singleton. subst y.
        apply list_elem_of_fmap in Hy as ([nm' j] & Heq & Hin). simpl in Heq.
        unfold names in Hin. apply list_elem_of_fmap in Hin as (c & Hc & Hin). simplify_eq.
        apply not_true_iff_false in Hex. apply Hex, existsb_exists. exists c.
        split; [by apply list_elem_of_In|]. by apply bool_decide_eq_true. }
      exists i. split.
      { apply lookup_names; rewrite Hnames; [by rewrite fmap_app|]. apply elem_of_app. right. by left. }
      split; [lia|]. split; [done|]. split.
      { apply NoDup_app. split; [done|]. split; [|apply NoDup_singleton].
        intros y Hy Hy'%list_elem_of_singleton. subst y. pose proof (foldr_max_bound _ _ Hy). lia. }
      split; [apply Forall_app; split; [done|]; constructor; [lia|constructor]|].
      intros p Hp. apply elem_of_app. by left. }
  destruct Hins as (i & Hlk & Hi & Hn1 & Hn2 & Hn3 & Hn4). rewrite Hlk.
  assert (Hmsgs : messages (tbl db1) = messages (tbl db)).
  { unfold db1, set_tbl, stmt_channel_insert. cbn [tbl]. by case_match. }
  exists (set_channel_id_cache <[nm := wrap_i32 i]> db1), i. split; [done|].
  assert (Hw : wrap_i32 i = i) by (unfold wrap_i32, INT_MAX in *; rewrite Z.mod_small; lia).
  split; [|split_and!; try done; [by apply lookup_in_names|]].
  - destruct Hok as [? ? _ _ _ Hc Hcc]. constructor; cbn [tbl channel_id_cache chan_cache set_channel_id_cache];
      rewrite ?Hmsgs; try done.
    + intros n' i'. rewrite Hw. intros [[<- <-]|[_ Hn']]%lookup_insert_Some; [by apply lookup_in_names|].
      by apply Hn4, Hc.
    + intros cid c Hcid. rewrite (same_keys db db1 cid Hmsgs). by apply Hcc.
  - cbn [tbl set_channel_id_cache]. unfold db1, set_tbl, stmt_channel_insert. cbn [tbl]. by case_match.
Qed.

(** *** Tables changing under the cache *)

Lemma rows_other cid t t' :
  where_ (of_channel cid) (messages t') = where_ (of_channel cid) (messages t) -> keys_of cid t' = keys_of cid t.
Proof. unfold keys_of, rows_of. by intros ->. Qed.

Lemma rows_insert cid t t' m :
  messages t' = messages t ++ [m] -> ids_distinct (messages t') -> msg_channel m = cid ->
  (forall x, x ∈ rows_of cid t -> key_le x m) -> keys_of cid t' = keys_of cid t ++ [key m].
Proof.
  intros Hm Hnd Hcid Hle. unfold keys_of.
  replace (map key (rows_of cid t) ++ [key m]) with (map key (rows_of cid t ++ [m])) by apply map_app.
  f_equal. apply (key_sorted_unique (where_ (of_channel cid) (messages t'))).
  - by apply ids_distinct_where.
  - apply rows_of_perm.
  - rewrite Hm, where_app, rows_of_perm. f_equiv.
    assert (Ht : of_channel cid m = true) by (unfold of_channel; lia). unfold where_. simpl. by rewrite Ht.
  - apply rows_of_sorted.
  - apply StronglySorted_app_2; [|apply rows_of_sorted|repeat constructor].
    intros x y Hx ->%list_elem_of_singleton. by apply Hle.
Qed.

Lemma rows_map f cid t t' :
  (forall m, key (f m) = key m) -> (forall m, msg_channel (f m) = msg_channel m) ->
  ids_distinct (messages t) -> messages t' = map f (messages t) -> keys_of cid t' = keys_of cid t.
Proof.
  intros Hkey Hchan Hnd Hm.
  assert (Hids : forall l, map msg_id (map f l) = map msg_id l).
  { intros l. rewrite map_map. apply map_ext. intros m. specialize (Hkey m). unfold key in Hkey. congruence. }
  assert (Hwhere : forall l, where_ (of_channel cid) (map f l) = map f (where_ (of_channel cid) l)).
  { intros l. unfold where_. induction l as [|x l IH]; [done|]. simpl.
    replace (of_channel cid (f x)) with (of_channel cid x) by (unfold of_channel; by rewrite Hchan).
    case_match; simpl; by rewrite IH. }
  unfold keys_of. transitivity (map key (map f (rows_of cid t))).
  - f_equal. apply (key_sorted_unique (where_ (of_channel cid) (messages t'))).
    + apply ids_distinct_where. unfold ids_distinct. by rewrite Hm, Hids.
    + apply rows_of_perm.
    + by rewrite Hm, Hwhere, rows_of_perm.
    + apply rows_of_sorted.
    + apply (StronglySorted_fmap f key_le key_le); [|apply rows_of_sorted].
      intros x y. pose proof (Hkey x). pose proof (Hkey y). unfold key, key_le in *. simplify_eq.
      destruct (f x), (f y); simpl in *; subst. done.
  - rewrite map_map. by apply map_ext.
Qed.

Lemma entry_unknown ks : entry_ok ks (ChanCache (-1) 0 []).
Proof. by left. Qed.

Lemma anchors_weaken ks ks' l : anchors_ok ks l -> anchors_ok (ks ++ ks') l.
Proof.
  intros [H1 H2 H3]. constructor; [done| |done]. eapply Forall_impl; [exact H2|].
  intros a [Ha Hk]. split; [done|]. by apply lookup_app_l_Some.
Qed.

Lemma entry_append ks c ts i :
  entry_ok ks c -> 0 <= count c -> count c = 0 \/ max_ts c <= ts ->
  entry_ok (ks ++ [(ts, i)]) (ChanCache (count c + 1) ts (anchors c)).
Proof.
  intros [[Hc _]|(Hc & Hts & Ha)] Hpos Hor; [lia|]. right. simpl. split; [|split].
  - rewrite length_app. simpl. lia.
  - apply Forall_app. split; [|by constructor]. destruct Hor as [H0|Hle].
    + destruct ks; [done|simpl in *; lia].
    + eapply Forall_impl; [exact Hts|]. simpl. intros. lia.
  - by apply anchors_weaken.
Qed.

Lemma entry_below ks c x : entry_ok ks c -> 0 <= count c -> x ∈ ks -> 0 < count c /\ x.1 <= max_ts c.
Proof.
  intros [[Hc _]|(Hc & Hts & _)] Hpos Hx; [lia|]. split.
  - destruct ks; [by apply not_elem_of_nil in Hx|simpl in *; lia].
  - rewrite Forall_forall in Hts. by apply Hts.
Qed.

(** Forgetting one channel, or every channel. *)
Lemma lookup_invalidate cid db cid' c :
  chan_cache (chan_cache_invalidate cid db) !! cid' = Some c ->
  c = ChanCache (-1) 0 [] \/ cid' <> cid /\ chan_cache db !! cid' = Some c.
Proof.
  unfold chan_cache_invalidate, chan_cache_get. case_match eqn:Hl; simpl.
  - intros [[<- <-]|[Hne ?]]%lookup_insert_Some; [by left|by right].
  - intros Hc. right. split; [|done]. intros ->. congruence.
Qed.

Lemma invalidate_tbl cid db : tbl (chan_cache_invalidate cid db) = tbl db /\
  channel_id_cache (chan_cache_invalidate cid db) = channel_id_cache db /\
  fts (chan_cache_invalidate cid db) = fts db /\ run (chan_cache_invalidate cid db) = run db.
Proof. unfold chan_cache_invalidate. by case_match. Qed.

Lemma note_insert_tbl cid ts db : tbl (chan_cache_note_insert cid ts db) = tbl db /\
  channel_id_cache (chan_cache_note_insert cid ts db) = channel_id_cache db /\
  fts (chan_cache_note_insert cid ts db) = fts db /\ run (chan_cache_note_insert cid ts db) = run db.
Proof. unfold chan_cache_note_insert. repeat case_match; try done; apply invalidate_tbl. Qed.

(** A change of the messages that keeps the other facts. *)
Lemma db_ok_messages db db' :
  db_ok db -> ids_distinct (messages (tbl db')) -> Forall (fun m => 0 < msg_id m) (messages (tbl db')) ->
  names (tbl db') = names (tbl db) -> channel_id_cache db' = channel_id_cache db ->
  (forall cid c, chan_cache db' !! cid = Some c -> entry_ok (keys_of cid (tbl db')) c) -> db_ok db'.
Proof.
  intros [H1 H2 H3 H4 H5 H6 H7] Hnd Hpos Hn Hi Hc. constructor; rewrite ?Hn, ?Hi; done.
Qed.

Lemma where_other cid cid' (p : message -> bool) l :
  cid' <> cid ->
  where_ (of_channel cid') (where_ (fun m => negb (of_channel cid m && p m)) l) = where_ (of_channel cid') l.
Proof.
  intros Hne. rewrite where_where. unfold where_. apply filter_ext. intros m. unfold of_channel.
  destruct (Z.eqb_spec (msg_channel m) cid), (Z.eqb_spec (msg_channel m) cid'); subst; by destruct (p m).
Qed.

Lemma where_unchanged {A} (p : A -> bool) l :
  ~ 0 < sql_count (where_ p l) -> where_ (fun m => negb (p m)) l = l.
Proof.
  intros Hc. apply where_all. intros x Hx. destruct (p x) eqn:Hp; [|done]. destruct Hc.
  assert (Hin : x ∈ where_ p l) by by apply elem_of_where.
  unfold sql_count. destruct (where_ p l); [by apply not_elem_of_nil in Hin|simpl; lia].
Qed.

Lemma Forall_where {A} (P : A -> Prop) p l : Forall P l -> Forall P (where_ p l).
Proof. rewrite !Forall_forall. intros HP x [_ Hx]%elem_of_where. by apply HP. Qed.
End handle.

(** ** Calls *)

Inductive call :=
| CSave (channel : cstr) (timestamp : Z) (mid : option cstr) (text : cstr) (user : bool)
| CPurge (channel : cstr)
| CDelete (rowid : Z)
| CUpdatePending (channel pending real : cstr)
| CRedact (channel mid : cstr) (by_ reason : option cstr) (time : Z)
| CClear (channel : cstr)
| CLoad (channel : cstr) (limit : Z)
| CCount (channel : cstr)
| CRange (channel : cstr) (offset limit : Z)
| CIndex (channel : cstr) (rowid : Z)
| CSchedule (channel : cstr)
| CReady (channel : cstr)
| CBackfill.

Section calls.
Context `{SqliteLaws}.

Definition exec (db : scrollback_db) (c : call) : option scrollback_db :=
  match c with
  | CSave ch ts mid text user => Some (scrollback_db_save db ch ts mid text user).1
  | CPurge ch => Some (scrollback_purge_pending db ch)
  | CDelete i => Some (scrollback_delete_by_rowid db i).1
  | CUpdatePending ch p r => Some (scrollback_update_pending_msgid db ch p r).1
  | CRedact ch mid b r time => Some (scrollback_redact_message db ch mid b r time).1
  | CClear ch => Some (scrollback_clear db ch)
  | CLoad ch lim => Some (scrollback_db_load db ch lim).1
  | CCount ch => Some (scrollback_count db ch).1
  | CRange ch off lim => fst <$> scrollback_load_range false db ch off lim
  | CIndex ch i => Some (scrollback_get_index_of_rowid false db ch i).1
  | CSchedule ch => Some (scrollback_fts_schedule db ch)
  | CReady ch => Some (scrollback_fts_ready db ch).1
  | CBackfill => Some (fts_backfill_idle db).1
  end.

(** Ranges whose end is an int, and the index of a row of another channel is
    not asked for. *)
Definition admissible (db : scrollback_db) (c : call) : Prop :=
  match c with
  | CRange _ off lim => Z.max 0 off + (if lim <=? 0 then 500 else lim) <= INT_MAX
  | CIndex ch i => forall m, m ∈ messages (tbl db) -> msg_id m = i -> (ch, msg_channel m) ∈ names (tbl db)
  | _ => True
  end.

Lemma get_channel_id_empty db : scrollback_get_channel_id db [] = (db, -1).
Proof. done. Qed.

(** A channel name in hand: the empty name, or an id from the table. *)
Ltac with_channel db ch :=
  destruct (decide (ch = [])) as [->|Hch];
  [rewrite get_channel_id_empty; simpl
  |destruct (get_channel_id_spec db ch) as (db1 & cid & -> & Hok1 & Hname & Hmsgs & Hcache & Hkeep & Hfts & Hrun & Hidx);
     [done..|];
   assert (Hcid : 0 < cid) by (pose proof (ok_chan_range _ Hok1) as Hr; rewrite Forall_forall in Hr;
     apply (list_elem_of_fmap_2 snd) in Hname; specialize (Hr _ Hname); simpl in Hr; lia);
   rewrite ?(proj2 (Z.ltb_ge cid 0)), ?(proj2 (Z.leb_gt cid 0)), ?(proj2 (Z.ltb_lt 0 cid)) by lia].

Lemma fts_index_row_same rowid cid text db : same_rows db (fts_index_row rowid cid text db).
Proof.
  unfold fts_index_row, stmt_fts_insert. destruct (negb (fts db)); [done|].
  constructor; simpl; try done; by case_match.
Qed.

Lemma fts_state_get_same db cid : same_rows db (fts_state_get db cid).1.
Proof.
  unfold fts_state_get. destruct (negb (fts db)); [done|]. by destruct (fts_states (run db) !! cid).
Qed.

Lemma same_rows_trans db1 db2 db3 : same_rows db1 db2 -> same_rows db2 db3 -> same_rows db1 db3.
Proof. intros [] []. constructor; congruence. Qed.

Lemma new_key_above db cid c ts :
  db_ok db -> id_room db -> chan_cache db !! cid = Some c -> 0 <= count c ->
  count c = 0 \/ max_ts c <= ts ->
  forall x, x ∈ rows_of cid (tbl db) -> msg_ts x < ts \/
    msg_ts x = ts /\ msg_id x < new_rowid (map msg_id (messages (tbl db))).
Proof.
  intros Hok Hroom Hc Hpos Hor x Hx. pose proof (ok_cache _ Hok _ _ Hc) as He.
  destruct (entry_below _ _ (key x) He Hpos) as [Hcount Hts].
  { unfold keys_of. by apply list_elem_of_fmap_2. }
  simpl in Hts. assert (Hid : msg_id x < new_rowid (map msg_id (messages (tbl db)))); [|lia].
  rewrite new_rowid_next.
  - apply elem_of_rows in Hx as [Hx _]. apply (list_elem_of_fmap_2 msg_id) in Hx.
    pose proof (foldr_max_bound _ _ Hx) as Hb. change (msg_id <$> messages (tbl db)) with (map msg_id (messages (tbl db))) in Hb. lia.
  - apply Forall_fmap. pose proof (ok_ids_pos _ Hok) as H1. pose proof Hroom as H2; unfold id_room in H2.
    rewrite Forall_forall in *. intros y Hy. specialize (H1 y Hy). specialize (H2 y Hy). simpl. lia.
Qed.

Lemma new_rowid_fresh db :
  db_ok db -> id_room db ->
  0 < new_rowid (map msg_id (messages (tbl db))) /\
  new_rowid (map msg_id (messages (tbl db))) ∉ map msg_id (messages (tbl db)).
Proof.
  intros Hok Hroom. rewrite new_rowid_next.
  - split; [pose proof (foldr_max_nonneg (map msg_id (messages (tbl db)))); lia|].
    intros Hin%foldr_max_bound. lia.
  - apply Forall_fmap. pose proof (ok_ids_pos _ Hok) as H1. pose proof Hroom as H2; unfold id_room in H2.
    rewrite Forall_forall in *. intros y Hy. specialize (H1 y Hy). specialize (H2 y Hy). simpl. lia.
Qed.

Lemma insert_message_ok db cid m :
  db_ok db -> id_room db -> msg_channel m = cid -> msg_id m = new_rowid (map msg_id (messages (tbl db))) ->
  db_ok (chan_cache_note_insert cid (msg_ts m) (set_tbl (set_messages (fun l => l ++ [m])) db)).
Proof.
  intros Hok Hroom Hchan Hid. destruct (new_rowid_fresh db Hok Hroom) as [Hpos Hfresh]. rewrite <- Hid in *.
  set (db' := set_tbl _ db). destruct (note_insert_tbl cid (msg_ts m) db') as (Ht & Hi & _ & _).
  assert (Hnd : ids_distinct (messages (tbl db'))).
  { unfold ids_distinct. simpl. rewrite map_app. apply NoDup_app. split; [apply Hok|].
    split; [|apply NoDup_singleton]. by intros i Hin ->%list_elem_of_singleton. }
  apply (db_ok_messages db); rewrite ?Ht, ?Hi; [done|done| |done|done|].
  { simpl. apply Forall_app. split; [apply Hok|]. by constructor. }
  intros cid' c. unfold chan_cache_note_insert, chan_cache_get. simpl chan_cache.
  assert (Hother : cid' <> cid -> keys_of cid' (tbl db') = keys_of cid' (tbl db)).
  { intros Hne. apply rows_other. simpl. rewrite where_app. unfold where_ at 2, of_channel. simpl.
    rewrite (proj2 (Z.eqb_neq (msg_channel m) cid')) by congruence. by rewrite app_nil_r. }
  assert (Hold : chan_cache db !! cid' = Some c -> cid' <> cid -> entry_ok (keys_of cid' (tbl db')) c).
  { intros Hc Hne. rewrite Hother by done. by apply Hok. }
  destruct (chan_cache db !! cid) as [c0|] eqn:Hc0.
  2: { intros Hc. simpl in Hc. apply Hold; [done|]. intros ->. congruence. }
  destruct (Z.ltb_spec (count c0) 0) as [Hneg|Hge].
  { intros Hc. destruct (decide (cid' = cid)) as [->|Hne]; [|by apply Hold]. simpl in Hc.
    rewrite Hc0 in Hc. injection Hc as <-. destruct (ok_cache _ Hok _ _ Hc0) as [[? ?]|[? _]]; [by left|lia]. }
  case_match eqn:Hor.
  - cbn [chan_cache set_chan_cache]. intros [[<- <-]|[Hne Hc]]%lookup_insert_Some; [|by apply Hold].
    assert (Hor' : count c0 = 0 \/ max_ts c0 <= msg_ts m) by lia.
    rewrite (rows_insert cid (tbl db) (tbl db') m); [|done..|].
    + by apply entry_append; [apply Hok|..].
    + intros x Hx. pose proof (new_key_above db cid c0 (msg_ts m) Hok Hroom Hc0 Hge Hor' x Hx) as Hk.
      unfold key_le. lia.
  - intros [-> |[Hne Hc]]%lookup_invalidate; [apply entry_unknown|by apply Hold].
Qed.


Lemma save_ok db ch ts mid text user : db_ok db -> roomy db -> db_ok (scrollback_db_save db ch ts mid text user).1.
Proof.
  intros Hok Hroom. unfold scrollback_db_save. with_channel db ch; [done|].
  set (mid' := match mid with Some [] => None | _ => mid end). unfold stmt_insert.
  destruct (match mid' with Some _ => _ | None => _ end); [done|]. cbv zeta.
  set (rowid := new_rowid (map msg_id (messages (tbl db1)))).
  set (m := Message rowid cid ts mid' text None None 0 user).
  assert (Hins := insert_message_ok db1 cid m Hok1 ltac:(unfold id_room; rewrite Hmsgs; apply Hroom) eq_refl eq_refl).
  change (set_tbl (fun _ => set_messages (fun l => l ++ [m]) (tbl db1)) db1)
    with (set_tbl (set_messages (fun l => l ++ [m])) db1).
  change (msg_ts m) with ts in Hins. set (db2 := chan_cache_note_insert _ _ _) in *.
  case_match; [done|]. pose proof (fts_state_get_same db2 cid) as Hsame.
  destruct (fts_state_get db2 cid) as [db3 st]. simpl in Hsame. case_match; simpl.
  - eapply db_ok_same; [|done]. eapply same_rows_trans; [done|apply fts_index_row_same].
  - by eapply db_ok_same.
Qed.

(** Removing rows of one channel, or all of whose removal is noticed. *)
Lemma remove_rows_ok db db' p :
  db_ok db -> messages (tbl db') = where_ p (messages (tbl db)) -> names (tbl db') = names (tbl db) ->
  channel_id_cache db' = channel_id_cache db ->
  (forall cid c, chan_cache db' !! cid = Some c -> entry_ok (keys_of cid (tbl db')) c) -> db_ok db'.
Proof.
  intros Hok Hm Hn Hi Hc. apply (db_ok_messages db); try done; rewrite Hm.
  - apply ids_distinct_where, Hok.
  - apply Forall_where, Hok.
Qed.

Lemma purge_at db ch db1 cid :
  scrollback_get_channel_id db ch = (db1, cid) -> db_ok db1 -> db_ok (scrollback_purge_pending db ch).
Proof.
  intros Hget Hok1. unfold scrollback_purge_pending. rewrite Hget. case_match; [done|]. cbv zeta.
  set (doomed := fun m => of_channel cid m && is_pending m).
  set (db2 := if fts db1 then _ else db1).
  assert (Hsame : same_rows db1 db2) by (unfold db2; by case_match).
  pose proof (db_ok_same _ _ Hsame Hok1) as Hok2. clearbody db2.
  set (db3 := set_tbl (set_messages _) db2).
  case_match eqn:Hchg.
  - destruct (invalidate_tbl cid db3) as (Ht & Hi & _ & _).
    apply (remove_rows_ok db2 _ (fun m => negb (doomed m))); [done|by rewrite Ht..|by rewrite Hi|].
    intros cid' c [-> |[Hne Hc]]%lookup_invalidate; [apply entry_unknown|]. rewrite Ht.
    rewrite (rows_other cid' (tbl db2)); [by apply Hok2|]. simpl. by apply where_other.
  - apply (db_ok_same db2); [|done]. constructor; try done. simpl. apply where_unchanged.
    by apply Z.ltb_nlt in Hchg.
Qed.

Lemma purge_ok db ch : db_ok db -> roomy db -> db_ok (scrollback_purge_pending db ch).
Proof.
  intros Hok Hroom. destruct (decide (ch = [])) as [->|Hch]; [by apply (purge_at db [] db (-1))|].
  destruct (get_channel_id_spec db ch) as (db1 & cid & Hget & Hok1 & _); [done..|]. by eapply purge_at.
Qed.

Lemma get_again db n db1 cid :
  scrollback_get_channel_id db n = (db1, cid) -> 0 < cid -> db_ok db1 -> (n, cid) ∈ names (tbl db1) ->
  scrollback_get_channel_id db1 n = (db1, cid).
Proof.
  intros Hget Hcid Hok Hin. unfold scrollback_get_channel_id in *. destruct n as [|x n]; [simplify_eq; lia|].
  destruct (channel_id_cache db !! (x :: n)) eqn:Hc; [simplify_eq; by rewrite Hc|].
  destruct (stmt_channel_lookup (x :: n) _) as [i|]; simplify_eq; [|lia].
  pose proof (ok_cached_ids _ Hok (x :: n) (wrap_i32 cid)) as Hw. simpl in Hw.
  rewrite lookup_insert_eq in Hw.
  pose proof (lookup_names _ _ _ (ok_names _ Hok) (Hw eq_refl)) as H1.
  pose proof (lookup_names _ _ _ (ok_names _ Hok) Hin) as H2. simpl in *. rewrite lookup_insert_eq.
  congruence.
Qed.

Lemma load_ok db ch lim : db_ok db -> roomy db -> db_ok (scrollback_db_load db ch lim).1.
Proof.
  intros Hok Hroom. unfold scrollback_db_load. destruct (decide (ch = [])) as [->|Hch]; [done|].
  destruct (get_channel_id_spec db ch) as (db1 & cid & Hget & Hok1 & Hname & _); [done..|]. rewrite Hget.
  case_match; [done|]. simpl. eapply purge_at; [|exact Hok1]. apply (get_again db); [done| |done|done].
  pose proof (ok_chan_range _ Hok1) as Hr. rewrite Forall_forall in Hr.
  apply (list_elem_of_fmap_2 snd) in Hname. specialize (Hr _ Hname). simpl in Hr. lia.
Qed.

Lemma delete_ok db i : db_ok db -> db_ok (scrollback_delete_by_rowid db i).1.
Proof.
  intros Hok. unfold scrollback_delete_by_rowid. case_match; [done|]. case_match eqn:Hch; simpl.
  - apply (remove_rows_ok db _ (fun m => negb (msg_id m =? i))); [done|..];
      unfold fts_unindex_row, chan_cache_invalidate_all; case_match; try done;
      simpl; intros cid c; by rewrite lookup_empty.
  - apply (db_ok_same db); [|done]. constructor; try done. simpl. apply where_unchanged. by apply Z.ltb_nlt in Hch.
Qed.

Lemma update_rows_ok db f :
  db_ok db -> (forall m, key (f m) = key m) -> (forall m, msg_channel (f m) = msg_channel m) ->
  db_ok (set_tbl (set_messages (map f)) db).
Proof.
  intros Hok Hk Hc. assert (Hid : forall m, msg_id (f m) = msg_id m).
  { intros m. specialize (Hk m). unfold key in Hk. congruence. }
  apply (db_ok_messages db); try done; simpl.
  - unfold ids_distinct. rewrite map_map. erewrite map_ext; [apply Hok|done].
  - apply Forall_fmap. eapply Forall_impl; [apply Hok|]. intros m Hm. simpl. by rewrite Hid.
  - intros cid c Hcid. rewrite (rows_map f cid (tbl db)); [by apply Hok|done|done|apply Hok|done].
Qed.

Lemma update_pending_ok db ch p r : db_ok db -> roomy db -> db_ok (scrollback_update_pending_msgid db ch p r).1.
Proof.
  intros Hok Hroom. unfold scrollback_update_pending_msgid. with_channel db ch; [done|].
  unfold stmt_update_pending. case_match eqn:Hu; [|done]. destruct p0 as [t n]. simpl.
  case_match; simplify_eq. apply (update_rows_ok db1); [done|..]; intros m; by case_match.
Qed.

Lemma redact_ok db ch mid b r time : db_ok db -> roomy db -> db_ok (scrollback_redact_message db ch mid b r time).1.
Proof.
  intros Hok Hroom. unfold scrollback_redact_message. with_channel db ch; [done|]. simpl.
  apply update_rows_ok; [done|..]; intros m; by case_match.
Qed.

Lemma clear_ok db ch : db_ok db -> roomy db -> db_ok (scrollback_clear db ch).
Proof.
  intros Hok Hroom. unfold scrollback_clear. with_channel db ch; [done|]. cbv zeta.
  set (db2 := set_tbl (fun t => set_replies _ t) db1). set (db3 := set_tbl (fun t => set_reactions _ t) db2).
  assert (Hok3 : db_ok db3) by (by apply (db_ok_same db1)). clearbody db3. clear db2.
  destruct (invalidate_tbl cid db3) as (Ht & Hi & _ & _).
  set (db4 := if fts (chan_cache_invalidate cid db3) then _ else _).
  assert (H4 : messages (tbl db4) = messages (tbl db3) /\ names (tbl db4) = names (tbl db3) /\
    channel_id_cache db4 = channel_id_cache db3 /\ chan_cache db4 = chan_cache (chan_cache_invalidate cid db3)).
  { unfold db4. case_match; simpl; by rewrite Ht. }
  destruct H4 as (Hm & Hn & Hi4 & Hc4). clearbody db4.
  apply (remove_rows_ok db3 _ (fun m => negb (of_channel cid m))); [done|simpl; by rewrite Hm|done|done|].
  intros cid' c. simpl chan_cache. rewrite Hc4. intros [-> |[Hne Hc]]%lookup_invalidate; [apply entry_unknown|].
  rewrite (rows_other cid' (tbl db3)); [by apply Hok3|]. simpl. rewrite Hm.
  rewrite where_where. unfold where_. apply filter_ext. intros m. unfold of_channel.
  by destruct (Z.eqb_spec (msg_channel m) cid), (Z.eqb_spec (msg_channel m) cid'); subst.
Qed.

(** Filling an entry. *)
Lemma set_entry_ok db cid c :
  db_ok db -> entry_ok (keys_of cid (tbl db)) c -> db_ok (set_chan_cache <[cid := c]> db).
Proof.
  intros Hok Hc. destruct Hok. constructor; try done. simpl.
  intros cid' c' [[<- <-]|[_ ?]]%lookup_insert_Some; [done|by eauto].
Qed.

Lemma sql_max_bound l x : x ∈ l -> x <= default 0 (sql_max l).
Proof.
  destruct l as [|y l]; [by intros ?%not_elem_of_nil|]. simpl. intros Hx.
  assert (H1 : forall l b, b <= foldr Z.max b l) by (induction l0; simpl; intros; [lia|specialize (IHl0 b); lia]).
  apply elem_of_cons in Hx as [-> |Hx]; [apply H1|]. revert Hx.
  induction l as [|z l IH]; [by intros ?%not_elem_of_nil|]. intros [-> |Hx]%elem_of_cons; simpl; [lia|].
  specialize (IH Hx). lia.
Qed.

Lemma ensure_count_spec db cid :
  db_ok db -> Z.of_nat (length (messages (tbl db))) < INT_MAX ->
  exists db' c, chan_cache_ensure_count db cid = (db', c) /\ db_ok db' /\ tbl db' = tbl db /\
    entry_ok (keys_of cid (tbl db)) c /\ count c = Z.of_nat (length (rows_of cid (tbl db))).
Proof.
  intros Hok Hroom. unfold chan_cache_ensure_count, chan_cache_get.
  assert (He : entry_ok (keys_of cid (tbl db)) (default (ChanCache (-1) 0 []) (chan_cache db !! cid))).
  { destruct (chan_cache db !! cid) eqn:Hc; [by apply Hok|apply entry_unknown]. }
  destruct He as [[Hcount Hanch]|He].
  - rewrite Hcount. change (0 <=? -1) with false. cbv iota. unfold stmt_count. rewrite Hanch.
    set (rows := where_ (of_channel cid) (messages (tbl db))).
    assert (Hlen : length rows = length (rows_of cid (tbl db))) by (by rewrite rows_of_perm).
    assert (Hle : (length rows <= length (messages (tbl db)))%nat) by apply filter_length_le.
    assert (Hw : wrap_i32 (sql_count rows) = Z.of_nat (length (rows_of cid (tbl db)))).
    { unfold wrap_i32, sql_count, INT_MAX in *. rewrite Z.mod_small by lia. lia. }
    rewrite Hw. eexists _, _. split; [done|].
    assert (He : entry_ok (keys_of cid (tbl db))
      (ChanCache (Z.of_nat (length (rows_of cid (tbl db)))) (default 0 (sql_max (map msg_ts rows))) [])).
    { right. simpl. split; [by rewrite length_keys|]. split; [|by repeat constructor; simpl; lia].
      apply Forall_forall. intros k Hk. unfold keys_of in Hk. apply list_elem_of_fmap in Hk as (m & -> & Hm).
      simpl. apply sql_max_bound. apply list_elem_of_fmap_2. by rewrite rows_of_perm in Hm. }
    split; [by apply set_entry_ok|]. done.
  - destruct He as (Hc & Hts & Ha). rewrite (proj2 (Z.leb_le 0 _)) by lia. eexists _, _. split; [done|].
    split; [done|]. split; [done|]. split; [by right|]. by rewrite length_keys in Hc.
Qed.

Lemma load_range_spec db ch off lim :
  db_ok db -> roomy db -> admissible db (CRange ch off lim) -> ch <> [] ->
  exists db' cid, (ch, cid) ∈ names (tbl db') /\ db_ok db' /\
    (forall p, p ∈ names (tbl db) -> p ∈ names (tbl db')) /\
    scrollback_load_range false db ch off lim =
      Some (db', limit_offset (if lim <=? 0 then 500 else lim) (Z.max 0 off) (rows_of cid (tbl db))).
Proof.
  intros Hok Hroom Hadm Hne. unfold scrollback_load_range. with_channel db ch; [done|].
  destruct (ensure_count_spec db1 cid Hok1) as (db2 & c & -> & Hok2 & Ht2 & He & Hc).
  { rewrite Hmsgs. apply Hroom. }
  assert (Hrows : rows_of cid (tbl db1) = rows_of cid (tbl db)) by (unfold rows_of; by rewrite Hmsgs).
  rewrite Hrows in Hc. replace (if off <? 0 then 0 else off) with (Z.max 0 off) by (case_match; lia).
  simpl in Hadm. set (lim' := if lim <=? 0 then 500 else lim) in *. set (off' := Z.max 0 off) in *.
  assert (Hlim : 0 < lim') by (unfold lim'; case_match; lia).
  rewrite (proj2 (Z.ltb_ge INT_MAX _)) by lia. set (rows := rows_of cid (tbl db)) in *.
  case_match eqn:Hout.
  { exists db2, cid. split; [by rewrite Ht2|]. split; [done|]. split; [by rewrite Ht2|]. unfold limit_offset.
    fold rows. by rewrite drop_ge, take_nil by lia. }
  set (end_ := if count c - 1 <? off' + lim' - 1 then count c - 1 else off' + lim' - 1).
  assert (Hend : end_ = Z.min (count c - 1) (off' + lim' - 1)) by (unfold end_; case_match; lia).
  assert (Hoff : 0 <= off') by (unfold off'; lia).
  rewrite Ht2. destruct (range_rows_spec (tbl db1) (ok_ids _ Hok1) cid c off' end_) as [backward ->];
    [done|lia|lia|lia|]. cbn [mbind option_bind]. rewrite Hrows. fold rows.
  assert (Hclip : limit_offset (end_ - off' + 1) off' rows = limit_offset lim' off' rows).
  { unfold limit_offset. destruct (Z.le_ge_cases (off' + lim') (count c)).
    - f_equal. lia.
    - rewrite !take_ge; [done|rewrite length_drop; lia..]. }
  assert (Hlen : sql_count (limit_offset (end_ - off' + 1) off' rows) = end_ - off' + 1).
  { unfold sql_count. apply length_limit_offset; lia. }
  rewrite Hlen. replace (if backward then _ else off') with off' by (case_match; lia).
  exists (set_chan_cache <[cid := remember_edges (limit_offset (end_ - off' + 1) off' rows) off' c]> db2), cid.
  split; [simpl; by rewrite Ht2|]. split; [|split; [simpl; by rewrite Ht2|by rewrite Hclip]].
  apply set_entry_ok; [done|]. rewrite Ht2. rewrite <- Hrows.
  apply remember_edges_ok; [done|lia..].
Qed.

Lemma index_spec dis db ch k m cid :
  db_ok db -> roomy db -> (ch, cid) ∈ names (tbl db) -> ch <> [] -> rows_of cid (tbl db) !! k = Some m ->
  exists db', scrollback_get_index_of_rowid dis db ch (msg_id m) = (db', Z.of_nat k) /\ db_ok db'.
Proof.
  intros Hok Hroom Hin Hne Hk. unfold scrollback_get_index_of_rowid.
  destruct (get_channel_id_spec db ch) as (db1 & cid' & -> & Hok1 & Hname & Hmsgs & _ & Hkeep & _); [done..|].
  assert (cid' = cid) as ->.
  { pose proof (lookup_names _ _ _ (ok_names _ Hok1) Hname).
    pose proof (lookup_names _ _ _ (ok_names _ Hok1) (Hkeep _ Hin)). congruence. }
  assert (Hcid : 0 < cid).
  { pose proof (ok_chan_range _ Hok1) as Hr. rewrite Forall_forall in Hr.
    apply (list_elem_of_fmap_2 snd) in Hname. by apply (Hr cid). }
  rewrite (proj2 (Z.ltb_ge cid 0)) by lia.
  destruct (ensure_count_spec db1 cid Hok1) as (db2 & c & -> & Hok2 & Ht2 & He & Hc).
  { rewrite Hmsgs. apply Hroom. }
  assert (Hk1 : rows_of cid (tbl db1) !! k = Some m) by (unfold rows_of; by rewrite Hmsgs).
  rewrite Ht2. destruct (index_plain (tbl db1) (ok_ids _ Hok1) cid k m Hk1) as [-> Hidx].
  case_match eqn:Hcond; [|by exists db2; rewrite Hidx].
  destruct He as [[Hneg _]|(Hcount & Hts & Hanch)]; [lia|].
  destruct (index_from_anchor c cid (msg_ts m) (msg_id m) (tbl db1)) as [[i found]|] eqn:Hfrom;
    [|by exists db2; rewrite Hidx].
  pose proof (index_from_anchor_spec (tbl db1) (ok_ids _ Hok1) cid c k m i found Hanch Hk1 Hfrom) as ->.
  destruct found; [by exists db2|]. eexists. split; [done|].
  apply set_entry_ok; [done|]. rewrite Ht2. destruct c as [n mx anc]. simpl in *.
  destruct (add_anchor_ok _ _ n mx (Z.of_nat k) (msg_ts m) (msg_id m) Hanch) as (anc' & -> & Hanc'); [lia..| |].
  - rewrite Nat2Z.id. by apply row_key_at.
  - by right.
Qed.

Lemma index_ok db ch i :
  db_ok db -> roomy db -> admissible db (CIndex ch i) -> db_ok (scrollback_get_index_of_rowid false db ch i).1.
Proof.
  intros Hok Hroom Hadm. destruct (decide (ch = [])) as [->|Hne]; [done|].
  destruct (find (fun m => msg_id m =? i) (messages (tbl db))) as [m|] eqn:Hfind.
  - apply find_some in Hfind as [Hin Hi%Z.eqb_eq]. apply list_elem_of_In in Hin. subst i.
    specialize (Hadm m Hin eq_refl).
    assert (Hrow : m ∈ rows_of (msg_channel m) (tbl db)) by by apply elem_of_rows.
    apply list_elem_of_lookup in Hrow as [k Hk].
    by destruct (index_spec false db ch k m _ Hok Hroom Hadm Hne Hk) as (db' & -> & ?).
  - unfold scrollback_get_index_of_rowid. with_channel db ch; [done|].
    destruct (ensure_count_spec db1 cid Hok1) as (db2 & c & -> & Hok2 & Ht2 & He & Hc).
    { rewrite Hmsgs. apply Hroom. }
    assert (Hkey : stmt_row_key i (tbl db2) = None).
    { unfold stmt_row_key. by rewrite Ht2, Hmsgs, Hfind. }
    by rewrite Hkey.
Qed.

Lemma backfill_rows_same cid rows db : same_rows db (foldl (backfill_row cid) db rows).
Proof.
  revert db; induction rows as [|m rows IH]; intros db; simpl; [done|].
  eapply same_rows_trans; [|apply IH]. unfold backfill_row. case_match; [done|apply fts_index_row_same].
Qed.

Lemma names_built cid b t :
  names (set_channels (map (fun c => if ch_id c =? cid
    then ChannelRow (ch_id c) (ch_name c) (gap_bootstrap_done c) b else c)) t) = names t.
Proof. unfold names. simpl. rewrite map_map. apply map_ext. intros c. by case_match. Qed.

Lemma backfill_chunk_same db : same_rows db (fts_backfill_chunk db).
Proof.
  unfold fts_backfill_chunk. cbv zeta. eapply same_rows_trans; [apply (backfill_rows_same (fts_cur_channel (run db)))|].
  case_match; simpl; constructor; try done. apply names_built.
Qed.

Lemma backfill_same db : same_rows db (fts_backfill_idle db).1.
Proof.
  unfold fts_backfill_idle. case_match; [|apply backfill_chunk_same]. case_match; [done|].
  eapply same_rows_trans; [|apply backfill_chunk_same]. done.
Qed.

Lemma schedule_ok db ch : db_ok db -> roomy db -> db_ok (scrollback_fts_schedule db ch).
Proof.
  intros Hok Hroom. unfold scrollback_fts_schedule. case_match; [done|]. with_channel db ch; [done|].
  pose proof (fts_state_get_same db1 cid) as Hsame. destruct (fts_state_get db1 cid) as [db2 st].
  pose proof (db_ok_same _ _ Hsame Hok1) as Hok2. case_match; [done|]. by apply (db_ok_same db2).
Qed.

Lemma ready_ok db ch : db_ok db -> roomy db -> db_ok (scrollback_fts_ready db ch).1.
Proof.
  intros Hok Hroom. unfold scrollback_fts_ready. case_match; [done|]. with_channel db ch; [done|].
  pose proof (fts_state_get_same db1 cid) as Hsame. destruct (fts_state_get db1 cid) as [db2 st].
  by apply (db_ok_same db1).
Qed.

Lemma count_ok db ch : db_ok db -> roomy db -> db_ok (scrollback_count db ch).1.
Proof.
  intros Hok Hroom. unfold scrollback_count. with_channel db ch; [done|].
  destruct (ensure_count_spec db1 cid Hok1) as (db2 & c & -> & Hok2 & _); [|done].
  rewrite Hmsgs. apply Hroom.
Qed.

Lemma exec_ok db c :
  db_ok db -> roomy db -> admissible db c -> exists db', exec db c = Some db' /\ db_ok db'.
Proof.
  intros Hok Hroom Hadm. destruct c; cbn [exec]; try (eexists; split; [done|]).
  - by apply save_ok.
  - by apply purge_ok.
  - by apply delete_ok.
  - by apply update_pending_ok.
  - by apply redact_ok.
  - by apply clear_ok.
  - by apply load_ok.
  - by apply count_ok.
  - destruct (decide (channel = [])) as [->|Hne].
    + by exists db.
    + destruct (load_range_spec db channel offset limit) as (db' & cid & _ & Hok' & _ & ->); [done..|]. by exists db'.
  - by apply index_ok.
  - by apply schedule_ok.
  - by apply ready_ok.
  - eapply db_ok_same; [apply backfill_same|done].
Qed.

(** A database that has just been opened: nothing cached, ids as SQLite hands
    them out. *)
Record opened (db : scrollback_db) : Prop := {
  opened_ids : ids_distinct (messages (tbl db));
  opened_ids_pos : Forall (fun m => 0 < msg_id m) (messages (tbl db));
  opened_names : NoDup (names (tbl db)).*1;
  opened_chan_ids : NoDup (names (tbl db)).*2;
  opened_chan_range : Forall (fun i => 0 < i <= INT_MAX) (names (tbl db)).*2;
  opened_id_cache : channel_id_cache db = ∅;
  opened_cache : chan_cache db = ∅ }.

Inductive reachable : scrollback_db -> Prop :=
| reachable_opened db : opened db -> reachable db
| reachable_call db c db' :
    reachable db -> roomy db -> admissible db c -> exec db c = Some db' -> reachable db'.

Lemma reachable_ok db : reachable db -> db_ok db.
Proof.
  induction 1 as [db [H1 H2 H3 H4 H5 H6 H7]|db c db' _ IH Hroom Hadm Hexec].
  - constructor; try done; rewrite ?H6, ?H7; [intros n i|intros cid c]; by rewrite lookup_empty.
  - destruct (exec_ok db c IH Hroom Hadm) as (db'' & Heq & ?). congruence.
Qed.

(** C2. The paging cache is invisible: with the anchors enabled, after any history
    of saves, deletions, redactions, loads and background indexing, the number of
    rows, a range of rows and the position of a row of a channel are what sorting
    the channel's messages by (timestamp, id) gives, although ranges are walked
    from whichever cached anchor is cheapest; and every further call succeeds and
    keeps the cache truthful, unless it asks for a range whose end is no int or
    for the index of a row of another channel ([foreign_index_poisons]). *)
Theorem paging_cache_transparent db ch cid :
  reachable db -> roomy db -> ch <> [] -> (ch, cid) ∈ names (tbl db) ->
  (forall c, admissible db c -> exists db', exec db c = Some db' /\ reachable db') /\
  (scrollback_count db ch).2 = Z.of_nat (length (rows_of cid (tbl db))) /\
  (forall off lim, Z.max 0 off + (if lim <=? 0 then 500 else lim) <= INT_MAX ->
     snd <$> scrollback_load_range false db ch off lim =
       Some (limit_offset (if lim <=? 0 then 500 else lim) (Z.max 0 off) (rows_of cid (tbl db)))) /\
  (forall disabled k m, rows_of cid (tbl db) !! k = Some m ->
     (scrollback_get_index_of_rowid disabled db ch (msg_id m)).2 = Z.of_nat k).
Proof.
  intros Hr Hroom Hne Hin. pose proof (reachable_ok _ Hr) as Hok. split_and!.
  - intros c Hadm. destruct (exec_ok db c Hok Hroom Hadm) as (db' & Hexec & _).
    exists db'. split; [done|]. by eapply reachable_call.
  - unfold scrollback_count. destruct (get_channel_id_spec db ch)
      as (db1 & cid' & -> & Hok1 & Hname & Hmsgs & _ & Hkeep & _); [done..|].
    assert (cid' = cid) as ->.
    { pose proof (lookup_names _ _ _ (ok_names _ Hok1) Hname).
      pose proof (lookup_names _ _ _ (ok_names _ Hok1) (Hkeep _ Hin)). congruence. }
    pose proof (ok_chan_range _ Hok1) as Hrange. rewrite Forall_forall in Hrange.
    apply (list_elem_of_fmap_2 snd) in Hname. specialize (Hrange _ Hname). simpl in Hrange.
    rewrite (proj2 (Z.ltb_ge cid 0)) by lia.
    destruct (ensure_count_spec db1 cid Hok1) as (db2 & c & -> & _ & _ & _ & Hc); [rewrite Hmsgs; apply Hroom|].
    simpl. rewrite Hc. unfold rows_of. by rewrite Hmsgs.
  - intros off lim Hle. destruct (load_range_spec db ch off lim) as (db' & cid' & Hin' & Hok' & Hkeep & ->); [done..|].
    pose proof (lookup_names _ _ _ (ok_names _ Hok') Hin').
    pose proof (lookup_names _ _ _ (ok_names _ Hok') (Hkeep _ Hin)). by replace cid' with cid by congruence.
  - intros disabled k m Hk. by destruct (index_spec disabled db ch k m cid) as (db' & -> & _).
Qed.
End calls.

Lemma roomy_iff db :
  (Z.of_nat (length (messages (tbl db))) < INT_MAX /\ id_room db /\
    Forall (fun i => i < INT_MAX) (names (tbl db)).*2) <-> roomy db.
Proof. split; [intros (? & ? & ?); by constructor|intros []; tauto]. Qed.

#[export] Instance roomy_dec db : Decision (roomy db).
Proof.
  refine (match decide (Z.of_nat (length (messages (tbl db))) < INT_MAX /\ id_room db /\
    Forall (fun i => i < INT_MAX) (names (tbl db)).*2) with
  | left H => left (proj1 (roomy_iff db) H)
  | right H => right (fun Hr => H (proj2 (roomy_iff db) Hr))
  end).
Defined.

(** ** A concrete history *)

Definition fresh_db : scrollback_db :=
  Db (Tables [] [] [] [] [] []) ∅ ∅ true (FtsRun ∅ [] false 0 0 0) 0.

(** Two channels, a backdated message, and a range that leaves anchors. *)
Definition history : list call :=
  [CSave "#a" 10 (Some (list_ascii_of_string "m1")) "one" true;
   CSave "#b" 20 None "two" true; CSave "#a" 30 None "three" true; CCount "#a";
   CSave "#a" 20 (Some (list_ascii_of_string "m4")) "four" true; CRange "#a" 1 2].

Definition step (db : scrollback_db) (c : call) : scrollback_db := default db (exec db c).
Definition exec_all (db : scrollback_db) (cs : list call) : scrollback_db := foldl step db cs.

Fixpoint all_ok (db : scrollback_db) (cs : list call) : Prop :=
  match cs with
  | [] => True
  | c :: cs => roomy db /\ admissible db c /\ is_Some (exec db c) /\ all_ok (step db c) cs
  end.

Ltac check_history :=
  cbn [all_ok]; split_and!; first [by apply (bool_decide_unpack _); vm_compute|done].

Lemma reachable_all db cs : reachable db -> all_ok db cs -> reachable (exec_all db cs).
Proof.
  revert db; induction cs as [|c cs IH]; intros db Hr; [done|]. intros (Hroom & Hadm & [db' Hexec] & Hok).
  apply IH; [|done]. unfold step. rewrite Hexec. by eapply reachable_call.
Qed.

Lemma fresh_opened : opened fresh_db.
Proof. by constructor; constructor. Qed.

Lemma paging_cache_transparent_witness :
  let db := exec_all fresh_db history in
  reachable db /\ roomy db /\ (list_ascii_of_string "#a", 1) ∈ names (tbl db) /\
  snd <$> scrollback_load_range false db "#a" 1 2 = Some (drop 1 (rows_of 1 (tbl db))) /\
  map msg_ts (rows_of 1 (tbl db)) = [10; 20; 30].
Proof.
  set (db := exec_all fresh_db history). assert (Hr : reachable db).
  { apply reachable_all; [apply reachable_opened, fresh_opened|]. unfold history. check_history. }
  assert (Hroom : roomy db) by (by apply (bool_decide_unpack _); vm_compute).
  assert (Hin : (list_ascii_of_string "#a", 1) ∈ names (tbl db)).
  { by apply (bool_decide_unpack _); vm_compute. }
  split; [done|]. split; [done|]. split; [done|].
  destruct (paging_cache_transparent db "#a" 1 Hr Hroom ltac:(done) Hin) as (_ & _ & Hrange & _).
  split; [|by vm_compute]. rewrite Hrange by done. by vm_compute.
Defined.

(** ** What the code does not guard against *)

(** With POXCHAT_NO_ANCHORS set, [before] and [after] are read without having
    been assigned: no non-empty range can be loaded. *)
Theorem load_range_disabled_undefined db ch off lim :
  let '(db1, cid) := scrollback_get_channel_id db ch in
  let '(_, c) := chan_cache_ensure_count db1 cid in
  0 <= cid -> 0 <= off < count c -> 0 < lim -> scrollback_load_range true db ch off lim = None.
Proof.
  unfold scrollback_load_range. destruct (scrollback_get_channel_id db ch) as [db1 cid].
  destruct (chan_cache_ensure_count db1 cid) as [db2 c]. intros Hcid Hoff Hlim.
  rewrite (proj2 (Z.ltb_ge cid 0)) by lia. cbv zeta. case_match; [done|].
  by rewrite (proj2 (Z.leb_gt (count c) 0)), (proj2 (Z.ltb_ge off 0)), (proj2 (Z.leb_gt (count c) off)) by lia.
Qed.

(** Asking for the index of a row of another channel answers from the nearest
    anchor, remembers the answer as an anchor and so shifts the next ranges. *)
Theorem foreign_index_poisons :
  let db := exec_all fresh_db history in
  let '(db', i) := scrollback_get_index_of_rowid false db "#a" 2 in
  i = 0 /\ map msg_ts (rows_of 1 (tbl db')) = [10; 20; 30] /\
  (map msg_ts ∘ snd) <$> scrollback_load_range false db' "#a" 0 1 = Some [20].
Proof. by vm_compute. Qed.
