(* ===== verification/FtsSpec.v ===== *)
(** * Correctness of the full-text index

    The index of [Scrollback] never points at a message that is gone, a channel
    that is marked as built has every message indexed whatever was saved or
    deleted while it was being built, and the idle backfill finishes. *)
From stdpp Require Import sorting.
From S2P Require Import Prelude Glib Text Scrollback ScrollbackSpec.

Definition indexed (t : tables) (m : message) : Prop := msg_id m ∈ map fts_rowid (messages_fts t).

(** The row was made from a stored message. *)
Definition row_true (ms : list message) (r : fts_row) : Prop :=
  exists m, m ∈ ms /\ fts_rowid r = msg_id m /\ fts_channel r = msg_channel m /\
    fts_text r = strip_color (msg_text m).

Definition all_indexed (t : tables) (cid : Z) : Prop :=
  forall m, m ∈ messages t -> msg_channel m = cid -> indexed t m.

(** The index holds true rows, each once; built channels are complete. *)
Record index_ok (t : tables) : Prop := {
  ix_once : NoDup (map fts_rowid (messages_fts t));
  ix_true : Forall (row_true (messages t)) (messages_fts t);
  ix_built : Forall (fun c => fts_built c = true -> all_indexed t (ch_id c)) (channels t) }.

(** The states, the queue and the channel in progress agree. *)
Record run_ok (t : tables) (r : fts_run) : Prop := {
  run_state c v : fts_states r !! c = Some v -> v = FTS_UNINDEXED \/ v = FTS_BUILDING \/ v = FTS_BUILT;
  run_built c : fts_states r !! c = Some FTS_BUILT -> all_indexed t c;
  run_unindexed c : fts_states r !! c = Some FTS_UNINDEXED ->
    Forall (fun row => ch_id row = c -> fts_built row = false) (channels t);
  run_queue : Forall (fun c => 0 < c /\ fts_states r !! c = Some FTS_BUILDING) (fts_queue r);
  run_queue_once : NoDup (fts_queue r);
  run_current : fts_cur_channel r <> 0 ->
    0 < fts_cur_channel r /\ fts_states r !! fts_cur_channel r = Some FTS_BUILDING /\
    (fts_cur_channel r ∉ fts_queue r) /\
    (forall m, m ∈ messages t -> msg_channel m = fts_cur_channel r ->
       msg_id m <= fts_cur_next r \/ fts_cur_max r < msg_id m -> indexed t m);
  run_building c : fts_states r !! c = Some FTS_BUILDING ->
    0 < c /\ (c ∈ fts_queue r \/ c = fts_cur_channel r);
  run_idle : fts_queue r <> [] \/ fts_cur_channel r <> 0 -> fts_idle r = true }.

Record fts_ok (db : scrollback_db) : Prop := {
  ok_index : index_ok (tbl db);
  ok_run : run_ok (tbl db) (run db) }.

Section index.
Context `{SqliteLaws}.

(** ** Effects on the tables *)

(** Everything a channel had indexed stays indexed. *)
Definition keeps_indexed (t t' : tables) : Prop :=
  forall m', m' ∈ messages t' -> exists m, m ∈ messages t /\ msg_id m = msg_id m' /\
    msg_channel m = msg_channel m' /\ (indexed t m -> indexed t' m').

Lemma all_indexed_keep t t' c : keeps_indexed t t' -> all_indexed t c -> all_indexed t' c.
Proof.
  intros Hk Ha m' Hm' Hc. destruct (Hk m' Hm') as (m & Hm & _ & Hmc & Hi). apply Hi, Ha; [done|congruence].
Qed.

Lemma run_ok_keep t t' r :
  keeps_indexed t t' -> map (fun c => (ch_id c, fts_built c)) (channels t') = map (fun c => (ch_id c, fts_built c)) (channels t) ->
  run_ok t r -> run_ok t' r.
Proof.
  intros Hk Hc [H1 H2 H3 H4 H5 H6 H7 H8]. constructor; try done.
  - intros c Hb. eapply all_indexed_keep; [done|by apply H2].
  - intros c Hu. specialize (H3 c Hu). rewrite Forall_forall in *. intros row Hrow Hid.
    apply (list_elem_of_fmap_2 (fun c => (ch_id c, fts_built c))) in Hrow.
    change (_ <$> channels t') with (map (fun c => (ch_id c, fts_built c)) (channels t')) in Hrow. rewrite Hc in Hrow.
    apply list_elem_of_fmap in Hrow as (row' & [= Hi Hb] & Hrow'). rewrite Hb. apply H3; [done|congruence].
  - intros Hne. destruct (H6 Hne) as (Hp & Hs & Hq & Hm). split_and!; try done.
    intros m' Hm' Hmc Hor. destruct (Hk m' Hm') as (m & Hmm & Hid & Hch & Hi). apply Hi, Hm; [done|congruence|lia].
Qed.

Lemma index_built_keep t t' :
  keeps_indexed t t' -> map (fun c => (ch_id c, fts_built c)) (channels t') = map (fun c => (ch_id c, fts_built c)) (channels t) ->
  Forall (fun c => fts_built c = true -> all_indexed t (ch_id c)) (channels t) ->
  Forall (fun c => fts_built c = true -> all_indexed t' (ch_id c)) (channels t').
Proof.
  intros Hk Hc HF. rewrite Forall_forall in *. intros row Hrow Hb.
  apply (list_elem_of_fmap_2 (fun c => (ch_id c, fts_built c))) in Hrow.
  change (_ <$> channels t') with (map (fun c => (ch_id c, fts_built c)) (channels t')) in Hrow. rewrite Hc in Hrow.
  apply list_elem_of_fmap in Hrow as (row' & [= Hi Hb'] & Hrow'). rewrite Hi.
  apply (all_indexed_keep t); [done|]. apply HF; [done|congruence].
Qed.

(** Rows change, but not their ids, channels and texts. *)
Lemma fts_ok_map db f :
  (forall m, msg_id (f m) = msg_id m) -> (forall m, msg_channel (f m) = msg_channel m) ->
  (forall m, msg_text (f m) = msg_text m) -> fts_ok db -> fts_ok (set_tbl (set_messages (map f)) db).
Proof.
  intros H1 H2 H3 [[Ho Ht Hb] Hr].
  assert (Hk : keeps_indexed (tbl db) (set_messages (map f) (tbl db))).
  { intros m' Hm'. simpl in Hm'. apply list_elem_of_fmap in Hm' as (m & -> & Hm).
    exists m. split_and!; [done|done|done|]. unfold indexed. by rewrite H1. }
  constructor; [constructor; [done| |by apply (index_built_keep (tbl db))]|by apply (run_ok_keep (tbl db))].
  simpl. eapply Forall_impl; [exact Ht|]. intros r (m & Hm & E1 & E2 & E3). exists (f m).
  split; [by apply list_elem_of_fmap_2|]. by rewrite H1, H2, H3.
Qed.

(** Messages are deleted together with their index rows. *)
Lemma fts_ok_delete db db' p q :
  ids_distinct (messages (tbl db)) -> fts_ok db -> messages (tbl db') = where_ p (messages (tbl db)) ->
  messages_fts (tbl db') = where_ q (messages_fts (tbl db)) ->
  channels (tbl db') = channels (tbl db) -> run db' = run db ->
  (forall m r, m ∈ messages (tbl db) -> fts_rowid r = msg_id m -> fts_channel r = msg_channel m -> q r = p m) -> fts_ok db'.
Proof.
  intros Hnd [[Ho Ht Hb] Hr] Hm Hf Hc Hrun Hpq. rewrite Forall_forall in Ht.
  assert (Hk : keeps_indexed (tbl db) (tbl db')).
  { intros m Hm'. rewrite Hm in Hm'. apply elem_of_where in Hm' as [Hp Hin]. exists m. split_and!; try done.
    unfold indexed. rewrite Hf. intros Hi. apply list_elem_of_fmap in Hi as (r & Hid & Hr'). rewrite Hid.
    apply list_elem_of_fmap_2, elem_of_where. split; [|done].
    destruct (Ht r Hr') as (m0 & Hm0 & E1 & E2 & _).
    assert (m0 = m) as -> by (apply (ids_distinct_eq (messages (tbl db))); done || congruence).
    by rewrite (Hpq m r). }
  assert (Hcc : map (fun c => (ch_id c, fts_built c)) (channels (tbl db')) =
    map (fun c => (ch_id c, fts_built c)) (channels (tbl db))) by by rewrite Hc.
  constructor; [constructor|].
  - rewrite Hf. unfold where_. clear -Ho. induction (messages_fts (tbl db)) as [|r l IH]; [done|].
    cbn [map] in Ho. apply NoDup_cons in Ho as [Hr Ho]. simpl. case_match; [|by apply IH]. cbn [map].
    apply NoDup_cons. split; [|by apply IH]. intros Hin. apply Hr. apply list_elem_of_fmap in Hin as (r' & -> & Hr').
    apply list_elem_of_fmap_2. by apply (elem_of_where q) in Hr' as [_ ?].
  - rewrite Hf, Hm. apply Forall_forall. intros r Hr'. apply elem_of_where in Hr' as [Hq Hr'].
    destruct (Ht r Hr') as (m & Hin & E1 & E2 & E3). exists m. split_and!; try done.
    apply elem_of_where. split; [|done]. by rewrite <- (Hpq m r).
  - by apply (index_built_keep (tbl db)).
  - rewrite Hrun. by apply (run_ok_keep (tbl db)).
Qed.

Lemma fts_ok_same db db' :
  messages (tbl db') = messages (tbl db) -> messages_fts (tbl db') = messages_fts (tbl db) ->
  channels (tbl db') = channels (tbl db) -> run db' = run db -> fts_ok db -> fts_ok db'.
Proof.
  intros Hm Hf Hc Hr [[Ho Ht Hb] Hrun].
  assert (Hk : keeps_indexed (tbl db) (tbl db')).
  { intros m Hin. rewrite Hm in Hin. exists m. split_and!; try done. unfold indexed. by rewrite Hf. }
  constructor; [constructor; [by rewrite Hf|by rewrite Hf, Hm|]|].
  - apply (index_built_keep (tbl db)); [done|by rewrite Hc|done].
  - rewrite Hr. apply (run_ok_keep (tbl db)); [done|by rewrite Hc|done].
Qed.

Lemma fts_ok_channel db ch : fts_ok db -> fts_ok (scrollback_get_channel_id db ch).1.
Proof.
  intros Hok. unfold scrollback_get_channel_id. destruct ch as [|x ch]; [done|].
  destruct (channel_id_cache db !! (x :: ch)); [done|].
  set (db1 := set_tbl (stmt_channel_insert (x :: ch)) db). assert (H1 : fts_ok db1).
  { unfold db1, stmt_channel_insert. destruct Hok as [[Ho Ht Hb] [R1 R2 R3 R4 R5 R6 R7 R8]].
    constructor; simpl; (case_match; [by constructor|]); constructor; try done; simpl.
    - apply Forall_app. split; [done|]. by constructor.
    - intros c Hc. apply Forall_app. split; [by apply R3|]. by constructor. }
  case_match; simpl; [|done]. by apply (fts_ok_same db1).
Qed.

Lemma state_get_spec db cid :
  fts db = true -> NoDup (map ch_id (channels (tbl db))) -> fts_ok db ->
  let '(db', st) := fts_state_get db cid in
  fts_ok db' /\ fts_states (run db') !! cid = Some st /\ tbl db' = tbl db /\ fts db' = true.
Proof.
  intros Hf Hnd [Hi Hr]. unfold fts_state_get. rewrite Hf. simpl.
  destruct (fts_states (run db) !! cid) as [v|] eqn:Hs; [by split_and!|].
  set (st := match find _ _ with Some c => _ | None => _ end).
  assert (Hst : st = FTS_BUILT /\ all_indexed (tbl db) cid \/
    st = FTS_UNINDEXED /\ Forall (fun row => ch_id row = cid -> fts_built row = false) (channels (tbl db))).
  { unfold st. pose proof (ix_built _ Hi) as Hb. rewrite !Forall_forall in *.
    destruct (find _ (channels (tbl db))) as [c|] eqn:Hfind.
    - apply find_some in Hfind as [Hin Hid%Z.eqb_eq]. apply list_elem_of_In in Hin.
      destruct (fts_built c) eqn:Hbuilt; [left|right]; split; try done.
      + rewrite <- Hid. by apply Hb.
      + intros row Hrow Hrid. assert (row = c) as ->; [|done].
        clear -Hnd Hin Hrow Hid Hrid. induction (channels (tbl db)) as [|y l IH]; [by apply not_elem_of_nil in Hin|].
        cbn [map] in Hnd. apply NoDup_cons in Hnd as [Hy Hnd].
        apply elem_of_cons in Hin as [-> |Hin], Hrow as [-> |Hrow]; [done|..|by apply IH].
        * destruct Hy. rewrite Hid, <- Hrid. by apply list_elem_of_fmap_2.
        * destruct Hy. rewrite Hrid, <- Hid. by apply list_elem_of_fmap_2.
    - right. split; [done|]. intros row Hrow Hid. apply list_elem_of_In in Hrow.
      pose proof (find_none _ _ Hfind row Hrow). simpl in *. lia. }
  clearbody st. split; [|by simpl; rewrite lookup_insert_eq].
  constructor; [done|]. destruct Hr as [R1 R2 R3 R4 R5 R6 R7 R8]. simpl.
  assert (Hother : forall c v, fts_states (run db) !! c = Some v -> <[cid := st]> (fts_states (run db)) !! c = Some v).
  { intros c v Hc. rewrite lookup_insert_ne; [done|]. intros ->. congruence. }
  constructor; simpl; try done.
  - intros c v [[<- <-]|[_ Hc]]%lookup_insert_Some; [destruct Hst as [[-> _]|[-> _]]; auto|by eapply R1].
  - intros c [[<- E]|[_ Hc]]%lookup_insert_Some; [|by apply R2].
    destruct Hst as [[_ ?]|[-> _]]; [done|discriminate].
  - intros c [[<- E]|[_ Hc]]%lookup_insert_Some; [|by apply R3].
    destruct Hst as [[-> _]|[_ ?]]; [discriminate|done].
  - eapply Forall_impl; [exact R4|]. intros c [Hp Hc]. split; [done|by apply Hother].
  - intros Hne. destruct (R6 Hne) as (Hp & Hc & Hrest). split; [done|]. split; [by apply Hother|done].
  - intros c [[<- E]|[_ Hc]]%lookup_insert_Some; [|by apply R7].
    destruct Hst as [[-> _]|[-> _]]; discriminate.
Qed.

(** ** Saving *)

Lemma save_index db db' m st :
  fts_ok db -> msg_id m ∉ map msg_id (messages (tbl db)) ->
  fts_states (run db) !! msg_channel m = Some st -> run db' = run db ->
  messages (tbl db') = messages (tbl db) ++ [m] -> channels (tbl db') = channels (tbl db) ->
  messages_fts (tbl db') = messages_fts (tbl db) ++
    (if st =? FTS_UNINDEXED then [] else [FtsRow (msg_id m) (msg_channel m) (strip_color (msg_text m))]) ->
  fts_ok db'.
Proof.
  intros [[Ho Ht Hb] [R1 R2 R3 R4 R5 R6 R7 R8]] Hfresh Hst Hrun Hm Hc Hf.
  assert (Hold : forall x, x ∈ messages (tbl db) -> indexed (tbl db) x -> indexed (tbl db') x).
  { unfold indexed. intros x _ Hx. rewrite Hf, map_app. apply elem_of_app. by left. }
  assert (Hnew : st <> FTS_UNINDEXED -> indexed (tbl db') m).
  { unfold indexed. intros Hne. rewrite Hf, map_app, (proj2 (Z.eqb_neq _ _) Hne).
    apply elem_of_app. right. by left. }
  assert (Hall : forall c, (c = msg_channel m -> st <> FTS_UNINDEXED) -> all_indexed (tbl db) c -> all_indexed (tbl db') c).
  { intros c Hor Ha x Hx Hxc. rewrite Hm in Hx.
    apply elem_of_app in Hx as [Hx| ->%list_elem_of_singleton]; [by apply Hold, Ha|].
    apply Hnew, Hor. congruence. }
  constructor; [constructor|rewrite Hrun; constructor; try done].
  - rewrite Hf, map_app. apply NoDup_app. split; [done|].
    split; [|destruct (st =? FTS_UNINDEXED); repeat constructor; apply not_elem_of_nil].
    intros i Hi Hi'. apply Hfresh. destruct (st =? FTS_UNINDEXED); [by apply not_elem_of_nil in Hi'|].
    apply list_elem_of_singleton in Hi' as ->. simpl in *. rewrite Forall_forall in Ht.
    apply list_elem_of_fmap in Hi as (r & Hir & Hr). destruct (Ht r Hr) as (x & Hx & E & _).
    simpl. rewrite Hir, E. by apply list_elem_of_fmap_2.
  - rewrite Hf, Hm. apply Forall_app. split.
    + eapply Forall_impl; [exact Ht|]. intros r (x & Hx & E). exists x. split; [apply elem_of_app; by left|done].
    + case_match; constructor; [|done]. exists m. split; [apply elem_of_app; right; by left|done].
  - rewrite Hc. pose proof Hb as Hb'. rewrite Forall_forall in *. intros row Hrow Hbuilt. apply Hall; [|by apply Hb].
    intros Heq ->. specialize (R3 _ Hst). rewrite Forall_forall in R3. rewrite (R3 row Hrow Heq) in Hbuilt. done.
  - intros c Hbuilt. apply Hall; [|by apply R2]. intros -> ->. by rewrite Hst in Hbuilt.
  - intros c Hu. rewrite Hc. by apply R3.
  - intros Hne. destruct (R6 Hne) as (Hp & Hs & Hq & Hx). split_and!; try done.
    intros x Hx' Hxc Hor. rewrite Hm in Hx'.
    apply elem_of_app in Hx' as [Hx'| ->%list_elem_of_singleton]; [by apply Hold, Hx|].
    apply Hnew. intros ->. rewrite Hxc in Hst. by rewrite Hst in Hs.
Qed.

Lemma state_get_run db db' cid :
  fts db = fts db' -> run db = run db' -> channels (tbl db) = channels (tbl db') ->
  run (fts_state_get db cid).1 = run (fts_state_get db' cid).1 /\ (fts_state_get db cid).2 = (fts_state_get db' cid).2 /\
  tbl (fts_state_get db cid).1 = tbl db /\ fts (fts_state_get db cid).1 = fts db.
Proof.
  intros Hf Hr Hc. unfold fts_state_get. rewrite Hf, Hr, Hc.
  destruct (negb (fts db')); [done|]. destruct (fts_states (run db') !! cid); simpl; by rewrite ?Hr.
Qed.

Lemma fts_row_fresh t m : Forall (row_true (messages t)) (messages_fts t) ->
  msg_id m ∉ map msg_id (messages t) -> existsb (fun r => fts_rowid r =? msg_id m) (messages_fts t) = false.
Proof.
  intros Ht Hfresh. apply not_true_iff_false. intros (r & Hr & Heq)%existsb_exists. apply Hfresh.
  rewrite Forall_forall in Ht. apply list_elem_of_In in Hr. destruct (Ht r Hr) as (x & Hx & E & _).
  replace (msg_id m) with (msg_id x) by lia. by apply list_elem_of_fmap_2.
Qed.

(** ** The backfill *)

#[local] Instance id_le_trans : Transitive id_le.
Proof. intros x y z. unfold id_le. lia. Qed.
#[local] Instance id_le_total : Total id_le.
Proof. intros x y. unfold id_le. lia. Qed.

Definition backfill_set (cid lo hi : Z) (t : tables) : list message :=
  where_ (fun m => of_channel cid m && (lo <? msg_id m) && (msg_id m <=? hi)) (messages t).

Lemma elem_of_backfill_set cid lo hi t m :
  m ∈ backfill_set cid lo hi t <-> m ∈ messages t /\ msg_channel m = cid /\ lo < msg_id m <= hi.
Proof.
  unfold backfill_set. rewrite elem_of_where. unfold of_channel.
  rewrite !andb_true_iff, Z.eqb_eq, Z.ltb_lt, Z.leb_le. tauto.
Qed.

(** A chunk holds the smallest ids: all of them when it is short, and otherwise
    everything up to its last id. *)
Lemma backfill_chunk cid lo hi lim t rows :
  ids_distinct (messages t) -> 0 < lim -> rows = stmt_fts_backfill cid lo hi lim t ->
  (forall m, m ∈ rows -> m ∈ backfill_set cid lo hi t) /\
  (sql_count rows < lim -> forall m, m ∈ backfill_set cid lo hi t -> m ∈ rows) /\
  (lim <= sql_count rows -> exists l, last rows = Some l /\ l ∈ rows /\
     forall m, m ∈ backfill_set cid lo hi t -> msg_id m <= msg_id l -> m ∈ rows).
Proof.
  intros Hnd Hlim ->. unfold stmt_fts_backfill, limit_offset. change (Z.to_nat 0) with O. rewrite drop_0.
  fold (backfill_set cid lo hi t). set (all := backfill_set cid lo hi t).
  set (sorted := merge_sort id_le all).
  assert (Hperm : sorted ≡ₚ all) by apply merge_sort_Permutation.
  assert (Hs : StronglySorted id_le sorted) by (apply StronglySorted_merge_sort; apply _).
  split_and!.
  - intros m Hm. rewrite <- Hperm. apply elem_of_take in Hm as (i & Hi & _). by eapply list_elem_of_lookup_2.
  - unfold sql_count. rewrite length_take. intros Hc m Hm. rewrite take_ge by lia. by rewrite Hperm.
  - unfold sql_count. rewrite length_take. intros Hc.
    destruct (last (take (Z.to_nat lim) sorted)) as [l|] eqn:Hlast.
    2: { apply last_None in Hlast. apply (f_equal length) in Hlast. rewrite length_take in Hlast. simpl in Hlast. lia. }
    assert (Hl : l ∈ take (Z.to_nat lim) sorted) by (by apply last_Some_elem_of).
    exists l. split; [done|]. split; [done|]. intros m Hm Hle.
    assert (Hms : m ∈ sorted) by by rewrite Hperm.
    rewrite <- (take_drop (Z.to_nat lim) sorted) in Hms, Hs. apply elem_of_app in Hms as [Hms|Hms]; [done|].
    pose proof (StronglySorted_app_1_elem_of _ _ _ _ _ Hs Hl Hms) as Hlm. unfold id_le in Hlm.
    assert (m = l) as ->; [|done]. apply (ids_distinct_eq (messages t)); [done|..|lia].
    + by apply elem_of_backfill_set in Hm as [? _].
    + apply elem_of_take in Hl as (i & Hi & _). apply list_elem_of_lookup_2 in Hi. rewrite Hperm in Hi.
      by apply elem_of_backfill_set in Hi as [? _].
Qed.

(** Nothing but index rows is added. *)
Record index_grows (db db' : scrollback_db) : Prop := {
  grow_messages : messages (tbl db') = messages (tbl db);
  grow_channels : channels (tbl db') = channels (tbl db);
  grow_run : run db' = run db;
  grow_fts : fts db' = fts db;
  grow_indexed m : indexed (tbl db) m -> indexed (tbl db') m }.

Lemma grows_keep db db' : index_grows db db' -> keeps_indexed (tbl db) (tbl db').
Proof. intros [Hm _ _ _ Hi] m Hin. rewrite Hm in Hin. exists m. split_and!; auto. Qed.

Lemma backfill_row_spec db m :
  fts db = true -> fts_ok db -> m ∈ messages (tbl db) ->
  fts_ok (backfill_row (msg_channel m) db m) /\ index_grows db (backfill_row (msg_channel m) db m) /\
  indexed (tbl (backfill_row (msg_channel m) db m)) m.
Proof.
  intros Hf Hok Hm. unfold backfill_row. destruct (fts_row_indexed db (msg_id m)) eqn:Hi.
  - split; [done|]. split; [done|]. unfold fts_row_indexed in Hi. apply existsb_exists in Hi as (r & Hr & Heq).
    unfold indexed. replace (msg_id m) with (fts_rowid r) by lia. apply list_elem_of_fmap_2. by apply list_elem_of_In.
  - unfold fts_index_row. rewrite Hf. cbn [negb].
    assert (Hno : existsb (fun r => fts_rowid r =? msg_id m) (messages_fts (tbl db)) = false) by done.
    set (row := FtsRow (msg_id m) (msg_channel m) (strip_color (msg_text m))).
    set (db' := set_tbl _ db).
    assert (Hfts : messages_fts (tbl db') = messages_fts (tbl db) ++ [row]).
    { unfold db'. simpl. unfold stmt_fts_insert. by rewrite Hno. }
    assert (Hmm : messages (tbl db') = messages (tbl db)) by (unfold db'; simpl; unfold stmt_fts_insert; by rewrite Hno).
    assert (Hcc : channels (tbl db') = channels (tbl db)) by (unfold db'; simpl; unfold stmt_fts_insert; by rewrite Hno).
    assert (Hrf : run db' = run db /\ fts db' = fts db) by done. destruct Hrf as [Hrr Hff]. clearbody db'.
    assert (Hg : index_grows db db').
    { constructor; try done. unfold indexed. intros x Hx. rewrite Hfts, map_app. apply elem_of_app. by left. }
    split; [|split; [done|]].
    + destruct Hok as [[Ho Ht Hb] Hr]. constructor; [constructor|].
      * rewrite Hfts, map_app. apply NoDup_app. split; [done|]. split; [|apply NoDup_singleton].
        intros i Hin ->%list_elem_of_singleton. apply list_elem_of_fmap in Hin as (r & Heq & Hr').
        apply not_true_iff_false in Hno. apply Hno, existsb_exists. exists r. split; [by apply list_elem_of_In|].
        simpl in Heq. lia.
      * rewrite Hfts, Hmm. apply Forall_app. split; [done|]. constructor; [|done]. by exists m.
      * apply (index_built_keep (tbl db)); [by apply grows_keep|by rewrite Hcc|done].
      * rewrite Hrr. apply (run_ok_keep (tbl db)); [by apply grows_keep|by rewrite Hcc|done].
    + unfold indexed. rewrite Hfts, map_app. apply elem_of_app. right. by left.
Qed.

Lemma grows_trans db1 db2 db3 : index_grows db1 db2 -> index_grows db2 db3 -> index_grows db1 db3.
Proof. intros [] []. constructor; try congruence. auto. Qed.

Lemma backfill_rows_spec cid rows db :
  fts db = true -> fts_ok db -> (forall m, m ∈ rows -> m ∈ messages (tbl db) /\ msg_channel m = cid) ->
  let db' := foldl (backfill_row cid) db rows in
  fts_ok db' /\ index_grows db db' /\ (forall m, m ∈ rows -> indexed (tbl db') m).
Proof.
  intros Hf Hok Hin. cbv zeta. revert db Hf Hok Hin. induction rows as [|m rows IH]; intros db Hf Hok Hin; simpl.
  { split; [done|]. split; [done|]. by intros m ?%not_elem_of_nil. }
  destruct (Hin m) as [Hm Hc]; [by left|]. destruct (backfill_row_spec db m Hf Hok Hm) as (Hok1 & Hg1 & Hi1).
  rewrite Hc in *. destruct (IH (backfill_row cid db m)) as (Hok2 & Hg2 & Hi2).
  - by rewrite (grow_fts _ _ Hg1).
  - done.
  - intros x Hx. rewrite (grow_messages _ _ Hg1). apply Hin. by right.
  - split; [done|]. split; [by eapply grows_trans|]. intros x [-> |Hx]%elem_of_cons; [|by apply Hi2].
    by apply (grow_indexed _ _ Hg2).
Qed.

(** What the backfill needs of the tables. *)
Record tables_ok (t : tables) : Prop := {
  t_ids : ids_distinct (messages t);
  t_ids_pos : Forall (fun m => 0 < msg_id m) (messages t);
  t_chans : NoDup (map ch_id (channels t)) }.

Lemma names_ids t : (names t).*2 = map ch_id (channels t).
Proof. unfold names. by rewrite <- list_fmap_compose. Qed.

Lemma db_ok_tables db : db_ok db -> tables_ok (tbl db).
Proof. intros Hok. constructor; [apply Hok..|]. rewrite <- names_ids. apply Hok. Qed.

Definition pending_rows (db : scrollback_db) : nat :=
  length (backfill_set (fts_cur_channel (run db)) (fts_cur_next (run db)) (fts_cur_max (run db)) (tbl db)).

(** What one chunk leaves: the channel is done, or there is less to do. *)
Record chunk_done (db db' : scrollback_db) : Prop := {
  chunk_messages : messages (tbl db') = messages (tbl db);
  chunk_chans : map ch_id (channels (tbl db')) = map ch_id (channels (tbl db));
  chunk_fts : fts db' = fts db;
  chunk_queue : fts_queue (run db') = fts_queue (run db);
  chunk_states c : fts_states (run db) !! c = Some FTS_BUILDING ->
    fts_states (run db') !! c = Some FTS_BUILDING \/ fts_states (run db') !! c = Some FTS_BUILT;
  chunk_built c : fts_states (run db) !! c = Some FTS_BUILT -> fts_states (run db') !! c = Some FTS_BUILT;
  chunk_progress : fts_cur_channel (run db') = 0 \/
    fts_cur_channel (run db') <> 0 /\ (pending_rows db' < pending_rows db)%nat }.

Lemma backfill_set_narrow cid lo lo' hi t :
  (exists m, m ∈ backfill_set cid lo hi t /\ msg_id m <= lo') -> lo <= lo' ->
  (length (backfill_set cid lo' hi t) < length (backfill_set cid lo hi t))%nat.
Proof.
  intros (m & Hm & Hle) Hlo. unfold backfill_set in *. induction (messages t) as [|x l IH]; simpl.
  { by apply not_elem_of_nil in Hm. }
  assert (Hmono : le (length (where_ (fun m => of_channel cid m && (lo' <? msg_id m) && (msg_id m <=? hi)) l))
    (length (where_ (fun m => of_channel cid m && (lo <? msg_id m) && (msg_id m <=? hi)) l))).
  { clear -Hlo. unfold where_. induction l as [|y l IH]; simpl; [done|].
    destruct (of_channel cid y), (Z.ltb_spec lo' (msg_id y)), (Z.ltb_spec lo (msg_id y)), (msg_id y <=? hi);
      simpl; lia. }
  apply elem_of_where in Hm as [Hp [-> |Hin]%elem_of_cons].
  - unfold where_ in *. simpl. rewrite Hp. rewrite (proj2 (Z.ltb_ge lo' (msg_id x))) by lia.
    rewrite andb_false_r. simpl. lia.
  - pose proof (IH ltac:(by apply elem_of_where)) as Hlt. unfold where_ in *. simpl.
    destruct (of_channel cid x), (Z.ltb_spec lo' (msg_id x)), (Z.ltb_spec lo (msg_id x)), (msg_id x <=? hi);
      simpl; lia.
Qed.

Lemma backfill_chunk_spec db :
  fts db = true -> tables_ok (tbl db) -> fts_ok db -> fts_cur_channel (run db) <> 0 ->
  fts_ok (fts_backfill_chunk db) /\ chunk_done db (fts_backfill_chunk db).
Proof.
  intros Hf Ht Hok Hcur. unfold fts_backfill_chunk. cbv zeta.
  set (cur := fts_cur_channel (run db)) in *. set (next := fts_cur_next (run db)). set (mx := fts_cur_max (run db)).
  set (rows := stmt_fts_backfill cur next mx FTS_BACKFILL_CHUNK (tbl db)).
  destruct (backfill_chunk cur next mx FTS_BACKFILL_CHUNK (tbl db) rows) as (Hsub & Hshort & Hfull);
    [apply Ht|done|done|].
  destruct (backfill_rows_spec cur rows db Hf Hok) as (Hok1 & Hg & Hrows).
  { intros m Hm. apply Hsub, elem_of_backfill_set in Hm. tauto. }
  set (db1 := foldl (backfill_row cur) db rows) in *.
  destruct Hok1 as [[Ho Htr Hb] Hr1]. destruct Hg as [Hm Hc Hrun Hff Hi].
  pose proof (run_current _ _ Hr1) as Hcurrent. rewrite Hrun in Hcurrent. destruct (Hcurrent Hcur) as (Hpos & Hst & Hq & Hix).
  fold cur in Hpos, Hst, Hq, Hix. clearbody db1 rows.
  destruct (Z.ltb_spec (sql_count rows) FTS_BACKFILL_CHUNK) as [Hlt|Hge].
  - assert (Hall : all_indexed (tbl db1) cur).
    { intros m Hin Hmc. destruct (decide (next < msg_id m <= mx)) as [Hin'|Hout].
      - apply Hrows, Hshort; [done|]. apply elem_of_backfill_set. by rewrite <- Hm.
      - apply Hix; [done|done|unfold next, mx in Hout; lia]. }
    split.
    + destruct Hr1 as [R1 R2 R3 R4 R5 R6 R7 R8]. rewrite Hrun in *.
      constructor; [constructor; simpl; try done|constructor; simpl; rewrite ?Hrun; try done].
      * rewrite Forall_forall in *. intros row Hrow Hbuilt. apply list_elem_of_fmap in Hrow as (row' & -> & Hrow').
        case_match eqn:Heq; simpl in *; [|by apply Hb].
        replace (ch_id row') with cur by lia. done.
      * intros c v [[<- <-]|[_ Hcv]]%lookup_insert_Some; [auto|by eapply R1].
      * intros c [[<- _]|[_ Hcv]]%lookup_insert_Some; [done|by apply R2].
      * intros c [[<- E]|[Hne Hcv]]%lookup_insert_Some; [discriminate|].
        specialize (R3 c Hcv). rewrite Forall_forall in *. intros row Hrow Hid.
        apply list_elem_of_fmap in Hrow as (row' & -> & Hrow'). fold cur in Hid |- *.
        case_match eqn:Heq; simpl in *; [lia|by apply R3].
      * rewrite Forall_forall in *. intros c Hc'. destruct (R4 c Hc') as [Hp Hs]. split; [done|].
        rewrite lookup_insert_ne; [done|]. fold cur. by intros ->.
      * intros c [[<- E]|[Hne Hcv]]%lookup_insert_Some; [discriminate|]. destruct (R7 c Hcv) as [Hp [Hc'| ->]]; [by auto|].
        by destruct Hne.
      * intros [Hq'|]; [|done]. apply R8. by left.
    + constructor; simpl; rewrite ?Hrun; try done.
      * rewrite map_map, <- Hc. apply map_ext. intros c. by case_match.
      * intros c Hcs. destruct (decide (c = cur)) as [->|Hne]; [right; by rewrite lookup_insert_eq|].
        left. by rewrite lookup_insert_ne.
      * intros c Hcs. destruct (decide (c = cur)) as [->|Hne]; [by rewrite lookup_insert_eq|].
        by rewrite lookup_insert_ne.
      * by left.
  - destruct (Hfull Hge) as (l & -> & Hl & Hupto).
    assert (Hl' : next < msg_id l) by (apply Hsub, elem_of_backfill_set in Hl; lia).
    split.
    + destruct Hr1 as [R1 R2 R3 R4 R5 R6 R7 R8]. rewrite Hrun in *. constructor; [by constructor|].
      constructor; simpl; rewrite ?Hrun; try done. intros _. split; [done|]. split; [done|]. split; [done|].
      intros m Hin Hmc Hor. destruct (decide (next < msg_id m <= msg_id l)) as [Hin'|Hout].
      * destruct (decide (msg_id m <= mx)); [|apply Hix; [done|done|unfold mx in *; lia]].
        apply Hrows, Hupto; [|lia]. apply elem_of_backfill_set. rewrite <- Hm. split_and!; [done|done|lia|lia].
      * apply Hix; [done|done|unfold next, mx in *; lia].
    + constructor; simpl; rewrite ?Hrun; try done; [by rewrite Hc|by auto|].
      right. split; [done|]. unfold pending_rows. simpl. rewrite Hrun. fold cur next mx.
      assert (Hbs : backfill_set cur (msg_id l) mx (tbl db1) = backfill_set cur (msg_id l) mx (tbl db)).
      { unfold backfill_set. by rewrite Hm. }
      unfold backfill_set at 1. simpl. fold (backfill_set cur (msg_id l) mx (tbl db1)). rewrite Hbs.
      apply backfill_set_narrow; [|lia]. exists l. split; [by apply Hsub|done].
Qed.

Lemma backfill_start_spec db next queue :
  tables_ok (tbl db) -> fts_ok db -> fts_cur_channel (run db) = 0 -> fts_queue (run db) = next :: queue ->
  fts_ok (fts_backfill_start next queue db) /\ next <> 0.
Proof.
  intros [_ Hpos _] [Hi [R1 R2 R3 R4 R5 R6 R7 R8]] Hcur Hq. rewrite Hq in *.
  apply Forall_cons in R4 as [[Hn Hs] R4]. apply NoDup_cons in R5 as [Hnin R5]. rewrite Forall_forall in Hpos.
  split; [|lia]. constructor; [done|]. constructor; simpl; try done.
  - intros _. split; [done|]. split; [done|]. split; [done|]. intros m Hm Hmc [Hle|Hgt].
    + specialize (Hpos m Hm). simpl in Hpos. lia.
    + assert (Hb : msg_id m <= default 0 (sql_max (map msg_id (where_ (of_channel next) (messages (tbl db)))))); [|lia].
      apply sql_max_bound, list_elem_of_fmap_2, elem_of_where. unfold of_channel. split; [lia|done].
  - intros c Hc. destruct (R7 c Hc) as [Hp [[-> |Hin]%elem_of_cons| ->]]; [by auto|by auto|lia].
  - intros _. apply R8. by left.
Qed.

(** ** Ticks *)

Definition work (db : scrollback_db) : nat :=
  length (fts_queue (run db)) * (length (messages (tbl db)) + 2) +
  (if fts_cur_channel (run db) =? 0 then 0 else S (pending_rows db)).

(** The idle source runs until it asks to be removed. *)
Fixpoint idle_loop (fuel : nat) (db : scrollback_db) : option scrollback_db :=
  match fuel with
  | O => None
  | S fuel => let '(db, again) := fts_backfill_idle db in if again : bool then idle_loop fuel db else Some db
  end.

Lemma chunk_tables db db' : chunk_done db db' -> tables_ok (tbl db) -> tables_ok (tbl db').
Proof. intros [Hm Hc _ _ _ _ _] [H1 H2 H3]. constructor; rewrite ?Hm, ?Hc; done. Qed.

Lemma pending_bound db : (pending_rows db <= length (messages (tbl db)))%nat.
Proof. apply filter_length_le. Qed.

Lemma backfill_tick db :
  fts db = true -> tables_ok (tbl db) -> fts_ok db ->
  let '(db', again) := fts_backfill_idle db in
  fts_ok db' /\ tables_ok (tbl db') /\ fts db' = true /\ messages (tbl db') = messages (tbl db) /\
  (forall c, fts_states (run db) !! c = Some FTS_BUILDING ->
     fts_states (run db') !! c = Some FTS_BUILDING \/ fts_states (run db') !! c = Some FTS_BUILT) /\
  (forall c, fts_states (run db) !! c = Some FTS_BUILT -> fts_states (run db') !! c = Some FTS_BUILT) /\
  (if again : bool then (work db' < work db)%nat
   else fts_queue (run db') = [] /\ fts_cur_channel (run db') = 0 /\ fts_idle (run db') = false).
Proof.
  intros Hf Ht Hok. unfold fts_backfill_idle.
  assert (Hchunk : forall db0, fts db0 = true -> tables_ok (tbl db0) -> fts_ok db0 -> fts_cur_channel (run db0) <> 0 ->
    let db' := fts_backfill_chunk db0 in
    fts_ok db' /\ tables_ok (tbl db') /\ chunk_done db0 db' /\ (work db' < work db0)%nat).
  { intros db0 Hf0 Ht0 Hok0 Hcur. cbv zeta. destruct (backfill_chunk_spec db0 Hf0 Ht0 Hok0 Hcur) as [H1 H2].
    split; [done|]. split; [by eapply chunk_tables|]. split; [done|].
    destruct H2 as [Hm _ _ Hq _ _ Hp]. unfold work. rewrite Hm, Hq, (proj2 (Z.eqb_neq _ 0) Hcur).
    destruct Hp as [-> |[Hne Hp]]; [simpl; lia|]. rewrite (proj2 (Z.eqb_neq _ 0) Hne). lia. }
  destruct (Z.eqb_spec (fts_cur_channel (run db)) 0) as [Hcur|Hcur].
  - destruct (fts_queue (run db)) as [|next queue] eqn:Hq.
    + split_and!; try done; [|auto].
      destruct Hok as [Hi [R1 R2 R3 R4 R5 R6 R7 R8]]. constructor; [done|]. constructor; simpl; try done.
      rewrite Hq. by intros [?|?].
    + destruct (backfill_start_spec db next queue Ht Hok Hcur Hq) as [Hok1 Hne].
      set (db1 := fts_backfill_start next queue db) in *.
      destruct (Hchunk db1) as (H1 & H2 & H3 & H4); [done..|].
      split; [done|]. split; [done|]. destruct H3 as [Hm _ Hff _ Hs Hb _].
      split; [by rewrite Hff|]. split; [by rewrite Hm|]. split; [done|]. split; [done|].
      eapply Nat.lt_le_trans; [exact H4|]. unfold work. rewrite Hq, Hcur.
      change (fts_queue (run db1)) with queue. change (messages (tbl db1)) with (messages (tbl db)).
      change (fts_cur_channel (run db1)) with next. rewrite (proj2 (Z.eqb_neq next 0) Hne).
      pose proof (pending_bound db1) as Hpb. change (messages (tbl db1)) with (messages (tbl db)) in Hpb.
      simpl. lia.
  - destruct (Hchunk db) as (H1 & H2 & H3 & H4); [done..|]. destruct H3 as [Hm _ Hff _ Hs Hb _].
    split_and!; try done. by rewrite Hff.
Qed.

(** ** Every call keeps the index *)

Lemma ensure_count_same db cid : tbl (chan_cache_ensure_count db cid).1 = tbl db /\
  run (chan_cache_ensure_count db cid).1 = run db /\ fts (chan_cache_ensure_count db cid).1 = fts db.
Proof. unfold chan_cache_ensure_count. case_match; [done|]. by destruct (stmt_count cid (tbl db)). Qed.

Lemma channel_same db ch :
  messages (tbl (scrollback_get_channel_id db ch).1) = messages (tbl db) /\
  run (scrollback_get_channel_id db ch).1 = run db /\ fts (scrollback_get_channel_id db ch).1 = fts db.
Proof.
  unfold scrollback_get_channel_id, set_tbl, stmt_channel_insert. destruct ch as [|x ch]; [done|].
  case_match; [done|]. case_match; simpl; by case_match.
Qed.

Ltac with_channel_fts db ch :=
  pose proof (fts_ok_channel db ch) as Hok1; pose proof (channel_same db ch) as (Hmsgs & Hrun1 & Hfts1);
  destruct (scrollback_get_channel_id db ch) as [db1 cid] eqn:Hget; simpl in Hok1, Hmsgs, Hrun1, Hfts1;
  case_match; [by auto|].

Lemma invalidate_same cid db : tbl (chan_cache_invalidate cid db) = tbl db /\ run (chan_cache_invalidate cid db) = run db.
Proof. unfold chan_cache_invalidate. by case_match. Qed.

Lemma purge_fts db ch :
  fts db = true -> ids_distinct (messages (tbl db)) -> fts_ok db -> fts_ok (scrollback_purge_pending db ch).
Proof.
  intros Hf Hnd Hok. unfold scrollback_purge_pending. with_channel_fts db ch. rewrite Hfts1, Hf.
  set (doomed := fun m => of_channel cid m && is_pending m).
  set (db3 := set_tbl (set_messages _) _).
  assert (Hok3 : fts_ok db3).
  { apply (fts_ok_delete db1 db3 (fun m => negb (doomed m)) (fun r =>
      negb (existsb (fun m => doomed m && (msg_id m =? fts_rowid r)) (messages (tbl db1)))));
      [by rewrite Hmsgs|by apply Hok1|done..|].
    intros m r Hm Hid _. f_equal. apply eq_true_iff_eq. rewrite existsb_exists. split.
    - intros (x & Hx & [Hd He]%andb_true_iff). apply list_elem_of_In in Hx.
      by rewrite <- (ids_distinct_eq (messages (tbl db1)) x m) by (done || (by rewrite Hmsgs) || lia).
    - intros Hd. exists m. split; [by apply list_elem_of_In|]. rewrite Hd. simpl. lia. }
  case_match; [|done]. apply (fts_ok_same db3); try done; by rewrite ?(proj1 (invalidate_same cid db3)), ?(proj2 (invalidate_same cid db3)).
Qed.

Lemma delete_fts db i :
  fts db = true -> ids_distinct (messages (tbl db)) -> fts_ok db -> fts_ok (scrollback_delete_by_rowid db i).1.
Proof.
  intros Hf Hnd Hok. unfold scrollback_delete_by_rowid. case_match; [done|]. case_match eqn:Hch; simpl.
  - apply (fts_ok_delete db _ (fun m => negb (msg_id m =? i)) (fun r => negb (fts_rowid r =? i))); try done;
      unfold fts_unindex_row, chan_cache_invalidate_all; simpl; rewrite ?Hf; simpl; try done.
    intros m r _ -> _. done.
  - apply (fts_ok_same db); try done. simpl. apply where_unchanged. by apply Z.ltb_nlt in Hch.
Qed.

Lemma clear_fts db ch :
  fts db = true -> ids_distinct (messages (tbl db)) -> fts_ok db -> fts_ok (scrollback_clear db ch).
Proof.
  intros Hf Hnd Hok. unfold scrollback_clear. with_channel_fts db ch. cbv zeta.
  set (db2 := set_tbl (fun t => set_replies _ t) db1). set (db3 := set_tbl (fun t => set_reactions _ t) db2).
  destruct (invalidate_tbl cid db3) as (Ht & _ & Hff & Hrr). rewrite Hff. simpl fts. rewrite Hfts1, Hf.
  apply (fts_ok_delete db1 _ (fun m => negb (of_channel cid m)) (fun r => negb (fts_channel r =? cid)));
    [by rewrite Hmsgs|by apply Hok1|simpl; by rewrite Ht..|simpl; by rewrite Hrr|].
  intros m r _ _ Hc. unfold of_channel. by rewrite Hc.
Qed.

Lemma chan_ids_distinct db ch :
  db_ok db -> roomy db -> NoDup (map ch_id (channels (tbl (scrollback_get_channel_id db ch).1))).
Proof.
  intros Hok Hroom. destruct (decide (ch = [])) as [->|Hne].
  - simpl. rewrite <- names_ids. apply Hok.
  - destruct (get_channel_id_spec db ch) as (db1 & cid & -> & Hok1 & _); [done..|].
    simpl. rewrite <- names_ids. apply Hok1.
Qed.

Lemma save_fts db ch ts mid text user :
  fts db = true -> db_ok db -> roomy db -> fts_ok db -> fts_ok (scrollback_db_save db ch ts mid text user).1.
Proof.
  intros Hf Hdb Hroom Hok. unfold scrollback_db_save. pose proof (chan_ids_distinct db ch Hdb Hroom) as Hids.
  with_channel_fts db ch. set (mid' := match mid with Some [] => None | _ => mid end). unfold stmt_insert.
  destruct (match mid' with Some _ => _ | None => _ end); [by apply Hok1|]. cbv zeta.
  set (rowid := new_rowid (map msg_id (messages (tbl db1)))).
  set (m := Message rowid cid ts mid' text None None 0 user).
  change (set_tbl (fun _ => set_messages (fun l => l ++ [m]) (tbl db1)) db1)
    with (set_tbl (set_messages (fun l => l ++ [m])) db1). set (db2 := chan_cache_note_insert _ _ _).
  destruct (note_insert_tbl cid ts (set_tbl (set_messages (fun l => l ++ [m])) db1)) as (Ht2 & _ & Hf2 & Hr2).
  fold db2 in Ht2, Hf2, Hr2. simpl in Hf2, Hr2, Hids. rewrite Hf2, Hfts1, Hf. cbn [negb].
  pose proof (state_get_spec db1 cid ltac:(congruence) Hids (Hok1 Hok)) as Hget1.
  destruct (state_get_run db2 db1 cid) as (Hrun3 & Hst3 & Ht3 & Hf3); [done|done|by rewrite Ht2|].
  destruct (fts_state_get db2 cid) as [db3 st]. destruct (fts_state_get db1 cid) as [db1' st']. simpl in *. subst st'.
  destruct Hget1 as (Hok1' & Hst & Ht1' & _).
  assert (Hfresh : rowid ∉ map msg_id (messages (tbl db1))).
  { unfold rowid. rewrite Hmsgs. apply new_rowid_fresh; [done|apply Hroom]. }
  assert (Hnofts : existsb (fun r => fts_rowid r =? rowid) (messages_fts (tbl db1)) = false).
  { apply (fts_row_fresh (tbl db1) m); [apply Hok1; apply Hok|done]. }
  destruct (Z.eqb_spec st FTS_UNINDEXED) as [->|Hne]; cbn [negb].
  - apply (save_index db1' _ m FTS_UNINDEXED); simpl; rewrite ?Ht1', ?Ht3, ?Ht2, ?app_nil_r; done.
  - unfold fts_index_row. rewrite Hf3, Hf2, Hfts1, Hf. cbn [negb].
    apply (save_index db1' _ m st); simpl; rewrite ?(proj2 (Z.eqb_neq _ _) Hne); try done;
      unfold stmt_fts_insert; rewrite ?Ht1', ?Ht3, ?Ht2; simpl; by rewrite ?Hnofts.
Qed.

(** Reading calls change caches only. *)
Definition same_index (db db' : scrollback_db) : Prop :=
  tbl db' = tbl db /\ run db' = run db /\ fts db' = fts db.

Lemma fts_ok_caches db db' : same_index db db' -> fts_ok db -> fts_ok db'.
Proof. intros (Ht & Hr & _). apply fts_ok_same; by rewrite ?Ht, ?Hr. Qed.

Lemma count_index db ch : same_index (scrollback_get_channel_id db ch).1 (scrollback_count db ch).1.
Proof.
  unfold scrollback_count. destruct (scrollback_get_channel_id db ch) as [db1 cid]. simpl. case_match; [done|].
  pose proof (ensure_count_same db1 cid). by destruct (chan_cache_ensure_count db1 cid).
Qed.

Lemma range_index b db ch off lim db' rows :
  scrollback_load_range b db ch off lim = Some (db', rows) -> same_index (scrollback_get_channel_id db ch).1 db'.
Proof.
  unfold scrollback_load_range. destruct (scrollback_get_channel_id db ch) as [db1 cid]. simpl.
  case_match; [by intros [= <- <-]|].
  pose proof (ensure_count_same db1 cid) as He. destruct (chan_cache_ensure_count db1 cid) as [db2 c].
  set (lim' := if lim <=? 0 then 500 else lim). set (off' := if off <? 0 then 0 else off). cbv zeta.
  destruct (INT_MAX <? off' + lim'); [done|]. destruct (_ || _); [by intros [= <- <-]|]. destruct b; [done|].
  destruct (range_rows _ _ _ _ _ _) as [[rs bw]|]; [|done]. by intros [= <- <-].
Qed.

Lemma index_index b db ch i : same_index (scrollback_get_channel_id db ch).1 (scrollback_get_index_of_rowid b db ch i).1.
Proof.
  unfold scrollback_get_index_of_rowid. destruct (scrollback_get_channel_id db ch) as [db1 cid]. simpl.
  case_match; [done|].
  pose proof (ensure_count_same db1 cid) as He. destruct (chan_cache_ensure_count db1 cid) as [db2 c]. simpl in He.
  destruct (stmt_row_key i (tbl db2)); [|done]. case_match; [|done].
  by destruct (index_from_anchor _ _ _ _ _) as [[? []]|].
Qed.

Lemma update_fts db ch p r : fts_ok db -> fts_ok (scrollback_update_pending_msgid db ch p r).1.
Proof.
  intros Hok. unfold scrollback_update_pending_msgid. with_channel_fts db ch.
  unfold stmt_update_pending. destruct (_ && existsb _ _); [by apply Hok1|]. simpl. apply (fts_ok_map db1); [..|by apply Hok1]; intros m; by case_match.
Qed.

Lemma redact_fts db ch mid b r time : fts_ok db -> fts_ok (scrollback_redact_message db ch mid b r time).1.
Proof.
  intros Hok. unfold scrollback_redact_message. with_channel_fts db ch. simpl.
  apply (fts_ok_map db1); [..|by apply Hok1]; intros m; by case_match.
Qed.

Lemma schedule_fts db ch :
  fts db = true -> db_ok db -> roomy db -> fts_ok db -> fts_ok (scrollback_fts_schedule db ch).
Proof.
  intros Hf Hdb Hroom Hok. unfold scrollback_fts_schedule. rewrite Hf. cbn [negb].
  pose proof (chan_ids_distinct db ch Hdb Hroom) as Hids. with_channel_fts db ch.
  pose proof (state_get_spec db1 cid ltac:(congruence) Hids (Hok1 Hok)) as Hsg.
  destruct (fts_state_get db1 cid) as [db2 st]. destruct Hsg as (Hok2 & Hst & _ & _).
  destruct (Z.eqb_spec st FTS_UNINDEXED) as [->|Hne]; [|done]. cbn [negb].
  destruct Hok2 as [Hi [R1 R2 R3 R4 R5 R6 R7 R8]]. constructor; [done|]. simpl.
  assert (Hother : forall c v, v <> FTS_UNINDEXED -> fts_states (run db2) !! c = Some v ->
    <[cid := FTS_BUILDING]> (fts_states (run db2)) !! c = Some v).
  { intros c v Hv Hc. rewrite lookup_insert_ne; [done|]. intros ->. congruence. }
  assert (Hnew : cid ∉ fts_queue (run db2)).
  { intros Hin. rewrite Forall_forall in R4. destruct (R4 cid Hin) as [_ H1]. by rewrite Hst in H1. }
  constructor; simpl; try done.
  - intros c v [[<- <-]|[_ Hc]]%lookup_insert_Some; [auto|by eapply R1].
  - intros c [[<- E]|[_ Hc]]%lookup_insert_Some; [discriminate|by apply R2].
  - intros c [[<- E]|[_ Hc]]%lookup_insert_Some; [discriminate|by apply R3].
  - apply Forall_app. split; [|constructor; [|done]; split; [lia|by rewrite lookup_insert_eq]].
    eapply Forall_impl; [exact R4|]. intros c [Hp Hc]. split; [done|by apply Hother].
  - apply NoDup_app. split; [done|]. split; [|apply NoDup_singleton]. by intros c Hc ->%list_elem_of_singleton.
  - intros Hne. destruct (R6 Hne) as (Hp & Hc & Hq & Hm). split; [done|]. split; [by apply Hother|]. split; [|done].
    intros [Hin|Hin%list_elem_of_singleton]%elem_of_app; [done|]. rewrite Hin in Hc. by rewrite Hst in Hc.
  - intros c [[<- _]|[_ Hc]]%lookup_insert_Some; [split; [lia|]; left; apply elem_of_app; right; by left|].
    destruct (R7 c Hc) as [Hp [Hin| ->]]; split; auto. left. apply elem_of_app. by left.
Qed.

Lemma ready_fts db ch :
  fts db = true -> db_ok db -> roomy db -> fts_ok db -> fts_ok (scrollback_fts_ready db ch).1.
Proof.
  intros Hf Hdb Hroom Hok. unfold scrollback_fts_ready. rewrite Hf. cbn [negb].
  pose proof (chan_ids_distinct db ch Hdb Hroom) as Hids. pose proof (fts_ok_channel db ch Hok) as Hok1.
  pose proof (channel_same db ch) as (_ & _ & Hfts1).
  destruct (scrollback_get_channel_id db ch) as [db1 cid]. simpl in *. case_match; [|done].
  pose proof (state_get_spec db1 cid ltac:(congruence) Hids Hok1) as Hsg.
  destruct (fts_state_get db1 cid) as [db2 st]. apply Hsg.
Qed.

Lemma load_fts db ch lim :
  fts db = true -> db_ok db -> fts_ok db -> fts_ok (scrollback_db_load db ch lim).1.
Proof.
  intros Hf Hdb Hok. unfold scrollback_db_load. with_channel_fts db ch. simpl.
  apply purge_fts; [congruence|rewrite Hmsgs; apply Hdb|by apply Hok1].
Qed.

Lemma exec_fts db c db' :
  fts db = true -> db_ok db -> roomy db -> fts_ok db -> exec db c = Some db' -> fts_ok db'.
Proof.
  intros Hf Hdb Hroom Hok Hexec. pose proof (ok_ids _ Hdb) as Hnd.
  destruct c; cbn [exec] in Hexec; try (injection Hexec as <-).
  - by apply save_fts.
  - by apply purge_fts.
  - by apply delete_fts.
  - by apply update_fts.
  - by apply redact_fts.
  - by apply clear_fts.
  - by apply load_fts.
  - eapply fts_ok_caches; [apply count_index|by apply fts_ok_channel].
  - apply fmap_Some in Hexec as ([db1 rows] & Heq & ->).
    eapply fts_ok_caches; [by eapply range_index|by apply fts_ok_channel].
  - eapply fts_ok_caches; [apply index_index|by apply fts_ok_channel].
  - by apply schedule_fts.
  - by apply ready_fts.
  - pose proof (backfill_tick db Hf (db_ok_tables db Hdb) Hok) as Htick.
    destruct (fts_backfill_idle db). apply Htick.
Qed.

(** Whether the SQLite build has FTS5 never changes. *)
Lemma purge_flag db ch : fts (scrollback_purge_pending db ch) = fts db.
Proof.
  unfold scrollback_purge_pending. pose proof (channel_same db ch) as (_ & _ & Hf).
  destruct (scrollback_get_channel_id db ch) as [db1 cid]. simpl in Hf. case_match; [done|]. cbv zeta.
  set (db3 := set_tbl (set_messages _) _). assert (H3 : fts db3 = fts db) by (unfold db3; simpl; destruct (fts db1) eqn:E; simpl; congruence).
  clearbody db3. case_match; [|done]. by destruct (invalidate_tbl cid db3) as (_ & _ & -> & _).
Qed.

Lemma index_row_flag i c text db : fts (fts_index_row i c text db) = fts db.
Proof. unfold fts_index_row. by case_match. Qed.

Lemma backfill_rows_flag cid rows db : fts (foldl (backfill_row cid) db rows) = fts db.
Proof.
  revert db; induction rows as [|m rows IH]; intros db; simpl; [done|]. rewrite IH. unfold backfill_row.
  case_match; [done|apply index_row_flag].
Qed.

Lemma backfill_chunk_flag db : fts (fts_backfill_chunk db) = fts db.
Proof. unfold fts_backfill_chunk. cbv zeta. case_match; simpl; apply backfill_rows_flag. Qed.

Lemma if_tbl_flag (b : bool) f db : fts (if b then set_tbl f db else db) = fts db.
Proof. by destruct b. Qed.

Lemma exec_flag db c db' : exec db c = Some db' -> fts db' = fts db.
Proof.
  assert (Hch : forall ch, fts (scrollback_get_channel_id db ch).1 = fts db) by apply channel_same.
  destruct c as [ch ts mid text user|ch|i|ch p r|ch mid b r time|ch|ch lim|ch|ch off lim|ch i|ch|ch|];
    cbn [exec]; try (intros [= <-]); try specialize (Hch ch).
  - unfold scrollback_db_save. destruct (scrollback_get_channel_id db ch) as [db1 cid]. simpl in Hch.
    case_match; [done|]. destruct (stmt_insert _ _ _ _ _ _) as [[t i]|]; [|done]. cbv zeta.
    destruct (note_insert_tbl cid ts (set_tbl (fun _ => t) db1)) as (_ & _ & Hf & _). simpl in Hf.
    set (db2 := chan_cache_note_insert _ _ _) in *. destruct (negb (fts db2)); [simpl; congruence|].
    destruct (state_get_run db2 db2 cid) as (_ & _ & _ & Hf3); [done..|].
    destruct (fts_state_get db2 cid) as [db3 st]. simpl in Hf3.
    case_match; simpl; rewrite ?index_row_flag; congruence.
  - apply purge_flag.
  - unfold scrollback_delete_by_rowid. case_match; [done|]. case_match; [|done]. simpl. unfold fts_unindex_row. by case_match.
  - unfold scrollback_update_pending_msgid. destruct (scrollback_get_channel_id db ch) as [db1 cid]. simpl in Hch.
    case_match; [done|]. by destruct (stmt_update_pending _ _ _ _) as [[? ?]|].
  - unfold scrollback_redact_message. destruct (scrollback_get_channel_id db ch) as [db1 cid]. by case_match.
  - unfold scrollback_clear. destruct (scrollback_get_channel_id db ch) as [db1 cid]. simpl in Hch. case_match; [done|].
    cbv zeta. set (db3 := set_tbl _ (set_tbl _ db1)).
    destruct (invalidate_tbl cid db3) as (_ & _ & Hf & _).
    simpl. rewrite if_tbl_flag. exact (eq_trans Hf Hch).
  - unfold scrollback_db_load. destruct (scrollback_get_channel_id db ch) as [db1 cid]. simpl in Hch.
    case_match; [done|]. simpl. by rewrite purge_flag.
  - destruct (count_index db ch) as (_ & _ & ->). done.
  - intros ([db1 rows] & Heq & ->)%fmap_Some. destruct (range_index _ _ _ _ _ _ _ Heq) as (_ & _ & Hf). simpl. by rewrite Hf.
  - destruct (index_index false db ch i) as (_ & _ & ->). done.
  - unfold scrollback_fts_schedule. case_match; [done|]. destruct (scrollback_get_channel_id db ch) as [db1 cid]. simpl in Hch.
    case_match; [done|]. destruct (state_get_run db1 db1 cid) as (_ & _ & _ & Hf); [done..|].
    destruct (fts_state_get db1 cid). simpl in Hf. case_match; simpl; congruence.
  - unfold scrollback_fts_ready. case_match; [done|]. destruct (scrollback_get_channel_id db ch) as [db1 cid]. simpl in Hch.
    case_match; [|done]. destruct (state_get_run db1 db1 cid) as (_ & _ & _ & Hf); [done..|].
    destruct (fts_state_get db1 cid). simpl in *. congruence.
  - unfold fts_backfill_idle. case_match; [|apply backfill_chunk_flag]. case_match; [done|]. simpl.
    by rewrite backfill_chunk_flag.
Qed.

(** ** Histories with an index *)

Inductive fts_reachable : scrollback_db -> Prop :=
| fts_reachable_opened db :
    opened db -> fts db = true -> index_ok (tbl db) -> run db = FtsRun ∅ [] false 0 0 0 -> fts_reachable db
| fts_reachable_call db c db' :
    fts_reachable db -> roomy db -> admissible db c -> exec db c = Some db' -> fts_reachable db'.

Lemma fts_reachable_ok db : fts_reachable db -> reachable db /\ fts db = true /\ fts_ok db.
Proof.
  induction 1 as [db Ho Hf Hi Hr|db c db' _ (Hr & Hf & Hok) Hroom Hadm Hexec].
  - split; [by apply reachable_opened|]. split; [done|]. constructor; [done|]. rewrite Hr.
    constructor; simpl; try done; try (intros c; by rewrite ?lookup_empty); [constructor|by intros []].
  - split; [by eapply reachable_call|]. split; [by rewrite (exec_flag _ _ _ Hexec)|].
    eapply exec_fts; [done|by apply reachable_ok|done..].
Qed.

Lemma where_id ms m :
  ids_distinct ms -> m ∈ ms -> where_ (fun x => msg_id x =? msg_id m) ms = [m].
Proof.
  unfold ids_distinct, where_. induction ms as [|x ms IH]; [by intros _ ?%not_elem_of_nil|].
  cbn [map]. intros [Hx Hnd]%NoDup_cons Hm. simpl. destruct (Z.eqb_spec (msg_id x) (msg_id m)) as [Heq|Hne].
  - assert (x = m) as ->.
    { apply elem_of_cons in Hm as [-> |Hm]; [done|]. destruct Hx. rewrite Heq. by apply list_elem_of_fmap_2. }
    f_equal. apply (where_none (fun x => msg_id x =? msg_id m)). intros y Hy. apply Z.eqb_neq. intros He.
    apply Hx. rewrite <- He. by apply list_elem_of_fmap_2.
  - apply IH; [done|]. by apply elem_of_cons in Hm as [-> |Hm].
Qed.

(** The rows the index points at are the matching messages, in some order. *)
Lemma search_rows t cid (p : cstr -> bool) :
  ids_distinct (messages t) -> index_ok t -> all_indexed t cid ->
  concat (map (fun r => where_ (fun m => msg_id m =? fts_rowid r) (messages t))
    (where_ (fun r => (fts_channel r =? cid) && p (fts_text r)) (messages_fts t)))
  ≡ₚ where_ (fun m => of_channel cid m && p (strip_color (msg_text m))) (messages t).
Proof.
  intros Hnd [Ho Ht _] Hall. rewrite Forall_forall in Ht.
  set (hits := where_ _ (messages_fts t)).
  assert (Hhits : forall r, r ∈ hits -> r ∈ messages_fts t /\ fts_channel r = cid /\ p (fts_text r) = true).
  { intros r [[Hc Hp]%andb_true_iff Hr]%elem_of_where. split_and!; [done|lia|done]. }
  assert (Hids : NoDup (map fts_rowid hits)).
  { unfold hits. clear -Ho. unfold where_. induction (messages_fts t) as [|r l IH]; [done|]. cbn [map] in Ho.
    apply NoDup_cons in Ho as [Hr Ho]. simpl. case_match; [|by apply IH]. cbn [map]. apply NoDup_cons.
    split; [|by apply IH]. intros Hin. apply Hr. apply list_elem_of_fmap in Hin as (r' & -> & Hr').
    apply list_elem_of_fmap_2. by apply (elem_of_where (fun r => (fts_channel r =? cid) && p (fts_text r))) in Hr' as [_ ?]. }
  assert (Hone : forall r, r ∈ hits -> exists m, where_ (fun x => msg_id x =? fts_rowid r) (messages t) = [m] /\
    m ∈ messages t /\ msg_id m = fts_rowid r /\ msg_channel m = fts_channel r /\ fts_text r = strip_color (msg_text m)).
  { intros r Hr. apply Hhits in Hr as (Hr & _). destruct (Ht r Hr) as (m & Hm & E1 & E2 & E3).
    exists m. rewrite E1. split; [by apply where_id|done]. }
  assert (Hmap : map msg_id (concat (map (fun r => where_ (fun m => msg_id m =? fts_rowid r) (messages t)) hits)) =
    map fts_rowid hits).
  { clear -Hone. induction hits as [|r l IH]; [done|]. cbn [map concat]. destruct (Hone r) as (m & -> & _ & E & _); [by left|].
    simpl. rewrite E. f_equal. apply IH. intros r' Hr'. apply Hone. by right. }
  apply NoDup_Permutation.
  - apply (NoDup_fmap_1 msg_id). change (msg_id <$> ?l) with (map msg_id l). by rewrite Hmap.
  - apply (NoDup_fmap_1 msg_id). by apply ids_distinct_where.
  - intros m. rewrite list_elem_of_In, in_concat, elem_of_where. split.
    + intros (l & (r & <- & Hr)%in_map_iff & Hm). apply list_elem_of_In in Hr.
      destruct (Hone r Hr) as (m' & Heq & Hm' & _ & E2 & E3). rewrite Heq in Hm.
      destruct Hm as [<-|[]]. destruct (Hhits r Hr) as (_ & Hc & Hp). rewrite <- E3, Hp. unfold of_channel. split; [lia|done].
    + intros [[Hc Hp]%andb_true_iff Hm]. unfold of_channel in Hc.
      pose proof (Hall m Hm ltac:(lia)) as (r & E1 & Hr)%list_elem_of_fmap.
      destruct (Ht r Hr) as (m' & Hm' & E1' & E2 & E3).
      assert (m' = m) as -> by (apply (ids_distinct_eq (messages t)); congruence).
      exists [m]. split; [|by left]. apply in_map_iff. exists r. rewrite E1'. split; [by apply where_id|].
      apply list_elem_of_In, elem_of_where. rewrite E3, Hp. split; [lia|done].
Qed.

(** C14. The search bar's index answers like a scan of the channel: once a
    channel is marked as built, the rows found through the index are exactly
    the messages of the channel whose text, stripped of colours, matches, oldest
    first, whatever was saved, redacted or deleted meanwhile. *)
Theorem search_fts_is_a_scan db ch cid needle :
  fts_reachable db -> roomy db -> ch <> [] -> needle <> [] -> (ch, cid) ∈ names (tbl db) ->
  fts_states (run db) !! cid = Some FTS_BUILT ->
  (scrollback_search_fts db ch needle).2 =
  map (fun m => (msg_id m, msg_text m))
    (where_ (fun m => fts_match (fts_query needle) (strip_color (msg_text m))) (rows_of cid (tbl db))).
Proof.
  intros Hr Hroom Hne Hneedle Hin Hst. destruct (fts_reachable_ok _ Hr) as (Hr' & Hf & [Hix Hrun]).
  pose proof (reachable_ok _ Hr') as Hok. unfold scrollback_search_fts.
  rewrite Hf, bool_decide_eq_false_2 by done. cbn [negb orb].
  destruct (get_channel_id_spec db ch) as (db1 & cid' & -> & Hok1 & Hname & Hmsgs & _ & Hkeep & _ & _ & Hidx); [done..|].
  assert (cid' = cid) as ->.
  { pose proof (lookup_names _ _ _ (ok_names _ Hok1) Hname).
    pose proof (lookup_names _ _ _ (ok_names _ Hok1) (Hkeep _ Hin)). congruence. }
  pose proof (ok_chan_range _ Hok1) as Hrange. rewrite Forall_forall in Hrange.
  apply (list_elem_of_fmap_2 snd) in Hname. specialize (Hrange _ Hname). simpl in Hrange.
  rewrite (proj2 (Z.leb_gt cid 0)) by lia. cbn [snd]. f_equal. rewrite Hmsgs, Hidx.
  pose proof (ok_ids _ Hok) as Hnd. rewrite <- sort_where by done.
  pose proof (search_rows (tbl db) cid (fts_match (fts_query needle)) Hnd Hix (run_built _ _ Hrun cid Hst)) as Hperm.
  apply (key_sorted_unique (where_ (fun m => of_channel cid m && fts_match (fts_query needle) (strip_color (msg_text m)))
    (messages (tbl db)))).
  - by apply ids_distinct_where.
  - by rewrite merge_sort_Permutation.
  - apply merge_sort_Permutation.
  - apply StronglySorted_merge_sort; apply _.
  - apply StronglySorted_merge_sort; apply _.
Qed.

Lemma idle_loop_spec fuel db :
  (work db < fuel)%nat -> fts db = true -> tables_ok (tbl db) -> fts_ok db ->
  exists db', idle_loop fuel db = Some db' /\ fts_ok db' /\ messages (tbl db') = messages (tbl db) /\
    fts_queue (run db') = [] /\ fts_cur_channel (run db') = 0 /\ fts_idle (run db') = false /\
    forall c, fts_states (run db) !! c = Some FTS_BUILDING \/ fts_states (run db) !! c = Some FTS_BUILT ->
      fts_states (run db') !! c = Some FTS_BUILT.
Proof.
  revert db; induction fuel as [|fuel IH]; intros db Hw Hf Ht Hok; [lia|].
  cbn [idle_loop]. pose proof (backfill_tick db Hf Ht Hok) as Htick.
  destruct (fts_backfill_idle db) as [db1 again]. destruct Htick as (Hok1 & Ht1 & Hf1 & Hm1 & Hs1 & Hb1 & Hw1).
  destruct again.
  - destruct (IH db1) as (db' & -> & Hok' & Hm & Hq & Hc & Hi & Hs); [lia|done..|].
    exists db'. split; [done|]. split; [done|]. split; [congruence|]. split; [done|]. split; [done|]. split; [done|].
    intros c [Hc'|Hc']; apply Hs; [by apply Hs1|right; by apply Hb1].
  - destruct Hw1 as (Hq & Hc & Hi). exists db1. do 6 (split; [done|]). intros c [Hc'|Hc']; [|by apply Hb1].
    destruct (Hs1 c Hc') as [Hb|Hb]; [|done].
    destruct Hok1 as [_ Hr1]. destruct (run_building _ _ Hr1 c Hb) as [Hp [Hin| ->]].
    + rewrite Hq in Hin. by apply not_elem_of_nil in Hin.
    + lia.
Qed.

(** C24. The idle backfill finishes: left alone it runs a number of ticks
    bounded by the queued channels and the stored messages, removes itself, and
    every channel that was waiting or in progress is then marked as built with
    all its messages indexed. *)
Theorem fts_backfill_completes db :
  fts_reachable db -> exists db',
  idle_loop (S (work db)) db = Some db' /\
  (work db <= length (fts_queue (run db)) * (length (messages (tbl db)) + 2) + length (messages (tbl db)) + 1)%nat /\
  fts_idle (run db') = false /\ messages (tbl db') = messages (tbl db) /\
  forall c, fts_states (run db) !! c = Some FTS_BUILDING ->
    fts_states (run db') !! c = Some FTS_BUILT /\ all_indexed (tbl db') c.
Proof.
  intros Hr. destruct (fts_reachable_ok _ Hr) as (Hr' & Hf & Hok).
  destruct (idle_loop_spec (S (work db)) db) as (db' & Heq & Hok' & Hm & _ & _ & Hi & Hs);
    [lia|done|by apply db_ok_tables, reachable_ok|done|].
  exists db'. split; [done|]. split.
  { unfold work. pose proof (pending_bound db). case_match; lia. }
  split; [done|]. split; [done|]. intros c Hc. specialize (Hs c (or_introl Hc)). split; [done|].
  by apply Hok'.
Qed.
End index.

(** ** A concrete history *)

(** A channel is queued, written to while it waits, and left to the backfill. *)
Definition fts_history : list call :=
  history ++ [CSchedule "#a"; CSave "#a" 40 None "four and a half" true; CDelete 2].

Lemma fts_reachable_all db cs : fts_reachable db -> all_ok db cs -> fts_reachable (exec_all db cs).
Proof.
  revert db; induction cs as [|c cs IH]; intros db Hr; [done|]. intros (Hroom & Hadm & [db' Hexec] & Hok).
  apply IH; [|done]. unfold step. rewrite Hexec. by eapply fts_reachable_call.
Qed.

Lemma fresh_fts : fts_reachable fresh_db.
Proof. apply fts_reachable_opened; [apply fresh_opened|done| |done]. by constructor; constructor. Qed.

Lemma fts_history_reachable : fts_reachable (exec_all fresh_db fts_history).
Proof. apply fts_reachable_all; [apply fresh_fts|]. unfold fts_history, history. cbn [app]. check_history. Qed.

Lemma fts_built_reachable : fts_reachable (exec_all fresh_db (fts_history ++ [CBackfill])).
Proof.
  apply fts_reachable_all; [apply fresh_fts|]. unfold fts_history, history. cbn [app]. check_history.
Qed.

Lemma fts_backfill_completes_witness :
  let db := exec_all fresh_db fts_history in
  fts_reachable db /\ fts_states (run db) !! 1 = Some FTS_BUILDING /\
  exists db', idle_loop (S (work db)) db = Some db' /\ fts_states (run db') !! 1 = Some FTS_BUILT.
Proof.
  split; [apply fts_history_reachable|]. split; [by vm_compute|].
  destruct (fts_backfill_completes _ fts_history_reachable) as (db' & Hloop & _ & _ & _ & Hs).
  exists db'. split; [done|]. apply Hs. by vm_compute.
Defined.

Lemma search_fts_is_a_scan_witness :
  let db := exec_all fresh_db (fts_history ++ [CBackfill]) in
  fts_reachable db /\ fts_states (run db) !! 1 = Some FTS_BUILT /\
  (scrollback_search_fts db "#a" "four").2 =
    [(4, list_ascii_of_string "four"); (5, list_ascii_of_string "four and a half")].
Proof.
  set (db := exec_all fresh_db (fts_history ++ [CBackfill])).
  split; [apply fts_built_reachable|]. split; [by vm_compute|].
  rewrite (search_fts_is_a_scan db "#a" 1 "four" fts_built_reachable).
  - by vm_compute.
  - by apply (bool_decide_unpack _); vm_compute.
  - done.
  - done.
  - by apply (bool_decide_unpack _); vm_compute.
  - by vm_compute.
Defined.
