(* ===== verification/GapLedger.v ===== *)
(** * The gap ledger (src/common/scrollback.c)

    Stretches of a channel's history that are not stored: recorded when a
    message batch leaves a hole, merged when they touch, narrowed as they are
    filled.  The [gap] rows live in the tables of [Scrollback]. *)
From stdpp Require Import sorting.
From S2P Require Import Prelude Glib Text Scrollback.

Definition SCROLLBACK_GAP_WITNESSED : Z := 0.
Definition SCROLLBACK_GAP_CANDIDATE : Z := 1.
Definition SCROLLBACK_GAP_DEAD : Z := 2.

(** The order in which a SELECT without ORDER BY returns its rows is SQLite's. *)
Class SqliteScan := { scan : list gap -> list gap }.
Class SqliteScanLaws (S : SqliteScan) : Prop := { scan_rows l : scan l ≡ₚ l }.

#[export] Instance scan_ref : SqliteScan := {| scan l := l |}.
#[export] Instance scan_ref_laws : SqliteScanLaws scan_ref.
Proof. by constructor. Qed.

Section ledger.
Context `{Sqlite, SqliteScan}.

(** ** Recording *)

(** [state != 2 AND start_ts <= ?2 AND end_ts >= ?3] *)
Definition touches (cid start end_ : Z) (g : gap) : bool :=
  (gap_channel g =? cid) && negb (gap_state g =? SCROLLBACK_GAP_DEAD) &&
  (start_ts g <=? end_) && (start <=? end_ts g).

(** The union so far: both bounds with their msgids, and the state. *)
Record union_ := Union { u_start : Z; u_start_msgid : option cstr; u_end : Z; u_end_msgid : option cstr; u_state : Z }.

Definition fold_gap (u : union_) (o : gap) : union_ :=
  let '(s, sm) := if start_ts o <? u_start u then (start_ts o, start_msgid o) else (u_start u, u_start_msgid u) in
  let '(e, em) := if u_end u <? end_ts o then (end_ts o, end_msgid o) else (u_end u, u_end_msgid u) in
  Union s sm e em (if gap_state o <? u_state u then gap_state o else u_state u).

Definition gaps_record (cid start : Z) (smid : option cstr) (end_ : Z) (emid : option cstr) (state : Z)
    (gs : list gap) : list gap * Z :=
  let hits := scan (where_ (touches cid start end_) gs) in
  let u := foldl fold_gap (Union start smid end_ emid state) hits in
  let rest := where_ (fun g => negb (existsb (fun o => gap_id o =? gap_id g) hits)) gs in
  let id := new_rowid (map gap_id rest) in
  (rest ++ [Gap id cid (u_start u) (u_start_msgid u) (u_end u) (u_end_msgid u) (u_state u) 0 0], id).

Definition with_gaps (db : scrollback_db) (f : list gap -> list gap) : scrollback_db :=
  set_tbl (set_gaps f) db.

Definition scrollback_gap_record (db : scrollback_db) (channel : cstr) (start : Z) (smid : option cstr)
    (end_ : Z) (emid : option cstr) (state : Z) : scrollback_db * Z :=
  if (start <=? 0) || (end_ <=? start) then (db, -1)
  else
    let '(db, channel_id) := scrollback_get_channel_id db channel in
    if channel_id <=? 0 then (db, -1)
    else
      let '(gs, result) := gaps_record channel_id start smid end_ emid state (gaps (tbl db)) in
      (with_gaps db (fun _ => gs), result).

(** ** Reading *)

Definition start_le (x y : gap) : Prop := start_ts x <= start_ts y.
#[export] Instance start_le_dec x y : Decision (start_le x y).
Proof. unfold start_le. apply _. Defined.

Definition scrollback_gap_list (db : scrollback_db) (channel : cstr) : scrollback_db * list gap :=
  let '(db, channel_id) := scrollback_get_channel_id db channel in
  if channel_id <=? 0 then (db, [])
  else (db, merge_sort start_le (where_ (fun g => gap_channel g =? channel_id) (gaps (tbl db)))).

Definition scrollback_gap_get (db : scrollback_db) (id : Z) : option gap :=
  if id <=? 0 then None else find (fun g => gap_id g =? id) (gaps (tbl db)).

Definition scrollback_set_retention_cutoff (db : scrollback_db) (cutoff : Z) : scrollback_db :=
  Db (tbl db) (channel_id_cache db) (chan_cache db) (fts db) (run db) (if 0 <? cutoff then cutoff else 0).

Definition scrollback_get_retention_cutoff (db : scrollback_db) : Z := retention_cutoff db.

Definition scrollback_gap_is_parked (db : scrollback_db) (g : gap) : bool :=
  (0 <? retention_cutoff db) && (end_ts g <? retention_cutoff db).

(** ** Updates of one row *)

(** [UPDATE gaps SET ... WHERE id = ?] *)
Definition update_gap (id : Z) (f : gap -> gap) (gs : list gap) : list gap :=
  map (fun g => if gap_id g =? id then f g else g) gs.

Definition narrow (new_start : Z) (smid : option cstr) (new_end : Z) (emid : option cstr) (g : gap) : gap :=
  Gap (gap_id g) (gap_channel g)
    (if 0 <? new_start then new_start else start_ts g) (if 0 <? new_start then smid else start_msgid g)
    (if 0 <? new_end then new_end else end_ts g) (if 0 <? new_end then emid else end_msgid g)
    (gap_state g) 0 0.

Definition scrollback_gap_shrink (db : scrollback_db) (id new_start : Z) (smid : option cstr)
    (new_end : Z) (emid : option cstr) : scrollback_db :=
  if id <=? 0 then db
  else
    let db := with_gaps db (update_gap id (narrow new_start smid new_end emid)) in
    with_gaps db (where_ (fun g => negb ((gap_id g =? id) && (end_ts g <=? start_ts g)))).

Definition scrollback_gap_set_state (db : scrollback_db) (id state : Z) : scrollback_db :=
  if id <=? 0 then db
  else with_gaps db (update_gap id (fun g =>
    Gap (gap_id g) (gap_channel g) (start_ts g) (start_msgid g) (end_ts g) (end_msgid g) state
      (attempts g) (last_attempt g))).

(** [now] is [time (NULL)]. *)
Definition scrollback_gap_touch (now : Z) (db : scrollback_db) (id : Z) : scrollback_db * Z :=
  if id <=? 0 then (db, 0)
  else
    let db := with_gaps db (update_gap id (fun g =>
      Gap (gap_id g) (gap_channel g) (start_ts g) (start_msgid g) (end_ts g) (end_msgid g) (gap_state g)
        (attempts g + 1) now)) in
    (db, match find (fun g => gap_id g =? id) (gaps (tbl db)) with
         | Some g => wrap_i32 (attempts g)
         | None => 0
         end).

Definition scrollback_gap_delete (db : scrollback_db) (id : Z) : scrollback_db :=
  if id <=? 0 then db else with_gaps db (where_ (fun g => negb (gap_id g =? id))).

Definition has_msgid (g : gap) : bool :=
  match start_msgid g, end_msgid g with None, None => false | _, _ => true end.

Definition scrollback_gap_drop_msgids (db : scrollback_db) (id : Z) : scrollback_db * bool :=
  if id <=? 0 then (db, false)
  else
    let hit g := (gap_id g =? id) && has_msgid g in
    let changes := sql_count (where_ hit (gaps (tbl db))) in
    (with_gaps db (map (fun g => if hit g then
       Gap (gap_id g) (gap_channel g) (start_ts g) None (end_ts g) None (gap_state g) 0 0 else g)),
     0 <? changes).

(** ** Updates of a channel *)

Definition scrollback_gap_delete_candidates (db : scrollback_db) (channel : cstr) : scrollback_db * Z :=
  let '(db, channel_id) := scrollback_get_channel_id db channel in
  if channel_id <=? 0 then (db, 0)
  else
    let hit g := (gap_channel g =? channel_id) && (gap_state g =? SCROLLBACK_GAP_CANDIDATE) in
    (with_gaps db (where_ (fun g => negb (hit g))), sql_count (where_ hit (gaps (tbl db)))).

Definition scrollback_gap_reset (db : scrollback_db) (channel : cstr) (id : Z) : scrollback_db * Z :=
  let '(db, channel_id) := scrollback_get_channel_id db channel in
  if channel_id <=? 0 then (db, 0)
  else
    let id := if 0 <? id then id else 0 in
    let hit g := (gap_channel g =? channel_id) && ((id =? 0) || (gap_id g =? id)) in
    (with_gaps db (map (fun g => if hit g then
       Gap (gap_id g) (gap_channel g) (start_ts g) None (end_ts g) None SCROLLBACK_GAP_WITNESSED 0 0 else g)),
     sql_count (where_ hit (gaps (tbl db)))).

Definition set_bootstrap (cid : Z) (b : bool) (t : tables) : tables :=
  set_channels (map (fun c => if ch_id c =? cid then ChannelRow (ch_id c) (ch_name c) b (fts_built c) else c)) t.

Definition scrollback_gap_bootstrap_reset (db : scrollback_db) (channel : cstr) : scrollback_db :=
  let '(db, channel_id) := scrollback_get_channel_id db channel in
  if channel_id <=? 0 then db else set_tbl (set_bootstrap channel_id false) db.

Definition scrollback_gap_ordinal (db : scrollback_db) (channel : cstr) (end_ : Z) : scrollback_db * Z :=
  let '(db, channel_id) := scrollback_get_channel_id db channel in
  if channel_id <=? 0 then (db, 0)
  else (db, wrap_i32 (sql_count (where_ (fun m => of_channel channel_id m && (msg_ts m <? end_)) (messages (tbl db))))).

(** ** The bootstrap scan *)

(** One stored message; the pair of the previous one and the count so far. *)
Definition bootstrap_row (channel : cstr) (threshold : Z)
    (st : scrollback_db * Z * option cstr * Z) (m : message) : scrollback_db * Z * option cstr * Z :=
  let '(db, prev_ts, prev_msgid, recorded) := st in
  let ts := msg_ts m in
  let mid := if is_pending m then None else msgid m in
  let '(db, recorded) :=
    if (0 <? prev_ts) && (threshold <=? ts - prev_ts) then
      let '(db, r) := scrollback_gap_record db channel prev_ts prev_msgid ts mid SCROLLBACK_GAP_CANDIDATE in
      (db, if 0 <? r then recorded + 1 else recorded)
    else (db, recorded) in
  (db, ts, mid, recorded).

Definition scrollback_gap_bootstrap (db : scrollback_db) (channel : cstr) (threshold : Z)
    : scrollback_db * Z :=
  if threshold <=? 0 then (db, -1)
  else
    let '(db, channel_id) := scrollback_get_channel_id db channel in
    if channel_id <=? 0 then (db, -1)
    else if match find (fun c => ch_id c =? channel_id) (channels (tbl db)) with
            | Some c => gap_bootstrap_done c
            | None => false
            end
    then (db, -1)
    else
      let rows := merge_sort key_le (where_ (of_channel channel_id) (messages (tbl db))) in
      let '(db, _, _, recorded) := foldl (bootstrap_row channel threshold) (db, 0, None, 0) rows in
      (set_tbl (set_bootstrap channel_id true) db, recorded).
End ledger.
