(* ===== verification/GapLedgerSpec.v ===== *)
(** * Correctness of the gap ledger

    The live gaps of a channel stay separated stretches of time; recording adds
    exactly the recorded stretch to what is known to be missing. *)
From stdpp Require Import sorting.
From S2P Require Import Prelude Glib Text Scrollback ScrollbackSpec GapLedger.

(** ** Stretches of time *)

Definition live (g : gap) : Prop := gap_state g <> SCROLLBACK_GAP_DEAD.

(** The times of a gap; its bounds are the stored messages on either side. *)
#[export] Instance elem_of_gap : ElemOf Z gap := fun t g => start_ts g <= t <= end_ts g.

(** What a channel is known to miss. *)
Definition missing (cid : Z) (gs : list gap) (t : Z) : Prop :=
  exists g, g ∈ gs /\ gap_channel g = cid /\ live g /\ t ∈ g.

Definition apart (x y : gap) : Prop := end_ts x < start_ts y \/ end_ts y < start_ts x.

(** Row ids identify gaps, live gaps are stretches of positive times, and two
    live gaps of a channel do not touch. *)
Record ledger_ok (gs : list gap) : Prop := {
  lg_ids : NoDup (map gap_id gs);
  lg_pos : Forall (fun g => 0 < gap_id g) gs;
  lg_shape : Forall (fun g => live g -> 0 < start_ts g < end_ts g) gs;
  lg_apart x y : x ∈ gs -> y ∈ gs -> live x -> live y -> gap_channel x = gap_channel y ->
    gap_id x <> gap_id y -> apart x y }.

Definition gap_room (gs : list gap) : Prop := Forall (fun g => gap_id g < INT64_MAX) gs.

Lemma gap_eq gs x y : NoDup (map gap_id gs) -> x ∈ gs -> y ∈ gs -> gap_id x = gap_id y -> x = y.
Proof.
  intros Hnd Hx Hy He. induction gs as [|z l IH]; [by apply not_elem_of_nil in Hx|].
  cbn [map] in Hnd. apply NoDup_cons in Hnd as [Hz Hnd].
  apply elem_of_cons in Hx as [-> |Hx], Hy as [-> |Hy]; [done|..|by apply IH].
  - destruct Hz. rewrite He. by apply list_elem_of_fmap_2.
  - destruct Hz. rewrite <- He. by apply list_elem_of_fmap_2.
Qed.

Lemma where_ids p gs : NoDup (map gap_id gs) -> NoDup (map gap_id (where_ p gs)).
Proof.
  unfold where_. induction gs as [|x l IH]; [done|]. cbn [map]. intros [Hx Hnd]%NoDup_cons.
  simpl. case_match; [|by apply IH]. cbn [map]. apply NoDup_cons. split; [|by apply IH].
  intros Hin. apply Hx. apply list_elem_of_fmap in Hin as (y & -> & Hy).
  apply list_elem_of_fmap_2. by apply (elem_of_where p) in Hy as [_ ?].
Qed.

(** ** Smaller ledgers *)

Lemma ledger_where p gs : ledger_ok gs -> ledger_ok (where_ p gs).
Proof.
  intros [H1 H2 H3 H4]. constructor; [by apply where_ids|by apply Forall_where..|].
  intros x y [_ Hx]%elem_of_where [_ Hy]%elem_of_where. by apply H4.
Qed.

(** Each row replaced by one that is not larger. *)
Record shrinks (x y : gap) : Prop := {
  shrinks_id : gap_id y = gap_id x;
  shrinks_channel : gap_channel y = gap_channel x;
  shrinks_live : live y -> live x;
  shrinks_in : live y -> start_ts x <= start_ts y /\ end_ts y <= end_ts x }.

Lemma ledger_map f gs :
  ledger_ok gs -> (forall x, x ∈ gs -> shrinks x (f x)) ->
  (forall x, x ∈ gs -> live (f x) -> start_ts (f x) < end_ts (f x)) -> ledger_ok (map f gs).
Proof.
  intros [H1 H2 H3 H4] Hs Hne. rewrite Forall_forall in *.
  assert (Hids : map gap_id (map f gs) = map gap_id gs).
  { rewrite map_map. clear -Hs. induction gs as [|x l IH]; [done|]. simpl.
    rewrite (shrinks_id _ _ (Hs x ltac:(by left))). f_equal. apply IH. intros y Hy. apply Hs. by right. }
  constructor; rewrite ?Hids; try done.
  - apply Forall_forall. intros y (x & -> & Hx)%list_elem_of_fmap. rewrite (shrinks_id _ _ (Hs x Hx)). by apply H2.
  - apply Forall_forall. intros y (x & -> & Hx)%list_elem_of_fmap. intros Hl. specialize (Hne x Hx Hl).
    destruct (Hs x Hx) as [_ _ Hlive Hin]. specialize (Hin Hl). specialize (H3 x Hx (Hlive Hl)). simpl in *. lia.
  - intros y1 y2 (x1 & -> & Hx1)%list_elem_of_fmap (x2 & -> & Hx2)%list_elem_of_fmap Hl1 Hl2 Hc Hid.
    destruct (Hs x1 Hx1) as [E1 C1 L1 I1]. destruct (Hs x2 Hx2) as [E2 C2 L2 I2].
    destruct (I1 Hl1) as [A1 B1]. destruct (I2 Hl2) as [A2 B2].
    destruct (H4 x1 x2) as [Ha|Ha]; auto; try congruence; unfold apart; lia.
Qed.

(** ** The union *)

Section union.
Context (cid start end_ : Z) (smid emid : option cstr) (state : Z).

Record union_of (hits : list gap) (u : union_) : Prop := {
  un_span t : u_start u <= t <= u_end u <-> start <= t <= end_ \/ exists g, g ∈ hits /\ t ∈ g;
  un_start : u_start u = start /\ u_start_msgid u = smid \/
    exists g, g ∈ hits /\ u_start u = start_ts g /\ u_start_msgid u = start_msgid g;
  un_end : u_end u = end_ /\ u_end_msgid u = emid \/
    exists g, g ∈ hits /\ u_end u = end_ts g /\ u_end_msgid u = end_msgid g;
  un_state : u_state u = foldr Z.min state (map gap_state hits) }.

Lemma foldr_min_snoc l x s : foldr Z.min s (l ++ [x]) = Z.min x (foldr Z.min s l).
Proof. induction l as [|y l IH]; simpl; [lia|]. rewrite IH. lia. Qed.

(** Folding the touching gaps one after the other gives the union. *)
Lemma fold_union hits :
  start <= end_ -> Forall (fun g => start_ts g <= end_ts g /\ start_ts g <= end_ /\ start <= end_ts g) hits ->
  union_of hits (foldl fold_gap (Union start smid end_ emid state) hits).
Proof.
  intros Hse. induction hits as [|g hits IH] using rev_ind; intros Hall.
  { simpl. constructor; simpl; auto. intros t. split; [by left|].
    intros [?|(g & Hg & _)]; [done|by apply not_elem_of_nil in Hg]. }
  apply Forall_app in Hall as [Hall [Hg _]%Forall_cons]. destruct (IH Hall) as [H1 H2 H3 H4]. clear IH.
  rewrite foldl_app. simpl foldl. set (u := foldl fold_gap _ hits) in *. unfold fold_gap.
  assert (Hu1 : u_start u <= start <= u_end u) by (apply H1; left; lia).
  assert (Hu2 : u_start u <= end_ <= u_end u) by (apply H1; left; lia).
  assert (Hmem : forall x, x ∈ hits -> x ∈ hits ++ [g]) by (intros; apply elem_of_app; by left).
  assert (Hlast : g ∈ hits ++ [g]) by (apply elem_of_app; right; by left).
  constructor.
  - intros t. transitivity (u_start u <= t <= u_end u \/ t ∈ g).
    + unfold elem_of, elem_of_gap. destruct (Z.ltb_spec (start_ts g) (u_start u)), (Z.ltb_spec (u_end u) (end_ts g));
        simpl; lia.
    + rewrite H1. split.
      * intros [[?|(x & Hx & ?)]|?]; [by left|right; eauto|right; eauto].
      * intros [?|(x & [Hx| ->%list_elem_of_singleton]%elem_of_app & Ht)]; [by left; left|left; right; eauto|by right].
  - destruct (start_ts g <? u_start u), (u_end u <? end_ts g); simpl; try (right; by eauto);
      (destruct H2 as [?|(x & ? & ?)]; [by left|right; eauto]).
  - destruct (start_ts g <? u_start u), (u_end u <? end_ts g); simpl; try (right; by eauto);
      (destruct H3 as [?|(x & ? & ?)]; [by left|right; eauto]).
  - rewrite map_app. simpl. rewrite foldr_min_snoc, <- H4.
    destruct (start_ts g <? u_start u), (u_end u <? end_ts g); simpl; case_match; lia.
Qed.
End union.

(** ** Recording *)

Section record_spec.
Context `{SqliteLaws, SqliteScanLaws}.

Lemma foldr_min_in s l : foldr Z.min s l = s \/ foldr Z.min s l ∈ l.
Proof.
  induction l as [|x l [IH|IH]]; simpl; [by left|..].
  - destruct (Z.min_spec x (foldr Z.min s l)) as [[_ ->]|[_ ->]]; [right; by left|by left].
  - destruct (Z.min_spec x (foldr Z.min s l)) as [[_ ->]|[_ ->]]; right; [by left|by right].
Qed.

Lemma foldr_min_perm s l k : l ≡ₚ k -> foldr Z.min s l = foldr Z.min s k.
Proof. induction 1; simpl; lia. Qed.

Lemma touches_spec cid start end_ g :
  touches cid start end_ g = true <->
  gap_channel g = cid /\ live g /\ start_ts g <= end_ /\ start <= end_ts g.
Proof.
  unfold touches, live. rewrite !andb_true_iff, negb_true_iff, Z.eqb_eq, Z.eqb_neq, !Z.leb_le. tauto.
Qed.

(** The row that a recording leaves and the rows it keeps. *)
Lemma gaps_record_spec cid start smid end_ emid state gs gs' id :
  ledger_ok gs -> gap_room gs -> 0 < start < end_ -> state <> SCROLLBACK_GAP_DEAD ->
  gaps_record cid start smid end_ emid state gs = (gs', id) ->
  exists n rest, gs' = rest ++ [n] /\ gap_id n = id /\ 0 < id /\ gap_channel n = cid /\ live n /\
    rest = where_ (fun g => negb (touches cid start end_ g)) gs /\
    union_of start end_ smid emid state (where_ (touches cid start end_) gs)
      (Union (start_ts n) (start_msgid n) (end_ts n) (end_msgid n) (gap_state n)) /\
    ledger_ok gs'.
Proof.
  intros Hok Hroom Hse Hst. unfold gaps_record. set (sel := where_ (touches cid start end_) gs).
  pose proof (scan_rows sel) as Hscan. set (hits := scan sel) in *. destruct Hok as [H1 H2 H3 H4].
  assert (Hsel : forall g, g ∈ hits <-> g ∈ gs /\ gap_channel g = cid /\ live g /\ start_ts g <= end_ /\ start <= end_ts g).
  { intros g. rewrite Hscan. unfold sel. rewrite elem_of_where, touches_spec. tauto. }
  rewrite Forall_forall in H2, H3.
  assert (Hu : union_of start end_ smid emid state hits (foldl fold_gap (Union start smid end_ emid state) hits)).
  { apply fold_union; [lia|]. apply Forall_forall. intros g (Hg & _ & Hl & Hb)%Hsel.
    specialize (H3 g Hg Hl). simpl in H3. lia. }
  set (u := foldl fold_gap _ hits) in *.
  assert (Hrest : where_ (fun g => negb (existsb (fun o => gap_id o =? gap_id g) hits)) gs =
    where_ (fun g => negb (touches cid start end_ g)) gs).
  { unfold where_. apply List.filter_ext_in. intros g Hg%list_elem_of_In. f_equal. apply eq_true_iff_eq.
    rewrite existsb_exists, touches_spec. split.
    - intros (o & Ho & Heq). apply list_elem_of_In, Hsel in Ho as (Hog & Ho).
      by rewrite <- (gap_eq gs o g) by (done || lia).
    - intros Ht. exists g. split; [apply list_elem_of_In; by apply Hsel|lia]. }
  rewrite Hrest. set (rest := where_ (fun g => negb (touches cid start end_ g)) gs) in *. intros [= <- <-].
  set (id := new_rowid (map gap_id rest)). set (n := Gap id cid (u_start u) (u_start_msgid u) (u_end u) (u_end_msgid u) (u_state u) 0 0).
  assert (Hrg : forall r, r ∈ rest -> r ∈ gs /\ touches cid start end_ r = false).
  { intros r [Ht Hr]%elem_of_where. by apply negb_true_iff in Ht. }
  assert (Hid : id = 1 + foldr Z.max 0 (map gap_id rest)).
  { apply new_rowid_next. apply Forall_fmap, Forall_forall. intros r [Hr _]%Hrg. simpl.
    unfold gap_room in Hroom. rewrite Forall_forall in Hroom. specialize (H2 r Hr). specialize (Hroom r Hr).
    simpl in *. lia. }
  pose proof (foldr_max_nonneg (map gap_id rest)) as Hmax0.
  assert (Hlive : live n).
  { unfold live, n. simpl. rewrite (un_state _ _ _ _ _ _ _ Hu).
    destruct (foldr_min_in state (map gap_state hits)) as [->|(g & -> & Hg)%list_elem_of_fmap]; [done|].
    by apply Hsel in Hg as (_ & _ & Hl & _). }
  assert (Hspan : start_ts n <= start /\ end_ <= end_ts n).
  { assert (A : u_start u <= start <= u_end u) by (apply (un_span _ _ _ _ _ _ _ Hu); left; lia).
    assert (B : u_start u <= end_ <= u_end u) by (apply (un_span _ _ _ _ _ _ _ Hu); left; lia). simpl. lia. }
  assert (Hpos : 0 < start_ts n).
  { destruct (un_start _ _ _ _ _ _ _ Hu) as [[E _]|(g & Hg & E & _)]; simpl; rewrite E; [lia|].
    apply Hsel in Hg as (Hg & _ & Hl & _). by apply (H3 g). }
  assert (Hapart : forall r, r ∈ rest -> live r -> gap_channel r = cid -> apart r n).
  { intros r Hr Hl Hc. destruct (Hrg r Hr) as [Hrgs Ht]. apply not_true_iff_false in Ht. rewrite touches_spec in Ht.
    pose proof (H3 r Hrgs Hl) as Hrs. simpl in Hrs. unfold apart. simpl.
    assert (Hhit : forall h, h ∈ hits -> apart r h /\ start_ts h <= end_ /\ start <= end_ts h).
    { intros h Hh. pose proof (proj1 (Hsel h) Hh) as (Hhg & Hhc & Hhl & Hhb). split; [|done].
      apply H4; try done; [congruence|]. intros Heq. rewrite (gap_eq gs r h) in Ht by done. tauto. }
    destruct (Z.le_gt_cases (start_ts r) end_) as [Hle|Hgt].
    - left. assert (Hlt : end_ts r < start) by (destruct (Z.le_gt_cases start (end_ts r)); [tauto|lia]).
      destruct (un_start _ _ _ _ _ _ _ Hu) as [[-> _]|(h & Hh & -> & _)]; [done|].
      destruct (Hhit h Hh) as [[Ha|Ha] Hb]; [done|lia].
    - right. destruct (un_end _ _ _ _ _ _ _ Hu) as [[-> _]|(h & Hh & -> & _)]; [done|].
      destruct (Hhit h Hh) as [[Ha|Ha] Hb]; [lia|done]. }
  exists n, rest. split; [done|]. split; [done|]. split; [lia|]. split; [done|]. split; [done|]. split; [done|].
  split.
  { destruct Hu as [U1 U2 U3 U4]. unfold n. simpl. constructor; simpl.
    - intros t. rewrite U1. by setoid_rewrite Hscan.
    - destruct U2 as [?|(g & Hg & ?)]; [by left|right]. exists g. by rewrite <- Hscan.
    - destruct U3 as [?|(g & Hg & ?)]; [by left|right]. exists g. by rewrite <- Hscan.
    - rewrite U4. apply foldr_min_perm. by rewrite Hscan. }
  constructor.
  - rewrite map_app. apply NoDup_app. split; [by apply where_ids|]. split; [|apply NoDup_singleton].
    intros i Hi ->%list_elem_of_singleton. apply foldr_max_bound in Hi. simpl in Hi. lia.
  - apply Forall_app. split; [apply Forall_forall; intros r [Hr _]%Hrg; by apply H2|].
    constructor; [simpl; lia|done].
  - apply Forall_app. split; [apply Forall_forall; intros r [Hr _]%Hrg; by apply H3|].
    constructor; [|done]. intros _. lia.
  - intros x y [Hx| ->%list_elem_of_singleton]%elem_of_app [Hy| ->%list_elem_of_singleton]%elem_of_app Hlx Hly Hc Hne.
    + apply H4; try done; by apply Hrg.
    + by apply Hapart.
    + destruct (Hapart y Hy Hly) as [?|?]; [done|by right|by left].
    + done.
Qed.
End record_spec.

(** ** Calls of the ledger *)

Lemma get_channel_gaps `{Sqlite} db n : gaps (tbl (scrollback_get_channel_id db n).1) = gaps (tbl db).
Proof.
  unfold scrollback_get_channel_id. destruct n as [|x n]; [done|]. destruct (channel_id_cache db !! _); [done|].
  set (t := stmt_channel_insert (x :: n)). assert (Ht : gaps (t (tbl db)) = gaps (tbl db)).
  { unfold t, stmt_channel_insert. by destruct (existsb _ _). }
  cbn zeta. by destruct (stmt_channel_lookup _ _).
Qed.

Section calls.
Context `{Sqlite, SqliteScan}.

Inductive ledger_call :=
| LRecord (channel : cstr) (start : Z) (smid : option cstr) (end_ : Z) (emid : option cstr) (state : Z)
| LShrink (id new_start : Z) (smid : option cstr) (new_end : Z) (emid : option cstr)
| LDead (id : Z)
| LTouch (now id : Z)
| LDelete (id : Z)
| LDropMsgids (id : Z)
| LDeleteCandidates (channel : cstr)
| LBootstrapReset (channel : cstr)
| LReset (channel : cstr) (id : Z).

Definition ledger_exec (db : scrollback_db) (c : ledger_call) : scrollback_db :=
  match c with
  | LRecord ch s sm e em st => (scrollback_gap_record db ch s sm e em st).1
  | LShrink id s sm e em => scrollback_gap_shrink db id s sm e em
  | LDead id => scrollback_gap_set_state db id SCROLLBACK_GAP_DEAD
  | LTouch now id => (scrollback_gap_touch now db id).1
  | LDelete id => scrollback_gap_delete db id
  | LDropMsgids id => (scrollback_gap_drop_msgids db id).1
  | LDeleteCandidates ch => (scrollback_gap_delete_candidates db ch).1
  | LBootstrapReset ch => scrollback_gap_bootstrap_reset db ch
  | LReset ch id => (scrollback_gap_reset db ch id).1
  end.

(** The rows a reset revives: one of the channel, or all for no id. *)
Definition revived (cid id : Z) (g : gap) : bool :=
  (gap_channel g =? cid) && (((if 0 <? id then id else 0) =? 0) || (gap_id g =? (if 0 <? id then id else 0))).

(** They are stretches and touch neither a live gap nor each other. *)
Definition reset_apart (cid id : Z) (gs : list gap) : Prop :=
  Forall (fun x => revived cid id x = true -> 0 < start_ts x < end_ts x /\
    Forall (fun y => gap_channel y = cid -> gap_id y <> gap_id x -> live y \/ revived cid id y = true -> apart x y) gs) gs.

(** Callers record live gaps, a shrink moves a bound inwards, and a reset revives no
    gap that touches another ([gap_reset_overlaps] shows what happens else). *)
Definition ledger_admissible (db : scrollback_db) (c : ledger_call) : Prop :=
  match c with
  | LRecord _ _ _ _ _ st => st <> SCROLLBACK_GAP_DEAD
  | LShrink id s _ e _ =>
      Forall (fun g => gap_id g = id -> (0 < s -> start_ts g <= s) /\ (0 < e -> e <= end_ts g)) (gaps (tbl db))
  | LReset ch id => reset_apart (scrollback_get_channel_id db ch).2 id (gaps (tbl db))
  | _ => True
  end.

Fixpoint ledger_all_ok (db : scrollback_db) (cs : list ledger_call) : Prop :=
  match cs with
  | [] => True
  | c :: cs => gap_room (gaps (tbl db)) /\ ledger_admissible db c /\ ledger_all_ok (ledger_exec db c) cs
  end.
End calls.

Section safety.
Context `{SqliteLaws, SqliteScanLaws}.

Lemma update_ok id f gs :
  ledger_ok gs -> (forall x, x ∈ gs -> gap_id x = id -> shrinks x (f x)) ->
  (forall x, x ∈ gs -> gap_id x = id -> live (f x) -> start_ts (f x) < end_ts (f x)) ->
  ledger_ok (update_gap id f gs).
Proof.
  intros Hok Hs Hne. apply ledger_map; [done|..]; intros x Hx; case_match eqn:Hid.
  - apply Hs; [done|lia].
  - constructor; auto; lia.
  - apply Hne; [done|lia].
  - intros Hl. pose proof (lg_shape _ Hok) as Hsh. rewrite Forall_forall in Hsh. specialize (Hsh x Hx Hl). simpl in Hsh. lia.
Qed.

(** Rows only change in fields the ledger's shape does not depend on. *)
Lemma same_shape_ok f gs :
  ledger_ok gs ->
  (forall x, gap_id (f x) = gap_id x /\ gap_channel (f x) = gap_channel x /\ start_ts (f x) = start_ts x /\
    end_ts (f x) = end_ts x /\ (live (f x) -> live x)) -> ledger_ok (map f gs).
Proof.
  intros Hok Hf. apply ledger_map; [done|..]; intros x Hx; destruct (Hf x) as (A & B & C & D & E).
  - constructor; try done; lia.
  - intros Hl. pose proof (lg_shape _ Hok) as Hsh. rewrite Forall_forall in Hsh.
    specialize (Hsh x Hx (E Hl)). simpl in Hsh. lia.
Qed.

(** A narrowed row that came out inverted is deleted by the second statement. *)
Lemma shrink_rows_ok id s sm e em gs :
  ledger_ok gs ->
  Forall (fun g => gap_id g = id -> (0 < s -> start_ts g <= s) /\ (0 < e -> e <= end_ts g)) gs ->
  ledger_ok (where_ (fun g => negb ((gap_id g =? id) && (end_ts g <=? start_ts g)))
    (update_gap id (narrow s sm e em) gs)).
Proof.
  intros Hok Hall. rewrite Forall_forall in Hall.
  set (inverted g := (gap_id g =? id) && (end_ts (narrow s sm e em g) <=? start_ts (narrow s sm e em g))).
  assert (Heq : where_ (fun g => negb ((gap_id g =? id) && (end_ts g <=? start_ts g)))
      (update_gap id (narrow s sm e em) gs) =
    update_gap id (narrow s sm e em) (where_ (fun g => negb (inverted g)) gs)).
  { clear. unfold where_, update_gap, inverted. induction gs as [|x l IH]; [done|]. cbn [map List.filter].
    destruct (gap_id x =? id) eqn:Hx; cbn [narrow gap_id]; rewrite Hx; cbn [negb andb]; [|cbn [map]; by rewrite Hx, IH].
    destruct (end_ts _ <=? start_ts _); cbn [negb map]; [done|]. by rewrite Hx, IH. }
  rewrite Heq. apply update_ok; [by apply ledger_where|..]; intros x [Hi Hx]%elem_of_where Hid.
  - destruct (Hall x Hx Hid) as [H1' H2']. constructor; try done. simpl. intros _. repeat case_match; lia.
  - intros _. apply negb_true_iff in Hi. unfold inverted in Hi. by rewrite Hid, Z.eqb_refl, andb_true_l, Z.leb_gt in Hi.
Qed.

Lemma reset_rows_ok cid id gs :
  ledger_ok gs -> reset_apart cid id gs ->
  ledger_ok (map (fun g => if revived cid id g then
    Gap (gap_id g) (gap_channel g) (start_ts g) None (end_ts g) None SCROLLBACK_GAP_WITNESSED 0 0 else g) gs).
Proof.
  intros [H1' H2' H3' H4'] Hr. set (f := fun g : gap => _). unfold reset_apart in Hr. rewrite Forall_forall in *.
  assert (Hf : forall x, gap_id (f x) = gap_id x /\ gap_channel (f x) = gap_channel x /\ start_ts (f x) = start_ts x /\
    end_ts (f x) = end_ts x /\ (revived cid id x = false -> f x = x)) by (intros x; unfold f; by case_match).
  assert (Hids : map gap_id (map f gs) = map gap_id gs).
  { rewrite map_map. apply map_ext. intros x. apply Hf. }
  constructor; rewrite ?Hids; [done|..].
  - apply Forall_forall. intros y (x & -> & Hx)%list_elem_of_fmap. destruct (Hf x) as (-> & _). by apply H2'.
  - apply Forall_forall. intros y (x & -> & Hx)%list_elem_of_fmap. destruct (Hf x) as (_ & _ & -> & -> & He). intros Hl.
    destruct (revived cid id x) eqn:Ex; [by apply (Hr x Hx)|]. rewrite He in Hl by done. by apply H3'.
  - intros a b (x & -> & Hx)%list_elem_of_fmap (y & -> & Hy)%list_elem_of_fmap.
    destruct (Hf x) as (Ax & Bx & Cx & Dx & Ex), (Hf y) as (Ay & By_ & Cy & Dy & Ey).
    unfold apart. rewrite Ax, Bx, Cx, Dx, Ay, By_, Cy, Dy. intros Hlx Hly Hch Hid.
    assert (Hrev : forall x y, x ∈ gs -> y ∈ gs -> revived cid id x = true -> gap_channel x = gap_channel y -> gap_id x <> gap_id y ->
      live (f y) -> (revived cid id y = false -> f y = y) -> apart x y).
    { clear - Hr. intros x y Hx Hy Ex Hch Hid Hl Ey. destruct (Hr x Hx Ex) as [_ Ha]. rewrite Forall_forall in Ha.
      assert (Hc : gap_channel x = cid) by (unfold revived in Ex; apply andb_prop in Ex as [Ex _]; by apply Z.eqb_eq).
      apply (Ha y Hy); [congruence|congruence|]. destruct (revived cid id y); [by right|left]. by rewrite Ey in Hl. }
    destruct (revived cid id x) eqn:Rx; [apply (Hrev x y); done|]. destruct (revived cid id y) eqn:Ry.
    + assert (apart y x) as [?|?] by (apply (Hrev y x Hy Hx Ry); [by symmetry|congruence|done|by rewrite Rx]); [by right|by left].
    + rewrite Ex in Hlx by done. rewrite Ey in Hly by done. by apply (H4' x y).
Qed.

Lemma ledger_exec_ok db c :
  ledger_ok (gaps (tbl db)) -> gap_room (gaps (tbl db)) -> ledger_admissible db c ->
  ledger_ok (gaps (tbl (ledger_exec db c))).
Proof.
  intros Hok Hroom Hadm. destruct c; cbn [ledger_exec ledger_admissible] in *.
  - unfold scrollback_gap_record. destruct ((start <=? 0) || (end_ <=? start)) eqn:Hb; [done|]. pose proof (get_channel_gaps db channel) as Hg.
    destruct (scrollback_get_channel_id db channel) as [db1 cid]. simpl in Hg.
    destruct (cid <=? 0); [by simpl; rewrite Hg|]. rewrite Hg.
    destruct (gaps_record _ _ _ _ _ _ _) as [gs' r] eqn:Hrec.
    by apply gaps_record_spec in Hrec as (n & rest & _ & _ & _ & _ & _ & _ & _ & ?); [|done|done|lia|done].
  - unfold scrollback_gap_shrink. case_match; [done|]. by apply shrink_rows_ok.
  - unfold scrollback_gap_set_state. case_match; [done|]. apply same_shape_ok; [done|]. intros x. by case_match.
  - unfold scrollback_gap_touch. case_match; [done|]. apply same_shape_ok; [done|]. intros x. case_match; by split_and!.
  - unfold scrollback_gap_delete. case_match; [done|]. by apply ledger_where.
  - unfold scrollback_gap_drop_msgids. case_match; [done|]. apply same_shape_ok; [done|].
    intros x. case_match; by split_and!.
  - unfold scrollback_gap_delete_candidates. pose proof (get_channel_gaps db channel) as Hg.
    destruct (scrollback_get_channel_id db channel) as [db1 cid]. simpl in Hg.
    destruct (cid <=? 0); simpl; rewrite Hg; [done|].
    by apply ledger_where.
  - unfold scrollback_gap_bootstrap_reset. pose proof (get_channel_gaps db channel) as Hg.
    destruct (scrollback_get_channel_id db channel) as [db1 cid]. simpl in Hg.
    destruct (cid <=? 0); simpl; by rewrite Hg.
  - unfold scrollback_gap_reset. pose proof (get_channel_gaps db channel) as Hg.
    destruct (scrollback_get_channel_id db channel) as [db1 cid]. simpl in Hg, Hadm.
    destruct (cid <=? 0); simpl; rewrite Hg; [done|]. by apply reset_rows_ok.
Qed.
End safety.

(** ** What recording promises *)

Section promises.
Context `{SqliteLaws, SqliteScanLaws}.

Lemma find_key {A} (key : A -> Z) gs g : NoDup (map key gs) -> g ∈ gs -> find (fun x => key x =? key g) gs = Some g.
Proof.
  induction gs as [|x l IH]; [by intros _ ?%not_elem_of_nil|]. cbn [map find]. intros [Hx Hnd]%NoDup_cons.
  intros [-> |Hin]%elem_of_cons; [by rewrite Z.eqb_refl|]. case_match eqn:He; [|by apply IH].
  destruct Hx. apply Z.eqb_eq in He. rewrite He. by apply list_elem_of_fmap_2.
Qed.

(** The rows of a successful recording. *)
Lemma record_rows db db1 cid channel start smid end_ emid state :
  ledger_ok (gaps (tbl db)) -> gap_room (gaps (tbl db)) -> state <> SCROLLBACK_GAP_DEAD ->
  0 < start < end_ -> scrollback_get_channel_id db channel = (db1, cid) -> 0 < cid ->
  exists n, scrollback_gap_record db channel start smid end_ emid state =
      (with_gaps db1 (fun _ => where_ (fun g => negb (touches cid start end_ g)) (gaps (tbl db)) ++ [n]), gap_id n) /\
    0 < gap_id n /\ gap_channel n = cid /\ live n /\
    union_of start end_ smid emid state (where_ (touches cid start end_) (gaps (tbl db)))
      (Union (start_ts n) (start_msgid n) (end_ts n) (end_msgid n) (gap_state n)) /\
    ledger_ok (where_ (fun g => negb (touches cid start end_ g)) (gaps (tbl db)) ++ [n]).
Proof.
  intros Hok Hroom Hst Hse Hget Hcid. unfold scrollback_gap_record.
  replace ((start <=? 0) || (end_ <=? start)) with false by lia. rewrite Hget.
  pose proof (get_channel_gaps db channel) as Hg. rewrite Hget in Hg. simpl in Hg. rewrite Hg.
  replace (cid <=? 0) with false by lia. destruct (gaps_record _ _ _ _ _ _ _) as [gs' id] eqn:Hrec.
  apply gaps_record_spec in Hrec as (n & rest & -> & Hid & Hpos & Hc & Hl & -> & Hu & Hok'); try done.
  exists n. subst id. by split_and!.
Qed.

Lemma record_missing cid start end_ smid emid state gs n t :
  gap_channel n = cid -> live n -> start <= end_ ->
  union_of start end_ smid emid state (where_ (touches cid start end_) gs)
      (Union (start_ts n) (start_msgid n) (end_ts n) (end_msgid n) (gap_state n)) ->
  missing cid (where_ (fun g => negb (touches cid start end_ g)) gs ++ [n]) t <->
  missing cid gs t \/ start <= t <= end_.
Proof.
  intros Hc Hl Hse [Hspan _ _ _]. unfold missing. split.
  - intros (g & [[Hf Hg]%elem_of_where| ->%list_elem_of_singleton]%elem_of_app & Hgc & Hgl & Ht); [by left; eauto|].
    apply (Hspan t) in Ht as [?|(h & [Hh Hhg]%elem_of_where & Ht)]; [by right|left].
    apply touches_spec in Hh as (? & ? & _). eauto.
  - intros [(g & Hg & Hgc & Hgl & Ht)|Ht].
    + destruct (touches cid start end_ g) eqn:Hto.
      * exists n. split_and!; try done; [apply elem_of_app; right; by left|]. apply Hspan. right. exists g.
        split; [by apply elem_of_where|done].
      * exists g. split_and!; try done. apply elem_of_app. left. apply elem_of_where. by rewrite Hto.
    + exists n. split_and!; try done; [apply elem_of_app; right; by left|]. apply Hspan. by left.
Qed.

(** C16. Recording a hole adds exactly that stretch of time to what the channel
    is known to miss: bounds in the wrong order change nothing and return -1;
    otherwise a live row with the returned id covers the stretch, each of its
    bounds comes with the message id it was recorded with, its state is the
    least of the merged ones, the live gaps stay apart, and dead gaps and the
    gaps of other channels are untouched. *)
Theorem gap_record_adds_the_stretch db db1 cid channel start smid end_ emid state :
  ledger_ok (gaps (tbl db)) -> gap_room (gaps (tbl db)) -> state <> SCROLLBACK_GAP_DEAD ->
  scrollback_get_channel_id db channel = (db1, cid) -> 0 < cid ->
  let '(db', id) := scrollback_gap_record db channel start smid end_ emid state in
  if decide (0 < start < end_) then
    ledger_ok (gaps (tbl db')) /\
    (forall t, missing cid (gaps (tbl db')) t <-> missing cid (gaps (tbl db)) t \/ start <= t <= end_) /\
    (forall g, gap_channel g <> cid \/ ~ live g -> g ∈ gaps (tbl db') <-> g ∈ gaps (tbl db)) /\
    exists n, scrollback_gap_get db' id = Some n /\ gap_channel n = cid /\ live n /\
      start_ts n <= start /\ end_ <= end_ts n /\
      (start_ts n = start /\ start_msgid n = smid \/ exists g, g ∈ gaps (tbl db) /\
        touches cid start end_ g = true /\ start_ts n = start_ts g /\ start_msgid n = start_msgid g) /\
      (end_ts n = end_ /\ end_msgid n = emid \/ exists g, g ∈ gaps (tbl db) /\
        touches cid start end_ g = true /\ end_ts n = end_ts g /\ end_msgid n = end_msgid g) /\
      gap_state n = foldr Z.min state (map gap_state (where_ (touches cid start end_) (gaps (tbl db))))
  else db' = db /\ id = -1.
Proof.
  intros Hok Hroom Hst Hget Hcid. destruct (decide (0 < start < end_)) as [Hse|Hse].
  2: { unfold scrollback_gap_record. by replace ((start <=? 0) || (end_ <=? start)) with true by lia. }
  destruct (record_rows db db1 cid channel start smid end_ emid state) as (n & -> & Hpos & Hc & Hl & Hu & Hok'); try done.
  split; [done|]. split; [intros t; apply (record_missing cid start end_ smid emid state); [done..|lia|done]|]. split.
  - intros g Hg. simpl. rewrite elem_of_app, list_elem_of_singleton, elem_of_where, negb_true_iff. split.
    + intros [[_ ?]| ->]; [done|]. by destruct Hg.
    + intros Hin. left. split; [|done]. apply not_true_iff_false. rewrite touches_spec. destruct Hg; tauto.
  - exists n. destruct Hu as [U1 U2 U3 U4]. simpl in U1, U2, U3, U4.
    split; [|split_and!; try done].
    + unfold scrollback_gap_get. replace (gap_id n <=? 0) with false by lia. apply find_key; [by apply lg_ids|].
      simpl. apply elem_of_app. right. by left.
    + assert (start_ts n <= start <= end_ts n) by (apply U1; left; lia). lia.
    + assert (start_ts n <= end_ <= end_ts n) by (apply U1; left; lia). lia.
    + destruct U2 as [?|(g & [Ht Hg]%elem_of_where & ?)]; [by left|right; eauto].
    + destruct U3 as [?|(g & [Ht Hg]%elem_of_where & ?)]; [by left|right; eauto].
Qed.

(** C18. Whatever sequence of recordings, inward shrinks, attempts, deletions,
    closings and resets is run on the ledger, the live gaps of a channel remain
    proper stretches of time that do not touch each other, under distinct ids, as
    long as a shrink moves its bounds inwards and a reset revives no gap that
    touches another one. *)
Theorem ledger_stays_separated db cs :
  ledger_ok (gaps (tbl db)) -> ledger_all_ok db cs -> ledger_ok (gaps (tbl (foldl ledger_exec db cs))).
Proof.
  revert db; induction cs as [|c cs IH]; intros db Hok; [done|]. intros (Hroom & Hadm & Hall).
  apply IH; [|done]. by apply ledger_exec_ok.
Qed.
End promises.

(** ** The bootstrap scan *)

(** Two messages next to each other that are far enough apart. *)
Definition silence (threshold : Z) (rows : list message) (t : Z) : Prop :=
  exists l1 a b l2, rows = l1 ++ a :: b :: l2 /\ 0 < msg_ts a /\ threshold <= msg_ts b - msg_ts a /\
    msg_ts a <= t <= msg_ts b.

Lemma silence_cons threshold a b l t :
  silence threshold (a :: b :: l) t <->
  silence threshold (b :: l) t \/ 0 < msg_ts a /\ threshold <= msg_ts b - msg_ts a /\ msg_ts a <= t <= msg_ts b.
Proof.
  split.
  - intros ([|z l1] & x & y & l2 & [= ??] & Hr); simplify_eq; [by right|left]. by exists l1, x, y, l2.
  - intros [(l1 & x & y & l2 & -> & Hr)|Hr]; [by exists (a :: l1), x, y, l2|by exists [], a, b, l].
Qed.

Lemma silence_single threshold a t : ~ silence threshold [a] t.
Proof. intros ([|? [|??]] & x & y & l2 & [=] & _). Qed.

Definition gap_top (gs : list gap) : Z := foldr Z.max 0 (map gap_id gs).

(** Room for [k] more rows. *)
Definition gaps_room (k : nat) (gs : list gap) : Prop := gap_top gs + Z.of_nat k < INT64_MAX.

Lemma gaps_room_one k gs : gaps_room k gs -> gap_room gs.
Proof.
  intros Hr. apply Forall_forall. intros g Hg. pose proof (foldr_max_bound (map gap_id gs) (gap_id g)) as Hb.
  unfold gaps_room, gap_top in Hr. specialize (Hb ltac:(by apply list_elem_of_fmap_2)). lia.
Qed.

Lemma foldr_max_sub l k : (forall x, x ∈ l -> x ∈ k) -> foldr Z.max 0 l <= foldr Z.max 0 k.
Proof.
  intros Hs. induction l as [|x l IH]; simpl; [apply foldr_max_nonneg|].
  specialize (IH ltac:(intros; apply Hs; by right)). pose proof (foldr_max_bound k x (Hs x ltac:(by left))). lia.
Qed.

Section bootstrap.
Context `{SqliteLaws, SqliteScanLaws}.

Lemma record_top db db1 cid channel start smid end_ emid state :
  ledger_ok (gaps (tbl db)) -> gap_room (gaps (tbl db)) ->
  scrollback_get_channel_id db channel = (db1, cid) -> 0 < cid -> 0 < start < end_ ->
  gap_top (gaps (tbl (scrollback_gap_record db channel start smid end_ emid state).1)) <= 1 + gap_top (gaps (tbl db)).
Proof.
  intros Hok Hroom Hget Hcid Hse. unfold scrollback_gap_record. replace ((start <=? 0) || (end_ <=? start)) with false by lia.
  pose proof (get_channel_gaps db channel) as Hg. rewrite Hget in Hg |- *. simpl in Hg. rewrite Hg.
  replace (cid <=? 0) with false by lia. unfold gaps_record. simpl.
  set (rest := where_ _ (gaps (tbl db))). assert (Hsub : gap_top rest <= gap_top (gaps (tbl db))).
  { apply foldr_max_sub. intros i (g & -> & [_ Hin]%elem_of_where)%list_elem_of_fmap. by apply list_elem_of_fmap_2. }
  unfold gap_top in *. rewrite map_app, foldr_app. simpl.
  rewrite new_rowid_next; fold (gap_top rest).
  - set (top := foldr Z.max 0 (map gap_id rest)) in *.
    assert (forall l s, 0 <= s -> foldr Z.max s l <= Z.max s (foldr Z.max 0 l)) as Hfold.
    { intros l s Hs. induction l as [|x l IH]; simpl; lia. }
    pose proof (foldr_max_nonneg (map gap_id rest)) as Hn. fold top in Hn. specialize (Hfold (map gap_id rest) (1 + top)).
    unfold gap_top. fold top. fold top in Hfold. rewrite (Z.max_l (1 + top) 0) by lia. lia.
  - apply Forall_fmap, Forall_forall. intros g [_ Hin]%elem_of_where. simpl. unfold gap_room in Hroom.
    rewrite Forall_forall in Hroom. pose proof (lg_pos _ Hok) as Hpos. rewrite Forall_forall in Hpos.
    specialize (Hpos g Hin). specialize (Hroom g Hin). simpl in *. lia.
Qed.

Lemma get_cached db channel cid :
  channel <> [] -> channel_id_cache db !! channel = Some cid -> scrollback_get_channel_id db channel = (db, cid).
Proof. intros Hn Hc. unfold scrollback_get_channel_id. destruct channel; [done|]. by rewrite Hc. Qed.

(** What the walk leaves in the handle. *)
Record walked (db db' : scrollback_db) : Prop := {
  wk_cache : channel_id_cache db' = channel_id_cache db;
  wk_messages : messages (tbl db') = messages (tbl db);
  wk_channels : channels (tbl db') = channels (tbl db);
  wk_ok : ledger_ok (gaps (tbl db')) }.

Lemma walk_spec channel cid threshold l a db mid k :
  channel <> [] -> channel_id_cache db !! channel = Some cid -> 0 < cid -> 0 < threshold ->
  ledger_ok (gaps (tbl db)) -> gaps_room (length l) (gaps (tbl db)) -> 0 <= k ->
  exists db' p m k', foldl (bootstrap_row channel threshold) (db, msg_ts a, mid, k) l = (db', p, m, k') /\
    0 <= k' /\ walked db db' /\
    forall t, missing cid (gaps (tbl db')) t <-> missing cid (gaps (tbl db)) t \/ silence threshold (a :: l) t.
Proof.
  intros Hne Hc Hcid Hthr. revert a db mid k Hc. induction l as [|b l IH]; intros a db mid k Hc Hok Hroom Hk.
  { eexists _, _, _, _. split_and!; [done|done|by constructor|]. intros t.
    split; [by left|]. intros [?|[]%silence_single]; done. }
  simpl foldl. set (m := if is_pending b then None else msgid b).
  destruct ((0 <? msg_ts a) && (threshold <=? msg_ts b - msg_ts a)) eqn:Hpair.
  - assert (Hse : 0 < msg_ts a < msg_ts b) by lia. pose proof (get_cached db channel cid Hne Hc) as Hget.
    pose proof (gaps_room_one _ _ Hroom) as Hr1. unfold gaps_room in Hroom. simpl length in Hroom.
    pose proof (record_top db db cid channel (msg_ts a) mid (msg_ts b) m SCROLLBACK_GAP_CANDIDATE Hok Hr1 Hget Hcid Hse) as Htop.
    destruct (record_rows db db cid channel (msg_ts a) mid (msg_ts b) m SCROLLBACK_GAP_CANDIDATE)
      as (n & Hrec & Hpos & Hch & Hl & Hu & Hok'); try done.
    rewrite Hrec in Htop |- *. simpl in Htop. replace (0 <? gap_id n) with true by lia. cbv beta iota zeta.
    set (db2 := with_gaps _ _). edestruct (IH b db2 m (k + 1)) as (db' & p & m' & k' & -> & Hk' & [W1 W2 W3 W4] & Hmiss);
      [done|done|unfold gaps_room; simpl; lia|lia|].
    eexists _, _, _, _. split_and!; [done|done|by constructor|]. intros t. rewrite Hmiss.
    unfold db2. simpl. rewrite (record_missing cid (msg_ts a) (msg_ts b) mid m SCROLLBACK_GAP_CANDIDATE) by (done || lia).
    rewrite silence_cons. assert (0 < msg_ts a /\ threshold <= msg_ts b - msg_ts a) by lia. tauto.
  - edestruct (IH b db m k) as (db' & p & m' & k' & -> & Hk' & Hw & Hmiss);
      [done|done|unfold gaps_room in *; simpl length in Hroom; lia|done|].
    eexists _, _, _, _. split_and!; [done|done|done|]. intros t. rewrite Hmiss, silence_cons.
    assert (~ (0 < msg_ts a /\ threshold <= msg_ts b - msg_ts a)) by lia. tauto.
Qed.

Lemma get_caches db channel db1 cid :
  scrollback_get_channel_id db channel = (db1, cid) -> 0 < cid <= INT_MAX ->
  channel <> [] /\ channel_id_cache db1 !! channel = Some cid.
Proof.
  unfold scrollback_get_channel_id. intros Hget Hcid. destruct channel as [|x n]; [simplify_eq; lia|].
  split; [done|]. destruct (channel_id_cache db !! (x :: n)) eqn:Hc; [by simplify_eq|].
  destruct (stmt_channel_lookup (x :: n) _) as [i|]; simplify_eq; [|lia]. simpl. rewrite lookup_insert_eq.
  f_equal. unfold wrap_i32, INT_MAX in *. rewrite Z.mod_small by lia. lia.
Qed.

Definition latched (cid : Z) (db : scrollback_db) : Prop :=
  exists c, c ∈ channels (tbl db) /\ ch_id c = cid /\ gap_bootstrap_done c = true.

Lemma latch_find cid db :
  NoDup (map ch_id (channels (tbl db))) ->
  latched cid db <-> match find (fun c => ch_id c =? cid) (channels (tbl db)) with
                     | Some c => gap_bootstrap_done c
                     | None => false
                     end = true.
Proof.
  intros Hnd. split.
  - intros (c & Hin & <- & Hd). by rewrite (find_key ch_id) by done.
  - destruct (find _ _) as [c|] eqn:Hf; [|done]. intros Hd. apply find_some in Hf as [Hin Hid].
    exists c. split_and!; [by apply list_elem_of_In|lia|done].
Qed.

Lemma set_bootstrap_ids cid b t : map ch_id (channels (set_bootstrap cid b t)) = map ch_id (channels t).
Proof. unfold set_bootstrap. simpl. rewrite map_map. apply map_ext. intros c. by case_match. Qed.

(** The bootstrap scan of a channel runs once.  A channel not scanned yet
    is afterwards known to miss what it missed before and every stretch between
    neighbouring messages at least the threshold apart; a channel scanned
    before keeps its ledger and returns -1; and any later scan, with any
    threshold, returns -1 and changes nothing. *)
Theorem gap_bootstrap_finds_silences_once db db1 cid channel threshold :
  db_ok db -> roomy db -> channel <> [] -> 0 < threshold ->
  ledger_ok (gaps (tbl db)) -> gaps_room (length (messages (tbl db))) (gaps (tbl db)) ->
  scrollback_get_channel_id db channel = (db1, cid) ->
  let '(db', r) := scrollback_gap_bootstrap db channel threshold in
  (latched cid db1 -> r = -1 /\ gaps (tbl db') = gaps (tbl db)) /\
  (~ latched cid db1 -> 0 <= r /\ ledger_ok (gaps (tbl db')) /\ forall t,
     missing cid (gaps (tbl db')) t <->
     missing cid (gaps (tbl db)) t \/ silence threshold (rows_of cid (tbl db)) t) /\
  messages (tbl db') = messages (tbl db) /\
  forall threshold', scrollback_gap_bootstrap db' channel threshold' = (db', -1).
Proof.
  intros Hok Hroom Hne Hthr Hled Hgr Hget.
  destruct (get_channel_id_spec db channel) as (? & ? & Hget' & Hok1 & Hname & Hmsgs & _); [done..|].
  rewrite Hget in Hget'. symmetry in Hget'. simplify_eq.
  assert (Hcid : 0 < cid <= INT_MAX).
  { pose proof (ok_chan_range _ Hok1) as Hr. rewrite Forall_forall in Hr.
    apply (list_elem_of_fmap_2 snd) in Hname. by specialize (Hr _ Hname). }
  destruct (get_caches _ _ _ _ Hget Hcid) as [_ Hcache].
  pose proof (get_channel_gaps db channel) as Hg. rewrite Hget in Hg. simpl in Hg.
  assert (Hnd : NoDup (map ch_id (channels (tbl db1)))).
  { pose proof (ok_chan_ids _ Hok1) as Hn. unfold names in Hn. by rewrite <- list_fmap_compose in Hn. }
  assert (Hagain : forall db' t', channel_id_cache db' !! channel = Some cid ->
    map ch_id (channels (tbl db')) = map ch_id (channels (tbl db1)) -> latched cid db' ->
    scrollback_gap_bootstrap db' channel t' = (db', -1)).
  { intros db' t' Hc' Hids Hl. unfold scrollback_gap_bootstrap. case_match; [done|].
    rewrite (get_cached _ _ _ Hne Hc'). replace (cid <=? 0) with false by lia.
    rewrite latch_find in Hl by (by rewrite Hids). by rewrite Hl. }
  unfold scrollback_gap_bootstrap at 1. replace (threshold <=? 0) with false by lia. rewrite Hget.
  replace (cid <=? 0) with false by lia.
  destruct (match find _ (channels (tbl db1)) with Some c => _ | None => _ end) eqn:Hlatch.
  { rewrite <- latch_find in Hlatch by done. split_and!; try done. intros t'. by apply Hagain. }
  assert (Hnl : ~ latched cid db1) by (rewrite latch_find by done; by rewrite Hlatch).
  rewrite Hmsgs. change (merge_sort key_le _) with (rows_of cid (tbl db)). set (rows := rows_of cid (tbl db)).
  assert (Hwalk : exists db2 p m k', foldl (bootstrap_row channel threshold) (db1, 0, None, 0) rows = (db2, p, m, k') /\
    0 <= k' /\ walked db1 db2 /\
    forall t, missing cid (gaps (tbl db2)) t <-> missing cid (gaps (tbl db1)) t \/ silence threshold rows t).
  { assert (Hlen : le (length rows) (length (messages (tbl db)))).
    { unfold rows, rows_of. rewrite (Permutation_length (merge_sort_Permutation _ _)). apply filter_length_le. }
    destruct rows as [|a l].
    - eexists _, _, _, _. split_and!; [done|done|constructor; by rewrite ?Hg|]. intros t.
      split; [by left|]. intros [?|([|??] & ? & ? & ? & [=] & _)]; done.
    - simpl foldl. simpl length in Hlen. eapply (walk_spec channel cid threshold l a db1); try done; [lia|by rewrite Hg|].
      rewrite Hg. unfold gaps_room in *. lia. }
  destruct Hwalk as (db2 & p & m & k' & -> & Hk & [W1 W2 W3 W4] & Hmiss). rewrite Hg in Hmiss. split_and!; try done.
  - simpl. congruence.
  - intros t'. apply Hagain; [simpl; congruence|..].
    + cbn [tbl set_tbl]. by rewrite set_bootstrap_ids, W3.
    + unfold names in Hname. apply list_elem_of_fmap in Hname as (c & [= -> ->] & Hc). unfold latched. simpl. rewrite W3.
      exists (ChannelRow (ch_id c) (ch_name c) true (fts_built c)). split_and!; [|done|done].
      apply list_elem_of_fmap. exists c. split; [|done]. cbv beta. by rewrite Z.eqb_refl.
Qed.
End bootstrap.

(** ** Concrete ledgers *)

Section concrete.

Definition ledger_history : list ledger_call :=
  [LRecord "#a" 10 (Some (list_ascii_of_string "m1")) 20 None SCROLLBACK_GAP_WITNESSED;
   LRecord "#a" 30 None 40 None SCROLLBACK_GAP_CANDIDATE; LRecord "#b" 10 None 90 None SCROLLBACK_GAP_CANDIDATE;
   LRecord "#a" 20 None 30 None SCROLLBACK_GAP_CANDIDATE; LTouch 99 4; LShrink 4 15 None 35 None;
   LDead 4; LReset "#a" 4; LDead 4; LRecord "#a" 25 None 45 None SCROLLBACK_GAP_WITNESSED; LShrink 5 45 None 0 None;
   LDropMsgids 4; LDeleteCandidates "#b"; LBootstrapReset "#a";
   LRecord "#a" 30 None 50 None SCROLLBACK_GAP_CANDIDATE; LRecord "#b" 30 None 50 None SCROLLBACK_GAP_CANDIDATE].

(** Two touching gaps of one channel, one of another. *)
Definition three_gaps : scrollback_db :=
  foldl ledger_exec fresh_db (firstn 3 ledger_history).

Lemma no_gaps_ok : ledger_ok [].
Proof. split; [constructor..|]. by intros ?? ?%not_elem_of_nil. Qed.

#[export] Instance live_dec g : Decision (live g).
Proof. unfold live. apply _. Defined.
#[export] Instance apart_dec x y : Decision (apart x y).
Proof. unfold apart. apply _. Defined.
#[export] Instance reset_apart_dec cid id gs : Decision (reset_apart cid id gs).
Proof. unfold reset_apart. apply _. Defined.

Lemma ledger_stays_separated_witness :
  ledger_ok (gaps (tbl (foldl ledger_exec fresh_db ledger_history))).
Proof.
  apply (ledger_stays_separated fresh_db ledger_history); [exact no_gaps_ok|].
  cbn [ledger_history ledger_all_ok ledger_admissible].
  split_and!; first [exact I|by apply (bool_decide_unpack _); vm_compute|done].
Defined.

Lemma three_gaps_ok : ledger_ok (gaps (tbl three_gaps)).
Proof.
  apply (ledger_exec_ok (foldl ledger_exec fresh_db (firstn 2 ledger_history))
    (LRecord "#b" 10 None 90 None SCROLLBACK_GAP_CANDIDATE)); [|by apply (bool_decide_unpack _); vm_compute|done].
  apply (ledger_exec_ok (foldl ledger_exec fresh_db (firstn 1 ledger_history))
    (LRecord "#a" 30 None 40 None SCROLLBACK_GAP_CANDIDATE)); [|by apply (bool_decide_unpack _); vm_compute|done].
  apply (ledger_exec_ok fresh_db
    (LRecord "#a" 10 (Some (list_ascii_of_string "m1")) 20 None SCROLLBACK_GAP_WITNESSED)); [exact no_gaps_ok|constructor|done].
Qed.

(** The stretch 15 to 35 bridges both gaps of the channel. *)
Lemma gap_record_adds_the_stretch_witness :
  let '(db', id) := scrollback_gap_record three_gaps "#a" 15 None 35 None SCROLLBACK_GAP_CANDIDATE in
  forall t, missing 1 (gaps (tbl db')) t <-> missing 1 (gaps (tbl three_gaps)) t \/ 15 <= t <= 35.
Proof.
  pose proof (gap_record_adds_the_stretch three_gaps three_gaps 1 "#a" 15 None 35 None SCROLLBACK_GAP_CANDIDATE
    three_gaps_ok ltac:(by apply (bool_decide_unpack _); vm_compute) ltac:(done) ltac:(reflexivity) ltac:(lia)) as Hr.
  destruct (scrollback_gap_record _ _ _ _ _ _ _) as [db' id]. by apply Hr.
Defined.

(** Three messages, the last two a day apart. *)
Definition day_apart : scrollback_db :=
  exec_all fresh_db [CSave "#a" 1000 (Some (list_ascii_of_string "m1")) "one" true;
    CSave "#a" 1060 (Some (list_ascii_of_string "m2")) "two" true; CSave "#a" 87460 None "three" true].

Lemma day_apart_ok : db_ok day_apart.
Proof.
  apply reachable_ok, reachable_all; [apply reachable_opened, fresh_opened|]. check_history.
Qed.

Lemma gap_bootstrap_finds_silences_once_witness :
  let '(db', r) := scrollback_gap_bootstrap day_apart "#a" 86400 in
  missing 1 (gaps (tbl db')) 5000 /\ forall t', scrollback_gap_bootstrap db' "#a" t' = (db', -1).
Proof.
  pose proof (gap_bootstrap_finds_silences_once day_apart day_apart 1 "#a" 86400 day_apart_ok
    ltac:(split; by apply (bool_decide_unpack _); vm_compute) ltac:(done) ltac:(lia) no_gaps_ok
    ltac:(by vm_compute) ltac:(by vm_compute)) as Hr.
  destruct (scrollback_gap_bootstrap day_apart "#a" 86400) as [db' r]. destruct Hr as (_ & Hnew & _ & Hagain).
  split; [|done]. assert (Hfresh : ~ latched 1 day_apart).
  { intros (c & Hc%list_elem_of_singleton & _ & Hd). by subst c. }
  apply Hnew; [done|]. right. exists [Message 1 1 1000 (Some (list_ascii_of_string "m1")) "one" None None 0 true],
    (Message 2 1 1060 (Some (list_ascii_of_string "m2")) "two" None None 0 true),
    (Message 3 1 87460 None "three" None None 0 true), [].
  split; [by vm_compute|]. simpl. lia.
Defined.

(** [/HISTORY]'s reset of a channel revives its dead gaps without merging them:
    two live gaps then overlap, which no recording leaves behind. *)
Theorem gap_reset_overlaps :
  let db := (scrollback_gap_reset (foldl ledger_exec fresh_db ledger_history) "#a" 0).1 in
  exists x y, x ∈ gaps (tbl db) /\ y ∈ gaps (tbl db) /\ gap_channel x = gap_channel y /\ gap_id x <> gap_id y /\
    live x /\ live y /\ ~ apart x y.
Proof.
  set (x := Gap 4 1 15 None 35 None 0 0 0). set (y := Gap 5 1 30 None 50 None 0 0 0). intros db.
  assert (Hrows : take 2 (gaps (tbl db)) = [x; y]) by (by vm_compute). clearbody db.
  rewrite <- (take_drop 2 (gaps (tbl db))), Hrows. exists x, y.
  split_and!; try done; [by left|by right; left|]. unfold apart. simpl. lia.
Qed.

(** Neighbouring silences share a message and so become one row: the scan
    counts two candidates and leaves one. *)
Theorem gap_bootstrap_counts_merged :
  let db := exec_all fresh_db [CSave "#a" 1000 None "one" true; CSave "#a" 2000 None "two" true;
    CSave "#a" 3000 None "three" true] in
  let '(db', r) := scrollback_gap_bootstrap db "#a" 1000 in
  r = 2 /\ map (fun g => (start_ts g, end_ts g)) (gaps (tbl db')) = [(1000, 3000)].
Proof. by vm_compute. Qed.
End concrete.
