(* ===== verification/Chathistory.v ===== *)
(** * Requests for history (src/common/chathistory.c)

    Each session has at most one CHATHISTORY request in flight and one waiting
    behind it.  The functions of this file work on one session, its server and
    the network's scrollback database; [Catchup] treats the answers. *)
From S2P Require Import Prelude Glib Text Access Proto Scrollback GapLedger.

(** ** Requests *)

Inductive chreq_type := CHREQ_LATEST | CHREQ_BEFORE | CHREQ_AFTER | CHREQ_AROUND | CHREQ_BETWEEN.

#[export] Instance chreq_type_eq_dec : EqDecision chreq_type.
Proof. solve_decision. Defined.

Definition CHREQ_PRI_BACKGROUND : Z := 0.
Definition CHREQ_PRI_CATCHUP : Z := 1.
Definition CHREQ_PRI_USER : Z := 2.

Record chreq := Chreq {
  rq_type : chreq_type; reference : option cstr; end_ref : option cstr; rq_limit : Z;
  rq_priority : Z; rq_is_catchup : bool; rq_used_msgid : bool; rq_gap_id : Z; rq_gap_dir : Z }.

Definition CHATHISTORY_DEFAULT_LIMIT : Z := 50.
Definition CHATHISTORY_MAX_LIMIT : Z := 200.
Definition CHATHISTORY_FUZZ_INTERVAL : Z := 5.

(** ** State *)

Inductive session_type := SESS_SERVER | SESS_CHANNEL | SESS_DIALOG | SESS_NOTICES | SESS_SNOTICES.

#[export] Instance session_type_eq_dec : EqDecision session_type.
Proof. solve_decision. Defined.

(** The request slots and the flags derived from them. *)
Record queue := Queue {
  ch_active : option chreq; ch_pending : option chreq; history_loading : bool;
  history_request_is_before : bool; history_request_is_after : bool; history_request_used_msgid : bool }.

Record catchup := CatchupState {
  catchup_in_progress : bool; catchup_is_before : bool; catchup_lower_bound : Z; catchup_gap_id : Z;
  catchup_prev_newest_time : Z; catchup_prev_newest_msgid : option cstr;
  history_catchup_stale_count : Z; history_catchup_retrieved : Z }.

Record anchors := Anchors {
  oldest_msgid : option cstr; newest_msgid : option cstr; scrollback_oldest_msgid : option cstr;
  scrollback_newest_msgid : option cstr; scrollback_newest_time : Z; known_msgids : gset cstr }.

Record session := Session {
  s_type : session_type; channel : cstr; join_msgid : option cstr;
  s_queue : queue; s_catchup : catchup; s_anchors : anchors;
  history_exhausted : bool; history_insert_sorted_mode : bool;
  background_history_active : bool; background_history_timer : bool;
  chunk_state : option nat }.

(** What the server announced; the brake on repeated FAILs; the catch-up of its sessions. *)
Record server := Server {
  have_chathistory : bool; connected : bool; chathistory_limit : Z; last_disconnect_time : Z;
  p_cmp : cstr -> cstr -> Z; isup : isupport;
  persistence_attached : bool; persistence_cursor_sent : bool; persistence_replay_seen : bool;
  chathistory_between_unsupported : bool; chathistory_suppressed : bool; chathistory_fail_streak : Z;
  chathistory_latest_pending : Z; chathistory_before_sess : option nat;
  chathistory_start_timer : bool; chathistory_before_timer : bool; chathistory_targets_deferred : bool }.

Record preferences := Prefs {
  irc_chathistory_auto : bool; irc_chathistory_lines : Z; irc_gapfill : bool;
  irc_gapfill_catchup_budget : Z; irc_chathistory_background : bool;
  irc_chathistory_background_delay : Z; irc_chathistory_background_max_age : Z;
  irc_gapfill_bootstrap_hours : Z; text_replay : bool }.

(** A message of a batch; [bm_context] is its draft/chathistory-context tag. *)
Record batch_message := BatchMessage {
  bm_command : option cstr; bm_params : list cstr; bm_timestamp : Z; bm_msgid : option cstr;
  bm_prefix : option cstr; bm_context : bool }.

(** Calls out of the model. *)
Inductive event :=
| Labeled (command : cstr) (target : option cstr) (line : cstr)   (* tcp_sendf_labeled_tracked *)
| FeGapUpdated (sess : nat) (gap_id : Z)
| FeSetBatchMode (sess : nat) (on : bool)
| FeResetScrollTopBackoff (sess : nat)
| Replay (sess : nat) (m : batch_message)            (* shown and stored by the inbound handlers *)
| TimerStart (seconds : Z)                           (* the period of a new timer *)
| BootstrapIdle (channel : cstr)                     (* the gap bootstrap of a channel, queued *)
| MultilineGroup (sess : nat) (on : bool)            (* fe_begin_multiline_group, fe_end_multiline_group *)
| Chanmsg (sess : nat) (chan nick text : cstr) (fromme : bool) (ts : Z) (msgid : option cstr) (* inbound_chanmsg *)
| Privmsg (nick host text : cstr) (ts : Z) (msgid : option cstr)                              (* inbound_privmsg *)
| ConfirmEntry (sess : nat) (entry_id : Z) (msgid : option cstr)
| ResolvePendingDup (sess : nat) (pending_rowid real_rowid : Z)
| FeEntryPending (sess : nat) (entry_id : Z)
| FeClearPending (sess : nat).                       (* fe_clear_all_pending, fe_clear_server_read_marker *)

(** What a function called for one session can see. *)
Record view := View {
  self : nat; serv : server; sess : session; scrollback : option scrollback_db; out : list event }.

(** Updates. *)
Definition set_sess (f : session -> session) (v : view) : view :=
  View (self v) (serv v) (f (sess v)) (scrollback v) (out v).
Definition set_serv (f : server -> server) (v : view) : view :=
  View (self v) (f (serv v)) (sess v) (scrollback v) (out v).
Definition set_scrollback (db : scrollback_db) (v : view) : view :=
  View (self v) (serv v) (sess v) (Some db) (out v).
Definition emit (e : event) (v : view) : view :=
  View (self v) (serv v) (sess v) (scrollback v) (out v ++ [e]).

Definition set_queue (q : queue) (s : session) : session :=
  Session (s_type s) (channel s) (join_msgid s) q (s_catchup s) (s_anchors s) (history_exhausted s)
    (history_insert_sorted_mode s) (background_history_active s) (background_history_timer s) (chunk_state s).
Definition set_catchup (c : catchup) (s : session) : session :=
  Session (s_type s) (channel s) (join_msgid s) (s_queue s) c (s_anchors s) (history_exhausted s)
    (history_insert_sorted_mode s) (background_history_active s) (background_history_timer s) (chunk_state s).
Definition set_anchors (a : anchors) (s : session) : session :=
  Session (s_type s) (channel s) (join_msgid s) (s_queue s) (s_catchup s) a (history_exhausted s)
    (history_insert_sorted_mode s) (background_history_active s) (background_history_timer s) (chunk_state s).
Definition set_flags (exhausted sorted : bool) (s : session) : session :=
  Session (s_type s) (channel s) (join_msgid s) (s_queue s) (s_catchup s) (s_anchors s) exhausted sorted
    (background_history_active s) (background_history_timer s) (chunk_state s).
Definition set_background (active timer : bool) (s : session) : session :=
  Session (s_type s) (channel s) (join_msgid s) (s_queue s) (s_catchup s) (s_anchors s) (history_exhausted s)
    (history_insert_sorted_mode s) active timer (chunk_state s).
Definition set_chunk_state (c : option nat) (s : session) : session :=
  Session (s_type s) (channel s) (join_msgid s) (s_queue s) (s_catchup s) (s_anchors s) (history_exhausted s)
    (history_insert_sorted_mode s) (background_history_active s) (background_history_timer s) c.

(** ** References *)

(** [g_date_time_new_from_unix_utc] and its "%Y-%m-%dT%H:%M:%S". *)
Class Dates := { iso8601 : Z -> option cstr }.

(** The proleptic Gregorian calendar, for the years GDateTime has. *)
Definition two_digits (n : Z) : cstr := if n <? 10 then "0"%char :: int_text n else int_text n.

Definition civil_of_days (days : Z) : Z * Z * Z :=
  let z := days + 719468 in
  let era := z / 146097 in
  let doe := z - era * 146097 in
  let yoe := (doe - doe / 1460 + doe / 36524 - doe / 146096) / 365 in
  let doy := doe - (365 * yoe + yoe / 4 - yoe / 100) in
  let mp := (5 * doy + 2) / 153 in
  let m := if mp <? 10 then mp + 3 else mp - 9 in
  (yoe + era * 400 + (if m <=? 2 then 1 else 0), m, doy - (153 * mp + 2) / 5 + 1).

#[export] Instance dates_ref : Dates := {|
  iso8601 ts :=
    let '(y, m, d) := civil_of_days (ts / 86400) in
    let s := ts mod 86400 in
    if (1 <=? y) && (y <=? 9999) then
      Some (fmt [two_digits (y / 100); two_digits (y mod 100); ("-" : cstr); two_digits m; ("-" : cstr); two_digits d;
        ("T" : cstr); two_digits (s / 3600); (":" : cstr); two_digits (s / 60 mod 60); (":" : cstr); two_digits (s mod 60)])
    else None |}.

Section requests.
Context `{Dates}.

(** Written into a buffer of 64 bytes. *)
Definition chathistory_ts_ref (ts : Z) : cstr :=
  take 63 (fmt [("timestamp=" : cstr); default ("1970-01-01T00:00:00" : cstr) (iso8601 ts); (".000Z" : cstr)]).

Definition msgid_ref (msgid : cstr) : cstr := fmt [("msgid=" : cstr); msgid].
Definition is_msgid_ref (ref : cstr) : bool := bool_decide (("msgid=" : cstr) `prefix_of` ref).

Definition get_effective_limit (serv : server) (requested : Z) : Z :=
  let limit :=
    if 0 <? chathistory_limit serv then chathistory_limit serv
    else if 0 <? requested then requested else CHATHISTORY_DEFAULT_LIMIT in
  if CHATHISTORY_MAX_LIMIT <? limit then CHATHISTORY_MAX_LIMIT else limit.

Definition get_target_name (s : session) : option cstr :=
  match s_type s with SESS_CHANNEL | SESS_DIALOG => Some (channel s) | _ => None end.

(** ** The two slots *)

Definition chreq_is_dup (a : option chreq) (b : chreq) : bool :=
  match a with
  | None => false
  | Some a => bool_decide (rq_type a = rq_type b) && bool_decide (reference a = reference b) &&
              bool_decide (end_ref a = end_ref b)
  end.

(** "%s" of a NULL reference. *)
Definition ref_text (r : option cstr) : cstr := default ("(null)" : cstr) r.

Definition request_line (req : chreq) (target : cstr) (limit : Z) : cstr :=
  match rq_type req with
  | CHREQ_LATEST =>
      let ref := match reference req with Some (c :: r) => c :: r | _ => ("*" : cstr) end in
      fmt [("CHATHISTORY LATEST " : cstr); target; (" " : cstr); ref; (" " : cstr); int_text limit; EOL]
  | CHREQ_BEFORE =>
      fmt [("CHATHISTORY BEFORE " : cstr); target; (" " : cstr); ref_text (reference req); (" " : cstr);
           int_text limit; EOL]
  | CHREQ_AFTER =>
      fmt [("CHATHISTORY AFTER " : cstr); target; (" " : cstr); ref_text (reference req); (" " : cstr);
           int_text limit; EOL]
  | CHREQ_AROUND =>
      fmt [("CHATHISTORY AROUND " : cstr); target; (" " : cstr); ref_text (reference req); (" " : cstr);
           int_text limit; EOL]
  | CHREQ_BETWEEN =>
      fmt [("CHATHISTORY BETWEEN " : cstr); target; (" " : cstr); ref_text (reference req); (" " : cstr);
           ref_text (end_ref req); (" " : cstr); int_text limit; EOL]
  end.

Definition chathistory_dispatch_now (req : chreq) (v : view) : view :=
  match get_target_name (sess v) with
  | None | Some [] => v
  | Some target =>
      if negb (have_chathistory (serv v)) || negb (connected (serv v)) || chathistory_suppressed (serv v) then v
      else
        let v := set_sess (fun s => set_queue (Queue (Some req) (ch_pending (s_queue s)) true
          (bool_decide (rq_type req = CHREQ_BEFORE)) (bool_decide (rq_type req = CHREQ_AFTER))
          (rq_used_msgid req)) s) v in
        emit (Labeled "CHATHISTORY" (Some target)
                (request_line req target (get_effective_limit (serv v) (rq_limit req)))) v
  end.

Definition set_pending (p : option chreq) (s : session) : session :=
  let q := s_queue s in
  set_queue (Queue (ch_active q) p (history_loading q) (history_request_is_before q)
    (history_request_is_after q) (history_request_used_msgid q)) s.

Definition chathistory_submit (req : chreq) (v : view) : view * bool :=
  let q := s_queue (sess v) in
  if chreq_is_dup (ch_active q) req then (v, false)
  else if chreq_is_dup (ch_pending q) req then (v, false)
  else
    match ch_active q with
    | None => (chathistory_dispatch_now req v, true)
    | Some _ =>
        if match ch_pending q with None => true | Some p => rq_priority p <? rq_priority req end
        then (set_sess (set_pending (Some req)) v, true)
        else (v, false)
    end.

(** The active slot emptied and the loading flag cleared. *)
Definition clear_active (s : session) : session :=
  let q := s_queue s in
  set_queue (Queue None (ch_pending q) false (history_request_is_before q)
    (history_request_is_after q) (history_request_used_msgid q)) s.

Definition chathistory_request_complete (v : view) : view :=
  let v := set_sess clear_active v in
  match ch_pending (s_queue (sess v)) with
  | Some pending => chathistory_dispatch_now pending (set_sess (set_pending None) v)
  | None => v
  end.

Definition chathistory_queue_free (s : session) : session := set_pending None (clear_active s).

(** ** Requests of the callers *)

Definition infer_priority (s : session) : Z :=
  if background_history_active s then CHREQ_PRI_BACKGROUND
  else if catchup_in_progress (s_catchup s) then CHREQ_PRI_CATCHUP else CHREQ_PRI_USER.

(** The guards shared by the request functions. *)
Definition can_ask (v : view) : bool :=
  have_chathistory (serv v) && connected (serv v) && bool_decide (is_Some (get_target_name (sess v))).

Definition submit_inferred (t : chreq_type) (ref end_ref : option cstr) (limit : Z) (used : bool) (v : view) : view :=
  (chathistory_submit (Chreq t ref end_ref limit (infer_priority (sess v))
     (catchup_in_progress (s_catchup (sess v))) used 0 0) v).1.

Definition chathistory_request_latest (ref : option cstr) (limit : Z) (v : view) : view :=
  if negb (can_ask v) then v
  else submit_inferred CHREQ_LATEST ref None limit
         (match ref with Some r => is_msgid_ref r | None => false end) v.

Definition chathistory_request_before (ref : cstr) (limit : Z) (v : view) : view :=
  if negb (can_ask v) || bool_decide (ref = []) then v
  else submit_inferred CHREQ_BEFORE (Some ref) None limit (is_msgid_ref ref) v.

Definition chathistory_request_after (ref : cstr) (limit : Z) (v : view) : view :=
  if negb (can_ask v) || bool_decide (ref = []) then v
  else submit_inferred CHREQ_AFTER (Some ref) None limit (is_msgid_ref ref) v.

Definition chathistory_request_around (ref : cstr) (limit : Z) (v : view) : view :=
  if negb (can_ask v) || bool_decide (ref = []) then v
  else submit_inferred CHREQ_AROUND (Some ref) None limit false v.

Definition chathistory_request_between (start_ref end_ref : cstr) (limit : Z) (v : view) : view :=
  if negb (can_ask v) || bool_decide (start_ref = []) || bool_decide (end_ref = []) then v
  else submit_inferred CHREQ_BETWEEN (Some start_ref) (Some end_ref) limit false v.

Definition chathistory_request_after_timestamp (timestamp limit : Z) (v : view) : view :=
  chathistory_request_after (chathistory_ts_ref timestamp) limit v.

Definition chathistory_request_after_msgid (msgid : cstr) (limit : Z) (v : view) : view :=
  match msgid with [] => v | _ => chathistory_request_after (msgid_ref msgid) limit v end.

Definition chathistory_request_before_msgid (msgid : cstr) (limit : Z) (v : view) : view :=
  match msgid with [] => v | _ => chathistory_request_before (msgid_ref msgid) limit v end.

Definition chathistory_request_older (prefs : preferences) (v : view) : view :=
  if negb (have_chathistory (serv v)) || history_exhausted (sess v) then v
  else
    match oldest_msgid (s_anchors (sess v)), scrollback_oldest_msgid (s_anchors (sess v)) with
    | Some (c :: r), _ | _, Some (c :: r) =>
        (chathistory_submit (Chreq CHREQ_BEFORE (Some (msgid_ref (c :: r))) None (irc_chathistory_lines prefs)
           CHREQ_PRI_USER false true 0 0) v).1
    | _, _ => v
    end.

(** *** Gap fill *)

Definition gap_ref (msgid : option cstr) (ts : Z) : cstr * bool :=
  match msgid with Some (c :: r) => (msgid_ref (c :: r), true) | _ => (chathistory_ts_ref ts, false) end.

(** The request for a gap, anchored at the edge it is approached from. *)
Definition gap_fill_request (prefs : preferences) (serv : server) (g : gap) (approach_dir : Z) : chreq :=
  let '(near_ref, near_is_msgid) :=
    if approach_dir <? 0 then gap_ref (end_msgid g) (end_ts g) else gap_ref (start_msgid g) (start_ts g) in
  let '(far_ref, far_is_msgid) :=
    if approach_dir <? 0 then gap_ref (start_msgid g) (start_ts g) else gap_ref (end_msgid g) (end_ts g) in
  if chathistory_between_unsupported serv then
    Chreq (if approach_dir <? 0 then CHREQ_BEFORE else CHREQ_AFTER) (Some near_ref) None
      (irc_chathistory_lines prefs) CHREQ_PRI_USER false near_is_msgid (gap_id g) approach_dir
  else
    Chreq CHREQ_BETWEEN (Some near_ref) (Some far_ref) (irc_chathistory_lines prefs) CHREQ_PRI_USER
      false (near_is_msgid || far_is_msgid) (gap_id g) approach_dir.

(** Seconds to wait after the last attempt. *)
Definition gap_backoff (g : gap) : Z := if 60 <? 5 * attempts g then 60 else 5 * attempts g.

Definition chathistory_request_gap_fill (prefs : preferences) (now : Z) (gap_id approach_dir : Z) (v : view)
    : view * bool :=
  if negb (have_chathistory (serv v)) || chathistory_suppressed (serv v) then (v, false)
  else if negb (irc_gapfill prefs) || (gap_id <=? 0) then (v, false)
  else if catchup_in_progress (s_catchup (sess v)) then (v, false)
  else
    match scrollback v with
    | None => (v, false)
    | Some db =>
        match scrollback_gap_get db gap_id with
        | None => (v, false)
        | Some g =>
            if gap_state g =? SCROLLBACK_GAP_DEAD then (v, false)
            else if scrollback_gap_is_parked db g then (v, false)
            else if (0 <? last_attempt g) && (now - last_attempt g <? gap_backoff g) then (v, false)
            else
              let '(v, submitted) := chathistory_submit (gap_fill_request prefs (serv v) g approach_dir) v in
              if negb submitted then (v, false)
              else (set_scrollback (scrollback_gap_touch now db gap_id).1 v, true)
        end
    end.

Definition gap_fill_retry_with_timestamps (prefs : preferences) (now : Z) (gap_id gap_dir : Z) (v : view)
    : view * bool :=
  if (gap_id <=? 0) || negb (history_request_used_msgid (s_queue (sess v))) || chathistory_suppressed (serv v)
  then (v, false)
  else
    match scrollback v with
    | None => (v, false)
    | Some db =>
        let '(db, dropped) := scrollback_gap_drop_msgids db gap_id in
        if negb dropped then (v, false)
        else
          chathistory_request_gap_fill prefs now gap_id gap_dir
            (emit (FeGapUpdated (self v) gap_id) (set_scrollback db v))
    end.

(** ** Which messages are known *)

(** A message id alone, or with its time. *)
Definition make_dedup_key (msgid : cstr) (timestamp : Z) : cstr :=
  fmt [msgid; ("@" : cstr); int_text timestamp].

Definition chathistory_track_msgid_ts (msgid : cstr) (timestamp : Z) (is_history : bool) (s : session) : session :=
  match msgid with
  | [] => s
  | _ =>
      let a := s_anchors s in
      let key := if 0 <? timestamp then make_dedup_key msgid timestamp else msgid in
      let known := {[key]} ∪ known_msgids a in
      let oldest := match oldest_msgid a with None => Some msgid | o => o end in
      if bool_decide (key ∈ known_msgids a) then s
      else
        set_anchors
          (Anchors oldest (if is_history then newest_msgid a else Some msgid) (scrollback_oldest_msgid a)
             (scrollback_newest_msgid a) (scrollback_newest_time a) known) s
  end.

Definition chathistory_track_msgid (msgid : cstr) (is_history : bool) (s : session) : session :=
  chathistory_track_msgid_ts msgid 0 is_history s.
End requests.

Section known.
Context `{Sqlite}.

Definition scrollback_session_has_msgid (msgid : cstr) (timestamp : Z) (v : view) : view * bool :=
  if bool_decide (channel (sess v) = []) || bool_decide (msgid = []) then (v, false)
  else
    match scrollback v with
    | None => (v, false)
    | Some db =>
        let '(db, found) := scrollback_has_msgid db (channel (sess v)) msgid timestamp in
        (set_scrollback db v, found)
    end.

Definition chathistory_is_duplicate_msgid (msgid : cstr) (timestamp : Z) (v : view) : view * bool :=
  if bool_decide (msgid = []) then (v, false)
  else
    let key := if 0 <? timestamp then make_dedup_key msgid timestamp else msgid in
    if bool_decide (key ∈ known_msgids (s_anchors (sess v))) then (v, true)
    else scrollback_session_has_msgid msgid timestamp v.
End known.
