(* ===== verification/ChathistorySpec.v ===== *)
(** * Correctness of the request slots

    One request in flight and one waiting per session, none sent before the
    previous one is answered, and the user's request next in line. *)
From S2P Require Import Prelude Glib Text Access Proto Scrollback GapLedger Chathistory.

(** ** The slots *)

(** The loading flag and the compatibility flags are those of the active
    request, and a request waits only behind a different one. *)
Record queue_ok (q : queue) : Prop := {
  qo_loading : history_loading q = bool_decide (is_Some (ch_active q));
  qo_waiting p : ch_pending q = Some p -> exists a, ch_active q = Some a /\ chreq_is_dup (Some a) p = false;
  qo_flags a : ch_active q = Some a ->
    history_request_is_before q = bool_decide (rq_type a = CHREQ_BEFORE) /\
    history_request_is_after q = bool_decide (rq_type a = CHREQ_AFTER) /\
    history_request_used_msgid q = rq_used_msgid a }.

Definition sess_ok (s : session) : Prop := queue_ok (s_queue s).

Definition idle_queue (q : queue) : Prop := ch_active q = None /\ ch_pending q = None /\ history_loading q = false.

Lemma idle_ok q : idle_queue q -> queue_ok q.
Proof. intros (H1 & H2 & H3). constructor; rewrite ?H1, ?H2, ?H3; try done; by intros ? [=]. Qed.

(** A request can be put on the wire. *)
Definition ready (v : view) : bool :=
  match get_target_name (sess v) with None | Some [] => false | Some _ => true end &&
  have_chathistory (serv v) && connected (serv v) && negb (chathistory_suppressed (serv v)).

Section queue.
Context `{Dates}.

(** The line a request is sent as. *)
Definition sent_as (v : view) (req : chreq) : event :=
  let target := default [] (get_target_name (sess v)) in
  Labeled "CHATHISTORY" (Some target) (request_line req target (get_effective_limit (serv v) (rq_limit req))).

Lemma dispatch_spec req v :
  if ready v then
    s_queue (sess (chathistory_dispatch_now req v)) =
      Queue (Some req) (ch_pending (s_queue (sess v))) true
        (bool_decide (rq_type req = CHREQ_BEFORE)) (bool_decide (rq_type req = CHREQ_AFTER)) (rq_used_msgid req) /\
    out (chathistory_dispatch_now req v) = out v ++ [sent_as v req]
  else chathistory_dispatch_now req v = v.
Proof.
  unfold ready, sent_as, chathistory_dispatch_now. destruct (get_target_name (sess v)) as [[|c t]|]; [done| |done].
  destruct (have_chathistory (serv v)), (connected (serv v)), (chathistory_suppressed (serv v)); done.
Qed.

(** *** Session-level histories *)

Inductive slot_op :=
| OpSubmit (req : chreq)
| OpComplete
| OpFree
| OpServer (s : server).

Definition slot_exec (v : view) (op : slot_op) : view :=
  match op with
  | OpSubmit req => (chathistory_submit req v).1
  | OpComplete => chathistory_request_complete v
  | OpFree => set_sess chathistory_queue_free v
  | OpServer s => set_serv (fun _ => s) v
  end.

Definition slot_run (v : view) (ops : list slot_op) : view := foldl slot_exec v ops.

Definition active (v : view) : nat := match ch_active (s_queue (sess v)) with Some _ => 1 | None => 0 end.

(** Whether an operation ends the active request: its answer came, or it was given up. *)
Definition retires (v : view) (op : slot_op) : nat :=
  match op with OpComplete | OpFree => active v | _ => 0 end.

Fixpoint retired (v : view) (ops : list slot_op) : nat :=
  match ops with [] => 0 | op :: ops => retires v op + retired (slot_exec v op) ops end.

Definition chathistory_lines (l : list event) : nat :=
  length (List.filter (fun e => match e with Labeled _ _ _ => true | _ => false end) l).

Lemma lines_app l k : chathistory_lines (l ++ k) = (chathistory_lines l + chathistory_lines k)%nat.
Proof. unfold chathistory_lines. by rewrite List.filter_app, length_app. Qed.

Lemma dispatch_ok req v :
  queue_ok (s_queue (sess v)) -> ch_active (s_queue (sess v)) = None -> ch_pending (s_queue (sess v)) = None ->
  queue_ok (s_queue (sess (chathistory_dispatch_now req v))) /\
  (chathistory_lines (out (chathistory_dispatch_now req v)) + active v)%nat =
  (chathistory_lines (out v) + active (chathistory_dispatch_now req v))%nat.
Proof.
  intros Hok Ha Hp. pose proof (dispatch_spec req v) as Hd. destruct (ready v).
  - destruct Hd as [Hq Ho]. unfold active. rewrite Hq, Ho, lines_app, Hp, Ha.
    split; [|change (chathistory_lines [sent_as v req]) with 1%nat; cbn [ch_active]; lia].
    constructor; simpl; [done|by intros ? [=]|]. intros a [= ->]. done.
  - by rewrite Hd.
Qed.

Lemma slot_exec_ok v op :
  queue_ok (s_queue (sess v)) ->
  queue_ok (s_queue (sess (slot_exec v op))) /\
  (chathistory_lines (out (slot_exec v op)) + active v)%nat =
  (chathistory_lines (out v) + retires v op + active (slot_exec v op))%nat.
Proof.
  intros Hok. destruct op as [req| | |s]; cbn [slot_exec retires].
  - unfold chathistory_submit. destruct (chreq_is_dup (ch_active _) req) eqn:Hda; [split; [done|simpl; lia]|].
    destruct (chreq_is_dup (ch_pending _) req) eqn:Hdp; [split; [done|simpl; lia]|].
    destruct (ch_active (s_queue (sess v))) as [a|] eqn:Ha.
    + destruct (match ch_pending _ with None => true | Some p => _ end); [|split; [done|simpl; lia]].
      simpl. unfold active. simpl. rewrite Ha. split; [|lia]. destruct Hok as [H1 H2 H3].
      rewrite Ha in H1, H3. constructor; simpl; rewrite ?Ha; [done| |done]. intros p [= <-]. by exists a.
    + cbn [fst]. destruct (dispatch_ok req v) as [? ?]; [done|done| |split; [done|lia]].
      destruct (ch_pending (s_queue (sess v))) as [p|] eqn:Hp; [|done].
      destruct (qo_waiting _ Hok p Hp) as (a & Ha' & _). congruence.
  - unfold chathistory_request_complete. destruct (ch_pending _) as [p|] eqn:Hp; simpl in Hp.
    + set (v0 := set_sess (set_pending None) (set_sess clear_active v)).
      destruct (dispatch_ok p v0) as [Hq Hl]; [by apply idle_ok|done|done|].
      split; [done|]. change (active v0) with 0%nat in Hl. change (out v0) with (out v) in Hl. lia.
    + split; [|unfold active; simpl; lia]. apply idle_ok. by repeat split.
  - split; [by apply idle_ok|]. unfold active. simpl. lia.
  - split; [done|]. unfold active. simpl. lia.
Qed.

(** C9. Over any history of submissions, answers, cancellations and changes of
    the server's state, a session has at most one request on the wire: every
    line sent beyond those answered or given up is the active request; the
    loading flag says exactly whether there is one, the compatibility flags
    describe it, and what waits is not a duplicate of it. *)
Theorem one_request_in_flight v ops :
  queue_ok (s_queue (sess v)) ->
  let v' := slot_run v ops in
  queue_ok (s_queue (sess v')) /\
  (chathistory_lines (out v') + active v)%nat = (chathistory_lines (out v) + retired v ops + active v')%nat.
Proof.
  revert v; induction ops as [|op ops IH]; intros v Hok; [split; [done|simpl; lia]|].
  cbn zeta. unfold slot_run. cbn [foldl retired]. destruct (slot_exec_ok v op Hok) as [Hok1 Hl].
  destruct (IH _ Hok1) as [Hok2 Hl2]. split; [done|]. unfold slot_run in Hl2. lia.
Qed.

(** *** The waiting request *)

Lemma submit_keeps_waiting req r v :
  queue_ok (s_queue (sess v)) -> is_Some (ch_active (s_queue (sess v))) ->
  ch_pending (s_queue (sess v)) = Some req -> rq_priority r <= rq_priority req ->
  s_queue (sess (chathistory_submit r v).1) = s_queue (sess v).
Proof.
  intros Hok [a Ha] Hp Hpri. unfold chathistory_submit. rewrite Hp, Ha.
  destruct (chreq_is_dup (Some a) r), (chreq_is_dup (Some req) r); try done.
  by replace (rq_priority req <? rq_priority r) with false by lia.
Qed.

(** C12. A user's request that is accepted while another one is in flight is
    sent with the next answer: whatever is submitted and however the server's
    state changes in between, it keeps its place, and when the active request
    is retired it goes onto the wire, provided the session can send then. *)
Theorem user_request_is_sent v v1 req ops :
  queue_ok (s_queue (sess v)) -> is_Some (ch_active (s_queue (sess v))) ->
  rq_priority req = CHREQ_PRI_USER -> chathistory_submit req v = (v1, true) ->
  Forall (fun op => match op with
                    | OpSubmit r => rq_priority r <= CHREQ_PRI_USER
                    | OpServer _ => True
                    | OpComplete | OpFree => False
                    end) ops ->
  let v2 := slot_run v1 ops in
  ready v2 = true ->
  ch_active (s_queue (sess (chathistory_request_complete v2))) = Some req /\
  out (chathistory_request_complete v2) = out v2 ++ [sent_as v2 req].
Proof.
  intros Hok [a Ha] Hpri Hsub Hops.
  assert (Hq1 : queue_ok (s_queue (sess v1)) /\ is_Some (ch_active (s_queue (sess v1))) /\
                ch_pending (s_queue (sess v1)) = Some req).
  { pose proof (slot_exec_ok v (OpSubmit req) Hok) as [Hok1 _]. cbn [slot_exec] in Hok1. rewrite Hsub in Hok1.
    split; [done|]. revert Hsub. unfold chathistory_submit. rewrite Ha.
    repeat case_match; intros [= <-]; simpl; rewrite ?Ha; split; eauto. }
  cbn zeta. clear Hsub Hok Ha. destruct Hq1 as (Hok1 & Ha1 & Hp1).
  assert (Hq2 : ch_pending (s_queue (sess (slot_run v1 ops))) = Some req).
  { clear a. revert v1 Hok1 Ha1 Hp1. induction Hops as [|op ops Hop _ IH]; intros v1 Hok1 Ha1 Hp1; [done|].
    unfold slot_run. cbn [foldl]. apply IH; [by apply slot_exec_ok|..];
      destruct op as [r| | |s]; try done; cbn [slot_exec]; rewrite (submit_keeps_waiting req) by (done || lia); done. }
  set (v2 := slot_run v1 ops) in *. intros Hready. unfold chathistory_request_complete.
  replace (ch_pending (s_queue (sess (set_sess clear_active v2)))) with (Some req) by (by simpl; rewrite Hq2).
  set (v3 := set_sess (set_pending None) (set_sess clear_active v2)).
  pose proof (dispatch_spec req v3) as Hd. change (ready v3) with (ready v2) in Hd. rewrite Hready in Hd.
  destruct Hd as [Hq3 Ho3]. by rewrite Hq3, Ho3.
Qed.
End queue.

(** ** Witnesses *)

Definition quiet_queue : queue := Queue None None false false false false.

(** A channel on a server that answers CHATHISTORY, nothing asked yet. *)
Definition quiet_view : view :=
  View 0
    (Server true true 50 0 strcasecmp_ref (ISupport "#" "beI,k,l,imnpst" "@+" "ov" false None)
       false false false false false 0 0 None false false false)
    (Session SESS_CHANNEL "#a" None quiet_queue (CatchupState false false 0 0 0 None 0 0)
       (Anchors None None None None 0 ∅) false false false false None)
    None [].

Definition latest_for (p : Z) : chreq := Chreq CHREQ_LATEST None None 50 p false false 0 0.
Definition older_for (p : Z) : chreq := Chreq CHREQ_BEFORE (Some ("msgid=x" : cstr)) None 50 p false true 0 0.

Lemma one_request_in_flight_witness :
  let v' := slot_run quiet_view [OpSubmit (latest_for 1); OpSubmit (older_for 2); OpComplete] in
  queue_ok (s_queue (sess v')) /\ (chathistory_lines (out v') + 0)%nat = (0 + 1 + 1)%nat.
Proof.
  assert (Hok : queue_ok (s_queue (sess quiet_view))) by (apply idle_ok; by repeat split).
  destruct (one_request_in_flight quiet_view [OpSubmit (latest_for 1); OpSubmit (older_for 2); OpComplete] Hok) as [H1 H2].
  split; [exact H1|exact H2].
Defined.

Lemma user_request_is_sent_witness :
  let v := (chathistory_submit (latest_for 1) quiet_view).1 in
  let v1 := (chathistory_submit (older_for 2) v).1 in
  let v2 := slot_run v1 [OpSubmit (latest_for 0)] in
  ch_active (s_queue (sess (chathistory_request_complete v2))) = Some (older_for 2) /\
  out (chathistory_request_complete v2) = out v2 ++ [sent_as v2 (older_for 2)].
Proof.
  cbn zeta.
  apply (user_request_is_sent (chathistory_submit (latest_for 1) quiet_view).1
    (chathistory_submit (older_for 2) (chathistory_submit (latest_for 1) quiet_view).1).1 (older_for 2)
    [OpSubmit (latest_for 0)]).
  - constructor; [done|by intros ? [=]|]. intros a [= <-]. done.
  - by eexists.
  - done.
  - by vm_compute.
  - constructor; [cbn; unfold CHREQ_PRI_USER; lia|constructor].
  - done.
Defined.
