(* ===== verification/Catchup.v ===== *)
(** * History batches and the catch-up of a server (src/common/chathistory.c)

    Answers to CHATHISTORY, batches the server sends on its own, failures, and
    the two phases of catching up after a connect: LATEST for every session,
    then BEFORE for one session at a time. *)
From stdpp Require Import sorting.
From S2P Require Import Prelude Glib Text Access Proto Scrollback GapLedger Chathistory.

Definition CHATHISTORY_CHUNK_SIZE : nat := 50.
Definition CHATHISTORY_BEFORE_LIMIT : Z := 50.
Definition CHATHISTORY_BEFORE_DELAY : Z := 3.
Definition CHATHISTORY_SANITY_LIMIT : Z := 5000.

(** A chathistory batch; [nested] says that its outer batch is a bouncer replay. *)
Record batch := Batch {
  b_target : option cstr; b_nested : bool; b_messages : list batch_message; b_end : bool }.

(** The state of a batch under way. *)
Record chunk := Chunk {
  ck_sess : nat; remaining : list batch_message; msg_count : Z; raw_count : Z;
  oldest_timestamp : Z; newest_timestamp : Z; batch_oldest_msgid : option cstr; batch_newest_msgid : option cstr;
  is_catchup : bool; chathistory_end : bool; unsolicited : bool; latest_owned : bool; latest_slot_owed : bool;
  ck_gap_id : Z; ck_gap_dir : Z }.

(** The sessions of one server in the order of [sess_list], the front session
    when it is one of them, and the batches processed piecewise. *)
Record world := World {
  w_serv : server; w_sessions : gmap nat session; sess_list : list nat; current_sess : option nat;
  w_scrollback : option scrollback_db; chunks : gmap nat chunk; w_out : list event }.

Definition upd_serv (f : server -> server) (w : world) : world :=
  World (f (w_serv w)) (w_sessions w) (sess_list w) (current_sess w) (w_scrollback w) (chunks w) (w_out w).
Definition upd_chunks (f : gmap nat chunk -> gmap nat chunk) (w : world) : world :=
  World (w_serv w) (w_sessions w) (sess_list w) (current_sess w) (w_scrollback w) (f (chunks w)) (w_out w).

(** A call for one session; [None] is a dangling [session *]. *)
Definition look (sid : nat) (w : world) : option view :=
  s ← w_sessions w !! sid; Some (View sid (w_serv w) s (w_scrollback w) (w_out w)).

Definition put (v : view) (w : world) : world :=
  World (serv v) (<[self v := sess v]> (w_sessions w)) (sess_list w) (current_sess w) (scrollback v) (chunks w) (out v).

Definition on (sid : nat) (f : view -> view) (w : world) : option world :=
  v ← look sid w; Some (put (f v) w).

(** ** Fields of the server *)

Definition set_latest_pending (n : Z) (s : server) : server :=
  Server (have_chathistory s) (connected s) (chathistory_limit s) (last_disconnect_time s) (p_cmp s) (isup s)
    (persistence_attached s) (persistence_cursor_sent s) (persistence_replay_seen s)
    (chathistory_between_unsupported s) (chathistory_suppressed s) (chathistory_fail_streak s)
    n (chathistory_before_sess s) (chathistory_start_timer s) (chathistory_before_timer s)
    (chathistory_targets_deferred s).
Definition set_before_sess (b : option nat) (s : server) : server :=
  Server (have_chathistory s) (connected s) (chathistory_limit s) (last_disconnect_time s) (p_cmp s) (isup s)
    (persistence_attached s) (persistence_cursor_sent s) (persistence_replay_seen s)
    (chathistory_between_unsupported s) (chathistory_suppressed s) (chathistory_fail_streak s)
    (chathistory_latest_pending s) b (chathistory_start_timer s) (chathistory_before_timer s)
    (chathistory_targets_deferred s).
Definition set_timers (start before : bool) (s : server) : server :=
  Server (have_chathistory s) (connected s) (chathistory_limit s) (last_disconnect_time s) (p_cmp s) (isup s)
    (persistence_attached s) (persistence_cursor_sent s) (persistence_replay_seen s)
    (chathistory_between_unsupported s) (chathistory_suppressed s) (chathistory_fail_streak s)
    (chathistory_latest_pending s) (chathistory_before_sess s) start before (chathistory_targets_deferred s).
Definition set_brake (between suppressed : bool) (streak : Z) (s : server) : server :=
  Server (have_chathistory s) (connected s) (chathistory_limit s) (last_disconnect_time s) (p_cmp s) (isup s)
    (persistence_attached s) (persistence_cursor_sent s) (persistence_replay_seen s)
    between suppressed streak (chathistory_latest_pending s) (chathistory_before_sess s)
    (chathistory_start_timer s) (chathistory_before_timer s) (chathistory_targets_deferred s).

Definition set_targets_deferred (b : bool) (s : server) : server :=
  Server (have_chathistory s) (connected s) (chathistory_limit s) (last_disconnect_time s) (p_cmp s) (isup s)
    (persistence_attached s) (persistence_cursor_sent s) (persistence_replay_seen s)
    (chathistory_between_unsupported s) (chathistory_suppressed s) (chathistory_fail_streak s)
    (chathistory_latest_pending s) (chathistory_before_sess s) (chathistory_start_timer s)
    (chathistory_before_timer s) b.
Definition set_replay_seen (s : server) : server :=
  Server (have_chathistory s) (connected s) (chathistory_limit s) (last_disconnect_time s) (p_cmp s) (isup s)
    (persistence_attached s) (persistence_cursor_sent s) true
    (chathistory_between_unsupported s) (chathistory_suppressed s) (chathistory_fail_streak s)
    (chathistory_latest_pending s) (chathistory_before_sess s) (chathistory_start_timer s)
    (chathistory_before_timer s) (chathistory_targets_deferred s).

Definition fail_streak (n : Z) (s : server) : server :=
  set_brake (chathistory_between_unsupported s) (chathistory_suppressed s) n s.

(** [if (pending > 0) pending--] *)
Definition give_back_slot (s : server) : server :=
  if 0 <? chathistory_latest_pending s then set_latest_pending (chathistory_latest_pending s - 1) s else s.

(** ** Finding sessions *)

(** The first session of a type whose name compares equal. *)
Definition find_session (t : session_type) (name : cstr) (w : world) : option nat :=
  find (fun sid => match w_sessions w !! sid with
                   | Some s => bool_decide (s_type s = t) && (p_cmp (w_serv w) name (channel s) =? 0)
                   | None => false
                   end) (sess_list w).

Definition find_session_for_target (target : cstr) (w : world) : option nat :=
  match target with
  | [] => None
  | _ => match find_session SESS_CHANNEL target w with
         | Some sid => Some sid
         | None => find_session SESS_DIALOG target w
         end
  end.

Definition find_session_with_pending_history (w : world) : option nat :=
  find (fun sid => match w_sessions w !! sid with
                   | Some s => history_loading (s_queue s)
                   | None => false
                   end) (sess_list w).

(** ** Opening a window *)

(** [safe_strcpy (sess->channel, from, CHANLEN)] *)
Definition CHANLEN : Z := 300.

Definition session_new (t : session_type) (name : cstr) : session :=
  Session t name None (Queue None None false false false false)
    (CatchupState false false 0 0 0 None 0 0) (Anchors None None None None 0 ∅) false false false false None.

Section catchup.
Context `{Dates, Sqlite, SqliteScan}.

(** The history state [scrollback_load] (text.c) gives a new window, for a
    window that replays its log. *)
Definition scrollback_load (prefs : preferences) (v : view) : view :=
  match channel (sess v), scrollback v with
  | (_ :: _) as ch, Some db =>
      let db := scrollback_purge_pending db ch in
      let '(db, newest) := scrollback_get_newest_msgid db ch in
      let '(db, oldest) := scrollback_get_oldest_msgid db ch in
      let '(db, newest_time) := scrollback_get_newest_time db ch in
      let v := set_scrollback db v in
      let v :=
        if negb (irc_gapfill prefs) then v
        else if bool_decide (s_type (sess v) = SESS_CHANNEL) then
          if 0 <? irc_gapfill_bootstrap_hours prefs then emit (BootstrapIdle ch) v else v
        else
          let '(db, n) := scrollback_gap_delete_candidates db ch in
          let v := set_scrollback db v in
          if 0 <? n then emit (FeGapUpdated (self v) 0) v else v in
      let a := s_anchors (sess v) in
      let v := set_sess (set_anchors (Anchors
        (match oldest_msgid a with None => oldest | o => o end) (newest_msgid a) oldest newest newest_time
        (known_msgids a))) v in
      match scrollback v with
      | Some db =>
          let db := (scrollback_count db ch).1 in
          let db := (scrollback_get_max_rowid db ch).1 in
          set_scrollback (scrollback_fts_schedule db ch) v
      | None => v
      end
  | _, _ => v
  end.

(** [new_ircwindow (serv, name, SESS_DIALOG, 0)]: the new session and its address. *)
Definition new_dialog `{GLib} (prefs : preferences) (name : cstr) (w : world) : option (world * nat) :=
  name ← safe_strcpy name CHANLEN;
  let sid := fresh (dom (w_sessions w)) in
  let v := View sid (w_serv w) (session_new SESS_DIALOG name) (w_scrollback w) (w_out w) in
  let v := if text_replay prefs then scrollback_load prefs v else v in
  let w := put v w in
  Some (World (w_serv w) (w_sessions w) (sid :: sess_list w) (current_sess w) (w_scrollback w) (chunks w) (w_out w), sid).

(** ** Entering and leaving a catch-up *)

Definition chathistory_batch_is_unsolicited (b : batch) (s : session) : bool :=
  b_nested b || (bool_decide (ch_active (s_queue s) = None) && negb (history_loading (s_queue s))).

Definition set_newest (msgid : option cstr) (time : Z) (s : session) : session :=
  let a := s_anchors s in
  set_anchors (Anchors (oldest_msgid a) (newest_msgid a) (scrollback_oldest_msgid a) msgid time (known_msgids a)) s.

Definition set_oldest (msgid : option cstr) (s : session) : session :=
  let a := s_anchors s in
  set_anchors (Anchors msgid (newest_msgid a) (scrollback_oldest_msgid a) (scrollback_newest_msgid a)
    (scrollback_newest_time a) (known_msgids a)) s.

Definition catchup_enter_latest_phase (prefs : preferences) (now : Z) (v : view) : view :=
  let v :=
    match scrollback v with
    | Some db =>
        let '(db, newest) := scrollback_get_newest_msgid db (channel (sess v)) in
        let '(db, time) := scrollback_get_newest_time db (channel (sess v)) in
        set_sess (set_newest newest time) (set_scrollback db v)
    | None => v
    end in
  let a := s_anchors (sess v) in
  let c := s_catchup (sess v) in
  let lower :=
    if CHATHISTORY_FUZZ_INTERVAL <? scrollback_newest_time a
    then scrollback_newest_time a - CHATHISTORY_FUZZ_INTERVAL
    else if 0 <? irc_chathistory_background_max_age prefs
    then now - irc_chathistory_background_max_age prefs * 3600 else 0 in
  set_sess (set_catchup (CatchupState true false lower 0 (scrollback_newest_time a) (scrollback_newest_msgid a)
    (history_catchup_stale_count c) (history_catchup_retrieved c))) v.

Definition chathistory_begin_unsolicited_catchup (prefs : preferences) (now : Z) (v : view) : view * bool :=
  if negb (have_chathistory (serv v)) || negb (irc_chathistory_auto prefs) || chathistory_suppressed (serv v)
  then (v, false)
  else if catchup_in_progress (s_catchup (sess v)) then (v, false)
  else if history_exhausted (sess v) then (v, false)
  else
    let v := catchup_enter_latest_phase prefs now v in
    (set_serv (fun s => set_latest_pending (chathistory_latest_pending s + 1) s) v, true).

Definition finish_catchup (v : view) : view :=
  let c := s_catchup (sess v) in
  let v := set_sess (set_catchup (CatchupState false false (catchup_lower_bound c) 0
    (catchup_prev_newest_time c) (catchup_prev_newest_msgid c) 0 0)) v in
  let v :=
    match scrollback_oldest_msgid (s_anchors (sess v)) with
    | Some (c :: r) => set_sess (set_oldest (Some (c :: r))) v
    | _ => v
    end in
  let v := emit (FeResetScrollTopBackoff (self v)) v in
  if bool_decide (chathistory_before_sess (serv v) = Some (self v)) then set_serv (set_before_sess None) v else v.

(** The LATEST request of a session: from its newest stored message, if any. *)
Definition request_latest_from_scrollback (prefs : preferences) (v : view) : view :=
  let lines := irc_chathistory_lines prefs in
  match scrollback_newest_msgid (s_anchors (sess v)) with
  | Some (c :: r) => chathistory_request_latest (Some (msgid_ref (c :: r))) lines v
  | _ =>
      if 0 <? scrollback_newest_time (s_anchors (sess v))
      then chathistory_request_latest (Some (chathistory_ts_ref (scrollback_newest_time (s_anchors (sess v))))) lines v
      else chathistory_request_latest None lines v
  end.

Definition set_in_progress (b : bool) (s : session) : session :=
  let c := s_catchup s in
  set_catchup (CatchupState b (catchup_is_before c) (catchup_lower_bound c) (catchup_gap_id c)
    (catchup_prev_newest_time c) (catchup_prev_newest_msgid c) (history_catchup_stale_count c)
    (history_catchup_retrieved c)) s.

Definition chathistory_start_catchup (prefs : preferences) (v : view) : view :=
  if negb (irc_chathistory_auto prefs) || negb (have_chathistory (serv v)) then v
  else if history_loading (s_queue (sess v)) || catchup_in_progress (s_catchup (sess v)) then v
  else request_latest_from_scrollback prefs (set_sess (set_in_progress true) v).

Definition chathistory_stop_background_fetch (s : session) : session := set_background false false s.

Definition chathistory_cancel_catchup (s : session) : session :=
  chathistory_stop_background_fetch (chathistory_queue_free (set_in_progress false s)).

Definition send_deferred_latest (prefs : preferences) (now : Z) (v : view) : view :=
  if history_loading (s_queue (sess v)) || catchup_in_progress (s_catchup (sess v)) || history_exhausted (sess v)
  then v
  else if negb (bool_decide (s_type (sess v) = SESS_CHANNEL)) || bool_decide (channel (sess v) = []) then v
  else
    let v := request_latest_from_scrollback prefs (catchup_enter_latest_phase prefs now v) in
    set_serv (fun s => set_latest_pending (chathistory_latest_pending s + 1) s) v.

(** ** Background fetching *)

Definition chathistory_can_request_more (v : view) : bool :=
  have_chathistory (serv v) && negb (history_exhausted (sess v)) && negb (history_loading (s_queue (sess v))).

Definition background_history_timer_cb (prefs : preferences) (v : view) : view :=
  let v := set_sess (fun s => set_background (background_history_active s) false s) v in
  if negb (background_history_active (sess v)) then v
  else if negb (chathistory_can_request_more v) then set_sess (set_background false false) v
  else
    match oldest_msgid (s_anchors (sess v)) with
    | Some (c :: r) => chathistory_request_before_msgid (c :: r) (irc_chathistory_lines prefs) v
    | _ => set_sess (set_background false false) v
    end.

Definition schedule_background_fetch (prefs : preferences) (v : view) : view :=
  if negb (background_history_active (sess v)) then v
  else if background_history_timer (sess v) then v
  else
    let delay := irc_chathistory_background_delay prefs in
    emit (TimerStart (if delay <? 5 then 5 else delay)) (set_sess (set_background true true) v).

Definition chathistory_start_background_fetch (prefs : preferences) (v : view) : view :=
  if negb (irc_chathistory_background prefs) || negb (have_chathistory (serv v)) || history_exhausted (sess v) then v
  else
    match oldest_msgid (s_anchors (sess v)) with
    | Some (_ :: _) =>
        schedule_background_fetch prefs
          (set_sess (fun s => set_background true (background_history_timer s) s) v)
    | _ => v
    end.

(** ** The BEFORE phase *)

Definition schedule_before_catchup (w : world) : world :=
  let w := upd_serv (fun s => set_timers (chathistory_start_timer s) true s) w in
  World (w_serv w) (w_sessions w) (sess_list w) (current_sess w) (w_scrollback w) (chunks w)
    (w_out w ++ [TimerStart CHATHISTORY_BEFORE_DELAY]).

(** A session that waits for its BEFORE phase or its next page. *)
Definition needs_before (s : session) : bool :=
  catchup_in_progress (s_catchup s) && negb (history_exhausted s) && negb (history_loading (s_queue s)).

Definition sess_needs_before (w : world) (sid : nat) : bool :=
  match w_sessions w !! sid with Some s => needs_before s | None => false end.

Definition pick_before (prefs : preferences) (w : world) : option nat :=
  match current_sess w with
  | Some cur =>
      if sess_needs_before w cur then Some cur
      else if irc_gapfill prefs then find (sess_needs_before w) (sess_list w) else None
  | None => if irc_gapfill prefs then find (sess_needs_before w) (sess_list w) else None
  end.

Definition set_is_before (b : bool) (s : session) : session :=
  let c := s_catchup s in
  set_catchup (CatchupState (catchup_in_progress c) b (catchup_lower_bound c) (catchup_gap_id c)
    (catchup_prev_newest_time c) (catchup_prev_newest_msgid c) (history_catchup_stale_count c)
    (history_catchup_retrieved c)) s.

(** The session the phase is on loads: [None] when that session is gone. *)
Definition before_sess_loading (w : world) : option bool :=
  match chathistory_before_sess (w_serv w) with
  | None => Some false
  | Some b => s ← w_sessions w !! b; Some (history_loading (s_queue s))
  end.

Definition chathistory_check_before_catchup (prefs : preferences) (w : world) : option world :=
  if negb (connected (w_serv w)) || negb (have_chathistory (w_serv w)) then Some w
  else if 0 <? chathistory_latest_pending (w_serv w) then Some w
  else
    loading ← before_sess_loading w;
    if (loading : bool) then Some w
    else
      match pick_before prefs w with
      | None => Some (upd_serv (set_before_sess None) w)
      | Some target =>
          on target (fun v =>
            let v := set_sess (set_is_before true) (set_serv (set_before_sess (Some target)) v) in
            match oldest_msgid (s_anchors (sess v)) with
            | Some (c :: r) => chathistory_request_before_msgid (c :: r) CHATHISTORY_BEFORE_LIMIT v
            | _ => set_serv (set_before_sess None) (finish_catchup v)
            end) w
      end.

Definition chathistory_before_timer_cb (prefs : preferences) (w : world) : option world :=
  let w := upd_serv (fun s => set_timers (chathistory_start_timer s) false s) w in
  if negb (connected (w_serv w)) then Some w else chathistory_check_before_catchup prefs w.

Definition chathistory_notify_tab_switch (prefs : preferences) (new_sess : nat) (w : world) : option world :=
  if negb (have_chathistory (w_serv w)) then Some w
  else if negb (bool_decide (chathistory_before_sess (w_serv w) = Some new_sess)) &&
          (chathistory_latest_pending (w_serv w) =? 0)
  then chathistory_check_before_catchup prefs w
  else Some w.

(** ** The deferred start *)

Definition emit_w (e : event) (w : world) : world :=
  World (w_serv w) (w_sessions w) (sess_list w) (current_sess w) (w_scrollback w) (chunks w) (w_out w ++ [e]).

Definition chathistory_request_targets (start_ref end_ref : cstr) (limit : Z) (w : world) : world :=
  if negb (have_chathistory (w_serv w)) || negb (connected (w_serv w)) then w
  else if bool_decide (start_ref = []) || bool_decide (end_ref = []) then w
  else emit_w (Labeled "CHATHISTORY" None
         (fmt [("CHATHISTORY TARGETS " : cstr); start_ref; (" " : cstr); end_ref; (" " : cstr);
               int_text (get_effective_limit (w_serv w) limit); EOL])) w.

Definition send_reconnect_targets_request (now : Z) (w : world) : world :=
  if negb (have_chathistory (w_serv w)) || negb (connected (w_serv w)) then w
  else if last_disconnect_time (w_serv w) =? 0 then w
  else
    let lower_bound := last_disconnect_time (w_serv w) - CHATHISTORY_FUZZ_INTERVAL in
    chathistory_request_targets (chathistory_ts_ref (now + CHATHISTORY_FUZZ_INTERVAL))
      (chathistory_ts_ref lower_bound) 0 w.

Definition persistence_server_drives_replay (s : server) : bool :=
  persistence_attached s && persistence_cursor_sent s && negb (persistence_replay_seen s).

Definition chathistory_request_targets_on_reconnect (now : Z) (w : world) : world :=
  if persistence_server_drives_replay (w_serv w) then upd_serv (set_targets_deferred true) w
  else send_reconnect_targets_request now w.

(** Milliseconds. *)
Definition CHATHISTORY_DEFERRED_DELAY : Z := 2000.

Definition chathistory_schedule_deferred (prefs : preferences) (w : world) : world :=
  if negb (have_chathistory (w_serv w)) || negb (irc_chathistory_auto prefs) then w
  else
    let delay := if persistence_server_drives_replay (w_serv w)
                 then CHATHISTORY_DEFERRED_DELAY * 10 else CHATHISTORY_DEFERRED_DELAY in
    emit_w (TimerStart (delay / 1000)) (upd_serv (fun s => set_timers true (chathistory_before_timer s) s) w).

Definition chathistory_replay_wrapper_begin (w : world) : world :=
  let was_provisional := persistence_server_drives_replay (w_serv w) in
  let w := upd_serv set_replay_seen w in
  if negb was_provisional then w
  else upd_serv (fun s => set_targets_deferred false (set_timers false (chathistory_before_timer s) s)) w.

Definition chathistory_replay_wrapper_end (prefs : preferences) (w : world) : option world :=
  if chathistory_latest_pending (w_serv w) =? 0 then chathistory_check_before_catchup prefs w else Some w.

Definition send_latest_to (prefs : preferences) (now : Z) (sids : list nat) (w : world) : option world :=
  foldl (fun w sid => w ≫= on sid (send_deferred_latest prefs now)) (Some w) sids.

Definition chathistory_deferred_start_cb (prefs : preferences) (now : Z) (w : world) : option world :=
  let w := upd_serv (fun s => set_timers false (chathistory_before_timer s) s) w in
  if negb (connected (w_serv w)) || negb (have_chathistory (w_serv w)) || negb (irc_chathistory_auto prefs)
  then Some w
  else
    let w :=
      if chathistory_targets_deferred (w_serv w)
      then send_reconnect_targets_request now (upd_serv (set_targets_deferred false) w) else w in
    let w := upd_serv (set_latest_pending 0) w in
    let is_current sid := bool_decide (current_sess w = Some sid) in
    w ← match current_sess w with Some cur => send_latest_to prefs now [cur] w | None => Some w end;
    send_latest_to prefs now (List.filter (fun sid => negb (is_current sid)) (sess_list w)) w.
End catchup.

(** ** Messages of a batch *)

(** What the inbound handlers store of a replayed message. *)
Class Inbound := { store_replayed : cstr -> batch_message -> scrollback_db -> scrollback_db }.

(** Stored as a message of its channel. *)
#[export] Instance inbound_ref `{Sqlite} : Inbound := {|
  store_replayed ch m db :=
    (scrollback_db_save db ch (bm_timestamp m) (bm_msgid m) (default [] (last (bm_params m))) true).1 |}.

Section batches.
Context `{GLib, Dates, Sqlite, SqliteScan, Inbound}.

Definition process_batch_message (m : batch_message) (v : view) : view * bool :=
  match bm_command m with
  | None => (v, false)
  | Some command =>
      let '(v, dup) :=
        match bm_msgid m with
        | Some msgid => chathistory_is_duplicate_msgid msgid (bm_timestamp m) v
        | None => (v, false)
        end in
      if dup then (v, false)
      else
        let v :=
          match bm_msgid m with
          | Some msgid => set_sess (chathistory_track_msgid_ts msgid (bm_timestamp m) true) v
          | None => v
          end in
        let own_join :=
          (g_ascii_strcasecmp command ("JOIN" : cstr) =? 0) &&
          match join_msgid (sess v), bm_msgid m with Some j, Some i => bool_decide (j = i) | _, _ => false end in
        if own_join then (v, true)
        else
          let v := emit (Replay (self v) m) v in
          (match scrollback v with
           | Some db => set_scrollback (store_replayed (channel (sess v)) m db) v
           | None => v
           end, true)
  end.

(** The bounds of the times seen so far. *)
Definition widen (ts : Z) (bounds : Z * Z) : Z * Z :=
  let '(oldest, newest) := bounds in
  if 0 <? ts then
    (if (oldest =? 0) || (ts <? oldest) then ts else oldest, if newest <? ts then ts else newest)
  else bounds.

Fixpoint process_messages (ms : list batch_message) (count : Z) (bounds : Z * Z) (v : view) : view * Z * (Z * Z) :=
  match ms with
  | [] => (v, count, bounds)
  | m :: ms =>
      let '(v, fresh) := process_batch_message m v in
      process_messages ms (if (fresh : bool) then count + 1 else count) (widen (bm_timestamp m) bounds) v
  end.

(** Up to a chunk of the remaining messages. *)
Definition process_chunk_messages (c : chunk) (v : view) : view * chunk :=
  let '(v, count, (oldest, newest)) :=
    process_messages (take CHATHISTORY_CHUNK_SIZE (remaining c)) (msg_count c)
      (oldest_timestamp c, newest_timestamp c) v in
  (v, Chunk (ck_sess c) (drop CHATHISTORY_CHUNK_SIZE (remaining c)) count (raw_count c) oldest newest
        (batch_oldest_msgid c) (batch_newest_msgid c) (is_catchup c) (chathistory_end c) (unsolicited c)
        (latest_owned c) (latest_slot_owed c) (ck_gap_id c) (ck_gap_dir c)).

(** ** After a batch *)

(** A ledger operation on the gap the catch-up is closing. *)
Definition on_catchup_gap (op : scrollback_db -> Z -> scrollback_db) (v : view) : view :=
  let id := catchup_gap_id (s_catchup (sess v)) in
  if 0 <? id then
    match scrollback v with
    | Some db => emit (FeGapUpdated (self v) id) (set_scrollback (op db id) v)
    | None => v
    end
  else v.

Definition mark_dead (db : scrollback_db) (id : Z) : scrollback_db :=
  scrollback_gap_set_state db id SCROLLBACK_GAP_DEAD.

Definition set_counts (stale retrieved : Z) (s : session) : session :=
  let c := s_catchup s in
  set_catchup (CatchupState (catchup_in_progress c) (catchup_is_before c) (catchup_lower_bound c) (catchup_gap_id c)
    (catchup_prev_newest_time c) (catchup_prev_newest_msgid c) stale retrieved) s.

Definition set_gap_id (id : Z) (s : session) : session :=
  let c := s_catchup s in
  set_catchup (CatchupState (catchup_in_progress c) (catchup_is_before c) (catchup_lower_bound c) id
    (catchup_prev_newest_time c) (catchup_prev_newest_msgid c) (history_catchup_stale_count c)
    (history_catchup_retrieved c)) s.

Definition exhaust (s : session) : session := set_flags true (history_insert_sorted_mode s) s.

(** How a page of the BEFORE phase ends: the catch-up is finished and the
    scheduler asked for the next session, or another hop is scheduled. *)
Inductive page_end := FinishCatchup | ScheduleHop.

Definition before_page (prefs : preferences) (ck : chunk) (v : view) : view * page_end :=
  let retrieved := history_catchup_retrieved (s_catchup (sess v)) + msg_count ck in
  let v := set_sess (fun s => set_counts (history_catchup_stale_count (s_catchup s)) retrieved s) v in
  let v :=
    if (0 <? raw_count ck) && (0 <? oldest_timestamp ck)
    then on_catchup_gap (fun db id => scrollback_gap_shrink db id 0 None (oldest_timestamp ck) (batch_oldest_msgid ck)) v
    else v in
  if (raw_count ck =? 0) || history_exhausted (sess v) then (on_catchup_gap mark_dead v, FinishCatchup)
  else
    let lower := catchup_lower_bound (s_catchup (sess v)) in
    if (0 <? lower) && (0 <? oldest_timestamp ck) && (oldest_timestamp ck <? lower)
    then (on_catchup_gap scrollback_gap_delete v, FinishCatchup)
    else
      let stale := if msg_count ck =? 0 then history_catchup_stale_count (s_catchup (sess v)) + 1 else 0 in
      let v := set_sess (set_counts stale retrieved) v in
      if 3 <=? stale then (on_catchup_gap mark_dead (set_sess exhaust v), FinishCatchup)
      else if irc_gapfill prefs && (0 <? irc_gapfill_catchup_budget prefs) &&
              (irc_gapfill_catchup_budget prefs <=? retrieved) then (v, FinishCatchup)
      else if CHATHISTORY_SANITY_LIMIT <=? retrieved then (v, FinishCatchup)
      else match batch_oldest_msgid ck with Some _ => (v, ScheduleHop) | None => (v, FinishCatchup) end.

(** The end of the LATEST phase of a session: what lies between its newest
    stored message and the batch is recorded as a witnessed gap. *)
Definition latest_page (prefs : preferences) (ck : chunk) (v : view) : view :=
  let c := s_catchup (sess v) in
  let v :=
    if latest_owned ck && irc_gapfill prefs && (0 <? raw_count ck) && (0 <? catchup_prev_newest_time c) &&
       (0 <? oldest_timestamp ck) && (0 <? catchup_lower_bound c) && (catchup_lower_bound c <? oldest_timestamp ck)
    then
      match scrollback v with
      | Some db =>
          let '(db, id) := scrollback_gap_record db (channel (sess v)) (catchup_prev_newest_time c)
            (catchup_prev_newest_msgid c) (oldest_timestamp ck) (batch_oldest_msgid ck) SCROLLBACK_GAP_WITNESSED in
          let v := set_sess (set_gap_id id) (set_scrollback db v) in
          if 0 <? id then emit (FeGapUpdated (self v) id) v else v
      | None => v
      end
    else v in
  if latest_owned ck then set_serv give_back_slot v else v.

(** The answer to a gap fill narrows the gap from the side it was approached
    from, or closes it. *)
Definition gap_bridged (prefs : preferences) (serv : server) (ck : chunk) (g : gap) : bool :=
  (if ck_gap_dir ck <? 0
   then (0 <? oldest_timestamp ck) && (oldest_timestamp ck <=? start_ts g)
   else (0 <? newest_timestamp ck) && (end_ts g <=? newest_timestamp ck)) ||
  (raw_count ck <? get_effective_limit serv (irc_chathistory_lines prefs)).

Definition fill_gap (prefs : preferences) (ck : chunk) (v : view) : view :=
  if (0 <? ck_gap_id ck) && (0 <? raw_count ck) then
    match scrollback v with
    | Some db =>
        match scrollback_gap_get db (ck_gap_id ck) with
        | Some g =>
            let db :=
              if gap_bridged prefs (serv v) ck g then scrollback_gap_delete db (ck_gap_id ck)
              else if ck_gap_dir ck <? 0
              then scrollback_gap_shrink db (ck_gap_id ck) 0 None (oldest_timestamp ck) (batch_oldest_msgid ck)
              else scrollback_gap_shrink db (ck_gap_id ck) (newest_timestamp ck) (batch_newest_msgid ck) 0 None in
            emit (FeGapUpdated (self v) (ck_gap_id ck)) (set_scrollback db v)
        | None => v
        end
    | None => v
    end
  else v.

Definition history_page (prefs : preferences) (now : Z) (ck : chunk) (v : view) : view :=
  let stop s := set_background false (background_history_timer s) s in
  let cutoff := if 0 <? irc_chathistory_background_max_age prefs
                then now - irc_chathistory_background_max_age prefs * 3600 else 0 in
  let v :=
    if background_history_active (sess v) && (0 <? oldest_timestamp ck) && (0 <? cutoff) &&
       (oldest_timestamp ck <? cutoff) then set_sess stop v else v in
  let v := if (0 <? raw_count ck) && (msg_count ck =? 0) then set_sess stop v else v in
  let v := emit (FeResetScrollTopBackoff (self v)) (fill_gap prefs ck v) in
  if background_history_active (sess v) && negb (history_exhausted (sess v))
  then schedule_background_fetch prefs v else v.

(** The bookkeeping common to all batches. *)
Definition retire_batch (ck : chunk) (v : view) : view :=
  let v := set_serv (fail_streak 0) v in
  let v := set_sess (fun s => set_flags (history_exhausted s) false s) v in
  let v := emit (FeSetBatchMode (self v) false) v in
  let v := if unsolicited ck then v else chathistory_request_complete v in
  let v :=
    match batch_oldest_msgid ck with
    | Some id => if (0 <? raw_count ck) && negb (unsolicited ck && negb (latest_owned ck))
                 then set_sess (set_oldest (Some id)) v else v
    | None => v
    end in
  if chathistory_end ck && (ck_gap_id ck =? 0) && negb (unsolicited ck) then set_sess exhaust v else v.

Definition finish_batch_processing (prefs : preferences) (now : Z) (ck : chunk) (w : world) : option world :=
  v ← look (ck_sess ck) w;
  let v := retire_batch ck v in
  if is_catchup ck then
    if catchup_is_before (s_catchup (sess v)) then
      let '(v, how) := before_page prefs ck v in
      match how with
      | FinishCatchup => chathistory_check_before_catchup prefs (put (finish_catchup v) w)
      | ScheduleHop => Some (schedule_before_catchup (put (set_serv (set_before_sess None) v) w))
      end
    else
      let w := put (latest_page prefs ck v) w in
      if chathistory_latest_pending (w_serv w) =? 0 then chathistory_check_before_catchup prefs w else Some w
  else Some (put (history_page prefs now ck v) w).

(** ** A batch arrives *)

Fixpoint insert_by_time (m : batch_message) (l : list batch_message) : list batch_message :=
  match l with
  | [] => [m]
  | x :: l => if bm_timestamp m <=? bm_timestamp x then m :: x :: l else x :: insert_by_time m l
  end.

(** [g_slist_sort], which is stable, by [compare_batch_msg_timestamp]. *)
Definition sort_by_time (l : list batch_message) : list batch_message := foldr insert_by_time [] l.

(** The messages that are history themselves. *)
Definition raw_messages (l : list batch_message) : list batch_message := List.filter (fun m => negb (bm_context m)) l.

Definition batch_chunk (sid : nat) (b : batch) (catchup uns owned before : bool) (gap_id gap_dir : Z) : chunk :=
  let ms := sort_by_time (b_messages b) in
  let ids := omap bm_msgid (raw_messages ms) in
  Chunk sid ms 0 (Z.of_nat (length (raw_messages ms))) 0 0 (head ids) (last ids) catchup (b_end b) uns owned
    (catchup && owned && negb before) gap_id gap_dir.

(** An empty answer to a gap fill: asked again with timestamps, or closed for good. *)
Definition empty_gap_fill (prefs : preferences) (now gap_id gap_dir : Z) (v : view) : view :=
  let '(v, retried) := gap_fill_retry_with_timestamps prefs now gap_id gap_dir v in
  if retried then v
  else
    match scrollback v with
    | Some db => emit (FeGapUpdated (self v) gap_id) (set_scrollback (mark_dead db gap_id) v)
    | None => v
    end.

Definition empty_batch (prefs : preferences) (now : Z) (b : batch) (catchup uns owned : bool) (gap_id gap_dir : Z)
    (v : view) (w : world) : option world :=
  let sid := self v in
  let used_msgid := history_request_used_msgid (s_queue (sess v)) in
  let v := if b_end b && (gap_id =? 0) && negb uns then set_sess exhaust v else v in
  let v := if uns then v else chathistory_request_complete v in
  if 0 <? gap_id then Some (put (empty_gap_fill prefs now gap_id gap_dir v) w)
  else if catchup then
    if negb uns && negb (history_exhausted (sess v)) && used_msgid && (0 <? scrollback_newest_time (s_anchors (sess v)))
    then Some (put (chathistory_request_latest
           (Some (chathistory_ts_ref (scrollback_newest_time (s_anchors (sess v))))) (irc_chathistory_lines prefs) v) w)
    else
      let v := finish_catchup v in
      let v := if owned then set_serv give_back_slot v else v in
      let w := put v w in
      if chathistory_latest_pending (w_serv w) =? 0 then chathistory_check_before_catchup prefs w else Some w
  else Some (put (if uns then v else set_sess exhaust v) w).

Definition chunk_init (ck : chunk) (w : world) : option world :=
  on (ck_sess ck) (fun v =>
    emit (FeSetBatchMode (self v) true) (set_sess (fun s => set_flags (history_exhausted s) true s) v)) w.

Definition start_batch (prefs : preferences) (now : Z) (ck : chunk) (w : world) : option world :=
  w ← chunk_init ck w;
  if raw_count ck <=? Z.of_nat CHATHISTORY_CHUNK_SIZE then
    v ← look (ck_sess ck) w;
    let '(v, ck) := process_chunk_messages ck v in
    finish_batch_processing prefs now ck (put v w)
  else
    let id := fresh (dom (chunks w)) in
    w ← on (ck_sess ck) (set_sess (set_chunk_state (Some id))) w;
    Some (upd_chunks <[id := ck]> w).

Definition chathistory_process_batch (prefs : preferences) (now : Z) (b : batch) (w : world) : option world :=
  '(w, sid) ←
    match b_target b with
    | None => Some (w, None)
    | Some target =>
        match find_session_for_target target w with
        | Some sid => Some (w, Some sid)
        | None =>
            if b_nested b && negb (bool_decide (target = [])) && negb (is_channel (isup (w_serv w)) target)
            then '(w, sid) ← new_dialog prefs target w; Some (w, Some sid)
            else Some (w, None)
        end
    end;
  match sid with
  | None => Some w
  | Some sid =>
      v ← look sid w;
      let '(gap_id, gap_dir) :=
        match ch_active (s_queue (sess v)) with
        | Some r => if b_nested b then (0, 0) else (rq_gap_id r, rq_gap_dir r)
        | None => (0, 0)
        end in
      let catchup := catchup_in_progress (s_catchup (sess v)) && (gap_id =? 0) in
      let uns := chathistory_batch_is_unsolicited b (sess v) in
      let '(v, owned) := if uns then chathistory_begin_unsolicited_catchup prefs now v else (v, true) in
      let catchup := if uns then owned else catchup in
      match b_messages b with
      | [] => empty_batch prefs now b catchup uns owned gap_id gap_dir v w
      | _ => start_batch prefs now
               (batch_chunk sid b catchup uns owned (catchup_is_before (s_catchup (sess v))) gap_id gap_dir) (put v w)
      end
  end.

(** ** The pieces of a large batch *)

Definition release_latest_slot (ck : chunk) (w : world) : world :=
  if latest_slot_owed ck then upd_serv give_back_slot w else w.

(** [chunk_state_free]: the session forgets the batch when it points to it. *)
Definition chunk_state_free (id : nat) (ck : chunk) (w : world) : world :=
  let w :=
    match look (ck_sess ck) w with
    | Some v => if bool_decide (chunk_state (sess v) = Some id) then put (set_sess (set_chunk_state None) v) w else w
    | None => w
    end in
  upd_chunks (delete id) w.

Definition is_session (sid : nat) (w : world) : bool := bool_decide (sid ∈ sess_list w).

(** The timer of a batch; [None] also when no such batch is under way. *)
Definition chunk_idle_cb (prefs : preferences) (now : Z) (id : nat) (w : world) : option world :=
  ck ← chunks w !! id;
  if negb (is_session (ck_sess ck) w) then Some (upd_chunks (delete id) (release_latest_slot ck w))
  else
    v ← look (ck_sess ck) w;
    let '(v, ck) := process_chunk_messages ck v in
    let w := put v w in
    match remaining ck with
    | [] => w ← finish_batch_processing prefs now ck w; Some (chunk_state_free id ck w)
    | _ => Some (upd_chunks <[id := ck]> w)
    end.

Definition chathistory_cancel_chunk_processing (sid : nat) (w : world) : option world :=
  v ← look sid w;
  match chunk_state (sess v) with
  | None => Some w
  | Some id =>
      ck ← chunks w !! id;
      let v := emit (FeSetBatchMode sid false) (set_sess (fun s => set_flags (history_exhausted s) false s) v) in
      let w := put (set_sess chathistory_queue_free v) w in
      Some (chunk_state_free id ck (release_latest_slot ck w))
  end.

(** What [session_free] (poxchat.c) does to the history; [next] is the session
    it makes the front one. *)
Definition session_free (sid : nat) (next : option nat) (w : world) : option world :=
  let w := World (w_serv w) (w_sessions w) (List.filter (fun s => negb (Nat.eqb s sid)) (sess_list w))
    (current_sess w) (w_scrollback w) (chunks w) (w_out w) in
  w ← on sid (set_sess chathistory_stop_background_fetch) w;
  w ← chathistory_cancel_chunk_processing sid w;
  w ← on sid (set_sess chathistory_queue_free) w;
  Some (World (w_serv w) (delete sid (w_sessions w)) (sess_list w)
    (if bool_decide (current_sess w = Some sid) then next else current_sess w)
    (w_scrollback w) (chunks w) (w_out w)).

(** The part of [clear_channel] (inbound.c) that concerns the history. *)
Definition clear_channel (s : session) : session :=
  chathistory_cancel_catchup
    (Session (s_type s) [] (join_msgid s) (s_queue s) (s_catchup s) (s_anchors s) (history_exhausted s)
       (history_insert_sorted_mode s) (background_history_active s) (background_history_timer s) (chunk_state s)).

(** ** Failures *)

Definition between_codes : list cstr :=
  [("UNKNOWN_COMMAND" : cstr); ("NEED_MORE_PARAMS" : cstr); ("INVALID_PARAMS" : cstr); ("INVALID_MSGREFTYPES" : cstr)].

Definition between_rejected (t : chreq_type) (code : cstr) : bool :=
  bool_decide (t = CHREQ_BETWEEN) && negb (bool_decide (code = [])) &&
  existsb (fun c => g_ascii_strcasecmp code c =? 0) between_codes.

(** Three strikes. *)
Definition strike_gap (gap_id : Z) (v : view) : view :=
  match scrollback v with
  | None => v
  | Some db =>
      let v :=
        match scrollback_gap_get db gap_id with
        | Some g => if 3 <=? attempts g then set_scrollback (mark_dead db gap_id) v else v
        | None => v
        end in
      emit (FeGapUpdated (self v) gap_id) v
  end.

Definition fail_gap_fill (prefs : preferences) (now gap_id gap_dir : Z) (between_latched : bool) (v : view) : view :=
  let '(v, retried) := if between_latched then (v, false) else gap_fill_retry_with_timestamps prefs now gap_id gap_dir v in
  if retried then v else strike_gap gap_id v.

Definition fail_session (prefs : preferences) (now : Z) (code : cstr) (v : view) (w : world) : option world :=
  let q := s_queue (sess v) in
  let used_msgid := history_request_used_msgid q in
  let c := s_catchup (sess v) in
  let was_catchup_latest := catchup_in_progress c && negb (catchup_is_before c) in
  let '(failed_type, gap_id, gap_dir) :=
    match ch_active q with Some r => (rq_type r, rq_gap_id r, rq_gap_dir r) | None => (CHREQ_LATEST, 0, 0) end in
  let streak := chathistory_fail_streak (serv v) + 1 in
  let latched := between_rejected failed_type code in
  let v := set_serv (fun s => set_brake (latched || chathistory_between_unsupported s)
             ((4 <=? streak) || chathistory_suppressed s) streak s) v in
  let v := chathistory_request_complete v in
  if 0 <? gap_id then Some (put (fail_gap_fill prefs now gap_id gap_dir latched v) w)
  else if catchup_in_progress (s_catchup (sess v)) then
    if negb (chathistory_suppressed (serv v)) && used_msgid && (0 <? scrollback_newest_time (s_anchors (sess v)))
    then Some (put (chathistory_request_latest
           (Some (chathistory_ts_ref (scrollback_newest_time (s_anchors (sess v))))) (irc_chathistory_lines prefs) v) w)
    else
      let v := finish_catchup (if was_catchup_latest then set_serv give_back_slot v else v) in
      let w := put v w in
      if chathistory_latest_pending (w_serv w) =? 0 then chathistory_check_before_catchup prefs w else Some w
  else Some (put v w).

Definition chathistory_handle_fail (prefs : preferences) (now : Z) (code context : cstr) (w : world) : option world :=
  let sid :=
    match find_session_for_target context w with
    | Some sid => Some sid
    | None => find_session_with_pending_history w
    end in
  match sid with
  | None => Some w
  | Some sid => v ← look sid w; fail_session prefs now code v w
  end.

(** ** CHATHISTORY TARGETS *)

(** The conversations of the answer, each caught up in its window. *)
Definition target_of (m : batch_message) : option cstr :=
  match bm_command m with
  | Some command =>
      if negb (g_ascii_strcasecmp command ("CHATHISTORY" : cstr) =? 0) then None
      else match bm_params m with
           | sub :: target :: _ :: _ =>
               if (g_ascii_strcasecmp sub ("TARGETS" : cstr) =? 0) && negb (bool_decide (target = []))
               then Some target else None
           | _ => None
           end
  | None => None
  end.

Fixpoint process_targets (prefs : preferences) (ms : list batch_message) (w : world) : option world :=
  match ms with
  | [] => Some w
  | m :: ms =>
      match target_of m with
      | None => process_targets prefs ms w
      | Some target =>
          if is_channel (isup (w_serv w)) target then process_targets prefs ms w
          else
            '(w, sid) ← match find_session SESS_DIALOG target w with
                        | Some sid => Some (w, sid)
                        | None => new_dialog prefs target w
                        end;
            w ← on sid (chathistory_start_catchup prefs) w;
            process_targets prefs ms w
      end
  end.

Definition chathistory_process_targets_batch (prefs : preferences) (b : batch) (w : world) : option world :=
  process_targets prefs (b_messages b) w.

(** ** The connection *)

(** What [server_cleanup] (server.c) resets of a connected server. *)
Definition history_disconnected (s : server) : server :=
  set_targets_deferred false (set_before_sess None (set_latest_pending 0 (set_timers false false
    (Server (have_chathistory s) false (chathistory_limit s) (last_disconnect_time s) (p_cmp s) (isup s)
       (persistence_attached s) (persistence_cursor_sent s) (persistence_replay_seen s)
       (chathistory_between_unsupported s) (chathistory_suppressed s) (chathistory_fail_streak s)
       (chathistory_latest_pending s) (chathistory_before_sess s) (chathistory_start_timer s)
       (chathistory_before_timer s) (chathistory_targets_deferred s))))).

(** What [persistence_reset] (persistence.c) resets of the flags kept here. *)
Definition persistence_reset (s : server) : server :=
  Server (have_chathistory s) (connected s) (chathistory_limit s) (last_disconnect_time s) (p_cmp s) (isup s)
    false false false (chathistory_between_unsupported s) (chathistory_suppressed s) (chathistory_fail_streak s)
    (chathistory_latest_pending s) (chathistory_before_sess s) (chathistory_start_timer s)
    (chathistory_before_timer s) (chathistory_targets_deferred s).

Definition set_disconnect_time (now : Z) (s : server) : server :=
  Server (have_chathistory s) (connected s) (chathistory_limit s) now (p_cmp s) (isup s)
    (persistence_attached s) (persistence_cursor_sent s) (persistence_replay_seen s)
    (chathistory_between_unsupported s) (chathistory_suppressed s) (chathistory_fail_streak s)
    (chathistory_latest_pending s) (chathistory_before_sess s) (chathistory_start_timer s)
    (chathistory_before_timer s) (chathistory_targets_deferred s).

(** What [server_disconnect] (server.c) does to the sessions of a server that
    is connected, or waits to reconnect ([delayed]): every window but the open
    dialogs is cleared.  Otherwise it returns early. *)
Definition server_disconnect (now : Z) (delayed : bool) (w : world) : world :=
  let s := w_serv w in
  if negb (connected s) && negb delayed then w
  else
    World (persistence_reset (if connected s then history_disconnected (set_disconnect_time now s) else s))
      ((fun s => if bool_decide (channel s = []) || bool_decide (s_type s = SESS_CHANNEL) then clear_channel s else s)
         <$> w_sessions w)
      (sess_list w) (current_sess w) (w_scrollback w) (chunks w) (w_out w).

(** The draft/chathistory capability is acknowledged or withdrawn (inbound.c). *)
Definition history_capability (enable : bool) (s : server) : server :=
  let s := Server enable (connected s) (chathistory_limit s) (last_disconnect_time s) (p_cmp s) (isup s)
       (persistence_attached s) (persistence_cursor_sent s) (persistence_replay_seen s)
       (chathistory_between_unsupported s) (chathistory_suppressed s) (chathistory_fail_streak s)
       (chathistory_latest_pending s) (chathistory_before_sess s) (chathistory_start_timer s)
       (chathistory_before_timer s) (chathistory_targets_deferred s) in
  if enable then set_brake false false 0 s else s.
End batches.
