(* ===== verification/CatchupSpec.v ===== *)
(** * Safety of the history machinery

    No handler follows a dangling session as long as the session of the BEFORE
    phase is not closed, and all of them keep the request slots of every session
    in order. *)
From S2P Require Import Prelude Glib Text Access Proto Scrollback GapLedger Chathistory ChathistorySpec Catchup.

(** ** Calls for one session *)

(** What every call for a session respects. *)
Record vstep (v v' : view) : Prop := {
  vs_self : self v' = self v;
  vs_chunk : chunk_state (sess v') = chunk_state (sess v);
  vs_before : chathistory_before_sess (serv v') = chathistory_before_sess (serv v) \/
    chathistory_before_sess (serv v') = None \/ chathistory_before_sess (serv v') = Some (self v);
  vs_queue : queue_ok (s_queue (sess v)) -> queue_ok (s_queue (sess v'));
  vs_pending : 0 <= chathistory_latest_pending (serv v) -> 0 <= chathistory_latest_pending (serv v') }.

#[export] Instance vstep_preorder : PreOrder vstep.
Proof.
  split; [constructor; auto|]. intros a b c [A1 A2 A3 A4 A5] [B1 B2 B3 B4 B5].
  constructor; [congruence..| |auto|auto].
  destruct B3 as [B3|[B3|B3]]; [destruct A3 as [A3|[A3|A3]]|..]; rewrite ?B3, ?A3, ?A1; auto.
Qed.

(** The session changes outside its slots. *)
Lemma vstep_sess f v :
  s_queue (f (sess v)) = s_queue (sess v) -> chunk_state (f (sess v)) = chunk_state (sess v) ->
  vstep v (set_sess f v).
Proof. intros Hq Hc. constructor; simpl; rewrite ?Hq; auto. Qed.

Lemma vstep_slots f v :
  (queue_ok (s_queue (sess v)) -> queue_ok (s_queue (f (sess v)))) ->
  chunk_state (f (sess v)) = chunk_state (sess v) -> vstep v (set_sess f v).
Proof. intros Hq Hc. constructor; simpl; auto. Qed.

Lemma vstep_serv f v :
  chathistory_before_sess (f (serv v)) = chathistory_before_sess (serv v) \/
  chathistory_before_sess (f (serv v)) = None \/ chathistory_before_sess (f (serv v)) = Some (self v) ->
  (0 <= chathistory_latest_pending (serv v) -> 0 <= chathistory_latest_pending (f (serv v))) ->
  vstep v (set_serv f v).
Proof. intros Hb Hp. constructor; simpl; auto. Qed.

Lemma vstep_db db v : vstep v (set_scrollback db v).
Proof. constructor; simpl; auto. Qed.

Lemma vstep_emit e v : vstep v (emit e v).
Proof. constructor; simpl; auto. Qed.

Lemma queue_free_ok s : queue_ok (s_queue (chathistory_queue_free s)).
Proof. by apply idle_ok. Qed.

Create HintDb vstep.
#[export] Hint Resolve vstep_db vstep_emit queue_free_ok : vstep.

(** Chains [v -> f v -> g (f v) -> ...] are followed from the last call back. *)
Ltac vnext :=
  match goal with
  | |- vstep ?v ?v => reflexivity
  | |- vstep _ ?x => is_var x; unfold x
  | |- vstep _ (match ?x with _ => _ end) => destruct x eqn:?
  | |- vstep ?v (fst (match ?x with _ => _ end)) => destruct x eqn:?
  | |- vstep ?v (?a, _).1 => change (vstep v a)
  | |- vstep _ (set_scrollback _ _) => etrans; [|apply vstep_db]
  | |- vstep _ (emit _ _) => etrans; [|apply vstep_emit]
  | |- vstep _ (set_sess _ _) => etrans; [|apply vstep_sess; done]
  | |- vstep _ (set_serv _ _) => etrans; [|apply vstep_serv; simpl; solve [auto|auto with lia]]
  end.

Section session_calls.
Context `{Dates}.

Lemma vstep_dispatch req v : ch_active (s_queue (sess v)) = None -> ch_pending (s_queue (sess v)) = None ->
  vstep v (chathistory_dispatch_now req v).
Proof.
  intros Ha Hp. constructor; [..|intros Hok; by apply dispatch_ok|];
    unfold chathistory_dispatch_now; repeat case_match; simpl; auto.
Qed.

Lemma dispatch_serv req v : serv (chathistory_dispatch_now req v) = serv v.
Proof. unfold chathistory_dispatch_now. by repeat case_match. Qed.

Lemma dispatch_self req v : self (chathistory_dispatch_now req v) = self v.
Proof. unfold chathistory_dispatch_now. by repeat case_match. Qed.

Lemma dispatch_chunk req v : chunk_state (sess (chathistory_dispatch_now req v)) = chunk_state (sess v).
Proof. unfold chathistory_dispatch_now. by repeat case_match. Qed.

Lemma vstep_submit req v : vstep v (chathistory_submit req v).1.
Proof.
  constructor; [..|intros Hok; by apply (slot_exec_ok v (OpSubmit req))|];
    unfold chathistory_submit; repeat case_match; simpl;
    rewrite ?dispatch_serv, ?dispatch_self, ?dispatch_chunk; auto.
Qed.

Lemma vstep_complete v : vstep v (chathistory_request_complete v).
Proof.
  constructor; [..|intros Hok; by apply (slot_exec_ok v OpComplete)|];
    unfold chathistory_request_complete; case_match;
    rewrite ?dispatch_serv, ?dispatch_self, ?dispatch_chunk; simpl; auto.
Qed.

Lemma vstep_submit_inferred t r e l u v : vstep v (submit_inferred t r e l u v).
Proof. apply vstep_submit. Qed.

Lemma vstep_latest r l v : vstep v (chathistory_request_latest r l v).
Proof. unfold chathistory_request_latest. case_match; [reflexivity|apply vstep_submit_inferred]. Qed.

Lemma vstep_before r l v : vstep v (chathistory_request_before r l v).
Proof. unfold chathistory_request_before. case_match; [reflexivity|apply vstep_submit_inferred]. Qed.

Lemma vstep_before_msgid r l v : vstep v (chathistory_request_before_msgid r l v).
Proof. unfold chathistory_request_before_msgid. case_match; [reflexivity|apply vstep_before]. Qed.

Lemma vstep_older prefs v : vstep v (chathistory_request_older prefs v).
Proof. unfold chathistory_request_older. repeat case_match; reflexivity || apply vstep_submit. Qed.

Lemma vstep_gap_fill prefs now id dir v : vstep v (chathistory_request_gap_fill prefs now id dir v).1.
Proof.
  unfold chathistory_request_gap_fill. repeat (case_match; try reflexivity).
  all: match goal with E : chathistory_submit ?r ?v = (?w, _) |- _ =>
         pose proof (vstep_submit r v) as Hs; rewrite E in Hs end.
  all: simpl in *; try done. by etrans; [|apply vstep_db].
Qed.

Lemma vstep_retry prefs now id dir v : vstep v (gap_fill_retry_with_timestamps prefs now id dir v).1.
Proof.
  unfold gap_fill_retry_with_timestamps. case_match; [reflexivity|]. destruct (scrollback v); [|reflexivity].
  destruct (scrollback_gap_drop_msgids _ _). case_match; [reflexivity|].
  etrans; [|apply vstep_gap_fill]. etrans; [|apply vstep_emit]. apply vstep_db.
Qed.
End session_calls.

#[export] Hint Resolve vstep_submit vstep_complete vstep_latest vstep_before_msgid vstep_gap_fill vstep_retry : vstep.

(** One call after another. *)
Lemma vstep_then v w u : vstep v w -> vstep w u -> vstep v u.
Proof. intros. by etrans. Qed.

Lemma give_back_before s : chathistory_before_sess (give_back_slot s) = chathistory_before_sess s.
Proof. unfold give_back_slot. by case_match. Qed.

Lemma give_back_pending s : 0 <= chathistory_latest_pending s -> 0 <= chathistory_latest_pending (give_back_slot s).
Proof. unfold give_back_slot. case_match; simpl; lia. Qed.

Lemma vstep_give_back v : vstep v (set_serv give_back_slot v).
Proof. apply vstep_serv; [rewrite give_back_before; auto|apply give_back_pending]. Qed.
#[export] Hint Resolve vstep_give_back : vstep.

Section catchup_calls.
Context `{GLib, Dates, Sqlite, SqliteScan, Inbound}.

Lemma vstep_enter prefs now v : vstep v (catchup_enter_latest_phase prefs now v).
Proof.
  unfold catchup_enter_latest_phase. destruct (scrollback v) as [db|]; [|repeat vnext].
  destruct (scrollback_get_newest_msgid _ _). destruct (scrollback_get_newest_time _ _). repeat vnext.
Qed.

Lemma vstep_begin prefs now v : vstep v (chathistory_begin_unsolicited_catchup prefs now v).1.
Proof.
  unfold chathistory_begin_unsolicited_catchup. repeat (case_match; [reflexivity|]). cbn [fst].
  etrans; [apply vstep_enter|]. apply vstep_serv; simpl; auto with lia.
Qed.

Lemma vstep_finish v : vstep v (finish_catchup v).
Proof.
  unfold finish_catchup. set (v1 := set_sess _ v). assert (V1 : vstep v v1) by repeat vnext. clearbody v1.
  set (v2 := match scrollback_oldest_msgid _ with Some _ => _ | None => _ end).
  assert (V2 : vstep v v2) by (repeat vnext; done). clearbody v2.
  case_match; repeat vnext; done.
Qed.

Lemma vstep_from_scrollback prefs v : vstep v (request_latest_from_scrollback prefs v).
Proof. unfold request_latest_from_scrollback. repeat case_match; apply vstep_latest. Qed.

Lemma vstep_start prefs v : vstep v (chathistory_start_catchup prefs v).
Proof.
  unfold chathistory_start_catchup. repeat (case_match; [reflexivity|]).
  etrans; [|apply vstep_from_scrollback]. repeat vnext.
Qed.

Lemma vstep_cancel v : vstep v (set_sess chathistory_cancel_catchup v).
Proof. by apply vstep_slots; [intros _; apply idle_ok|]. Qed.

Lemma vstep_deferred prefs now v : vstep v (send_deferred_latest prefs now v).
Proof.
  unfold send_deferred_latest. repeat (case_match; [reflexivity|]).
  etrans; [|apply vstep_serv; simpl; auto with lia]. etrans; [apply vstep_enter|]. apply vstep_from_scrollback.
Qed.

Lemma vstep_background_timer prefs v : vstep v (background_history_timer_cb prefs v).
Proof.
  unfold background_history_timer_cb. set (v1 := set_sess _ v). assert (V1 : vstep v v1) by repeat vnext.
  repeat case_match; try done; (etrans; [exact V1|]); first [apply vstep_before_msgid|repeat vnext].
Qed.

Lemma vstep_schedule prefs v : vstep v (schedule_background_fetch prefs v).
Proof. unfold schedule_background_fetch. repeat case_match; repeat vnext. Qed.

Lemma vstep_start_background prefs v : vstep v (chathistory_start_background_fetch prefs v).
Proof.
  unfold chathistory_start_background_fetch. repeat (case_match; try reflexivity).
  etrans; [|apply vstep_schedule]. repeat vnext.
Qed.

(** The step of the BEFORE phase for the session it picked. *)
Lemma vstep_before_hop v :
  vstep v (let v := set_sess (set_is_before true) (set_serv (set_before_sess (Some (self v))) v) in
    match oldest_msgid (s_anchors (sess v)) with
    | Some (c :: r) => chathistory_request_before_msgid (c :: r) CHATHISTORY_BEFORE_LIMIT v
    | _ => set_serv (set_before_sess None) (finish_catchup v)
    end).
Proof.
  cbn zeta. set (v1 := set_sess _ (set_serv _ v)). assert (V1 : vstep v v1) by repeat vnext.
  assert (V2 : vstep v (set_serv (set_before_sess None) (finish_catchup v1))).
  { etrans; [exact V1|]. etrans; [apply vstep_finish|]. apply vstep_serv; simpl; auto. }
  repeat case_match; try done. etrans; [exact V1|]. apply vstep_before_msgid.
Qed.

(** *** Batches *)

Lemma vstep_duplicate id ts v : vstep v (chathistory_is_duplicate_msgid id ts v).1.
Proof.
  unfold chathistory_is_duplicate_msgid, scrollback_session_has_msgid. repeat (case_match; try reflexivity).
  all: cbn [fst]; simplify_eq; apply vstep_db.
Qed.

Lemma vstep_track id ts h v : vstep v (set_sess (chathistory_track_msgid_ts id ts h) v).
Proof. apply vstep_sess; unfold chathistory_track_msgid_ts; by repeat case_match. Qed.

Lemma vstep_message m v : vstep v (process_batch_message m v).1.
Proof.
  unfold process_batch_message. destruct (bm_command m); [|reflexivity].
  set (d := match bm_msgid m with Some _ => _ | None => _ end). destruct d as [v1 dup] eqn:Hd.
  assert (V1 : vstep v v1).
  { unfold d in Hd. destruct (bm_msgid m) as [id|]; [|by simplify_eq].
    pose proof (vstep_duplicate id (bm_timestamp m) v) as Hv. by rewrite Hd in Hv. }
  destruct dup; [done|]. set (v2 := match bm_msgid m with Some _ => _ | None => _ end).
  assert (V2 : vstep v v2).
  { etrans; [exact V1|]. unfold v2. destruct (bm_msgid m); [apply vstep_track|reflexivity]. }
  destruct (_ && _); [done|]. cbn [fst]. destruct (scrollback _); repeat vnext; done.
Qed.

Lemma vstep_messages ms count bounds v : vstep v (process_messages ms count bounds v).1.1.
Proof.
  revert count bounds v; induction ms as [|m ms IH]; intros count bounds v; [reflexivity|].
  cbn [process_messages]. pose proof (vstep_message m v) as Hm. destruct (process_batch_message m v) as [v1 fresh].
  etrans; [exact Hm|]. apply IH.
Qed.

Lemma vstep_piece ck v : vstep v (process_chunk_messages ck v).1.
Proof.
  unfold process_chunk_messages.
  pose proof (vstep_messages (take CHATHISTORY_CHUNK_SIZE (remaining ck)) (msg_count ck)
    (oldest_timestamp ck, newest_timestamp ck) v) as Hv.
  by destruct (process_messages _ _ _ _) as [[v1 n] [o1 o2]].
Qed.

Lemma vstep_catchup_gap op v : vstep v (on_catchup_gap op v).
Proof. unfold on_catchup_gap. repeat case_match; repeat vnext. Qed.

Lemma vstep_retire ck v : vstep v (retire_batch ck v).
Proof.
  unfold retire_batch. set (v1 := emit _ _). assert (V1 : vstep v v1) by repeat vnext. clearbody v1.
  set (v2 := if unsolicited ck then _ else _).
  assert (V2 : vstep v v2) by (unfold v2; case_match; [done|by etrans; [|apply vstep_complete]]). clearbody v2.
  set (v3 := match batch_oldest_msgid ck with Some _ => _ | None => _ end).
  assert (V3 : vstep v v3) by (unfold v3; repeat case_match; repeat vnext; done). clearbody v3.
  case_match; repeat vnext; done.
Qed.

Lemma vstep_before_page prefs ck v : vstep v (before_page prefs ck v).1.
Proof.
  unfold before_page. set (v1 := set_sess _ v). assert (V1 : vstep v v1) by repeat vnext. clearbody v1.
  set (v2 := if (0 <? raw_count ck) && _ then _ else _).
  assert (V2 : vstep v v2) by (unfold v2; case_match; [by etrans; [|apply vstep_catchup_gap]|done]). clearbody v2.
  destruct (_ || _); [by etrans; [|apply vstep_catchup_gap]|].
  destruct (_ && _ && _); [by etrans; [|apply vstep_catchup_gap]|].
  set (v3 := set_sess _ v2). assert (V3 : vstep v v3) by (unfold v3; repeat vnext; done). clearbody v3.
  destruct (3 <=? _); [etrans; [|apply vstep_catchup_gap]; repeat vnext; done|].
  by repeat case_match.
Qed.

Lemma vstep_latest_page prefs ck v : vstep v (latest_page prefs ck v).
Proof.
  unfold latest_page. set (v1 := if _ && _ then _ else v).
  assert (V1 : vstep v v1).
  { unfold v1. destruct (_ && _); [|reflexivity]. destruct (scrollback v) as [db|]; [|reflexivity].
    destruct (scrollback_gap_record _ _ _ _ _ _ _). case_match; repeat vnext. }
  clearbody v1. case_match; [by etrans; [|apply vstep_give_back]|done].
Qed.

Lemma vstep_fill prefs ck v : vstep v (fill_gap prefs ck v).
Proof. unfold fill_gap. repeat (case_match; try reflexivity); repeat vnext. Qed.

Lemma vstep_history_page prefs now ck v : vstep v (history_page prefs now ck v).
Proof.
  unfold history_page. set (v1 := if _ && _ && _ && _ then _ else v).
  assert (V1 : vstep v v1) by (unfold v1; case_match; repeat vnext). clearbody v1.
  set (v2 := if (0 <? raw_count ck) && _ then _ else v1).
  assert (V2 : vstep v v2) by (unfold v2; case_match; repeat vnext; done). clearbody v2.
  set (v3 := emit _ _).
  assert (V3 : vstep v v3) by (unfold v3; etrans; [|apply vstep_emit]; by etrans; [|apply vstep_fill]). clearbody v3.
  case_match; [by etrans; [|apply vstep_schedule]|done].
Qed.

Lemma vstep_empty_fill prefs now id dir v : vstep v (empty_gap_fill prefs now id dir v).
Proof.
  unfold empty_gap_fill. pose proof (vstep_retry prefs now id dir v) as Hr.
  destruct (gap_fill_retry_with_timestamps _ _ _ _ _) as [v1 ok]. simpl in Hr.
  repeat case_match; repeat vnext; done.
Qed.

Lemma vstep_strike id v : vstep v (strike_gap id v).
Proof.
  unfold strike_gap. destruct (scrollback v); [|reflexivity]. repeat case_match; repeat vnext.
Qed.

Lemma vstep_fail_fill prefs now id dir latched v : vstep v (fail_gap_fill prefs now id dir latched v).
Proof.
  unfold fail_gap_fill. pose proof (vstep_retry prefs now id dir v) as Hr.
  destruct latched; [apply vstep_strike|].
  destruct (gap_fill_retry_with_timestamps _ _ _ _ _) as [v1 ok]. simpl in Hr.
  case_match; [done|]. etrans; [exact Hr|]. apply vstep_strike.
Qed.

Lemma vstep_load prefs v : vstep v (scrollback_load prefs v).
Proof.
  unfold scrollback_load. destruct (channel (sess v)); [reflexivity|]. destruct (scrollback v) as [db|]; [|reflexivity].
  destruct (scrollback_get_newest_msgid _ _). destruct (scrollback_get_oldest_msgid _ _).
  destruct (scrollback_get_newest_time _ _).
  set (v1 := if negb _ then _ else _). assert (V1 : vstep v v1).
  { unfold v1. repeat case_match; repeat vnext. }
  clearbody v1. set (v2 := set_sess _ v1). assert (V2 : vstep v v2) by (unfold v2; repeat vnext; done). clearbody v2.
  case_match; repeat vnext; done.
Qed.
End catchup_calls.

(** ** The world *)

(** The listed sessions are those that exist, the front session and the session
    of the BEFORE phase are among them, a session points to a batch of its own,
    and the slots of every session are in order. *)
Record world_ok (w : world) : Prop := {
  wo_list sid : sid ∈ sess_list w <-> is_Some (w_sessions w !! sid);
  wo_current sid : current_sess w = Some sid -> is_Some (w_sessions w !! sid);
  wo_before sid : chathistory_before_sess (w_serv w) = Some sid -> is_Some (w_sessions w !! sid);
  wo_queue sid s : w_sessions w !! sid = Some s -> queue_ok (s_queue s);
  wo_chunk sid s id : w_sessions w !! sid = Some s -> chunk_state s = Some id ->
    exists ck, chunks w !! id = Some ck /\ ck_sess ck = sid;
  wo_pending : 0 <= chathistory_latest_pending (w_serv w) }.

(** What the handlers keep of the table of sessions. *)
Record keeps (w w' : world) : Prop := {
  kp_sessions sid : is_Some (w_sessions w !! sid) -> is_Some (w_sessions w' !! sid);
  kp_list sid : sid ∈ sess_list w -> sid ∈ sess_list w';
  kp_ok : world_ok w' }.

Lemma keeps_refl w : world_ok w -> keeps w w.
Proof. by constructor. Qed.

Lemma keeps_trans w1 w2 w3 : keeps w1 w2 -> keeps w2 w3 -> keeps w1 w3.
Proof. intros [] []. constructor; auto. Qed.

Lemma look_Some sid w : is_Some (w_sessions w !! sid) -> exists v, look sid w = Some v.
Proof. intros [s Hs]. unfold look. rewrite Hs. simpl. eauto. Qed.

Lemma look_inv sid w v : look sid w = Some v ->
  self v = sid /\ w_sessions w !! sid = Some (sess v) /\ serv v = w_serv w /\ scrollback v = w_scrollback w /\ out v = w_out w.
Proof. unfold look. destruct (w_sessions w !! sid); intros [= <-]. done. Qed.

Lemma insert_dom (m : gmap nat session) i s s' : m !! i = Some s ->
  forall j, is_Some (<[i := s']> m !! j) <-> is_Some (m !! j).
Proof.
  intros Hi j. destruct (decide (i = j)) as [<-|]; [rewrite lookup_insert_eq, Hi|by rewrite lookup_insert_ne].
  split; intros _; eauto.
Qed.

(** A call for a session, seen from the world. *)
Lemma put_ok sid w v v' : world_ok w -> look sid w = Some v -> vstep v v' -> keeps w (put v' w).
Proof.
  intros Hok Hl [S1 S2 S3 S4 S5]. apply look_inv in Hl as (<- & Hs & Hserv & _). destruct Hok as [O1 O2 O3 O4 O5 O6].
  assert (Hdom : forall i, is_Some (<[self v' := sess v']> (w_sessions w) !! i) <-> is_Some (w_sessions w !! i)).
  { intros i. rewrite S1. by apply (insert_dom _ _ _ _ Hs). }
  constructor; [intros; by apply Hdom|done|].
  constructor; cbn [put w_sessions sess_list current_sess w_serv chunks]; [by setoid_rewrite Hdom|by setoid_rewrite Hdom|..].
  - intros sid Hb. destruct S3 as [E|[E|E]]; rewrite E in Hb; [|done|].
    + apply Hdom, O3. by rewrite <- Hserv.
    + simplify_eq. apply Hdom. by rewrite Hs.
  - intros sid s [[<- <-]|[_ Hi]]%lookup_insert_Some; [|by eapply O4]. by eapply S4, O4.
  - intros sid s id [[<- <-]|[_ Hi]]%lookup_insert_Some Hc; [|by eapply O5]. rewrite S2 in Hc. rewrite S1. by eapply O5.
  - apply S5. by rewrite Hserv.
Qed.

Lemma on_ok sid f w :
  world_ok w -> is_Some (w_sessions w !! sid) -> (forall v, self v = sid -> vstep v (f v)) ->
  exists w', on sid f w = Some w' /\ keeps w w'.
Proof.
  intros Hok Hs Hf. destruct (look_Some sid w Hs) as [v Hv]. unfold on. rewrite Hv. simpl.
  eexists. split; [done|]. eapply put_ok; [done..|]. apply Hf. by apply look_inv in Hv as [? _].
Qed.

Lemma upd_serv_ok f w :
  world_ok w ->
  chathistory_before_sess (f (w_serv w)) = chathistory_before_sess (w_serv w) \/
  chathistory_before_sess (f (w_serv w)) = None ->
  0 <= chathistory_latest_pending (f (w_serv w)) -> keeps w (upd_serv f w).
Proof.
  intros [O1 O2 O3 O4 O5 O6] Hb Hp. constructor; [done|done|]. constructor; cbn [upd_serv w_serv]; auto.
  intros sid Hsid. destruct Hb as [E|E]; rewrite E in Hsid; [by apply O3|done].
Qed.

Lemma emit_w_ok e w : world_ok w -> keeps w (emit_w e w).
Proof. intros [O1 O2 O3 O4 O5 O6]. constructor; [done|done|]. by constructor. Qed.

Section world.
Context `{GLib, Dates, Sqlite, SqliteScan, Inbound} (prefs : preferences).

Lemma find_listed (p : nat -> bool) w sid :
  world_ok w -> find p (sess_list w) = Some sid -> is_Some (w_sessions w !! sid).
Proof. intros Hok [Hin _]%find_some. by apply (wo_list _ Hok), list_elem_of_In. Qed.

Lemma pick_exists w sid : world_ok w -> pick_before prefs w = Some sid -> is_Some (w_sessions w !! sid).
Proof.
  intros Hok. unfold pick_before.
  destruct (current_sess w) as [cur|] eqn:Hc; repeat case_match; intros Hs; simplify_eq;
    try (by eapply find_listed); by apply (wo_current _ Hok).
Qed.

Lemma check_ok w : world_ok w -> exists w', chathistory_check_before_catchup prefs w = Some w' /\ keeps w w'.
Proof.
  intros Hok. pose proof (keeps_refl w Hok) as Hrefl. unfold chathistory_check_before_catchup.
  case_match; [by eauto|]. case_match; [by eauto|]. unfold before_sess_loading.
  assert (Hl : exists b, match chathistory_before_sess (w_serv w) with
    | Some b => s ← w_sessions w !! b; Some (history_loading (s_queue s)) | None => Some false end = Some b).
  { destruct (chathistory_before_sess (w_serv w)) as [b|] eqn:Hb; [|by eauto].
    destruct (wo_before _ Hok b Hb) as [s ->]. simpl. eauto. }
  destruct Hl as [b ->]. cbn [mbind option_bind]. destruct b; [by eauto|].
  destruct (pick_before prefs w) as [target|] eqn:Hp.
  - apply on_ok; [done|by apply pick_exists|]. intros v <-. apply vstep_before_hop.
  - eexists. split; [done|]. apply upd_serv_ok; simpl; auto. apply Hok.
Qed.

(** Continuations after a call for a session. *)
Lemma put_check sid w v v' :
  world_ok w -> look sid w = Some v -> vstep v v' ->
  exists w', chathistory_check_before_catchup prefs (put v' w) = Some w' /\ keeps w w'.
Proof.
  intros Hok Hl Hv. pose proof (put_ok _ _ _ _ Hok Hl Hv) as Hk. destruct (check_ok _ (kp_ok _ _ Hk)) as (w' & -> & Hk').
  eexists. split; [done|]. by eapply keeps_trans.
Qed.

Lemma put_done sid w v v' :
  world_ok w -> look sid w = Some v -> vstep v v' -> exists w', Some (put v' w) = Some w' /\ keeps w w'.
Proof. intros. eexists. split; [done|]. by eapply put_ok. Qed.

Lemma finish_ok now ck w :
  world_ok w -> is_Some (w_sessions w !! ck_sess ck) ->
  exists w', finish_batch_processing prefs now ck w = Some w' /\ keeps w w'.
Proof.
  intros Hok Hs. destruct (look_Some _ _ Hs) as [v Hv]. unfold finish_batch_processing. rewrite Hv.
  cbn [mbind option_bind]. pose proof (vstep_retire ck v) as Hr. set (v1 := retire_batch ck v) in *. clearbody v1.
  destruct (is_catchup ck); [|by eapply put_done; [..|etrans; [|apply vstep_history_page]]].
  destruct (catchup_is_before _).
  - pose proof (vstep_before_page prefs ck v1) as Hp. destruct (before_page prefs ck v1) as [v2 how]. cbn [fst] in Hp.
    assert (V2 : vstep v v2) by (by etrans). destruct how.
    + eapply put_check; [done..|]. etrans; [done|]. apply vstep_finish.
    + eexists. split; [done|]. assert (Hk : keeps w (put (set_serv (set_before_sess None) v2) w)).
      { eapply put_ok; [done..|]. etrans; [done|]. apply vstep_serv; simpl; auto. }
      eapply keeps_trans; [done|]. eapply keeps_trans; [|apply emit_w_ok]; apply upd_serv_ok; simpl; auto; apply Hk.
  - assert (V2 : vstep v (latest_page prefs ck v1)) by (etrans; [done|apply vstep_latest_page]).
    case_match; [by eapply put_check|by eapply put_done].
Qed.

Lemma new_dialog_ok name w w' sid :
  world_ok w -> new_dialog prefs name w = Some (w', sid) -> keeps w w' /\ sid ∈ sess_list w'.
Proof.
  intros [O1 O2 O3 O4 O5 O6]. unfold new_dialog. destruct (safe_strcpy name CHANLEN) as [n|]; [|done].
  cbn [mbind option_bind]. set (sid' := fresh _). set (v := View _ _ _ _ _).
  set (v' := if text_replay prefs then _ else v). intros [= <- <-].
  assert (Hv : vstep v v') by (unfold v'; case_match; [apply vstep_load|reflexivity]).
  assert (Hfresh : w_sessions w !! sid' = None) by (apply not_elem_of_dom, is_fresh).
  destruct Hv as [S1 S2 S3 S4 S5]. change (self v) with sid' in S1, S3.
  assert (Hold : forall i, is_Some (w_sessions w !! i) -> is_Some (<[self v' := sess v']> (w_sessions w) !! i)).
  { intros i [s Hs]. rewrite S1. destruct (decide (sid' = i)) as [->|]; [by rewrite lookup_insert_eq|].
    rewrite lookup_insert_ne by done. eauto. }
  split; [|by left]. constructor; [done|intros i Hi; by right|].
  constructor; cbn [put w_sessions sess_list current_sess w_serv chunks]; auto.
  - intros i. rewrite S1, elem_of_cons, O1. destruct (decide (sid' = i)) as [<-|].
    + rewrite lookup_insert_eq. split; eauto.
    + rewrite lookup_insert_ne by done. split; [by intros [->|]|by right].
  - intros i Hi. destruct S3 as [E|[E|E]]; rewrite E in Hi; [by apply Hold, O3|done|].
    simplify_eq. rewrite S1. by rewrite lookup_insert_eq.
  - intros i s [[<- <-]|[_ Hi]]%lookup_insert_Some; [|by eapply O4]. apply S4. by apply idle_ok.
  - intros i s id [[<- <-]|[_ Hi]]%lookup_insert_Some Hc; [|by eapply O5]. by rewrite S2 in Hc.
Qed.

Lemma find_target_listed name w sid :
  find_session_for_target name w = Some sid -> sid ∈ sess_list w.
Proof.
  unfold find_session_for_target. destruct name; [done|]. unfold find_session. case_match.
  - intros [= ->]. apply list_elem_of_In. by eapply find_some.
  - intros [? _]%find_some. by apply list_elem_of_In.
Qed.

Lemma empty_ok now b catchup uns owned gid gdir sid v0 v w :
  world_ok w -> look sid w = Some v0 -> vstep v0 v ->
  exists w', empty_batch prefs now b catchup uns owned gid gdir v w = Some w' /\ keeps w w'.
Proof.
  intros Hok Hl Hv. unfold empty_batch.
  set (v1 := if b_end b && _ && _ then _ else v). assert (V1 : vstep v0 v1) by (etrans; [done|]; repeat vnext). clearbody v1.
  set (v2 := if uns then v1 else _).
  assert (V2 : vstep v0 v2) by (etrans; [done|]; unfold v2; case_match; [done|apply vstep_complete]). clearbody v2.
  case_match; [eapply put_done; [done..|]; etrans; [done|apply vstep_empty_fill]|].
  case_match.
  - case_match; [eapply put_done; [done..|]; etrans; [done|apply vstep_latest]|].
    set (v3 := if owned then _ else _). assert (V3 : vstep v0 v3).
    { etrans; [done|]. etrans; [apply vstep_finish|]. unfold v3. case_match; [apply vstep_give_back|done]. }
    clearbody v3. case_match; [by eapply put_check|by eapply put_done].
  - eapply put_done; [done..|]. etrans; [done|]. repeat vnext.
Qed.

Lemma start_ok now ck w :
  world_ok w -> is_Some (w_sessions w !! ck_sess ck) ->
  exists w', start_batch prefs now ck w = Some w' /\ keeps w w'.
Proof.
  intros Hok Hs. unfold start_batch.
  destruct (on_ok (ck_sess ck) (fun v => emit (FeSetBatchMode (self v) true)
    (set_sess (fun s => set_flags (history_exhausted s) true s) v)) w Hok Hs) as (w1 & Hon & Hk); [intros; repeat vnext|].
  unfold chunk_init. rewrite Hon. cbn [mbind option_bind]. pose proof (kp_ok _ _ Hk) as Hok1.
  pose proof (kp_sessions _ _ Hk _ Hs) as Hs1. case_match.
  - destruct (look_Some _ _ Hs1) as [v Hv]. rewrite Hv. cbn [mbind option_bind].
    pose proof (vstep_piece ck v) as Hp. destruct (process_chunk_messages ck v) as [v' ck'] eqn:Hpc. cbn [fst] in Hp.
    pose proof (put_ok _ _ _ _ Hok1 Hv Hp) as Hk2.
    assert (Hck : ck_sess ck' = ck_sess ck).
    { unfold process_chunk_messages in Hpc. destruct (process_messages _ _ _ _) as [[? ?] [? ?]]. by simplify_eq. }
    destruct (finish_ok now ck' _ (kp_ok _ _ Hk2)) as (w' & Hf & Hk').
    { rewrite Hck. by apply (kp_sessions _ _ Hk2). }
    exists w'. split; [done|]. eapply keeps_trans; [done|]. by eapply keeps_trans.
  - set (id := fresh _). destruct Hs1 as [s Hs1]. unfold on, look. rewrite Hs1. cbn [mbind option_bind].
    eexists. split; [done|]. eapply keeps_trans; [done|]. destruct Hok1 as [O1 O2 O3 O4 O5 O6].
    pose proof (insert_dom _ _ _ (set_chunk_state (Some id) s) Hs1) as Hd.
    constructor; [intros; by apply Hd|done|]. constructor; cbn; [by setoid_rewrite Hd|by setoid_rewrite Hd|by setoid_rewrite Hd|..]; auto.
    + intros i s' [[<- <-]|[_ Hi]]%lookup_insert_Some; [by eapply (O4 _ _ Hs1)|by eapply O4].
    + intros i s' j [[<- <-]|[_ Hi]]%lookup_insert_Some Hc.
      * simpl in Hc. simplify_eq. exists ck. by rewrite lookup_insert_eq.
      * destruct (O5 _ _ _ Hi Hc) as (ck' & Hck & Hsess). exists ck'. split; [|done]. rewrite lookup_insert_ne; [done|].
        intros <-. assert (Hno : id ∉ dom (chunks w1)) by apply is_fresh. by apply Hno, elem_of_dom.
Qed.

(** [safe_strcpy] yields a result for whole UTF-8 names; hypotheses on names
    say so in the form the handlers need. *)
Definition copyable (name : cstr) : Prop := is_Some (safe_strcpy name CHANLEN).

Lemma batch_ok now b w :
  world_ok w -> (forall t, b_target b = Some t -> copyable t) ->
  exists w', chathistory_process_batch prefs now b w = Some w' /\ keeps w w'.
Proof.
  intros Hok Hname. unfold chathistory_process_batch.
  set (found := match b_target b with None => _ | Some t => _ end).
  assert (Hf : exists w1 o, found = Some (w1, o) /\ keeps w w1 /\ forall sid, o = Some sid -> sid ∈ sess_list w1).
  { pose proof (keeps_refl w Hok) as Hrefl. unfold found. destruct (b_target b) as [t|] eqn:Ht; [|by exists w, None].
    destruct (find_session_for_target t w) as [sid|] eqn:Hfs.
    { exists w, (Some sid). split_and!; [done|done|]. intros ? [= <-]. by eapply find_target_listed. }
    case_match; [|by exists w, None]. destruct (Hname t eq_refl) as [n Hn].
    destruct (new_dialog prefs t w) as [[w1 sid]|] eqn:Hnew; [|unfold new_dialog in Hnew; by rewrite Hn in Hnew].
    destruct (new_dialog_ok _ _ _ _ Hok Hnew) as [Hk Hin]. exists w1, (Some sid). split_and!; [done|done|].
    by intros ? [= <-]. }
  destruct Hf as (w1 & o & -> & Hk & Hin). cbn [mbind option_bind]. pose proof (kp_ok _ _ Hk) as Hok1.
  destruct o as [sid|]; [|by eauto]. specialize (Hin sid eq_refl). pose proof (proj1 (wo_list _ Hok1 _) Hin) as Hs.
  destruct (look_Some _ _ Hs) as [v Hv]. rewrite Hv. cbn [mbind option_bind].
  set (ids := match ch_active _ with Some _ => _ | None => _ end). destruct ids as [gid gdir].
  set (adopt := if chathistory_batch_is_unsolicited _ _ then _ else _). destruct adopt as [v1 owned] eqn:Ha.
  assert (V1 : vstep v v1).
  { unfold adopt in Ha. case_match; [|by simplify_eq]. pose proof (vstep_begin prefs now v) as Hb. by rewrite Ha in Hb. }
  destruct (b_messages b).
  - destruct (empty_ok now b (if chathistory_batch_is_unsolicited b (sess v) then owned else
      catchup_in_progress (s_catchup (sess v)) && (gid =? 0)) (chathistory_batch_is_unsolicited b (sess v))
      owned gid gdir sid v v1 w1 Hok1 Hv V1) as (w' & -> & Hk'). eexists. split; [done|]. by eapply keeps_trans.
  - pose proof (put_ok _ _ _ _ Hok1 Hv V1) as Hk2. edestruct (start_ok now) as (w' & Hst & Hk'); [exact (kp_ok _ _ Hk2)| |].
    2: { exists w'. split; [exact Hst|]. eapply keeps_trans; [done|]. by eapply keeps_trans. }
    simpl. by apply (kp_sessions _ _ Hk2).
Qed.

Lemma release_ok ck w : world_ok w -> keeps w (release_latest_slot ck w).
Proof.
  intros Hok. unfold release_latest_slot. case_match; [|by apply keeps_refl].
  apply upd_serv_ok; [done|left; apply give_back_before|]. apply give_back_pending, Hok.
Qed.

(** A batch may be deleted when no session points to it. *)
Lemma delete_chunk_ok id w :
  world_ok w -> (forall sid s, w_sessions w !! sid = Some s -> chunk_state s <> Some id) ->
  keeps w (upd_chunks (delete id) w).
Proof.
  intros [O1 O2 O3 O4 O5 O6] Hno. constructor; [done|done|]. constructor; simpl; auto.
  intros sid s i Hs Hc. rewrite lookup_delete_ne; [by eapply O5|]. intros ->. by eapply Hno.
Qed.

Lemma state_free_ok id ck w :
  world_ok w -> (forall sid s, w_sessions w !! sid = Some s -> chunk_state s = Some id -> sid = ck_sess ck) ->
  exists w', chunk_state_free id ck w = w' /\ keeps w w' /\
    (forall sid, w_sessions w' !! sid = if decide (sid = ck_sess ck) then
       (fun s => if bool_decide (chunk_state s = Some id) then set_chunk_state None s else s) <$> w_sessions w !! sid
     else w_sessions w !! sid) /\ chunks w' = delete id (chunks w).
Proof.
  intros Hok Hown. eexists. split; [done|]. unfold chunk_state_free.
  set (w1 := match look (ck_sess ck) w with Some _ => _ | None => w end).
  assert (Hw1 : keeps w w1 /\ chunks w1 = chunks w /\ forall sid, w_sessions w1 !! sid = if decide (sid = ck_sess ck) then
       (fun s => if bool_decide (chunk_state s = Some id) then set_chunk_state None s else s) <$> w_sessions w !! sid
     else w_sessions w !! sid).
  { unfold w1. destruct (look (ck_sess ck) w) as [v|] eqn:Hl.
    - apply look_inv in Hl as (Hself & Hs & Hserv & Hdb & Hout). case_bool_decide as Hc.
      + split; [|split; [done|]].
        * destruct Hok as [O1 O2 O3 O4 O5 O6]. pose proof (insert_dom _ _ _ (set_chunk_state None (sess v)) Hs) as Hd.
          constructor; [intros i Hi; cbn; rewrite Hself; by apply Hd|done|].
          constructor; cbn [put set_sess w_sessions self sess sess_list current_sess w_serv serv chunks]; rewrite ?Hself, ?Hserv;
            [by setoid_rewrite Hd|by setoid_rewrite Hd|by setoid_rewrite Hd|..]; auto.
          -- intros i s [[<- <-]|[_ Hi]]%lookup_insert_Some; [by eapply (O4 _ _ Hs)|by eapply O4].
          -- intros i s j [[<- <-]|[_ Hi]]%lookup_insert_Some Hj; [done|by eapply O5].
        * intros sid. cbn [put set_sess w_sessions self sess]. rewrite Hself. case_decide as He.
          -- subst sid. rewrite lookup_insert_eq, Hs. simpl. by rewrite bool_decide_eq_true_2.
          -- by rewrite lookup_insert_ne.
      + split; [by apply keeps_refl|]. split; [done|]. intros sid. case_decide as He; [|done]. subst sid. rewrite Hs. simpl.
        by rewrite bool_decide_eq_false_2.
    - split; [by apply keeps_refl|]. split; [done|]. intros sid. case_decide as He; [|done]. subst sid. unfold look in Hl.
      by destruct (w_sessions w !! ck_sess ck). }
  destruct Hw1 as (Hk & Hch & Hsess). split; [|split; [done|by cbn; rewrite Hch]]. eapply keeps_trans; [done|]. apply delete_chunk_ok; [apply Hk|].
  intros sid s Hs Hc. rewrite Hsess in Hs. case_decide as He.
  - destruct (w_sessions w !! sid) as [s0|]; [|done]. simpl in Hs. case_bool_decide; by simplify_eq.
  - by specialize (Hown _ _ Hs Hc).
Qed.

Lemma owner_free id ck w :
  world_ok w -> chunks w !! id = Some ck ->
  exists w', chunk_state_free id ck w = w' /\ keeps w w'.
Proof.
  intros Hok Hck. destruct (state_free_ok id ck w Hok) as (w' & He & Hk & _).
  { intros sid s Hs Hc. destruct (wo_chunk _ Hok _ _ _ Hs Hc) as (ck' & Hck' & <-). congruence. }
  by exists w'.
Qed.

Lemma piece_sess ck v : ck_sess (process_chunk_messages ck v).2 = ck_sess ck.
Proof. unfold process_chunk_messages. by destruct (process_messages _ _ _ _) as [[? ?] [? ?]]. Qed.

(** What a batch belongs to does not change, and none disappears. *)
Lemma update_chunk_ok id ck ck' w :
  world_ok w -> chunks w !! id = Some ck -> ck_sess ck' = ck_sess ck -> keeps w (upd_chunks <[id := ck']> w).
Proof.
  intros [O1 O2 O3 O4 O5 O6] Hck Hs. constructor; [done|done|]. constructor; simpl; auto.
  intros sid s i Hi Hc. destruct (O5 _ _ _ Hi Hc) as (c & Hc' & He). destruct (decide (id = i)) as [<-|].
  - exists ck'. rewrite lookup_insert_eq. split; [done|congruence].
  - exists c. by rewrite lookup_insert_ne.
Qed.

(** [finish_batch_processing] leaves the table of batches alone. *)
Lemma check_chunks w w' : chathistory_check_before_catchup prefs w = Some w' -> chunks w' = chunks w.
Proof.
  unfold chathistory_check_before_catchup, on. intros Hc. repeat case_match; simplify_eq; try done;
    destruct (before_sess_loading w) as [b|]; simpl in Hc; simplify_eq; destruct b; simplify_eq; try done;
    destruct (pick_before prefs w); simplify_eq; try done; destruct (look _ w); simpl in Hc; by simplify_eq.
Qed.

Lemma finish_chunks now ck w w' : finish_batch_processing prefs now ck w = Some w' -> chunks w' = chunks w.
Proof.
  unfold finish_batch_processing. destruct (look _ w) as [v|]; [|done]. cbn [mbind option_bind].
  repeat case_match; intros Hf; simplify_eq; try done; by apply check_chunks in Hf.
Qed.

Lemma chunk_cb_ok now id w :
  world_ok w -> is_Some (chunks w !! id) -> exists w', chunk_idle_cb prefs now id w = Some w' /\ keeps w w'.
Proof.
  intros Hok [ck Hck]. unfold chunk_idle_cb. rewrite Hck. cbn [mbind option_bind]. unfold is_session.
  case_bool_decide as Hin; cbn [negb].
  - pose proof (proj1 (wo_list _ Hok _) Hin) as Hs. destruct (look_Some _ _ Hs) as [v Hv]. rewrite Hv. cbn [mbind option_bind].
    pose proof (vstep_piece ck v) as Hp. pose proof (piece_sess ck v) as Hsess.
    destruct (process_chunk_messages ck v) as [v' ck']. cbn [fst snd] in Hp, Hsess.
    pose proof (put_ok _ _ _ _ Hok Hv Hp) as Hk. destruct (remaining ck').
    + destruct (finish_ok now ck' _ (kp_ok _ _ Hk)) as (w2 & Hf & Hk2).
      { rewrite Hsess. by apply (kp_sessions _ _ Hk). }
      rewrite Hf. cbn [mbind option_bind]. apply finish_chunks in Hf.
      assert (Hcf : exists w3, chunk_state_free id ck' w2 = w3 /\ keeps w2 w3).
      { destruct (state_free_ok id ck' w2 (kp_ok _ _ Hk2)) as (w3 & He & Hk3 & _); [|by exists w3].
        intros sid s Hss Hc. destruct (wo_chunk _ (kp_ok _ _ Hk2) _ _ _ Hss Hc) as (ck2 & Hck2 & <-).
        rewrite Hf in Hck2. simpl in Hck2. congruence. }
      destruct Hcf as (w3 & -> & Hk3). eexists. split; [done|]. eapply keeps_trans; [done|]. by eapply keeps_trans.
    + eexists. split; [done|]. eapply keeps_trans; [done|]. eapply update_chunk_ok; [apply Hk|done|done].
  - eexists. split; [done|]. pose proof (release_ok ck w Hok) as Hk. eapply keeps_trans; [done|].
    assert (Hsame : w_sessions (release_latest_slot ck w) = w_sessions w) by (unfold release_latest_slot; by case_match).
    apply delete_chunk_ok; [apply Hk|]. rewrite Hsame. intros sid s Hs Hc.
    destruct (wo_chunk _ Hok _ _ _ Hs Hc) as (ck2 & Hck2 & <-). apply Hin.
    rewrite Hck in Hck2. simplify_eq. apply (wo_list _ Hok). eauto.
Qed.

Lemma cancel_chunk_ok sid w :
  world_ok w -> is_Some (w_sessions w !! sid) ->
  exists w', chathistory_cancel_chunk_processing sid w = Some w' /\ keeps w w' /\
    forall s, w_sessions w' !! sid = Some s -> chunk_state s = None.
Proof.
  intros Hok Hs. destruct (look_Some _ _ Hs) as [v Hv]. unfold chathistory_cancel_chunk_processing. rewrite Hv.
  cbn [mbind option_bind]. pose proof (look_inv _ _ _ Hv) as (Hself & Hsess & Hserv & _).
  destruct (chunk_state (sess v)) as [id|] eqn:Hc.
  2: { exists w. split_and!; [done|by apply keeps_refl|]. intros s Hs'. congruence. }
  destruct (wo_chunk _ Hok _ _ _ Hsess Hc) as (ck & Hck & Hcs). rewrite Hck. cbn [mbind option_bind].
  set (v1 := set_sess chathistory_queue_free _). assert (V1 : vstep v v1).
  { unfold v1. eapply vstep_then; [|apply vstep_slots; [intros _; apply queue_free_ok|done]]. repeat vnext. }
  pose proof (put_ok _ _ _ _ Hok Hv V1) as Hk1. pose proof (release_ok ck _ (kp_ok _ _ Hk1)) as Hk2.
  set (w2 := release_latest_slot ck _) in *.
  assert (Hw2 : w_sessions w2 = w_sessions (put v1 w) /\ chunks w2 = chunks w).
  { unfold w2, release_latest_slot. by case_match. }
  destruct (state_free_ok id ck w2 (kp_ok _ _ Hk2)) as (w3 & He & Hk3 & Hsess3 & _).
  { intros i s Hi Hci. destruct (wo_chunk _ (kp_ok _ _ Hk2) _ _ _ Hi Hci) as (ck2 & Hck2 & <-).
    rewrite (proj2 Hw2) in Hck2. congruence. }
  exists w3. split; [by rewrite He|]. split; [eapply keeps_trans; [done|]; by eapply keeps_trans|].
  intros s. rewrite Hsess3, decide_True by done. rewrite (proj1 Hw2). cbn [put w_sessions].
  replace (self v1) with sid by done. rewrite lookup_insert_eq. simpl. intros [= <-].
  by rewrite bool_decide_eq_true_2 by (by rewrite Hc).
Qed.

(** The closing steps do not look at the list of sessions. *)
Definition relist (l : list nat) (w : world) : world :=
  World (w_serv w) (w_sessions w) l (current_sess w) (w_scrollback w) (chunks w) (w_out w).

Lemma relist_on l sid f w : on sid f (relist l w) = relist l <$> on sid f w.
Proof. unfold on, look, relist. simpl. by destruct (w_sessions w !! sid). Qed.

Lemma relist_state_free l id ck w : chunk_state_free id ck (relist l w) = relist l (chunk_state_free id ck w).
Proof.
  unfold chunk_state_free, look, relist. simpl. destruct (w_sessions w !! ck_sess ck); simpl; [|done].
  by case_bool_decide.
Qed.

Lemma relist_cancel l sid w :
  chathistory_cancel_chunk_processing sid (relist l w) = relist l <$> chathistory_cancel_chunk_processing sid w.
Proof.
  unfold chathistory_cancel_chunk_processing, look. cbn [relist w_sessions]. destruct (w_sessions w !! sid) as [s|]; [|done].
  cbn [mbind option_bind sess]. destruct (chunk_state s) as [id|]; [|done]. cbn [relist chunks].
  destruct (chunks w !! id) as [ck|]; [|done]. cbn [mbind option_bind]. simpl.
  f_equal. rewrite <- relist_state_free. f_equal. unfold release_latest_slot. by case_match.
Qed.

Lemma cancel_frame sid w w' :
  chathistory_cancel_chunk_processing sid w = Some w' ->
  chathistory_before_sess (w_serv w') = chathistory_before_sess (w_serv w) /\ current_sess w' = current_sess w /\
  sess_list w' = sess_list w.
Proof.
  unfold chathistory_cancel_chunk_processing. destruct (look sid w) as [v|] eqn:Hv; [|done].
  apply look_inv in Hv as (_ & _ & Hs & _). cbn [mbind option_bind]. destruct (chunk_state (sess v)) as [id|]; [|by intros [= <-]].
  destruct (chunks w !! id) as [ck|]; [|done]. cbn [mbind option_bind]. intros [= <-].
  set (w1 := release_latest_slot ck _). assert (Hw1 : chathistory_before_sess (w_serv w1) = chathistory_before_sess (w_serv w) /\
    current_sess w1 = current_sess w /\ sess_list w1 = sess_list w).
  { unfold w1, release_latest_slot. case_match; simpl; rewrite ?give_back_before, ?Hs; done. }
  clearbody w1. unfold chunk_state_free. destruct (look (ck_sess ck) w1) as [v1|] eqn:Hv1; [|done].
  apply look_inv in Hv1 as (_ & _ & Hs1 & _). case_bool_decide; [|done]. simpl. by rewrite Hs1.
Qed.

(** A session that is not the one of the BEFORE phase may be closed. *)
Lemma free_ok sid next w :
  world_ok w -> sid ∈ sess_list w -> chathistory_before_sess (w_serv w) <> Some sid ->
  (forall n, next = Some n -> n <> sid /\ n ∈ sess_list w) ->
  exists w', session_free sid next w = Some w' /\ world_ok w'.
Proof.
  intros Hok Hin Hbef Hnext. pose proof (proj1 (wo_list _ Hok _) Hin) as Hs. unfold session_free.
  set (l := List.filter _ (sess_list w)).
  change (World (w_serv w) (w_sessions w) l (current_sess w) (w_scrollback w) (chunks w) (w_out w)) with (relist l w).
  destruct (on_ok sid (set_sess chathistory_stop_background_fetch) w Hok Hs) as (w1 & Ho1 & Hk1).
  { intros v _. by apply vstep_sess. }
  assert (Hw1 : chathistory_before_sess (w_serv w1) = chathistory_before_sess (w_serv w) /\ current_sess w1 = current_sess w
    /\ sess_list w1 = sess_list w).
  { unfold on in Ho1. destruct (look sid w) as [v|] eqn:Hv; [|done]. apply look_inv in Hv as (_ & _ & Hsv & _).
    simpl in Ho1. simplify_eq. simpl. by rewrite Hsv. }
  rewrite relist_on, Ho1. cbn [fmap option_fmap option_map mbind option_bind]. rewrite relist_cancel.
  destruct (cancel_chunk_ok sid w1 (kp_ok _ _ Hk1)) as (w2 & Hc & Hk2 & Hnone); [by apply (kp_sessions _ _ Hk1)|].
  pose proof (cancel_frame _ _ _ Hc) as (B2 & C2 & L2). rewrite Hc. cbn [fmap option_fmap option_map mbind option_bind].
  assert (Hs2 : is_Some (w_sessions w2 !! sid)) by (apply (kp_sessions _ _ Hk2), (kp_sessions _ _ Hk1), Hs).
  destruct (on_ok sid (set_sess chathistory_queue_free) w2 (kp_ok _ _ Hk2) Hs2) as (w3 & Ho3 & Hk3).
  { intros v _. apply vstep_slots; [intros _; apply queue_free_ok|done]. }
  assert (Hw3 : chathistory_before_sess (w_serv w3) = chathistory_before_sess (w_serv w2) /\ current_sess w3 = current_sess w2
    /\ sess_list w3 = sess_list w2).
  { unfold on in Ho3. destruct (look sid w2) as [v|] eqn:Hv; [|done]. apply look_inv in Hv as (_ & _ & Hsv & _).
    simpl in Ho3. simplify_eq. simpl. by rewrite Hsv. }
  destruct Hw1 as (B1 & C1 & L1), Hw3 as (B3 & C3 & L3).
  rewrite relist_on, Ho3. cbn [fmap option_fmap option_map mbind option_bind]. eexists. split; [done|].
  destruct (kp_ok _ _ Hk3) as [O1 O2 O3 O4 O5 O6].
  assert (Hl : forall i, i ∈ l <-> i <> sid /\ i ∈ sess_list w).
  { intros i. unfold l. rewrite list_elem_of_In, filter_In, list_elem_of_In, negb_true_iff, Nat.eqb_neq. tauto. }
  assert (Hdel : forall i, i <> sid -> is_Some (delete sid (w_sessions w3) !! i) <-> is_Some (w_sessions w3 !! i)).
  { intros i Hi. by rewrite lookup_delete_ne. }
  assert (Hlw : forall i, i ∈ sess_list w <-> is_Some (w_sessions w3 !! i)) by (intros i; by rewrite <- O1, L3, L2, L1).
  constructor; cbn [relist w_sessions sess_list current_sess w_serv chunks].
  - intros i. rewrite Hl. destruct (decide (i = sid)) as [->|Hi].
    + rewrite lookup_delete_eq. split; [by intros [? _]|by intros [? ?]].
    + rewrite Hdel, Hlw by done. tauto.
  - intros i Hi. case_bool_decide as Hcur.
    + destruct (Hnext i Hi) as [Hne Hil]. by apply Hdel; [done|]; apply Hlw.
    + rewrite Hdel; [by apply O2|]. intros ->. congruence.
  - intros i Hi. rewrite Hdel; [by apply O3|]. intros ->. congruence.
  - intros i s. rewrite lookup_delete_Some. intros [_ Hi]. by eapply O4.
  - intros i s id. rewrite lookup_delete_Some. intros [_ Hi]. by eapply O5.
  - done.
Qed.

Lemma fail_ok now code context w :
  world_ok w -> exists w', chathistory_handle_fail prefs now code context w = Some w' /\ keeps w w'.
Proof.
  intros Hok. unfold chathistory_handle_fail. set (o := match find_session_for_target _ _ with Some _ => _ | None => _ end).
  assert (Ho : forall sid, o = Some sid -> is_Some (w_sessions w !! sid)).
  { unfold o. intros sid. case_match eqn:Hf; [intros [= <-]; apply (wo_list _ Hok); by eapply find_target_listed|].
    by apply find_listed. }
  clearbody o. destruct o as [sid|]; [|by eexists; split; [done|apply keeps_refl]].
  destruct (look_Some _ _ (Ho sid eq_refl)) as [v Hv]. rewrite Hv. cbn [mbind option_bind]. unfold fail_session.
  destruct (match ch_active _ with Some r => _ | None => _ end) as [[t gid] gdir].
  set (v1 := chathistory_request_complete _).
  assert (V1 : vstep v v1) by (etrans; [|apply vstep_complete]; repeat vnext). clearbody v1.
  case_match; [eapply put_done; [done..|]; etrans; [done|apply vstep_fail_fill]|].
  case_match; [|by eapply put_done].
  case_match; [eapply put_done; [done..|]; etrans; [done|apply vstep_latest]|].
  set (v2 := finish_catchup _). assert (V2 : vstep v v2).
  { etrans; [done|]. unfold v2. etrans; [|apply vstep_finish]. case_match; [apply vstep_give_back|done]. }
  clearbody v2. case_match; [by eapply put_check|by eapply put_done].
Qed.

Lemma targets_ok ms w :
  world_ok w -> (forall m t, m ∈ ms -> target_of m = Some t -> copyable t) ->
  exists w', process_targets prefs ms w = Some w' /\ keeps w w'.
Proof.
  intros Hok Hn. assert (Hn' : Forall (fun m => forall t, target_of m = Some t -> copyable t) ms) by (apply Forall_forall; eauto).
  clear Hn. revert w Hok. induction Hn' as [|m ms Hm _ IH]; intros w Hok; [by eexists; split; [done|apply keeps_refl]|].
  cbn [process_targets]. destruct (target_of m) as [t|]; [|by apply IH]. case_match; [by apply IH|].
  assert (Hf : exists w1 sid, match find_session SESS_DIALOG t w with Some sid => Some (w, sid) | None => new_dialog prefs t w end
    = Some (w1, sid) /\ keeps w w1 /\ is_Some (w_sessions w1 !! sid)).
  { destruct (find_session SESS_DIALOG t w) as [sid|] eqn:Hfs.
    { exists w, sid. split_and!; [done|by apply keeps_refl|]. by eapply find_listed. }
    destruct (Hm t eq_refl) as [n Hname].
    destruct (new_dialog prefs t w) as [[w1 sid]|] eqn:Hnew; [|unfold new_dialog in Hnew; by rewrite Hname in Hnew].
    destruct (new_dialog_ok _ _ _ _ Hok Hnew) as [Hk Hin]. exists w1, sid. split_and!; [done|done|].
    by apply (wo_list _ (kp_ok _ _ Hk)). }
  destruct Hf as (w1 & sid & -> & Hk1 & Hs). cbn [mbind option_bind].
  destruct (on_ok sid (chathistory_start_catchup prefs) w1 (kp_ok _ _ Hk1) Hs) as (w2 & -> & Hk2).
  { intros. apply vstep_start. }
  cbn [mbind option_bind]. destruct (IH w2 (kp_ok _ _ Hk2)) as (w3 & -> & Hk3).
  eexists. split; [done|]. eapply keeps_trans; [done|]. by eapply keeps_trans.
Qed.

Lemma latest_to_ok now sids w :
  world_ok w -> Forall (fun sid => is_Some (w_sessions w !! sid)) sids ->
  exists w', send_latest_to prefs now sids w = Some w' /\ keeps w w'.
Proof.
  unfold send_latest_to. intros Hok Hs. revert w Hok Hs. induction sids as [|sid l IH]; intros w Hok Hs.
  { eexists. split; [done|]. by apply keeps_refl. }
  apply Forall_cons in Hs as [Hsid Hs]. cbn [foldl mbind option_bind].
  destruct (on_ok sid (send_deferred_latest prefs now) w Hok Hsid) as (w1 & -> & Hk); [intros; apply vstep_deferred|].
  destruct (IH w1 (kp_ok _ _ Hk)) as (w2 & Hw2 & Hk2).
  { eapply Forall_impl; [done|]. intros i Hi. by apply (kp_sessions _ _ Hk). }
  exists w2. split; [done|]. by eapply keeps_trans.
Qed.

Lemma reconnect_ok now w : world_ok w -> keeps w (send_reconnect_targets_request now w).
Proof.
  intros Hok. unfold send_reconnect_targets_request, chathistory_request_targets.
  repeat (case_match; try by apply keeps_refl). by apply emit_w_ok.
Qed.

Lemma deferred_ok now w :
  world_ok w -> exists w', chathistory_deferred_start_cb prefs now w = Some w' /\ keeps w w'.
Proof.
  intros Hok. unfold chathistory_deferred_start_cb. set (w1 := upd_serv _ w).
  assert (K1 : keeps w w1) by (apply upd_serv_ok; simpl; auto; apply Hok). clearbody w1.
  case_match; [by eauto|]. set (w2 := if chathistory_targets_deferred _ then _ else w1).
  assert (K2 : keeps w w2).
  { eapply keeps_trans; [done|]. unfold w2. case_match; [|apply keeps_refl, K1].
    assert (K : keeps w1 (upd_serv (set_targets_deferred false) w1)) by (apply upd_serv_ok; simpl; auto; apply K1).
    eapply keeps_trans; [done|]. apply reconnect_ok, K. }
  clearbody w2. set (w3 := upd_serv (set_latest_pending 0) w2).
  assert (K3 : keeps w w3) by (eapply keeps_trans; [done|]; apply upd_serv_ok; simpl; auto with lia; apply K2).
  clearbody w3.
  assert (Hcur : exists w4, match current_sess w3 with Some cur => send_latest_to prefs now [cur] w3 | None => Some w3 end = Some w4
    /\ keeps w3 w4).
  { destruct (current_sess w3) as [cur|] eqn:Hc; [|by eexists; split; [done|apply keeps_refl, K3]].
    apply latest_to_ok; [apply K3|]. constructor; [|done]. by apply (wo_current _ (kp_ok _ _ K3)). }
  destruct Hcur as (w4 & -> & K4). cbn [mbind option_bind].
  edestruct (latest_to_ok now) as (w5 & Hw5 & K5); [exact (kp_ok _ _ K4)| |].
  2: { exists w5. split; [exact Hw5|]. eapply keeps_trans; [done|]. by eapply keeps_trans. }
  apply Forall_forall. intros i Hi. apply (wo_list _ (kp_ok _ _ K4)).
  by apply list_elem_of_In, filter_In in Hi as [Hi%list_elem_of_In _].
Qed.

Lemma disconnect_ok now delayed w : world_ok w -> world_ok (server_disconnect now delayed w).
Proof.
  intros Hok. unfold server_disconnect. case_match; [done|]. destruct Hok as [O1 O2 O3 O4 O5 O6].
  constructor; cbn [w_sessions sess_list current_sess w_serv chunks].
  - intros i. by rewrite lookup_fmap, fmap_is_Some.
  - intros i. rewrite lookup_fmap, fmap_is_Some. apply O2.
  - intros i. rewrite lookup_fmap, fmap_is_Some. destruct (connected (w_serv w)); [by intros [=]|apply O3].
  - intros i s. rewrite lookup_fmap, fmap_Some. intros (s0 & Hs0 & ->). case_match; [by apply idle_ok|by eapply O4].
  - intros i s id. rewrite lookup_fmap, fmap_Some. intros (s0 & Hs0 & ->) Hc. eapply O5; [done|]. by case_match.
  - by destruct (connected (w_serv w)).
Qed.

(** ** All handlers *)

Inductive history_call :=
| HBatch (now : Z) (b : batch)
| HTargetsBatch (b : batch)
| HChunk (now : Z) (id : nat)
| HFail (now : Z) (code context : cstr)
| HDeferredStart (now : Z)
| HBeforeTimer
| HBackgroundTimer (sid : nat)
| HTabSwitch (sid : nat)
| HScheduleDeferred
| HWrapperBegin
| HWrapperEnd
| HTargetsOnReconnect (now : Z)
| HOlder (sid : nat)
| HGapFill (now : Z) (sid : nat) (gap_id approach_dir : Z)
| HHistory (sid : nat) (limit : Z)
| HStartBackground (sid : nat)
| HClearChannel (sid : nat)
| HCloseSession (sid : nat) (next : option nat)
| HDisconnect (now : Z) (delayed : bool)
| HCapability (enable : bool).

Definition history_exec (w : world) (c : history_call) : option world :=
  match c with
  | HBatch now b => chathistory_process_batch prefs now b w
  | HTargetsBatch b => chathistory_process_targets_batch prefs b w
  | HChunk now id => chunk_idle_cb prefs now id w
  | HFail now code context => chathistory_handle_fail prefs now code context w
  | HDeferredStart now => chathistory_deferred_start_cb prefs now w
  | HBeforeTimer => chathistory_before_timer_cb prefs w
  | HBackgroundTimer sid => on sid (background_history_timer_cb prefs) w
  | HTabSwitch sid => chathistory_notify_tab_switch prefs sid w
  | HScheduleDeferred => Some (chathistory_schedule_deferred prefs w)
  | HWrapperBegin => Some (chathistory_replay_wrapper_begin w)
  | HWrapperEnd => chathistory_replay_wrapper_end prefs w
  | HTargetsOnReconnect now => Some (chathistory_request_targets_on_reconnect now w)
  | HOlder sid => on sid (chathistory_request_older prefs) w
  | HGapFill now sid id dir => on sid (fun v => (chathistory_request_gap_fill prefs now id dir v).1) w
  | HHistory sid limit => on sid (chathistory_request_latest None limit) w
  | HStartBackground sid => on sid (chathistory_start_background_fetch prefs) w
  | HClearChannel sid => on sid (set_sess clear_channel) w
  | HCloseSession sid next => session_free sid next w
  | HDisconnect now delayed => Some (server_disconnect now delayed w)
  | HCapability enable => Some (upd_serv (history_capability enable) w)
  end.

(** Callers name existing sessions and batches, target names are whole UTF-8
    text, and the session of the BEFORE phase is not closed. *)
Definition history_admissible (w : world) (c : history_call) : Prop :=
  match c with
  | HBatch _ b => match b_target b with Some t => copyable t | None => True end
  | HTargetsBatch b => Forall (fun m => match target_of m with Some t => copyable t | None => True end) (b_messages b)
  | HChunk _ id => is_Some (chunks w !! id)
  | HBackgroundTimer sid | HTabSwitch sid | HOlder sid | HGapFill _ sid _ _ | HHistory sid _
  | HStartBackground sid | HClearChannel sid => sid ∈ sess_list w
  | HCloseSession sid next =>
      sid ∈ sess_list w /\ chathistory_before_sess (w_serv w) <> Some sid /\
      match next with Some n => n <> sid /\ n ∈ sess_list w | None => True end
  | _ => True
  end.

Fixpoint history_run (w : world) (cs : list history_call) : option world :=
  match cs with [] => Some w | c :: cs => w ← history_exec w c; history_run w cs end.

Fixpoint history_all_ok (w : world) (cs : list history_call) : Prop :=
  match cs with
  | [] => True
  | c :: cs => history_admissible w c /\ forall w', history_exec w c = Some w' -> history_all_ok w' cs
  end.

Lemma with_ok (w : world) o : (exists w', o = Some w' /\ keeps w w') -> exists w', o = Some w' /\ world_ok w'.
Proof. intros (w' & -> & Hk). exists w'. split; [done|apply Hk]. Qed.

Lemma history_exec_ok w c :
  world_ok w -> history_admissible w c -> exists w', history_exec w c = Some w' /\ world_ok w'.
Proof.
  intros Hok Hadm. destruct c; cbn [history_exec history_admissible] in *;
    try (eapply with_ok, on_ok; [done|by apply (wo_list _ Hok)|]; intros v _).
  - eapply with_ok, batch_ok; [done|]. intros t Ht. by rewrite Ht in Hadm.
  - eapply with_ok, targets_ok; [done|]. intros m t Hm Ht. rewrite Forall_forall in Hadm. specialize (Hadm m Hm).
    by rewrite Ht in Hadm.
  - by eapply with_ok, chunk_cb_ok.
  - by eapply with_ok, fail_ok.
  - by eapply with_ok, deferred_ok.
  - unfold chathistory_before_timer_cb. set (w1 := upd_serv _ w).
    assert (K1 : keeps w w1) by (apply upd_serv_ok; simpl; auto; apply Hok).
    case_match; [exists w1; split; [done|apply K1]|]. eapply with_ok, check_ok, K1.
  - apply vstep_background_timer.
  - unfold chathistory_notify_tab_switch. repeat case_match; try (by eauto); by eapply with_ok, check_ok.
  - eexists. split; [done|]. unfold chathistory_schedule_deferred. case_match; [done|]. apply emit_w_ok, upd_serv_ok; simpl; auto.
    apply Hok.
  - eexists. split; [done|]. unfold chathistory_replay_wrapper_begin.
    assert (K1 : keeps w (upd_serv set_replay_seen w)) by (apply upd_serv_ok; simpl; auto; apply Hok).
    case_match; [apply K1|]. apply upd_serv_ok; [apply K1|simpl; auto|]. simpl. apply Hok.
  - unfold chathistory_replay_wrapper_end. case_match; [by eapply with_ok, check_ok|by eauto].
  - eexists. split; [done|]. unfold chathistory_request_targets_on_reconnect. case_match; [|by apply reconnect_ok].
    apply upd_serv_ok; simpl; auto. apply Hok.
  - apply vstep_older.
  - apply vstep_gap_fill.
  - apply vstep_latest.
  - apply vstep_start_background.
  - by apply vstep_slots; [intros _; apply idle_ok|].
  - destruct Hadm as (Hin & Hb & Hn). apply free_ok; [done..|]. intros n ->. done.
  - eexists. split; [done|]. by apply disconnect_ok.
  - eexists. split; [done|]. apply upd_serv_ok; [done|left; unfold history_capability; by case_match|].
    unfold history_capability. case_match; simpl; apply Hok.
Qed.

(** As long as no session is closed in the middle of its BEFORE phase, any
    sequence of history batches, failures, timers, commands, disconnects and
    closed windows runs without following a dangling session or batch, and
    leaves every session with its request slots, loading flag and compatibility
    flags in step. *)
Theorem history_handlers_safe w cs :
  world_ok w -> history_all_ok w cs ->
  exists w', history_run w cs = Some w' /\ world_ok w'.
Proof.
  revert w; induction cs as [|c cs IH]; intros w Hok Hall; [by exists w|]. destruct Hall as [Hadm Hall].
  destruct (history_exec_ok w c Hok Hadm) as (w1 & He & Hok1). cbn [history_run]. rewrite He. cbn [mbind option_bind].
  by apply IH; [|apply Hall].
Qed.
End world.
