(* ===== verification/CatchupCases.v ===== *)
(** * Concrete histories

    Runs of the history machinery on small worlds, among them those in which the
    code does not do what its comments say. *)
From S2P Require Import Prelude Glib Text Access Proto Scrollback ScrollbackSpec GapLedger GapLedgerSpec.
From S2P Require Import Chathistory ChathistorySpec Catchup CatchupSpec.

(** ** Small worlds *)

Definition plain_isupport : isupport := ISupport "#" "beI,k,l,imnpst" "@+" "ov" false None.

(** A server with limit [n] that answers CHATHISTORY. *)
Definition small_server (n : Z) : server :=
  Server true true n 0 strcasecmp_ref plain_isupport false false false false false 0 0 None false false false.

Definition small_prefs : preferences := Prefs true 50 true 500 false 30 0 12 true.

Definition small_world (n : Z) (ss : list session) (db : scrollback_db) : world :=
  World (small_server n) (map_seq 0 ss) (seq 0 (length ss)) (Some 0%nat) (Some db) ∅ [].

Definition said (ts : Z) (id : string) : batch_message :=
  BatchMessage (Some ("PRIVMSG" : cstr)) [("#a" : cstr); ("hi" : cstr)] ts (Some (list_ascii_of_string id)) None false.

(** An edit the server appends after its message. *)
Definition context (ts : Z) (id : string) : batch_message :=
  BatchMessage (Some ("PRIVMSG" : cstr)) [("#a" : cstr); ("edited" : cstr)] ts (Some (list_ascii_of_string id)) None true.

Definition answer (target : string) (ms : list batch_message) : batch :=
  Batch (Some (list_ascii_of_string target)) false ms false.

Definition lines_of (w : world) : list string :=
  omap (fun e => match e with Labeled _ _ l => Some (string_of_list_ascii (take (length l - 2) l)) | _ => None end) (w_out w).

Definition replayed (w : world) (m : batch_message) : bool :=
  existsb (fun e => match e with Replay _ x => bool_decide (bm_msgid x = bm_msgid m) | _ => false end) (w_out w).

Definition channel_a : session := session_new SESS_CHANNEL "#a".
Definition channel_b : session := session_new SESS_CHANNEL "#b".
Definition server_tab : session := session_new SESS_SERVER [].
Definition dialog_bob : session := session_new SESS_DIALOG "bob".

Definition run (cs : list history_call) (w : world) : option world := history_run small_prefs w cs.

(** ** The invariant holds of them *)

Lemma small_world_ok n ss db :
  Forall (fun s => queue_ok (s_queue s) /\ chunk_state s = None) ss -> ss <> [] -> world_ok (small_world n ss db).
Proof.
  intros Hs Hne. rewrite Forall_forall in Hs.
  assert (Hin : forall sid s, map_seq (M:=gmap nat session) 0 ss !! sid = Some s -> s ∈ ss).
  { intros sid s Hl. rewrite lookup_map_seq_0 in Hl. by eapply list_elem_of_lookup_2. }
  constructor; cbn [small_world sess_list w_sessions current_sess w_serv small_server chathistory_before_sess
    chathistory_latest_pending chunks]; try done.
  - intros sid. rewrite elem_of_seq, lookup_map_seq_0, lookup_lt_is_Some. lia.
  - intros sid [= <-]. rewrite lookup_map_seq_0. by destruct ss.
  - intros sid s Hl. by apply (Hs s (Hin _ _ Hl)).
  - intros sid s id Hl Hc. destruct (Hs s (Hin _ _ Hl)) as [_ Hn]. congruence.
Qed.

#[export] Instance history_admissible_dec w c : Decision (history_admissible w c).
Proof.
  destruct c; cbn [history_admissible]; try apply _.
  - case_match; unfold copyable; apply _.
  - apply Forall_dec. intros m. case_match; unfold copyable; apply _.
  - apply and_dec; [apply _|]. apply and_dec; [apply _|]. case_match; apply _.
Defined.

#[export] Instance history_all_ok_dec w cs : Decision (history_all_ok small_prefs w cs).
Proof.
  revert w. induction cs as [|c cs IH]; intros w; cbn [history_all_ok]; [apply _|].
  apply and_dec; [apply _|]. destruct (history_exec small_prefs w c) as [w1|].
  - destruct (IH w1) as [Hw|Hw]; [left; by intros ? [= <-]|right; auto].
  - by left.
Defined.

(** Two channels: the first answer to LATEST, a switch of tabs, a failure, a
    closed tab and a lost connection. *)
Definition ordinary : list history_call :=
  [HDeferredStart 5000; HBatch 5000 (answer "#a" [said 4000 "m1"]); HHistory 1 50;
   HBatch 5000 (answer "#b" [said 4000 "m2"]); HTabSwitch 1; HFail 5000 "MESSAGE_ERROR" "BEFORE";
   HBeforeTimer; HDisconnect 6000 false].

Lemma history_handlers_safe_witness :
  let w := small_world 50 [channel_a; channel_b] fresh_db in
  exists w', history_run small_prefs w ordinary = Some w' /\ world_ok w'.
Proof.
  cbn zeta. apply (history_handlers_safe small_prefs).
  - apply small_world_ok; [|done]. repeat constructor; try done; by intros ? [=].
  - apply (bool_decide_eq_true_1 _). by vm_compute.
Defined.

Definition completes (o : option world) : bool := match o with Some _ => true | None => false end.

(** ** Closing tabs *)

(** The server has answered LATEST and a page of the BEFORE phase is under way
    when its tab is closed; the next tab switch reads the freed session. *)
Theorem closed_before_tab_dangles :
  let w := small_world 50 [channel_a; server_tab] fresh_db in
  let before := [HDeferredStart 5000; HBatch 5000 (answer "#a" [said 4000 "m1"])] in
  (w' ← run before w; chathistory_before_sess (w_serv w') ) = Some 0%nat /\
  completes (run (before ++ [HCloseSession 0 (Some 1%nat)]) w) = true /\
  run (before ++ [HCloseSession 0 (Some 1%nat); HTabSwitch 1]) w = None.
Proof. by vm_compute. Qed.

(** A tab closed while its LATEST request is unanswered keeps its slot: the other
    channel has its LATEST answer but never enters the BEFORE phase. *)
Theorem closed_latest_tab_keeps_slot :
  let w := small_world 50 [channel_a; channel_b] fresh_db in
  (w' ← run [HDeferredStart 5000; HCloseSession 0 (Some 1%nat); HBatch 5000 (answer "#a" [said 4000 "m1"]);
      HBatch 5000 (answer "#b" [said 4000 "m2"]); HBeforeTimer; HTabSwitch 1] w;
   Some (chathistory_latest_pending (w_serv w'), sess_needs_before w' 1, lines_of w')) =
  Some (1, true, ["CHATHISTORY LATEST #a * 50"; "CHATHISTORY LATEST #b * 50"]%string).
Proof. by vm_compute. Qed.

(** ** Slots *)

(** The catch-up of a missed conversation takes no slot but gives one back: the
    BEFORE phase starts while the channel's LATEST is unanswered. *)
Theorem targets_catchup_steals_slot :
  let w := small_world 50 [channel_a; dialog_bob] fresh_db in
  let targets := BatchMessage (Some ("CHATHISTORY" : cstr)) [("TARGETS" : cstr); ("bob" : cstr); ("t" : cstr)] 0 None None false in
  (w' ← run [HDeferredStart 5000; HTargetsBatch (answer "" [targets]); HBatch 5000 (answer "bob" [said 4000 "m1"])] w;
   s ← w_sessions w' !! 0%nat;
   Some (rq_type <$> ch_active (s_queue s), chathistory_latest_pending (w_serv w'), chathistory_before_sess (w_serv w'))) =
  Some (Some CHREQ_LATEST, 0, Some 1%nat).
Proof. by vm_compute. Qed.

(** ** Disconnecting *)

(** A dialog keeps the request it had in flight when the connection was lost. *)
Lemma loading_sends_nothing `{Dates} prefs v :
  history_loading (s_queue (sess v)) = true -> chathistory_start_catchup prefs v = v.
Proof. intros Hl. unfold chathistory_start_catchup. rewrite Hl. by case_match. Qed.

Theorem disconnected_dialog_keeps_loading :
  let w := small_world 50 [dialog_bob] fresh_db in
  (w' ← run [HHistory 0 50; HDisconnect 5000 false] w; s ← w_sessions w' !! 0%nat; Some (history_loading (s_queue s))) =
    Some true /\
  forall prefs v, history_loading (s_queue (sess v)) = true -> chathistory_start_catchup prefs v = v.
Proof. split; [by vm_compute|]. intros. by apply loading_sends_nothing. Qed.

(** ** Gap fill *)

(** One hole, from 100 to 1000. *)
Definition holed (start_id end_id : option cstr) : scrollback_db :=
  (scrollback_gap_record fresh_db "#a" 100 start_id 1000 end_id SCROLLBACK_GAP_WITNESSED).1.

Definition gap_rows (w : world) : option (list (Z * Z * Z * Z)) :=
  db ← w_scrollback w; Some (map (fun g => (start_ts g, end_ts g, gap_state g, attempts g)) (gaps (tbl db))).

(** While the server is away a gap fill reports success and counts an attempt
    though nothing is sent. *)
Theorem offline_gap_fill_counts :
  let w := small_world 50 [channel_a] (holed None None) in
  let w := upd_serv history_disconnected w in
  let v := chathistory_request_gap_fill small_prefs 5000 1 (-1) (View 0 (w_serv w) channel_a (w_scrollback w) []) in
  v.2 = true /\ out v.1 = [] /\ ch_active (s_queue (sess v.1)) = None /\
  (db ← scrollback v.1; head (map attempts (gaps (tbl db)))) = Some 1.
Proof. by vm_compute. Qed.

(** The answer of a server whose limit is one: an edit dated before the hole
    closes it although 900 is the oldest message received. *)
Theorem context_closes_gap :
  let w := small_world 1 [channel_a] (holed None None) in
  (w' ← run [HGapFill 5000 0 1 (-1); HBatch 5000 (answer "#a" [said 900 "m1"])] w; gap_rows w') =
    Some [(100, 900, 0, 0)] /\
  (w' ← run [HGapFill 5000 0 1 (-1); HBatch 5000 (answer "#a" [said 900 "m1"; context 50 "c1"])] w; gap_rows w') =
    Some [].
Proof. by vm_compute. Qed.

(** Fifty messages are processed at once; with an edit among them the newest
    message is never looked at. *)
Definition fifty : list batch_message :=
  map (fun n => said (Z.of_nat n + 200) (String "m" (String (ascii_of_nat (n + 48)) EmptyString))) (seq 0 50).

Theorem context_drops_newest :
  let w := small_world 50 [channel_a] fresh_db in
  exists newest, newest ∈ fifty /\
    (w' ← run [HHistory 0 50; HBatch 5000 (answer "#a" fifty)] w; Some (replayed w' newest)) = Some true /\
    (w' ← run [HHistory 0 50; HBatch 5000 (answer "#a" (fifty ++ [context 210 "c1"]))] w; Some (replayed w' newest)) = Some false.
Proof.
  exists (said 249 "ma"). split; [|by vm_compute].
  apply list_elem_of_fmap. exists 49%nat. split; [done|]. apply elem_of_seq. lia.
Qed.

(** A stale message id makes the answer empty.  The fill is repeated with
    timestamps, unless another request was waiting: the flag that is consulted
    is then that request's, and the hole is closed for good. *)
Theorem waiting_request_kills_gap :
  let w := small_world 50 [channel_a] (holed (Some (list_ascii_of_string "old")) None) in
  (w' ← run [HGapFill 5000 0 1 (-1); HBatch 5000 (answer "#a" [])] w; Some (gap_rows w', lines_of w')) =
    Some (Some [(100, 1000, 0, 1)],
      ["CHATHISTORY BETWEEN #a timestamp=1970-01-01T00:16:40.000Z msgid=old 50";
       "CHATHISTORY BETWEEN #a timestamp=1970-01-01T00:16:40.000Z timestamp=1970-01-01T00:01:40.000Z 50"]%string) /\
  (w' ← run [HGapFill 5000 0 1 (-1); HHistory 0 50; HBatch 5000 (answer "#a" [])] w; Some (gap_rows w', lines_of w')) =
    Some (Some [(100, 1000, 2, 1)],
      ["CHATHISTORY BETWEEN #a timestamp=1970-01-01T00:16:40.000Z msgid=old 50"; "CHATHISTORY LATEST #a * 50"]%string).
Proof. by vm_compute. Qed.
