(* ===== verification/GapFillSpec.v ===== *)
(** * Gap fill closes its gap

    Against a server that answers from a fixed history, the requests for a
    hole and the processing of their answers run out: the hole leaves the ledger,
    and by then the client knows every message the server has for it. *)
From S2P Require Import Prelude Glib Text Access Proto Scrollback ScrollbackSpec GapLedger GapLedgerSpec.
From S2P Require Import Chathistory ChathistorySpec Catchup CatchupSpec CatchupCases.

(** ** What processing a message changes *)

(** Replayed messages are stored: rows are added, and the ledger, the cutoff and
    the channel numbers are left alone. *)
Class InboundLaws (I : Inbound) : Prop := {
  store_gaps ch m db : gaps (tbl (store_replayed ch m db)) = gaps (tbl db);
  store_cutoff ch m db : retention_cutoff (store_replayed ch m db) = retention_cutoff db;
  store_rows ch m db x : x ∈ messages (tbl db) -> x ∈ messages (tbl (store_replayed ch m db));
  store_cache ch m db n i :
    channel_id_cache db !! n = Some i -> channel_id_cache (store_replayed ch m db) !! n = Some i }.

(** The database only learns. *)
Record learns (db db' : scrollback_db) : Prop := {
  ln_cutoff : retention_cutoff db' = retention_cutoff db;
  ln_rows x : x ∈ messages (tbl db) -> x ∈ messages (tbl db');
  ln_cache n i : channel_id_cache db !! n = Some i -> channel_id_cache db' !! n = Some i }.

#[export] Instance learns_preorder : PreOrder learns.
Proof.
  split; [by constructor|]. intros a b c [A1 A2 A3] [B1 B2 B3]. constructor; [congruence|auto|auto].
Qed.

Section reference_inbound.
Context `{Sqlite}.

(** It learns and leaves the ledger alone. *)
Definition extends (db db' : scrollback_db) : Prop := learns db db' /\ gaps (tbl db') = gaps (tbl db).

Lemma extends_trans db1 db2 db3 : extends db1 db2 -> extends db2 db3 -> extends db1 db3.
Proof. intros [L1 E1] [L2 E2]. split; [by etrans|congruence]. Qed.

Lemma extends_get db n : extends db (scrollback_get_channel_id db n).1.
Proof.
  unfold scrollback_get_channel_id. destruct n as [|c n]; [by repeat constructor|].
  destruct (channel_id_cache db !! (c :: n)) eqn:Hc; [by repeat constructor|].
  assert (Hins : extends db (set_tbl (stmt_channel_insert (c :: n)) db)).
  { unfold stmt_channel_insert. split; [constructor|]; simpl; try done; by case_match. }
  destruct (stmt_channel_lookup _ _) as [id|]; [|done]. eapply extends_trans; [exact Hins|]. split; [|done].
  constructor; [done|done|]. intros m i Hm. cbn [fst set_channel_id_cache channel_id_cache].
  rewrite lookup_insert_ne; [done|]. intros <-. change (channel_id_cache db !! (c :: n) = Some i) in Hm. congruence.
Qed.

Lemma extends_save db ch ts mid text user : extends db (scrollback_db_save db ch ts mid text user).1.
Proof.
  unfold scrollback_db_save. pose proof (extends_get db ch) as Hget.
  destruct (scrollback_get_channel_id db ch) as [db1 cid]. cbn [fst] in Hget. destruct (cid <? 0); [done|].
  destruct (stmt_insert _ _ _ _ _ _) as [[t rowid]|] eqn:Hins; [|done]. eapply extends_trans; [exact Hget|].
  assert (Ht : (forall x, x ∈ messages (tbl db1) -> x ∈ messages t) /\ gaps t = gaps (tbl db1)).
  { revert Hins. unfold stmt_insert. destruct (match _ with Some _ => existsb _ _ | None => _ end); [done|].
    intros [= <- _]. split; [|done]. intros x Hx. cbn. apply elem_of_app. by left. }
  assert (Hrow : extends db1 (chan_cache_note_insert cid ts (set_tbl (fun _ => t) db1))).
  { destruct (note_insert_tbl cid ts (set_tbl (fun _ => t) db1)) as (E1 & E2 & _). split; [|rewrite E1; apply Ht].
    constructor; [|rewrite E1; apply Ht|by rewrite E2]. unfold chan_cache_note_insert, chan_cache_invalidate. repeat case_match; done. }
  destruct (negb (fts _)); [done|]. set (db2 := chan_cache_note_insert _ _ _) in *. clearbody db2.
  assert (Hst : extends db2 (fts_state_get db2 cid).1).
  { unfold fts_state_get. repeat case_match; by repeat constructor. }
  destruct (fts_state_get db2 cid) as [db3 st]. cbn [fst] in Hst.
  assert (H3 : extends db1 db3) by (by eapply extends_trans). destruct (negb (st =? FTS_UNINDEXED)); [|done].
  eapply extends_trans; [exact H3|]. unfold fts_index_row, stmt_fts_insert. cbn [fst].
  destruct (negb (fts db3)); [by repeat constructor|]. split; [constructor|]; simpl; try done; by destruct (existsb _ _).
Qed.

(** Storing a replayed message as a row of its channel is lawful. *)
#[export] Instance inbound_ref_laws : InboundLaws inbound_ref.
Proof.
  split; intros ch m db; simpl; destruct (extends_save db ch (bm_timestamp m) (bm_msgid m) (default [] (last (bm_params m))) true)
    as [[L1 L2 L3] L4]; [exact L4|exact L1|exact L2|exact L3].
Qed.
End reference_inbound.

(** A view later: the same session, which knows at least as much. *)
Record later (v v' : view) : Prop := {
  lt_self : self v' = self v;
  lt_static : s_type (sess v') = s_type (sess v) /\ channel (sess v') = channel (sess v);
  lt_known : known_msgids (s_anchors (sess v)) ⊆ known_msgids (s_anchors (sess v'));
  lt_db db : scrollback v = Some db -> exists db', scrollback v' = Some db' /\ learns db db' }.

#[export] Instance later_preorder : PreOrder later.
Proof.
  split; [constructor; eauto; intros db ?; by exists db|].
  intros a b c [A1 [A2 A3] A4 A5] [B1 [B2 B3] B4 B5].
  constructor; [congruence|split; congruence|set_solver|].
  intros db Hdb. destruct (A5 db Hdb) as (db1 & E1 & L1). destruct (B5 db1 E1) as (db2 & E2 & L2).
  exists db2. split; [done|by etrans].
Qed.

(** A further copy of the message would be taken for a duplicate. *)
Definition knows (cid : Z) (v : view) (m : batch_message) : Prop :=
  exists id, bm_msgid m = Some id /\
    (make_dedup_key id (bm_timestamp m) ∈ known_msgids (s_anchors (sess v)) \/
     exists db x, scrollback v = Some db /\ x ∈ messages (tbl db) /\ msg_channel x = cid /\
       msgid x = Some id /\ msg_ts x = bm_timestamp m).

Lemma later_knows cid v v' m : later v v' -> knows cid v m -> knows cid v' m.
Proof.
  intros [_ _ Hk Hdb] (id & Hid & [Hin|(db & x & E & Hx & Hr)]); exists id; (split; [done|]).
  - left. set_solver.
  - right. destruct (Hdb db E) as (db' & E' & L). exists db', x. split; [done|]. split; [by apply (ln_rows _ _ L)|done].
Qed.

Section messages.
Context `{GLib, Dates, Sqlite, SqliteScan, Inbound} `{!InboundLaws H3}.
Context (ch : cstr) (cid : Z).

(** The session of channel [ch], whose number is known. *)
Record tuned (v : view) : Prop := {
  tn_channel : channel (sess v) = ch;
  tn_cached db : scrollback v = Some db -> channel_id_cache db !! ch = Some cid }.

Lemma later_tuned v v' : later v v' -> tuned v -> is_Some (scrollback v) -> tuned v'.
Proof.
  intros [_ [_ Hc] _ Hdb] [T1 T2] [db E]. constructor; [congruence|]. intros db' E'.
  destruct (Hdb db E) as (db2 & E2 & L). simplify_eq. apply (ln_cache _ _ L). by apply T2.
Qed.

(** What a message leaves alone besides. *)
Record beside (v v' : view) : Prop := {
  bs_serv : serv v' = serv v;
  bs_queue : s_queue (sess v') = s_queue (sess v);
  bs_catchup : s_catchup (sess v') = s_catchup (sess v);
  bs_background : background_history_active (sess v') = background_history_active (sess v);
  bs_gaps db db' : scrollback v = Some db -> scrollback v' = Some db' -> gaps (tbl db') = gaps (tbl db) }.

(** A message worth its name. *)
Definition proper (m : batch_message) : Prop :=
  is_Some (bm_command m) /\ 0 < bm_timestamp m /\ bm_context m = false /\
  exists c r, bm_msgid m = Some (c :: r).

Lemma message_spec m v :
  proper m -> ch <> [] -> 0 < cid -> tuned v -> is_Some (scrollback v) ->
  let v' := (process_batch_message m v).1 in
  later v v' /\ beside v v' /\ is_Some (scrollback v') /\ knows cid v' m.
Proof.
  intros ([command Hcmd] & Hts & _ & c & r & Hid) Hne Hcid [Hch Hcache] [db Hdb]. cbn zeta.
  unfold process_batch_message. rewrite Hcmd, Hid. cbv beta iota. unfold chathistory_is_duplicate_msgid.
  replace (bool_decide (c :: r = [])) with false by done. replace (0 <? bm_timestamp m) with true by lia.
  assert (Hrefl : later v v /\ beside v v /\ is_Some (scrollback v)).
  { split; [reflexivity|]. split; [|by rewrite Hdb]. constructor; [done..|]. intros. congruence. }
  case_bool_decide as Hin; [split_and!; try apply Hrefl; exists (c :: r); by split; [|left]|].
  unfold scrollback_session_has_msgid. rewrite Hch, Hdb.
  replace (bool_decide (ch = [])) with false by (by rewrite bool_decide_eq_false_2).
  replace (bool_decide (c :: r = [])) with false by done. cbn [orb].
  unfold scrollback_has_msgid. replace (bool_decide (c :: r = [])) with false by done.
  rewrite (get_cached db ch cid) by (done || by apply Hcache). replace (cid <=? 0) with false by lia.
  set (v0 := set_scrollback db v). assert (Hv0 : v0 = v) by (unfold v0, set_scrollback; rewrite <- Hdb; by destruct v).
  rewrite Hv0. clear v0 Hv0.
  destruct (existsb _ (messages (tbl db))) eqn:Hex.
  { split_and!; try apply Hrefl. exists (c :: r). split; [done|]. right. exists db.
    apply existsb_exists in Hex as (x & Hx & Hcond). exists x. apply andb_true_iff in Hcond as [Hcond Ht].
    apply andb_true_iff in Hcond as [Hof Heq]. unfold some_eq in Heq. apply bool_decide_eq_true in Heq.
    unfold of_channel in Hof. split_and!; [done|by apply list_elem_of_In|lia|done|lia]. }
  cbn iota. set (v1 := set_sess _ v).
  assert (Hv1 : later v v1 /\ beside v v1 /\ scrollback v1 = Some db /\ knows cid v1 m).
  { unfold v1, set_sess, chathistory_track_msgid_ts. replace (0 <? bm_timestamp m) with true by lia.
    cbv zeta. rewrite bool_decide_eq_false_2 by done. split; [|split; [|split; [done|]]].
    - constructor; simpl; [done|done|set_solver|]. intros db' Hdb'. exists db'. by split.
    - constructor; simpl; try done. intros. congruence.
    - exists (c :: r). split; [done|]. left. simpl. set_solver. }
  clearbody v1. destruct Hv1 as (L1 & B1 & D1 & K1). destruct (_ && _); cbn [fst].
  { split_and!; try done; by rewrite D1. }
  cbn [emit scrollback]. rewrite D1. set (v2 := set_scrollback _ _).
  assert (L2 : later v1 v2).
  { constructor; simpl; [done|done|done|]. intros db' Hdb'. eexists. split; [done|]. rewrite D1 in Hdb'. simplify_eq.
    constructor; [apply store_cutoff|apply store_rows|apply store_cache]. }
  split; [by etrans|]. split; [|split; [done|by eapply later_knows]].
  destruct B1 as [B1 B2 B3 B4 B5]. constructor; simpl; try done. intros d d' Hd [= <-]. rewrite store_gaps.
  by rewrite (B5 d db Hd D1).
Qed.

Lemma beside_refl v : beside v v.
Proof. constructor; [done..|]. intros. congruence. Qed.

Lemma beside_trans v1 v2 v3 : beside v1 v2 -> beside v2 v3 -> is_Some (scrollback v2) -> beside v1 v3.
Proof.
  intros [A1 A2 A3 A4 A5] [B1 B2 B3 B4 B5] [d2 D2]. constructor; try congruence.
  intros d d' Hd Hd'. rewrite (B5 d2 d' D2 Hd'). by apply A5.
Qed.

Lemma messages_spec ms count bounds v :
  Forall proper ms -> ch <> [] -> 0 < cid -> tuned v -> is_Some (scrollback v) ->
  let '(v', _, bounds') := process_messages ms count bounds v in
  later v v' /\ beside v v' /\ is_Some (scrollback v') /\ Forall (knows cid v') ms /\
  bounds' = foldl (fun b m => widen (bm_timestamp m) b) bounds ms.
Proof.
  intros Hms Hne Hcid. revert count bounds v. induction Hms as [|m ms Hm _ IH]; intros count bounds v Ht Hs.
  { cbn. split_and!; [reflexivity|apply beside_refl|done|done|done]. }
  cbn [process_messages foldl]. pose proof (message_spec m v Hm Hne Hcid Ht Hs) as Hspec. cbn zeta in Hspec.
  destruct (process_batch_message m v) as [v1 fresh]. cbn [fst] in Hspec. destruct Hspec as (L1 & B1 & S1 & K1).
  specialize (IH (if fresh then count + 1 else count) (widen (bm_timestamp m) bounds) v1
    (later_tuned _ _ L1 Ht Hs) S1).
  destruct (process_messages _ _ _ _) as [[v2 n] bounds2]. destruct IH as (L2 & B2 & S2 & K2 & E2).
  split_and!; [by etrans|by eapply beside_trans|done| |done]. constructor; [by eapply later_knows|done].
Qed.
End messages.

(** ** Bounds of sorted messages *)

Definition by_time (a b : batch_message) : Prop := bm_timestamp a <= bm_timestamp b.

Lemma sorted_lookup l i j a b :
  StronglySorted by_time l -> l !! i = Some a -> l !! j = Some b -> (i < j)%nat -> by_time a b.
Proof.
  intros Hs. revert i j; induction Hs as [|x l _ IH Hx]; intros [|i] [|j] Hi Hj Hlt; simpl in *; try done; try lia.
  - simplify_eq. rewrite Forall_forall in Hx. apply Hx. by eapply list_elem_of_lookup_2.
  - apply (IH i j); [done|done|lia].
Qed.

Lemma widen_above o n ms :
  0 < o -> Forall (fun m => o <= bm_timestamp m) ms ->
  (foldl (fun b m => widen (bm_timestamp m) b) (o, n) ms).1 = o.
Proof.
  intros Ho Hms. revert n. induction Hms as [|m ms Hm _ IH]; intros n; [done|]. cbn [foldl]. unfold widen at 2.
  simpl in Hm. replace (0 <? bm_timestamp m) with true by lia.
  replace ((o =? 0) || (bm_timestamp m <? o)) with false by lia. apply IH.
Qed.

Lemma sort_sorted l : StronglySorted by_time l -> sort_by_time l = l.
Proof.
  induction 1 as [|m l _ IH Hm]; [done|]. simpl. rewrite IH. destruct Hm as [|x l Hx]; [done|]. simpl.
  unfold by_time in Hx. by replace (bm_timestamp m <=? bm_timestamp x) with true by lia.
Qed.

Lemma raw_proper l : Forall proper l -> raw_messages l = l.
Proof.
  induction 1 as [|m l Hm _ IH]; [done|]. unfold raw_messages in *. simpl.
  destruct Hm as (_ & _ & -> & _). simpl. by rewrite IH.
Qed.

(** The batch made of a piece of the history. *)
Lemma chunk_of sid target m l ended gid dir before :
  Forall proper (m :: l) -> StronglySorted by_time (m :: l) ->
  exists newest, batch_chunk sid (Batch target false (m :: l) ended) false false true before gid dir =
    Chunk sid (m :: l) 0 (Z.of_nat (S (length l))) 0 0 (bm_msgid m) newest false ended false true false gid dir.
Proof.
  intros Hp Hs. unfold batch_chunk. cbn [b_messages b_end]. rewrite (sort_sorted _ Hs), (raw_proper _ Hp).
  apply Forall_cons in Hp as [(_ & _ & _ & c & r & Hid) _]. cbn [omap list_omap]. rewrite Hid. cbn [head andb].
  by eexists.
Qed.

(** ** Ledger rows by id *)

Definition row (v : view) (id : Z) : option gap := db ← scrollback v; scrollback_gap_get db id.

Lemma find_update id f gs :
  (forall g, gap_id (f g) = gap_id g) ->
  find (fun g => gap_id g =? id) (update_gap id f gs) = f <$> find (fun g => gap_id g =? id) gs.
Proof.
  intros Hf. unfold update_gap. induction gs as [|g gs IH]; [done|]. cbn [map find].
  destruct (gap_id g =? id) eqn:Hid; [by rewrite Hf, Hid|]. by rewrite Hid, IH.
Qed.

Lemma find_where {A} (q p : A -> bool) l x : find q l = Some x -> p x = true -> find q (where_ p l) = Some x.
Proof.
  unfold where_. induction l as [|y l IH]; [done|]. cbn [find List.filter]. destruct (q y) eqn:Hq.
  - intros [= ->] Hp. rewrite Hp. cbn [find]. by rewrite Hq.
  - intros Hf Hp. destruct (p y); [cbn [find]; rewrite Hq|]; by apply IH.
Qed.

Lemma find_map_same (q : gap -> bool) f l :
  (forall g, q (f g) = q g) -> find q (map f l) = f <$> find q l.
Proof.
  intros Hq. induction l as [|y l IH]; [done|]. cbn [map find]. rewrite Hq. by destruct (q y).
Qed.

Lemma get_some db id g : scrollback_gap_get db id = Some g -> 0 < id /\ gap_id g = id /\
  find (fun g => gap_id g =? id) (gaps (tbl db)) = Some g.
Proof.
  unfold scrollback_gap_get. case_match; [done|]. intros Hf. split; [lia|]. split; [|done].
  apply find_some in Hf as [_ ?]. lia.
Qed.

Definition touched (now : Z) (g : gap) : gap :=
  Gap (gap_id g) (gap_channel g) (start_ts g) (start_msgid g) (end_ts g) (end_msgid g) (gap_state g)
    (attempts g + 1) now.

Lemma get_touch now db id g :
  scrollback_gap_get db id = Some g ->
  scrollback_gap_get (scrollback_gap_touch now db id).1 id = Some (touched now g).
Proof.
  intros (Hid & _ & Hf)%get_some. unfold scrollback_gap_touch, scrollback_gap_get.
  replace (id <=? 0) with false by lia. simpl. by rewrite find_update, Hf.
Qed.

Lemma get_delete db id : 0 < id -> scrollback_gap_get (scrollback_gap_delete db id) id = None.
Proof.
  intros Hid. unfold scrollback_gap_delete, scrollback_gap_get. replace (id <=? 0) with false by lia. simpl.
  destruct (find _ _) as [g|] eqn:Hf; [|done]. apply find_some in Hf as [Hin He].
  apply list_elem_of_In, elem_of_where in Hin as [Hn _]. by rewrite He in Hn.
Qed.

Lemma get_dead db id g :
  scrollback_gap_get db id = Some g ->
  exists g', scrollback_gap_get (mark_dead db id) id = Some g' /\ gap_state g' = SCROLLBACK_GAP_DEAD.
Proof.
  intros (Hid & _ & Hf)%get_some. unfold mark_dead, scrollback_gap_set_state, scrollback_gap_get.
  replace (id <=? 0) with false by lia. simpl. rewrite find_update, Hf by done. simpl. by eexists.
Qed.

(** The end of a gap moves down to a time that is still inside it. *)
Lemma get_shrink db id g ts mid :
  scrollback_gap_get db id = Some g -> start_ts g < ts -> 0 < ts ->
  scrollback_gap_get (scrollback_gap_shrink db id 0 None ts mid) id = Some (narrow 0 None ts mid g).
Proof.
  intros (Hid & Hg & Hf)%get_some Hs Ht. unfold scrollback_gap_shrink, scrollback_gap_get.
  replace (id <=? 0) with false by lia. simpl. apply find_where; [by rewrite find_update, Hf|].
  unfold narrow. simpl. replace (0 <? ts) with true by lia. rewrite andb_comm. by replace (ts <=? start_ts g) with false by lia.
Qed.

Definition unanchored (g : gap) : gap :=
  Gap (gap_id g) (gap_channel g) (start_ts g) None (end_ts g) None (gap_state g) 0 0.

Lemma get_drop db id g :
  scrollback_gap_get db id = Some g -> has_msgid g = true ->
  (scrollback_gap_drop_msgids db id).2 = true /\
  scrollback_gap_get (scrollback_gap_drop_msgids db id).1 id = Some (unanchored g).
Proof.
  intros (Hid & Hg & Hf)%get_some Hm. unfold scrollback_gap_drop_msgids, scrollback_gap_get.
  replace (id <=? 0) with false by lia. cbn [fst snd with_gaps set_tbl tbl set_gaps gaps]. split.
  - apply find_some in Hf as [Hin _]. set (hit := fun g => (gap_id g =? id) && has_msgid g).
    assert (Hw : g ∈ where_ hit (gaps (tbl db))).
    { apply elem_of_where. split; [|by apply list_elem_of_In]. unfold hit. rewrite Hg, Hm. by rewrite Z.eqb_refl. }
    apply Z.ltb_lt. change (0 < sql_count (where_ hit (gaps (tbl db)))). unfold sql_count.
    destruct (where_ hit _); [by apply not_elem_of_nil in Hw|]. simpl length. lia.
  - rewrite (find_map_same (fun g => gap_id g =? id)); [|intros x; destruct ((gap_id x =? id) && has_msgid x); reflexivity]. rewrite Hf. simpl. by rewrite (proj2 (Z.eqb_eq _ _) Hg), Hm.
Qed.

Lemma learns_gaps db f : learns db (with_gaps db f).
Proof. by constructor. Qed.

(** ** A server with a history *)

Section positions.
Context (hs : list batch_message).

Definition count_before (t : Z) : nat := length (List.filter (fun m => bm_timestamp m <? t) hs).
Definition count_upto (t : Z) : nat := length (List.filter (fun m => bm_timestamp m <=? t) hs).

Lemma count_sorted (p : batch_message -> bool) l i m :
  StronglySorted by_time l -> (forall a b, by_time a b -> p b = true -> p a = true) ->
  l !! i = Some m -> (i < length (List.filter p l))%nat <-> p m = true.
Proof.
  intros Hs Hmono. revert i; induction Hs as [|x l Hs IH Hx]; intros i; [done|].
  rewrite Forall_forall in Hx. destruct i as [|i]; simpl.
  - intros [= ->]. destruct (p m) eqn:Hp; simpl; [split; [done|lia]|].
    split; [|done]. intros Hlt. destruct (List.filter p l) as [|y k] eqn:Hf; [simpl in Hlt; lia|].
    assert (Hy : In y (List.filter p l)) by (rewrite Hf; by left). apply filter_In in Hy as [Hin Hpy].
    rewrite (Hmono m y) in Hp; [done|apply Hx; by apply list_elem_of_In|done].
  - intros Hi. specialize (IH i Hi). destruct (p x) eqn:Hp; simpl; [rewrite <- IH; lia|].
    assert (Hpm : p m = false).
    { destruct (p m) eqn:Hm; [|done]. rewrite (Hmono x m) in Hp; [done|apply Hx; by eapply list_elem_of_lookup_2|done]. }
    rewrite Hpm in *. split; [|done]. intros Hlt. apply IH. lia.
Qed.
End positions.

(** Requests refer to positions: how many messages come strictly before a
    reference, and up to and including it.  A BETWEEN request whose first
    reference is the later one returns the last messages between the two, in
    order; an unknown message id returns nothing. *)
Section server.
Context (hs : list batch_message) (resolve : cstr -> option (nat * nat)) (lim : nat).

Definition slice (a b : nat) : list batch_message := drop a (take b hs).
Definition last_n (l : list batch_message) : list batch_message := drop (length l - lim) l.

Definition answers (r : chreq) : list batch_message :=
  match rq_type r, reference r ≫= resolve, end_ref r ≫= resolve with
  | CHREQ_BETWEEN, Some (b1, a1), Some (b2, a2) =>
      if Nat.leb b2 b1 then last_n (slice a2 b1) else take lim (slice a1 b2)
  | CHREQ_BEFORE, Some (b1, _), _ => last_n (slice 0 b1)
  | CHREQ_AFTER, Some (_, a1), _ => take lim (slice a1 (length hs))
  | _, _, _ => []
  end.

Lemma last_slice a b : (b <= length hs)%nat ->
  last_n (slice a b) = drop (Nat.max a (b - lim)) (take b hs).
Proof.
  intros Hb. unfold last_n, slice. rewrite drop_drop. f_equal.
  rewrite length_drop, length_take. lia.
Qed.

Lemma piece_lookup k b i : (k <= i < b)%nat -> drop k (take b hs) !! (i - k)%nat = hs !! i.
Proof. intros Hi. rewrite lookup_drop, lookup_take by lia. replace (k + (i - k))%nat with i by lia.
  destruct (decide (i < b)%nat); [done|lia]. Qed.

Lemma piece_sorted k b : StronglySorted by_time hs -> StronglySorted by_time (drop k (take b hs)).
Proof.
  intros Hs. assert (Htake : forall n l, StronglySorted by_time l -> StronglySorted by_time (take n l)).
  { intros n l Hl. revert n; induction Hl as [|x l Hl IH Hx]; intros [|n]; simpl; try constructor; [apply IH|].
    by apply Forall_take. }
  assert (Hdrop : forall n l, StronglySorted by_time l -> StronglySorted by_time (drop n l)).
  { intros n; induction n as [|n IH]; intros [|x l] Hl; simpl; try done. apply IH. by inversion Hl. }
  by apply Hdrop, Htake.
Qed.

(** The server's references. *)
Record server_ok `{Dates} (times : list Z) : Prop := {
  sv_proper : Forall proper hs;
  sv_sorted : StronglySorted by_time hs;
  sv_msgid i m id : hs !! i = Some m -> bm_msgid m = Some id -> resolve (msgid_ref id) = Some (i, S i);
  sv_time t : t ∈ times -> resolve (chathistory_ts_ref t) = Some (count_before hs t, count_upto hs t);
  sv_times i m : hs !! i = Some m -> bm_timestamp m ∈ times }.

(** A bound of a gap: a message of the history at that time, or one the server
    does not know any more, or only a time. *)
Definition bound_ok `{Dates} (times : list Z) (mid : option cstr) (ts : Z) : Prop :=
  ts ∈ times /\
  match mid with
  | Some (c :: r) => resolve (msgid_ref (c :: r)) = None \/
      exists i m, hs !! i = Some m /\ bm_msgid m = Some (c :: r) /\ bm_timestamp m = ts
  | _ => True
  end.

Lemma bound_resolves `{Dates} times mid ts :
  server_ok times -> bound_ok times mid ts ->
  (resolve (gap_ref mid ts).1 = None /\ (gap_ref mid ts).2 = true) \/
  exists b a, resolve (gap_ref mid ts).1 = Some (b, a) /\ (b <= a)%nat /\ (a <= length hs)%nat /\
    (count_before hs ts <= b)%nat /\
    (forall i m, hs !! i = Some m -> ts < bm_timestamp m -> (a <= i)%nat) /\
    (forall i m, hs !! i = Some m -> bm_timestamp m < ts -> (i < b)%nat) /\
    (forall i m, hs !! i = Some m -> (i < b)%nat -> bm_timestamp m <= ts).
Proof.
  intros [Hp Hs Hid Htime _] [Hts Hmid].
  assert (Hbefore : forall i m, hs !! i = Some m -> (i < count_before hs ts)%nat <-> bm_timestamp m < ts).
  { intros i m Hi. unfold count_before. rewrite (count_sorted _ hs i m Hs) by (done || (unfold by_time; intros; lia)). lia. }
  assert (Hupto : forall i m, hs !! i = Some m -> (i < count_upto hs ts)%nat <-> bm_timestamp m <= ts).
  { intros i m Hi. unfold count_upto. rewrite (count_sorted _ hs i m Hs) by (done || (unfold by_time; intros; lia)). lia. }
  assert (Htimed : exists b a, resolve (chathistory_ts_ref ts) = Some (b, a) /\ (b <= a)%nat /\ (a <= length hs)%nat /\
    (count_before hs ts <= b)%nat /\
    (forall i m, hs !! i = Some m -> ts < bm_timestamp m -> (a <= i)%nat) /\
    (forall i m, hs !! i = Some m -> bm_timestamp m < ts -> (i < b)%nat) /\
    (forall i m, hs !! i = Some m -> (i < b)%nat -> bm_timestamp m <= ts)).
  { exists (count_before hs ts), (count_upto hs ts). split; [by apply Htime|]. split_and!.
    - unfold count_before, count_upto. clear. induction hs as [|x l IH]; simpl; [done|].
      destruct (bm_timestamp x <? ts) eqn:E1, (bm_timestamp x <=? ts) eqn:E2; simpl; lia.
    - apply filter_length_le.
    - done.
    - intros i m Hi Hlt. pose proof (Hupto i m Hi). lia.
    - intros i m Hi Hlt. by apply Hbefore in Hi as ->.
    - intros i m Hi Hlt. pose proof (Hbefore i m Hi). lia. }
  destruct mid as [[|c r]|]; simpl; [by right| |by right].
  destruct Hmid as [Hnone|(j & m & Hj & Hm & Ht)]; [by left|right].
  exists j, (S j). pose proof (lookup_lt_Some _ _ _ Hj) as Hlen. split; [by eapply Hid|]. split; [lia|]. split; [lia|].
  assert (Hle : forall i x, hs !! i = Some x -> (i <= j)%nat -> bm_timestamp x <= ts).
  { intros i x Hi Hij. destruct (decide (i = j)) as [->|]; [simplify_eq; lia|].
    pose proof (sorted_lookup hs i j x m Hs Hi Hj ltac:(lia)) as Hle. unfold by_time in Hle. lia. }
  assert (Hge : forall i x, hs !! i = Some x -> (j <= i)%nat -> ts <= bm_timestamp x).
  { intros i x Hi Hij. destruct (decide (i = j)) as [->|]; [simplify_eq; lia|].
    pose proof (sorted_lookup hs j i m x Hs Hj Hi ltac:(lia)) as Hle'. unfold by_time in Hle'. lia. }
  split_and!.
  - destruct (Nat.le_gt_cases (count_before hs ts) j) as [|Hgt]; [done|]. apply (Hbefore j m Hj) in Hgt. lia.
  - intros i x Hi Hlt. destruct (Nat.le_gt_cases (S j) i); [done|]. specialize (Hle i x Hi ltac:(lia)). lia.
  - intros i x Hi Hlt. destruct (Nat.le_gt_cases j i) as [Hji|]; [|done]. specialize (Hge i x Hi Hji). lia.
  - intros i x Hi Hlt. apply (Hle i x Hi). lia.
Qed.
End server.

(** ** Filling one gap, scrolling up *)

Section fill.
Context `{GLib, Dates, Sqlite, SqliteScan, Inbound} `{!InboundLaws H3}.
Context (prefs : preferences) (sid : nat) (target : cstr) (cid gid : Z).
Context (hs : list batch_message) (resolve : cstr -> option (nat * nat)) (times : list Z) (lim : nat).
Context (start0 end0 : Z) (fallback : bool).

(** The session in between, with the reply to nothing outstanding but perhaps
    the gap's own request. *)
Record calm (v : view) : Prop := {
  cm_self : self v = sid;
  cm_type : s_type (sess v) = SESS_CHANNEL;
  cm_tuned : tuned target cid v;
  cm_up : have_chathistory (serv v) = true /\ connected (serv v) = true /\ chathistory_suppressed (serv v) = false;
  cm_mode : chathistory_between_unsupported (serv v) = fallback;
  cm_catchup : catchup_in_progress (s_catchup (sess v)) = false;
  cm_background : background_history_active (sess v) = false;
  cm_queue : queue_ok (s_queue (sess v));
  cm_waiting : ch_pending (s_queue (sess v)) = None;
  cm_limit : get_effective_limit (serv v) (irc_chathistory_lines prefs) = Z.of_nat lim }.

(** The row of the gap. *)
Record hole (v : view) (g : gap) : Prop := {
  hl_row : row v gid = Some g;
  hl_live : gap_state g <> SCROLLBACK_GAP_DEAD;
  hl_cutoff db : scrollback v = Some db -> retention_cutoff db <= start0;
  hl_start : start_ts g = start0;
  hl_span : 0 < start0 < end_ts g;
  hl_start_ok : bound_ok hs resolve times (start_msgid g) (start_ts g);
  hl_end_ok : bound_ok hs resolve times (end_msgid g) (end_ts g);
  hl_stale : fallback = false -> resolve (gap_ref (start_msgid g) (start_ts g)).1 = None -> end_ts g = end0 }.

(** The messages inside the hole, and how far the client knows them. *)
Definition inside (m : batch_message) : Prop := start0 < bm_timestamp m < end0.

Definition covered (v : view) (k : nat) : Prop :=
  forall i m, hs !! i = Some m -> (k <= i)%nat -> inside m -> knows cid v m.

(** The position of the gap's end. *)
Definition pos (g : gap) : nat :=
  match resolve (gap_ref (end_msgid g) (end_ts g)).1 with Some (b, _) => b | None => count_before hs (end_ts g) end.

Definition size (g : gap) : nat := 2 * pos g + (if has_msgid g then 1 else 0).

Definition idle (v : view) : Prop := ch_active (s_queue (sess v)) = None.
Definition asked (v : view) (g : gap) : Prop :=
  ch_active (s_queue (sess v)) = Some (gap_fill_request prefs (serv v) g (-1)).

Definition closed (v : view) : Prop :=
  match row v gid with Some g => gap_state g = SCROLLBACK_GAP_DEAD | None => True end.

Definition rested (now : Z) (g : gap) : Prop := last_attempt g <= 0 \/ last_attempt g + 60 <= now.

Lemma later_covered v v' k : later v v' -> covered v k -> covered v' k.
Proof. intros Hl Hc i m Hi Hk Hin. eapply later_knows; [done|]. by eapply Hc. Qed.

Lemma calm_ready v : target <> [] -> calm v -> ready v = true.
Proof.
  intros Hne [_ Ht [Hc _] (H4 & H5 & H6) _ _ _ _ _ _]. unfold ready, get_target_name. rewrite Ht, Hc, H4, H5, H6.
  by destruct target.
Qed.

Lemma row_db v g : row v gid = Some g -> exists db, scrollback v = Some db /\ scrollback_gap_get db gid = Some g.
Proof. unfold row. destruct (scrollback v) as [db|]; [|done]. simpl. by exists db. Qed.

(** Asking for the gap. *)
Lemma ask now v g :
  target <> [] -> irc_gapfill prefs = true -> calm v -> hole v g -> idle v -> rested now g ->
  let v' := (chathistory_request_gap_fill prefs now gid (-1) v).1 in
  (chathistory_request_gap_fill prefs now gid (-1) v).2 = true /\
  serv v' = serv v /\ calm v' /\ later v v' /\ hole v' (touched now g) /\ asked v' (touched now g).
Proof.
  intros Hne Hpref Hcalm Hhole Hidle Hrest. pose proof (calm_ready v Hne Hcalm) as Hready.
  pose proof Hcalm as [C1 C2 C3 (U1 & U2 & U3) C5 C6 C7 C8 C9 C10]. pose proof Hhole as [R1 R2 R3 R4 R5 R6 R7 R8].
  destruct (row_db _ _ R1) as (db & Hdb & Hg). destruct (get_some _ _ _ Hg) as (Hid & Hgid & _).
  unfold chathistory_request_gap_fill. rewrite U1, U3, Hpref, C6, Hdb, Hg. cbn [negb orb].
  replace (gid <=? 0) with false by lia. cbn [orb]. replace (gap_state g =? SCROLLBACK_GAP_DEAD) with false by lia.
  assert (Hparked : scrollback_gap_is_parked db g = false).
  { unfold scrollback_gap_is_parked. specialize (R3 db Hdb). lia. }
  assert (Hback : (0 <? last_attempt g) && (now - last_attempt g <? gap_backoff g) = false).
  { unfold gap_backoff. destruct Hrest; [lia|]. case_match; lia. }
  rewrite Hparked, Hback. unfold chathistory_submit. rewrite Hidle, C9. cbn [chreq_is_dup].
  set (req := gap_fill_request prefs (serv v) g (-1)). cbn [negb].
  pose proof (dispatch_spec req v) as Hd. rewrite Hready in Hd. destruct Hd as [Hq Ho].
  set (v1 := chathistory_dispatch_now req v) in *. cbn zeta. cbn [fst snd].
  assert (Hv1 : v1 = View (self v) (serv v) (sess v1) (scrollback v) (out v1) /\ s_type (sess v1) = s_type (sess v) /\
    channel (sess v1) = channel (sess v) /\ s_catchup (sess v1) = s_catchup (sess v) /\ s_anchors (sess v1) = s_anchors (sess v)
    /\ background_history_active (sess v1) = background_history_active (sess v)).
  { unfold v1, chathistory_dispatch_now. destruct (get_target_name (sess v)) as [[|c t]|]; [by destruct v| |by destruct v].
    case_match; by destruct v. }
  clearbody v1. destruct Hv1 as (E & T1 & T2 & T3 & T4 & T5). rewrite E.
  split; [done|]. split; [done|]. split; [|split; [|split]].
  - constructor; simpl; try done; try congruence.
    + constructor; simpl; [destruct C3; congruence|]. intros d [= <-]. destruct C3 as [_ Hcache].
      unfold scrollback_gap_touch. destruct (gid <=? 0); exact (Hcache db Hdb).
    + rewrite Hq, C9. constructor; simpl; [done|by intros ? [=]|]. by intros a [= <-].
    + rewrite Hq. simpl. by rewrite C9.
  - constructor; simpl; [done|by split|by rewrite T4|]. intros d Hd. simplify_eq. eexists. split; [done|].
    unfold scrollback_gap_touch. destruct (gid <=? 0); [reflexivity|apply learns_gaps].
  - constructor; cbn [touched start_ts end_ts start_msgid end_msgid gap_state]; try done.
    + unfold row. simpl. by apply get_touch.
    + intros d [= <-]. unfold scrollback_gap_touch. destruct (gid <=? 0); exact (R3 db Hdb).
  - unfold asked. simpl. by rewrite Hq.
Qed.

(** *** Processing the answer *)

Lemma look_put v w : look (self v) (put v w) = Some v.
Proof. unfold look, put. simpl. rewrite lookup_insert_eq. simpl. by destruct v. Qed.

Lemma put_put v v' w : self v' = self v -> put v' (put v w) = put v' w.
Proof. intros Hs. unfold put. simpl. by rewrite Hs, insert_insert_eq. Qed.

Lemma find_put name v v' w :
  look (self v) w = Some v -> self v' = self v -> s_type (sess v') = s_type (sess v) ->
  channel (sess v') = channel (sess v) -> p_cmp (serv v') = p_cmp (serv v) ->
  find_session_for_target name (put v' w) = find_session_for_target name w.
Proof.
  intros Hl Hs Ht Hc Hp. apply look_inv in Hl as (_ & Hsess & Hserv & _).
  assert (Hf : forall t, find_session t name (put v' w) = find_session t name w).
  { intros t. unfold find_session. cbn [put sess_list w_sessions w_serv]. rewrite Hs, Hp, Hserv. clear Hserv Hp.
    induction (sess_list w) as [|i l IH]; [done|]. cbn [find]. rewrite IH.
    destruct (decide (self v = i)) as [<-|Hi]; [by rewrite lookup_insert_eq, Hsess, Ht, Hc|by rewrite lookup_insert_ne]. }
  unfold find_session_for_target. destruct name; [done|]. by rewrite !Hf.
Qed.

(** A whole answer in one piece. *)
Lemma piece_whole ck v n m l mid newest ended dir :
  target <> [] -> 0 < cid -> tuned target cid v -> is_Some (scrollback v) ->
  Forall proper (m :: l) -> StronglySorted by_time (m :: l) -> le (length (m :: l)) CHATHISTORY_CHUNK_SIZE ->
  ck = Chunk sid (m :: l) 0 n 0 0 mid newest false ended false true false gid dir ->
  exists v2 count top, process_chunk_messages ck v =
      (v2, Chunk sid [] count n (bm_timestamp m) top mid newest false ended false true false gid dir) /\
    later v v2 /\ beside v v2 /\ is_Some (scrollback v2) /\ Forall (knows cid v2) (m :: l).
Proof.
  intros Hne Hcid Ht Hs Hp Hso Hlen ->. unfold process_chunk_messages. cbn [remaining msg_count oldest_timestamp newest_timestamp].
  rewrite (take_ge (m :: l)) by done. rewrite (drop_ge (m :: l)) by done.
  pose proof (messages_spec target cid (m :: l) 0 (0, 0) v Hp Hne Hcid Ht Hs) as Hms.
  destruct (process_messages (m :: l) 0 (0, 0) v) as [[v2 c] [o top]]. destruct Hms as (L & B & S & K & Hb).
  assert (Ho : o = bm_timestamp m).
  { cbn [foldl] in Hb. apply Forall_cons in Hp as [(_ & Hm & _) _]. unfold widen at 2 in Hb.
    replace (0 <? bm_timestamp m) with true in Hb by lia. cbn [Z.eqb orb] in Hb. inversion Hso as [|? ? _ Hall]; subst.
    pose proof (widen_above (bm_timestamp m) (bm_timestamp m) l Hm Hall) as Hw. rewrite <- Hb in Hw. done. }
  subst o. by exists v2, c, top.
Qed.

Definition set_oldest_if (id : option cstr) (v : view) : view :=
  match id with Some i => set_sess (set_oldest (Some i)) v | None => v end.

(** The bookkeeping after a gap's answer leaves the session idle. *)
Lemma retire_fill ck v :
  ch_pending (s_queue (sess v)) = None -> unsolicited ck = false -> 0 < ck_gap_id ck ->
  let v' := retire_batch ck v in
  self v' = self v /\ serv v' = fail_streak 0 (serv v) /\ scrollback v' = scrollback v /\
  s_type (sess v') = s_type (sess v) /\ channel (sess v') = channel (sess v) /\
  s_catchup (sess v') = s_catchup (sess v) /\ known_msgids (s_anchors (sess v')) = known_msgids (s_anchors (sess v)) /\
  background_history_active (sess v') = background_history_active (sess v) /\
  s_queue (sess v') = s_queue (clear_active (sess v)).
Proof.
  intros Hp Hu Hg. cbn zeta. unfold retire_batch, chathistory_request_complete. rewrite Hu. simpl. rewrite Hp.
  replace (ck_gap_id ck =? 0) with false by lia. rewrite andb_false_r. cbn [andb].
  destruct (batch_oldest_msgid ck); [destruct (0 <? raw_count ck)|]; split_and!; try done; simpl; by rewrite Hp.
Qed.

Definition filled (prefs : preferences) (serv : server) (ck : chunk) (db : scrollback_db) (g : gap) : scrollback_db :=
  if gap_bridged prefs serv ck g then scrollback_gap_delete db (ck_gap_id ck)
  else if ck_gap_dir ck <? 0
  then scrollback_gap_shrink db (ck_gap_id ck) 0 None (oldest_timestamp ck) (batch_oldest_msgid ck)
  else scrollback_gap_shrink db (ck_gap_id ck) (newest_timestamp ck) (batch_newest_msgid ck) 0 None.

Lemma page_fill now ck v db g :
  background_history_active (sess v) = false -> 0 < ck_gap_id ck -> 0 < raw_count ck ->
  scrollback v = Some db -> scrollback_gap_get db (ck_gap_id ck) = Some g ->
  let v' := history_page prefs now ck v in
  self v' = self v /\ serv v' = serv v /\ scrollback v' = Some (filled prefs (serv v) ck db g) /\
  s_type (sess v') = s_type (sess v) /\ channel (sess v') = channel (sess v) /\
  s_catchup (sess v') = s_catchup (sess v) /\ s_anchors (sess v') = s_anchors (sess v) /\
  background_history_active (sess v') = false /\ s_queue (sess v') = s_queue (sess v).
Proof.
  intros Hb Hid Hraw Hdb Hg. cbn zeta. unfold history_page. rewrite Hb. cbn [andb].
  set (v1 := if (0 <? raw_count ck) && (msg_count ck =? 0) then _ else v).
  assert (E : serv v1 = serv v /\ self v1 = self v /\ scrollback v1 = scrollback v /\ s_type (sess v1) = s_type (sess v) /\
    channel (sess v1) = channel (sess v) /\ s_catchup (sess v1) = s_catchup (sess v) /\ s_anchors (sess v1) = s_anchors (sess v) /\
    background_history_active (sess v1) = false /\ s_queue (sess v1) = s_queue (sess v)) by (unfold v1; by case_match).
  clearbody v1. destruct E as (E1 & E2 & E3 & E4 & E5 & E6 & E7 & E8 & E9).
  unfold fill_gap. replace ((0 <? ck_gap_id ck) && (0 <? raw_count ck)) with true by lia.
  rewrite E3, Hdb, Hg. cbn [emit set_scrollback sess serv scrollback self]. rewrite E8. cbn [andb].
  unfold filled. by rewrite E1, E2.
Qed.

(** *** What the server answers *)

Section reply.
Context (Hsv : server_ok hs resolve times) (Hlim : (0 < lim <= CHATHISTORY_CHUNK_SIZE)%nat).

(** The hole asked for by times alone lies no higher. *)
Lemma pos_unanchored v g : hole v g -> (pos (unanchored g) <= pos g)%nat /\ pos (unanchored g) = count_before hs (end_ts g).
Proof.
  intros Hg. assert (Hu : pos (unanchored g) = count_before hs (end_ts g)).
  { unfold pos. simpl. rewrite (sv_time _ _ _ Hsv) by apply (hl_end_ok _ _ Hg). done. }
  split; [|done]. rewrite Hu. unfold pos.
  destruct (bound_resolves hs resolve times _ _ Hsv (hl_end_ok _ _ Hg)) as [[-> _]|(b & a & -> & _ & _ & Hb & _)]; [done|exact Hb].
Qed.

(** No message of the hole lies below a position. *)
Definition none_below (k : nat) : Prop := forall i m, hs !! i = Some m -> (i < k)%nat -> ~ inside m.

Lemma none_below_early k m : hs !! k = Some m -> bm_timestamp m <= start0 -> none_below k.
Proof.
  intros Hk Hm i x Hi Hlt [Hx _]. pose proof (sorted_lookup hs i k x m (sv_sorted _ _ _ Hsv) Hi Hk Hlt) as Hle.
  unfold by_time in Hle. lia.
Qed.

(** The messages before [b], at most [lim] of them and none before [a], below
    which the hole has none. *)
Lemma last_reply a b :
  (b <= length hs)%nat -> none_below a ->
  match last_n lim (slice hs a b) with
  | [] => none_below b
  | m :: l => exists k, (k < b)%nat /\ m :: l = drop k (take b hs) /\ hs !! k = Some m /\
      (length (m :: l) <= lim)%nat /\ (bm_timestamp m <= start0 \/ (length (m :: l) < lim)%nat -> none_below k)
  end.
Proof.
  intros Hb Ha. rewrite last_slice by done. set (k := Nat.max a (b - lim)).
  assert (Hlen : length (drop k (take b hs)) = (b - k)%nat) by (rewrite length_drop, length_take; lia).
  destruct (drop k (take b hs)) as [|m l] eqn:Hd; simpl in Hlen.
  - intros i x Hi Hlt. apply (Ha i x Hi). lia.
  - assert (Hk : hs !! k = Some m).
    { rewrite <- (piece_lookup hs k b k) by lia. rewrite Hd. by replace (k - k)%nat with 0%nat by lia. }
    exists k. split_and!; [lia|done|done|simpl; lia|]. intros [Hm|Hm]; [by eapply none_below_early|].
    simpl in Hm. replace k with a by lia. done.
Qed.

(** The reply to the request for the hole: the last messages before its end. *)
Lemma reply_spec v g :
  chathistory_between_unsupported (serv v) = fallback -> hole v g ->
  let req := gap_fill_request prefs (serv v) g (-1) in
  (rq_used_msgid req = true -> has_msgid g = true) /\
  match answers hs resolve lim req with
  | [] => none_below (pos g) \/
      rq_used_msgid req = true /\
      (forall i m, hs !! i = Some m -> inside m -> (pos (unanchored g) <= i)%nat -> (pos g <= i)%nat)
  | m :: l => exists k, (k < pos g)%nat /\ m :: l = drop k (take (pos g) hs) /\ hs !! k = Some m /\
      (length (m :: l) <= lim)%nat /\ (fallback = false -> is_Some (resolve (gap_ref (start_msgid g) (start_ts g)).1)) /\
      (bm_timestamp m <= start0 \/ (length (m :: l) < lim)%nat -> none_below k)
  end.
Proof.
  intros Hmode Hg. cbn zeta. destruct (pos_unanchored v g Hg) as [_ Hpu].
  pose proof (bound_resolves hs resolve times _ _ Hsv (hl_end_ok _ _ Hg)) as He.
  pose proof (bound_resolves hs resolve times _ _ Hsv (hl_start_ok _ _ Hg)) as Hs.
  pose proof (hl_start _ _ Hg) as Hstart. pose proof (hl_span _ _ Hg) as Hspan. pose proof (hl_stale _ _ Hg) as Hstale.
  assert (Hpos : pos g = match resolve (gap_ref (end_msgid g) (end_ts g)).1 with
                         | Some (b, _) => b | None => count_before hs (end_ts g) end) by done.
  assert (Hused : (gap_ref (end_msgid g) (end_ts g)).2 || (gap_ref (start_msgid g) (start_ts g)).2 = true -> has_msgid g = true).
  { unfold gap_ref, has_msgid. destruct (end_msgid g) as [[|c r]|], (start_msgid g) as [[|c' r']|]; naive_solver. }
  unfold gap_fill_request. rewrite Hmode. cbn [Z.ltb Z.compare].
  destruct (gap_ref (end_msgid g) (end_ts g)) as [er eu], (gap_ref (start_msgid g) (start_ts g)) as [sr su]. cbn [fst snd] in *.
  destruct fallback; cbn [rq_used_msgid]; (split; [intros Hu; apply Hused; rewrite ?Hu; done|]); unfold answers;
    cbn [rq_type reference end_ref mbind option_bind].
  - destruct He as [[Hr ->]|(b & a & Hr & Hba & Hal & _)]; rewrite Hr in *.
    + right. split; [done|]. intros i m Hi Hm. by rewrite Hpu, Hpos.
    + pose proof (last_reply 0 b ltac:(lia) ltac:(intros i m _ Hi; lia)) as Hl.
      destruct (last_n lim (slice hs 0 b)) as [|m l]; [left; by rewrite Hpos|].
      destruct Hl as (k & K1 & K2 & K3 & K4 & K5). exists k. rewrite Hpos. by split_and!.
  - destruct He as [[Hr ->]|(b & a & Hr & Hba & Hal & Hcb & Hea & Heb & _)]; rewrite Hr in *.
    { right. split; [done|]. intros i m Hi Hm. by rewrite Hpu, Hpos. }
    destruct Hs as [[Hr2 ->]|(b2 & a2 & Hr2 & Hba2 & Hal2 & Hcb2 & Hsa & Hsb & Hsl)]; rewrite Hr2 in *.
    { right. split; [by rewrite orb_true_r|]. intros i m Hi [_ Hm] Hle. rewrite Hpu, (Hstale eq_refl eq_refl) in Hle.
      apply Nat.nlt_ge in Hle. contradict Hle. unfold count_before.
      apply (count_sorted _ hs i m (sv_sorted _ _ _ Hsv)); [unfold by_time; intros; lia|done|lia]. }
    assert (Hb2 : (b2 <= b)%nat).
    { destruct (Nat.le_gt_cases b2 b) as [|Hgt]; [done|]. exfalso.
      destruct (lookup_lt_is_Some_2 hs b ltac:(lia)) as [x Hx]. pose proof (Hsl b x Hx ltac:(lia)).
      pose proof (Heb b x Hx ltac:(lia)). lia. }
    replace (Nat.leb b2 b) with true by (symmetry; by apply Nat.leb_le).
    pose proof (last_reply a2 b ltac:(lia)) as Hl. destruct (last_n lim (slice hs a2 b)) as [|m l].
    + left. rewrite Hpos. apply Hl. intros i x Hi Hlt [Hx _]. pose proof (Hsa i x Hi ltac:(lia)). lia.
    + destruct Hl as (k & K1 & K2 & K3 & K4 & K5).
      { intros i x Hi Hlt [Hx _]. pose proof (Hsa i x Hi ltac:(lia)). lia. }
      exists k. rewrite Hpos. by split_and!.
Qed.
End reply.

(** *** The answer is processed *)

Lemma calm_beside v v' : is_Some (scrollback v) -> calm v -> later v v' -> beside v v' -> calm v'.
Proof.
  intros Hs [C1 C2 C3 C4 C5 C6 C7 C8 C9 C10] L [B1 B2 B3 B4 B5]. pose proof L as [L1 [L2 L3] L4 L5].
  constructor; rewrite ?B1, ?B2, ?B3, ?B4; try done; try congruence. by eapply later_tuned.
Qed.

(** The session, its gap request answered, is idle. *)
Lemma calm_done n v v' db db' :
  calm v -> scrollback v = Some db -> scrollback v' = Some db' -> channel_id_cache db' = channel_id_cache db ->
  self v' = self v -> serv v' = fail_streak n (serv v) ->
  s_type (sess v') = s_type (sess v) -> channel (sess v') = channel (sess v) -> s_catchup (sess v') = s_catchup (sess v) ->
  background_history_active (sess v') = false -> s_queue (sess v') = s_queue (clear_active (sess v)) ->
  calm v' /\ idle v'.
Proof.
  intros [C1 C2 [T1 T2] C4 C5 C6 C7 C8 C9 C10] Hdb Hdb' Hc Es Ev Et Ech Ec Eb Eq. split; [|unfold idle; by rewrite Eq].
  constructor; rewrite ?Es, ?Ev, ?Et, ?Ec, ?Eb, ?Eq; try done.
  - constructor; [congruence|]. intros d Hd. simplify_eq. rewrite Hc. by apply T2.
  - apply idle_ok. by repeat split.
Qed.

Lemma filled_row p s ck db g db' :
  ck_gap_id ck = gid -> ck_gap_dir ck = -1 -> scrollback_gap_get db gid = Some g -> 0 < oldest_timestamp ck ->
  db' = filled p s ck db g -> channel_id_cache db' = channel_id_cache db /\ learns db db' /\
  scrollback_gap_get db' gid =
    (if gap_bridged p s ck g || (oldest_timestamp ck <=? start_ts g) then None
     else Some (narrow 0 None (oldest_timestamp ck) (batch_oldest_msgid ck) g)).
Proof.
  intros Hid Hdir Hg Ho ->. pose proof (get_some _ _ _ Hg) as (Hpos & Hgid & _). unfold filled. rewrite Hid, Hdir. cbn [Z.ltb Z.compare].
  destruct (gap_bridged p s ck g) eqn:Hb; cbn [orb].
  - rewrite get_delete by done. unfold scrollback_gap_delete. replace (gid <=? 0) with false by lia. split_and!; [done|apply learns_gaps|done].
  - assert (Hle : (oldest_timestamp ck <=? start_ts g) = false).
    { unfold gap_bridged in Hb. rewrite Hdir in Hb. cbn [Z.ltb Z.compare] in Hb. lia. }
    rewrite Hle, (get_shrink db gid g) by (done || lia). unfold scrollback_gap_shrink. replace (gid <=? 0) with false by lia.
    by split_and!.
Qed.

Context (Hne : target <> []) (Hcid : 0 < cid).

(** The world in which a session is looked at. *)
Definition seen (w : world) (v : view) : Prop :=
  look sid w = Some v /\ find_session_for_target target w = Some sid /\ calm v.

Lemma seen_put w v v' : seen w v -> calm v' -> s_type (sess v') = s_type (sess v) -> channel (sess v') = channel (sess v) ->
  p_cmp (serv v') = p_cmp (serv v) -> seen (put v' w) v'.
Proof.
  intros (Hl & Hf & Hc) Hc' Ht Hch Hp. pose proof (cm_self _ Hc) as Hs. pose proof (cm_self _ Hc') as Hs'.
  split; [rewrite <- Hs'; apply look_put|]. split; [|done]. rewrite (find_put target v v'); try done; [congruence|by rewrite Hs'].
Qed.

Lemma answer_some now ended w v g m l :
  seen w v -> hole v g -> asked v g -> gap_id g = gid ->
  Forall proper (m :: l) -> StronglySorted by_time (m :: l) -> (length (m :: l) <= CHATHISTORY_CHUNK_SIZE)%nat ->
  exists v', chathistory_process_batch prefs now (Batch (Some target) false (m :: l) ended) w = Some (put v' w) /\
    seen (put v' w) v' /\ idle v' /\ later v v' /\ Forall (knows cid v') (m :: l) /\
    row v' gid = if (bm_timestamp m <=? start0) || (Z.of_nat (S (length l)) <? Z.of_nat lim) then None
                 else Some (narrow 0 None (bm_timestamp m) (bm_msgid m) g).
Proof.
  intros (Hl & Hf & Hc) Hg Ha Hgid Hp Hso Hlen. destruct (row_db _ _ (hl_row _ _ Hg)) as (db & Hdb & Hget).
  unfold chathistory_process_batch. cbn [b_target]. rewrite Hf. cbn [mbind option_bind]. rewrite Hl. cbn [mbind option_bind].
  unfold asked in Ha. rewrite Ha. cbn [b_nested b_messages].
  assert (Hr : rq_gap_id (gap_fill_request prefs (serv v) g (-1)) = gid /\ rq_gap_dir (gap_fill_request prefs (serv v) g (-1)) = -1).
  { unfold gap_fill_request. repeat case_match; done. }
  destruct Hr as [-> ->]. unfold chathistory_batch_is_unsolicited. cbn [b_nested orb]. rewrite Ha.
  rewrite (cm_catchup _ Hc). cbn [bool_decide andb].
  rewrite !(bool_decide_eq_false_2 (Some _ = None)) by done. cbn [andb].
  destruct (chunk_of sid (Some target) m l ended gid (-1) (catchup_is_before (s_catchup (sess v))) Hp Hso) as [newest ->].
  unfold start_batch, chunk_init, on. cbn [ck_sess]. pose proof (cm_self _ Hc) as Hs.
  assert (Hput : forall x, self x = sid -> look sid (put x w) = Some x) by (intros x <-; apply look_put).
  rewrite (Hput v Hs). cbn [mbind option_bind].
  set (v1 := emit _ _). rewrite (put_put v v1) by done.
  cbn [raw_count]. replace (Z.of_nat (S (length l)) <=? Z.of_nat CHATHISTORY_CHUNK_SIZE) with true by (symmetry; apply Z.leb_le, inj_le; exact Hlen).
  assert (Hs1 : self v1 = sid) by done. rewrite (Hput v1 Hs1). cbn [mbind option_bind].
  assert (Hscr1 : is_Some (scrollback v1)) by (by exists db).
  assert (Hc1 : calm v1).
  { destruct Hc as [C1 C2 [T1 T2] C4 C5 C6 C7 C8 C9 C10]. by constructor. }
  destruct (piece_whole _ v1 (Z.of_nat (S (length l))) m l (bm_msgid m) newest ended (-1) Hne Hcid (cm_tuned _ Hc1) Hscr1
    Hp Hso Hlen eq_refl) as (v2 & count & top & -> & L2 & B2 & S2 & K2).
  set (ck := Chunk _ _ _ _ _ _ _ _ _ _ _ _ _ _ _).
  assert (Hs2 : self v2 = sid) by (rewrite (lt_self _ _ L2); done).
  rewrite (put_put v1 v2) by congruence. unfold finish_batch_processing. cbn [ck_sess ck]. rewrite (Hput v2 Hs2). cbn [mbind option_bind].
  pose proof (calm_beside v1 v2 Hscr1 Hc1 L2 B2) as Hc2. destruct S2 as [db2 Hdb2].
  pose proof (retire_fill ck v2 (cm_waiting _ Hc2) eq_refl (proj1 (get_some _ _ _ Hget))) as Hr.
  cbn zeta in Hr. set (v3 := retire_batch ck v2) in *. clearbody v3. destruct Hr as (R1 & R2 & R3 & R4 & R5 & R6 & R7 & R8 & R9).
  assert (Hget2 : scrollback_gap_get db2 gid = Some g).
  { revert Hget. unfold scrollback_gap_get. by rewrite (bs_gaps _ _ B2 db db2 Hdb Hdb2). }
  pose proof (page_fill now ck v3 db2 g) as Hpage. cbn zeta in Hpage. cbn [is_catchup ck].
  set (v4 := history_page prefs now ck v3) in *. clearbody v4.
  destruct Hpage as (P1 & P2 & P3 & P4 & P5 & P6 & P7 & P8 & P9);
    [rewrite R8; apply (cm_background _ Hc2)|apply (get_some _ _ _ Hget)|simpl; lia|congruence|done|].
  assert (Hm : 0 < bm_timestamp m) by (apply Forall_cons in Hp as [(_ & Hm & _) _]; done).
  destruct (filled_row prefs (serv v3) ck db2 g _ eq_refl eq_refl Hget2 Hm eq_refl) as (F1 & F2 & F3).
  assert (L4 : later v2 v4).
  { constructor; [congruence|split; congruence|by rewrite P7, R7|]. intros d Hd. simplify_eq. by eexists. }
  assert (Hserv4 : serv v4 = fail_streak 0 (serv v)) by (rewrite P2, R2, (bs_serv _ _ B2); done).
  destruct (calm_done 0 v2 v4 db2 _ Hc2 Hdb2 P3 F1) as [Hc4 Hi4]; try congruence.
  exists v4. rewrite (put_put v2 v4) by congruence. split; [done|]. split; [|split; [done|split; [|split]]].
  - apply (seen_put w v); [by split_and!|done| | |by rewrite Hserv4].
    + rewrite P4, R4. apply (lt_static _ _ L2).
    + rewrite P5, R5. apply (lt_static _ _ L2).
  - etrans; [|exact L4]. destruct L2 as [A1 A2 A3 A4]. by constructor.
  - eapply Forall_impl; [exact K2|]. intros x Hx. by eapply later_knows.
  - unfold row. rewrite P3. cbn [mbind option_bind]. rewrite F3. cbn [oldest_timestamp batch_oldest_msgid ck].
    rewrite (hl_start _ _ Hg). unfold gap_bridged. cbn [ck_gap_dir oldest_timestamp ck raw_count Z.ltb Z.compare].
    rewrite (hl_start _ _ Hg), R2. change (get_effective_limit (fail_streak 0 (serv v2))) with (get_effective_limit (serv v2)).
    rewrite (cm_limit _ Hc2). replace (0 <? bm_timestamp m) with true by lia. cbn [andb].
    destruct (bm_timestamp m <=? start0), (Z.of_nat (S (length l)) <? Z.of_nat lim); done.
Qed.

(** An empty answer: the hole is asked for again by times alone, or given up. *)
Lemma answer_none now ended w v g :
  irc_gapfill prefs = true -> server_ok hs resolve times -> seen w v -> hole v g -> asked v g -> gap_id g = gid ->
  let req := gap_fill_request prefs (serv v) g (-1) in
  (rq_used_msgid req = true -> has_msgid g = true) ->
  exists v', chathistory_process_batch prefs now (Batch (Some target) false [] ended) w = Some (put v' w) /\
    seen (put v' w) v' /\ later v v' /\
    if rq_used_msgid req then hole v' (touched now (unanchored g)) /\ asked v' (touched now (unanchored g))
    else idle v' /\ closed v'.
Proof.
  intros Hpref Hsv (Hl & Hf & Hc) Hg Ha Hgid req Hused. destruct (row_db _ _ (hl_row _ _ Hg)) as (db & Hdb & Hget).
  unfold asked in Ha. fold req in Ha. destruct (qo_flags _ (cm_queue _ Hc) req Ha) as (_ & _ & Hu).
  unfold chathistory_process_batch. cbn [b_target]. rewrite Hf. cbn [mbind option_bind]. rewrite Hl. cbn [mbind option_bind].
  rewrite Ha. cbn [b_nested b_messages].
  assert (Hr : rq_gap_id req = gid /\ rq_gap_dir req = -1) by (unfold req, gap_fill_request; repeat case_match; done).
  destruct Hr as [-> ->]. unfold chathistory_batch_is_unsolicited. cbn [b_nested orb]. rewrite Ha.
  rewrite (bool_decide_eq_false_2 (Some _ = None)) by done. cbn [andb]. unfold empty_batch.
  pose proof (get_some _ _ _ Hget) as (Hpos & _). replace (gid =? 0) with false by lia.
  rewrite andb_false_r. cbn [andb]. replace (0 <? gid) with true by lia.
  unfold chathistory_request_complete. cbn [set_sess sess clear_active s_queue set_queue ch_pending]. rewrite (cm_waiting _ Hc).
  set (v1 := set_sess clear_active v).
  assert (Hc1 : calm v1 /\ idle v1).
  { apply (calm_done (chathistory_fail_streak (serv v)) v v1 db db); try done; [simpl; by destruct (serv v)|apply (cm_background _ Hc)]. }
  destruct Hc1 as [Hc1 Hi1].
  assert (Hseen : forall x, later v1 x -> serv x = serv v -> calm x -> seen (put x w) x /\ later v x).
  { intros x L Hx Hcx. split.
    - apply (seen_put w v); [by split_and!|done| | |by rewrite Hx]; apply (lt_static _ _ L).
    - etrans; [|exact L]. constructor; [done|done|done|]. intros d Hd. by exists d. }
  unfold empty_gap_fill, gap_fill_retry_with_timestamps. replace (gid <=? 0) with false by lia. cbn [orb].
  change (history_request_used_msgid (s_queue (sess v1))) with (history_request_used_msgid (s_queue (sess v))). rewrite Hu.
  change (chathistory_suppressed (serv v1)) with (chathistory_suppressed (serv v)).
  destruct (cm_up _ Hc) as (_ & _ & Hsup). rewrite Hsup. change (scrollback v1) with (scrollback v). rewrite Hdb.
  destruct (rq_used_msgid req); cbn [negb orb].
  - destruct (get_drop db gid g Hget (Hused eq_refl)) as [Hd1 Hd2].
    destruct (scrollback_gap_drop_msgids db gid) as [db1 dropped] eqn:Hdrop. cbn [fst snd] in Hd1, Hd2. rewrite Hd1. cbn [negb].
    set (v2 := emit _ _).
    assert (Hdb1 : channel_id_cache db1 = channel_id_cache db /\ retention_cutoff db1 = retention_cutoff db /\ learns db db1).
    { revert Hdrop. unfold scrollback_gap_drop_msgids. replace (gid <=? 0) with false by lia. intros [= <- _]. by repeat split. }
    destruct Hdb1 as (E1 & E2 & E3).
    assert (L2 : later v1 v2).
    { constructor; [done|done|done|]. intros d Hd. change (scrollback v1) with (scrollback v) in Hd. simplify_eq. by exists db1. }
    assert (Hc2 : calm v2).
    { destruct Hc1 as [C1 C2 [T1 T2] C4 C5 C6 C7 C8 C9 C10]. constructor; try done. constructor; [done|]. intros d [= <-].
      rewrite E1. by apply T2. }
    assert (Hg2 : hole v2 (unanchored g)).
    { destruct Hg as [G1 G2 G3 G4 G5 [G6 _] [G7 _] G8]. constructor; try done.
      - intros d [= <-]. rewrite E2. by apply G3.
      - intros _. simpl. rewrite (sv_time _ _ _ Hsv) by done. done. }
    destruct (ask now v2 (unanchored g) Hne Hpref Hc2 Hg2 Hi1) as (K1 & K2 & K3 & K4 & K5 & K6); [by left|].
    destruct (chathistory_request_gap_fill prefs now gid (-1) v2) as [v3 r]. cbn [fst snd] in *. subst r. exists v3.
    split; [done|]. destruct (Hseen v3) as [S1 S2]; [by etrans|by rewrite K2|done|]. by split_and!.
  - replace (scrollback v1) with (Some db) by done. cbv beta iota. set (v2 := emit _ _). exists v2. split; [done|].
    destruct (get_dead db gid g Hget) as (g' & Hg' & Hdead).
    assert (L2 : later v1 v2).
    { constructor; [done|done|done|]. intros d Hd. change (scrollback v1) with (scrollback v) in Hd. simplify_eq.
      eexists. split; [done|]. unfold mark_dead, scrollback_gap_set_state. case_match; [reflexivity|apply learns_gaps]. }
    destruct (Hseen v2) as [S1 S2]; [done|done| |].
    { destruct Hc1 as [C1 C2 [T1 T2] C4 C5 C6 C7 C8 C9 C10]. constructor; try done. constructor; [done|]. intros d [= <-].
      unfold mark_dead, scrollback_gap_set_state. case_match; exact (T2 db Hdb). }
    split_and!; [done|done|done|]. unfold closed, row. cbn [v2 emit set_scrollback scrollback mbind option_bind]. by rewrite Hg'.
Qed.

(** *** Rounds *)

(** A round: with nothing outstanding the scrolled-up window asks for the gap;
    otherwise the answer to the outstanding request arrives.  An input is the
    time and the draft/chathistory-end tag of the batch. *)
Definition round (input : Z * bool) (w : world) : option world :=
  v ← look sid w;
  match ch_active (s_queue (sess v)) with
  | None => on sid (fun v => (chathistory_request_gap_fill prefs input.1 gid (-1) v).1) w
  | Some r => chathistory_process_batch prefs input.1 (Batch (Some target) false (answers hs resolve lim r) input.2) w
  end.

Fixpoint rounds (inputs : list (Z * bool)) (w : world) : option world :=
  match inputs with [] => Some w | i :: inputs => w ← round i w; rounds inputs w end.

(** The gap is closed and every message of the hole is known. *)
Definition finished (w : world) : Prop :=
  exists v, look sid w = Some v /\ closed v /\ forall m, m ∈ hs -> inside m -> knows cid v m.

(** What is left to do at most. *)
Definition filling (inputs : list (Z * bool)) (n : nat) (w : world) : Prop :=
  exists v g, seen w v /\ hole v g /\ gap_id g = gid /\ covered v (pos g) /\
    (idle v /\ Forall (fun i => rested i.1 g) inputs /\ n = (2 * size g + 2)%nat \/
     asked v g /\ n = (2 * size g + 1)%nat).

Section progress.
Context (Hpref : irc_gapfill prefs = true) (Hsv : server_ok hs resolve times)
  (Hlim : (0 < lim <= CHATHISTORY_CHUNK_SIZE)%nat).

Lemma finish v w : look sid w = Some v -> closed v -> forall k, covered v k -> none_below k -> finished w.
Proof.
  intros Hl Hc k Hk Hn. exists v. split_and!; [done|done|]. intros m [i Hi]%list_elem_of_lookup_1 Hin.
  destruct (Nat.le_gt_cases k i) as [Hki|Hki]; [by apply (Hk i)|]. by destruct (Hn i m Hi Hki).
Qed.

Lemma ask_progress i inputs w v g :
  seen w v -> hole v g -> gap_id g = gid -> covered v (pos g) -> idle v -> rested i.1 g ->
  exists w', round i w = Some w' /\ filling inputs (2 * size g + 1)%nat w'.
Proof.
  intros Hs Hg Hid Hcov Hidle Hrest. destruct (ask i.1 v g Hne Hpref (proj2 (proj2 Hs)) Hg Hidle Hrest) as (K1 & K2 & K3 & K4 & K5 & K6).
  unfold round. rewrite (proj1 Hs). cbn [mbind option_bind]. unfold idle in Hidle. rewrite Hidle. unfold on. rewrite (proj1 Hs).
  cbn [mbind option_bind]. set (v' := (chathistory_request_gap_fill prefs i.1 gid (-1) v).1) in *. eexists. split; [done|].
  exists v', (touched i.1 g). split; [|split_and!; [done|done|by eapply later_covered|right; by split]].
  apply (seen_put w v); [done|done| | |by rewrite K2]; apply (lt_static _ _ K4).
Qed.

Lemma answer_progress i inputs w v g :
  seen w v -> hole v g -> gap_id g = gid -> covered v (pos g) -> asked v g ->
  exists w', round i w = Some w' /\ (finished w' \/ exists n, (n < 2 * size g + 1)%nat /\ filling inputs n w').
Proof.
  intros Hs Hg Hid Hcov Ha. destruct i as [now ended]. unfold round. rewrite (proj1 Hs). cbn [mbind option_bind].
  pose proof Ha as Ha'. unfold asked in Ha'. rewrite Ha'. cbn [fst snd]. clear Ha'.
  destruct (reply_spec Hsv Hlim v g (cm_mode _ (proj2 (proj2 Hs))) Hg) as [Hused Hreply].
  destruct (answers hs resolve lim (gap_fill_request prefs (serv v) g (-1))) as [|m l] eqn:Hans.
  - destruct (answer_none now ended w v g Hpref Hsv Hs Hg Ha Hid Hused) as (v' & -> & Hs' & L & Hcase).
    exists (put v' w). split; [done|]. pose proof (pos_unanchored Hsv v g Hg) as [Hpos _].
    destruct (rq_used_msgid _) eqn:Hu.
    + destruct Hcase as [Hg' Ha']. right. exists (2 * size (touched now (unanchored g)) + 1)%nat. split.
      * change (size (touched now (unanchored g))) with (2 * pos (unanchored g) + 0)%nat. unfold size. rewrite (Hused eq_refl). lia.
      * exists v', (touched now (unanchored g)). split_and!; try done; [|by right].
        apply (later_covered v); [done|]. change (pos (touched now (unanchored g))) with (pos (unanchored g)).
        intros j x Hj Hle Hin. apply (Hcov j x Hj); [|done].
        destruct Hreply as [Hn|[_ Hup]]; [|by eapply Hup]. destruct (Nat.le_gt_cases (pos g) j) as [|Hlt]; [done|].
        by destruct (Hn j x Hj Hlt).
    + left. destruct Hcase as [_ Hclosed]. destruct Hreply as [Hn|[? _]]; [|done].
      eapply finish; [apply Hs'|done|by eapply later_covered|done].
  - destruct Hreply as (k & K1 & K2 & K3 & K4 & K5 & K6).
    assert (Hp : Forall proper (m :: l)).
    { rewrite K2. apply Forall_drop, Forall_take, (sv_proper _ _ _ Hsv). }
    assert (Hso : StronglySorted by_time (m :: l)) by (rewrite K2; apply piece_sorted, (sv_sorted _ _ _ Hsv)).
    destruct (answer_some now ended w v g m l Hs Hg Ha Hid Hp Hso ltac:(lia)) as (v' & -> & Hs' & Hi' & L & K & Hrow).
    exists (put v' w). split; [done|].
    assert (Hcov' : covered v' k).
    { intros j x Hj Hle Hin. destruct (Nat.le_gt_cases (pos g) j) as [Hge|Hlt].
      - eapply later_knows; [done|]. by apply (Hcov j x).
      - rewrite Forall_forall in K. apply K. rewrite K2. apply (list_elem_of_lookup_2 _ (j - k)%nat).
        by rewrite (piece_lookup hs k (pos g) j) by lia. }
    destruct ((bm_timestamp m <=? start0) || (Z.of_nat (S (length l)) <? Z.of_nat lim)) eqn:Hb.
    + left. eapply finish; [apply Hs'| |exact Hcov'|apply K6].
      { unfold closed. by rewrite Hrow. }
      apply orb_true_iff in Hb as [Hb|Hb]; [left; lia|right]. apply Z.ltb_lt, Nat2Z.inj_lt in Hb. exact Hb.
    + right. apply orb_false_iff in Hb as [Hb1 _]. set (g' := narrow 0 None (bm_timestamp m) (bm_msgid m) g) in *.
      apply Forall_cons in Hp as [(_ & Hm & _ & c & r & Hmid) _]. destruct Hg as [G1 G2 G3 G4 G5 G6 G7 G8].
      assert (Hnew : gap_id g' = gid /\ start_ts g' = start_ts g /\ start_msgid g' = start_msgid g /\
        end_ts g' = bm_timestamp m /\ end_msgid g' = Some (c :: r) /\ gap_state g' = gap_state g /\ last_attempt g' = 0).
      { unfold g', narrow. cbn [Z.ltb Z.compare gap_id start_ts start_msgid end_ts end_msgid gap_state last_attempt].
        replace (0 <? bm_timestamp m) with true by lia. by rewrite Hmid. }
      destruct Hnew as (N1 & N2 & N3 & N4 & N5 & N6 & N7).
      assert (Hpos : pos g' = k).
      { unfold pos. rewrite N5. cbn [gap_ref fst]. by rewrite (sv_msgid _ _ _ Hsv k m). }
      exists (2 * size g' + 2)%nat. split; [unfold size; rewrite Hpos; destruct (has_msgid g'), (has_msgid g); lia|].
      exists v', g'. split_and!; [done| |done|by rewrite Hpos|].
      * constructor; rewrite ?N2, ?N3, ?N4, ?N5, ?N6; try done; [|lia| |].
        -- destruct (row_db _ _ G1) as (db & Hdb & _). destruct (lt_db _ _ L db Hdb) as (db' & Hdb' & E). intros d Hd. simplify_eq.
           rewrite (ln_cutoff _ _ E). by apply G3.
        -- split; [by apply (sv_times _ _ _ Hsv k)|]. right. by exists k, m.
        -- intros Hfb Hnone. destruct (K5 Hfb) as [x Hx]. simplify_eq.
      * left. split_and!; [done| |done]. apply Forall_forall. intros j _. left. rewrite N7. lia.
Qed.

(** Every round gets closer. *)
Lemma rounds_finish inputs n w :
  filling inputs n w -> (n <= length inputs)%nat ->
  exists k w', (k <= n)%nat /\ rounds (take k inputs) w = Some w' /\ finished w'.
Proof.
  revert n w; induction inputs as [|i inputs IH]; intros n w (v & g & Hs & Hg & Hid & Hcov & Hn) Hle.
  { cbn [length] in Hle. exfalso. destruct Hn as [(_ & _ & ->)|[_ ->]]; lia. }
  simpl in Hle. destruct Hn as [(Hi & Hrest & ->)|[Ha ->]].
  - apply Forall_cons in Hrest as [Hr _].
    destruct (ask_progress i inputs w v g Hs Hg Hid Hcov Hi Hr) as (w1 & Hw1 & Hf1).
    destruct (IH _ _ Hf1 ltac:(lia)) as (k & w' & Hk & Hw' & Hf). exists (S k), w'. split; [lia|]. split; [|done].
    cbn [take rounds]. by rewrite Hw1.
  - destruct (answer_progress i inputs w v g Hs Hg Hid Hcov Ha) as (w1 & Hw1 & [Hf|(n & Hn & Hf1)]).
    + exists 1%nat, w1. split; [lia|]. split; [|done]. cbn [take rounds]. by rewrite Hw1.
    + destruct (IH _ _ Hf1 ltac:(lia)) as (k & w' & Hk & Hw' & Hf). exists (S k), w'. split; [lia|]. split; [|done].
      cbn [take rounds]. by rewrite Hw1.
Qed.

Lemma pos_bound v g : hole v g -> (pos g <= length hs)%nat.
Proof.
  intros Hg. unfold pos. destruct (bound_resolves hs resolve times _ _ Hsv (hl_end_ok _ _ Hg)) as [[-> _]|(b & a & -> & H6 & H7 & _)].
  - apply filter_length_le.
  - lia.
Qed.
End progress.

(** C4. Against a server that answers from a fixed history in answers of at most
    fifty messages, none of them marked as context, a gap scrolled into view from
    its end, on a session with nothing else waiting or running, is closed within a
    number of rounds bounded by the length of the history, whatever the answers'
    end tags say, whether or not the server knows BETWEEN, and even if it no
    longer knows the message ids at the gap's ends: the row leaves the ledger (or
    is marked dead), and by then the client knows every message the server has
    strictly between the gap's bounds. What context messages and another waiting
    request do to a gap is shown by [CatchupCases.context_closes_gap] and
    [CatchupCases.waiting_request_kills_gap]. *)
Theorem gap_fill_closes inputs v w g :
  irc_gapfill prefs = true -> server_ok hs resolve times -> (0 < lim <= CHATHISTORY_CHUNK_SIZE)%nat ->
  seen w v -> hole v g -> gap_id g = gid -> end_ts g = end0 -> idle v ->
  Forall (fun i => rested i.1 g) inputs -> (4 * length hs + 4 <= length inputs)%nat ->
  exists k w', rounds (take k inputs) w = Some w' /\ finished w'.
Proof.
  intros Hpref Hsv Hlim Hs Hg Hid Hend Hi Hrest Hlen. pose proof (pos_bound Hsv Hlim v g Hg) as Hp.
  destruct (rounds_finish Hpref Hsv Hlim inputs (2 * size g + 2) w) as (k & w' & _ & Hw & Hf).
  - exists v, g. split_and!; try done; [|by left]. intros i m Hm Hle [_ Hin]. exfalso. rewrite <- Hend in Hin.
    unfold pos in Hle. destruct (bound_resolves hs resolve times _ _ Hsv (hl_end_ok _ _ Hg)) as [[Hr _]|(b & a & Hr & _ & _ & _ & _ & Hb & _)];
      rewrite Hr in Hle; [|specialize (Hb i m Hm Hin); lia].
    apply Nat.nlt_ge in Hle. contradict Hle. unfold count_before.
    apply (count_sorted _ hs i m (sv_sorted _ _ _ Hsv)); [unfold by_time; intros; lia|done|lia].
  - unfold size. destruct (has_msgid g); lia.
  - by exists k, w'.
Qed.
End fill.

(** ** A witness *)

(** Three messages in the hole from 100 to 1000, whose first bound carries a
    message id the server has forgotten; answers of at most two messages. *)
Definition three : list batch_message := [said 200 "a"; said 300 "b"; said 400 "c"].
Definition three_times : list Z := [100; 200; 300; 400; 1000].

Definition resolve_three (r : cstr) : option (nat * nat) :=
  match find (fun im => bool_decide (msgid_ref (default [] (bm_msgid im.2)) = r)) (imap pair three) with
  | Some (i, _) => Some (i, S i)
  | None => t ← find (fun t => bool_decide (chathistory_ts_ref t = r)) three_times;
            Some (count_before three t, count_upto three t)
  end.

Definition stale_gap : gap := Gap 1 1 100 (Some (list_ascii_of_string "old")) 1000 None 0 0 0.
Definition stale_world : world := small_world 2 [channel_a] (holed (Some (list_ascii_of_string "old")) None).
Definition stale_view : view := View 0 (w_serv stale_world) channel_a (w_scrollback stale_world) [].

Lemma three_ok : server_ok three resolve_three three_times.
Proof.
  constructor.
  - repeat (constructor; [split_and!; [by eexists|done|done|by do 2 eexists]|]); constructor.
  - repeat constructor; unfold by_time; simpl; lia.
  - intros [|[|[|i]]] m id; intros [= <-]; intros [= <-]; by vm_compute.
  - intros t Ht. repeat (apply elem_of_cons in Ht as [->|Ht]; [by vm_compute|]). by apply not_elem_of_nil in Ht.
  - intros [|[|[|i]]] m; intros [= <-]; simpl; set_solver.
Qed.

Lemma gap_fill_closes_witness :
  exists k w', rounds small_prefs 0 "#a" 1 three resolve_three 2 (take k (repeat (5000, false) 16)) stale_world = Some w' /\
    finished 0 1 1 three 100 1000 w'.
Proof.
  apply (gap_fill_closes small_prefs 0 "#a" 1 1 three resolve_three three_times 2 100 1000 false ltac:(done) ltac:(lia)
    (repeat (5000, false) 16) stale_view stale_world stale_gap).
  - done.
  - exact three_ok.
  - unfold CHATHISTORY_CHUNK_SIZE. lia.
  - split; [reflexivity|]. split; [by vm_compute|]. constructor; try done; try (by vm_compute).
    + constructor; [done|]. intros db [= <-]. by vm_compute.
  - constructor; try (by vm_compute).
    + intros db [= <-]. by vm_compute.
    + split; [vm_compute; set_solver|]. left. by vm_compute.
    + split; [vm_compute; set_solver|done].
  - done.
  - done.
  - done.
  - apply Forall_forall. intros i _. left. simpl. lia.
  - by vm_compute; lia.
Defined.
