(* ===== verification/Persistence.v ===== *)
(** * Held sessions (src/common/persistence.c)

    The draft/persistence negotiation: names in any namespace, the ATTACH of the
    registration flight, the replies and failures that open and close the gate
    before the client's own catch-up. *)
From S2P Require Import Prelude Glib Text Access Proto Scrollback.

(** ** Names in a namespace *)

Section names.
Context `{GLib}.

(** One prefix taken off: "draft/", or a scope with a dot. *)
Definition strip_scope (name : cstr) : option cstr :=
  len ← index_of "/" name;
  if (Nat.eqb len 5 && (g_ascii_strncasecmp name "draft" 5 =? 0)) || (Nat.ltb 0 len && strchr_b (take len name) ".")
  then Some (drop (S len) name) else None.

Fixpoint strip_scopes (fuel : nat) (name : cstr) : cstr :=
  match fuel with
  | O => name
  | S fuel => match strip_scope name with Some rest => strip_scopes fuel rest | None => name end
  end.

Definition persistence_strip_namespace (name : cstr) : cstr := strip_scopes (length name) name.

Definition persistence_match (name : cstr) : option cstr :=
  match name with
  | [] => None
  | _ =>
      let base := persistence_strip_namespace name in
      if negb (g_ascii_strncasecmp base "persistence" 11 =? 0) then None
      else match drop 11 base with
           | [] => Some []
           | c :: sub => if c =c "/" then Some sub else None
           end
  end.

Definition persistence_is_bare_name (name : cstr) : bool :=
  match persistence_match name with Some [] => true | _ => false end.

(** ** State *)

(** The optional verbs of the capability's value. *)
Record verbs := Verbs {
  tok_replay_control : bool; tok_profile : bool; tok_attach : bool; tok_detach : bool; tok_list : bool;
  tok_attach_cursor : bool }.

(** The persistence_ flags of a server; the trace holds lines sent and shown. *)
Record persist := Persist {
  have_persistence : bool; persist_profile : cstr; verbs_of : verbs;
  status_known : bool; effective : bool; hold_known : bool; hold : bool;
  attached : bool; cursor_sent : bool; attach_pending : bool; replay_seen : bool }.

Inductive shown :=
| Sent (line : cstr)                  (* tcp_sendf *)
| Servtext (text : cstr) (stamp : Z). (* XP_TE_SERVTEXT *)

Definition set_gate (att cur pend seen : bool) (p : persist) : persist :=
  Persist (have_persistence p) (persist_profile p) (verbs_of p) (status_known p) (effective p) (hold_known p) (hold p)
    att cur pend seen.

Definition value_is_on (value : option cstr) : bool :=
  match value with
  | Some v => bool_decide (v = ("1" : cstr)) || (g_ascii_strcasecmp v "on" =? 0) || (g_ascii_strcasecmp v "true" =? 0)
  | None => false
  end.

(** ** The capability's value *)

Definition add_verb (v : verbs) (token : cstr) : verbs :=
  let tok := persistence_strip_namespace token in
  match tok with
  | [] => v
  | _ =>
      if g_ascii_strcasecmp tok "replay-control" =? 0
      then Verbs true (tok_profile v) (tok_attach v) (tok_detach v) (tok_list v) (tok_attach_cursor v)
      else if g_ascii_strcasecmp tok "profile" =? 0
      then Verbs (tok_replay_control v) true (tok_attach v) (tok_detach v) (tok_list v) (tok_attach_cursor v)
      else if g_ascii_strcasecmp tok "attach" =? 0
      then Verbs (tok_replay_control v) (tok_profile v) true (tok_detach v) (tok_list v) (tok_attach_cursor v)
      else if g_ascii_strcasecmp tok "detach" =? 0
      then Verbs (tok_replay_control v) (tok_profile v) (tok_attach v) true (tok_list v) (tok_attach_cursor v)
      else if g_ascii_strcasecmp tok "list" =? 0
      then Verbs (tok_replay_control v) (tok_profile v) (tok_attach v) (tok_detach v) true (tok_attach_cursor v)
      else if g_ascii_strcasecmp tok "attach-cursor" =? 0
      then Verbs (tok_replay_control v) (tok_profile v) (tok_attach v) (tok_detach v) (tok_list v) true
      else v
  end.

Definition no_verbs : verbs := Verbs false false false false false false.

Definition persistence_parse_cap_value (value : cstr) (p : persist) : persist :=
  Persist (have_persistence p) (persist_profile p) (foldl add_verb no_verbs (g_strsplit value ","))
    (status_known p) (effective p) (hold_known p) (hold p) (attached p) (cursor_sent p) (attach_pending p) (replay_seen p).

(** ** ATTACH *)

Definition PERSISTENCE_MAX_CURSOR_LEN : nat := 256.

(** The newest message id of the network's database, when the server takes one. *)
Definition attach_cursor (db : option scrollback_db) (p : persist) : option cstr :=
  if tok_attach_cursor (verbs_of p) then
    cursor ← (db ← db; scrollback_get_global_newest_msgid db);
    if Nat.ltb PERSISTENCE_MAX_CURSOR_LEN (length cursor) then None else Some cursor
  else None.

Definition persistence_send_attach (db : option scrollback_db) (p : persist) : persist * list shown :=
  if negb (have_persistence p) || bool_decide (persist_profile p = []) ||
     existsb (strchr_b [" "%char; CR; LF]) (persist_profile p) || attached p then (p, [])
  else
    let cursor := attach_cursor db p in
    (set_gate true (bool_decide (is_Some cursor)) true (replay_seen p) p,
     [Sent (match cursor with
            | Some c => fmt [("PERSISTENCE ATTACH " : cstr); persist_profile p; (" " : cstr); c; EOL]
            | None => fmt [("PERSISTENCE ATTACH " : cstr); persist_profile p; EOL]
            end)]).

(** What the catch-up asks ([Catchup] keeps these three flags with the server). *)
Definition server_drives_replay (p : persist) : bool := attached p && cursor_sent p && negb (replay_seen p).

Definition persistence_registration_complete (p : persist) : persist :=
  set_gate (attached p) (cursor_sent p) false (replay_seen p) p.

(** ** Replies *)

Definition PERSISTENCE_MAX_WORDS : nat := 8.

(** The words with their offsets; a colon starts the last one. *)
Fixpoint leading_spaces (s : cstr) : nat :=
  match s with c :: s => if c =c " " then S (leading_spaces s) else O | [] => O end.

Fixpoint persistence_split (room pos : nat) (s : cstr) : list (nat * cstr) :=
  match room with
  | O => []
  | S room =>
      let p := (pos + leading_spaces s)%nat in
      let s := drop (leading_spaces s) s in
      match s with
      | [] => []
      | c :: rest =>
          if c =c ":" then [(S p, rest)]
          else
            let len := default (length s) (index_of " " s) in
            (p, take len s) :: persistence_split room (p + S len) (drop (S len) s)
      end
  end.

Definition is_word (w : option (nat * cstr)) (name : string) : bool :=
  match w with Some (_, w) => g_ascii_strcasecmp w name =? 0 | None => false end.

(** The text shown for a reply: its words are [w], the line is [args]. *)
Definition reply_text (args : cstr) (w : list (nat * cstr)) : cstr :=
  let n := length w in
  let arg i := default [] (snd <$> w !! i) in
  let rest i := drop (default O (fst <$> w !! i)) args in
  let profile := is_word (w !! 0%nat) "PROFILE" in
  let says i name := is_word (w !! i) name in
  if says 0%nat "STATUS" && Nat.leb 2 n then
    if Nat.leb 3 n then fmt [("Persistence: preference " : cstr); arg 1%nat; (", effective " : cstr); arg 2%nat]
    else fmt [("Persistence: effective " : cstr); arg 1%nat]
  else if says 0%nat "SET" && Nat.leb 2 n then fmt [("Persistence: preference set to " : cstr); arg 1%nat]
  else if says 0%nat "REPLAY" && Nat.leb 4 n && says 1%nat "STATUS" then
    fmt [("Persistence replay: preference " : cstr); arg 2%nat; (", effective " : cstr); arg 3%nat]
  else if says 0%nat "REPLAY" && Nat.leb 3 n && says 1%nat "SET" then
    fmt [("Persistence replay: preference set to " : cstr); arg 2%nat]
  else if profile && Nat.leb 2 n && says 1%nat "ENDOFLIST" then ("Persistence: end of profile list" : cstr)
  else if profile && Nat.leb 3 n && says 1%nat "CREATED" then
    fmt [("Persistence: profile " : cstr); arg 2%nat; (" created (" : cstr);
         (if Nat.leb 4 n then rest 3%nat else ("parent=default" : cstr)); (")" : cstr)]
  else if profile && Nat.leb 3 n && says 1%nat "DELETED" then
    fmt [("Persistence: profile " : cstr); arg 2%nat; (" deleted" : cstr)]
  else if profile && Nat.leb 4 n && says 1%nat "RENAMED" then
    fmt [("Persistence: profile " : cstr); arg 2%nat; (" renamed to " : cstr); arg 3%nat]
  else if profile && Nat.eqb n 2 then fmt [("Persistence: profile " : cstr); arg 1%nat]
  else if profile && Nat.leb 3 n && strchr_b (arg 2%nat) "=" then
    fmt [("Persistence: profile " : cstr); arg 1%nat; (" (" : cstr); rest 2%nat; (")" : cstr)]
  else if profile && Nat.leb 4 n then
    fmt [("Persistence: profile " : cstr); arg 1%nat; (": " : cstr); arg 2%nat; (" = " : cstr); arg 3%nat]
  else if profile && Nat.eqb n 3 then
    fmt [("Persistence: profile " : cstr); arg 1%nat; (": " : cstr); arg 2%nat; (" unset" : cstr)]
  else if says 0%nat "ATTACH" && Nat.leb 2 n then fmt [("Persistence: attached to profile " : cstr); arg 1%nat]
  else if says 0%nat "DETACH" && Nat.leb 2 n && says 1%nat "OK" then
    ("Persistence: detached, the session was released" : cstr)
  else if says 0%nat "DETACH" && Nat.leb 2 n && says 1%nat "NOSESSION" then ("Persistence: no session to detach" : cstr)
  else fmt [("Persistence: " : cstr); args].

Definition persistence_handle_reply (args : cstr) (stamp : Z) (p : persist) : persist * list shown :=
  let args := drop (leading_spaces args) args in
  let w := persistence_split PERSISTENCE_MAX_WORDS 0 args in
  match w with
  | [] => (p, [])
  | w0 :: ws =>
      let says name := is_word (Some w0) name && Nat.leb 1 (length ws) in
      let p :=
        if says "STATUS" then
          Persist (have_persistence p) (persist_profile p) (verbs_of p) true
            (value_is_on (match ws with _ :: (_, w2) :: _ => Some w2 | [(_, w1)] => Some w1 | [] => None end))
            (hold_known p) (hold p) (attached p) (cursor_sent p) (attach_pending p) (replay_seen p)
        else if says "ATTACH" then set_gate (attached p) (cursor_sent p) false (replay_seen p) p
        else p in
      (p, [Servtext (reply_text args w) stamp])
  end.

(** ** Failures *)

Definition persistence_handle_fail (code context text : option cstr) (stamp : Z) (p : persist) : persist * list shown :=
  let bare := match code with Some c => persistence_strip_namespace c | None => [] end in
  let p :=
    if attach_pending p then
      if g_ascii_strcasecmp bare "CURSOR_UNKNOWN" =? 0 then set_gate (attached p) false false (replay_seen p) p
      else if (g_ascii_strcasecmp bare "ACCOUNT_REQUIRED" =? 0) || (g_ascii_strcasecmp bare "INVALID_PARAMETERS" =? 0)
      then set_gate false false false (replay_seen p) p
      else set_gate (attached p) (cursor_sent p) false (replay_seen p) p
    else p in
  (p, [Servtext
         (match context with
          | Some (c :: ctx) =>
              fmt [("Persistence error " : cstr); bare; (" (" : cstr); c :: ctx; ("): " : cstr); default [] text]
          | _ => fmt [("Persistence error " : cstr); bare; (": " : cstr); default [] text]
          end) stamp]).

(** ** Metadata *)

Definition persistence_handle_metadata (p_cmp : cstr -> cstr -> Z) (nick : cstr)
    (target : option cstr) (key : cstr) (value : option cstr) (stamp : Z) (p : persist) : persist * list shown * bool :=
  let ours := match target with
              | None => true
              | Some t => bool_decide (t = ("*" : cstr)) || (p_cmp t nick =? 0)
              end in
  if ours && (g_ascii_strcasecmp key "hold" =? 0) then
    let known := bool_decide (is_Some value) in
    let on := value_is_on value in
    if Bool.eqb known (hold_known p) && Bool.eqb on (hold p) then (p, [], true)
    else
      (Persist (have_persistence p) (persist_profile p) (verbs_of p) (status_known p) (effective p) known on
         (attached p) (cursor_sent p) (attach_pending p) (replay_seen p),
       [Servtext
          (if negb known then ("Persistence: hold preference cleared, the server default applies" : cstr)
           else if on then ("Persistence: the server is holding this session across disconnects" : cstr)
           else ("Persistence: the server is not holding this session" : cstr)) stamp], true)
  else
    let who := default [] target in
    (p,
     [Servtext
        (match value with
         | Some v =>
             if ours then fmt [("Persistence: " : cstr); key; (" = " : cstr); v]
             else fmt [("Persistence [" : cstr); who; ("]: " : cstr); key; (" = " : cstr); v]
         | None =>
             if ours then fmt [("Persistence: " : cstr); key; (" unset" : cstr)]
             else fmt [("Persistence [" : cstr); who; ("]: " : cstr); key; (" unset" : cstr)]
         end) stamp], true).

(** ** The connection *)

Definition persist_reset (p : persist) : persist :=
  Persist false (persist_profile p) no_verbs false false false false false false false false.

(** [inbound_toggle_caps] for this capability, and the wrapper of a replay. *)
Definition persist_capability (enable : bool) (p : persist) : persist :=
  Persist enable (persist_profile p) (verbs_of p) (status_known p) (effective p) (hold_known p) (hold p)
    (attached p) (cursor_sent p) (attach_pending p) (replay_seen p).

Definition replay_began (p : persist) : persist := set_gate (attached p) (cursor_sent p) (attach_pending p) true p.
End names.
