(* ===== verification/PersistenceSpec.v ===== *)
(** * Correctness of the persistence negotiation *)
From S2P Require Import Prelude Glib Text Access Isupport Proto Scrollback ScrollbackSpec Persistence.

Lemma drop_past (s rest : cstr) c : drop (S (length s)) (s ++ c :: rest) = rest.
Proof.
  replace (s ++ c :: rest) with ((s ++ [c]) ++ rest) by by rewrite <- app_assoc.
  apply drop_app_length'. rewrite length_app. simpl. lia.
Qed.

(** ** Namespaces *)

Section names.
Context `{GLib} `{!GLibLaws H}.

(** What may stand before a slash. *)
Definition scope (s : cstr) : Prop :=
  ("/"%char ∉ s) /\ (map ascii_lower s = ("draft" : cstr) \/ ("."%char ∈ s)).

Definition scoped (scopes : list cstr) (base : cstr) : cstr := concat (map (fun s => s ++ ("/" : cstr)) scopes) ++ base.

(** The test of the loop is [scope]. *)
Lemma scope_test s rest :
  nonul (s ++ "/"%char :: rest) ->
  (Nat.eqb (length s) 5 && (g_ascii_strncasecmp (s ++ "/"%char :: rest) "draft" 5 =? 0)) ||
  (Nat.ltb 0 (length s) && strchr_b s ".") = true <-> (map ascii_lower s = ("draft" : cstr) \/ ("."%char ∈ s)).
Proof.
  intros Hn. rewrite orb_true_iff, !andb_true_iff, Nat.eqb_eq, Nat.ltb_lt, Z.eqb_eq, strchr_b_spec by done.
  rewrite g_ascii_strncasecmp_zero by (done || by apply (bool_decide_unpack _); vm_compute).
  change (map ascii_lower (take 5 ("draft" : cstr))) with ("draft" : cstr). split.
  - intros [[Hl Hd]|[_ Hd]]; [left|by right]. rewrite <- Hl in Hd. by rewrite take_app_length in Hd.
  - intros [Hd|Hd]; [left|right; split; [destruct s; [by apply not_elem_of_nil in Hd|simpl; lia]|done]].
    assert (Hl : length s = 5%nat) by (apply (f_equal length) in Hd; by rewrite length_map in Hd).
    split; [done|]. rewrite <- Hl. by rewrite take_app_length.
Qed.

Lemma strip_scope_spec name :
  nonul name ->
  match strip_scope name with
  | Some rest => exists s, name = s ++ "/"%char :: rest /\ scope s
  | None => forall s rest, name = s ++ "/"%char :: rest -> ~ scope s
  end.
Proof.
  intros Hn. unfold strip_scope. destruct (index_of "/" name) as [len|] eqn:Hi; cbn [mbind option_bind].
  - apply index_of_split in Hi as (E & Hs & Hl). set (s := take len name) in *. set (rest := drop (S len) name) in *.
    assert (Hlen : len = length s) by (unfold s; rewrite length_take; lia).
    pose proof (scope_test s rest) as Ht. rewrite <- E, <- Hlen in Ht. specialize (Ht Hn).
    destruct (_ || _) eqn:Hb.
    + exists s. split; [done|]. split; [done|]. by apply Ht.
    + intros s' rest' E' [Hs' Hd]. assert (s' = s) as ->; [|by apply Ht in Hd].
      rewrite E in E'. clear -E' Hs Hs'. revert s' E' Hs'. induction s as [|x s IH]; intros [|y s'] E' Hs'; simplify_eq/=; set_solver.
  - apply index_of_None in Hi. intros s rest ->. set_solver.
Qed.

Lemma strip_scopes_spec fuel name :
  nonul name -> (length name <= fuel)%nat ->
  exists scopes, Forall scope scopes /\ name = scoped scopes (strip_scopes fuel name) /\
    forall s rest, strip_scopes fuel name = s ++ "/"%char :: rest -> ~ scope s.
Proof.
  revert name; induction fuel as [|fuel IH]; intros name Hn Hl.
  { destruct name; [|simpl in Hl; lia]. exists []. split_and!; [done|done|]. intros s rest E. by destruct s. }
  cbn [strip_scopes]. pose proof (strip_scope_spec name Hn) as Hs. destruct (strip_scope name) as [rest|].
  - destruct Hs as (s & -> & Hs). apply nonul_app in Hn as [_ Hn]. apply nonul_cons in Hn as [_ Hn].
    rewrite length_app in Hl. simpl in Hl. destruct (IH rest Hn ltac:(lia)) as (scopes & Hf & E & Hend).
    exists (s :: scopes). split_and!; [by constructor| |done]. unfold scoped in *. cbn [map concat].
    rewrite E at 1. by rewrite <- !app_assoc.
  - exists []. by split_and!.
Qed.

(** Names in any namespace: [persistence_strip_namespace] stops on every name
    and takes off exactly the leading scopes, each "draft" in any case or a text
    with a dot, until none is left. *)
Theorem strip_namespace_spec name :
  nonul name ->
  exists scopes, Forall scope scopes /\ name = scoped scopes (persistence_strip_namespace name) /\
    forall s rest, persistence_strip_namespace name = s ++ "/"%char :: rest -> ~ scope s.
Proof. intros Hn. by apply strip_scopes_spec. Qed.
End names.

(** ** The words of a reply *)

Lemma leading_spaces_word c s : c <> " "%char -> leading_spaces (c :: s) = O.
Proof. intros Hc. simpl. by destruct (Ascii.eqb_spec c " "). Qed.

Lemma leading_spaces_le s : (leading_spaces s <= length s)%nat.
Proof. induction s as [|c s IH]; simpl; [lia|]. destruct (c =c " "); lia. Qed.

(** Every word stands in the line where its offset says, the last one to its end. *)
Lemma split_offsets room pos s p w :
  (p, w) ∈ persistence_split room pos s ->
  exists k, p = (pos + k)%nat /\ (k <= length s)%nat /\ w `prefix_of` drop k s.
Proof.
  revert pos s; induction room as [|room IH]; intros pos s; [by intros ?%not_elem_of_nil|]. cbn [persistence_split].
  pose proof (leading_spaces_le s) as Hsp. set (k0 := leading_spaces s) in *.
  destruct (drop k0 s) as [|c rest] eqn:Hd; [by intros ?%not_elem_of_nil|].
  assert (Hlen : length s = (k0 + S (length rest))%nat).
  { apply (f_equal length) in Hd. rewrite length_drop in Hd. simpl in Hd. lia. }
  destruct (Ascii.eqb_spec c ":") as [->|Hc].
  - intros [= -> ->]%list_elem_of_singleton. exists (S k0). split_and!; [lia|lia|].
    replace (S k0) with (k0 + 1)%nat by lia. rewrite <- drop_drop, Hd. done.
  - set (len := default _ _). intros [[= -> ->]|Hin]%elem_of_cons.
    + exists k0. split_and!; [done|done|]. rewrite Hd. exists (drop len (c :: rest)). by rewrite take_drop.
    + destruct (drop (S len) (c :: rest)) as [|x l] eqn:Hd2; [destruct room; by apply not_elem_of_nil in Hin|].
      apply IH in Hin as (k & -> & Hk & Hp). exists (k0 + S len + k)%nat.
      assert (Hl2 : length (c :: rest) = (S len + length (x :: l))%nat).
      { rewrite <- Hd2, length_drop. apply (f_equal length) in Hd2. rewrite length_drop in Hd2. cbn [length] in *. lia. }
      cbn [length] in *. split_and!; [lia|lia|]. by rewrite <- !drop_drop, Hd, Hd2.
Qed.

(** A line of words, perhaps with a trailing parameter. *)
Definition good_word (w : cstr) : Prop := w <> [] /\ (" "%char ∉ w) /\ peek w <> ":"%char.

Fixpoint reply_line (ws : list cstr) (trailing : option cstr) : cstr :=
  match ws, trailing with
  | [], Some t => ":"%char :: t
  | [], None => []
  | [w], None => w
  | w :: ws, _ => w ++ " "%char :: reply_line ws trailing
  end.

Lemma split_words room pos ws trailing :
  Forall good_word ws -> (length ws + length (option_list trailing) <= room)%nat ->
  map snd (persistence_split room pos (reply_line ws trailing)) = ws ++ option_list trailing.
Proof.
  intros Hws. revert room pos. induction Hws as [|w ws (Hne & Hsp & Hcol) Hws IH]; intros room pos Hroom.
  - destruct trailing as [t|]; [|by destruct room]. destruct room as [|room]; [simpl in Hroom; lia|done].
  - destruct room as [|room]; [simpl in Hroom; lia|]. destruct w as [|c w]; [done|]. simpl in Hcol.
    assert (Hc : c <> " "%char) by (intros ->; apply Hsp; by left).
    assert (Hcases : reply_line ((c :: w) :: ws) trailing = c :: w /\ ws = [] /\ trailing = None \/
      reply_line ((c :: w) :: ws) trailing = (c :: w) ++ " "%char :: reply_line ws trailing).
    { destruct ws, trailing; [right|left|right|right]; done. }
    destruct Hcases as [(-> & -> & ->)| ->]; cbn [persistence_split app].
    + rewrite leading_spaces_word by done. cbn [drop]. destruct (Ascii.eqb_spec c ":"); [done|].
      rewrite (proj2 (index_of_None " " (c :: w))) by done. cbn [default from_option id map snd fst].
      rewrite take_ge, drop_ge by (simpl; lia). by destruct room.
    + rewrite leading_spaces_word by done. cbn [drop]. destruct (Ascii.eqb_spec c ":"); [done|].
      change (c :: w ++ " "%char :: reply_line ws trailing) with ((c :: w) ++ " "%char :: reply_line ws trailing).
      rewrite index_of_first by done. cbn [default from_option id map snd fst]. rewrite take_app_length. cbn [app]. f_equal.
      replace (drop (length (c :: w)) (w ++ " "%char :: reply_line ws trailing)) with (reply_line ws trailing) by (symmetry; apply (drop_past w)). apply IH. simpl in Hroom. lia.
Qed.

(** The words of a reply of at most eight words are read back exactly as
    they were put on the line, the trailing parameter with its spaces; and for
    every line whatever, each word found stands in the line at its offset, so
    the rest of the line shown from a word onwards is in bounds. *)
Theorem persistence_split_words ws trailing :
  Forall good_word ws -> (length ws + length (option_list trailing) <= PERSISTENCE_MAX_WORDS)%nat ->
  map snd (persistence_split PERSISTENCE_MAX_WORDS 0 (reply_line ws trailing)) = ws ++ option_list trailing /\
  forall s p w, (p, w) ∈ persistence_split PERSISTENCE_MAX_WORDS 0 s -> (p <= length s)%nat /\ w `prefix_of` drop p s.
Proof.
  intros Hws Hl. split; [by apply split_words|]. intros s p w (k & -> & ? & ?)%split_offsets. done.
Qed.

Lemma persistence_split_words_witness :
  map snd (persistence_split PERSISTENCE_MAX_WORDS 0 "PROFILE mobile channels :#a, #b") =
    [("PROFILE" : cstr); ("mobile" : cstr); ("channels" : cstr); ("#a, #b" : cstr)].
Proof.
  apply (persistence_split_words [("PROFILE" : cstr); ("mobile" : cstr); ("channels" : cstr)] (Some ("#a, #b" : cstr))).
  - repeat constructor; try done; by apply (bool_decide_unpack _); vm_compute.
  - simpl. unfold PERSISTENCE_MAX_WORDS. lia.
Defined.

Lemma strip_namespace_spec_witness :
  exists scopes, Forall scope scopes /\
    ("evilnet.github.io/Draft/persistence/hold" : cstr) = scoped scopes "persistence/hold".
Proof.
  destruct (strip_namespace_spec (H := glib_ref) "evilnet.github.io/Draft/persistence/hold") as (scopes & Hs & E & _).
  - by apply (bool_decide_unpack _); vm_compute.
  - exists scopes. split; [exact Hs|exact E].
Defined.

(** ** The gate before the catch-up *)

Section gate.
Context `{GLib, Sqlite}.

(** What happens to a connection. *)
Inductive persist_call :=
| PcCapability (enable : bool)
| PcCapValue (value : cstr)
| PcAttach (db : option scrollback_db)
| PcRegistered
| PcReply (args : cstr) (stamp : Z)
| PcFail (code context text : option cstr) (stamp : Z)
| PcMetadata (p_cmp : cstr -> cstr -> Z) (nick : cstr) (target : option cstr) (key : cstr) (value : option cstr) (stamp : Z)
| PcReplay
| PcReset.

Definition persist_exec (c : persist_call) (p : persist) : persist * list shown :=
  match c with
  | PcCapability enable => (persist_capability enable p, [])
  | PcCapValue value => (persistence_parse_cap_value value p, [])
  | PcAttach db => persistence_send_attach db p
  | PcRegistered => (persistence_registration_complete p, [])
  | PcReply args stamp => persistence_handle_reply args stamp p
  | PcFail code context text stamp => persistence_handle_fail code context text stamp p
  | PcMetadata p_cmp nick target key value stamp => (persistence_handle_metadata p_cmp nick target key value stamp p).1
  | PcReplay => (replay_began p, [])
  | PcReset => (persist_reset p, [])
  end.

Fixpoint persist_run (cs : list persist_call) (p : persist) : persist :=
  match cs with [] => p | c :: cs => persist_run cs (persist_exec c p).1 end.

(** The gate flags make sense together. *)
Definition gate_ok (p : persist) : Prop :=
  (cursor_sent p = true -> attached p = true) /\ (attach_pending p = true -> attached p = true).

Definition same_gate (p p' : persist) : Prop :=
  attached p' = attached p /\ cursor_sent p' = cursor_sent p /\ attach_pending p' = attach_pending p /\
  replay_seen p' = replay_seen p.

Lemma reply_gate args stamp p :
  let p' := (persistence_handle_reply args stamp p).1 in
  attached p' = attached p /\ cursor_sent p' = cursor_sent p /\ replay_seen p' = replay_seen p /\
  (attach_pending p' = true -> attach_pending p = true).
Proof.
  unfold persistence_handle_reply. cbn zeta. destruct (persistence_split _ _ _) as [|w0 ws]; [done|]. cbn [fst].
  destruct (_ && _); [done|]. by destruct (_ && _).
Qed.

Lemma metadata_gate p_cmp nick target key value stamp p :
  same_gate p (persistence_handle_metadata p_cmp nick target key value stamp p).1.1.
Proof.
  unfold persistence_handle_metadata. cbn zeta. destruct (_ && _); [|done]. by destruct (_ && _).
Qed.

Lemma exec_gate_ok c p : gate_ok p -> gate_ok (persist_exec c p).1.
Proof.
  intros [G1 G2]. destruct c; cbn [persist_exec fst]; try done.
  - unfold persistence_send_attach. destruct (_ || _); by split.
  - destruct (reply_gate args stamp p) as (E1 & E2 & E3 & E4). split; rewrite E1; [by rewrite E2|auto].
  - unfold persistence_handle_fail. cbn zeta. cbn [fst]. destruct (attach_pending p) eqn:Hp; [|by split; rewrite ?Hp].
    destruct (_ =? 0); [split; [by intros [=]|by intros [=]]|]. destruct (_ || _); by split.
  - destruct (metadata_gate p_cmp nick target key value stamp p) as (E1 & E2 & E3 & E4). split; rewrite E1; [by rewrite E2|by rewrite E3].
Qed.

(** Neither a new connection nor a new ATTACH. *)
Definition later_call (c : persist_call) : Prop := match c with PcAttach _ | PcReset => False | _ => True end.

Lemma exec_settled c p :
  later_call c -> attach_pending p = false ->
  attached (persist_exec c p).1 = attached p /\ cursor_sent (persist_exec c p).1 = cursor_sent p /\
  attach_pending (persist_exec c p).1 = false.
Proof.
  intros Hc Hp. destruct c; cbn [persist_exec fst]; try done.
  - destruct (reply_gate args stamp p) as (E1 & E2 & E3 & E4). split_and!; [done|done|].
    apply not_true_is_false. intros Ht. apply E4 in Ht. congruence.
  - unfold persistence_handle_fail. cbn zeta. cbn [fst]. by rewrite Hp.
  - destruct (metadata_gate p_cmp nick target key value stamp p) as (E1 & E2 & E3 & E4). by rewrite E1, E2, E3.
Qed.

(** Once our ATTACH is answered, or registration is over, no later failure,
    reply, capability change or metadata decides anything about the server's
    replay: until the next ATTACH or connection, whether the catch-up is held
    back depends only on whether the replay has begun. *)
Theorem settled_gate_stays cs p :
  attach_pending p = false -> Forall later_call cs ->
  let p' := persist_run cs p in
  attached p' = attached p /\ cursor_sent p' = cursor_sent p /\
  server_drives_replay p' = (attached p && cursor_sent p && negb (replay_seen p')).
Proof.
  intros Hp Hcs. cbn zeta. assert (Hrun : attached (persist_run cs p) = attached p /\ cursor_sent (persist_run cs p) = cursor_sent p).
  { revert p Hp. induction Hcs as [|c cs Hc _ IH]; intros p Hp; [done|]. cbn [persist_run].
    destruct (exec_settled c p Hc Hp) as (E1 & E2 & E3). destruct (IH _ E3) as [-> ->]. done. }
  destruct Hrun as [E1 E2]. unfold server_drives_replay. by rewrite E1, E2.
Qed.

(** The failures that open the gate while ATTACH is unanswered. *)
Definition opens_gate (code : option cstr) : bool :=
  let bare := match code with Some c => persistence_strip_namespace c | None => [] end in
  (g_ascii_strcasecmp bare "CURSOR_UNKNOWN" =? 0) || (g_ascii_strcasecmp bare "ACCOUNT_REQUIRED" =? 0) ||
  (g_ascii_strcasecmp bare "INVALID_PARAMETERS" =? 0).

Lemma persist_run_app cs cs' p : persist_run (cs ++ cs') p = persist_run cs' (persist_run cs p).
Proof. revert p; induction cs as [|c cs IH]; intros p; [done|]. apply IH. Qed.

(** The line an ATTACH is sent as. *)
Definition attach_line (profile cursor : cstr) : cstr :=
  fmt [("PERSISTENCE ATTACH " : cstr); profile; (" " : cstr); cursor; EOL].

(** Calls that neither end the connection nor begin the replay. *)
Definition no_reset (c : persist_call) : Prop := match c with PcReset => False | _ => True end.
Definition no_replay (c : persist_call) : Prop := match c with PcReplay => False | _ => True end.

(** The last thing that was said about the replay is our cursor. *)
Definition cursor_stands (p0 : persist) (cs : list persist_call) (seen : bool) : Prop :=
  exists before db cursor after, cs = before ++ PcAttach db :: after /\
    persist_exec (PcAttach db) (persist_run before p0) =
      (set_gate true true true (replay_seen (persist_run before p0)) (persist_run before p0),
       [Sent (attach_line (persist_profile (persist_run before p0)) cursor)]) /\
    Forall no_reset after /\ (seen = false -> Forall no_replay after) /\
    forall during code context text stamp rest, after = during ++ PcFail code context text stamp :: rest ->
      attach_pending (persist_run (before ++ PcAttach db :: during) p0) = true -> opens_gate code = false.

(** A call that leaves the cursor standing. *)
Definition keeps_cursor (c : persist_call) (p : persist) : Prop :=
  no_reset c /\ (replay_seen (persist_exec c p).1 = false -> no_replay c /\ replay_seen p = false) /\
  match c with PcFail code _ _ _ => attach_pending p = true -> opens_gate code = false | _ => True end.

Lemma fail_cursor code context text stamp p :
  let p' := (persistence_handle_fail code context text stamp p).1 in
  cursor_sent p' = true ->
  cursor_sent p = true /\ replay_seen p' = replay_seen p /\ (attach_pending p = true -> opens_gate code = false).
Proof.
  unfold persistence_handle_fail, opens_gate. cbn zeta. cbn [fst].
  set (bare := match code with Some c => _ | None => _ end). clearbody bare.
  destruct (attach_pending p); [|intros Hc; by split_and!].
  destruct (g_ascii_strcasecmp bare "CURSOR_UNKNOWN" =? 0); [done|]. cbn [orb].
  destruct (_ || _); [done|]. intros Hc. by split_and!.
Qed.

Lemma attach_cursor_sent db p :
  cursor_sent (persistence_send_attach db p).1 = true ->
  (exists cursor, persistence_send_attach db p =
     (set_gate true true true (replay_seen p) p, [Sent (attach_line (persist_profile p) cursor)])) \/
  cursor_sent p = true /\ replay_seen (persistence_send_attach db p).1 = replay_seen p.
Proof.
  unfold persistence_send_attach. destruct (_ || _); [intros Hc; right; by split|]. intros Hc. left. revert Hc.
  destruct (attach_cursor db p) as [c|]; [by exists c|done].
Qed.

Lemma exec_cursor c p :
  cursor_sent (persist_exec c p).1 = true ->
  (exists db cursor, c = PcAttach db /\ persist_exec c p =
     (set_gate true true true (replay_seen p) p, [Sent (attach_line (persist_profile p) cursor)])) \/
  cursor_sent p = true /\ keeps_cursor c p.
Proof.
  unfold keeps_cursor. destruct c; cbn [persist_exec fst no_reset no_replay].
  - intros Hc. right. by split_and!.
  - intros Hc. right. by split_and!.
  - intros [[cursor E]|[E1 E2]]%attach_cursor_sent; [left; by exists db, cursor|right]. rewrite E2. by split_and!.
  - intros Hc. right. by split_and!.
  - destruct (reply_gate args stamp p) as (E1 & E2 & E3 & E4). rewrite E2, E3. intros Hc. right. by split_and!.
  - intros (E1 & E2 & E3)%fail_cursor. right. rewrite E2. by split_and!.
  - destruct (metadata_gate p_cmp nick target key value stamp p) as (E1 & E2 & E3 & E4). rewrite E2, E4. intros Hc. right.
    by split_and!.
  - intros Hc. right. by split_and!.
  - done.
Qed.

Lemma cursor_history p0 cs :
  cursor_sent p0 = false -> cursor_sent (persist_run cs p0) = true ->
  cursor_stands p0 cs (replay_seen (persist_run cs p0)).
Proof.
  intros Hfresh. induction cs as [|c cs IH] using rev_ind; [cbn; congruence|]. rewrite persist_run_app. cbn [persist_run].
  intros Hcur. destruct (exec_cursor c _ Hcur) as [(db & cursor & -> & He)|[Hc (K1 & K2 & K3)]].
  - exists cs, db, cursor, []. split_and!; [done|done|done|done|]. intros [|]; by intros.
  - destruct (IH Hc) as (before & db & cursor & after & -> & He & Hr & Hs & Hf).
    exists before, db, cursor, (after ++ [c]). split_and!; [by rewrite <- app_assoc|done|apply Forall_app_2; [done|by constructor]| |].
    + intros Hseen. destruct (K2 Hseen) as [Hn Hseen']. apply Forall_app_2; [by apply Hs|by constructor].
    + intros during code context text stamp rest E. destruct rest as [|r rest _] using rev_ind.
      * apply app_inj_tail in E as [-> ->]. exact K3.
      * replace (during ++ PcFail code context text stamp :: rest ++ [r])
          with ((during ++ PcFail code context text stamp :: rest) ++ [r]) in E by by rewrite <- app_assoc.
        apply app_inj_tail in E as [E _]. by apply (Hf during code context text stamp rest).
Qed.

(** C23. The catch-up is held back only for a reason: on a connection that began
    with nothing sent, the gate is closed only if an ATTACH with a cursor went
    out on it, no replay has begun and no reset happened since, and no failure
    that arrived while the ATTACH was unanswered refused it or its cursor. *)
Theorem held_back_for_a_cursor p0 cs :
  cursor_sent p0 = false -> server_drives_replay (persist_run cs p0) = true -> cursor_stands p0 cs false.
Proof.
  intros Hfresh. unfold server_drives_replay. intros ([_ Hc]%andb_true_iff & Hs)%andb_true_iff.
  apply negb_true_iff in Hs. rewrite <- Hs. by apply cursor_history.
Qed.
End gate.

(** ** Concrete connections *)

Definition new_connection (profile : cstr) : persist :=
  Persist false profile no_verbs false false false false false false false false.

Definition db_with (id : cstr) : scrollback_db := (scrollback_db_save fresh_db "#a" 100 (Some id) "hi" true).1.

Definition flight (id : cstr) : list persist_call :=
  [PcCapability true; PcCapValue "draft/attach,evilnet.github.io/attach-cursor"; PcAttach (Some (db_with id))].

Lemma held_back_for_a_cursor_witness : cursor_stands (new_connection "phone") (flight "id1") false.
Proof. apply (held_back_for_a_cursor (new_connection "phone") (flight "id1")); by vm_compute. Defined.

(** A failure that comes after 001, whatever its code. *)
Lemma settled_gate_stays_witness :
  let p := persist_run (flight "id1" ++ [PcRegistered]) (new_connection "phone") in
  let p' := persist_run [PcFail (Some ("CURSOR_UNKNOWN" : cstr)) None None 0] p in
  attached p' = true /\ cursor_sent p' = true /\ server_drives_replay p' = true.
Proof.
  destruct (settled_gate_stays [PcFail (Some ("CURSOR_UNKNOWN" : cstr)) None None 0]
    (persist_run (flight "id1" ++ [PcRegistered]) (new_connection "phone"))) as (E1 & E2 & E3).
  - by vm_compute.
  - repeat constructor.
  - cbn zeta. rewrite E3. split; [exact E1|]. split; [exact E2|by vm_compute].
Defined.

(** The profile is checked for line breaks, the cursor is not: a message id with
    an escaped line break in its tag ends the ATTACH and begins a second command. *)
Theorem cursor_breaks_line :
  let id := "x" ++ [CR; LF] ++ ("QUIT :bye" : cstr) in
  (persist_exec (PcAttach (Some (db_with id))) (persist_run (take 2 (flight id)) (new_connection "phone"))).2 =
    [Sent (("PERSISTENCE ATTACH phone x" : cstr) ++ [CR; LF] ++ ("QUIT :bye" : cstr) ++ [CR; LF])].
Proof. by vm_compute. Qed.
