(* ===== verification/Batches.v ===== *)
(** * Batches on the wire (src/common/inbound.c, BATCH)

    BATCH opens and closes a batch, the lines tagged with its reference collect
    in it, and its end hands them on: history to the catch-up, a multiline
    message joined to one, the wrapper of a replay to the gate. *)
From S2P Require Import Prelude Glib Text Access Modes Tags Proto Scrollback GapLedger Chathistory Catchup Persistence.

(** ** State *)

Record batch_info := BatchInfo {
  bi_id : cstr; bi_type : cstr; bi_params : list cstr; outer_batch : option cstr; bi_label : option cstr;
  bi_msgid : option cstr; bi_end : bool; bi_messages : list batch_message; bi_started : Z; bi_server_time : Z }.

(** What is remembered of a labeled line: its session, the entry it shows and when it
    was sent. *)
Record pending_label_info := PendingLabel { pl_sess : option nat; entry_id : Z; sent_time : Z }.

(** The parts of a server the batches touch; [ignore_names] are the sessions whose
    next NAMES is silent. *)
Record hub := Hub {
  have_batch : bool; hub_nick : cstr; server_session : nat; active_batches : gmap cstr batch_info;
  pending_labels : gmap cstr pending_label_info; ignore_names : gset nat; hub_world : world }.

Definition set_batches (f : gmap cstr batch_info -> gmap cstr batch_info) (h : hub) : hub :=
  Hub (have_batch h) (hub_nick h) (server_session h) (f (active_batches h)) (pending_labels h) (ignore_names h) (hub_world h).
Definition set_labels (f : gmap cstr pending_label_info -> gmap cstr pending_label_info) (h : hub) : hub :=
  Hub (have_batch h) (hub_nick h) (server_session h) (active_batches h) (f (pending_labels h)) (ignore_names h) (hub_world h).
Definition set_world (w : world) (h : hub) : hub :=
  Hub (have_batch h) (hub_nick h) (server_session h) (active_batches h) (pending_labels h) (ignore_names h) w.
Definition silence_names (sid : nat) (h : hub) : hub :=
  Hub (have_batch h) (hub_nick h) (server_session h) (active_batches h) (pending_labels h) ({[sid]} ∪ ignore_names h) (hub_world h).

Definition add_messages (ms : list batch_message) (b : batch_info) : batch_info :=
  BatchInfo (bi_id b) (bi_type b) (bi_params b) (outer_batch b) (bi_label b) (bi_msgid b) (bi_end b)
    (bi_messages b ++ ms) (bi_started b) (bi_server_time b).

Section batches.
Context `{GLib, Dates, Sqlite, SqliteScan, Inbound}.

Definition is_type (b : batch_info) (name : string) : bool := g_ascii_strcasecmp (bi_type b) name =? 0.
Definition is_wrapper (b : batch_info) : bool :=
  g_ascii_strcasecmp (persistence_strip_namespace (bi_type b)) "bouncer-replay" =? 0.
Definition is_multiline (b : batch_info) : bool := is_type b "draft/multiline" || is_type b "multiline".

(** ** Opening *)

(** The words up to the first empty one. *)
Fixpoint nonempty_words (l : list cstr) : list cstr :=
  match l with (c :: w) :: l => (c :: w) :: nonempty_words l | _ => [] end.

Definition batch_info_new (now : Z) (id type : cstr) (ln : line) (t : message_tags_data) : batch_info :=
  BatchInfo id type
    (map (fun p => match p with c :: rest => if c =c ":" then rest else p | [] => p end) (nonempty_words (drop 5 (words ln))))
    (batch_id t) (tag_label t) (Tags.msgid t)
    (match all_tags t with Some m => bool_decide (is_Some (m !! ("draft/chathistory-end" : cstr))) | None => false end)
    [] now (timestamp t).

Definition inbound_batch_start (now : Z) (id type : cstr) (ln : line) (t : message_tags_data) (h : hub) : hub :=
  if negb (have_batch h) then h
  else
    match active_batches h !! id with
    | Some _ => h
    | None =>
        let b := batch_info_new now id type ln t in
        let h := set_batches <[id := b]> h in
        if is_wrapper b then set_world (chathistory_replay_wrapper_begin (hub_world h)) h else h
    end.

(** ** Collecting *)

(** The parameters of a line: words from 3, a colon starts the last one, which
    runs to the end of the line. *)
Fixpoint collect_params (ln : line) (room i : nat) : list cstr :=
  match room with
  | O => []
  | S room =>
      match word ln i with
      | [] => []
      | c :: w => if c =c ":" then [word_eol ln i] else (c :: w) :: collect_params ln room (S i)
      end
  end.

Definition batch_message_new (prefix command : cstr) (ln : line) (t : message_tags_data) : batch_message :=
  BatchMessage (Some command) (collect_params ln (PDIWORDS - 3) 3) (timestamp t) (Tags.msgid t) (Some prefix)
    (match all_tags t with Some m => bool_decide (is_Some (m !! ("draft/chathistory-context" : cstr))) | None => false end).

(** Our own JOIN in a restoration batch for a channel that is open. *)
Definition attach_echo (prefix command : cstr) (ln : line) (t : message_tags_data) (h : hub) : option hub :=
  if negb (g_ascii_strcasecmp command "JOIN" =? 0) then None
  else
    let chan := match word ln 3 with c :: rest => if c =c ":" then rest else word ln 3 | [] => [] end in
    let nicklen := default (length prefix) (index_of "!" prefix) in
    if Nat.eqb (length (hub_nick h)) nicklen && (g_ascii_strncasecmp prefix (hub_nick h) nicklen =? 0) then
      sid ← find_session SESS_CHANNEL chan (hub_world h);
      v ← look sid (hub_world h);
      match channel (sess v) with
      | [] => None
      | _ =>
          let v := match Tags.msgid t with
                   | Some id => set_sess (chathistory_track_msgid_ts id (timestamp t) false) v
                   | None => v
                   end in
          Some (silence_names sid (set_world (put v (hub_world h)) h))
      end
    else None.

(** The flag: the line was taken. *)
Definition inbound_batch_add_message (prefix command : cstr) (ln : line) (t : message_tags_data) (h : hub) : hub * bool :=
  if negb (have_batch h) then (h, false)
  else
    match batch_id t with
    | None => (h, false)
    | Some id =>
        match active_batches h !! id with
        | None => (h, false)
        | Some b =>
            if persistence_is_bare_name (bi_type b) then
              match attach_echo prefix command ln t h with Some h => (h, true) | None => (h, false) end
            else if is_type b "chathistory" || is_type b "draft/chathistory-targets" || is_multiline b then
              (set_batches <[id := add_messages [batch_message_new prefix command ln t] b]> h, true)
            else (h, false)
        end
    end.

Definition inbound_batch_is_active (t : message_tags_data) (h : hub) : bool :=
  have_batch h && match batch_id t with Some id => bool_decide (is_Some (active_batches h !! id)) | None => false end.

(** ** Multiline messages *)

Definition drop_colon (s : cstr) : cstr := match s with c :: rest => if c =c ":" then rest else s | [] => [] end.

Definition is_privmsg (m : batch_message) : bool :=
  match bm_command m with Some c => g_ascii_strcasecmp c "PRIVMSG" =? 0 | None => false end.

(** The second parameter of each message, lines joined by line feeds. *)
Definition combined_text (ms : list batch_message) : cstr :=
  let lines := omap (fun m => match bm_params m with _ :: text :: _ => Some (drop_colon text) | _ => None end) ms in
  match lines with [] => [] | l :: ls => l ++ concat (map (cons LF) ls) end.

(** [collapse_multiline_to_parent]: the message put in the outer batch. *)
Definition collapsed_message (b : batch_info) : option batch_message :=
  let ms := List.filter is_privmsg (bi_messages b) in
  match ms, combined_text ms with
  | first :: _, (_ :: _) as text =>
      Some (BatchMessage (Some ("PRIVMSG" : cstr)) [default [] (head (bi_params b)); ":"%char :: text]
        (if bi_server_time b =? 0 then bm_timestamp first else bi_server_time b)
        (match bi_msgid b with Some i => Some i | None => bm_msgid first end) (bm_prefix first) (bm_context first))
  | _, _ => None
  end.

Definition collapse_multiline_to_parent (b : batch_info) (outer : cstr) (h : hub) : hub :=
  match collapsed_message b with
  | Some m => set_batches (fun bs => match bs !! outer with Some p => <[outer := add_messages [m] p]> bs | None => bs end) h
  | None => h
  end.

(** The nick and host of a prefix. *)
Definition split_prefix (prefix : cstr) : cstr * cstr :=
  match index_of "!" prefix with
  | Some i => (take i prefix, drop (S i) prefix)
  | None => (prefix, [])
  end.

Definition new_dialog_for (prefs : preferences) (target : cstr) (h : hub) : option (hub * nat) :=
  match find_session SESS_DIALOG target (hub_world h) with
  | Some sid => Some (h, sid)
  | None => '(w, sid) ← new_dialog prefs target (hub_world h); Some (set_world w h, sid)
  end.

(** A multiline message of its own, shown as one. *)
Definition process_multiline_batch (prefs : preferences) (b : batch_info) (h : hub) : option hub :=
  let target := head (bi_params b) in
  let sid :=
    default (server_session h)
      (t ← target; match find_session SESS_CHANNEL t (hub_world h) with
                   | Some s => Some s
                   | None => find_session SESS_DIALOG t (hub_world h)
                   end) in
  let ms := List.filter is_privmsg (bi_messages b) in
  match ms with
  | [] => Some h
  | first :: _ =>
      match combined_text ms, split_prefix <$> bm_prefix first with
      | (_ :: _) as text, Some (nick, host) =>
          let serv := w_serv (hub_world h) in
          let self_pm := match target with
                         | Some t => negb (is_channel (isup serv) t) && (p_cmp serv nick (hub_nick h) =? 0)
                         | None => false
                         end in
          '(h, sid) ← if self_pm then new_dialog_for prefs (default [] target) h else Some (h, sid);
          v ← look sid (hub_world h);
          let mid := match bi_msgid b with Some i => Some i | None => bm_msgid first end in
          let show :=
            if bool_decide (s_type (sess v) = SESS_CHANNEL)
            then Chanmsg sid (channel (sess v)) nick text false (bm_timestamp first) mid
            else if self_pm then Chanmsg sid (default [] target) nick text true (bm_timestamp first) mid
            else Privmsg nick host text (bm_timestamp first) mid in
          Some (set_world (emit_w (MultilineGroup sid false)
                  (emit_w show (emit_w (MultilineGroup sid true) (hub_world h)))) h)
      | _, _ => Some h
      end
  end.

(** ** Closing *)

Definition batch_in_replay_wrapper (b : batch_info) (h : hub) : bool :=
  match outer_batch b with
  | Some o => match active_batches h !! o with Some p => is_wrapper p | None => false end
  | None => false
  end.

(** As the history sees it. *)
Definition history_batch (b : batch_info) (h : hub) : batch :=
  Batch (head (bi_params b)) (batch_in_replay_wrapper b h) (bi_messages b) (bi_end b).

(** [text.c]: the echo of a line of ours gives its stored row the real id. *)
Definition scrollback_confirm_pending (label real_msgid : cstr) (v : view) : view :=
  match label, real_msgid, scrollback v with
  | _ :: _, _ :: _, Some db =>
      let pending_key := fmt [("pending:" : cstr); label] in
      let '(db, updated) := scrollback_update_pending_msgid db (channel (sess v)) pending_key real_msgid in
      if updated then set_scrollback db v
      else
        let '(db, real_rowid) := scrollback_get_rowid_by_msgid db (channel (sess v)) real_msgid in
        let '(db, pending_rowid) := scrollback_get_rowid_by_msgid db (channel (sess v)) pending_key in
        if (0 <? real_rowid) && (0 <? pending_rowid) then
          let '(db, deleted) := scrollback_delete_by_rowid db pending_rowid in
          let v := set_scrollback db v in
          if (deleted : bool) then emit (ResolvePendingDup (self v) pending_rowid real_rowid) v else v
        else set_scrollback db v
  | _, _, _ => v
  end.

(** The messages the batch still holds once it is processed: a history batch was
    sorted, a large one given away. *)
Definition messages_left (b : batch_info) (h : hub) : list batch_message :=
  let reached :=
    match head (bi_params b) with
    | Some t => bool_decide (is_Some (find_session_for_target t (hub_world h))) ||
        (batch_in_replay_wrapper b h && negb (bool_decide (t = [])) && negb (is_channel (isup (w_serv (hub_world h))) t))
    | None => false
    end in
  if is_type b "chathistory" && reached then
    let ms := sort_by_time (bi_messages b) in
    if Z.of_nat (length (raw_messages ms)) <=? Z.of_nat CHATHISTORY_CHUNK_SIZE then ms else []
  else bi_messages b.

(** The label of the BATCH START is answered. *)
Definition answer_label (b : batch_info) (left : list batch_message) (h : hub) : hub :=
  match bi_label b with
  | None => h
  | Some label =>
      let confirmed :=
        match pending_labels h !! label with
        | Some info =>
            match pl_sess info with
            | Some sid =>
                if negb (entry_id info =? 0) && is_session sid (hub_world h) then
                  let mid := match bi_msgid b with Some i => Some i | None => head left ≫= bm_msgid end in
                  let w := emit_w (ConfirmEntry sid (entry_id info) mid) (hub_world h) in
                  match mid, look sid w with
                  | Some i, Some v => set_world (put (scrollback_confirm_pending label i v) w) h
                  | _, _ => set_world w h
                  end
                else h
            | None => h
            end
        | None => h
        end in
      set_labels (delete label) confirmed
  end.

Definition echo_suppressed (b : batch_info) (h : hub) : bool :=
  match bi_label b with
  | Some label => match pending_labels h !! label with Some info => negb (entry_id info =? 0) | None => false end
  | None => false
  end.

(** What the end of a batch does, by its type. *)
Definition process_batch_by_type (prefs : preferences) (now : Z) (b : batch_info) (h : hub) : option hub :=
  if is_type b "chathistory" then
    w ← chathistory_process_batch prefs now (history_batch b h) (hub_world h); Some (set_world w h)
  else if is_type b "draft/chathistory-targets" then
    w ← chathistory_process_targets_batch prefs (history_batch b h) (hub_world h); Some (set_world w h)
  else if is_multiline b then
    match outer_batch b ≫= fun o => (fun _ => o) <$> active_batches h !! o with
    | Some outer => Some (match bi_messages b with [] => h | _ => collapse_multiline_to_parent b outer h end)
    | None => if echo_suppressed b h then Some h else process_multiline_batch prefs b h
    end
  else if persistence_is_bare_name (bi_type b) then Some h
  else if is_wrapper b then w ← chathistory_replay_wrapper_end prefs (hub_world h); Some (set_world w h)
  else Some h.

Definition inbound_batch_end (prefs : preferences) (now : Z) (id : cstr) (h : hub) : option hub :=
  if negb (have_batch h) then Some h
  else
    match active_batches h !! id with
    | None => Some h
    | Some b =>
        let left := messages_left b h in
        h ← process_batch_by_type prefs now b h;
        Some (set_batches (delete id) (answer_label b left h))
    end.

(** The BATCH command: "+ref type params" or "-ref". *)
Definition handle_batch (prefs : preferences) (now : Z) (ln : line) (t : message_tags_data) (h : hub) : option hub :=
  if negb (have_batch h) then Some h
  else
    match word ln 3 with
    | c :: ref =>
        if c =c "+" then Some (inbound_batch_start now ref (word ln 4) ln t h)
        else if c =c "-" then inbound_batch_end prefs now ref h
        else Some h
    | [] => Some h
    end.

(** ** Labels and what is never answered *)

(** [tcp_sendf_labeled_tracked] remembers the label it sent. *)
Definition track_label (now : Z) (label : cstr) (h : hub) : hub := set_labels <[label := PendingLabel None 0 now]> h.

(** The entry of the line that went out under the label sent last. *)
Definition mark_pending_echo (last_sent_label : option cstr) (sid : nat) (last_entry_id : Z) (h : hub) : hub :=
  match last_sent_label with
  | None => h
  | Some label =>
      match pending_labels h !! label with
      | None => h
      | Some info =>
          if last_entry_id =? 0 then h
          else set_world (emit_w (FeEntryPending sid last_entry_id) (hub_world h))
                 (set_labels <[label := PendingLabel (Some sid) last_entry_id (sent_time info)]> h)
      end
  end.

Definition STALE_LABEL_TIMEOUT : Z := 60.
Definition STALE_BATCH_TIMEOUT : Z := 120.

(** The keys [check_stale_label] and [check_stale_batch] put in front of each other. *)
Definition stale_labels (now : Z) (h : hub) : list cstr :=
  rev (map fst (List.filter (fun kv => STALE_LABEL_TIMEOUT <? now - sent_time kv.2) (map_to_list (pending_labels h)))).
Definition stale_batches (now : Z) (h : hub) : list cstr :=
  rev (map fst (List.filter (fun kv => STALE_BATCH_TIMEOUT <? now - bi_started kv.2) (map_to_list (active_batches h)))).

Definition drop_stale_batch (h : hub) (id : cstr) : hub :=
  let h := match active_batches h !! id with
           | Some b => match bi_label b with Some label => set_labels (delete label) h | None => h end
           | None => h
           end in
  set_batches (delete id) h.

Definition stale_sweep_cb (now : Z) (h : hub) : hub :=
  let h := set_labels (fun m => foldl (fun m k => delete k m) m (stale_labels now h)) h in
  foldl drop_stale_batch h (stale_batches now h).

(** [server_disconnect] with [server_cleanup]: a lost connection answers nothing any more. *)
Definition hub_disconnect (now : Z) (delayed : bool) (h : hub) : hub :=
  let w := server_disconnect now delayed (hub_world h) in
  if connected (w_serv (hub_world h)) then
    Hub (have_batch h) (hub_nick h) (server_session h) ∅ ∅ (ignore_names h)
      (foldl (fun w sid => emit_w (FeClearPending sid) w) w (sess_list w))
  else set_world w h.
End batches.
