(* ===== verification/BatchesSpec.v ===== *)
(** * Correctness of the batches

    What collects in a batch depends on its own lines only, however the batches
    are interleaved; no sequence of lines makes a handler follow a dangling
    session; the echo of a line leaves one copy of it. *)
From S2P Require Import Prelude Glib Text Access Modes Tags Proto Scrollback ScrollbackSpec GapLedger GapLedgerSpec.
From S2P Require Import Chathistory ChathistorySpec Catchup CatchupSpec Persistence Batches.

Section wire.
Context `{GLib, Dates, Sqlite, SqliteScan, Inbound}.
Context (prefs : preferences).

(** ** What arrives *)

Inductive wire_op :=
| WBatch (now : Z) (ln : line) (t : message_tags_data)
| WLine (prefix command : cstr) (ln : line) (t : message_tags_data)
| WSent (now : Z) (label : cstr)
| WEcho (last_sent_label : option cstr) (sid : nat) (last_entry_id : Z)
| WSweep (now : Z)
| WHistory (c : history_call).

Definition wire_exec (op : wire_op) (h : hub) : option hub :=
  match op with
  | WBatch now ln t => handle_batch prefs now ln t h
  | WLine prefix command ln t => Some (inbound_batch_add_message prefix command ln t h).1
  | WSent now label => Some (track_label now label h)
  | WEcho label sid eid => Some (mark_pending_echo label sid eid h)
  | WSweep now => Some (stale_sweep_cb now h)
  | WHistory (HDisconnect now delayed) => Some (hub_disconnect now delayed h)
  | WHistory c => w ← history_exec prefs (hub_world h) c; Some (set_world w h)
  end.

Fixpoint wire_run (ops : list wire_op) (h : hub) : option hub :=
  match ops with [] => Some h | op :: ops => h ← wire_exec op h; wire_run ops h end.

Lemma wire_run_app ops ops' h : wire_run (ops ++ ops') h = h' ← wire_run ops h; wire_run ops' h'.
Proof. revert h; induction ops as [|op ops IH]; intros h; [done|]. cbn [wire_run app]. destruct (wire_exec op h); [apply IH|done]. Qed.

(** ** Lines of a batch *)

Definition collects (b : batch_info) : bool :=
  negb (persistence_is_bare_name (bi_type b)) &&
  (is_type b "chathistory" || is_type b "draft/chathistory-targets" || is_multiline b).

(** What a batch [c] that ends puts in the batch [id] around it: the lines of a multiline
    message, joined. *)
Definition joined_message (id : cstr) (b : batch_info) : list batch_message :=
  if negb (is_type b "chathistory") && negb (is_type b "draft/chathistory-targets") && is_multiline b && bool_decide (outer_batch b = Some id)
  then option_list (collapsed_message b) else [].

(** The batch an operation ends. *)
Definition ends (op : wire_op) : option cstr :=
  match op with
  | WBatch _ ln _ => match word ln 3 with c :: ref => if c =c "-" then Some ref else None | [] => None end
  | _ => None
  end.

(** What an operation brings to the open batch [id]: a line tagged with it, or the
    message of a batch inside it. *)
Definition brings (id : cstr) (op : wire_op) (h : hub) : list batch_message :=
  match op with
  | WLine prefix command ln t =>
      if bool_decide (batch_id t = Some id) then [batch_message_new prefix command ln t] else []
  | WBatch _ _ _ =>
      match (c ← ends op; active_batches h !! c) with Some b => joined_message id b | None => [] end
  | _ => []
  end.

(** And what a run brings, in the order of arrival. *)
Fixpoint brought (id : cstr) (ops : list wire_op) (h : hub) : list batch_message :=
  match ops with
  | [] => []
  | op :: ops => brings id op h ++ match wire_exec op h with Some h' => brought id ops h' | None => [] end
  end.

(** An operation that does not end [id], open since [since]: neither its own end, nor
    a lost connection, nor a sweep more than two minutes later. *)
Definition aside (id : cstr) (since : Z) (op : wire_op) : Prop :=
  ends op <> Some id /\
  match op with
  | WHistory (HDisconnect _ _) => False
  | WSweep now => now - since <= STALE_BATCH_TIMEOUT
  | _ => True
  end.

Lemma add_nil b : add_messages [] b = b.
Proof. destruct b. unfold add_messages. cbn. by rewrite app_nil_r. Qed.

Lemma add_app ms ms' b : add_messages ms' (add_messages ms b) = add_messages (ms ++ ms') b.
Proof. destruct b. unfold add_messages. cbn. by rewrite app_assoc. Qed.

Lemma is_type_add ms b name : is_type (add_messages ms b) name = is_type b name.
Proof. done. Qed.

Lemma collapse_brings id o b p h :
  active_batches h !! id = Some p ->
  active_batches (collapse_multiline_to_parent b o h) !! id =
    Some (add_messages (if bool_decide (o = id) then option_list (collapsed_message b) else []) p).
Proof.
  intros Hid. unfold collapse_multiline_to_parent. destruct (collapsed_message b) as [m|].
  - cbn [set_batches active_batches option_list]. case_bool_decide as Ho; [subst o; rewrite Hid; by rewrite lookup_insert_eq|].
    rewrite add_nil. destruct (active_batches h !! o); [by rewrite lookup_insert_ne|done].
  - cbn [option_list]. by case_match; rewrite add_nil.
Qed.

Lemma multiline_batches b h h' :
  process_multiline_batch prefs b h = Some h' ->
  have_batch h' = have_batch h /\ server_session h' = server_session h /\ active_batches h' = active_batches h.
Proof.
  unfold process_multiline_batch. destruct (List.filter _ _) as [|first ms]; [by intros [= <-]|].
  destruct (combined_text _) as [|c text]; [by intros [= <-]|].
  destruct (split_prefix <$> _) as [[nick host]|]; [|by intros [= <-]].
  cbn zeta. destruct (match head (bi_params b) with Some _ => _ | None => false end).
  - unfold new_dialog_for. destruct (find_session _ _ _).
    + cbn [mbind option_bind]. by destruct (look _ _); intros [= <-].
    + destruct (new_dialog _ _ _) as [[w sid]|]; [|done]. cbn [mbind option_bind]. by destruct (look _ _); intros [= <-].
  - cbn [mbind option_bind]. by destruct (look _ _); intros [= <-].
Qed.

Lemma by_type_brings now b h h' id p :
  process_batch_by_type prefs now b h = Some h' -> active_batches h !! id = Some p ->
  have_batch h' = have_batch h /\ active_batches h' !! id = Some (add_messages (joined_message id b) p).
Proof.
  intros He Hid. unfold process_batch_by_type in He. unfold joined_message. destruct (is_type b "chathistory").
  { destruct (chathistory_process_batch _ _ _ _); [|done]. injection He as <-. cbn [andb negb]. by rewrite add_nil. }
  destruct (is_type b "draft/chathistory-targets").
  { destruct (chathistory_process_targets_batch _ _ _); [|done]. injection He as <-. cbn [andb negb]. by rewrite add_nil. }
  cbn [andb negb]. destruct (is_multiline b); cbn [andb].
  - destruct (_ ≫= _) as [o|] eqn:Ho.
    + apply bind_Some in Ho as (o' & Ho & Hp). apply fmap_Some in Hp as (q & Hq & ->). injection He as <-. rewrite Ho.
      rewrite (bool_decide_ext (Some o' = Some id) (o' = id)) by (split; congruence).
      destruct (bi_messages b) eqn:Em; [|split; [by unfold collapse_multiline_to_parent; case_match|by apply collapse_brings]].
      assert (En : collapsed_message b = None) by (unfold collapsed_message; by rewrite Em). rewrite En. cbn [option_list].
      by case_match; rewrite add_nil.
    + rewrite bool_decide_eq_false_2, add_nil.
      2: { intros E. rewrite E in Ho. cbn in Ho. by rewrite Hid in Ho. }
      destruct (echo_suppressed b h); [by injection He as <-|].
      apply multiline_batches in He as (E1 & _ & E3). by rewrite E3.
  - rewrite add_nil. destruct (persistence_is_bare_name _); [by injection He as <-|].
    destruct (is_wrapper b); [|by injection He as <-].
    destruct (chathistory_replay_wrapper_end _ _); [|done]. by injection He as <-.
Qed.

Lemma answer_batches b left h :
  have_batch (answer_label b left h) = have_batch h /\ server_session (answer_label b left h) = server_session h /\
  active_batches (answer_label b left h) = active_batches h.
Proof.
  unfold answer_label. destruct (bi_label b); [|done]. cbn [set_labels have_batch server_session active_batches].
  repeat case_match; done.
Qed.

(** The end of [ref], seen from another batch. *)
Lemma end_brings now ref h h' id p :
  have_batch h = true -> ref <> id -> active_batches h !! id = Some p -> inbound_batch_end prefs now ref h = Some h' ->
  have_batch h' = true /\
  active_batches h' !! id = Some (add_messages (match active_batches h !! ref with Some b => joined_message id b | None => [] end) p).
Proof.
  intros Hb Hne Hid. unfold inbound_batch_end. rewrite Hb. cbn [negb].
  destruct (active_batches h !! ref) as [b|] eqn:Hr; [|intros [= <-]; by rewrite add_nil].
  destruct (process_batch_by_type _ _ _ _) as [h1|] eqn:He; [|done]. intros [= <-].
  destruct (by_type_brings _ _ _ _ _ _ He Hid) as [E1 E2]. cbn [set_batches have_batch active_batches].
  destruct (answer_batches b (messages_left b h) h1) as (-> & _ & ->). rewrite lookup_delete_ne by done. split; [congruence|done].
Qed.

Lemma start_keeps id now ref type ln t h p :
  have_batch h = true -> active_batches h !! id = Some p ->
  have_batch (inbound_batch_start now ref type ln t h) = true /\ active_batches (inbound_batch_start now ref type ln t h) !! id = Some p.
Proof.
  intros Hb Hid. unfold inbound_batch_start. rewrite Hb. cbn [negb].
  destruct (active_batches h !! ref) as [b|] eqn:Hr; [done|]. assert (ref <> id) by congruence.
  destruct (is_wrapper _); cbn [set_world set_batches have_batch active_batches]; by rewrite lookup_insert_ne.
Qed.

Lemma echo_keeps prefix command ln t h h' :
  attach_echo prefix command ln t h = Some h' -> have_batch h' = have_batch h /\ active_batches h' = active_batches h.
Proof.
  unfold attach_echo. repeat (case_match; try done); intros He.
  all: apply bind_Some in He as (sid & _ & He); apply bind_Some in He as (v & _ & He).
  all: destruct (channel (sess v)); [done|]; by injection He as <-.
Qed.

(** A batch that is not stale outlives the sweep. *)
Lemma drop_stale_lookup id ids h :
  id ∉ ids -> have_batch (foldl drop_stale_batch h ids) = have_batch h /\
  active_batches (foldl drop_stale_batch h ids) !! id = active_batches h !! id.
Proof.
  revert h. induction ids as [|x ids IH]; intros h Hid; [done|]. apply not_elem_of_cons in Hid as [Hx Hid]. cbn [foldl].
  destruct (IH (drop_stale_batch h x) Hid) as [-> ->]. unfold drop_stale_batch.
  cbn [set_batches have_batch active_batches]. rewrite lookup_delete_ne by done. by repeat case_match.
Qed.

Lemma stale_batches_elem now h id :
  id ∈ stale_batches now h <-> exists b, active_batches h !! id = Some b /\ STALE_BATCH_TIMEOUT < now - bi_started b.
Proof.
  unfold stale_batches. rewrite list_elem_of_In, <- in_rev, in_map_iff. split.
  - intros ([k b] & <- & [Hk Hs%Z.ltb_lt]%filter_In). apply list_elem_of_In, elem_of_map_to_list in Hk. by exists b.
  - intros (b & Hb & Hs). exists (id, b). split; [done|]. apply filter_In. split; [|by apply Z.ltb_lt].
    by apply list_elem_of_In, elem_of_map_to_list.
Qed.

Lemma sweep_keeps now id b h :
  active_batches h !! id = Some b -> now - bi_started b <= STALE_BATCH_TIMEOUT ->
  have_batch (stale_sweep_cb now h) = have_batch h /\ active_batches (stale_sweep_cb now h) !! id = Some b.
Proof.
  intros Hid Hs. unfold stale_sweep_cb. set (h1 := set_labels _ h).
  destruct (drop_stale_lookup id (stale_batches now h1) h1) as [-> ->]; [|done].
  intros (b' & Hb' & Hlt)%stale_batches_elem. change (active_batches h1) with (active_batches h) in Hb'.
  assert (b' = b) as -> by congruence. lia.
Qed.

(** A line tagged with the reference of a batch that collects. *)
Lemma line_collected id b prefix command ln t h :
  have_batch h = true -> active_batches h !! id = Some b -> collects b = true -> batch_id t = Some id ->
  inbound_batch_add_message prefix command ln t h =
    (set_batches <[id := add_messages [batch_message_new prefix command ln t] b]> h, true).
Proof.
  intros Hb Hid [Hc1 Hc2]%andb_true_iff Ht. unfold inbound_batch_add_message. rewrite Hb, Ht, Hid. cbn [negb].
  apply negb_true_iff in Hc1. by rewrite Hc1, Hc2.
Qed.

Lemma line_keeps id prefix command ln t h p :
  have_batch h = true -> batch_id t <> Some id -> active_batches h !! id = Some p ->
  have_batch (inbound_batch_add_message prefix command ln t h).1 = true /\
  active_batches (inbound_batch_add_message prefix command ln t h).1 !! id = Some p.
Proof.
  intros Hb Ht Hid. unfold inbound_batch_add_message. rewrite Hb. cbn [negb].
  destruct (batch_id t) as [ref|]; [|done]. destruct (active_batches h !! ref) as [b|] eqn:Hr; [|done].
  destruct (persistence_is_bare_name _).
  - destruct (attach_echo _ _ _ _ _) as [h1|] eqn:He; [|done]. apply echo_keeps in He as [E1 E2]. cbn [fst]. by rewrite E1, E2.
  - destruct (_ || _); [|done]. cbn [fst set_batches have_batch active_batches]. rewrite lookup_insert_ne; [done|congruence].
Qed.

(** What an operation adds to a batch that stays open. *)
Lemma exec_brings op id h h' b :
  wire_exec op h = Some h' -> have_batch h = true -> active_batches h !! id = Some b -> collects b = true ->
  aside id (bi_started b) op ->
  have_batch h' = true /\ active_batches h' !! id = Some (add_messages (brings id op h) b).
Proof.
  intros He Hb Hid Hc [Hend Hop].
  assert (Hrest : have_batch h' = true /\ active_batches h' !! id = Some b -> brings id op h = [] ->
    have_batch h' = true /\ active_batches h' !! id = Some (add_messages (brings id op h) b)) by (intros ? ->; by rewrite add_nil).
  destruct op as [now ln t|prefix command ln t|now label|label sid eid|now|c]; cbn [wire_exec] in He.
  - unfold handle_batch in He. rewrite Hb in He. cbn [negb] in He. cbn [brings ends] in *.
    destruct (word ln 3) as [|c ref]; [injection He as <-; by apply Hrest|].
    destruct (Ascii.eqb_spec c "+") as [->|Hc1].
    { change ("+" =c "-") with false. injection He as <-. rewrite add_nil. by apply start_keeps. }
    destruct (c =c "-"); [|injection He as <-; by apply Hrest].
    cbn [mbind option_bind]. eapply end_brings; [done| |done|exact He]. congruence.
  - injection He as <-. cbn [brings]. case_bool_decide as Ht.
    + rewrite (line_collected id b) by done. cbn [fst set_batches have_batch active_batches]. by rewrite lookup_insert_eq.
    + rewrite add_nil. by apply line_keeps.
  - injection He as <-. by apply Hrest.
  - injection He as <-. apply Hrest; [|done]. unfold mark_pending_echo. by repeat case_match.
  - injection He as <-. apply Hrest; [|done]. destruct (sweep_keeps now id b h Hid Hop) as [-> ->]. done.
  - apply Hrest; [|done]. destruct c; try done; apply bind_Some in He as (w & _ & He); by injection He as <-.
Qed.

Lemma run_brings ops id h h' b :
  wire_run ops h = Some h' -> have_batch h = true -> active_batches h !! id = Some b -> collects b = true ->
  Forall (aside id (bi_started b)) ops ->
  have_batch h' = true /\ active_batches h' !! id = Some (add_messages (brought id ops h) b).
Proof.
  revert h b.
  induction ops as [|op ops IH]; intros h b Hr Hb Hid Hc Hops.
  - injection Hr as <-. cbn [brought]. by rewrite add_nil.
  - apply Forall_cons in Hops as [Ho Hops]. cbn [wire_run] in Hr. apply bind_Some in Hr as (h1 & He & Hr).
    destruct (exec_brings op id h h1 b He Hb Hid Hc Ho) as [Hb1 Hid1].
    destruct (IH h1 _ Hr Hb1 Hid1 Hc Hops) as [Hb2 Hid2]. split; [done|].
    cbn [brought]. by rewrite He, Hid2, add_app.
Qed.

(** *** From the first line to the last *)

Lemma open_step now ln t id h :
  have_batch h = true -> word ln 3 = "+"%char :: id -> active_batches h !! id = None ->
  exists h1, wire_exec (WBatch now ln t) h = Some h1 /\ have_batch h1 = true /\
    active_batches h1 = <[id := batch_info_new now id (word ln 4) ln t]> (active_batches h).
Proof.
  intros Hb Hw Hid. eexists. split; [cbn [wire_exec]; unfold handle_batch; rewrite Hb, Hw; cbn [negb]; done|].
  unfold inbound_batch_start. rewrite Hb, Hid. cbn [negb]. by destruct (is_wrapper _).
Qed.

Lemma close_step now ln t id h h' :
  have_batch h = true -> word ln 3 = "-"%char :: id -> wire_exec (WBatch now ln t) h = Some h' ->
  inbound_batch_end prefs now id h = Some h'.
Proof. intros Hb Hw. cbn [wire_exec]. unfold handle_batch. by rewrite Hb, Hw. Qed.

(** C7. History reaches the catch-up whole: from a "+id chathistory" line to its "-id",
    whatever lines, batches, labels, sweeps and history calls come between them,
    the history is handed exactly the lines tagged with [id] and the joined messages
    of the multiline batches inside it, once each and in the order of arrival,
    with the target, the nesting and the end marker of the opening line; the
    batch is gone afterwards and its label is answered.  The server has the batch
    open until then: the connection is not lost, and no sweep comes more than
    two minutes after it was opened. *)
Theorem history_batch_delivered now ln t ops now' ln' t' id h h' :
  let b := batch_info_new now id (word ln 4) ln t in
  have_batch h = true -> active_batches h !! id = None ->
  word ln 3 = "+"%char :: id -> word ln' 3 = "-"%char :: id ->
  collects b = true -> is_type b "chathistory" = true ->
  Forall (aside id now) ops ->
  wire_run (WBatch now ln t :: ops ++ [WBatch now' ln' t']) h = Some h' ->
  exists h1 w, wire_run (WBatch now ln t :: ops) h = Some h1 /\
    let full := add_messages (brought id (WBatch now ln t :: ops) h) b in
    chathistory_process_batch prefs now'
      (Batch (head (bi_params b)) (batch_in_replay_wrapper b h1) (bi_messages full) (bi_end b)) (hub_world h1) = Some w /\
    h' = set_batches (delete id) (answer_label full (messages_left full h1) (set_world w h1)) /\
    active_batches h' = delete id (active_batches h1).
Proof.
  cbn zeta. set (b := batch_info_new _ _ _ _ _). intros Hb Hid Hw Hw' Hc Ht Hops Hr.
  destruct (open_step now ln t id h Hb Hw Hid) as (h0 & He & Hb0 & Hact). fold b in Hact.
  assert (Hop : brought id (WBatch now ln t :: ops) h = brought id ops h0).
  { cbn [brought]. rewrite He. unfold brings, ends. by rewrite Hw. }
  rewrite Hop. cbn [wire_run] in Hr |- *. rewrite He in Hr |- *. cbn [mbind option_bind] in Hr |- *.
  rewrite wire_run_app in Hr. apply bind_Some in Hr as (h1 & Hr & Hend). exists h1.
  cbn [wire_run] in Hend. apply bind_Some in Hend as (h2 & Hend & [= <-]).
  destruct (run_brings ops id h0 h1 b Hr Hb0) as [Hb1 Hid1]; [by rewrite Hact, lookup_insert_eq|done|done|].
  apply (close_step now' ln' t' id h1 h2 Hb1 Hw') in Hend. unfold inbound_batch_end in Hend.
  rewrite Hb1, Hid1 in Hend. cbn [negb] in Hend. unfold process_batch_by_type in Hend. rewrite is_type_add, Ht in Hend.
  unfold history_batch in Hend. set (full := add_messages _ b) in *.
  change (batch_in_replay_wrapper full h1) with (batch_in_replay_wrapper b h1) in Hend.
  change (head (bi_params full)) with (head (bi_params b)) in Hend. change (bi_end full) with (bi_end b) in Hend.
  destruct (chathistory_process_batch _ _ _ _) as [w|] eqn:Ew; [|done]. exists w. cbn [mbind option_bind] in Hend. injection Hend as <-.
  split_and!; [done|done|done|]. cbn [set_batches active_batches]. by rewrite (proj2 (proj2 (answer_batches _ _ _))).
Qed.

(** A multiline message inside another batch becomes one message of it: from
    its "+c" to its "-c" the batch around it gains what it is brought and
    then, after it, the joined message of the lines tagged with [c], whatever
    else is interleaved; nothing is shown twice and [c] is gone. *)
Theorem multiline_in_history now ln t ops now' ln' t' id c b h h' :
  let child := batch_info_new now c (word ln 4) ln t in
  let open_c := WBatch now ln t in
  have_batch h = true -> active_batches h !! id = Some b -> collects b = true -> active_batches h !! c = None ->
  word ln 3 = "+"%char :: c -> word ln' 3 = "-"%char :: c -> batch_id t = Some id ->
  collects child = true -> is_type child "chathistory" = false -> is_type child "draft/chathistory-targets" = false ->
  is_multiline child = true -> Forall (aside id (bi_started b)) ops -> Forall (aside c now) ops ->
  wire_run (open_c :: ops ++ [WBatch now' ln' t']) h = Some h' ->
  active_batches h' !! id = Some (add_messages (brought id (open_c :: ops) h ++
    option_list (collapsed_message (add_messages (brought c (open_c :: ops) h) child))) b) /\
  active_batches h' !! c = None.
Proof.
  cbn zeta. set (child := batch_info_new _ _ _ _ _). intros Hb Hid Hcol Hc Hw Hw' Ht Hcc Ht1 Ht2 Hm Hops Hopsc Hr.
  assert (Hne : id <> c) by congruence.
  destruct (open_step now ln t c h Hb Hw Hc) as (h0 & He & Hb0 & Hact). fold child in Hact.
  assert (Hop : forall x, brought x (WBatch now ln t :: ops) h = brought x ops h0).
  { intros x. cbn [brought]. rewrite He. unfold brings, ends. by rewrite Hw. }
  rewrite !Hop. cbn [wire_run] in Hr. rewrite He in Hr. cbn [mbind option_bind] in Hr.
  rewrite wire_run_app in Hr. apply bind_Some in Hr as (h1 & Hr & Hend).
  cbn [wire_run] in Hend. apply bind_Some in Hend as (h2 & Hend & [= <-]).
  destruct (run_brings ops id h0 h1 b Hr Hb0) as [Hb1 Hid1]; [by rewrite Hact, lookup_insert_ne|done|done|].
  destruct (run_brings ops c h0 h1 child Hr Hb0) as [_ Hc1]; [by rewrite Hact, lookup_insert_eq|done|done|].
  apply (close_step now' ln' t' c h1 h2 Hb1 Hw') in Hend.
  destruct (end_brings now' c h1 h2 id _ Hb1 (not_eq_sym Hne) Hid1 Hend) as [_ ->]. rewrite Hc1, add_app. split.
  - unfold joined_message. set (full := add_messages _ child). change (is_type full) with (is_type child).
    change (is_multiline full) with (is_multiline child). change (outer_batch full) with (batch_id t).
    by rewrite Ht1, Ht2, Hm, Ht, bool_decide_eq_true_2.
  - unfold inbound_batch_end in Hend. rewrite Hb1, Hc1 in Hend. cbn [negb] in Hend. apply bind_Some in Hend as (h3 & _ & Hend).
    injection Hend as <-. cbn [set_batches active_batches]. by rewrite lookup_delete_eq.
Qed.
End wire.

(** ** A message of several lines *)

(** The pieces between line feeds. *)
Fixpoint split_lines (s : cstr) : list cstr :=
  match s with
  | [] => [[]]
  | c :: s => if c =c LF then [] :: split_lines s
              else match split_lines s with l :: ls => (c :: l) :: ls | [] => [[c]] end
  end.

Lemma split_lines_app l ls :
  (LF ∉ l) -> Forall (fun l => LF ∉ l) ls -> split_lines (l ++ concat (map (cons LF) ls)) = l :: ls.
Proof.
  intros Hl Hls. revert l Hl. induction Hls as [|l' ls Hl' _ IH]; intros l Hl.
  - rewrite app_nil_r. induction l as [|c l IHl]; [done|]. cbn [split_lines].
    destruct (Ascii.eqb_spec c LF) as [->|]; [set_solver|]. rewrite IHl; set_solver.
  - cbn [map concat app]. induction l as [|c l IHl]; cbn [app split_lines].
    + rewrite Ascii.eqb_refl. f_equal. by apply IH.
    + destruct (Ascii.eqb_spec c LF) as [->|]; [set_solver|]. rewrite IHl; set_solver.
Qed.

Section multiline.
Context `{GLib}.

(** The line of a message: a PRIVMSG with its text. *)
Definition line_of (m : batch_message) : option cstr :=
  match bm_params m with _ :: text :: _ => if is_privmsg m then Some (drop_colon text) else None | _ => None end.

Lemma combined_lines ms :
  combined_text (List.filter is_privmsg ms) =
    match omap line_of ms with [] => [] | l :: ls => l ++ concat (map (cons LF) ls) end.
Proof.
  unfold combined_text. set (f := fun m => match bm_params m with _ :: text :: _ => Some (drop_colon text) | _ => None end).
  replace (omap f (List.filter is_privmsg ms)) with (omap line_of ms); [done|].
  induction ms as [|m ms IH]; [done|]. cbn [omap list_omap List.filter].
  assert (Hm : line_of m = if is_privmsg m then f m else None).
  { unfold line_of, f. by repeat case_match. }
  rewrite Hm. clearbody f. destruct (is_privmsg m); cbn [omap list_omap]; [|done]. by rewrite <- IH.
Qed.

(** Joining loses nothing: when a multiline batch is made one message, the
    text of that message, cut at its line feeds, is exactly the texts of the
    PRIVMSG lines of the batch in their order, empty ones included; it has the
    target of the opening line, the sender of the first PRIVMSG line, and the
    id and time of the opening line where that gives them. *)
Theorem multiline_roundtrip b m :
  Forall (fun x => forall l, line_of x = Some l -> LF ∉ l) (bi_messages b) ->
  collapsed_message b = Some m ->
  exists text first, bm_params m = [default [] (head (bi_params b)); ":"%char :: text] /\
    split_lines text = omap line_of (bi_messages b) /\
    head (List.filter is_privmsg (bi_messages b)) = Some first /\ bm_prefix m = bm_prefix first /\
    (forall i, bi_msgid b = Some i -> bm_msgid m = Some i) /\ (bi_msgid b = None -> bm_msgid m = bm_msgid first) /\
    bm_timestamp m = (if bi_server_time b =? 0 then bm_timestamp first else bi_server_time b).
Proof.
  intros Hf. unfold collapsed_message. cbn zeta. pose proof (combined_lines (bi_messages b)) as Hcl.
  destruct (List.filter is_privmsg (bi_messages b)) as [|first ms]; [done|]. rewrite Hcl.
  destruct (omap line_of (bi_messages b)) as [|l ls] eqn:Hl; [done|].
  destruct (l ++ concat (map (cons LF) ls)) as [|c text] eqn:Ht; [done|]. intros [= <-].
  assert (Hall : Forall (fun l => LF ∉ l) (l :: ls)).
  { rewrite <- Hl, Forall_forall. intros x Hx. apply list_elem_of_omap in Hx as (y & Hy & Hx).
    rewrite Forall_forall in Hf. by apply (Hf y). }
  apply Forall_cons in Hall as [Hl1 Hls]. exists (c :: text), first.
  cbn [bm_params bm_prefix bm_msgid bm_timestamp]. split_and!; try done.
  - rewrite <- Ht. by apply split_lines_app.
  - by intros i ->.
  - by intros ->.
Qed.
End multiline.

(** ** The echo of a line of ours *)

Section echo.
Context `{SqliteLaws}.

Definition has_id (cid : Z) (id : cstr) (m : message) : bool := of_channel cid m && some_eq (msgid m) id.
Definition with_id (id : cstr) (m : message) : message :=
  Message (msg_id m) (msg_channel m) (msg_ts m) (Some id) (msg_text m) (redacted_by m)
    (redact_reason m) (redact_time m) (is_user_msg m).

(** UNIQUE (channel_id, msgid) of the table. *)
Definition ids_unique (l : list message) : Prop := forall cid id, (length (where_ (has_id cid id) l) <= 1)%nat.

Lemma where_ext {A} (p q : A -> bool) l : (forall x, x ∈ l -> p x = q x) -> where_ p l = where_ q l.
Proof.
  unfold where_. induction l as [|x l IH]; intros Hpq; [done|]. simpl. rewrite (Hpq x) by left.
  rewrite IH; [done|]. intros y Hy. apply Hpq. by right.
Qed.

Lemma where_map {A} (p : A -> bool) (f : A -> A) l : where_ p (map f l) = map f (where_ (fun x => p (f x)) l).
Proof. unfold where_. induction l as [|x l IH]; [done|]. simpl. destruct (p (f x)); simpl; by rewrite IH. Qed.

Lemma find_head_where {A} (p : A -> bool) l : find p l = head (where_ p l).
Proof. unfold where_. induction l as [|x l IH]; [done|]. simpl. by destruct (p x). Qed.

Lemma existsb_where {A} (p : A -> bool) l : existsb p l = match where_ p l with [] => false | _ => true end.
Proof. unfold where_. induction l as [|x l IH]; [done|]. simpl. by destruct (p x). Qed.

(** Deleting the only row with an id. *)
Lemma delete_row cid id l p :
  ids_distinct l -> where_ (has_id cid id) l = [p] ->
  where_ (fun m => negb (msg_id m =? msg_id p)) l = where_ (fun m => negb (has_id cid id m)) l.
Proof.
  intros Hd Hp. apply where_ext. intros m Hm. f_equal.
  assert (Hin : p ∈ where_ (has_id cid id) l) by (rewrite Hp; by left). apply elem_of_where in Hin as [Hpp Hpl].
  destruct (Z.eqb_spec (msg_id m) (msg_id p)) as [E|Hne].
  - by rewrite (ids_distinct_eq l m p).
  - destruct (has_id cid id m) eqn:Hmm; [|done].
    assert (Hin : m ∈ where_ (has_id cid id) l) by (by apply elem_of_where). rewrite Hp in Hin.
    apply list_elem_of_singleton in Hin as ->. done.
Qed.

Lemma has_id_disjoint cid a b m : a <> b -> has_id cid a m = true -> has_id cid b m = false.
Proof.
  unfold has_id, some_eq. intros Hab [_ Ha%bool_decide_eq_true]%andb_true_iff. apply andb_false_iff. right.
  rewrite Ha. apply bool_decide_eq_false. congruence.
Qed.

(** What is in the table after the pending row [a] got the id [b]. *)
Record confirmed (cid : Z) (a b : cstr) (l l' : list message) : Prop := {
  cf_pending : where_ (has_id cid a) l' = [];
  cf_real : where_ (has_id cid b) l' =
    match where_ (has_id cid b) l with [] => map (with_id b) (where_ (has_id cid a) l) | rows => rows end;
  cf_rest : where_ (fun m => negb (has_id cid a m) && negb (has_id cid b m)) l' =
    where_ (fun m => negb (has_id cid a m) && negb (has_id cid b m)) l }.

Lemma confirmed_delete cid a b l :
  a <> b -> where_ (has_id cid b) l <> [] -> confirmed cid a b l (where_ (fun m => negb (has_id cid a m)) l).
Proof.
  intros Hab Hb. constructor; rewrite where_where.
  - apply where_none. intros m _. by destruct (has_id cid a m).
  - destruct (where_ (has_id cid b) l) as [|x xs] eqn:E; [done|]. rewrite <- E. apply where_ext. intros m _.
    destruct (has_id cid a m) eqn:Ha; [|done]. by rewrite (has_id_disjoint cid a b).
  - apply where_ext. intros m _. by destruct (has_id cid a m).
Qed.

Lemma with_id_has cid b x m : of_channel cid m = true -> has_id cid x (with_id b m) = bool_decide (b = x).
Proof.
  intros Hc. unfold has_id. change (of_channel cid (with_id b m)) with (of_channel cid m). rewrite Hc. cbn [andb with_id msgid].
  unfold some_eq. apply bool_decide_ext. split; [by intros [= ->]|by intros ->].
Qed.

Lemma confirmed_update cid a b l :
  a <> b -> where_ (has_id cid b) l = [] ->
  confirmed cid a b l (map (fun m => if has_id cid a m then with_id b m else m) l).
Proof.
  intros Hab Hb. set (f := fun m => if has_id cid a m then with_id b m else m).
  assert (Hch : forall m, has_id cid a m = true -> of_channel cid m = true) by (by intros m [? _]%andb_true_iff).
  assert (Hfa : forall m, has_id cid a (f m) = false).
  { intros m. unfold f. destruct (has_id cid a m) eqn:Ha; [|done]. rewrite with_id_has by auto. by apply bool_decide_eq_false. }
  assert (Hfb : forall m, m ∈ l -> has_id cid b (f m) = has_id cid a m).
  { intros m Hm. unfold f. destruct (has_id cid a m) eqn:Ha.
    - rewrite with_id_has by auto. by apply bool_decide_eq_true.
    - apply not_true_is_false. intros Hmb. assert (Hin : m ∈ where_ (has_id cid b) l) by (by apply elem_of_where).
      rewrite Hb in Hin. by apply not_elem_of_nil in Hin. }
  constructor; rewrite where_map.
  - rewrite where_none; [done|]. intros m _. apply Hfa.
  - rewrite Hb, (where_ext _ (has_id cid a)) by done. apply map_ext_in. intros m Hm%list_elem_of_In.
    apply elem_of_where in Hm as [Hm _]. unfold f. by rewrite Hm.
  - rewrite (where_ext _ (fun m => negb (has_id cid a m) && negb (has_id cid b m))).
    + transitivity (map id (where_ (fun m => negb (has_id cid a m) && negb (has_id cid b m)) l)); [|apply map_id].
      apply map_ext_in. intros m Hm%list_elem_of_In. apply elem_of_where in Hm as [Hm _].
      apply andb_true_iff in Hm as [Hm%negb_true_iff _]. unfold f. by rewrite Hm.
    + intros m Hm. rewrite Hfa, (Hfb m Hm). destruct (has_id cid a m) eqn:Ha; [done|]. cbn [negb andb].
      symmetry. apply negb_true_iff, not_true_is_false. intros Hmb.
      assert (Hin : m ∈ where_ (has_id cid b) l) by (by apply elem_of_where). rewrite Hb in Hin. by apply not_elem_of_nil in Hin.
Qed.

(** The first lookup of a channel's id, and all after it. *)
Lemma channel_known db ch cid :
  db_ok db -> roomy db -> ch <> [] -> (ch, cid) ∈ names (tbl db) ->
  exists db1, scrollback_get_channel_id db ch = (db1, cid) /\ scrollback_get_channel_id db1 ch = (db1, cid) /\
    0 < cid /\ db_ok db1 /\ messages (tbl db1) = messages (tbl db).
Proof.
  intros Hok Hroom Hne Hin.
  destruct (get_channel_id_spec db ch Hok Hroom Hne) as (db1 & cid' & Hget & Hok1 & Hname & Hm & _ & Hkeep & _).
  assert (cid' = cid) as ->.
  { pose proof (lookup_names _ _ _ (ok_names _ Hok1) Hname).
    pose proof (lookup_names _ _ _ (ok_names _ Hok1) (Hkeep _ Hin)). congruence. }
  assert (Hpos : 0 < cid).
  { pose proof (ok_chan_range _ Hok1) as Hr. rewrite Forall_forall in Hr.
    apply (list_elem_of_fmap_2 snd) in Hname. specialize (Hr _ Hname). simpl in Hr. lia. }
  exists db1. split_and!; [done| |done|done|done]. by apply (get_again db).
Qed.

Lemma rowid_of db db1 ch cid id :
  scrollback_get_channel_id db ch = (db1, cid) -> 0 < cid -> id <> [] ->
  scrollback_get_rowid_by_msgid db ch id = (db1, default 0 (msg_id <$> head (where_ (has_id cid id) (messages (tbl db1))))).
Proof.
  intros Hget Hc Hid. unfold scrollback_get_rowid_by_msgid. rewrite bool_decide_eq_false_2 by done. rewrite Hget.
  rewrite (proj2 (Z.ltb_ge cid 0)) by lia. by rewrite <- find_head_where.
Qed.

Lemma delete_messages db p :
  p ∈ messages (tbl db) -> 0 < msg_id p ->
  exists db', scrollback_delete_by_rowid db (msg_id p) = (db', true) /\
    messages (tbl db') = where_ (fun m => negb (msg_id m =? msg_id p)) (messages (tbl db)).
Proof.
  intros Hp Hpos. unfold scrollback_delete_by_rowid. rewrite (proj2 (Z.leb_gt _ _)) by done.
  assert (Hc : 0 < sql_count (where_ (fun m => msg_id m =? msg_id p) (messages (tbl db)))).
  { assert (Hin : p ∈ where_ (fun m => msg_id m =? msg_id p) (messages (tbl db))).
    { apply elem_of_where. by rewrite Z.eqb_refl. }
    unfold sql_count. destruct (where_ _ _); [by apply not_elem_of_nil in Hin|]. simpl. lia. }
  rewrite (proj2 (Z.ltb_lt _ _) Hc). eexists. split; [done|]. unfold fts_unindex_row. by case_match.
Qed.

Definition pending_id (label : cstr) : cstr := fmt [("pending:" : cstr); label].

(** The UPDATE, by what is in the table. *)
Lemma update_result real cid a t :
  stmt_update_pending real cid a t =
    let pend := where_ (has_id cid a) (messages t) in
    if (0 <? sql_count pend) && existsb (fun m => has_id cid real m && negb (has_id cid a m)) (messages t) then None
    else Some (set_messages (map (fun m => if has_id cid a m then with_id real m else m)) t, sql_count pend).
Proof. done. Qed.

Lemma same_table cid a real db :
  where_ (has_id cid a) (messages (tbl db)) = [] ->
  set_tbl (fun _ => set_messages (map (fun m => if has_id cid a m then with_id real m else m)) (tbl db)) db = db.
Proof.
  intros Hn. assert (Hm : map (fun m => if has_id cid a m then with_id real m else m) (messages (tbl db)) = messages (tbl db)).
  { rewrite <- map_id. apply map_ext_in. intros m Hin%list_elem_of_In. destruct (has_id cid a m) eqn:Ha; [|done].
    assert (Hw : m ∈ where_ (has_id cid a) (messages (tbl db))) by (by apply elem_of_where).
    rewrite Hn in Hw. by apply not_elem_of_nil in Hw. }
  destruct db as [[ms rx rp ch gs ft] c1 c2 f r rc]. unfold set_tbl, set_messages. cbn in *. by rewrite Hm.
Qed.

(** C8. The echo of a line of ours leaves one copy of it: whatever the order in
    which the echo and a replay of the same message were stored, once the echo
    is confirmed the channel has no row with the placeholder id, exactly the row
    the replay stored if there is one and else the pending row under its real
    id, and every other row as it was; the interface is told to merge the two
    entries exactly when both were stored. *)
Theorem echo_leaves_one_copy label real v db cid :
  label <> [] -> real <> [] -> real <> pending_id label -> scrollback v = Some db -> channel (sess v) <> [] ->
  db_ok db -> roomy db -> (channel (sess v), cid) ∈ names (tbl db) -> ids_unique (messages (tbl db)) ->
  let v' := scrollback_confirm_pending label real v in
  exists db', scrollback v' = Some db' /\
    confirmed cid (pending_id label) real (messages (tbl db)) (messages (tbl db')) /\
    out v' = out v ++
      match where_ (has_id cid (pending_id label)) (messages (tbl db)), where_ (has_id cid real) (messages (tbl db)) with
      | p :: _, r :: _ => [ResolvePendingDup (self v) (msg_id p) (msg_id r)]
      | _, _ => []
      end.
Proof.
  intros Hlabel Hreal Hne Hdb Hch Hok Hroom Hin Huniq. cbn zeta. set (a := pending_id label) in *.
  assert (Ha : a <> []) by done.
  destruct (channel_known db (channel (sess v)) cid Hok Hroom Hch Hin) as (db1 & Hget & Hget1 & Hpos & Hok1 & Hm).
  assert (Hu : ids_unique (messages (tbl db1))) by (by rewrite Hm). rewrite <- Hm.
  assert (Hdef : scrollback_confirm_pending label real v =
    let '(db, updated) := scrollback_update_pending_msgid db (channel (sess v)) a real in
    if updated then set_scrollback db v
    else
      let '(db, real_rowid) := scrollback_get_rowid_by_msgid db (channel (sess v)) real in
      let '(db, pending_rowid) := scrollback_get_rowid_by_msgid db (channel (sess v)) a in
      if (0 <? real_rowid) && (0 <? pending_rowid) then
        let '(db, deleted) := scrollback_delete_by_rowid db pending_rowid in
        let v := set_scrollback db v in
        if (deleted : bool) then emit (ResolvePendingDup (self v) pending_rowid real_rowid) v else v
      else set_scrollback db v).
  { unfold scrollback_confirm_pending. destruct label, real; try done. by rewrite Hdb. }
  rewrite Hdef. clear Hdef. clearbody a. unfold scrollback_update_pending_msgid. rewrite Hget, (proj2 (Z.leb_gt cid 0) Hpos).
  rewrite update_result. cbn zeta. pose proof (Hu cid a) as Hlen.
  destruct (where_ (has_id cid a) (messages (tbl db1))) as [|p [|? ?]] eqn:Hpend; [| |simpl in Hlen; lia].
  - change (sql_count []) with 0. change (0 <? 0) with false. cbn [andb]. cbv iota beta.
    rewrite same_table by done.
    rewrite (rowid_of _ _ _ _ real Hget1 Hpos Hreal), (rowid_of _ _ _ _ a Hget1 Hpos Ha), Hpend.
    cbn [head fmap option_fmap option_map default from_option]. rewrite andb_false_r.
    exists db1. rewrite app_nil_r. split_and!; [done| |by destruct v]. constructor; [done| |done].
    rewrite Hpend. by case_match.
  - change (sql_count [p]) with 1. change (0 <? 1) with true. cbn [andb].
    rewrite existsb_where, (where_ext _ (has_id cid real)).
    2: { intros m _. destruct (has_id cid real m) eqn:Hr; [|done]. by rewrite (has_id_disjoint cid real a). }
    assert (Hpin : p ∈ messages (tbl db1)).
    { assert (Hp : p ∈ where_ (has_id cid a) (messages (tbl db1))) by (rewrite Hpend; by left). by apply elem_of_where in Hp as [_ ?]. }
    pose proof (ok_ids_pos _ Hok1) as Hids. rewrite Forall_forall in Hids.
    destruct (where_ (has_id cid real) (messages (tbl db1))) as [|r rs] eqn:Hrl.
    + eexists. rewrite app_nil_r. split_and!; [done| |by destruct v]. by apply confirmed_update.
    + assert (Hrin : r ∈ messages (tbl db1)).
      { assert (Hr : r ∈ where_ (has_id cid real) (messages (tbl db1))) by (rewrite Hrl; by left). by apply elem_of_where in Hr as [_ ?]. }
      rewrite (rowid_of _ _ _ _ real Hget1 Hpos Hreal), (rowid_of _ _ _ _ a Hget1 Hpos Ha), Hpend, Hrl.
      cbn [head fmap option_fmap option_map default from_option].
      change (id (msg_id r)) with (msg_id r). change (id (msg_id p)) with (msg_id p).
      rewrite (proj2 (Z.ltb_lt _ _) (Hids _ Hrin)), (proj2 (Z.ltb_lt _ _) (Hids _ Hpin)). cbn [andb].
      destruct (delete_messages db1 p Hpin (Hids _ Hpin)) as (db2 & -> & Hm2). exists db2. split_and!; [done| |done].
      rewrite Hm2, (delete_row cid a) by (done || apply Hok1). apply confirmed_delete; [congruence|by rewrite Hrl].
Qed.
End echo.
