(* ===== verification/WireSpec.v ===== *)
(** * Safety of everything that arrives

    Lines, batches and history calls in any order never make a handler follow a
    dangling session. *)
From S2P Require Import Prelude Glib Text Access Modes Tags Proto Scrollback ScrollbackSpec GapLedger GapLedgerSpec.
From S2P Require Import Chathistory ChathistorySpec Catchup CatchupSpec Persistence Batches BatchesSpec.

Section safety.
Context `{GLib, Dates, Sqlite, SqliteScan, Inbound} (prefs : preferences).

(** ** Sessions stay *)

(** The tab a history call closes. *)
Definition closes (c : history_call) : option nat := match c with HCloseSession sid _ => Some sid | _ => None end.

Lemma on_list sid f w w' : on sid f w = Some w' -> sess_list w' = sess_list w.
Proof. unfold on. destruct (look sid w); intros [= <-]. done. Qed.

Lemma free_list sid next w w' :
  session_free sid next w = Some w' -> sess_list w' = List.filter (fun s => negb (Nat.eqb s sid)) (sess_list w).
Proof.
  unfold session_free. intros Hf. apply bind_Some in Hf as (w1 & H1' & Hf). apply bind_Some in Hf as (w2 & H2' & Hf).
  apply bind_Some in Hf as (w3 & H3' & [= <-]). cbn [sess_list].
  rewrite (on_list _ _ _ _ H3'). rewrite (proj2 (proj2 (cancel_frame _ _ _ H2'))). by rewrite (on_list _ _ _ _ H1').
Qed.

Lemma history_exec_list w c w' sid :
  world_ok w -> history_admissible w c -> history_exec prefs w c = Some w' ->
  sid ∈ sess_list w -> closes c <> Some sid -> sid ∈ sess_list w'.
Proof.
  intros Hok Hadm He Hin Hcl.
  assert (Hk : forall o, (exists w', o = Some w' /\ keeps w w') -> o = Some w' -> sid ∈ sess_list w').
  { intros o (w1 & -> & Hk) [= <-]. by apply (kp_list _ _ Hk). }
  destruct c; cbn [history_exec history_admissible closes] in *;
    try (by rewrite (on_list _ _ _ _ He)); try (injection He as <-).
  - eapply Hk; [|exact He]. apply batch_ok; [done|]. intros t Ht. by rewrite Ht in Hadm.
  - eapply Hk; [|exact He]. apply targets_ok; [done|]. intros m t Hm Ht. rewrite Forall_forall in Hadm. specialize (Hadm m Hm).
    by rewrite Ht in Hadm.
  - eapply Hk; [|exact He]. by apply chunk_cb_ok.
  - eapply Hk; [|exact He]. by apply fail_ok.
  - eapply Hk; [|exact He]. by apply deferred_ok.
  - unfold chathistory_before_timer_cb in He. revert He. set (w1 := upd_serv _ w).
    assert (K1 : keeps w w1) by (apply upd_serv_ok; simpl; auto; apply Hok).
    case_match; [by intros [= <-]|]. destruct (check_ok prefs w1 (kp_ok _ _ K1)) as (w2 & -> & K2). intros [= <-].
    by apply (kp_list _ _ K2).
  - revert He. unfold chathistory_notify_tab_switch. repeat case_match; try (by intros [= <-]).
    apply Hk. by apply check_ok.
  - unfold chathistory_schedule_deferred. by case_match.
  - unfold chathistory_replay_wrapper_begin. by case_match.
  - revert He. unfold chathistory_replay_wrapper_end. case_match; [apply Hk; by apply check_ok|by intros [= <-]].
  - unfold chathistory_request_targets_on_reconnect. case_match; [done|]. by apply (kp_list _ _ (reconnect_ok now w Hok)).
  - rewrite (free_list _ _ _ _ He). apply list_elem_of_In, filter_In. split; [by apply list_elem_of_In|].
    apply negb_true_iff, Nat.eqb_neq. congruence.
  - unfold server_disconnect. by case_match.
  - done.
Qed.

(** ** The state between two lines *)

(** Names that could become windows are whole UTF-8 text. *)
Definition named (o : option cstr) : Prop := match o with Some t => copyable t | None => True end.
Definition batch_named (b : batch_info) : Prop :=
  named (head (bi_params b)) /\ Forall (fun m => named (target_of m)) (bi_messages b).

(** The sessions are in order, the server's own tab is open and the open batches
    are about names that can be copied. *)
Record hub_ok (h : hub) : Prop := {
  ho_world : world_ok (hub_world h);
  ho_server : server_session h ∈ sess_list (hub_world h);
  ho_named id b : active_batches h !! id = Some b -> batch_named b }.

Lemma hub_world_ok h w : hub_ok h -> keeps (hub_world h) w -> hub_ok (set_world w h).
Proof. intros [O1 O2 O3] Hk. constructor; [apply Hk|by apply (kp_list _ _ Hk)|done]. Qed.

Lemma emit_ok e h : hub_ok h -> hub_ok (set_world (emit_w e (hub_world h)) h).
Proof. intros Ho. apply hub_world_ok; [done|]. apply emit_w_ok, Ho. Qed.

Lemma insert_ok id b h : hub_ok h -> batch_named b -> hub_ok (set_batches <[id := b]> h).
Proof.
  intros [O1 O2 O3] Hb. constructor; [done|done|]. cbn [set_batches active_batches].
  intros c x [[<- <-]|[_ Hx]]%lookup_insert_Some; [done|by eapply O3].
Qed.

Lemma add_named m b : batch_named b -> named (target_of m) -> batch_named (add_messages [m] b).
Proof. intros [B1 B2] Hm. split; [done|]. cbn [add_messages bi_messages]. apply Forall_app_2; [done|by constructor]. Qed.

Lemma start_batch_ok now id type ln t h :
  hub_ok h -> named (head (bi_params (batch_info_new now id type ln t))) -> hub_ok (inbound_batch_start now id type ln t h).
Proof.
  intros Ho Hn. unfold inbound_batch_start. case_match; [done|]. case_match; [done|].
  set (b := batch_info_new now id type ln t) in *.
  assert (Hins : hub_ok (set_batches <[id := b]> h)) by (apply insert_ok; [done|by split]).
  destruct (is_wrapper b); [|done]. apply hub_world_ok; [done|].
  change (hub_world (set_batches _ h)) with (hub_world h). unfold chathistory_replay_wrapper_begin.
  assert (K1 : keeps (hub_world h) (upd_serv set_replay_seen (hub_world h))) by (apply upd_serv_ok; simpl; auto; apply Ho).
  case_match; [done|]. eapply keeps_trans; [done|]. apply upd_serv_ok; [apply K1|simpl; auto|]. simpl. apply Ho.
Qed.

Lemma line_ok prefix command ln t h :
  hub_ok h -> named (target_of (batch_message_new prefix command ln t)) ->
  hub_ok (inbound_batch_add_message prefix command ln t h).1.
Proof.
  intros Ho Hn. unfold inbound_batch_add_message. case_match; [done|]. destruct (batch_id t) as [id|]; [|done].
  destruct (active_batches h !! id) as [b|] eqn:Hb; [|done]. destruct (persistence_is_bare_name _).
  - destruct (attach_echo _ _ _ _ _) as [h'|] eqn:He; [|done]. cbn [fst]. revert He. unfold attach_echo.
    case_match; [done|]. cbn zeta. case_match; [|done]. intros He. apply bind_Some in He as (sid & _ & He).
    apply bind_Some in He as (v & Hv & He). destruct (channel (sess v)); [done|]. injection He as <-.
    assert (Hs : forall w, keeps (hub_world h) w -> hub_ok (silence_names sid (set_world w h))).
    { intros w Hk. destruct (hub_world_ok h w Ho Hk). by constructor. }
    apply Hs. eapply put_ok; [apply Ho|done|]. destruct (Tags.msgid t); [apply vstep_track|done].
  - destruct (_ || _); [|done]. cbn [fst]. apply insert_ok; [done|]. apply add_named; [|done]. by eapply ho_named.
Qed.

(** ** The end of a batch *)

Lemma collapsed_named b m : collapsed_message b = Some m -> named (target_of m).
Proof.
  unfold collapsed_message. cbn zeta. destruct (List.filter _ _); [done|]. destruct (combined_text _); [done|].
  intros [= <-]. unfold target_of. cbn [bm_command bm_params]. by case_match.
Qed.

Lemma collapse_ok b o h : hub_ok h -> hub_ok (collapse_multiline_to_parent b o h).
Proof.
  intros Ho. unfold collapse_multiline_to_parent. destruct (collapsed_message b) as [m|] eqn:Hm; [|done].
  destruct (active_batches h !! o) as [p|] eqn:Hp.
  - replace (set_batches _ h) with (set_batches <[o := add_messages [m] p]> h) by (unfold set_batches; by rewrite Hp).
    apply insert_ok; [done|]. apply add_named; [by eapply ho_named|by eapply collapsed_named].
  - replace (set_batches _ h) with h; [done|]. unfold set_batches. rewrite Hp. by destruct h.
Qed.

Lemma dialog_ok target h :
  hub_ok h -> copyable target ->
  exists h1 sid, new_dialog_for prefs target h = Some (h1, sid) /\ hub_ok h1 /\ sid ∈ sess_list (hub_world h1).
Proof.
  intros Ho [n Hn]. unfold new_dialog_for. destruct (find_session SESS_DIALOG target (hub_world h)) as [sid|] eqn:Hf.
  - exists h, sid. split_and!; [done|done|]. apply (wo_list _ (ho_world _ Ho)). by eapply find_listed, Hf; apply Ho.
  - destruct (new_dialog prefs target (hub_world h)) as [[w sid]|] eqn:Hnew; [|unfold new_dialog in Hnew; by rewrite Hn in Hnew].
    destruct (new_dialog_ok prefs _ _ _ _ (ho_world _ Ho) Hnew) as [Hk Hin]. exists (set_world w h), sid.
    split_and!; [done|by apply hub_world_ok|done].
Qed.

Lemma multiline_ok b h :
  hub_ok h -> named (head (bi_params b)) -> exists h', process_multiline_batch prefs b h = Some h' /\ hub_ok h'.
Proof.
  intros Ho Hn. unfold process_multiline_batch. cbn zeta. set (sid0 := default (server_session h) _).
  assert (Hsid : sid0 ∈ sess_list (hub_world h)).
  { unfold sid0. destruct (head (bi_params b)) as [t|]; [|exact (ho_server _ Ho)]. cbn [mbind option_bind].
    destruct (find_session SESS_CHANNEL t _) as [s|] eqn:Hf; [cbn; apply (wo_list _ (ho_world _ Ho)); eapply find_listed, Hf; apply Ho|].
    destruct (find_session SESS_DIALOG t _) as [s|] eqn:Hf2; [cbn; apply (wo_list _ (ho_world _ Ho)); eapply find_listed, Hf2; apply Ho|exact (ho_server _ Ho)]. }
  clearbody sid0. destruct (List.filter _ _) as [|first ms]; [by eauto|]. destruct (combined_text _) as [|c text]; [by eauto|].
  destruct (split_prefix <$> _) as [[nick host]|]; [|by eauto].
  set (self_pm := match head (bi_params b) with Some _ => _ | None => false end).
  assert (Hd : exists h1 sid, (if self_pm then new_dialog_for prefs (default [] (head (bi_params b))) h else Some (h, sid0)) = Some (h1, sid)
    /\ hub_ok h1 /\ sid ∈ sess_list (hub_world h1)).
  { destruct self_pm eqn:Hs; [|by exists h, sid0]. unfold self_pm in Hs. destruct (head (bi_params b)) as [t|]; [|done].
    by apply dialog_ok. }
  clearbody self_pm. destruct Hd as (h1 & sid & -> & Ho1 & Hin). cbn [mbind option_bind].
  destruct (look_Some sid (hub_world h1)) as [v Hv]; [by apply (wo_list _ (ho_world _ Ho1))|]. rewrite Hv. cbn [mbind option_bind].
  eexists. split; [done|]. exact (emit_ok _ _ (emit_ok _ _ (emit_ok _ _ Ho1))).
Qed.

Lemma vstep_confirm label real v : vstep v (scrollback_confirm_pending label real v).
Proof. unfold scrollback_confirm_pending. by repeat vnext. Qed.

Lemma answer_ok b left h : hub_ok h -> hub_ok (answer_label b left h).
Proof.
  intros Ho. unfold answer_label. destruct (bi_label b) as [label|]; [|done]. cbn zeta.
  assert (Hl : forall h1, hub_ok h1 -> hub_ok (set_labels (delete label) h1)) by (intros h1 [O1 O2 O3]; by constructor).
  apply Hl. repeat (case_match; try done); try (by apply emit_ok).
  all: apply hub_world_ok; [done|]; eapply keeps_trans; [apply emit_w_ok, Ho|].
  all: eapply put_ok; [apply emit_w_ok, Ho|done|apply vstep_confirm].
Qed.

Lemma by_type_ok now b h :
  hub_ok h -> batch_named b -> exists h', process_batch_by_type prefs now b h = Some h' /\ hub_ok h'.
Proof.
  intros Ho [Hn Hms]. unfold process_batch_by_type.
  assert (Hk : forall o, (exists w', o = Some w' /\ keeps (hub_world h) w') ->
    exists h', (w ← o; Some (set_world w h)) = Some h' /\ hub_ok h').
  { intros o (w & -> & Hk). eexists. split; [done|]. by apply hub_world_ok. }
  case_match; [apply Hk, batch_ok; [apply Ho|]; intros t Ht; cbn [history_batch b_target] in Ht; by rewrite Ht in Hn|].
  case_match.
  { apply Hk, targets_ok; [apply Ho|]. cbn [history_batch b_messages]. intros m t Hm Ht. rewrite Forall_forall in Hms.
    specialize (Hms m Hm). by rewrite Ht in Hms. }
  case_match.
  { destruct (_ ≫= _) as [o|]; [eexists; split; [done|]; case_match; [done|]; by apply collapse_ok|].
    case_match; [by eauto|]. by apply multiline_ok. }
  case_match; [by eauto|]. case_match; [|by eauto]. apply Hk. unfold chathistory_replay_wrapper_end.
  case_match; [apply check_ok, Ho|]. eexists. split; [done|]. apply keeps_refl, Ho.
Qed.

Lemma end_ok now id h : hub_ok h -> exists h', inbound_batch_end prefs now id h = Some h' /\ hub_ok h'.
Proof.
  intros Ho. unfold inbound_batch_end. case_match; [by eauto|]. destruct (active_batches h !! id) as [b|] eqn:Hb; [|by eauto].
  destruct (by_type_ok now b h Ho (ho_named _ Ho _ _ Hb)) as (h1 & -> & Ho1). cbn [mbind option_bind].
  eexists. split; [done|]. destruct (answer_ok b (messages_left b h) h1 Ho1) as [O1 O2 O3]. constructor; [done|done|].
  cbn [set_batches active_batches]. intros c x [_ Hx]%lookup_delete_Some. by eapply O3.
Qed.

(** ** Anything that arrives *)

Definition wire_admissible (h : hub) (op : wire_op) : Prop :=
  match op with
  | WBatch now ln t => named (head (bi_params (batch_info_new now [] [] ln t)))
  | WLine prefix command ln t => named (target_of (batch_message_new prefix command ln t))
  | WHistory c => history_admissible (hub_world h) c /\ closes c <> Some (server_session h)
  | _ => True
  end.

Fixpoint wire_all_ok (h : hub) (ops : list wire_op) : Prop :=
  match ops with
  | [] => True
  | op :: ops => wire_admissible h op /\ forall h', wire_exec prefs op h = Some h' -> wire_all_ok h' ops
  end.

Lemma mark_ok label sid eid h : hub_ok h -> hub_ok (mark_pending_echo label sid eid h).
Proof.
  intros Ho. unfold mark_pending_echo. repeat (case_match; try done).
  assert (Hl : forall f, hub_ok (set_labels f h)) by (intros f; by destruct Ho).
  by apply (emit_ok _ (set_labels _ h)).
Qed.

Lemma drop_stale_ok ids h : hub_ok h -> hub_ok (foldl drop_stale_batch h ids).
Proof.
  revert h. induction ids as [|id ids IH]; intros h Ho; [done|]. cbn [foldl]. apply IH. unfold drop_stale_batch.
  set (h1 := match active_batches h !! id with Some _ => _ | None => _ end).
  assert (Hh1 : hub_ok h1) by (unfold h1; repeat case_match; by destruct Ho).
  destruct Hh1 as [O1 O2 O3]. constructor; [done|done|]. cbn [set_batches active_batches].
  intros c x [_ Hx]%lookup_delete_Some. by eapply O3.
Qed.

Lemma clear_pending_ok sids w : world_ok w ->
  world_ok (foldl (fun w sid => emit_w (FeClearPending sid) w) w sids) /\
  sess_list (foldl (fun w sid => emit_w (FeClearPending sid) w) w sids) = sess_list w.
Proof.
  revert w. induction sids as [|sid sids IH]; intros w Hok; [done|]. cbn [foldl].
  destruct (IH (emit_w (FeClearPending sid) w)) as [E1 E2]; [by apply (kp_ok _ _ (emit_w_ok _ _ Hok))|]. split; [done|exact E2].
Qed.

Lemma lost_ok now delayed h : hub_ok h -> hub_ok (hub_disconnect now delayed h).
Proof.
  intros [O1 O2 O3]. unfold hub_disconnect. set (w := server_disconnect now delayed (hub_world h)).
  assert (Hw : world_ok w) by (by apply disconnect_ok).
  assert (Hl : sess_list w = sess_list (hub_world h)) by (unfold w, server_disconnect; by case_match).
  destruct (clear_pending_ok (sess_list w) w Hw) as [E1 E2].
  case_match; constructor; cbn [set_world hub_world server_session active_batches]; try done; [congruence|congruence].
Qed.

Lemma history_ok c h :
  hub_ok h -> history_admissible (hub_world h) c -> closes c <> Some (server_session h) ->
  exists h', (w ← history_exec prefs (hub_world h) c; Some (set_world w h)) = Some h' /\ hub_ok h'.
Proof.
  intros Ho Hadm Hcl. destruct (history_exec_ok prefs _ _ (ho_world _ Ho) Hadm) as (w & He & Hw).
  rewrite He. eexists. split; [done|]. constructor; [done| |apply Ho].
  apply (history_exec_list (hub_world h) c w); [apply Ho|done|done|exact (ho_server _ Ho)|done].
Qed.

Lemma wire_exec_ok op h :
  hub_ok h -> wire_admissible h op -> exists h', wire_exec prefs op h = Some h' /\ hub_ok h'.
Proof.
  intros Ho Hadm. destruct op as [now ln t|prefix command ln t|now label|label sid eid|now|c]; cbn [wire_exec wire_admissible] in *.
  - unfold handle_batch. case_match; [by eauto|]. destruct (word ln 3) as [|x id]; [by eauto|].
    case_match; [eexists; split; [done|]; by apply start_batch_ok|]. case_match; [by apply end_ok|by eauto].
  - eexists. split; [done|]. by apply line_ok.
  - eexists. split; [done|]. by destruct Ho.
  - eexists. split; [done|]. by apply mark_ok.
  - eexists. split; [done|]. apply drop_stale_ok. by destruct Ho.
  - destruct Hadm as [Hadm Hcl]. pose proof (history_ok c h Ho Hadm Hcl) as Hx.
    destruct c; try exact Hx. eexists. split; [done|]. by apply lost_ok.
Qed.

End safety.
