(* ===== verification/BatchCases.v ===== *)
(** * Concrete batches

    Lines as they come from the wire, split by [process_data_init], and the
    batches they open, fill and close. *)
From S2P Require Import Prelude Glib Text Access Modes Words Tags Proto Scrollback ScrollbackSpec GapLedger GapLedgerSpec.
From S2P Require Import Chathistory ChathistorySpec Catchup CatchupSpec CatchupCases Persistence Batches BatchesSpec WireSpec.

(** ** Lines *)

Definition wire_line (s : string) : line :=
  match process_data_init (list_ascii_of_string s) false false with Some ln => ln | None => Line [] [] [] end.

(** The tags batch=, msgid= and time= of a line. *)
Definition tagged (batch id : option string) (time : Z) : message_tags_data :=
  TagsData None false time (list_ascii_of_string <$> batch) (list_ascii_of_string <$> id) None (Some ∅) None.
Definition untagged : message_tags_data := tagged None None 0.

Definition op_batch (s : string) (t : message_tags_data) : wire_op := WBatch 5000 (wire_line s) t.
Definition op_said (s : string) (t : message_tags_data) : wire_op := WLine "bob!b@host" "PRIVMSG" (wire_line s) t.

Definition small_hub (ss : list session) : hub := Hub true "me" 0 ∅ ∅ ∅ (small_world 50 ss fresh_db).

Definition is_ok (o : option hub) : bool := match o with Some _ => true | None => false end.

Lemma small_hub_ok ss :
  Forall (fun s => queue_ok (s_queue s) /\ chunk_state s = None) ss -> ss <> [] -> hub_ok (small_hub ss).
Proof.
  intros Hs Hne. constructor; [by apply small_world_ok| |intros id b; cbn; by rewrite lookup_empty].
  cbn [small_hub server_session hub_world small_world sess_list]. apply elem_of_seq. destruct ss; [done|]. simpl. lia.
Qed.

#[export] Instance named_dec o : Decision (named o).
Proof. unfold named. case_match; unfold copyable; apply _. Defined.

#[export] Instance wire_admissible_dec h op : Decision (wire_admissible h op).
Proof. destruct op; cbn [wire_admissible]; apply _. Defined.

#[export] Instance wire_all_ok_dec h ops : Decision (wire_all_ok small_prefs h ops).
Proof.
  revert h. induction ops as [|op ops IH]; intros h; cbn [wire_all_ok]; [apply _|].
  apply and_dec; [apply _|]. destruct (wire_exec small_prefs op h) as [h1|].
  - destruct (IH h1) as [Hh|Hh]; [left; by intros ? [= <-]|right; auto].
  - by left.
Defined.

(** ** History with a multiline message and a line of another batch in it *)

Definition inside : list wire_op :=
  [op_said ":bob!b@host PRIVMSG #a :one" (tagged (Some "h"%string) (Some "m1"%string) 100);
   op_said ":bob!b@host PRIVMSG #a :elsewhere" (tagged (Some "g"%string) (Some "m9"%string) 105);
   op_said ":bob!b@host PRIVMSG #a :two" (tagged (Some "h"%string) (Some "m2"%string) 110)].

Definition open_h : wire_op := op_batch ":srv BATCH +h chathistory #a" untagged.
Definition close_h : wire_op := op_batch ":srv BATCH -h" untagged.

(** [inside], with what else may come: a sweep, a labeled line and its echo. *)
Definition between : list wire_op :=
  inside ++ [WSent 5010 "L7"; WEcho (Some ("L7" : cstr)) 0 9; WSweep 5100].

#[export] Instance aside_dec id since op : Decision (aside id since op).
Proof. unfold aside. destruct op as [| | | | |[] ]; apply _. Defined.

Lemma history_batch_delivered_witness :
  exists h1 w, wire_run small_prefs (open_h :: between) (small_hub [channel_a]) = Some h1 /\
    chathistory_process_batch small_prefs 5000
      (Batch (Some ("#a" : cstr)) false (brought small_prefs "h" (open_h :: between) (small_hub [channel_a])) false) (hub_world h1) = Some w /\
    map bm_msgid (brought small_prefs "h" (open_h :: between) (small_hub [channel_a])) = [Some ("m1" : cstr); Some ("m2" : cstr)].
Proof.
  destruct (wire_run small_prefs (open_h :: between ++ [close_h]) (small_hub [channel_a])) as [h'|] eqn:Hr.
  - destruct (history_batch_delivered small_prefs 5000 (wire_line ":srv BATCH +h chathistory #a") untagged between
      5000 (wire_line ":srv BATCH -h") untagged "h" (small_hub [channel_a]) h') as (h1 & w & E1 & E2 & _).
    1-2: reflexivity.
    1-4: by vm_compute.
    1: repeat constructor; by apply (bool_decide_unpack _); vm_compute.
    1: exact Hr.
    exists h1, w. split; [exact E1|]. split; [exact E2|]. by vm_compute.
  - exfalso. assert (Hs : is_ok (wire_run small_prefs (open_h :: between ++ [close_h]) (small_hub [channel_a])) = true) by by vm_compute.
    by rewrite Hr in Hs.
Defined.

Definition open_c : wire_op := op_batch ":bob!b@host BATCH +c draft/multiline #a" (tagged (Some "h"%string) (Some "m3"%string) 120).
Definition close_c : wire_op := op_batch ":srv BATCH -c" untagged.
Definition parts : list wire_op :=
  [op_said ":bob!b@host PRIVMSG #a :first" (tagged (Some "c"%string) None 0);
   op_said ":bob!b@host PRIVMSG #a :between" (tagged (Some "h"%string) (Some "m4"%string) 125);
   op_said ":bob!b@host PRIVMSG #a :second" (tagged (Some "c"%string) None 0)].

(** A history batch is open. *)
Definition batch_h : batch_info := batch_info_new 5000 "h" "chathistory" (wire_line ":srv BATCH +h chathistory #a") untagged.
Definition hub_h : hub := set_batches <[("h" : cstr) := batch_h]> (small_hub [channel_a]).

Lemma multiline_in_history_witness :
  exists h', wire_run small_prefs (open_c :: parts ++ [close_c]) hub_h = Some h' /\
    active_batches h' !! ("c" : cstr) = None /\
    exists b, active_batches h' !! ("h" : cstr) = Some b /\
      map bm_params (bi_messages b) =
        [[("#a" : cstr); (":between" : cstr)]; [("#a" : cstr); (":first" : cstr) ++ LF :: ("second" : cstr)]].
Proof.
  destruct (wire_run small_prefs (open_c :: parts ++ [close_c]) hub_h) as [h'|] eqn:Hr.
  - destruct (multiline_in_history small_prefs 5000 (wire_line ":bob!b@host BATCH +c draft/multiline #a")
      (tagged (Some "h"%string) (Some "m3"%string) 120) parts 5000 (wire_line ":srv BATCH -c") untagged
      "h" "c" batch_h hub_h h') as (E1 & E2).
    1: reflexivity.
    1-2: by vm_compute.
    1: reflexivity.
    1-7: by vm_compute.
    1-2: repeat constructor; by apply (bool_decide_unpack _); vm_compute.
    1: exact Hr.
    exists h'. split; [done|]. split; [exact E2|]. eexists. split; [exact E1|]. by vm_compute.
  - exfalso. assert (Hs : is_ok (wire_run small_prefs (open_c :: parts ++ [close_c]) hub_h) = true) by by vm_compute.
    by rewrite Hr in Hs.
Defined.

Lemma multiline_roundtrip_witness :
  let b := add_messages (brought small_prefs "c" (open_c :: parts) hub_h)
    (batch_info_new 5000 "c" "draft/multiline" (wire_line ":bob!b@host BATCH +c draft/multiline #a") (tagged (Some "h"%string) (Some "m3"%string) 120)) in
  exists m text, collapsed_message b = Some m /\ bm_msgid m = Some ("m3" : cstr) /\
    split_lines text = [("first" : cstr); ("second" : cstr)].
Proof.
  cbn zeta. set (b := add_messages _ _). destruct (collapsed_message b) as [m|] eqn:Hm.
  - destruct (multiline_roundtrip b m) as (text & first & _ & E2 & _ & _ & E5 & _).
    + repeat constructor; intros l Hl; by vm_compute in Hl; injection Hl as <-; apply (bool_decide_unpack _); vm_compute.
    + exact Hm.
    + exists m, text. split; [done|]. split; [apply E5; by vm_compute|]. rewrite E2. by vm_compute.
  - exfalso. assert (Hs : match collapsed_message b with Some _ => true | None => false end = true) by by vm_compute.
    by rewrite Hm in Hs.
Defined.

(** ** The echo and the replay of a line of ours *)


Lemma reachable_saves cs : all_ok fresh_db cs -> db_ok (exec_all fresh_db cs) .
Proof. intros Hcs. by apply reachable_ok, reachable_all; [apply reachable_opened, fresh_opened|]. Qed.

Definition two_copies : list call :=
  [CSave "#a" 100 (Some ("pending:L1" : cstr)) "hi" true; CSave "#a" 101 (Some ("id1" : cstr)) "hi" true].

Lemma two_copies_unique : ids_unique (messages (tbl (exec_all fresh_db two_copies))).
Proof.
  intros cid id.
  assert (E : exists a b, messages (tbl (exec_all fresh_db two_copies)) = [a; b] /\ msgid a <> msgid b)
    by (eexists _, _; split; [by vm_compute|done]).
  destruct E as (a & b & -> & Hne). change (where_ (has_id cid id) [a; b])
    with (if has_id cid id a then a :: (if has_id cid id b then [b] else []) else if has_id cid id b then [b] else []).
  destruct (has_id cid id a) eqn:Ha, (has_id cid id b) eqn:Hb; try (simpl; lia). exfalso. apply Hne.
  apply andb_true_iff in Ha as [_ Ha%bool_decide_eq_true], Hb as [_ Hb%bool_decide_eq_true]. congruence.
Qed.

Lemma echo_leaves_one_copy_witness :
  let v := View 0 (small_server 50) channel_a (Some (exec_all fresh_db two_copies)) [] in
  exists db', scrollback (scrollback_confirm_pending "L1" "id1" v) = Some db' /\
    confirmed 1 "pending:L1" "id1" (messages (tbl (exec_all fresh_db two_copies))) (messages (tbl db')) /\
    out (scrollback_confirm_pending "L1" "id1" v) = [ResolvePendingDup 0 1 2].
Proof.
  cbn zeta. set (v := View _ _ _ _ _).
  destruct (echo_leaves_one_copy "L1" "id1" v (exec_all fresh_db two_copies) 1) as (db' & E1 & E2 & E3).
  1-3: done.
  1: reflexivity.
  1: done.
  1: apply reachable_saves; unfold two_copies; check_history.
  1-2: by apply (bool_decide_unpack _); vm_compute.
  1: apply two_copies_unique.
  exists db'. split; [exact E1|]. split; [exact E2|]. rewrite E3. by vm_compute.
Defined.

(** ** Lines, batches and calls together *)

Definition arrivals : list wire_op :=
  [WHistory (HDeferredStart 5000); open_h] ++ between ++ [open_c] ++ parts ++ [close_c; WHistory (HTabSwitch 1); close_h;
   WHistory (HCloseSession 2 (Some 0%nat)); WHistory (HDisconnect 6000 false)].

