(* ===== verification/Sts.v ===== *)
(** * Strict transport policies (src/common/servlist.c, STS)

    The list of hosts that must be contacted over TLS, its expiry and its file.
    An entry is updated or removed in place; the search drops an expired entry
    it meets.  The theorems read the list as a finite map and show that a file
    written by the client gives the same policies back. *)
From S2P Require Import Prelude Glib Text Modes Isupport Proto.

Record sts_policy := StsPolicy { sp_host : cstr; sp_port : Z; expires : Z }.

Section policies.
Context `{GLib}.

Definition same_host (host : cstr) (p : sts_policy) : bool := g_ascii_strcasecmp (sp_host p) host =? 0.
Definition expired (now : Z) (p : sts_policy) : bool := (0 <? expires p) && (expires p <? now).

(** The list afterwards, and the policy found. *)
Fixpoint sts_policy_find (now : Z) (host : cstr) (l : list sts_policy) : list sts_policy * option sts_policy :=
  match l with
  | [] => ([], None)
  | p :: l =>
      if same_host host p then if expired now p then (l, None) else (p :: l, Some p)
      else let '(l, found) := sts_policy_find now host l in (p :: l, found)
  end.

(** The policy found is a pointer: what is done to it happens in the list. *)
Fixpoint update_host (host : cstr) (f : sts_policy -> option sts_policy) (l : list sts_policy) : list sts_policy :=
  match l with
  | [] => []
  | p :: l => if same_host host p then option_list (f p) ++ l else p :: update_host host f l
  end.

Definition sts_policy_add (now : Z) (host : cstr) (port duration : Z) (l : list sts_policy) : list sts_policy :=
  if port <=? 0 then l
  else
    let until := if 0 <? duration then now + duration else 0 in
    match sts_policy_find now host l with
    | (l, Some _) =>
        update_host host (fun p => Some (StsPolicy (sp_host p) port (if duration <? 0 then expires p else until))) l
    | (l, None) => StsPolicy host port until :: l
    end.

Definition sts_policy_remove (now : Z) (host : cstr) (l : list sts_policy) : list sts_policy :=
  match sts_policy_find now host l with
  | (l, Some _) => update_host host (fun _ => None) l
  | (l, None) => l
  end.

Definition sts_policy_check (now : Z) (host : cstr) (l : list sts_policy) : list sts_policy * option Z :=
  let '(l, found) := sts_policy_find now host l in (l, sp_port <$> found).

(** ** sts.conf *)

(** "%ld" *)
Definition int64_text (n : Z) : cstr := if n <? 0 then "-"%char :: decimal 19 (- n) [] else decimal 19 n [].

Definition kept (now : Z) (p : sts_policy) : bool := negb (expires p =? 0) && negb (expires p <? now).

Definition policy_line (p : sts_policy) : cstr :=
  fmt [sp_host p; (" " : cstr); int_text (sp_port p); (" " : cstr); int64_text (expires p); [LF]].

Definition sts_policy_save (now : Z) (l : list sts_policy) : cstr := concat (map policy_line (List.filter (kept now) l)).

(** [fgets] with room for [room] bytes before the NUL: through the line feed. *)
Fixpoint fgets (room : nat) (s : cstr) : cstr * cstr :=
  match room, s with
  | O, _ | _, [] => ([], s)
  | S room, c :: s => if c =c LF then ([c], s) else let '(line, rest) := fgets room s in (c :: line, rest)
  end.

Fixpoint fgets_all (fuel room : nat) (s : cstr) : list cstr :=
  match fuel, s with
  | O, _ | _, [] => []
  | S fuel, _ => let '(line, rest) := fgets room s in line :: fgets_all fuel room rest
  end.

Definition blank (c : ascii) : bool := (c =c " ") || (c =c "009") || (c =c LF).

(** [strtok] until it returns NULL; [cur] is the token begun. *)
Fixpoint strtok (cur s : cstr) : list cstr :=
  let flush ws := match cur with [] => ws | _ => cur :: ws end in
  match s with
  | [] => flush []
  | c :: s => if blank c then flush (strtok [] s) else strtok (cur ++ [c]) s
  end.

Definition set_expires (e : Z) (p : sts_policy) : sts_policy := StsPolicy (sp_host p) (sp_port p) e.

(** One line of the file; the expiry goes to whatever is first in the list. *)
Definition load_policy (now : Z) (l : list sts_policy) (line : cstr) : list sts_policy :=
  match strtok [] line with
  | host :: port :: until :: _ =>
      let until := strtoll until in
      if (0 <? until) && (until <? now) then l
      else match sts_policy_add now host (atoi port) 0 l with
           | p :: l => set_expires until p :: l
           | [] => []
           end
  | _ => l
  end.

Definition sts_policy_init (now : Z) (file : cstr) (l : list sts_policy) : list sts_policy :=
  foldl (load_policy now) l (fgets_all (length file) 511 file).

(** ** The list as a map *)

Context `{!GLibLaws H}.

Definition key_of (host : cstr) : cstr := map ascii_lower host.
Definition keys (l : list sts_policy) : list cstr := map (fun p => key_of (sp_host p)) l.

(** One entry per host, and hosts are C strings. *)
Definition policies_ok (l : list sts_policy) : Prop := NoDup (keys l) /\ Forall (fun p => nonul (sp_host p)) l.

(** The policies in force. *)
Definition live (now : Z) (l : list sts_policy) : gmap cstr (Z * Z) :=
  list_to_map (map (fun p => (key_of (sp_host p), (sp_port p, expires p))) (List.filter (fun p => negb (expired now p)) l)).

Lemma same_host_key host p : nonul host -> nonul (sp_host p) -> same_host host p = true <-> key_of (sp_host p) = key_of host.
Proof. intros Hn Hp. unfold same_host. by rewrite Z.eqb_eq, g_ascii_strcasecmp_zero. Qed.

Lemma live_cons now p l :
  live now (p :: l) = if expired now p then live now l else <[key_of (sp_host p) := (sp_port p, expires p)]> (live now l).
Proof. unfold live. cbn [List.filter]. by destruct (expired now p). Qed.

Lemma live_absent now l k : k ∉ keys l -> live now l !! k = None.
Proof.
  induction l as [|p l IH]; [done|]. cbn [keys map]. intros [Hk Hl]%not_elem_of_cons. rewrite live_cons.
  destruct (expired now p); [by apply IH|]. by rewrite lookup_insert_ne; [apply IH|].
Qed.

Lemma keys_sub now host l : keys (sts_policy_find now host l).1 `sublist_of` keys l.
Proof.
  induction l as [|p l IH]; [done|]. cbn [sts_policy_find]. destruct (same_host host p).
  - destruct (expired now p); [by apply sublist_cons|done].
  - destruct (sts_policy_find now host l) as [l' r]. by apply sublist_skip.
Qed.

Lemma find_forall now host l (P : sts_policy -> Prop) : Forall P l -> Forall P (sts_policy_find now host l).1.
Proof.
  induction 1 as [|p l Hp Hl IH]; [constructor|]. cbn [sts_policy_find]. destruct (same_host host p).
  - destruct (expired now p); [done|by constructor].
  - destruct (sts_policy_find now host l) as [l' r]. by constructor.
Qed.

Lemma find_ok now host l : policies_ok l -> policies_ok (sts_policy_find now host l).1.
Proof.
  intros [Hnd Hf]. split; [|by apply find_forall]. eapply sublist_NoDup; [exact Hnd|apply keys_sub].
Qed.

(** What the search finds is the policy in force, and it hides nothing. *)
Lemma find_live now host l :
  policies_ok l -> nonul host ->
  let '(l', found) := sts_policy_find now host l in
  (fun p => (sp_port p, expires p)) <$> found = live now l !! key_of host /\ live now l' = live now l /\
  match found with
  | Some p => p ∈ l' /\ key_of (sp_host p) = key_of host /\ expired now p = false
  | None => key_of host ∉ keys l'
  end.
Proof.
  intros [Hnd Hf] Hn. induction Hf as [|p l Hp Hl IH]; [by split_and!; [| |apply not_elem_of_nil]|].
  cbn [keys map] in Hnd. apply NoDup_cons in Hnd as [Hk Hnd]. specialize (IH Hnd).
  cbn [sts_policy_find]. pose proof (same_host_key host p Hn Hp) as Hs. rewrite live_cons.
  destruct (same_host host p) eqn:E.
  - pose proof (proj1 Hs eq_refl) as Hkey. rewrite Hkey in Hk. destruct (expired now p) eqn:Hx.
    + split_and!; [by rewrite live_absent|done|done].
    + rewrite Hkey, lookup_insert_eq. split_and!; [done|rewrite live_cons, Hx; by rewrite Hkey|by left|done|done].
  - assert (Hne : key_of (sp_host p) <> key_of host) by (intros E'; apply Hs in E'; congruence).
    destruct (sts_policy_find now host l) as [l' found] eqn:Hfind. destruct IH as (I1 & I2 & I3). split_and!.
    + rewrite I1. destruct (expired now p); [done|]. by rewrite lookup_insert_ne.
    + rewrite live_cons. by rewrite I2.
    + destruct found as [q|]; [destruct I3 as (? & ? & ?); split_and!; [by right|done|done]|].
      cbn [keys map]. apply not_elem_of_cons. split; [congruence|done].
Qed.

Lemma elem_keys p l : p ∈ l -> key_of (sp_host p) ∈ keys l.
Proof. intros Hp. unfold keys. by apply (list_elem_of_fmap_2 (fun p => key_of (sp_host p))). Qed.

(** Changing or dropping the entry of a host. *)
Lemma update_spec now host f l p :
  policies_ok l -> nonul host -> p ∈ l -> key_of (sp_host p) = key_of host ->
  (forall q, f p = Some q -> sp_host q = sp_host p) ->
  live now (update_host host f l) =
    match f p with
    | Some q => if expired now q then delete (key_of host) (live now l)
                else <[key_of host := (sp_port q, expires q)]> (live now l)
    | None => delete (key_of host) (live now l)
    end /\
  keys (update_host host f l) `sublist_of` keys l /\ Forall (fun p => nonul (sp_host p)) (update_host host f l).
Proof.
  intros [Hnd Hf] Hn Hin Hkey Hq. induction Hf as [|x l Hx Hl IH]; [by apply not_elem_of_nil in Hin|].
  cbn [keys map] in Hnd. apply NoDup_cons in Hnd as [Hk Hnd]. cbn [update_host].
  pose proof (same_host_key host x Hn Hx) as Hs. rewrite live_cons. apply elem_of_cons in Hin. destruct (same_host host x).
  - pose proof (proj1 Hs eq_refl) as Hxk. destruct Hin as [->|Hin].
    2: { apply elem_keys in Hin. rewrite Hkey, <- Hxk in Hin. done. }
    rewrite Hxk in Hk |- *. pose proof (live_absent now l _ Hk) as Habs. split_and!.
    + destruct (f x) as [q|] eqn:Hfx; cbn [option_list option_rect from_option app].
      * rewrite live_cons, (Hq q) by done. rewrite Hxk. destruct (expired now q), (expired now x);
          rewrite ?delete_insert_eq, ?insert_insert_eq, ?delete_id by done; done.
      * destruct (expired now x); [by rewrite delete_id|]. by rewrite delete_insert_eq, delete_id.
    + destruct (f x) as [q|] eqn:Hfx; cbn [option_list option_rect from_option app keys map]; [by rewrite (Hq q)|by apply sublist_cons].
    + destruct (f x) as [q|] eqn:Hfx; cbn [option_list option_rect from_option app]; [constructor; [by rewrite (Hq q)|done]|done].
  - assert (Hne : key_of (sp_host x) <> key_of host) by (intros E'; apply Hs in E'; congruence).
    destruct Hin as [->|Hin]; [congruence|]. destruct (IH Hnd Hin) as (I1 & I2 & I3).
    split_and!; [|by apply sublist_skip|by constructor]. rewrite live_cons, I1.
    destruct (expired now x); [done|]. destruct (f p) as [q|]; [destruct (expired now q)|];
      rewrite ?delete_insert_ne, ?(insert_insert_ne _ _ (key_of host)) by congruence; done.
Qed.

(** *** Sequences of calls *)

Inductive sts_call :=
| StsAdd (host : cstr) (port duration : Z)
| StsCheck (host : cstr)
| StsRemove (host : cstr).

Definition sts_exec (now : Z) (c : sts_call) (l : list sts_policy) : list sts_policy :=
  match c with
  | StsAdd host port duration => sts_policy_add now host port duration l
  | StsCheck host => (sts_policy_check now host l).1
  | StsRemove host => sts_policy_remove now host l
  end.

(** The same on the map of the policies in force. *)
Definition map_exec (now : Z) (c : sts_call) (m : gmap cstr (Z * Z)) : gmap cstr (Z * Z) :=
  match c with
  | StsAdd host port duration =>
      if port <=? 0 then m
      else
        let until := if 0 <? duration then now + duration
                     else if duration <? 0 then default 0 (snd <$> m !! key_of host) else 0 in
        <[key_of host := (port, until)]> m
  | StsCheck _ => m
  | StsRemove host => delete (key_of host) m
  end.

Definition call_host (c : sts_call) : cstr := match c with StsAdd h _ _ | StsCheck h | StsRemove h => h end.

Lemma add_spec now host port duration l :
  0 <= now -> policies_ok l -> nonul host ->
  policies_ok (sts_policy_add now host port duration l) /\
  live now (sts_policy_add now host port duration l) = map_exec now (StsAdd host port duration) (live now l).
Proof.
  intros Hnow Hok Hn. unfold sts_policy_add, map_exec. destruct (port <=? 0); [done|].
  pose proof (find_live now host l Hok Hn) as Hfl. pose proof (find_ok now host l Hok) as Hok'.
  destruct (sts_policy_find now host l) as [l' [p|]]; cbn [fst] in Hok'; destruct Hfl as (F1 & F2 & F3).
  - destruct F3 as (Hin & Hkey & Hexp). set (f := fun p => Some (StsPolicy _ _ _)).
    destruct (update_spec now host f l' p Hok' Hn Hin Hkey) as (U1 & U2 & U3); [by intros q [= <-]|].
    split; [split; [eapply sublist_NoDup; [apply Hok'|done]|done]|]. rewrite U1, F2. cbn [f expires sp_port].
    rewrite <- F1. cbn [fmap option_fmap option_map snd default from_option].
    destruct (duration <? 0) eqn:Hd.
    + replace (0 <? duration) with false by lia. change (expired now (StsPolicy (sp_host p) port (expires p))) with (expired now p).
      by rewrite Hexp.
    + destruct (0 <? duration) eqn:Hd2; [|done]. unfold expired. cbn [expires]. rewrite andb_comm.
      by replace (now + duration <? now) with false by lia.
  - destruct Hok' as [K1 K2]. split; [split; [by apply NoDup_cons|by constructor]|]. rewrite live_cons, F2.
    cbn [sp_host sp_port expires]. rewrite <- F1. cbn [fmap option_fmap option_map default from_option].
    set (until := if 0 <? duration then now + duration else 0).
    assert (Hx : expired now (StsPolicy host port until) = false).
    { unfold expired, until. cbn [expires]. destruct (0 <? duration) eqn:Hd; [|done]. rewrite andb_comm.
      by replace (now + duration <? now) with false by lia. }
    rewrite Hx. unfold until. by destruct (0 <? duration), (duration <? 0).
Qed.

Lemma remove_spec now host l :
  policies_ok l -> nonul host ->
  policies_ok (sts_policy_remove now host l) /\ live now (sts_policy_remove now host l) = delete (key_of host) (live now l).
Proof.
  intros Hok Hn. unfold sts_policy_remove. pose proof (find_live now host l Hok Hn) as Hfl.
  pose proof (find_ok now host l Hok) as Hok'.
  destruct (sts_policy_find now host l) as [l' [p|]]; cbn [fst] in Hok'; destruct Hfl as (F1 & F2 & F3).
  - destruct F3 as (Hin & Hkey & Hexp).
    destruct (update_spec now host (fun _ => None) l' p Hok' Hn Hin Hkey) as (U1 & U2 & U3); [done|].
    split; [split; [eapply sublist_NoDup; [apply Hok'|done]|done]|]. by rewrite U1, F2.
  - split; [done|]. rewrite F2, delete_id; [done|]. rewrite <- F1. done.
Qed.

(** The list of policies is a map from hosts, in any case of letters, to the
    port and expiry last announced: at every instant every call does to the
    policies in force what the map operation does, a check answers the port of
    the policy in force, and no host ever has two entries. *)
Theorem sts_policies_are_a_map now c l :
  0 <= now -> policies_ok l -> nonul (call_host c) ->
  policies_ok (sts_exec now c l) /\ live now (sts_exec now c l) = map_exec now c (live now l) /\
  (sts_policy_check now (call_host c) l).2 = fst <$> live now l !! key_of (call_host c).
Proof.
  intros Hnow Hok Hn. apply and_assoc. split.
  - destruct c as [host port duration|host|host]; cbn [sts_exec call_host] in *; [by apply add_spec| |by apply remove_spec].
    unfold sts_policy_check. pose proof (find_live now host l Hok Hn) as Hfl. pose proof (find_ok now host l Hok) as Hok'.
    destruct (sts_policy_find now host l) as [l' found]. by destruct Hfl as (_ & F2 & _).
  - unfold sts_policy_check. pose proof (find_live now (call_host c) l Hok Hn) as Hfl.
    destruct (sts_policy_find now (call_host c) l) as [l' found]. destruct Hfl as (<- & _). by destruct found.
Qed.

(** ** The file *)

Lemma digit_value n : 0 <= n < 10 -> uchar (ascii_of_N (Z.to_N (48 + n))) = 48 + n.
Proof. intros Hn. unfold uchar. rewrite N_ascii_embedding, Z2N.id; lia. Qed.

Lemma decimal_digits fuel n acc :
  0 <= n -> Forall (fun c => isdigit c = true) acc -> Forall (fun c => isdigit c = true) (decimal fuel n acc).
Proof.
  revert n acc; induction fuel as [|fuel IH]; intros n acc Hn Hacc; [done|]. cbn [decimal].
  assert (Hc : Forall (fun c => isdigit c = true) (ascii_of_N (Z.to_N (48 + n mod 10)) :: acc)).
  { constructor; [|done]. pose proof (Z.mod_pos_bound n 10 ltac:(lia)) as Hm. unfold isdigit.
    rewrite (digit_value (n mod 10)) by lia. lia. }
  destruct (_ =? _); [done|]. apply IH; [|done]. by apply Z.div_pos.
Qed.

Lemma decimal_nonempty fuel n acc : (0 < fuel)%nat -> decimal fuel n acc <> [].
Proof.
  destruct fuel as [|fuel]; [lia|]. intros _. cbn [decimal]. destruct (_ =? _); [done|].
  assert (Hg : forall f n acc, acc <> [] -> decimal f n acc <> []).
  { induction f as [|f IHf]; intros m a Ha; [done|]. cbn [decimal]. destruct (_ =? _); [done|]. by apply IHf. }
  by apply Hg.
Qed.

Lemma atoi_digits_value s a :
  Forall (fun c => isdigit c = true) s -> atoi_digits s a = foldl (fun a c => a * 10 + (uchar c - 48)) a s.
Proof.
  intros Hs. revert a. induction Hs as [|c s Hc _ IH]; intros a; [done|]. cbn [atoi_digits foldl]. rewrite Hc, IH. f_equal. lia.
Qed.

Lemma digits_of fuel n :
  0 <= n < 10 ^ Z.of_nat fuel -> atoi_digits (decimal fuel n []) 0 = n.
Proof. intros Hn. rewrite atoi_digits_value by (apply decimal_digits; [lia|constructor]). by rewrite decimal_value. Qed.

Lemma digit_plain c :
  isdigit c = true ->
  blank c = false /\ (c =c " ") || ((9 <=? uchar c) && (uchar c <=? 13)) = false /\ (c =c "-") = false /\ (c =c "+") = false.
Proof.
  pose proof (all_bytes_forall (fun c => implb (isdigit c) (negb (blank c) &&
    negb ((c =c " ") || ((9 <=? uchar c) && (uchar c <=? 13))) && negb (c =c "-") && negb (c =c "+"))) ltac:(by vm_compute) c) as Hc.
  intros Hd. cbv beta in Hc. rewrite Hd in Hc. cbn [implb] in Hc. rewrite !andb_true_iff, !negb_true_iff in Hc. tauto.
Qed.

Lemma atoi_number n : 0 <= n < 2 ^ 31 -> atoi (int_text n) = n.
Proof.
  intros Hn. unfold int_text. replace (n <? 0) with false by lia.
  pose proof (decimal_digits 10 n [] ltac:(lia) ltac:(constructor)) as Hd.
  pose proof (digits_of 10 n ltac:(lia)) as Hv. pose proof (decimal_nonempty 10 n [] ltac:(lia)) as Hne.
  destruct (decimal 10 n []) as [|c s]; [done|]. apply Forall_cons in Hd as [Hc _].
  destruct (digit_plain c Hc) as (_ & E1 & E2 & E3). cbn [atoi]. rewrite E1, E2, E3, Hv.
  unfold strtol_int, wrap_i32. rewrite Z.max_r, Z.min_r by lia. rewrite Z.mod_small; lia.
Qed.

Lemma strtoll_number n : 0 <= n < 2 ^ 63 -> strtoll (int64_text n) = n.
Proof.
  intros Hn. unfold int64_text. replace (n <? 0) with false by lia.
  pose proof (decimal_digits 19 n [] ltac:(lia) ltac:(constructor)) as Hd.
  pose proof (digits_of 19 n ltac:(lia)) as Hv. pose proof (decimal_nonempty 19 n [] ltac:(lia)) as Hne.
  destruct (decimal 19 n []) as [|c s]; [done|]. apply Forall_cons in Hd as [Hc _].
  destruct (digit_plain c Hc) as (_ & _ & E2 & E3). unfold strtoll. rewrite E2, E3, Hv. lia.
Qed.

(** *** Lines and tokens *)

Lemma fgets_line room line rest :
  (LF ∉ line) -> (length line < room)%nat -> fgets room (line ++ LF :: rest) = (line ++ [LF], rest).
Proof.
  revert room; induction line as [|c line IH]; intros [|room] Hn Hl; simpl in *; try lia; [done|].
  apply not_elem_of_cons in Hn as [Hc Hn]. destruct (Ascii.eqb_spec c LF); [congruence|].
  rewrite IH; [done|done|lia].
Qed.

Lemma fgets_all_step fuel room s :
  s <> [] -> fgets_all (S fuel) room s = (fgets room s).1 :: fgets_all fuel room (fgets room s).2.
Proof. intros Hs. destruct s; [done|]. cbn [fgets_all]. by destruct (fgets _ _). Qed.

Lemma fgets_lines fuel room lines :
  Forall (fun l => (LF ∉ l) /\ (length l < room)%nat) lines -> (length (concat (map (fun l => l ++ [LF]) lines)) <= fuel)%nat ->
  fgets_all fuel room (concat (map (fun l => l ++ [LF]) lines)) = map (fun l => l ++ [LF]) lines.
Proof.
  intros Hl. revert fuel. induction Hl as [|l lines [Hn Hlen] _ IH]; intros fuel Hf; [by destruct fuel|].
  cbn [map concat] in *. rewrite !length_app in Hf. destruct fuel as [|fuel]; [simpl in Hf; lia|].
  replace ((l ++ [LF]) ++ concat (map (fun l => l ++ [LF]) lines)) with (l ++ LF :: concat (map (fun l => l ++ [LF]) lines))
    by by rewrite <- app_assoc.
  rewrite fgets_all_step by (by destruct l). rewrite fgets_line by done. cbn [fst snd]. f_equal. apply IH. simpl in Hf. lia.
Qed.

Definition solid (w : cstr) : Prop := Forall (fun c => blank c = false) w.

Lemma strtok_word cur w c s :
  solid w -> blank c = true -> cur ++ w <> [] -> strtok cur (w ++ c :: s) = (cur ++ w) :: strtok [] s.
Proof.
  intros Hw Hc. revert cur. induction Hw as [|x w Hx _ IH]; intros cur Hne; cbn [app strtok].
  - rewrite Hc. rewrite app_nil_r in *. by destruct cur.
  - rewrite Hx. rewrite IH; rewrite <- app_assoc; [done|]. by destruct cur.
Qed.

Lemma solid_int n : 0 <= n -> solid (int_text n) /\ int_text n <> [].
Proof.
  intros Hn. unfold int_text. replace (n <? 0) with false by lia. split; [|by apply decimal_nonempty; lia].
  eapply Forall_impl; [by apply decimal_digits|]. intros c Hc. by apply digit_plain.
Qed.

Lemma solid_int64 n : 0 <= n -> solid (int64_text n) /\ int64_text n <> [].
Proof.
  intros Hn. unfold int64_text. replace (n <? 0) with false by lia. split; [|by apply decimal_nonempty; lia].
  eapply Forall_impl; [by apply decimal_digits|]. intros c Hc. by apply digit_plain.
Qed.

(** A policy the client can have stored. *)
Record storable (p : sts_policy) : Prop := {
  st_host : solid (sp_host p) /\ sp_host p <> [];
  st_port : 0 < sp_port p < 2 ^ 31;
  st_expires : 0 <= expires p < 2 ^ 63;
  st_length : (length (policy_line p) <= 511)%nat }.

Definition bare_line (p : sts_policy) : cstr := sp_host p ++ " "%char :: int_text (sp_port p) ++ " "%char :: int64_text (expires p).

Lemma policy_line_bare p : policy_line p = bare_line p ++ [LF].
Proof. unfold policy_line, bare_line, fmt. cbn [concat]. rewrite app_nil_r, <- !app_assoc. cbn. by rewrite <- !app_assoc. Qed.

Lemma solid_lf w : solid w -> LF ∉ w.
Proof. intros Hw Hin. unfold solid in Hw. rewrite Forall_forall in Hw. specialize (Hw _ Hin). by vm_compute in Hw. Qed.

Lemma bare_line_lf p : storable p -> LF ∉ bare_line p.
Proof.
  intros [[H1 _] H2 H3 _]. destruct (solid_int (sp_port p) ltac:(lia)) as [H4 _], (solid_int64 (expires p) ltac:(lia)) as [H5 _].
  apply solid_lf in H1, H4, H5. unfold bare_line. repeat (rewrite not_elem_of_app || rewrite not_elem_of_cons). split_and!; done.
Qed.

Lemma strtok_line p :
  storable p -> strtok [] (policy_line p) = [sp_host p; int_text (sp_port p); int64_text (expires p)].
Proof.
  intros [[H1 H1'] H2 H3 _]. destruct (solid_int (sp_port p) ltac:(lia)) as [H4 H4'].
  destruct (solid_int64 (expires p) ltac:(lia)) as [H5 H5']. rewrite policy_line_bare. unfold bare_line.
  rewrite <- app_assoc. cbn [app]. rewrite (strtok_word [] (sp_host p)) by done. cbn [app]. f_equal.
  rewrite <- app_assoc. cbn [app]. rewrite (strtok_word [] (int_text _)) by done. cbn [app]. f_equal.
  by rewrite (strtok_word [] (int64_text _)) by done.
Qed.

Lemma find_absent now host l : nonul host -> Forall (fun p => nonul (sp_host p)) l -> key_of host ∉ keys l ->
  sts_policy_find now host l = (l, None).
Proof.
  intros Hn Hf. induction Hf as [|p l Hp _ IH]; [done|]. cbn [keys map]. intros [Hk Hl]%not_elem_of_cons.
  cbn [sts_policy_find]. destruct (same_host host p) eqn:E; [apply (same_host_key host p Hn Hp) in E; congruence|].
  by rewrite IH.
Qed.

Lemma load_line now l p :
  storable p -> nonul (sp_host p) -> Forall (fun p => nonul (sp_host p)) l -> key_of (sp_host p) ∉ keys l ->
  load_policy now l (policy_line p) = if kept now p || (expires p =? 0) then p :: l else l.
Proof.
  intros Hs Hn Hf Hk. unfold load_policy, kept. rewrite strtok_line by done. destruct Hs as [_ H2 H3 _].
  rewrite strtoll_number, atoi_number by lia.
  replace (negb (expires p =? 0) && negb (expires p <? now) || (expires p =? 0))
    with (negb ((0 <? expires p) && (expires p <? now))) by lia.
  destruct ((0 <? expires p) && (expires p <? now)); [done|]. cbn [negb]. unfold sts_policy_add.
  replace (sp_port p <=? 0) with false by lia. rewrite find_absent by done. by destruct p.
Qed.

Lemma load_lines now ps l :
  Forall storable ps -> Forall (fun p => 0 < expires p) ps -> policies_ok (rev ps ++ l) ->
  foldl (load_policy now) l (map policy_line ps) = rev (List.filter (kept now) ps) ++ l.
Proof.
  intros Hs He. revert l. induction ps as [|p ps IH]; intros l Hok; [done|].
  apply Forall_cons in Hs as [Hs Hss], He as [He Hes]. cbn [rev] in Hok. rewrite <- app_assoc in Hok. cbn [app] in Hok.
  cbn [map foldl List.filter]. assert (Hok' : policies_ok (p :: l)).
  { destruct Hok as [Hnd Hf]. apply Forall_app in Hf as [_ Hf]. split; [|done]. unfold keys in *.
    rewrite map_app in Hnd. by apply NoDup_app in Hnd as (_ & _ & Hnd). }
  destruct Hok' as [[Hk _]%NoDup_cons [Hn Hl]%Forall_cons]. rewrite load_line by done.
  replace (expires p =? 0) with false by lia. rewrite orb_false_r. destruct (kept now p).
  - rewrite IH by done. cbn [rev]. by rewrite <- app_assoc.
  - apply IH; [done..|]. destruct Hok as [Hnd Hf]. split.
    + eapply sublist_NoDup; [exact Hnd|]. unfold keys. rewrite !map_app. apply sublist_app; [done|]. by apply sublist_cons.
    + apply Forall_app in Hf as [Hf1 Hf2]. apply Forall_cons in Hf2 as [_ Hf2]. by apply Forall_app.
Qed.

(** The policies survive a restart: reading, at any later time, the file the
    client wrote gives back exactly the policies that were dated and have not
    expired since, each with its host, port and expiry; session-only policies
    are not written. *)
Theorem sts_file_roundtrip now later l :
  now <= later -> policies_ok l -> Forall storable l ->
  sts_policy_init later (sts_policy_save now l) [] =
    rev (List.filter (fun p => negb (expires p =? 0) && (later <=? expires p)) l).
Proof.
  intros Hnow Hok Hs. unfold sts_policy_init, sts_policy_save. set (ps := List.filter (kept now) l).
  assert (Hin : forall p, p ∈ ps -> p ∈ l /\ kept now p = true).
  { intros p Hp. unfold ps in Hp. rewrite list_elem_of_In, filter_In in Hp. by rewrite list_elem_of_In. }
  assert (Hsp : Forall storable ps).
  { rewrite Forall_forall in *. intros p Hp. by apply Hs, Hin. }
  replace (map policy_line ps) with (map (fun l => l ++ [LF]) (map bare_line ps)).
  2: { rewrite map_map. apply map_ext. intros p. by rewrite policy_line_bare. }
  rewrite fgets_lines; [|rewrite Forall_map; eapply Forall_impl; [exact Hsp|]|done].
  2: { intros p Hp. cbn. split; [by apply bare_line_lf|]. pose proof (st_length _ Hp) as Hl.
       rewrite policy_line_bare, length_app in Hl. simpl in Hl. lia. }
  rewrite map_map. rewrite (map_ext _ policy_line) by (intros p; by rewrite policy_line_bare).
  assert (Hsub : ps `sublist_of` l).
  { unfold ps. clear. induction l as [|p l IH]; [done|]. cbn [List.filter]. destruct (kept now p); [by apply sublist_skip|by apply sublist_cons]. }
  rewrite load_lines; [|done| |].
  - rewrite app_nil_r. f_equal. unfold ps. clear -Hnow. induction l as [|p l IH]; [done|]. cbn [List.filter].
    destruct (kept now p) eqn:Hk; cbn [List.filter]; unfold kept in *.
    + destruct (negb (expires p =? 0) && negb (expires p <? later)) eqn:E;
        (replace (negb (expires p =? 0) && (later <=? expires p)) with (negb (expires p =? 0) && negb (expires p <? later)) by lia);
        rewrite E, IH; done.
    + replace (negb (expires p =? 0) && (later <=? expires p)) with false by lia. done.
  - apply Forall_forall. intros p Hp. destruct (Hin p Hp) as [Hl Hk]. rewrite Forall_forall in Hs.
    pose proof (st_expires _ (Hs p Hl)) as He. unfold kept in Hk. lia.
  - rewrite app_nil_r. destruct Hok as [Hnd Hf]. split.
    + unfold keys. rewrite map_rev. apply NoDup_ListNoDup, List.NoDup_rev, NoDup_ListNoDup.
      eapply sublist_NoDup; [exact Hnd|]. unfold keys. by apply (fmap_sublist (fun p => key_of (sp_host p))).
    + apply Forall_rev. rewrite Forall_forall in *. intros p Hp. by apply Hf, Hin.
Qed.
End policies.

(** ** Concrete policies *)

Definition policy (host : string) (port until : Z) : sts_policy := StsPolicy (list_ascii_of_string host) port until.

#[export] Instance policies_ok_dec l : Decision (policies_ok l).
Proof. unfold policies_ok, nonul. apply _. Defined.

Lemma storable_iff p :
  (Forall (fun c => blank c = false) (sp_host p) /\ sp_host p <> []) /\ 0 < sp_port p < 2 ^ 31 /\ 0 <= expires p < 2 ^ 63 /\
    (length (policy_line p) <= 511)%nat <-> storable p.
Proof. split; [by intros (? & ? & ? & ?)|by intros []]. Qed.

#[export] Instance storable_dec p : Decision (storable p).
Proof.
  refine (match decide ((Forall (fun c => blank c = false) (sp_host p) /\ sp_host p <> []) /\ 0 < sp_port p < 2 ^ 31 /\
    0 <= expires p < 2 ^ 63 /\ (length (policy_line p) <= 511)%nat) with
  | left Hp => left (proj1 (storable_iff p) Hp)
  | right Hp => right (fun Hs => Hp (proj2 (storable_iff p) Hs))
  end).
Defined.

Definition two_policies : list sts_policy := [policy "irc.a.org" 6697 500; policy "irc.b.org" 7000 0; policy "Irc.C.org" 6697 900].

Lemma sts_file_roundtrip_witness :
  sts_policy_init 600 (sts_policy_save 100 two_policies) [] = [policy "Irc.C.org" 6697 900].
Proof. rewrite (sts_file_roundtrip 100 600 two_policies); [by vm_compute|lia|..]; by apply (bool_decide_unpack _); vm_compute. Defined.

(** An update in another case, and a check that drops an expired policy. *)
Lemma sts_policies_are_a_map_witness :
  live 600 (sts_exec 600 (StsAdd "IRC.c.ORG" 6698 0) two_policies) =
    <[("irc.c.org" : cstr) := (6698, 0)]> (live 600 two_policies) /\
  (sts_policy_check 600 "irc.a.org" two_policies).2 = None.
Proof.
  destruct (sts_policies_are_a_map 600 (StsAdd "IRC.c.ORG" 6698 0) two_policies) as (_ & E1 & _);
    [lia|by apply (bool_decide_unpack _); vm_compute..|].
  destruct (sts_policies_are_a_map 600 (StsCheck "irc.a.org") two_policies) as (_ & _ & E2);
    [lia|by apply (bool_decide_unpack _); vm_compute..|].
  split; [exact E1|]. cbn [call_host] in E2. rewrite E2. by vm_compute.
Defined.

(** The expiry read from a line goes to the first policy of the list even when
    the line updated another one: here the policy of a loses its date and that of
    b gets it. *)
Theorem sts_init_dates_the_wrong_host :
  sts_policy_init 0 (("a 6697 100" : cstr) ++ [LF] ++ ("b 6697 200" : cstr) ++ [LF] ++ ("a 6698 300" : cstr) ++ [LF]) [] =
    [policy "b" 6697 300; policy "a" 6698 0].
Proof. by vm_compute. Qed.
