(* ===== verification/Scram.v ===== *)
(** * SCRAM (src/common/scram.c)

    The client's side of the Salted Challenge Response exchange.  Digests, HMAC,
    PBKDF2 and random bytes are OpenSSL's, base64 is GLib's: interfaces with
    their documented laws.  Messages are C strings, digests are byte lists.
    [None] is undefined behaviour. *)
From S2P Require Import Prelude Glib Text Modes Isupport Server Proto.

(** ** Libraries *)

Class OpenSSL := {
  (** size of a digest by name, when it is known *)
  evp_md_size : cstr -> option nat;
  evp_digest : cstr -> list ascii -> list ascii;
  (** digest, key, data *)
  hmac : cstr -> list ascii -> list ascii -> list ascii;
  (** digest, password, salt, iterations; [None] when it fails *)
  pkcs5_pbkdf2_hmac : cstr -> cstr -> list ascii -> Z -> option (list ascii) }.

Class OpenSSLLaws (O : OpenSSL) : Prop := {
  evp_digest_length d n x : evp_md_size d = Some n -> length (evp_digest d x) = n;
  hmac_length d n k x : evp_md_size d = Some n -> length (hmac d k x) = n;
  pbkdf2_positive d n p s i :
    evp_md_size d = Some n -> 0 < i < 2 ^ 31 -> is_Some (pkcs5_pbkdf2_hmac d p s i) }.

Class Base64 := { g_base64_encode : list ascii -> cstr; g_base64_decode : cstr -> list ascii }.

Class Base64Laws (B : Base64) : Prop := {
  g_base64_roundtrip s : g_base64_decode (g_base64_encode s) = s;
  g_base64_alphabet s : Forall (fun c => (c ∈ tab64) \/ c = "="%char) (g_base64_encode s);
  g_base64_nonempty s : s <> [] -> g_base64_encode s <> [];
  g_base64_quads s : exists k, length (g_base64_encode s) = (4 * k)%nat }.

(** RFC 4648. *)
Fixpoint base64_ref (s : list ascii) : cstr :=
  match s with
  | a :: b :: c :: s =>
      [tab64_at (uchar a / 4); tab64_at (uchar a mod 4 * 16 + uchar b / 16);
       tab64_at (uchar b mod 16 * 4 + uchar c / 64); tab64_at (uchar c mod 64)] ++ base64_ref s
  | [a; b] => [tab64_at (uchar a / 4); tab64_at (uchar a mod 4 * 16 + uchar b / 16); tab64_at (uchar b mod 16 * 4); "="%char]
  | [a] => [tab64_at (uchar a / 4); tab64_at (uchar a mod 4 * 16); "="%char; "="%char]
  | [] => []
  end.

#[export] Instance base64_glib : Base64 := {| g_base64_encode := base64_ref; g_base64_decode := base64_decode |}.

(** ** State *)

Record scram_session := Scram {
  digest : cstr; digest_size : nat; username : cstr; scram_password : cstr;
  client_nonce_b64 : option cstr; client_first_message_bare : option cstr;
  salted_password : option (list ascii); auth_message : option cstr;
  scram_error : option cstr; step : Z }.

Inductive scram_status := SCRAM_ERROR | SCRAM_IN_PROGRESS | SCRAM_SUCCESS.

Definition NONCE_LENGTH : nat := 18.
Definition CLIENT_KEY : cstr := "Client Key".
Definition SERVER_KEY : cstr := "Server Key".

Section scram.
Context `{GLib, OpenSSL, Base64}.

Definition scram_session_create (digest username password : cstr) : option scram_session :=
  size ← evp_md_size digest;
  Some (Scram digest size username password None None None None None 0).

Definition fail_with (error : option cstr) (s : scram_session) : scram_session * scram_status * option cstr :=
  (Scram (digest s) (digest_size s) (username s) (scram_password s) (client_nonce_b64 s) (client_first_message_bare s)
     (salted_password s) (auth_message s) error (step s), SCRAM_ERROR, None).

(** [rand] is what [RAND_bytes] delivers. *)
Definition process_client_first (rand : option (list ascii)) (s : scram_session) : scram_session * scram_status * option cstr :=
  match rand with
  | None => fail_with (Some ("Could not create client nonce" : cstr)) s
  | Some nonce =>
      let nonce_b64 := g_base64_encode nonce in
      let output := fmt [("n,,n=" : cstr); username s; (",r=" : cstr); nonce_b64] in
      (Scram (digest s) (digest_size s) (username s) (scram_password s) (Some nonce_b64) (Some (drop 3 output))
         (salted_password s) (auth_message s) (scram_error s) (step s + 1), SCRAM_IN_PROGRESS, Some output)
  end.

(** [strtoul (s, NULL, 10)] stored in an unsigned int. *)
Fixpoint strtoul_u32 (s : cstr) : Z :=
  match s with
  | c :: s' =>
      if (c =c " ") || ((9 <=? uchar c) && (uchar c <=? 13)) then strtoul_u32 s'
      else
        let cut n := Z.min (2 ^ 64 - 1) n in
        if c =c "-" then let n := atoi_digits s' 0 in wrap_u32 (if 2 ^ 64 - 1 <? n then 2 ^ 64 - 1 else - n)
        else if c =c "+" then wrap_u32 (cut (atoi_digits s' 0))
        else wrap_u32 (cut (atoi_digits s 0))
  | [] => 0
  end.

(** The parameters r=, s= and i= of the server's first message, the last of each. *)
Record first_params := FirstParams { fp_nonce : option cstr; fp_salt : option cstr; fp_iterations : Z }.

Definition first_param (p : first_params) (param : cstr) : first_params :=
  match after_prefix "r=" param, after_prefix "s=" param, after_prefix "i=" param with
  | Some r, _, _ => FirstParams (Some r) (fp_salt p) (fp_iterations p)
  | None, Some s, _ => FirstParams (fp_nonce p) (Some s) (fp_iterations p)
  | None, None, Some i => FirstParams (fp_nonce p) (fp_salt p) (strtoul_u32 i)
  | None, None, None => p
  end.

Definition xor_byte (a b : ascii) : ascii := ascii_of_N (N.lxor (N_of_ascii a) (N_of_ascii b)).
Definition xor_bytes (a b : list ascii) : list ascii := zip_with xor_byte a b.

Definition process_server_first (data : cstr) (s : scram_session) : option (scram_session * scram_status * option cstr) :=
  let params := g_strsplit data "," in
  let invalid := Some (fail_with (Some (fmt [("Invalid server-first-message: " : cstr); data])) s) in
  if Nat.ltb (length params) 3 then invalid
  else
    let p := foldl first_param (FirstParams None None 0) params in
    match fp_nonce p, fp_salt p with
    | Some ((_ :: _) as server_nonce), Some ((_ :: _) as salt) =>
        if fp_iterations p =? 0 then invalid
        else
          nonce ← client_nonce_b64 s;
          match after_prefix nonce server_nonce with
          | None => Some (fail_with (Some (fmt [("Invalid server nonce: " : cstr); server_nonce])) s)
          | Some _ =>
              (* the result of PBKDF2 is not looked at: a failure leaves the buffer unset *)
              salted ← pkcs5_pbkdf2_hmac (digest s) (scram_password s) (g_base64_decode salt) (wrap_i32 (fp_iterations p));
              bare ← client_first_message_bare s;
              let without_proof := fmt [("c=biws,r=" : cstr); server_nonce] in
              let auth := fmt [bare; ("," : cstr); data; ("," : cstr); without_proof] in
              let client_key := hmac (digest s) salted CLIENT_KEY in
              let stored_key := evp_digest (digest s) client_key in
              let client_signature := hmac (digest s) stored_key auth in
              let proof := xor_bytes client_key client_signature in
              Some (Scram (digest s) (digest_size s) (username s) (scram_password s) (client_nonce_b64 s)
                      (client_first_message_bare s) (Some salted) (Some auth) (scram_error s) (step s + 1),
                    SCRAM_IN_PROGRESS, Some (fmt [without_proof; (",p=" : cstr); g_base64_encode proof]))
          end
    | _, _ => invalid
    end.

Definition process_server_final (data : cstr) (s : scram_session) : option (scram_session * scram_status * option cstr) :=
  match data with
  | d0 :: d1 :: ((_ :: _) as verifier) =>
      if negb (d0 =c "v") && negb (d1 =c "=") then Some (s, SCRAM_ERROR, None)
      else
        salted ← salted_password s;
        auth ← auth_message s;
        let server_key := hmac (digest s) salted SERVER_KEY in
        let server_signature := hmac (digest s) server_key auth in
        Some (s, if bool_decide (g_base64_decode verifier = server_signature) then SCRAM_SUCCESS else SCRAM_ERROR, None)
  | _ => Some (s, SCRAM_ERROR, None)
  end.

Definition scram_process (rand : option (list ascii)) (input : cstr) (s : scram_session)
    : option (scram_session * scram_status * option cstr) :=
  if step s =? 0 then Some (process_client_first rand s)
  else if step s =? 1 then process_server_first input s
  else if step s =? 2 then process_server_final input s
  else Some (s, SCRAM_ERROR, None).
End scram.
