(* ===== verification/ScramSpec.v ===== *)
(** * Correctness of the SCRAM client

    Against a server that follows RFC 5802 the exchange succeeds on both sides,
    and the client accepts nothing else. *)
From S2P Require Import Prelude Glib Text Modes Isupport Server Proto Sts Scram.

(** ** base64 *)

Lemma base64_ref_roundtrip s : base64_decode (base64_ref s) = s.
Proof.
  assert (Hb : forall c, 0 <= uchar c < 256) by (intros c; pose proof (uchar_bound c); lia).
  assert (Hof : forall c z, z = uchar c -> ascii_of_N (Z.to_N z) = c) by (intros c z ->; apply uchar_of).
  revert s. apply list_ind3; cbn [base64_ref app base64_decode]; [done| | |].
  - intros a. pose proof (Hb a). rewrite Ascii.eqb_refl, !digit64_at by (Z.to_euclidean_division_equations; lia).
    unfold bytes3. cbn [map take]. f_equal. apply Hof. Z.to_euclidean_division_equations; lia.
  - intros a b. pose proof (Hb a). pose proof (Hb b).
    rewrite digit64_pad, Ascii.eqb_refl, !digit64_at by (Z.to_euclidean_division_equations; lia).
    unfold bytes3. cbn [map take]. f_equal; [|f_equal]; apply Hof; Z.to_euclidean_division_equations; lia.
  - intros a b c s IH. pose proof (Hb a). pose proof (Hb b). pose proof (Hb c).
    rewrite !digit64_pad, !digit64_at by (Z.to_euclidean_division_equations; lia). rewrite IH.
    unfold bytes3. cbn [map app]. f_equal; [|f_equal; [|f_equal]]; apply Hof; Z.to_euclidean_division_equations; lia.
Qed.

Lemma tab64_at_in i : 0 <= i < 64 -> tab64_at i ∈ tab64.
Proof.
  intros Hi. assert (Hall : forallb (fun n => existsb (Ascii.eqb (tab64_at (Z.of_nat n))) tab64) (seq 0 64) = true) by by vm_compute.
  rewrite forallb_forall in Hall. specialize (Hall (Z.to_nat i)). rewrite Z2Nat.id in Hall by lia.
  assert (Hin : In (Z.to_nat i) (seq 0 64)) by (apply in_seq; lia). specialize (Hall Hin).
  apply existsb_exists in Hall as (c & Hc & E). apply Ascii.eqb_eq in E as ->. by apply list_elem_of_In.
Qed.

#[export] Instance base64_glib_laws : Base64Laws base64_glib.
Proof.
  assert (Hb : forall c, 0 <= uchar c < 256) by (intros c; pose proof (uchar_bound c); lia).
  split.
  - apply base64_ref_roundtrip.
  - cbn [g_base64_encode base64_glib]. apply list_ind3; cbn [base64_ref app]; [constructor| | |].
    + intros a. pose proof (Hb a). repeat (constructor; [first [by right|left; apply tab64_at_in; Z.to_euclidean_division_equations; lia]|]). constructor.
    + intros a b. pose proof (Hb a). pose proof (Hb b). repeat (constructor; [first [by right|left; apply tab64_at_in; Z.to_euclidean_division_equations; lia]|]). constructor.
    + intros a b c s IH. pose proof (Hb a). pose proof (Hb b). pose proof (Hb c).
      repeat (constructor; [left; apply tab64_at_in; Z.to_euclidean_division_equations; lia|]). done.
  - intros [|a [|b [|c s]]]; done.
  - cbn [g_base64_encode base64_glib]. apply list_ind3; cbn [base64_ref app]; [by exists 0%nat|by exists 1%nat..|].
    intros a b c s [k Hk]. exists (S k). cbn [length]. rewrite Hk. lia.
Qed.

(** ** A server of RFC 5802 *)

Section exchange.
Context `{GL : GLib} `{!GLibLaws GL} `{O : OpenSSL} `{!OpenSSLLaws O} `{B : Base64} `{!Base64Laws B}.

(** RFC 5802, 5.1: a user name is not empty; a comma in it is written =2C and an equals sign =3D,
    and authentication fails for any other equals sign. *)
Fixpoint saslname (s : cstr) : option cstr :=
  match s with
  | [] => Some []
  | c :: s =>
      if c =c "=" then
        match s with
        | x :: y :: s =>
            if (x =c "2") && (y =c "C") then cons ","%char <$> saslname s
            else if (x =c "3") && (y =c "D") then cons "="%char <$> saslname s
            else None
        | _ => None
        end
      else if (c =c ",") || (c =c NUL) then None
      else cons c <$> saslname s
  end.

(** A name that is written as it is. *)
Definition plain_saslname (user : cstr) : Prop :=
  user <> [] /\ (","%char ∉ user) /\ ("="%char ∉ user) /\ nonul user.

Lemma saslname_plain user : (","%char ∉ user) -> ("="%char ∉ user) -> nonul user -> saslname user = Some user.
Proof.
  induction user as [|c user IH]; intros Hc He Hn; [done|]. cbn [saslname].
  apply not_elem_of_cons in Hc as [Hc Hcs], He as [He Hes]. apply nonul_cons in Hn as [Hn Hns].
  destruct (Ascii.eqb_spec c "="), (Ascii.eqb_spec c ","), (Ascii.eqb_spec c NUL); try congruence.
  by rewrite IH.
Qed.

(** What it stores of a user and his password. *)
Record credentials := Credentials {
  cr_user : cstr; cr_digest : cstr; cr_salt : list ascii; cr_iterations : Z; cr_stored_key : list ascii; cr_server_key : list ascii }.

Definition enroll (user d password : cstr) (salt : list ascii) (i : Z) : option credentials :=
  salted ← pkcs5_pbkdf2_hmac d password salt i;
  Some (Credentials user d salt i (evp_digest d (hmac d salted CLIENT_KEY)) (hmac d salted SERVER_KEY)).

(** The client's first message without its header, and the answer to it. *)
Definition server_first (cr : credentials) (snonce message : cstr) : option (cstr * cstr) :=
  bare ← after_prefix "n,," message;
  match g_strsplit bare "," with
  | [n; r] =>
      name ← after_prefix "n=" n;
      user ← saslname name;
      nonce ← after_prefix "r=" r;
      if bool_decide (user = []) || negb (bool_decide (user = cr_user cr)) then None
      else Some (bare, fmt [("r=" : cstr); nonce; snonce; (",s=" : cstr); g_base64_encode (cr_salt cr); (",i=" : cstr);
                       int_text (cr_iterations cr)])
  | _ => None
  end.

(** The check of the client's proof, and the signature that answers it. *)
Definition server_final (cr : credentials) (bare first message : cstr) : option cstr :=
  match g_strsplit message ",", g_strsplit first "," with
  | [c; r; p], nonce :: _ =>
      proof ← after_prefix "p=" p;
      if bool_decide (c = ("c=biws" : cstr)) && bool_decide (r = nonce) then
        let auth := fmt [bare; ("," : cstr); first; ("," : cstr); c; ("," : cstr); r] in
        let client_key := xor_bytes (g_base64_decode proof) (hmac (cr_digest cr) (cr_stored_key cr) auth) in
        if bool_decide (evp_digest (cr_digest cr) client_key = cr_stored_key cr)
        then Some (fmt [("v=" : cstr); g_base64_encode (hmac (cr_digest cr) (cr_server_key cr) auth)]) else None
      else None
  | _, _ => None
  end.

(** ** Pieces *)

Lemma after_prefix_app pre s : after_prefix pre (pre ++ s) = Some s.
Proof. induction pre as [|c pre IH]; [done|]. simpl. by rewrite Ascii.eqb_refl. Qed.

Lemma base64_no_comma s : ","%char ∉ g_base64_encode s.
Proof.
  intros Hin. pose proof (g_base64_alphabet s) as Ha. rewrite Forall_forall in Ha.
  destruct (Ha _ Hin) as [Hc|Hc]; [|done]. by apply (bool_decide_eq_true_2 _) in Hc; vm_compute in Hc.
Qed.

Lemma digits_no_comma s : Forall (fun c => isdigit c = true) s -> ","%char ∉ s.
Proof. intros Hs Hin. rewrite Forall_forall in Hs. specialize (Hs _ Hin). by vm_compute in Hs. Qed.

Lemma xor_byte_twice a b : xor_byte (xor_byte a b) b = a.
Proof.
  apply Ascii.eqb_eq. revert b. apply (all_bytes_forall (fun b => xor_byte (xor_byte a b) b =c a)). revert a.
  apply (all_bytes_forall (fun a => forallb (fun b => xor_byte (xor_byte a b) b =c a) all_bytes)). by vm_compute.
Qed.

Lemma xor_bytes_twice a b : length a = length b -> xor_bytes (xor_bytes a b) b = a.
Proof.
  revert b; induction a as [|x a IH]; intros [|y b] Hl; try done. unfold xor_bytes in *. cbn [zip_with].
  rewrite xor_byte_twice, IH; [done|]. simpl in Hl. lia.
Qed.

Lemma strtoul_number n : 0 <= n < 2 ^ 31 -> strtoul_u32 (int_text n) = n.
Proof.
  intros Hn. unfold int_text. replace (n <? 0) with false by lia.
  pose proof (decimal_digits 10 n [] ltac:(lia) ltac:(constructor)) as Hd.
  pose proof (digits_of 10 n ltac:(lia)) as Hv. pose proof (decimal_nonempty 10 n [] ltac:(lia)) as Hne.
  destruct (decimal 10 n []) as [|c s]; [done|]. apply Forall_cons in Hd as [Hc _].
  destruct (digit_plain c Hc) as (_ & E1 & E2 & E3). cbn [strtoul_u32]. rewrite E1, E2, E3, Hv.
  unfold wrap_u32. rewrite Z.min_r by lia. rewrite Z.mod_small; lia.
Qed.

Lemma split_two a b : (","%char ∉ a) -> (","%char ∉ b) -> g_strsplit (a ++ ","%char :: b) "," = [a; b].
Proof.
  intros Ha Hb. pose proof (g_strsplit_pieces ","%char a [b]) as Hp. cbn [map concat] in Hp. rewrite app_nil_r in Hp.
  apply Hp; [by repeat constructor|by destruct a].
Qed.

Lemma split_three a b c :
  (","%char ∉ a) -> (","%char ∉ b) -> (","%char ∉ c) -> g_strsplit (a ++ ","%char :: b ++ ","%char :: c) "," = [a; b; c].
Proof.
  intros Ha Hb Hc. pose proof (g_strsplit_pieces ","%char a [b; c]) as Hp. cbn [map concat] in Hp. rewrite app_nil_r in Hp.
  cbn [app] in Hp. apply Hp; [by repeat constructor|by destruct a].
Qed.

(** The parameters of the server's first message, as the client reads them. *)
Lemma first_params_read nonce salt i :
  0 <= i < 2 ^ 31 ->
  foldl first_param (FirstParams None None 0) [("r=" : cstr) ++ nonce; ("s=" : cstr) ++ salt; ("i=" : cstr) ++ int_text i] =
    FirstParams (Some nonce) (Some salt) i.
Proof.
  intros Hi. cbn [foldl]. unfold first_param at 3. rewrite after_prefix_app. unfold first_param at 2.
  change (after_prefix "r=" (("s=" : cstr) ++ salt)) with (@None cstr). rewrite after_prefix_app. cbn [fp_nonce fp_iterations].
  unfold first_param. change (after_prefix "r=" (("i=" : cstr) ++ int_text i)) with (@None cstr).
  change (after_prefix "s=" (("i=" : cstr) ++ int_text i)) with (@None cstr). rewrite after_prefix_app.
  cbn [fp_nonce fp_salt]. by rewrite strtoul_number.
Qed.

(** *** The two halves *)

Lemma create_spec d user pw s0 :
  scram_session_create d user pw = Some s0 ->
  exists n, evp_md_size d = Some n /\ s0 = Scram d n user pw None None None None None 0.
Proof. unfold scram_session_create. destruct (evp_md_size d) as [n|]; [|done]. intros [= <-]. by exists n. Qed.

Lemma server_first_spec cr snonce user nonce :
  plain_saslname user -> cr_user cr = user ->
  let bare := fmt [("n=" : cstr); user; (",r=" : cstr); g_base64_encode nonce] in
  server_first cr snonce (fmt [("n,,n=" : cstr); user; (",r=" : cstr); g_base64_encode nonce]) =
    Some (bare, fmt [("r=" : cstr); g_base64_encode nonce; snonce; (",s=" : cstr); g_base64_encode (cr_salt cr); (",i=" : cstr);
      int_text (cr_iterations cr)]).
Proof.
  intros (Hne & Hu & He & Hnul) Hcr. cbn zeta. unfold server_first. change (fmt (("n,,n=" : cstr) :: ?l)) with (("n,," : cstr) ++ fmt (("n=" : cstr) :: l)).
  rewrite after_prefix_app. cbn [mbind option_bind].
  replace (fmt [("n=" : cstr); user; (",r=" : cstr); g_base64_encode nonce])
    with ((("n=" : cstr) ++ user) ++ ","%char :: ("r=" : cstr) ++ g_base64_encode nonce)
    by (unfold fmt; cbn [concat]; by rewrite app_nil_r, <- app_assoc).
  rewrite split_two; [|set_solver|].
  2: { pose proof (base64_no_comma nonce). set_solver. }
  rewrite (after_prefix_app "n=" user), (after_prefix_app "r="). cbn [mbind option_bind].
  rewrite saslname_plain by done. cbn [mbind option_bind].
  by rewrite Hcr, bool_decide_eq_false_2, bool_decide_eq_true_2.
Qed.

(** The session after the client's first message. *)
Definition waiting (d : cstr) (n : nat) (user pw N bare : cstr) : scram_session :=
  Scram d n user pw (Some N) (Some bare) None None None 1.

(** The server's first message, and the client's answer to it. *)
Definition first_text (S salt : cstr) (i : Z) : cstr := fmt [("r=" : cstr); S; (",s=" : cstr); salt; (",i=" : cstr); int_text i].
Definition proof_of (d : cstr) (salted : list ascii) (auth : cstr) : list ascii :=
  let client_key := hmac d salted CLIENT_KEY in xor_bytes client_key (hmac d (evp_digest d client_key) auth).

Lemma first_text_split S salt i :
  0 <= i < 2 ^ 31 -> (","%char ∉ S) -> (","%char ∉ salt) ->
  g_strsplit (first_text S salt i) "," = [("r=" : cstr) ++ S; ("s=" : cstr) ++ salt; ("i=" : cstr) ++ int_text i].
Proof.
  intros Hi HS Hs. unfold first_text, fmt. cbn [concat]. rewrite app_nil_r.
  change (("r=" : cstr) ++ S ++ (",s=" : cstr) ++ salt ++ (",i=" : cstr) ++ int_text i)
    with ((("r=" : cstr) ++ S) ++ ","%char :: (("s=" : cstr) ++ salt) ++ ","%char :: (("i=" : cstr) ++ int_text i)).
  apply split_three; [set_solver|set_solver|]. pose proof (digits_no_comma (int_text i)) as Hd. unfold int_text in *.
  replace (i <? 0) with false in * by lia. specialize (Hd (decimal_digits 10 i [] ltac:(lia) ltac:(constructor))). set_solver.
Qed.

Lemma server_first_accepted d n user pw N bare snonce salt i salted :
  0 < i < 2 ^ 31 -> (","%char ∉ N ++ snonce) -> (","%char ∉ salt) -> salt <> [] -> N ++ snonce <> [] ->
  pkcs5_pbkdf2_hmac d pw (g_base64_decode salt) i = Some salted ->
  let sf := first_text (N ++ snonce) salt i in
  let auth := fmt [bare; ("," : cstr); sf; ("," : cstr); ("c=biws,r=" : cstr); N ++ snonce] in
  process_server_first sf (waiting d n user pw N bare) =
    Some (Scram d n user pw (Some N) (Some bare) (Some salted) (Some auth) None 2, SCRAM_IN_PROGRESS,
      Some (fmt [("c=biws,r=" : cstr); N ++ snonce; (",p=" : cstr); g_base64_encode (proof_of d salted auth)])).
Proof.
  intros Hi HS Hs Hne HSne Hp. cbn zeta. unfold process_server_first. rewrite first_text_split by (done || lia).
  cbn [length Nat.ltb Nat.leb]. rewrite first_params_read by lia. cbn [fp_nonce fp_salt fp_iterations].
  destruct (N ++ snonce) as [|x S] eqn:ES; [done|]. destruct salt as [|y salt]; [done|]. rewrite <- ES in *.
  replace (i =? 0) with false by lia. cbn [waiting client_nonce_b64 mbind option_bind]. rewrite after_prefix_app.
  cbn [waiting digest scram_password client_first_message_bare username digest_size scram_error step].
  assert (Hw : wrap_i32 i = i) by (unfold wrap_i32; rewrite Z.mod_small; lia). rewrite Hw, Hp. cbn [mbind option_bind].
  assert (Ha : forall T, fmt [bare; ("," : cstr); T; ("," : cstr); fmt [("c=biws,r=" : cstr); N ++ snonce]] =
    fmt [bare; ("," : cstr); T; ("," : cstr); ("c=biws,r=" : cstr); N ++ snonce]).
  { intros T. unfold fmt. cbn [concat]. by rewrite !app_nil_r. }
  rewrite Ha. unfold proof_of. do 3 f_equal. unfold fmt. cbn [concat]. by rewrite !app_nil_r, <- !app_assoc.
Qed.

Lemma hmac_lengths d n salted auth :
  evp_md_size d = Some n ->
  length (hmac d salted CLIENT_KEY) = length (hmac d (evp_digest d (hmac d salted CLIENT_KEY)) auth).
Proof. intros Hn. by rewrite !(hmac_length d n). Qed.

(** The server recovers the client key from the proof. *)
Lemma server_final_accepts user d n pw salt i salted bare S :
  evp_md_size d = Some n -> 0 <= i < 2 ^ 31 -> (","%char ∉ S) -> pkcs5_pbkdf2_hmac d pw salt i = Some salted ->
  let cr := Credentials user d salt i (evp_digest d (hmac d salted CLIENT_KEY)) (hmac d salted SERVER_KEY) in
  let sf := first_text S (g_base64_encode salt) i in
  let auth := fmt [bare; ("," : cstr); sf; ("," : cstr); ("c=biws,r=" : cstr); S] in
  server_final cr bare sf (fmt [("c=biws,r=" : cstr); S; (",p=" : cstr); g_base64_encode (proof_of d salted auth)]) =
    Some (fmt [("v=" : cstr); g_base64_encode (hmac d (hmac d salted SERVER_KEY) auth)]).
Proof.
  intros Hn Hi HS Hp. cbn zeta. unfold server_final. set (proof := g_base64_encode _).
  replace (fmt [("c=biws,r=" : cstr); S; (",p=" : cstr); proof])
    with (("c=biws" : cstr) ++ ","%char :: (("r=" : cstr) ++ S) ++ ","%char :: (("p=" : cstr) ++ proof))
    by (unfold fmt; cbn [concat]; by rewrite app_nil_r, <- ?app_assoc).
  rewrite split_three; [|set_solver|set_solver|]. 2: { pose proof (base64_no_comma (proof_of d salted
    (fmt [bare; ("," : cstr); first_text S (g_base64_encode salt) i; ("," : cstr); ("c=biws,r=" : cstr); S]))). set_solver. }
  rewrite first_text_split by (done || apply base64_no_comma). rewrite after_prefix_app. cbn [mbind option_bind].
  rewrite !bool_decide_eq_true_2 by done. cbn [andb cr_digest cr_stored_key cr_server_key]. unfold proof.
  replace (fmt [bare; ("," : cstr); first_text S (g_base64_encode salt) i; ("," : cstr); ("c=biws" : cstr); ("," : cstr); ("r=" : cstr) ++ S])
    with (fmt [bare; ("," : cstr); first_text S (g_base64_encode salt) i; ("," : cstr); ("c=biws,r=" : cstr); S])
    by (unfold fmt; cbn [concat]; by rewrite !app_nil_r).
  rewrite g_base64_roundtrip. unfold proof_of. cbn zeta.
  rewrite xor_bytes_twice by by eapply hmac_lengths. by rewrite bool_decide_eq_true_2.
Qed.

(** C22. SCRAM authenticates both sides: against a server that follows RFC 5802
    and enrolled the user with the same password, for every user name that RFC writes
    as it is (without a comma or an equals sign: [comma_in_user_name],
    [equals_in_user_name]), nonces, salt and iteration count, the three messages of the client are accepted, the
    server recovers the stored key from the proof, and its signature makes the
    client report success. *)
Theorem scram_exchange_succeeds d n user pw nonce snonce salt i cr s0 :
  evp_md_size d = Some n -> plain_saslname user -> (","%char ∉ snonce) -> nonce <> [] -> salt <> [] -> 0 < i < 2 ^ 31 -> (0 < n)%nat ->
  scram_session_create d user pw = Some s0 -> enroll user d pw salt i = Some cr ->
  exists s1 m1 bare sf s2 m2 v,
    scram_process (Some nonce) [] s0 = Some (s1, SCRAM_IN_PROGRESS, Some m1) /\
    server_first cr snonce m1 = Some (bare, sf) /\
    scram_process None sf s1 = Some (s2, SCRAM_IN_PROGRESS, Some m2) /\
    server_final cr bare sf m2 = Some v /\
    scram_process None v s2 = Some (s2, SCRAM_SUCCESS, None).
Proof.
  intros Hn Hu Hsn Hnonce Hsalt Hi Hpos (n' & Hn' & ->)%create_spec. unfold enroll.
  destruct (pkcs5_pbkdf2_hmac d pw salt i) as [salted|] eqn:Hp; [|done]. cbn [mbind option_bind]. intros [= <-].
  assert (n' = n) as -> by congruence. set (N := g_base64_encode nonce).
  set (bare := fmt [("n=" : cstr); user; (",r=" : cstr); N]).
  set (sf := first_text (N ++ snonce) (g_base64_encode salt) i).
  set (auth := fmt [bare; ("," : cstr); sf; ("," : cstr); ("c=biws,r=" : cstr); N ++ snonce]).
  assert (HN : N <> []) by by apply g_base64_nonempty.
  assert (HS : ","%char ∉ N ++ snonce) by (apply not_elem_of_app; split; [apply base64_no_comma|done]).
  exists (waiting d n user pw N bare), (fmt [("n,,n=" : cstr); user; (",r=" : cstr); N]), bare, sf,
    (Scram d n user pw (Some N) (Some bare) (Some salted) (Some auth) None 2),
    (fmt [("c=biws,r=" : cstr); N ++ snonce; (",p=" : cstr); g_base64_encode (proof_of d salted auth)]),
    (fmt [("v=" : cstr); g_base64_encode (hmac d (hmac d salted SERVER_KEY) auth)]).
  split_and!.
  - done.
  - unfold N. rewrite server_first_spec by done. unfold sf, first_text, fmt, N. cbn [concat]. by rewrite <- !app_assoc.
  - unfold scram_process. cbn [waiting step Z.eqb Pos.eqb]. apply (server_first_accepted d n user pw N bare snonce).
    + done.
    + done.
    + apply base64_no_comma.
    + by apply g_base64_nonempty.
    + by destruct N.
    + by rewrite g_base64_roundtrip.
  - by apply (server_final_accepts user d n pw salt i salted bare (N ++ snonce)); [done|lia|..].
  - unfold scram_process. cbn [step Z.eqb Pos.eqb]. unfold process_server_final.
    set (sig := hmac d (hmac d salted SERVER_KEY) auth). assert (Hsig : sig <> []).
    { intros E. pose proof (hmac_length d n (hmac d salted SERVER_KEY) auth Hn) as Hl. fold sig in Hl. rewrite E in Hl. simpl in Hl. lia. }
    pose proof (g_base64_nonempty sig Hsig) as Hb.
    change (fmt [("v=" : cstr); g_base64_encode sig]) with ("v"%char :: "="%char :: g_base64_encode sig ++ []). rewrite app_nil_r.
    destruct (g_base64_encode sig) as [|x l] eqn:E; [done|]. rewrite <- E. cbn [negb andb salted_password auth_message digest mbind option_bind].
    change ("v"%char =c "v") with true. cbn [negb andb]. fold sig. rewrite g_base64_roundtrip. by rewrite bool_decide_eq_true_2.
Qed.

(** ** What the client accepts *)

(** A session is given messages as long as it is in progress. *)
Fixpoint scram_run (ins : list (option (list ascii) * cstr)) (s : scram_session)
    : option (scram_status * list (option (list ascii) * cstr)) :=
  match ins with
  | [] => Some (SCRAM_IN_PROGRESS, [])
  | (rand, input) :: ins =>
      '(s, status, _) ← scram_process rand input s;
      match status with SCRAM_IN_PROGRESS => scram_run ins s | _ => Some (status, ins) end
  end.

Definition server_params (sf : cstr) : first_params := foldl first_param (FirstParams None None 0) (g_strsplit sf ",").

Lemma after_prefix_Some pre s rest : after_prefix pre s = Some rest -> s = pre ++ rest.
Proof.
  revert s; induction pre as [|c pre IH]; intros s; cbn [after_prefix]; [by intros [= ->]|].
  destruct s as [|x s]; [done|]. destruct (Ascii.eqb_spec c x) as [->|]; [|done]. intros ->%IH. done.
Qed.

Lemma first_in_progress sf d n user pw N bare s' out :
  process_server_first sf (waiting d n user pw N bare) = Some (s', SCRAM_IN_PROGRESS, out) ->
  exists ext salt salted, fp_nonce (server_params sf) = Some (N ++ ext) /\ fp_salt (server_params sf) = Some salt /\
    fp_iterations (server_params sf) <> 0 /\
    pkcs5_pbkdf2_hmac d pw (g_base64_decode salt) (wrap_i32 (fp_iterations (server_params sf))) = Some salted /\
    s' = Scram d n user pw (Some N) (Some bare) (Some salted)
           (Some (fmt [bare; ("," : cstr); sf; ("," : cstr); fmt [("c=biws,r=" : cstr); N ++ ext]])) None 2.
Proof.
  unfold process_server_first. fold (server_params sf). destruct (Nat.ltb _ 3); [done|].
  destruct (fp_nonce _) as [[|x S]|]; [done| |done]. destruct (fp_salt _) as [[|y salt]|]; [done| |done].
  destruct (Z.eqb_spec (fp_iterations (server_params sf)) 0); [done|]. cbn [waiting client_nonce_b64 mbind option_bind].
  destruct (after_prefix N (x :: S)) as [ext|] eqn:Hn; [|done]. apply after_prefix_Some in Hn. rewrite Hn.
  cbn [waiting digest scram_password client_first_message_bare username digest_size scram_error step].
  destruct (pkcs5_pbkdf2_hmac _ _ _ _) as [salted|] eqn:Hp; [|done]. cbn [mbind option_bind]. intros [= <- <-].
  by exists ext, (y :: salt), salted.
Qed.

(** Success is only reported for the last message. *)
Lemma first_no_success sf s s' out : process_server_first sf s = Some (s', SCRAM_SUCCESS, out) -> False.
Proof.
  unfold process_server_first. destruct (Nat.ltb _ 3); [done|]. destruct (fp_nonce _) as [[|x S]|]; [done| |done].
  destruct (fp_salt _) as [[|y salt]|]; [done| |done]. destruct (_ =? 0); [done|].
  destruct (client_nonce_b64 s); [|done]. cbn [mbind option_bind]. destruct (after_prefix _ _); [|done].
  destruct (pkcs5_pbkdf2_hmac _ _ _ _); [|done]. cbn [mbind option_bind]. by destruct (client_first_message_bare s).
Qed.

(** C13. Nothing but the server's signature makes the client report success: if a
    new session ends in success then it was given exactly three messages, the
    second named a nonce that extends the client's own random one, a salt and an
    iteration count, and the third carried the signature, under the server key
    that the password, that salt and that count determine, of these very
    messages.  No error and no missing parameter leads there. *)
Theorem scram_success_needs_server_key d user pw s0 ins rest :
  scram_session_create d user pw = Some s0 -> scram_run ins s0 = Some (SCRAM_SUCCESS, rest) ->
  exists nonce x r1 sf r2 v, ins = (Some nonce, x) :: (r1, sf) :: (r2, v) :: rest /\
  exists ext salt salted,
    fp_nonce (server_params sf) = Some (g_base64_encode nonce ++ ext) /\ fp_salt (server_params sf) = Some salt /\
    fp_iterations (server_params sf) <> 0 /\
    pkcs5_pbkdf2_hmac d pw (g_base64_decode salt) (wrap_i32 (fp_iterations (server_params sf))) = Some salted /\
    g_base64_decode (drop 2 v) = hmac d (hmac d salted SERVER_KEY)
      (fmt [("n=" : cstr); user; (",r=" : cstr); g_base64_encode nonce; ("," : cstr); sf; ("," : cstr); ("c=biws,r=" : cstr);
            g_base64_encode nonce ++ ext]).
Proof.
  intros (n & _ & ->)%create_spec Hrun. destruct ins as [|[r0 x] ins]; [done|]. cbn [scram_run] in Hrun.
  unfold scram_process in Hrun. cbn [step Z.eqb] in Hrun. destruct r0 as [nonce|]; [|done].
  cbn [process_client_first mbind option_bind] in Hrun. set (N := g_base64_encode nonce) in *.
  set (bare := fmt [("n=" : cstr); user; (",r=" : cstr); N]).
  change (scram_run ins (waiting d n user pw N bare) = Some (SCRAM_SUCCESS, rest)) in Hrun.
  destruct ins as [|[r1 sf] ins]; [done|]. cbn [scram_run] in Hrun.
  change (scram_process r1 sf (waiting d n user pw N bare)) with (process_server_first sf (waiting d n user pw N bare)) in Hrun.
  destruct (process_server_first sf _) as [[[s' st] out]|] eqn:Hf; [|done]. cbn [mbind option_bind] in Hrun.
  destruct st; [done| |by apply first_no_success in Hf].
  apply first_in_progress in Hf as (ext & salt & salted & F1 & F2 & F3 & F4 & ->).
  destruct ins as [|[r2 v] ins]; [done|]. cbn [scram_run] in Hrun. unfold scram_process in Hrun.
  cbn [step Z.eqb Pos.eqb] in Hrun. unfold process_server_final in Hrun.
  destruct v as [|v0 [|v1 [|v2 v]]]; try done. destruct (negb _ && negb _); [done|].
  cbn [salted_password auth_message digest mbind option_bind] in Hrun.
  case_bool_decide as Hsig; [|done]. injection Hrun as <-.
  exists nonce, x, r1, sf, r2, (v0 :: v1 :: v2 :: v). split; [done|]. exists ext, salt, salted. split_and!; try done.
  cbn [drop]. rewrite Hsig. f_equal. unfold bare, fmt. cbn [concat]. by rewrite !app_nil_r, <- ?app_assoc.
Qed.
End exchange.

(** ** Concrete exchanges *)

(** A digest of four bytes, only to run the definitions. *)
Definition four_bytes (x : list ascii) : list ascii :=
  let v := foldl (fun a c => (a * 257 + uchar c + 1) mod 2 ^ 32) 7 x in
  map (fun k => ascii_of_N (Z.to_N (v / 256 ^ k mod 256))) [0; 1; 2; 3].

#[export] Instance small_openssl : OpenSSL := {|
  evp_md_size d := if bool_decide (d = ("SHA256" : cstr)) then Some 4%nat else None;
  evp_digest d x := four_bytes x;
  hmac d k x := four_bytes (k ++ four_bytes (k ++ x));
  pkcs5_pbkdf2_hmac d p s i := if i <=? 0 then None else Some (four_bytes (p ++ s ++ int_text i)) |}.

#[export] Instance small_openssl_laws : OpenSSLLaws small_openssl.
Proof.
  split; cbn.
  - intros d n x. case_bool_decide; [|done]. by intros [= <-].
  - intros d n k x. case_bool_decide; [|done]. by intros [= <-].
  - intros d n p s i _ Hi. replace (i <=? 0) with false by lia. by eexists.
Qed.

Definition alice : scram_session := Scram "SHA256" 4 "alice" "secret" None None None None None 0.
Definition alice_nonce : list ascii := "0123456789abcdefgh".

Lemma scram_exchange_succeeds_witness :
  exists s1 m1 s2 bare sf m2 v,
    scram_process (Some alice_nonce) [] alice = Some (s1, SCRAM_IN_PROGRESS, Some m1) /\
    (cr ← enroll "alice" "SHA256" "secret" "salt" 4096; server_first cr "xyz" m1) = Some (bare, sf) /\
    scram_process None sf s1 = Some (s2, SCRAM_IN_PROGRESS, Some m2) /\
    (cr ← enroll "alice" "SHA256" "secret" "salt" 4096; server_final cr bare sf m2) = Some v /\
    scram_process None v s2 = Some (s2, SCRAM_SUCCESS, None).
Proof.
  destruct (enroll "alice" "SHA256" "secret" "salt" 4096) as [cr|] eqn:Hcr; [|by vm_compute in Hcr].
  destruct (scram_exchange_succeeds "SHA256" 4 "alice" "secret" alice_nonce "xyz" "salt" 4096 cr alice)
    as (s1 & m1 & bare & sf & s2 & m2 & v & E1 & E2 & E3 & E4 & E5).
  1: done.
  1-2: by apply (bool_decide_unpack _); vm_compute.
  1-2: done.
  1-2: lia.
  1: done.
  1: exact Hcr.
  exists s1, m1, s2, bare, sf, m2, v. by split_and!.
Defined.

(** The messages of a server that enrolled the password. *)
Definition server_says (password : cstr) : list (option (list ascii) * cstr) :=
  default [] (
    cr ← enroll "alice" "SHA256" password "salt" 4096;
    '(s1, _, m1) ← scram_process (Some alice_nonce) [] alice;
    '(bare, sf) ← m1 ≫= server_first cr "xyz";
    '(_, _, m2) ← scram_process None sf s1;
    let auth := fmt [bare; ("," : cstr); sf; (",c=biws,r=MDEyMzQ1Njc4OWFiY2RlZmdoxyz" : cstr)] in
    Some [(Some alice_nonce, []); (None, sf); (None, ("v=" : cstr) ++ g_base64_encode (hmac "SHA256" (cr_server_key cr) auth))]).

Lemma scram_success_needs_server_key_witness :
  scram_run (server_says "wrong") alice = Some (SCRAM_ERROR, []) /\
  exists v, (fun x => g_base64_decode (drop 2 x.2)) <$> server_says "secret" !! 2%nat = Some v /\ length v = 4%nat.
Proof.
  split; [by vm_compute|].
  destruct (scram_success_needs_server_key "SHA256" "alice" "secret" alice (server_says "secret") [])
    as (nonce & x & r1 & sf & r2 & v & E & ext & salt & salted & _ & _ & _ & _ & Hv).
  - done.
  - by vm_compute.
  - rewrite E. eexists. split; [reflexivity|]. cbn [snd]. rewrite Hv. done.
Defined.

(** *** Where the code does not do what it means to *)

(** The test for "v=" joins its two halves by "and": any two bytes pass that have
    one of them right. *)
Theorem server_final_wrong_letter :
  scram_run (take 2 (server_says "secret") ++
    match server_says "secret" !! 2%nat with Some (r, v) => [(r, "x"%char :: drop 1 v)] | None => [] end) alice =
  Some (SCRAM_SUCCESS, []).
Proof. by vm_compute. Qed.

(** An iteration count of 2^31 is negative for PBKDF2, which fails; the client
    goes on with the buffer it did not fill. *)
Theorem huge_iteration_count_unset :
  scram_run [(Some alice_nonce, []); (None, ("r=MDEyMzQ1Njc4OWFiY2RlZmdoxyz,s=c2FsdA==,i=2147483648" : cstr))] alice = None.
Proof. by vm_compute. Qed.

(** A comma in the user name is sent as it is (RFC 5802 wants "=2C"): the server
    reads a message of three parts. *)
Theorem comma_in_user_name :
  (cr ← enroll "al,ice" "SHA256" "secret" "salt" 4096;
   '(_, _, m1) ← scram_process (Some alice_nonce) [] (Scram "SHA256" 4 "al,ice" "secret" None None None None None 0);
   m1 ≫= server_first cr "xyz") = None.
Proof. by vm_compute. Qed.

(** So is an equals sign (RFC 5802 wants "=3D"): the server fails the authentication. *)
Theorem equals_in_user_name :
  (cr ← enroll "al=ice" "SHA256" "secret" "salt" 4096;
   '(_, _, m1) ← scram_process (Some alice_nonce) [] (Scram "SHA256" 4 "al=ice" "secret" None None None None None 0);
   m1 ≫= server_first cr "xyz") = None.
Proof. by vm_compute. Qed.
