(* ===== verification/Cap.v ===== *)
(** * Capability negotiation and SASL (src/common/inbound.c, proto-irc.c, server.c)

    The registration flight of a connection: CAP LS/ACK/NAK/DEL/NEW, the
    AUTHENTICATE exchange, the numerics 900 to 908, the move to TLS that a
    strict transport policy asks for, and the parts of connecting and
    disconnecting that touch this state.  The trace [log] holds the lines sent
    and the events shown; [None] is undefined behaviour. *)
From S2P Require Import Prelude Glib Text Access Modes Isupport SendQueue Server Proto Scrollback Persistence Sts Scram.

(** ** GLib strings used here *)

Class GStrings := {
  (** [g_strlcat (dest, src, size)] and [g_strchomp] *)
  g_strlcat : cstr -> cstr -> nat -> cstr;
  g_strchomp : cstr -> cstr }.

Definition is_blank (c : ascii) : Prop := c = " "%char \/ c = LF \/ c = CR \/ c = "009"%char \/ c = "012"%char.

Class GStringsLaws (G : GStrings) : Prop := {
  g_strlcat_spec dest src size : (length dest < size)%nat -> g_strlcat dest src size = take (size - 1) (dest ++ src);
  g_strchomp_spec s t : Forall is_blank t -> (forall c, last s = Some c -> ~ is_blank c) -> g_strchomp (s ++ t) = s }.

(** ** State *)

Inductive loginmethod :=
| Login (m : login_method) (* the methods that are not SASL *)
| LOGIN_SASL | LOGIN_SASLEXTERNAL | LOGIN_SASL_SCRAM_SHA_1 | LOGIN_SASL_SCRAM_SHA_256 | LOGIN_SASL_SCRAM_SHA_512
| LOGIN_SASL_OAUTHBEARER.

Inductive mech := MECH_PLAIN | MECH_EXTERNAL | MECH_SCRAM_SHA_1 | MECH_SCRAM_SHA_256 | MECH_SCRAM_SHA_512 | MECH_OAUTHBEARER.

#[export] Instance mech_eq_dec : EqDecision mech.
Proof. solve_decision. Defined.

Definition sasl_mechanisms (m : mech) : cstr :=
  match m with
  | MECH_PLAIN => "PLAIN" | MECH_EXTERNAL => "EXTERNAL" | MECH_SCRAM_SHA_1 => "SCRAM-SHA-1"
  | MECH_SCRAM_SHA_256 => "SCRAM-SHA-256" | MECH_SCRAM_SHA_512 => "SCRAM-SHA-512" | MECH_OAUTHBEARER => "OAUTHBEARER"
  end.

(** The have_ bits, [have_persistence] apart (it is in [persist]). *)
Inductive cap_flag :=
| have_idmsg | have_namesx | have_accnotify | have_extjoin | have_uhnames | have_server_time | have_awaynotify
| have_account_tag | have_batch | have_message_tags | have_echo_message | have_labeled_response | have_chathistory
| have_multiline | have_event_playback | have_read_marker | have_redact | have_account_registration | have_metadata
| have_channel_rename | have_oper_tag | have_pre_away | have_extended_isupport | have_sasl.

#[export] Instance cap_flag_eq_dec : EqDecision cap_flag.
Proof. solve_decision. Defined.

(** What of the entry of the network list is used. *)
Record login_net := LoginNet {
  net_user : option cstr; net_real : option cstr; net_flags : Z; net_name : option cstr;
  net_access_token : option cstr; net_refresh_token : option cstr; net_token_expires : Z }.

Record oauth_token := OauthToken { access_token : cstr; refresh_token : option cstr; expires_at : Z }.

Record cap_conn := Conn {
  serv_hostname : cstr; servername : cstr; serv_port : Z; ssl : bool; use_ssl : bool; accept_invalid_cert : bool;
  serv_connected : bool; connecting : bool }.

Record cap_info := CapInfo {
  have : cap_flag -> bool; max_bytes : Z; max_lines : Z;
  accreg_before_connect : bool; accreg_email_required : bool; accreg_custom_account : bool;
  accreg_min_password_len : Z; accreg_max_password_len : Z }.

Record cap_reg := Reg {
  waiting_on_cap : bool; waiting_on_sasl : bool; sent_capend : bool; sts_upgrade_port : Z;
  sasl_mech : mech; scram_session_of : option scram_session }.

Record cap_oauth := OAuth { oauth_access_token : option cstr; oauth_token_expires : Z; oauth_refresh_attempted : bool }.

Inductive cap_text :=
| TE_CAPLIST | TE_CAPREQ | TE_CAPACK | TE_CAPDEL | TE_SERVTEXT | TE_SASLAUTH | TE_SASLRESPONSE | TE_DISCON
| TE_STOPCONNECT | TE_SERVERLOOKUP | TE_CONNECTED | TE_SERVERCONNECTED | TE_PRINT.

Inductive cap_out :=
| Send (bytes : cstr)                        (* handed to tcp_send_len *)
| Text (te : cap_text) (args : list cstr)
| HistoryCap (enable : bool)                 (* Catchup.history_capability *)
| Connecting (host : cstr) (port : Z)        (* a connection attempt is begun *)
| RefreshToken                               (* oauth_refresh_token *)
| SaveTokens (name : cstr) (token : oauth_token). (* oauth_save_tokens *)

Record cap_serv := CapServ {
  login_by : loginmethod; password : cstr; serv_nick : cstr; network : option login_net; no_login : bool;
  conn : cap_conn; caps : cap_info; reg : cap_reg; oauth : cap_oauth;
  persist_of : persist; policies : list sts_policy; log : list cap_out }.

Definition emit (e : cap_out) (s : cap_serv) : cap_serv :=
  CapServ (login_by s) (password s) (serv_nick s) (network s) (no_login s) (conn s) (caps s) (reg s) (oauth s)
    (persist_of s) (policies s) (log s ++ [e]).
Definition put_conn (v : cap_conn) (s : cap_serv) : cap_serv :=
  CapServ (login_by s) (password s) (serv_nick s) (network s) (no_login s) v (caps s) (reg s) (oauth s)
    (persist_of s) (policies s) (log s).
Definition put_caps (v : cap_info) (s : cap_serv) : cap_serv :=
  CapServ (login_by s) (password s) (serv_nick s) (network s) (no_login s) (conn s) v (reg s) (oauth s)
    (persist_of s) (policies s) (log s).
Definition put_reg (v : cap_reg) (s : cap_serv) : cap_serv :=
  CapServ (login_by s) (password s) (serv_nick s) (network s) (no_login s) (conn s) (caps s) v (oauth s)
    (persist_of s) (policies s) (log s).
Definition put_oauth (v : cap_oauth) (s : cap_serv) : cap_serv :=
  CapServ (login_by s) (password s) (serv_nick s) (network s) (no_login s) (conn s) (caps s) (reg s) v
    (persist_of s) (policies s) (log s).
Definition put_persist (v : persist) (s : cap_serv) : cap_serv :=
  CapServ (login_by s) (password s) (serv_nick s) (network s) (no_login s) (conn s) (caps s) (reg s) (oauth s)
    v (policies s) (log s).
Definition put_policies (v : list sts_policy) (s : cap_serv) : cap_serv :=
  CapServ (login_by s) (password s) (serv_nick s) (network s) (no_login s) (conn s) (caps s) (reg s) (oauth s)
    (persist_of s) v (log s).
Definition put_network (n : option login_net) (b : bool) (s : cap_serv) : cap_serv :=
  CapServ (login_by s) (password s) (serv_nick s) n b (conn s) (caps s) (reg s) (oauth s)
    (persist_of s) (policies s) (log s).

Definition set_waiting_on_cap b (s : cap_serv) : cap_serv := let r := reg s in
  put_reg (Reg b (waiting_on_sasl r) (sent_capend r) (sts_upgrade_port r) (sasl_mech r) (scram_session_of r)) s.
Definition set_waiting_on_sasl b (s : cap_serv) : cap_serv := let r := reg s in
  put_reg (Reg (waiting_on_cap r) b (sent_capend r) (sts_upgrade_port r) (sasl_mech r) (scram_session_of r)) s.
Definition set_sent_capend b (s : cap_serv) : cap_serv := let r := reg s in
  put_reg (Reg (waiting_on_cap r) (waiting_on_sasl r) b (sts_upgrade_port r) (sasl_mech r) (scram_session_of r)) s.
Definition set_sts_upgrade_port p (s : cap_serv) : cap_serv := let r := reg s in
  put_reg (Reg (waiting_on_cap r) (waiting_on_sasl r) (sent_capend r) p (sasl_mech r) (scram_session_of r)) s.
Definition set_sasl_mech m (s : cap_serv) : cap_serv := let r := reg s in
  put_reg (Reg (waiting_on_cap r) (waiting_on_sasl r) (sent_capend r) (sts_upgrade_port r) m (scram_session_of r)) s.
Definition set_scram v (s : cap_serv) : cap_serv := let r := reg s in
  put_reg (Reg (waiting_on_cap r) (waiting_on_sasl r) (sent_capend r) (sts_upgrade_port r) (sasl_mech r) v) s.

Definition set_have (f : cap_flag) (b : bool) (s : cap_serv) : cap_serv := let c := caps s in
  put_caps (CapInfo (fun g => if decide (g = f) then b else have c g) (max_bytes c) (max_lines c)
    (accreg_before_connect c) (accreg_email_required c) (accreg_custom_account c)
    (accreg_min_password_len c) (accreg_max_password_len c)) s.

(** [tcp_sendf] and [tcp_send_len]. *)
Definition sendf (pieces : list cstr) (s : cap_serv) : cap_serv := emit (Send (tcp_sendf_bytes (fmt pieces))) s.
Definition send_len (bytes : cstr) (s : cap_serv) : cap_serv := emit (Send bytes) s.

Definition is_sasl_login (l : loginmethod) : bool := match l with Login _ => false | _ => true end.

(** What [irc_login] reads of the method. *)
Definition plain_method (l : loginmethod) : login_method := match l with Login m => m | _ => LOGIN_OTHER end.

Section cap.
Context `{GLib, GStrings, OpenSSL, Base64}.
(** [prefs.hex_irc_user_name] and [prefs.hex_irc_real_name]. *)
Context (hex_irc_user_name hex_irc_real_name : cstr).

(** ** Connecting and disconnecting, as far as this state goes *)

(** The bits [server_set_defaults] clears. *)
Definition cleared_flags : list cap_flag :=
  [have_namesx; have_awaynotify; have_uhnames; have_idmsg; have_accnotify; have_extjoin; have_account_tag;
   have_server_time; have_sasl].

Definition server_set_defaults (s : cap_serv) : cap_serv :=
  let s := set_sent_capend false (set_sasl_mech MECH_PLAIN (set_scram None s)) in
  let s := foldl (fun s f => set_have f false s) s cleared_flags in
  put_oauth (OAuth (oauth_access_token (oauth s)) (oauth_token_expires (oauth s)) false) s.

Definition server_cleanup (s : cap_serv) : cap_serv * Z :=
  let c := conn s in
  if connecting c then
    (put_conn (Conn (serv_hostname c) (servername c) (serv_port c) false (use_ssl c) (accept_invalid_cert c) (serv_connected c) false) s, 1)
  else if serv_connected c then
    (put_conn (Conn (serv_hostname c) (servername c) (serv_port c) false (use_ssl c) (accept_invalid_cert c) false false) s, 2)
  else (put_conn (Conn (serv_hostname c) (servername c) (serv_port c) false (use_ssl c) (accept_invalid_cert c) false false) s, 0).

Definition server_disconnect (s : cap_serv) : cap_serv :=
  let '(s, how) := server_cleanup s in
  if how =? 0 then emit (Text TE_PRINT [("Not connected. Try /server <host> [<port>]" : cstr) ++ [LF]]) s
  else if how =? 1 then emit (Text TE_STOPCONNECT []) s
  else
    let s := emit (Text TE_DISCON []) s in
    let c := conn s in
    let s := put_conn (Conn (serv_hostname c) [] (serv_port c) (ssl c) (use_ssl c) (accept_invalid_cert c) (serv_connected c) (connecting c)) s in
    put_persist (persist_reset (persist_of s)) (put_network (network s) false s).

Definition use_tls (port : Z) (s : cap_serv) : cap_serv := let c := conn s in
  put_conn (Conn (serv_hostname c) (servername c) port (ssl c) true false (serv_connected c) (connecting c)) s.

Definition server_connect (now : Z) (hostname : cstr) (port : Z) (nologin : bool) (s : cap_serv) : option cap_serv :=
  match hostname with
  | [] => Some s
  | _ =>
      let '(port, s) :=
        if use_ssl (conn s) then (port, s)
        else
          let '(l, found) := sts_policy_check now hostname (policies s) in
          let s := put_policies l s in
          match found with
          | Some sts_port =>
              (sts_port, use_tls (serv_port (conn s))
                 (emit (Text TE_SERVTEXT ["STS policy active - enforcing TLS connection" : cstr]) s))
          | None => (port, s)
          end in
      let port := if (port <? 1) || (65535 <? port) then if use_ssl (conn s) then 6697 else 6667 else port in
      let s := if serv_connected (conn s) || connecting (conn s) then server_disconnect s else s in
      let s := emit (Text TE_SERVERLOOKUP [hostname]) s in
      name ← safe_strcpy hostname 128;
      let c := conn s in
      let s := put_conn (Conn name name (serv_port c) (ssl c) (use_ssl c) (accept_invalid_cert c) (serv_connected c) (connecting c)) s in
      let s := server_set_defaults s in
      let c := conn s in
      let s := put_conn (Conn (serv_hostname c) (servername c) port (ssl c) (use_ssl c) (accept_invalid_cert c) (serv_connected c) true) s in
      Some (emit (Connecting hostname port) (put_network (network s) nologin s))
  end.

Definition irc_login_sends (user realname : cstr) (s : cap_serv) : cap_serv :=
  let s := foldl (fun s o => sendf [output_text o] s) s (irc_login (password s) (plain_method (login_by s)) (serv_nick s) user realname) in
  set_sent_capend false s.

Definition FLAG_USE_GLOBAL : Z := 2.

(** Of the network, unless it wants the global one. *)
Definition own_or (global : cstr) (get : login_net -> option cstr) (s : cap_serv) : cstr :=
  match network s with
  | Some net => if flag (net_flags net) FLAG_USE_GLOBAL then global else default global (get net)
  | None => global
  end.

(** [server_connect_success], after the handshake when there is one. *)
Definition server_connected (s : cap_serv) : cap_serv :=
  let c := conn s in
  let s := put_conn (Conn (serv_hostname c) (servername c) (serv_port c) (use_ssl c) (use_ssl c) (accept_invalid_cert c) true false) s in
  if no_login s then emit (Text TE_SERVERCONNECTED []) s
  else irc_login_sends (own_or hex_irc_user_name net_user s) (own_or hex_irc_real_name net_real s) (emit (Text TE_CONNECTED []) s).

(** ** Capabilities acknowledged and withdrawn *)

Definition cap_table : list (cstr * cap_flag) :=
  [("solanum.chat/identify-msg" : cstr, have_idmsg); ("multi-prefix" : cstr, have_namesx);
   ("account-notify" : cstr, have_accnotify); ("extended-join" : cstr, have_extjoin);
   ("userhost-in-names" : cstr, have_uhnames); ("server-time" : cstr, have_server_time);
   ("znc.in/server-time" : cstr, have_server_time); ("znc.in/server-time-iso" : cstr, have_server_time);
   ("away-notify" : cstr, have_awaynotify); ("account-tag" : cstr, have_account_tag); ("batch" : cstr, have_batch);
   ("message-tags" : cstr, have_message_tags); ("echo-message" : cstr, have_echo_message);
   ("labeled-response" : cstr, have_labeled_response); ("draft/chathistory" : cstr, have_chathistory);
   ("draft/multiline" : cstr, have_multiline); ("draft/event-playback" : cstr, have_event_playback);
   ("draft/read-marker" : cstr, have_read_marker); ("draft/message-redaction" : cstr, have_redact);
   ("draft/account-registration" : cstr, have_account_registration); ("draft/metadata-2" : cstr, have_metadata);
   ("draft/channel-rename" : cstr, have_channel_rename); ("draft/oper-tag" : cstr, have_oper_tag);
   ("draft/pre-away" : cstr, have_pre_away)].

Definition cap_lookup (ext : cstr) : option cap_flag := snd <$> List.find (fun kv => bool_decide (kv.1 = ext)) cap_table.

(** The mechanism of the login method; PLAIN, or what the server's list gave,
    where the method names none. *)
Definition mech_of_login (l : loginmethod) : option mech :=
  match l with
  | LOGIN_SASLEXTERNAL => Some MECH_EXTERNAL
  | LOGIN_SASL_SCRAM_SHA_1 => Some MECH_SCRAM_SHA_1
  | LOGIN_SASL_SCRAM_SHA_256 => Some MECH_SCRAM_SHA_256
  | LOGIN_SASL_SCRAM_SHA_512 => Some MECH_SCRAM_SHA_512
  | LOGIN_SASL_OAUTHBEARER => Some MECH_OAUTHBEARER
  | _ => None
  end.

Definition toggle_cap (enable : bool) (s : cap_serv) (ext : cstr) : cap_serv :=
  match cap_lookup ext with
  | Some f =>
      let s := set_have f enable s in
      if decide (f = have_chathistory) then emit (HistoryCap enable) s else s
  | None =>
      if persistence_is_bare_name ext then put_persist (persist_capability enable (persist_of s)) s
      else if bool_decide (ext = ("draft/extended-isupport" : cstr)) then
        let s := set_have have_extended_isupport enable s in
        if enable then send_len (("ISUPPORT" : cstr) ++ EOL) s else s
      else if bool_decide (ext = ("sasl" : cstr)) then
        let s := set_have have_sasl enable s in
        if enable then
          let s := match mech_of_login (login_by s) with Some m => set_sasl_mech m s | None => s end in
          sendf [("AUTHENTICATE " : cstr); sasl_mechanisms (sasl_mech (reg s)); EOL] s
        else s
      else s
  end.

Definition inbound_toggle_caps (extensions : cstr) (enable : bool) (s : cap_serv) : cap_serv :=
  foldl (toggle_cap enable) s (g_strsplit extensions " ").

Definition inbound_cap_ack (nick extensions : cstr) (s : cap_serv) : cap_serv :=
  inbound_toggle_caps extensions true (emit (Text TE_CAPACK [nick; extensions]) s).

Definition inbound_cap_del (nick extensions : cstr) (s : cap_serv) : cap_serv :=
  inbound_toggle_caps extensions false (emit (Text TE_CAPDEL [nick; extensions]) s).

(** ** CAP LS *)

Definition supported_caps : list cstr :=
  ["multi-prefix" : cstr; "away-notify" : cstr; "account-notify" : cstr; "extended-join" : cstr;
   "server-time" : cstr; "userhost-in-names" : cstr; "cap-notify" : cstr; "chghost" : cstr; "setname" : cstr;
   "invite-notify" : cstr; "account-tag" : cstr; "extended-monitor" : cstr;
   "batch" : cstr; "message-tags" : cstr; "echo-message" : cstr; "labeled-response" : cstr;
   "draft/chathistory" : cstr; "draft/multiline" : cstr; "draft/event-playback" : cstr; "draft/read-marker" : cstr;
   "draft/message-redaction" : cstr; "draft/account-registration" : cstr; "draft/metadata-2" : cstr;
   "draft/channel-rename" : cstr; "draft/pre-away" : cstr; "draft/oper-tag" : cstr; "draft/persistence" : cstr;
   "znc.in/server-time-iso" : cstr; "znc.in/server-time" : cstr; "twitch.tv/membership" : cstr;
   "solanum.chat/identify-msg" : cstr; "draft/extended-isupport" : cstr].

Definition get_supported_mech (l : loginmethod) (list : cstr) : option mech :=
  let m := default MECH_PLAIN (mech_of_login l) in
  if existsb (fun name => bool_decide (name = sasl_mechanisms m)) (g_strsplit list ",") then Some m else None.

(** The test before "sasl" is asked for. *)
Definition wants_sasl (s : cap_serv) : bool :=
  match login_by s with
  | LOGIN_SASL | LOGIN_SASL_SCRAM_SHA_1 | LOGIN_SASL_SCRAM_SHA_256 | LOGIN_SASL_SCRAM_SHA_512 => negb (bool_decide (password s = []))
  | LOGIN_SASLEXTERNAL | LOGIN_SASL_OAUTHBEARER => true
  | Login _ => false
  end.

(** [buffer] of [inbound_cap_ls] is char[500]. *)
Definition REQ_BUF : nat := 500.
Record ls_run := LsRun { ls_serv : cap_serv; ls_buffer : cstr; want_cap : bool }.

Definition sts_token (p : Z * Z) (token : cstr) : Z * Z :=
  match after_prefix "port=" token, after_prefix "duration=" token with
  | Some v, _ => (atoi v, p.2)
  | None, Some v => (p.1, atoi v)
  | None, None => p
  end.

Definition sts_extension (now : Z) (value : cstr) (s : cap_serv) : cap_serv :=
  let '(sts_port, sts_duration) := foldl sts_token (0, 0) (g_strsplit value ",") in
  if 0 <? sts_port then
    let s := put_policies (sts_policy_add now (serv_hostname (conn s)) sts_port sts_duration (policies s)) s in
    if ssl (conn s) then s
    else emit (Text TE_SERVTEXT ["STS policy received - upgrading to TLS" : cstr]) (set_sts_upgrade_port sts_port s)
  else s.

Definition accreg_token (c : cap_info) (token : cstr) : cap_info :=
  let '(CapInfo h b l bc er ca mn mx) := c in
  if bool_decide (token = ("before-connect" : cstr)) then CapInfo h b l true er ca mn mx
  else if bool_decide (token = ("email-required" : cstr)) then CapInfo h b l bc true ca mn mx
  else if bool_decide (token = ("custom-account-name" : cstr)) then CapInfo h b l bc er true mn mx
  else match after_prefix "max-password-length=" token, after_prefix "min-password-length=" token with
       | Some v, _ => CapInfo h b l bc er ca mn (atoi v)
       | None, Some v => CapInfo h b l bc er ca (atoi v) mx
       | None, None => c
       end.

Definition multiline_cap_token (c : cap_info) (token : cstr) : cap_info :=
  let '(CapInfo h b l bc er ca mn mx) := c in
  match after_prefix "max-bytes=" token, after_prefix "max-lines=" token with
  | Some v, _ => CapInfo h (atoi v) l bc er ca mn mx
  | None, Some v => CapInfo h b (atoi v) bc er ca mn mx
  | None, None => c
  end.

(** What the values of a capability that is then asked for set. *)
Definition cap_value (ext value : cstr) (s : cap_serv) : cap_serv :=
  let tokens := g_strsplit value "," in
  let s := if bool_decide (ext = ("draft/account-registration" : cstr))
           then put_caps (foldl accreg_token (caps s) tokens) s else s in
  let s := if persistence_is_bare_name ext then put_persist (persistence_parse_cap_value value (persist_of s)) s else s in
  if bool_decide (ext = ("draft/multiline" : cstr)) then put_caps (foldl multiline_cap_token (caps s) tokens) s else s.

(** The name, and what is behind its first '='. *)
Definition split_value (extension : cstr) : cstr * option cstr :=
  match index_of "=" extension with
  | Some k => (take k extension, Some (drop (S k) extension))
  | None => (extension, None)
  end.

Definition request (r : ls_run) (text : cstr) : ls_run := LsRun (ls_serv r) (g_strlcat (ls_buffer r) text REQ_BUF) true.

Definition ls_extension (now : Z) (r : ls_run) (extension : cstr) : ls_run :=
  let '(ext, value) := split_value extension in
  let s := ls_serv r in
  if bool_decide (ext = ("sasl" : cstr)) && wants_sasl s then
    match value with
    | Some v =>
        match get_supported_mech (login_by s) v with
        | None => r
        | Some m => request (LsRun (set_waiting_on_sasl true (set_sasl_mech m s)) (ls_buffer r) (want_cap r)) "sasl "
        end
    | None => request (LsRun (set_waiting_on_sasl true s) (ls_buffer r) (want_cap r)) "sasl "
    end
  else
    match bool_decide (ext = ("sts" : cstr)), value with
    | true, Some v => LsRun (sts_extension now v s) (ls_buffer r) (want_cap r)
    | _, _ =>
        let s := match value with Some v => cap_value ext v s | None => s end in
        foldl (fun r cap => if bool_decide (ext = cap) then request (request r ext) " " else r)
          (LsRun s (ls_buffer r) (want_cap r)) supported_caps
    end.

Definition send_cap_end (s : cap_serv) : cap_serv := send_len (("CAP END" : cstr) ++ EOL) (set_sent_capend true s).

Definition sts_upgrade (now : Z) (notice : bool) (s : cap_serv) : option cap_serv :=
  let sts_port := sts_upgrade_port (reg s) in
  let s := set_sent_capend true (set_sts_upgrade_port 0 s) in
  let s := if notice then emit (Text TE_SERVTEXT ["Reconnecting with TLS due to STS policy..." : cstr]) s else s in
  let s := server_disconnect (use_tls sts_port s) in
  server_connect now (serv_hostname (conn s)) sts_port false s.

Definition list_marker (extensions : cstr) : option cstr :=
  match after_prefix "* " extensions with
  | Some (c :: rest) => Some (if c =c ":" then rest else c :: rest)
  | more => more
  end.

Definition inbound_cap_ls (now : Z) (nick extensions : cstr) (s : cap_serv) : option cap_serv :=
  let s := set_waiting_on_cap (bool_decide (is_Some (list_marker extensions))) s in
  let extensions := default extensions (list_marker extensions) in
  let s := emit (Text TE_CAPLIST [nick; extensions]) s in
  let r := foldl (ls_extension now) (LsRun s ("CAP REQ :" : cstr) false) (g_strsplit extensions " ") in
  let s := ls_serv r in
  let s := if want_cap r then sendf [g_strchomp (ls_buffer r); EOL] (emit (Text TE_CAPREQ [drop 9 (ls_buffer r)]) s) else s in
  if waiting_on_sasl (reg s) || waiting_on_cap (reg s) then Some s
  else if 0 <? sts_upgrade_port (reg s) then sts_upgrade now true s
  else Some (send_cap_end s).

Definition inbound_cap_nak (now : Z) (extensions : cstr) (s : cap_serv) : option cap_serv :=
  let s := if existsb (fun e => bool_decide (e = ("sasl" : cstr))) (g_strsplit extensions " ") then set_waiting_on_sasl false s else s in
  if waiting_on_cap (reg s) || waiting_on_sasl (reg s) || sent_capend (reg s) then Some s
  else if 0 <? sts_upgrade_port (reg s) then sts_upgrade now false s
  else Some (send_cap_end s).

Definition inbound_cap_list (nick extensions : cstr) (s : cap_serv) : cap_serv :=
  emit (Text TE_CAPACK [nick; default extensions (list_marker extensions)]) s.

(** The CAP case of [process_named_msg]. *)
Definition begins (name : string) (w : cstr) : bool :=
  bool_decide (map ascii_lower (take (String.length name) w) = map ascii_lower name).

Definition handle_cap (now : Z) (ln : line) (s : cap_serv) : option cap_serv :=
  let text := if peek (word ln 5) =c ":" then drop 1 (word_eol ln 5) else word_eol ln 5 in
  let sub := word ln 4 in
  if begins "ACK" sub then Some (inbound_cap_ack (word ln 1) text s)
  else if begins "LS" sub || begins "NEW" sub then inbound_cap_ls now (word ln 1) text s
  else if begins "NAK" sub then inbound_cap_nak now text s
  else if begins "LIST" sub then Some (inbound_cap_list (word ln 1) text s)
  else if begins "DEL" sub then Some (inbound_cap_del (word ln 1) text s)
  else Some s.

(** ** AUTHENTICATE *)

(** The lines of a payload, 400 bytes each; a full last one is followed by "+". *)
Fixpoint authenticate_chunks (fuel : nat) (encoded : cstr) : cstr :=
  match fuel, encoded with
  | O, _ | _, [] => []
  | S fuel, _ => fmt [("AUTHENTICATE " : cstr); take 400 encoded; EOL] ++ authenticate_chunks fuel (drop 400 encoded)
  end.

Definition sasl_send_authenticate (encoded : cstr) (s : cap_serv) : cap_serv :=
  let len := length encoded in
  send_len (authenticate_chunks len encoded ++
            (if Nat.eqb (len mod 400) 0 then fmt [("AUTHENTICATE +" : cstr); EOL] else [])) s.

Definition encode_sasl_pass_plain (user pass : cstr) : cstr :=
  g_base64_encode (user ++ [NUL] ++ user ++ [NUL] ++ pass).

Definition plain_authenticate (user password : cstr) (s : cap_serv) : cap_serv :=
  sasl_send_authenticate (encode_sasl_pass_plain user password) s.

Definition abort_sasl (s : cap_serv) : cap_serv := sendf [("AUTHENTICATE *" : cstr); EOL] s.

Definition print (pieces : list cstr) (s : cap_serv) : cap_serv := emit (Text TE_PRINT [fmt pieces]) s.

Definition scram_authenticate (rand : option (list ascii)) (data digest user password : cstr) (s : cap_serv) : option cap_serv :=
  match (match scram_session_of (reg s) with Some x => Some x | None => scram_session_create digest user password end) with
  | None => Some (abort_sasl (print [("Could not create SCRAM session with digest " : cstr); digest] s))
  | Some session =>
      '(session, status, output) ← scram_process rand (c_string (g_base64_decode data)) session;
      match status with
      | SCRAM_IN_PROGRESS =>
          output ← output;
          Some (sendf [("AUTHENTICATE " : cstr); g_base64_encode output; EOL] (set_scram (Some session) s))
      | SCRAM_SUCCESS => Some (set_scram None (sendf [("AUTHENTICATE +" : cstr); EOL] s))
      | SCRAM_ERROR =>
          let s := abort_sasl s in
          let s := match scram_error session with
                   | Some e => print [("SASL SCRAM authentication failed: " : cstr); e] s
                   | None => s
                   end in
          Some (set_scram None s)
      end
  end.

(** With a host and a port, or the token alone. *)
Definition oauth_encode_sasl_oauthbearer (token host : cstr) (port : Z) : cstr :=
  g_base64_encode
    (if 0 <? port
     then fmt [("n,," : cstr); [SOH]; ("auth=Bearer " : cstr); token; [SOH]; ("host=" : cstr); host; [SOH]; ("port=" : cstr); int_text port; [SOH; SOH]]
     else fmt [("n,," : cstr); [SOH]; ("auth=Bearer " : cstr); token; [SOH; SOH]]).

Definition oauth_authenticate (now : Z) (s : cap_serv) : cap_serv * bool :=
  match oauth_access_token (oauth s) with
  | None | Some [] =>
      (abort_sasl (print [("OAuth: No access token available. Please authorize first in Network List." : cstr)] s), false)
  | Some token =>
      if (0 <? oauth_token_expires (oauth s)) && (oauth_token_expires (oauth s) <=? now) then
        (abort_sasl (print [("OAuth: Access token has expired. Please re-authorize in Network List." : cstr)] s), false)
      else (sasl_send_authenticate (oauth_encode_sasl_oauthbearer token (servername (conn s)) (serv_port (conn s))) s, true)
  end.

(** [rand] is what [RAND_bytes] delivers, should it be asked. *)
Definition inbound_sasl_authenticate (now : Z) (rand : option (list ascii)) (data : cstr) (s : cap_serv) : option cap_serv :=
  if existsb (fun c => c =c ",") data then Some s
  else
    net ← network s;
    let user := match net_user net with
                | Some u => if flag (net_flags net) FLAG_USE_GLOBAL then hex_irc_user_name else u
                | None => hex_irc_user_name
                end in
    let m := sasl_mech (reg s) in
    let done s := Some (emit (Text TE_SASLAUTH [user; sasl_mechanisms m]) s) in
    match m with
    | MECH_PLAIN => done (plain_authenticate user (password s) s)
    | MECH_EXTERNAL => done (sendf [("AUTHENTICATE +" : cstr); EOL] s)
    | MECH_SCRAM_SHA_1 => scram_authenticate rand data "SHA1" user (password s) s
    | MECH_SCRAM_SHA_256 => scram_authenticate rand data "SHA256" user (password s) s
    | MECH_SCRAM_SHA_512 => scram_authenticate rand data "SHA512" user (password s) s
    | MECH_OAUTHBEARER => let '(s, ok) := oauth_authenticate now s in if ok then done s else Some s
    end.

Definition inbound_sasl_error (s : cap_serv) : cap_serv := abort_sasl (set_scram None s).

(** ** Tokens refreshed *)

Definition oauth_update_server_tokens (token : oauth_token) (s : cap_serv) : cap_serv :=
  let s := put_oauth (OAuth (Some (access_token token)) (expires_at token) (oauth_refresh_attempted (oauth s))) s in
  match network s with
  | None => s
  | Some net =>
      let s := put_network (Some (LoginNet (net_user net) (net_real net) (net_flags net) (net_name net)
                 (Some (access_token token)) (refresh_token token) (expires_at token))) (no_login s) s in
      match net_name net with Some name => emit (SaveTokens name token) s | None => s end
  end.

(** A token, or an error. *)
Definition oauth_sasl_retry_cb (now : Z) (rand : option (list ascii)) (answer : oauth_token + cstr) (s : cap_serv) : option cap_serv :=
  match answer with
  | inr error =>
      let s := set_waiting_on_sasl false (inbound_sasl_error (print [("OAuth: Token refresh failed: " : cstr); error; [LF]] s)) in
      Some (if sent_capend (reg s) then s else send_cap_end s)
  | inl token =>
      inbound_sasl_authenticate now rand "+"
        (print [("OAuth: Token refreshed, retrying authentication..." : cstr); [LF]] (oauth_update_server_tokens token s))
  end.

(** [failure] is the error that [oauth_refresh_token] meets before it can send
    its request, if it does: the callback is then called at once. *)
Definition inbound_sasl_oauth_refresh (now : Z) (failure : option cstr) (s : cap_serv) : option (cap_serv * bool) :=
  match network s with
  | None => Some (s, false)
  | Some _ =>
      if oauth_refresh_attempted (oauth s) then Some (s, false)
      else
        let s := put_oauth (OAuth (oauth_access_token (oauth s)) (oauth_token_expires (oauth s)) true) s in
        let s := emit RefreshToken (print [("OAuth: SASL authentication failed, attempting token refresh..." : cstr); [LF]] s) in
        match failure with
        | None => Some (s, true)
        | Some e => s ← oauth_sasl_retry_cb now None (inr e) s; Some (s, false)
        end
  end.

(** ** Numerics 900 to 908 *)

Definition attach (db : option scrollback_db) (s : cap_serv) : cap_serv :=
  let '(p, out) := persistence_send_attach db (persist_of s) in
  foldl (fun s e => match e with Sent l => sendf [l] s | Servtext t _ => emit (Text TE_SERVTEXT [t]) s end) (put_persist p s) out.

Definition sasl_response (ln : line) (s : cap_serv) : cap_serv :=
  emit (Text TE_SASLRESPONSE [word ln 1; word ln 2; word ln 3; drop 1 (word_eol ln 4)]) s.

Definition sasl_over (n : Z) (ln : line) (db : option scrollback_db) (s : cap_serv) : cap_serv :=
  let s := set_waiting_on_sasl false (sasl_response ln s) in
  if sent_capend (reg s) then s
  else send_cap_end (if n =? 903 then attach db s else s).

Definition sasl_numeric (now n : Z) (ln : line) (db : option scrollback_db) (failure : option cstr) (s : cap_serv) : option cap_serv :=
  if n =? 900 then Some (emit (Text TE_SERVTEXT [drop 1 (word_eol ln 6); word ln 1; word ln 2]) s)
  else if n =? 904 then
    '(s, refreshing) ← ((if decide (sasl_mech (reg s) = MECH_OAUTHBEARER) then inbound_sasl_oauth_refresh now failure s
                         else Some (s, false)) : option (cap_serv * bool));
    Some (if refreshing : bool then sasl_response ln s else sasl_over n ln db (inbound_sasl_error s))
  else if (n =? 903) || (n =? 905) || (n =? 906) || (n =? 907) then Some (sasl_over n ln db s)
  else Some s.

(** ** Events of a server *)

Inductive login_event :=
| OnCap (now : Z) (ln : line)
| OnAuthenticate (now : Z) (rand : option (list ascii)) (data : cstr)
| OnNumeric (now n : Z) (ln : line) (db : option scrollback_db) (failure : option cstr)
| OnToken (now : Z) (rand : option (list ascii)) (answer : oauth_token + cstr)
| OnConnect (now : Z) (host : cstr) (port : Z) (nologin : bool)
| OnConnected
| OnDisconnect.

Definition login_step (e : login_event) (s : cap_serv) : option cap_serv :=
  match e with
  | OnCap now ln => handle_cap now ln s
  | OnAuthenticate now rand data => inbound_sasl_authenticate now rand data s
  | OnNumeric now n ln db failure => sasl_numeric now n ln db failure s
  | OnToken now rand answer => oauth_sasl_retry_cb now rand answer s
  | OnConnect now host port nologin => server_connect now host port nologin s
  | OnConnected => Some (server_connected s)
  | OnDisconnect => Some (server_disconnect s)
  end.

Fixpoint login_run (es : list login_event) (s : cap_serv) : option cap_serv :=
  match es with
  | [] => Some s
  | e :: es => login_step e s ≫= login_run es
  end.
End cap.
