(* ===== verification/CapSpec.v ===== *)
(** * Registration: what the negotiation guarantees (src/common/inbound.c)

    The registration flight ends exactly once and never stalls, the request
    names exactly what is offered and supported, and the payload of PLAIN
    arrives.  Witnesses and the cases where the code does not do what it means
    to are at the end. *)
From S2P Require Import Prelude Glib Text Access Modes Isupport SendQueue Server Proto Scrollback Persistence Sts Scram ScramSpec Cap.

Definition sends (l : list cap_out) : list cstr := omap (fun e => match e with Send b => Some b | _ => None end) l.

Definition capend_line : cstr := ("CAP END" : cstr) ++ EOL.
Definition capends (s : cap_serv) : nat := length (filter (fun b => b = capend_line) (sends (log s))).

#[local] Arguments capends : simpl never.

Lemma capends_emit e s :
  capends (emit e s) = (capends s + match e with Send b => if decide (b = capend_line) then 1 else 0 | _ => 0 end)%nat.
Proof.
  unfold capends, emit, sends. cbn [log]. rewrite omap_app, filter_app, length_app. f_equal.
  destruct e as [b| | | | |]; try done. change (omap _ [Send b]) with [b]. rewrite filter_cons, filter_nil. by destruct (decide _).
Qed.

(** A change that neither ends the registration nor touches what it waits for. *)
Record quiet (s s' : cap_serv) : Prop := {
  q_cap : waiting_on_cap (reg s') = waiting_on_cap (reg s);
  q_sasl : waiting_on_sasl (reg s') = waiting_on_sasl (reg s);
  q_end : sent_capend (reg s') = sent_capend (reg s);
  q_sts : sts_upgrade_port (reg s') = sts_upgrade_port (reg s);
  q_ssl : ssl (conn s') = ssl (conn s);
  q_ends : capends s' = capends s }.

#[export] Instance quiet_preorder : PreOrder quiet.
Proof.
  split; [by intros s|]. intros s1 s2 s3 [A1 A2 A3 A4 A5 A6] [B1 B2 B3 B4 B5 B6].
  split; congruence.
Qed.

Create HintDb quiet.

Lemma quiet_emit e s : (forall b, e = Send b -> b <> capend_line) -> quiet s (emit e s).
Proof.
  intros He. split; [done..|]. rewrite capends_emit. destruct e; try lia.
  rewrite decide_False by by apply He. lia.
Qed.
Lemma quiet_text te args s : quiet s (emit (Text te args) s).
Proof. by apply quiet_emit. Qed.
Lemma quiet_put_caps v s : quiet s (put_caps v s).
Proof. done. Qed.
Lemma quiet_put_persist v s : quiet s (put_persist v s).
Proof. done. Qed.
Lemma quiet_put_policies v s : quiet s (put_policies v s).
Proof. done. Qed.
Lemma quiet_put_oauth v s : quiet s (put_oauth v s).
Proof. done. Qed.
Lemma quiet_put_network n b s : quiet s (put_network n b s).
Proof. done. Qed.
Lemma quiet_set_mech m s : quiet s (set_sasl_mech m s).
Proof. done. Qed.
Lemma quiet_set_scram v s : quiet s (set_scram v s).
Proof. done. Qed.
Lemma quiet_set_have f b s : quiet s (set_have f b s).
Proof. done. Qed.
Lemma quiet_print pieces s : quiet s (print pieces s).
Proof. apply quiet_text. Qed.

(** A line of another command is not CAP END. *)
Lemma sendf_head c x : exists y, tcp_sendf_bytes (c :: x) = c :: y.
Proof.
  unfold tcp_sendf_bytes. set (stored := take _ (c :: x)).
  assert (Hs : exists z, stored = c :: z) by (exists (take (Z.to_nat (SEND_BUF - 3)) x); done).
  destruct Hs as [z ->]. set (len := Z.of_nat (length (c :: x))).
  assert (Hl : exists k, Z.to_nat (if SEND_BUF - 1 <? len then Z.of_nat (length (c :: z)) else len) = S k).
  { destruct (_ <? _); [rewrite Nat2Z.id; by eexists|unfold len; rewrite Nat2Z.id; by eexists]. }
  destruct Hl as [k ->]. by eexists.
Qed.

Lemma quiet_sendf c x pieces s : c <> "C"%char -> quiet s (sendf ((c :: x) :: pieces) s).
Proof.
  intros Hc. apply quiet_emit. intros b [= <-]. destruct (sendf_head c (x ++ concat pieces)) as [y Hy].
  unfold fmt. cbn [concat app]. rewrite Hy. intros [= E _]. congruence.
Qed.

Lemma quiet_send c x s : c <> "C"%char -> quiet s (send_len (c :: x) s).
Proof. intros Hc. apply quiet_emit. intros b [= <-] [= E _]. congruence. Qed.

#[export] Hint Resolve quiet_text quiet_put_caps quiet_put_persist quiet_put_policies quiet_put_oauth quiet_put_network
  quiet_set_mech quiet_set_scram quiet_set_have quiet_print : quiet.

(** One primitive after the other. *)
Ltac quietly :=
  repeat match goal with
  | |- quiet ?s ?s => reflexivity
  | |- quiet _ (sendf _ _) => etrans; [|by apply quiet_sendf]
  | |- quiet _ (send_len _ _) => etrans; [|by apply quiet_send]
  | |- quiet _ (emit _ _) => etrans; [|by apply quiet_emit]
  | |- quiet _ _ => etrans; [|solve [eauto 1 with quiet nocore]]
  end.

Section spec.
Context `{GLib, GStrings, OpenSSL, Base64}.
Context (hex_irc_user_name hex_irc_real_name : cstr).

Abbreviation run := (login_run hex_irc_user_name hex_irc_real_name).
Abbreviation step := (login_step hex_irc_user_name hex_irc_real_name).
Abbreviation authenticate := (inbound_sasl_authenticate hex_irc_user_name).

(** ** Quiet handlers *)

Lemma toggle_cap_quiet enable s ext : quiet s (toggle_cap enable s ext).
Proof.
  unfold toggle_cap. destruct (cap_lookup ext) as [f|].
  - case_decide; quietly.
  - destruct (persistence_is_bare_name ext); [quietly|]. case_bool_decide; [destruct enable; quietly|].
    case_bool_decide; [|done]. destruct enable; [|quietly]. destruct (mech_of_login _); quietly.
Qed.

Lemma toggle_caps_quiet extensions enable s : quiet s (inbound_toggle_caps extensions enable s).
Proof.
  unfold inbound_toggle_caps. generalize (g_strsplit extensions " "). intros l. revert s.
  induction l as [|e l IH]; intros s; [done|]. cbn [foldl]. etrans; [apply toggle_cap_quiet|apply IH].
Qed.

Lemma chunks_head fuel x : authenticate_chunks fuel x = [] \/ exists y, authenticate_chunks fuel x = "A"%char :: y.
Proof. destruct fuel; [by left|]. destruct x; [by left|]. right. by eexists. Qed.

Lemma sasl_send_quiet x s : quiet s (sasl_send_authenticate x s).
Proof.
  apply quiet_emit. intros b [= <-]. destruct (chunks_head (length x) x) as [->|[y ->]]; [|by intros [= E]].
  by destruct (Nat.eqb _ 0); intros [= E].
Qed.
#[local] Hint Resolve sasl_send_quiet : quiet.

Lemma abort_quiet s : quiet s (abort_sasl s).
Proof. unfold abort_sasl. quietly. Qed.
#[local] Hint Resolve abort_quiet : quiet.

Lemma scram_quiet rand data digest user pw s s' : scram_authenticate rand data digest user pw s = Some s' -> quiet s s'.
Proof.
  unfold scram_authenticate. destruct (match scram_session_of _ with Some x => Some x | None => _ end) as [x|].
  2: { intros [= <-]. quietly. }
  destruct (scram_process _ _ x) as [[[session status] output]|]; [|done]. cbn [mbind option_bind].
  destruct status; [|destruct output; [|done]|]; cbn [mbind option_bind]; intros [= <-].
  - etrans; [|apply quiet_set_scram]. destruct (scram_error session); quietly.
  - quietly.
  - quietly.
Qed.

Lemma authenticate_quiet now rand data s s' : authenticate now rand data s = Some s' -> quiet s s'.
Proof.
  unfold inbound_sasl_authenticate. destruct (existsb _ data); [by intros [= <-]|].
  destruct (network s) as [net|]; [|done]. cbn [mbind option_bind].
  destruct (sasl_mech (reg s)); try apply scram_quiet.
  - intros [= <-]. unfold plain_authenticate. quietly.
  - intros [= <-]. quietly.
  - unfold oauth_authenticate. destruct (oauth_access_token (oauth s)) as [[|c t]|].
    + intros [= <-]. quietly.
    + destruct (_ && _); intros [= <-]; quietly.
    + intros [= <-]. quietly.
Qed.

Lemma attach_quiet db s : quiet s (attach db s).
Proof.
  unfold attach, persistence_send_attach. destruct (_ || _); [cbn; quietly|].
  destruct (attach_cursor db (persist_of s)); cbn [foldl]; unfold fmt; cbn [concat]; quietly.
Qed.

(** ** The end of the registration *)

Lemma capends_capend s : capends (send_cap_end s) = S (capends s).
Proof. unfold send_cap_end, send_len. rewrite capends_emit, decide_True by done. change (capends (set_sent_capend true s)) with (capends s). lia. Qed.

(** A handler that may end it: nothing else, or CAP END once. *)
Definition ending (s s' : cap_serv) : Prop :=
  ssl (conn s') = ssl (conn s) /\ sts_upgrade_port (reg s') = sts_upgrade_port (reg s) /\
  waiting_on_cap (reg s') = waiting_on_cap (reg s) /\
  capends s' = (capends s + (if negb (sent_capend (reg s)) && sent_capend (reg s') then 1 else 0))%nat /\
  (sent_capend (reg s) = true -> sent_capend (reg s') = true) /\
  (sent_capend (reg s') = true \/ waiting_on_sasl (reg s') = waiting_on_sasl (reg s) \/
   waiting_on_sasl (reg s') = false /\ waiting_on_cap (reg s') = true).

Lemma quiet_ending s s' : quiet s s' -> ending s s'.
Proof.
  intros [A1 A2 A3 A4 A5 A6]. unfold ending. rewrite A1, A2, A3, A4, A5, A6. split_and!; [done..| |done|by right; left].
  destruct (sent_capend (reg s)); cbn [negb andb]; lia.
Qed.

#[export] Instance ending_preorder : PreOrder ending.
Proof.
  split; [intros s; by apply quiet_ending|].
  intros s1 s2 s3 (A1 & A2 & A3 & A4 & A5 & A6) (B1 & B2 & B3 & B4 & B5 & B6). split_and!; try congruence.
  - rewrite B4, A4. destruct (sent_capend (reg s1)), (sent_capend (reg s2)), (sent_capend (reg s3)); cbn [negb andb];
      first [lia|by specialize (A5 eq_refl)|by specialize (B5 eq_refl)].
  - tauto.
  - destruct B6 as [B6|[B6|B6]]; [by left| |by right; right].
    destruct A6 as [A6|[A6|A6]]; [left; auto|right; left; congruence|]. right; right. by rewrite B6, B3.
Qed.

Lemma finish_ending b s : ending s (if sent_capend (reg s) then set_waiting_on_sasl b s else send_cap_end (set_waiting_on_sasl b s)).
Proof.
  destruct (sent_capend (reg s)) eqn:E; unfold ending; cbn.
  - change (capends (set_waiting_on_sasl b s)) with (capends s). rewrite E. cbn [negb andb]. split_and!; [done..|lia|done|by left].
  - rewrite capends_capend, E. change (capends (set_waiting_on_sasl b s)) with (capends s). cbn [negb andb]. split_and!; [done..|lia|done|by left].
Qed.

Lemma sasl_over_ending n ln db s : ending s (sasl_over n ln db s) /\ sent_capend (reg (sasl_over n ln db s)) = true.
Proof.
  unfold sasl_over. set (s1 := sasl_response ln s).
  assert (Hq1 : quiet s s1) by apply quiet_text.
  change (sent_capend (reg (set_waiting_on_sasl false s1))) with (sent_capend (reg s)).
  set (s2 := if n =? 903 then attach db (set_waiting_on_sasl false s1) else set_waiting_on_sasl false s1).
  assert (Hq : quiet (set_waiting_on_sasl false s1) s2) by (unfold s2; destruct (n =? 903); [apply attach_quiet|done]).
  pose proof (finish_ending false s1) as Hf. change (sent_capend (reg s1)) with (sent_capend (reg s)) in Hf.
  destruct (sent_capend (reg s)) eqn:E.
  - split; [|done]. etrans; [by apply quiet_ending|done].
  - split; [|done]. etrans; [by apply quiet_ending|]. destruct Hf as (F1 & F2 & F3 & F4 & F5 & F6), Hq as [Q1 Q2 Q3 Q4 Q5 Q6].
    unfold ending. rewrite capends_capend, Q6. cbn. rewrite Q1, Q4, Q5. change (capends (set_waiting_on_sasl false s1)) with (capends s1).
    change (sent_capend (reg s1)) with (sent_capend (reg s)). rewrite E. split_and!; [done..|cbn; lia|done|by left].
Qed.

Lemma error_quiet s : quiet s (inbound_sasl_error s).
Proof. unfold inbound_sasl_error. etrans; [|apply abort_quiet]. quietly. Qed.

Lemma retry_error_ending now rand e s s' :
  oauth_sasl_retry_cb hex_irc_user_name now rand (inr e) s = Some s' -> ending s s' /\ sent_capend (reg s') = true.
Proof.
  unfold oauth_sasl_retry_cb. set (s1 := inbound_sasl_error (print _ s)).
  assert (Hq : quiet s s1) by (etrans; [apply quiet_print|apply error_quiet]).
  pose proof (finish_ending false s1) as Hf.
  change (sent_capend (reg (set_waiting_on_sasl false s1))) with (sent_capend (reg s1)).
  intros [= <-]. split.
  - etrans; [apply quiet_ending, Hq|exact Hf].
  - by destruct (sent_capend (reg s)) eqn:E.
Qed.

Lemma update_tokens_quiet token s : quiet s (oauth_update_server_tokens token s).
Proof.
  unfold oauth_update_server_tokens. cbv zeta. set (s1 := put_oauth _ s). assert (quiet s s1) by apply quiet_put_oauth.
  destruct (network s1) as [net|]; [|done]. etrans; [done|]. destruct (net_name net); quietly.
Qed.

Lemma refresh_ending now failure s s' b :
  inbound_sasl_oauth_refresh hex_irc_user_name now failure s = Some (s', b) -> ending s s'.
Proof.
  unfold inbound_sasl_oauth_refresh. destruct (network s) as [net|]; [|by intros [= <- <-]].
  destruct (oauth_refresh_attempted _); [by intros [= <- <-]|]. cbv zeta.
  set (s1 := put_oauth _ s). set (s2 := emit RefreshToken _).
  assert (Hq : quiet s s2).
  { etrans; [apply (quiet_put_oauth (OAuth (oauth_access_token (oauth s)) (oauth_token_expires (oauth s)) true))|].
    etrans; [apply quiet_print|]. by apply quiet_emit. }
  destruct failure as [e|]; [|by intros [= <- <-]; apply quiet_ending].
  destruct (oauth_sasl_retry_cb _ _ _ _ s2) as [s3|] eqn:E; [|done]. cbn [mbind option_bind]. intros [= <- <-].
  etrans; [by apply quiet_ending|]. by apply retry_error_ending in E as [? _].
Qed.

(** A refused token that is refreshed: once, and if the refresh can be asked for. *)
Definition starts_refresh (failure : option cstr) (s : cap_serv) : Prop :=
  sasl_mech (reg s) = MECH_OAUTHBEARER /\ network s <> None /\ oauth_refresh_attempted (oauth s) = false /\ failure = None.

Lemma refresh_starts now failure s s' :
  inbound_sasl_oauth_refresh hex_irc_user_name now failure s = Some (s', true) ->
  network s <> None /\ oauth_refresh_attempted (oauth s) = false /\ failure = None.
Proof.
  unfold inbound_sasl_oauth_refresh. destruct (network s) as [net|]; [|done].
  destruct (oauth_refresh_attempted _); [done|]. cbv zeta. destruct failure; [|done].
  destruct (oauth_sasl_retry_cb _ _ _ _ _); [|done]. done.
Qed.

Lemma numeric_ending now n ln db failure s s' :
  sasl_numeric hex_irc_user_name now n ln db failure s = Some s' ->
  ending s s' /\ (n ∈ [903; 905; 906; 907] -> sent_capend (reg s') = true) /\
  (n = 904 -> sent_capend (reg s') = true \/ starts_refresh failure s).
Proof.
  unfold sasl_numeric. destruct (Z.eqb_spec n 900) as [->|H900].
  { intros [= <-]. split; [apply quiet_ending, quiet_text|]. split; [set_solver|done]. }
  destruct (Z.eqb_spec n 904) as [->|H904].
  - set (again := if decide _ then _ else _). destruct again as [[s1 b]|] eqn:E; [|done]. cbn [mbind option_bind].
    assert (Hq1 : ending s s1).
    { unfold again in E. case_decide; [by apply refresh_ending in E|]. by injection E as <- _. }
    intros [= <-]. destruct b.
    + split; [|split; [set_solver|]]. { etrans; [done|]. apply quiet_ending, quiet_text. }
      intros _. right. unfold again in E. case_decide; [|by injection E]. split; [done|by eapply refresh_starts].
    + destruct (sasl_over_ending 904 ln db (inbound_sasl_error s1)) as [O1 O2]. split; [|by split; [|left]].
      etrans; [done|]. etrans; [apply quiet_ending, error_quiet|done].
  - destruct (_ || _) eqn:Hn; intros [= <-].
    + destruct (sasl_over_ending n ln db s) as [O1 O2]. by split.
    + split; [done|]. split; [|done]. intros Hin. exfalso. rewrite !elem_of_cons in Hin.
      destruct Hin as [->|[->|[->|[->|Hin]]]]; [done..|]. by apply elem_of_nil in Hin.
Qed.

Lemma nak_ending now extensions s s' :
  sts_upgrade_port (reg s) <= 0 -> inbound_cap_nak now extensions s = Some s' -> ending s s'.
Proof.
  intros Hp. unfold inbound_cap_nak. set (has := existsb _ _).
  set (s1 := if has then set_waiting_on_sasl false s else s).
  assert (E1 : waiting_on_cap (reg s1) = waiting_on_cap (reg s)) by (unfold s1; by destruct has).
  assert (E2 : sent_capend (reg s1) = sent_capend (reg s)) by (unfold s1; by destruct has).
  assert (E3 : sts_upgrade_port (reg s1) = sts_upgrade_port (reg s)) by (unfold s1; by destruct has).
  assert (E4 : capends s1 = capends s) by (unfold s1; by destruct has).
  assert (E5 : ssl (conn s1) = ssl (conn s)) by (unfold s1; by destruct has).
  destruct (waiting_on_cap (reg s1) || waiting_on_sasl (reg s1) || sent_capend (reg s1)) eqn:Hw.
  - intros [= <-]. unfold ending. rewrite E1, E2, E3, E4, E5. split_and!; [done..| |done|].
    + destruct (sent_capend (reg s)); cbn; lia.
    + destruct (sent_capend (reg s)) eqn:Es; [by left|]. unfold s1 in *. destruct has; [|by right; left]. right; right.
      split; [done|]. rewrite E1, E2 in Hw. cbn in Hw. by rewrite !orb_false_r in Hw.
  - replace (0 <? sts_upgrade_port (reg s1)) with false by lia. intros [= <-].
    apply orb_false_iff in Hw as [[Hw1 Hw2]%orb_false_iff Hw3]. unfold ending. rewrite capends_capend, E4. cbn.
    rewrite E1, E3, E5, <- E2, Hw3. split_and!; [done..|cbn; lia|done|by left].
Qed.

(** ** A list of capabilities *)

(** What the loop over the list leaves alone on a TLS connection. *)
Record offering (s s' : cap_serv) : Prop := {
  o_cap : waiting_on_cap (reg s') = waiting_on_cap (reg s);
  o_sasl : waiting_on_sasl (reg s) = true -> waiting_on_sasl (reg s') = true;
  o_end : sent_capend (reg s') = sent_capend (reg s);
  o_sts : sts_upgrade_port (reg s') = sts_upgrade_port (reg s);
  o_ssl : ssl (conn s') = ssl (conn s);
  o_login : login_by s' = login_by s;
  o_password : password s' = password s;
  o_sends : sends (log s') = sends (log s) }.

#[local] Instance offering_preorder : PreOrder offering.
Proof.
  split; [by intros s|]. intros s1 s2 s3 [A1 A2 A3 A4 A5 A6 A7 A8] [B1 B2 B3 B4 B5 B6 B7 B8].
  split; [congruence|auto|congruence..].
Qed.

Lemma sts_offering now v s : ssl (conn s) = true -> offering s (sts_extension now v s).
Proof.
  intros Hs. unfold sts_extension. destruct (foldl _ _ _) as [p d]. destruct (0 <? p); [|done]. cbv zeta.
  change (ssl (conn (put_policies (sts_policy_add now (serv_hostname (conn s)) p d (policies s)) s))) with (ssl (conn s)).
  by rewrite Hs.
Qed.

Lemma cap_value_offering ext v s : offering s (cap_value ext v s).
Proof. unfold cap_value. repeat case_match; done. Qed.

(** The name asked for, when the capability is wanted. *)
Definition asks (l : loginmethod) (wants : bool) (extension : cstr) : list cstr :=
  let '(ext, value) := split_value extension in
  if bool_decide (ext = ("sasl" : cstr)) && wants then
    match value with
    | Some v => if bool_decide (is_Some (get_supported_mech l v)) then [ext] else []
    | None => [ext]
    end
  else if bool_decide (ext ∈ supported_caps) then [ext] else [].

Definition spaced (names : list cstr) : cstr := concat (map (fun n => n ++ [" "%char]) names).

(** The text fits the buffer of the request. *)
Definition fits (names : list cstr) : Prop := (9 + length (spaced names) < REQ_BUF)%nat.

Context `{!GStringsLaws H0}.

Lemma strlcat_fits dest src : (length (dest ++ src) < REQ_BUF)%nat -> g_strlcat dest src REQ_BUF = dest ++ src.
Proof. intros Hl. rewrite g_strlcat_spec by (rewrite length_app in Hl; lia). by rewrite take_ge by lia. Qed.

Lemma request_fits r ext :
  (length (ls_buffer r ++ ext ++ [" "%char]) < REQ_BUF)%nat ->
  request (request r ext) " " = LsRun (ls_serv r) (ls_buffer r ++ ext ++ [" "%char]) true.
Proof.
  intros Hl. rewrite !length_app in Hl. simpl in Hl. unfold request. cbn [ls_serv ls_buffer].
  rewrite (strlcat_fits (ls_buffer r)) by (rewrite length_app; lia).
  change (" " : cstr) with [" "%char]. rewrite strlcat_fits by (rewrite !length_app; simpl; lia). by rewrite <- app_assoc.
Qed.

Lemma request_names caps ext r :
  NoDup caps -> (ext ∈ caps -> (length (ls_buffer r ++ ext ++ [" "%char]) < REQ_BUF)%nat) ->
  foldl (fun r cap => if bool_decide (ext = cap) then request (request r ext) " " else r) r caps =
    if bool_decide (ext ∈ caps) then LsRun (ls_serv r) (ls_buffer r ++ ext ++ [" "%char]) true else r.
Proof.
  intros Hnd Hl. induction Hnd as [|c caps Hc Hnd IH]; [done|]. cbn [foldl].
  destruct (decide (ext = c)) as [->|Hne].
  - rewrite bool_decide_eq_true_2 by done. rewrite (bool_decide_eq_true_2 (c ∈ _)) by set_solver.
    rewrite request_fits by (apply Hl; set_solver). set (r' := LsRun _ _ true). clearbody r'. clear IH Hl.
    induction caps as [|d caps IH]; [done|]. cbn [foldl].
    rewrite bool_decide_eq_false_2 by set_solver. apply IH; [set_solver|by inversion Hnd].
  - rewrite bool_decide_eq_false_2 by done. rewrite IH by set_solver.
    by replace (bool_decide (ext ∈ c :: caps)) with (bool_decide (ext ∈ caps)) by (apply bool_decide_ext; set_solver).
Qed.

Lemma supported_nodup : NoDup supported_caps.
Proof. apply (bool_decide_unpack _). by vm_compute. Qed.

Lemma sasl_supported : ("sasl" : cstr) ∉ supported_caps.
Proof. apply (bool_decide_unpack _). by vm_compute. Qed.

Lemma spaced_app l l' : spaced (l ++ l') = spaced l ++ spaced l'.
Proof. unfold spaced. by rewrite map_app, concat_app. Qed.

Lemma ls_extension_spec now r extension :
  let names := asks (login_by (ls_serv r)) (wants_sasl (ls_serv r)) extension in
  let r' := ls_extension now r extension in
  ssl (conn (ls_serv r)) = true -> (length (ls_buffer r ++ spaced names) < REQ_BUF)%nat ->
  offering (ls_serv r) (ls_serv r') /\ ls_buffer r' = ls_buffer r ++ spaced names /\
  want_cap r' = want_cap r || negb (bool_decide (names = [])) /\
  waiting_on_sasl (reg (ls_serv r')) = waiting_on_sasl (reg (ls_serv r)) || bool_decide (("sasl" : cstr) ∈ names).
Proof.
  intros names r' Hssl Hl. unfold r', ls_extension. unfold names, asks in Hl |- *. clear names r'.
  destruct (split_value extension) as [ext value].
  destruct (bool_decide (ext = ("sasl" : cstr))) eqn:Es; cbn [andb].
  - apply bool_decide_eq_true in Es as ->. destruct (wants_sasl (ls_serv r)) eqn:Hw; cbn [andb] in *.
    + assert (Hreq : forall s, (length (ls_buffer r ++ spaced ["sasl" : cstr]) < REQ_BUF)%nat ->
        request (LsRun s (ls_buffer r) (want_cap r)) "sasl " = LsRun s (ls_buffer r ++ spaced ["sasl" : cstr]) true).
      { intros s Hs. unfold request. cbn [ls_serv ls_buffer]. change (spaced ["sasl" : cstr]) with ("sasl " : cstr) in *.
        by rewrite strlcat_fits. }
      destruct value as [v|]; [destruct (get_supported_mech _ v) as [m|]|]; cbn [is_Some] in *.
      * rewrite bool_decide_eq_true_2 in * by done. rewrite Hreq by done. cbn [ls_serv ls_buffer want_cap].
        rewrite orb_true_r. split_and!; [done..|by rewrite orb_true_r].
      * rewrite bool_decide_eq_false_2 by by intros [? ?]. cbn. by rewrite !orb_false_r, app_nil_r.
      * rewrite Hreq by done. cbn [ls_serv ls_buffer want_cap]. rewrite orb_true_r. split_and!; [done..|by rewrite orb_true_r].
    + rewrite (bool_decide_eq_false_2 (("sasl" : cstr) = ("sts" : cstr))) by done. cbn [negb].
      rewrite (bool_decide_eq_false_2 (_ ∈ supported_caps)) in * by exact sasl_supported.
      set (s' := match value with Some v => _ | None => _ end). assert (Ho : offering (ls_serv r) s').
      { unfold s'. destruct value; [apply cap_value_offering|done]. }
      assert (Hsame : waiting_on_sasl (reg s') = waiting_on_sasl (reg (ls_serv r))).
      { unfold s'. destruct value; [|done]. unfold cap_value. by repeat case_match. }
      clearbody s'. rewrite request_names; [|exact supported_nodup|by intros ?%sasl_supported].
      rewrite (bool_decide_eq_false_2 (_ ∈ supported_caps)) by exact sasl_supported. cbn.
      by rewrite !orb_false_r, app_nil_r.
  - apply bool_decide_eq_false in Es.
    destruct (decide (ext = ("sts" : cstr) /\ is_Some value)) as [[-> [v ->]]|Hsts].
    + rewrite bool_decide_eq_true_2 by done. rewrite (bool_decide_eq_false_2 (_ ∈ supported_caps)) by (apply (bool_decide_unpack _); by vm_compute).
      cbn. rewrite !orb_false_r, app_nil_r. split_and!; [by apply sts_offering|done..|].
      unfold sts_extension. destruct (foldl _ _ _) as [p d]. destruct (0 <? p); [|done]. cbv zeta. by destruct (ssl _).
    + assert (Hm : forall (a : cstr -> ls_run) (b : ls_run),
        match bool_decide (ext = ("sts" : cstr)), value with true, Some v => a v | _, _ => b end = b).
      { intros a b. destruct (bool_decide (ext = ("sts" : cstr))) eqn:E; [|done]. apply bool_decide_eq_true in E. destruct value; [|done]. exfalso. apply Hsts. by split. }
      rewrite Hm. set (s' := match value with Some v => _ | None => _ end). assert (Ho : offering (ls_serv r) s').
      { unfold s'. destruct value; [apply cap_value_offering|done]. }
      assert (Hsame : waiting_on_sasl (reg s') = waiting_on_sasl (reg (ls_serv r))).
      { unfold s'. destruct value; [|done]. unfold cap_value. by repeat case_match. }
      clearbody s'. rewrite request_names; cbn [ls_serv ls_buffer want_cap]; [|exact supported_nodup|].
      2: { intros Hin. rewrite bool_decide_eq_true_2 in Hl by done. unfold spaced in Hl. cbn in Hl. by rewrite app_nil_r in Hl. }
      destruct (bool_decide (ext ∈ supported_caps)) eqn:Hin; cbn; rewrite ?app_nil_r, ?orb_false_r; [|by split_and!].
      rewrite orb_true_r. split_and!; [done..|]. rewrite bool_decide_eq_false_2; [by rewrite orb_false_r|].
      intros [E%eq_sym|[]%elem_of_nil]%elem_of_cons. by apply Es.
Qed.

Lemma ls_extension_offering now r extension : ssl (conn (ls_serv r)) = true -> offering (ls_serv r) (ls_serv (ls_extension now r extension)).
Proof.
  intros Hssl. unfold ls_extension. destruct (split_value extension) as [ext value].
  assert (Hfold : forall caps r, ls_serv (foldl (fun r cap => if bool_decide (ext = cap) then request (request r ext) " " else r) r caps) = ls_serv r).
  { intros caps. induction caps as [|c caps IH]; intros r'; [done|]. cbn [foldl]. rewrite IH. by case_bool_decide. }
  destruct (_ && _); [destruct value as [v|]; [destruct (get_supported_mech _ v)|]; done|].
  destruct (bool_decide (ext = ("sts" : cstr))), value as [v|]; rewrite ?Hfold;
    [by apply sts_offering|done|apply cap_value_offering|done].
Qed.

Lemma ls_loop_offering now exts r :
  ssl (conn (ls_serv r)) = true -> offering (ls_serv r) (ls_serv (foldl (ls_extension now) r exts)).
Proof.
  revert r. induction exts as [|e exts IH]; intros r Hssl; [done|]. cbn [foldl].
  pose proof (ls_extension_offering now r e Hssl) as Ho. etrans; [exact Ho|]. apply IH. by rewrite (o_ssl _ _ Ho).
Qed.

Lemma wants_sasl_offering s s' : offering s s' -> wants_sasl s' = wants_sasl s.
Proof. intros Ho. unfold wants_sasl. by rewrite (o_login _ _ Ho), (o_password _ _ Ho). Qed.

(** The names asked for, in the order of the list. *)
Definition asked (s : cap_serv) (exts : list cstr) : list cstr := concat (map (asks (login_by s) (wants_sasl s)) exts).

Lemma ls_loop_spec now exts r :
  let names := asked (ls_serv r) exts in
  let r' := foldl (ls_extension now) r exts in
  ssl (conn (ls_serv r)) = true -> (length (ls_buffer r ++ spaced names) < REQ_BUF)%nat ->
  ls_buffer r' = ls_buffer r ++ spaced names /\
  want_cap r' = want_cap r || negb (bool_decide (names = [])) /\
  waiting_on_sasl (reg (ls_serv r')) = waiting_on_sasl (reg (ls_serv r)) || bool_decide (("sasl" : cstr) ∈ names).
Proof.
  revert r. induction exts as [|e exts IH]; intros r names r' Hssl Hl.
  { cbn. by rewrite app_nil_r, !orb_false_r. }
  unfold names, r', asked in *. clear names r'. cbn [map concat foldl] in *. set (n1 := asks _ _ e) in *.
  set (n2 := concat (map (asks (login_by (ls_serv r)) (wants_sasl (ls_serv r))) exts)) in *. rewrite spaced_app in Hl.
  destruct (ls_extension_spec now r e Hssl) as (Ho & E1 & E2 & E3).
  { fold n1. rewrite !length_app in *. lia. }
  fold n1 in E1, E2, E3. set (r1 := ls_extension now r e) in *.
  destruct (IH r1) as (F1 & F2 & F3).
  - by rewrite (o_ssl _ _ Ho).
  - rewrite (o_login _ _ Ho), (wants_sasl_offering _ _ Ho), E1. fold n2. by rewrite <- app_assoc.
  - rewrite (o_login _ _ Ho), (wants_sasl_offering _ _ Ho) in F1, F2, F3. fold n2 in F1, F2, F3.
    rewrite F1, F2, F3, E1, E2, E3, spaced_app, <- app_assoc, <- !orb_assoc. split_and!; [done|f_equal|f_equal].
    + by destruct n1, n2.
    + rewrite <- bool_decide_or. apply bool_decide_ext. by rewrite elem_of_app.
Qed.

Lemma sendf_whole x : (length x <= 1538)%nat -> tcp_sendf_bytes x = x.
Proof.
  intros Hx. unfold tcp_sendf_bytes. change (Z.to_nat (SEND_BUF - 1 - 1)) with 1538%nat. rewrite (take_ge x) by lia.
  replace (SEND_BUF - 1 <? Z.of_nat (length x)) with false by (unfold SEND_BUF; lia).
  rewrite Nat2Z.id. by rewrite take_app_length.
Qed.

(** Names with a blank between them. *)
Definition listed (names : list cstr) : cstr := join " " names.

Lemma spaced_listed n names : spaced (n :: names) = listed (n :: names) ++ [" "%char].
Proof.
  revert n. induction names as [|m names IH]; intros n; [unfold spaced; cbn; by rewrite app_nil_r|].
  change (spaced (n :: m :: names)) with ((n ++ [" "%char]) ++ spaced (m :: names)). rewrite IH.
  change (listed (n :: m :: names)) with (n ++ " "%char :: listed (m :: names)). by rewrite <- !app_assoc.
Qed.

Definition askable (n : cstr) : Prop := n ∈ ("sasl" : cstr) :: supported_caps.

Lemma asks_askable l wants e : Forall askable (asks l wants e).
Proof.
  unfold asks. destruct (split_value e) as [ext value]. destruct (bool_decide (ext = _)) eqn:E; cbn [andb].
  - apply bool_decide_eq_true in E as ->. assert (askable "sasl") by (unfold askable; set_solver).
    destruct wants; [destruct value; [case_bool_decide|]|case_bool_decide]; repeat constructor; done.
  - clear E. destruct (bool_decide (ext ∈ supported_caps)) eqn:E; [|done].
    apply bool_decide_eq_true in E. apply Forall_singleton, elem_of_cons. by right.
Qed.

Lemma asked_askable s exts : Forall askable (asked s exts).
Proof.
  unfold asked. induction exts as [|e exts IH]; [done|]. cbn [map concat]. apply Forall_app. by split; [apply asks_askable|].
Qed.

Lemma askable_end n : askable n -> exists m c, n = m ++ [c] /\ ~ is_blank c.
Proof.
  intros Hn. assert (Hall : Forall (fun n => exists c, last n = Some c /\ ~ is_blank c) (("sasl" : cstr) :: supported_caps)).
  { repeat constructor; eexists; (split; [reflexivity|]); unfold is_blank; intros Hb; repeat destruct Hb as [Hb|Hb]; done. }
  rewrite Forall_forall in Hall. destruct (Hall n Hn) as (c & Hc & Hb). apply last_Some in Hc as [m ->]. by exists m, c.
Qed.

Lemma listed_end n names : Forall askable (n :: names) -> exists m c, listed (n :: names) = m ++ [c] /\ ~ is_blank c.
Proof.
  revert n. induction names as [|x names IH]; intros n [Hn Hns]%Forall_cons.
  - destruct (askable_end n Hn) as (m & c & -> & Hc). by exists m, c.
  - destruct (IH x Hns) as (m & c & E & Hc). change (listed (n :: x :: names)) with (n ++ " "%char :: listed (x :: names)).
    rewrite E. exists (n ++ " "%char :: m), c. by rewrite <- app_assoc.
Qed.

Lemma chomp_request n names :
  Forall askable (n :: names) -> g_strchomp (("CAP REQ :" : cstr) ++ spaced (n :: names)) = ("CAP REQ :" : cstr) ++ listed (n :: names).
Proof.
  intros Hn. rewrite spaced_listed, app_assoc. apply g_strchomp_spec; [repeat constructor; by left|].
  destruct (listed_end n names Hn) as (m & c & -> & Hc). intros d. rewrite app_assoc, last_snoc. by intros [= <-].
Qed.

Context `{!GLibLaws H}.

(** The text of a line of CAP LS; the star says that more lines follow. *)
Definition offer_text (more : bool) (exts : list cstr) : cstr := (if more then ("* :" : cstr) else []) ++ join " " exts.

Lemma join_pieces d e es : join d (e :: es) = e ++ concat (map (cons d) es).
Proof.
  revert e. induction es as [|x es IH]; intros e; [cbn; by rewrite app_nil_r|].
  change (join d (e :: x :: es)) with (e ++ d :: join d (x :: es)). rewrite IH. done.
Qed.

Lemma split_join e es : e <> [] -> Forall (fun x => " "%char ∉ x) (e :: es) -> g_strsplit (join " " (e :: es)) " " = e :: es.
Proof. intros He Hs. rewrite join_pieces. apply g_strsplit_pieces; [done|]. by destruct e. Qed.

Lemma marker_of more e es :
  e <> [] -> " "%char ∉ e -> e <> ("*" : cstr) ->
  list_marker (offer_text more (e :: es)) = if more then Some (join " " (e :: es)) else None.
Proof.
  intros He Hs Hstar. destruct more; [done|]. unfold offer_text, list_marker. rewrite join_pieces. cbn [app].
  change ("* " : cstr) with ["*"%char; " "%char]. destruct e as [|c e]; [done|]. cbn [app after_prefix]. destruct (Ascii.eqb_spec "*" c) as [<-|]; [|done].
  destruct e as [|x e]; [done|]. cbn [app after_prefix]. destruct (Ascii.eqb_spec " " x) as [<-|]; [|done]. set_solver.
Qed.

Definition asked_line (names : list cstr) : list cstr :=
  match names with [] => [] | _ => [("CAP REQ :" : cstr) ++ listed names ++ EOL] end.

(** What is asked for is what is offered and wanted: on a TLS connection a line
    of CAP LS is answered by one CAP REQ with the supported names of the line,
    in its order and "sasl" among them when the login method wants it and its
    mechanism is offered, or by none when there is no such name; and CAP END
    follows at once unless more lines or SASL are waited for. *)
Theorem cap_ls_request now nick more e es s :
  e <> [] -> e <> ("*" : cstr) -> Forall (fun x => " "%char ∉ x) (e :: es) ->
  ssl (conn s) = true -> sts_upgrade_port (reg s) <= 0 -> fits (asked s (e :: es)) ->
  exists s', inbound_cap_ls now nick (offer_text more (e :: es)) s = Some s' /\
    let names := asked s (e :: es) in
    waiting_on_cap (reg s') = more /\
    waiting_on_sasl (reg s') = waiting_on_sasl (reg s) || bool_decide (("sasl" : cstr) ∈ names) /\
    let idle := negb more && negb (waiting_on_sasl (reg s')) in
    sent_capend (reg s') = sent_capend (reg s) || idle /\
    sends (log s') = sends (log s) ++ asked_line names ++ (if idle then [capend_line] else []).
Proof.
  intros He Hstar Hsp Hssl Hport Hfits. unfold inbound_cap_ls.
  rewrite marker_of by (done || by inversion Hsp). set (text := default _ _).
  assert (Et : g_strsplit text " " = e :: es) by (unfold text; destruct more; cbn; by apply split_join).
  replace (bool_decide (is_Some _)) with more by (by destruct more). rewrite Et. clear Et.
  set (s1 := emit _ _). set (names := asked s (e :: es)). set (r0 := LsRun s1 _ false).
  change (asked s (e :: es)) with (asked (ls_serv r0) (e :: es)) in names.
  pose proof (ls_loop_offering now (e :: es) r0 Hssl) as Ho.
  destruct (ls_loop_spec now (e :: es) r0 Hssl) as (E1 & E2 & E3).
  { fold names. rewrite length_app. exact Hfits. }
  fold names in E1, E2, E3. set (r := foldl _ r0 _) in *. cbn [r0 ls_buffer want_cap orb] in E1, E2.
  set (s2 := if want_cap r then _ else _).
  assert (Hr : reg s2 = reg (ls_serv r)) by (unfold s2; by destruct (want_cap r)).
  assert (Hc : conn s2 = conn (ls_serv r)) by (unfold s2; by destruct (want_cap r)).
  assert (Hlog : sends (log s2) = sends (log s) ++ asked_line names).
  { replace (sends (log s)) with (sends (log s1)) by (unfold s1, sends; cbn [emit log]; by rewrite omap_app, app_nil_r).
    pose proof (o_sends _ _ Ho) as Hso. change (ls_serv r0) with s1 in Hso. rewrite <- Hso. unfold s2. rewrite E2.
    pose proof (asked_askable s (e :: es)) as Hask. change (asked s (e :: es)) with names in Hask.
    destruct names as [|n names'] eqn:En; [by rewrite app_nil_r|]. cbn [bool_decide negb].
    rewrite bool_decide_eq_false_2 by done. cbn [negb]. unfold sendf, emit, sends. cbn [log].
    rewrite !omap_app, <- app_assoc. f_equal. cbn [omap list_omap app]. rewrite E1, chomp_request by done.
    unfold fmt. cbn [concat]. rewrite app_nil_r, <- app_assoc. rewrite sendf_whole; [done|].
    unfold fits in Hfits. change (asked s (e :: es)) with names in Hfits. rewrite En, spaced_listed, length_app in Hfits. rewrite !length_app. unfold REQ_BUF in Hfits. simpl in *. lia. }
  rewrite Hr, (o_cap _ _ Ho), (o_sts _ _ Ho), E3. cbn [r0 ls_serv s1 emit reg set_waiting_on_cap put_reg waiting_on_cap sts_upgrade_port waiting_on_sasl].
  replace (0 <? sts_upgrade_port (reg s)) with false by lia. set (w := waiting_on_sasl (reg s) || _).
  assert (Hw : waiting_on_cap (reg s2) = more /\ waiting_on_sasl (reg s2) = w /\ sent_capend (reg s2) = sent_capend (reg s)).
  { by rewrite Hr, (o_cap _ _ Ho), (o_end _ _ Ho), E3. }
  destruct Hw as (W1 & W2 & W3). rewrite orb_comm.
  destruct (more || w) eqn:Hidle.
  - eexists. split; [done|]. rewrite W1, W2, W3. split_and!; [done..| |].
    + destruct more; cbn [negb andb] in *; [by rewrite orb_false_r|]. cbn in Hidle. by rewrite Hidle, orb_false_r.
    + rewrite Hlog. destruct more; cbn [negb andb orb] in *; [by rewrite app_nil_r|]. by rewrite Hidle, app_nil_r.
  - apply orb_false_iff in Hidle as [-> Hw]. eexists. split; [done|].
    cbn [send_cap_end send_len emit reg set_sent_capend put_reg waiting_on_cap waiting_on_sasl sent_capend log].
    rewrite W1, W2, Hw. cbn [negb andb]. rewrite orb_true_r. split_and!; [done..|].
    unfold sends. rewrite omap_app. unfold sends in Hlog. rewrite Hlog. by rewrite <- app_assoc.
Qed.

(** ** The whole flight *)

(** Lines and answers on one connection. *)
Definition message (e : login_event) : Prop :=
  match e with OnConnect _ _ _ _ | OnConnected | OnDisconnect => False | _ => True end.

Definition cap_text_of (ln : line) : cstr := if peek (word ln 5) =c ":" then drop 1 (word_eol ln 5) else word_eol ln 5.

(** A list of capabilities, CAP LS or CAP NEW. *)
Definition is_offer (ln : line) : bool := negb (begins "ACK" (word ln 4)) && (begins "LS" (word ln 4) || begins "NEW" (word ln 4)).
Definition offers (e : login_event) : bool := match e with OnCap _ ln => is_offer ln | _ => false end.

(** One that has "sasl". *)
Definition names_sasl (extensions : cstr) : bool :=
  existsb (fun x => bool_decide ((split_value x).1 = ("sasl" : cstr))) (g_strsplit (default extensions (list_marker extensions)) " ").
Definition offers_sasl (e : login_event) : bool :=
  match e with OnCap _ ln => is_offer ln && names_sasl (cap_text_of ln) | _ => false end.

Lemma ls_loop_sasl now exts r :
  waiting_on_sasl (reg (ls_serv (foldl (ls_extension now) r exts))) = true ->
  waiting_on_sasl (reg (ls_serv r)) = true \/ existsb (fun x => bool_decide ((split_value x).1 = ("sasl" : cstr))) exts = true.
Proof.
  revert r. induction exts as [|e exts IH]; intros r; [by left|]. cbn [foldl existsb]. intros [Hw|Hw]%IH.
  2: { right. by rewrite Hw, orb_true_r. }
  revert Hw. unfold ls_extension. destruct (split_value e) as [ext value]. cbn [fst].
  destruct (bool_decide (ext = ("sasl" : cstr))); [by right|]. cbn [andb orb]. intros Hw. left. revert Hw.
  assert (Hfold : forall caps r, ls_serv (foldl (fun r cap => if bool_decide (ext = cap) then request (request r ext) " " else r) r caps) = ls_serv r).
  { intros caps. induction caps as [|c caps IHc]; intros r'; [done|]. cbn [foldl]. rewrite IHc. by case_bool_decide. }
  destruct (bool_decide (ext = ("sts" : cstr))), value as [v|]; rewrite ?Hfold; try done.
  - cbn [ls_serv]. unfold sts_extension. destruct (foldl sts_token _ _) as [p d]. destruct (0 <? p); [|done]. cbv zeta. by destruct (ssl _).
  - cbn [ls_serv]. unfold cap_value. by repeat case_match.
Qed.

Lemma offer_step now nick extensions s s' :
  ssl (conn s) = true -> sts_upgrade_port (reg s) <= 0 -> inbound_cap_ls now nick extensions s = Some s' ->
  ssl (conn s') = true /\ sts_upgrade_port (reg s') <= 0 /\
  (sent_capend (reg s') = true \/ waiting_on_cap (reg s') = true \/ waiting_on_sasl (reg s') = true) /\
  (sent_capend (reg s) = true -> sent_capend (reg s') = true) /\
  (waiting_on_sasl (reg s') = true -> waiting_on_sasl (reg s) = true \/ names_sasl extensions = true).
Proof.
  intros Hssl Hport. unfold inbound_cap_ls. set (s1 := emit _ _). set (r0 := LsRun s1 _ false).
  pose proof (ls_loop_offering now (g_strsplit (default extensions (list_marker extensions)) " ") r0 Hssl) as Ho.
  set (r := foldl _ r0 _) in *. set (s2 := if want_cap r then _ else _).
  assert (Hr : reg s2 = reg (ls_serv r)) by (unfold s2; by destruct (want_cap r)).
  assert (Hc : conn s2 = conn (ls_serv r)) by (unfold s2; by destruct (want_cap r)).
  assert (Hs : ssl (conn s2) = true) by (rewrite Hc, (o_ssl _ _ Ho); exact Hssl).
  assert (Hp : sts_upgrade_port (reg s2) <= 0) by (rewrite Hr, (o_sts _ _ Ho); exact Hport).
  assert (He : sent_capend (reg s) = true -> sent_capend (reg s2) = true) by (rewrite Hr, (o_end _ _ Ho); done).
  assert (Hsasl : waiting_on_sasl (reg s2) = true -> waiting_on_sasl (reg s) = true \/ names_sasl extensions = true).
  { rewrite Hr. apply ls_loop_sasl. }
  clearbody s2. destruct (waiting_on_sasl (reg s2) || waiting_on_cap (reg s2)) eqn:Hw.
  - intros [= <-]. apply orb_true_iff in Hw. split_and!; [done..|right; tauto|done|done].
  - replace (0 <? sts_upgrade_port (reg s2)) with false by lia. intros [= <-]. split_and!; [done..|by left|done|done].
Qed.

Lemma cap_ending now ln s s' :
  is_offer ln = false -> sts_upgrade_port (reg s) <= 0 -> handle_cap now ln s = Some s' -> ending s s'.
Proof.
  unfold is_offer, handle_cap. intros Hno Hp. cbv zeta. set (text := if peek (word ln 5) =c ":" then _ else _).
  destruct (begins "ACK" (word ln 4)).
  { intros [= <-]. apply quiet_ending. unfold inbound_cap_ack. etrans; [apply quiet_text|apply toggle_caps_quiet]. }
  destruct (begins "LS" (word ln 4) || begins "NEW" (word ln 4)); [done|].
  destruct (begins "NAK" (word ln 4)); [by apply nak_ending|].
  destruct (begins "LIST" (word ln 4)); [intros [= <-]; apply quiet_ending, quiet_text|].
  destruct (begins "DEL" (word ln 4)); [|by intros [= <-]].
  intros [= <-]. apply quiet_ending. unfold inbound_cap_del. etrans; [apply quiet_text|apply toggle_caps_quiet].
Qed.

(** Any message but a list of capabilities. *)
Lemma step_ending e s s' :
  message e -> offers e = false -> sts_upgrade_port (reg s) <= 0 -> step e s = Some s' -> ending s s'.
Proof.
  intros Hm Hno Hp. destruct e as [now ln|now rand data|now n ln db failure|now rand answer| | |]; try done; cbn [login_step].
  - by apply cap_ending.
  - intros Hs. by eapply quiet_ending, authenticate_quiet.
  - intros Hs. by apply numeric_ending in Hs as [? _].
  - destruct answer as [token|e]; [|intros Hs; by apply retry_error_ending in Hs as [? _]].
    unfold oauth_sasl_retry_cb. intros Hs. apply authenticate_quiet in Hs. apply quiet_ending.
    etrans; [|exact Hs]. etrans; [apply update_tokens_quiet|apply quiet_print].
Qed.

(** C20. CAP END is sent once: in any sequence of messages after the lists of
    capabilities, from any state with no STS upgrade pending, it is sent exactly
    when the registration was still open and is not any more, whatever
    acknowledgements, refusals, SASL exchanges, numerics and token refreshes come,
    and never again. *)
Theorem cap_end_once es s s' :
  Forall message es -> Forall (fun e => offers e = false) es -> sts_upgrade_port (reg s) <= 0 ->
  run es s = Some s' ->
  capends s' = (capends s + (if negb (sent_capend (reg s)) && sent_capend (reg s') then 1 else 0))%nat /\
  (sent_capend (reg s) = true -> sent_capend (reg s') = true).
Proof.
  intros Hm Hno Hp Hrun. assert (He : ending s s').
  { revert s Hp Hrun. induction es as [|e es IH]; intros s Hp; cbn [login_run]; [by intros [= <-]|].
    apply Forall_cons in Hm as [Hm Hms], Hno as [Hno Hnos].
    destruct (step e s) as [s1|] eqn:E; [|done]. cbn [mbind option_bind]. intros Hrun.
    pose proof (step_ending e s s1 Hm Hno Hp E) as He. etrans; [exact He|]. apply IH; [done..| |done].
    destruct He as (_ & -> & _). done. }
  by destruct He as (_ & _ & _ & ? & ? & _).
Qed.

(** What ends a SASL exchange. *)
Definition closes (s : cap_serv) (e : login_event) : Prop :=
  match e with
  | OnNumeric _ n _ _ failure => n ∈ [903; 905; 906; 907] \/ n = 904 /\ ~ starts_refresh failure s
  | OnToken _ _ (inr _) => True
  | OnCap _ ln =>
      begins "ACK" (word ln 4) = false /\ is_offer ln = false /\ begins "NAK" (word ln 4) = true /\
      existsb (fun x => bool_decide (x = ("sasl" : cstr))) (g_strsplit (cap_text_of ln) " ") = true
  | _ => False
  end.

Lemma closing_step e s s' :
  closes s e -> waiting_on_cap (reg s) = false -> sts_upgrade_port (reg s) <= 0 ->
  step e s = Some s' -> sent_capend (reg s') = true.
Proof.
  intros Hc Hw Hp. destruct e as [now ln|now rand data|now n ln db failure|now rand answer| | |]; try done; cbn [login_step].
  - destruct Hc as (Ha & Ho & Hn & Hx). unfold handle_cap. cbv zeta. fold (cap_text_of ln).
    unfold is_offer in Ho. rewrite Ha in Ho |- *. cbn [negb andb] in Ho. rewrite Ho, Hn. unfold inbound_cap_nak. rewrite Hx.
    cbn. rewrite Hw. cbn [orb]. destruct (sent_capend (reg s)) eqn:E; [by intros [= <-]|].
    replace (0 <? sts_upgrade_port (reg s)) with false by lia. by intros [= <-].
  - intros Hs. destruct (numeric_ending now n ln db failure s s' Hs) as (_ & N1 & N2).
    destruct Hc as [Hc|[Hc Hm]]; [by apply N1|]. by destruct (N2 Hc).
  - destruct answer; [done|]. intros Hs. by apply retry_error_ending in Hs as [_ ?].
Qed.

(** C10. Registration does not stall: on a TLS connection with no STS upgrade pending
    that starts without a SASL exchange to wait for ([stale_wait_for_sasl] shows
    what one left over from the last connection does), after any sequence of messages in
    which the capabilities were listed to the end, CAP END has been sent, unless
    the server offered SASL and the exchange is under way; and then every way for it
    to end (903, 905, 906, 907, the capability refused, a token that cannot be
    refreshed, and 904 unless it starts the one refresh of a token) sends CAP END. *)
Theorem registration_completes es s s' :
  Forall message es -> ssl (conn s) = true -> sts_upgrade_port (reg s) <= 0 -> waiting_on_sasl (reg s) = false ->
  existsb offers es = true -> run es s = Some s' -> waiting_on_cap (reg s') = false ->
  sent_capend (reg s') = true \/
  waiting_on_sasl (reg s') = true /\ existsb offers_sasl es = true /\
  forall e t, closes s' e -> step e s' = Some t -> sent_capend (reg t) = true.
Proof.
  intros Hm Hssl Hp Hfresh Hex Hrun Hw.
  set (inv (seen sasl : bool) s := ssl (conn s) = true /\ sts_upgrade_port (reg s) <= 0 /\
    (seen = true -> sent_capend (reg s) = true \/ waiting_on_cap (reg s) = true \/ waiting_on_sasl (reg s) = true) /\
    (sent_capend (reg s) = true \/ (waiting_on_sasl (reg s) = true -> sasl = true))).
  assert (Hinv : inv (existsb offers es) (existsb offers_sasl es) s').
  { cut (forall seen sasl, inv seen sasl s -> inv (seen || existsb offers es) (sasl || existsb offers_sasl es) s').
    { intros Hc. apply (Hc false false). split_and!; [done..|]. right. by rewrite Hfresh. }
    clear Hex Hw Hssl Hp Hfresh. revert s Hrun. induction es as [|e es IH]; intros s Hrun seen sasl Hs; cbn [login_run existsb] in *.
    { injection Hrun as <-. by rewrite !orb_false_r. }
    apply Forall_cons in Hm as [Hm Hms]. destruct (step e s) as [s1|] eqn:E; [|done]. cbn [mbind option_bind] in Hrun.
    rewrite !orb_assoc. apply (IH Hms s1 Hrun). destruct Hs as (S1 & S2 & S3 & S4). destruct (offers e) eqn:Hof.
    - destruct e as [now ln| | | | | |]; try done. cbn [offers offers_sasl login_step] in *. unfold handle_cap in E. rewrite Hof.
      unfold is_offer in Hof. apply andb_true_iff in Hof as [Ha%negb_true_iff Hl]. rewrite Ha, Hl in E.
      apply offer_step in E as (O1 & O2 & O3 & O4 & O5); [|done..]. fold (cap_text_of ln) in O5. split_and!; [done..|].
      destruct S4 as [?|S4]; [left; auto|right]. intros Hws. apply orb_true_iff. cbn [andb].
      destruct (O5 Hws) as [?|?]; [left; auto|by right].
    - assert (Hns : offers_sasl e = false) by (destruct e; try done; cbn in *; by rewrite Hof).
      rewrite Hns, !orb_false_r. destruct (step_ending e s s1 Hm Hof S2 E) as (E1 & E2 & E3 & _ & E5 & E6).
      split_and!; [congruence|by rewrite E2|..].
      + intros Hseen. destruct (S3 Hseen) as [?|[?|?]]; [left; auto|right; left; congruence|].
        destruct E6 as [?|[?|[? ?]]]; [by left|right; right; congruence|by right; left].
      + destruct S4 as [?|S4]; [left; auto|]. destruct E6 as [?|[E6|[E6 _]]]; [by left|right; by rewrite E6|right; by rewrite E6]. }
  destruct Hinv as (I1 & I2 & I3 & I4). destruct (I3 Hex) as [?|[?|Hws]]; [by left|congruence|].
  destruct I4 as [?|I4]; [by left|]. right. split_and!; [done|by apply I4|]. intros e t Hc Ht. by eapply closing_step.
Qed.

(** ** What a server reads *)

(** Up to CR LF, and what follows. *)
Fixpoint take_line (s : cstr) : option (cstr * cstr) :=
  match s with
  | a :: rest =>
      match rest with
      | b :: rest' => if (a =c CR) && (b =c LF) then Some ([], rest') else '(l, r) ← take_line rest; Some (a :: l, r)
      | [] => None
      end
  | [] => None
  end.

(** IRCv3 SASL: the payloads joined, up to one shorter than 400 bytes or "+". *)
Fixpoint sasl_collect (fuel : nat) (bytes acc : cstr) : option cstr :=
  match fuel with
  | O => None
  | S fuel =>
      '(l, rest) ← take_line bytes;
      payload ← after_prefix "AUTHENTICATE " l;
      if bool_decide (payload = ("+" : cstr)) then if bool_decide (rest = []) then Some acc else None
      else if Nat.eqb (length payload) 400 then sasl_collect fuel rest (acc ++ payload)
      else if Nat.ltb (length payload) 400 && bool_decide (rest = []) then Some (acc ++ payload) else None
  end.

Definition authenticate_line (payload : cstr) : cstr := fmt [("AUTHENTICATE " : cstr); payload; EOL].

Lemma take_line_text x rest : CR ∉ x -> take_line (x ++ EOL ++ rest) = Some (x, rest).
Proof.
  induction x as [|c x IH]; intros Hx; [done|]. apply not_elem_of_cons in Hx as [Hc Hx]. specialize (IH Hx).
  cbn [app]. destruct (x ++ EOL ++ rest) as [|b r] eqn:E; [by destruct x|]. cbn [take_line].
  destruct (Ascii.eqb_spec c CR); [congruence|]. cbn [andb]. change (match r with [] => _ | _ :: _ => _ end) with (take_line (b :: r)).
  rewrite IH. done.
Qed.

Lemma collect_line fuel payload rest acc :
  CR ∉ payload -> sasl_collect (S fuel) (authenticate_line payload ++ rest) acc =
    if bool_decide (payload = ("+" : cstr)) then if bool_decide (rest = []) then Some acc else None
    else if Nat.eqb (length payload) 400 then sasl_collect fuel rest (acc ++ payload)
    else if Nat.ltb (length payload) 400 && bool_decide (rest = []) then Some (acc ++ payload) else None.
Proof.
  intros Hp. cbn [sasl_collect].
  replace (authenticate_line payload ++ rest) with ((("AUTHENTICATE " : cstr) ++ payload) ++ EOL ++ rest)
    by (unfold authenticate_line, fmt; cbn [concat]; by rewrite app_nil_r, <- !app_assoc).
  rewrite take_line_text by (apply not_elem_of_app; split; [by apply (bool_decide_unpack _); vm_compute|done]).
  cbn [mbind option_bind]. by rewrite after_prefix_app.
Qed.

(** Any payload in whole quads comes together again. *)
Lemma collect_chunks encoded k fuel n acc :
  CR ∉ encoded -> length encoded = (4 * k)%nat -> (length encoded <= fuel)%nat -> (length encoded < n)%nat ->
  sasl_collect n (authenticate_chunks fuel encoded ++
    (if Nat.eqb (length encoded mod 400) 0 then authenticate_line "+" else [])) acc = Some (acc ++ encoded).
Proof.
  revert encoded k fuel acc. induction n as [|n IH]; intros encoded k fuel acc Hcr Hk Hfuel Hn; [lia|].
  destruct encoded as [|c e].
  - destruct fuel; change (Nat.eqb (length [] mod 400) 0) with true; cbn [authenticate_chunks app];
      (rewrite <- (app_nil_r (authenticate_line "+")), collect_line by (apply (bool_decide_unpack _); by vm_compute)); by rewrite app_nil_r.
  - destruct fuel as [|fuel]; [simpl in Hfuel; lia|]. set (x := c :: e) in *.
    change (authenticate_chunks (S fuel) x) with (authenticate_line (take 400 x) ++ authenticate_chunks fuel (drop 400 x)).
    rewrite <- app_assoc, collect_line by (intros Hin; by apply Hcr, (subseteq_take 400)).
    rewrite bool_decide_eq_false_2.
    2: { intros Hp. apply (f_equal length) in Hp. rewrite length_take in Hp. simpl length in Hp at 2. lia. }
    assert (Hx : (0 < length x)%nat) by (unfold x; simpl; lia).
    rewrite length_take. destruct (Nat.eqb_spec (400 `min` length x) 400) as [Hfull|Hfull].
    + assert (Hm : (length x mod 400 = length (drop 400 x) mod 400)%nat).
      { rewrite length_drop. replace (length x) with (length x - 400 + 1 * 400)%nat at 1 by lia. by rewrite Nat.Div0.mod_add. }
      rewrite Hm. rewrite (IH (drop 400 x) (k - 100)%nat).
      * by rewrite <- app_assoc, take_drop.
      * intros Hin. by apply Hcr, (subseteq_drop 400).
      * rewrite length_drop. lia.
      * rewrite length_drop. lia.
      * rewrite length_drop. lia.
    + rewrite drop_ge by lia. replace (length x mod 400)%nat with (length x) by (symmetry; apply Nat.mod_small; lia).
      replace (Nat.eqb (length x) 0) with false by (symmetry; apply Nat.eqb_neq; lia).
      replace (authenticate_chunks fuel []) with ([] : cstr) by (by destruct fuel). cbn [app].
      rewrite Nat.min_r by lia. replace (Nat.ltb (length x) 400) with true by (symmetry; apply Nat.ltb_lt; lia).
      cbn [andb]. rewrite bool_decide_eq_true_2 by done. by rewrite take_ge by lia.
Qed.

Lemma chunks_length fuel x : (length x <= fuel)%nat -> (length x <= length (authenticate_chunks fuel x))%nat.
Proof.
  revert x. induction fuel as [|fuel IH]; intros x Hx; [lia|]. destruct x as [|c x]; [simpl; lia|].
  change (authenticate_chunks (S fuel) (c :: x)) with (authenticate_line (take 400 (c :: x)) ++ authenticate_chunks fuel (drop 400 (c :: x))).
  specialize (IH (drop 400 (c :: x))). rewrite length_drop in IH. unfold authenticate_line, fmt. cbn [concat].
  rewrite !length_app, length_take. simpl length in *. lia.
Qed.

Context `{!Base64Laws H2}.

(** The lines for any payload carry it. *)
Lemma payload_arrives payload s :
  exists bytes, sasl_send_authenticate (g_base64_encode payload) s = emit (Send bytes) s /\
    g_base64_decode <$> sasl_collect (S (length bytes)) bytes [] = Some payload.
Proof.
  eexists. split; [done|]. set (x := g_base64_encode payload). destruct (g_base64_quads payload) as [k Hk]. fold x in Hk.
  assert (Hcr : CR ∉ x).
  { intros Hin. pose proof (g_base64_alphabet payload) as Ha. rewrite Forall_forall in Ha. destruct (Ha CR Hin) as [Hc|]; [|done].
    by apply (bool_decide_pack _) in Hc. }
  pose proof (chunks_length (length x) x ltac:(lia)) as Hl. rewrite (collect_chunks x k); [|done|done|lia|].
  - cbn [fmap option_fmap option_map app]. unfold x. by rewrite g_base64_roundtrip.
  - rewrite length_app. lia.
Qed.

Lemma split_on_piece sep start a b : sep ∉ a -> split_on sep start (a ++ sep :: b) = (start ++ a) :: split_on sep [] b.
Proof.
  revert start. induction a as [|c a IH]; intros start Ha; cbn [app split_on].
  - by rewrite Ascii.eqb_refl, app_nil_r.
  - apply not_elem_of_cons in Ha as [Hc Ha]. destruct (Ascii.eqb_spec c sep); [congruence|]. rewrite IH by done. by rewrite <- app_assoc.
Qed.

Lemma split_on_last sep start a : sep ∉ a -> split_on sep start a = [start ++ a].
Proof.
  revert start. induction a as [|c a IH]; intros start Ha; cbn [split_on]; [by rewrite app_nil_r|].
  apply not_elem_of_cons in Ha as [Hc Ha]. destruct (Ascii.eqb_spec c sep); [congruence|]. rewrite IH by done. by rewrite <- app_assoc.
Qed.

Lemma nonul_notin x : nonul x -> NUL ∉ x.
Proof. intros Hx Hin. unfold nonul in Hx. rewrite Forall_forall in Hx. by apply (Hx NUL). Qed.

(** C21. Credentials arrive whole, however long: to an AUTHENTICATE the client
    answers with lines of at most 400 bytes of payload from which a server that
    joins and decodes them reads, for PLAIN, the user name twice and the
    password, and for OAUTHBEARER, the token, the host and the port. *)
Theorem sasl_credentials_arrive now rand data net s :
  (","%char ∉ data) -> network s = Some net ->
  let user := own_or hex_irc_user_name net_user s in
  let host := servername (conn s) in
  let answered name fields sep := exists bytes,
    authenticate now rand data s = Some (emit (Text TE_SASLAUTH [user; name]) (emit (Send bytes) s)) /\
    split_on sep [] <$> (g_base64_decode <$> sasl_collect (S (length bytes)) bytes []) = Some fields in
  (sasl_mech (reg s) = MECH_PLAIN -> nonul user -> nonul (password s) -> answered "PLAIN" [user; user; password s] NUL) /\
  (forall token, sasl_mech (reg s) = MECH_OAUTHBEARER -> oauth_access_token (oauth s) = Some token -> token <> [] ->
     (oauth_token_expires (oauth s) <= 0 \/ now < oauth_token_expires (oauth s)) ->
     (SOH ∉ token) -> (SOH ∉ host) -> 0 < serv_port (conn s) < 65536 ->
     answered "OAUTHBEARER"
       [("n,," : cstr); ("auth=Bearer " : cstr) ++ token; ("host=" : cstr) ++ host; ("port=" : cstr) ++ int_text (serv_port (conn s)); []; []] SOH).
Proof.
  intros Hd Hnet user host answered.
  assert (Hno : existsb (fun c => c =c ",") data = false).
  { destruct (existsb _ data) eqn:E; [|done]. apply existsb_exists in E as (c & Hc & E). apply Ascii.eqb_eq in E as ->.
    exfalso. by apply Hd, list_elem_of_In. }
  assert (Huser : match net_user net with Some u => if flag (net_flags net) FLAG_USE_GLOBAL then hex_irc_user_name else u
                  | None => hex_irc_user_name end = user).
  { unfold user, own_or. rewrite Hnet. destruct (net_user net); [done|]. by destruct (flag _ _). }
  unfold answered, inbound_sasl_authenticate. rewrite Hno, Hnet. cbn [mbind option_bind]. rewrite Huser. split.
  - intros -> Hu Hp. unfold plain_authenticate, encode_sasl_pass_plain.
    destruct (payload_arrives (user ++ [NUL] ++ user ++ [NUL] ++ password s) s) as (bytes & E1 & E2). rewrite E1.
    exists bytes. split; [done|]. rewrite E2. cbn [fmap option_fmap option_map app].
    by rewrite !split_on_piece, split_on_last by by apply nonul_notin.
  - intros token -> Htok Hne Hexp Ht Hh Hport. unfold oauth_authenticate. rewrite Htok. destruct token as [|c token]; [done|].
    replace ((0 <? oauth_token_expires (oauth s)) && (oauth_token_expires (oauth s) <=? now)) with false by lia.
    unfold oauth_encode_sasl_oauthbearer. replace (0 <? serv_port (conn s)) with true by lia. fold host.
    set (payload := fmt _). destruct (payload_arrives payload s) as (bytes & E1 & E2). rewrite E1.
    exists bytes. split; [done|]. rewrite E2. cbn [fmap option_fmap option_map]. f_equal.
    replace payload with (("n,," : cstr) ++ SOH :: (("auth=Bearer " : cstr) ++ c :: token) ++ SOH :: (("host=" : cstr) ++ host) ++ SOH ::
      (("port=" : cstr) ++ int_text (serv_port (conn s))) ++ SOH :: [] ++ SOH :: [])
      by (unfold payload, fmt; cbn [concat]; by rewrite <- !app_assoc).
    assert (Hlit : forall x : cstr, forallb (fun c => negb (c =c SOH)) x = true -> SOH ∉ x).
    { intros x Hx Hin. rewrite forallb_forall in Hx. apply list_elem_of_In, Hx in Hin. by rewrite Ascii.eqb_refl in Hin. }
    assert (Hnum : SOH ∉ int_text (serv_port (conn s))).
    { intros Hin. unfold int_text in Hin. replace (serv_port (conn s) <? 0) with false in Hin by lia.
      pose proof (decimal_digits 10 (serv_port (conn s)) [] ltac:(lia) ltac:(constructor)) as Hdig.
      rewrite Forall_forall in Hdig. by apply Hdig in Hin. }
    rewrite !split_on_piece, split_on_last; rewrite ?not_elem_of_app; try done; try (split; [by apply Hlit|done]); by apply Hlit.
Qed.
End spec.

(** ** A reference for the strings *)

Definition blank_b (c : ascii) : bool := (c =c " ") || (c =c LF) || (c =c CR) || (c =c "009") || (c =c "012").

Fixpoint chomp_front (s : cstr) : cstr := match s with c :: s' => if blank_b c then chomp_front s' else s | [] => [] end.

#[export] Instance gstrings_ref : GStrings := {|
  g_strlcat dest src size := take (size - 1) (dest ++ src);
  g_strchomp s := rev (chomp_front (rev s)) |}.

Lemma blank_b_iff c : blank_b c = true <-> is_blank c.
Proof. unfold blank_b, is_blank. rewrite !orb_true_iff, !Ascii.eqb_eq. tauto. Qed.

#[export] Instance gstrings_ref_laws : GStringsLaws gstrings_ref.
Proof.
  split; [done|]. intros s t Ht Hs. cbn [g_strchomp gstrings_ref]. rewrite rev_app_distr.
  assert (Hr : forall u v, Forall is_blank u -> chomp_front (u ++ v) = chomp_front v).
  { intros u v Hu. induction Hu as [|c u Hc Hu IH]; [done|]. cbn [app chomp_front]. apply blank_b_iff in Hc. by rewrite Hc. }
  rewrite Hr by by apply Forall_rev.
  destruct s as [|c s] using rev_ind; [done|]. rewrite rev_app_distr. cbn [rev app chomp_front].
  specialize (Hs c (last_snoc _ _)). destruct (blank_b c) eqn:E; [by apply blank_b_iff in E|].
  cbn [rev]. by rewrite rev_involutive.
Qed.

(** ** Concrete connections *)

Definition alice_net : login_net := LoginNet (Some ("alice" : cstr)) None 0 (Some ("Example" : cstr)) None None 0.

(** A network with this login method, before anything was connected. *)
Definition unconnected (l : loginmethod) (tls : bool) : cap_serv :=
  CapServ l "secret" "alice" (Some alice_net) false
    (Conn "irc.example.org" [] 6697 false tls false false false)
    (CapInfo (fun _ => false) 0 0 false false false 0 0)
    (Reg false false false 0 MECH_PLAIN None) (OAuth (Some ("tok" : cstr)) 0 false)
    (Persist false [] no_verbs false false false false false false false false) [] [].

(** A line split at blanks, as [process_data_init] does for these. *)
Fixpoint offsets_of (pos : nat) (ws : list cstr) : list nat :=
  match ws with [] => [] | w :: ws => pos :: offsets_of (S (pos + length w)) ws end.
Definition line_of (text : cstr) : line := let ws := split_on " " [] text in Line ([] :: ws) text (O :: offsets_of 0 ws).

Definition cap_line (text : string) : login_event := OnCap 1000 (line_of text).
Definition numeric_line (n : Z) (text : string) : login_event := OnNumeric 1000 n (line_of text) None None.

#[local] Existing Instance glib_ref.

Definition from_start (l : loginmethod) (tls : bool) (es : list login_event) : option cap_serv :=
  login_run "user" "real" (OnConnect 1000 "irc.example.org" 6697 false :: OnConnected :: es) (unconnected l tls).

Definition sent_by (s : option cap_serv) : list cstr := default [] ((fun s => sends (log s)) <$> s).

Definition crlf (s : string) : cstr := (s : cstr) ++ EOL.

(** A whole flight with SASL. *)
Example plain_flight :
  sent_by (from_start LOGIN_SASL true
    [cap_line ":s CAP * LS * :multi-prefix sts=port=6697"; cap_line ":s CAP * LS :sasl=EXTERNAL,PLAIN batch unknown";
     cap_line ":s CAP * ACK :multi-prefix"; cap_line ":s CAP * ACK :sasl batch";
     OnAuthenticate 1000 None "+"; numeric_line 903 ":s 903 alice :SASL authentication successful"]) =
  [crlf "CAP LS 302"; crlf "NICK alice" ++ crlf "USER alice 0 * :real";
   crlf "CAP REQ :multi-prefix"; crlf "CAP REQ :sasl batch"; crlf "AUTHENTICATE PLAIN";
   crlf "AUTHENTICATE YWxpY2UAYWxpY2UAc2VjcmV0"; crlf "CAP END"].
Proof. by vm_compute. Qed.

(** *** Witnesses *)

Definition connected_serv (l : loginmethod) (tls : bool) : cap_serv := default (unconnected l tls) (from_start l tls []).

Lemma cap_ls_request_witness :
  exists s', inbound_cap_ls 1000 "s" "* :multi-prefix sasl=PLAIN chghost odd=1" (connected_serv LOGIN_SASL true) = Some s' /\
    sends (log s') = sends (log (connected_serv LOGIN_SASL true)) ++ [crlf "CAP REQ :multi-prefix sasl chghost"] /\
    waiting_on_sasl (reg s') = true.
Proof.
  destruct (cap_ls_request 1000 "s" true "multi-prefix" ["sasl=PLAIN" : cstr; "chghost" : cstr; "odd=1" : cstr]
    (connected_serv LOGIN_SASL true)) as (s' & E & _ & W & _ & L).
  - done.
  - done.
  - by apply (bool_decide_unpack _); vm_compute.
  - by vm_compute.
  - by vm_compute.
  - apply (bool_decide_unpack _); by vm_compute.
  - exists s'. split; [exact E|]. split; [exact L|]. rewrite W. by vm_compute.
Defined.

Definition flight : list login_event :=
  [cap_line ":s CAP * LS :multi-prefix sasl=PLAIN"; cap_line ":s CAP * ACK :multi-prefix sasl"; OnAuthenticate 1000 None "+"].

Definition refusals : list login_event :=
  [cap_line ":s CAP * NAK :multi-prefix"; numeric_line 904 ":s 904 alice :SASL authentication failed";
   numeric_line 906 ":s 906 alice :SASL authentication aborted"].

#[export] Instance message_dec e : Decision (message e).
Proof. destruct e; apply _. Defined.

Lemma registration_completes_witness :
  exists s', login_run "user" "real" flight (connected_serv LOGIN_SASL true) = Some s' /\
    forall t, login_step "user" "real" (numeric_line 905 ":s 905 alice :SASL message too long") s' = Some t -> sent_capend (reg t) = true.
Proof.
  destruct (login_run "user" "real" flight (connected_serv LOGIN_SASL true)) as [s'|] eqn:E; [|by vm_compute in E].
  exists s'. split; [done|]. intros t Ht.
  assert (Hw : (fun s => (waiting_on_cap (reg s), sent_capend (reg s))) <$> login_run "user" "real" flight (connected_serv LOGIN_SASL true) =
    Some (false, false)) by by vm_compute.
  rewrite E in Hw. cbn in Hw. injection Hw as Hw1 Hw2.
  destruct (registration_completes "user" "real" flight (connected_serv LOGIN_SASL true) s') as [Hs|(_ & _ & Hc)].
  - apply (bool_decide_unpack _); by vm_compute.
  - by vm_compute.
  - by vm_compute.
  - by vm_compute.
  - by vm_compute.
  - exact E.
  - exact Hw1.
  - congruence.
  - apply (Hc (numeric_line 905 ":s 905 alice :SASL message too long")); [|exact Ht]. left. apply list_elem_of_further, list_elem_of_here.
Defined.

Lemma cap_end_once_witness :
  exists s s', login_run "user" "real" flight (connected_serv LOGIN_SASL true) = Some s /\
    login_run "user" "real" refusals s = Some s' /\ capends s = 0%nat /\ capends s' = 1%nat.
Proof.
  destruct (login_run "user" "real" flight (connected_serv LOGIN_SASL true)) as [s|] eqn:E; [|by vm_compute in E].
  assert (Hs : (fun s => (sts_upgrade_port (reg s), sent_capend (reg s), capends s)) <$>
      login_run "user" "real" flight (connected_serv LOGIN_SASL true) = Some (0, false, 0%nat)) by by vm_compute.
  assert (Ht : (fun t => sent_capend (reg t)) <$>
      (login_run "user" "real" flight (connected_serv LOGIN_SASL true) ≫= login_run "user" "real" refusals) = Some true) by by vm_compute.
  rewrite E in Hs, Ht. injection Hs as H1 H2 H3. cbn [mbind option_bind] in Ht. revert Ht.
  destruct (login_run "user" "real" refusals s) as [s'|] eqn:E'; [|done]. intros [= H4].
  exists s, s'. split_and!; [done..|].
  destruct (cap_end_once "user" "real" refusals s s') as [Hc _].
  - apply (bool_decide_unpack _); by vm_compute.
  - apply (bool_decide_unpack _); by vm_compute.
  - by rewrite H1.
  - exact E'.
  - rewrite Hc, H2, H3, H4. done.
Defined.

Lemma sasl_credentials_arrive_witness :
  exists bytes,
    inbound_sasl_authenticate "user" 1000 None "+" (connected_serv LOGIN_SASL true) =
      Some (emit (Text TE_SASLAUTH ["alice" : cstr; "PLAIN" : cstr]) (emit (Send bytes) (connected_serv LOGIN_SASL true))) /\
    split_on NUL [] <$> (g_base64_decode <$> sasl_collect (S (length bytes)) bytes []) = Some ["alice" : cstr; "alice" : cstr; "secret" : cstr].
Proof.
  destruct (sasl_credentials_arrive "user" 1000 None "+" alice_net (connected_serv LOGIN_SASL true)) as [Hp _].
  - apply (bool_decide_unpack _); by vm_compute.
  - by vm_compute.
  - apply Hp.
    + by vm_compute.
    + apply (bool_decide_unpack _); by vm_compute.
    + apply (bool_decide_unpack _); by vm_compute.
Defined.

(** *** Where the code does not do what it means to *)

(** The request is built in 500 bytes: a server that offers everything the client
    supports is asked for a name cut short, and refuses the whole request. *)
Theorem request_cut_short :
  (fun s => last (sends (log s))) <$>
    inbound_cap_ls 1000 "s" (offer_text true supported_caps) (connected_serv (Login LOGIN_PASS) true) =
  Some (Some (("CAP REQ :" : cstr) ++ take 490 (listed supported_caps) ++ EOL)) /\ length (listed supported_caps) = 525%nat.
Proof. split; by vm_compute. Qed.

(** [waiting_on_sasl] survives a lost connection: if the next server offers no SASL,
    CAP END is never sent and the registration stalls. *)
Theorem stale_wait_for_sasl :
  (fun s => (sent_capend (reg s), waiting_on_sasl (reg s), waiting_on_cap (reg s))) <$>
    from_start LOGIN_SASL true
      (flight ++ [OnDisconnect; OnConnect 2000 "irc.example.org" 6697 false; OnConnected; cap_line ":s CAP * LS :multi-prefix"]) =
  Some (false, true, false).
Proof. by vm_compute. Qed.

(** So do the bits that [server_set_defaults] does not name: echo-message of the
    last server is believed of the next, which never acknowledged it. *)
Theorem stale_echo_message :
  (fun s => have (caps s) have_echo_message) <$>
    from_start (Login LOGIN_PASS) true
      [cap_line ":s CAP * LS :echo-message"; cap_line ":s CAP * ACK :echo-message"; OnDisconnect;
       OnConnect 2000 "irc.example.org" 6697 false; OnConnected; cap_line ":s CAP * LS :multi-prefix"] =
  Some true.
Proof. by vm_compute. Qed.

(** AUTHENTICATE is answered before any mechanism was agreed on, with PLAIN: a
    server gets the password of a user who chose SCRAM or a certificate. *)
Theorem plain_password_on_demand :
  last (sent_by (from_start LOGIN_SASL_SCRAM_SHA_256 true [OnAuthenticate 1000 None "+"])) =
  last (sent_by (from_start LOGIN_SASL true (flight))) /\
  last (sent_by (from_start LOGIN_SASL true (flight))) = Some (crlf "AUTHENTICATE YWxpY2UAYWxpY2UAc2VjcmV0").
Proof. split; by vm_compute. Qed.

(** And without an entry in the network list it dereferences NULL. *)
Theorem authenticate_without_network :
  inbound_sasl_authenticate "user" 1000 None "+" (put_network None false (connected_serv (Login LOGIN_PASS) true)) = None.
Proof. by vm_compute. Qed.

(** CAP NEW after registration sends CAP END again. *)
Theorem cap_new_ends_again :
  capends <$> from_start (Login LOGIN_PASS) true
    [cap_line ":s CAP * LS :multi-prefix"; cap_line ":s CAP alice NEW :batch"] = Some 2%nat.
Proof. by vm_compute. Qed.

(** A strict transport policy does not stop SASL: the credentials go out in the
    clear, registration is ended on the clear connection, and the upgrade that is
    still noted is made on the next one, which is over TLS already. *)
Theorem sts_forgotten_for_sasl :
  let es := [cap_line ":s CAP * LS :sts=port=6697 sasl=PLAIN"; cap_line ":s CAP * ACK :sasl"; OnAuthenticate 1000 None "+";
             numeric_line 903 ":s 903 alice :ok"] in
  drop 2 (sent_by (from_start LOGIN_SASL false es)) =
    [crlf "CAP REQ :sasl"; crlf "AUTHENTICATE PLAIN"; crlf "AUTHENTICATE YWxpY2UAYWxpY2UAc2VjcmV0"; crlf "CAP END"] /\
  (fun s => (ssl (conn s), sts_upgrade_port (reg s))) <$> from_start LOGIN_SASL false es = Some (false, 6697).
Proof. split; by vm_compute. Qed.

(** Over TLS a policy is renewed by its duration alone; it is ignored without a port. *)
Theorem sts_without_port_ignored :
  policies <$> from_start (Login LOGIN_PASS) true [cap_line ":s CAP * LS :sts=duration=2592000"] = Some [].
Proof. by vm_compute. Qed.

(** [sent_capend] is set before the upgrade to stop further processing, and cleared
    by the connection attempt that follows. *)
Theorem upgrade_clears_capend :
  (fun s => (sent_capend (reg s), use_ssl (conn s), serv_port (conn s))) <$>
    from_start (Login LOGIN_PASS) false [cap_line ":s CAP * LS :sts=port=6697,duration=100"] = Some (false, true, 6697).
Proof. by vm_compute. Qed.
