(* ===== verification/Notify.v ===== *)
(** * The list of friends (src/common/notify.c)

    Who is watched on which network, what each server said about them last, the
    file of the list, and the WATCH, MONITOR and ISON traffic.  An entry of a
    friend for a server is the record the source allocates for the pair; sessions
    matter only for the accounts in their user lists.  [None] is a write outside
    a buffer. *)
From S2P Require Import Prelude Glib Casemap Text Access Modes Isupport Proto.

(** ** State *)

Record notify_per_server := PerServer { np_server : nat; laston : Z; lastseen : Z; lastoff : Z; ison : bool }.

Record notify := Notify {
  n_name : option cstr; n_account : option cstr; n_networks : option cstr; server_list : list notify_per_server }.

Record nserver := NServer {
  ns_id : nat; ns_network : option cstr; (* the entry of the network list *)
  ns_tab : option cstr; (* channel of the server session *)
  ns_servername : cstr; ns_connected : bool; ns_end_of_motd : bool; supports_watch : bool; supports_monitor : bool;
  ns_cmp : cstr -> cstr -> Z }.

Inductive notify_event :=
| NotifyOnline (nick servername : cstr) (network : option cstr)
| NotifyOffline (nick servername : cstr) (network : option cstr)
| FeNotifyUpdate (name : option cstr)
| FeFriendsChanged
| FeNotifyAsk (name : cstr)
| Whois (server : nat) (nicks : cstr)
| Raw (server : nat) (out : list output)
| Added (name : cstr) | Deleted (name : cstr)
| Listed (text : cstr) | ListedNumber (n : Z) | ListedNone.

(** The accounts in the user list of each session, by server. *)
Record nworld := NWorld {
  notify_list : list notify; serv_list : list nserver; sess_users : list (nat * option (list (option cstr)));
  notify_whois_online : bool; ntrace : list notify_event }.

Definition put_list (l : list notify) (w : nworld) : nworld :=
  NWorld l (serv_list w) (sess_users w) (notify_whois_online w) (ntrace w).
Definition say (e : notify_event) (w : nworld) : nworld :=
  NWorld (notify_list w) (serv_list w) (sess_users w) (notify_whois_online w) (ntrace w ++ [e]).

Definition notify_NICKLEN : nat := 64.

(** ** Networks *)

Definition server_get_network (fallback : bool) (serv : nserver) : option cstr :=
  match ns_network serv, ns_tab serv with
  | Some n, _ => Some n
  | None, Some (c :: t) => Some (c :: t)
  | None, _ => if fallback then Some (ns_servername serv) else None
  end.

Definition despacify_dup (str : cstr) : cstr := List.filter (fun c => negb (c =c " ")) str.

(** Returns true to go on. *)
Definition notify_netcmp (serv : nserver) (str : cstr) (ud : unit) : unit * bool :=
  (ud, negb (rfc_casecmp str (despacify_dup (default [] (server_get_network true serv))) =? 0)).

Definition notify_do_network (n : notify) (serv : nserver) : bool :=
  match n_networks n with
  | None => true
  | Some networks => negb (snd (token_foreach networks "," (notify_netcmp serv) tt))
  end.

(** ** Entries *)

Definition find_entry (id : nat) (l : list notify_per_server) : option notify_per_server :=
  List.find (fun e => Nat.eqb (np_server e) id) l.

Definition with_servers (l : list notify_per_server) (n : notify) : notify := Notify (n_name n) (n_account n) (n_networks n) l.

(** The friend afterwards, and the entry. *)
Definition notify_find_server_entry (serv : nserver) (n : notify) : notify * option notify_per_server :=
  match find_entry (ns_id serv) (server_list n) with
  | Some e => (n, Some e)
  | None =>
      if notify_do_network n serv then
        let e := PerServer (ns_id serv) 0 0 0 false in (with_servers (e :: server_list n) n, Some e)
      else (n, None)
  end.

(** What is done to an entry through its pointer. *)
Fixpoint update_first (id : nat) (f : notify_per_server -> notify_per_server) (l : list notify_per_server) : list notify_per_server :=
  match l with
  | [] => []
  | e :: l => if Nat.eqb (np_server e) id then f e :: l else e :: update_first id f l
  end.

Definition update_entry (id : nat) (f : notify_per_server -> notify_per_server) (n : notify) : notify :=
  with_servers (update_first id f (server_list n)) n.

Definition update_friend (i : nat) (f : notify -> notify) (w : nworld) : nworld := put_list (alter f i (notify_list w)) w.

Definition gone (now : Z) (e : notify_per_server) : notify_per_server :=
  PerServer (np_server e) (laston e) (lastseen e) now false.
Definition seen (now : Z) (e : notify_per_server) : notify_per_server :=
  PerServer (np_server e) (laston e) now (lastoff e) (ison e).
Definition came (now : Z) (e : notify_per_server) : notify_per_server :=
  PerServer (np_server e) now (lastseen e) (lastoff e) true.

(** ** Announcements: [e] is the entry of friend [i] for [serv]. *)

Definition notify_announce_offline (now : Z) (serv : nserver) (i : nat) (nick : cstr) (quiet : bool) (w : nworld) : nworld :=
  let w := update_friend i (update_entry (ns_id serv) (gone now)) w in
  let w := if quiet then w else say (NotifyOffline nick (ns_servername serv) (server_get_network true serv)) w in
  say (FeNotifyUpdate None) (say (FeNotifyUpdate (Some nick)) w).

Definition notify_announce_online (now : Z) (serv : nserver) (i : nat) (e : notify_per_server) (nick : cstr) (w : nworld) : nworld :=
  let w := update_friend i (update_entry (ns_id serv) (seen now)) w in
  if ison e then w
  else
    let w := update_friend i (update_entry (ns_id serv) (came now)) w in
    let w := say (NotifyOnline nick (ns_servername serv) (server_get_network true serv)) w in
    let w := say (FeNotifyUpdate None) (say (FeNotifyUpdate (Some nick)) w) in
    if notify_whois_online w then say (Whois (ns_id serv) (fmt [nick; (" " : cstr); nick])) w else w.

(** The first friend of that name who is watched on the server. *)
Fixpoint notify_find (serv : nserver) (nick : cstr) (l : list notify) : list notify * option (nat * notify_per_server) :=
  match l with
  | [] => ([], None)
  | n :: l =>
      let next n := let '(l, found) := notify_find serv nick l in (n :: l, (fun f => (S f.1, f.2)) <$> found) in
      match n_name n with
      | None => next n
      | Some name =>
          match notify_find_server_entry serv n with
          | (n, None) => next n
          | (n, Some e) => if ns_cmp serv name nick =? 0 then (n :: l, Some (O, e)) else next n
          end
      end
  end.

Definition notify_set_offline (now : Z) (serv : nserver) (nick : cstr) (quiet : bool) (w : nworld) : nworld :=
  let '(l, found) := notify_find serv nick (notify_list w) in
  let w := put_list l w in
  match found with Some (i, _) => notify_announce_offline now serv i nick quiet w | None => w end.

Definition notify_set_online (now : Z) (serv : nserver) (nick : cstr) (w : nworld) : nworld :=
  let '(l, found) := notify_find serv nick (notify_list w) in
  let w := put_list l w in
  match found with Some (i, e) => notify_announce_online now serv i e nick w | None => w end.

(** [strtok (users, ",")]; each token up to a '!', cut to the nick buffer. *)
Definition nick_tokens (users : cstr) : list cstr :=
  map (fun t => take (notify_NICKLEN - 1) (match index_of "!" t with Some k => take k t | None => t end))
    (List.filter (fun t => negb (bool_decide (t = []))) (split_on "," [] users)).

Definition notify_set_offline_list (now : Z) (serv : nserver) (users : cstr) (quiet : bool) (w : nworld) : nworld :=
  foldl (fun w nick => notify_set_offline now serv nick quiet w) w (nick_tokens users).

Definition notify_set_online_list (now : Z) (serv : nserver) (users : cstr) (w : nworld) : nworld :=
  foldl (fun w nick => notify_set_online now serv nick w) w (nick_tokens users).

(** ** ISON *)

(** word[4] to word[PDIWORDS - 5], up to an empty one. *)
Fixpoint ison_names (fuel : nat) (words : list cstr) : list cstr :=
  match fuel, words with
  | S fuel, (_ :: _) as w :: words => w :: ison_names fuel words
  | _, _ => []
  end.

Definition ISON_WORDS : nat := 24.

(** One friend of [notify_markonline]. *)
Definition mark_friend (now : Z) (serv : nserver) (words : list cstr) (w : nworld) (i : nat) : nworld :=
  match notify_list w !! i with
  | None => w
  | Some n =>
      match n_name n with
      | None => w
      | Some name =>
          match notify_find_server_entry serv n with
          | (_, None) => w
          | (n, Some e) =>
              let w := put_list (<[i := n]> (notify_list w)) w in
              if existsb (fun nick => ns_cmp serv name nick =? 0) (ison_names ISON_WORDS words)
              then notify_announce_online now serv i e name w
              else if ison e then notify_announce_offline now serv i name false w
              else w
          end
      end
  end.

Definition notify_markonline (now : Z) (serv : nserver) (words : list cstr) (w : nworld) : nworld :=
  say (FeNotifyUpdate None) (foldl (mark_friend now serv words) w (seq 0 (length (notify_list w)))).

(** [outbuf] is char[512]. *)
Fixpoint ison_line (outbuf : cstr) (names : list cstr) : option cstr :=
  match names with
  | [] => Some outbuf
  | name :: names =>
      let outbuf := outbuf ++ name ++ [" "%char] in
      if Nat.leb 512 (length outbuf) then None
      else if Nat.ltb 460 (length outbuf) then Some outbuf
      else ison_line outbuf names
  end.

Definition watched_names (serv : nserver) (l : list notify) : list cstr :=
  omap (fun n => name ← n_name n; if notify_do_network n serv then Some name else None) l.

Definition notify_checklist_for_server (serv : nserver) (w : nworld) : option nworld :=
  match watched_names serv (notify_list w) with
  | [] => Some w
  | names => line ← ison_line "ISON " names; Some (say (Raw (ns_id serv) (irc_raw line)) w)
  end.

Fixpoint checklist_servers (servs : list nserver) (w : nworld) : option nworld :=
  match servs with
  | [] => Some w
  | serv :: servs =>
      w ← (if ns_connected serv && ns_end_of_motd serv && negb (supports_watch serv) && negb (supports_monitor serv)
           then notify_checklist_for_server serv w else Some w);
      checklist_servers servs w
  end.

Definition notify_checklist (w : nworld) : option nworld := checklist_servers (serv_list w) w.

(** ** WATCH and MONITOR *)

(** [tbuf] is char[256]. *)
Definition notify_watch (serv : nserver) (nick : cstr) (add : bool) (w : nworld) : nworld :=
  let c := if add then "+"%char else "-"%char in
  if supports_monitor serv then say (Raw (ns_id serv) (irc_raw (take 255 (("MONITOR " : cstr) ++ c :: " "%char :: nick)))) w
  else if supports_watch serv then say (Raw (ns_id serv) (irc_raw (take 255 (("WATCH " : cstr) ++ c :: nick)))) w
  else w.

Definition notify_watch_all (n : notify) (add : bool) (w : nworld) : nworld :=
  match n_name n with
  | None => w
  | Some name =>
      foldl (fun w serv => if ns_connected serv && ns_end_of_motd serv && notify_do_network n serv
                           then notify_watch serv name add w else w) w (serv_list w)
  end.

(** The line for one batch; [tbuf] is char[512]. *)
Definition flush_line (monitor : bool) (names : list cstr) : cstr :=
  foldl (fun tbuf name =>
           let tbuf := take 511 (tbuf ++ (if monitor then ["," : ascii] else [" "; "+"])%char) in take 511 (tbuf ++ name))
    (if monitor then ("MONITOR + " : cstr) else ("WATCH" : cstr)) names.

(** The batches: [batch] is the names from [point] on. *)
Fixpoint watch_batches (format_len : Z) (batch : list cstr) (len : Z) (names : list cstr) : list (list cstr) :=
  match names with
  | [] => if len =? 0 then [] else [batch]
  | name :: names =>
      let one := Z.of_nat (length name) + format_len in
      if 500 <? len + one then batch :: watch_batches format_len [name] one names
      else watch_batches format_len (batch ++ [name]) (len + one) names
  end.

Definition notify_send_watches (serv : nserver) (w : nworld) : nworld :=
  let monitor := supports_monitor serv in
  foldl (fun w batch => say (Raw (ns_id serv) (irc_raw (flush_line monitor batch))) w) w
    (watch_batches (if monitor then 1 else 2) [] 0 (watched_names serv (notify_list w))).

(** ** The list *)

Definition notify_adduser (name account networks : option cstr) (w : nworld) : option nworld :=
  let nonempty o := match o with Some (c :: s) => Some (c :: s) | _ => None end in
  let n := Notify (take (notify_NICKLEN - 1) <$> nonempty name) (nonempty account) (despacify_dup <$> networks) [] in
  w ← notify_checklist (put_list (n :: notify_list w) w);
  Some (notify_watch_all n true (say FeFriendsChanged (say (FeNotifyUpdate None) (say (FeNotifyUpdate (n_name n)) w)))).

Definition is_called (name : cstr) (n : notify) : bool :=
  match n_name n with Some m => rfc_casecmp m name =? 0 | None => false end ||
  match n_account n with Some a => bool_decide (a = name) | None => false end.

Fixpoint remove_first (p : notify -> bool) (l : list notify) : option (notify * list notify) :=
  match l with
  | [] => None
  | n :: l => if p n then Some (n, l) else '(m, l) ← remove_first p l; Some (m, n :: l)
  end.

Definition notify_deluser (name : cstr) (w : nworld) : nworld * bool :=
  match remove_first (is_called name) (notify_list w) with
  | None => (w, false)
  | Some (n, l) =>
      let w := put_list l (say (FeNotifyUpdate (n_name n)) w) in
      let w := notify_watch_all n false w in
      (say FeFriendsChanged (say (FeNotifyUpdate None) w), true)
  end.

(** The command: words from word[2] on. *)
Fixpoint notify_words (net : option cstr) (words : list cstr) (w : nworld) : option nworld :=
  match words with
  | [] | [] :: _ => Some w
  | word :: words =>
      match notify_deluser word w with
      | (w, true) => Some (say (Deleted word) w)
      | (w, false) =>
          w ← (if bool_decide (net = Some ("ASK" : cstr)) then Some (say (FeNotifyAsk word) w)
               else w ← notify_adduser (Some word) None net w; Some (say (Added word) w));
          notify_words net words w
      end
  end.

Definition friend_online (serv : nserver) (n : notify) : notify * bool :=
  let '(n, e) := notify_find_server_entry serv n in (n, match e with Some e => ison e | None => false end).

(** "  %-20s online\n" in char[256]. *)
Definition show_line (display : cstr) (online : bool) : cstr :=
  take 255 (fmt [("  " : cstr); display; replicate (20 - length display) " "%char;
                 (if online then (" online" : cstr) else (" offline" : cstr)); [LF]]).

Fixpoint show_friends (serv : nserver) (l : list notify) : list notify * list cstr :=
  match l with
  | [] => ([], [])
  | n :: l =>
      match (match n_name n with Some m => Some m | None => n_account n end) with
      | None => let '(l, lines) := show_friends serv l in (n :: l, lines)
      | Some display =>
          let '(n, online) := friend_online serv n in
          let '(l, lines) := show_friends serv l in (n :: l, show_line display online :: lines)
      end
  end.

Definition notify_showlist (serv : nserver) (w : nworld) : nworld :=
  let '(l, lines) := show_friends serv (notify_list w) in
  let w := foldl (fun w line => say (Listed line) w) (put_list l w) lines in
  match l with [] => say ListedNone w | _ => say (ListedNumber (Z.of_nat (length l))) w end.

Definition cmd_notify (serv : nserver) (words : list cstr) (w : nworld) : option nworld :=
  match words with
  | (_ :: _) as first :: rest =>
      if bool_decide (first = ("-n" : cstr))
      then notify_words (Some (hd [] rest)) (tl rest) w
      else notify_words None words w
  | _ => Some (notify_showlist serv w)
  end.

(** ** Accounts *)

Definition no_account (account : option cstr) : bool :=
  match account with
  | None | Some [] => true
  | Some a => bool_decide (a = ("*" : cstr)) || bool_decide (a = ("0" : cstr))
  end.

Definition notify_account_still_present (id : nat) (account : cstr) (w : nworld) : bool :=
  existsb (fun s => Nat.eqb s.1 id && match s.2 with Some users => existsb (fun a => bool_decide (a = Some account)) users | None => false end)
    (sess_users w).

Definition account_friend (serv : nserver) (account : cstr) (act : nat -> notify -> notify_per_server -> nworld -> nworld) (w : nworld) (i : nat) : nworld :=
  match notify_list w !! i with
  | Some n =>
      if bool_decide (n_account n = Some account) then
        match notify_find_server_entry serv n with
        | (n, Some e) => act i n e (put_list (<[i := n]> (notify_list w)) w)
        | (_, None) => w
        end
      else w
  | None => w
  end.

(** Every friend with the account, in order; then the user lists are sorted anew. *)
Definition account_friends (serv : nserver) (account : cstr) (act : nat -> notify -> notify_per_server -> nworld -> nworld) (w : nworld) : nworld :=
  let had := existsb (fun n => bool_decide (n_account n = Some account)) (notify_list w) in
  let w := foldl (account_friend serv account act) w (seq 0 (length (notify_list w))) in
  if had then say FeFriendsChanged w else w.

Definition notify_account_cleared (now : Z) (serv : nserver) (was_account : option cstr) (w : nworld) : nworld :=
  match was_account with
  | Some account =>
      if no_account was_account || notify_account_still_present (ns_id serv) account w then w
      else account_friends serv account
             (fun i n e w => if ison e then notify_announce_offline now serv i
                                (match n_name n with Some m => m | None => account end) false w else w) w
  | None => w
  end.

Definition notify_account_observed (now : Z) (serv : nserver) (nick account : option cstr) (w : nworld) : nworld :=
  match account with
  | Some a =>
      if no_account account then w
      else account_friends serv a
             (fun i n e w => notify_announce_online now serv i e (match nick with Some (c :: x) => c :: x | _ => a end) w) w
  | None => w
  end.

Definition notify_is_in_list (serv : nserver) (name account : option cstr) (w : nworld) : bool :=
  existsb (fun n =>
    match name, n_name n with Some x, Some m => ns_cmp serv m x =? 0 | _, _ => false end ||
    match account, n_account n with Some x, Some a => bool_decide (a = x) | _, _ => false end) (notify_list w).

Fixpoint notify_isnotify (serv : nserver) (name : cstr) (l : list notify) : list notify * bool :=
  match l with
  | [] => ([], false)
  | n :: l =>
      let next n := let '(l, b) := notify_isnotify serv name l in (n :: l, b) in
      match n_name n with
      | Some m =>
          if ns_cmp serv m name =? 0 then let '(n, online) := friend_online serv n in if online then (n :: l, true) else next n
          else next n
      | None => next n
      end
  end.

(** ** Lost connections *)

Definition server_valid (servs : list nserver) (id : nat) : bool :=
  match List.find (fun s => Nat.eqb (ns_id s) id) servs with Some s => ns_connected s | None => false end.

Definition notify_cleanup (w : nworld) : nworld :=
  say (FeNotifyUpdate None)
    (put_list (map (fun n => with_servers (List.filter (fun e => server_valid (serv_list w) (np_server e)) (server_list n)) n)
                 (notify_list w)) w).

(** ** notify.conf *)

Definition save_line (n : notify) : cstr :=
  default [] (n_name n) ++
  match n_account n with
  | Some a => (match n_name n with Some _ => [" "%char] | None => [] end) ++ ("account=" : cstr) ++ a
  | None => []
  end ++
  match n_networks n with
  | Some net => " "%char :: match n_account n with Some _ => ("networks=" : cstr) ++ net | None => net end
  | None => []
  end ++ [LF].

Definition notify_save (w : nworld) : cstr := concat (map save_line (rev (notify_list w))).

Definition is_tab (c : ascii) : bool := (c =c " ") || (c =c "009").

(** [strpbrk (s, " \t")]: the text before, and what is behind the blanks. *)
Fixpoint skip_tabs (s : cstr) : cstr := match s with c :: s' => if is_tab c then skip_tabs s' else s | [] => [] end.

Fixpoint split_tab (s : cstr) : cstr * option cstr :=
  match s with
  | [] => ([], None)
  | c :: s => if is_tab c then ([], Some (skip_tabs s)) else let '(a, r) := split_tab s in (c :: a, r)
  end.

Definition rstrip_cr (s : cstr) : cstr :=
  match last s with Some c => if c =c CR then take (length s - 1) s else s | None => s end.

(** "X [networks=Y]" behind "account=". *)
Definition account_tail (s : cstr) : option cstr * option cstr :=
  let '(a, tail) := split_tab s in (Some a, tail ≫= after_prefix "networks=").

Definition parse_line (line : cstr) : option cstr * option cstr * option cstr :=
  let line := rstrip_cr line in
  match after_prefix "account=" line with
  | Some rest => let '(a, net) := account_tail rest in (None, a, net)
  | None =>
      let '(name, tail) := split_tab line in
      match tail with
      | None => (Some name, None, None)
      | Some tail =>
          match after_prefix "account=" tail with
          | Some rest => let '(a, net) := account_tail rest in (Some name, a, net)
          | None => (Some name, None, match tail with [] => None | _ => Some tail end)
          end
      end
  end.

Definition notify_load_line (line : cstr) (w : nworld) : option nworld :=
  let '(name, account, networks) := parse_line line in
  match name, account with
  | Some (_ :: _), _ | _, Some (_ :: _) => notify_adduser name account networks w
  | _, _ => Some w
  end.

(** [buf] is char[256]: what does not fit is dropped up to the line feed. *)
Fixpoint conf_lines (buf : cstr) (discard : bool) (s : cstr) : list cstr :=
  match s with
  | [] => if discard then [] else match buf with [] => [] | _ => [buf] end
  | c :: s =>
      if discard then conf_lines [] (negb (c =c LF)) s
      else if c =c LF then buf :: conf_lines [] false s
      else if Nat.leb 256 (S (length buf)) then buf :: conf_lines [] true s
      else conf_lines (buf ++ [c]) false s
  end.

Definition load_one (line : cstr) (w : nworld) : option nworld :=
  match c_string line with
  | [] => Some w
  | c :: _ => if c =c "#" then Some w else notify_load_line (c_string line) w
  end.

Fixpoint load_lines (lines : list cstr) (w : nworld) : option nworld :=
  match lines with [] => Some w | l :: lines => w ← load_one l w; load_lines lines w end.

Definition notify_load (file : cstr) (w : nworld) : option nworld := load_lines (conf_lines [] false file) w.

(** ** Numerics *)

Definition notify_numeric (now : Z) (serv : nserver) (n : Z) (words : list cstr) (w : nworld) : nworld :=
  let word4 := hd [] words in
  if n =? 303 then notify_markonline now serv (match words with w :: ws => drop 1 w :: ws | [] => [] end) w
  else if n =? 601 then notify_set_offline now serv word4 false w
  else if n =? 605 then notify_set_offline now serv word4 true w
  else if (n =? 600) || (n =? 604) then notify_set_online now serv word4 w
  else if n =? 730 then notify_set_online_list now serv (drop 1 word4) w
  else if n =? 731 then notify_set_offline_list now serv (drop 1 word4) false w
  else w.
