(* ===== verification/NotifySpec.v ===== *)
(** * Friends: what the list says about them (src/common/notify.c)

    A friend is shown online on a server exactly when that is what was last
    heard; the watch lines name everybody once; the file keeps the list.
    Witnesses and the cases where the code does not do what it means to are at
    the end. *)
From S2P Require Import Prelude Glib Casemap Text Access Modes Isupport Proto Notify.

(** ** One friend, one server *)

Definition statics (n : notify) : option cstr * option cstr * option cstr := (n_name n, n_account n, n_networks n).
Definition ison_of (id : nat) (n : notify) : bool := match find_entry id (server_list n) with Some e => ison e | None => false end.

Lemma do_network_statics n n' serv : statics n = statics n' -> notify_do_network n serv = notify_do_network n' serv.
Proof. unfold statics. intros [= _ _ E]. unfold notify_do_network. by rewrite E. Qed.

Lemma find_entry_id id l e : find_entry id l = Some e -> np_server e = id.
Proof. intros Hf. apply List.find_some in Hf as [_ Hf]. by apply Nat.eqb_eq. Qed.

Lemma server_entry_spec serv n :
  let '(n', e) := notify_find_server_entry serv n in
  statics n' = statics n /\ (forall id, ison_of id n' = ison_of id n) /\
  match e with
  | Some e => find_entry (ns_id serv) (server_list n') = Some e /\ ison e = ison_of (ns_id serv) n
  | None => notify_do_network n serv = false
  end.
Proof.
  unfold notify_find_server_entry. destruct (find_entry (ns_id serv) (server_list n)) as [e|] eqn:E.
  - split_and!; [done..|]. unfold ison_of. by rewrite E.
  - destruct (notify_do_network n serv) eqn:Hd; [|done]. split_and!; [done|..].
    + intros id. unfold ison_of, find_entry. cbn. destruct (Nat.eqb_spec (ns_id serv) id) as [<-|]; [|done].
      fold (find_entry (ns_id serv) (server_list n)). by rewrite E.
    + unfold find_entry. cbn. by rewrite Nat.eqb_refl.
    + unfold ison_of. by rewrite E.
Qed.

Lemma update_first_find id id' f l :
  (forall e, np_server (f e) = np_server e) ->
  find_entry id (update_first id' f l) = if decide (id = id') then f <$> find_entry id l else find_entry id l.
Proof.
  intros Hf. induction l as [|e l IH]; [by case_decide|]. cbn [update_first]. unfold find_entry in *.
  destruct (Nat.eqb_spec (np_server e) id') as [<-|Hne]; cbn [List.find].
  - rewrite Hf. destruct (Nat.eqb_spec (np_server e) id) as [<-|]; [by rewrite decide_True|]. case_decide; [congruence|done].
  - destruct (Nat.eqb_spec (np_server e) id) as [<-|]; [|exact IH]. by rewrite decide_False.
Qed.

Lemma update_entry_ison id id' f n e :
  (forall e, np_server (f e) = np_server e) -> find_entry id' (server_list n) = Some e ->
  ison_of id (update_entry id' f n) = if decide (id = id') then ison (f e) else ison_of id n.
Proof.
  intros Hf He. unfold ison_of, update_entry, with_servers. cbn [server_list]. rewrite update_first_find by done.
  case_decide as Hid; [|done]. subst. by rewrite He.
Qed.

Definition find_spec (serv : nserver) (nick : cstr) (l l' : list notify) (found : option (nat * notify_per_server)) : Prop :=
  map statics l' = map statics l /\
  (forall i n, l !! i = Some n -> exists n', l' !! i = Some n' /\ forall id, ison_of id n' = ison_of id n) /\
  match found with
  | Some (i, e) => exists n, l' !! i = Some n /\ find_entry (ns_id serv) (server_list n) = Some e /\
      (exists m, n_name n = Some m /\ ns_cmp serv m nick = 0) /\ ison e = ison_of (ns_id serv) n
  | None => forall i n m, l !! i = Some n -> n_name n = Some m -> notify_do_network n serv = true -> ns_cmp serv m nick <> 0
  end.

Lemma notify_find_spec serv nick l : let '(l', found) := notify_find serv nick l in find_spec serv nick l l' found.
Proof.
  unfold find_spec. induction l as [|n l IH]; [done|]. cbn [notify_find].
  assert (Hnext : forall n', statics n' = statics n -> (forall id, ison_of id n' = ison_of id n) ->
    (forall m, n_name n = Some m -> notify_do_network n serv = true -> ns_cmp serv m nick <> 0) ->
    let '(l', found) := (let '(l, found) := notify_find serv nick l in (n' :: l, (fun f => (S f.1, f.2)) <$> found)) in
    find_spec serv nick (n :: l) l' found).
  { intros n' Hst Hi Hno. destruct (notify_find serv nick l) as [l' found]. destruct IH as (I1 & I2 & I3). split_and!.
    - cbn [map]. by rewrite I1, Hst.
    - intros [|i] x; cbn [lookup list_lookup]; [intros [= <-]; by exists n'|apply I2].
    - destruct found as [[i e]|]; [exact I3|]. intros [|i] x m; cbn [lookup list_lookup]; [intros [= <-]; apply Hno|apply I3]. }
  destruct (n_name n) as [name|] eqn:En; [|by apply Hnext].
  pose proof (server_entry_spec serv n) as Hs. destruct (notify_find_server_entry serv n) as [n' [e|]]; destruct Hs as (S1 & S2 & S3).
  - destruct (Z.eqb_spec (ns_cmp serv name nick) 0) as [Hc|Hc].
    + split_and!; [cbn [map]; by rewrite S1| |].
      * intros [|i] x; cbn [lookup list_lookup]; [intros [= <-]; by exists n'|intros Hx; by exists x].
      * exists n'. destruct S3 as [S3 S4]. split_and!; [done..| |by rewrite S4, S2].
        exists name. split; [|done]. unfold statics in S1. congruence.
    + apply Hnext; [done..|]. intros m [= <-] _. done.
  - apply Hnext; [done..|]. intros m [= <-]. congruence.
Qed.

(** ** What a call says of one friend *)

Definition stat (w : nworld) : list (option cstr * option cstr * option cstr) := map statics (notify_list w).

Section friend.
(** Friend number [i] and server number [id]. *)
Context (i id : nat).

(** From [w] to [w'] it was said that the friend is [o] there, or nothing. *)
Definition tells (o : option bool) (w w' : nworld) : Prop :=
  stat w' = stat w /\ serv_list w' = serv_list w /\ sess_users w' = sess_users w /\
  forall n, notify_list w !! i = Some n ->
    exists n', notify_list w' !! i = Some n' /\ ison_of id n' = default (ison_of id n) o.

Lemma tells_refl w : tells None w w.
Proof. split_and!; [done..|]. intros n Hn. by exists n. Qed.

Lemma tells_trans o1 o2 w1 w2 w3 :
  tells o1 w1 w2 -> tells o2 w2 w3 -> tells (match o2 with Some b => Some b | None => o1 end) w1 w3.
Proof.
  intros (A1 & A2 & A3 & A4) (B1 & B2 & B3 & B4). split_and!; [congruence..|]. intros n Hn.
  destruct (A4 n Hn) as (n2 & H2 & E2). destruct (B4 n2 H2) as (n3 & H3 & E3). exists n3. split; [done|].
  rewrite E3. destruct o2; [done|]. cbn. by rewrite E2.
Qed.

Lemma tells_say e w w' o : tells o w w' -> tells o w (say e w').
Proof. intros (A1 & A2 & A3 & A4). by split_and!. Qed.

Lemma tells_weaken o o' w w' : o = o' -> tells o w w' -> tells o' w w'.
Proof. by intros ->. Qed.

Lemma tells_put l w :
  map statics l = stat w ->
  (forall n, notify_list w !! i = Some n -> exists n', l !! i = Some n' /\ ison_of id n' = ison_of id n) ->
  tells None w (put_list l w).
Proof. intros Hs Hl. by split_and!. Qed.

(** The entry of friend [j] for a server is changed. *)
Lemma tells_update j sid f e w n :
  (forall e, np_server (f e) = np_server e) -> notify_list w !! j = Some n -> find_entry sid (server_list n) = Some e ->
  tells (if decide (j = i /\ sid = id) then Some (ison (f e)) else None) w (update_friend j (update_entry sid f) w).
Proof.
  intros Hf Hj He. split_and!; [|done..|].
  - unfold stat, update_friend. cbn [put_list notify_list]. apply list_eq. intros k. rewrite !list_lookup_fmap.
    destruct (decide (k = j)) as [->|Hk]; [by rewrite list_lookup_alter_eq, Hj|by rewrite list_lookup_alter_ne].
  - intros n' Hn'. unfold update_friend. cbn [put_list notify_list]. destruct (decide (j = i)) as [->|Hji].
    + rewrite list_lookup_alter_eq, Hj. eexists. split; [done|]. rewrite (update_entry_ison id sid f n e) by done.
      assert (n' = n) as -> by congruence. destruct (decide (sid = id)) as [->|Hne].
      * rewrite !decide_True by done. done.
      * rewrite decide_False by congruence. rewrite decide_False by tauto. done.
    + rewrite list_lookup_alter_ne by done. exists n'. split; [done|]. rewrite decide_False by tauto. done.
Qed.

Lemma offline_tells now s j e nick quiet w n :
  notify_list w !! j = Some n -> find_entry (ns_id s) (server_list n) = Some e ->
  tells (if decide (j = i /\ ns_id s = id) then Some false else None) w (notify_announce_offline now s j nick quiet w).
Proof.
  intros Hj He. unfold notify_announce_offline. do 2 apply tells_say.
  pose proof (tells_update j (ns_id s) (gone now) e w n (fun _ => eq_refl) Hj He) as Ht.
  destruct quiet; [exact Ht|by apply tells_say].
Qed.

Lemma online_tells now s j e nick w n :
  notify_list w !! j = Some n -> find_entry (ns_id s) (server_list n) = Some e ->
  tells (if decide (j = i /\ ns_id s = id) then Some true else None) w (notify_announce_online now s j e nick w).
Proof.
  intros Hj He. unfold notify_announce_online.
  pose proof (tells_update j (ns_id s) (seen now) e w n (fun _ => eq_refl) Hj He) as Ht. cbn [seen ison] in Ht.
  destruct (ison e) eqn:Hi; [exact Ht|].
  set (w1 := update_friend j (update_entry (ns_id s) (seen now)) w) in *.
  assert (Hj1 : notify_list w1 !! j = Some (update_entry (ns_id s) (seen now) n)).
  { unfold w1, update_friend. cbn [put_list notify_list]. by rewrite list_lookup_alter_eq, Hj. }
  assert (He1 : find_entry (ns_id s) (server_list (update_entry (ns_id s) (seen now) n)) = Some (seen now e)).
  { unfold update_entry, with_servers. cbn [server_list]. rewrite update_first_find by done. by rewrite decide_True, He. }
  pose proof (tells_update j (ns_id s) (came now) _ w1 _ (fun _ => eq_refl) Hj1 He1) as Ht2. cbn [came ison] in Ht2.
  pose proof (tells_trans _ _ _ _ _ Ht Ht2) as Ht3. set (w2 := update_friend j _ w1) in *.
  assert (Hend : tells (if decide (j = i /\ ns_id s = id) then Some true else None) w w2).
  { eapply tells_weaken; [|exact Ht3]. by case_decide. }
  cbv zeta. destruct (notify_whois_online _); repeat apply tells_say; exact Hend.
Qed.


(** *** Calls *)

Inductive notify_call :=
| SetOnline (now : Z) (s : nserver) (nick : cstr)
| SetOffline (now : Z) (s : nserver) (nick : cstr) (quiet : bool)
| OnlineList (now : Z) (s : nserver) (users : cstr)
| OfflineList (now : Z) (s : nserver) (users : cstr) (quiet : bool)
| MarkOnline (now : Z) (s : nserver) (words : list cstr)
| AccountObserved (now : Z) (s : nserver) (nick account : option cstr)
| AccountCleared (now : Z) (s : nserver) (account : option cstr)
| Cleanup
| Outside (servs : list nserver) (users : list (nat * option (list (option cstr)))). (* servers and user lists change *)

Definition notify_exec (c : notify_call) (w : nworld) : nworld :=
  match c with
  | SetOnline now s nick => notify_set_online now s nick w
  | SetOffline now s nick quiet => notify_set_offline now s nick quiet w
  | OnlineList now s users => notify_set_online_list now s users w
  | OfflineList now s users quiet => notify_set_offline_list now s users quiet w
  | MarkOnline now s words => notify_markonline now s words w
  | AccountObserved now s nick account => notify_account_observed now s nick account w
  | AccountCleared now s account => notify_account_cleared now s account w
  | Cleanup => notify_cleanup w
  | Outside servs users => NWorld (notify_list w) servs users (notify_whois_online w) (ntrace w)
  end.

(** The friend: a name [m], perhaps an account, watched on the network of [serv];
    nobody else on the list has that name. *)
Context (st : list (option cstr * option cstr * option cstr)) (m : cstr) (acct net : option cstr) (serv : nserver).

Record watched_friend : Prop := {
  wf_here : st !! i = Some (Some m, acct, net);
  wf_id : ns_id serv = id;
  wf_cmp : CmpOrder plain (ns_cmp serv);
  wf_plain : forall j x, st !! j = Some x -> match x.1.1 with Some m' => plain m' | None => True end;
  wf_alone : forall j m' a n, j <> i -> st !! j = Some (Some m', a, n) -> ns_cmp serv m' m <> 0;
  wf_network : notify_do_network (Notify (Some m) acct net []) serv = true }.

Definition hits (s : nserver) (nick : cstr) : bool := Nat.eqb (ns_id s) id && (ns_cmp s m nick =? 0).

(** All the names of an ISON reply, up to the first empty word. *)
Definition reply_names (words : list cstr) : list cstr := ison_names (length words) words.

Lemma ison_names_enough fuel fuel' words :
  (length (ison_names fuel' words) <= fuel)%nat -> (length words <= fuel')%nat -> ison_names fuel words = ison_names fuel' words.
Proof.
  revert fuel words. induction fuel' as [|fuel' IH]; intros fuel words Hl Hw.
  { destruct words; [by destruct fuel|cbn in Hw; lia]. }
  destruct words as [|[|c x] words]; [by destruct fuel|by destruct fuel|]. cbn [ison_names length] in *.
  destruct fuel as [|fuel]; [lia|]. cbn [ison_names]. f_equal. apply IH; lia.
Qed.

(** What the call says about the friend: online, offline or nothing. *)
Definition said (servs : list nserver) (users : list (nat * option (list (option cstr)))) (c : notify_call) : option bool :=
  match c with
  | SetOnline _ s nick => if hits s nick then Some true else None
  | SetOffline _ s nick _ => if hits s nick then Some false else None
  | OnlineList _ s us => if existsb (hits s) (nick_tokens us) then Some true else None
  | OfflineList _ s us _ => if existsb (hits s) (nick_tokens us) then Some false else None
  | MarkOnline _ s words => if Nat.eqb (ns_id s) id then Some (existsb (hits s) (reply_names words)) else None
  | AccountObserved _ s _ account =>
      if Nat.eqb (ns_id s) id && negb (no_account account) && bool_decide (acct = account) then Some true else None
  | AccountCleared _ s account =>
      if Nat.eqb (ns_id s) id && negb (no_account account) && bool_decide (acct = account) &&
         negb (existsb (fun x => Nat.eqb x.1 id && match x.2 with
                 | Some us => existsb (fun a => bool_decide (a = acct)) us | None => false end) users)
      then Some false else None
  | Cleanup => if server_valid servs id then None else Some false
  | Outside _ _ => None
  end.

Definition call_server (c : notify_call) : option nserver :=
  match c with
  | SetOnline _ s _ | SetOffline _ s _ _ | OnlineList _ s _ | OfflineList _ s _ _ | MarkOnline _ s _
  | AccountObserved _ s _ _ | AccountCleared _ s _ => Some s
  | Cleanup | Outside _ _ => None
  end.

Definition call_nicks (c : notify_call) : list cstr :=
  match c with
  | SetOnline _ _ nick | SetOffline _ _ nick _ => [nick]
  | OnlineList _ _ us | OfflineList _ _ us _ => nick_tokens us
  | MarkOnline _ _ words => words
  | _ => []
  end.

Definition call_ok (c : notify_call) : Prop :=
  (forall s, call_server c = Some s -> ns_id s = id -> s = serv) /\ Forall plain (call_nicks c) /\
  match c with MarkOnline _ _ words => (length (reply_names words) <= ISON_WORDS)%nat | _ => True end.

Section steps.
Context (Hwf : watched_friend).

(** Friend [i] in a list with these names. *)
Lemma friend_at w : stat w = st -> exists n, notify_list w !! i = Some n /\ statics n = (Some m, acct, net).
Proof.
  intros Hst. pose proof (wf_here Hwf) as Hh. rewrite <- Hst in Hh. unfold stat in Hh. rewrite list_lookup_fmap in Hh.
  destruct (notify_list w !! i) as [n|]; [|done]. exists n. split; [done|]. apply (inj Some). exact Hh.
Qed.

Lemma statics_at w j n : stat w = st -> notify_list w !! j = Some n -> st !! j = Some (statics n).
Proof. intros <- Hj. unfold stat. by rewrite list_lookup_fmap, Hj. Qed.

(** Two friends with the name of a nick are the same. *)
Lemma only_friend w j n m' nick :
  stat w = st -> plain nick -> notify_list w !! j = Some n -> n_name n = Some m' ->
  ns_cmp serv m' nick = 0 -> ns_cmp serv m nick = 0 -> j = i.
Proof.
  intros Hst Hp Hj Hm H1 H2. destruct (decide (j = i)) as [|Hne]; [done|]. exfalso.
  pose proof (statics_at w j n Hst Hj) as Hs. unfold statics in Hs. rewrite Hm in Hs.
  pose proof (wf_plain Hwf _ _ Hs) as Hpm'. pose proof (wf_plain Hwf _ _ (wf_here Hwf)) as Hpm. cbn in Hpm', Hpm.
  apply (wf_alone Hwf j m' _ _ Hne Hs). pose proof (wf_cmp Hwf) as Hc.
  assert (E1 : ns_cmp serv nick m = 0) by by apply (cmp_eq_sym plain (ns_cmp serv)).
  assert (E2 : ns_cmp serv nick m' = 0) by by apply (cmp_eq_sym plain (ns_cmp serv)).
  assert (T1 : ns_cmp serv m' m <= 0) by (apply (cmp_trans m' nick m); [done..|lia|lia]).
  assert (T2 : ns_cmp serv m m' <= 0) by (apply (cmp_trans m nick m'); [done..|lia|lia]).
  pose proof (cmp_sym m' m Hpm' Hpm) as E3. lia.
Qed.

(** Looking somebody up says nothing, and finds the friend by the name. *)
Lemma find_tells s nick w :
  stat w = st -> plain nick -> (ns_id s = id -> s = serv) ->
  let '(l, found) := notify_find s nick (notify_list w) in
  tells None w (put_list l w) /\
  match found with
  | Some (j, e) => exists n, l !! j = Some n /\ find_entry (ns_id s) (server_list n) = Some e /\ ison e = ison_of (ns_id s) n /\
      (hits s nick = true <-> j = i /\ ns_id s = id)
  | None => hits s nick = false
  end.
Proof.
  intros Hst Hp Hs. pose proof (notify_find_spec s nick (notify_list w)) as Hf.
  destruct (notify_find s nick (notify_list w)) as [l found]. destruct Hf as (F1 & F2 & F3). split.
  { apply tells_put; [done|]. intros n Hn. destruct (F2 i n Hn) as (n' & H1 & H2). exists n'. by split. }
  destruct (friend_at w Hst) as (n0 & Hn0 & Hs0). unfold hits. destruct found as [[j e]|].
  - destruct F3 as (n & Hj & He & (m' & Hm' & Hc) & Hi). exists n. split_and!; [done..|].
    destruct (Nat.eqb_spec (ns_id s) id) as [Hid|Hid]; cbn [andb]; [|by split; [|intros [_ ?]]].
    specialize (Hs Hid). subst s.
    assert (Hl : stat (put_list l w) = st) by (rewrite <- Hst; exact F1).
    split.
    + intros Hm%Z.eqb_eq. split; [|done]. by apply (only_friend (put_list l w) j n m' nick).
    + intros [-> _]. apply Z.eqb_eq. pose proof (statics_at (put_list l w) i n Hl Hj) as Hx.
      rewrite (wf_here Hwf) in Hx. unfold statics in Hx. rewrite Hm' in Hx. by injection Hx as -> _ _.
  - destruct (Nat.eqb_spec (ns_id s) id) as [Hid|]; [|done]. specialize (Hs Hid). subst s. cbn [andb]. apply Z.eqb_neq.
    unfold statics in Hs0. injection Hs0 as E1 E2 E3. apply (F3 i n0); [done|done|].
    erewrite do_network_statics; [apply (wf_network Hwf)|]. unfold statics. cbn. by rewrite E1, E2, E3.
Qed.

Lemma set_offline_tells now s nick quiet w :
  stat w = st -> plain nick -> (ns_id s = id -> s = serv) ->
  tells (if hits s nick then Some false else None) w (notify_set_offline now s nick quiet w).
Proof.
  intros Hst Hp Hs. unfold notify_set_offline. pose proof (find_tells s nick w Hst Hp Hs) as Hf.
  destruct (notify_find s nick (notify_list w)) as [l [[j e]|]]; destruct Hf as [T F].
  - destruct F as (n & Hj & He & _ & Hh). pose proof (tells_trans _ _ _ _ _ T (offline_tells now s j e nick quiet (put_list l w) n Hj He)) as Ht.
    eapply tells_weaken; [|exact Ht]. destruct (decide _) as [Hd|Hd]; [by rewrite (proj2 Hh Hd)|].
    destruct (hits s nick); [|done]. exfalso. tauto.
  - by rewrite F.
Qed.

Lemma set_online_tells now s nick w :
  stat w = st -> plain nick -> (ns_id s = id -> s = serv) ->
  tells (if hits s nick then Some true else None) w (notify_set_online now s nick w).
Proof.
  intros Hst Hp Hs. unfold notify_set_online. pose proof (find_tells s nick w Hst Hp Hs) as Hf.
  destruct (notify_find s nick (notify_list w)) as [l [[j e]|]]; destruct Hf as [T F].
  - destruct F as (n & Hj & He & _ & Hh). pose proof (tells_trans _ _ _ _ _ T (online_tells now s j e nick (put_list l w) n Hj He)) as Ht.
    eapply tells_weaken; [|exact Ht]. destruct (decide _) as [Hd|Hd]; [by rewrite (proj2 Hh Hd)|].
    destruct (hits s nick); [|done]. exfalso. tauto.
  - by rewrite F.
Qed.

Lemma fold_tells (act : cstr -> nworld -> nworld) (b : bool) (hit : cstr -> bool) nicks w :
  (forall nick w, nick ∈ nicks -> stat w = st -> tells (if hit nick then Some b else None) w (act nick w)) -> stat w = st ->
  tells (if existsb hit nicks then Some b else None) w (foldl (fun w nick => act nick w) w nicks).
Proof.
  intros Hact Hst. revert w Hst. induction nicks as [|nick nicks IH]; intros w Hst; [apply tells_refl|]. cbn [foldl existsb].
  assert (Hin : nick ∈ nick :: nicks) by by left. pose proof (Hact nick w Hin Hst) as T1.
  assert (Hst1 : stat (act nick w) = st) by (destruct T1 as [E _]; congruence).
  assert (Hrest : forall x w, x ∈ nicks -> stat w = st -> tells (if hit x then Some b else None) w (act x w)).
  { intros x w' Hx. apply Hact. by right. }
  pose proof (tells_trans _ _ _ _ _ T1 (IH Hrest _ Hst1)) as T. eapply tells_weaken; [|exact T].
  by destruct (hit nick), (existsb hit nicks).
Qed.

Lemma tells_same b w w' :
  (forall n, notify_list w !! i = Some n -> ison_of id n = b) -> tells None w w' -> tells (Some b) w w'.
Proof.
  intros Hb (A1 & A2 & A3 & A4). split_and!; [done..|]. intros n Hn. destruct (A4 n Hn) as (n' & H1 & H2).
  exists n'. split; [done|]. rewrite H2. by apply Hb.
Qed.

Lemma fold_index (act : nworld -> nat -> nworld) o js w :
  (forall j w, stat w = st -> tells (if decide (j = i) then o else None) w (act w j)) -> stat w = st ->
  tells (if decide (i ∈ js) then o else None) w (foldl act w js).
Proof.
  intros Hact Hst. revert w Hst. induction js as [|j js IH]; intros w Hst; [apply tells_refl|]. cbn [foldl].
  pose proof (Hact j w Hst) as T1. assert (Hst1 : stat (act w j) = st) by (destruct T1 as [E _]; congruence).
  pose proof (tells_trans _ _ _ _ _ T1 (IH _ Hst1)) as T. eapply tells_weaken; [|exact T].
  destruct (decide (j = i)) as [->|Hne].
  - rewrite (decide_True (P := i ∈ i :: js)) by by left. case_decide; [|done]. by destruct o.
  - destruct (decide (i ∈ js)) as [Hin|Hin].
    + rewrite decide_True by by right. by destruct o.
    + rewrite decide_False; [done|]. by apply not_elem_of_cons.
Qed.

Lemma in_range w : stat w = st -> i ∈ seq 0 (length (notify_list w)).
Proof.
  intros Hst. destruct (friend_at w Hst) as (n & Hn & _). apply lookup_lt_Some in Hn. apply elem_of_seq. lia.
Qed.

(** The entry of friend [j] for [s] is looked up, perhaps made. *)
Lemma entry_tells s j n w :
  stat w = st -> notify_list w !! j = Some n -> (ns_id s = id -> s = serv) ->
  match notify_find_server_entry s n with
  | (n', Some e) => tells None w (put_list (<[j := n']> (notify_list w)) w) /\
      <[j := n']> (notify_list w) !! j = Some n' /\ find_entry (ns_id s) (server_list n') = Some e /\ ison e = ison_of (ns_id s) n /\
      statics n' = statics n
  | (_, None) => ~ (j = i /\ ns_id s = id)
  end.
Proof.
  intros Hst Hj Hs. pose proof (server_entry_spec s n) as He. destruct (notify_find_server_entry s n) as [n' [e|]]; destruct He as (E1 & E2 & E3).
  - pose proof (lookup_lt_Some _ _ _ Hj) as Hlt. split_and!; [|by apply list_lookup_insert_eq|by apply E3|by apply E3|done].
    apply tells_put.
    + unfold stat. rewrite list_fmap_insert, E1. apply list_insert_id. by rewrite list_lookup_fmap, Hj.
    + intros x Hx. destruct (decide (j = i)) as [->|Hne].
      * exists n'. rewrite list_lookup_insert_eq by done. split; [done|]. assert (x = n) as -> by congruence. apply E2.
      * exists x. by rewrite list_lookup_insert_ne.
  - intros [-> Hid]. specialize (Hs Hid). subst s. pose proof (statics_at w i n Hst Hj) as Hx.
    rewrite (wf_here Hwf) in Hx. injection Hx as X1 X2 X3.
    assert (Hnet : notify_do_network n serv = true).
    { erewrite do_network_statics; [apply (wf_network Hwf)|]. unfold statics. cbn. by rewrite <- X1, <- X2, <- X3. }
    congruence.
Qed.

Lemma mark_tells now s words w j :
  stat w = st -> (ns_id s = id -> s = serv) ->
  tells (if decide (j = i) then (if Nat.eqb (ns_id s) id then Some (existsb (hits s) (ison_names ISON_WORDS words)) else None) else None)
    w (mark_friend now s words w j).
Proof.
  intros Hst Hs. unfold mark_friend. destruct (friend_at w Hst) as (n0 & Hn0 & Hs0).
  destruct (notify_list w !! j) as [n|] eqn:Hj.
  2: { rewrite decide_False by congruence. apply tells_refl. }
  destruct (n_name n) as [name|] eqn:Hname.
  2: { rewrite decide_False; [apply tells_refl|]. intros ->. assert (n0 = n) as -> by congruence.
       unfold statics in Hs0. congruence. }
  pose proof (entry_tells s j n w Hst Hj Hs) as He. destruct (notify_find_server_entry s n) as [n' [e|]].
  2: { eapply tells_weaken; [|apply tells_refl]. case_decide as Hd; [|done].
       destruct (Nat.eqb_spec (ns_id s) id); [|done]. exfalso. by apply He. }
  destruct He as (T & Hj' & Hfe & Hison & Hstn). set (w1 := put_list _ w) in *.
  assert (Hj1 : notify_list w1 !! j = Some n') by exact Hj'.
  destruct (decide (j = i /\ ns_id s = id)) as [[-> Hid]|Hno].
  - assert (Hsame : forall nick, (ns_cmp s name nick =? 0) = hits s nick).
    { intros nick. unfold hits. rewrite Hid, Nat.eqb_refl. cbn [andb]. specialize (Hs Hid). subst s.
      assert (n0 = n) as -> by congruence. unfold statics in Hs0. rewrite Hname in Hs0. by injection Hs0 as -> _ _. }
    rewrite decide_True, Hid, Nat.eqb_refl by done.
    replace (existsb (hits s) _) with (existsb (fun nick => ns_cmp s name nick =? 0) (ison_names ISON_WORDS words)).
    2: { generalize (ison_names ISON_WORDS words). intros l. induction l as [|x l IH]; [done|]. cbn. by rewrite Hsame, IH. }
    destruct (existsb _ _) eqn:Hseen.
    + pose proof (tells_trans _ _ _ _ _ T (online_tells now s i e name w1 n' Hj1 Hfe)) as T2.
      by rewrite decide_True in T2.
    + destruct (ison e) eqn:Hi.
      * pose proof (tells_trans _ _ _ _ _ T (offline_tells now s i e name false w1 n' Hj1 Hfe)) as T2. by rewrite decide_True in T2.
      * apply tells_same; [|exact T]. intros x Hx. assert (x = n) as -> by congruence. rewrite <- Hid. by symmetry.
  - eapply tells_weaken.
    2: { destruct (existsb _ _).
         - pose proof (tells_trans _ _ _ _ _ T (online_tells now s j e name w1 n' Hj1 Hfe)) as T2. by rewrite decide_False in T2.
         - destruct (ison e); [|exact T].
           pose proof (tells_trans _ _ _ _ _ T (offline_tells now s j e name false w1 n' Hj1 Hfe)) as T2. by rewrite decide_False in T2. }
    case_decide; [|done]. destruct (Nat.eqb_spec (ns_id s) id); [|done]. exfalso. by apply Hno.
Qed.

Lemma markonline_tells now s words w :
  stat w = st -> (ns_id s = id -> s = serv) ->
  tells (if Nat.eqb (ns_id s) id then Some (existsb (hits s) (ison_names ISON_WORDS words)) else None) w (notify_markonline now s words w).
Proof.
  intros Hst Hs. unfold notify_markonline. apply tells_say. eapply tells_weaken.
  2: { apply fold_index; [|done]. intros j w' Hst'. by apply mark_tells. }
  by rewrite decide_True by by apply in_range.
Qed.

(** [act] says [o] of a friend whose entry it is given. *)
Lemma account_tells s account act o w :
  stat w = st -> (ns_id s = id -> s = serv) ->
  (forall j n e w, notify_list w !! j = Some n -> find_entry (ns_id s) (server_list n) = Some e -> ison e = ison_of (ns_id s) n ->
     tells (if decide (j = i /\ ns_id s = id) then Some o else None) w (act j n e w)) ->
  tells (if Nat.eqb (ns_id s) id && bool_decide (acct = Some account) then Some o else None) w (account_friends s account act w).
Proof.
  intros Hst Hs Hact. unfold account_friends. cbv zeta.
  set (w' := foldl _ _ _). cut (tells (if Nat.eqb (ns_id s) id && bool_decide (acct = Some account) then Some o else None) w w').
  { intros T. destruct (existsb _ _); [by apply tells_say|exact T]. }
  eapply tells_weaken.
  2: { apply (fold_index _ (if Nat.eqb (ns_id s) id && bool_decide (acct = Some account) then Some o else None)); [|done].
       intros j w1 Hst1. unfold account_friend. destruct (friend_at w1 Hst1) as (n0 & Hn0 & Hs0).
       destruct (notify_list w1 !! j) as [n|] eqn:Hj; [|rewrite decide_False by congruence; apply tells_refl].
       destruct (bool_decide (n_account n = Some account)) eqn:Ha.
       - pose proof (entry_tells s j n w1 Hst1 Hj Hs) as He. destruct (notify_find_server_entry s n) as [n' [e|]].
         + destruct He as (T & Hj' & Hfe & Hison & Hstn). set (w2 := put_list _ w1) in *.
           assert (Hi' : ison e = ison_of (ns_id s) n') by (unfold ison_of; by rewrite Hfe).
           pose proof (tells_trans _ _ _ _ _ T (Hact j n' e w2 Hj' Hfe Hi')) as T2. eapply tells_weaken; [|exact T2].
           destruct (decide (j = i)) as [->|]; [|by case_decide as Hd; [destruct Hd|]].
           assert (n0 = n) as -> by congruence. unfold statics in Hs0. injection Hs0 as X1 X2 X3.
           apply bool_decide_eq_true in Ha. rewrite (bool_decide_eq_true_2 (acct = Some account)) by congruence. rewrite andb_true_r.
           destruct (Nat.eqb_spec (ns_id s) id); case_decide; try done; exfalso; tauto.
         + eapply tells_weaken; [|apply tells_refl]. destruct (decide (j = i)); [|done]. destruct (Nat.eqb_spec (ns_id s) id); [|done].
           exfalso. by apply He.
       - eapply tells_weaken; [|apply tells_refl]. destruct (decide (j = i)) as [Hd|]; [|done]. subst j. assert (n0 = n) as -> by congruence.
         unfold statics in Hs0. injection Hs0 as X1 X2 X3. apply bool_decide_eq_false in Ha.
         rewrite (bool_decide_eq_false_2 (acct = Some account)) by congruence. by rewrite andb_false_r. }
  by rewrite decide_True by by apply in_range.
Qed.

Lemma cleared_tells now s account w :
  stat w = st -> (ns_id s = id -> s = serv) ->
  tells (said (serv_list w) (sess_users w) (AccountCleared now s account)) w (notify_account_cleared now s account w).
Proof.
  intros Hst Hs. unfold notify_account_cleared. cbn [said]. destruct account as [a|].
  2: { eapply tells_weaken; [|apply tells_refl]. by rewrite andb_false_r. }
  destruct (no_account (Some a)) eqn:Hno; cbn [orb negb andb].
  { eapply tells_weaken; [|apply tells_refl]. by rewrite andb_false_r. }
  rewrite andb_true_r. destruct (notify_account_still_present (ns_id s) a w) eqn:Hp.
  { eapply tells_weaken; [|apply tells_refl]. unfold notify_account_still_present in Hp.
    destruct (Nat.eqb_spec (ns_id s) id) as [Hid|]; [|done]. destruct (bool_decide (acct = Some a)) eqn:Ha; [|done].
    apply bool_decide_eq_true in Ha. rewrite <- Ha, Hid in Hp. by rewrite Hp. }
  eapply tells_weaken.
  2: { apply (account_tells s a _ false); [done..|]. intros j n e w' Hj He Hi. destruct (ison e) eqn:Hie; [by eapply offline_tells|].
       destruct (decide (j = i /\ ns_id s = id)) as [[-> Hid]|]; [|apply tells_refl].
       apply tells_same; [|apply tells_refl]. intros x Hx. assert (x = n) as -> by congruence. by rewrite <- Hid. }
  destruct (Nat.eqb_spec (ns_id s) id) as [Hid|]; [|done]. destruct (bool_decide (acct = Some a)) eqn:Ha; [|done].
  apply bool_decide_eq_true in Ha. unfold notify_account_still_present in Hp. rewrite <- Ha, Hid in Hp. by rewrite Hp.
Qed.

Lemma observed_tells now s nick account w :
  stat w = st -> (ns_id s = id -> s = serv) ->
  tells (said (serv_list w) (sess_users w) (AccountObserved now s nick account)) w (notify_account_observed now s nick account w).
Proof.
  intros Hst Hs. unfold notify_account_observed. cbn [said]. destruct account as [a|].
  2: { eapply tells_weaken; [|apply tells_refl]. by rewrite andb_false_r. }
  destruct (no_account (Some a)); cbn [negb andb].
  { eapply tells_weaken; [|apply tells_refl]. by rewrite andb_false_r. }
  rewrite andb_true_r. apply (account_tells s a _ true); [done..|]. intros j n e w' Hj He Hi. by eapply online_tells.
Qed.

Lemma find_filter (ok : nat -> bool) l :
  find_entry id (List.filter (fun e => ok (np_server e)) l) = if ok id then find_entry id l else None.
Proof.
  unfold find_entry. induction l as [|e l IH]; [by destruct (ok id)|]. cbn [List.filter].
  destruct (Nat.eqb_spec (np_server e) id) as [Hid|Hid].
  - destruct (ok (np_server e)) eqn:Ho; cbn [List.find].
    + rewrite Hid, Nat.eqb_refl. by rewrite Hid in Ho; rewrite Ho.
    + rewrite IH, <- Hid, Ho. done.
  - destruct (ok (np_server e)); cbn [List.find]; apply Nat.eqb_neq in Hid; by rewrite Hid, ?IH.
Qed.

Lemma cleanup_tells w : tells (if server_valid (serv_list w) id then None else Some false) w (notify_cleanup w).
Proof.
  unfold notify_cleanup. apply tells_say. split_and!; [|done..|].
  - unfold stat. cbn [put_list notify_list]. rewrite map_map. by apply map_ext.
  - intros n Hn. cbn [put_list notify_list]. rewrite list_lookup_fmap, Hn. eexists. split; [done|].
    unfold ison_of, with_servers. cbn [server_list]. rewrite find_filter. by destruct (server_valid _ _).
Qed.

(** Every call says what [said] has it say. *)
Lemma call_tells c w :
  stat w = st -> call_ok c -> (forall servs users, c <> Outside servs users) ->
  tells (said (serv_list w) (sess_users w) c) w (notify_exec c w).
Proof.
  intros Hst (Hs & Hp & Hison) Hout. destruct c; cbn [notify_exec said call_server call_nicks] in *; try (specialize (Hs _ eq_refl)).
  - by apply set_online_tells; [|inversion Hp|].
  - by apply set_offline_tells; [|inversion Hp|].
  - unfold notify_set_online_list. apply (fold_tells (fun nick w => notify_set_online now s nick w) true (hits s)); [|done].
    intros nick w' Hin Hst'. rewrite Forall_forall in Hp. apply set_online_tells; auto.
  - unfold notify_set_offline_list. apply (fold_tells (fun nick w => notify_set_offline now s nick quiet w) false (hits s)); [|done].
    intros nick w' Hin Hst'. rewrite Forall_forall in Hp. apply set_offline_tells; auto.
  - unfold reply_names in *. rewrite <- (ison_names_enough ISON_WORDS (length words)) by (done || lia). by apply markonline_tells.
  - by apply observed_tells.
  - by apply cleared_tells.
  - apply cleanup_tells.
  - by destruct (Hout servs users).
Qed.
End steps.

(** Following what is said, from one state of servers and user lists to the next. *)
Fixpoint heard (servs : list nserver) (users : list (nat * option (list (option cstr)))) (calls : list notify_call) (b : bool) : bool :=
  match calls with
  | [] => b
  | Outside servs users :: calls => heard servs users calls b
  | c :: calls => heard servs users calls (default b (said servs users c))
  end.

(** C17. The list tells the truth: over any history of numerics, ISON replies of
    at most 24 names ([ison_reply_cut] shows what becomes of a longer one),
    accounts seen and gone, and lost connections, on this server and others, a
    friend who is watched there and whose name nobody else on the list has is
    shown online on a server exactly when the last thing that was said about him
    there is that he is: his nick, or an account he is listed with, came, and
    neither a report of the nick, nor an ISON reply that does not name him, nor
    the last user with the account leaving, nor the loss of the server came
    after it. *)
Theorem notify_presence calls w n :
  watched_friend -> Forall call_ok calls -> stat w = st -> notify_list w !! i = Some n ->
  exists n', notify_list (foldl (fun w c => notify_exec c w) w calls) !! i = Some n' /\
    ison_of id n' = heard (serv_list w) (sess_users w) calls (ison_of id n).
Proof.
  intros Hwf Hok Hst Hn. revert w n Hst Hn. induction Hok as [|c calls Hc Hok IH]; intros w n Hst Hn; [by exists n|]. cbn [foldl].
  assert (Hcase : (exists servs users, c = Outside servs users) \/ forall servs users, c <> Outside servs users).
  { destruct c; try (by right). left. by eexists _, _. }
  destruct Hcase as [(servs & users & ->)|Hout]; [by apply IH|].
  destruct (call_tells Hwf c w Hst Hc Hout) as (T1 & T2 & T3 & T4). destruct (T4 n Hn) as (n1 & H1 & H2).
  destruct (IH (notify_exec c w) n1 ltac:(congruence) H1) as (n' & E1 & E2). exists n'. split; [done|].
  rewrite E2, T2, T3, H2. destruct c; try done. by destruct (Hout servs users).
Qed.
End friend.

(** ** The watch lines *)

(** A batch written out. *)
Definition watch_line (monitor : bool) (names : list cstr) : cstr :=
  (if monitor then ("MONITOR + " : cstr) else ("WATCH" : cstr)) ++
  concat (map (fun n => (if monitor then ["," : ascii] else [" "; "+"])%char ++ n) names).

Definition cost (format_len : Z) (names : list cstr) : Z := fold_right (fun n a => Z.of_nat (length n) + format_len + a) 0 names.

Lemma cost_app f a b : cost f (a ++ b) = cost f a + cost f b.
Proof. unfold cost. induction a as [|n a IH]; [done|]. cbn [app fold_right]. lia. Qed.

Lemma cost_pos f names : 1 <= f -> names <> [] -> 0 < cost f names.
Proof.
  intros Hf. assert (Hnn : forall l, 0 <= cost f l) by (intros l; unfold cost; induction l as [|x l IH]; cbn [fold_right]; lia).
  destruct names as [|n names]; [done|]. intros _. specialize (Hnn names). unfold cost in *. cbn [fold_right]. lia.
Qed.

Lemma watch_batches_spec f batch names :
  1 <= f <= 2 -> Forall (fun n => (length n <= 63)%nat) names -> cost f batch <= 500 ->
  concat (watch_batches f batch (cost f batch) names) = batch ++ names /\
  Forall (fun b => b <> [] /\ cost f b <= 500) (watch_batches f batch (cost f batch) names).
Proof.
  intros Hf Hn. revert batch. induction Hn as [|n names Hn Hns IH]; intros batch Hc; cbn [watch_batches].
  - destruct batch as [|b batch]; [done|]. pose proof (cost_pos f (b :: batch) ltac:(lia) ltac:(done)).
    replace (cost f (b :: batch) =? 0) with false by lia. split; [cbn [concat]; by rewrite app_nil_r|]. by repeat constructor.
  - assert (E1 : cost f [n] = Z.of_nat (length n) + f) by (unfold cost; cbn; lia).
    assert (E2 : cost f (batch ++ [n]) = cost f batch + (Z.of_nat (length n) + f)) by (rewrite cost_app; lia).
    destruct (Z.ltb_spec 500 (cost f batch + (Z.of_nat (length n) + f))).
    + rewrite <- E1. destruct (IH [n] ltac:(lia)) as [I1 I2]. split; [cbn [concat]; by rewrite I1|]. constructor; [|done].
      split; [|done]. intros ->. change (cost f []) with 0 in *. lia.
    + rewrite <- E2. destruct (IH (batch ++ [n]) ltac:(lia)) as [I1 I2]. split; [by rewrite I1, <- app_assoc|done].
Qed.

Lemma flush_line_whole (monitor : bool) names :
  cost (if monitor then 1 else 2) names <= 500 -> flush_line monitor names = watch_line monitor names /\ (length (watch_line monitor names) <= 510)%nat.
Proof.
  intros Hc. unfold flush_line, watch_line.
  set (sep := if monitor then [","%char] else [" "; "+"]%char). set (pre := if monitor then ("MONITOR + " : cstr) else _).
  assert (Hsep : Z.of_nat (length sep) = if monitor then 1 else 2) by (unfold sep; by destruct monitor).
  assert (Hpre : (length pre <= 10)%nat) by (unfold pre; destruct monitor; simpl; lia).
  assert (Hlen : Z.of_nat (length (concat (map (fun n => sep ++ n) names))) = cost (if monitor then 1 else 2) names).
  { unfold cost. clear Hc. induction names as [|n names IH]; [done|]. cbn [map concat fold_right]. rewrite !length_app. lia. }
  split; [|rewrite length_app; lia].
  assert (Hroom : Z.of_nat (length pre) + cost (if monitor then 1 else 2) names <= 511) by lia. clear Hc Hlen Hpre. revert Hroom.
  generalize pre. induction names as [|n names IH]; intros p Hroom; cbn [foldl map concat]; [by rewrite app_nil_r|].
  unfold cost in *. cbn [fold_right] in Hroom. fold (cost (if monitor then 1 else 2) names) in *.
  assert (Hnn : 0 <= cost (if monitor then 1 else 2) names).
  { clear. unfold cost. induction names as [|x names IH]; [done|]. cbn [fold_right]. destruct monitor; lia. }
  assert (E1 : take 511 (p ++ sep) = p ++ sep) by (apply take_ge; rewrite length_app; lia).
  rewrite E1. assert (E2 : take 511 ((p ++ sep) ++ n) = p ++ sep ++ n) by (rewrite <- app_assoc; apply take_ge; rewrite !length_app; lia).
  rewrite E2. rewrite IH; [by rewrite <- !app_assoc|]. rewrite !length_app. lia.
Qed.

(** After the message of the day every friend watched on the network is asked
    for once and in order: the WATCH or MONITOR lines together name exactly
    these, no line is empty, and each fits a line of the protocol. *)
Theorem notify_watches_complete serv w :
  Forall (fun n => (length n <= 63)%nat) (watched_names serv (notify_list w)) ->
  exists batches,
    ntrace (notify_send_watches serv w) =
      ntrace w ++ map (fun b => Raw (ns_id serv) [SendLen (watch_line (supports_monitor serv) b ++ EOL)]) batches /\
    concat batches = watched_names serv (notify_list w) /\
    Forall (fun b => b <> [] /\ (length (watch_line (supports_monitor serv) b ++ EOL) <= 512)%nat) batches.
Proof.
  intros Hn. unfold notify_send_watches. set (names := watched_names serv (notify_list w)) in *. set (f := if supports_monitor serv then 1 else 2).
  destruct (watch_batches_spec f [] names) as [B1 B2]; [unfold f; by destruct (supports_monitor serv)|done|by change (cost f []) with 0|].
  change (cost f []) with 0 in *. exists (watch_batches f [] 0 names). split_and!; [|exact B1|].
  - generalize w. clear B1. induction B2 as [|b bs [Hb Hc] Hbs IH]; intros w'; cbn [foldl map]; [by rewrite app_nil_r|].
    rewrite IH. cbn [say ntrace]. rewrite <- app_assoc. cbn [app]. f_equal. f_equal. f_equal.
    destruct (flush_line_whole (supports_monitor serv) b Hc) as [-> Hl]. unfold irc_raw.
    replace (Z.of_nat (length _) <? 4096 - 3) with true by lia. unfold watch_line. by destruct (supports_monitor serv).
  - eapply Forall_impl; [exact B2|]. intros b [Hb Hc]. split; [done|].
    destruct (flush_line_whole (supports_monitor serv) b Hc) as [_ Hl]. rewrite length_app. change (length EOL) with 2%nat. lia.
Qed.

(** ** The file *)

Definition fileword (x : cstr) : Prop := x <> [] /\ Forall (fun c => is_tab c = false /\ c <> LF /\ c <> CR /\ c <> NUL) x.

Record listable (n : notify) : Prop := {
  li_some : n_name n <> None \/ n_account n <> None;
  li_name : forall x, n_name n = Some x -> fileword x /\ (length x <= 63)%nat /\ hd NUL x <> "#"%char /\ after_prefix "account=" x = None;
  li_account : forall x, n_account n = Some x -> fileword x;
  li_networks : forall x, n_networks n = Some x -> fileword x /\ (n_account n = None -> after_prefix "account=" x = None);
  li_length : (length (save_line n) <= 256)%nat }.

Lemma after_prefix_none pre x c r : after_prefix pre x = None -> c ∉ pre -> after_prefix pre (x ++ c :: r) = None.
Proof.
  revert x. induction pre as [|p pre IH]; intros [|y x] Hn Hc; try done; apply not_elem_of_cons in Hc as [Hc1 Hc2]; cbn [app after_prefix] in *.
  - destruct (Ascii.eqb_spec p c); [congruence|done].
  - destruct (p =c y); [by apply IH|done].
Qed.

Lemma after_prefix_same pre x : after_prefix pre (pre ++ x) = Some x.
Proof. induction pre as [|p pre IH]; [done|]. cbn [app after_prefix]. by rewrite Ascii.eqb_refl. Qed.

Lemma split_tab_word x : fileword x -> split_tab x = (x, None).
Proof.
  intros [_ Hx]. induction Hx as [|c x [Hc _] Hx IH]; [done|]. cbn [split_tab]. by rewrite Hc, IH.
Qed.

Lemma split_tab_then x y : fileword x -> is_tab (hd NUL y) = false -> split_tab (x ++ " "%char :: y) = (x, Some y).
Proof.
  intros [_ Hx] Hy. induction Hx as [|c x [Hc _] Hx IH]; cbn [app split_tab].
  - change (is_tab " ") with true. cbn match. destruct y as [|c y]; [done|]. cbn [skip_tabs hd] in *. by rewrite Hy.
  - by rewrite Hc, IH.
Qed.

Lemma split_tab_two x y : fileword x -> fileword y -> split_tab (x ++ " "%char :: y) = (x, Some y).
Proof. intros Hx [Hne Hy]. apply split_tab_then; [done|]. destruct Hy as [|c y [Hc _] Hy]; [done|exact Hc]. Qed.

Lemma no_cr_end x : CR ∉ x -> rstrip_cr x = x.
Proof.
  intros Hx. unfold rstrip_cr. destruct (last x) as [c|] eqn:E; [|done]. apply last_Some in E as [y ->].
  destruct (Ascii.eqb_spec c CR) as [->|]; [|done]. exfalso. apply Hx. set_solver.
Qed.

(** A line without its line feed. *)
Definition conf_text (n : notify) : cstr :=
  default [] (n_name n) ++
  match n_account n with
  | Some a => (match n_name n with Some _ => [" "%char] | None => [] end) ++ ("account=" : cstr) ++ a
  | None => []
  end ++
  match n_networks n with
  | Some net => " "%char :: match n_account n with Some _ => ("networks=" : cstr) ++ net | None => net end
  | None => []
  end.

Lemma save_line_text n : save_line n = conf_text n ++ [LF].
Proof. unfold save_line, conf_text. by rewrite <- !app_assoc. Qed.

Lemma fileword_not x c : fileword x -> c = LF \/ c = CR \/ c = NUL -> c ∉ x.
Proof.
  intros [_ Hx] Hc Hin. rewrite Forall_forall in Hx. destruct (Hx c Hin) as (_ & H1 & H2 & H3). by destruct Hc as [-> | [-> | ->] ].
Qed.

Lemma text_not n c : listable n -> c = LF \/ c = CR \/ c = NUL -> c ∉ conf_text n.
Proof.
  intros Hl Hc. assert (Hlit : forall x : cstr, forallb (fun c => negb ((c =c LF) || (c =c CR) || (c =c NUL))) x = true -> c ∉ x).
  { intros x Hx Hin. rewrite forallb_forall in Hx. apply list_elem_of_In, Hx in Hin. by destruct Hc as [-> | [-> | ->] ]. }
  unfold conf_text. rewrite !not_elem_of_app. split_and!.
  - destruct (n_name n) as [x|] eqn:E; [|set_solver]. apply fileword_not; [apply (li_name _ Hl x E)|done].
  - destruct (n_account n) as [a|] eqn:E; [|set_solver]. rewrite !not_elem_of_app.
    split_and!; [destruct (n_name n); by apply Hlit|by apply Hlit|]. apply fileword_not; [apply (li_account _ Hl a E)|done].
  - destruct (n_networks n) as [net|] eqn:E; [|set_solver].
    assert (c ∉ net) by (apply fileword_not; [apply (li_networks _ Hl net E)|done]).
    apply not_elem_of_cons. split; [by destruct Hc as [-> | [-> | ->] ]|].
    destruct (n_account n); [|done]. apply not_elem_of_app. by split; [apply Hlit|].
Qed.

Lemma fileword_app x y : Forall (fun c => is_tab c = false /\ c <> LF /\ c <> CR /\ c <> NUL) x -> fileword y -> fileword (x ++ y).
Proof. intros Hx [Hy1 Hy2]. split; [by destruct x|]. by apply Forall_app. Qed.

Lemma account_tail_word a : fileword a -> account_tail a = (Some a, None).
Proof. intros Ha. unfold account_tail. by rewrite split_tab_word. Qed.

Lemma account_tail_two a net : fileword a -> fileword net -> account_tail (a ++ " "%char :: ("networks=" : cstr) ++ net) = (Some a, Some net).
Proof.
  intros Ha Hn. unfold account_tail. rewrite split_tab_two; [|done|].
  - cbn [mbind option_bind]. by rewrite after_prefix_same.
  - apply fileword_app; [|done]. by repeat constructor.
Qed.

Lemma parse_text n : listable n -> parse_line (conf_text n) = (n_name n, n_account n, n_networks n).
Proof.
  intros Hl. unfold parse_line. rewrite no_cr_end by (apply text_not; [done|by right; left]).
  assert (Hacc : forall x, fileword x -> fileword (("account=" : cstr) ++ x)).
  { intros x Hx. apply fileword_app; [|done]. by repeat constructor. }
  unfold conf_text. destruct (n_name n) as [x|] eqn:En; cbn [default from_option].
  - destruct (li_name _ Hl x En) as (Hx & _ & _ & Hp).
    assert (Hsp : forall r, after_prefix "account=" (x ++ " "%char :: r) = None).
    { intros r. apply after_prefix_none; [done|]. apply (bool_decide_unpack _). by vm_compute. }
    destruct (n_account n) as [a|] eqn:Ea; destruct (n_networks n) as [net|] eqn:Et.
    + pose proof (li_account _ Hl a Ea) as Ha. destruct (li_networks _ Hl net Et) as [Hnet _].
      change (([" "%char] ++ ("account=" : cstr) ++ a) ++ ?r) with (" "%char :: (("account=" : cstr) ++ a) ++ r).
      rewrite Hsp, split_tab_then by done. rewrite <- app_assoc, after_prefix_same, account_tail_two by done. done.
    + pose proof (li_account _ Hl a Ea) as Ha. rewrite app_nil_r. change ([" "%char] ++ ("account=" : cstr) ++ a) with (" "%char :: ("account=" : cstr) ++ a).
      rewrite Hsp, split_tab_two by auto. by rewrite after_prefix_same, account_tail_word.
    + destruct (li_networks _ Hl net Et) as [Hnet Hp2]. cbn [app]. rewrite Hsp, split_tab_two by done. rewrite Hp2 by done.
      destruct Hnet as [Hne _]. by destruct net.
    + cbn [app]. rewrite app_nil_r. unfold id. rewrite Hp, split_tab_word by done. done.
  - destruct (n_account n) as [a|] eqn:Ea; [|exfalso; destruct (li_some _ Hl) as [?|?]; congruence].
    pose proof (li_account _ Hl a Ea) as Ha. cbn [app]. destruct (n_networks n) as [net|] eqn:Et.
    + destruct (li_networks _ Hl net Et) as [Hnet _].
      change ((("account=" : cstr) ++ a) ++ ?r) with (("account=" : cstr) ++ a ++ r). rewrite after_prefix_same, account_tail_two by done. done.
    + rewrite app_nil_r, after_prefix_same, account_tail_word by done. done.
Qed.

Lemma c_string_id x : NUL ∉ x -> c_string x = x.
Proof.
  induction x as [|c x IH]; intros Hx; [done|]. apply not_elem_of_cons in Hx as [Hc Hx]. cbn [c_string].
  destruct (Ascii.eqb_spec c NUL); [congruence|]. by rewrite IH.
Qed.

Definition bare (n : notify) : notify := with_servers [] n.

Lemma watch_all_none n add w : serv_list w = [] -> notify_watch_all n add w = w.
Proof. intros Hs. unfold notify_watch_all. destruct (n_name n); [|done]. by rewrite Hs. Qed.

Lemma despacify_word x : fileword x -> despacify_dup x = x.
Proof.
  intros [_ Hf]. unfold despacify_dup. induction Hf as [|c x [Hc _] Hx IH]; [done|].
  cbn [List.filter]. unfold is_tab in Hc. apply orb_false_iff in Hc as [-> _]. cbn [negb]. by rewrite IH.
Qed.

(** Without servers, adding is putting in front. *)
Lemma adduser_bare n w :
  listable n -> serv_list w = [] ->
  exists w', notify_adduser (n_name n) (n_account n) (n_networks n) w = Some w' /\ notify_list w' = bare n :: notify_list w /\ serv_list w' = [].
Proof.
  intros Hl Hs. unfold notify_adduser, notify_checklist. cbn [put_list serv_list]. rewrite Hs.
  cbn [checklist_servers mbind option_bind]. eexists. split; [done|].
  set (nn := Notify _ _ _ []). assert (En : nn = bare n).
  { destruct Hl as [_ Hn Ha Ht _]. unfold nn, bare, with_servers. clear nn. destruct n as [nm ac nt sl]. cbn [n_name n_account n_networks] in *. f_equal.
    - destruct nm as [[|c x]|]; [by destruct (Hn [] eq_refl) as [[? _] _]| |done]. destruct (Hn _ eq_refl) as (_ & Hlen & _).
      cbn [fmap option_fmap option_map]. f_equal. apply take_ge. unfold notify_NICKLEN. lia.
    - destruct ac as [[|c x]|]; [by destruct (Ha [] eq_refl)|done|done].
    - destruct nt as [net|]; [|done]. cbn [fmap option_fmap option_map]. f_equal. by apply despacify_word, Ht. }
  rewrite <- En. clearbody nn. rewrite watch_all_none by done. done.
Qed.

Lemma load_one_adds n w :
  listable n -> serv_list w = [] ->
  exists w', load_one (conf_text n) w = Some w' /\ notify_list w' = bare n :: notify_list w /\ serv_list w' = [].
Proof.
  intros Hl Hs. unfold load_one. rewrite c_string_id by (apply text_not; [done|by right; right]).
  assert (Hhd : exists c r, conf_text n = c :: r /\ c <> "#"%char).
  { unfold conf_text. destruct (n_name n) as [x|] eqn:En; cbn [default from_option].
    - destruct (li_name _ Hl x En) as ([Hne _] & _ & Hh & _). destruct x as [|c x]; [done|]. by eexists _, _.
    - destruct (n_account n) as [a|] eqn:Ea; [|exfalso; destruct (li_some _ Hl) as [Hx|Hx]; congruence]. by eexists _, _. }
  destruct Hhd as (c & r & E & Hc). rewrite E. destruct (Ascii.eqb_spec c "#"); [done|]. rewrite <- E.
  unfold notify_load_line. rewrite parse_text by done.
  destruct (n_name n) as [[|c1 x]|] eqn:En.
  - by destruct (li_name _ Hl [] En) as [[? _] _].
  - rewrite <- En. by apply adduser_bare.
  - destruct (n_account n) as [[|c1 a]|] eqn:Ea.
    + by destruct (li_account _ Hl [] Ea).
    + rewrite <- En, <- Ea. by apply adduser_bare.
    + exfalso. destruct (li_some _ Hl) as [?|?]; congruence.
Qed.

Lemma conf_lines_line t s buf :
  LF ∉ t -> (length buf + length t <= 255)%nat -> conf_lines buf false (t ++ LF :: s) = (buf ++ t) :: conf_lines [] false s.
Proof.
  revert buf. induction t as [|c t IH]; intros buf Ht Hlen; cbn [app conf_lines].
  - rewrite Ascii.eqb_refl. by rewrite app_nil_r.
  - apply not_elem_of_cons in Ht as [Hc Ht]. cbn [length] in Hlen. destruct (Ascii.eqb_spec c LF) as [|_]; [congruence|].
    replace (Nat.leb 256 (S (length buf))) with false by (symmetry; apply Nat.leb_gt; lia).
    rewrite IH; [by rewrite <- app_assoc|done|rewrite length_app; cbn [length]; lia].
Qed.

Lemma load_saved l w :
  Forall listable l -> serv_list w = [] ->
  exists w', load_lines (conf_lines [] false (concat (map save_line l))) w = Some w' /\ notify_list w' = rev (map bare l) ++ notify_list w /\ serv_list w' = [].
Proof.
  intros Hl. revert w. induction Hl as [|n l Hn Hl IH]; intros w Hs; cbn [map concat rev].
  - by exists w.
  - rewrite save_line_text, <- app_assoc. cbn [app]. rewrite conf_lines_line.
    + cbn [app load_lines]. destruct (load_one_adds n w Hn Hs) as (w1 & E1 & N1 & S1). rewrite E1. cbn [mbind option_bind].
      destruct (IH w1 S1) as (w2 & E2 & N2 & S2). exists w2. rewrite E2, N2, N1, <- app_assoc. done.
    + apply text_not; [done|by left].
    + pose proof (li_length _ Hn) as Hlen. rewrite save_line_text, length_app in Hlen. cbn [length] in *. lia.
Qed.

(** The friend list written to its file and read at the next start is the
    list again, in its order, with the names, accounts and networks, and without
    what the servers had said. *)
Theorem notify_file_roundtrip w w0 :
  Forall listable (notify_list w) -> notify_list w0 = [] -> serv_list w0 = [] ->
  exists w', notify_load (notify_save w) w0 = Some w' /\ notify_list w' = map bare (notify_list w).
Proof.
  intros Hl H0 Hs. unfold notify_load, notify_save. destruct (load_saved (rev (notify_list w)) w0) as (w' & E & N & _); [|done|].
  - by apply Forall_rev.
  - exists w'. split; [done|]. by rewrite N, H0, app_nil_r, <- map_rev, rev_involutive.
Qed.

(** * Witnesses and cases *)

Definition txt (x : cstr) : option cstr := Some x.
Definition hub : nserver := NServer 1 (txt "Libera") None "irc.libera.chat" true true false true rfc_casecmp.
Definition mate (name account networks : option cstr) : notify := Notify name account networks [].
Definition alice : notify := mate (txt "alice") (txt "al") (txt "Libera,OFTC").
Definition bob : notify := mate (txt "bob") None None.
Definition carol : notify := mate None (txt "caro") (txt "OFTC").
Definition friends (l : list notify) (servs : list nserver) : nworld := NWorld l servs [(1%nat, Some [txt "al"; None])] false [].
Definition strs (l : list string) : list cstr := map list_ascii_of_string l.

Definition evening : list notify_call :=
  [OnlineList 10 hub "Alice!a@host,bob!b@host"; OfflineList 20 hub "bob" false; MarkOnline 30 hub (strs ["BOB"; "dave"]%string);
   AccountCleared 40 hub (txt "al"); Outside [hub] []; AccountObserved 50 hub (txt "alice_") (txt "al")].

Lemma notify_presence_witness :
  exists n, notify_list (foldl (fun w c => notify_exec c w) (friends [bob; alice; carol] [hub]) evening) !! 1%nat = Some n /\ ison_of 1 n = true.
Proof.
  assert (Hp : forall x, plainb x = true -> plain x) by (intros x; apply plainb_spec).
  refine (notify_presence 1 1 (map statics [bob; alice; carol]) "alice" (txt "al") (txt "Libera,OFTC") hub evening
            (friends [bob; alice; carol] [hub]) alice _ _ eq_refl eq_refl).
  - split; [reflexivity|reflexivity|apply rfc_casecmp_order| | |reflexivity].
    + intros [|[|[|j] ] ] x; cbn; intros [= <-]; cbn; [by apply Hp|by apply Hp|done].
    + intros [|[|[|j] ] ] m' a n Hj; cbn; intros [= <- _ _]; [by vm_compute|done].
  - repeat (constructor; [split; [intros s; cbn; congruence|split; [repeat (constructor; [by apply Hp|]); constructor|by vm_compute; lia] ]|]). constructor.
Defined.

(** [n] friends with names of [len] letters. *)
Definition crowd (len n : nat) : list notify := map (fun k => mate (Some (replicate len (ascii_of_nat (97 + k)))) None None) (seq 0 n).

Lemma notify_watches_complete_witness :
  exists batches, concat batches = watched_names hub (crowd 40 15) /\
    Forall (fun b => b <> [] /\ (length (watch_line true b ++ EOL) <= 512)%nat) batches.
Proof.
  destruct (notify_watches_complete hub (friends (crowd 40 15) [hub])) as (batches & _ & C & B).
  - repeat (constructor; [apply Nat.leb_le; by vm_compute|]). constructor.
  - exists batches. exact (conj C B).
Defined.

Definition wordb (x : cstr) : bool :=
  match x with [] => false | _ => forallb (fun c => negb (is_tab c || (c =c LF) || (c =c CR) || (c =c NUL))) x end.

Lemma wordb_spec x : wordb x = true -> fileword x.
Proof.
  intros Hx. split; [by intros ->|]. assert (Hf : forallb (fun c => negb (is_tab c || (c =c LF) || (c =c CR) || (c =c NUL))) x = true) by by destruct x.
  rewrite forallb_forall in Hf. apply List.Forall_forall. intros c Hc. specialize (Hf c Hc). rewrite !negb_orb, !andb_true_iff, !negb_true_iff in Hf.
  destruct Hf as [ [ [Ht H1] H2] H3]. by split_and!; [|apply Ascii.eqb_neq..].
Qed.

Lemma notify_file_roundtrip_witness :
  exists w', notify_load (notify_save (friends [bob; alice; carol] [hub])) (friends [] []) = Some w' /\
    notify_list w' = [bob; alice; carol].
Proof.
  apply (notify_file_roundtrip (friends [bob; alice; carol] [hub]) (friends [] [])); [|reflexivity|reflexivity].
  assert (Hl : Forall listable [bob; alice; carol]).
  { apply List.Forall_forall. intros n Hn. cbn in Hn.
    destruct Hn as [<- | [<- | [<- | [] ] ] ];
      (split; [cbn; by (by left) || by right|intros x [= <-]|intros x [= <-]|intros x [= <-]|apply Nat.leb_le; by vm_compute]);
      repeat match goal with |- _ /\ _ => split | |- _ -> _ => intros _ end; try (by apply wordb_spec); try (apply Nat.leb_le; by vm_compute); try done. }
  exact Hl.
Defined.

(** A server that knows neither WATCH nor MONITOR. *)
Definition old_hub : nserver := NServer 1 (txt "Libera") None "irc.libera.chat" true true false false rfc_casecmp.

(** The room left for a name is looked at after it was written: eight names of
    63 bytes, which the list takes, write past outbuf[512]. *)
Theorem ison_buffer_overflow :
  Forall (fun n => (length (default [] (n_name n)) <= notify_NICKLEN - 1)%nat) (crowd 63 8) /\
  notify_checklist (friends (crowd 63 8) [old_hub]) = None.
Proof. split; [|by vm_compute]. repeat (constructor; [apply Nat.leb_le; by vm_compute|]). constructor. Qed.

(** The line of MONITOR begins with a comma: its first target is empty. *)
Theorem monitor_line_empty_target :
  ntrace (notify_send_watches hub (friends [alice; bob] [hub])) = [Raw 1 [SendLen ("MONITOR + ,alice,bob" ++ EOL)] ].
Proof. by vm_compute. Qed.

(** Only 24 words of an ISON reply are read: the friend in the 25th is announced
    to have left, although the server lists him. *)
Theorem ison_reply_cut :
  let names := watched_names old_hub (crowd 5 25) in
  let w := notify_set_online 10 old_hub (List.last names []) (friends (crowd 5 25) [old_hub]) in
  let w' := notify_markonline 20 old_hub names w in
  List.In (List.last names []) names /\
  ison_of 1 (List.last (notify_list w) bob) = true /\ ison_of 1 (List.last (notify_list w') bob) = false.
Proof. cbn zeta. split; [|by vm_compute]. vm_compute. tauto. Qed.

(** Two entries for a nick are kept apart by their networks, but removing the
    one takes the nick from the server that the other still watches it on. *)
Theorem deluser_unwatches_other_entry :
  let bob2 := mate (txt "Bob") None (txt "OFTC,Libera") in
  let '(w, ok) := notify_deluser "bob" (friends [bob2; bob] [hub]) in
  ok = true /\ watched_names hub (notify_list w) = [("bob" : cstr)] /\
  last (List.filter (fun e => match e with Raw _ _ => true | _ => false end) (ntrace w)) = Some (Raw 1 [SendLen ("MONITOR - Bob" ++ EOL)]).
Proof. by vm_compute. Qed.
