(* ===== verification/UserlistNicks.v ===== *)
(** * Who is on a user list (src/common/userlist.c)

    What each call does to the set of nicks, apart from the order, the counters
    and the flags that [UserlistSpec] is about. *)
From S2P Require Import Prelude Glib Casemap Text Tree Access Userlist UserlistSpec.

Definition hn (s : session) : gmap positive cstr := nick <$> heap s.

(** Nothing that says who is there is changed. *)
Record alike (s s' : session) : Prop := {
  al_nicks : hn s' = hn s;
  al_end : end_of_names s' = end_of_names s }.

#[export] Instance alike_preorder : PreOrder alike.
Proof. split; [by split|]. intros a b c [? ?] [? ?]. split; congruence. Qed.

Lemma alike_emit e s : alike s (emit e s). Proof. done. Qed.
Lemma alike_counts o h v t s : alike s (set_counts o h v t s). Proof. done. Qed.
Lemma alike_tree t s : alike s (set_usertree t s). Proof. done. Qed.
Lemma alike_me m s : alike s (set_me m s). Proof. done. Qed.

Lemma alike_modify u f s s' : (forall x, nick (f x) = nick x) -> modify u f s = Some s' -> alike s s'.
Proof.
  intros Hf Hm. unfold modify in Hm. destruct (heap s !! u) as [x|] eqn:Hx; [|done]. cbn [mbind option_bind] in Hm. injection Hm as <-.
  split; [|done]. unfold hn. cbn. rewrite fmap_insert, Hf. apply insert_id. by rewrite lookup_fmap, Hx.
Qed.

Create HintDb alike.
#[export] Hint Resolve alike_emit alike_counts alike_tree alike_me : alike.

(** Follows the binds of a call that returned. *)
Ltac returned :=
  repeat (cbn [mbind option_bind] in *;
  match goal with
  | H : Some _ = Some _ |- _ => injection H as H; subst
  | H : None = Some _ |- _ => discriminate H
  | H : (_, _) = (_, _) |- _ => injection H as H; subst
  | H : _ ≫= _ = Some _ |- _ => let s := fresh "s" in let E := fresh "E" in apply bind_Some in H as (s & E & H)
  | H : (let '(_, _) := ?x in _) = Some _ |- _ => destruct x
  | H : modify _ ?f ?s = Some ?s' |- _ => apply (alike_modify _ f s s' ltac:(done)) in H
  | H : (match ?x with _ => _ end) = Some _ |- _ => destruct x eqn:?
  end).

Ltac alike_chain := first [reflexivity | eassumption | etrans; [eassumption|]; alike_chain | etrans; [|apply alike_emit]; alike_chain
  | etrans; [|apply alike_counts]; alike_chain | etrans; [|apply alike_tree]; alike_chain].

Lemma alike_set_away serv s name a s' : userlist_set_away serv s name a = Some s' -> alike s s'.
Proof. intros E. unfold userlist_set_away in E. returned; repeat case_match; subst; alike_chain. Qed.

Lemma alike_set_account serv s name a s' : userlist_set_account serv s name a = Some s' -> alike s s'.
Proof. intros E. unfold userlist_set_account in E. returned; repeat case_match; subst; alike_chain. Qed.

Lemma alike_add_hostname serv sh s name h r sv a aw s' b :
  userlist_add_hostname serv sh s name h r sv a aw = Some (s', b) -> alike s s'.
Proof. intros E. unfold userlist_add_hostname in E. returned; repeat case_match; subst; alike_chain. Qed.

Lemma alike_insertname serv u s s' row : userlist_insertname serv u s = Some (s', row) -> alike s s'.
Proof. intros E. unfold userlist_insertname in E. returned; alike_chain. Qed.

Lemma alike_tree_remove serv u s s' : tree_remove_user serv u s = Some s' -> alike s s'.
Proof. intros E. unfold tree_remove_user in E. returned; alike_chain. Qed.

Lemma alike_update_counts u c level offset s s' : update_counts u c level offset s = Some s' -> alike s s'.
Proof. intros E. unfold update_counts in E. returned; alike_chain. Qed.

Lemma alike_count_prefixes u pre s s' : count_prefixes u pre s = Some s' -> alike s s'.
Proof.
  revert s. induction pre as [|c pre IH]; intros s E; cbn [count_prefixes] in E; returned; [reflexivity|].
  etrans; [by eapply alike_update_counts|by apply IH].
Qed.

Lemma alike_update_mode serv s name mode sign s' : userlist_update_mode serv s name mode sign = Some s' -> alike s s'.
Proof.
  intros E. unfold userlist_update_mode in E. returned; try reflexivity.
  all: repeat match goal with
       | H : tree_remove_user _ _ _ = Some _ |- _ => apply alike_tree_remove in H
       | H : update_counts _ _ _ _ _ = Some _ |- _ => apply alike_update_counts in H
       | H : userlist_insertname _ _ _ = Some _ |- _ => apply alike_insertname in H
       end.
  all: repeat match goal with H : alike (emit ?e ?s) _ |- _ => apply (transitivity (alike_emit e s)) in H end.
  all: do 2 (etrans; [|apply alike_emit]); repeat (etrans; [eassumption|]); reflexivity.
Qed.

(** ** Coming and going *)

Definition listed (s : session) (n : cstr) : Prop := exists u, hn s !! u = Some n.

Lemma hn_lookup s u n : hn s !! u = Some n <-> exists x, heap s !! u = Some x /\ nick x = n.
Proof. unfold hn. rewrite lookup_fmap_Some. naive_solver. Qed.

Lemma listed_alike s s' n : alike s s' -> (listed s' n <-> listed s n).
Proof. intros [E _]. unfold listed. by rewrite E. Qed.

Lemma remove_user_nicks serv u s s' : userlist_remove_user serv u s = Some s' -> hn s' = delete u (hn s) /\ end_of_names s' = end_of_names s.
Proof.
  intros E. unfold userlist_remove_user in E. returned.
  match goal with H : tree_remove_user _ _ _ = Some _ |- _ => apply alike_tree_remove in H as [A1 A2] end.
  unfold hn in *. cbn [heap set_heap end_of_names] in *. rewrite fmap_delete, A1, A2. destruct (bool_decide _); done.
Qed.

Section effects.
Context `{GL : GLibLaws} (serv : server) (Hserv : server_ok serv).

Lemma listed_find s l name :
  wf serv s l -> plain name ->
  exists r, userlist_find serv s name = Some r /\
    match r with
    | Some u => exists n, hn s !! u = Some n /\ p_cmp serv name n = 0 /\
        forall v m, hn s !! v = Some m -> p_cmp serv name m = 0 -> v = u
    | None => forall n, listed s n -> p_cmp serv name n <> 0
    end.
Proof.
  intros W Hn. destruct (find_result serv Hserv s l name W Hn) as (r & E & Hr). exists r. split; [done|]. destruct r as [u|].
  - destruct Hr as (x & Hu & Hx & Hc). exists (nick x). split_and!; [apply hn_lookup; eauto|done|].
    intros v m (y & Hy & <-)%hn_lookup Hc'. by apply (found_unique serv Hserv s l name v u y x).
  - intros n (u & (x & Hx & <-)%hn_lookup). by apply (Hr u).
Qed.

(** The one at an address goes. *)
Lemma listed_delete s s' name u n0 :
  hn s' = delete u (hn s) -> hn s !! u = Some n0 -> p_cmp serv name n0 = 0 ->
  (forall v m, hn s !! v = Some m -> p_cmp serv name m = 0 -> v = u) ->
  forall n, listed s' n <-> listed s n /\ p_cmp serv name n <> 0.
Proof.
  intros E Hu Hc Hone n. unfold listed. rewrite E. split.
  - intros (v & [Hne Hv]%lookup_delete_Some). split; [by exists v|]. intros Hn. by destruct (Hone v n Hv Hn).
  - intros [(v & Hv) Hn]. exists v. apply lookup_delete_Some. split; [|done]. intros ->. congruence.
Qed.

Lemma remove_listed s l name :
  wf serv s l -> plain name ->
  exists s' b l', userlist_remove serv s name = Some (s', b) /\ wf serv s' l' /\ end_of_names s' = end_of_names s /\
    forall n, listed s' n <-> listed s n /\ p_cmp serv name n <> 0.
Proof.
  intros W Hn. destruct (userlist_remove_wf serv Hserv s l name W Hn) as (s' & b & l' & E & W' & Hh). exists s', b, l'.
  split_and!; [done|done| |].
  - unfold userlist_remove in E. returned; [|done]. by match goal with H : userlist_remove_user _ _ _ = Some _ |- _ => apply remove_user_nicks in H as [_ ?] end.
  - intros n. unfold listed. setoid_rewrite hn_lookup. split.
    + intros (u & x & [Hx Hc]%Hh & <-). split; [by exists u, x|done].
    + intros [(u & x & Hx & <-) Hc]. exists u, x. split; [by apply Hh|done].
Qed.

Lemma quit_listed s l name u :
  wf serv s l -> plain name -> userlist_find serv s name = Some (Some u) ->
  exists s' l', userlist_remove_user serv u s = Some s' /\ wf serv s' l' /\ end_of_names s' = end_of_names s /\
    forall n, listed s' n <-> listed s n /\ p_cmp serv name n <> 0.
Proof.
  intros W Hn Hf. destruct (listed_find s l name W Hn) as (r & E & Hr). rewrite Hf in E. injection E as <-.
  destruct Hr as (n0 & Hu & Hc & Hone). apply hn_lookup in Hu as (x & Hx & <-).
  destruct (userlist_remove_user_wf serv Hserv s l u x W Hx) as (s' & l' & E & W' & _). exists s', l'.
  destruct (remove_user_nicks _ _ _ _ E) as [E1 E2]. split_and!; [done..|].
  apply (listed_delete s s' name u (nick x)); [done|apply hn_lookup; eauto|done|done].
Qed.

Lemma modify_nick u n s s' :
  modify u (set_nick n) s = Some s' -> hn s' = <[u := n]> (hn s) /\ is_Some (hn s !! u) /\ end_of_names s' = end_of_names s.
Proof.
  intros E. unfold modify in E. destruct (heap s !! u) as [x|] eqn:Hx; [|done]. cbn [mbind option_bind] in E. injection E as <-.
  unfold hn. cbn. rewrite fmap_insert, lookup_fmap, Hx. split_and!; [done|by eexists|done].
Qed.

Lemma change_nicks s old new s' b :
  userlist_change serv s old new = Some (s', b) ->
  end_of_names s' = end_of_names s /\
  match userlist_find serv s old with
  | Some (Some u) => b = true /\ exists m, safe_strcpy new NICKLEN = Some m /\ hn s' = <[u := m]> (hn s)
  | _ => b = false /\ s' = s
  end.
Proof.
  intros E. unfold userlist_change in E. returned.
  - match goal with H : userlist_find _ _ _ = _ |- _ => rewrite H end.
    match goal with H : tree_remove_user _ _ _ = Some _ |- _ => apply alike_tree_remove in H as [A1 A2] end.
    match goal with H : modify _ _ _ = Some _ |- _ => apply modify_nick in H as (M1 & _ & M3) end.
    match goal with H : userlist_insertname _ _ _ = Some _ |- _ => apply alike_insertname in H as [B1 B2] end.
    change (hn (emit ?e ?s)) with (hn s) in *. change (end_of_names (emit ?e ?s)) with (end_of_names s) in *.
    split; [congruence|]. split; [done|]. eexists. split; [done|]. congruence.
  - match goal with H : userlist_find _ _ _ = _ |- _ => rewrite H end. done.
Qed.

Lemma change_listed s l old new :
  wf serv s l -> plain old -> plain new ->
  (forall n, listed s n -> p_cmp serv old n <> 0 -> p_cmp serv (take 63 new) n <> 0) ->
  exists s' b l', userlist_change serv s old new = Some (s', b) /\ wf serv s' l' /\ end_of_names s' = end_of_names s /\
    forall n, listed s' n <-> (listed s n /\ p_cmp serv old n <> 0) \/ (n = take 63 new /\ exists m, listed s m /\ p_cmp serv old m = 0).
Proof.
  intros W Ho Hn Hfree.
  destruct (userlist_change_wf serv Hserv s l old new W Ho Hn) as (s' & b & l' & E & W' & _).
  { intros u x Hx. apply Hfree. exists u. apply hn_lookup. by exists x. }
  exists s', b, l'. destruct (change_nicks _ _ _ _ _ E) as [E1 E2]. split_and!; [done..|].
  destruct (listed_find s l old W Ho) as (r & Hr & Hf). rewrite Hr in E2. destruct r as [u|].
  - destruct E2 as (_ & m & Hm & Hh). rewrite (safe_strcpy_plain _ GL) in Hm by done. injection Hm as <-.
    destruct Hf as (n0 & Hu & Hc & Hone). intros n. unfold listed. rewrite Hh. split.
    + intros (v & [[<- <-]|[Hne Hv] ]%lookup_insert_Some); [right; split; [done|]; by exists n0; split; [by exists u|]|].
      left. split; [by exists v|]. intros Hcn. by destruct (Hone v n Hv Hcn).
    + intros [[(v & Hv) Hcn]|[-> _] ]; [|exists u; by rewrite lookup_insert_eq].
      exists v. rewrite lookup_insert_ne; [done|]. intros ->. congruence.
  - destruct E2 as [_ ->]. intros n. split.
    + intros Hl. left. split; [done|by apply Hf].
    + intros [[? _]|(_ & m & Hl & Hc)]; [done|]. by destruct (Hf m Hl).
Qed.

Lemma add_nicks s name h a r s' :
  userlist_add serv s name h a r = Some s' ->
  end_of_names s' = end_of_names s /\
  (hn s' = hn s \/ exists u m acc k, nick_access (isup serv) name = Some (acc, k) /\ hn s !! u = None /\
     safe_strcpy (drop (Z.to_nat k) name) NICKLEN = Some m /\ hn s' = <[u := m]> (hn s)).
Proof.
  intros E. unfold userlist_add in E. destruct (nick_access (isup serv) name) as [[acc k]|]; [|done]. cbn [mbind option_bind] in E.
  set (u := fresh (dom (heap (emit _ s)))) in E.
  assert (Hu : heap s !! u = None) by (apply not_elem_of_dom, is_fresh).
  assert (Hhu : hn s !! u = None) by (unfold hn; by rewrite lookup_fmap, Hu).
  apply bind_Some in E as (m & Em & E). apply bind_Some in E as ([s1 row] & Ei & E). apply alike_insertname in Ei as [A1 A2].
  cbn [hn heap set_heap emit end_of_names] in A1, A2. unfold hn in A1 at 2. cbn [heap set_heap] in A1. rewrite fmap_insert in A1. cbn [nick] in A1.
  change (nick <$> heap (emit _ s)) with (hn s) in A1. destruct (row =? -1).
  - injection E as <-. split; [done|]. left. unfold hn in *. cbn [heap set_heap]. rewrite fmap_delete, A1. apply delete_insert_id. by rewrite lookup_fmap, Hu.
  - apply bind_Some in E as (s2 & Ec & E). apply alike_count_prefixes in Ec as [C1 C2].
    change (hn (set_counts _ _ _ _ s1)) with (hn s1) in C1. change (end_of_names (set_counts _ _ _ _ s1)) with (end_of_names s1) in C2.
    injection E as <-. split.
    + cbn [end_of_names set_heap emit] in A2. repeat case_match; cbn [end_of_names emit set_me] in *; congruence.
    + right. exists u, m, acc, k. split_and!; [done|done|exact Em|]. unfold hn in *. rewrite <- A1, <- C1. by repeat case_match.
Qed.

(** Somebody new is listed; a name that is there already changes nothing. *)
Lemma add_listed s l pre rest h a r :
  wf serv s l -> NoDup pre -> Forall (fun c => c ∈ nick_prefixes (isup serv)) pre ->
  (forall c, head rest = Some c -> c ∉ nick_prefixes (isup serv)) -> plain rest ->
  exists s' l', userlist_add serv s (pre ++ rest) h a r = Some s' /\ wf serv s' l' /\ end_of_names s' = end_of_names s /\
    ((exists m, listed s m /\ p_cmp serv (take 63 rest) m = 0) /\ (forall n, listed s' n <-> listed s n) \/
     (forall m, listed s m -> p_cmp serv (take 63 rest) m <> 0) /\ (forall n, listed s' n <-> listed s n \/ n = take 63 rest)).
Proof.
  intros W Hd Hpre Hrest Hplain. pose proof (plain_take 63 rest Hplain) as Hp63.
  destruct (userlist_add_wf serv Hserv s l pre rest h a r W Hd Hpre Hrest Hplain) as (s' & l' & E & W' & (u0 & x0 & Hx0 & Hc0)).
  exists s', l'. destruct (add_nicks _ _ _ _ _ _ E) as [E1 E2]. split_and!; [done..|].
  assert (E2' : hn s' = hn s \/ exists u m, hn s !! u = None /\ safe_strcpy rest NICKLEN = Some m /\ hn s' = <[u := m]> (hn s)).
  { destruct E2 as [E2|(u & m & acc & k & Ek & Hu & Hm & E2)]; [by left|]. right. exists u, m. split; [done|].
    unfold nick_access in Ek.
    destruct (nick_access_loop_spec (isup serv) pre rest 0 0 (so_good _ Hserv) (so_width _ Hserv) Hpre Hrest) as (bits & Eb & _).
    rewrite Eb in Ek. injection Ek as <- <-. by rewrite Z.add_0_l, Nat2Z.id, drop_app_length in Hm. }
  clear E2. rename E2' into E2. assert (Hx0' : hn s' !! u0 = Some (nick x0)) by (apply hn_lookup; eauto).
  destruct (listed_find s l (take 63 rest) W Hp63) as (f & _ & Hf). destruct f as [v|].
  - destruct Hf as (n0 & Hv & Hcv & _). left. split; [exists n0; split; [by exists v|done]|]. destruct E2 as [E2|(u & m & Hu & Hm & E2)].
    + intros n. unfold listed. by rewrite E2.
    + rewrite (safe_strcpy_plain _ GL) in Hm by done. injection Hm as <-. exfalso.
      assert (Huv : u = v); [|congruence].
      assert (Hu' : hn s' !! u = Some (take 63 rest)) by (rewrite E2; by rewrite lookup_insert_eq).
      assert (Hv' : hn s' !! v = Some n0) by (rewrite E2, lookup_insert_ne; [done|intros ->; congruence]).
      apply hn_lookup in Hu' as (x & Hx & Ex), Hv' as (y & Hy & Ey). pose proof (so_cmp _ Hserv) as Hcmp.
      apply (found_unique serv Hserv s' l' (take 63 rest) u v x y W' Hp63 Hx Hy); [|congruence].
      rewrite Ex. by apply (cmp_refl plain (p_cmp serv)).
  - right. split; [done|]. destruct E2 as [E2|(u & m & Hu & Hm & E2)].
    + exfalso. apply (Hf (nick x0)); [|done]. exists u0. by rewrite <- E2.
    + rewrite (safe_strcpy_plain _ GL) in Hm by done. injection Hm as <-. intros n. unfold listed. rewrite E2. split.
      * intros (w & [[<- <-]|[_ Hw] ]%lookup_insert_Some); [by right|left; by exists w].
      * intros [(w & Hw)| ->]; [|exists u; by rewrite lookup_insert_eq].
        exists w. rewrite lookup_insert_ne; [done|]. intros ->. congruence.
Qed.

Lemma clear_end s s' : userlist_clear s = Some s' -> end_of_names s' = end_of_names s.
Proof. intros E. unfold userlist_clear, userlist_free in E. by returned. Qed.

Lemma clear_listed s l :
  wf serv s l -> exists s', userlist_clear s = Some s' /\ wf serv s' [] /\ end_of_names s' = end_of_names s /\ forall n, ~ listed s' n.
Proof.
  intros W. destruct (userlist_clear_wf serv s l W) as (s' & E & W' & Hh). exists s'. split_and!; [done|done|by eapply clear_end|].
  intros n (u & Hu). unfold hn in Hu. by rewrite Hh, fmap_empty, lookup_empty in Hu.
Qed.

(** The invariant does not look at our own nick. *)
Lemma wf_server serv' s l : isup serv' = isup serv -> p_cmp serv' = p_cmp serv -> wf serv s l -> wf serv' s l.
Proof.
  intros Ei Ec [W1 W2 W3 W4 W5 W6 W7 W8 W9 W10]. split; try done.
  - unfold nick_cmp_alpha. by rewrite Ec.
  - unfold flags_agree, status_bit. by rewrite Ei.
Qed.

(** The nicks in the order of the list. *)
Lemma listed_names s l n : wf serv s l -> (listed s n <-> n ∈ map (user_nick s) l).
Proof.
  intros W. unfold listed. rewrite list_elem_of_fmap. unfold user_nick. setoid_rewrite hn_lookup. split.
  - intros (u & x & Hx & <-). exists u. rewrite Hx. split; [done|]. apply (wf_heap _ _ _ W). by eexists.
  - intros (u & -> & [x Hx]%(wf_heap _ _ _ W)). exists u, x. rewrite Hx. by split.
Qed.

Lemma names_NoDup s l : wf serv s l -> NoDup (map (user_nick s) l).
Proof.
  intros W. pose proof (wf_ordered _ _ _ W) as Ho. rewrite ordered_map in Ho by apply (so_cmp _ Hserv). unfold ordered in Ho.
  assert (Hp : Forall plain (map (user_nick s) l)).
  { apply Forall_forall. intros n (u & (x & Hx & <-)%hn_lookup)%(listed_names s l n W). by eapply wf_plain. }
  revert Ho Hp. generalize (map (user_nick s) l). intros ns. induction 1 as [|n ns Ho IH Hlt]; intros Hp; [constructor|].
  apply Forall_cons in Hp as [Hn Hp]. constructor; [|by apply IH]. intros Hin. rewrite Forall_forall in Hlt.
  specialize (Hlt n Hin). pose proof (so_cmp _ Hserv) as Hcmp. cbn in Hlt. rewrite (cmp_refl plain (p_cmp serv)) in Hlt by done. lia.
Qed.

Lemma names_are s l ns : wf serv s l -> NoDup ns -> (forall n, listed s n <-> n ∈ ns) -> map (user_nick s) l ≡ₚ ns.
Proof.
  intros W Hd Hns. apply NoDup_Permutation; [by apply names_NoDup|done|]. intros n. by rewrite <- Hns, <- listed_names.
Qed.
End effects.
