(* ===== verification/Channels.v ===== *)
(** * Channel membership (src/common/inbound.c, proto-irc.c)

    The handlers of JOIN, PART, KICK, QUIT, NICK, NAMES, TOPIC, AWAY, ACCOUNT,
    CHGHOST, WHO and their numerics, over the windows of one server: the history
    side of a window is the session of [Chathistory], its user list the session
    of [Userlist], its modes those of [Modes]; [hub] is the server with its open
    batches.  Text events, frontend calls, the friend list and the log are a
    trace.  [None] is undefined behaviour. *)
From S2P Require Import Prelude Glib Text Access Userlist Modes Server Words Tags Proto Scrollback GapLedger Chathistory Catchup Batches.

(** ** State *)

(** What a window has besides its history: [users] is the user list. *)
Record room := Room {
  waitchannel : cstr; channelkey : cstr; chan_limit : Z; current_modes : option cstr; topic : option cstr;
  ignore_date : bool; ignore_mode : bool; doing_who : bool; done_away_check : bool; users : Userlist.session }.

Inductive te :=
| XP_TE_UJOIN | XP_TE_JOIN | XP_TE_RECONNECT | XP_TE_UKICK | XP_TE_KICK | XP_TE_UPART | XP_TE_UPARTREASON
| XP_TE_PART | XP_TE_PARTREASON | XP_TE_QUIT | XP_TE_UCHANGENICK | XP_TE_CHANGENICK | XP_TE_USERSONCHAN
| XP_TE_TOPIC | XP_TE_NEWTOPIC | XP_TE_WHOIS5 | XP_TE_NOTIFYAWAY | XP_TE_NOTIFYBACK | XP_TE_SERVTEXT | XP_TE_DISCON.

Inductive fe :=
| FeSetChannel | FeSetTitle | FeSetNonchannel (on : bool) | FeClearChannel | FeTextClear
| FeSetTopic (topic stripped : cstr) | FeUserlistNumbers | FeSetJoinBanner (msgid : option cstr)
| FeNewWindow (focus : bool) | ClearTyping | LogOpenOrClose | LogClose | ChanoptLoad
| RecordJoin (nick chan host : cstr) (stamp : Z) (msgid : option cstr).

Inductive client_event :=
| EmitText (sid : nat) (e : te) (args : list cstr)
| Fe (sid : nat) (e : fe)
| ModeEvent (sid : nat) (e : mode_event)
| SendOut (out : list output)
| FeSetNick (nick : cstr) | DccChangeNick (old new : cstr)
| AccountObserved (nick : cstr) (account : option cstr) | AccountCleared (account : cstr)
| NickOffline (nick : cstr) (quiet : bool)
| DoDns (nick host : cstr).

(** The rest of the server, and the windows; [friend] is [notify_is_in_list]. *)
Record client := Client {
  base : hub; rooms : gmap nat room; front_session : option nat;
  have_extjoin : bool; have_uhnames : bool; have_account_tag : bool; have_read_marker : bool; have_whox : bool;
  bouncer_inferred : bool; doing_dns : bool; inside_whois : bool; skip_next_whois : bool;
  away_messages : list away_msg; (* server 0 is this one *)
  client_trace : list client_event }.

Record client_prefs := ClientPrefs {
  history_prefs : preferences; irc_auto_rejoin : bool; irc_who_join : bool; irc_raw_modes : bool;
  gui_ulist_show_hosts : bool; away_show_once : bool; irc_whois_front : bool;
  friend : cstr -> option cstr -> bool }.

Definition windows (c : client) : world := hub_world (base c).
Definition own_nick (c : client) : cstr := hub_nick (base c).

Definition set_base (f : hub -> hub) (c : client) : client :=
  Client (f (base c)) (rooms c) (front_session c) (have_extjoin c) (have_uhnames c) (have_account_tag c)
    (have_read_marker c) (have_whox c) (bouncer_inferred c) (doing_dns c) (inside_whois c) (skip_next_whois c)
    (away_messages c) (client_trace c).
Definition set_rooms (f : gmap nat room -> gmap nat room) (c : client) : client :=
  Client (base c) (f (rooms c)) (front_session c) (have_extjoin c) (have_uhnames c) (have_account_tag c)
    (have_read_marker c) (have_whox c) (bouncer_inferred c) (doing_dns c) (inside_whois c) (skip_next_whois c)
    (away_messages c) (client_trace c).
Definition set_server_flags (bouncer dns : bool) (away : list away_msg) (c : client) : client :=
  Client (base c) (rooms c) (front_session c) (have_extjoin c) (have_uhnames c) (have_account_tag c)
    (have_read_marker c) (have_whox c) bouncer dns (inside_whois c) (skip_next_whois c) away (client_trace c).
Definition say (e : client_event) (c : client) : client :=
  Client (base c) (rooms c) (front_session c) (have_extjoin c) (have_uhnames c) (have_account_tag c)
    (have_read_marker c) (have_whox c) (bouncer_inferred c) (doing_dns c) (inside_whois c) (skip_next_whois c)
    (away_messages c) (client_trace c ++ [e]).

Definition text_event (sid : nat) (e : te) (args : list cstr) : client -> client := say (EmitText sid e args).
Definition fe_call (sid : nat) (e : fe) : client -> client := say (Fe sid e).
Definition set_windows (f : world -> world) : client -> client := set_base (fun h => set_world (f (hub_world h)) h).

Definition set_nick (n : cstr) : client -> client :=
  set_base (fun h => Hub (have_batch h) n (server_session h) (active_batches h) (pending_labels h) (ignore_names h) (hub_world h)).
Definition set_ignore_names (f : gset nat -> gset nat) : client -> client :=
  set_base (fun h => Hub (have_batch h) (hub_nick h) (server_session h) (active_batches h) (pending_labels h)
                       (f (ignore_names h)) (hub_world h)).

(** The server as the user list sees it. *)
Definition user_server (c : client) : Userlist.server :=
  Userlist.Server (isup (w_serv (windows c))) (p_cmp (w_serv (windows c))) (own_nick c) (have_extjoin c).

Definition compare (c : client) : cstr -> cstr -> Z := p_cmp (w_serv (windows c)).

(** ** Windows *)

Definition find_channel (chan : cstr) (c : client) : option nat := find_session SESS_CHANNEL chan (windows c).
Definition find_dialog (nick : cstr) (c : client) : option nat := find_session SESS_DIALOG nick (windows c).

Definition on_room (sid : nat) (f : room -> room) : client -> client := set_rooms (alter f sid).

Definition set_users (u : Userlist.session) (r : room) : room :=
  Room (waitchannel r) (channelkey r) (chan_limit r) (current_modes r) (topic r) (ignore_date r) (ignore_mode r)
    (doing_who r) (done_away_check r) u.
Definition set_waitchannel (w : cstr) (r : room) : room :=
  Room w (channelkey r) (chan_limit r) (current_modes r) (topic r) (ignore_date r) (ignore_mode r)
    (doing_who r) (done_away_check r) (users r).
Definition set_room_modes (m : option cstr) (r : room) : room :=
  Room (waitchannel r) (channelkey r) (chan_limit r) m (topic r) (ignore_date r) (ignore_mode r)
    (doing_who r) (done_away_check r) (users r).
Definition set_room_topic (t : option cstr) (r : room) : room :=
  Room (waitchannel r) (channelkey r) (chan_limit r) (current_modes r) t (ignore_date r) (ignore_mode r)
    (doing_who r) (done_away_check r) (users r).
Definition set_ignores (date mode : bool) (r : room) : room :=
  Room (waitchannel r) (channelkey r) (chan_limit r) (current_modes r) (topic r) date mode
    (doing_who r) (done_away_check r) (users r).
Definition set_who (doing done : bool) (r : room) : room :=
  Room (waitchannel r) (channelkey r) (chan_limit r) (current_modes r) (topic r) (ignore_date r) (ignore_mode r)
    doing done (users r).

(** A call of userlist.c for a window; the answer of the call comes along. *)
Definition on_users {A} (sid : nat) (f : Userlist.session -> option (Userlist.session * A)) (c : client) : option (client * A) :=
  r ← rooms c !! sid; '(u, a) ← f (users r); Some (on_room sid (set_users u) c, a).

Definition on_users_ (sid : nat) (f : Userlist.session -> option Userlist.session) (c : client) : option client :=
  r ← rooms c !! sid; u ← f (users r); Some (on_room sid (set_users u) c).

Definition set_end_of_names (b : bool) (s : Userlist.session) : Userlist.session :=
  Userlist.Session (heap s) (usertree s) (me s) (ops s) (hops s) (voices s) (total s) b (trace s).

Definition set_channel (name : cstr) (s : session) : session :=
  Session (s_type s) name (join_msgid s) (s_queue s) (s_catchup s) (s_anchors s) (history_exhausted s)
    (history_insert_sorted_mode s) (background_history_active s) (background_history_timer s) (chunk_state s).
Definition set_join_msgid (m : option cstr) (s : session) : session :=
  Session (s_type s) (channel s) m (s_queue s) (s_catchup s) (s_anchors s) (history_exhausted s)
    (history_insert_sorted_mode s) (background_history_active s) (background_history_timer s) (chunk_state s).

(** A call of the history for a window. *)
Definition on_view (sid : nat) (f : view -> view) (c : client) : option client :=
  w ← on sid f (windows c); Some (set_windows (fun _ => w) c).

Definition ask_view {A} (sid : nat) (f : view -> view * A) (c : client) : option (client * A) :=
  v ← look sid (windows c); Some (set_windows (put (f v).1) c, (f v).2).

Definition users_new : Userlist.session := Userlist.Session ∅ None None 0 0 0 0 false [].
Definition room_new : room := Room [] [] 0 None None false false false false users_new.

(** Every window of the server, in the order of [sess_list]. *)
Fixpoint for_sessions (f : nat -> client -> option client) (sids : list nat) (c : client) : option client :=
  match sids with [] => Some c | sid :: sids => c ← f sid c; for_sessions f sids c end.
Definition each_session (f : nat -> client -> option client) (c : client) : option client :=
  for_sessions f (sess_list (windows c)) c.

Definition lookup_session (sid : nat) (c : client) : option session := w_sessions (windows c) !! sid.

(** A user found in a window, as [userlist_find] returns it. *)
Definition lookup_user (sid : nat) (name : cstr) (c : client) : option (option Userlist.User) :=
  r ← rooms c !! sid;
  u ← userlist_find (user_server c) (users r) name;
  match u with None => Some None | Some u => x ← heap (users r) !! u; Some (Some x) end.

Section channels.
Context `{GLib, Sqlite}.

Definition set_topic (sid : nat) (topic stripped : cstr) (c : client) : client :=
  fe_call sid (FeSetTopic topic stripped) (on_room sid (set_room_topic (Some stripped)) c).

(** The first user of that name on the server. *)
Fixpoint userlist_find_global (name : cstr) (sids : list nat) (c : client) : option (option Userlist.User) :=
  match sids with
  | [] => Some None
  | sid :: sids => u ← lookup_user sid name c; match u with Some x => Some (Some x) | None => userlist_find_global name sids c end
  end.

(** [new_ircwindow] (poxchat.c) for a channel or a dialog. *)
Definition new_ircwindow (p : client_prefs) (t : session_type) (name : cstr) (focus : bool) (c : client) : option (client * nat) :=
  chan ← safe_strcpy name CHANLEN;
  let w := windows c in
  let sid := fresh (dom (w_sessions w)) in
  let v := View sid (w_serv w) (session_new t chan) (w_scrollback w) (w_out w) in
  let v := if text_replay (history_prefs p) then scrollback_load (history_prefs p) v else v in
  let w := put v w in
  let w := World (w_serv w) (w_sessions w) (sid :: sess_list w) (current_sess w) (w_scrollback w) (chunks w) (w_out w) in
  let c := fe_call sid ChanoptLoad (fe_call sid (FeNewWindow focus) (set_rooms <[sid := room_new]> (set_windows (fun _ => w) c))) in
  match t with
  | SESS_DIALOG =>
      let c := fe_call sid LogOpenOrClose c in
      user ← userlist_find_global name (sess_list (windows c)) c;
      Some (match user ≫= hostname with Some h => set_topic sid h h c | None => c end, sid)
  | _ => Some (c, sid)
  end.

Definition find_room (p : session -> room -> bool) (c : client) : option nat :=
  List.find (fun sid => match lookup_session sid c, rooms c !! sid with
                        | Some s, Some r => bool_decide (s_type s = SESS_CHANNEL) && bool_decide (channel s = []) && p s r
                        | _, _ => false
                        end) (sess_list (windows c)).

Definition find_unused_session : client -> option nat := find_room (fun _ r => bool_decide (waitchannel r = [])).

Definition find_session_from_waitchannel (chan : cstr) (c : client) : option nat :=
  find_room (fun _ r => compare c chan (waitchannel r) =? 0) c.

(** The channel is left: the name is kept to wait for it. *)
Definition clear_channel (sid : nat) (c : client) : option client :=
  s ← lookup_session sid c;
  let c := match channel s with [] => c | name => on_room sid (set_waitchannel name) c end in
  let c := fe_call sid LogClose (on_room sid (fun r => set_room_modes None (set_who false false r)) c) in
  c ← on_view sid (set_sess Catchup.clear_channel) c;
  let c := fe_call sid FeClearChannel (fe_call sid ClearTyping c) in
  c ← on_users_ sid userlist_clear c;
  Some (fe_call sid FeSetTitle (fe_call sid (FeSetNonchannel false) c)).

(** ** Ourselves *)

(** The window a JOIN of ours is for: open, waiting, unused (the flag), or new. *)
Definition join_window (p : client_prefs) (chan : cstr) (c : client) : option (client * nat * bool) :=
  match find_channel chan c with
  | Some sid => Some (c, sid, false)
  | None =>
      match find_session_from_waitchannel chan c with
      | Some sid => Some (c, sid, false)
      | None =>
          match find_unused_session c with
          | Some sid => Some (c, sid, true)
          | None => '(c, sid) ← new_ircwindow p SESS_CHANNEL chan true c; Some (c, sid, false)
          end
      end
  end.

(** The events of the JOIN: recorded unless the store has it, shown, and the
    reconnect marker of a restored membership. *)
Definition announce_join (sid : nat) (chan nick host : cstr) (t : message_tags_data) (c : client) : option client :=
  s ← lookup_session sid c;
  let last := last_disconnect_time (w_serv (windows c)) in
  let ref := if last =? 0 then scrollback_newest_time (s_anchors s) else last in
  let restored := (0 <? timestamp t) && (0 <? ref) && (timestamp t <=? ref) in
  '(c, recorded) ← (match restored, Tags.msgid t with
                    | true, Some id => ask_view sid (scrollback_session_has_msgid id (timestamp t)) c
                    | _, _ => Some (c, false)
                    end);
  let c := fe_call sid (FeSetJoinBanner (Tags.msgid t)) c in
  let c := if recorded : bool then c
           else text_event sid XP_TE_UJOIN [nick; chan; host] (fe_call sid (RecordJoin nick chan host (timestamp t) (Tags.msgid t)) c) in
  Some (if restored then set_server_flags true (doing_dns c) (away_messages c) (text_event sid XP_TE_RECONNECT [] c) else c).

Definition inbound_ujoin (p : client_prefs) (chan nick host : cstr) (t : message_tags_data) (c : client) : option client :=
  '(c, duplicate) ← (match find_channel chan c, Tags.msgid t with
                     | Some sid, Some id => ask_view sid (chathistory_is_duplicate_msgid id (timestamp t)) c
                     | _, _ => Some (c, false)
                     end);
  if duplicate : bool then Some c
  else
    '(c, sid, found_unused) ← join_window p chan c;
    name ← safe_strcpy chan CHANLEN;
    c ← on_view sid (set_sess (set_channel name)) c;
    c ← (if found_unused : bool
         then on_view sid (fun v => if text_replay (history_prefs p) then scrollback_load (history_prefs p) v else v)
                (fe_call sid FeTextClear (fe_call sid ChanoptLoad c))
         else Some c);
    let c := fe_call sid (FeSetNonchannel true) (fe_call sid FeSetTitle (fe_call sid FeSetChannel c)) in
    c ← on_users_ sid userlist_clear c;
    let c := fe_call sid LogOpenOrClose c in
    let c := on_room sid (fun r => set_ignores true true (set_waitchannel [] r)) c in
    let c := set_ignore_names (fun l => {[sid]} ∪ l) c in
    c ← on_users_ sid (fun u => Some (set_end_of_names false u)) c;
    let c := say (SendOut (irc_join_info chan)) c in
    c ← (match Tags.msgid t with
         | Some id => on_view sid (fun v => set_sess (set_join_msgid (Some id))
                                              (set_sess (chathistory_track_msgid_ts id (timestamp t) false) v)) c
         | None => Some c
         end);
    c ← announce_join sid chan nick host t c;
    let c := set_windows (chathistory_schedule_deferred (history_prefs p)) c in
    let c := if have_read_marker c then say (SendOut [Sendf (fmt [("MARKREAD " : cstr); chan; EOL])]) c else c in
    Some (if irc_who_join p
          then on_room sid (set_who true true) (say (SendOut (irc_user_list (have_whox c) chan)) c)
          else c).

Definition inbound_ukick (p : client_prefs) (chan kicker reason : cstr) (c : client) : option client :=
  match find_channel chan c with
  | None => Some c
  | Some sid =>
      c ← clear_channel sid (text_event sid XP_TE_UKICK [own_nick c; chan; kicker; reason] c);
      if irc_auto_rejoin p then
        r ← rooms c !! sid;
        name ← safe_strcpy chan CHANLEN;
        Some (on_room sid (set_waitchannel name) (say (SendOut (irc_join chan (channelkey r))) c))
      else Some c
  end.

Definition inbound_upart (chan host reason : cstr) (c : client) : option client :=
  match find_channel chan c with
  | None => Some c
  | Some sid =>
      clear_channel sid
        (match reason with
         | [] => text_event sid XP_TE_UPART [own_nick c; host; chan] c
         | _ => text_event sid XP_TE_UPARTREASON [own_nick c; host; chan; reason] c
         end)
  end.

(** ** Others *)

Definition inbound_join (chan user host : cstr) (acc realname : option cstr) (c : client) : option client :=
  match find_channel chan c with
  | None => Some c
  | Some sid =>
      c ← on_users_ sid (fun u => userlist_add (user_server c) u user (Some host) acc realname)
            (text_event sid XP_TE_JOIN [user; chan; host; default [] acc] c);
      Some (say (AccountObserved user acc) c)
  end.

Definition cleared_account (acc : option cstr) (c : client) : client :=
  match acc with Some a => say (AccountCleared a) c | None => c end.

(** A user leaves a channel, with what is said of it. *)
Definition leave (chan user : cstr) (announce : nat -> client -> client) (c : client) : option client :=
  match find_channel chan c with
  | None => Some c
  | Some sid =>
      u ← lookup_user sid user c;
      '(c, _) ← on_users sid (fun s => userlist_remove (user_server c) s user) (announce sid c);
      Some (cleared_account (u ≫= Userlist.account) c)
  end.

Definition inbound_kick (chan user kicker reason : cstr) : client -> option client :=
  leave chan user (fun sid => text_event sid XP_TE_KICK [kicker; user; chan; reason]).

Definition inbound_part (chan user host reason : cstr) : client -> option client :=
  leave chan user (fun sid => match reason with
                              | [] => text_event sid XP_TE_PART [user; host; chan]
                              | _ => text_event sid XP_TE_PARTREASON [user; host; chan; reason]
                              end).

(** The account seen, kept from the first window that has one. *)
Fixpoint quit_sessions (nick host reason : cstr) (sids : list nat) (acc : option cstr) (c : client) : option (client * option cstr) :=
  match sids with
  | [] => Some (c, acc)
  | sid :: sids =>
      s ← lookup_session sid c;
      r ← rooms c !! sid;
      found ← userlist_find (user_server c) (users r) nick;
      match found with
      | Some u =>
          x ← heap (users r) !! u;
          c ← on_users_ sid (userlist_remove_user (user_server c) u) (text_event sid XP_TE_QUIT [nick; reason; host] c);
          quit_sessions nick host reason sids (match acc with None => Userlist.account x | a => a end) c
      | None =>
          quit_sessions nick host reason sids acc
            (if bool_decide (s_type s = SESS_DIALOG) && (compare c (channel s) nick =? 0)
             then text_event sid XP_TE_QUIT [nick; reason; host] c else c)
      end
  end.

Definition inbound_quit (nick host reason : cstr) (c : client) : option client :=
  let on_front := match current_sess (windows c) with
                  | Some sid => bool_decide (sid ∈ sess_list (windows c)) | None => false end in
  '(c, acc) ← quit_sessions nick host reason (sess_list (windows c)) None c;
  Some (say (NickOffline nick on_front) (cleared_account acc c)).

(** The dialog with somebody is renamed with him. *)
Definition newnick_session (mine quiet : bool) (nick newnick : cstr) (sid : nat) (c : client) : option client :=
  s ← lookup_session sid c;
  '(c, changed) ← on_users sid (fun u => userlist_change (user_server c) u nick newnick) c;
  let c := if ((changed : bool) || (mine && bool_decide (s_type s = SESS_SERVER))) && negb quiet
           then text_event sid (if mine then XP_TE_UCHANGENICK else XP_TE_CHANGENICK) [nick; newnick] c else c in
  c ← (if bool_decide (s_type s = SESS_DIALOG) && (compare c (channel s) nick =? 0) then
         name ← safe_strcpy newnick CHANLEN;
         c ← on_view sid (set_sess (set_channel name)) c;
         Some (fe_call sid FeSetChannel c)
       else Some c);
  Some (fe_call sid FeSetTitle c).

Definition newnick_everywhere (mine quiet : bool) (nick newnick : cstr) (c : client) : option client :=
  c ← each_session (newnick_session mine quiet nick newnick) c;
  let c := say (DccChangeNick nick newnick) c in
  Some (if mine then say (FeSetNick newnick) c else c).

Definition inbound_newnick (nick newnick : cstr) (quiet : bool) (c : client) : option client :=
  let mine := compare c nick (own_nick c) =? 0 in
  c ← (if mine then n ← safe_strcpy newnick Userlist.NICKLEN; Some (set_nick n c) else Some c);
  newnick_everywhere mine quiet nick newnick c.

(** ** NAMES *)

(** The [while (strchr (nick_prefixes, *p))] loop: [strchr] finds the NUL of its
    string, so that at the end of the name it reads on. *)
Fixpoint skip_prefixes (prefixes name : cstr) : option nat :=
  match name with
  | [] => None
  | c :: rest => if bool_decide (c ∈ prefixes) then S <$> skip_prefixes prefixes rest else Some O
  end.

(** A name of the list and its host. *)
Definition names_entry (uhnames : bool) (prefixes word : cstr) : option (cstr * option cstr) :=
  if uhnames then
    k ← skip_prefixes prefixes word;
    let bang := (k + default (length (drop k word)) (index_of "!" (drop k word)))%nat in
    Some (take (Nat.min bang 63) word, if Nat.ltb bang (length word) then Some (drop (S bang) word) else None)
  else Some (take 63 word, None).

Fixpoint add_names (sid : nat) (names : list cstr) (c : client) : option client :=
  match names with
  | [] => Some c
  | [] :: names => add_names sid names c
  | word :: names =>
      '(name, host) ← names_entry (have_uhnames c) (nick_prefixes (isup (w_serv (windows c)))) word;
      c ← on_users_ sid (fun u => userlist_add (user_server c) u name host None None) c;
      add_names sid names c
  end.

Definition inbound_nameslist (chan names : cstr) (c : client) : option client :=
  match find_channel chan c with
  | None => Some (text_event (server_session (base c)) XP_TE_USERSONCHAN [chan; names] c)
  | Some sid =>
      let c := if bool_decide (sid ∈ ignore_names (base c)) then c else text_event sid XP_TE_USERSONCHAN [chan; names] c in
      r ← rooms c !! sid;
      c ← (if end_of_names (users r)
           then c ← on_users_ sid (fun u => Some (set_end_of_names false u)) c; on_users_ sid userlist_clear c
           else Some c);
      add_names sid (split_on " " [] names) c
  end.

Definition names_done (sid : nat) (c : client) : option client :=
  c ← on_users_ sid (fun u => Some (set_end_of_names true u)) c;
  Some (fe_call sid FeUserlistNumbers (set_ignore_names (fun l => l ∖ {[sid]}) c)).

Definition inbound_nameslist_end (chan : cstr) (c : client) : option (client * bool) :=
  if bool_decide (chan = ("*" : cstr)) then c ← each_session names_done c; Some (c, true)
  else
    match find_channel chan c with
    | Some sid => c ← names_done sid c; Some (c, true)
    | None => Some (c, false)
    end.

(** ** Topics, accounts, away *)

Definition inbound_topic (chan topic_text : cstr) (c : client) : client :=
  match find_channel chan c with
  | Some sid => text_event sid XP_TE_TOPIC [chan; topic_text] (set_topic sid topic_text (strip_color topic_text) c)
  | None => text_event (server_session (base c)) XP_TE_TOPIC [chan; topic_text] c
  end.

Definition inbound_topicnew (nick chan topic_text : cstr) (c : client) : client :=
  match find_channel chan c with
  | Some sid => set_topic sid topic_text (strip_color topic_text) (text_event sid XP_TE_NEWTOPIC [nick; topic_text; chan] c)
  | None => c
  end.

Fixpoint old_account (nick : cstr) (sids : list nat) (c : client) : option (option cstr) :=
  match sids with
  | [] => Some None
  | sid :: sids =>
      u ← lookup_user sid nick c;
      match u ≫= Userlist.account with Some a => Some (Some a) | None => old_account nick sids c end
  end.

Definition logged_out (account : cstr) : bool :=
  bool_decide (account = []) || bool_decide (account = ("*" : cstr)) || bool_decide (account = ("0" : cstr)).

Definition inbound_account (nick account : cstr) (c : client) : option client :=
  old ← old_account nick (sess_list (windows c)) c;
  c ← each_session (fun sid c => on_users_ sid (fun u => userlist_set_account (user_server c) u nick account) c) c;
  let c := say (AccountObserved nick (Some account)) c in
  Some (match old with
        | Some a => if logged_out account || negb (bool_decide (account = a)) then say (AccountCleared a) c else c
        | None => c
        end).

Definition set_all_away (nick : cstr) (status : Z) : client -> option client :=
  each_session (fun sid c => on_users_ sid (fun u => userlist_set_away (user_server c) u nick status) c).

(** The friend list is told for the window in front. *)
Definition inbound_away_notify (p : client_prefs) (nick : cstr) (reason : option cstr) : client -> option client :=
  each_session (fun sid c =>
    c ← on_users_ sid (fun u => userlist_set_away (user_server c) u nick (match reason with Some _ => 1 | None => 0 end)) c;
    if bool_decide (front_session c = Some sid) then
      u ← lookup_user sid nick c;
      Some (if friend p nick (u ≫= Userlist.account)
            then match reason with
                 | Some r => text_event sid XP_TE_NOTIFYAWAY [nick; r] c
                 | None => text_event sid XP_TE_NOTIFYBACK [nick] c
                 end
            else c)
    else Some c).

(** Users on all channels, or on the one of a WHO reply; a dialog shows the host as its topic. *)
Definition inbound_user_info (p : client_prefs) (chan user host servname : option cstr) (nick : cstr)
    (realname acc : option cstr) (away : Z) (c : client) : option client :=
  let uhost := match user, host with Some u, Some h => Some (fmt [u; ("@" : cstr); h]) | _, _ => None end in
  let add sid c := '(c, _) ← on_users sid (fun u => userlist_add_hostname (user_server c) (gui_ulist_show_hosts p) u nick uhost realname servname acc away) c; Some c in
  c ← (match chan with
       | Some chan =>
           match find_channel chan c with
           | Some sid => add sid c
           | None => Some (match doing_dns c, host with true, Some h => say (DoDns nick h) c | _, _ => c end)
           end
       | None =>
           each_session (fun sid c =>
             s ← lookup_session sid c;
             match s_type s, uhost with
             | SESS_CHANNEL, _ => add sid c
             | SESS_DIALOG, Some uh => Some (if compare c (channel s) nick =? 0 then set_topic sid uh uh c else c)
             | _, _ => Some c
             end) c
       end);
  Some (match acc with Some (a :: r) => say (AccountObserved nick (Some (a :: r))) c | _ => c end).

Definition inbound_set_all_away_status := set_all_away.

(** The window a message of nobody's dialog goes to. *)
Fixpoint session_with_user (nick : cstr) (sids : list nat) (c : client) : option (option nat) :=
  match sids with
  | [] => Some None
  | sid :: sids => u ← lookup_user sid nick c; match u with Some _ => Some (Some sid) | None => session_with_user nick sids c end
  end.

Definition find_session_from_nick (nick : cstr) (c : client) : option (option nat) :=
  match find_dialog nick c with
  | Some sid => Some (Some sid)
  | None =>
      in_front ← (match front_session c with
                  | Some sid =>
                      if g_ascii_strcasecmp nick "ChanServ" =? 0 then Some (Some sid)
                      else u ← lookup_user sid nick c; Some (match u with Some _ => Some sid | None => None end)
                  | None => Some None
                  end);
      match in_front with
      | Some sid => Some (Some sid)
      | None =>
          in_current ← (match current_sess (windows c) with
                        | Some sid => if bool_decide (sid ∈ sess_list (windows c)) then session_with_user nick [sid] c else Some None
                        | None => Some None
                        end);
          match in_current with
          | Some sid => Some (Some sid)
          | None => session_with_user nick (sess_list (windows c)) c
          end
      end
  end.

Definition inbound_away (p : client_prefs) (nick msg : cstr) (c : client) : option client :=
  let cmp := compare c in
  let seen := match server_away_find_message cmp 0 nick (away_messages c) with
              | Some a => bool_decide (msg = away_message a) | None => false end in
  if seen && away_show_once p && negb (inside_whois c) then Some c
  else
    away ← (if seen then Some (away_messages c) else server_away_save_message cmp 0 nick msg (away_messages c));
    let c := set_server_flags (bouncer_inferred c) (doing_dns c) away c in
    sid ← (if irc_whois_front p then Some (front_session c)
           else found ← (if inside_whois c then Some None else find_session_from_nick nick c);
                Some (Some (default (server_session (base c)) found)));
    c ← (if inside_whois c && skip_next_whois c then Some c
         else sid ← sid; Some (text_event sid XP_TE_WHOIS5 [nick; msg] c));
    set_all_away nick 1 c.

(** ** Modes: the windows as [handle_mode] sees them. *)

Definition chan_of (c : client) (sid : nat) : option chan_session :=
  s ← lookup_session sid c; r ← rooms c !! sid;
  Some (Chan true (bool_decide (s_type s = SESS_CHANNEL)) (channel s) (channelkey r) (chan_limit r) (ignore_mode r)
          (current_modes r) (users r)).

Definition put_chan (sid : nat) (ch : chan_session) : client -> client :=
  on_room sid (fun r => Room (waitchannel r) (Modes.channelkey ch) (Modes.chan_limit ch) (Modes.current_modes ch) (topic r)
                          (ignore_date r) (Modes.ignore_mode ch) (doing_who r) (done_away_check r) (Modes.users ch)).

Fixpoint put_chans (sids : list nat) (chs : list chan_session) (c : client) : client :=
  match sids, chs with sid :: sids, ch :: chs => put_chans sids chs (put_chan sid ch c) | _, _ => c end.

Definition client_mode (p : client_prefs) (ln : line) (nick : cstr) (numeric_324 : bool) (c : client) : option client :=
  let sids := sess_list (windows c) in
  chs ← mapM (chan_of c) sids;
  front ← front_session c;
  pos ← list_find (fun sid => sid = front) sids;
  m ← handle_mode (user_server c) (irc_raw_modes p) ln nick numeric_324 (MState chs pos.1 []);
  Some (foldl (fun c e => match sids !! e.1 with Some sid => say (ModeEvent sid e.2) c | None => c end)
          (put_chans sids (Modes.sess_list m) c) (events m)).

(** ** Lines *)

(** [nick] and [ip] of [process_named_msg]. *)
Definition source (prefix : cstr) : option (cstr * cstr) :=
  match index_of "!" prefix with
  | Some i => ip ← safe_strcpy (drop (S i) prefix) 128; nick ← safe_strcpy (take i prefix) Userlist.NICKLEN; Some (nick, ip)
  | None => ip ← safe_strcpy prefix 128; nick ← safe_strcpy prefix Userlist.NICKLEN; Some (nick, ip)
  end.

(** A handler unless the line belongs to a batch. *)
Definition unless_batched (command : cstr) (ln : line) (t : message_tags_data) (f : client -> option client) (c : client) : option client :=
  let '(h, taken) := inbound_batch_add_message (word ln 1) command ln t (base c) in
  if taken then Some (set_base (fun _ => h) c) else f (set_base (fun _ => h) c).

Definition handle_join (p : client_prefs) (ln : line) (nick ip : cstr) (t : message_tags_data) (c : client) : option client :=
  let acc := word ln 4 in
  let chan := drop_colon (word ln 3) in
  if compare c nick (own_nick c) =? 0 then inbound_ujoin p chan nick ip t c
  else inbound_join chan nick ip (if bool_decide (acc = ("*" : cstr)) then None else Some acc) (Some (drop_colon (word_eol ln 5))) c.

Definition handle_kick (p : client_prefs) (ln : line) (nick : cstr) (c : client) : option client :=
  match word ln 4 with
  | [] => Some c
  | kicked =>
      let reason := drop_colon (word_eol ln 5) in
      if bool_decide (kicked = own_nick c) then inbound_ukick p (word ln 3) nick reason c
      else inbound_kick (word ln 3) kicked nick reason c
  end.

Definition handle_part (ln : line) (nick ip : cstr) (c : client) : option client :=
  let chan := drop_colon (word ln 3) in
  let reason := drop_colon (word_eol ln 4) in
  if bool_decide (nick = own_nick c) then inbound_upart chan ip reason c else inbound_part chan nick ip reason c.

(** The branches of [process_named_msg] for these handlers; false: another branch. *)
Definition channel_branches (p : client_prefs) (type : cstr) (ln : line) (t : message_tags_data) (nick ip : cstr) (c : client)
    : option (client * bool) :=
  let taken (o : option client) := c ← o; Some (c, true) in
  let type_is s := bool_decide (type = list_ascii_of_string s) in
  let starts s := Nat.leb 5 (length type) && bool_decide (take 4 type = list_ascii_of_string s) in
  if type_is "JOIN" then taken (unless_batched "JOIN" ln t (handle_join p ln nick ip t) c)
  else if type_is "KICK" then taken (unless_batched "KICK" ln t (handle_kick p ln nick) c)
  else if type_is "MODE" then taken (unless_batched "MODE" ln t (client_mode p ln nick false) c)
  else if type_is "NICK" then taken (unless_batched "NICK" ln t (inbound_newnick nick (drop_colon (word_eol ln 3)) false) c)
  else if type_is "PART" then taken (unless_batched "PART" ln t (handle_part ln nick ip) c)
  else if type_is "QUIT" then taken (unless_batched "QUIT" ln t (inbound_quit nick ip (drop_colon (word_eol ln 3))) c)
  else if type_is "AWAY" then
    taken (inbound_away_notify p nick (match word_eol ln 3 with a :: r => if a =c ":" then Some r else None | [] => None end) c)
  else if starts "ACCO" then taken (inbound_account nick (strip_colon ln 3) c)
  else if starts "CHGH" then
    taken (inbound_user_info p None (Some (word ln 3)) (Some (strip_colon ln 4)) None nick None None 255 c)
  else if starts "SETN" then taken (inbound_user_info p None None None None nick (Some (strip_colon ln 3)) None 255 c)
  else if starts "TOPI" then
    taken (unless_batched "TOPIC" ln t (fun c => Some (inbound_topicnew nick (word ln 3) (drop_colon (word_eol ln 4)) c)) c)
  else Some (c, false).

Definition process_channel_msg (p : client_prefs) (type : cstr) (ln : line) (t : message_tags_data) (c : client) : option (client * bool) :=
  '(nick, ip) ← source (word ln 1);
  c ← (if have_account_tag c
       then inbound_account nick (match Tags.account t with Some (a :: r) => a :: r | _ => ("*" : cstr) end) c
       else Some c);
  channel_branches p type ln t nick ip c.

Definition show_who (sid : option nat) (ln : line) (text : cstr) (c : client) : option client :=
  let unasked := match sid with
                 | Some sid => match rooms c !! sid with Some r => negb (doing_who r) | None => true end
                 | None => true
                 end in
  Some (if unasked then text_event (server_session (base c)) XP_TE_SERVTEXT [text; word ln 1; word ln 2] c else c).

Definition end_of_who (ln : line) (text : cstr) (c : client) : option client :=
  let tell := text_event (server_session (base c)) XP_TE_SERVTEXT [text; word ln 1; word ln 2] in
  match find_channel (word ln 4) c with
  | Some sid =>
      r ← rooms c !! sid;
      Some (on_room sid (fun r => set_who false (done_away_check r) r) (if doing_who r then c else tell c))
  | None =>
      Some (set_server_flags (bouncer_inferred c) false (away_messages c) (if doing_dns c then c else tell c))
  end.

(** The numerics of [process_numeric] for these handlers; false: another case,
    or shown as it is. *)
Definition process_channel_numeric (p : client_prefs) (n : Z) (ln : line) (text : cstr) (c : client) : option (client * bool) :=
  let taken (o : option client) := c ← o; Some (c, true) in
  if n =? 301 then taken (inbound_away p (word ln 4) (drop_colon (word_eol ln 5)) c)
  else if n =? 332 then taken (Some (inbound_topic (word ln 4) (drop_colon (word_eol ln 5)) c))
  else if n =? 315 then taken (end_of_who ln text c)
  else if n =? 352 then
    taken (let sid := find_channel (word ln 4) c in
           c ← inbound_user_info p (Some (word ln 4)) (Some (word ln 5)) (Some (word ln 6)) (Some (word ln 7)) (word ln 8)
                 (Some (word_eol ln 11)) None (if peek (word ln 9) =c "G" then 1 else 0) c;
           show_who sid ln text c)
  else if n =? 354 then
    if bool_decide (word ln 4 = ("152" : cstr)) then
      taken (let sid := find_channel (word ln 5) c in
             (* word_eol[12] + 1 *)
             realname ← (match word_eol ln 12 with
                         | _ :: r => Some r
                         | [] => if Nat.ltb 12 (length (eol_offsets ln)) then None else Some []
                         end);
             c ← inbound_user_info p (Some (word ln 5)) (Some (word ln 6)) (Some (word ln 7)) (Some (word ln 8)) (word ln 9)
                   (Some realname) (Some (word ln 11)) (if peek (word ln 10) =c "G" then 1 else 0) c;
             show_who sid ln text c)
    else Some (c, false)
  else if n =? 353 then taken (inbound_nameslist (word ln 5) (drop_colon (word_eol ln 6)) c)
  else if n =? 366 then inbound_nameslist_end (word ln 4) c
  else Some (c, false).

(** What [irc_inline] hands a line to. *)
Definition process_incoming (p : client_prefs) (h : handler) (ln : line) (t : message_tags_data) (c : client) : option (client * bool) :=
  match h with
  | Numeric n text => process_channel_numeric p n ln text c
  | NamedMsg type => process_channel_msg p type ln t c
  | NamedServerMsg _ => Some (c, false)
  end.

(** ** The connection *)

(** The own nick of numeric 001 ([inbound_login_start]): the old nick handed to
    [inbound_newnick] is [serv->nick] itself, which it overwrites first. *)
Definition login_nick (nick : cstr) (c : client) : option client :=
  n ← safe_strcpy nick Userlist.NICKLEN; newnick_everywhere true true n nick (set_nick n c).

(** The sessions of [server_disconnect]; dialogs stay. *)
Definition disconnect_sessions (shutup : bool) : client -> option client :=
  each_session (fun sid c =>
    s ← lookup_session sid c;
    let c := if negb shutup || bool_decide (s_type s = SESS_SERVER) then text_event sid XP_TE_DISCON [] c else c in
    if bool_decide (channel s = []) || bool_decide (s_type s = SESS_CHANNEL) then clear_channel sid c
    else Some (fe_call sid ClearTyping c)).

Definition server_disconnect (now : Z) (delayed : bool) (c : client) : option client :=
  let s := w_serv (windows c) in
  if negb (connected s) && negb delayed then Some c
  else
    let c := if connected s then set_windows (upd_serv (fun s => history_disconnected (set_disconnect_time now s))) c else c in
    c ← disconnect_sessions (negb (connected s)) c;
    Some (set_windows (upd_serv persistence_reset) (set_server_flags false (doing_dns c) (away_messages c) c)).
End channels.
