(* ===== verification/ChannelsNet.v ===== *)
(** * A network to be on

    The channels we are on as the server knows them, what can happen on them,
    and that the network stays consistent: the other side of the handlers of
    [Channels]. *)
From S2P Require Import Prelude Glib Casemap Text Access Isupport.

(** ** The state and what happens *)


(** A channel we are on: the members we were told of, and those of a NAMES
    reply under way that are still to come. *)
Record nchan := NChan { n_name : cstr; told : list cstr; untold : list cstr; listing : bool }.
(** What was agreed on: hosts in NAMES replies (UHNAMES), CASEMAPPING, PREFIX. *)
Record agreed := Agreed { a_uh : bool; a_cmp : cstr -> cstr -> Z; a_isup : isupport }.
Record network := Network { n_agreed : agreed; n_me : cstr; n_chans : list nchan }.

Definition members (nc : nchan) : list cstr := told nc ++ untold nc.
Definition known_nicks (net : network) : list cstr := n_me net :: concat (map members (n_chans net)).

(** An entry of a NAMES reply: the status prefixes, the nick and perhaps the host. *)
Record entry := Entry { e_prefixes : cstr; e_nick : cstr; e_host : option cstr }.

Inductive happening :=
| Joins (nick chan : cstr)
| WeJoin (chan : cstr) (there : list cstr)
| Leaves (nick chan : cstr)      (* PART *)
| Kicked (nick chan : cstr)
| Quits (nick : cstr)
| Renames (old new : cstr)
| NamesLine (chan : cstr) (entries : list entry)
| NamesEnd (chan : cstr)
| Nothing                        (* what does not concern the membership *)
| Lost.

Definition drop_nick (nick : cstr) : list cstr -> list cstr := List.filter (fun n => negb (bool_decide (n = nick))).
Definition rename (old new : cstr) : list cstr -> list cstr := map (fun n => if bool_decide (n = old) then new else n).

Definition map_members (f : list cstr -> list cstr) (nc : nchan) : nchan :=
  NChan (n_name nc) (f (told nc)) (f (untold nc)) (listing nc).

(** A NAMES line begins a new list when the last one was ended. *)
Definition hear_names (ns : list cstr) (nc : nchan) : nchan :=
  let nc := if listing nc then nc else NChan (n_name nc) [] (members nc) true in
  NChan (n_name nc) (told nc ++ List.filter (fun n => negb (bool_decide (n ∈ told nc))) ns)
    (List.filter (fun n => negb (bool_decide (n ∈ ns))) (untold nc)) true.

Section network.
(** The comparison of names and the PREFIX of the network. *)
Context (cmp : cstr -> cstr -> Z) (isp : isupport).

Definition same (a b : cstr) : bool := cmp a b =? 0.

Definition on_chan (chan : cstr) (f : nchan -> nchan) (net : network) : network :=
  Network (n_agreed net) (n_me net) (map (fun nc => if same chan (n_name nc) then f nc else nc) (n_chans net)).
Definition off_chan (chan : cstr) (net : network) : network :=
  Network (n_agreed net) (n_me net) (List.filter (fun nc => negb (same chan (n_name nc))) (n_chans net)).

Definition gone_from (nick chan : cstr) (net : network) : network :=
  if bool_decide (nick = n_me net) then off_chan chan net else on_chan chan (map_members (drop_nick nick)) net.

Definition after (h : happening) (net : network) : network :=
  match h with
  | Joins nick chan => on_chan chan (fun nc => NChan (n_name nc) (told nc ++ [nick]) (untold nc) (listing nc)) net
  | WeJoin chan there => Network (n_agreed net) (n_me net) (NChan chan [] there true :: n_chans net)
  | Leaves nick chan | Kicked nick chan => gone_from nick chan net
  | Quits nick => Network (n_agreed net) (n_me net) (map (map_members (drop_nick nick)) (n_chans net))
  | Renames old new =>
      Network (n_agreed net) (if bool_decide (old = n_me net) then new else n_me net) (map (map_members (rename old new)) (n_chans net))
  | NamesLine chan es => on_chan chan (hear_names (map e_nick es)) net
  | NamesEnd chan => on_chan chan (fun nc => NChan (n_name nc) (told nc) (untold nc) false) net
  | Nothing => net
  | Lost => Network (n_agreed net) (n_me net) []
  end.

Definition nick_ok (n : cstr) : Prop :=
  plain n /\ n <> [] /\ (length n <= 63)%nat /\ Forall (fun c => c <> " "%char /\ c <> "!"%char) n /\ (forall c, head n = Some c -> c ∉ nick_prefixes isp).
Definition chan_ok (c : cstr) : Prop := plain c /\ c <> [] /\ (length c <= 299)%nat.
Definition entry_ok (e : entry) : Prop :=
  NoDup (e_prefixes e) /\ Forall (fun c => c ∈ nick_prefixes isp /\ c <> " "%char) (e_prefixes e) /\ nick_ok (e_nick e) /\
  (length (e_prefixes e) + length (e_nick e) <= 63)%nat /\ Forall (fun c => c <> " "%char) (default [] (e_host e)).

(** What the server may do next. *)
Definition possible (net : network) (h : happening) : Prop :=
  match h with
  | Joins nick chan =>
      nick_ok nick /\ nick <> n_me net /\ (forall m, m ∈ known_nicks net -> cmp nick m = 0 -> nick = m) /\
      exists nc, nc ∈ n_chans net /\ cmp chan (n_name nc) = 0 /\ (nick ∉ members nc) /\ plain chan
  | WeJoin chan there =>
      chan_ok chan /\ (forall nc, nc ∈ n_chans net -> cmp chan (n_name nc) <> 0) /\ NoDup there /\ Forall nick_ok there /\
      (forall m m', m ∈ there -> m' ∈ (known_nicks net ++ there) -> cmp m m' = 0 -> m = m')
  | Leaves nick chan | Kicked nick chan =>
      plain chan /\ exists nc, nc ∈ n_chans net /\ cmp chan (n_name nc) = 0 /\ (nick = n_me net \/ nick ∈ members nc)
  | Quits nick => nick <> n_me net /\ nick ∈ known_nicks net
  | Renames old new =>
      old ∈ known_nicks net /\ nick_ok new /\ (forall m, m ∈ known_nicks net -> m <> old -> cmp new m <> 0)
  | NamesLine chan es =>
      plain chan /\ Forall entry_ok es /\ NoDup (map e_nick es) /\
      exists nc, nc ∈ n_chans net /\ cmp chan (n_name nc) = 0 /\ (forall n, n ∈ map e_nick es -> n ∈ members nc)
  | NamesEnd chan => plain chan /\ chan <> "*" /\ exists nc, nc ∈ n_chans net /\ cmp chan (n_name nc) = 0 /\ untold nc = []
  | Nothing | Lost => True
  end.

Fixpoint distinct (l : list nchan) : Prop :=
  match l with [] => True | a :: l => Forall (fun b => cmp (n_name a) (n_name b) <> 0) l /\ distinct l end.

Record net_ok (net : network) : Prop := {
  no_me : nick_ok (n_me net);
  no_nicks : Forall nick_ok (known_nicks net);
  no_spelling : forall m m', m ∈ known_nicks net -> m' ∈ known_nicks net -> cmp m m' = 0 -> m = m';
  no_members : Forall (fun nc => NoDup (members nc) /\ (listing nc = false -> untold nc = [])) (n_chans net);
  no_chans : Forall (fun nc => chan_ok (n_name nc)) (n_chans net);
  no_distinct : distinct (n_chans net) }.

Context (Hcmp : CmpOrder plain cmp).

Lemma same_refl a : plain a -> cmp a a = 0.
Proof. intros Ha. by apply (cmp_refl plain cmp). Qed.
Lemma same_sym a b : plain a -> plain b -> cmp a b = 0 -> cmp b a = 0.
Proof. intros Ha Hb E. by apply (cmp_eq_sym plain cmp). Qed.
Lemma same_trans a b c : plain a -> plain b -> plain c -> cmp a b = 0 -> cmp b c = 0 -> cmp a c = 0.
Proof.
  intros Ha Hb Hc E1 E2. assert (E3 : cmp b a = 0) by by apply same_sym. assert (E4 : cmp c b = 0) by by apply same_sym.
  assert (T1 : cmp a c <= 0) by (apply (cmp_trans a b c); [done..|lia|lia]).
  assert (T2 : cmp c a <= 0) by (apply (cmp_trans c b a); [done..|lia|lia]).
  pose proof (cmp_sym a c Ha Hc). lia.
Qed.

Lemma distinct_map f l : (forall nc, n_name (f nc) = n_name nc) -> distinct l -> distinct (map f l).
Proof.
  intros Hf. induction l as [|a l IH]; [done|]. intros [Ha Hl]. split; [|by apply IH].
  apply Forall_map. eapply Forall_impl; [exact Ha|]. intros b Hb. cbn. by rewrite !Hf.
Qed.

Lemma distinct_filter p l : distinct l -> distinct (List.filter p l).
Proof.
  induction l as [|a l IH]; [done|]. intros [Ha Hl]. cbn [List.filter]. destruct (p a); [|by apply IH]. split; [|by apply IH].
  apply List.Forall_forall. intros b [Hb _]%List.filter_In. rewrite List.Forall_forall in Ha. by apply Ha.
Qed.

Lemma known_spec net m : m ∈ known_nicks net <-> m = n_me net \/ exists nc, nc ∈ n_chans net /\ m ∈ members nc.
Proof.
  unfold known_nicks. rewrite elem_of_cons, (list_elem_of_In (concat _)), in_concat. setoid_rewrite in_map_iff.
  setoid_rewrite <- list_elem_of_In. naive_solver.
Qed.

(** The channel of a name, when there is one. *)
Lemma one_channel l chan a b :
  plain chan -> Forall (fun nc => chan_ok (n_name nc)) l -> distinct l -> a ∈ l -> b ∈ l ->
  cmp chan (n_name a) = 0 -> cmp chan (n_name b) = 0 -> a = b.
Proof.
  intros Hc Hp Hd Ha Hb Ea Eb. induction l as [|x l IH]; [by apply not_elem_of_nil in Ha|].
  apply Forall_cons in Hp as [Hx Hp]. destruct Hd as [Hxl Hd]. rewrite Forall_forall in Hxl.
  assert (Hpl : forall y, y ∈ l -> plain (n_name y)) by (intros y Hy; rewrite Forall_forall in Hp; apply (Hp y Hy)).
  destruct Hx as (Hx & _). apply elem_of_cons in Ha as [-> |Ha], Hb as [-> |Hb]; [done| | |by apply IH].
  - exfalso. apply (Hxl b Hb). apply (same_trans _ chan); auto. by apply same_sym.
  - exfalso. apply (Hxl a Ha). apply (same_trans _ chan); auto. by apply same_sym.
Qed.

Lemma drop_nick_spec nick l n : n ∈ drop_nick nick l <-> n ∈ l /\ n <> nick.
Proof.
  unfold drop_nick. rewrite !list_elem_of_In, List.filter_In, negb_true_iff, bool_decide_eq_false. done.
Qed.

Lemma NoDup_list_filter {A} (p : A -> bool) l : NoDup l -> NoDup (List.filter p l).
Proof.
  induction 1 as [|x l Hx Hl IH]; [constructor|]. cbn [List.filter]. destruct (p x); [|done]. constructor; [|done].
  rewrite list_elem_of_In, List.filter_In, <- list_elem_of_In. tauto.
Qed.

Lemma members_map f nc : (forall a b, f (a ++ b) = f a ++ f b) -> members (map_members f nc) = f (members nc).
Proof. intros Hf. unfold members. cbn. by rewrite Hf. Qed.

Lemma drop_nick_app nick a b : drop_nick nick (a ++ b) = drop_nick nick a ++ drop_nick nick b.
Proof. apply List.filter_app. Qed.
Lemma rename_app old new a b : rename old new (a ++ b) = rename old new a ++ rename old new b.
Proof. apply List.map_app. Qed.

Lemma rename_spec old new l n : n ∈ rename old new l <-> (n ∈ l /\ n <> old) \/ (n = new /\ old ∈ l).
Proof.
  unfold rename. rewrite list_elem_of_fmap. split.
  - intros (m & -> & Hm). case_bool_decide; [right; by subst|by left].
  - intros [[Hn Hne]|[-> Ho] ]; [exists n|exists old]; (split; [by case_bool_decide|done]).
Qed.

(** What a change of the channels must keep. *)
Lemma net_ok_change net net' :
  net_ok net -> nick_ok (n_me net') ->
  (forall m, m ∈ known_nicks net' -> nick_ok m) ->
  (forall m m', m ∈ known_nicks net' -> m' ∈ known_nicks net' -> cmp m m' = 0 -> m = m') ->
  (forall nc, nc ∈ n_chans net' -> NoDup (members nc) /\ (listing nc = false -> untold nc = []) /\ chan_ok (n_name nc)) ->
  distinct (n_chans net') -> net_ok net'.
Proof.
  intros Hok Hme Hn Hs Hm Hd. split; [done|by apply Forall_forall|done|apply Forall_forall; intros nc Hnc; by destruct (Hm nc Hnc) as (?&?&?)
    |apply Forall_forall; intros nc Hnc; by destruct (Hm nc Hnc) as (?&?&?)|done].
Qed.

Lemma net_ok_chan net nc : net_ok net -> nc ∈ n_chans net -> NoDup (members nc) /\ (listing nc = false -> untold nc = []) /\ chan_ok (n_name nc).
Proof.
  intros Hok Hnc. pose proof (no_members _ Hok) as Hm. pose proof (no_chans _ Hok) as Hc. rewrite Forall_forall in Hm, Hc.
  destruct (Hm nc Hnc). by split_and!; [..|apply Hc].
Qed.

(** Fewer nicks are as good. *)
Lemma net_ok_fewer net net' :
  net_ok net -> n_me net' = n_me net -> (forall m, m ∈ known_nicks net' -> m ∈ known_nicks net) ->
  (forall nc, nc ∈ n_chans net' -> NoDup (members nc) /\ (listing nc = false -> untold nc = []) /\ chan_ok (n_name nc)) ->
  distinct (n_chans net') -> net_ok net'.
Proof.
  intros Hok Hme Hsub Hm Hd. apply (net_ok_change net); [done|rewrite Hme; apply (no_me _ Hok)| | |done|done].
  - intros m Hin. pose proof (no_nicks _ Hok) as Hn. rewrite Forall_forall in Hn. auto.
  - intros m m' H1 H2. apply (no_spelling _ Hok); auto.
Qed.

Lemma distinct_map_if chan f l : (forall nc, n_name (f nc) = n_name nc) -> distinct l -> distinct (map (fun nc => if same chan (n_name nc) then f nc else nc) l).
Proof. intros Hf. apply distinct_map. intros nc. by destruct (same _ _). Qed.

Lemma on_chan_elem chan f net nc :
  nc ∈ n_chans (on_chan chan f net) <->
  exists nc0, nc0 ∈ n_chans net /\ nc = if same chan (n_name nc0) then f nc0 else nc0.
Proof. unfold on_chan. cbn [n_chans]. rewrite list_elem_of_fmap. naive_solver. Qed.

Lemma net_ok_gone net nick chan : net_ok net -> net_ok (gone_from nick chan net).
Proof.
  intros Hok. unfold gone_from. case_bool_decide.
  - apply (net_ok_fewer net); [done|done| | |apply distinct_filter, (no_distinct _ Hok)].
    + intros m. rewrite !known_spec. cbn [off_chan n_me n_chans]. setoid_rewrite list_elem_of_In. setoid_rewrite List.filter_In. naive_solver.
    + intros nc. cbn [off_chan n_chans]. rewrite list_elem_of_In, List.filter_In, <- list_elem_of_In. intros [Hnc _]. by apply (net_ok_chan net).
  - apply (net_ok_fewer net); [done|done| | |by apply distinct_map_if, (no_distinct _ Hok)].
    + intros m. rewrite !known_spec. intros [Hm|(nc & (nc0 & Hnc & ->)%on_chan_elem & Hm)]; [by left|right]. exists nc0. split; [done|].
      destruct (same _ _); [|done]. rewrite members_map in Hm by apply drop_nick_app. by apply drop_nick_spec in Hm as [? _].
    + intros nc (nc0 & Hnc & ->)%on_chan_elem. destruct (net_ok_chan net nc0 Hok Hnc) as (D & L & C). destruct (same _ _); [|done].
      rewrite members_map by apply drop_nick_app. split_and!; [by apply NoDup_list_filter| |done].
      cbn. intros Hl. by rewrite (L Hl).
Qed.

Lemma NoDup_rename old new l : NoDup l -> new ∉ l \/ new = old -> NoDup (rename old new l).
Proof.
  intros Hd Hn. unfold rename. apply NoDup_fmap_2_strong; [|done]. intros x y Hx Hy. do 2 case_bool_decide; subst; try done; intros ->; destruct Hn; congruence.
Qed.

Lemma net_ok_rename net old new :
  net_ok net -> old ∈ known_nicks net -> nick_ok new -> (forall m, m ∈ known_nicks net -> m <> old -> cmp new m <> 0) ->
  net_ok (after (Renames old new) net).
Proof.
  intros Hok Hold Hnew Hfree. pose proof (no_nicks _ Hok) as Hn. rewrite Forall_forall in Hn.
  assert (Hknown : forall m, m ∈ known_nicks (after (Renames old new) net) -> (m ∈ known_nicks net /\ m <> old) \/ m = new).
  { intros m. rewrite known_spec. cbn [after n_me n_chans]. intros [Hm|(nc & (nc0 & -> & Hnc)%list_elem_of_fmap & Hm)].
    - case_bool_decide; [by right|left]. split; [apply known_spec; by left|congruence].
    - rewrite members_map in Hm by apply rename_app. apply rename_spec in Hm as [[Hm Hne]|[-> _] ]; [|by right].
      left. split; [apply known_spec; eauto|done]. }
  assert (Hnn : forall m, m ∈ known_nicks net -> m <> new \/ new = old).
  { intros m Hm. destruct (decide (m = new)) as [->|]; [|by left]. right. destruct (decide (new = old)); [done|].
    exfalso. apply (Hfree new); [done|done|]. apply same_refl, Hnew. }
  apply (net_ok_change net); [done|cbn; case_bool_decide; [done|apply (no_me _ Hok)]| | | |].
  - intros m Hm. destruct (Hknown m Hm) as [[? _]| ->]; auto.
  - intros m m' Hm Hm' Hc. destruct (Hknown m Hm) as [[H1 N1]| ->], (Hknown m' Hm') as [[H2 N2]| ->]; [by apply (no_spelling _ Hok)| | |done].
    + exfalso. apply (Hfree m H1 N1). apply same_sym; [apply (Hn m H1)|apply Hnew|done].
    + exfalso. by apply (Hfree m').
  - intros nc. cbn [after n_chans]. intros (nc0 & -> & Hnc)%list_elem_of_fmap. destruct (net_ok_chan net nc0 Hok Hnc) as (D & L & C).
    rewrite members_map by apply rename_app. split_and!; [|cbn; intros Hl; by rewrite (L Hl)|done].
    apply NoDup_rename; [done|]. destruct (decide (new ∈ members nc0)) as [Hin|]; [|by left]. right.
    destruct (Hnn new); [apply known_spec; eauto|congruence|done].
  - apply distinct_map, (no_distinct _ Hok). done.
Qed.

Lemma hear_names_members ns nc n :
  n ∈ members (hear_names ns nc) <-> n ∈ members nc \/ n ∈ ns.
Proof.
  unfold hear_names, members. destruct (listing nc); cbn [n_name told untold listing];
    rewrite !elem_of_app, !list_elem_of_In, !List.filter_In, <- !list_elem_of_In, !negb_true_iff, !bool_decide_eq_false;
    destruct (decide (n ∈ ns)); unfold members; rewrite ?elem_of_app, ?elem_of_nil; destruct (decide (n ∈ told nc)); tauto.
Qed.

Lemma hear_names_told ns nc n :
  n ∈ told (hear_names ns nc) <-> (n ∈ told nc /\ listing nc = true) \/ n ∈ ns.
Proof.
  unfold hear_names. set (t := told (if listing nc then nc else _)). cbn [told]. fold t.
  assert (Ht : n ∈ t <-> n ∈ told nc /\ listing nc = true).
  { unfold t. destruct (listing nc); cbn [told]; rewrite ?elem_of_nil; naive_solver. }
  rewrite elem_of_app, (list_elem_of_In (List.filter _ _)), List.filter_In, <- list_elem_of_In, negb_true_iff, bool_decide_eq_false, Ht.
  destruct (decide (n ∈ t)) as [Hn|Hn]; rewrite Ht in Hn; tauto.
Qed.

Lemma hear_names_NoDup ns nc : NoDup ns -> NoDup (members nc) -> NoDup (members (hear_names ns nc)).
Proof.
  intros Hns Hd. unfold hear_names. set (nc' := if listing nc then nc else _).
  assert (Hd' : NoDup (members nc')) by by (unfold nc'; destruct (listing nc)). clearbody nc'.
  unfold members in *. cbn [told untold]. apply NoDup_app in Hd' as (D1 & D2 & D3). rewrite !NoDup_app. split_and!.
  - done.
  - intros n Hn. rewrite list_elem_of_In, List.filter_In, negb_true_iff, bool_decide_eq_false. tauto.
  - by apply NoDup_list_filter.
  - intros n. rewrite !elem_of_app, !list_elem_of_In, !List.filter_In, <- !list_elem_of_In, !negb_true_iff, !bool_decide_eq_false.
    intros [Hn|[Hn _] ] [Hu Hno]; [by apply (D2 n)|done].
  - by apply NoDup_list_filter.
Qed.


(** Newcomers are spelled like nobody else. *)
Lemma spelling_more (old new : cstr -> Prop) :
  (forall m, old m \/ new m -> plain m) ->
  (forall m m', old m -> old m' -> cmp m m' = 0 -> m = m') ->
  (forall m m', new m -> old m' \/ new m' -> cmp m m' = 0 -> m = m') ->
  forall m m', old m \/ new m -> old m' \/ new m' -> cmp m m' = 0 -> m = m'.
Proof.
  intros Hp Ho Hn m m' [Hm|Hm] [Hm'|Hm'] Hc; auto. symmetry. apply Hn; auto. apply same_sym; auto.
Qed.

Lemma net_ok_join net nick chan :
  net_ok net -> possible net (Joins nick chan) -> net_ok (after (Joins nick chan) net).
Proof.
  intros Hok (Hk & Hme & Hnew & nc & Hnc & Hc & Hout & Hpc). pose proof (no_nicks _ Hok) as Hn. rewrite Forall_forall in Hn.
  assert (Hknown : forall m, m ∈ known_nicks (after (Joins nick chan) net) -> m ∈ known_nicks net \/ m = nick).
  { intros m. cbn [after]. rewrite !known_spec. intros [Hm|(nc1 & (nc0 & Hnc0 & ->)%on_chan_elem & Hm)]; [by left; left|].
    destruct (same _ _); [|left; right; by exists nc0]. unfold members in Hm. cbn [told untold] in Hm. rewrite !elem_of_app, list_elem_of_singleton in Hm.
    destruct Hm as [[Hm|Hm]|Hm]; [left; right; exists nc0|by right|left; right; exists nc0]; (split; [done|]); unfold members; rewrite elem_of_app; auto. }
  apply (net_ok_change net); [done|apply (no_me _ Hok)| | | |].
  - intros m Hm. destruct (Hknown m Hm) as [?| ->]; auto.
  - intros m m' Hm Hm'. apply (spelling_more (fun m => m ∈ known_nicks net) (fun m => m = nick)); auto.
    + intros x [Hx| ->]; [apply (Hn x Hx)|apply Hk].
    + apply (no_spelling _ Hok).
    + intros x y -> [Hy| ->]; auto.
  - intros nc1. cbn [after]. intros (nc0 & Hnc0 & ->)%on_chan_elem. destruct (net_ok_chan net nc0 Hok Hnc0) as (D & L & C).
    destruct (same chan (n_name nc0)) eqn:Es; [|done]. split_and!; [|done|done]. unfold same in Es. apply Z.eqb_eq in Es.
    assert (nc0 = nc) as ->.
    { apply (one_channel (n_chans net) chan); [done|apply (no_chans _ Hok)|apply (no_distinct _ Hok)|done..]. }
    assert (E : members (NChan (n_name nc) (told nc ++ [nick]) (untold nc) (listing nc)) ≡ₚ nick :: members nc).
    { unfold members. cbn [told untold]. rewrite <- app_assoc. cbn [app]. by rewrite <- Permutation_middle. }
    rewrite E. by constructor.
  - cbn [after]. by apply distinct_map_if, (no_distinct _ Hok).
Qed.

Lemma net_ok_we_join net chan there :
  net_ok net -> possible net (WeJoin chan there) -> net_ok (after (WeJoin chan there) net).
Proof.
  intros Hok (Hck & Hfree & Hd & Ht & Hsp). pose proof (no_nicks _ Hok) as Hn. rewrite Forall_forall in Hn, Ht.
  assert (Hknown : forall m, m ∈ known_nicks (after (WeJoin chan there) net) -> m ∈ known_nicks net \/ m ∈ there).
  { intros m. cbn [after]. rewrite !known_spec. cbn [n_me n_chans]. intros [Hm|(nc & [-> |Hnc]%elem_of_cons & Hm)]; [by left; left|by right|].
    left. right. by exists nc. }
  apply (net_ok_change net); [done|apply (no_me _ Hok)| | | |].
  - intros m Hm. destruct (Hknown m Hm); auto.
  - intros m m' Hm Hm'. apply (spelling_more (fun m => m ∈ known_nicks net) (fun m => m ∈ there)); auto.
    + intros x [Hx|Hx]; [apply (Hn x Hx)|apply (Ht x Hx)].
    + apply (no_spelling _ Hok).
    + intros x y Hx Hy. apply Hsp; [done|]. by rewrite elem_of_app.
  - intros nc. cbn [after n_chans]. intros [-> |Hnc]%elem_of_cons; [done|]. by apply (net_ok_chan net).
  - cbn [after n_chans distinct]. split; [|apply (no_distinct _ Hok)]. apply Forall_forall. cbn [n_name]. auto.
Qed.

Lemma net_ok_after net h : net_ok net -> possible net h -> net_ok (after h net).
Proof.
  intros Hok Hp. pose proof Hp as Hp'. destruct h as [nick chan|chan there|nick chan|nick chan|nick|old new|chan es|chan| |]; cbn [possible] in Hp'.
  - by apply net_ok_join.
  - by apply net_ok_we_join.
  - by apply net_ok_gone.
  - by apply net_ok_gone.
  - apply (net_ok_fewer net); [done|done| | |by apply distinct_map, (no_distinct _ Hok)].
    + intros m. rewrite !known_spec. cbn [after n_me n_chans]. intros [Hm|(nc & (nc0 & -> & Hnc)%list_elem_of_fmap & Hm)]; [by left|right].
      exists nc0. split; [done|]. rewrite members_map in Hm by apply drop_nick_app. by apply drop_nick_spec in Hm as [? _].
    + intros nc. cbn [after n_chans]. intros (nc0 & -> & Hnc)%list_elem_of_fmap. destruct (net_ok_chan net nc0 Hok Hnc) as (D & L & C).
      rewrite members_map by apply drop_nick_app. split_and!; [by apply NoDup_list_filter|cbn; intros Hl; by rewrite (L Hl)|done].
  - destruct Hp' as (Ho & Hn & Hf). by apply net_ok_rename.
  - destruct Hp' as (Hpc & Hes & Hd & nc & Hnc & Hc & Hsub).
    assert (Hone : forall nc0, nc0 ∈ n_chans net -> same chan (n_name nc0) = true -> nc0 = nc).
    { intros nc0 H0 Es. apply Z.eqb_eq in Es. by apply (one_channel (n_chans net) chan); [done|apply (no_chans _ Hok)|apply (no_distinct _ Hok)|..]. }
    apply (net_ok_fewer net); [done|done| | |cbn [after]; apply distinct_map_if, (no_distinct _ Hok)].
    + intros m. cbn [after]. rewrite !known_spec. intros [Hm|(nc1 & (nc0 & Hnc0 & ->)%on_chan_elem & Hm)]; [by left|right].
      exists nc0. split; [done|]. destruct (same chan (n_name nc0)) eqn:Es; [|done]. rewrite (Hone nc0) in * by done.
      apply hear_names_members in Hm as [Hm|Hm]; auto.
    + intros nc1. cbn [after]. intros (nc0 & Hnc0 & ->)%on_chan_elem. destruct (net_ok_chan net nc0 Hok Hnc0) as (D & L & C).
      destruct (same chan (n_name nc0)); [|done]. split_and!; [by apply hear_names_NoDup| |].
      * unfold hear_names. by destruct (listing nc0).
      * unfold hear_names. by destruct (listing nc0).
    + intros nc0. unfold hear_names. by destruct (listing nc0).
  - destruct Hp' as (Hpc & _ & nc & Hnc & Hc & Hu).
    apply (net_ok_fewer net); [done|done| | |cbn [after]; by apply distinct_map_if, (no_distinct _ Hok)].
    + intros m. cbn [after]. rewrite !known_spec. intros [Hm|(nc1 & (nc0 & Hnc0 & ->)%on_chan_elem & Hm)]; [by left|right].
      exists nc0. split; [done|]. by destruct (same _ _).
    + intros nc1. cbn [after]. intros (nc0 & Hnc0 & ->)%on_chan_elem. destruct (net_ok_chan net nc0 Hok Hnc0) as (D & L & C).
      destruct (same chan (n_name nc0)) eqn:Es; [|done]. split_and!; [done| |done]. intros _. cbn.
      assert (nc0 = nc) as ->; [|done]. apply Z.eqb_eq in Es. by apply (one_channel (n_chans net) chan); [done|apply (no_chans _ Hok)|apply (no_distinct _ Hok)|..].
  - done.
  - apply (net_ok_fewer net); [done|done| |by intros nc ?%elem_of_nil|done].
    intros m. rewrite !known_spec. intros [Hm|(nc & ?%elem_of_nil & _)]; [by left|done].
Qed.
End network.
