(* ===== verification/ChannelsSpec.v ===== *)
(** * The user lists show who is on the channels (src/common/inbound.c)

    Against the server of [ChannelsNet] every channel we are on has one window,
    and its user list holds exactly the members the server has told of, over any
    order of joins, parts, kicks, quits, nick changes, NAMES replies and lost
    connections. *)
From S2P Require Import Prelude Glib Casemap Text Tree Access Isupport Userlist UserlistSpec UserlistNicks Modes ModesSpec Server Tags Proto.
From S2P Require Import Scrollback GapLedger Chathistory Catchup CatchupSpec Batches Channels ChannelsNet.

(** ** The part of the client that says who is where *)

Record skeleton := Skel {
  k_nick : cstr; k_cmp : cstr -> cstr -> Z; k_isup : isupport; k_sids : list nat;
  k_wins : gmap nat (session_type * cstr); k_users : gmap nat Userlist.session; k_uh : bool;
  k_front : option nat }.

Definition skel (c : client) : skeleton :=
  Skel (own_nick c) (compare c) (isup (w_serv (windows c))) (sess_list (windows c))
    ((fun s => (s_type s, channel s)) <$> w_sessions (windows c)) (users <$> rooms c) (have_uhnames c) (front_session c).

(** The server as the user list sees it, but for fields the list does not depend on. *)
Definition k_server (k : skeleton) : Userlist.server := Userlist.Server (k_isup k) (k_cmp k) [] false.

Definition uwf (k : skeleton) (u : Userlist.session) : Prop := exists l, wf (k_server k) u l.

(** The list of a window and the channel agree. *)
Definition shows (u : Userlist.session) (nc : nchan) : Prop :=
  (forall n, listed u n <-> n ∈ told nc) /\ end_of_names u = negb (listing nc).

Record faithful (net : network) (k : skeleton) : Prop := {
  f_nick : k_nick k = n_me net; f_uh : Agreed (k_uh k) (k_cmp k) (k_isup k) = n_agreed net; f_front : exists sid, k_front k = Some sid /\ sid ∈ k_sids k;
  f_server : server_ok (k_server k);
  f_blank : forall x, plain x -> k_cmp k x [] = 0 -> x = [];
  f_sids : forall sid, sid ∈ k_sids k <-> is_Some (k_wins k !! sid);
  f_once : NoDup (k_sids k);
  f_rooms : forall sid, is_Some (k_wins k !! sid) <-> is_Some (k_users k !! sid);
  f_plain : forall sid ch, k_wins k !! sid = Some (SESS_CHANNEL, ch) -> plain ch;
  f_users : forall sid u, k_users k !! sid = Some u -> uwf k u;
  f_window : forall sid ch u, k_wins k !! sid = Some (SESS_CHANNEL, ch) -> ch <> [] -> k_users k !! sid = Some u ->
    exists nc, nc ∈ n_chans net /\ k_cmp k ch (n_name nc) = 0 /\ shows u nc;
  f_idle : forall sid t ch u, k_wins k !! sid = Some (t, ch) -> t <> SESS_CHANNEL \/ ch = [] -> k_users k !! sid = Some u ->
    forall n, ~ listed u n;
  f_open : forall nc, nc ∈ n_chans net -> exists sid ch, k_wins k !! sid = Some (SESS_CHANNEL, ch) /\ k_cmp k (n_name nc) ch = 0;
  f_one : forall sid sid' ch ch', k_wins k !! sid = Some (SESS_CHANNEL, ch) -> k_wins k !! sid' = Some (SESS_CHANNEL, ch') ->
    ch <> [] -> k_cmp k ch ch' = 0 -> sid = sid' }.

(** ** What changes nothing *)

Lemma skel_say e c : skel (say e c) = skel c. Proof. done. Qed.
Lemma skel_text sid e args c : skel (text_event sid e args c) = skel c. Proof. done. Qed.
Lemma skel_fe sid e c : skel (fe_call sid e c) = skel c. Proof. done. Qed.
Lemma skel_flags a b d c : skel (set_server_flags a b d c) = skel c. Proof. done. Qed.
Lemma skel_ignores f c : skel (set_ignore_names f c) = skel c. Proof. done. Qed.

Lemma skel_room sid f c : (forall r, users (f r) = users r) -> skel (on_room sid f c) = skel c.
Proof.
  intros Hf. unfold skel, on_room, set_rooms. cbn. f_equal. apply map_eq. intros i. rewrite !lookup_fmap.
  destruct (decide (i = sid)) as [->|]; [rewrite lookup_alter_eq; by destruct (rooms c !! sid); cbn; rewrite ?Hf|by rewrite lookup_alter_ne].
Qed.

(** ** Moving the skeleton *)

Definition k_put (sid : nat) (u : Userlist.session) (k : skeleton) : skeleton :=
  Skel (k_nick k) (k_cmp k) (k_isup k) (k_sids k) (k_wins k) (<[sid := u]> (k_users k)) (k_uh k) (k_front k).
Definition k_name (sid : nat) (ch : cstr) (k : skeleton) : skeleton :=
  Skel (k_nick k) (k_cmp k) (k_isup k) (k_sids k) (alter (fun x => (x.1, ch)) sid (k_wins k)) (k_users k) (k_uh k) (k_front k).
Definition k_call (n : cstr) (k : skeleton) : skeleton :=
  Skel n (k_cmp k) (k_isup k) (k_sids k) (k_wins k) (k_users k) (k_uh k) (k_front k).
Definition k_find (t : session_type) (name : cstr) (k : skeleton) : option nat :=
  List.find (fun sid => match k_wins k !! sid with
                        | Some x => bool_decide (x.1 = t) && (k_cmp k name x.2 =? 0)
                        | None => false
                        end) (k_sids k).

Lemma list_find_ext {A} (p q : A -> bool) l : (forall x, p x = q x) -> List.find p l = List.find q l.
Proof. intros Hpq. induction l as [|x l IH]; [done|]. cbn. by rewrite Hpq, IH. Qed.

Lemma find_skel t name c : find_session t name (windows c) = k_find t name (skel c).
Proof.
  unfold find_session, k_find, skel. cbn. apply list_find_ext. intros sid. rewrite lookup_fmap. by destruct (w_sessions (windows c) !! sid).
Qed.

Lemma skel_users sid c : k_users (skel c) !! sid = users <$> rooms c !! sid.
Proof. cbn. by rewrite lookup_fmap. Qed.
Lemma skel_wins sid c : k_wins (skel c) !! sid = (fun s => (s_type s, channel s)) <$> lookup_session sid c.
Proof. cbn. by rewrite lookup_fmap. Qed.

Lemma on_users__skel sid f c u u' :
  k_users (skel c) !! sid = Some u -> f u = Some u' -> exists c', on_users_ sid f c = Some c' /\ skel c' = k_put sid u' (skel c).
Proof.
  rewrite skel_users. intros (r & Hr & ->)%fmap_Some Hf. unfold on_users_. rewrite Hr. cbn [mbind option_bind]. rewrite Hf. cbn [mbind option_bind].
  eexists. split; [done|]. unfold skel, k_put. cbn. f_equal. apply map_eq. intros i. rewrite !lookup_fmap.
  destruct (decide (i = sid)) as [->|]; [by rewrite lookup_alter_eq, Hr, lookup_insert_eq|by rewrite lookup_alter_ne, lookup_insert_ne, lookup_fmap].
Qed.

Lemma on_users_skel {A} sid (f : Userlist.session -> option (Userlist.session * A)) c u u' a :
  k_users (skel c) !! sid = Some u -> f u = Some (u', a) -> exists c', on_users sid f c = Some (c', a) /\ skel c' = k_put sid u' (skel c).
Proof.
  intros Hu Hf. destruct (on_users__skel sid (fun u => fst <$> f u) c u u' Hu) as (c' & E & Hs); [by rewrite Hf|]. exists c'. split; [|done].
  rewrite skel_users in Hu. apply fmap_Some in Hu as (r & Hr & ->). unfold on_users, on_users_ in *. rewrite Hr in *. cbn [mbind option_bind] in *.
  rewrite Hf in *. simpl in E. simpl. congruence.
Qed.

(** A step of the history that leaves the windows what they are. *)
Record unmoved (v v' : view) : Prop := {
  um_self : self v' = self v;
  um_type : s_type (sess v') = s_type (sess v);
  um_channel : channel (sess v') = channel (sess v);
  um_cmp : p_cmp (serv v') = p_cmp (serv v);
  um_isup : isup (serv v') = isup (serv v) }.

#[export] Instance unmoved_preorder : PreOrder unmoved.
Proof. split; [by split|]. intros a b c [? ? ? ? ?] [? ? ? ? ?]. split; congruence. Qed.

Lemma put_skel c v v' sid :
  look sid (windows c) = Some v -> self v' = self v -> p_cmp (serv v') = p_cmp (serv v) -> isup (serv v') = isup (serv v) ->
  s_type (sess v') = s_type (sess v) ->
  skel (set_windows (fun _ => put v' (windows c)) c) = k_name sid (channel (sess v')) (skel c).
Proof.
  unfold look. intros Hv H1 H2 H3 H4. destruct (w_sessions (windows c) !! sid) as [s|] eqn:Es; [|done]. cbn in Hv. injection Hv as <-. cbn in *.
  unfold skel, k_name, set_windows, set_base, compare, windows, own_nick in *. cbn. rewrite H2, H3. f_equal. apply map_eq. intros i.
  rewrite H1. destruct (decide (i = sid)) as [->|].
  - rewrite lookup_alter_eq, !lookup_fmap, lookup_insert_eq, Es. cbn. by rewrite H4.
  - by rewrite lookup_alter_ne, !lookup_fmap, lookup_insert_ne.
Qed.

Lemma k_name_id sid t ch k : k_wins k !! sid = Some (t, ch) -> k_name sid ch k = k.
Proof.
  intros Hw. unfold k_name. destruct k. cbn in *. f_equal. apply map_eq. intros i.
  destruct (decide (i = sid)) as [->|]; [by rewrite lookup_alter_eq, Hw|by rewrite lookup_alter_ne].
Qed.

Lemma skel_look sid c t ch : k_wins (skel c) !! sid = Some (t, ch) ->
  exists v, look sid (windows c) = Some v /\ self v = sid /\ s_type (sess v) = t /\ channel (sess v) = ch.
Proof.
  rewrite skel_wins. unfold lookup_session, look. intros (s & -> & [= -> ->])%fmap_Some. cbn. by eexists.
Qed.

(** A call of the history that renames the window, or not. *)
Lemma on_view_name sid f c t ch ch' :
  k_wins (skel c) !! sid = Some (t, ch) ->
  (forall v, channel (sess v) = ch -> self (f v) = self v /\ p_cmp (serv (f v)) = p_cmp (serv v) /\ isup (serv (f v)) = isup (serv v) /\
     s_type (sess (f v)) = s_type (sess v) /\ channel (sess (f v)) = ch') ->
  exists c', on_view sid f c = Some c' /\ skel c' = k_name sid ch' (skel c).
Proof.
  intros Hw Hf. destruct (skel_look sid c t ch Hw) as (v & Hv & _ & _ & Hch). destruct (Hf v Hch) as (F1 & F2 & F3 & F4 & F5).
  unfold on_view, on. rewrite Hv. cbn [mbind option_bind]. eexists. split; [done|]. rewrite (put_skel c v (f v) sid Hv F1 F2 F3 F4). by rewrite F5.
Qed.

Lemma on_view_unmoved sid f c t ch :
  k_wins (skel c) !! sid = Some (t, ch) -> (forall v, unmoved v (f v)) -> exists c', on_view sid f c = Some c' /\ skel c' = skel c.
Proof.
  intros Hw Hf. destruct (on_view_name sid f c t ch ch Hw) as (c' & E & Hs).
  - intros v Hv. destruct (Hf v). split_and!; congruence.
  - exists c'. split; [done|]. rewrite Hs. by eapply k_name_id.
Qed.

Lemma ask_view_unmoved {A} sid (f : view -> view * A) c t ch :
  k_wins (skel c) !! sid = Some (t, ch) -> (forall v, unmoved v (f v).1) ->
  exists c' a, ask_view sid f c = Some (c', a) /\ skel c' = skel c.
Proof.
  intros Hw Hf. destruct (skel_look sid c t ch Hw) as (v & Hv & _ & Ht & Hch). destruct (Hf v).
  unfold ask_view. rewrite Hv. cbn [mbind option_bind]. eexists _, _. split; [done|].
  pose proof (put_skel c v (f v).1 sid Hv um_self0 um_cmp0 um_isup0 um_type0) as Hp. etransitivity; [exact Hp|].
  eapply k_name_id. rewrite Hw. f_equal. by rewrite um_channel0, Hch.
Qed.

(** ** Finding the window of a channel *)

Section faith.
Context (net : network) (k : skeleton) (Hf : faithful net k).

Lemma f_cmp : CmpOrder plain (k_cmp k).
Proof. exact (so_cmp _ (f_server _ _ Hf)). Qed.

Lemma find_win t name sid : k_find t name k = Some sid -> exists ch, k_wins k !! sid = Some (t, ch) /\ k_cmp k name ch = 0 /\ sid ∈ k_sids k.
Proof.
  unfold k_find. intros Hs. apply List.find_some in Hs as [Hin Hb]. destruct (k_wins k !! sid) as [[t' ch]|]; [|done].
  apply andb_true_iff in Hb as [Ht Hc]. apply bool_decide_eq_true in Ht. cbn in *. subst. exists ch. split_and!; [done|lia|by apply list_elem_of_In].
Qed.

Lemma find_none t name sid ch : k_find t name k = None -> k_wins k !! sid = Some (t, ch) -> k_cmp k name ch <> 0.
Proof.
  unfold k_find. intros Hn Hw Hc. assert (Hin : sid ∈ k_sids k) by (apply (f_sids _ _ Hf); by eexists).
  apply list_elem_of_In in Hin. pose proof (List.find_none _ _ Hn sid Hin) as Hb. cbn beta in Hb.
  rewrite Hw in Hb. cbn in Hb. rewrite bool_decide_eq_true_2, Hc in Hb by done. done.
Qed.

(** The window of a channel we are on: the one, with its members. *)
Lemma find_open nc chan :
  net_ok (k_cmp k) (k_isup k) net -> nc ∈ n_chans net -> plain chan -> k_cmp k chan (n_name nc) = 0 ->
  exists sid ch u, k_find SESS_CHANNEL chan k = Some sid /\ k_wins k !! sid = Some (SESS_CHANNEL, ch) /\ ch <> [] /\
    k_cmp k ch (n_name nc) = 0 /\ k_users k !! sid = Some u /\ shows u nc.
Proof.
  intros Hok Hnc Hp Hc. pose proof f_cmp as Hcmp. destruct (net_ok_chan _ _ net nc Hok Hnc) as (_ & _ & Hpn & Hne & _).
  assert (Hblank : forall x, plain x -> k_cmp k x (n_name nc) = 0 -> x <> []).
  { intros x Hx Hcx ->. apply Hne. apply (f_blank _ _ Hf); [done|]. by apply same_sym. }
  destruct (k_find SESS_CHANNEL chan k) as [sid|] eqn:Ef.
  - destruct (find_win _ _ _ Ef) as (ch & Hw & Hch & _). pose proof (f_plain _ _ Hf sid ch Hw) as Hpc.
    assert (Hcn : k_cmp k ch (n_name nc) = 0) by (apply (same_trans _ Hcmp ch chan); auto; by apply same_sym).
    assert (Hchn : ch <> []) by auto.
    assert (Hu : is_Some (k_users k !! sid)) by (apply (f_rooms _ _ Hf); by eexists). destruct Hu as [u Hu].
    destruct (f_window _ _ Hf sid ch u Hw Hchn Hu) as (nc' & Hnc' & Hcn' & Hsh).
    assert (nc' = nc) as -> by (by apply (one_channel _ Hcmp (n_chans net) ch); [done|apply (no_chans _ _ _ Hok)|apply (no_distinct _ _ _ Hok)|..]).
    exists sid, ch, u. done.
  - exfalso. destruct (f_open _ _ Hf nc Hnc) as (sid & ch & Hw & Hch). apply (find_none SESS_CHANNEL chan sid ch Ef Hw).
    apply (same_trans _ Hcmp chan (n_name nc)); auto. by apply (f_plain _ _ Hf sid).
Qed.

Lemma find_closed chan :
  plain chan -> chan <> [] -> (forall nc, nc ∈ n_chans net -> k_cmp k chan (n_name nc) <> 0) ->
  net_ok (k_cmp k) (k_isup k) net -> k_find SESS_CHANNEL chan k = None.
Proof.
  intros Hp Hne Hno Hok. pose proof f_cmp as Hcmp. destruct (k_find SESS_CHANNEL chan k) as [sid|] eqn:Ef; [|done]. exfalso.
  destruct (find_win _ _ _ Ef) as (ch & Hw & Hch & _). pose proof (f_plain _ _ Hf sid ch Hw) as Hpc.
  assert (Hchn : ch <> []) by (intros ->; by apply Hne, (f_blank _ _ Hf)).
  assert (Hu : is_Some (k_users k !! sid)) by (apply (f_rooms _ _ Hf); by eexists). destruct Hu as [u Hu].
  destruct (f_window _ _ Hf sid ch u Hw Hchn Hu) as (nc' & Hnc' & Hcn' & _).
  apply (Hno nc' Hnc'), (same_trans _ Hcmp chan ch); auto. by destruct (net_ok_chan _ _ net nc' Hok Hnc') as (_ & _ & ? & _).
Qed.
End faith.

(** ** Keeping faith *)

Lemma uwf_fields k k' u : k_cmp k' = k_cmp k -> k_isup k' = k_isup k -> uwf k u -> uwf k' u.
Proof. intros Hc Hi [l W]. exists l. by apply (wf_server (k_server k)). Qed.

(** Every window is updated for its channel; dialogs may be renamed. *)
Lemma faithful_users net net' k k' g :
  faithful net k -> k_front k' = k_front k -> k_uh k' = k_uh k -> n_agreed net' = n_agreed net ->
  k_nick k' = n_me net' -> k_cmp k' = k_cmp k -> k_isup k' = k_isup k -> k_sids k' = k_sids k ->
  (forall sid, is_Some (k_wins k' !! sid) <-> is_Some (k_wins k !! sid)) ->
  (forall sid t ch, k_wins k' !! sid = Some (t, ch) -> exists ch0, k_wins k !! sid = Some (t, ch0) /\ (t = SESS_CHANNEL -> ch0 = ch)) ->
  n_chans net' = map g (n_chans net) -> (forall nc, n_name (g nc) = n_name nc) ->
  (forall sid, is_Some (k_users k' !! sid) <-> is_Some (k_users k !! sid)) ->
  (forall sid u u', k_users k !! sid = Some u -> k_users k' !! sid = Some u' ->
     uwf k u' /\
     (forall t ch, k_wins k !! sid = Some (t, ch) -> t <> SESS_CHANNEL \/ ch = [] -> (forall n, ~ listed u n) -> forall n, ~ listed u' n) /\
     (forall ch nc, k_wins k !! sid = Some (SESS_CHANNEL, ch) -> nc ∈ n_chans net -> k_cmp k ch (n_name nc) = 0 -> shows u nc -> shows u' (g nc))) ->
  faithful net' k'.
Proof.
  intros Hf Efr Euh Ean En Ec Ei Es Hwd Hw Eg Hg Hud Hu.
  assert (Hw' : forall sid ch, k_wins k !! sid = Some (SESS_CHANNEL, ch) -> k_wins k' !! sid = Some (SESS_CHANNEL, ch)).
  { intros sid ch Hwin. destruct (proj2 (Hwd sid)) as [[t' ch'] Hw1]; [by eexists|]. destruct (Hw sid t' ch' Hw1) as (ch0 & Hw2 & Hch).
    rewrite Hwin in Hw2. injection Hw2 as <- <-. by rewrite Hw1, <- Hch. }
  assert (Hold : forall sid u', k_users k' !! sid = Some u' -> exists u, k_users k !! sid = Some u).
  { intros sid u' Hu'. apply Hud. by eexists. }
  split.
  - done.
  - rewrite Euh, Ec, Ei, Ean. apply (f_uh _ _ Hf).
  - rewrite Efr, Es. apply (f_front _ _ Hf).
  - unfold k_server. rewrite Ec, Ei. apply (f_server _ _ Hf).
  - rewrite Ec. apply (f_blank _ _ Hf).
  - intros sid. rewrite Es, Hwd. apply (f_sids _ _ Hf).
  - rewrite Es. apply (f_once _ _ Hf).
  - intros sid. rewrite Hwd, Hud. apply (f_rooms _ _ Hf).
  - intros sid ch Hwin. destruct (Hw _ _ _ Hwin) as (ch0 & Hw1 & Hch). rewrite <- Hch by done. by apply (f_plain _ _ Hf sid).
  - intros sid u' Hu'. destruct (Hold _ _ Hu') as [u Hu0]. apply (uwf_fields k); [done..|]. by apply (Hu sid u u').
  - intros sid ch u' Hwin Hne Hu'. destruct (Hw _ _ _ Hwin) as (ch0 & Hw1 & Hch). specialize (Hch eq_refl). subst ch0.
    destruct (Hold _ _ Hu') as [u Hu0]. destruct (f_window _ _ Hf sid ch u Hw1 Hne Hu0) as (nc & Hnc & Hc & Hsh).
    exists (g nc). rewrite Ec, Hg. split_and!; [rewrite Eg; by apply list_elem_of_fmap_2|done|].
    destruct (Hu sid u u' Hu0 Hu') as (_ & _ & Hs). by apply (Hs ch).
  - intros sid t ch u' Hwin Hid Hu'. destruct (Hw _ _ _ Hwin) as (ch0 & Hw1 & Hch). destruct (Hold _ _ Hu') as [u Hu0].
    destruct (Hu sid u u' Hu0 Hu') as (_ & Hi & _).
    assert (Hid0 : t <> SESS_CHANNEL \/ ch0 = []).
    { destruct Hid as [|Hid]; [by left|]. destruct (decide (t = SESS_CHANNEL)) as [Ht|]; [right; by rewrite Hch|by left]. }
    apply (Hi t ch0 Hw1 Hid0). by apply (f_idle _ _ Hf sid t ch0 u Hw1).
  - intros nc. rewrite Eg. intros (nc0 & -> & Hnc)%list_elem_of_fmap. rewrite Hg, Ec.
    destruct (f_open _ _ Hf nc0 Hnc) as (sid & ch & Hw1 & Hc). exists sid, ch. split; [by apply Hw'|done].
  - intros sid sid' ch ch' H1 H2. rewrite Ec. destruct (Hw _ _ _ H1) as (c1 & W1 & E1), (Hw _ _ _ H2) as (c2 & W2 & E2).
    rewrite (E1 eq_refl) in W1. rewrite (E2 eq_refl) in W2. by apply (f_one _ _ Hf).
Qed.

(** The window of one channel is updated. *)
Lemma faithful_chan net k chan nc sid ch u u' f :
  faithful net k -> net_ok (k_cmp k) (k_isup k) net -> plain chan -> nc ∈ n_chans net -> k_cmp k chan (n_name nc) = 0 ->
  k_wins k !! sid = Some (SESS_CHANNEL, ch) -> ch <> [] -> k_cmp k ch (n_name nc) = 0 -> k_users k !! sid = Some u ->
  uwf k u' -> (forall nc, n_name (f nc) = n_name nc) -> shows u' (f nc) ->
  faithful (on_chan (k_cmp k) chan f net) (k_put sid u' k).
Proof.
  intros Hf Hok Hp Hnc Hc Hw Hne Hcn Hu Hwf Hfn Hsh. pose proof (f_cmp _ _ Hf) as Hcmp.
  assert (Hone : forall nc', nc' ∈ n_chans net -> k_cmp k chan (n_name nc') = 0 -> nc' = nc).
  { intros nc' Hnc' Hc'. by apply (one_channel _ Hcmp (n_chans net) chan); [done|apply (no_chans _ _ _ Hok)|apply (no_distinct _ _ _ Hok)|..]. }
  apply (faithful_users net _ k _ (fun nc => if same (k_cmp k) chan (n_name nc) then f nc else nc)); try done.
  - apply (f_nick _ _ Hf).
  - intros i t c Hi. by exists c.
  - intros nc'. by destruct (same _ _ _).
  - intros i. cbn [k_put k_users]. destruct (decide (i = sid)) as [->|]; [rewrite lookup_insert_eq, Hu; by split; eexists|by rewrite lookup_insert_ne].
  - intros i ui ui' Hi. cbn [k_put k_users]. destruct (decide (i = sid)) as [->|Hne'].
    + rewrite lookup_insert_eq. intros [= <-]. assert (ui = u) as -> by congruence. split_and!; [done| |].
      * intros t c Hwi Hid. rewrite Hw in Hwi. injection Hwi as <- <-. by destruct Hid.
      * intros c nc' Hwi Hnc' Hc' _. assert (c = ch) as -> by congruence.
        assert (nc' = nc) as -> by (by apply (one_channel _ Hcmp (n_chans net) ch); [apply (f_plain _ _ Hf sid)|apply (no_chans _ _ _ Hok)|apply (no_distinct _ _ _ Hok)|..]).
        unfold same. by rewrite Hc.
    + rewrite lookup_insert_ne by done. intros Hi'. assert (ui' = ui) as -> by congruence. split_and!; [by apply (f_users _ _ Hf i)|done|].
      intros c nc' Hwi Hnc' Hc' Hs'. destruct (same (k_cmp k) chan (n_name nc')) eqn:Es; [|done]. exfalso. apply Z.eqb_eq in Es.
      rewrite (Hone nc' Hnc' Es) in *. apply Hne'. pose proof (f_plain _ _ Hf i c Hwi) as Hpc. pose proof (f_plain _ _ Hf sid ch Hw) as Hpch.
      destruct (net_ok_chan _ _ net nc Hok Hnc) as (_ & _ & Hpn & Hnn & _).
      apply (f_one _ _ Hf i sid c ch Hwi Hw).
      * intros ->. apply Hnn, (f_blank _ _ Hf); [done|]. by apply same_sym.
      * apply (same_trans _ Hcmp c (n_name nc)); auto. by apply same_sym.
Qed.

(** We leave a channel: the window lies idle. *)
Lemma faithful_close net k chan nc sid ch u' :
  faithful net k -> net_ok (k_cmp k) (k_isup k) net -> plain chan -> nc ∈ n_chans net -> k_cmp k chan (n_name nc) = 0 ->
  k_wins k !! sid = Some (SESS_CHANNEL, ch) -> ch <> [] -> k_cmp k ch (n_name nc) = 0 ->
  uwf k u' -> (forall n, ~ listed u' n) ->
  faithful (off_chan (k_cmp k) chan net) (k_put sid u' (k_name sid [] k)).
Proof.
  intros Hf Hok Hp Hnc Hc Hw Hne Hcn Hwf Hno. pose proof (f_cmp _ _ Hf) as Hcmp. pose proof (f_plain _ _ Hf sid ch Hw) as Hpch.
  destruct (net_ok_chan _ _ net nc Hok Hnc) as (_ & _ & Hpn & Hnn & _).
  assert (Hwins : forall i t c, k_wins (k_put sid u' (k_name sid [] k)) !! i = Some (t, c) -> (i = sid /\ t = SESS_CHANNEL /\ c = []) \/ (i <> sid /\ k_wins k !! i = Some (t, c))).
  { intros i t c. cbn. destruct (decide (i = sid)) as [->|]; [rewrite lookup_alter_eq, Hw; cbn; intros [= <- <-]; by left|rewrite lookup_alter_ne by done; by right]. }
  assert (Hkeep : forall i c, i <> sid -> k_wins k !! i = Some (SESS_CHANNEL, c) -> k_wins (k_put sid u' (k_name sid [] k)) !! i = Some (SESS_CHANNEL, c)).
  { intros i c Hi Hc'. cbn. by rewrite lookup_alter_ne. }
  assert (Hdom : forall i, is_Some (k_wins (k_put sid u' (k_name sid [] k)) !! i) <-> is_Some (k_wins k !! i)).
  { intros i. cbn. destruct (decide (i = sid)) as [->|]; [rewrite lookup_alter_eq, Hw; cbn; by split; eexists|by rewrite lookup_alter_ne]. }
  assert (Hus : forall i, is_Some (k_users (k_put sid u' (k_name sid [] k)) !! i) <-> is_Some (k_users k !! i)).
  { intros i. cbn. destruct (decide (i = sid)) as [->|]; [|by rewrite lookup_insert_ne]. rewrite lookup_insert_eq. split; [|by eexists].
    intros _. apply (f_rooms _ _ Hf). by eexists. }
  split.
  - apply (f_nick _ _ Hf).
  - apply (f_uh _ _ Hf).
  - apply (f_front _ _ Hf).
  - apply (f_server _ _ Hf).
  - apply (f_blank _ _ Hf).
  - intros i. rewrite Hdom. apply (f_sids _ _ Hf).
  - apply (f_once _ _ Hf).
  - intros i. rewrite Hdom, Hus. apply (f_rooms _ _ Hf).
  - intros i c Hi. destruct (Hwins _ _ _ Hi) as [(_ & _ & ->)|[_ Hi'] ]; [by apply plainb_spec|by apply (f_plain _ _ Hf i)].
  - intros i u. cbn. destruct (decide (i = sid)) as [->|]; [rewrite lookup_insert_eq; by intros [= <-]|rewrite lookup_insert_ne by done; apply (f_users _ _ Hf)].
  - intros i c u Hi Hcne. destruct (Hwins _ _ _ Hi) as [(_ & _ & ->)|[Hi0 Hi'] ]; [done|]. cbn. rewrite lookup_insert_ne by done. intros Hu.
    destruct (f_window _ _ Hf i c u Hi' Hcne Hu) as (nc' & Hnc' & Hc' & Hs'). exists nc'. split_and!; [|done|done].
    cbn [off_chan n_chans]. rewrite list_elem_of_In, List.filter_In, <- list_elem_of_In. split; [done|]. apply negb_true_iff. unfold same. apply Z.eqb_neq. intros Es.
    apply Hi0. apply (f_one _ _ Hf i sid c ch Hi' Hw Hcne).
    assert (nc' = nc) as -> by (by apply (one_channel _ Hcmp (n_chans net) chan); [done|apply (no_chans _ _ _ Hok)|apply (no_distinct _ _ _ Hok)|..]).
    apply (same_trans _ Hcmp c (n_name nc)); auto; [by apply (f_plain _ _ Hf i)|by apply same_sym].
  - intros i t c u Hi Hid. cbn. destruct (decide (i = sid)) as [->|]; [rewrite lookup_insert_eq; by intros [= <-]|rewrite lookup_insert_ne by done].
    destruct (Hwins _ _ _ Hi) as [[-> _]|[_ Hi'] ]; [done|]. by apply (f_idle _ _ Hf i t c).
  - intros nc'. cbn [off_chan n_chans]. rewrite list_elem_of_In, List.filter_In, <- list_elem_of_In. intros [Hnc' Hs'].
    apply negb_true_iff, Z.eqb_neq in Hs'. destruct (f_open _ _ Hf nc' Hnc') as (i & c & Hi & Hc'). exists i, c. split; [|done].
    apply Hkeep; [|done]. intros ->. assert (c = ch) as -> by congruence. apply Hs'.
    destruct (net_ok_chan _ _ net nc' Hok Hnc') as (_ & _ & Hpn' & _).
    apply (same_trans _ Hcmp chan (n_name nc)); auto. apply (same_trans _ Hcmp (n_name nc) ch); auto; by apply same_sym.
  - intros i j c d Hi Hj Hcne. destruct (Hwins _ _ _ Hi) as [(_ & _ & ->)|[_ Hi'] ]; [done|].
    destruct (Hwins _ _ _ Hj) as [(-> & _ & ->)|[_ Hj'] ].
    + intros Hcd. exfalso. apply Hcne, (f_blank _ _ Hf); [by apply (f_plain _ _ Hf i)|done].
    + by apply (f_one _ _ Hf).
Qed.

(** We join a channel: a window that lay idle, or a new one, is for it. *)
Lemma faithful_opened net k k' sid chan there u' :
  faithful net k -> net_ok (k_cmp k) (k_isup k) net -> possible (k_cmp k) (k_isup k) net (WeJoin chan there) ->
  k_front k' = k_front k -> k_uh k' = k_uh k -> k_nick k' = k_nick k -> k_cmp k' = k_cmp k -> k_isup k' = k_isup k ->
  (forall i, i ∈ k_sids k' <-> i ∈ k_sids k \/ i = sid) -> NoDup (k_sids k') ->
  k_wins k !! sid = Some (SESS_CHANNEL, []) \/ k_wins k !! sid = None ->
  k_wins k' = <[sid := (SESS_CHANNEL, chan)]> (k_wins k) -> k_users k' = <[sid := u']> (k_users k) ->
  uwf k u' -> (forall n, ~ listed u' n) -> end_of_names u' = false ->
  faithful (after (k_cmp k) (WeJoin chan there) net) k'.
Proof.
  intros Hf Hok ((Hp & Hne & _) & Hfree & _) Efr Euh En Ec Ei Hs Hd Hsid Ew Eu Hwf Hno Hend. pose proof (f_cmp _ _ Hf) as Hcmp.
  assert (Hwins : forall i t c, k_wins k' !! i = Some (t, c) -> (i = sid /\ t = SESS_CHANNEL /\ c = chan) \/ (i <> sid /\ k_wins k !! i = Some (t, c))).
  { intros i t c. rewrite Ew. intros [[<- [= <- <-]]|[? ?] ]%lookup_insert_Some; [by left|by right]. }
  assert (Hempty : forall i c, i <> sid -> k_wins k !! i = Some (SESS_CHANNEL, c) -> k_cmp k chan c <> 0).
  { intros i c Hi Hc Hcc. pose proof (f_plain _ _ Hf i c Hc) as Hpc.
    assert (Hcn : c <> []) by (intros ->; by apply Hne, (f_blank _ _ Hf)).
    assert (Hu : is_Some (k_users k !! i)) by (apply (f_rooms _ _ Hf); by eexists). destruct Hu as [u Hu].
    destruct (f_window _ _ Hf i c u Hc Hcn Hu) as (nc & Hnc & Hcc' & _). apply (Hfree nc Hnc).
    destruct (net_ok_chan _ _ net nc Hok Hnc) as (_ & _ & Hpn & _). by apply (same_trans _ Hcmp chan c). }
  split.
  - rewrite En. apply (f_nick _ _ Hf).
  - rewrite Euh, Ec, Ei. apply (f_uh _ _ Hf).
  - rewrite Efr. destruct (f_front _ _ Hf) as (i & Hi & Hin). exists i. split; [done|]. apply Hs. by left.
  - unfold k_server. rewrite Ec, Ei. apply (f_server _ _ Hf).
  - rewrite Ec. apply (f_blank _ _ Hf).
  - intros i. rewrite Hs, (f_sids _ _ Hf), Ew, lookup_insert_is_Some. destruct (decide (sid = i)); naive_solver.
  - done.
  - intros i. rewrite Ew, Eu, !lookup_insert_is_Some, (f_rooms _ _ Hf). done.
  - intros i c Hi. destruct (Hwins _ _ _ Hi) as [(_ & _ & ->)|[_ Hi'] ]; [done|by apply (f_plain _ _ Hf i)].
  - intros i u. rewrite Eu. intros [[<- <-]|[_ Hi] ]%lookup_insert_Some; apply (uwf_fields k); try done. by apply (f_users _ _ Hf i).
  - intros i c u Hi Hcne. rewrite Eu, Ec. cbn [after n_chans]. destruct (Hwins _ _ _ Hi) as [(-> & _ & ->)|[Hi0 Hi'] ].
    + rewrite lookup_insert_eq. intros [= <-]. eexists. split; [by apply list_elem_of_here|]. cbn [n_name]. split; [by apply same_refl|].
      split; [|done]. intros n. cbn [told]. rewrite elem_of_nil. split; [apply Hno|done].
    + rewrite lookup_insert_ne by done. intros Hu. destruct (f_window _ _ Hf i c u Hi' Hcne Hu) as (nc & Hnc & Hrest).
      exists nc. split; [by apply list_elem_of_further|done].
  - intros i t c u Hi Hid. rewrite Eu. destruct (Hwins _ _ _ Hi) as [(-> & -> & ->)|[Hi0 Hi'] ]; [by destruct Hid|].
    rewrite lookup_insert_ne by done. by apply (f_idle _ _ Hf i t c).
  - intros nc. cbn [after n_chans]. rewrite Ec. intros [->|Hnc]%elem_of_cons.
    + exists sid, chan. rewrite Ew, lookup_insert_eq. split; [done|]. by apply same_refl.
    + destruct (f_open _ _ Hf nc Hnc) as (i & c & Hi & Hc). exists i, c. split; [|done]. rewrite Ew, lookup_insert_ne; [done|]. intros ->.
      destruct (net_ok_chan _ _ net nc Hok Hnc) as (_ & _ & Hpn & Hnn & _). destruct Hsid as [Hsid|Hsid]; rewrite Hsid in Hi; [|done].
      injection Hi as <-. by apply Hnn, (f_blank _ _ Hf).
  - intros i j c d Hi Hj. rewrite Ec. intros Hcne Hcd. destruct (Hwins _ _ _ Hi) as [(-> & _ & ->)|[Hi0 Hi'] ], (Hwins _ _ _ Hj) as [(-> & _ & ->)|[Hj0 Hj'] ].
    + done.
    + by destruct (Hempty j d Hj0 Hj').
    + exfalso. apply (Hempty i c Hi0 Hi'). apply same_sym; [done|by apply (f_plain _ _ Hf i)|done|done].
    + by apply (f_one _ _ Hf i j c d).
Qed.

(** Every channel is left at once. *)
Lemma faithful_lost net k k' :
  faithful net k -> k_front k' = k_front k -> k_uh k' = k_uh k -> k_nick k' = k_nick k -> k_cmp k' = k_cmp k -> k_isup k' = k_isup k -> k_sids k' = k_sids k ->
  (forall sid, is_Some (k_wins k' !! sid) <-> is_Some (k_wins k !! sid)) ->
  (forall sid ch, k_wins k' !! sid = Some (SESS_CHANNEL, ch) -> ch = []) ->
  (forall sid, is_Some (k_users k' !! sid) <-> is_Some (k_users k !! sid)) ->
  (forall sid u, k_users k' !! sid = Some u -> uwf k u /\ forall n, ~ listed u n) ->
  faithful (Network (n_agreed net) (n_me net) []) k'.
Proof.
  intros Hf Efr Euh En Ec Ei Es Hw Hch Hu Hall. split.
  - rewrite En. apply (f_nick _ _ Hf).
  - rewrite Euh, Ec, Ei. apply (f_uh _ _ Hf).
  - rewrite Efr, Es. apply (f_front _ _ Hf).
  - unfold k_server. rewrite Ec, Ei. apply (f_server _ _ Hf).
  - rewrite Ec. apply (f_blank _ _ Hf).
  - intros sid. rewrite Es, Hw. apply (f_sids _ _ Hf).
  - rewrite Es. apply (f_once _ _ Hf).
  - intros sid. rewrite Hw, Hu. apply (f_rooms _ _ Hf).
  - intros sid ch Hs. rewrite (Hch _ _ Hs). by apply plainb_spec.
  - intros sid u Hs. apply (uwf_fields k); [done..|]. by destruct (Hall sid u Hs).
  - intros sid ch u Hs Hne. by rewrite (Hch _ _ Hs) in Hne.
  - intros sid t ch u _ _ Hs. by destruct (Hall sid u Hs).
  - intros nc ?%elem_of_nil. done.
  - intros sid sid' ch ch' Hs _ Hne. by rewrite (Hch _ _ Hs) in Hne.
Qed.

(** ** Lines that do not concern the membership *)

(** The same windows with the same people. *)
Record calm (k k' : skeleton) : Prop := {
  ca_front : k_front k' = k_front k; ca_uh : k_uh k' = k_uh k; ca_nick : k_nick k' = k_nick k; ca_cmp : k_cmp k' = k_cmp k; ca_isup : k_isup k' = k_isup k;
  ca_sids : k_sids k' = k_sids k; ca_wins : k_wins k' = k_wins k;
  ca_dom : forall sid, is_Some (k_users k' !! sid) <-> is_Some (k_users k !! sid);
  ca_users : forall sid u u', k_users k !! sid = Some u -> k_users k' !! sid = Some u' -> alike u u' /\ (uwf k u -> uwf k u') }.

#[export] Instance calm_preorder : PreOrder calm.
Proof.
  split.
  - intros k. split; [done..|]. intros sid u u' H1 H2. assert (u' = u) as -> by congruence. by split.
  - intros a b c [Af A0 A1 A2 A3 A4 A5 A6 A7] [Bf B0 B1 B2 B3 B4 B5 B6 B7]. split; [congruence..| |].
    + intros sid. by rewrite B6, A6.
    + intros sid u u' Hu Hu'. assert (Hb : is_Some (k_users b !! sid)) by (apply A6; by eexists). destruct Hb as [ub Hb].
      destruct (A7 sid u ub Hu Hb) as [C1 C2], (B7 sid ub u' Hb Hu') as [D1 D2]. split; [by etrans|].
      intros Hwf. apply (uwf_fields b); [done..|]. apply D2. apply (uwf_fields a); [done..|]. by apply C2.
Qed.

Lemma faithful_calm net k k' : faithful net k -> calm k k' -> faithful net k'.
Proof.
  intros Hf [Cf C0 C1 C2 C3 C4 C5 C6 C7]. apply (faithful_users net net k k' id); try done.
  - rewrite C1. apply (f_nick _ _ Hf).
  - intros sid. by rewrite C5.
  - intros sid t ch. rewrite C5. intros Hw. by exists ch.
  - symmetry. apply List.map_id.
  - intros sid u u' Hu Hu'. destruct (C7 sid u u' Hu Hu') as [Ha Hwf]. split_and!.
    + apply Hwf. by apply (f_users _ _ Hf sid).
    + intros _ _ _ _ Hno n Hn. apply (Hno n). by apply (listed_alike u u').
    + intros ch nc _ _ _ [S1 S2]. split; [intros n; rewrite <- S1; by apply listed_alike|]. by rewrite (al_end _ _ Ha).
Qed.

Lemma calm_put k sid u u' : k_users k !! sid = Some u -> alike u u' -> (uwf k u -> uwf k u') -> calm k (k_put sid u' k).
Proof.
  intros Hu Ha Hwf. split; try done.
  - intros i. cbn. destruct (decide (i = sid)) as [->|]; [rewrite lookup_insert_eq, Hu; by split; eexists|by rewrite lookup_insert_ne].
  - intros i v v' Hv. cbn. destruct (decide (i = sid)) as [->|]; [rewrite lookup_insert_eq|rewrite lookup_insert_ne by done].
    + intros [= <-]. assert (v = u) as -> by congruence. by split.
    + intros Hv'. assert (v' = v) as -> by congruence. by split.
Qed.

(** ** The handlers *)

Section handlers.
Context (G : GLib) (Sq : Sqlite) (GL : GLibLaws G).

Lemma user_server_ok net c : faithful net (skel c) -> server_ok (user_server c).
Proof. intros Hf. destruct (f_server _ _ Hf) as [A1 A2 A3 A4]. by split. Qed.

Lemma uwf_user c u : uwf (skel c) u <-> exists l, wf (user_server c) u l.
Proof. split; intros [l W]; exists l; eapply wf_server; try exact W; done. Qed.

Lemma window_users net c sid : faithful net (skel c) -> is_Some (k_wins (skel c) !! sid) ->
  exists u, k_users (skel c) !! sid = Some u /\ exists l, wf (user_server c) u l.
Proof.
  intros Hf Hw. destruct (proj1 (f_rooms _ _ Hf sid) Hw) as [u Hu]. exists u. split; [done|]. apply uwf_user. by apply (f_users _ _ Hf sid).
Qed.

Lemma lookup_user_ok net c sid name : faithful net (skel c) -> is_Some (k_wins (skel c) !! sid) -> plain name ->
  exists o, lookup_user sid name c = Some o.
Proof.
  intros Hf Hw Hn. destruct (window_users net c sid Hf Hw) as (u & Hu & l & W). rewrite skel_users in Hu. apply fmap_Some in Hu as (r & Hr & ->).
  unfold lookup_user. rewrite Hr. cbn [mbind option_bind].
  destruct (find_result (user_server c) (user_server_ok net c Hf) (users r) l name W Hn) as (o & -> & Ho). cbn [mbind option_bind].
  destruct o as [u|]; [|by eexists]. destruct Ho as (x & _ & -> & _). by eexists.
Qed.

Lemma nick_listed net k nc sid u n m :
  faithful net k -> net_ok (k_cmp k) (k_isup k) net -> nc ∈ n_chans net -> k_users k !! sid = Some u -> shows u nc ->
  n ∈ known_nicks net -> listed u m -> k_cmp k n m = 0 -> n = m.
Proof.
  intros Hf Hok Hnc Hu [Hs _] Hn Hm Hc. apply (no_spelling _ _ _ Hok); [done| |done]. apply known_spec. right. exists nc. split; [done|].
  unfold members. rewrite elem_of_app. left. by apply Hs.
Qed.

Lemma known_plain cmp isp net n : net_ok cmp isp net -> n ∈ known_nicks net -> plain n.
Proof. intros Hok Hn. pose proof (no_nicks _ _ _ Hok) as Ha. rewrite Forall_forall in Ha. apply (Ha n Hn). Qed.

Lemma inbound_join_faithful net c chan nick host acc realname :
  faithful net (skel c) -> net_ok (compare c) (k_isup (skel c)) net -> possible (compare c) (k_isup (skel c)) net (Joins nick chan) ->
  exists c', inbound_join chan nick host acc realname c = Some c' /\ faithful (after (compare c) (Joins nick chan) net) (skel c').
Proof.
  intros Hf Hok ((Hp & Hne & Hlen & _ & Hhd) & Hme & Hnew & nc & Hnc & Hc & Hout & Hpc).
  destruct (find_open net (skel c) Hf nc chan Hok Hnc Hpc Hc) as (sid & ch & u & Hfind & Hw & Hchn & Hcn & Hu & Hsh).
  unfold inbound_join, find_channel. rewrite find_skel, Hfind.
  set (c1 := text_event sid XP_TE_JOIN _ c). assert (E1 : skel c1 = skel c) by done.
  destruct (proj1 (uwf_user c u) (f_users _ _ Hf sid u Hu)) as [l W].
  destruct (add_listed (user_server c) (user_server_ok net c Hf) u l [] nick (Some host) acc realname W) as (u' & l' & Ea & W' & Eend & Hcase);
    [constructor|constructor|done|done|]. cbn [app] in Ea.
  destruct (on_users__skel sid (fun u => userlist_add (user_server c) u nick (Some host) acc realname) c1 u u') as (c2 & E2 & Hs2); [done|done|].
  rewrite E2. cbn [mbind option_bind]. eexists. split; [done|]. rewrite skel_say, Hs2, E1. cbn [after].
  apply (faithful_chan net (skel c) chan nc sid ch u); try done; [apply uwf_user; by exists l'|].
  destruct Hsh as [S1 S2]. rewrite (take_ge nick 63) in Hcase by done. split; [|by rewrite Eend].
  intros n. cbn [told]. rewrite elem_of_app, list_elem_of_singleton, <- S1. destruct Hcase as [[(m & Hm & Hcm) _]|[_ Hc']]; [|by apply Hc'].
  exfalso. apply Hout. assert (Hmm : m ∈ members nc) by (unfold members; rewrite elem_of_app; left; by apply S1).
  assert (nick = m) as ->; [|done]. apply Hnew; [|done]. apply known_spec. right. by exists nc.
Qed.

(** Somebody else leaves a channel. *)
Lemma leave_faithful net c chan nick announce :
  faithful net (skel c) -> net_ok (compare c) (k_isup (skel c)) net -> nick <> n_me net ->
  possible (compare c) (k_isup (skel c)) net (Leaves nick chan) -> (forall sid c, skel (announce sid c) = skel c) ->
  exists c', leave chan nick announce c = Some c' /\ faithful (gone_from (compare c) nick chan net) (skel c').
Proof.
  intros Hf Hok Hme (Hpc & nc & Hnc & Hc & [?|Hin]) Hann; [done|].
  destruct (find_open net (skel c) Hf nc chan Hok Hnc Hpc Hc) as (sid & ch & u & Hfind & Hw & Hchn & Hcn & Hu & Hsh).
  assert (Hk : nick ∈ known_nicks net) by (apply known_spec; right; by exists nc). pose proof (known_plain _ _ _ _ Hok Hk) as Hp.
  unfold leave, find_channel. rewrite find_skel, Hfind. destruct (lookup_user_ok net c sid nick Hf) as [o ->]; [by eexists|done|]. cbn [mbind option_bind].
  set (c1 := announce sid c). assert (E1 : skel c1 = skel c) by apply Hann.
  destruct (proj1 (uwf_user c u) (f_users _ _ Hf sid u Hu)) as [l W].
  destruct (remove_listed (user_server c) (user_server_ok net c Hf) u l nick W Hp) as (u' & b & l' & Er & W' & Eend & Hl).
  destruct (on_users_skel sid (fun s => userlist_remove (user_server c) s nick) c1 u u' b) as (c2 & E2 & Hs2); [by rewrite E1|done|].
  rewrite E2. cbn [mbind option_bind]. eexists. split; [done|].
  assert (Hsk : skel (cleared_account (o ≫= Userlist.account) c2) = skel c2) by (unfold cleared_account; by destruct (o ≫= _)).
  rewrite Hsk, Hs2, E1. unfold gone_from. rewrite bool_decide_eq_false_2 by done.
  apply (faithful_chan net (skel c) chan nc sid ch u); try done; [apply uwf_user; by exists l'|].
  destruct Hsh as [S1 S2]. split; [|by rewrite Eend]. intros n. cbn [map_members told]. rewrite drop_nick_spec, <- S1, Hl.
  change (Userlist.p_cmp (user_server c)) with (k_cmp (skel c)). split; intros [H1 H2]; (split; [done|]).
  - intros ->. apply H2. apply same_refl; [apply (f_cmp _ _ Hf)|done].
  - intros Hcc. apply H2. symmetry. apply (nick_listed net (skel c) nc sid u); done.
Qed.
(** A loop over the windows in which each step is about its own window. *)
Record touched (R : Userlist.session -> Userlist.session -> Prop) (sid : nat) (k k' : skeleton) : Prop := {
  t_front : k_front k' = k_front k; t_uh : k_uh k' = k_uh k; t_nick : k_nick k' = k_nick k; t_cmp : k_cmp k' = k_cmp k; t_isup : k_isup k' = k_isup k; t_sids : k_sids k' = k_sids k;
  t_wins : forall i, i <> sid -> k_wins k' !! i = k_wins k !! i;
  t_win : forall t ch, k_wins k !! sid = Some (t, ch) -> exists ch', k_wins k' !! sid = Some (t, ch') /\ (t = SESS_CHANNEL -> ch' = ch);
  t_users : forall i, i <> sid -> k_users k' !! i = k_users k !! i;
  t_user : forall u, k_users k !! sid = Some u -> exists u', k_users k' !! sid = Some u' /\ R u u' }.

Lemma touched_put (R : Userlist.session -> Userlist.session -> Prop) sid k u u' :
  k_users k !! sid = Some u -> R u u' -> touched R sid k (k_put sid u' k).
Proof.
  intros Hu HR. split; try done.
  - intros t ch Hw. by exists ch.
  - intros i Hi. cbn. by rewrite lookup_insert_ne.
  - intros v Hv. cbn. rewrite lookup_insert_eq. assert (v = u) as -> by congruence. by exists u'.
Qed.

(** The loop so far, from [k0]: the windows of [l] are done. *)
Record all_touched (R : nat -> Userlist.session -> Userlist.session -> Prop) (l : list nat) (k0 k : skeleton) : Prop := {
  at_front : k_front k = k_front k0; at_uh : k_uh k = k_uh k0; at_nick : k_nick k = k_nick k0; at_cmp : k_cmp k = k_cmp k0; at_isup : k_isup k = k_isup k0; at_sids : k_sids k = k_sids k0;
  at_wins : forall i, i ∉ l -> k_wins k !! i = k_wins k0 !! i;
  at_win : forall i, i ∈ l -> forall t ch, k_wins k0 !! i = Some (t, ch) -> exists ch', k_wins k !! i = Some (t, ch') /\ (t = SESS_CHANNEL -> ch' = ch);
  at_users : forall i, i ∉ l -> k_users k !! i = k_users k0 !! i;
  at_user : forall i, i ∈ l -> forall u, k_users k0 !! i = Some u -> exists u', k_users k !! i = Some u' /\ R i u u' }.

Lemma for_sessions_touch R f k0 l done_ c :
  NoDup (done_ ++ l) -> all_touched R done_ k0 (skel c) ->
  (forall sid c, sid ∈ l -> k_nick (skel c) = k_nick k0 -> k_cmp (skel c) = k_cmp k0 -> k_isup (skel c) = k_isup k0 ->
     k_wins (skel c) !! sid = k_wins k0 !! sid -> k_users (skel c) !! sid = k_users k0 !! sid ->
     exists c', f sid c = Some c' /\ touched (R sid) sid (skel c) (skel c')) ->
  exists c', for_sessions f l c = Some c' /\ all_touched R (done_ ++ l) k0 (skel c').
Proof.
  revert done_ c. induction l as [|sid l IH]; intros done_ c Hd Ha Hstep; cbn [for_sessions]; [exists c; by rewrite app_nil_r|].
  assert (Hsid : sid ∉ done_). { apply NoDup_app in Hd as (_ & Hd & _). intros Hin. apply (Hd sid Hin). by left. }
  destruct Ha as [Af A0 A1 A2 A3 A4 A5 A6 A7 A8].
  destruct (Hstep sid c) as (c1 & E1 & [Tf T0 T1 T2 T3 T4 T5 T6 T7 T8]); [by left|done|done|done|by apply A5|by apply A7|].
  rewrite E1. cbn [mbind option_bind]. replace (done_ ++ sid :: l) with ((done_ ++ [sid]) ++ l) in * by by rewrite <- app_assoc.
  apply IH; [done| |intros i c' Hi; apply Hstep; by right].
  split; [congruence..| | | |].
  - intros i Hi. rewrite elem_of_app, list_elem_of_singleton in Hi. rewrite T5, A5; tauto.
  - intros i Hi t ch Hw. destruct (decide (i = sid)) as [->|Hne]; [apply T6; by rewrite A5|]. rewrite T5 by done.
    apply A6; [|done]. rewrite elem_of_app, list_elem_of_singleton in Hi. tauto.
  - intros i Hi. rewrite elem_of_app, list_elem_of_singleton in Hi. rewrite T7, A7; tauto.
  - intros i Hi u Hu. destruct (decide (i = sid)) as [->|Hne]; [apply T8; by rewrite A7|]. rewrite T7 by done.
    apply A8; [|done]. rewrite elem_of_app, list_elem_of_singleton in Hi. tauto.
Qed.

(** Over all windows. *)
Lemma each_session_touch R f net c :
  faithful net (skel c) ->
  (forall sid c1, sid ∈ k_sids (skel c) -> k_nick (skel c1) = k_nick (skel c) -> k_cmp (skel c1) = k_cmp (skel c) -> k_isup (skel c1) = k_isup (skel c) ->
     k_wins (skel c1) !! sid = k_wins (skel c) !! sid -> k_users (skel c1) !! sid = k_users (skel c) !! sid ->
     exists c', f sid c1 = Some c' /\ touched (R sid) sid (skel c1) (skel c')) ->
  exists c', each_session f c = Some c' /\ all_touched R (k_sids (skel c)) (skel c) (skel c').
Proof.
  intros Hf Hstep. unfold each_session. change (sess_list (windows c)) with (k_sids (skel c)).
  apply (for_sessions_touch R f (skel c) (k_sids (skel c)) [] c); [apply (f_once _ _ Hf)| |done].
  split; try done; intros i Hi; by apply elem_of_nil in Hi.
Qed.

(** What a loop over all windows must do to each list for the network to have changed by [g]. *)
Lemma faithful_all net net' k k' g R :
  faithful net k -> all_touched R (k_sids k) k k' -> n_agreed net' = n_agreed net -> n_me net' = k_nick k' ->
  n_chans net' = map g (n_chans net) -> (forall nc, n_name (g nc) = n_name nc) ->
  (forall sid u u', k_users k !! sid = Some u -> R sid u u' ->
     uwf k u' /\
     ((forall n, ~ listed u n) -> forall n, ~ listed u' n) /\
     (forall nc, nc ∈ n_chans net -> shows u nc -> shows u' (g nc))) ->
  faithful net' k'.
Proof.
  intros Hf [Af A0 A1 A2 A3 A4 A5 A6 A7 A8] Huh Hme Hg1 Hg2 HR.
  assert (Hin : forall sid, is_Some (k_wins k !! sid) -> sid ∈ k_sids k) by (intros sid; apply (f_sids _ _ Hf)).
  assert (Hwd : forall sid, is_Some (k_wins k' !! sid) <-> is_Some (k_wins k !! sid)).
  { intros sid. destruct (decide (sid ∈ k_sids k)) as [Hs|Hs]; [|by rewrite A5]. split; [intros _; by apply (f_sids _ _ Hf)|].
    intros [[t ch] Hw]. destruct (A6 sid Hs t ch Hw) as (ch' & -> & _). by eexists. }
  assert (Hud : forall sid, is_Some (k_users k' !! sid) <-> is_Some (k_users k !! sid)).
  { intros sid. destruct (decide (sid ∈ k_sids k)) as [Hs|Hs]; [|by rewrite A7]. split; [intros _; apply (f_rooms _ _ Hf), (f_sids _ _ Hf), Hs|].
    intros [u Hu]. destruct (A8 sid Hs u Hu) as (u' & -> & _). by eexists. }
  apply (faithful_users net net' k k' g); try done.
  - intros sid t ch Hw. destruct (proj1 (Hwd sid)) as [[t0 ch0] Hw0]; [by eexists|]. destruct (A6 sid (Hin sid ltac:(by eexists)) t0 ch0 Hw0) as (ch' & Hw' & Hch).
    rewrite Hw in Hw'. injection Hw' as <- <-. exists ch0. split; [done|]. intros Ht. by rewrite Hch.
  - intros sid u u' Hu Hu'. assert (Hs : sid ∈ k_sids k) by (apply Hin, (f_rooms _ _ Hf); by eexists).
    destruct (A8 sid Hs u Hu) as (u1 & Hu1 & HR1). assert (u1 = u') as -> by congruence. destruct (HR sid u u' Hu HR1) as (H1 & H2 & H3).
    split_and!; [done|intros _ _ _ _; by apply H2|]. intros ch nc _ Hnc _. by apply H3.
Qed.
(** One window of [inbound_quit]. *)
Definition quit_one (nick host reason : cstr) (sid : nat) (c : client) : option client :=
  s ← lookup_session sid c;
  r ← rooms c !! sid;
  found ← userlist_find (user_server c) (users r) nick;
  match found with
  | Some u =>
      x ← heap (users r) !! u;
      on_users_ sid (userlist_remove_user (user_server c) u) (text_event sid XP_TE_QUIT [nick; reason; host] c)
  | None =>
      Some (if bool_decide (s_type s = SESS_DIALOG) && (compare c (channel s) nick =? 0)
            then text_event sid XP_TE_QUIT [nick; reason; host] c else c)
  end.

Lemma quit_sessions_steps nick host reason sids acc c :
  fst <$> quit_sessions nick host reason sids acc c = for_sessions (quit_one nick host reason) sids c.
Proof.
  revert acc c. induction sids as [|sid sids IH]; intros acc c; [done|]. cbn [quit_sessions for_sessions]. unfold quit_one.
  destruct (lookup_session sid c) as [s|]; [|done]. destruct (rooms c !! sid) as [r|]; [|done]. cbn [mbind option_bind].
  destruct (userlist_find _ _ _) as [ [u|]|]; cbn [mbind option_bind]; [|apply IH|done].
  destruct (heap (users r) !! u) as [x|]; [|done]. cbn [mbind option_bind]. destruct (on_users_ _ _ _) as [c1|]; [apply IH|done].
Qed.

(** What a list is after somebody of the name has gone. *)
Definition without (k : skeleton) (nick : cstr) (u u' : Userlist.session) : Prop :=
  uwf k u' /\ end_of_names u' = end_of_names u /\ forall n, listed u' n <-> listed u n /\ k_cmp k nick n <> 0.

Lemma quit_one_ok k0 nick host reason sid c1 u :
  server_ok (k_server k0) -> k_cmp (skel c1) = k_cmp k0 -> k_isup (skel c1) = k_isup k0 ->
  is_Some (k_wins (skel c1) !! sid) -> k_users (skel c1) !! sid = Some u -> uwf k0 u -> plain nick ->
  exists c', quit_one nick host reason sid c1 = Some c' /\ touched (without k0 nick) sid (skel c1) (skel c').
Proof.
  intros Hs Hc Hi Hw Hu [l W] Hn.
  assert (Hcc : Userlist.p_cmp (user_server c1) = k_cmp k0) by exact Hc.
  assert (Hii : Userlist.isup (user_server c1) = k_isup k0) by exact Hi.
  assert (Hok : server_ok (user_server c1)) by (destruct Hs as [S1 S2 S3 S4 S5]; split; rewrite ?Hcc, ?Hii; done).
  assert (W1 : wf (user_server c1) u l) by (by apply (wf_server (k_server k0))).
  unfold quit_one. rewrite skel_wins in Hw. destruct (lookup_session sid c1) as [s|]; [|by destruct Hw]. cbn [mbind option_bind].
  pose proof Hu as Hu0. rewrite skel_users in Hu. apply fmap_Some in Hu as (r & Hr & ->). rewrite Hr. cbn [mbind option_bind].
  destruct (listed_find (user_server c1) Hok (users r) l nick W1 Hn) as (o & Ef & Ho). rewrite Ef. cbn [mbind option_bind].
  destruct o as [v|].
  - destruct Ho as (n0 & Hv & _ & _). apply hn_lookup in Hv as (x & Hx & _). rewrite Hx. cbn [mbind option_bind].
    destruct (quit_listed (user_server c1) Hok (users r) l nick v W1 Hn Ef) as (u' & l' & E & W' & Eend & Hl).
    destruct (on_users__skel sid (userlist_remove_user (user_server c1) v) (text_event sid XP_TE_QUIT [nick; reason; host] c1) (users r) u') as (c2 & E2 & Hs2); [done|done|].
    exists c2. split; [done|]. rewrite Hs2. apply (touched_put _ sid _ (users r)); [done|]. split_and!; [|done|by rewrite <- Hcc].
    exists l'. by apply (wf_server (user_server c1)).
  - eexists. split; [done|]. assert (Hsk : forall b : bool, skel (if b then text_event sid XP_TE_QUIT [nick; reason; host] c1 else c1) = skel c1) by by intros [].
    rewrite Hsk. assert (Hid : skel c1 = k_put sid (users r) (skel c1)).
    { unfold k_put. destruct (skel c1) as [k1 k2 k3 k4 k5 k6 k7]. cbn in *. f_equal. by rewrite insert_id. }
    rewrite Hid at 2. apply (touched_put _ sid _ (users r)); [done|]. split_and!; [by exists l|done|]. intros n. rewrite <- Hcc. split; [|by intros [? _] ].
    intros Hln. split; [done|by apply Ho].
Qed.

Lemma inbound_quit_faithful net c nick host reason :
  faithful net (skel c) -> net_ok (compare c) (k_isup (skel c)) net -> possible (compare c) (k_isup (skel c)) net (Quits nick) ->
  exists c', inbound_quit nick host reason c = Some c' /\ faithful (after (compare c) (Quits nick) net) (skel c').
Proof.
  intros Hf Hok (Hme & Hk). pose proof (known_plain _ _ _ _ Hok Hk) as Hp.
  destruct (each_session_touch (fun _ => without (skel c) nick) (quit_one nick host reason) net c Hf) as (c1 & E1 & Ht).
  { intros sid c1 Hin Hn Hc Hi Hw Hu. apply (f_sids _ _ Hf) in Hin as Hwin. destruct (proj1 (f_rooms _ _ Hf sid) Hwin) as [u Hu0].
    apply (quit_one_ok (skel c) nick host reason sid c1 u); try done; [apply (f_server _ _ Hf)|by rewrite Hw|by rewrite Hu|by apply (f_users _ _ Hf sid)]. }
  unfold inbound_quit. unfold each_session in E1. rewrite <- (quit_sessions_steps nick host reason _ None) in E1.
  destruct (quit_sessions nick host reason (sess_list (windows c)) None c) as [[c2 acc]|] eqn:E2; [|done]. cbn in E1. injection E1 as ->.
  cbn [mbind option_bind]. eexists. split; [done|]. rewrite skel_say.
  assert (Hsk : skel (cleared_account acc c1) = skel c1) by (unfold cleared_account; by destruct acc). rewrite Hsk. cbn [after].
  apply (faithful_all net _ (skel c) (skel c1) (map_members (drop_nick nick)) (fun _ => without (skel c) nick)); try done.
  - cbn [n_me]. rewrite (at_nick _ _ _ _ Ht). symmetry. apply (f_nick _ _ Hf).
  - intros sid u u' Hu (Hwf & Hend & Hl). split_and!; [done|intros Hno n [Hn _]%Hl; by apply (Hno n)|].
    intros nc Hnc [S1 S2]. split; [|by rewrite Hend]. intros n. cbn [map_members told]. rewrite drop_nick_spec, <- S1, Hl. split; intros [H1 H2]; (split; [done|]).
    + intros ->. apply H2. apply same_refl; [apply (f_cmp _ _ Hf)|done].
    + intros Hcc. apply H2. symmetry. by apply (nick_listed net (skel c) nc sid u).
Qed.
Lemma copy_plain x n : plain x -> 1 <= n -> safe_strcpy x n = Some (take (Z.to_nat (n - 1)) x).
Proof. intros Hx Hn. unfold safe_strcpy. by rewrite safe_strcpy_loop_plain by (done || lia). Qed.

Lemma skel_set_nick n c : skel (set_nick n c) = k_call n (skel c).
Proof. done. Qed.

(** Everybody on a list is known to the server. *)
Lemma listed_known net k sid u n :
  faithful net k -> k_users k !! sid = Some u -> listed u n -> n ∈ known_nicks net.
Proof.
  intros Hf Hu Hn. assert (Hw : is_Some (k_wins k !! sid)) by (apply (f_rooms _ _ Hf); by eexists). destruct Hw as [[t ch] Hw].
  destruct (decide (t = SESS_CHANNEL)) as [->|Ht].
  - destruct ch as [|x ch]; [exfalso; eapply (f_idle _ _ Hf sid); eauto|].
    destruct (f_window _ _ Hf sid (x :: ch) u Hw ltac:(done) Hu) as (nc & Hnc & _ & [S1 _]). apply known_spec. right. exists nc.
    split; [done|]. unfold members. rewrite elem_of_app. left. by apply S1.
  - exfalso. eapply (f_idle _ _ Hf sid t ch u); eauto.
Qed.

(** What a list is after a nick change. *)
Definition renamed (k : skeleton) (old new : cstr) (u u' : Userlist.session) : Prop :=
  uwf k u' /\ end_of_names u' = end_of_names u /\
  forall n, listed u' n <-> (listed u n /\ k_cmp k old n <> 0) \/ (n = take 63 new /\ exists m, listed u m /\ k_cmp k old m = 0).

Lemma newnick_session_ok k0 mine quiet old new sid c1 u t ch :
  server_ok (k_server k0) -> k_cmp (skel c1) = k_cmp k0 -> k_isup (skel c1) = k_isup k0 ->
  k_wins (skel c1) !! sid = Some (t, ch) -> k_users (skel c1) !! sid = Some u -> uwf k0 u -> plain old -> plain new ->
  (forall n, listed u n -> k_cmp k0 old n <> 0 -> k_cmp k0 (take 63 new) n <> 0) ->
  exists c', newnick_session mine quiet old new sid c1 = Some c' /\ touched (renamed k0 old new) sid (skel c1) (skel c').
Proof.
  intros Hs Hc Hi Hw Hu [l W] Ho Hn Hfree.
  assert (Hcc : Userlist.p_cmp (user_server c1) = k_cmp k0) by exact Hc.
  assert (Hii : Userlist.isup (user_server c1) = k_isup k0) by exact Hi.
  assert (Hok : server_ok (user_server c1)) by (destruct Hs as [S1 S2 S3 S4 S5]; split; rewrite ?Hcc, ?Hii; done).
  assert (W1 : wf (user_server c1) u l) by (by apply (wf_server (k_server k0))).
  unfold newnick_session. pose proof Hw as Hw0. rewrite skel_wins in Hw. apply fmap_Some in Hw as (s & Hs0 & Es). rewrite Hs0. cbn [mbind option_bind].
  destruct (change_listed (user_server c1) Hok u l old new W1 Ho Hn) as (u' & b & l' & E & W' & Eend & Hl); [by rewrite Hcc|].
  destruct (on_users_skel sid (fun u => userlist_change (user_server c1) u old new) c1 u u' b Hu E) as (c2 & E2 & Hs2). rewrite E2. cbn [mbind option_bind].
  set (c3 := if _ && _ then _ else c2). assert (E3 : skel c3 = k_put sid u' (skel c1)) by (unfold c3; destruct (_ && _); by rewrite ?skel_text).
  assert (Hput : touched (renamed k0 old new) sid (skel c1) (k_put sid u' (skel c1))).
  { apply (touched_put _ sid _ u); [done|]. split_and!; [exists l'; by apply (wf_server (user_server c1))|done|by rewrite <- Hcc]. }
  injection Es as -> ->. destruct (bool_decide (s_type s = SESS_DIALOG) && _) eqn:Ed.
  - apply andb_true_iff in Ed as [Ed _]. apply bool_decide_eq_true in Ed. rewrite (copy_plain new CHANLEN Hn) by done. cbn [mbind option_bind].
    destruct (on_view_name sid (set_sess (set_channel (take (Z.to_nat (CHANLEN - 1)) new))) c3 (s_type s) (channel s) (take (Z.to_nat (CHANLEN - 1)) new)) as (c4 & E4 & Hs4).
    { by rewrite E3. }
    { intros v _. done. }
    rewrite E4. cbn [mbind option_bind]. eexists. split; [done|]. rewrite !skel_fe, Hs4, E3. destruct Hput as [Tf T0 T1 T2 T3 T4 T5 T6 T7 T8]. split; try done.
    + intros i Hne. cbn. by rewrite lookup_alter_ne.
    + intros t ch Hwt. unfold k_name, k_put. cbn [k_wins]. rewrite lookup_alter_eq, Hwt. cbn [fmap option_fmap option_map fst]. eexists. split; [done|]. intros ->. congruence.
  - cbn [mbind option_bind]. eexists. split; [done|]. by rewrite skel_fe, E3.
Qed.

Lemma inbound_newnick_faithful net c old new quiet :
  faithful net (skel c) -> net_ok (compare c) (k_isup (skel c)) net -> possible (compare c) (k_isup (skel c)) net (Renames old new) ->
  exists c', inbound_newnick old new quiet c = Some c' /\ faithful (after (compare c) (Renames old new) net) (skel c').
Proof.
  intros Hf Hok (Hk & (Hpn & _ & Hlen & _ & _) & Hfree). pose proof (known_plain _ _ _ _ Hok Hk) as Hp.
  pose proof (f_cmp _ _ Hf) as Hcmp. pose proof (f_nick _ _ Hf) as Hnick.
  assert (Hmine : (compare c old (own_nick c) =? 0) = bool_decide (old = n_me net)).
  { change (own_nick c) with (k_nick (skel c)). rewrite Hnick. case_bool_decide as Ho.
    - subst. apply Z.eqb_eq. by apply (same_refl (compare c) Hcmp).
    - apply Z.eqb_neq. intros Hc. apply Ho. apply (no_spelling _ _ _ Hok); [done|by left|done]. }
  unfold inbound_newnick. rewrite Hmine. set (mine := bool_decide (old = n_me net)).
  assert (Htake : take 63 new = new) by by apply take_ge.
  set (nn := if mine then new else n_me net).
  assert (Hset : exists c1, (if mine then n ← safe_strcpy new Userlist.NICKLEN; Some (set_nick n c) else Some c) = Some c1 /\ skel c1 = k_call nn (skel c)).
  { unfold nn. destruct mine.
    - rewrite (safe_strcpy_plain _ GL) by done. cbn [mbind option_bind]. eexists. split; [done|]. by rewrite skel_set_nick, Htake.
    - exists c. split; [done|]. rewrite <- Hnick. unfold k_call. by destruct (skel c). }
  destruct Hset as (c1 & -> & E1). cbn [mbind option_bind].
  assert (Hf1 : faithful (Network (n_agreed net) nn (n_chans net)) (skel c1)).
  { rewrite E1. destruct Hf. split; done. }
  destruct (each_session_touch (fun _ => renamed (skel c) old new) (newnick_session mine quiet old new) _ c1 Hf1) as (c2 & E2 & Ht).
  { intros sid c2 Hin Hn Hc Hi Hw Hu. apply (f_sids _ _ Hf1) in Hin as Hwin. destruct (proj1 (f_rooms _ _ Hf1 sid) Hwin) as [u Hu0].
    destruct Hwin as [[t ch] Hw0]. rewrite E1 in *. cbn [k_call k_cmp k_isup k_wins k_users] in *.
    apply (newnick_session_ok (skel c) mine quiet old new sid c2 u t ch); try done; [apply (f_server _ _ Hf)|by rewrite Hw|by rewrite Hu|by apply (f_users _ _ Hf sid)|].
    rewrite Htake. intros n Hln Hne. apply Hfree; [by apply (listed_known net (skel c) sid u)|]. intros ->. apply Hne. by apply same_refl. }
  unfold newnick_everywhere. rewrite E2. cbn [mbind option_bind]. eexists. split; [done|].
  assert (Hsk : skel (if mine then say (FeSetNick new) (say (DccChangeNick old new) c2) else say (DccChangeNick old new) c2) = skel c2) by by destruct mine.
  rewrite Hsk. cbn [after].
  assert (Hok1 : net_ok (k_cmp (skel c1)) (k_isup (skel c1)) net) by (by rewrite E1).
  apply (faithful_all (Network (n_agreed net) nn (n_chans net)) _ (skel c1) (skel c2) (map_members (rename old new)) (fun _ => renamed (skel c) old new)); try done.
  - cbn [n_me]. by rewrite (at_nick _ _ _ _ Ht), E1.
  - intros sid u u' Hu (Hwf & Hend & Hl). split_and!; [by apply (uwf_fields (skel c)); rewrite ?E1| |].
    + intros Hno n [[Hn _]|(_ & m & Hm & _)]%Hl; [by apply (Hno n)|by apply (Hno m)].
    + intros nc Hnc [S1 S2]. split; [|by rewrite Hend]. intros n. cbn [map_members told]. rewrite rename_spec, <- !S1, Hl, Htake.
      assert (Hmatch : forall m, listed u m -> (k_cmp (skel c) old m = 0 <-> m = old)).
      { intros m Hm. split; [|intros ->; by apply same_refl]. intros Hc. symmetry. apply (nick_listed net (skel c) nc sid u); try done.
        by rewrite E1 in Hu. }
      split; (intros [[H1 H2]|(H1 & H2)]; [left; split; [done|]|right; split; [done|] ]).
      * intros ->. apply H2. by apply (Hmatch old).
      * destruct H2 as (m & Hm & Hc). apply Hmatch in Hc as ->; done.
      * intros Hc. apply H2. by apply Hmatch.
      * exists old. split; [done|]. by apply same_refl.
Qed.
(** ** NAMES *)

(** An entry as the server writes it. *)
Definition render (uh : bool) (e : entry) : cstr :=
  e_prefixes e ++ e_nick e ++ (if uh then match e_host e with Some h => "!"%char :: h | None => [] end else []).

Lemma skip_prefixes_ok prefixes pre rest c r :
  Forall (fun c => c ∈ prefixes) pre -> rest = c :: r -> c ∉ prefixes -> skip_prefixes prefixes (pre ++ rest) = Some (length pre).
Proof.
  intros Hp -> Hc. induction Hp as [|x pre Hx Hp IH]; cbn [app skip_prefixes length]; [by rewrite bool_decide_eq_false_2|].
  by rewrite bool_decide_eq_true_2, IH.
Qed.

Lemma names_entry_render isp uh e :
  entry_ok isp e -> exists host, names_entry uh (nick_prefixes isp) (render uh e) = Some (e_prefixes e ++ e_nick e, host).
Proof.
  intros (_ & Hpre & (_ & Hne & _ & Hchars & Hhd) & Hlen & _). unfold render.
  set (tail := if uh then match e_host e with Some h => "!"%char :: h | None => [] end else []). unfold names_entry. destruct uh.
  - destruct (e_nick e) as [|x r] eqn:En; [done|].
    assert (Hx : x ∉ nick_prefixes isp) by by apply Hhd.
    rewrite (skip_prefixes_ok _ (e_prefixes e) _ x (r ++ tail));
      [|eapply Forall_impl; [exact Hpre|]; by intros c [? _]|done|done].
    cbn [mbind option_bind]. rewrite drop_app_length, <- En in *.
    assert (Hb : ("!"%char ∉ e_nick e)). { intros Hin. rewrite Forall_forall in Hchars. by destruct (Hchars _ Hin). }
    assert (Hk : default (length (e_nick e ++ tail)) (index_of "!" (e_nick e ++ tail)) = length (e_nick e)).
    { unfold tail. destruct (e_host e) as [h|]; [by rewrite index_of_first|]. rewrite app_nil_r.
      assert (Hn : index_of "!" (e_nick e) = None) by by apply index_of_None. by rewrite Hn. }
    rewrite Hk. eexists. do 2 f_equal. rewrite Nat.min_l by lia. by rewrite app_assoc, <- length_app, take_app_length.
  - unfold tail. rewrite app_nil_r. eexists. do 2 f_equal. apply take_ge. rewrite length_app. lia.
Qed.

Lemma render_nonempty isp uh e : entry_ok isp e -> render uh e <> [].
Proof. intros (_ & _ & (_ & Hne & _) & _). unfold render. destruct (e_prefixes e); [|done]. by destruct (e_nick e). Qed.

(** Names are added to the list; those that are there stay as they are. *)
Lemma add_names_ok net k0 sid es words c u :
  faithful net k0 -> k_cmp (skel c) = k_cmp k0 -> k_isup (skel c) = k_isup k0 ->
  List.filter (fun w => negb (bool_decide (w = []))) words = map (render (have_uhnames c)) es -> Forall (entry_ok (k_isup k0)) es ->
  k_users (skel c) !! sid = Some u -> uwf k0 u ->
  (forall e m, e ∈ es -> listed u m \/ m ∈ map e_nick es -> k_cmp k0 (e_nick e) m = 0 -> e_nick e = m) ->
  exists c' u', add_names sid words c = Some c' /\ skel c' = k_put sid u' (skel c) /\ uwf k0 u' /\ end_of_names u' = end_of_names u /\
    forall n, listed u' n <-> listed u n \/ n ∈ map e_nick es.
Proof.
  intros Hf Hc Hi. revert es c u Hc Hi. induction words as [|w words IH]; intros es c u Hc Hi Hw Hes Hu Hwf Hsp; cbn [add_names].
  - destruct es as [|e es]; [|done]. exists c, u. split_and!; try done.
    + unfold k_put. rewrite insert_id by done. by destruct (skel c).
    + intros n. cbn [map]. rewrite elem_of_nil. tauto.
  - destruct w as [|x w]; [by apply IH|]. cbn [List.filter] in Hw. rewrite bool_decide_eq_false_2 in Hw by done. cbn [negb] in Hw.
    destruct es as [|e es]; [done|]. cbn [map] in Hw. injection Hw as Hwe Hw. apply Forall_cons in Hes as [He Hes].
    rewrite Hwe. destruct (names_entry_render (k_isup k0) (have_uhnames c) e He) as [host Hent].
    change (isup (w_serv (windows c))) with (k_isup (skel c)). rewrite Hi, Hent. cbn [mbind option_bind].
    destruct He as (Hnd & Hpre & (Hp & _ & Hlen & _ & Hhd) & _).
    assert (Hcc : Userlist.p_cmp (user_server c) = k_cmp k0) by exact Hc.
    assert (Hii : Userlist.isup (user_server c) = k_isup k0) by exact Hi.
    assert (Hok : server_ok (user_server c)) by (destruct (f_server _ _ Hf) as [S1 S2 S3 S4 S5]; split; rewrite ?Hcc, ?Hii; done).
    destruct Hwf as [l W]. assert (W1 : wf (user_server c) u l) by (by apply (wf_server (k_server k0))).
    destruct (add_listed (user_server c) Hok u l (e_prefixes e) (e_nick e) host None None W1) as (u1 & l1 & Ea & W2 & Eend & Hcase);
      [done|rewrite Hii; eapply Forall_impl; [exact Hpre|]; by intros c' [? _]|by rewrite Hii|done|].
    destruct (on_users__skel sid (fun u => userlist_add (user_server c) u (e_prefixes e ++ e_nick e) host None None) c u u1 Hu Ea) as (c1 & E1 & Hs1).
    rewrite E1. cbn [mbind option_bind]. rewrite (take_ge (e_nick e) 63) in Hcase by done. rewrite Hcc in Hcase.
    assert (Hl1 : forall n, listed u1 n <-> listed u n \/ n = e_nick e).
    { destruct Hcase as [[(m & Hm & Hcm) Hl]|[_ Hl] ]; [|done]. intros n. rewrite Hl. split; [by left|]. intros [?| ->]; [done|].
      assert (e_nick e = m) as ->; [|done]. apply Hsp; [by left|by left|done]. }
    destruct (IH es c1 u1) as (c2 & u2 & E2 & Hs2 & Hwf2 & Eend2 & Hl2).
    + by rewrite Hs1.
    + by rewrite Hs1.
    + rewrite Hw. replace (have_uhnames c1) with (have_uhnames c); [done|]. change (k_uh (skel c) = k_uh (skel c1)). by rewrite Hs1.
    + done.
    + rewrite Hs1. cbn. by rewrite lookup_insert_eq.
    + exists l1. by apply (wf_server (user_server c)).
    + intros e' m He' Hm. apply Hsp; [by right|]. cbn [map]. rewrite elem_of_cons, Hl1 in *. tauto.
    + exists c2, u2. split_and!; [done| |done|congruence|].
      * rewrite Hs2, Hs1. unfold k_put. cbn. by rewrite insert_insert_eq.
      * intros n. rewrite Hl2, Hl1. cbn [map]. rewrite elem_of_cons. tauto.
Qed.

Lemma clear_users_ok sid c u :
  k_users (skel c) !! sid = Some u -> uwf (skel c) u ->
  exists c' u', on_users_ sid userlist_clear c = Some c' /\ skel c' = k_put sid u' (skel c) /\ uwf (skel c) u' /\
    end_of_names u' = end_of_names u /\ forall n, ~ listed u' n.
Proof.
  intros Hu [l W]. destruct (clear_listed _ u l W) as (u' & E & W' & Eend & Hno).
  destruct (on_users__skel sid userlist_clear c u u' Hu E) as (c' & E' & Hs). exists c', u'. split_and!; try done. by exists [].
Qed.

Lemma set_end_ok sid b c u :
  k_users (skel c) !! sid = Some u ->
  exists c', on_users_ sid (fun u => Some (set_end_of_names b u)) c = Some c' /\ skel c' = k_put sid (set_end_of_names b u) (skel c).
Proof. intros Hu. by apply (on_users__skel sid (fun u => Some (set_end_of_names b u)) c u). Qed.

Lemma uwf_end k b u : uwf k u -> uwf k (set_end_of_names b u).
Proof. intros [l W]. exists l. by destruct W. Qed.

Lemma k_put_put sid u u' k : k_put sid u' (k_put sid u k) = k_put sid u' k.
Proof. unfold k_put. cbn. by rewrite insert_insert_eq. Qed.

Lemma k_put_users sid u k : k_users (k_put sid u k) !! sid = Some u.
Proof. cbn. by rewrite lookup_insert_eq. Qed.

(** A new reply empties the list first. *)
Lemma fresh_list_ok sid c u :
  k_users (skel c) !! sid = Some u -> uwf (skel c) u ->
  exists c' u', (if end_of_names u
                 then c ← on_users_ sid (fun u => Some (set_end_of_names false u)) c; on_users_ sid userlist_clear c
                 else Some c) = Some c' /\ skel c' = k_put sid u' (skel c) /\ uwf (skel c) u' /\ end_of_names u' = false /\
    forall n, listed u' n <-> listed u n /\ end_of_names u = false.
Proof.
  intros Hu Hwf. destruct (end_of_names u) eqn:Eend.
  - destruct (set_end_ok sid false c u Hu) as (c1 & -> & E1). cbn [mbind option_bind].
    destruct (clear_users_ok sid c1 (set_end_of_names false u)) as (c2 & u2 & -> & E2 & W2 & Eend2 & Hno).
    { by rewrite E1, k_put_users. }
    { rewrite E1. apply (uwf_fields (skel c)); [done..|]. by apply uwf_end. }
    exists c2, u2. split_and!; [done|by rewrite E2, E1, k_put_put| |done|].
    + apply (uwf_fields (skel c1)); [by rewrite E1..|done].
    + intros n. split; [intros Hn; by destruct (Hno n)|by intros [_ ?] ].
  - exists c, u. split_and!; try done.
    + unfold k_put. rewrite insert_id by done. by destruct (skel c).
    + intros n. tauto.
Qed.

Lemma inbound_nameslist_faithful net c chan names es :
  faithful net (skel c) -> net_ok (compare c) (k_isup (skel c)) net -> possible (compare c) (k_isup (skel c)) net (NamesLine chan es) ->
  List.filter (fun w => negb (bool_decide (w = []))) (split_on " " [] names) = map (render (a_uh (n_agreed net))) es ->
  exists c', inbound_nameslist chan names c = Some c' /\ faithful (after (compare c) (NamesLine chan es) net) (skel c').
Proof.
  intros Hf Hok (Hpc & Hes & Hd & nc & Hnc & Hc & Hsub) Hwords.
  destruct (find_open net (skel c) Hf nc chan Hok Hnc Hpc Hc) as (sid & ch & u & Hfind & Hw & Hchn & Hcn & Hu & [S1 S2]).
  unfold inbound_nameslist, find_channel. rewrite find_skel, Hfind.
  set (c1 := if bool_decide (sid ∈ ignore_names (base c)) then _ else _). assert (E1 : skel c1 = skel c) by (unfold c1; by case_bool_decide).
  pose proof Hu as Hu0. rewrite <- E1, skel_users in Hu0. apply fmap_Some in Hu0 as (r & Hr & Eu). rewrite Hr. cbn [mbind option_bind]. rewrite <- Eu.
  destruct (fresh_list_ok sid c1 u) as (c2 & u2 & -> & E2 & W2 & Eend2 & Hl2);
    [by rewrite E1|rewrite E1; by apply (f_users _ _ Hf sid)|]. cbn [mbind option_bind]. rewrite E1 in *.
  destruct (add_names_ok net (skel c) sid es (split_on " " [] names) c2 u2) as (c3 & u3 & E3 & Hs3 & W3 & Eend3 & Hl3); try done; try (by rewrite E2).
  - rewrite Hwords. replace (have_uhnames c2) with (a_uh (n_agreed net)); [done|]. rewrite <- (f_uh _ _ Hf). change (k_uh (skel c) = k_uh (skel c2)). by rewrite E2.
  - by rewrite E2, k_put_users.
  - intros e m He Hm Hcm. assert (Hk : forall n, n ∈ members nc -> n ∈ known_nicks net) by (intros n Hn; apply known_spec; right; by exists nc).
    apply (no_spelling _ _ _ Hok); [apply Hk, Hsub; by apply list_elem_of_fmap_2|apply Hk|done].
    destruct Hm as [Hm|Hm]; [|by apply Hsub]. apply Hl2 in Hm as [Hm _]. unfold members. rewrite elem_of_app. left. by apply S1.
  - exists c3. split; [done|]. rewrite Hs3, E2, k_put_put. cbn [after].
    apply (faithful_chan net (skel c) chan nc sid ch u); try done.
    + intros nc0. unfold hear_names. by destruct (listing nc0).
    + split; [|rewrite Eend3, Eend2; unfold hear_names; by destruct (listing nc)].
      intros n. rewrite Hl3, Hl2, S1, S2, hear_names_told. destruct (listing nc); naive_solver.
Qed.

Lemma names_done_ok sid c u :
  k_users (skel c) !! sid = Some u ->
  exists c', names_done sid c = Some c' /\ skel c' = k_put sid (set_end_of_names true u) (skel c).
Proof.
  intros Hu. unfold names_done. destruct (set_end_ok sid true c u Hu) as (c1 & -> & E1). cbn [mbind option_bind]. eexists. split; [done|].
  by rewrite skel_fe, skel_ignores.
Qed.

Lemma nameslist_end_faithful net c chan :
  faithful net (skel c) -> net_ok (compare c) (k_isup (skel c)) net -> possible (compare c) (k_isup (skel c)) net (NamesEnd chan) ->
  exists c', inbound_nameslist_end chan c = Some (c', true) /\ faithful (after (compare c) (NamesEnd chan) net) (skel c').
Proof.
  intros Hf Hok (Hpc & Hstar & nc & Hnc & Hc & Hun).
  destruct (find_open net (skel c) Hf nc chan Hok Hnc Hpc Hc) as (sid & ch & u & Hfind & Hw & Hchn & Hcn & Hu & [S1 S2]).
  unfold inbound_nameslist_end, find_channel. rewrite bool_decide_eq_false_2 by done. rewrite find_skel, Hfind.
  destruct (names_done_ok sid c u Hu) as (c1 & -> & E1). cbn [mbind option_bind]. eexists. split; [done|]. rewrite E1. cbn [after].
  apply (faithful_chan net (skel c) chan nc sid ch u); try done. apply uwf_end. by apply (f_users _ _ Hf sid).
Qed.

(** ** Ourselves *)

Lemma cancel_name s : channel (Catchup.clear_channel s) = [] /\ s_type (Catchup.clear_channel s) = s_type s.
Proof.
  unfold Catchup.clear_channel, chathistory_cancel_catchup. cbn. by repeat case_match.
Qed.

Lemma clear_channel_ok sid c t ch u :
  k_wins (skel c) !! sid = Some (t, ch) -> k_users (skel c) !! sid = Some u -> uwf (skel c) u ->
  exists c' u', clear_channel sid c = Some c' /\ skel c' = k_put sid u' (k_name sid [] (skel c)) /\ uwf (skel c) u' /\
    (forall n, ~ listed u' n).
Proof.
  intros Hw Hu Hwf. pose proof Hw as Hw0. rewrite skel_wins in Hw0. apply fmap_Some in Hw0 as (s & Hs & Es).
  unfold clear_channel. rewrite Hs. cbn [mbind option_bind].
  set (c1 := match channel s with [] => c | _ => _ end).
  assert (E1 : skel c1 = skel c) by (unfold c1; destruct (channel s); [done|by apply skel_room]).
  set (c2 := fe_call sid LogClose _). assert (E2 : skel c2 = skel c). { unfold c2. rewrite skel_fe, skel_room by done. done. }
  destruct (on_view_name sid (set_sess Catchup.clear_channel) c2 t ch []) as (c3 & -> & E3); [by rewrite E2| |].
  { intros v _. destruct (cancel_name (sess v)) as [N1 N2]. split_and!; done. }
  cbn [mbind option_bind]. set (c4 := fe_call sid FeClearChannel _). assert (E4 : skel c4 = k_name sid [] (skel c)) by (unfold c4; by rewrite !skel_fe, E3, E2).
  destruct (clear_users_ok sid c4 u) as (c5 & u' & -> & E5 & W5 & _ & Hno); [by rewrite E4|rewrite E4; by apply (uwf_fields (skel c))|].
  cbn [mbind option_bind]. eexists _, u'. split_and!; [done| | |done].
  - by rewrite !skel_fe, E5, E4.
  - rewrite E4 in W5. by apply (uwf_fields (k_name sid [] (skel c))).
Qed.

(** We are gone from a channel. *)
Lemma close_ok net c chan nc sid ch u :
  faithful net (skel c) -> net_ok (compare c) (k_isup (skel c)) net -> plain chan -> nc ∈ n_chans net -> compare c chan (n_name nc) = 0 ->
  k_wins (skel c) !! sid = Some (SESS_CHANNEL, ch) -> ch <> [] -> compare c ch (n_name nc) = 0 -> k_users (skel c) !! sid = Some u ->
  exists c', clear_channel sid c = Some c' /\ faithful (off_chan (compare c) chan net) (skel c') /\ is_Some (rooms c' !! sid).
Proof.
  intros Hf Hok Hp Hnc Hc Hw Hne Hcn Hu.
  destruct (clear_channel_ok sid c SESS_CHANNEL ch u Hw Hu) as (c' & u' & E & Es & W & Hno); [by apply (f_users _ _ Hf sid)|].
  exists c'. split_and!; [done| |].
  - rewrite Es. by apply (faithful_close net (skel c) chan nc sid ch u').
  - assert (Hr : k_users (skel c') !! sid = Some u') by (rewrite Es; apply k_put_users). rewrite skel_users in Hr. apply fmap_Some in Hr as (r & -> & _). by eexists.
Qed.

Lemma inbound_upart_faithful net c chan host reason :
  faithful net (skel c) -> net_ok (compare c) (k_isup (skel c)) net -> possible (compare c) (k_isup (skel c)) net (Leaves (n_me net) chan) ->
  exists c', inbound_upart chan host reason c = Some c' /\ faithful (after (compare c) (Leaves (n_me net) chan) net) (skel c').
Proof.
  intros Hf Hok (Hpc & nc & Hnc & Hc & _). cbn [after]. unfold gone_from. rewrite bool_decide_eq_true_2 by done.
  destruct (find_open net (skel c) Hf nc chan Hok Hnc Hpc Hc) as (sid & ch & u & Hfind & Hw & Hchn & Hcn & Hu & _).
  unfold inbound_upart, find_channel. rewrite find_skel, Hfind.
  set (c1 := match reason with [] => _ | _ => _ end). assert (E1 : skel c1 = skel c) by (unfold c1; by destruct reason).
  assert (Ec : compare c1 = compare c) by exact (f_equal k_cmp E1). rewrite <- E1, <- Ec in *.
  destruct (close_ok net c1 chan nc sid ch u) as (c2 & E2 & Hf2 & _); try done. by exists c2.
Qed.

Lemma inbound_ukick_faithful p net c chan kicker reason :
  faithful net (skel c) -> net_ok (compare c) (k_isup (skel c)) net -> possible (compare c) (k_isup (skel c)) net (Kicked (n_me net) chan) ->
  exists c', inbound_ukick p chan kicker reason c = Some c' /\ faithful (after (compare c) (Kicked (n_me net) chan) net) (skel c').
Proof.
  intros Hf Hok (Hpc & nc & Hnc & Hc & _). cbn [after]. unfold gone_from. rewrite bool_decide_eq_true_2 by done.
  destruct (find_open net (skel c) Hf nc chan Hok Hnc Hpc Hc) as (sid & ch & u & Hfind & Hw & Hchn & Hcn & Hu & _).
  unfold inbound_ukick, find_channel. rewrite find_skel, Hfind.
  set (c1 := text_event sid XP_TE_UKICK _ c). change (compare c) with (compare c1).
  destruct (close_ok net c1 chan nc sid ch u) as (c2 & -> & Hf2 & [r Hr]); try done. cbn [mbind option_bind].
  destruct (irc_auto_rejoin p); [|by exists c2]. rewrite Hr. cbn [mbind option_bind]. rewrite (copy_plain chan CHANLEN Hpc) by done. cbn [mbind option_bind].
  eexists. split; [done|]. by rewrite skel_room, skel_say.
Qed.

Lemma load_unmoved p v : unmoved v (scrollback_load p v).
Proof.
  unfold scrollback_load. repeat first [by split | case_match | progress cbn].
Qed.

Lemma load_if_unmoved p v : unmoved v (if text_replay (history_prefs p) then scrollback_load (history_prefs p) v else v).
Proof. destruct (text_replay _); [apply load_unmoved|done]. Qed.

Lemma users_new_ok k : server_ok (k_server k) -> uwf k users_new /\ forall n, ~ listed users_new n.
Proof. intros Hs. split; [exists []; by apply wf_new|]. intros n (u & Hu). unfold hn in Hu. cbn in Hu. by rewrite lookup_fmap, lookup_empty in Hu. Qed.

(** A window of ours that lies idle. *)
Definition idle (k : skeleton) (sid : nat) : Prop := k_wins k !! sid = Some (SESS_CHANNEL, []).

Lemma find_room_idle f c sid : find_room f c = Some sid -> idle (skel c) sid.
Proof.
  unfold find_room, idle. intros [_ Hb]%List.find_some. rewrite skel_wins. destruct (lookup_session sid c) as [s|]; [|done].
  destruct (rooms c !! sid); [|done]. apply andb_true_iff in Hb as [Hb _]. apply andb_true_iff in Hb as [H1 H2].
  apply bool_decide_eq_true in H1, H2. cbn. by rewrite H1, H2.
Qed.

(** A window for a channel: one that lay idle, or a new one. *)
Record window_for (sid : nat) (ch : cstr) (u : Userlist.session) (k k' : skeleton) : Prop := {
  wf_front : k_front k' = k_front k; wf_uh : k_uh k' = k_uh k; wf_nick : k_nick k' = k_nick k; wf_cmp : k_cmp k' = k_cmp k; wf_isup : k_isup k' = k_isup k;
  wf_sids : forall i, i ∈ k_sids k' <-> i ∈ k_sids k \/ i = sid; wf_once : NoDup (k_sids k');
  wf_was : idle k sid \/ k_wins k !! sid = None;
  wf_win : k_wins k' = <[sid := (SESS_CHANNEL, ch)]> (k_wins k); wf_user : k_users k' = <[sid := u]> (k_users k);
  wf_list : uwf k u }.

Lemma window_idle net k sid : faithful net k -> idle k sid -> exists u, window_for sid [] u k k.
Proof.
  intros Hf Hi. destruct (proj1 (f_rooms _ _ Hf sid)) as [u Hu]; [by eexists|]. exists u. split; try done.
  - intros i. split; [by left|]. intros [?| ->]; [done|]. apply (f_sids _ _ Hf). by eexists.
  - apply (f_once _ _ Hf).
  - by left.
  - by rewrite insert_id.
  - by rewrite insert_id.
  - by apply (f_users _ _ Hf sid).
Qed.

Lemma new_window_ok p net chan focus c :
  faithful net (skel c) -> chan_ok chan ->
  exists c' sid, new_ircwindow p SESS_CHANNEL chan focus c = Some (c', sid) /\ window_for sid chan users_new (skel c) (skel c').
Proof.
  intros Hf (Hp & _ & Hlen). unfold new_ircwindow. rewrite (copy_plain chan CHANLEN Hp) by done. cbn [mbind option_bind].
  rewrite take_ge by done. set (sid := fresh _). set (v := View sid _ _ _ _).
  pose proof (load_if_unmoved p v) as Hu. set (v' := if text_replay (history_prefs p) then _ else _) in *. destruct Hu as [U1 U2 U3 U4 U5].
  assert (Hfresh : k_wins (skel c) !! sid = None). { rewrite skel_wins. unfold lookup_session. apply fmap_None, not_elem_of_dom, is_fresh. }
  assert (Hsid : sid ∉ k_sids (skel c)). { intros Hin. apply (f_sids _ _ Hf) in Hin. rewrite Hfresh in Hin. by destruct Hin. }
  eexists _, sid. split; [done|]. rewrite !skel_fe. split; try done.
  - intros i. cbn. rewrite elem_of_cons. tauto.
  - constructor; [done|apply (f_once _ _ Hf)].
  - by right.
  - cbn. rewrite U1, fmap_insert, U2, U3. done.
  - cbn. by rewrite fmap_insert.
  - apply users_new_ok, (f_server _ _ Hf).
Qed.

Lemma join_window_ok p net chan c :
  faithful net (skel c) -> chan_ok chan -> find_channel chan c = None ->
  exists c' sid fl ch u, join_window p chan c = Some (c', sid, fl) /\ window_for sid ch u (skel c) (skel c').
Proof.
  intros Hf Hch Hno. unfold join_window. rewrite Hno.
  assert (Hidle : forall sid (fl : bool), idle (skel c) sid -> exists c' sid' (fl' : bool) ch u, Some (c, sid, fl) = Some (c', sid', fl') /\ window_for sid' ch u (skel c) (skel c')).
  { intros sid fl Hi. destruct (window_idle net (skel c) sid Hf Hi) as [u W]. by exists c, sid, fl, [], u. }
  destruct (find_session_from_waitchannel chan c) as [sid|] eqn:E1; [by apply Hidle, (find_room_idle _ _ _ E1)|].
  destruct (find_unused_session c) as [sid|] eqn:E2; [by apply Hidle, (find_room_idle _ _ _ E2)|].
  destruct (new_window_ok p net chan true c Hf Hch) as (c' & sid & -> & W). cbn [mbind option_bind]. by exists c', sid, false, chan, users_new.
Qed.

Lemma has_msgid_unmoved id stamp v : unmoved v (scrollback_session_has_msgid id stamp v).1.
Proof. unfold scrollback_session_has_msgid. repeat first [by split | case_match | progress cbn]. Qed.

Lemma track_name id stamp b s : channel (chathistory_track_msgid_ts id stamp b s) = channel s /\ s_type (chathistory_track_msgid_ts id stamp b s) = s_type s.
Proof. unfold chathistory_track_msgid_ts. repeat first [done | case_match]. Qed.

Lemma announce_join_ok sid chan nick host t c ty ch :
  k_wins (skel c) !! sid = Some (ty, ch) -> exists c', announce_join sid chan nick host t c = Some c' /\ skel c' = skel c.
Proof.
  intros Hw. unfold announce_join. pose proof Hw as Hw0. rewrite skel_wins in Hw0. apply fmap_Some in Hw0 as (s & -> & _). cbn [mbind option_bind].
  set (restored := _ && _). set (ask := match restored with true => _ | false => _ end).
  assert (Hask : exists c1 b, ask = Some (c1, b) /\ skel c1 = skel c).
  { unfold ask. destruct restored; [|by exists c, false]. destruct (Tags.msgid t) as [id|]; [|by exists c, false].
    apply (ask_view_unmoved sid _ c ty ch Hw). intros v. apply has_msgid_unmoved. }
  destruct Hask as (c1 & b & -> & E1). cbn [mbind option_bind]. eexists. split; [done|]. by destruct restored, b.
Qed.

Lemma deferred_skel p c : skel (set_windows (chathistory_schedule_deferred p) c) = skel c.
Proof.
  unfold skel, set_windows, set_base, compare, windows, own_nick. cbn. unfold chathistory_schedule_deferred. by destruct (_ || _).
Qed.

(** Our own JOIN. *)
Lemma inbound_ujoin_faithful p net c chan nick host t there :
  faithful net (skel c) -> net_ok (compare c) (k_isup (skel c)) net -> possible (compare c) (k_isup (skel c)) net (WeJoin chan there) ->
  exists c', inbound_ujoin p chan nick host t c = Some c' /\ faithful (after (compare c) (WeJoin chan there) net) (skel c').
Proof.
  intros Hf Hok Hpos. pose proof Hpos as ((Hp & Hne & Hlen) & Hfree & _). unfold inbound_ujoin.
  assert (Hno : find_channel chan c = None). { unfold find_channel. rewrite find_skel. by apply (find_closed net (skel c) Hf). }
  rewrite Hno. cbn [mbind option_bind].
  destruct (join_window_ok p net chan c Hf) as (c1 & sid & fl & ch & u & -> & W); [done|done|]. cbn [mbind option_bind].
  rewrite (copy_plain chan CHANLEN Hp) by done. rewrite take_ge by done. cbn [mbind option_bind].
  assert (Hw1 : k_wins (skel c1) !! sid = Some (SESS_CHANNEL, ch)) by (rewrite (wf_win _ _ _ _ _ W); by rewrite lookup_insert_eq).
  assert (Hu1 : k_users (skel c1) !! sid = Some u) by (rewrite (wf_user _ _ _ _ _ W); by rewrite lookup_insert_eq).
  destruct (on_view_name sid (set_sess (set_channel chan)) c1 SESS_CHANNEL ch chan Hw1) as (c2 & -> & E2); [by intros v _|].
  cbn [mbind option_bind].
  assert (Hw2 : k_wins (skel c2) !! sid = Some (SESS_CHANNEL, chan)) by (rewrite E2; unfold k_name; cbn [k_wins]; by rewrite lookup_alter_eq, Hw1).
  set (load := if fl then _ else Some c2).
  assert (Hload : exists c3, load = Some c3 /\ skel c3 = skel c2).
  { unfold load. destruct fl; [|by exists c2]. change (skel c2) with (skel (fe_call sid FeTextClear (fe_call sid ChanoptLoad c2))). apply (on_view_unmoved sid _ _ SESS_CHANNEL chan); [by rewrite !skel_fe|]. apply load_if_unmoved. }
  destruct Hload as (c3 & -> & E3). cbn [mbind option_bind]. set (c4 := fe_call sid (FeSetNonchannel true) _).
  assert (E4 : skel c4 = skel c2) by (unfold c4; by rewrite !skel_fe).
  destruct (clear_users_ok sid c4 u) as (c5 & u5 & -> & E5 & W5 & _ & Hno5).
  { by rewrite E4, E2. }
  { rewrite E4, E2. apply (uwf_fields (skel c)); [apply (wf_cmp _ _ _ _ _ W)|apply (wf_isup _ _ _ _ _ W)|apply (wf_list _ _ _ _ _ W)]. }
  cbn [mbind option_bind]. set (c6 := set_ignore_names _ _).
  assert (E6 : skel c6 = k_put sid u5 (skel c2)). { unfold c6. rewrite skel_ignores, skel_room by done. by rewrite skel_fe, E5, E4. }
  destruct (set_end_ok sid false c6 u5) as (c7 & -> & E7); [by rewrite E6, k_put_users|]. cbn [mbind option_bind].
  set (u7 := set_end_of_names false u5) in *. rewrite E6, k_put_put in E7. set (c8 := say _ c7).
  assert (E8 : skel c8 = k_put sid u7 (skel c2)) by (unfold c8; by rewrite skel_say).
  set (track := match Tags.msgid t with Some id => _ | None => Some c8 end).
  assert (Htrack : exists c9, track = Some c9 /\ skel c9 = skel c8).
  { unfold track. destruct (Tags.msgid t) as [id|]; [|by exists c8].
    apply (on_view_unmoved sid _ _ SESS_CHANNEL chan); [by rewrite E8|]. intros v.
    destruct (track_name id (timestamp t) false (sess v)) as [T1 T2]. by split. }
  destruct Htrack as (c9 & -> & E9). cbn [mbind option_bind].
  destruct (announce_join_ok sid chan nick host t c9 SESS_CHANNEL chan) as (c10 & -> & E10); [by rewrite E9, E8|]. cbn [mbind option_bind].
  eexists. split; [done|].
  set (cn := if have_read_marker _ then _ else _). assert (En : skel cn = k_put sid u7 (skel c2)).
  { unfold cn. destruct (have_read_marker _); rewrite ?skel_say, deferred_skel, E10, E9; done. }
  assert (Elast : skel (if irc_who_join p then on_room sid (set_who true true) (say (SendOut (irc_user_list (have_whox cn) chan)) cn) else cn) = skel cn).
  { destruct (irc_who_join p); [|done]. by rewrite skel_room, skel_say. }
  rewrite Elast, En, E2. destruct W as [Wf W0 W1 W2 W3 W4 W6 W7 W8 W9 W10].
  apply (faithful_opened net (skel c) _ sid chan there u7); try done.
  - unfold k_put, k_name. cbn [k_wins]. rewrite W8. apply map_eq. intros i.
    destruct (decide (i = sid)) as [->|]; [by rewrite lookup_alter_eq, !lookup_insert_eq|by rewrite lookup_alter_ne, !lookup_insert_ne].
  - unfold k_put, k_name. cbn [k_users]. by rewrite W9, insert_insert_eq.
  - apply uwf_end. apply (uwf_fields (skel c4)); [by rewrite E4, E2|by rewrite E4, E2|done].
Qed.
End handlers.
