(* ===== verification/ChannelsLines.v ===== *)
(** * Lines that leave the membership alone (src/common/inbound.c, modes.c)

    MODE, TOPIC, AWAY, ACCOUNT, CHGHOST, SETNAME, WHO and their numerics change
    what is known of the people on a channel, never who is there. *)
From S2P Require Import Prelude Glib Casemap Text Tree Access Userlist UserlistSpec UserlistNicks Modes ModesSpec Server Tags Proto.
From S2P Require Import Scrollback GapLedger Chathistory Catchup Batches Channels ChannelsNet ChannelsSpec.

(** ** Modes *)

(** The lists of the windows before and after. *)
Definition mlike (m m' : mstate) : Prop :=
  Forall2 (fun a b => alike (Modes.users a) (Modes.users b)) (Modes.sess_list m) (Modes.sess_list m').

#[export] Instance mlike_preorder : PreOrder mlike.
Proof.
  split; [intros m; apply Forall_Forall2_diag, Forall_forall; by intros|]. intros a b c Hab. unfold mlike in *.
  revert Hab. generalize (Modes.sess_list a) (Modes.sess_list b) (Modes.sess_list c). intros la lb lc Hab. revert lc.
  induction Hab as [|x y la lb Hxy Hab IH]; intros lc Hbc; inversion Hbc; subst; constructor; [by etrans|by apply IH].
Qed.

Lemma mlike_signal i e m : mlike m (signal i e m). Proof. apply (reflexivity (R := mlike) m). Qed.

Lemma mlike_update i f m :
  (forall c, Modes.sess_list m !! i = Some c -> alike (Modes.users c) (Modes.users (f c))) -> mlike m (update_sess i f m).
Proof.
  intros Hf. unfold mlike. cbn [update_sess Modes.sess_list]. apply Forall2_same_length_lookup_2; [by rewrite length_alter|]. intros j x y Hx.
  destruct (decide (i = j)) as [<-|]; [rewrite list_lookup_alter_eq, Hx|rewrite list_lookup_alter_ne, Hx by done]; intros [= <-]; [by apply Hf|done].
Qed.

Create HintDb mlike.
#[export] Hint Resolve mlike_signal mlike_update : mlike.

Ltac mlike_steps := repeat first [reflexivity | etrans; [|apply mlike_signal] | etrans; [|apply mlike_update; intros ? ?; reflexivity]].

Lemma mlike_genmode serv sign mode nick chan arg quiet i m : mlike m (genmode serv sign mode nick chan arg quiet i m).
Proof. unfold genmode. destruct (_ && _), quiet, arg; mlike_steps. Qed.

Lemma mlike_switch (G : GLib) mr sign mode nick arg quiet q i m m' mr' :
  mode_switch mr sign mode nick arg quiet q i m = Some (Some (m', mr')) -> mlike m m'.
Proof.
  unfold mode_switch, unless_quiet. destruct (safe_strcpy arg KEYLEN); cbn [mbind option_bind]; intros E;
    repeat match type of E with (if ?b then _ else _) = _ => destruct b end; simplify_eq; try destruct quiet; mlike_steps.
Qed.

Lemma mlike_single (G : GLib) serv m mr sign mode nick chan arg quiet is_324 m' mr' :
  handle_single_mode serv m mr sign mode nick chan arg quiet is_324 = Some (m', mr') -> mlike m m'.
Proof.
  unfold handle_single_mode. destruct (Modes.find_channel serv m chan) as [i|]; [|intros [= <- _]; apply mlike_genmode].
  destruct (negb (is_channel (Userlist.isup serv) chan)); [intros [= <- _]; apply mlike_genmode|]. intros (sess & Hs & E)%bind_Some.
  apply bind_Some in E as (m1 & E1 & E). assert (H1 : mlike m m1).
  { destruct (strchr_b _ _).
    - apply bind_Some in E1 as (u & Hu & [= <-]). apply mlike_update. intros c Hc. assert (c = sess) as -> by congruence. by eapply alike_update_mode.
    - destruct (_ && _); injection E1 as <-; mlike_steps. }
  etrans; [exact H1|]. apply bind_Some in E as ([[m2 mr2]|] & E2 & E).
  - injection E as -> ->. by eapply mlike_switch.
  - injection E as <- <-. etrans; [|apply mlike_genmode]. mlike_steps.
Qed.

Lemma mlike_grouped i nick mr m : mlike m (mode_print_grouped i nick mr m).1.
Proof. unfold mode_print_grouped, print_group. destruct mr as [[] [] [] []]; cbn [fst]; mlike_steps. Qed.

Lemma mlike_loop (G : GLib) serv ln offset num all nick chan quiet is_324 sess modes sign arg mr m m' mr' :
  mode_loop serv ln offset num all nick chan quiet is_324 sess modes sign arg mr m = Some (m', mr') -> mlike m m'.
Proof.
  revert sign arg mr m. induction modes as [|c modes IH]; intros sign arg mr m; cbn [mode_loop]; [by intros [= <- _]|].
  destruct (is_sign c).
  - pose proof (mlike_grouped sess nick mr m) as Hg. destruct (mode_print_grouped sess nick mr m) as [m1 mr1]. intros E. etrans; [exact Hg|]. by eapply IH.
  - intros ([m1 mr1] & E1 & E)%bind_Some. etrans; [by eapply (mlike_single G)|]. by eapply IH.
Qed.

Lemma mlike_mode (G : GLib) serv raw ln nick n324 m m' : handle_mode serv raw ln nick n324 m = Some m' -> mlike m m'.
Proof.
  unfold handle_mode. set (offset := if n324 then 4%nat else 3%nat).
  destruct (if peek _ =c ":" then _ else _) as [|sign modes]; [by intros [= <-]|].
  destruct (match Modes.find_channel serv m _ with Some i => _ | None => _ end) as [sess front].
  intros (c & _ & E)%bind_Some. apply bind_Some in E as ([m1 mr1] & E & [= <-]). apply (mlike_loop G) in E.
  etrans; [|apply mlike_grouped]. etrans; [|etrans; [exact E|destruct front; mlike_steps] ].
  destruct (raw && _), (n324 && negb front); mlike_steps.
Qed.

(** ** Steps that are calm *)

Section calm.
Context (G : GLib) (Sq : Sqlite) (GL : GLibLaws G).

Lemma on_users__calm net sid f c :
  faithful net (skel c) -> is_Some (k_wins (skel c) !! sid) ->
  (forall u l, wf (user_server c) u l -> exists u' l', f u = Some u' /\ wf (user_server c) u' l' /\ alike u u') ->
  exists c', on_users_ sid f c = Some c' /\ calm (skel c) (skel c').
Proof.
  intros Hf Hw Hstep. destruct (window_users net c sid Hf Hw) as (u & Hu & l & W). destruct (Hstep u l W) as (u' & l' & E & W' & Ha).
  destruct (on_users__skel sid f c u u' Hu E) as (c' & E' & Hs). exists c'. split; [done|]. rewrite Hs. apply (calm_put _ _ u); [done|done|].
  intros _. apply (uwf_user c). by exists l'.
Qed.

Lemma on_users_calm {A} net sid (f : Userlist.session -> option (Userlist.session * A)) c :
  faithful net (skel c) -> is_Some (k_wins (skel c) !! sid) ->
  (forall u l, wf (user_server c) u l -> exists u' a l', f u = Some (u', a) /\ wf (user_server c) u' l' /\ alike u u') ->
  exists c' a, on_users sid f c = Some (c', a) /\ calm (skel c) (skel c').
Proof.
  intros Hf Hw Hstep. destruct (window_users net c sid Hf Hw) as (u & Hu & l & W). destruct (Hstep u l W) as (u' & a & l' & E & W' & Ha).
  destruct (on_users_skel sid f c u u' a Hu E) as (c' & E' & Hs). exists c', a. split; [done|]. rewrite Hs. apply (calm_put _ _ u); [done|done|].
  intros _. apply (uwf_user c). by exists l'.
Qed.

Lemma each_session_calm net f c :
  faithful net (skel c) ->
  (forall sid c1, faithful net (skel c1) -> is_Some (k_wins (skel c1) !! sid) -> exists c2, f sid c1 = Some c2 /\ calm (skel c1) (skel c2)) ->
  exists c', each_session f c = Some c' /\ calm (skel c) (skel c').
Proof.
  intros Hf Hstep. unfold each_session. change (sess_list (windows c)) with (k_sids (skel c)).
  assert (Hall : forall sid, sid ∈ k_sids (skel c) -> is_Some (k_wins (skel c) !! sid)) by (intros sid; apply (f_sids _ _ Hf)).
  revert Hf Hall. generalize (k_sids (skel c)). intros l. revert c. induction l as [|sid l IH]; intros c Hf Hall; cbn [for_sessions]; [by exists c|].
  destruct (Hstep sid c) as (c1 & -> & Hc1); [done|apply Hall; by left|]. cbn [mbind option_bind].
  destruct (IH c1) as (c2 & E2 & Hc2).
  - by apply (faithful_calm net (skel c)).
  - intros i Hi. rewrite (ca_wins _ _ Hc1). apply Hall. by right.
  - exists c2. split; [done|]. by etrans.
Qed.

Lemma said e c : calm (skel c) (skel (say e c)). Proof. done. Qed.

(** The friend list and the account bookkeeping only look. *)
Lemma old_account_ok net c nick sids :
  faithful net (skel c) -> (forall sid, sid ∈ sids -> is_Some (k_wins (skel c) !! sid)) -> plain nick -> is_Some (old_account nick sids c).
Proof.
  intros Hf Hs Hn. induction sids as [|sid sids IH]; cbn [old_account]; [by eexists|].
  destruct (lookup_user_ok net c sid nick Hf) as [o ->]; [apply Hs; by left|done|]. cbn [mbind option_bind].
  destruct (o ≫= Userlist.account); [by eexists|]. apply IH. intros i Hi. apply Hs. by right.
Qed.

Lemma session_with_user_ok net c nick sids :
  faithful net (skel c) -> (forall sid, sid ∈ sids -> is_Some (k_wins (skel c) !! sid)) -> plain nick -> is_Some (session_with_user nick sids c).
Proof.
  intros Hf Hs Hn. induction sids as [|sid sids IH]; cbn [session_with_user]; [by eexists|].
  destruct (lookup_user_ok net c sid nick Hf) as [o ->]; [apply Hs; by left|done|]. cbn [mbind option_bind].
  destruct o; [by eexists|]. apply IH. intros i Hi. apply Hs. by right.
Qed.

Lemma all_windows net c : faithful net (skel c) -> forall sid, sid ∈ sess_list (windows c) -> is_Some (k_wins (skel c) !! sid).
Proof. intros Hf sid Hs. by apply (f_sids _ _ Hf). Qed.

Lemma inbound_account_calm net c nick acc :
  faithful net (skel c) -> plain nick -> exists c', inbound_account nick acc c = Some c' /\ calm (skel c) (skel c').
Proof.
  intros Hf Hn. unfold inbound_account. destruct (old_account_ok net c nick (sess_list (windows c)) Hf) as [old ->]; [by apply (all_windows net)|done|].
  cbn [mbind option_bind].
  destruct (each_session_calm net (fun sid c => on_users_ sid (fun u => userlist_set_account (user_server c) u nick acc) c) c Hf) as (c1 & E1 & Hc1).
  { intros sid c1 Hf1 Hw. apply (on_users__calm net); [done..|]. intros u l W.
    destruct (userlist_set_account_wf (user_server c1) (user_server_ok net c1 Hf1) u l nick acc W Hn) as (u' & E & W').
    exists u', l. split_and!; [done|done|by eapply alike_set_account]. }
  rewrite E1. cbn [mbind option_bind]. eexists. split; [done|]. destruct old; [|done]. by destruct (_ || _).
Qed.

Lemma set_away_step net c nick status sid :
  faithful net (skel c) -> is_Some (k_wins (skel c) !! sid) -> plain nick ->
  exists c', on_users_ sid (fun u => userlist_set_away (user_server c) u nick status) c = Some c' /\ calm (skel c) (skel c').
Proof.
  intros Hf Hw Hn. apply (on_users__calm net); [done..|]. intros u l W.
  destruct (userlist_set_away_wf (user_server c) (user_server_ok net c Hf) u l nick status W Hn) as (u' & E & W').
  exists u', l. split_and!; [done|done|by eapply alike_set_away].
Qed.

Lemma inbound_away_notify_calm p net c nick reason :
  faithful net (skel c) -> plain nick -> exists c', inbound_away_notify p nick reason c = Some c' /\ calm (skel c) (skel c').
Proof.
  intros Hf Hn. unfold inbound_away_notify. apply (each_session_calm net); [done|]. intros sid c1 Hf1 Hw.
  destruct (set_away_step net c1 nick (match reason with Some _ => 1 | None => 0 end) sid Hf1 Hw Hn) as (c2 & -> & Hc2). cbn [mbind option_bind].
  case_bool_decide; [|by exists c2]. pose proof (faithful_calm net _ _ Hf1 Hc2) as Hf2.
  destruct (lookup_user_ok net c2 sid nick Hf2) as [o ->]; [by rewrite (ca_wins _ _ Hc2)|done|]. cbn [mbind option_bind].
  eexists. split; [done|]. destruct (friend p nick _); [|done]. by destruct reason.
Qed.

Lemma inbound_topicnew_skel nick chan txt c : skel (inbound_topicnew nick chan txt c) = skel c.
Proof. unfold inbound_topicnew, set_topic. destruct (find_channel chan c); [|done]. by rewrite skel_fe, skel_room. Qed.

Lemma inbound_topic_skel chan txt c : skel (inbound_topic chan txt c) = skel c.
Proof. unfold inbound_topic, set_topic. destruct (find_channel chan c); [|done]. by rewrite skel_text, skel_fe, skel_room. Qed.

Lemma add_hostname_step p net c sid nick uhost realname servname acc away :
  faithful net (skel c) -> is_Some (k_wins (skel c) !! sid) -> plain nick ->
  exists c', ('(c, _) ← on_users sid (fun u => userlist_add_hostname (user_server c) (gui_ulist_show_hosts p) u nick uhost realname servname acc away) c; Some c) = Some c' /\
    calm (skel c) (skel c').
Proof.
  intros Hf Hw Hn.
  destruct (on_users_calm net sid (fun u => userlist_add_hostname (user_server c) (gui_ulist_show_hosts p) u nick uhost realname servname acc away) c Hf Hw) as (c' & b & -> & Hc).
  { intros u l W. destruct (userlist_add_hostname_wf (user_server c) (user_server_ok net c Hf) (gui_ulist_show_hosts p) u l nick uhost realname servname acc away W Hn) as (u' & b & E & W').
    exists u', b, l. split_and!; [done|done|by eapply alike_add_hostname]. }
  by exists c'.
Qed.

Lemma find_channel_window net chan c sid : faithful net (skel c) -> find_channel chan c = Some sid -> is_Some (k_wins (skel c) !! sid).
Proof. intros Hf. unfold find_channel. rewrite find_skel. intros (ch & Hw & _)%find_win. by eexists. Qed.

Lemma inbound_user_info_calm p net c chan user host servname nick realname acc away :
  faithful net (skel c) -> plain nick ->
  exists c', inbound_user_info p chan user host servname nick realname acc away c = Some c' /\ calm (skel c) (skel c').
Proof.
  intros Hf Hn. unfold inbound_user_info. cbv zeta. set (uhost := match user with Some _ => _ | None => _ end).
  match goal with |- context [?m ≫= (fun c => Some match acc with _ => _ end)] => set (body := m) end.
  assert (Hbody : exists c1, body = Some c1 /\ calm (skel c) (skel c1)).
  { unfold body. destruct chan as [chan|].
    - destruct (find_channel chan c) as [sid|] eqn:Ef; [|eexists; split; [done|]; by destruct (doing_dns c), host].
      apply (add_hostname_step p net); [done|by eapply find_channel_window|done].
    - apply (each_session_calm net); [done|]. intros sid c1 Hf1 [ [t ch] Hw].
      pose proof Hw as Hw0. rewrite skel_wins in Hw0. apply fmap_Some in Hw0 as (s & -> & _). cbn [mbind option_bind].
      assert (Hadd : exists c2, ('(c, _) ← on_users sid (fun u => userlist_add_hostname (user_server c1) (gui_ulist_show_hosts p) u nick uhost realname servname acc away) c1; Some c) = Some c2 /\ calm (skel c1) (skel c2))
        by (apply (add_hostname_step p net); [done|by eexists|done]).
      destruct (s_type s), uhost as [uh|]; try exact Hadd; try (by exists c1).
      eexists. split; [done|]. destruct (_ =? 0); [|done]. unfold set_topic. by rewrite skel_fe, skel_room. }
  destruct Hbody as (c1 & -> & Hc1). cbn [mbind option_bind]. eexists. split; [done|]. by destruct acc as [[|]|].
Qed.

Lemma find_session_from_nick_ok net c nick : faithful net (skel c) -> plain nick -> is_Some (find_session_from_nick nick c).
Proof.
  intros Hf Hn. unfold find_session_from_nick. destruct (find_dialog nick c); [by eexists|].
  pose proof (all_windows net c Hf) as Hall. destruct (f_front _ _ Hf) as (fr & Efr & Hfr). change (k_front (skel c)) with (front_session c) in Efr.
  rewrite Efr. set (inf := if _ : bool then _ else _).
  assert (Hinf : is_Some inf).
  { unfold inf. destruct (_ =? 0); [by eexists|]. destruct (lookup_user_ok net c fr nick Hf) as [o ->]; [by apply Hall|done|]. by eexists. }
  destruct Hinf as [o ->]. cbn [mbind option_bind]. destruct o; [by eexists|].
  set (inc := match current_sess (windows c) with Some _ => _ | None => _ end). assert (Hinc : is_Some inc).
  { unfold inc. destruct (current_sess (windows c)) as [cur|]; [|by eexists]. case_bool_decide as Hcur; [|by eexists].
    apply (session_with_user_ok net); [done| |done]. intros sid ->%list_elem_of_singleton. by apply Hall. }
  destruct Hinc as [o ->]. cbn [mbind option_bind]. destruct o; [by eexists|]. by apply (session_with_user_ok net).
Qed.

Lemma inbound_away_calm p net c nick msg :
  faithful net (skel c) -> plain nick -> exists c', inbound_away p nick msg c = Some c' /\ calm (skel c) (skel c').
Proof.
  intros Hf Hn. unfold inbound_away. cbv zeta. set (seen := match server_away_find_message _ _ _ _ with Some _ => _ | None => _ end).
  destruct (seen && away_show_once p && negb (inside_whois c)); [by exists c|].
  set (save := if seen then _ else _). assert (Hsave : is_Some save).
  { unfold save. destruct seen; [by eexists|]. unfold server_away_save_message. destruct (server_away_find_message _ _ _ _); [by eexists|].
    rewrite (copy_plain G GL nick 64 Hn) by done. by eexists. }
  destruct Hsave as [away ->]. cbn [mbind option_bind]. set (c1 := set_server_flags _ _ away c). assert (E1 : skel c1 = skel c) by done.
  assert (Hf1 : faithful net (skel c1)) by (by rewrite E1).
  set (pick := if irc_whois_front p then _ else _). assert (Hpick : exists w, pick = Some (Some w)).
  { unfold pick. destruct (f_front _ _ Hf1) as (fr & Efr & _). change (k_front (skel c1)) with (front_session c1) in Efr.
    destruct (irc_whois_front p); [rewrite Efr; by eexists|]. destruct (inside_whois c1); [by eexists|].
    destruct (find_session_from_nick_ok net c1 nick Hf1 Hn) as [o ->]. by eexists. }
  destruct Hpick as [w ->]. cbn [mbind option_bind].
  set (show := if inside_whois c1 && _ then _ else _). assert (Hshow : exists c2, show = Some c2 /\ skel c2 = skel c1).
  { unfold show. destruct (_ && _); by eexists. }
  destruct Hshow as (c2 & -> & E2). cbn [mbind option_bind]. rewrite <- E1, <- E2 in *.
  unfold set_all_away. apply (each_session_calm net); [done|]. intros sid c3 Hf3 Hw. by apply (set_away_step net).
Qed.

Lemma show_who_skel sid ln txt c : exists c', show_who sid ln txt c = Some c' /\ skel c' = skel c.
Proof. eexists. split; [done|]. by destruct (match sid with Some _ => _ | None => _ end). Qed.

Lemma end_of_who_skel net ln txt c : faithful net (skel c) -> exists c', end_of_who ln txt c = Some c' /\ skel c' = skel c.
Proof.
  intros Hf. unfold end_of_who. destruct (find_channel (word ln 4) c) as [sid|] eqn:Ef; [|eexists; split; [done|]; by destruct (doing_dns c)].
  destruct (proj1 (f_rooms _ _ Hf sid)) as [u Hu]; [by eapply find_channel_window|]. rewrite skel_users in Hu. apply fmap_Some in Hu as (r & -> & _).
  cbn [mbind option_bind]. eexists. split; [done|]. rewrite skel_room by done. by destruct (doing_who r).
Qed.

(** The windows of the mode parser and back. *)
Lemma put_chan_skel sid ch c : is_Some (k_users (skel c) !! sid) -> skel (put_chan sid ch c) = k_put sid (Modes.users ch) (skel c).
Proof.
  rewrite skel_users. intros [u (r & Hr & ->)%fmap_Some]. unfold skel, put_chan, on_room, set_rooms, k_put. cbn. f_equal. apply map_eq. intros i.
  rewrite !lookup_fmap. destruct (decide (i = sid)) as [->|]; [by rewrite lookup_alter_eq, lookup_insert_eq, Hr|by rewrite lookup_alter_ne, lookup_insert_ne, lookup_fmap].
Qed.

Lemma put_chans_calm sids chs c :
  NoDup sids ->
  Forall2 (fun sid ch => exists u, k_users (skel c) !! sid = Some u /\ alike u (Modes.users ch) /\ uwf (skel c) (Modes.users ch)) sids chs ->
  calm (skel c) (skel (put_chans sids chs c)).
Proof.
  intros Hd Hall. revert c Hd Hall. revert chs. induction sids as [|sid sids IH]; intros chs c Hd Hall; inversion Hall as [|? ch ? chs' (u & Hu & Ha & Hwf) Hr]; subst; cbn [put_chans]; [done|].
  apply NoDup_cons in Hd as [Hn Hd]. assert (Es : skel (put_chan sid ch c) = k_put sid (Modes.users ch) (skel c)) by (apply put_chan_skel; by eexists).
  etrans; [|apply IH; [done|] ].
  - rewrite Es. by apply (calm_put _ _ u).
  - rewrite Es. apply Forall2_same_length_lookup. split; [by eapply Forall2_length|]. intros i s' ch' Hs' Hch'.
    assert (Hlook := proj2 (proj1 (Forall2_same_length_lookup _ _ _) Hr) i s' ch' Hs' Hch'). destruct Hlook as (u' & Hu' & Ha' & Hwf').
    exists u'. split_and!; [|done|by apply (uwf_fields (skel c))]. cbn [k_put k_users]. rewrite lookup_insert_ne; [done|].
    intros ->. apply Hn. by eapply list_elem_of_lookup_2.
Qed.

Lemma mode_events_skel (sids : list nat) (es : list (nat * mode_event)) c :
  skel (foldl (fun c e => match sids !! e.1 with Some sid => say (ModeEvent sid e.2) c | None => c end) c es) = skel c.
Proof. revert c. induction es as [|[i e] es IH]; intros c; cbn [foldl]; [done|]. rewrite IH. cbn [fst snd]. by destruct (sids !! i). Qed.

Lemma chans_ok net c sids :
  faithful net (skel c) -> (forall sid, sid ∈ sids -> is_Some (k_wins (skel c) !! sid)) ->
  exists chs, mapM (chan_of c) sids = Some chs /\
    Forall2 (fun sid ch => k_users (skel c) !! sid = Some (Modes.users ch) /\ exists l, wf (user_server c) (Modes.users ch) l) sids chs.
Proof.
  intros Hf Hall. induction sids as [|sid sids IH]; [by exists []|]. destruct IH as (chs & E & Hrest); [intros i Hi; apply Hall; by right|].
  destruct (window_users net c sid Hf) as (u & Hu & W); [apply Hall; by left|].
  destruct (Hall sid) as [[t ch] Hw]; [by left|]. rewrite skel_wins in Hw. apply fmap_Some in Hw as (s & Hs & _).
  pose proof Hu as Hu0. rewrite skel_users in Hu0. apply fmap_Some in Hu0 as (r & Hr & ->).
  assert (Hc : exists ch, chan_of c sid = Some ch /\ Modes.users ch = users r) by (unfold chan_of; rewrite Hs, Hr; by eexists).
  destruct Hc as (ch0 & Hc & Eu). cbn [mapM]. rewrite Hc. cbn [mbind option_bind]. rewrite E. cbn [mbind option_bind]. rewrite <- Eu in *.
  eexists. split; [done|]. by constructor.
Qed.

Lemma client_mode_calm p net c ln nick n324 :
  faithful net (skel c) -> line_ok ln -> word_eol ln (if n324 : bool then 4 else 3) <> [] ->
  exists c', client_mode p ln nick n324 c = Some c' /\ calm (skel c) (skel c').
Proof.
  intros Hf Hln Heol. unfold client_mode. cbv zeta. destruct (chans_ok net c (sess_list (windows c)) Hf) as (chs & -> & Hchs); [by apply (all_windows net)|].
  cbn [mbind option_bind]. destruct (f_front _ _ Hf) as (fr & Efr & Hfr). change (k_front (skel c)) with (front_session c) in Efr. rewrite Efr. cbn [mbind option_bind].
  destruct (list_find_elem_of (fun sid => sid = fr) (sess_list (windows c)) fr) as [pos ->]; [done|done|]. cbn [mbind option_bind].
  destruct (handle_mode_ok G (user_server c) (irc_raw_modes p) ln nick n324 (MState chs pos.1 [])) as (m & E & Hm); try done.
  { by apply (user_server_ok net). }
  { apply Forall_forall. intros ch Hin. apply list_elem_of_lookup in Hin as [i Hi].
    destruct (Forall2_lookup_r _ _ _ _ _ Hchs Hi) as (sid & _ & _ & W). exact W. }
  rewrite E. cbn [mbind option_bind]. eexists. split; [done|]. rewrite mode_events_skel. apply put_chans_calm; [apply (f_once _ _ Hf)|].
  apply (mlike_mode G) in E. unfold mlike in E. cbn [Modes.sess_list] in E.
  apply Forall2_same_length_lookup. split; [by rewrite (Forall2_length _ _ _ Hchs), (Forall2_length _ _ _ E)|]. intros i sid ch' Hsid Hch'.
  destruct (Forall2_lookup_l _ _ _ _ _ Hchs Hsid) as (ch & Hch & Hu & _). destruct (Forall2_lookup_l _ _ _ _ _ E Hch) as (ch2 & Hch2 & Ha).
  assert (ch2 = ch') as -> by congruence. exists (Modes.users ch). split_and!; [done|done|]. apply (uwf_user c).
  unfold users_ok in Hm. rewrite Forall_lookup in Hm. by eapply Hm.
Qed.

(** ** The connection is lost *)

Lemma k_put_id sid u k : k_users k !! sid = Some u -> k_put sid u k = k.
Proof. intros Hu. unfold k_put. rewrite insert_id by done. by destruct k. Qed.

Definition hang_up (shutup : bool) (sid : nat) (c : client) : option client :=
  s ← lookup_session sid c;
  let c := if negb shutup || bool_decide (s_type s = SESS_SERVER) then text_event sid XP_TE_DISCON [] c else c in
  if bool_decide (channel s = []) || bool_decide (s_type s = SESS_CHANNEL) then clear_channel sid c
  else Some (fe_call sid ClearTyping c).

Lemma hang_up_ok shutup sid c t ch u :
  k_wins (skel c) !! sid = Some (t, ch) -> k_users (skel c) !! sid = Some u -> uwf (skel c) u ->
  (t <> SESS_CHANNEL -> forall n, ~ listed u n) ->
  exists c' u' ch', hang_up shutup sid c = Some c' /\ skel c' = k_put sid u' (k_name sid ch' (skel c)) /\
    (t = SESS_CHANNEL -> ch' = []) /\ uwf (skel c) u' /\ forall n, ~ listed u' n.
Proof.
  intros Hw Hu Hwf Hno. pose proof Hw as Hw0. rewrite skel_wins in Hw0. apply fmap_Some in Hw0 as (s & Hs & [= -> ->]).
  unfold hang_up. rewrite Hs. cbn [mbind option_bind]. set (c1 := if negb shutup || _ then _ else _).
  assert (E1 : skel c1 = skel c) by (unfold c1; by destruct (negb shutup || _)).
  destruct (bool_decide (channel s = []) || bool_decide (s_type s = SESS_CHANNEL)) eqn:Eb.
  - destruct (clear_channel_ok sid c1 (s_type s) (channel s) u) as (c2 & u' & E & Es & W & Hno'); [by rewrite E1..|].
    rewrite E1 in *. by exists c2, u', [].
  - apply orb_false_iff in Eb as [_ Et]. apply bool_decide_eq_false in Et. eexists _, u, (channel s). split_and!; [done| |done|done|by apply Hno].
    rewrite skel_fe, E1. erewrite k_name_id by exact Hw. by rewrite k_put_id.
Qed.

(** The windows of [l] are hung up. *)
Record hung_up (l : list nat) (k0 k : skeleton) : Prop := {
  hu_front : k_front k = k_front k0; hu_uh : k_uh k = k_uh k0; hu_nick : k_nick k = k_nick k0; hu_cmp : k_cmp k = k_cmp k0;
  hu_isup : k_isup k = k_isup k0; hu_sids : k_sids k = k_sids k0;
  hu_wins : forall i, is_Some (k_wins k !! i) <-> is_Some (k_wins k0 !! i);
  hu_users : forall i, is_Some (k_users k !! i) <-> is_Some (k_users k0 !! i);
  hu_same : forall i, i ∉ l -> k_wins k !! i = k_wins k0 !! i /\ k_users k !! i = k_users k0 !! i;
  hu_name : forall i ch, i ∈ l -> k_wins k !! i = Some (SESS_CHANNEL, ch) -> ch = [];
  hu_gone : forall i u, i ∈ l -> k_users k !! i = Some u -> uwf k0 u /\ forall n, ~ listed u n }.

Lemma hang_up_all shutup net k0 l done_ c :
  faithful net k0 -> NoDup (done_ ++ l) -> (forall sid, sid ∈ l -> is_Some (k_wins k0 !! sid)) -> hung_up done_ k0 (skel c) ->
  exists c', for_sessions (hang_up shutup) l c = Some c' /\ hung_up (done_ ++ l) k0 (skel c').
Proof.
  intros Hf. revert done_ c. induction l as [|sid l IH]; intros done_ c Hd Hall H; cbn [for_sessions]; [exists c; by rewrite app_nil_r|].
  assert (Hsid : sid ∉ done_). { apply NoDup_app in Hd as (_ & Hd & _). intros Hin. apply (Hd sid Hin). by left. }
  destruct H as [Hfr H0 H1 H2 H3 H4 H5 H6 H7 H8 H9]. destruct (H7 sid Hsid) as [Hwin Huser].
  destruct (Hall sid) as [[t ch] Hw]; [by left|]. destruct (proj1 (f_rooms _ _ Hf sid)) as [u Hu]; [by eexists|].
  destruct (hang_up_ok shutup sid c t ch u) as (c1 & u' & ch' & E & Es & Hch & W & Hno).
  { by rewrite Hwin. }
  { by rewrite Huser. }
  { apply (uwf_fields k0); [done..|]. by apply (f_users _ _ Hf sid). }
  { intros Ht. apply (f_idle _ _ Hf sid t ch u Hw); [by left|done]. }
  rewrite E. cbn [mbind option_bind]. replace (done_ ++ sid :: l) with ((done_ ++ [sid]) ++ l) in * by by rewrite <- app_assoc.
  assert (Hn : forall i, i <> sid -> k_wins (skel c1) !! i = k_wins (skel c) !! i /\ k_users (skel c1) !! i = k_users (skel c) !! i).
  { intros i Hi. rewrite Es. unfold k_put, k_name. cbn [k_wins k_users]. by rewrite lookup_alter_ne, lookup_insert_ne. }
  assert (Hw1 : k_wins (skel c1) !! sid = Some (t, ch')).
  { rewrite Es. unfold k_put, k_name. cbn [k_wins]. by rewrite lookup_alter_eq, Hwin, Hw. }
  assert (Hu1 : k_users (skel c1) !! sid = Some u') by (rewrite Es; apply k_put_users).
  apply IH; [done|intros i Hi; apply Hall; by right|]. split; try (rewrite Es; done).
  - intros i. destruct (decide (i = sid)) as [->|Hi]; [rewrite Hw1, Hw; by split; eexists|]. destruct (Hn i Hi) as [-> _]. apply H5.
  - intros i. destruct (decide (i = sid)) as [->|Hi]; [rewrite Hu1, Hu; by split; eexists|]. destruct (Hn i Hi) as [_ ->]. apply H6.
  - intros i Hi. rewrite elem_of_app, list_elem_of_singleton in Hi. destruct (Hn i) as [-> ->]; [tauto|]. apply H7. tauto.
  - intros i c' Hi. destruct (decide (i = sid)) as [->|Hne].
    + rewrite Hw1. intros [= Ht <-]. by apply Hch.
    + destruct (Hn i Hne) as [-> _]. apply H8. rewrite elem_of_app, list_elem_of_singleton in Hi. tauto.
  - intros i v Hi. destruct (decide (i = sid)) as [->|Hne].
    + rewrite Hu1. intros [= <-]. split; [|done]. by apply (uwf_fields (skel c)).
    + destruct (Hn i Hne) as [_ ->]. apply H9. rewrite elem_of_app, list_elem_of_singleton in Hi. tauto.
Qed.

Lemma server_disconnect_faithful net c now delayed :
  faithful net (skel c) -> connected (w_serv (windows c)) || delayed = true ->
  exists c', server_disconnect now delayed c = Some c' /\ faithful (after (compare c) Lost net) (skel c').
Proof.
  intros Hf Hcon. unfold server_disconnect. cbv zeta. destruct (negb (connected _) && negb delayed) eqn:Eb.
  { destruct (connected (w_serv (windows c))), delayed; done. }
  set (c1 := if connected (w_serv (windows c)) then _ else c). assert (E1 : skel c1 = skel c) by (unfold c1; by destruct (connected _)).
  set (shutup := negb _). unfold disconnect_sessions, each_session. change (sess_list (windows c1)) with (k_sids (skel c1)).
  destruct (hang_up_all shutup net (skel c1) (k_sids (skel c1)) [] c1) as (c2 & E2 & H).
  { by rewrite E1. }
  { rewrite E1. apply (f_once _ _ Hf). }
  { intros sid. rewrite E1. apply (f_sids _ _ Hf). }
  { split; try done; intros i ? Hi; by apply elem_of_nil in Hi. }
  unfold hang_up in E2. rewrite E2. cbn [mbind option_bind]. eexists. split; [done|].
  assert (E3 : forall c, skel (set_windows (upd_serv persistence_reset) (set_server_flags false (doing_dns c) (away_messages c) c)) = skel c) by done.
  rewrite E3. rewrite E1 in H. destruct H as [Hfr H0 H1 H2 H3 H4 H5 H6 H7 H8 H9]. cbn [app] in *.
  assert (Hin : forall i, is_Some (k_wins (skel c2) !! i) -> i ∈ k_sids (skel c)) by (intros i Hi; apply (f_sids _ _ Hf); by apply H5).
  apply (faithful_lost net (skel c)); try done.
  - intros i ch Hi. apply (H8 i ch); [|done]. apply Hin. by eexists.
  - intros i u Hi. apply (H9 i u); [|done]. apply Hin, H5, (f_rooms _ _ Hf), H6. by eexists.
Qed.
End calm.
