(* ===== verification/ChannelsRun.v ===== *)
(** * The user lists show who is on the channels (src/common/inbound.c, proto-irc.c)

    The lines of a server carry what happens on its channels; over any history
    the handlers keep the windows in step with it. *)
From S2P Require Import Prelude Glib Casemap Text Tree Access Isupport Userlist UserlistSpec UserlistNicks Modes ModesSpec Server Words Tags Proto.
From S2P Require Import Scrollback GapLedger Chathistory Catchup Batches Channels ChannelsNet ChannelsSpec ChannelsLines.

Definition cmp_of (net : network) : cstr -> cstr -> Z := a_cmp (n_agreed net).
Definition isup_of (net : network) : isupport := a_isup (n_agreed net).

(** ** Messages *)

(** A line as it is received, with the capabilities and the labels of the time,
    or the end of the connection. *)
Inductive message :=
| Received (serv : caps) (l : labels) (buf : cstr)
| Disconnect (now : Z) (delayed : bool).

(** Sent by a nick, with the host behind it or not. *)
Definition sent_by (nick : cstr) (ln : line) : Prop := word ln 1 = nick \/ exists host, word ln 1 = nick ++ "!"%char :: host.

Definition unconcerned : list cstr :=
  [("AWAY" : cstr); ("ACCOUNT" : cstr); ("CHGHOST" : cstr); ("SETNAME" : cstr); ("TOPIC" : cstr)].

Definition names_of (ln : line) : list cstr :=
  List.filter (fun w => negb (bool_decide (w = []))) (split_on " " [] (drop_colon (word_eol ln 6))).

(** The line that tells what happens. *)
Inductive carries_line (net : network) : happening -> handler -> line -> Prop :=
| carry_join nick chan ln : sent_by nick ln -> drop_colon (word ln 3) = chan ->
    carries_line net (Joins nick chan) (NamedMsg "JOIN") ln
| carry_we_join chan there ln : sent_by (n_me net) ln -> drop_colon (word ln 3) = chan ->
    carries_line net (WeJoin chan there) (NamedMsg "JOIN") ln
| carry_part nick chan ln : sent_by nick ln -> drop_colon (word ln 3) = chan ->
    carries_line net (Leaves nick chan) (NamedMsg "PART") ln
| carry_kick nick chan ln : word ln 4 = nick -> word ln 3 = chan ->
    carries_line net (Kicked nick chan) (NamedMsg "KICK") ln
| carry_quit nick ln : sent_by nick ln ->
    carries_line net (Quits nick) (NamedMsg "QUIT") ln
| carry_nick old new ln : sent_by old ln -> drop_colon (word_eol ln 3) = new ->
    carries_line net (Renames old new) (NamedMsg "NICK") ln
| carry_mode ln : word_eol ln 3 <> [] ->
    carries_line net Nothing (NamedMsg "MODE") ln
| carry_other type ln : type ∈ unconcerned ->
    carries_line net Nothing (NamedMsg type) ln
| carry_names chan es ln text : word ln 5 = chan -> names_of ln = map (render (a_uh (n_agreed net))) es ->
    carries_line net (NamesLine chan es) (Numeric 353 text) ln
| carry_names_end chan ln text : word ln 4 = chan ->
    carries_line net (NamesEnd chan) (Numeric 366 text) ln
| carry_numeric n ln text : n = 301 \/ n = 332 \/ n = 315 \/ n = 352 ->
    carries_line net Nothing (Numeric n text) ln.

Section run.
Context (G : GLib) (Sq : Sqlite) (Cl : Clock).
Context (p : client_prefs).

Inductive carries (net : network) (c : client) : happening -> message -> Prop :=
| carry_line serv l buf x h : irc_inline serv l buf = Some (Some x) -> line_ok (il_line x) -> batch_id (il_tags x) = None ->
    carries_line net h (il_handler x) (il_line x) -> carries net c h (Received serv l buf)
| carry_lost now delayed : connected (w_serv (windows c)) || delayed = true ->
    carries net c Lost (Disconnect now delayed).

Definition client_step (m : message) (c : client) : option client :=
  match m with
  | Received serv l buf =>
      read ← irc_inline serv l buf;
      match read with
      | Some x => fst <$> process_incoming p (il_handler x) (il_line x) (il_tags x) c
      | None => Some c
      end
  | Disconnect now delayed => server_disconnect now delayed c
  end.

Fixpoint client_run (ms : list message) (c : client) : option client :=
  match ms with [] => Some c | m :: ms => c ← client_step m c; client_run ms c end.

(** A history of the network, as a client hears of it. *)
Inductive history : network -> client -> list message -> network -> Prop :=
| history_end net c : history net c [] net
| history_more net c h m ms net' :
    possible (cmp_of net) (isup_of net) net h -> carries net c h m ->
    (forall c', client_step m c = Some c' -> history (after (cmp_of net) h net) c' ms net') ->
    history net c (m :: ms) net'.

(** ** One line *)

Context (GL : GLibLaws G).

Lemma source_plain prefix : plain prefix -> exists nick ip, source prefix = Some (nick, ip) /\ plain nick.
Proof.
  intros Hp. unfold source. destruct (index_of "!" prefix) as [i|].
  - rewrite (copy_plain G GL (drop (S i) prefix) 128) by (by apply plain_drop || done). cbn [mbind option_bind].
    rewrite (safe_strcpy_plain _ GL) by by apply plain_take. cbn [mbind option_bind]. eexists _, _. split; [done|]. by do 2 apply plain_take.
  - rewrite (copy_plain G GL prefix 128 Hp) by done. cbn [mbind option_bind]. rewrite (safe_strcpy_plain _ GL) by done. cbn [mbind option_bind].
    eexists _, _. split; [done|]. by apply plain_take.
Qed.

Lemma source_nick isp nick ln : nick_ok isp nick -> plain (word ln 1) -> sent_by nick ln -> exists ip, source (word ln 1) = Some (nick, ip).
Proof.
  intros (Hp & _ & Hlen & Hchars & _) Hw Hs.
  assert (Hb : "!"%char ∉ nick). { intros Hin. rewrite Forall_forall in Hchars. by destruct (Hchars _ Hin). }
  unfold source. destruct Hs as [E|[host E] ]; rewrite E in *.
  - assert (En : index_of "!" nick = None) by by apply index_of_None. rewrite En.
    rewrite (copy_plain G GL nick 128 Hp) by done. cbn [mbind option_bind]. rewrite (safe_strcpy_plain _ GL) by done. cbn [mbind option_bind].
    rewrite (take_ge nick 63) by done. by eexists.
  - rewrite index_of_first by done. assert (Ed : drop (S (length nick)) (nick ++ "!"%char :: host) = host).
    { replace (nick ++ "!"%char :: host) with ((nick ++ ["!"%char]) ++ host) by by rewrite <- app_assoc.
      apply drop_app_length'. rewrite length_app. cbn. lia. }
    assert (Ht : take (length nick) (nick ++ "!"%char :: host) = nick) by apply take_app_length.
    rewrite Ht, Ed. rewrite (copy_plain G GL host 128); [|by rewrite <- Ed; apply plain_drop|done]. cbn [mbind option_bind].
    rewrite (safe_strcpy_plain _ GL) by done. cbn [mbind option_bind]. rewrite (take_ge nick 63) by done. by eexists.
Qed.

Lemma unless_unbatched cmd ln t f c : batch_id t = None -> unless_batched cmd ln t f c = f c.
Proof.
  intros Hb. unfold unless_batched, inbound_batch_add_message. rewrite Hb.
  assert (E : set_base (fun _ => base c) c = c) by by destruct c. by destruct (negb (have_batch (base c))); rewrite E.
Qed.

Lemma after_agreed cmp h net : n_agreed (after cmp h net) = n_agreed net.
Proof. destruct h; cbn [after]; try done; unfold gone_from; by case_bool_decide. Qed.

Lemma faithful_cmp net c : faithful net (skel c) -> compare c = cmp_of net /\ k_isup (skel c) = isup_of net.
Proof. intros Hf. unfold cmp_of, isup_of. by rewrite <- (f_uh _ _ Hf). Qed.

Definition agrees (net : network) (c : client) : Prop := faithful net (skel c) /\ net_ok (cmp_of net) (isup_of net) net.

(** The accounts that come with every line. *)
Lemma account_first net c nick (acc : cstr) :
  faithful net (skel c) -> plain nick ->
  exists c', (if have_account_tag c then inbound_account nick acc c else Some c) = Some c' /\ faithful net (skel c').
Proof.
  intros Hf Hn. destruct (have_account_tag c); [|by exists c].
  destruct (inbound_account_calm net c nick acc Hf Hn) as (c1 & -> & Hc). exists c1. split; [done|]. by apply (faithful_calm net (skel c)).
Qed.

Lemma took (o : option client) : fst <$> (c ← o; Some (c, true)) = o.
Proof. by destruct o. Qed.

Ltac branch := unfold channel_branches; cbv zeta; repeat match goal with
  |- context [bool_decide (?a = list_ascii_of_string ?s)] =>
      let b := eval vm_compute in (bool_decide (a = list_ascii_of_string s)) in
      change (bool_decide (a = list_ascii_of_string s)) with b
  | |- context [Nat.leb 5 (length ?l)] => let b := eval vm_compute in (Nat.leb 5 (length l)) in change (Nat.leb 5 (length l)) with b
  end; cbn [andb]; cbv iota; rewrite ?took, ?unless_unbatched by done.

Lemma branch_join ln t nick ip c : batch_id t = None -> fst <$> channel_branches p "JOIN" ln t nick ip c = handle_join p ln nick ip t c.
Proof. intros Hb. branch. done. Qed.
Lemma branch_kick ln t nick ip c : batch_id t = None -> fst <$> channel_branches p "KICK" ln t nick ip c = handle_kick p ln nick c.
Proof. intros Hb. branch. done. Qed.
Lemma branch_mode ln t nick ip c : batch_id t = None -> fst <$> channel_branches p "MODE" ln t nick ip c = client_mode p ln nick false c.
Proof. intros Hb. branch. done. Qed.
Lemma branch_nick ln t nick ip c :
  batch_id t = None -> fst <$> channel_branches p "NICK" ln t nick ip c = inbound_newnick nick (drop_colon (word_eol ln 3)) false c.
Proof. intros Hb. branch. done. Qed.
Lemma branch_part ln t nick ip c : batch_id t = None -> fst <$> channel_branches p "PART" ln t nick ip c = handle_part ln nick ip c.
Proof. intros Hb. branch. done. Qed.
Lemma branch_quit ln t nick ip c :
  batch_id t = None -> fst <$> channel_branches p "QUIT" ln t nick ip c = inbound_quit nick ip (drop_colon (word_eol ln 3)) c.
Proof. intros Hb. branch. done. Qed.

Lemma branch_other net type ln t nick ip c :
  faithful net (skel c) -> plain nick -> batch_id t = None -> type ∈ unconcerned ->
  exists c', fst <$> channel_branches p type ln t nick ip c = Some c' /\ calm (skel c) (skel c').
Proof.
  intros Hf Hn Hb Hin. unfold unconcerned in Hin. rewrite !elem_of_cons in Hin.
  destruct Hin as [->|[->|[->|[->|[->|?%elem_of_nil] ] ] ] ]; [| | | | |done]; branch.
  - by apply (inbound_away_notify_calm p net).
  - by apply (inbound_account_calm net).
  - by apply (inbound_user_info_calm p net).
  - by apply (inbound_user_info_calm p net).
  - eexists. split; [done|]. by rewrite inbound_topicnew_skel.
Qed.

(** After the source and the account of a line the branch decides. *)
Lemma named_step net c type ln t nick ip (Q : client -> Prop) :
  faithful net (skel c) -> source (word ln 1) = Some (nick, ip) -> plain nick ->
  (forall c, faithful net (skel c) -> exists c', fst <$> channel_branches p type ln t nick ip c = Some c' /\ Q c') ->
  exists c', fst <$> process_incoming p (NamedMsg type) ln t c = Some c' /\ Q c'.
Proof.
  intros Hf Hs Hn Hbr. cbn [process_incoming]. unfold process_channel_msg. rewrite Hs. cbn [mbind option_bind].
  destruct (account_first net c nick (match Tags.account t with Some (a :: r) => a :: r | _ => ("*" : cstr) end) Hf Hn) as (c1 & -> & Hf1).
  cbn [mbind option_bind]. by apply Hbr.
Qed.

Lemma by_nick net c nick type ln t (Q : client -> Prop) :
  faithful net (skel c) -> net_ok (cmp_of net) (isup_of net) net -> line_ok ln -> sent_by nick ln -> nick_ok (isup_of net) nick ->
  (forall ip c, faithful net (skel c) -> exists c', fst <$> channel_branches p type ln t nick ip c = Some c' /\ Q c') ->
  exists c', fst <$> process_incoming p (NamedMsg type) ln t c = Some c' /\ Q c'.
Proof.
  intros Hf Hok Hln Hs Hn Hbr. destruct (source_nick (isup_of net) nick ln Hn) as [ip Hip]; [by apply word_plain|done|].
  apply (named_step net c type ln t nick ip Q Hf Hip); [apply Hn|]. intros c1. apply Hbr.
Qed.

Lemma by_anyone net c type ln t (Q : client -> Prop) :
  faithful net (skel c) -> line_ok ln ->
  (forall nick ip c, plain nick -> faithful net (skel c) -> exists c', fst <$> channel_branches p type ln t nick ip c = Some c' /\ Q c') ->
  exists c', fst <$> process_incoming p (NamedMsg type) ln t c = Some c' /\ Q c'.
Proof.
  intros Hf Hln Hbr. destruct (source_plain (word ln 1)) as (nick & ip & Hs & Hn); [by apply word_plain|].
  apply (named_step net c type ln t nick ip Q Hf Hs Hn). intros c1. by apply Hbr.
Qed.

Lemma known_ok net n : net_ok (cmp_of net) (isup_of net) net -> n ∈ known_nicks net -> nick_ok (isup_of net) n.
Proof. intros Hok Hn. pose proof (no_nicks _ _ _ Hok) as Ha. rewrite Forall_forall in Ha. by apply Ha. Qed.

Lemma member_known net nc n : nc ∈ n_chans net -> n ∈ members nc -> n ∈ known_nicks net.
Proof. intros Hnc Hn. apply known_spec. right. by exists nc. Qed.

(** A line does to the windows what it tells of. *)
Lemma line_faithful net c h i ln t :
  faithful net (skel c) -> net_ok (cmp_of net) (isup_of net) net -> possible (cmp_of net) (isup_of net) net h ->
  line_ok ln -> batch_id t = None -> carries_line net h i ln ->
  exists c', fst <$> process_incoming p i ln t c = Some c' /\ faithful (after (cmp_of net) h net) (skel c').
Proof.
  intros Hf Hok Hpos Hln Hb Hc.
  assert (Hk : forall c, faithful net (skel c) -> compare c = cmp_of net /\ k_isup (skel c) = isup_of net) by (intros; by apply faithful_cmp).
  assert (Hmine : forall c, faithful net (skel c) -> own_nick c = n_me net) by (intros c0 Hf0; apply (f_nick _ _ Hf0)).
  pose proof (so_cmp _ (f_server _ _ Hf)) as Hcmp. change (Userlist.p_cmp (k_server (skel c))) with (compare c) in Hcmp. rewrite (proj1 (Hk c Hf)) in Hcmp.
  destruct Hc as [nick chan ln Hs <-|chan there ln Hs <-|nick chan ln Hs <-|nick chan ln <- <-
    |nick ln Hs|old new ln Hs <-|ln Heol|type ln Hin|chan es ln text <- Hes|chan ln text <-|n ln text Hn].
  - pose proof Hpos as (Hn & Hme & Hnew & _). apply (by_nick net c nick); [done..|]. intros ip c1 Hf1. rewrite branch_join by done.
    unfold handle_join. destruct (Hk c1 Hf1) as [E1 E2]. rewrite (Hmine c1 Hf1), E1. destruct (cmp_of net nick (n_me net) =? 0) eqn:Eb.
    { exfalso. apply Hme, Hnew; [by left|lia]. }
    rewrite <- E1 in *. apply inbound_join_faithful; try done; by rewrite E2.
  - apply (by_nick net c (n_me net)); [done..|apply (no_me _ _ _ Hok)|]. intros ip c1 Hf1. rewrite branch_join by done.
    unfold handle_join. destruct (Hk c1 Hf1) as [E1 E2]. rewrite (Hmine c1 Hf1), E1.
    rewrite (same_refl _ Hcmp (n_me net)) by apply (no_me _ _ _ Hok). cbn [Z.eqb].
    rewrite <- E1 in *. apply (inbound_ujoin_faithful G Sq GL p net); try done; by rewrite E2.
  - pose proof Hpos as (Hpc & nc & Hnc & Hcc & Hnick).
    assert (Hnk : nick_ok (isup_of net) nick). { destruct Hnick as [->|Hin]; [apply (no_me _ _ _ Hok)|]. apply (known_ok net); [done|]. by apply (member_known net nc). }
    apply (by_nick net c nick); [done..|]. intros ip c1 Hf1. rewrite branch_part by done.
    unfold handle_part. destruct (Hk c1 Hf1) as [E1 E2]. rewrite (Hmine c1 Hf1), <- E1 in *. cbv zeta. case_bool_decide as Hown.
    + subst nick. apply inbound_upart_faithful; try done; by rewrite E2.
    + cbn [after]. apply (leave_faithful G GL); try done; [by rewrite E2..|]. intros sid c2. by destruct (drop_colon (word_eol ln 4)).
  - pose proof Hpos as (Hpc & nc & Hnc & Hcc & Hnick).
    assert (Hnk : nick_ok (isup_of net) (word ln 4)).
    { destruct Hnick as [->|Hin]; [apply (no_me _ _ _ Hok)|]. apply (known_ok net); [done|]. by apply (member_known net nc). }
    apply (by_anyone net c); [done..|]. intros by_ ip c1 _ Hf1. rewrite branch_kick by done. unfold handle_kick.
    destruct (word ln 4) as [|x r] eqn:Ew; [by destruct Hnk as (_ & ? & _)|]. rewrite <- Ew in *. cbv zeta.
    destruct (Hk c1 Hf1) as [E1 E2]. rewrite (Hmine c1 Hf1), <- E1 in *. case_bool_decide as Hown.
    + rewrite Hown in *. apply (inbound_ukick_faithful G GL p); try done; by rewrite E2.
    + cbn [after]. apply (leave_faithful G GL); try done; by rewrite E2.
  - pose proof Hpos as (Hme & Hin). apply (by_nick net c nick); [done..|by apply (known_ok net)|]. intros ip c1 Hf1. rewrite branch_quit by done.
    destruct (Hk c1 Hf1) as [E1 E2]. rewrite <- E1 in *. apply (inbound_quit_faithful G GL); try done; by rewrite E2.
  - pose proof Hpos as (Hin & _). apply (by_nick net c old); [done..|by apply (known_ok net)|]. intros ip c1 Hf1. rewrite branch_nick by done.
    destruct (Hk c1 Hf1) as [E1 E2]. rewrite <- E1 in *. apply (inbound_newnick_faithful G GL); try done; by rewrite E2.
  - apply (by_anyone net c); [done..|]. intros nick ip c1 Hn Hf1. rewrite branch_mode by done.
    destruct (client_mode_calm G GL p net c1 ln nick false Hf1 Hln) as (c2 & E & Hc2); [done|]. exists c2. split; [done|]. by apply (faithful_calm net (skel c1)).
  - apply (by_anyone net c); [done..|]. intros nick ip c1 Hn Hf1.
    destruct (branch_other net type ln t nick ip c1 Hf1 Hn Hb Hin) as (c2 & E & Hc2). exists c2. split; [done|]. by apply (faithful_calm net (skel c1)).
  - destruct (Hk c Hf) as [E1 E2]. rewrite <- E1 in *. cbn [process_incoming]. unfold process_channel_numeric. cbv zeta. cbn [Z.eqb Pos.eqb].
    rewrite took. apply (inbound_nameslist_faithful G GL); try done; by rewrite E2.
  - destruct (Hk c Hf) as [E1 E2]. rewrite <- E1 in *. cbn [process_incoming]. unfold process_channel_numeric. cbv zeta. cbn [Z.eqb Pos.eqb].
    destruct (nameslist_end_faithful net c (word ln 4)) as (c2 & -> & Hf2); try done; [by rewrite E2..|]. by exists c2.
  - cbn [process_incoming]. unfold process_channel_numeric. cbv zeta. cbn [after].
    destruct Hn as [->|[->|[->| ->] ] ]; cbn [Z.eqb Pos.eqb]; rewrite took.
    + destruct (inbound_away_calm G GL p net c (word ln 4) (drop_colon (word_eol ln 5)) Hf) as (c2 & -> & Hc2); [by apply word_plain|].
      exists c2. split; [done|]. by apply (faithful_calm net (skel c)).
    + eexists. split; [done|]. by rewrite inbound_topic_skel.
    + destruct (end_of_who_skel net ln text c Hf) as (c2 & -> & E2). exists c2. by rewrite E2.
    + match goal with |- context [inbound_user_info p ?a ?b ?d ?e ?f ?g ?i ?j c] =>
        destruct (inbound_user_info_calm p net c a b d e f g i j Hf) as (c2 & -> & Hc2); [by apply word_plain|] end.
      cbn [mbind option_bind]. destruct (show_who_skel (find_channel (word ln 4) c) ln text c2) as (c3 & -> & E3). exists c3. rewrite E3.
      split; [done|]. by apply (faithful_calm net (skel c)).
Qed.

Lemma step_faithful net c h m :
  faithful net (skel c) -> net_ok (cmp_of net) (isup_of net) net -> possible (cmp_of net) (isup_of net) net h -> carries net c h m ->
  exists c', client_step m c = Some c' /\ faithful (after (cmp_of net) h net) (skel c').
Proof.
  intros Hf Hok Hpos Hc. destruct Hc as [serv l buf x h Hx Hln Hb Hc|now delayed Hcon]; cbn [client_step].
  - rewrite Hx. cbn [mbind option_bind]. by apply line_faithful.
  - destruct (faithful_cmp net c Hf) as [<- _]. by apply server_disconnect_faithful.
Qed.

(** ** A history *)

Lemma run_agrees net c ms net' :
  history net c ms net' -> agrees net c -> exists c', client_run ms c = Some c' /\ agrees net' c'.
Proof.
  induction 1 as [net c|net c h m ms net' Hpos Hc _ IH]; intros [Hf Hok]; [by exists c|].
  destruct (step_faithful net c h m Hf Hok Hpos Hc) as (c1 & E1 & Hf1). cbn [client_run]. rewrite E1. cbn [mbind option_bind].
  apply (IH c1 E1). split; [done|]. unfold cmp_of, isup_of. rewrite after_agreed. apply net_ok_after; [|done|done].
  pose proof (so_cmp _ (f_server _ _ Hf)) as Hcmp. change (Userlist.p_cmp (k_server (skel c))) with (compare c) in Hcmp. by rewrite (proj1 (faithful_cmp net c Hf)) in Hcmp.
Qed.

(** The window of a channel lists those told of. *)
Definition window_shows (c : client) (chan : cstr) (nicks : list cstr) : Prop :=
  exists sid r l, find_channel chan c = Some sid /\ rooms c !! sid = Some r /\ wf (user_server c) (users r) l /\
    map (user_nick (users r)) l ≡ₚ nicks.

Lemma agrees_shows net c nc : agrees net c -> nc ∈ n_chans net -> window_shows c (n_name nc) (told nc).
Proof.
  intros [Hf Hok] Hnc. destruct (faithful_cmp net c Hf) as [E1 E2]. rewrite <- E1, <- E2 in Hok. pose proof (f_cmp _ _ Hf) as Hcmp.
  destruct (net_ok_chan _ _ net nc Hok Hnc) as (Hd & _ & Hp & _).
  destruct (find_open net (skel c) Hf nc (n_name nc) Hok Hnc Hp) as (sid & ch & u & Hfind & _ & _ & _ & Hu & [Hs _]); [by apply same_refl|].
  destruct (proj1 (uwf_user c u) (f_users _ _ Hf sid u Hu)) as [l W]. rewrite skel_users in Hu. apply fmap_Some in Hu as (r & Hr & ->).
  exists sid, r, l. split_and!; [by unfold find_channel; rewrite find_skel|done|done|].
  apply (names_are (user_server c)); [by apply (user_server_ok net)|done| |done]. by apply NoDup_app in Hd as [? _].
Qed.

Lemma agrees_only net c chan :
  agrees net c -> plain chan -> chan <> [] -> (forall nc, nc ∈ n_chans net -> cmp_of net chan (n_name nc) <> 0) -> find_channel chan c = None.
Proof.
  intros [Hf Hok] Hp Hne Hno. destruct (faithful_cmp net c Hf) as [E1 E2]. rewrite <- E1, <- E2 in *.
  unfold find_channel. rewrite find_skel. by apply (find_closed net (skel c) Hf).
Qed.
End run.

(** ** Properties *)

(** C3. Over any history of a network, told by its JOIN, PART, KICK, QUIT, NICK,
    MODE, TOPIC, AWAY, ACCOUNT, CHGHOST and SETNAME lines, its NAMES, WHO, away
    and topic numerics and lost connections, no handler fails, our nick is the
    one the server knows, each channel we are on has one window whose list is
    well formed and holds exactly the members told of - all of them once the
    NAMES reply is complete - and no other channel has a window. *)
Theorem channels_show_members (G : GLib) (Sq : Sqlite) (Cl : Clock) p net c ms net' :
  GLibLaws G -> agrees net c -> history G Sq Cl p net c ms net' ->
  exists c', client_run G Sq Cl p ms c = Some c' /\ own_nick c' = n_me net' /\
    (forall nc, nc ∈ n_chans net' ->
       window_shows c' (n_name nc) (told nc) /\ (untold nc = [] -> window_shows c' (n_name nc) (members nc))) /\
    (forall chan, plain chan -> chan <> [] -> (forall nc, nc ∈ n_chans net' -> cmp_of net' chan (n_name nc) <> 0) ->
       find_channel chan c' = None).
Proof.
  intros GL Ha Hh. destruct (run_agrees G Sq Cl p GL net c ms net' Hh Ha) as (c' & E & Ha'). exists c'.
  split_and!; [done|apply (f_nick _ _ (proj1 Ha'))| |].
  - intros nc Hnc. pose proof (agrees_shows net' c' nc Ha' Hnc) as Hw. split; [done|]. intros Hu. unfold members. by rewrite Hu, app_nil_r.
  - intros chan. by apply agrees_only.
Qed.
