(* ===== verification/ChannelsCases.v ===== *)
(** * Concrete channels

    Lines of a network as they come from the wire and what the windows show,
    among them lines the handlers do not do what they mean to with. *)
From S2P Require Import Prelude Glib Casemap Text Tree Access Userlist UserlistSpec UserlistNicks Modes ModesSpec Server Words Tags Proto.
From S2P Require Import Scrollback ScrollbackSpec GapLedger GapLedgerSpec Chathistory Catchup CatchupCases Batches BatchCases Channels ChannelsNet ChannelsSpec ChannelsLines ChannelsRun.

(** ** The conditions of a history, decided *)

Section decide.
Context (cmp : cstr -> cstr -> Z) (isp : isupport).

Definition nick_okb (n : cstr) : bool :=
  plainb n && negb (bool_decide (n = [])) && bool_decide (length n <= 63)%nat &&
  forallb (fun c => negb (c =c " ") && negb (c =c "!")) n &&
  match head n with Some c => negb (bool_decide (c ∈ nick_prefixes isp)) | None => true end.

Definition entry_okb (e : entry) : bool :=
  bool_decide (NoDup (e_prefixes e)) && forallb (fun c => bool_decide (c ∈ nick_prefixes isp) && negb (c =c " ")) (e_prefixes e) &&
  nick_okb (e_nick e) && bool_decide (length (e_prefixes e) + length (e_nick e) <= 63)%nat &&
  forallb (fun c => negb (c =c " ")) (default [] (e_host e)).

Definition on_channel (net : network) (chan : cstr) (f : nchan -> bool) : bool :=
  plainb chan && existsb (fun nc => (cmp chan (n_name nc) =? 0) && f nc) (n_chans net).

Definition spelled_alone (n : cstr) (l : list cstr) : bool := forallb (fun m => negb (cmp n m =? 0) || bool_decide (n = m)) l.

Definition possibleb (net : network) (h : happening) : bool :=
  match h with
  | Joins nick chan =>
      nick_okb nick && negb (bool_decide (nick = n_me net)) && spelled_alone nick (known_nicks net) &&
      on_channel net chan (fun nc => negb (bool_decide (nick ∈ members nc)))
  | WeJoin chan there =>
      (plainb chan && negb (bool_decide (chan = [])) && bool_decide (length chan <= 299)%nat) &&
      forallb (fun nc => negb (cmp chan (n_name nc) =? 0)) (n_chans net) && bool_decide (NoDup there) &&
      forallb nick_okb there && forallb (fun m => spelled_alone m (known_nicks net ++ there)) there
  | Leaves nick chan | Kicked nick chan =>
      on_channel net chan (fun nc => bool_decide (nick = n_me net) || bool_decide (nick ∈ members nc))
  | Quits nick => negb (bool_decide (nick = n_me net)) && bool_decide (nick ∈ known_nicks net)
  | Renames old new =>
      bool_decide (old ∈ known_nicks net) && nick_okb new &&
      forallb (fun m => bool_decide (m = old) || negb (cmp new m =? 0)) (known_nicks net)
  | NamesLine chan es =>
      forallb entry_okb es && bool_decide (NoDup (map e_nick es)) &&
      on_channel net chan (fun nc => forallb (fun n => bool_decide (n ∈ members nc)) (map e_nick es))
  | NamesEnd chan => negb (bool_decide (chan = ("*" : cstr))) && on_channel net chan (fun nc => bool_decide (untold nc = []))
  | Nothing | Lost => true
  end.

Ltac booleans := repeat match goal with
  | H : _ && _ = true |- _ => apply andb_true_iff in H as [? H]
  | H : negb _ = true |- _ => apply negb_true_iff in H
  | H : bool_decide _ = true |- _ => apply bool_decide_eq_true in H
  | H : bool_decide _ = false |- _ => apply bool_decide_eq_false in H
  | H : plainb _ = true |- _ => apply plainb_spec in H
  end.

Lemma nick_okb_ok n : nick_okb n = true -> nick_ok isp n.
Proof.
  unfold nick_okb. intros H. booleans. split_and!; [done..| |].
  - apply Forall_forall. intros c Hc. match goal with H : forallb _ _ = true |- _ => pose proof (forallb_elem _ _ H c Hc) as Hb end. cbn beta in Hb.
    booleans. split; by apply Ascii.eqb_neq.
  - intros c Hc. rewrite Hc in H. by booleans.
Qed.

Lemma entry_okb_ok e : entry_okb e = true -> entry_ok isp e.
Proof.
  unfold entry_okb. intros H. booleans. split_and!; [done| |by apply nick_okb_ok|done|].
  - apply Forall_forall. intros c Hc. match goal with H : forallb _ (e_prefixes e) = true |- _ => pose proof (forallb_elem _ _ H c Hc) as Hb end. cbn beta in Hb.
    booleans. split; [done|by apply Ascii.eqb_neq].
  - apply Forall_forall. intros c Hc. pose proof (forallb_elem _ _ H c Hc) as Hb. cbn beta in Hb. booleans. by apply Ascii.eqb_neq.
Qed.

Lemma on_channel_ok net chan f : on_channel net chan f = true -> plain chan /\ exists nc, nc ∈ n_chans net /\ cmp chan (n_name nc) = 0 /\ f nc = true.
Proof.
  unfold on_channel. intros H. booleans. split; [done|]. apply List.existsb_exists in H as (nc & Hin & Hb). exists nc. apply andb_true_iff in Hb as [Hc Hb].
  split_and!; [by apply list_elem_of_In|lia|done].
Qed.

Lemma spelled_alone_ok n l : spelled_alone n l = true -> forall m, m ∈ l -> cmp n m = 0 -> n = m.
Proof.
  intros H m Hm Hc. pose proof (forallb_elem _ _ H m Hm) as Hb. cbn beta in Hb. rewrite Hc in Hb. cbn in Hb. by apply bool_decide_eq_true in Hb.
Qed.

Lemma possibleb_ok net h : possibleb net h = true -> possible cmp isp net h.
Proof.
  destruct h as [nick chan|chan there|nick chan|nick chan|nick|old new|chan es|chan| |]; cbn [possibleb possible]; intros H; try done.
  - apply andb_true_iff in H as [H Hon]. apply on_channel_ok in Hon as (Hp & nc & Hnc & Hc & Hf). booleans.
    split_and!; [by apply nick_okb_ok|done|by apply spelled_alone_ok|]. by exists nc.
  - repeat match goal with H : _ && _ = true |- _ => apply andb_true_iff in H as [H ?] end. booleans. split_and!.
    + done.
    + intros nc Hnc. match goal with H : forallb _ (n_chans net) = true |- _ => pose proof (forallb_elem _ _ H nc Hnc) as Hb end. cbn beta in Hb. booleans. lia.
    + done.
    + apply Forall_forall. intros n Hn. apply nick_okb_ok. by eapply forallb_elem.
    + intros m m' Hm Hm'. match goal with H : forallb (fun m => spelled_alone m _) _ = true |- _ => pose proof (forallb_elem _ _ H m Hm) as Hb end.
      by apply (spelled_alone_ok m (known_nicks net ++ there)).
  - apply on_channel_ok in H as (Hp & nc & Hnc & Hc & Hf). split; [done|]. exists nc. split_and!; [done..|].
    apply orb_true_iff in Hf as [Hf|Hf]; apply bool_decide_eq_true in Hf; auto.
  - apply on_channel_ok in H as (Hp & nc & Hnc & Hc & Hf). split; [done|]. exists nc. split_and!; [done..|].
    apply orb_true_iff in Hf as [Hf|Hf]; apply bool_decide_eq_true in Hf; auto.
  - by booleans.
  - booleans. split_and!; [done|by apply nick_okb_ok|]. intros m Hm Hne. pose proof (forallb_elem _ _ H m Hm) as Hb. cbn beta in Hb.
    rewrite bool_decide_eq_false_2 in Hb by done. cbn in Hb. booleans. lia.
  - apply andb_true_iff in H as [H Hon]. apply on_channel_ok in Hon as (Hp & nc & Hnc & Hc & Hf). booleans. split_and!; [done| |done|].
    + apply Forall_forall. intros e He. apply entry_okb_ok. by eapply forallb_elem.
    + exists nc. split_and!; [done..|]. intros n Hn. pose proof (forallb_elem _ _ Hf n Hn) as Hb. cbn beta in Hb. by booleans.
  - apply andb_true_iff in H as [H Hon]. apply on_channel_ok in Hon as (Hp & nc & Hnc & Hc & Hf). booleans. split_and!; [done|done|]. by exists nc.
Qed.
End decide.

Definition line_okb (ln : line) : bool := forallb plainb (words ln) && plainb (text ln).

Definition sent_byb (nick : cstr) (ln : line) : bool :=
  bool_decide (word ln 1 = nick) || bool_decide (take (S (length nick)) (word ln 1) = nick ++ ["!"%char]).

Definition carries_lineb (net : network) (h : happening) (hd : handler) (ln : line) : bool :=
  match h, hd with
  | Joins nick chan, NamedMsg type => bool_decide (type = ("JOIN" : cstr)) && sent_byb nick ln && bool_decide (drop_colon (word ln 3) = chan)
  | WeJoin chan _, NamedMsg type => bool_decide (type = ("JOIN" : cstr)) && sent_byb (n_me net) ln && bool_decide (drop_colon (word ln 3) = chan)
  | Leaves nick chan, NamedMsg type => bool_decide (type = ("PART" : cstr)) && sent_byb nick ln && bool_decide (drop_colon (word ln 3) = chan)
  | Kicked nick chan, NamedMsg type => bool_decide (type = ("KICK" : cstr)) && bool_decide (word ln 4 = nick) && bool_decide (word ln 3 = chan)
  | Quits nick, NamedMsg type => bool_decide (type = ("QUIT" : cstr)) && sent_byb nick ln
  | Renames old new, NamedMsg type => bool_decide (type = ("NICK" : cstr)) && sent_byb old ln && bool_decide (drop_colon (word_eol ln 3) = new)
  | Nothing, NamedMsg type =>
      bool_decide (type = ("MODE" : cstr)) && negb (bool_decide (word_eol ln 3 = [])) || bool_decide (type ∈ unconcerned)
  | NamesLine chan es, Numeric n _ =>
      (n =? 353) && bool_decide (word ln 5 = chan) && bool_decide (names_of ln = map (render (a_uh (n_agreed net))) es)
  | NamesEnd chan, Numeric n _ => (n =? 366) && bool_decide (word ln 4 = chan)
  | Nothing, Numeric n _ => bool_decide (n ∈ [301; 332; 315; 352])
  | _, _ => false
  end.

Definition case_clock : Clock := {| mktime _ := 0; get_timezone := 0 |}.

Definition carriesb (net : network) (c : client) (h : happening) (m : message) : bool :=
  match m with
  | Received serv l buf =>
      match irc_inline (H := glib_ref) (H0 := case_clock) serv l buf with
      | Some (Some x) => line_okb (il_line x) && bool_decide (batch_id (il_tags x) = None) && carries_lineb net h (il_handler x) (il_line x)
      | _ => false
      end
  | Disconnect _ delayed => match h with Lost => connected (w_serv (windows c)) || delayed | _ => false end
  end.

Lemma line_okb_ok ln : line_okb ln = true -> line_ok ln.
Proof.
  unfold line_okb. intros [H1 H2]%andb_true_iff. split; [|by apply plainb_spec]. apply Forall_forall. intros w Hw. apply plainb_spec. by eapply forallb_elem.
Qed.

Lemma sent_byb_ok nick ln : sent_byb nick ln = true -> sent_by nick ln.
Proof.
  unfold sent_byb. intros [H|H]%orb_true_iff; apply bool_decide_eq_true in H; [by left|right].
  exists (drop (S (length nick)) (word ln 1)). rewrite <- (take_drop (S (length nick)) (word ln 1)) at 1. by rewrite H, <- app_assoc.
Qed.

Lemma carries_lineb_ok net h hd ln : carries_lineb net h hd ln = true -> carries_line net h hd ln.
Proof.
  destruct h, hd as [type|n text|type]; cbn [carries_lineb]; try done; intros H;
    repeat match goal with
    | H : _ && _ = true |- _ => apply andb_true_iff in H as [? H]
    | H : bool_decide _ = true |- _ => apply bool_decide_eq_true in H
    | H : sent_byb _ _ = true |- _ => apply sent_byb_ok in H
    | H : (_ =? _) = true |- _ => apply Z.eqb_eq in H
    end; subst; try (by constructor).
  - constructor. rewrite !elem_of_cons, elem_of_nil in H. tauto.
  - apply orb_true_iff in H as [H|H].
    + apply andb_true_iff in H as [Ht Hw]. apply bool_decide_eq_true in Ht as ->. apply negb_true_iff, bool_decide_eq_false in Hw. by constructor.
    + apply bool_decide_eq_true in H. by constructor.
Qed.

Lemma carriesb_ok net c h m : carriesb net c h m = true -> carries glib_ref case_clock net c h m.
Proof.
  destruct m as [serv l buf|now delayed]; cbn [carriesb].
  - destruct (irc_inline serv l buf) as [[x|]|] eqn:E; [|done..]. intros [[H1 H2]%andb_true_iff H3]%andb_true_iff. apply bool_decide_eq_true in H2.
    apply (carry_line _ _ _ _ serv l buf x); [done|by apply line_okb_ok|done|by apply carries_lineb_ok].
  - destruct h; try done. intros H. by constructor.
Qed.

Definition told_by : Type := happening * message.

Section histories.
Context (p : client_prefs).

Fixpoint historyb (l : list told_by) (net : network) (c : client) : bool :=
  match l with
  | [] => true
  | (h, m) :: l =>
      possibleb (cmp_of net) (isup_of net) net h && carriesb net c h m &&
      match client_step glib_ref sqlite_ref case_clock p m c with Some c => historyb l (after (cmp_of net) h net) c | None => true end
  end.

Definition network_after (l : list told_by) (net : network) : network :=
  foldl (fun net hm => after (cmp_of net) hm.1 net) net l.

Lemma historyb_ok l net c : historyb l net c = true -> history glib_ref sqlite_ref case_clock p net c (map snd l) (network_after l net).
Proof.
  revert net c. induction l as [|[h m] l IH]; intros net c; cbn [historyb map network_after foldl]; [intros _; constructor|].
  intros [ [H1 H2]%andb_true_iff H3]%andb_true_iff. apply (history_more _ _ _ _ net c h m); [by apply possibleb_ok|by apply carriesb_ok|].
  intros c' E. rewrite E in H3. by apply IH.
Qed.
End histories.

(** ** Two channels *)

Definition case_prefs : client_prefs := ClientPrefs small_prefs true false false false false false (fun _ _ => false).

Definition case_server : server :=
  Server true true 50 0 rfc_casecmp isupport_example false false false false false 0 0 None false false false.

(** A connected client with its server tab. *)
Definition case_client (uhnames : bool) : client :=
  Client (Hub true "me" 0 ∅ ∅ ∅ (World case_server {[0%nat := session_new SESS_SERVER []]} [0%nat] (Some 0%nat) (Some fresh_db) ∅ []))
    {[0%nat := room_new]} (Some 0%nat) false uhnames true false false false false false false [] [].

Definition case_network (uhnames : bool) : network := Network (Agreed uhnames rfc_casecmp isupport_example) "me" [].

Lemma case_agrees uh : agrees (case_network uh) (case_client uh).
Proof.
  assert (Hwin : forall sid t ch, k_wins (skel (case_client uh)) !! sid = Some (t, ch) -> sid = 0%nat /\ t = SESS_SERVER /\ ch = []).
  { intros sid t ch. cbn. rewrite lookup_fmap. intros (s & Hs & [= -> ->])%fmap_Some. by apply lookup_singleton_Some in Hs as [<- <-]. }
  assert (Hus : forall sid u, k_users (skel (case_client uh)) !! sid = Some u -> sid = 0%nat /\ u = users_new).
  { intros sid u. cbn. rewrite lookup_fmap. intros (s & Hs & ->)%fmap_Some. by apply lookup_singleton_Some in Hs as [<- <-]. }
  assert (Hso : server_ok (k_server (skel (case_client uh)))).
  { split; [apply rfc_casecmp_order|reflexivity| |cbn; lia|reflexivity]. by apply (bool_decide_unpack _); vm_compute. }
  split.
  - split; try done.
    + exists 0%nat. split; [done|]. by left.
    + intros x Hx E. apply rfc_casecmp_zero in E; [by destruct x|apply Hx|by constructor].
    + intros sid. split.
      * intros ->%list_elem_of_singleton. by eexists.
      * intros [[t ch] Hw]. destruct (Hwin _ _ _ Hw) as (-> & _). by left.
    + apply NoDup_singleton.
    + intros sid. split; [intros [[t ch] Hw]; destruct (Hwin _ _ _ Hw) as (-> & _)|intros [u Hu]; destruct (Hus _ _ Hu) as [-> _] ]; by eexists.
    + intros sid ch Hw. by destruct (Hwin _ _ _ Hw) as (_ & ? & _).
    + intros sid u Hu. destruct (Hus _ _ Hu) as [_ ->]. by apply users_new_ok.
    + intros sid ch u Hw. by destruct (Hwin _ _ _ Hw) as (_ & ? & _).
    + intros sid t ch u _ _ Hu. destruct (Hus _ _ Hu) as [_ ->]. by apply (users_new_ok _ Hso).
    + intros nc ?%elem_of_nil. done.
    + intros sid sid' ch ch' Hw. by destruct (Hwin _ _ _ Hw) as (_ & ? & _).
  - assert (Hme : nick_ok isupport_example "me") by (apply nick_okb_ok; by vm_compute). split; try done.
    + by constructor.
    + intros m m' ->%list_elem_of_singleton ->%list_elem_of_singleton. done.
Qed.

Definition case_caps : caps := Caps true true true false true true.
Definition case_labels : labels := Labels ∅ ∅ false.
Definition recv (s : string) : message := Received case_caps case_labels (list_ascii_of_string s).

Definition case_history : list told_by :=
  [(WeJoin "#x" [("me" : cstr); ("ann" : cstr); ("bob" : cstr)], recv "@account=mine :me!u@h JOIN :#x");
   (NamesLine "#x" [Entry "@" "ann" (Some ("a@h" : cstr)); Entry [] "me" (Some ("u@h" : cstr))], recv ":srv 353 me = #x :@ann!a@h me!u@h ");
   (NamesLine "#x" [Entry "+" "bob" (Some ("b@h" : cstr))], recv ":srv 353 me = #x :+bob!b@h");
   (NamesEnd "#x", recv ":srv 366 me #x :End of /NAMES list.");
   (Joins "zoe" "#x", recv ":zoe!z@h JOIN #x * :Zoe");
   (Nothing, recv ":ann!a@h MODE #x +v zoe");
   (Renames "ann" "amy", recv "@account=anna :ann!a@h NICK :amy");
   (Quits "bob", recv ":bob!b@h QUIT :gone");
   (WeJoin "#y" [("me" : cstr)], recv ":me!u@h JOIN :#y");
   (Kicked "me" "#y", recv ":amy!a@h KICK #y me :out")].

Lemma channels_show_members_witness :
  exists c', client_run glib_ref sqlite_ref case_clock case_prefs (map snd case_history) (case_client true) = Some c' /\
    window_shows c' "#x" [("amy" : cstr); ("me" : cstr); ("zoe" : cstr)] /\ find_channel "#y" c' = None.
Proof.
  destruct (channels_show_members glib_ref sqlite_ref case_clock case_prefs (case_network true) (case_client true) (map snd case_history)
    (network_after case_history (case_network true))) as (c' & E & _ & Hch & Hno).
  - apply glib_ref_laws.
  - apply case_agrees.
  - apply historyb_ok. by vm_compute.
  - assert (Hx : n_chans (network_after case_history (case_network true)) = [NChan "#x" [("amy" : cstr); ("me" : cstr); ("zoe" : cstr)] [] false])
      by (vm_compute; reflexivity).
    rewrite Hx in Hch, Hno. exists c'. split; [exact E|]. split.
    + apply (Hch (NChan "#x" [("amy" : cstr); ("me" : cstr); ("zoe" : cstr)] [] false)); [by left|done].
    + apply Hno; [by apply plainb_spec|done|]. intros nc ->%list_elem_of_singleton. by vm_compute.
Defined.

(** ** Lines that go wrong *)

(** An entry of a NAMES reply that has only status prefixes, when hosts were
    agreed on: [strchr] also finds the terminator, and the loop reads on behind
    it. *)
Theorem names_prefixes_only_overread :
  client_run glib_ref sqlite_ref case_clock case_prefs
    [recv ":me!u@h JOIN :#x"; recv ":srv 353 me = #x :@ me!u@h"] (case_client true) = None.
Proof. by vm_compute. Qed.

Definition open_with (c : client) (chan : cstr) : option (list cstr) :=
  sid ← find_channel chan c; r ← rooms c !! sid; l ← userlist_flat_list (users r); Some (map (user_nick (users r)) l).

Definition run_lines (uh : bool) (l : list string) : option client :=
  client_run glib_ref sqlite_ref case_clock case_prefs (map recv l) (case_client uh).

(** JOIN compares our nick in the case mapping of the server, KICK and PART byte
    by byte: told in another case we lose ourselves from the list and keep the
    window of a channel we are no longer on. *)
Theorem own_part_other_case :
  (c ← run_lines false [":me!u@h JOIN :#x"; ":srv 353 me = #x :me ann"; ":srv 366 me #x :End"; ":ME!u@h PART #x"]; open_with c "#x")
    = Some [("ann" : cstr)] /\
  (c ← run_lines false [":me!u@h JOIN :#x"; ":srv 353 me = #x :me ann"; ":srv 366 me #x :End"; ":ann!a@h KICK #x ME"]; open_with c "#x")
    = Some [("ann" : cstr)] /\
  (c ← run_lines false [":ME!u@h JOIN :#x"; ":srv 353 me = #x :me ann"; ":srv 366 me #x :End"; ":me!u@h PART #x"]; open_with c "#x") = None.
Proof. by vm_compute. Qed.

(** The buffer for a name of a NAMES reply has the size of a nick and holds the
    status prefixes too: a nick of 63 bytes loses its last one, and its QUIT
    does not find it. *)
Definition long_nick : string := "a23456789012345678901234567890123456789012345678901234567890123".

Theorem names_long_nick_cut :
  String.length long_nick = 63%nat /\
  (c ← run_lines false [":me!u@h JOIN :#x"; (":srv 353 me = #x :me @" ++ long_nick)%string; ":srv 366 me #x :End"; (":" ++ long_nick ++ "!a@h QUIT")%string];
   open_with c "#x") = Some [list_ascii_of_string (String.substring 0 62 long_nick); ("me" : cstr)].
Proof. by vm_compute. Qed.
