(* ===== verification/TextEvents.v ===== *)
(** * Text events (src/common/text.c)

    The format strings of what is shown: [pevt_build_string] turns one into a
    byte code, [format_event] runs it over the arguments of an event, and
    pevents.conf keeps the strings.  The table of events is generated by the
    build and is an argument; so are [gettext] and the locale conversion.
    [None] is undefined behaviour. *)
From S2P Require Import Prelude Glib Text Access Isupport Proto.

(** ** check_special_chars (src/common/outbound.c) *)

(** [g_locale_to_utf8] of one byte. *)
Class Locale := { g_locale_to_utf8 : ascii -> option cstr }.

(** The byte for the letter behind a '%'. *)
Definition special_char (c : ascii) : option ascii :=
  if c =c "R" then Some "022"%char else if c =c "U" then Some "031"%char else if c =c "B" then Some "002"%char
  else if c =c "I" then Some "029"%char else if c =c "S" then Some "030"%char else if c =c "C" then Some "003"%char
  else if c =c "O" then Some "015"%char else if c =c "H" then Some HIDDEN_CHAR else if c =c "%" then Some "%"%char
  else None.

Definition digit (c : ascii) : Z := uchar c - 48.
Definition byte_of (z : Z) : ascii := ascii_of_nat (Z.to_nat (z mod 256)).

Section locale.
Context `{Locale}.

(** [atoi] of three digits, as a [char]. *)
Definition ascii_code (a b c : ascii) : cstr :=
  let byte := byte_of (100 * digit a + 10 * digit b + digit c) in
  match g_locale_to_utf8 byte with Some utf => utf | None => [byte] end.

Fixpoint special_chars (do_ascii : bool) (cmd : cstr) : cstr :=
  match cmd with
  | [] => []
  | c :: rest =>
      if c =c "%" then
        match rest with
        | [] => ["%"%char]
        | a :: rest1 =>
            let letter := match special_char a with
                          | Some x => x :: special_chars do_ascii rest1
                          | None => "%"%char :: special_chars do_ascii rest
                          end in
            match rest1 with
            | b :: d :: rest3 =>
                if do_ascii && isdigit a && isdigit b && isdigit d then ascii_code a b d ++ special_chars do_ascii rest3
                else letter
            | _ => letter
            end
        end
      else c :: special_chars do_ascii rest
  end.

(** The buffer has the size of [cmd]; it is copied back when a '%' was seen. *)
Definition check_special_chars (cmd : cstr) (do_ascii : bool) : option cstr :=
  let buf := special_chars do_ascii cmd in
  if Nat.ltb (length cmd) (length buf) then None else Some (c_string buf).

(** ** pevt_build_string *)

Inductive build_error := EndsWithDollar | EndsInA | RangeA | InvalidArgument (d : ascii).

Definition OUT_SIZE : Z := 4096.

(** [memcpy] of an [int] on a little-endian machine. *)
Definition int_bytes (n : Z) : cstr := map byte_of [n; n / 2 ^ 8; n / 2 ^ 16; n / 2 ^ 24].

(** The text gathered so far as an instruction. *)
Definition flush (o : cstr) : cstr :=
  match o with [] => [] | _ => "000"%char :: int_bytes (Z.of_nat (length o)) ++ o end.

(** [char] arithmetic: [d -= '0'] is cut to a signed byte. *)
Definition char_digit (d : ascii) : Z := schar (byte_of (schar d - 48)).

Definition push (x : ascii) (o : cstr) : option cstr :=
  if Z.of_nat (length o) <? OUT_SIZE then Some (o ++ [x]) else None.

Fixpoint build_loop (i o code : cstr) (max : Z) : option (build_error + cstr * Z) :=
  match i with
  | [] => Some (inr (code ++ flush o ++ ["002"%char], max))
  | d :: rest =>
      if negb (d =c "$") then o ← push d o; build_loop rest o code max
      else if peek rest =c "$" then o ← push "$"%char o; build_loop rest o code max
      else
        let code := code ++ flush o in
        match rest with
        | [] => Some (inl EndsWithDollar)
        | d :: rest =>
            if d =c "a" then
              match rest with
              | a :: b :: c :: rest =>
                  let x := char_digit a * 100 + char_digit b * 10 + char_digit c in
                  if 255 <? x then Some (inl RangeA) else build_loop rest [byte_of x] code max
              | _ => Some (inl EndsInA)
              end
            else if d =c "t" then build_loop rest [] (code ++ ["003"%char]) max
            else if (schar d <? 49) || (57 <? schar d) then Some (inl (InvalidArgument d))
            else build_loop rest [] (code ++ ["001"%char; byte_of (schar d - 49)]) (Z.max max (schar d - 48))
        end
  end.

(** The code and the highest argument. *)
Definition pevt_build_string (input : cstr) : option (build_error + cstr * Z) :=
  i ← check_special_chars input true; build_loop i [] [] (-1).
End locale.

(** ** format_event *)

(** A write behind what is in the buffer. *)
Definition write (size : Z) (s o : cstr) : option cstr :=
  if Z.of_nat (length o) + Z.of_nat (length s) <=? size then Some (o ++ s) else None.

Definition read_int (code : cstr) : option (Z * cstr) :=
  match code with
  | a :: b :: c :: d :: rest =>
      Some (wrap_i32 (uchar a + uchar b * 2 ^ 8 + uchar c * 2 ^ 16 + uchar d * 2 ^ 24), rest)
  | _ => None
  end.

(** The argument cut for the buffer, in the words of the caller. *)
Definition cut_arg (size : Z) (o ar : cstr) : cstr :=
  let left := (size - Z.of_nat (length o) - 4) mod 2 ^ 64 in
  if left <? Z.of_nat (length ar) then take (Z.to_nat left) ar else ar.

Definition shown_arg (stripcolor_args : Z) (a : Z) (ar : cstr) : option cstr :=
  if Z.testbit stripcolor_args (a + 1) then strip_color2 ar (-1) STRIP_ALL else Some (strip_hidden_attribute ar).

(** [strip_color2] ends its output. *)
Definition write_arg (size stripcolor_args a : Z) (ar o : cstr) : option cstr :=
  shown ← shown_arg stripcolor_args a ar;
  o' ← write size shown o;
  if Z.testbit stripcolor_args (a + 1) && (size <=? Z.of_nat (length o')) then None else Some o'.

(** [o]: what is written; the arguments are cut in place. *)
Fixpoint run_format (fuel : nat) (numargs size stripcolor_args : Z) (code : cstr) (args : list (option cstr)) (o : cstr)
    : option (cstr * list (option cstr)) :=
  match fuel with
  | O => None
  | S fuel =>
      match code with
      | [] => None
      | d :: code =>
          if d =c "000" then
            '(len, code) ← read_int code;
            if size <? (Z.of_nat (length o) + len) mod 2 ^ 64 then Some ([], args)
            else if len <? 0 then None
            else if Z.of_nat (length code) <? len then None
            else
              o ← write size (take (Z.to_nat len) code) o;
              run_format fuel numargs size stripcolor_args (drop (Z.to_nat len) code) args o
          else if d =c "001" then
            match code with
            | [] => None
            | b :: code =>
                let a := schar b in
                if numargs <? a then run_format fuel numargs size stripcolor_args code args o
                else
                  arg ← zlookup args (a + 1);
                  match arg with
                  | None => run_format fuel numargs size stripcolor_args code args o
                  | Some ar =>
                      let ar := cut_arg size o ar in
                      o ← write_arg size stripcolor_args a ar o;
                      run_format fuel numargs size stripcolor_args code (<[Z.to_nat (a + 1) := Some ar]> args) o
                  end
            end
          else if d =c "002" then
            o ← write size [LF; NUL] o;
            o ← write size [NUL] o;
            Some (o, args)
          else if d =c "003" then
            o ← write size ["009"%char] o; run_format fuel numargs size stripcolor_args code args o
          else run_format fuel numargs size stripcolor_args code args o
      end
  end.

(** What is in the buffer at the end, as a string. *)
Definition format_event (code : option cstr) (numargs : Z) (args : list (option cstr)) (size stripcolor_args : Z)
    : option (cstr * list (option cstr)) :=
  match code with
  | None => Some ([], args)
  | Some code =>
      '(o, args) ← run_format (S (length code)) numargs size stripcolor_args code args [];
      Some (if peek o =c LF then [] else c_string o, args)
  end.

(** ** The table of events and pevents.conf *)

(** [num_args] with the 128 of an untranslated text. *)
Record text_event_def := TextEventDef { te_name : cstr; te_num_args : Z; te_def : cstr }.

Record event_texts := EventTexts { pntevts_text : list (option cstr); pntevts : list (option cstr) }.

Definition untranslated (e : text_event_def) : bool := Z.testbit (te_num_args e) 7.

Definition default_text (gettext : cstr -> cstr) (e : text_event_def) : cstr :=
  if untranslated e then te_def e else gettext (te_def e).

Section events.
Context (te : list text_event_def) (gettext : cstr -> cstr).

Definition named_event (name : cstr) (j : nat) : bool :=
  match te !! j with Some e => bool_decide (te_name e = name) | None => false end.

(** From the event after [i] round to [i] itself. *)
Definition pevent_find (name : cstr) (i : nat) : option nat :=
  List.find (named_event name) (seq (S i) (length te - S i) ++ seq 0 (S i)).

(** The state of [pevent_load]: where the last search ended, the event whose
    text is read (None: -1), the text. *)
Record load_state := LoadState { ls_i : nat; ls_penum : option nat; ls_text : option cstr; ls_texts : list (option cstr) }.

Definition pevent_trigger_load (s : load_state) : load_state :=
  LoadState (ls_i s) (Some O) None
    (match ls_penum s, ls_text s with Some e, Some t => <[e := Some t]> (ls_texts s) | _, _ => ls_texts s end).

Definition load_line (buf : cstr) (s : load_state) : load_state :=
  if peek buf =c "#" then s
  else
    match buf, index_of "=" buf with
    | [], _ | _, None => s
    | _, Some k =>
        let key := take k buf in
        let ofs := drop (S k) buf in
        if bool_decide (key = ("event_name" : cstr)) then
          let s := match ls_penum s with Some _ => pevent_trigger_load s | None => s end in
          match pevent_find ofs (ls_i s) with
          | Some j => LoadState j (Some j) (ls_text s) (ls_texts s)
          | None => LoadState (ls_i s) None (ls_text s) (ls_texts s)
          end
        else if bool_decide (key = ("event_text" : cstr)) then LoadState (ls_i s) (ls_penum s) (Some ofs) (ls_texts s)
        else s
    end.

(** Every line of the file that is ended. *)
Fixpoint load_lines (fuel : nat) (ibuf : cstr) (pnt : nat) (s : load_state) : load_state :=
  match fuel with
  | O => s
  | S fuel =>
      match buf_get_line ibuf pnt with
      | None => s
      | Some (buf, pnt) => load_lines fuel ibuf pnt (load_line (c_string buf) s)
      end
  end.

Definition pevent_load (ibuf : cstr) (texts : list (option cstr)) : list (option cstr) :=
  ls_texts (pevent_trigger_load (load_lines (S (length ibuf)) ibuf 0 (LoadState 0 (Some O) None texts))).

(** [g_snprintf] into the 1024 bytes of [buf] and [write] of its result, which
    is the length the whole text would have. *)
Definition write_line (s : cstr) : option cstr :=
  if Nat.leb (length s) 1023 then Some s else if Nat.eqb (length s) 1024 then Some (take 1023 s ++ [NUL]) else None.

Fixpoint save_events (te : list text_event_def) (texts : list (option cstr)) : option cstr :=
  match te, texts with
  | [], _ => Some []
  | e :: te, t :: texts =>
      name ← write_line (fmt [("event_name=" : cstr); te_name e; [LF]]);
      text ← write_line (fmt [("event_text=" : cstr); default ("(null)" : cstr) t; [LF; LF]]);
      rest ← save_events te texts;
      Some (name ++ text ++ rest)
  | _, [] => None
  end.

Definition pevent_save (texts : list (option cstr)) : option cstr := save_events te texts.

Definition pevent_load_defaults : list (option cstr) := map (fun e => Some (default_text gettext e)) te.

Definition pevent_check_all_loaded (texts : list (option cstr)) : list (option cstr) :=
  zip_with (fun e t => match t with None => Some (default_text gettext e) | t => t end) te texts.

Context `{Locale}.

(** The text used for an event and its code; a default that cannot be built ends
    the program (the error). *)
Definition make_event (e : text_event_def) (text : cstr) : option (unit + cstr * cstr) :=
  r ← pevt_build_string text;
  match r with
  | inr (code, _) => Some (inr (text, code))
  | inl _ =>
      r ← pevt_build_string (default_text gettext e);
      match r, untranslated e with
      | inl _, true => Some (inl tt)
      | _, _ =>
          r ← pevt_build_string (te_def e);
          match r with inr (code, _) => Some (inr (te_def e, code)) | inl _ => Some (inl tt) end
      end
  end.

Fixpoint make_events (te : list text_event_def) (texts : list (option cstr)) : option (unit + list (cstr * cstr)) :=
  match te, texts with
  | [], _ => Some (inr [])
  | e :: te, Some t :: texts =>
      r ← make_event e t;
      match r with
      | inl u => Some (inl u)
      | inr x => rest ← make_events te texts; Some (match rest with inl u => inl u | inr l => inr (x :: l) end)
      end
  | _, _ => None
  end.

Definition pevent_make_pntevts (texts : list (option cstr)) : option (unit + event_texts) :=
  r ← make_events te texts;
  Some (match r with inl u => inl u | inr l => inr (EventTexts (map (fun x => Some x.1) l) (map (fun x => Some x.2) l)) end).

(** [file]: what pevents.conf holds, if it is there. *)
Definition load_text_events (file : option cstr) : option (unit + event_texts) :=
  let empty := map (fun _ => None) te in
  let texts := match file with Some ibuf => pevent_load ibuf empty | None => pevent_load_defaults end in
  pevent_make_pntevts (pevent_check_all_loaded texts).

(** [display_event]: the text of an event, and the string that is printed. *)
Definition display_event (t : event_texts) (event : nat) (args : list (option cstr)) (stripcolor_args : Z) : option cstr :=
  e ← te !! event; code ← pntevts t !! event;
  '(o, _) ← format_event code (te_num_args e mod 2 ^ 7) args OUT_SIZE stripcolor_args;
  Some o.

Definition text_find_format_string (name : cstr) (t : event_texts) : option cstr :=
  i ← pevent_find name 0; mjoin (pntevts_text t !! i).
End events.

(** ** Colours of nicks *)

Definition rcolors : list Z := [19; 20; 22; 24; 25; 26; 27; 28; 29].

(** The sum is an [int]; the division is of [size_t]. *)
Definition text_color_of (name : cstr) : option Z :=
  zlookup rcolors ((foldl (fun sum c => sum + schar c) 0 name) mod 2 ^ 64 mod Z.of_nat (length rcolors)).
