(* ===== verification/TextEventsSpec.v ===== *)
(** * Text events show what their format says (src/common/text.c)

    A format read as a list of atoms: its text is compiled and run to the text
    the atoms stand for, as long as it fits the buffer; pevents.conf written and
    read again gives the same formats. *)
From S2P Require Import Prelude Glib Text Access Isupport Proto TextEvents.

(** ** Formats *)

(** The styles of a text, with the letter behind the percent sign and the byte
    that switches each (src/fe-gtk/xtext.h). *)
Inductive style := Reverse | Underline | Bold | Italics | Strike | Color | Plain | Hidden.

Definition style_letter (x : style) : ascii :=
  match x with Reverse => "R" | Underline => "U" | Bold => "B" | Italics => "I" | Strike => "S" | Color => "C" | Plain => "O" | Hidden => "H" end%char.
Definition style_byte (x : style) : ascii :=
  match x with Reverse => "022" | Underline => "031" | Bold => "002" | Italics => "029" | Strike => "030" | Color => "003" | Plain => "015" | Hidden => "008" end%char.

(** A piece of a format: a character, a style, a byte by its number, an argument, a tab. *)
Inductive atom := Char (c : ascii) | Style (x : style) | Byte (n : nat) | Arg (k : nat) | Tab.

Definition arg_digit (k : nat) : ascii := ascii_of_nat (48 + k).

(** A format as [build_loop] reads it, and as it is written in the file. *)
Definition three_digits (n : nat) : cstr := [arg_digit (n / 100); arg_digit ((n / 10) `mod` 10); arg_digit (n `mod` 10)].
Definition mid_atom (a : atom) : cstr :=
  match a with
  | Char c => [c]
  | Style x => [style_byte x]
  | Byte n => ["$"%char; "a"%char] ++ three_digits n
  | Arg k => ["$"%char; arg_digit k]
  | Tab => ["$"%char; "t"%char]
  end.
Definition mid (l : list atom) : cstr := concat (map mid_atom l).
Definition spell_atom (a : atom) : cstr :=
  match a with
  | Char c => if c =c "%" then ["%"%char; "%"%char] else [c]
  | Style x => ["%"%char; style_letter x]
  | a => mid_atom a
  end.
Definition spell (l : list atom) : cstr := concat (map spell_atom l).

(** A plain dollar sign stands in front of another one. *)
Definition dollar_first (l : list atom) : Prop :=
  match l with Char c :: _ => c = "$"%char | (Byte _ | Arg _ | Tab) :: _ => True | _ => False end.
Fixpoint dollars_ok (l : list atom) : Prop :=
  match l with [] => True | Char c :: l => (c = "$"%char -> dollar_first l) /\ dollars_ok l | _ :: l => dollars_ok l end.

Definition atom_ok (numargs : Z) (args : list (option cstr)) (a : atom) : Prop :=
  match a with
  | Char c => c <> NUL
  | Byte n => (1 <= n <= 255)%nat
  | Arg k => (1 <= k <= 9)%nat /\ Z.of_nat k <= numargs /\ exists ar, args !! k = Some (Some ar) /\ nonul ar
  | Style _ | Tab => True
  end.

(** What an atom stands for, and the room it is given. *)
Definition shown (flags : Z) (args : list (option cstr)) (k : nat) : cstr :=
  match args !! k with
  | Some (Some ar) => if Z.testbit flags (Z.of_nat k) then strip_loop ar (length ar) STRIP_ALL 0 0 else strip_hidden_attribute ar
  | _ => []
  end.
Definition meaning (flags : Z) (args : list (option cstr)) (a : atom) : cstr :=
  match a with Char c => [c] | Style x => [style_byte x] | Byte n => [ascii_of_nat n] | Arg k => shown flags args k | Tab => ["009"%char] end.
Definition denote (flags : Z) (args : list (option cstr)) (l : list atom) : cstr := concat (map (meaning flags args) l).
Definition room (args : list (option cstr)) (a : atom) : nat :=
  match a with Arg k => match args !! k with Some (Some ar) => length ar | _ => 0 end | _ => 1 end.

Definition highest (l : list atom) (max : Z) : Z :=
  foldl (fun m a => match a with Arg k => Z.max m (Z.of_nat k) | _ => m end) max l.

(** The code of a format behind the text [o] gathered so far. *)
Fixpoint gen (o : cstr) (l : list atom) : cstr :=
  match l with
  | [] => flush o ++ ["002"%char]
  | Char c :: l => gen (o ++ [c]) l
  | Style x :: l => gen (o ++ [style_byte x]) l
  | Byte n :: l => flush o ++ gen [ascii_of_nat n] l
  | Arg k :: l => flush o ++ ["001"%char; byte_of (Z.of_nat k - 1)] ++ gen [] l
  | Tab :: l => flush o ++ ["003"%char] ++ gen [] l
  end.

(** ** Building *)

Lemma arg_digit_plain k : (k <= 9)%nat -> arg_digit k <> "%"%char.
Proof. intros Hk. do 10 (destruct k as [|k]; [done|]). lia. Qed.

Lemma special_chars_plain `{Locale} s t : "%"%char ∉ s -> special_chars true (s ++ t) = s ++ special_chars true t.
Proof.
  induction s as [|c s IH]; intros Hs; [done|]. apply not_elem_of_cons in Hs as [Hc Hs]. cbn [app special_chars].
  rewrite (proj2 (Ascii.eqb_neq c "%")) by done. by rewrite IH.
Qed.

(** The letter behind a percent sign is no digit. *)
Lemma special_chars_letter `{Locale} a x t :
  special_char a = Some x -> isdigit a = false -> special_chars true ("%"%char :: a :: t) = x :: special_chars true t.
Proof. intros Hx Ha. cbn [special_chars]. change ("%"%char =c "%") with true. cbv iota. rewrite Ha, Hx. by destruct t as [|? [|? ?]]. Qed.

Lemma spell_atom_read `{Locale} numargs args a t :
  atom_ok numargs args a -> special_chars true (spell_atom a ++ t) = mid_atom a ++ special_chars true t.
Proof.
  intros Ha. destruct a as [c|x|n|k|]; cbn [spell_atom mid_atom].
  - destruct (Ascii.eqb_spec c "%") as [->|Hc]; [by apply special_chars_letter|]. apply special_chars_plain. intros E%list_elem_of_singleton. by apply Hc.
  - cbn [app]. destruct x; by apply special_chars_letter.
  - apply special_chars_plain. cbn in Ha. intros Hin. unfold three_digits in Hin.
    assert (n / 100 <= 9 /\ (n / 10) `mod` 10 <= 9 /\ n `mod` 10 <= 9)%nat as (B1 & B2 & B3).
    { pose proof (Nat.mod_upper_bound (n / 10) 10). pose proof (Nat.mod_upper_bound n 10). pose proof (Nat.Div0.div_le_mono n 999 100).
      change (999 / 100)%nat with 9%nat in *. lia. }
    cbn [app] in Hin. set_unfold in Hin. destruct Hin as [?|[?|[E|[E|[E|?]]]]]; try done; symmetry in E; revert E; by apply arg_digit_plain.
  - destruct Ha as ((_ & Hk) & _). apply special_chars_plain. intros Hin. set_unfold in Hin. destruct Hin as [?|[E|?]]; try done.
    symmetry in E. revert E. by apply arg_digit_plain.
  - apply special_chars_plain. by apply (bool_decide_unpack _); vm_compute.
Qed.

Lemma spell_length l : (length (mid l) <= length (spell l))%nat.
Proof.
  unfold mid, spell. induction l as [|a l IH]; [done|]. cbn [map concat]. rewrite !length_app.
  assert (length (mid_atom a) <= length (spell_atom a))%nat; [|lia]. destruct a as [c|x|n|k|]; cbn [spell_atom mid_atom]; try done; [by destruct (c =c "%"); cbn; lia|cbn; lia].
Qed.

Lemma spell_read `{Locale} numargs args l : Forall (atom_ok numargs args) l -> nonul (mid l) -> check_special_chars (spell l) true = Some (mid l).
Proof.
  intros Hl Hn. assert (E : special_chars true (spell l) = mid l).
  { clear Hn. induction Hl as [|a l Ha Hl IH]; [done|]. unfold spell, mid in *. cbn [map concat]. erewrite spell_atom_read by done. by rewrite IH. }
  unfold check_special_chars. rewrite E. rewrite (proj2 (Nat.ltb_ge _ _) (spell_length l)). by rewrite c_string_nonul.
Qed.

Lemma arg_digit_facts k : (1 <= k <= 9)%nat ->
  arg_digit k <> "$"%char /\ arg_digit k <> "a"%char /\ arg_digit k <> "t"%char /\ schar (arg_digit k) = 48 + Z.of_nat k.
Proof.
  intros Hk. assert (Hall : forall j, j ∈ seq 1 9 -> arg_digit j <> "$"%char /\ arg_digit j <> "a"%char /\ arg_digit j <> "t"%char /\ schar (arg_digit j) = 48 + Z.of_nat j).
  { apply Forall_forall. repeat (constructor; [done|]). constructor. }
  apply Hall, elem_of_seq. lia.
Qed.

Definition chars (l : list atom) : nat := list_sum (map (fun a => match a with Char _ | Style _ | Byte _ => 1%nat | _ => 0%nat end) l).

Lemma byte_facts n : (1 <= n <= 255)%nat ->
  char_digit (arg_digit (n / 100)) * 100 + char_digit (arg_digit ((n / 10) `mod` 10)) * 10 + char_digit (arg_digit (n `mod` 10)) = Z.of_nat n /\
  byte_of (Z.of_nat n) = ascii_of_nat n /\ ascii_of_nat n <> NUL /\ NUL ∉ three_digits n.
Proof.
  intros Hn. assert (Hall : forall j, j ∈ seq 1 255 ->
    char_digit (arg_digit (j / 100)) * 100 + char_digit (arg_digit ((j / 10) `mod` 10)) * 10 + char_digit (arg_digit (j `mod` 10)) = Z.of_nat j /\
    byte_of (Z.of_nat j) = ascii_of_nat j /\ ascii_of_nat j <> NUL /\ NUL ∉ three_digits j).
  { apply Forall_forall. apply (bool_decide_unpack _). vm_compute. exact I. }
  apply Hall, elem_of_seq. lia.
Qed.

Lemma dollar_first_peek l : dollar_first l -> peek (mid l) = "$"%char /\ mid l <> [].
Proof. destruct l as [|[c|x|n|k|] l]; try done; by intros ->. Qed.

Lemma dollars_ok_tail a l : dollars_ok (a :: l) -> dollars_ok l.
Proof. destruct a; cbn; tauto. Qed.

(** The longest run of text between two instructions stays in the buffer. *)
Lemma build_mid numargs args l o code max :
  Forall (atom_ok numargs args) l -> dollars_ok l -> Z.of_nat (length o) + Z.of_nat (chars l) <= OUT_SIZE ->
  build_loop (mid l) o code max = Some (inr (code ++ gen o l, highest l max)).
Proof.
  intros Hl Hd. revert o code max. induction Hl as [|a l Ha Hl IH]; intros o code max Hlen; [done|].
  specialize (IH (dollars_ok_tail _ _ Hd)). unfold mid, chars in *. cbn [map concat gen highest foldl].
  cbn [map list_sum foldr] in Hlen. fold (list_sum (map (fun a => match a with Char _ | Style _ | Byte _ => 1%nat | _ => 0%nat end) l)) in Hlen.
  destruct a as [c|x|n|k|]; cbn [mid_atom].
  - destruct (Ascii.eqb_spec c "$") as [->|Hc].
    + destruct Hd as [Hd _]. destruct (dollar_first_peek l (Hd eq_refl)) as [Hp _]. unfold mid in Hp. cbn [app build_loop].
      change ("$"%char =c "$") with true. cbn [negb]. rewrite Hp. change ("$"%char =c "$") with true. cbv iota. unfold push.
      rewrite (proj2 (Z.ltb_lt _ _)) by lia. cbn [mbind option_bind]. apply IH. rewrite length_app. cbn. lia.
    + cbn [app build_loop]. rewrite (proj2 (Ascii.eqb_neq c "$") Hc). cbn [negb]. unfold push.
      rewrite (proj2 (Z.ltb_lt _ _)) by lia. cbn [mbind option_bind]. apply IH. rewrite length_app. cbn. lia.
  - cbn [app build_loop]. rewrite (proj2 (Ascii.eqb_neq (style_byte x) "$")) by by destruct x. cbn [negb]. unfold push.
    rewrite (proj2 (Z.ltb_lt _ _)) by lia. cbn [mbind option_bind]. apply IH. rewrite length_app. cbn. lia.
  - destruct (byte_facts n Ha) as (E & Eb & _). cbn in Ha. unfold three_digits. cbn [app build_loop peek hd].
    change ("$"%char =c "$") with true. change ("a"%char =c "$") with false. change ("a"%char =c "a") with true. cbn [negb]. cbv zeta iota.
    rewrite E. rewrite (proj2 (Z.ltb_ge _ _)) by lia. rewrite Eb. rewrite IH by (cbn [length]; lia). by rewrite <- app_assoc.
  - destruct Ha as (Hk & _ & _). destruct (arg_digit_facts k Hk) as (F1 & F2 & F3 & F4).
    cbn [app build_loop peek hd]. change ("$"%char =c "$") with true. cbn [negb].
    rewrite (proj2 (Ascii.eqb_neq _ _) F1), (proj2 (Ascii.eqb_neq _ _) F2), (proj2 (Ascii.eqb_neq _ _) F3), F4.
    assert (E : (48 + Z.of_nat k <? 49) || (57 <? 48 + Z.of_nat k) = false) by lia. rewrite E.
    rewrite IH by (cbn [length]; lia). rewrite <- !app_assoc. cbn [app]. replace (48 + Z.of_nat k - 49) with (Z.of_nat k - 1) by lia. by replace (48 + Z.of_nat k - 48) with (Z.of_nat k) by lia.
  - cbn [app]. cbn [build_loop]. cbn. rewrite IH by (cbn [length]; lia). by rewrite <- !app_assoc.
Qed.

(** ** Running *)

Lemma int_bytes_read n rest : 0 <= n < 2 ^ 31 -> read_int (int_bytes n ++ rest) = Some (n, rest).
Proof.
  intros Hn. unfold int_bytes. cbn [map app read_int]. do 2 f_equal.
  assert (Hb : forall z, uchar (byte_of z) = z mod 256).
  { intros z. unfold byte_of, uchar. assert (0 <= z mod 256 < 256) by (apply Z.mod_pos_bound; lia).
    rewrite <- (Z2Nat.id (z mod 256)) at 2 by lia. unfold ascii_of_nat. rewrite N_ascii_embedding by lia. lia. }
  rewrite !Hb.
  assert (E : n mod 256 + (n / 2 ^ 8) mod 256 * 2 ^ 8 + (n / 2 ^ 16) mod 256 * 2 ^ 16 + (n / 2 ^ 24) mod 256 * 2 ^ 24 = n).
  { replace (n / 2 ^ 16) with (n / 2 ^ 8 / 256) by (by rewrite Z.div_div). replace (n / 2 ^ 24) with (n / 2 ^ 8 / 256 / 256) by (by rewrite !Z.div_div).
    rewrite (Z.mod_small (n / 2 ^ 8 / 256 / 256)) by (Z.to_euclidean_division_equations; lia). Z.to_euclidean_division_equations. lia. }
  rewrite E. unfold wrap_i32. rewrite Z.mod_small by lia. lia.
Qed.

Lemma strip_color_length ar : strip_color2 ar (-1) STRIP_ALL = Some (strip_loop ar (length ar) STRIP_ALL 0 0) /\
  (length (strip_loop ar (length ar) STRIP_ALL 0 0) <= length ar)%nat.
Proof.
  unfold strip_color2. rewrite Z.eqb_refl, Z.ltb_irrefl, Nat2Z.id. split; [done|].
  pose proof (strip_loop_sublist ar (length ar) STRIP_ALL 0 0 (le_n _)) as Hs. apply sublist_length in Hs. by rewrite take_ge in Hs.
Qed.

Lemma strip_hidden_length ar : (length (strip_hidden_attribute ar) <= length ar)%nat.
Proof. induction ar as [|c ar IH]; [done|]. cbn. destruct (negb _); cbn; lia. Qed.

Lemma write_fits size s o : Z.of_nat (length o) + Z.of_nat (length s) <= size -> write size s o = Some (o ++ s).
Proof. intros Hl. unfold write. by rewrite (proj2 (Z.leb_le _ _) Hl). Qed.

Section running.
Context (numargs size flags : Z) (Hsize : size < 2 ^ 31).

Lemma run_flush fuel o rest args out :
  Z.of_nat (length out) + Z.of_nat (length o) <= size -> o <> [] ->
  run_format (S fuel) numargs size flags (flush o ++ rest) args out = run_format fuel numargs size flags rest args (out ++ o).
Proof.
  intros Hl Ho. unfold flush. destruct o as [|x o]; [done|]. set (s := x :: o) in *. cbn [app run_format].
  change ("000"%char =c "000") with true. cbv iota. rewrite <- app_assoc, int_bytes_read by lia. cbn [mbind option_bind].
  rewrite Z.mod_small by lia. rewrite (proj2 (Z.ltb_ge _ _)) by lia. rewrite (proj2 (Z.ltb_ge _ _)) by lia.
  rewrite (proj2 (Z.ltb_ge _ _)) by (rewrite length_app; lia). rewrite Nat2Z.id, take_app_length, drop_app_length.
  by rewrite write_fits by lia.
Qed.

(** One argument. *)
Lemma run_arg fuel k rest args out :
  atom_ok numargs args (Arg k) -> Z.of_nat (length out) + Z.of_nat (room args (Arg k)) + 4 <= size ->
  run_format (S fuel) numargs size flags ("001"%char :: byte_of (Z.of_nat k - 1) :: rest) args out =
    run_format fuel numargs size flags rest args (out ++ shown flags args k) /\ (length (shown flags args k) <= room args (Arg k))%nat.
Proof.
  intros (Hk & Hn & ar & Har & _) Hl. cbn [room] in *. unfold shown. rewrite Har in *.
  assert (Hb : schar (byte_of (Z.of_nat k - 1)) = Z.of_nat k - 1).
  { assert (Hall : forall j, j ∈ seq 1 9 -> schar (byte_of (Z.of_nat j - 1)) = Z.of_nat j - 1).
    { apply Forall_forall. repeat (constructor; [done|]). constructor. }
    apply Hall, elem_of_seq. lia. }
  destruct (strip_color_length ar) as [Es Hs]. pose proof (strip_hidden_length ar) as Hh.
  split; [|by destruct (Z.testbit _ _)].
  cbn [run_format]. change ("001"%char =c "000") with false. change ("001"%char =c "001") with true. cbv iota. rewrite Hb.
  rewrite (proj2 (Z.ltb_ge _ _)) by lia. rewrite Z.sub_add, zlookup_nat, Har. cbn [mbind option_bind].
  assert (Hcut : cut_arg size out ar = ar).
  { unfold cut_arg. rewrite Z.mod_small by lia. by rewrite (proj2 (Z.ltb_ge _ _)) by lia. }
  rewrite Hcut. unfold write_arg, shown_arg. rewrite Z.sub_add, Nat2Z.id, list_insert_id by done.
  destruct (Z.testbit flags (Z.of_nat k)); rewrite ?Es; cbn [mbind option_bind andb].
  - rewrite write_fits by lia. cbn [mbind option_bind]. rewrite (proj2 (Z.leb_gt _ _)) by (rewrite length_app; lia). done.
  - by rewrite write_fits by lia.
Qed.

Definition rooms (args : list (option cstr)) (l : list atom) : nat := list_sum (map (room args) l).

Lemma run_gen l o out fuel args :
  Forall (atom_ok numargs args) l -> Z.of_nat (length out + length o + rooms args l) + 4 <= size -> (length (gen o l) < fuel)%nat ->
  run_format fuel numargs size flags (gen o l) args out = Some (out ++ o ++ denote flags args l ++ [LF; NUL; NUL], args).
Proof.
  intros Hl. revert o out fuel. induction Hl as [|a l Ha Hl IH]; intros o out fuel Hr Hfuel.
  - cbn [gen] in *. unfold rooms in Hr. cbn in Hr.
    assert (Hend : forall fuel out, (0 < fuel)%nat -> Z.of_nat (length out) + 4 <= size ->
      run_format fuel numargs size flags ["002"%char] args out = Some (out ++ [LF; NUL; NUL], args)).
    { intros [|f] out' Hf Ho; [lia|]. cbn [run_format]. change ("002"%char =c "000") with false. change ("002"%char =c "001") with false.
      change ("002"%char =c "002") with true. cbv iota. rewrite write_fits by (cbn; lia). cbn [mbind option_bind].
      rewrite write_fits by (rewrite length_app; cbn; lia). cbn [mbind option_bind]. by rewrite <- app_assoc. }
    destruct (decide (o = [])) as [->|Ho].
    + cbn [flush app] in *. rewrite Hend; [done|lia|cbn in Hr; lia].
    + destruct fuel as [|fuel]; [lia|]. rewrite run_flush by (done || lia). rewrite Hend.
      * by rewrite <- app_assoc.
      * rewrite length_app in Hfuel. destruct o; [done|]. cbn in Hfuel. lia.
      * rewrite length_app. lia.
  - unfold rooms in *. cbn [map list_sum foldr] in Hr. fold (list_sum (map (room args) l)) in Hr.
    assert (Hflush : forall f (rest : cstr) (P : option (cstr * list (option cstr))),
      (length (flush o ++ rest) < f)%nat ->
      (forall f', (length rest < f')%nat -> run_format f' numargs size flags rest args (out ++ o) = P) ->
      run_format f numargs size flags (flush o ++ rest) args out = P).
    { intros f rest P Hf Hrest. destruct (decide (o = [])) as [->|Ho].
      - cbn [flush app] in *. rewrite app_nil_r in Hrest. by apply Hrest.
      - destruct f as [|f]; [lia|]. rewrite run_flush by (done || lia). apply Hrest. rewrite length_app in Hf.
        destruct o; [done|]. cbn in Hf. lia. }
    unfold denote in *. cbn [map concat]. destruct a as [c|x|n|k|]; cbn [gen meaning room] in *.
    + rewrite IH; [|rewrite length_app; cbn; lia|done]. by rewrite <- !app_assoc.
    + rewrite IH; [|rewrite length_app; cbn; lia|done]. by rewrite <- !app_assoc.
    + apply (Hflush fuel (gen [ascii_of_nat n] l)); [done|]. intros f' Hf'. rewrite IH; [|rewrite length_app; cbn; lia|done].
      by rewrite <- !app_assoc.
    + apply (Hflush fuel ("001"%char :: byte_of (Z.of_nat k - 1) :: gen [] l)); [done|]. intros f' Hf'. cbn [length] in Hf'.
      destruct f' as [|f']; [lia|]. destruct (run_arg f' k (gen [] l) args (out ++ o) Ha) as [-> Hs]; [cbn [room]; rewrite length_app; lia|].
      cbn [room] in Hs. rewrite IH; [|rewrite !length_app; cbn; lia|lia]. cbn [app]. by rewrite <- !app_assoc.
    + apply (Hflush fuel ("003"%char :: gen [] l)); [done|]. intros f' Hf'. cbn [length] in Hf'.
      destruct f' as [|f']; [lia|]. cbn [run_format]. change ("003"%char =c "000") with false. change ("003"%char =c "001") with false.
      change ("003"%char =c "002") with false. change ("003"%char =c "003") with true. cbv iota.
      rewrite write_fits by (rewrite length_app; cbn; lia). cbn [mbind option_bind]. rewrite IH; [|rewrite !length_app; cbn; lia|lia].
      cbn [app]. by rewrite <- !app_assoc.
Qed.
End running.

(** ** The string shown *)

Lemma strip_hidden_nonul ar : nonul ar -> nonul (strip_hidden_attribute ar).
Proof. induction 1 as [|c ar Hc Har IH]; [constructor|]. cbn. destruct (negb _); [by constructor|done]. Qed.

Lemma nonul_sublist s t : sublist s t -> nonul t -> nonul s.
Proof.
  intros Hs Ht. apply Forall_forall. intros c Hc. unfold nonul in Ht. rewrite Forall_forall in Ht. apply Ht.
  apply (elem_of_submseteq s); [done|by apply sublist_submseteq].
Qed.

Lemma shown_nonul numargs args flags k : atom_ok numargs args (Arg k) -> nonul (shown flags args k).
Proof.
  intros (_ & _ & ar & Har & Hn). unfold shown. rewrite Har. destruct (Z.testbit _ _); [|by apply strip_hidden_nonul].
  eapply nonul_sublist; [apply strip_loop_sublist; done|]. by rewrite take_ge.
Qed.

Lemma denote_nonul numargs args flags l : Forall (atom_ok numargs args) l -> nonul (denote flags args l).
Proof.
  induction 1 as [|a l Ha Hl IH]; [constructor|]. unfold denote. cbn [map concat]. apply nonul_app. split; [|done].
  destruct a as [c|x|n|k|]; cbn [meaning]; [by constructor|by constructor; [destruct x|]| |by eapply shown_nonul|by constructor].
  constructor; [|constructor]. by apply byte_facts.
Qed.

Lemma mid_nonul numargs args l : Forall (atom_ok numargs args) l -> nonul (mid l).
Proof.
  induction 1 as [|a l Ha Hl IH]; [constructor|]. unfold mid. cbn [map concat]. apply nonul_app. split; [|done].
  destruct a as [c|x|n|k|]; cbn [mid_atom].
  - by repeat constructor.
  - constructor; [|constructor]. by destruct x.
  - apply nonul_app. split; [by repeat constructor|]. destruct (byte_facts n Ha) as (_ & _ & _ & Hn). apply Forall_forall. by intros c Hc ->.
  - constructor; [done|]. constructor; [|constructor]. intros E. destruct Ha as (Hk & _). destruct (arg_digit_facts k Hk) as (_ & _ & _ & F).
    rewrite E in F. change (schar NUL) with 0 in F. lia.
  - by repeat constructor.
Qed.

Lemma chars_rooms args l : (chars l <= rooms args l)%nat.
Proof.
  unfold chars, rooms. induction l as [|a l IH]; [done|]. cbn [map].
  assert (E : forall x l, list_sum (x :: l) = (x + list_sum l)%nat) by done. rewrite !E. destruct a; cbn [room]; lia.
Qed.

Lemma c_string_stops s t : nonul s -> c_string (s ++ NUL :: t) = s.
Proof. induction 1 as [|c s Hc Hs IH]; [done|]. cbn [app c_string]. apply Ascii.eqb_neq in Hc. by rewrite Hc, IH. Qed.

(** What is shown of a text: nothing when it starts a new line. *)
Definition one_line (t : cstr) : cstr := if (peek t =c LF) || bool_decide (t = []) then [] else t ++ [LF].

(** ** pevents.conf *)

Section file.
Context (te : list text_event_def).

Definition text_ok (name text : cstr) : Prop :=
  nonul name /\ (LF ∉ name) /\ last name <> Some CR /\ (length name <= 1000)%nat /\
  nonul text /\ (LF ∉ text) /\ last text <> Some CR /\ (length text <= 1000)%nat.

(** The lines of one event. *)
Definition event_lines (e : text_event_def) (t : cstr) : cstr :=
  fmt [("event_name=" : cstr); te_name e; [LF]] ++ fmt [("event_text=" : cstr); t; [LF; LF]].

Lemma save_all es ts :
  Forall2 (fun e t => text_ok (te_name e) t) es ts ->
  save_events es (map Some ts) = Some (concat (zip_with event_lines es ts)).
Proof.
  induction 1 as [|e t es ts (_ & _ & _ & Hn & _ & _ & _ & Ht) Hr IH]; [done|]. cbn [map save_events zip_with concat].
  assert (W : forall pre s post, (length pre + length s + length post <= 1023)%nat -> write_line (fmt [pre; s; post]) = Some (fmt [pre; s; post])).
  { intros pre s post Hl. unfold write_line, fmt. cbn [concat]. rewrite app_nil_r, (proj2 (Nat.leb_le _ _)); [done|]. rewrite !length_app. lia. }
  rewrite W by (cbn; lia). cbn [mbind option_bind default from_option id]. rewrite W by (cbn; lia). cbn [mbind option_bind]. rewrite IH. cbn [mbind option_bind].
  unfold event_lines. by rewrite <- app_assoc.
Qed.

Lemma find_newline_line pre s rest fuel :
  LF ∉ s -> (length s < fuel)%nat -> find_newline (pre ++ s ++ LF :: rest) (length pre) fuel = Some (length pre + length s)%nat.
Proof.
  revert pre fuel. induction s as [|c s IH]; intros pre [|fuel] Hs Hf; try (cbn in Hf; lia); cbn [find_newline app length].
  - rewrite list_lookup_middle by done. rewrite Ascii.eqb_refl. f_equal. lia.
  - rewrite list_lookup_middle by done. apply not_elem_of_cons in Hs as [Hc Hs]. rewrite (proj2 (Ascii.eqb_neq c LF)) by done.
    rewrite length_app. cbn [length]. rewrite length_app. cbn [length]. rewrite (proj2 (Nat.eqb_neq _ _)) by lia.
    replace (pre ++ c :: s ++ LF :: rest) with ((pre ++ [c]) ++ s ++ LF :: rest) by by rewrite <- app_assoc.
    replace (S (length pre)) with (length (pre ++ [c])) by (rewrite length_app; cbn; lia). cbn in Hf. rewrite IH by (done || lia).
    f_equal. rewrite length_app. cbn. lia.
Qed.

Lemma get_line pre s rest :
  LF ∉ s -> last s <> Some CR -> buf_get_line (pre ++ s ++ LF :: rest) (length pre) = Some (s, S (length pre + length s)).
Proof.
  intros Hs Hcr. unfold buf_get_line. rewrite (proj2 (Nat.eqb_neq _ _)) by (rewrite !length_app; cbn; lia).
  rewrite find_newline_line by (done || (rewrite !length_app; cbn; lia)). cbn [mbind option_bind].
  replace (length pre + length s - length pre)%nat with (length s) by lia. rewrite drop_app_length, take_app_length.
  destruct (last s) as [c|] eqn:El; [|done]. by rewrite (proj2 (Ascii.eqb_neq c CR)) by congruence.
Qed.

Lemma named_event_unique name j k e :
  NoDup (map te_name te) -> te !! k = Some e -> te_name e = name -> named_event te name j = true -> j = k.
Proof.
  unfold named_event. intros Hd Hk Hn Hj. destruct (te !! j) as [f|] eqn:Ej; [|done]. apply bool_decide_eq_true in Hj.
  eapply NoDup_lookup; [exact Hd|rewrite list_lookup_fmap, Ej; done|]. rewrite list_lookup_fmap, Hk. cbn. congruence.
Qed.

Lemma pevent_find_unique i k e :
  NoDup (map te_name te) -> (i < length te)%nat -> te !! k = Some e -> pevent_find te (te_name e) i = Some k.
Proof.
  intros Hd Hi Hk. unfold pevent_find. destruct (List.find _ _) as [j|] eqn:Ef.
  - apply List.find_some in Ef as [_ Ef]. f_equal. by eapply named_event_unique.
  - exfalso. assert (Hin : In k (seq (S i) (length te - S i) ++ seq 0 (S i))).
    { apply lookup_lt_Some in Hk. rewrite in_app_iff, !in_seq. lia. }
    pose proof (List.find_none _ _ Ef k Hin) as Hno. unfold named_event in Hno. rewrite Hk, bool_decide_eq_true_2 in Hno; done.
Qed.

Lemma load_name name s :
  nonul name ->
  load_line te (c_string ("event_name=" ++ name)) s =
    (let s := match ls_penum s with Some _ => pevent_trigger_load s | None => s end in
     match pevent_find te name (ls_i s) with
     | Some j => LoadState j (Some j) (ls_text s) (ls_texts s)
     | None => LoadState (ls_i s) None (ls_text s) (ls_texts s)
     end).
Proof. intros Hn. rewrite c_string_nonul; [done|]. apply nonul_app. split; [|done]. repeat (constructor; [done|]). constructor. Qed.

Lemma load_text t s :
  nonul t -> load_line te (c_string ("event_text=" ++ t)) s = LoadState (ls_i s) (ls_penum s) (Some t) (ls_texts s).
Proof. intros Hn. rewrite c_string_nonul; [done|]. apply nonul_app. split; [|done]. repeat (constructor; [done|]). constructor. Qed.

Lemma load_blank s : load_line te (c_string []) s = s. Proof. done. Qed.

Lemma line_of_file fuel pre l rest s :
  LF ∉ l -> last l <> Some CR ->
  load_lines te (S fuel) (pre ++ l ++ LF :: rest) (length pre) s =
    load_lines te fuel ((pre ++ l ++ [LF]) ++ rest) (length (pre ++ l ++ [LF])) (load_line te (c_string l) s).
Proof.
  intros Hl Hc. cbn [load_lines]. rewrite get_line by done.
  replace ((pre ++ l ++ [LF]) ++ rest) with (pre ++ l ++ LF :: rest) by by rewrite <- !app_assoc.
  do 2 f_equal. rewrite !length_app. cbn. lia.
Qed.

Lemma last_key key s : (LF ∉ key) -> last key <> Some CR -> LF ∉ s -> last s <> Some CR -> (LF ∉ key ++ s) /\ last (key ++ s) <> Some CR.
Proof.
  intros H1 H2 H3 H4. split; [by rewrite elem_of_app; intros [?|?]|]. rewrite last_app. by destruct (last s).
Qed.

Lemma load_events es ts k pre fuel s :
  NoDup (map te_name te) -> Forall2 (fun e t => text_ok (te_name e) t) es ts -> drop k te = es -> (3 * length es < fuel)%nat ->
  (ls_i s < length te)%nat -> ls_penum s <> None ->
  exists s', load_lines te fuel (pre ++ concat (zip_with event_lines es ts)) (length pre) s = s' /\
    ls_texts (pevent_trigger_load s') = foldl (fun l x => <[x.1 := Some x.2]> l) (ls_texts (pevent_trigger_load s)) (zip (seq k (length es)) ts).
Proof.
  intros Hd Hok. revert k pre fuel s. induction Hok as [|e t es ts (N1 & N2 & N3 & _ & T1 & T2 & T3 & _) Hr IH]; intros k pre fuel s Hk Hf Hi Hp.
  - destruct fuel as [|fuel]; [lia|]. eexists. split; [done|]. cbn [zip_with concat load_lines]. rewrite app_nil_r. unfold buf_get_line.
    by rewrite Nat.eqb_refl.
  - cbn [length] in Hf. destruct fuel as [|[|[|fuel]]]; [lia..|].
    assert (He : te !! k = Some e). { replace k with (k + 0)%nat by lia. by rewrite <- lookup_drop, Hk. }
    cbn [zip_with concat]. unfold event_lines at 1, fmt. cbn [concat]. rewrite !app_nil_r. rewrite <- !app_assoc. cbn [app].
    replace (pre ++ list_ascii_of_string "event_name=" ++ te_name e ++ LF :: list_ascii_of_string "event_text=" ++ t ++ LF :: LF :: concat (zip_with event_lines es ts))
      with (pre ++ (list_ascii_of_string "event_name=" ++ te_name e) ++ LF :: (list_ascii_of_string "event_text=" ++ t) ++ LF :: [] ++ LF :: concat (zip_with event_lines es ts))
      by by rewrite <- !app_assoc.
    destruct (last_key "event_name=" (te_name e)) as [K1 K2]; [by apply (bool_decide_unpack _); vm_compute|done|done|done|].
    destruct (last_key "event_text=" t) as [K3 K4]; [by apply (bool_decide_unpack _); vm_compute|done|done|done|].
    rewrite line_of_file by done. rewrite load_name by done. destruct (ls_penum s) as [p|] eqn:Ep; [|done].
    cbv zeta. rewrite (pevent_find_unique _ k e) by (done || cbn; lia).
    rewrite line_of_file by done. rewrite load_text by done.
    rewrite line_of_file by (by apply not_elem_of_nil || done). rewrite load_blank.
    destruct (IH (S k) (((pre ++ (list_ascii_of_string "event_name=" ++ te_name e) ++ [LF]) ++ (list_ascii_of_string "event_text=" ++ t) ++ [LF]) ++ [] ++ [LF])
      fuel (LoadState k (Some k) (Some t) (ls_texts (pevent_trigger_load s)))) as (s' & E & Hs').
    + rewrite (drop_S _ _ _ He) in Hk. by injection Hk.
    + lia.
    + cbn. by apply lookup_lt_Some in He.
    + done.
    + exists s'. split; [exact E|]. rewrite Hs'. cbn [length seq zip zip_with foldl]. done.
Qed.
End file.

Lemma fill_all (ts : list cstr) k l :
  (k + length ts <= length l)%nat ->
  foldl (fun l x => <[x.1 := Some x.2]> l) l (zip (seq k (length ts)) ts) = take k l ++ map Some ts ++ drop (k + length ts) l.
Proof.
  revert k l. induction ts as [|t ts IH]; intros k l Hl; cbn [length seq zip zip_with foldl map app].
  - by rewrite Nat.add_0_r, take_drop.
  - cbn [length] in Hl. fold (zip (seq (S k) (length ts)) ts). rewrite IH by (rewrite length_insert; lia). cbn [fst snd].
    assert (Hk : (k < length l)%nat) by lia. rewrite insert_take_drop by done.
    assert (Ht : length (take k l) = k) by (rewrite length_take; lia).
    replace (take (S k) (take k l ++ Some t :: drop (S k) l)) with (take k l ++ [Some t]).
    2: { rewrite take_app_ge by lia. by replace (S k - length (take k l))%nat with 1%nat by lia. }
    replace (drop (S k + length ts) (take k l ++ Some t :: drop (S k) l)) with (drop (k + S (length ts)) l).
    2: { rewrite drop_app_ge by lia. replace (S k + length ts - length (take k l))%nat with (S (length ts)) by lia. cbn [drop]. rewrite drop_drop. f_equal. lia. }
    by rewrite <- app_assoc.
Qed.

Lemma lines_length es ts : length es = length ts -> (3 * length es <= length (concat (zip_with event_lines es ts)))%nat.
Proof.
  revert ts. induction es as [|e es IH]; intros [|t ts] Hl; try done. injection Hl as Hl. specialize (IH ts Hl).
  assert (He : (3 <= length (event_lines e t))%nat).
  { unfold event_lines, fmt. rewrite length_app. cbn [concat]. rewrite length_app.
    change (length (list_ascii_of_string "event_name=")) with 11%nat. lia. }
  cbn [zip_with concat length]. rewrite length_app. lia.
Qed.

(** ** What is printed *)

(** C28. A text event shows what its format says. A format of characters, style
    codes (%R %U %B %I %S %C %O %H, each its own byte), bytes by their number
    ($aNNN, 1 to 255), tabs ($t) and arguments that the event has ($1 to $9), with
    a percent sign doubled and a plain dollar sign only in front of another dollar
    code, is compiled, and the highest argument is counted; with arguments that
    fit the line buffer together with the text, the compiled code run over them
    gives the format with every argument put in its place, its hidden attributes
    or all its colours taken out as its flag says, ended by a newline and with
    nothing cut off (a text that is empty or begins with a newline shows nothing). *)
Theorem event_text_displayed `{Locale} numargs flags args l :
  Forall (atom_ok numargs args) l -> dollars_ok l -> Z.of_nat (rooms args l) + 4 <= OUT_SIZE ->
  exists code, pevt_build_string (spell l) = Some (inr (code, highest l (-1))) /\
    format_event (Some code) numargs args OUT_SIZE flags = Some (one_line (denote flags args l), args).
Proof.
  intros Hl Hd Hr. exists (gen [] l). unfold pevt_build_string.
  pose proof (mid_nonul _ _ _ Hl) as Hm. pose proof (chars_rooms args l) as Hc. rewrite (spell_read _ _ _ Hl Hm). cbn [mbind option_bind].
  rewrite (build_mid numargs args) by (done || (cbn [length]; lia)). split; [done|].
  unfold format_event. rewrite (run_gen numargs OUT_SIZE flags ltac:(done)) by (done || (cbn [length]; lia)).
  cbn [mbind option_bind app]. pose proof (denote_nonul numargs args flags l Hl) as Hn. set (t := denote flags args l) in *.
  f_equal. f_equal. unfold one_line. destruct t as [|c t]; [done|]. cbn [app peek hd].
  destruct (c =c LF); [done|]. change (false || bool_decide (c :: t = [])) with false. cbv iota.
  change (c :: t ++ [LF; NUL; NUL]) with ((c :: t) ++ [LF] ++ NUL :: [NUL]). rewrite app_assoc.
  rewrite c_string_stops; [done|]. apply nonul_app. split; [done|by repeat constructor].
Qed.

(** The texts written to pevents.conf are the texts read from it: with event
    names of their own and texts of at most a thousand bytes without line ends,
    reading what was written fills every event with its text, so that nothing is
    left to the defaults. *)
Theorem pevents_file_roundtrip te (texts : list cstr) :
  te <> [] -> NoDup (map te_name te) -> Forall2 (fun e t => text_ok (te_name e) t) te texts ->
  exists file, pevent_save te (map Some texts) = Some file /\
    pevent_load te file (map (fun _ => None) te) = map Some texts.
Proof.
  intros Hne Hd Hok. eexists. split; [by apply save_all|]. unfold pevent_load.
  pose proof (Forall2_length _ _ _ Hok) as Hlen. set (file := concat _).
  assert (Hfile : (3 * length te <= length file)%nat).
  { by apply lines_length. }
  destruct (load_events te te texts 0 [] (S (length file)) (LoadState 0 (Some O) None (map (fun _ => None) te)))
    as (s' & <- & E); [done|done|done|lia|destruct te; [done|cbn; lia]|done|].
  cbn [app length] in E. fold file in E. rewrite E. cbn [ls_texts pevent_trigger_load ls_penum ls_text].
  rewrite Hlen, fill_all by (rewrite length_map; lia). cbn [take app Nat.add].
  rewrite drop_ge by (rewrite length_map; lia). by rewrite app_nil_r.
Qed.
