(* ===== verification/TextEventsCases.v ===== *)
(** * Text events: cases (src/common/text.c)

    Concrete formats and files: the instances of the theorems of TextEventsSpec,
    and the places where the code does not do what it means to. *)
From S2P Require Import Prelude Glib Text Access Isupport Proto TextEvents TextEventsSpec.

(** A Latin-1 locale. *)
#[export] Instance latin1 : Locale :=
  {| g_locale_to_utf8 := fun c => Some (if uchar c <? 128 then [c] else [byte_of (192 + uchar c / 64); byte_of (128 + uchar c mod 64)]) |}.

(** ** The formats as shipped (src/common/textevents.in) *)

Definition kick_text : cstr := "%C22*%O$t%C26$1%C has kicked %C18$2%C from %C22$3%C (%C24$4%O)".
Definition whois_text : cstr := "%C23*%O$t%C28[%C18$1%C28] %C30(%C24$2@$3%C30)%O: %C18$4%O".

Definition print_text (text : cstr) (numargs flags : Z) (args : list cstr) : option cstr :=
  r ← pevt_build_string text;
  match r with
  | inr (code, _) => '(o, _) ← format_event (Some code) numargs (None :: map Some args) OUT_SIZE flags; Some o
  | inl _ => None
  end.

Definition say (l : list atom) (s : string) : list atom := l ++ map Char (list_ascii_of_string s).

(** The shipped text of a kick, piece by piece. *)
Definition in_color (n : string) (a : list atom) : list atom := Style Color :: map Char (list_ascii_of_string n) ++ a.
Definition kick_atoms : list atom :=
  in_color "22" [Char "*"; Style Plain; Tab] ++ in_color "26" [Arg 1; Style Color] ++ say [] " has kicked " ++
  in_color "18" [Arg 2; Style Color] ++ say [] " from " ++ in_color "22" [Arg 3; Style Color] ++ say [] " (" ++
  in_color "24" [Arg 4; Style Plain; Char ")"].

(** The other codes: styles, a percent sign, a dollar sign by its number and in front of an argument. *)
Definition cost_atoms : list atom :=
  [Style Bold; Char "$"; Arg 1; Style Bold; Char "%"; Byte 36; Style Reverse; Style Underline; Style Italics; Style Strike; Style Hidden; Char "5"].

Lemma atom_okb numargs args l :
  forallb (fun a => match a with
    | Char c => negb (c =c NUL)
    | Byte n => Nat.leb 1 n && Nat.leb n 255
    | Arg k => Nat.leb 1 k && Nat.leb k 9 && (Z.of_nat k <=? numargs) &&
        match args !! k with Some (Some ar) => forallb (fun c => negb (c =c NUL)) ar | _ => false end
    | Style _ | Tab => true
    end) l = true -> Forall (atom_ok numargs args) l.
Proof.
  assert (Hc : forall c, negb (c =c NUL) = true -> c <> NUL) by (intros c E; apply negb_true_iff, Ascii.eqb_neq in E; done).
  intros H. apply Forall_forall. intros a Ha. apply (forallb_elem _ _ H) in Ha as Hb. clear H. rename Hb into H.
  destruct a as [c|x|n|k|]; [by apply Hc|done| | |done].
  { apply andb_prop in H as [H1 H2]. apply Nat.leb_le in H1, H2. done. }
  apply andb_prop in H as [H Har]. apply andb_prop in H as [H Hn]. apply andb_prop in H as [H1 H2].
  apply Nat.leb_le in H1, H2. apply Z.leb_le in Hn. destruct (args !! k) as [[ar|]|] eqn:E; [|done..].
  repeat split; try lia. exists ar. split; [done|]. apply Forall_forall. intros c Hin. apply Hc. by apply (forallb_elem _ _ Har).
Qed.

Definition kick_args : list (option cstr) :=
  [None; Some ("op" : cstr); Some ("003"%char :: list_ascii_of_string "4bob"); Some ("#chan" : cstr); Some ("bye" : cstr)].

Lemma event_text_displayed_witness :
  spell kick_atoms = kick_text /\ spell cost_atoms = ("%B$$1%B%%$a036%R%U%I%S%H5" : cstr) /\
  (exists code, pevt_build_string kick_text = Some (inr (code, 4)) /\
     format_event (Some code) 4 kick_args OUT_SIZE 4 = Some (one_line (denote 4 kick_args kick_atoms), kick_args)) /\
  one_line (denote 4 kick_args kick_atoms) =
    ["003"%char] ++ list_ascii_of_string "22*" ++ ["015"; "009"; "003"]%char ++ list_ascii_of_string "26op" ++ ["003"%char] ++
    list_ascii_of_string " has kicked " ++ ["003"%char] ++ list_ascii_of_string "18bob" ++ ["003"%char] ++ list_ascii_of_string " from " ++
    ["003"%char] ++ list_ascii_of_string "22#chan" ++ ["003"%char] ++ list_ascii_of_string " (" ++ ["003"%char] ++ list_ascii_of_string "24bye" ++
    ["015"; ")"; "010"]%char.
Proof.
  split; [vm_compute; reflexivity|]. split; [vm_compute; reflexivity|]. split; [|vm_compute; reflexivity].
  refine (@event_text_displayed latin1 4 4 kick_args kick_atoms _ _ _).
  - apply atom_okb. vm_compute. reflexivity.
  - cbn. repeat split; discriminate.
  - vm_compute. discriminate.
Defined.

Definition two_events : list text_event_def :=
  [TextEventDef "Join" 4 "$1 has joined $2"; TextEventDef "Kick" 4 kick_text].

Lemma pevents_file_roundtrip_witness :
  exists file, pevent_save two_events (map Some [("$t$1" : cstr); kick_text]) = Some file /\
    pevent_load two_events file [None; None] = [Some ("$t$1" : cstr); Some kick_text].
Proof.
  refine (pevents_file_roundtrip two_events [("$t$1" : cstr); kick_text] _ _ _).
  - discriminate.
  - apply (bool_decide_unpack _). vm_compute. exact I.
  - repeat constructor; try (apply (bool_decide_unpack _); vm_compute; exact I); cbn; lia.
Defined.

(** ** Findings *)

(** A doubled dollar is meant to be a dollar; the second one is read again. *)
Lemma double_dollar_no_escape :
  pevt_build_string "cost: $$" = Some (inl EndsWithDollar) /\ pevt_build_string "$$x" = Some (inl (InvalidArgument "x")) /\
  pevt_build_string "$$1" = Some (inr ("000"%char :: int_bytes 1 ++ ["$"%char; "001"%char; "000"%char; "002"%char], 1)).
Proof. repeat split; vm_compute; reflexivity. Qed.

(** The room left for an argument is counted without sign: behind a text that
    ends in the last four bytes of the buffer the next argument is copied whole,
    past its end. *)
Lemma long_user_overflows_whois : print_text whois_text 4 0 [("bob" : cstr); replicate 4096 "u"%char; ("host.example" : cstr); ("Bob" : cstr)] = None.
Proof. vm_compute. reflexivity. Qed.

(** The text behind an argument that was cut leaves no room for the line end. *)
Lemma long_reason_overflows_kick :
  print_text kick_text 4 0 [("op" : cstr); ("bob" : cstr); ("#chan" : cstr); replicate 4096 "r"%char] = None /\
  print_text kick_text 4 0 [("op" : cstr); ("bob" : cstr); ("#chan" : cstr); replicate 400 "r"%char] <> None.
Proof. split; vm_compute; [reflexivity|discriminate]. Qed.

(** The first argument past those of the event is let through. *)
Lemma argument_past_the_last : print_text "$1 $3" 2 0 (map list_ascii_of_string ["a"; "b"; "not an argument"]%string) = Some (list_ascii_of_string "a not an argument" ++ [LF]).
Proof. vm_compute. reflexivity. Qed.

(** A text of a thousand and twenty bytes is written with the bytes behind the buffer. *)
Lemma long_text_overread : pevent_save [TextEventDef "Join" 4 "x"] [Some (replicate 1020 "x"%char)] = None.
Proof. vm_compute. reflexivity. Qed.

(** The text of an event that is not known is kept, and goes to the next event
    if that has none. *)
Lemma unknown_event_text_moves :
  pevent_load two_events
    (list_ascii_of_string "event_name=Gone" ++ LF :: list_ascii_of_string "event_text=old" ++ LF ::
     list_ascii_of_string "event_name=Kick" ++ [LF]) [None; None] = [None; Some ("old" : cstr)].
Proof. vm_compute. reflexivity. Qed.

(** A translated default that builds is given up for the untranslated one. *)
Lemma translated_default_unused :
  make_event (fun _ => "$1 ist da") (TextEventDef "Join" 4 "$1 has joined") "$" =
    option_map inr (option_map (fun code => (("$1 has joined" : cstr), code))
      (r ← pevt_build_string "$1 has joined"; match r with inr (code, _) => Some code | inl _ => None end)).
Proof. vm_compute. reflexivity. Qed.
