(* ===== verification/Ignore.v ===== *)
(** * The ignore list (src/common/ignore.c)

    Masks with the kinds of message they are for, the check of a sender,
    ignore.conf ([cfg_get_str] of cfgfiles.c), the commands /ignore and /unignore
    (outbound.c) and the two flood counters of a server.  [None] is undefined
    behaviour. *)
From S2P Require Import Prelude Glib Casemap Glob Text Access Modes Isupport Proto.

Definition IG_PRIV : Z := 1.
Definition IG_NOTI : Z := 2.
Definition IG_CHAN : Z := 4.
Definition IG_CTCP : Z := 8.
Definition IG_INVI : Z := 16.
Definition IG_UNIG : Z := 32.
Definition IG_NOSAVE : Z := 64.
Definition IG_DCC : Z := 128.

Record ignore := Ignore { ig_mask : cstr; ig_type : Z }.

(** What the calls tell: redrawn lists, texts. *)
Inductive ignore_event :=
| IgnoreUpdate (level : Z)
| IgnoreAdd (mask : cstr) | IgnoreChange (mask : cstr) | IgnoreRemove (mask : cstr) | UnknownArg (arg : cstr)
| IgnoreHeader | IgnoreLine (text : cstr) | IgnoreEmpty | IgnoreFooter
| CtcpFlood (nick mask : cstr) | MsgFlood (ip : cstr) | AutodialogTimer (seconds : Z).

(** The list, the counters of what was ignored, and the preference that a flood
    switches off. *)
Record ignores := Ignores {
  ignore_list : list ignore;
  ignored_ctcp : Z; ignored_priv : Z; ignored_chan : Z; ignored_noti : Z; ignored_invi : Z; ignored_total : Z;
  hex_gui_autoopen_dialog : Z;
  ig_trace : list ignore_event }.

Definition set_list (l : list ignore) (s : ignores) : ignores :=
  Ignores l (ignored_ctcp s) (ignored_priv s) (ignored_chan s) (ignored_noti s) (ignored_invi s) (ignored_total s)
    (hex_gui_autoopen_dialog s) (ig_trace s).
Definition set_autoopen (b : Z) (s : ignores) : ignores :=
  Ignores (ignore_list s) (ignored_ctcp s) (ignored_priv s) (ignored_chan s) (ignored_noti s) (ignored_invi s) (ignored_total s)
    b (ig_trace s).
Definition tell (e : ignore_event) (s : ignores) : ignores :=
  Ignores (ignore_list s) (ignored_ctcp s) (ignored_priv s) (ignored_chan s) (ignored_noti s) (ignored_invi s) (ignored_total s)
    (hex_gui_autoopen_dialog s) (ig_trace s ++ [e]).

Definition has (bits type : Z) : bool := negb (Z.land bits type =? 0).

(** ** The list *)

Definition same_mask (mask : cstr) (ig : ignore) : bool := rfc_casecmp (ig_mask ig) mask =? 0.

(** The place of the entry that is found. *)
Fixpoint ignore_exists (mask : cstr) (l : list ignore) : option nat :=
  match l with
  | [] => None
  | ig :: l => if same_mask mask ig then Some O else S <$> ignore_exists mask l
  end.

Definition ignore_add (mask : cstr) (type : Z) (overwrite : bool) (s : ignores) : Z * ignores :=
  match ignore_exists mask (ignore_list s) with
  | Some i =>
      (2, tell (IgnoreUpdate 1) (set_list (alter (fun ig =>
         Ignore mask (if overwrite then type else Z.lor (ig_type ig) type)) i (ignore_list s)) s))
  | None => (1, tell (IgnoreUpdate 1) (set_list (Ignore mask type :: ignore_list s) s))
  end.

(** [ig]: the entry itself, by its place. *)
Definition ignore_del (mask : cstr) (ig : option nat) (s : ignores) : bool * ignores :=
  match (match ig with Some i => Some i | None => ignore_exists mask (ignore_list s) end) with
  | Some i => (true, tell (IgnoreUpdate 1) (set_list (delete i (ignore_list s)) s))
  | None => (false, s)
  end.

(** ** The check *)

Fixpoint any_match (applies : ignore -> bool) (host : cstr) (l : list ignore) : option bool :=
  match l with
  | [] => Some false
  | ig :: l =>
      if applies ig then
        match glob_match (ig_mask ig) host with
        | Ret true => Some true
        | Ret false => any_match applies host l
        | _ => None
        end
      else any_match applies host l
  end.

Definition bump (bit type n : Z) : Z := if has type bit then n + 1 else n.

Definition count_ignored (type : Z) (s : ignores) : ignores :=
  Ignores (ignore_list s) (bump IG_CTCP type (ignored_ctcp s)) (bump IG_PRIV type (ignored_priv s)) (bump IG_CHAN type (ignored_chan s))
    (bump IG_NOTI type (ignored_noti s)) (bump IG_INVI type (ignored_invi s)) (ignored_total s + 1)
    (hex_gui_autoopen_dialog s) (ig_trace s).

Definition ignore_check (host : cstr) (type : Z) (s : ignores) : option (bool * ignores) :=
  unignored ← any_match (fun ig => has (ig_type ig) IG_UNIG && has (ig_type ig) type) host (ignore_list s);
  if (unignored : bool) then Some (false, s)
  else
    ignored ← any_match (fun ig => has (ig_type ig) type) host (ignore_list s);
    Some (if (ignored : bool) then (true, tell (IgnoreUpdate 2) (count_ignored type s)) else (false, s)).

(** ** cfg_get_str (src/common/cfgfiles.c) *)

Fixpoint rest_of_line (cfg : cstr) : cstr :=
  match cfg with [] => [] | c :: cfg' => if c =c LF then cfg else rest_of_line cfg' end.

Fixpoint value_of_line (cfg : cstr) : cstr :=
  match cfg with [] => [] | c :: cfg' => if c =c LF then [] else c :: value_of_line cfg' end.

Fixpoint skip_blanks (s : cstr) : cstr :=
  match s with c :: s' => if c =c " " then skip_blanks s' else s | [] => [] end.

(** Without the CR of a CRLF file. *)
Definition strip_cr (v : cstr) : cstr :=
  match last v with Some c => if c =c CR then take (length v - 1) v else v | None => v end.

Section config.
Context `{GLib}.

(** The value and where the reading stopped. *)
Fixpoint cfg_lines (fuel : nat) (cfg var : cstr) (dest_len : Z) : option (option (cstr * cstr)) :=
  match fuel with
  | O => None
  | S fuel =>
      if g_ascii_strncasecmp (var ++ [" "%char]) cfg (length var + 1) =? 0 then
        let cfg := skip_blanks (drop (length var) cfg) in
        let cfg := match cfg with c :: cfg' => if c =c "=" then cfg' else cfg | [] => [] end in
        let cfg := skip_blanks cfg in
        dest ← safe_strcpy (strip_cr (value_of_line cfg)) dest_len;
        Some (Some (dest, rest_of_line cfg))
      else
        match rest_of_line cfg with
        | _ :: ((_ :: _) as cfg) => cfg_lines fuel cfg var dest_len
        | _ => Some None
        end
  end.

Definition cfg_get_str (cfg var : cstr) (dest_len : Z) : option (option (cstr * cstr)) :=
  cfg_lines (S (length cfg)) cfg var dest_len.

(** ** ignore.conf *)

Definition ignore_read_next_entry (my_cfg : cstr) : option (option (ignore * cstr)) :=
  r ← cfg_get_str my_cfg "mask" 1024;
  match r with
  | None => Some None
  | Some (mask, my_cfg) =>
      r ← cfg_get_str my_cfg "type" 1024;
      match r with
      | None => Some None
      | Some (type, my_cfg) => Some (Some (Ignore mask (wrap_u32 (atoi type)), my_cfg))
      end
  end.

Fixpoint load_entries (fuel : nat) (my_cfg : cstr) (l : list ignore) : option (list ignore) :=
  match fuel with
  | O => None
  | S fuel =>
      r ← ignore_read_next_entry my_cfg;
      match r with
      | None => Some l
      | Some (ig, my_cfg) => load_entries fuel my_cfg (ig :: l)
      end
  end.

(** [file]: None when it cannot be opened. *)
Definition ignore_load (file : option cstr) (s : ignores) : option ignores :=
  match file with
  | None | Some [] => Some s
  | Some cfg => l ← load_entries (S (length cfg)) (c_string cfg) (ignore_list s); Some (set_list l s)
  end.

(** "mask = %s\ntype = %u\n\n" in 1024 bytes. *)
Definition save_entry (ig : ignore) : cstr :=
  take 1023 (fmt [("mask = " : cstr); ig_mask ig; [LF]; ("type = " : cstr); decimal 10 (ig_type ig) []; [LF; LF]]).

Definition ignore_save (s : ignores) : cstr :=
  concat (map save_entry (List.filter (fun ig => negb (has (ig_type ig) IG_NOSAVE)) (ignore_list s))).

(** ** Commands *)

Context (gettext : cstr -> cstr).

(** " %-25s " in 256 bytes; what follows is added without a look at the room. *)
Definition show_entry (ig : ignore) : option cstr :=
  let yes bit := gettext (if has (ig_type ig) bit then "YES  " else "NO   ") in
  let line := take 255 (" "%char :: ig_mask ig ++ replicate (25 - length (ig_mask ig)) " "%char ++ [" "%char]) ++
    concat (map yes [IG_PRIV; IG_NOTI; IG_CHAN; IG_CTCP; IG_DCC; IG_INVI; IG_UNIG]) ++ [LF] in
  if Nat.ltb (length line) 256 then Some line else None.

Definition ignore_showlist (s : ignores) : option ignores :=
  lines ← mapM show_entry (ignore_list s);
  let s := tell IgnoreHeader s in
  let s := foldl (fun s line => tell (IgnoreLine line) s) s lines in
  let s := match lines with [] => tell IgnoreEmpty s | _ => s end in
  Some (tell IgnoreFooter s).

Definition arg_is (w : cstr) (name : string) : bool := g_ascii_strcasecmp w name =? 0.

(** The types, "quiet", and the arguments that are not known; the array ends in NULL. *)
Fixpoint ignore_args (words : list cstr) (type : Z) (quiet : bool) (unknown : list cstr) : option (Z * bool * list cstr) :=
  match words with
  | [] => None
  | [] :: _ => Some (type, quiet, unknown)
  | w :: words =>
      let bits b := ignore_args words (Z.lor type b) quiet unknown in
      if arg_is w "UNIGNORE" then bits IG_UNIG
      else if arg_is w "ALL" then bits (Z.lor IG_PRIV (Z.lor IG_NOTI (Z.lor IG_CHAN (Z.lor IG_CTCP (Z.lor IG_INVI IG_DCC)))))
      else if arg_is w "PRIV" then bits IG_PRIV
      else if arg_is w "NOTI" then bits IG_NOTI
      else if arg_is w "CHAN" then bits IG_CHAN
      else if arg_is w "CTCP" then bits IG_CTCP
      else if arg_is w "INVI" then bits IG_INVI
      else if arg_is w "QUIET" then ignore_args words type true unknown
      else if arg_is w "NOSAVE" then bits IG_NOSAVE
      else if arg_is w "DCC" then bits IG_DCC
      else ignore_args words type quiet (unknown ++ [w])
  end.

Definition TBUFSIZE : nat := 4096.
Definition mask_of_nick (nick : cstr) : cstr := take (TBUFSIZE - 1) (nick ++ "!*@*").

(** [word]: from [word[0]]. *)
Definition cmd_ignore (word : list cstr) (s : ignores) : option (bool * ignores) :=
  w2 ← word !! 2%nat; w3 ← word !! 3%nat;
  match w2 with
  | [] => s ← ignore_showlist s; Some (true, s)
  | _ =>
      '(type, quiet, unknown) ← ignore_args ((match w3 with [] => "ALL" : cstr | _ => w3 end) :: drop 4 word) 0 false [];
      let s := foldl (fun s a => tell (UnknownArg a) s) s unknown in
      if type =? 0 then Some (false, s)
      else
        let mask := if strchr_b w2 "!" || strchr_b w2 "@" || strchr_b w2 "?" || strchr_b w2 "*" then w2 else mask_of_nick w2 in
        let '(i, s) := ignore_add mask type true s in
        Some (true, if (quiet : bool) then s else tell (if i =? 1 then IgnoreAdd mask else IgnoreChange mask) s)
  end.

Definition cmd_unignore (word : list cstr) (s : ignores) : option (bool * ignores) :=
  w2 ← word !! 2%nat; arg ← word !! 3%nat;
  match w2 with
  | [] => Some (false, s)
  | _ =>
      let mask := if strchr_b w2 "?" || strchr_b w2 "*" then w2 else mask_of_nick w2 in
      let '(found, s) := ignore_del mask None s in
      Some (true, if (found : bool) && negb (arg_is arg "QUIET") then tell (IgnoreRemove mask) s else s)
  end.
End config.

(** ** Floods *)

(** The counters of a server; they are unsigned. *)
Record flood := Flood { ctcp_counter : Z; ctcp_last_time : Z; msg_counter : Z; msg_last_time : Z }.
Record flood_prefs := FloodPrefs { flood_ctcp_num : Z; flood_ctcp_time : Z; flood_msg_num : Z; flood_msg_time : Z }.

Definition flood_mask (nick ip : cstr) : cstr :=
  match index_of "@" ip with Some k => fmt [("*!*" : cstr); drop k ip] | None => fmt [nick; ("!*" : cstr)] end.

(** [what]: 0 is CTCP, 1 a private message; [now], [later]: the two calls of time(). *)
Definition flood_check (p : flood_prefs) (nick ip : cstr) (now later what : Z) (f : flood) (s : ignores) : Z * flood * ignores :=
  let '(Flood cc ct mc mt) := f in
  if what =? 0 then
    if ct =? 0 then (1, Flood (wrap_u32 (cc + 1)) later mc mt, s)
    else if now - ct <? flood_ctcp_time p then
      let cc := wrap_u32 (cc + 1) in
      if cc =? wrap_u32 (flood_ctcp_num p) then
        let mask := flood_mask nick ip in
        (0, Flood 0 now mc mt, (ignore_add mask IG_CTCP false (tell (CtcpFlood nick mask) s)).2)
      else (1, Flood cc ct mc mt, s)
    else (1, f, s)
  else
    if mt =? 0 then (1, Flood (wrap_u32 (cc + 1)) ct mc later, s)
    else if now - mt <? flood_msg_time p then
      let mc := wrap_u32 (mc + 1) in
      if mc =? wrap_u32 (flood_msg_num p) then
        let s := tell (MsgFlood ip) s in
        (0, Flood cc ct 0 now,
          if hex_gui_autoopen_dialog s =? 0 then s else tell (AutodialogTimer 30) (set_autoopen 0 s))
      else (1, Flood cc ct mc mt, s)
    else (1, f, s).

Definition flood_autodialog_timeout (s : ignores) : ignores := set_autoopen 1 s.
