(* ===== verification/IgnoreSpec.v ===== *)
(** * The ignore list does what its entries say (src/common/ignore.c)

    The list is a map from masks, up to case, to types; the check of a sender
    decides what the entries mean; ignore.conf gives the list back; a flood in
    time is cut off. *)
From S2P Require Import Prelude Glib Casemap Glob Text Access Modes Isupport Proto Words Sts Ignore.

(** ** The check *)

Definition applies (type : Z) (host : cstr) (ig : ignore) : Prop :=
  has (ig_type ig) type = true /\ glob (tokens (ig_mask ig)) host.

(** Ignored: an entry of this type fits, and none of the exceptions does. *)
Definition ignored_by (l : list ignore) (host : cstr) (type : Z) : Prop :=
  (exists ig, ig ∈ l /\ applies type host ig) /\
  ~ exists ig, ig ∈ l /\ has (ig_type ig) IG_UNIG = true /\ applies type host ig.

Definition overread (l : list ignore) (host : cstr) : Prop :=
  exists ig, ig ∈ l /\ glob_match (ig_mask ig) host = Overread.

Lemma any_match_spec f host l :
  Forall (fun ig => ascii7 (ig_mask ig)) l ->
  match any_match f host l with
  | Some b => b = true <-> exists ig, ig ∈ l /\ f ig = true /\ glob (tokens (ig_mask ig)) host
  | None => overread l host
  end.
Proof.
  induction 1 as [|ig l H7 Hl IH]; cbn [any_match].
  { split; [done|]. intros (ig & Hin & _). by apply elem_of_nil in Hin. }
  assert (Hskip : ~ (f ig = true /\ glob (tokens (ig_mask ig)) host) ->
    match any_match f host l with
    | Some b => b = true <-> exists ig', ig' ∈ ig :: l /\ f ig' = true /\ glob (tokens (ig_mask ig')) host
    | None => overread (ig :: l) host
    end).
  { intros Hno. destruct (any_match f host l) as [b|].
    - rewrite IH. split; intros (i & Hi & Hf); exists i; [by split; [right|]|]. apply elem_of_cons in Hi as [->|Hi]; [by destruct Hno|done].
    - destruct IH as (i & Hi & Ho). exists i. split; [by right|done]. }
  destruct (f ig) eqn:Ef; [|by apply Hskip; intros [??]].
  pose proof (glob_match_decides (ig_mask ig) host H7) as Hm. destruct (glob_match _ host) as [[]| |] eqn:Eg; [| |..|done].
  - split; [|done]. intros _. exists ig. by split; [left|].
  - apply Hskip. by intros [_ ?].
  - exists ig. by split; [left|].
Qed.

(** C31. The check decides what the list means. With masks of 7-bit characters
    ([Glob.glob_match_star_high] shows another one) a sender is ignored for a kind
    of message exactly if some entry for that kind matches it and no exception for
    that kind does; the entries stay as they are and the count of ignored messages
    goes up exactly then; no result means that some mask reads past the end of the
    sender. *)
Theorem ignore_check_decides s host type :
  Forall (fun ig => ascii7 (ig_mask ig)) (ignore_list s) ->
  match ignore_check host type s with
  | Some (b, s') => (b = true <-> ignored_by (ignore_list s) host type) /\ ignore_list s' = ignore_list s /\
      ignored_total s' = ignored_total s + (if b then 1 else 0)
  | None => overread (ignore_list s) host
  end.
Proof.
  intros H7. unfold ignore_check.
  pose proof (any_match_spec (fun ig => has (ig_type ig) IG_UNIG && has (ig_type ig) type) host _ H7) as Hu.
  pose proof (any_match_spec (fun ig => has (ig_type ig) type) host _ H7) as Hi.
  assert (Hex : (exists ig, ig ∈ ignore_list s /\ has (ig_type ig) IG_UNIG && has (ig_type ig) type = true /\ glob (tokens (ig_mask ig)) host) <->
    (exists ig, ig ∈ ignore_list s /\ has (ig_type ig) IG_UNIG = true /\ applies type host ig)).
  { unfold applies. by setoid_rewrite andb_true_iff; setoid_rewrite <- (assoc and). }
  destruct (any_match _ host _) as [[]|]; cbn [mbind option_bind]; [| |done].
  - split_and!; [|done|lia]. split; [done|]. intros [_ Hno]. exfalso. by apply Hno, Hex, Hu.
  - destruct (any_match (fun ig => has (ig_type ig) type) host _) as [b|]; cbn [mbind option_bind]; [|done].
    assert (Hb : b = true <-> ignored_by (ignore_list s) host type).
    { unfold ignored_by. rewrite Hi. split; [|by intros [? _]]. intros Hig. split; [done|]. intros He. apply Hex, Hu in He. done. }
    destruct b; (split_and!; [done|done|cbn; lia]).
Qed.

(** ** The list as a map *)

(** Masks that differ in case only are one key. *)
Definition key (ig : ignore) : list Z := fold_case (ig_mask ig).
Definition types_of (l : list ignore) : gmap (list Z) Z := list_to_map (map (fun ig => (key ig, ig_type ig)) l).

Record list_ok (l : list ignore) : Prop := {
  lo_nodup : NoDup (map key l);
  lo_nonul : Forall (fun ig => nonul (ig_mask ig)) l }.

Inductive list_call := Add (mask : cstr) (type : Z) (overwrite : bool) | Del (mask : cstr).

Definition list_step (s : ignores) (c : list_call) : ignores :=
  match c with Add m t o => (ignore_add m t o s).2 | Del m => (ignore_del m None s).2 end.

Definition map_step (m : gmap (list Z) Z) (c : list_call) : gmap (list Z) Z :=
  match c with
  | Add mask t o =>
      <[fold_case mask := match m !! fold_case mask with Some t0 => if o then t else Z.lor t0 t | None => t end]> m
  | Del mask => delete (fold_case mask) m
  end.

Definition call_mask (c : list_call) : cstr := match c with Add m _ _ | Del m => m end.

Lemma ignore_exists_spec mask l :
  nonul mask -> Forall (fun ig => nonul (ig_mask ig)) l ->
  match ignore_exists mask l with
  | Some i => exists pre ig post, l = pre ++ ig :: post /\ length pre = i /\ key ig = fold_case mask /\ fold_case mask ∉ map key pre
  | None => fold_case mask ∉ map key l
  end.
Proof.
  intros Hm. induction 1 as [|ig l Hig Hl IH]; cbn [ignore_exists]; [by apply not_elem_of_nil|].
  unfold same_mask. pose proof (rfc_casecmp_zero _ _ Hig Hm) as Hz. fold (key ig) in Hz.
  destruct (Z.eqb_spec (rfc_casecmp (ig_mask ig) mask) 0) as [E|E].
  - exists [], ig, l. split_and!; [done|done|by apply Hz|by apply not_elem_of_nil].
  - assert (Hne : fold_case mask <> key ig) by (intros Hk; by apply E, Hz).
    destruct (ignore_exists mask l) as [i|]; cbn [fmap option_fmap option_map].
    + destruct IH as (pre & g & post & -> & <- & Hk & Hno). exists (ig :: pre), g, post. split_and!; [done|done|done|].
      cbn [map]. by apply not_elem_of_cons.
    + cbn [map]. by apply not_elem_of_cons.
Qed.

Lemma types_of_lookup l k :
  types_of l !! k = (fun ig => ig_type ig) <$> List.find (fun ig => bool_decide (key ig = k)) l.
Proof.
  unfold types_of. induction l as [|ig l IH]; [done|]. cbn [map list_to_map foldr uncurry List.find]. 
  destruct (decide (key ig = k)) as [E|E].
  - rewrite bool_decide_eq_true_2 by done. rewrite <- E. by rewrite lookup_insert_eq.
  - rewrite bool_decide_eq_false_2 by done. rewrite lookup_insert_ne by done. exact IH.
Qed.

Lemma types_of_cons ig l : types_of (ig :: l) = <[key ig := ig_type ig]> (types_of l). Proof. done. Qed.

Lemma types_of_middle pre ig post :
  key ig ∉ map key pre -> types_of (pre ++ ig :: post) = <[key ig := ig_type ig]> (types_of (pre ++ post)).
Proof.
  induction pre as [|g pre IH]; [done|]. cbn [map app]. intros [Hg Hpre]%not_elem_of_cons.
  rewrite !types_of_cons, IH by done. by rewrite insert_insert_ne by done.
Qed.

Lemma types_of_absent l k : k ∉ map key l -> types_of l !! k = None.
Proof.
  intros Hk. unfold types_of. apply not_elem_of_list_to_map. rewrite !list_fmap_compose || idtac. intros Hin. apply Hk.
  rewrite <- list_fmap_compose in Hin. exact Hin.
Qed.

Lemma list_step_ok s c :
  nonul (call_mask c) -> list_ok (ignore_list s) ->
  list_ok (ignore_list (list_step s c)) /\ types_of (ignore_list (list_step s c)) = map_step (types_of (ignore_list s)) c.
Proof.
  intros Hm [Hnd Hnn]. destruct c as [mask t o|mask]; cbn [list_step map_step call_mask] in *.
  - unfold ignore_add. pose proof (ignore_exists_spec mask _ Hm Hnn) as He. destruct (ignore_exists mask _) as [i|].
    + destruct He as (pre & ig & post & El & <- & Hk & Hno). cbn [snd ignore_list tell set_list]. rewrite El in *.
      rewrite <- (Nat.add_0_r (length pre)), alter_app_r. cbn [alter list_alter].
      rewrite !types_of_middle by (cbn [key ig_mask]; by rewrite ?Hk). cbn [key ig_mask ig_type].
      rewrite Hk, lookup_insert_eq, insert_insert_eq. split; [|done]. split.
      * rewrite map_app in *. cbn [map] in *. change (key (Ignore mask _)) with (fold_case mask). by rewrite <- Hk.
      * rewrite Forall_app, Forall_cons in *. naive_solver.
    + cbn [snd ignore_list tell set_list]. rewrite types_of_cons. cbn [key ig_mask ig_type]. rewrite (types_of_absent _ _ He).
      split; [|done]. split; [by constructor|by constructor].
  - unfold ignore_del. pose proof (ignore_exists_spec mask _ Hm Hnn) as He. destruct (ignore_exists mask _) as [i|].
    + destruct He as (pre & ig & post & El & <- & Hk & Hno). cbn [snd ignore_list tell set_list]. rewrite El in *.
      rewrite delete_middle, types_of_middle by (by rewrite Hk). rewrite Hk.
      rewrite map_app in Hnd. cbn [map] in Hnd. apply NoDup_app in Hnd as (N1 & N2 & N3). apply NoDup_cons in N3 as [N3 N4].
      rewrite delete_insert_id.
      * split; [|done]. split; [|rewrite Forall_app, Forall_cons in *; naive_solver]. rewrite map_app. apply NoDup_app. split_and!; [done| |done].
        intros x Hx Hx'. apply (N2 x Hx). by right.
      * apply types_of_absent. rewrite map_app, elem_of_app, <- Hk. intros [Hin|Hin]; [by rewrite Hk in Hin|done].
    + cbn [snd]. split; [done|]. rewrite delete_id; [done|]. by apply types_of_absent.
Qed.

(** The list of ignores is a map from masks, told apart up to case, to types.
    From any list without doubles, every sequence of additions and removals leaves
    a list without doubles whose entries are exactly those of the map on which
    the same calls were made: an addition replaces the types of the mask or joins
    them, a removal takes the mask out whatever its case. *)
Theorem ignore_list_is_a_map s calls :
  Forall (fun c => nonul (call_mask c)) calls -> list_ok (ignore_list s) ->
  list_ok (ignore_list (foldl list_step s calls)) /\
  types_of (ignore_list (foldl list_step s calls)) = foldl map_step (types_of (ignore_list s)) calls.
Proof.
  intros Hc. revert s. induction Hc as [|c calls Hc _ IH]; intros s Hs; [done|]. cbn [foldl].
  destruct (list_step_ok s c Hc Hs) as [Hok <-]. by apply IH.
Qed.

(** ** ignore.conf *)

Section file.
Context `{GL : GLibLaws}.

Lemma cfg_skip fuel cfg (var : cstr) n :
  (var = ("mask" : cstr) \/ var = ("type" : cstr)) -> nonul cfg -> cfg <> [] ->
  cfg_lines (S fuel) (LF :: cfg) var n = cfg_lines fuel cfg var n.
Proof.
  intros Hvar Hn Hne. cbn [cfg_lines]. destruct (Z.eqb_spec (g_ascii_strncasecmp (var ++ [" "%char]) (LF :: cfg) (length var + 1)) 0) as [E|E].
  - apply g_ascii_strncasecmp_zero in E.
    + by destruct Hvar as [->| ->]; destruct cfg as [|? [|? [|? [|? ?]]]].
    + by destruct Hvar as [->| ->]; repeat constructor.
    + by constructor.
  - cbn [rest_of_line]. change (LF =c LF) with true. cbv iota. by destruct cfg.
Qed.

Definition value_ok (v : cstr) : Prop :=
  nonul v /\ (LF ∉ v) /\ peek v <> " "%char /\ last v <> Some CR /\ whole_chars v.

Lemma value_of_line_app v rest : LF ∉ v -> value_of_line (v ++ LF :: rest) = v /\ rest_of_line (v ++ LF :: rest) = LF :: rest.
Proof.
  induction v as [|c v IH]; intros Hv; cbn [value_of_line rest_of_line app].
  - by change (LF =c LF) with true.
  - apply not_elem_of_cons in Hv as [Hc Hv]. rewrite (proj2 (Ascii.eqb_neq c LF)) by done. destruct (IH Hv) as [-> ->]. done.
Qed.

Lemma safe_strcpy_fits v n : whole_chars v -> Z.of_nat (length v) + 6 < n -> safe_strcpy v n = Some v.
Proof.
  intros Hw Hn. destruct (safe_strcpy_loop_spec (S (length v)) v n Hw ltac:(lia) ltac:(lia)) as (d & rest & E & Ev & _ & _ & _ & Hr).
  unfold safe_strcpy. rewrite E. f_equal. destruct rest as [|c rest]; [by rewrite Ev, app_nil_r|]. exfalso.
  pose proof (g_utf8_skip_range (peek (c :: rest))) as Hs. pose proof (Hr ltac:(done)). apply (f_equal length) in Ev. rewrite length_app in Ev. lia.
Qed.

Lemma cfg_found fuel (var : cstr) v rest n :
  (var = ("mask" : cstr) \/ var = ("type" : cstr)) -> value_ok v -> nonul rest -> Z.of_nat (length v) + 6 < n ->
  cfg_lines (S fuel) (var ++ " = " ++ v ++ LF :: rest) var n = Some (Some (v, LF :: rest)).
Proof.
  intros Hvar (V1 & V2 & V3 & V4 & V5) Hn Hl. cbn [cfg_lines].
  rewrite (proj2 (Z.eqb_eq _ _)).
  2: { apply g_ascii_strncasecmp_zero.
       - by destruct Hvar as [->| ->]; repeat constructor.
       - apply nonul_app. split; [by destruct Hvar as [->| ->]; repeat constructor|].
         apply nonul_app. split; [by repeat constructor|]. apply nonul_app. split; [done|by constructor].
       - by destruct Hvar as [->| ->]. }
  rewrite drop_app_length. cbn [app list_ascii_of_string skip_blanks]. change (" "%char =c " ") with true. change ("="%char =c " ") with false.
  cbv iota. change ("="%char =c "=") with true. cbv iota. cbn [skip_blanks]. change (" "%char =c " ") with true. cbv iota.
  assert (Hs : skip_blanks (v ++ LF :: rest) = v ++ LF :: rest).
  { destruct v as [|c v]; [done|]. cbn [app skip_blanks]. by rewrite (proj2 (Ascii.eqb_neq c " ")). }
  rewrite Hs. destruct (value_of_line_app v rest V2) as [-> ->].
  assert (Hc : strip_cr v = v).
  { unfold strip_cr. destruct (last v) as [c|] eqn:El; [|done]. by rewrite (proj2 (Ascii.eqb_neq c CR)) by congruence. }
  by rewrite Hc, safe_strcpy_fits.
Qed.

(** What is written whole and read as it was. *)
Definition entry_ok (ig : ignore) : Prop :=
  value_ok (ig_mask ig) /\ (length (ig_mask ig) <= 900)%nat /\ 0 <= ig_type ig < 2 ^ 31.

Definition entry_text (ig : ignore) : cstr :=
  "mask" ++ " = " ++ ig_mask ig ++ LF :: "type" ++ " = " ++ decimal 10 (ig_type ig) [] ++ [LF; LF].

Lemma save_entry_whole ig : entry_ok ig -> save_entry ig = entry_text ig.
Proof.
  intros (_ & Hl & _). unfold save_entry, fmt, entry_text. cbn [concat]. rewrite app_nil_r. rewrite take_ge; [by rewrite <- ?app_assoc|].
  pose proof (decimal_length 10 (ig_type ig) []) as Hd. cbn [length] in Hd. rewrite !length_app.
  change (length (list_ascii_of_string "mask = ")) with 7%nat. change (length (list_ascii_of_string "type = ")) with 7%nat. cbn [length]. lia.
Qed.

Lemma decimal_ok n : 0 <= n < 2 ^ 31 -> value_ok (decimal 10 n []) /\ atoi (decimal 10 n []) = n.
Proof.
  intros Hn. assert (Hat : atoi (decimal 10 n []) = n).
  { pose proof (atoi_number n Hn) as Ha. unfold int_text in Ha. by rewrite (proj2 (Z.ltb_ge _ _)) in Ha by lia. }
  split; [|done]. pose proof (decimal_digits 10 n [] ltac:(lia) ltac:(constructor)) as Hd.
  assert (Hin : forall c, c ∈ decimal 10 n [] -> 48 <= uchar c <= 57).
  { intros c Hc. rewrite Forall_forall in Hd. specialize (Hd c Hc). unfold isdigit in Hd. lia. }
  assert (Hno : forall c : ascii, uchar c < 48 -> c ∉ decimal 10 n []) by (intros c Hc Hc'; apply Hin in Hc'; lia).
  split_and!.
  - apply Forall_forall. intros c Hc ->. by apply (Hno NUL).
  - by apply Hno.
  - intros E. apply (Hno " "%char); [done|]. destruct (decimal 10 n []) as [|c s]; [done|]. cbn in E. subst. by left.
  - intros E. apply (Hno CR); [done|]. by apply last_Some_elem_of.
  - apply ascii7_whole. apply Forall_forall. intros c Hc. apply Hin in Hc. lia.
Qed.

Lemma entry_text_nonul ig : entry_ok ig -> nonul (entry_text ig).
Proof.
  intros ((Hm & _) & _ & Ht). destruct (decimal_ok _ Ht) as [(Hd & _) _]. unfold entry_text.
  repeat (apply nonul_app; split); try done; try by repeat constructor.
  constructor; [done|]. repeat (apply nonul_app; split); try done; by repeat constructor.
Qed.

Lemma entries_nonul l : Forall entry_ok l -> nonul (concat (map entry_text l)).
Proof. induction 1; [constructor|]. cbn [map concat]. apply nonul_app. split; [by apply entry_text_nonul|done]. Qed.

(** Between the entries stand two line ends. *)
Lemma read_entry (between : bool) ig more :
  entry_ok ig -> nonul more ->
  ignore_read_next_entry ((if between then [LF; LF] else []) ++ entry_text ig ++ more) = Some (Some (ig, [LF; LF] ++ more)).
Proof.
  intros He Hmore. pose proof (entry_text_nonul ig He) as Hn. destruct He as (Hm & Hl & Ht).
  destruct (decimal_ok _ Ht) as [Hd Hat]. pose proof (decimal_length 10 (ig_type ig) []) as Hdl. cbn [length] in Hdl.
  set (types := "type" ++ " = " ++ decimal 10 (ig_type ig) [] ++ LF :: LF :: more).
  assert (Ht' : nonul types).
  { subst types. destruct Hd as (Hd & _). repeat (apply nonul_app; split); try done; try by repeat constructor. }
  assert (E : entry_text ig ++ more = "mask" ++ " = " ++ ig_mask ig ++ LF :: types).
  { unfold entry_text, types. rewrite <- !app_assoc. cbn [app]. by rewrite <- !app_assoc. }
  assert (Hne : nonul (entry_text ig ++ more)) by (by apply nonul_app).
  assert (Hmask : cfg_get_str ((if between then [LF; LF] else []) ++ entry_text ig ++ more) "mask" 1024 = Some (Some (ig_mask ig, LF :: types))).
  { unfold cfg_get_str. destruct between; cbn [app length].
    - rewrite cfg_skip; [|by left|by constructor|done]. rewrite cfg_skip; [|by left|done|by rewrite E].
      rewrite E. apply cfg_found; [by left|done|done|lia].
    - rewrite E. apply cfg_found; [by left|done|done|lia]. }
  unfold ignore_read_next_entry. rewrite Hmask. cbn [mbind option_bind].
  assert (Htype : cfg_get_str (LF :: types) "type" 1024 = Some (Some (decimal 10 (ig_type ig) [], LF :: LF :: more))).
  { unfold cfg_get_str. rewrite cfg_skip; [|by right|done|done]. cbn [length]. apply cfg_found; [by right|done|by constructor|lia]. }
  rewrite Htype. cbn [mbind option_bind]. rewrite Hat. unfold wrap_u32. rewrite Z.mod_small by lia. by destruct ig.
Qed.

Lemma read_end (between : bool) : ignore_read_next_entry (if between then [LF; LF] else []) = Some None.
Proof.
  unfold ignore_read_next_entry, cfg_get_str. destruct between; cbn [length].
  - rewrite cfg_skip; [|by left|by repeat constructor|done]. cbn [cfg_lines].
    by destruct (Z.eqb_spec (g_ascii_strncasecmp ("mask" ++ [" "%char]) [LF] (length ("mask" : cstr) + 1)) 0) as [E|E];
      [apply g_ascii_strncasecmp_zero in E; [done|by repeat constructor..]|].
  - cbn [cfg_lines]. by destruct (Z.eqb_spec (g_ascii_strncasecmp ("mask" ++ [" "%char]) [] (length ("mask" : cstr) + 1)) 0) as [E|E];
      [apply g_ascii_strncasecmp_zero in E; [done|by repeat constructor..]|].
Qed.

Lemma load_saved_entries l fuel (between : bool) acc :
  Forall entry_ok l -> (length l < fuel)%nat ->
  load_entries fuel ((if between then [LF; LF] else []) ++ concat (map entry_text l)) acc = Some (rev l ++ acc).
Proof.
  intros Hl. revert fuel between acc. induction Hl as [|ig l Hig Hl IH]; intros [|fuel] between acc Hf; try (cbn in Hf; lia); cbn [load_entries map concat].
  - by rewrite app_nil_r, read_end.
  - rewrite read_entry by (done || by apply entries_nonul). cbn [mbind option_bind].
    rewrite (IH fuel true) by (cbn in Hf; lia). cbn [rev]. by rewrite <- app_assoc.
Qed.

Lemma entry_text_long ig : (1 <= length (entry_text ig))%nat.
Proof. unfold entry_text. rewrite length_app. change (length (list_ascii_of_string "mask")) with 4%nat. lia. Qed.

(** The entries that are written. *)
Definition saved (l : list ignore) : list ignore := List.filter (fun ig => negb (has (ig_type ig) IG_NOSAVE)) l.

(** What is written to ignore.conf is what is read from it. With masks of
    whole characters in one line that begin with no blank, the file written of a
    list and read into an empty one gives exactly the entries that were to be
    saved, last first; as a map from masks to types it is the same. *)
Theorem ignore_file_roundtrip s s0 :
  list_ok (ignore_list s) -> Forall entry_ok (saved (ignore_list s)) -> ignore_list s0 = [] ->
  exists s', ignore_load (Some (ignore_save s)) s0 = Some s' /\ ignore_list s' = rev (saved (ignore_list s)) /\
    types_of (ignore_list s') = types_of (saved (ignore_list s)).
Proof.
  intros Hok He H0. unfold ignore_save. fold (saved (ignore_list s)). set (l := saved (ignore_list s)) in *.
  assert (Ef : concat (map save_entry l) = concat (map entry_text l)).
  { f_equal. apply map_ext_in. intros ig Hin. apply save_entry_whole. rewrite Forall_forall in He. by apply He, list_elem_of_In. }
  rewrite Ef. unfold ignore_load. assert (Hnd : NoDup (map key (rev l))).
  { rewrite map_rev. apply NoDup_ListNoDup, NoDup_rev, NoDup_ListNoDup. eapply sublist_NoDup; [apply Hok|].
    unfold l, saved. clear. induction (ignore_list s) as [|a k IH]; [done|]. cbn. destruct (negb _); by constructor. }
  assert (Hsame : types_of (rev l) = types_of l).
  { unfold types_of. rewrite map_rev. apply list_to_map_proper.
    - rewrite <- map_rev, <- list_fmap_compose. exact Hnd.
    - symmetry. apply Permutation_rev. }
  destruct l as [|ig l']; [exists s0; rewrite H0; split_and!; done|]. set (l := ig :: l') in *.
  assert (Hlen : forall k, (length k <= length (concat (map entry_text k)))%nat).
  { induction k as [|a k IH]; [done|]. cbn [map concat length]. rewrite length_app. pose proof (entry_text_long a). lia. }
  destruct (concat (map entry_text l)) as [|c text] eqn:Et; [specialize (Hlen l); rewrite Et in Hlen; cbn in Hlen; lia|].
  rewrite <- Et. rewrite c_string_nonul by (by apply entries_nonul).
  rewrite H0. pose proof (load_saved_entries l (S (length (concat (map entry_text l)))) false [] He ltac:(specialize (Hlen l); lia)) as Hload.
  cbn [app] in Hload. rewrite Hload. cbn [mbind option_bind]. rewrite app_nil_r. eexists. split_and!; [done|done|exact Hsame].
Qed.
End file.

(** ** Floods *)

Record ctcp_message := CtcpMessage { cm_nick : cstr; cm_ip : cstr; cm_now : Z; cm_later : Z }.

Definition flood_step (p : flood_prefs) (what : Z) (m : ctcp_message) (f : flood) (s : ignores) : Z * flood * ignores :=
  flood_check p (cm_nick m) (cm_ip m) (cm_now m) (cm_later m) what f s.

(** The answers to a sequence of messages, and the state behind it. *)
Fixpoint flood_run (p : flood_prefs) (what : Z) (ms : list ctcp_message) (f : flood) (s : ignores) : list Z * flood * ignores :=
  match ms with
  | [] => ([], f, s)
  | m :: ms =>
      let '(r, f, s) := flood_step p what m f s in
      let '(rs, f, s) := flood_run p what ms f s in
      (r :: rs, f, s)
  end.

Lemma flood_counts p ms f s :
  ctcp_last_time f <> 0 -> 0 <= ctcp_counter f -> ctcp_counter f + Z.of_nat (length ms) < flood_ctcp_num p -> flood_ctcp_num p < 2 ^ 32 ->
  Forall (fun m => cm_now m - ctcp_last_time f < flood_ctcp_time p) ms ->
  flood_run p 0 ms f s =
    (replicate (length ms) 1, Flood (ctcp_counter f + Z.of_nat (length ms)) (ctcp_last_time f) (msg_counter f) (msg_last_time f), s).
Proof.
  intros Ht Hc Hn Hp Hms. revert f Ht Hc Hn Hms. induction ms as [|m ms IH]; intros [cc ct mc mt] Ht Hc Hn Hms; cbn in *.
  { by rewrite Z.add_0_r. }
  apply Forall_cons in Hms as [Hm Hms]. unfold flood_step, flood_check. rewrite (proj2 (Z.eqb_neq ct 0)) by done.
  rewrite (proj2 (Z.ltb_lt _ _)) by done. unfold wrap_u32. rewrite !Z.mod_small by lia. rewrite (proj2 (Z.eqb_neq _ _)) by lia.
  rewrite IH by (cbn; done || lia). cbn. do 3 f_equal. lia.
Qed.

Lemma tokens_literal s : Forall (fun c => wildcard c = false) s -> tokens s = map TLit s.
Proof. induction 1 as [|c s Hc Hs IH]; [done|]. rewrite tokens_lit by done. cbn. by rewrite IH. Qed.

Lemma glob_literal s : glob (map TLit s) s.
Proof. induction s; cbn; by constructor. Qed.

Lemma host_mask_matches nick user host :
  Forall (fun c => wildcard c = false) host -> glob (tokens ("*!*@" ++ host)) (nick ++ "!" ++ user ++ "@" ++ host).
Proof.
  intros Hh. change (tokens ("*!*@" ++ host)) with (TStar :: TLit "!" :: TStar :: TLit "@" :: tokens host).
  apply glob_star_app. cbn [app list_ascii_of_string]. apply glob_star, glob_lit; [done|]. apply glob_star_app, glob_star, glob_lit; [done|].
  rewrite tokens_literal by done. apply glob_literal.
Qed.

Lemma index_of_at user host : "@"%char ∉ user -> index_of "@" (user ++ "@"%char :: host) = Some (length user).
Proof. apply index_of_first. Qed.

Lemma added_applies mask type s :
  nonul mask -> list_ok (ignore_list s) -> type <> 0 -> 
  exists ig, ig ∈ ignore_list (ignore_add mask type false s).2 /\ ig_mask ig = mask /\ has (ig_type ig) type = true.
Proof.
  intros Hm [_ Hnn] Ht. assert (Hhas : forall t, has (Z.lor t type) type = true).
  { intros t. unfold has. apply negb_true_iff, Z.eqb_neq. intros E. apply Ht. apply Z.bits_inj'. intros n Hn. rewrite Z.bits_0.
    apply (f_equal (fun z => Z.testbit z n)) in E. rewrite Z.land_spec, Z.lor_spec, Z.bits_0 in E. destruct (Z.testbit type n); [|done].
    by rewrite orb_true_r in E. }
  pose proof (ignore_exists_spec mask _ Hm Hnn) as He. unfold ignore_add. destruct (ignore_exists mask _) as [i|].
  - destruct He as (pre & ig & post & El & <- & _). cbn [snd ignore_list tell set_list]. rewrite El.
    rewrite <- (Nat.add_0_r (length pre)), alter_app_r. cbn [alter list_alter]. eexists. split_and!; [apply elem_of_app; right; by left|done|by apply Hhas].
  - cbn [snd ignore_list tell set_list]. eexists. split_and!; [by left|done|]. cbn. specialize (Hhas 0). by rewrite Z.lor_0_l in Hhas.
Qed.

(** C34. A CTCP flood in time is cut off. When messages arrive within the limit
    after the last mark, all before the allowed number are let through and leave
    the list of ignores alone; the one that reaches the number is refused, the
    counter starts again, and from then on an entry of the list fits every sender
    at the host it came from, for CTCP. *)
Theorem flood_is_cut_off p ms nick user host now later f s :
  ctcp_last_time f <> 0 -> 0 <= ctcp_counter f -> ctcp_counter f + Z.of_nat (length ms) + 1 = flood_ctcp_num p -> flood_ctcp_num p < 2 ^ 32 ->
  Forall (fun m => cm_now m - ctcp_last_time f < flood_ctcp_time p) ms -> now - ctcp_last_time f < flood_ctcp_time p ->
  list_ok (ignore_list s) -> nonul host -> Forall (fun c => wildcard c = false) host -> "@"%char ∉ user ->
  exists f' s', flood_run p 0 (ms ++ [CtcpMessage nick (user ++ "@" ++ host) now later]) f s = (replicate (length ms) 1 ++ [0], f', s') /\
    ctcp_counter f' = 0 /\ ctcp_last_time f' = now /\
    exists ig, ig ∈ ignore_list s' /\ forall n u, applies IG_CTCP (n ++ "!" ++ u ++ "@" ++ host) ig.
Proof.
  intros Ht Hc Hn Hp Hms Hnow Hok Hh Hw Hu.
  assert (Happ : forall a b f s, flood_run p 0 (a ++ b) f s =
    (let '(r, f, s) := flood_run p 0 a f s in let '(r', f, s) := flood_run p 0 b f s in (r ++ r', f, s))).
  { clear. induction a as [|m a IH]; intros b f s; cbn [app flood_run]; [by destruct (flood_run p 0 b f s) as [[??]?]|].
    destruct (flood_step p 0 m f s) as [[r f'] s']. rewrite IH. destruct (flood_run p 0 a f' s') as [[??]?].
    by destruct (flood_run p 0 b _ _) as [[??]?]. }
  rewrite Happ, flood_counts by (done || lia). cbn [flood_run]. unfold flood_step, flood_check. cbn [cm_nick cm_ip cm_now cm_later].
  rewrite ?Z.eqb_refl, (proj2 (Z.eqb_neq _ 0)), (proj2 (Z.ltb_lt _ _)) by done.
  rewrite (proj2 (Z.eqb_eq _ _)) by (unfold wrap_u32; rewrite !Z.mod_small; lia).
  assert (Em : flood_mask nick (user ++ "@" ++ host) = "*!*@" ++ host).
  { unfold flood_mask. cbn [app list_ascii_of_string]. rewrite index_of_at by done. rewrite drop_app_length. unfold fmt. cbn [concat]. by rewrite app_nil_r. }
  rewrite Em. eexists _, _. split; [done|]. split; [done|]. split; [done|].
  destruct (added_applies ("*!*@" ++ host) IG_CTCP (tell (CtcpFlood nick ("*!*@" ++ host)) s)) as (ig & Hin & Hmask & Htype).
  - apply nonul_app. split; [by repeat constructor|done].
  - done.
  - done.
  - exists ig. split; [exact Hin|]. intros n u. split; [done|]. rewrite Hmask. by apply host_mask_matches.
Qed.

(** Once the limit has passed without a flood the count stands still: the mark is
    not moved, and no later flood, however fast, is seen. *)
Lemma flood_missed_after_the_limit p what ms f s :
  ctcp_last_time f <> 0 -> msg_last_time f <> 0 ->
  Forall (fun m => flood_ctcp_time p <= cm_now m - ctcp_last_time f /\ flood_msg_time p <= cm_now m - msg_last_time f) ms ->
  flood_run p what ms f s = (replicate (length ms) 1, f, s).
Proof.
  intros H1 H2. induction 1 as [|m ms [Hc Hm] Hms IH]; [done|]. cbn [flood_run]. destruct f as [cc ct mc mt]. cbn [ctcp_last_time msg_last_time] in *.
  assert (E : flood_step p what m (Flood cc ct mc mt) s = (1, Flood cc ct mc mt, s)).
  { unfold flood_step, flood_check. rewrite (proj2 (Z.eqb_neq ct 0)), (proj2 (Z.eqb_neq mt 0)) by done.
    rewrite (proj2 (Z.ltb_ge (cm_now m - ct) _)), (proj2 (Z.ltb_ge (cm_now m - mt) _)) by done. by destruct (what =? 0). }
  rewrite E, IH. done.
Qed.
