(* ===== verification/IgnoreCases.v ===== *)
(** * The ignore list: cases (src/common/ignore.c)

    Concrete lists, files and floods. *)
From S2P Require Import Prelude Glib Casemap Glob Text Access Modes Isupport Proto Words Sts Ignore IgnoreSpec.

Definition troll : ignore := Ignore "*!*@Troll.example" 15.
Definition friend : ignore := Ignore "eve!*@*" 37.
Definition fresh (l : list ignore) : ignores := Ignores l 0 0 0 0 0 0 1 [].

Lemma ignore_check_decides_witness :
  ascii7 "*!*@Troll.example" /\ ~ ignored_by [troll; friend] "eve!e@troll.example" IG_CHAN /\ ignored_by [troll; friend] "bob!b@troll.example" IG_CHAN.
Proof.
  split_and!; [by repeat constructor| |].
  - intros H. pose proof (ignore_check_decides (fresh [troll; friend]) "eve!e@troll.example" IG_CHAN ltac:(by repeat constructor)) as Hd.
    vm_compute in Hd. destruct Hd as ([_ Hd] & _). specialize (Hd H). discriminate.
  - pose proof (ignore_check_decides (fresh [troll; friend]) "bob!b@troll.example" IG_CHAN ltac:(by repeat constructor)) as Hd.
    vm_compute in Hd. destruct Hd as ([Hd _] & _). exact (Hd eq_refl).
Defined.

Lemma ignore_list_is_a_map_witness :
  types_of (ignore_list (foldl list_step (fresh []) [Add "bob!*@*" 1 true; Add "BOB!*@*" 4 false; Add "eve!*@*" 1 true; Del "Eve!*@*"])) =
    {[fold_case "bob!*@*" := 5]}.
Proof.
  rewrite (proj2 (ignore_list_is_a_map (fresh []) [Add "bob!*@*" 1 true; Add "BOB!*@*" 4 false; Add "eve!*@*" 1 true; Del "Eve!*@*"]
    ltac:(repeat constructor; discriminate) ltac:(repeat constructor))).
  vm_compute. reflexivity.
Defined.

Definition quiet_one : ignore := Ignore "spam!*@*" 65.

Lemma ignore_file_roundtrip_witness :
  exists s', ignore_load (Some (ignore_save (fresh [troll; quiet_one; friend]))) (fresh []) = Some s' /\
    ignore_list s' = [friend; troll] /\ types_of (ignore_list s') = types_of [troll; friend].
Proof.
  refine (@ignore_file_roundtrip glib_ref _ (fresh [troll; quiet_one; friend]) (fresh []) _ _ _).
  - split; [apply (bool_decide_unpack _); vm_compute; exact I|repeat constructor; discriminate].
  - repeat constructor; try discriminate; try (apply (bool_decide_unpack _); vm_compute; exact I); try (cbn; lia);
      apply ascii7_whole; repeat constructor.
  - reflexivity.
Defined.

Definition defaults : flood_prefs := FloodPrefs 5 30 5 30.
Definition version (n ip : cstr) (now : Z) : ctcp_message := CtcpMessage n ip now now.

Lemma flood_is_cut_off_witness :
  exists f' s', flood_run defaults 0 [version "a" "x@h" 1001; version "b" "y@h" 1002; version "c" "z@h" 1003; version "d" "w@h" 1004]
      (Flood 1 1000 0 0) (fresh []) = ([1; 1; 1; 0], f', s') /\
    ctcp_counter f' = 0 /\ ctcp_last_time f' = 1004 /\
    exists ig, ig ∈ ignore_list s' /\ forall n u, applies IG_CTCP (n ++ "!" ++ u ++ "@" ++ "h") ig.
Proof.
  refine (flood_is_cut_off defaults [version "a" "x@h" 1001; version "b" "y@h" 1002; version "c" "z@h" 1003] "d" "w" "h" 1004 1004
    (Flood 1 1000 0 0) (fresh []) _ _ _ _ _ _ _ _ _ _).
  - discriminate.
  - vm_compute. discriminate.
  - vm_compute. reflexivity.
  - vm_compute. reflexivity.
  - repeat constructor.
  - vm_compute. reflexivity.
  - split; constructor.
  - repeat constructor; discriminate.
  - repeat constructor.
  - apply (bool_decide_unpack _). vm_compute. exact I.
Defined.

(** ** Findings *)

(** A flood of a hundred requests in one second, an hour after the first one. *)
Lemma late_flood_unseen : (flood_run defaults 0 (replicate 100 (version "bob" "b@h" 4600)) (Flood 1 1000 1 1000) (fresh [])).1.1 = replicate 100 1.
Proof. vm_compute. reflexivity. Qed.

(** The first private message is counted as a CTCP request. *)
Lemma first_message_counts_as_ctcp :
  (flood_run defaults 1 [version "bob" "b@h" 1000] (Flood 0 0 0 0) (fresh [])).1 = ([1], Flood 1 0 0 1000).
Proof. vm_compute. reflexivity. Qed.

(** An ignore of a full mask without wildcards cannot be taken back by its name. *)
Lemma unignore_full_mask :
  (s ← cmd_ignore id (map list_ascii_of_string [""; "ignore"; "bob!b@h"; ""; ""]%string) (fresh []);
   r ← cmd_unignore (map list_ascii_of_string [""; "unignore"; "bob!b@h"; ""; ""]%string) s.2; Some (ignore_list r.2)) =
    Some [Ignore "bob!b@h" 159].
Proof. vm_compute. reflexivity. Qed.

(** The line of a long mask in the list of /ignore has no room for its columns. *)
Lemma long_mask_overflows_list :
  ignore_showlist id (fresh [Ignore (replicate 220 "x"%char) 1]) = None /\
  ignore_showlist id (fresh [Ignore (replicate 200 "x"%char) 1]) <> None.
Proof. split; vm_compute; [reflexivity|discriminate]. Qed.
