(* ===== verification/Alerts.v ===== *)
(** * Alerts (src/common/inbound.c)

    Which messages are highlighted: a word of the text or the sender against
    lists of masks separated by commas and blanks.  The lists are preferences,
    and [g_strchug] moves their bytes in place, so they come back with the
    answer.  [None] is undefined behaviour. *)
From S2P Require Import Prelude Glib Casemap Glob Text Access Scrollback.

(** [g_unichar_isalpha] of the character a string begins with. *)
Class Unicode := { alpha_at : cstr -> bool }.

(** It looks at that character only. *)
Class UnicodeLaws (G : GLib) (U : Unicode) : Prop := {
  alpha_at_first c block rest : Z.of_nat (length (c :: block)) = g_utf8_skip c -> alpha_at ((c :: block) ++ rest) = alpha_at (c :: block) }.

Definition mask_sep (c : ascii) : bool := (c =c " ") || (c =c ",").

Fixpoint span_mask (masks : cstr) : cstr * cstr :=
  match masks with
  | [] => ([], [])
  | c :: rest => if mask_sep c then ([], masks) else let '(seg, r) := span_mask rest in (c :: seg, r)
  end.

Definition g_isspace (c : ascii) : bool := (c =c " ") || ((9 <=? uchar c) && (uchar c <=? 13)).
Fixpoint g_strchug (s : cstr) : cstr := match s with c :: s' => if g_isspace c then g_strchug s' else s | [] => [] end.

(** The masks from here on: the answer, and the string that is left in place;
    it ends behind a mask that was moved. *)
Fixpoint alert_masks (fuel : nat) (word masks : cstr) : option (bool * cstr) :=
  match fuel with
  | O => None
  | S fuel =>
      let '(seg, rest) := span_mask masks in
      let mask := g_strchug seg in
      let left_ rest := if Nat.ltb (length mask) (length seg) then mask else seg ++ rest in
      match glob_match mask word with
      | Ret true => Some (true, left_ rest)
      | Ret false =>
          match rest with
          | [] => Some (false, left_ [])
          | c :: rest => '(b, rest) ← alert_masks fuel word rest; Some (b, left_ (c :: rest))
          end
      | _ => None
      end
  end.

Definition alert_match_word (word masks : cstr) : option (bool * cstr) :=
  match masks with [] => Some (false, masks) | _ => alert_masks (S (length masks)) word masks end.

(** RFC1459 <special>, it can be inside a word. *)
Definition rfc_special (c : ascii) : bool := negb (c =c NUL) && strchr_b "-[]\`^{}_|" c.

Section alerts.
Context `{GLib} `{Unicode}.

(** [word]: the bytes from the start of the word to [p]. *)
Fixpoint alert_words (fuel : nat) (word p masks : cstr) : option (bool * cstr) :=
  match fuel with
  | O => None
  | S fuel =>
      match p with
      | [] => alert_match_word word masks
      | c :: p' =>
          if isdigit c || rfc_special c then alert_words fuel (word ++ [c]) p' masks
          else
            let skip := Z.to_nat (g_utf8_skip c) in
            let next := drop skip p in
            if mask_sep c || negb (alpha_at p) then
              '(b, masks) ← alert_match_word word masks;
              if (b : bool) then Some (true, masks)
              else if Nat.ltb (length p) skip then None else alert_words fuel [] next masks
            else if Nat.ltb (length p) skip then None else alert_words fuel (word ++ take skip p) next masks
      end
  end.

Definition alert_match_text (text masks : cstr) : option (bool * cstr) :=
  match masks with [] => Some (false, masks) | _ => alert_words (S (length text)) [] text masks end.

(** The three lists of the preferences. *)
Record hilight_prefs := HilightPrefs { irc_no_hilight : cstr; irc_extra_hilight : cstr; irc_nick_hilight : cstr }.

(** The answer and the lists; [nick] is [serv->nick], which the code changes in
    the same way. *)
Definition is_hilight (from text nick : cstr) (p : hilight_prefs) : option (bool * cstr * hilight_prefs) :=
  '(no, n) ← alert_match_word from (irc_no_hilight p);
  let p := HilightPrefs n (irc_extra_hilight p) (irc_nick_hilight p) in
  if (no : bool) then Some (false, nick, p)
  else
    let text := strip_color text in
    '(b, nick) ← alert_match_text text nick;
    if (b : bool) then Some (true, nick, p)
    else
      '(b, extra) ← alert_match_text text (irc_extra_hilight p);
      let p := HilightPrefs (irc_no_hilight p) extra (irc_nick_hilight p) in
      if (b : bool) then Some (true, nick, p)
      else
        '(b, nicks) ← alert_match_word from (irc_nick_hilight p);
        Some (b, nick, HilightPrefs (irc_no_hilight p) extra nicks).
End alerts.

(** ** What the lists mean *)

(** The masks of a list; two separators in a row stand around an empty one. *)
Fixpoint masks_of (seg masks : cstr) : list cstr :=
  match masks with
  | [] => [seg]
  | c :: masks => if mask_sep c then seg :: masks_of [] masks else masks_of (seg ++ [c]) masks
  end.

(** Lists that no call changes. *)
Definition list_plain (masks : cstr) : Prop := ascii7 masks /\ Forall (fun c => g_isspace c = true -> c = " "%char) masks.

Definition listed (word masks : cstr) : Prop := masks <> [] /\ exists m, m ∈ masks_of [] masks /\ glob (tokens m) word.

(** Some mask of the list reads past the end of a word. *)
Definition masks_overread (word masks : cstr) : Prop := exists m, m ∈ masks_of [] masks /\ glob_match m word = Overread.

Lemma masks_of_span seg masks :
  let '(s, rest) := span_mask masks in
  masks = s ++ rest /\ masks_of seg masks = match rest with [] => [seg ++ s] | _ :: r => (seg ++ s) :: masks_of [] r end /\
  Forall (fun c => mask_sep c = false) s /\ (match rest with [] => True | c :: _ => mask_sep c = true end).
Proof.
  revert seg. induction masks as [|c masks IH]; intros seg; cbn [span_mask masks_of]; [rewrite !app_nil_r; split_and!; try done; constructor|].
  destruct (mask_sep c) eqn:Ec; [rewrite !app_nil_r; split_and!; try done; constructor|]. specialize (IH (seg ++ [c])). destruct (span_mask masks) as [s rest].
  destruct IH as (-> & -> & Hs & Hr). split_and!; [done|destruct rest; by rewrite <- app_assoc|by constructor|done].
Qed.

Lemma chug_plain s : Forall (fun c => g_isspace c = true -> c = " "%char) s -> Forall (fun c => mask_sep c = false) s -> g_strchug s = s.
Proof.
  destruct s as [|c s]; [done|]. intros [Hc _]%Forall_cons [Hs _]%Forall_cons. cbn [g_strchug].
  destruct (g_isspace c); [|done]. by rewrite Hc in Hs.
Qed.

Lemma alert_masks_spec fuel word masks :
  list_plain masks -> (length masks < fuel)%nat ->
  match alert_masks fuel word masks with
  | Some (b, masks') => masks' = masks /\ (b = true <-> exists m, m ∈ masks_of [] masks /\ glob (tokens m) word)
  | None => masks_overread word masks
  end.
Proof.
  revert masks. induction fuel as [|fuel IH]; intros masks [H7 Hsp] Hf; [lia|]. cbn [alert_masks]. unfold masks_overread.
  pose proof (masks_of_span [] masks) as Hm. destruct (span_mask masks) as [s rest]. destruct Hm as (-> & -> & Hs & Hr). cbn [app].
  unfold list_plain, ascii7 in *. apply Forall_app in H7 as [H7s H7r]. apply Forall_app in Hsp as [Hss Hsr].
  rewrite (chug_plain s) by done. rewrite (proj2 (Nat.ltb_ge _ _)) by done.
  pose proof (glob_match_decides s word H7s) as Hg. destruct (glob_match s word) as [[]| |] eqn:Eg; [| | |done].
  - split; [done|]. split; [|done]. intros _. exists s. split; [|done]. by destruct rest; left.
  - destruct rest as [|c r].
    + split; [done|]. split; [done|]. intros (m & Hin & Hgm). apply list_elem_of_singleton in Hin. by subst.
    + apply Forall_cons in H7r as [_ H7r]. apply Forall_cons in Hsr as [_ Hsr].
      specialize (IH r ltac:(done) ltac:(rewrite length_app in Hf; cbn in Hf; lia)). destruct (alert_masks fuel word r) as [[b r']|]; cbn [mbind option_bind].
      * destruct IH as [-> IH]. split; [done|]. rewrite IH. split; intros (m & Hin & Hgm); exists m; (split; [|done]); [by right|].
        apply elem_of_cons in Hin as [->|Hin]; [by destruct Hg|done].
      * destruct IH as (m & Hin & Ho). exists m. split; [by right|done].
  - exists s. split; [|done]. by destruct rest; left.
Qed.

Lemma alert_match_word_spec word masks :
  list_plain masks ->
  match alert_match_word word masks with
  | Some (b, masks') => masks' = masks /\ (b = true <-> listed word masks)
  | None => masks_overread word masks
  end.
Proof.
  intros Hp. unfold alert_match_word, listed. destruct masks as [|c masks]; [split; [done|]; split; [done|by intros [? _]]|].
  pose proof (alert_masks_spec (S (length (c :: masks))) word (c :: masks) Hp ltac:(lia)) as Hs.
  destruct (alert_masks _ _ _) as [[b m']|]; [|done]. destruct Hs as [-> ->]. split; [done|]. split; [intros He; split; done|by intros [_ ?]].
Qed.

(** ** The words of a text *)

Section words.
Context `{GL : GLibLaws} `{UL : !UnicodeLaws G U}.

(** A character is its bytes. *)
Definition whole (ch : cstr) : Prop := exists c block, ch = c :: block /\ Z.of_nat (length ch) = g_utf8_skip c.

Definition word_char (ch : cstr) : bool :=
  match ch with c :: _ => isdigit c || rfc_special c || (negb (mask_sep c) && alpha_at ch) | [] => false end.

Fixpoint words_of (word : cstr) (chars : list cstr) : list cstr :=
  match chars with
  | [] => [word]
  | ch :: chars => if word_char ch then words_of (word ++ ch) chars else word :: words_of [] chars
  end.

Lemma inside_ascii c : isdigit c || rfc_special c = true -> uchar c < 128.
Proof.
  intros Hc. pose proof (all_bytes_forall (fun c => implb (isdigit c || rfc_special c) (uchar c <? 128)) ltac:(by vm_compute) c) as Ha.
  cbv beta in Ha. rewrite Hc in Ha. cbn [implb] in Ha. lia.
Qed.

Lemma alert_words_spec fuel word chars masks :
  list_plain masks -> Forall whole chars -> (length (concat chars) < fuel)%nat ->
  match alert_words fuel word (concat chars) masks with
  | Some (b, masks') => masks' = masks /\ (b = true <-> exists w, w ∈ words_of word chars /\ listed w masks)
  | None => exists w, w ∈ words_of word chars /\ masks_overread w masks
  end.
Proof.
  intros Hp Hw. revert fuel word. induction Hw as [|ch chars (c & block & -> & Hl) Hw IH]; intros [|fuel] word Hf; try lia; cbn [concat words_of].
  - cbn [alert_words]. pose proof (alert_match_word_spec word masks Hp) as Ha. destruct (alert_match_word word masks) as [[b m']|].
    + destruct Ha as [-> ->]. split; [done|]. split; [intros Hi; exists word; by split; [left|]|].
      intros (w & Hin & Hi). apply list_elem_of_singleton in Hin. by subst.
    + exists word. by split; [left|].
  - cbn [concat] in Hf. rewrite length_app in Hf. cbn [app alert_words word_char].
    assert (Hskip : Z.to_nat (g_utf8_skip c) = length (c :: block)) by lia. change (c :: block ++ concat chars) with ((c :: block) ++ concat chars).
    destruct (isdigit c || rfc_special c) eqn:Ein.
    + pose proof (g_utf8_skip_ascii c (inside_ascii c Ein)) as Hs. rewrite Hs in Hl. destruct block as [|d block]; [|cbn in Hl; lia].
      cbn [app orb]. apply IH. cbn in Hf. lia.
    + cbn [orb]. rewrite alpha_at_first by (by cbn [length] in *). rewrite Hskip, drop_app_length, take_app_length.
      assert (Hlt : Nat.ltb (length ((c :: block) ++ concat chars)) (length (c :: block)) = false) by (apply Nat.ltb_ge; rewrite length_app; lia).
      rewrite Hlt. replace (negb (mask_sep c) && alpha_at (c :: block)) with (negb (mask_sep c || negb (alpha_at (c :: block)))) by (by rewrite negb_orb, negb_involutive).
      destruct (mask_sep c || negb (alpha_at (c :: block))); cbn [negb]; [|apply IH; cbn in Hf; lia].
      pose proof (alert_match_word_spec word masks Hp) as Ha. destruct (alert_match_word word masks) as [[b m']|]; cbn [mbind option_bind].
      2: { exists word. by split; [left|]. }
      destruct Ha as [-> Ha]. destruct b.
      * split; [done|]. split; [|done]. intros _. exists word. split; [by left|by apply Ha].
      * specialize (IH fuel [] ltac:(cbn in Hf; lia)). destruct (alert_words fuel [] (concat chars) masks) as [[b m']|].
        -- destruct IH as [-> ->]. split; [done|]. split; intros (w & Hin & Hi); exists w; (split; [|done]); [by right|].
           apply elem_of_cons in Hin as [->|Hin]; [|done]. by apply Ha in Hi.
        -- destruct IH as (w & Hin & Ho). exists w. split; [by right|done].
Qed.

(** The alerts fire on the words they are set for. For a text of whole
    characters and lists of masks with commas and blanks between them, a message
    is highlighted exactly if its sender is not on the list of exceptions and a
    word of its text, colours taken out, fits the own nick or an extra mask, or
    the sender is on the list of nicks; a word is a run of letters, digits and the
    special characters of nicks. The lists stay as they are; no result means that
    some mask reads past the end of a word. *)
Theorem is_hilight_decides from text chars nick p :
  strip_color text = concat chars -> Forall whole chars ->
  list_plain nick -> list_plain (irc_no_hilight p) -> list_plain (irc_extra_hilight p) -> list_plain (irc_nick_hilight p) ->
  let in_text masks := exists w, w ∈ words_of [] chars /\ listed w masks in
  match is_hilight from text nick p with
  | Some (b, nick', p') => nick' = nick /\ p' = p /\
      (b = true <-> ~ listed from (irc_no_hilight p) /\
        (in_text nick \/ in_text (irc_extra_hilight p) \/ listed from (irc_nick_hilight p)))
  | None => exists w masks, (w = from \/ w ∈ words_of [] chars) /\ masks ∈ [nick; irc_no_hilight p; irc_extra_hilight p; irc_nick_hilight p] /\
      masks_overread w masks
  end.
Proof.
  intros Et Hw Hnick Hno Hex Hni in_text. destruct p as [no ex ni]. cbn [irc_no_hilight irc_extra_hilight irc_nick_hilight] in *.
  assert (Htext : forall masks, list_plain masks ->
    match alert_match_text (concat chars) masks with
    | Some (b, m') => m' = masks /\ (b = true <-> in_text masks)
    | None => exists w, w ∈ words_of [] chars /\ masks_overread w masks
    end).
  { intros masks Hp. unfold alert_match_text. destruct masks as [|c masks].
    - split; [done|]. split; [done|]. by intros (w & _ & [? _]).
    - apply alert_words_spec; [done|done|lia]. }
  unfold is_hilight. cbn [irc_no_hilight irc_extra_hilight irc_nick_hilight]. pose proof (alert_match_word_spec from no Hno) as H1.
  destruct (alert_match_word from no) as [[b1 m1]|]; cbn [mbind option_bind]; [|exists from, no; split_and!; [by left|by right; left|done]].
  destruct H1 as [-> H1]. destruct b1; [split_and!; [done|done|]; split; [done|]; intros [Hc _]; exfalso; by apply Hc, H1|].
  assert (Hnot : ~ listed from no) by (by rewrite <- H1). rewrite Et. specialize (Htext nick Hnick) as H2.
  destruct (alert_match_text (concat chars) nick) as [[b2 m2]|]; cbn [mbind option_bind].
  2: { destruct H2 as (w & Hin & Ho). exists w, nick. split_and!; [by right|by left|done]. }
  destruct H2 as [-> H2]. destruct b2; [split_and!; [done|done|]; split; [|done]; intros _; split; [done|left; by apply H2]|].
  specialize (Htext ex Hex) as H3. destruct (alert_match_text (concat chars) ex) as [[b3 m3]|]; cbn [mbind option_bind].
  2: { destruct H3 as (w & Hin & Ho). exists w, ex. split_and!; [by right|by do 2 right; left|done]. }
  destruct H3 as [-> H3]. destruct b3; [split_and!; [done|done|]; split; [|done]; intros _; split; [done|right; left; by apply H3]|].
  pose proof (alert_match_word_spec from ni Hni) as H4.
  destruct (alert_match_word from ni) as [[b4 m4]|]; cbn [mbind option_bind]; [|exists from, ni; split_and!; [by left|by do 3 right; left|done]].
  destruct H4 as [-> H4]. split_and!; [done|done|]. rewrite H4. split; [by intros; split; [|right; right]|].
  intros [_ [H5|[H5|H5]]]; [by apply H2 in H5|by apply H3 in H5|done].
Qed.
End words.

(** ** Cases *)

(** The letters of ASCII. *)
#[export] Instance unicode_ref : Unicode :=
  {| alpha_at := fun s => let c := uchar (ascii_lower (peek s)) in (97 <=? c) && (c <=? 122) |}.
#[export] Instance unicode_ref_laws : UnicodeLaws glib_ref unicode_ref.
Proof. by split. Qed.

Definition lists : hilight_prefs := HilightPrefs "spam*,*serv" "carol" "boss".
Definition hey_bob : list cstr := map (fun c => [c]) (list_ascii_of_string "hey Bob: hi").

Lemma is_hilight_decides_witness :
  match is_hilight "eve" "hey Bob: hi" "bob" lists with Some (b, _, _) => b = true | None => False end /\
  exists w, w ∈ words_of [] hey_bob /\ listed w "bob".
Proof.
  pose proof (@is_hilight_decides glib_ref _ unicode_ref _ "eve" "hey Bob: hi" hey_bob "bob" lists ltac:(reflexivity)
    ltac:(repeat (constructor; [eexists _, _; split; reflexivity|]); constructor)
    ltac:(split; repeat constructor; discriminate) ltac:(split; repeat constructor; discriminate)
    ltac:(split; repeat constructor; discriminate) ltac:(split; repeat constructor; discriminate)) as Hd.
  split; [vm_compute; reflexivity|].
  assert (E : is_hilight "eve" "hey Bob: hi" "bob" lists = Some (true, "bob" : cstr, lists)) by (vm_compute; reflexivity).
  rewrite E in Hd. destruct Hd as (_ & _ & Hd). destruct (proj1 Hd eq_refl) as [_ [Hn|[Hn|Hn]]]; [exact Hn| |].
  - exfalso. destruct Hn as (w & Hin & _ & m & Hm & Hg).
    apply list_elem_of_singleton in Hm. subst m.
    repeat (apply elem_of_cons in Hin as [->|Hin]; [by inversion Hg|]). by apply elem_of_nil in Hin.
  - exfalso. destruct Hn as (_ & m & Hm & Hg). apply list_elem_of_singleton in Hm. subst m. by inversion Hg.
Defined.

(** A list with a blank behind its comma holds an empty mask, and a text with two
    separators in a row an empty word: everybody who writes "ok, fine" is
    highlighted. *)
Lemma comma_blank_highlights_all :
  is_hilight "eve" "ok, fine" "bob" (HilightPrefs [] "alice, carol" []) =
    Some (true, "bob" : cstr, HilightPrefs [] "alice, carol" []) /\
  is_hilight "eve" "ok, fine" "bob" (HilightPrefs [] "alice,carol" []) =
    Some (false, "bob" : cstr, HilightPrefs [] "alice,carol" []).
Proof. split; vm_compute; reflexivity. Qed.

(** A mask behind a tab is moved, and the list ends there from then on. *)
Lemma tab_cuts_the_list :
  alert_match_word "eve" (list_ascii_of_string "alice," ++ "009"%char :: list_ascii_of_string "bob,eve") = Some (true, list_ascii_of_string "alice,bob") /\
  alert_match_word "eve" (list_ascii_of_string "alice,bob") = Some (false, list_ascii_of_string "alice,bob").
Proof. split; vm_compute; reflexivity. Qed.
