(* ===== verification/Messages.v ===== *)
(** * Messages (src/common/inbound.c, ctcp.c, proto-irc.c)

    PRIVMSG, NOTICE and INVITE: which window a message goes to and as what,
    echoes of our own lines, CTCP requests and actions, ignores, floods and
    alerts on the way.  The windows are those of [Channels].  What is shown is a
    trace; [current_msgid], which the text side takes, is told in it.  [None] is
    undefined behaviour. *)
From S2P Require Import Prelude Glib Text Access Userlist Modes Server Words Tags Proto Scrollback GapLedger Chathistory Catchup Batches Channels TextEvents Ignore Alerts.

(** ** State *)

Inductive mte :=
| XP_TE_OPENDIALOG | XP_TE_DPRIVMSG | XP_TE_PRIVMSG | XP_TE_UCHANMSG | XP_TE_HCHANMSG | XP_TE_CHANMSG
| XP_TE_UACTION | XP_TE_HCHANACTION | XP_TE_CHANACTION | XP_TE_DPRIVACTION | XP_TE_PRIVACTION
| XP_TE_CTCPSEND | XP_TE_CTCPSND | XP_TE_CTCPSNDC | XP_TE_CTCPGEN | XP_TE_CTCPGENC
| XP_TE_NOTICESEND | XP_TE_SERVNOTICE | XP_TE_CHANNOTICE | XP_TE_NOTICE | XP_TE_INVITED | XP_TE_INVITEDOTHER.

Inductive talk_event :=
| Told (sid : nat) (e : mte) (args : list cstr)
| TabState (sid : nat) (of_us : bool) | TabHilight (sid : nat)
| LastTalk (sid : nat) (nick : cstr)
| CurrentMsgid (sid : nat) (msgid : option cstr)
| ReplyContext (sid : nat) (msgid : cstr)
| SetBack
| CtcpReply (nick cmd : cstr) | Nctcp (nick msg : cstr) | HandleDcc (nick : cstr) | SoundPlay (file : cstr)
| PingReply (sid : nat) (time from : cstr).

Record msg_caps := MsgCaps { have_idmsg : bool; have_accnotify : bool; have_echo_message : bool; have_labeled_response : bool; is_away : bool }.

(** [ctcp_list]: names and commands; [version]: the answer to VERSION unless hidden. *)
Record msg_prefs := MsgPrefs {
  mp_client : client_prefs; mp_flood : flood_prefs; irc_notice_pos : Z; irc_reply_show : bool;
  irc_id_ytext : cstr; irc_id_ntext : cstr; irc_oper_text : cstr; away_auto_unmark : bool;
  ctcp_list : list (cstr * cstr); version : option cstr }.

Record talk := Talk {
  t_client : client; t_caps : msg_caps; t_current_tab : option nat;
  t_ignores : ignores; t_flood : flood; t_alerts : hilight_prefs; t_trace : list talk_event }.

Definition set_client (c : client) (k : talk) : talk :=
  Talk c (t_caps k) (t_current_tab k) (t_ignores k) (t_flood k) (t_alerts k) (t_trace k).
Definition set_guards (s : ignores) (f : flood) (k : talk) : talk :=
  Talk (t_client k) (t_caps k) (t_current_tab k) s f (t_alerts k) (t_trace k).
Definition set_alerts (a : hilight_prefs) (k : talk) : talk :=
  Talk (t_client k) (t_caps k) (t_current_tab k) (t_ignores k) (t_flood k) a (t_trace k).
Definition note (e : talk_event) (k : talk) : talk :=
  Talk (t_client k) (t_caps k) (t_current_tab k) (t_ignores k) (t_flood k) (t_alerts k) (t_trace k ++ [e]).

Definition told (sid : nat) (e : mte) (args : list cstr) : talk -> talk := note (Told sid e args).

Definition t_isup (k : talk) : isupport := isup (w_serv (windows (t_client k))).
Definition chan_name (k : talk) (s : cstr) : bool := is_channel (t_isup k) s.
Definition is_us (k : talk) (nick : cstr) : bool := compare (t_client k) nick (own_nick (t_client k)) =? 0.

Definition tags_lookup_reply (tags : option (gmap cstr cstr)) : option cstr :=
  m ← tags;
  match (match m !! ("+reply" : cstr) with Some v => Some v | None => m !! ("+draft/reply" : cstr) end) with
  | Some (c :: v) => Some (c :: v)
  | _ => None
  end.

(** The sentinel of a reply, U+FDD0. *)
Definition reply_arrow : cstr := ["239"%char; "183"%char; "144"%char; " "%char].

Section messages.
Context `{GLib, Sqlite, Unicode, Locale} (p : msg_prefs).

(** A call on the windows. *)
Definition lift (f : client -> option client) (k : talk) : option talk := c ← f (t_client k); Some (set_client c k).

Definition reply_of (t : message_tags_data) : option cstr := if irc_reply_show p then tags_lookup_reply (all_tags t) else None.

Definition with_arrow (t : message_tags_data) (text : cstr) : cstr :=
  match reply_of t with Some _ => reply_arrow ++ text | None => text end.

Definition attach_reply (sid : nat) (t : message_tags_data) (k : talk) : talk :=
  match reply_of t with Some r => note (ReplyContext sid r) k | None => k end.

(** The id of the message for the text side, and for duplicates. *)
Definition take_msgid (sid : nat) (t : message_tags_data) (k : talk) : option talk :=
  match Tags.msgid t with
  | Some id => lift (on_view sid (set_sess (chathistory_track_msgid_ts id (timestamp t) false))) (note (CurrentMsgid sid (Some id)) k)
  | None => Some k
  end.

Definition mark_tab (sid : nat) (of_us : bool) (k : talk) : talk :=
  if bool_decide (t_current_tab k = Some sid) then k else note (TabState sid of_us) k.

Definition inbound_make_idtext (k : talk) (id : bool) : option cstr :=
  if have_idmsg (t_caps k) || have_accnotify (t_caps k) then
    idtext ← safe_strcpy (if id then irc_id_ytext p else irc_id_ntext p) 64; check_special_chars idtext true
  else Some [].

Definition inbound_oper_mark (idtext : cstr) (t : message_tags_data) : option cstr :=
  match Tags.oper t, irc_oper_text p with
  | Some _, (_ :: _) as text =>
      mark ← safe_strcpy text 64; mark ← check_special_chars mark true; Some (take 63 (idtext ++ mark))
  | _, _ => Some idtext
  end.

Definition id_text (k : talk) (id : bool) (t : message_tags_data) : option cstr :=
  idtext ← inbound_make_idtext k id; inbound_oper_mark idtext t.

(** [is_hilight] with its effects; the masks stay as it leaves them. *)
Definition hilight (sid : nat) (from text : cstr) (k : talk) : option (talk * bool) :=
  '(b, nick, a) ← is_hilight from text (own_nick (t_client k)) (t_alerts k);
  let k := set_client (set_nick nick (t_client k)) (set_alerts a k) in
  Some (if (b : bool) && negb (bool_decide (t_current_tab k = Some sid)) then note (TabHilight sid) k else k, b).

(** The user list entry of the sender: prefix, identified, us. *)
Definition sender_in (sid : nat) (from : cstr) (id : bool) (k : talk) : option (talk * option Userlist.User * bool) :=
  user ← lookup_user sid from (t_client k);
  Some (match user with
        | Some u => (note (LastTalk sid from) k, Some u, match Userlist.account u with Some _ => true | None => id end)
        | None => (k, None, id)
        end).

Definition nickchar_of (user : option Userlist.User) : cstr :=
  match user with Some u => if Userlist.prefix u =c NUL then [] else [Userlist.prefix u] | None => [] end.

Definition of_us (user : option Userlist.User) : bool := match user with Some u => Userlist.is_me u | None => false end.

(** ** Messages *)

Definition chanmsg_window (chan : option cstr) (from : cstr) (k : talk) : option nat :=
  match chan with
  | Some chan =>
      match find_channel chan (t_client k) with
      | Some sid => Some sid
      | None => if chan_name k chan then None else find_dialog chan (t_client k)
      end
  | None => find_dialog from (t_client k)
  end.

Definition is_dialog (sid : nat) (k : talk) : option bool := s ← lookup_session sid (t_client k); Some (bool_decide (s_type s = SESS_DIALOG)).

Definition show_chanmsg (sid : nat) (from text : cstr) (fromme id : bool) (t : message_tags_data) (k : talk) : option talk :=
  let text := with_arrow t text in
  k ← take_msgid sid t k;
  let k := mark_tab sid false k in
  '(k, user, id) ← sender_in sid from id k;
  if fromme || of_us user then
    let k := if away_auto_unmark p && is_away (t_caps k) && (timestamp t =? 0) then note SetBack k else k in
    Some (attach_reply sid t (told sid XP_TE_UCHANMSG [from; text; nickchar_of user] k))
  else
    idtext ← id_text k id t;
    '(k, hl) ← hilight sid from text k;
    dialog ← is_dialog sid k;
    Some (attach_reply sid t
      (if (dialog : bool) then told sid XP_TE_DPRIVMSG [from; text; idtext] k
       else if (hl : bool) then told sid XP_TE_HCHANMSG [from; text; nickchar_of user; idtext] k
       else told sid XP_TE_CHANMSG [from; text; nickchar_of user; idtext] k)).

Definition inbound_chanmsg (sess : option nat) (chan : option cstr) (from text : cstr) (fromme id : bool) (t : message_tags_data) (k : talk) : option talk :=
  match (match sess with Some sid => Some sid | None => chanmsg_window chan from k end) with
  | Some sid => show_chanmsg sid from text fromme id t k
  | None => Some k
  end.

Definition open_dialog (from : cstr) (k : talk) : option (talk * nat) :=
  '(c, sid) ← new_ircwindow (mp_client p) SESS_DIALOG from false (t_client k);
  Some (set_client c k, sid).

Definition inbound_open_dialog (from : cstr) (k : talk) : option (talk * nat) :=
  '(k, sid) ← open_dialog from k; Some (told sid XP_TE_OPENDIALOG [] k, sid).

Definition flooding (nick ip : cstr) (now later what : Z) (k : talk) : talk * bool :=
  let '(r, f, s) := flood_check (mp_flood p) nick ip now later what (t_flood k) (t_ignores k) in
  (set_guards s f k, r =? 0).

Definition autoopen (k : talk) : bool := negb (hex_gui_autoopen_dialog (t_ignores k) =? 0).

(** The dialog of a sender, opened unless it floods us; the window of the server
    instead of it. *)
Definition dialog_or_open (from ip : cstr) (now later : Z) (k : talk) : option (talk * nat) :=
  match find_dialog from (t_client k) with
  | Some sid => Some (k, sid)
  | None =>
      let '(k, flood) := flooding from ip now later 1 k in
      if flood then Some (k, server_session (base (t_client k))) else inbound_open_dialog from k
  end.

Definition inbound_privmsg (from ip text : cstr) (now later : Z) (id : bool) (t : message_tags_data) (k : talk) : option talk :=
  if (match find_dialog from (t_client k) with Some _ => true | None => false end) || autoopen k then
    '(k, sid) ← dialog_or_open from ip now later k;
    let k := match ip with [] => k | _ => set_client (set_topic sid ip ip (t_client k)) k end in
    inbound_chanmsg None None from text false (identified t) t k
  else
    found ← find_session_from_nick from (t_client k);
    front ← (match found with Some sid => Some sid | None => front_session (t_client k) end);
    '(k, user, id) ← sender_in front from id k;
    idtext ← id_text k id t;
    dialog ← is_dialog front k;
    Some (if (dialog : bool) && (match found with Some _ => true | None => false end)
          then told front XP_TE_DPRIVMSG [from; text; idtext] k else told front XP_TE_PRIVMSG [from; text; idtext] k).

(** ** Actions *)

(** The window of an action that is not ours; none: the one the line came for. *)
Definition action_window (chan from ip : cstr) (now later : Z) (k : talk) : option (talk * option nat) :=
  if chan_name k chan then Some (k, find_channel chan (t_client k))
  else
    '(k, sid) ← (match find_dialog from (t_client k) with
                 | Some sid => Some (k, Some sid)
                 | None => if autoopen k then '(k, sid) ← dialog_or_open from ip now later k; Some (k, Some sid) else Some (k, None)
                 end);
    match sid with
    | Some sid => Some (k, Some sid)
    | None =>
        found ← find_session_from_nick from (t_client k);
        Some (k, match found with Some sid => Some sid | None => front_session (t_client k) end)
    end.

Definition inbound_action (def : nat) (chan from ip text : cstr) (now later : Z) (fromme id : bool) (t : message_tags_data) (k : talk) : option talk :=
  let text := with_arrow t text in
  '(k, sid) ← (if fromme then Some (k, Some def) else action_window chan from ip now later k);
  let privaction := negb fromme && negb (chan_name k chan) in
  let sid := default def sid in
  let k := mark_tab sid fromme k in
  '(k, user, id) ← sender_in sid from id k;
  let fromme := fromme || of_us user in
  idtext ← id_text k id t;
  k ← take_msgid sid t k;
  '(k, hl) ← (if negb fromme && negb privaction then hilight sid from text k else Some (k, false));
  dialog ← is_dialog sid k;
  let nickchar := nickchar_of user in
  Some (attach_reply sid t
    (if (hl : bool) then told sid XP_TE_HCHANACTION [from; text; nickchar; idtext] k
     else if fromme then told sid XP_TE_UACTION [from; text; nickchar; idtext] k
     else if negb privaction then told sid XP_TE_CHANACTION [from; text; nickchar; idtext] k
     else if (dialog : bool) then told sid XP_TE_DPRIVACTION [from; text; idtext] k
     else told sid XP_TE_PRIVACTION [from; text; idtext] k)).

(** ** CTCP (src/common/ctcp.c) *)

Definition prefix_is (s : cstr) (name : string) : bool := g_ascii_strncasecmp s name (String.length name) =? 0.

(** The text before the next 001. *)
Definition before_001 (s : cstr) : cstr := match index_of "001" s with Some k => take k s | None => s end.

(** Whether some reply of the list is for it. *)
Definition ctcp_check (nick ctcp : cstr) (k : talk) : talk * bool :=
  let name := before_001 ctcp in
  foldl (fun '(k, ret) pop =>
      if g_ascii_strcasecmp name pop.1 =? 0 then (note (CtcpReply nick pop.2) k, true) else (k, ret))
    (k, false) (ctcp_list p).

Definition ignored (host : cstr) (type : Z) (k : talk) : option (talk * bool) :=
  '(b, s) ← ignore_check host type (t_ignores k); Some (set_guards s (t_flood k) k, b).

Definition generic_ctcp (def : nat) (to nick msg : cstr) (k : talk) : option talk :=
  let msg := before_001 msg in
  if negb (chan_name k to) then front ← front_session (t_client k); Some (told front XP_TE_CTCPGEN [msg; nick] k)
  else Some (told (default def (find_channel to (t_client k))) XP_TE_CTCPGENC [msg; nick; to] k).

Definition ctcp_sound (def : nat) (to nick file : cstr) (k : talk) : option talk :=
  k ← (if chan_name k to then Some (told (default def (find_channel to (t_client k))) XP_TE_CTCPSNDC [file; nick; to] k)
       else front ← front_session (t_client k); Some (told front XP_TE_CTCPSND [file; nick] k));
  Some (if strchr_b file "/" then k else note (SoundPlay file) k).

(** [ctcp_check] ends [word_eol[5]] at its next 001, and with it the message. *)
Definition cut_rest (ln : line) (msg : cstr) : cstr :=
  let start := (nth 4 (eol_offsets ln) 0 + (if peek (word_eol ln 4) =c ":" then 2 else 1))%nat in
  let k := (nth 5 (eol_offsets ln) (length (text ln)) - start)%nat in
  take k msg ++ before_001 (drop k msg).

(** [word[4] + 2]: behind the colon and the 001. *)
Definition ctcp_handle (sid : nat) (to nick ip msg : cstr) (ln : line) (now later : Z) (t : message_tags_data) (k : talk) : option talk :=
  let word4 := word ln 4 in
  let check k := if Nat.ltb (length word4) 2 then None else Some (ctcp_check nick (drop 2 word4) k) in
  if prefix_is msg "DCC" then
    '(k, taken) ← check k;
    if (taken : bool) then Some k
    else '(k, ig) ← ignored (word ln 1) IG_DCC k; Some (if (ig : bool) then k else note (HandleDcc nick) k)
  else if prefix_is msg "ACTION " then
    '(k, ig) ← ignored (word ln 1) (if chan_name k to then IG_CHAN else IG_PRIV) k;
    if (ig : bool) then Some k
    else
      '(k, taken) ← check k;
      if (taken : bool) then generic_ctcp sid to nick msg k
      else inbound_action sid to nick ip (drop 7 (cut_rest ln msg)) now later false (identified t) t k
  else
    '(k, ig) ← ignored (word ln 1) IG_CTCP k;
    if (ig : bool) then Some k
    else
      let k := match version p with
               | Some v => if g_ascii_strcasecmp msg "VERSION" =? 0 then note (Nctcp nick (fmt [("VERSION " : cstr); v])) k else k
               | None => k
               end in
      match word4 with
      | [] => None
      | [_] => Some k
      | _ =>
          '(k, taken) ← check k;
          if negb taken && prefix_is msg "SOUND" then ctcp_sound sid to nick (before_001 (word ln 5)) k
          else generic_ctcp sid to nick msg k
      end.

(** ** PRIVMSG *)

Definition inbound_channel_context (t : message_tags_data) (k : talk) : option nat :=
  m ← all_tags t; chan ← m !! ("+channel-context" : cstr);
  if chan_name k chan then find_channel chan (t_client k) else None.

(** The echo of a line that is shown already: the stored row gets its id. *)
Definition confirm_echo (track : bool) (sid : option nat) (t : message_tags_data) (k : talk) : option talk :=
  match sid with
  | None => Some k
  | Some sid =>
      k ← (match Tags.msgid t with
           | Some id =>
               k ← lift (on_view sid (fun v =>
                 scrollback_confirm_pending (default [] (tag_label t)) id
                   (if track then set_sess (chathistory_track_msgid_ts id (timestamp t) false) v else v))) k;
               Some (note (CurrentMsgid sid (Some id)) k)
           | None => Some k
           end);
      Some (note (CurrentMsgid sid None) (attach_reply sid t k))
  end.

(** The dialog with the one we wrote to. *)
Definition dialog_with (to : cstr) (k : talk) : option (talk * nat) :=
  match find_dialog to (t_client k) with Some sid => Some (k, sid) | None => open_dialog to k end.

(** A CTCP request of ours, echoed. *)
Definition own_ctcp (sid : nat) (to nick ip text : cstr) (now later : Z) (confirmed : bool) (t : message_tags_data) (k : talk) : option talk :=
  if confirmed then confirm_echo false (if chan_name k to then find_channel to (t_client k) else find_dialog to (t_client k)) t k
  else if prefix_is text "ACTION " then
    '(k, sid) ← (if chan_name k to then Some (k, sid) else dialog_with to k);
    inbound_action sid to nick ip (drop 7 text) now later true (identified t) t k
  else Some (told sid XP_TE_CTCPSEND [to; before_001 text] k).

Definition privmsg_ctcp (sid : nat) (to nick ip text : cstr) (ln : line) (now later : Z) (confirmed : bool) (t : message_tags_data) (k : talk) : option talk :=
  if have_echo_message (t_caps k) && is_us k nick then own_ctcp sid to nick ip text now later confirmed t k
  else
    let k := if prefix_is text "ACTION" then k else (flooding nick ip now later 0 k).1 in
    ctcp_handle sid to nick ip text ln now later t k.

(** A copy of a message to ourselves. *)
Definition self_duplicate (to : cstr) (t : message_tags_data) (k : talk) : option (talk * bool) :=
  if is_us k to then
    match find_dialog to (t_client k) with
    | Some sid =>
        match Tags.msgid t with
        | Some ((_ :: _) as id) =>
            '(c, dup) ← ask_view sid (chathistory_is_duplicate_msgid id (timestamp t)) (t_client k);
            Some (set_client c k, dup)
        | _ => Some (k, have_labeled_response (t_caps k) && match tag_label t with Some _ => false | None => true end)
        end
    | None => Some (k, false)
    end
  else Some (k, false).

Definition privmsg_private (to nick ip text : cstr) (ln : line) (now later : Z) (confirmed : bool) (t : message_tags_data) (k : talk) : option talk :=
  '(k, ig) ← ignored (word ln 1) IG_PRIV k;
  if (ig : bool) then Some k
  else if negb (is_us k nick) then
    match inbound_channel_context t k with
    | Some sid =>
        s ← lookup_session sid (t_client k);
        inbound_chanmsg (Some sid) (Some (channel s)) nick text false (identified t) t k
    | None => inbound_privmsg nick ip text now later (identified t) t k
    end
  else if confirmed then confirm_echo true (find_dialog to (t_client k)) t k
  else
    '(k, dup) ← self_duplicate to t k;
    if (dup : bool) then Some k
    else '(k, sid) ← dialog_with to k; inbound_chanmsg (Some sid) (Some to) nick text true (identified t) t k.

Definition privmsg_channel (to nick text : cstr) (ln : line) (confirmed : bool) (t : message_tags_data) (k : talk) : option talk :=
  if confirmed then confirm_echo true (find_channel to (t_client k)) t k
  else
    '(k, ig) ← ignored (word ln 1) IG_CHAN k;
    if (ig : bool) then Some k else inbound_chanmsg None (Some to) nick text false (identified t) t k.

(** A status prefix before a channel is dropped. *)
Definition status_target (k : talk) (to : cstr) : cstr :=
  match to with
  | c :: rest => if negb (strchr_b (chantypes (t_isup k)) c) && strchr_b (nick_prefixes (t_isup k)) c then rest else to
  | [] => []
  end.

(** The text of a CTCP request; one 001 alone is ended before its begin. *)
Definition ctcp_text (text : cstr) : option cstr :=
  match text with
  | [] | [_] => None
  | _ :: rest => Some (match last rest with Some c => if c =c "001" then take (length rest - 1) rest else rest | None => rest end)
  end.

(** [sid]: the window the line came for; the batch has been asked before. *)
Definition handle_privmsg (sid : nat) (ln : line) (nick ip : cstr) (now later : Z) (confirmed : bool) (t : message_tags_data) (k : talk) : option talk :=
  match word ln 3 with
  | [] => Some k
  | to =>
      let to := status_target k to in
      let text := drop_colon (word_eol ln 4) in
      if peek text =c "001" then text ← ctcp_text text; privmsg_ctcp sid to nick ip text ln now later confirmed t k
      else if chan_name k to then privmsg_channel to nick text ln confirmed t k
      else privmsg_private to nick ip text ln now later confirmed t k
  end.

(** ** NOTICE *)

(** "[#channel] text" of ChanServ, where no dialog with it is open. *)
Definition chanserv_channel (nick msg : cstr) (id : bool) (k : talk) : option nat :=
  if (peek msg =c "[") && (negb (have_idmsg (t_caps k)) || id) && (g_ascii_strcasecmp nick "ChanServ" =? 0) &&
     (match find_dialog nick (t_client k) with None => true | Some _ => false end)
  then k' ← index_of "]" (drop 1 msg); find_channel (take k' (drop 1 msg)) (t_client k)
  else None.

Definition find_session_from_type (t : session_type) (c : client) : option nat :=
  List.find (fun sid => match lookup_session sid c with Some s => bool_decide (s_type s = t) | None => false end) (sess_list (windows c)).

Definition notices_window (server_notice : bool) (k : talk) : option (talk * nat) :=
  let t := if server_notice then SESS_SNOTICES else SESS_NOTICES in
  match find_session_from_type t (t_client k) with
  | Some sid => Some (k, sid)
  | None =>
      '(c, sid) ← new_ircwindow (mp_client p) t (if server_notice then "(snotices)" else "(notices)" : cstr) false (t_client k);
      let c := fe_call sid (FeSetNonchannel false) (fe_call sid FeSetTitle (fe_call sid FeSetChannel c)) in
      c ← on_users_ sid userlist_clear c;
      Some (set_client (fe_call sid LogOpenOrClose c) k, sid)
  end.

(** The window of a notice, whether it is that of the channel it was sent to, and
    its text. *)
Definition notice_window (to nick ip msg : cstr) (id : bool) (k : talk) : option (talk * nat * bool * cstr) :=
  let server_notice := bool_decide (nick = ip) in
  let named := if chan_name k to then find_channel to (t_client k) else None in
  let named := match named, to with
               | None, c :: rest => if strchr_b (nick_prefixes (t_isup k)) c then find_channel rest (t_client k) else None
               | _, _ => named
               end in
  match named with
  | Some sid => Some (k, sid, true, msg)
  | None =>
      '(k, found, msg) ←
        (if irc_notice_pos p =? 0 then
           found ← (match chanserv_channel nick msg id k with
                    | Some sid => Some (Some sid)
                    | None => find_session_from_nick nick (t_client k)
                    end);
           Some (k, found, msg)
         else if irc_notice_pos p =? 1 then
           '(k, sid) ← notices_window server_notice k;
           Some (k, Some sid, if bool_decide (take 14 msg = ("*** Notice -- " : cstr)) then drop 14 msg else msg)
         else Some (k, front_session (t_client k), msg));
      sid ← (match found with
             | Some sid => Some sid
             | None => if server_notice then Some (server_session (base (t_client k))) else front_session (t_client k)
             end);
      Some (k, sid, false, msg)
  end.

(** Without the 001 it ends in. *)
Definition drop_001 (msg : cstr) : cstr :=
  match last msg with Some c => if c =c "001" then take (length msg - 1) msg else msg | None => msg end.

Definition show_notice (sid : nat) (in_channel server_notice : bool) (to nick msg : cstr) (t : message_tags_data) (k : talk) : option talk :=
  k ← take_msgid sid t k;
  Some (if have_echo_message (t_caps k) && is_us k nick then told sid XP_TE_NOTICESEND [to; msg] k
        else if server_notice then told sid XP_TE_SERVNOTICE [msg; nick] k
        else if in_channel then told sid XP_TE_CHANNOTICE [nick; to; msg] k
        else told sid XP_TE_NOTICE [nick; msg] k).

Definition inbound_notice (to nick msg ip : cstr) (id : bool) (t : message_tags_data) (k : talk) : option talk :=
  '(k, sid, in_channel, msg) ← notice_window to nick ip msg id k;
  let server_notice := bool_decide (nick = ip) in
  match msg with
  | c :: rest =>
      if c =c "001" then
        if bool_decide (take 4 rest = ("PING" : cstr)) then
          (* msg + 5 *)
          if Nat.ltb (length rest) 5 then None else Some (note (PingReply sid (drop 5 rest) nick) k)
        else show_notice sid in_channel server_notice to nick (drop_001 rest) t k
      else show_notice sid in_channel server_notice to nick msg t k
  | [] => show_notice sid in_channel server_notice to nick [] t k
  end.

(** The challenge of QuakeNet is not part of it. *)
Definition handle_notice (ln : line) (nick ip : cstr) (confirmed : bool) (t : message_tags_data) (k : talk) : option talk :=
  if confirmed then Some k
  else
    '(k, ig) ← ignored (word ln 1) IG_NOTI k;
    if (ig : bool) then Some k
    else
      let to := word ln 3 in
      to ← (if chan_name k to then Some to
            else match inbound_channel_context t k with
                 | Some sid => s ← lookup_session sid (t_client k); Some (channel s)
                 | None => Some to
                 end);
      inbound_notice to nick (drop_colon (word_eol ln 4)) ip (identified t) t k.

(** [sid]: the window the line came for. *)
Definition handle_invite (sid : nat) (servername : cstr) (ln : line) (nick : cstr) (k : talk) : option talk :=
  '(k, ig) ← ignored (word ln 1) IG_INVI k;
  if (ig : bool) then Some k
  else
    let text := strip_colon ln 4 in
    Some (if negb (is_us k (word ln 3)) then told sid XP_TE_INVITEDOTHER [text; nick; word ln 3; servername] k
          else told sid XP_TE_INVITED [text; nick; servername] k).

(** The branches of [process_named_msg]; false: another branch. *)
Definition message_branches (sid : nat) (servername type : cstr) (ln : line) (nick ip : cstr) (now later : Z) (confirmed : bool)
    (t : message_tags_data) (k : talk) : option (talk * bool) :=
  let starts s := bool_decide (take 4 type = list_ascii_of_string s) in
  let unbatched command f :=
    let '(h, taken) := inbound_batch_add_message (word ln 1) command ln t (base (t_client k)) in
    let k := set_client (set_base (fun _ => h) (t_client k)) k in
    k ← (if (taken : bool) then Some k else f k); Some (k, true) in
  if Nat.leb 5 (length type) then
    if starts "INVI" then k ← handle_invite sid servername ln nick k; Some (k, true)
    else if starts "NOTI" then unbatched ("NOTICE" : cstr) (handle_notice ln nick ip confirmed t)
    else if starts "PRIV" then unbatched ("PRIVMSG" : cstr) (handle_privmsg sid ln nick ip now later confirmed t)
    else Some (k, false)
  else Some (k, false).
End messages.
