(* ===== verification/MessagesSpec.v ===== *)
(** * Messages arrive where they belong (src/common/inbound.c, proto-irc.c)

    Over windows that show the network ([ChannelsSpec]), a PRIVMSG of somebody
    else is shown once, in the window of its channel or of its sender, unless it
    is ignored or floods us; and the windows go on showing the network. *)
From S2P Require Import Prelude Glib Casemap Glob Text Tree Access Isupport Userlist UserlistSpec UserlistNicks Modes ModesSpec Server Words Tags Proto.
From S2P Require Import Scrollback GapLedger Chathistory Catchup CatchupSpec Batches Channels ChannelsNet ChannelsSpec ChannelsLines ChannelsRun.
From S2P Require Import TextEvents Ignore Alerts Messages.

(** ** What is shown *)

Definition message_of (e : talk_event) : option (nat * mte * list cstr) :=
  match e with Told _ XP_TE_OPENDIALOG _ => None | Told sid e args => Some (sid, e, args) | _ => None end.

Definition messages (k : talk) : list (nat * mte * list cstr) := omap message_of (t_trace k).

(** A step that shows nothing and leaves the windows. *)
Record still (k k' : talk) : Prop := {
  st_skel : skel (t_client k') = skel (t_client k); st_caps : t_caps k' = t_caps k;
  st_messages : messages k' = messages k }.

#[export] Instance still_preorder : PreOrder still.
Proof. split; [by split|]. intros a b c [A1 A2 A3] [B1 B2 B3]. split; congruence. Qed.

Lemma messages_note e k : messages (note e k) = messages k ++ (match message_of e with Some m => [m] | None => [] end).
Proof. unfold messages. cbn. rewrite omap_app. cbn. by destruct (message_of e). Qed.

Lemma still_note e k : message_of e = None -> still k (note e k).
Proof. intros He. split; [done|done|]. by rewrite messages_note, He, app_nil_r. Qed.

Lemma alert_word_keeps word masks b masks' : list_plain masks -> alert_match_word word masks = Some (b, masks') -> masks' = masks.
Proof. intros Hp E. pose proof (alert_match_word_spec word masks Hp) as Hs. rewrite E in Hs. by destruct Hs. Qed.

Section messages.
Context (G : GLib) (Sq : Sqlite) (GL : GLibLaws G) (U : Unicode) (L : Locale) (p : msg_prefs).

Lemma alert_words_keeps fuel word text masks b masks' :
  list_plain masks -> alert_words fuel word text masks = Some (b, masks') -> masks' = masks.
Proof.
  intros Hp. revert word text b masks'. induction fuel as [|fuel IH]; intros word text b masks'; [done|]. cbn [alert_words].
  destruct text as [|c text]; [by apply alert_word_keeps|]. destruct (isdigit c || rfc_special c); [by apply IH|].
  destruct (mask_sep c || negb (alpha_at (c :: text))).
  - destruct (alert_match_word word masks) as [[b1 m1]|] eqn:E; [|done]. cbn [mbind option_bind]. apply alert_word_keeps in E as ->; [|done].
    destruct b1; [by intros [= <- <-]|]. destruct (Nat.ltb _ _); [done|]. by apply IH.
  - destruct (Nat.ltb _ _); [done|]. by apply IH.
Qed.

Lemma is_hilight_nick from text nick a b nick' a' : list_plain nick -> is_hilight from text nick a = Some (b, nick', a') -> nick' = nick.
Proof.
  intros Hp. unfold is_hilight. destruct (alert_match_word from _) as [[b1 m1]|]; [|done]. cbn [mbind option_bind].
  destruct b1; [by intros [= _ <- _]|]. destruct (alert_match_text _ nick) as [[b2 m2]|] eqn:E; [|done]. cbn [mbind option_bind].
  assert (m2 = nick) as ->.
  { unfold alert_match_text in E. destruct nick as [|c nick]; [by injection E as _ <-|]. by eapply alert_words_keeps. }
  destruct b2; [by intros [= _ <- _]|]. cbn [irc_extra_hilight]. destruct (alert_match_text _ (irc_extra_hilight a)) as [[b3 m3]|]; [|done]. cbn [mbind option_bind].
  cbn [irc_no_hilight irc_nick_hilight]. destruct b3; [by intros [= _ <- _]|]. destruct (alert_match_word from (irc_nick_hilight a)) as [[b4 m4]|]; [|done]. cbn [mbind option_bind].
  by intros [= _ <- _].
Qed.

Lemma take_msgid_still sid t k :
  is_Some (k_wins (skel (t_client k)) !! sid) -> exists k', take_msgid sid t k = Some k' /\ still k k' /\ t_alerts k' = t_alerts k.
Proof.
  intros [[ty ch] Hw]. unfold take_msgid. destruct (Tags.msgid t) as [id|]; [|by exists k].
  destruct (on_view_unmoved sid (set_sess (chathistory_track_msgid_ts id (timestamp t) false)) (t_client k) ty ch Hw) as (c' & E & Hs).
  { intros v. destruct (track_name id (timestamp t) false (sess v)) as [T1 T2]. by split. }
  unfold lift. cbn [t_client note]. rewrite E. cbn [mbind option_bind]. eexists. split; [done|]. split; [|done]. split; [done|done|].
  etransitivity; [apply (messages_note (CurrentMsgid sid (Some id)) k)|]. cbn. by rewrite app_nil_r.
Qed.

Lemma mark_tab_still sid b k : still k (mark_tab sid b k) /\ t_alerts (mark_tab sid b k) = t_alerts k.
Proof. unfold mark_tab. case_bool_decide; split; try done. by apply still_note. Qed.

Lemma attach_reply_still sid t k : still k (attach_reply p sid t k).
Proof. unfold attach_reply. destruct (reply_of p t); [by apply still_note|done]. Qed.

Lemma sender_in_still net sid from id k :
  faithful net (skel (t_client k)) -> is_Some (k_wins (skel (t_client k)) !! sid) -> plain from ->
  exists k' user id', sender_in sid from id k = Some (k', user, id') /\ still k k' /\ t_alerts k' = t_alerts k.
Proof.
  intros Hf Hw Hp. unfold sender_in. destruct (lookup_user_ok net (t_client k) sid from Hf Hw Hp) as [o ->]. cbn [mbind option_bind].
  destruct o as [u|]; eexists _, _, _; (split; [done|]); [|done]. split; [by apply still_note|done].
Qed.

Lemma hilight_still sid from text k :
  list_plain (own_nick (t_client k)) -> is_Some (is_hilight from text (own_nick (t_client k)) (t_alerts k)) ->
  exists k' b, hilight sid from text k = Some (k', b) /\ still k k'.
Proof.
  intros Hp [[[b nick] a] E]. unfold hilight. rewrite E. cbn [mbind option_bind]. apply is_hilight_nick in E as ->; [|done].
  eexists _, _. split; [done|]. set (k1 := set_client _ _). assert (Hk1 : still k k1) by (split; [by destruct k as [[]]|done..]).
  destruct (b && _); [|done]. etransitivity; [exact Hk1|]. by apply still_note.
Qed.

(** The texts of the preferences are well formed and no mask overreads. *)
Record showable (t : message_tags_data) (from text : cstr) (k : talk) : Prop := {
  sh_id : forall id, is_Some (id_text p k id t);
  sh_nick : list_plain (own_nick (t_client k));
  sh_alerts : is_Some (is_hilight from (with_arrow p t text) (own_nick (t_client k)) (t_alerts k)) }.

Lemma showable_still t from text k k' :
  own_nick (t_client k') = own_nick (t_client k) -> t_caps k' = t_caps k -> t_alerts k' = t_alerts k -> showable t from text k -> showable t from text k'.
Proof.
  intros En Hc Ha [S1 S2 S3]. split; [|by rewrite En|by rewrite En, Ha]. intros id. unfold id_text, inbound_make_idtext. rewrite Hc. exact (S1 id).
Qed.

(** Shown once, and the windows stay. *)
Definition shown_once (k k' : talk) (sid : nat) (e : mte) (args : list cstr) : Prop :=
  skel (t_client k') = skel (t_client k) /\ t_caps k' = t_caps k /\ messages k' = messages k ++ [(sid, e, args)].

Lemma shown_told k k1 sid e args t :
  still k k1 -> message_of (Told sid e args) = Some (sid, e, args) -> shown_once k (attach_reply p sid t (told sid e args k1)) sid e args.
Proof.
  intros [S1 S2 S3] Hm. destruct (attach_reply_still sid t (told sid e args k1)) as [A1 A2 A3].
  split; [by rewrite A1|]. split; [by rewrite A2|]. rewrite A3. unfold told. by rewrite messages_note, Hm, S3.
Qed.

Lemma show_chanmsg_once net sid from text (fromme id : bool) t k :
  faithful net (skel (t_client k)) -> is_Some (k_wins (skel (t_client k)) !! sid) -> plain from -> showable t from text k ->
  exists k' e rest, show_chanmsg p sid from text fromme id t k = Some k' /\
    shown_once k k' sid e (from :: with_arrow p t text :: rest) /\
    (fromme = false -> e <> XP_TE_UCHANMSG -> (e = XP_TE_DPRIVMSG <-> exists ch, k_wins (skel (t_client k)) !! sid = Some (SESS_DIALOG, ch))).
Proof.
  intros Hf Hw Hp Hsh. unfold show_chanmsg.
  destruct (take_msgid_still sid t k Hw) as (k1 & -> & H1 & A1). cbn [mbind option_bind].
  destruct (mark_tab_still sid false k1) as [H2 A2]. set (k2 := mark_tab sid false k1) in *.
  assert (H02 : still k k2) by (by transitivity k1). pose proof (st_skel _ _ H02) as S2.
  destruct (sender_in_still net sid from id k2) as (k3 & user & id' & -> & H3 & A3); [by rewrite S2|by rewrite S2|done|]. cbn [mbind option_bind].
  assert (H03 : still k k3) by (by transitivity k2). pose proof (st_skel _ _ H03) as S3.
  destruct (fromme || of_us user) eqn:Eu.
  - set (k4 := if _ : bool then note SetBack k3 else k3). assert (H4 : still k k4).
    { unfold k4. destruct (_ && _ && _); [|done]. transitivity k3; [done|by apply still_note]. }
    eexists _, XP_TE_UCHANMSG, _. split; [done|]. split; [by apply shown_told|done].
  - assert (Hsh3 : showable t from text k3).
    { apply (showable_still t from text k); [exact (f_equal k_nick S3)|apply H03|by rewrite A3, A2, A1|done]. }
    destruct (sh_id _ _ _ _ Hsh3 id') as [idtext ->]. cbn [mbind option_bind].
    destruct (hilight_still sid from (with_arrow p t text) k3) as (k4 & hl & -> & H4); [apply Hsh3..|]. cbn [mbind option_bind].
    assert (H04 : still k k4) by (by transitivity k3). pose proof (st_skel _ _ H04) as S4.
    destruct Hw as [[ty ch] Hw]. assert (Hd : is_dialog sid k4 = Some (bool_decide (ty = SESS_DIALOG))).
    { unfold is_dialog. assert (Hw4 : k_wins (skel (t_client k4)) !! sid = Some (ty, ch)) by (by rewrite S4).
      rewrite skel_wins in Hw4. apply fmap_Some in Hw4 as (s & -> & [= -> _]). done. }
    rewrite Hd. cbn [mbind option_bind]. case_bool_decide as Ety.
    + eexists _, XP_TE_DPRIVMSG, _. split; [done|]. split; [by apply shown_told|]. intros _ _. split; [|done]. intros _. exists ch. by rewrite Hw, Ety.
    + assert (Hno : ~ exists ch', k_wins (skel (t_client k)) !! sid = Some (SESS_DIALOG, ch')) by (intros [ch' Hc]; congruence).
      destruct hl; eexists _, _, _; (split; [done|]); (split; [by apply shown_told|]); intros _ _; (split; [done|]); by intros ?%Hno.
Qed.

(** ** A dialog is opened *)

Record with_dialog (sid : nat) (name : cstr) (k k' : skeleton) : Prop := {
  wd_front : k_front k' = k_front k; wd_uh : k_uh k' = k_uh k; wd_nick : k_nick k' = k_nick k; wd_cmp : k_cmp k' = k_cmp k; wd_isup : k_isup k' = k_isup k;
  wd_sids : k_sids k' = sid :: k_sids k; wd_fresh : k_wins k !! sid = None;
  wd_wins : k_wins k' = <[sid := (SESS_DIALOG, name)]> (k_wins k); wd_users : k_users k' = <[sid := users_new]> (k_users k) }.

Lemma with_dialog_faithful net sid name k k' : faithful net k -> with_dialog sid name k k' -> faithful net k'.
Proof.
  intros Hf [W1 W2 W3 W4 W5 W6 W7 W8 W9]. assert (Hns : sid ∉ k_sids k) by (rewrite (f_sids _ _ Hf), W7; by intros [? ?]).
  assert (Hserv : server_ok (k_server k')) by (unfold k_server; rewrite W4, W5; apply (f_server _ _ Hf)).
  assert (Hchan : forall i ch, k_wins k' !! i = Some (SESS_CHANNEL, ch) -> k_wins k !! i = Some (SESS_CHANNEL, ch) /\ i <> sid).
  { intros i ch. rewrite W8. destruct (decide (i = sid)) as [->|Hi]; [by rewrite lookup_insert_eq|by rewrite lookup_insert_ne]. }
  split.
  - rewrite W3. apply (f_nick _ _ Hf).
  - rewrite W2, W4, W5. apply (f_uh _ _ Hf).
  - rewrite W1, W6. destruct (f_front _ _ Hf) as (fr & E & Hin). exists fr. split; [done|by right].
  - done.
  - rewrite W4. apply (f_blank _ _ Hf).
  - intros i. rewrite W6, W8, elem_of_cons, (f_sids _ _ Hf). destruct (decide (i = sid)) as [->|Hi]; [rewrite lookup_insert_eq; split; [by eexists|by left]|].
    rewrite lookup_insert_ne by done. split; [by intros [?|?]|by right].
  - rewrite W6. constructor; [done|apply (f_once _ _ Hf)].
  - intros i. rewrite W8, W9. destruct (decide (i = sid)) as [->|Hi]; [rewrite !lookup_insert_eq; by split; eexists|].
    rewrite !lookup_insert_ne by done. apply (f_rooms _ _ Hf).
  - intros i ch [Hw _]%Hchan. by apply (f_plain _ _ Hf i).
  - intros i u. rewrite W9. destruct (decide (i = sid)) as [->|Hi]; [rewrite lookup_insert_eq; intros [= <-]; by apply users_new_ok|].
    rewrite lookup_insert_ne by done. intros Hu. apply (uwf_fields k); [done..|]. by apply (f_users _ _ Hf i).
  - intros i ch u [Hw Hi]%Hchan Hne. rewrite W9, lookup_insert_ne by done. rewrite W4. by apply (f_window _ _ Hf).
  - intros i t ch u. rewrite W8, W9. destruct (decide (i = sid)) as [->|Hi].
    + rewrite !lookup_insert_eq. intros _ _ [= <-]. apply (users_new_ok k'). done.
    + rewrite !lookup_insert_ne by done. by apply (f_idle _ _ Hf).
  - intros nc Hnc. destruct (f_open _ _ Hf nc Hnc) as (i & ch & Hw & Hc). exists i, ch. rewrite W4, W8. split; [|done].
    rewrite lookup_insert_ne; [done|]. intros <-. by rewrite W7 in Hw.
  - intros i j ch ch' [Hi _]%Hchan [Hj _]%Hchan. rewrite W4. by apply (f_one _ _ Hf).
Qed.

Lemma find_global_ok net c name sids :
  faithful net (skel c) -> plain name -> (forall sid, sid ∈ sids -> is_Some (k_wins (skel c) !! sid)) -> is_Some (userlist_find_global name sids c).
Proof.
  intros Hf Hn. induction sids as [|sid sids IH]; intros Hs; [by eexists|]. cbn [userlist_find_global].
  destruct (lookup_user_ok net c sid name Hf) as [o ->]; [apply Hs; by left|done|]. cbn [mbind option_bind].
  destruct o; [by eexists|]. apply IH. intros i Hi. apply Hs. by right.
Qed.

Lemma open_dialog_ok net name k :
  faithful net (skel (t_client k)) -> plain name -> (length name <= 299)%nat ->
  exists k' sid, open_dialog p name k = Some (k', sid) /\ with_dialog sid name (skel (t_client k)) (skel (t_client k')) /\
    t_caps k' = t_caps k /\ t_alerts k' = t_alerts k /\ t_trace k' = t_trace k /\ t_ignores k' = t_ignores k.
Proof.
  intros Hf Hp Hlen. unfold open_dialog, new_ircwindow. set (c := t_client k) in *.
  rewrite (copy_plain G GL name CHANLEN Hp) by done. cbn [mbind option_bind]. rewrite take_ge by done. set (sid := fresh _). set (v := View sid _ _ _ _).
  pose proof (load_if_unmoved Sq (mp_client p) v) as Hu. set (v' := if text_replay _ then _ else _) in *. destruct Hu as [U1 U2 U3 U4 U5].
  assert (Hfresh : k_wins (skel c) !! sid = None). { rewrite skel_wins. unfold lookup_session. apply fmap_None, not_elem_of_dom, is_fresh. }
  set (c1 := fe_call sid LogOpenOrClose _).
  assert (Hwd : with_dialog sid name (skel c) (skel c1)).
  { unfold c1. rewrite !skel_fe. split; try done; cbn; [by rewrite U1, fmap_insert, U2, U3|by rewrite fmap_insert]. }
  pose proof (with_dialog_faithful net sid name (skel c) (skel c1) Hf Hwd) as Hf1.
  destruct (find_global_ok net c1 name (sess_list (windows c1)) Hf1 Hp) as [o ->]; [intros i Hi; by apply (f_sids _ _ Hf1)|]. cbn [mbind option_bind].
  eexists _, sid. split; [done|]. split_and!; try done. cbn [t_client set_client]. destruct (o ≫= hostname) as [h|]; [|done].
  unfold set_topic. by rewrite skel_fe, skel_room.
Qed.

Lemma find_new_dialog net sid name k k' : faithful net k -> plain name -> with_dialog sid name k k' -> k_find SESS_DIALOG name k' = Some sid.
Proof.
  intros Hf Hp W. unfold k_find. rewrite (wd_sids _ _ _ _ W). cbn [List.find]. rewrite (wd_wins _ _ _ _ W), lookup_insert_eq, (wd_cmp _ _ _ _ W). cbn [fst snd].
  by rewrite (same_refl _ (f_cmp net k Hf) name Hp).
Qed.

(** ** Private messages *)

Lemma found_window net c nick sid :
  faithful net (skel c) -> find_session_from_nick nick c = Some (Some sid) -> is_Some (k_wins (skel c) !! sid).
Proof.
  intros Hf. assert (Hlist : forall sids, (forall i, i ∈ sids -> i ∈ sess_list (windows c)) -> session_with_user nick sids c = Some (Some sid) -> is_Some (k_wins (skel c) !! sid)).
  { induction sids as [|i sids IH]; intros Hs; cbn [session_with_user]; [done|]. destruct (lookup_user i nick c) as [[u|]|]; cbn [mbind option_bind]; [| |done].
    - intros [= <-]. apply (f_sids _ _ Hf), Hs. by left.
    - apply IH. intros j Hj. apply Hs. by right. }
  unfold find_session_from_nick. destruct (find_dialog nick c) as [d|] eqn:Ed.
  { intros [= <-]. unfold find_dialog in Ed. rewrite find_skel in Ed. apply find_win in Ed as (ch & Hw & _); [by eexists|done..]. }
  destruct (front_session c) as [fr|] eqn:Efr; cbn [mbind option_bind].
  - set (inf := if _ : bool then _ else _). assert (Hinf : inf = Some (Some sid) -> is_Some (k_wins (skel c) !! sid)).
    { destruct (f_front _ _ Hf) as (fr' & E & Hin). change (k_front (skel c)) with (front_session c) in E. rewrite Efr in E. injection E as <-.
      unfold inf. destruct (_ =? 0); [intros [= <-]; by apply (f_sids _ _ Hf)|]. destruct (lookup_user fr nick c) as [[u|]|]; cbn [mbind option_bind]; [|done|done].
      intros [= <-]. by apply (f_sids _ _ Hf). }
    destruct inf as [[i|]|]; cbn [mbind option_bind]; [intros [= ->]; by apply Hinf| |done].
    destruct (current_sess (windows c)) as [cur|]; cbn [mbind option_bind]; [|by apply Hlist].
    case_bool_decide as Hcur; cbn [mbind option_bind]; [|by apply Hlist].
    destruct (session_with_user nick [cur] c) as [[i|]|] eqn:E; cbn [mbind option_bind]; [|by apply Hlist|done].
    intros [= ->]. apply (Hlist [cur]); [|done]. by intros j ->%list_elem_of_singleton.
  - destruct (current_sess (windows c)) as [cur|]; cbn [mbind option_bind]; [|by apply Hlist].
    case_bool_decide as Hcur; cbn [mbind option_bind]; [|by apply Hlist].
    destruct (session_with_user nick [cur] c) as [[i|]|] eqn:E; cbn [mbind option_bind]; [|by apply Hlist|done].
    intros [= ->]. apply (Hlist [cur]); [|done]. by intros j ->%list_elem_of_singleton.
Qed.

(** The dialog with the sender. *)
Definition dialog_of (from : cstr) (k : talk) (sid : nat) : Prop :=
  exists d, k_wins (skel (t_client k)) !! sid = Some (SESS_DIALOG, d) /\ k_cmp (skel (t_client k)) from d = 0.

(** The private message that is not lost: the dialog is there, or may be opened. *)
Definition not_flooding (from ip : cstr) (now later : Z) (k : talk) : Prop :=
  find_dialog from (t_client k) = None -> autoopen k = true -> (flooding p from ip now later 1 k).2 = false.

(** A message of one who has a window. *)
Definition shown_by (from text : cstr) (t : message_tags_data) (k k' : talk) (sid : nat) : Prop :=
  exists e shown rest, messages k' = messages k ++ [(sid, e, from :: shown :: rest)] /\ (shown = text \/ shown = with_arrow p t text).

Lemma dialog_ready net from ip now later k :
  faithful net (skel (t_client k)) -> plain from -> (length from <= 299)%nat ->
  (match find_dialog from (t_client k) with Some _ => true | None => false end) || autoopen k = true -> not_flooding from ip now later k ->
  exists k' sid, dialog_or_open p from ip now later k = Some (k', sid) /\ faithful net (skel (t_client k')) /\
    find_dialog from (t_client k') = Some sid /\ messages k' = messages k /\ t_caps k' = t_caps k /\ t_alerts k' = t_alerts k /\
    own_nick (t_client k') = own_nick (t_client k).
Proof.
  intros Hf Hp Hlen Hor Hfl. unfold dialog_or_open. destruct (find_dialog from (t_client k)) as [sid|] eqn:Ed; [by exists k, sid|].
  specialize (Hfl Ed Hor). unfold flooding in *. destruct (flood_check _ _ _ _ _ _ _ _) as [[r f] g]. cbn [snd] in Hfl. rewrite Hfl.
  set (k1 := set_guards g f k). unfold inbound_open_dialog.
  destruct (open_dialog_ok net from k1) as (k2 & sid & -> & W & Hc & Ha & Ht & _); [done|done|done|]. cbn [mbind option_bind].
  eexists _, sid. split; [done|]. change (t_client (told sid XP_TE_OPENDIALOG [] k2)) with (t_client k2).
  split; [by eapply with_dialog_faithful|]. split; [unfold find_dialog; rewrite find_skel; by eapply find_new_dialog|].
  split_and!; [|done|done|exact (wd_nick _ _ _ _ W)]. unfold told. rewrite messages_note. cbn. rewrite app_nil_r. unfold messages. by rewrite Ht.
Qed.

Lemma privmsg_shown net from ip text now later (id : bool) t k :
  faithful net (skel (t_client k)) -> plain from -> (length from <= 299)%nat -> showable t from text k -> not_flooding from ip now later k ->
  exists k' sid, inbound_privmsg p from ip text now later id t k = Some k' /\ faithful net (skel (t_client k')) /\
    shown_by from text t k k' sid /\ is_Some (k_wins (skel (t_client k')) !! sid) /\
    ((find_dialog from (t_client k) <> None \/ autoopen k = true) -> dialog_of from k' sid).
Proof.
  intros Hf Hp Hlen Hsh Hfl. unfold inbound_privmsg.
  destruct ((match find_dialog from (t_client k) with Some _ => true | None => false end) || autoopen k) eqn:Eor.
  - destruct (dialog_ready net from ip now later k Hf Hp Hlen Eor Hfl) as (k1 & sid & -> & Hf1 & Hd1 & Hm1 & Hc1 & Ha1 & Hn1). cbn [mbind option_bind].
    set (k2 := match ip with [] => k1 | _ => _ end).
    assert (Hk2 : skel (t_client k2) = skel (t_client k1) /\ messages k2 = messages k1 /\ t_caps k2 = t_caps k1 /\ t_alerts k2 = t_alerts k1).
    { unfold k2. destruct ip as [|c ip]; [done|]. split_and!; [|done|done|done]. cbn [t_client set_client]. unfold set_topic. by rewrite skel_fe, skel_room. }
    destruct Hk2 as (S2 & M2 & C2 & A2). assert (Hf2 : faithful net (skel (t_client k2))) by (by rewrite S2).
    unfold inbound_chanmsg, chanmsg_window. assert (Hd2 : find_dialog from (t_client k2) = Some sid).
    { unfold find_dialog in *. rewrite find_skel in *. by rewrite S2. }
    rewrite Hd2. unfold find_dialog in Hd2. rewrite find_skel in Hd2. apply find_win in Hd2 as (d & Hw & Hcd & _); [|done..].
    destruct (show_chanmsg_once net sid from text false (identified t) t k2) as (k3 & e & rest & -> & (S3 & _ & M3) & _); [done|by eexists|done| |].
    { apply (showable_still t from text k); [|by rewrite C2|by rewrite A2|done]. rewrite <- Hn1. exact (f_equal k_nick S2). }
    exists k3, sid. split; [done|]. split; [by rewrite S3|]. split; [exists e, (with_arrow p t text), rest; split; [by rewrite M3, M2, Hm1|by right]|].
    rewrite S3. split; [by eexists|]. intros _. exists d. by rewrite S3.
  - apply orb_false_iff in Eor as [Ed Ea]. destruct (find_session_from_nick_ok _ net (t_client k) from Hf Hp) as [found Efound]. rewrite Efound. cbn [mbind option_bind].
    destruct (f_front _ _ Hf) as (fr & Efr & Hin). change (k_front (skel (t_client k))) with (front_session (t_client k)) in Efr.
    assert (Hfront : exists sid, (match found with Some sid => Some sid | None => front_session (t_client k) end) = Some sid /\ is_Some (k_wins (skel (t_client k)) !! sid)).
    { destruct found as [sid|]; [exists sid; split; [done|by eapply found_window]|]. exists fr. split; [done|by apply (f_sids _ _ Hf)]. }
    destruct Hfront as (sid & -> & Hw). cbn [mbind option_bind].
    destruct (sender_in_still net sid from id k) as (k1 & user & id' & -> & H1 & A1); [done|done|done|]. cbn [mbind option_bind].
    assert (Hsh1 : showable t from text k1) by (apply (showable_still t from text k); [exact (f_equal k_nick (st_skel _ _ H1))|apply H1|done|done]).
    destruct (sh_id _ _ _ _ Hsh1 id') as [idtext ->]. cbn [mbind option_bind]. pose proof (st_skel _ _ H1) as S1.
    assert (Hdlg : is_Some (is_dialog sid k1)). { destruct Hw as [[ty ch] Hw]. rewrite <- S1, skel_wins in Hw. apply fmap_Some in Hw as (s & E & _). unfold is_dialog. rewrite E. by eexists. }
    destruct Hdlg as [dlg ->]. cbn [mbind option_bind]. eexists _, sid. split; [done|].
    assert (Hno : find_dialog from (t_client k) <> None \/ autoopen k = true -> False).
    { intros [Hd|Hd]; [|congruence]. by destruct (find_dialog from (t_client k)). }
    destruct (_ && _); unfold told; cbn [t_client note]; rewrite S1; (split; [done|]); (split; [|split; [done|by intros ?%Hno]]);
      eexists _, text, _; (split; [|by left]); rewrite messages_note; cbn [message_of]; by rewrite (st_messages _ _ H1).
Qed.

(** ** The line *)

Lemma flood_answer fp nick ip now later what f s s' :
  (flood_check fp nick ip now later what f s).1.1 = (flood_check fp nick ip now later what f s').1.1.
Proof. unfold flood_check. destruct f. by repeat case_match. Qed.

Lemma guards_flooding from ip now later k g : not_flooding from ip now later k -> hex_gui_autoopen_dialog g = hex_gui_autoopen_dialog (t_ignores k) ->
  not_flooding from ip now later (set_guards g (t_flood k) k).
Proof.
  unfold not_flooding, autoopen, flooding. cbn [t_client set_guards t_ignores t_flood]. intros Hfl Eg Hd. rewrite Eg. intros Ha. specialize (Hfl Hd Ha).
  pose proof (flood_answer (mp_flood p) from ip now later 1 (t_flood k) (t_ignores k) g) as Hr.
  destruct (flood_check _ _ _ _ _ _ _ (t_ignores k)) as [[r f] s], (flood_check _ _ _ _ _ _ _ g) as [[r' f'] s']. cbn in *. by subst.
Qed.

Lemma ignored_guards host type k b k1 :
  ignored host type k = Some (k1, b) -> exists g, k1 = set_guards g (t_flood k) k /\ hex_gui_autoopen_dialog g = hex_gui_autoopen_dialog (t_ignores k).
Proof.
  unfold ignored, ignore_check.
  destruct (any_match (fun ig => has (ig_type ig) IG_UNIG && has (ig_type ig) type) _ _) as [[]|]; cbn; [intros E; injection E as <- _; by eexists| |done].
  destruct (any_match _ _ _) as [[]|]; cbn; [| |done]; intros E; injection E as <- _; by eexists.
Qed.

(** The window a message has to go to. *)
Definition right_window (nick target : cstr) (t : message_tags_data) (k k' : talk) (sid : nat) : Prop :=
  is_Some (k_wins (skel (t_client k')) !! sid) /\
  (chan_name k target = true -> exists ch, k_wins (skel (t_client k')) !! sid = Some (SESS_CHANNEL, ch) /\ k_cmp (skel (t_client k')) target ch = 0) /\
  (chan_name k target = false -> inbound_channel_context t k = None -> find_dialog nick (t_client k) <> None \/ autoopen k = true -> dialog_of nick k' sid).

End messages.
