(* ===== verification/MessagesCases.v ===== *)
(** * Messages: cases (src/common/inbound.c, ctcp.c, proto-irc.c)

    Lines as they come from the wire, and what is shown of them. *)
From S2P Require Import Prelude Glib Casemap Glob Text Tree Access Isupport Userlist Modes Server Words Tags Proto.
From S2P Require Import Scrollback ScrollbackSpec GapLedger GapLedgerSpec Chathistory Catchup CatchupCases Batches BatchCases Channels ChannelsNet ChannelsSpec ChannelsRun ChannelsCases.
From S2P Require Import TextEvents TextEventsCases Ignore IgnoreSpec IgnoreCases Alerts Messages MessagesSpec.

Definition talk_prefs : msg_prefs :=
  MsgPrefs case_prefs defaults 0 true "+" "-" [] true [(("VERSION" : cstr), ("nctcp %s VERSION none" : cstr))] None.

Definition talk_caps : msg_caps := MsgCaps false false true true false.

Definition case_talk (l : list ignore) (f : flood) : talk :=
  Talk (case_client false) talk_caps (Some 0%nat) (IgnoreCases.fresh l) f (HilightPrefs [] [] []) [].

(** The line a text from the wire becomes. *)
Definition wire (s : string) : line :=
  match irc_inline (H := glib_ref) (H0 := case_clock) case_caps case_labels s with
  | Some (Some x) => il_line x
  | _ => Line [] [] []
  end.

Definition run_privmsg (s : string) (k : talk) : option talk :=
  @handle_privmsg glib_ref sqlite_ref unicode_ref latin1 talk_prefs 0 (wire s) "ann" "a@h" 1000 1000 false MESSAGE_TAGS_DATA_INIT k.

Definition calm_flood : flood := Flood 0 0 0 0.


(** ** Findings *)

(** The message that reaches the limit of a flood opens no dialog, and is not
    shown in the window of the server either, whose topic becomes the address of
    its sender. *)
Lemma flooded_message_lost :
  match run_privmsg ":ann!a@h PRIVMSG me :the fifth message" (case_talk [] (Flood 0 0 4 990)) with
  | Some k' => messages k' = [] /\ (rooms (t_client k') !! 0%nat) ≫= topic = Some ("a@h" : cstr)
  | None => False
  end.
Proof. vm_compute. split; reflexivity. Qed.

(** The text after a single 001 is looked for behind the end of the line. *)
Lemma lone_001_reads_past_end : run_privmsg (":ann!a@h PRIVMSG me :" ++ String "001" EmptyString) (case_talk [] calm_flood) = None.
Proof. vm_compute. reflexivity. Qed.

(** So is the time of a ping reply that has none. *)
Lemma bare_ping_reads_past_end :
  @inbound_notice glib_ref sqlite_ref talk_prefs "me" "ann" ("001"%char :: list_ascii_of_string "PING") "a@h" false MESSAGE_TAGS_DATA_INIT
    (case_talk [] calm_flood) = None.
Proof. vm_compute. reflexivity. Qed.

(** A request without the colon, which a parameter of one word does not need,
    finds no reply of the list. *)
Lemma ctcp_without_colon :
  let request := "001"%char :: list_ascii_of_string "VERSION" ++ ["001"%char] in
  (ctcp_check talk_prefs "ann" (drop 2 (":"%char :: request)) (case_talk [] calm_flood)).2 = true /\
  (ctcp_check talk_prefs "ann" (drop 2 request) (case_talk [] calm_flood)).2 = false.
Proof. vm_compute. split; reflexivity. Qed.
