(* ===== verification/Hooks.v ===== *)
(** * The hooks of plugins (src/common/plugin.c)

    The list of hooks, the calls with which plugins change it, and the loops
    that run the hooks of a command, a server line or a print event.  A callback
    is code of a plugin: a parameter that gives, for a call and all calls before
    it, the program of API calls it makes ([prog]).  A hook and its node in the
    list have one address; [Undefined] is a use of a freed hook, node or plugin,
    or of a NULL name.  An address is never used again. *)
From S2P Require Import Prelude Glib Casemap Text.

Definition HOOK_COMMAND : Z := 1.
Definition HOOK_SERVER : Z := 2.
Definition HOOK_SERVER_ATTRS : Z := 4.
Definition HOOK_PRINT : Z := 8.
Definition HOOK_PRINT_ATTRS : Z := 16.
Definition HOOK_TIMER : Z := 32.
Definition HOOK_FD : Z := 64.
Definition HOOK_DELETED : Z := 128.

Definition EAT_POXCHAT : Z := 1.
Definition EAT_PLUGIN : Z := 2.

Record hook := Hook {
  h_pl : nat; h_name : option cstr; h_callback : nat; h_help_text : option cstr; h_userdata : nat;
  h_tag : Z; h_type : Z; h_pri : Z }.

(** [p_deinit]: the callback of the deinit function; [p_name] as the init
    function sets it. *)
Record plugin := Plugin {
  p_filename : option cstr; p_name : cstr; p_fake : bool; p_deinit : option nat; p_context : nat }.

(** The functions [plugin_emit_command], [plugin_emit_server], [plugin_emit_print] and
    [plugin_emit_dummy_print], which also [plugin_emit_keypress] is like. *)
Inductive emit_fn := Emit_command | Emit_server | Emit_print | Emit_dummy_print.

(** An event for the plugins.  [em_attrs]: the time of the server, where attributes are given. *)
Record emission := Emission {
  em_sess : nat; em_name : cstr; em_word : list cstr; em_word_eol : option (list cstr); em_attrs : option Z; em_fn : emit_fn }.

(** The types of hooks the event is for. *)
Definition em_type (e : emission) : Z :=
  match em_fn e with
  | Emit_command => HOOK_COMMAND
  | Emit_server => Z.lor HOOK_SERVER HOOK_SERVER_ATTRS
  | Emit_print => Z.lor HOOK_PRINT HOOK_PRINT_ATTRS
  | Emit_dummy_print => HOOK_PRINT
  end.

(** What a callback is called with. *)
Inductive call :=
| Cmd_cb (word : list cstr) (word_eol : option (list cstr))
| Serv_cb (word : list cstr) (word_eol : option (list cstr))
| Serv_attrs_cb (word : list cstr) (word_eol : option (list cstr)) (attrs : option Z)
| Print_cb (word : list cstr)
| Print_attrs_cb (word : list cstr) (attrs : option Z)
| Timer_cb
| Fd_cb (fd flags : Z)
| Init_cb | Deinit_cb.

(** The calls made so far: whose (a hook, or a plugin for init and deinit) and with what. *)
Record event := Event { ev_who : nat; ev_call : call }.

(** ** Programs of API calls *)

(** The functions [poxchat_hook_command] to [poxchat_hook_timer]; a timer has no
    name and priority 0. *)
Inductive hook_fn :=
| Hook_command | Hook_server | Hook_server_attrs | Hook_print | Hook_print_attrs | Hook_timer.

Definition fn_type (f : hook_fn) : Z :=
  match f with
  | Hook_command => HOOK_COMMAND
  | Hook_server => HOOK_SERVER
  | Hook_server_attrs => HOOK_SERVER_ATTRS
  | Hook_print => HOOK_PRINT
  | Hook_print_attrs => HOOK_PRINT_ATTRS
  | Hook_timer => HOOK_TIMER
  end.

Inductive op :=
| OHook (f : hook_fn) (pl : nat) (pri : Z) (name help_text : option cstr) (callback userdata : nat)
| OHookFd (pl : nat) (fd : Z) (callback userdata : nat)
| OUnhook (h : nat)
| OEmit (e : emission)
| OKill (name : cstr) (by_filename : bool)
| OLoad (sess : nat) (filename : option cstr) (name : cstr) (init : nat) (deinit : option nat) (fake : bool).

(** What a call returns: a hook, its user data, a number. *)
Inductive answer := AHook (h : nat) | AData (userdata : option nat) | ARet (r : Z).

Inductive prog := Return (r : Z) | Do (o : op) (k : answer -> prog).

(** ** The state *)

(** A timer of the main loop ([fe_timeout_add]) or an input ([fe_input_add]), and
    the hook its function is called with. *)
Record source := Source { src_tag : Z; src_input : bool; src_hook : nat }.

(** [next_addr]: the address of the next hook or plugin. *)
Record state := State {
  hook_list : list nat; hooks : gmap nat hook;
  plugin_list : list nat; plugins : gmap nat plugin;
  next_addr : nat; sources : list source; calls : list event }.

Definition set_hooks (l : list nat) (m : gmap nat hook) (s : state) : state :=
  State l m (plugin_list s) (plugins s) (next_addr s) (sources s) (calls s).
Definition set_plugins (l : list nat) (m : gmap nat plugin) (s : state) : state :=
  State (hook_list s) (hooks s) l m (next_addr s) (sources s) (calls s).
Definition set_next (n : nat) (s : state) : state :=
  State (hook_list s) (hooks s) (plugin_list s) (plugins s) n (sources s) (calls s).
Definition set_sources (l : list source) (s : state) : state :=
  State (hook_list s) (hooks s) (plugin_list s) (plugins s) (next_addr s) l (calls s).
Definition note (who : nat) (c : call) (s : state) : state :=
  State (hook_list s) (hooks s) (plugin_list s) (plugins s) (next_addr s) (sources s) (calls s ++ [Event who c]).

Definition boot : state := State [] ∅ [] ∅ 0 [] [].

(** What a call yields. *)
Inductive result (A : Type) := Done (a : A) (s : state) | Undefined | NoFuel.
Arguments Done {A}. Arguments Undefined {A}. Arguments NoFuel {A}.

Definition and_then {A B} (r : result A) (f : A -> state -> result B) : result B :=
  match r with Done a s => f a s | Undefined => Undefined | NoFuel => NoFuel end.

Definition with_type (t : Z) (h : hook) : hook :=
  Hook (h_pl h) (h_name h) (h_callback h) (h_help_text h) (h_userdata h) (h_tag h) t (h_pri h).
Definition with_tag (t : Z) (h : hook) : hook :=
  Hook (h_pl h) (h_name h) (h_callback h) (h_help_text h) (h_userdata h) t (h_type h) (h_pri h).
Definition with_pri (p : Z) (h : hook) : hook :=
  Hook (h_pl h) (h_name h) (h_callback h) (h_help_text h) (h_userdata h) (h_tag h) (h_type h) p.
Definition without_strings (h : hook) : hook :=
  Hook (h_pl h) None (h_callback h) None (h_userdata h) (h_tag h) (h_type h) (h_pri h).

Definition is_kind (type mask : Z) : bool := negb (Z.land type mask =? 0).

(** ** The list *)

(** [g_slist_remove]: the first node with the hook. *)
Fixpoint g_slist_remove (id : nat) (l : list nat) : list nat :=
  match l with [] => [] | x :: l => if Nat.eqb x id then l else x :: g_slist_remove id l end.

(** The types a new hook is ordered among. *)
Definition new_hook_type (type : Z) : Z :=
  if (type =? HOOK_PRINT) || (type =? HOOK_PRINT_ATTRS) then Z.lor HOOK_PRINT HOOK_PRINT_ATTRS
  else if (type =? HOOK_SERVER) || (type =? HOOK_SERVER_ATTRS) then Z.lor HOOK_SERVER HOOK_PRINT_ATTRS
  else type.

(** Before the first hook of [mask] with no higher priority. *)
Fixpoint insert_before (m : gmap nat hook) (mask pri : Z) (new : nat) (l : list nat) : list nat :=
  match l with
  | [] => [new]
  | id :: l' =>
      match m !! id with
      | Some h => if is_kind (h_type h) mask && (h_pri h <=? pri) then new :: l else id :: insert_before m mask pri new l'
      | None => id :: insert_before m mask pri new l'
      end
  end.

(** The new hook is already in the heap. *)
Definition plugin_insert_hook (new : nat) (h : hook) (s : state) : state :=
  set_hooks (insert_before (hooks s) (new_hook_type (h_type h)) (h_pri h) new (hook_list s)) (<[new := h]> (hooks s)) s.

(** The nodes from [list] on; none when that node is freed. *)
Fixpoint nodes_from (id : nat) (l : list nat) : option (list nat) :=
  match l with [] => None | x :: l' => if Nat.eqb x id then Some l else nodes_from id l' end.

Definition nodes (list : option nat) (s : state) : option (Datatypes.list nat) :=
  match list with None => Some [] | Some id => nodes_from id (hook_list s) end.

Section plugins.
Context `{GLib}.
(** The code of the plugins, and the number GLib gives a new source. *)
Context (code : list event -> nat -> nat -> call -> prog) (new_source : list Z -> Z).

(** The hook that is found and the nodes behind it. *)
Fixpoint plugin_hook_find (s : state) (list : list nat) (type : Z) (name : cstr) : option (Datatypes.list nat) :=
  match list with
  | [] => Some []
  | id :: list' =>
      h ← hooks s !! id;
      if is_kind (h_type h) type then
        hname ← h_name h;
        if (g_ascii_strcasecmp hname name =? 0) ||
           (is_kind type HOOK_SERVER && (g_ascii_strcasecmp hname "RAW LINE" =? 0))
        then Some list
        else plugin_hook_find s list' type name
      else plugin_hook_find s list' type name
  end.

(** ** The API of plugins *)

Definition new_tag (input : bool) (id : nat) (s : state) : Z * state :=
  let tag := new_source (map src_tag (sources s)) in (tag, set_sources (sources s ++ [Source tag input id]) s).

Definition g_source_remove (tag : Z) (s : state) : state :=
  set_sources (List.filter (fun x => negb (src_tag x =? tag)) (sources s)) s.

Definition update_hook (id : nat) (f : hook -> hook) (s : state) : state :=
  set_hooks (hook_list s) (alter f id (hooks s)) s.

Definition plugin_add_hook (pl : nat) (type pri : Z) (name help_text : option cstr) (callb userdata : nat) (s : state)
    : nat * state :=
  let id := next_addr s in
  let s := plugin_insert_hook id (Hook pl name callb help_text userdata 0 type pri) (set_next (S id) s) in
  if type =? HOOK_TIMER then let '(tag, s) := new_tag false id s in (id, update_hook id (with_tag tag) s)
  else (id, s).

Definition poxchat_hook (f : hook_fn) (pl : nat) (pri : Z) (name help_text : option cstr) (callb userdata : nat) (s : state)
    : nat * state :=
  match f with
  | Hook_command => plugin_add_hook pl HOOK_COMMAND pri name help_text callb userdata s
  | Hook_timer => plugin_add_hook pl HOOK_TIMER 0 None None callb userdata s
  | _ => plugin_add_hook pl (fn_type f) pri name None callb userdata s
  end.

Definition poxchat_hook_fd (pl : nat) (fd : Z) (callb userdata : nat) (s : state) : nat * state :=
  let '(id, s) := plugin_add_hook pl HOOK_FD 0 None None callb userdata s in
  let s := update_hook id (with_pri fd) s in
  let '(tag, s) := new_tag true id s in (id, update_hook id (with_tag tag) s).

Definition poxchat_unhook (id : nat) (s : state) : option nat * state :=
  if bool_decide (id ∈ hook_list s) then
    match hooks s !! id with
    | Some h =>
        if h_type h =? HOOK_DELETED then (None, s)
        else
          let s := if (h_type h =? HOOK_TIMER) && negb (h_tag h =? 0) then g_source_remove (h_tag h) s else s in
          let s := if (h_type h =? HOOK_FD) && negb (h_tag h =? 0) then g_source_remove (h_tag h) s else s in
          (Some (h_userdata h), update_hook id (fun h => without_strings (with_type HOOK_DELETED h)) s)
    | None => (None, s)
    end
  else (None, s).

(** ** Running the hooks *)

Definition free_hook (id : nat) (s : state) : state :=
  set_hooks (g_slist_remove id (hook_list s)) (delete id (hooks s)) s.

Definition is_deleted (s : state) (id : nat) : bool :=
  match hooks s !! id with Some h => h_type h =? HOOK_DELETED | None => false end.

(** "really remove deleted hooks now" *)
Fixpoint expunge_loop (list : list nat) (s : state) : state :=
  match list with
  | [] => s
  | id :: list => expunge_loop list (if is_deleted s id then free_hook id s else s)
  end.

Definition expunge (s : state) : state := expunge_loop (hook_list s) s.

Definition call_hook (h : hook) (e : emission) : call :=
  if h_type h =? HOOK_COMMAND then Cmd_cb (em_word e) (em_word_eol e)
  else if h_type h =? HOOK_PRINT_ATTRS then Print_attrs_cb (em_word e) (em_attrs e)
  else if h_type h =? HOOK_SERVER then Serv_cb (em_word e) (em_word_eol e)
  else if h_type h =? HOOK_SERVER_ATTRS then Serv_attrs_cb (em_word e) (em_word_eol e) (em_attrs e)
  else Print_cb (em_word e).

(** [hook->pl->context = sess] *)
Definition set_context (pl sess : nat) (s : state) : option state :=
  p ← plugins s !! pl;
  Some (set_plugins (plugin_list s) (<[pl := Plugin (p_filename p) (p_name p) (p_fake p) (p_deinit p) sess]> (plugins s)) s).

(** Up to the call of the callback: the hook, the node behind it, the program. *)
Definition fetch (e : emission) (list : option nat) (s : state) : option (option (option nat * prog * state)) :=
  l ← nodes list s;
  l ← plugin_hook_find s l (em_type e) (em_name e);
  match l with
  | [] => Some None
  | id :: next =>
      h ← hooks s !! id;
      s ← set_context (h_pl h) (em_sess e) s;
      Some (Some (head next, code (calls s) (h_callback h) (h_userdata h) (call_hook h e), note id (call_hook h e) s))
  end.

(** The plugin that /unload means. *)
Definition is_called (name : cstr) (by_filename : bool) (p : plugin) : bool :=
  match p_filename p with
  | Some f =>
      negb (p_fake p) &&
      (if by_filename then (g_ascii_strcasecmp name f =? 0) || (g_ascii_strcasecmp name (file_part (Some f)) =? 0)
       else g_ascii_strcasecmp name (p_name p) =? 0)
  | None => false
  end.

Definition find_plugin (name : cstr) (by_filename : bool) (s : state) : option nat :=
  find (fun pl => match plugins s !! pl with Some p => is_called name by_filename p | None => false end) (plugin_list s).

Definition unhook_all (pl : nat) (s : state) : state :=
  foldl (fun s id =>
    match hooks s !! id with
    | Some h => if Nat.eqb (h_pl h) pl then snd (poxchat_unhook id s) else s
    | None => s
    end) s (hook_list s).

Definition free_plugin (pl : nat) (s : state) : state :=
  set_plugins (g_slist_remove pl (plugin_list s)) (delete pl (plugins s)) s.

(** The rest of [plugin_free], which reads the plugin again. *)
Definition plugin_free_end (pl : nat) (s : state) : result bool :=
  if bool_decide (is_Some (plugins s !! pl)) then Done true (free_plugin pl (unhook_all pl s)) else Undefined.

Definition plugin_list_add (sess : nat) (filename : option cstr) (name : cstr) (deinit : option nat) (fake : bool) (s : state)
    : nat * state :=
  let pl := next_addr s in
  (pl, set_plugins (pl :: plugin_list s) (<[pl := Plugin filename name fake deinit sess]> (plugins s)) (set_next (S pl) s)).

(** [run] runs a program of a plugin. *)
Section run.
Context (run : prog -> state -> result Z).

Fixpoint plugin_hook_loop (n : nat) (e : emission) (list : option nat) (eat : bool) (s : state) : result bool :=
  match n with
  | O => NoFuel
  | S n =>
      match fetch e list s with
      | None => Undefined
      | Some None => Done eat s
      | Some (Some (next, p, s)) => and_then (run p s) (fun ret s =>
          if is_kind ret EAT_POXCHAT && is_kind ret EAT_PLUGIN then Done true s
          else if is_kind ret EAT_PLUGIN then Done eat s
          else plugin_hook_loop n e next (if is_kind ret EAT_POXCHAT then true else eat) s)
      end
  end.

Definition plugin_hook_run (n : nat) (e : emission) (s : state) : result bool :=
  and_then (plugin_hook_loop n e (head (hook_list s)) false s) (fun eat s => Done eat (expunge s)).

Definition plugin_free (pl : nat) (do_deinit allow_refuse : bool) (s : state) : result bool :=
  match plugins s !! pl with
  | None => Undefined
  | Some p =>
      if p_fake p then Done true (free_plugin pl s)
      else match (if do_deinit then p_deinit p else None) with
      | Some deinit => and_then (run (code (calls s) deinit O Deinit_cb) (note pl Deinit_cb s)) (fun r s =>
          if (r =? 0) && allow_refuse then Done false s else plugin_free_end pl s)
      | None => plugin_free_end pl s
      end
  end.

Definition plugin_add (sess : nat) (filename : option cstr) (name : cstr) (init : nat) (deinit : option nat) (fake : bool)
    (s : state) : result bool :=
  let '(pl, s) := plugin_list_add sess filename name deinit fake s in
  if fake then Done true s
  else and_then (run (code (calls s) init pl Init_cb) (note pl Init_cb s)) (fun r s =>
    if r =? 0 then plugin_free pl false false s else Done true s).

Definition plugin_kill (name : cstr) (by_filename : bool) (s : state) : result Z :=
  match find_plugin name by_filename s with
  | Some pl => and_then (plugin_free pl true true s) (fun b s => Done (if b then 1 else 2) s)
  | None => Done 0 s
  end.

(** [plugin_kill_all]: the node behind is taken before the plugin is freed. *)
Fixpoint kill_plugins (list : list nat) (s : state) : result unit :=
  match list with
  | [] => Done tt s
  | pl :: list =>
      match plugins s !! pl with
      | None => Undefined
      | Some p =>
          if p_fake p then kill_plugins list s
          else and_then (plugin_free pl true false s) (fun _ s => kill_plugins list s)
      end
  end.

Definition plugin_kill_all (s : state) : result unit := kill_plugins (plugin_list s) s.
End run.

(** What a program does.  A call takes a unit of fuel, also of the loops under it. *)
Fixpoint exec (n : nat) (p : prog) (s : state) {struct n} : result Z :=
  match n with
  | O => NoFuel
  | S n =>
      match p with
      | Return r => Done r s
      | Do o k =>
          match o with
          | OHook f pl pri name help_text callb userdata =>
              let '(id, s) := poxchat_hook f pl pri name help_text callb userdata s in exec n (k (AHook id)) s
          | OHookFd pl fd callb userdata =>
              let '(id, s) := poxchat_hook_fd pl fd callb userdata s in exec n (k (AHook id)) s
          | OUnhook id => let '(u, s) := poxchat_unhook id s in exec n (k (AData u)) s
          | OEmit e => and_then (plugin_hook_run (exec n) n e s) (fun eat s => exec n (k (ARet (Z.b2z eat))) s)
          | OKill name by_filename => and_then (plugin_kill (exec n) name by_filename s) (fun r s => exec n (k (ARet r)) s)
          | OLoad sess filename name init deinit fake =>
              and_then (plugin_add (exec n) sess filename name init deinit fake s) (fun _ s => exec n (k (ARet 0)) s)
          end
      end
  end.

(** ** Events *)

Definition plugin_emit_command (sess : nat) (name : cstr) (word word_eol : list cstr) : emission :=
  Emission sess name word (Some word_eol) None Emit_command.
Definition plugin_emit_server (sess : nat) (name : cstr) (word word_eol : list cstr) (server_time : Z) : emission :=
  Emission sess name word (Some word_eol) (Some server_time) Emit_server.
Definition plugin_emit_print (sess : nat) (word : list cstr) (server_time : Z) : emission :=
  Emission sess (default [] (head word)) word None (Some server_time) Emit_print.

(** PDIWORDS words. *)
Definition plugin_emit_dummy_print (sess : nat) (name : cstr) : emission :=
  Emission sess name (name :: replicate 31 []) None None Emit_dummy_print.

(** ** Timers and inputs *)

Definition unhooked (id : nat) (s : state) : bool := negb (bool_decide (id ∈ hook_list s)) || is_deleted s id.

(** After the callback of a timer or an input: what GLib is told, which drops a
    source on 0. *)
Definition after_source (id : nat) (ret : Z) (s : state) : result Z :=
  if unhooked id s then Done 0 s
  else if ret =? 0 then Done ret (snd (poxchat_unhook id (update_hook id (with_tag 0) s)))
  else Done ret s.

Definition plugin_timeout_cb (n : nat) (current_sess : nat) (id : nat) (s : state) : result Z :=
  match h ← hooks s !! id; s ← set_context (h_pl h) current_sess s; Some (h, s) with
  | None => Undefined
  | Some (h, s) => and_then (exec n (code (calls s) (h_callback h) (h_userdata h) Timer_cb) (note id Timer_cb s)) (after_source id)
  end.

(** G_IO_IN, G_IO_OUT, G_IO_PRI. *)
Definition fd_flags (condition : Z) : Z :=
  (if Z.testbit condition 0 then 1 else 0) + (if Z.testbit condition 2 then 2 else 0) + (if Z.testbit condition 1 then 4 else 0).

Definition plugin_fd_cb (n : nat) (condition : Z) (id : nat) (s : state) : result Z :=
  match hooks s !! id with
  | None => Undefined
  | Some h =>
      let c := Fd_cb (h_pri h) (fd_flags condition) in
      and_then (exec n (code (calls s) (h_callback h) (h_userdata h) c) (note id c s)) (after_source id)
  end.

(** The main loop finds a source ready: a function that returns 0 is not called again. *)
Definition source_destroyed (x : source) (s : state) : state :=
  set_sources (List.filter (fun y => negb ((src_tag y =? src_tag x) && Nat.eqb (src_hook y) (src_hook x))) (sources s)) s.

Definition dispatch (n : nat) (current_sess : nat) (condition : Z) (x : source) (s : state) : result Z :=
  and_then (if src_input x then plugin_fd_cb n condition (src_hook x) s else plugin_timeout_cb n current_sess (src_hook x) s)
    (fun ret s => Done ret (if ret =? 0 then source_destroyed x s else s)).

(** ** Commands *)

Definition is_command (s : state) (id : nat) : bool :=
  match hooks s !! id with Some h => h_type h =? HOOK_COMMAND | None => false end.

Definition plugin_command_list (s : state) (tmp_list : list (option cstr)) : list (option cstr) :=
  foldl (fun l id => match hooks s !! id with
    | Some h => if h_type h =? HOOK_COMMAND then h_name h :: l else l
    | None => l end) tmp_list (hook_list s).

(** The names and help texts the caller sees; None: a NULL name is read. *)
Fixpoint plugin_command_foreach (s : state) (l : list nat) : option (list (cstr * option cstr)) :=
  match l with
  | [] => Some []
  | id :: l =>
      h ← hooks s !! id;
      rest ← plugin_command_foreach s l;
      if h_type h =? HOOK_COMMAND then
        name ← h_name h;
        Some (match name with [] => rest | _ => (name, h_help_text h) :: rest end)
      else Some rest
  end.

(** The help text that is printed. *)
Definition plugin_show_help (cmd : cstr) (s : state) : option (option cstr) :=
  l ← plugin_hook_find s (hook_list s) HOOK_COMMAND cmd;
  match l with
  | [] => Some None
  | id :: _ => h ← hooks s !! id; Some (h_help_text h)
  end.
End plugins.
