(* ===== verification/HooksSpec.v ===== *)
(** * Hooks: what holds whatever the plugins do

    The heap and the list agree, the hooks of a kind stay in the order of their
    priorities, and a source of the main loop always has its hook. *)
From S2P Require Import Prelude Glib Casemap Text Hooks.

(** ** The state is well formed *)

Record linked (s : state) : Prop := Linked {
  linked_nodup : NoDup (hook_list s);
  linked_dom : forall id, id ∈ hook_list s <-> is_Some (hooks s !! id);
  linked_addr : forall id, is_Some (hooks s !! id) -> (id < next_addr s)%nat }.

Lemma linked_fresh s : linked s -> hooks s !! next_addr s = None.
Proof. intros [_ _ A]. apply eq_None_not_Some. intros Hx%A. lia. Qed.

Lemma linked_old s id : linked s -> id ∈ hook_list s -> (id < next_addr s)%nat.
Proof. intros L Hin. apply (linked_addr s L), (linked_dom s L), Hin. Qed.

Lemma linked_same s s' :
  linked s -> hook_list s' = hook_list s -> dom (hooks s') = dom (hooks s) -> (next_addr s <= next_addr s')%nat -> linked s'.
Proof.
  intros [N D A] El Ed Hn.
  assert (S : forall id, is_Some (hooks s' !! id) <-> is_Some (hooks s !! id)) by (intros id; by rewrite <- !elem_of_dom, Ed).
  split; [by rewrite El|intros id; rewrite El, D; symmetry; apply S|].
  intros id Hs%S%A. lia.
Qed.

(** ** The list *)

Lemma filter_twice {A} (f g : A -> bool) l : List.filter f (List.filter g l) = List.filter (fun x => g x && f x) l.
Proof. induction l as [|x l IH]; [done|]. cbn. destruct (g x); cbn; [destruct (f x)|]; by rewrite ?IH. Qed.

Lemma list_filter_all {A} (f : A -> bool) l : (forall x, x ∈ l -> f x = true) -> List.filter f l = l.
Proof.
  induction l as [|x l IH]; intros Hf; [done|]. cbn. rewrite Hf by apply list_elem_of_here.
  rewrite IH; [done|]. intros y Hy. apply Hf. by apply list_elem_of_further.
Qed.

Lemma g_slist_remove_filter id l : NoDup l -> g_slist_remove id l = List.filter (fun x => negb (Nat.eqb x id)) l.
Proof.
  induction 1 as [|x l Hx Hl IH]; [done|]. cbn. destruct (Nat.eqb_spec x id) as [->|Hne]; cbn; [|by rewrite IH].
  symmetry. clear IH Hl. induction l as [|y l IH]; [done|]. cbn.
  apply not_elem_of_cons in Hx as [Hy Hx]. destruct (Nat.eqb_spec y id); [by subst|]. cbn. by rewrite IH.
Qed.

Lemma insert_before_perm m mask pri new l : insert_before m mask pri new l ≡ₚ new :: l.
Proof.
  induction l as [|id l IH]; [done|]. cbn.
  destruct (m !! id) as [h|]; [destruct (is_kind _ _ && _); [done|]|]; rewrite IH; apply Permutation_swap.
Qed.

Lemma insert_before_other (f : nat -> bool) m mask pri new l :
  f new = false -> List.filter f (insert_before m mask pri new l) = List.filter f l.
Proof.
  intros Hf. induction l as [|id l IH]; [cbn; by rewrite Hf|]. cbn.
  destruct (m !! id) as [h|]; [destruct (is_kind _ _ && _)|]; cbn; rewrite ?Hf; [done|by rewrite IH..].
Qed.

(** Hooks that the insertion does not look at may be left out. *)
Lemma insert_before_filter (f : nat -> bool) m m' mask pri new l :
  f new = true ->
  (forall id, id ∈ l -> f id = true -> m' !! id = m !! id) ->
  (forall id h, m !! id = Some h -> f id = false -> is_kind (h_type h) mask = false) ->
  List.filter f (insert_before m mask pri new l) = insert_before m' mask pri new (List.filter f l).
Proof.
  intros Hf Hm Hd. induction l as [|id l IH]; [cbn; by rewrite Hf|]. cbn.
  assert (IH' : List.filter f (insert_before m mask pri new l) = insert_before m' mask pri new (List.filter f l))
    by (apply IH; intros; apply Hm; [by apply list_elem_of_further|done]).
  destruct (f id) eqn:Ef.
  - cbn. rewrite (Hm id (list_elem_of_here _ _) Ef).
    destruct (m !! id) as [h|]; [destruct (is_kind _ _ && _)|]; cbn; rewrite ?Hf, Ef, ?IH'; done.
  - destruct (m !! id) as [h|] eqn:Eh; [rewrite (Hd id h Eh Ef); cbn|cbn]; by rewrite Ef.
Qed.

(** ** The hooks that are still there *)

Definition alive (s : state) (id : nat) : bool := negb (is_deleted s id).

Definition live (s : state) : state :=
  set_hooks (List.filter (alive s) (hook_list s)) (filter (fun x => h_type x.2 <> HOOK_DELETED) (hooks s)) s.

Lemma live_lookup s id h :
  hooks (live s) !! id = Some h <-> hooks s !! id = Some h /\ h_type h <> HOOK_DELETED.
Proof. cbn. by rewrite map_lookup_filter_Some. Qed.

Lemma is_deleted_spec s id : is_deleted s id = true <-> exists h, hooks s !! id = Some h /\ h_type h = HOOK_DELETED.
Proof.
  unfold is_deleted. destruct (hooks s !! id) as [h|]; [|naive_solver].
  rewrite Z.eqb_eq. naive_solver.
Qed.

Lemma alive_spec s id h : hooks s !! id = Some h -> alive s id = true <-> h_type h <> HOOK_DELETED.
Proof. intros E. unfold alive, is_deleted. rewrite E, negb_true_iff, Z.eqb_neq. done. Qed.

Lemma live_lookup_None s id : hooks (live s) !! id = None <-> hooks s !! id = None \/ is_deleted s id = true.
Proof.
  rewrite is_deleted_spec. cbn. rewrite map_lookup_filter_None. cbn. split; intros [E|E]; eauto.
  - destruct (hooks s !! id) as [h|] eqn:Eh; [|by left]. right. exists h. split; [done|].
    destruct (decide (h_type h = HOOK_DELETED)) as [|Hne]; [done|].
    exfalso. exact (E h eq_refl Hne).
  - right. intros h Eh. destruct E as (h' & Eh' & T). rewrite Eh in Eh'. injection Eh' as <-. intros Hn. exact (Hn T).
Qed.

Lemma live_alive s id : alive s id = true -> hooks (live s) !! id = hooks s !! id.
Proof.
  intros Ha. destruct (hooks s !! id) as [h|] eqn:Eh.
  - apply live_lookup. split; [done|]. by apply (alive_spec s id h Eh).
  - apply live_lookup_None. by left.
Qed.

Lemma free_hook_lookup id id' s : hooks (free_hook id s) !! id' = if decide (id = id') then None else hooks s !! id'.
Proof. cbn. case_decide; [subst; apply lookup_delete_eq|by apply lookup_delete_ne]. Qed.

Lemma expunge_loop_eq l s :
  NoDup (hook_list s) -> NoDup l ->
  hook_list (expunge_loop l s) = List.filter (fun id => negb (bool_decide (id ∈ l) && is_deleted s id)) (hook_list s) /\
  (forall id, hooks (expunge_loop l s) !! id = if bool_decide (id ∈ l) && is_deleted s id then None else hooks s !! id) /\
  expunge_loop l s = set_hooks (hook_list (expunge_loop l s)) (hooks (expunge_loop l s)) s.
Proof.
  intros N Nl. revert s N. induction Nl as [|x l Hx Nl IH]; intros s N; cbn [expunge_loop].
  - split; [|split; [done|by destruct s]]. symmetry. cbn. induction (hook_list s) as [|y l' IHl]; [done|].
    cbn. rewrite IHl; [done|]. by inversion N.
  - destruct (is_deleted s x) eqn:Ed.
    + assert (N' : NoDup (hook_list (free_hook x s))).
      { cbn. rewrite g_slist_remove_filter by done. by apply NoDup_ListNoDup, List.NoDup_filter, NoDup_ListNoDup. }
      assert (Ho : forall id, id <> x -> is_deleted (free_hook x s) id = is_deleted s id).
      { intros id Hne. unfold is_deleted. rewrite free_hook_lookup. by rewrite decide_False by done. }
      destruct (IH (free_hook x s) N') as (El & Em & Es). split; [|split].
      * rewrite El. cbn. rewrite g_slist_remove_filter, filter_twice by done. apply List.filter_ext_in.
        intros id _. destruct (Nat.eqb_spec id x) as [->|Hne]; cbn.
        -- rewrite bool_decide_eq_true_2 by apply list_elem_of_here. by rewrite Ed.
        -- rewrite (Ho id Hne). destruct (is_deleted s id); [|by rewrite !andb_false_r]. rewrite !andb_true_r. f_equal.
           apply bool_decide_ext. rewrite elem_of_cons. naive_solver.
      * intros id. rewrite Em, free_hook_lookup. case_decide as Hd.
        -- subst id. rewrite (bool_decide_eq_false_2 (x ∈ l)) by done.
           by rewrite bool_decide_eq_true_2, Ed by apply list_elem_of_here.
        -- rewrite (Ho id) by done. destruct (is_deleted s id); [|by rewrite !andb_false_r].
           rewrite !andb_true_r. rewrite (bool_decide_ext (id ∈ x :: l) (id ∈ l)); [done|].
           rewrite elem_of_cons. naive_solver.
      * rewrite Es at 1. done.
    + destruct (IH s N) as (El & Em & Es).
      assert (Hb : forall id, bool_decide (id ∈ l) && is_deleted s id = bool_decide (id ∈ x :: l) && is_deleted s id).
      { intros id. destruct (decide (id = x)) as [->|Hne]; [by rewrite Ed, !andb_false_r|].
        f_equal. apply bool_decide_ext. rewrite elem_of_cons. naive_solver. }
      split; [|split; [|done]].
      * rewrite El. apply List.filter_ext. intros id. by rewrite Hb.
      * intros id. by rewrite Em, Hb.
Qed.

Lemma expunge_live s : linked s -> expunge s = live s.
Proof.
  intros L. destruct (expunge_loop_eq (hook_list s) s (linked_nodup s L) (linked_nodup s L)) as (El & Em & Es).
  unfold expunge. rewrite Es. unfold live. f_equal.
  - rewrite El. apply List.filter_ext_in. intros id Hin%list_elem_of_In. by rewrite bool_decide_eq_true_2.
  - apply map_eq. intros id. rewrite Em. fold (hooks (live s)).
    destruct (bool_decide (id ∈ hook_list s) && is_deleted s id) eqn:E.
    + symmetry. apply (live_lookup_None s). right. by apply andb_prop in E as [_ ?].
    + destruct (is_deleted s id) eqn:Ed; [|symmetry; apply (live_alive s); unfold alive; by rewrite Ed].
      rewrite andb_true_r in E. apply bool_decide_eq_false in E. rewrite (linked_dom s L) in E.
      apply eq_None_not_Some in E. rewrite E. symmetry. apply (live_lookup_None s). by left.
Qed.

(** ** Relations that every call keeps *)

Lemma and_then_Done {A B} (r : result A) (f : A -> state -> result B) b s' :
  and_then r f = Done b s' -> exists a s, r = Done a s /\ f a s = Done b s'.
Proof. destruct r as [a s| |]; cbn; [eauto|done..]. Qed.

(** Every call of a program, whatever the answers are. *)
Fixpoint uses (P : op -> Prop) (p : prog) : Prop :=
  match p with Return _ => True | Do o k => P o /\ forall a, uses P (k a) end.

Definition loads (o : op) : bool := match o with OKill _ _ | OLoad _ _ _ _ _ _ => true | _ => false end.
Definition removes (o : op) : bool := match o with OUnhook _ => true | _ => loads o end.

#[global] Arguments poxchat_hook : simpl never.
#[global] Arguments poxchat_hook_fd : simpl never.
#[global] Arguments poxchat_unhook : simpl never.
#[global] Arguments plugin_list_add : simpl never.
#[global] Arguments plugin_hook_run : simpl never.
#[global] Arguments plugin_kill : simpl never.
#[global] Arguments plugin_free : simpl never.
#[global] Arguments plugin_add : simpl never.

Section preservation.
Context `{GLib} (code : list event -> nat -> nat -> call -> prog) (new_source : list Z -> Z).
Context (P : op -> Prop) (R : state -> state -> Prop).

(** What the single calls have to keep. *)
Record kept : Prop := Kept {
  kept_note who c s : R s (note who c s);
  kept_context pl sess s s' : set_context pl sess s = Some s' -> R s s';
  kept_hook f pl pri name help cb ud s :
    P (OHook f pl pri name help cb ud) -> R s (poxchat_hook new_source f pl pri name help cb ud s).2;
  kept_fd pl fd cb ud s : P (OHookFd pl fd cb ud) -> R s (poxchat_hook_fd new_source pl fd cb ud s).2;
  kept_unhook o id s : P o -> removes o = true -> R s (poxchat_unhook id s).2;
  kept_expunge s : R s (expunge s);
  kept_free o pl s : P o -> loads o = true -> R s (free_plugin pl s);
  kept_add o sess filename name deinit fake s :
    P o -> loads o = true -> R s (plugin_list_add sess filename name deinit fake s).2 }.

Context `{!PreOrder R} (K : kept) (U : forall l cb ud c, uses P (code l cb ud c)).

Lemma kept_unhook_all o pl s : P o -> loads o = true -> R s (unhook_all pl s).
Proof.
  intros Po Lo. unfold unhook_all. generalize (hook_list s) as l. intros l. revert s.
  induction l as [|id l IH]; intros s; [reflexivity|]. cbn [foldl].
  etransitivity; [|apply IH]. destruct (hooks s !! id) as [h|]; [|reflexivity].
  destruct (Nat.eqb _ _); [|reflexivity]. apply (kept_unhook K o id s Po). by destruct o.
Qed.

Lemma kept_free_end o pl s r s' : P o -> loads o = true -> plugin_free_end pl s = Done r s' -> R s s'.
Proof.
  intros Po Lo. unfold plugin_free_end. destruct (bool_decide _); [|done]. intros [= _ <-].
  etransitivity; [apply (kept_unhook_all o pl s Po Lo)|apply (kept_free K o pl _ Po Lo)].
Qed.

Lemma kept_fetch e l s next p s' : fetch code e l s = Some (Some (next, p, s')) -> R s s' /\ uses P p.
Proof.
  unfold fetch. destruct (nodes l s) as [l0|]; [|done]. cbn.
  destruct (plugin_hook_find s l0 (em_type e) (em_name e)) as [[|id l1]|]; [done| |done]. cbn.
  destruct (hooks s !! id) as [h|]; [|done]. cbn. destruct (set_context (h_pl h) (em_sess e) s) as [s1|] eqn:Ec; [|done].
  cbn. intros [= <- <- <-]. split; [|apply U].
  etransitivity; [apply (kept_context K _ _ _ _ Ec)|apply (kept_note K)].
Qed.

(** Given that the programs keep it. *)
Section run.
Context (run : prog -> state -> result Z) (Hrun : forall p s r s', uses P p -> run p s = Done r s' -> R s s').

Lemma loop_keeps n e l eat s r s' : plugin_hook_loop code run n e l eat s = Done r s' -> R s s'.
Proof.
  revert l eat s. induction n as [|n IH]; intros l eat s E; [done|]. cbn in E.
  destruct (fetch code e l s) as [[[[next p] s1]|]|] eqn:Ef; [|by injection E as <- <-|done].
  apply kept_fetch in Ef as [R1 Up]. apply and_then_Done in E as (ret & s2 & Ex & Er).
  apply Hrun in Ex; [|done]. transitivity s1; [done|]. transitivity s2; [done|].
  destruct (_ && _); [by injection Er as <- <-|]. destruct (is_kind ret EAT_PLUGIN); [by injection Er as <- <-|].
  eapply IH, Er.
Qed.

Lemma hook_run_keeps n e s r s' : plugin_hook_run code run n e s = Done r s' -> R s s'.
Proof.
  intros (eat & s1 & El & Er)%and_then_Done. injection Er as <- <-. transitivity s1; [eapply loop_keeps, El|].
  apply (kept_expunge K).
Qed.

Lemma free_keeps o pl d a s r s' : P o -> loads o = true -> plugin_free code run pl d a s = Done r s' -> R s s'.
Proof.
  intros Po Lo E. unfold plugin_free in E. destruct (plugins s !! pl) as [p|]; [|done].
  destruct (p_fake p); [injection E as <- <-; by apply (kept_free K o)|].
  destruct (if d then p_deinit p else None) as [deinit|]; [|by eapply (kept_free_end o)].
  apply and_then_Done in E as (ret & s1 & Ex & Er). apply Hrun in Ex; [|apply U].
  transitivity (note pl Deinit_cb s); [apply (kept_note K)|]. transitivity s1; [done|].
  destruct (_ && _); [by injection Er as <- <-|]. by eapply (kept_free_end o).
Qed.

Lemma kill_keeps o name by_filename s r s' :
  P o -> loads o = true -> plugin_kill code run name by_filename s = Done r s' -> R s s'.
Proof.
  intros Po Lo. unfold plugin_kill. destruct (find_plugin name by_filename s) as [pl|]; [|by intros [= <- <-]].
  intros (b & s1 & Ef & Er)%and_then_Done. injection Er as <- <-. by eapply free_keeps.
Qed.

Lemma add_keeps o sess filename name init deinit fake s r s' :
  P o -> loads o = true -> plugin_add code run sess filename name init deinit fake s = Done r s' -> R s s'.
Proof.
  intros Po Lo E. unfold plugin_add in E.
  pose proof (kept_add K o sess filename name deinit fake s Po Lo) as Ra.
  destruct (plugin_list_add sess filename name deinit fake s) as [pl s0]. etransitivity; [exact Ra|]. cbn.
  destruct fake; [by injection E as <- <-|].
  apply and_then_Done in E as (ret & s1 & Ex & Er). apply Hrun in Ex; [|apply U].
  etransitivity; [apply (kept_note K)|]. etransitivity; [exact Ex|].
  destruct (ret =? 0); [by eapply free_keeps|by injection Er as <- <-].
Qed.
End run.

Lemma exec_keeps n p s r s' : uses P p -> exec code new_source n p s = Done r s' -> R s s'.
Proof.
  revert p s r s'. induction n as [|n IH]; [done|].
  intros [r0|o k] s r s' Up E; cbn in E; [by injection E as <- <-|]. destruct Up as [Po Uk].
  destruct o as [f pl pri name help cb ud|pl fd cb ud|id|e|name by_filename|sess filename name init deinit fake].
  - pose proof (kept_hook K f pl pri name help cb ud s Po) as Rh.
    destruct (poxchat_hook _ f pl pri name help cb ud s) as [id s1]. etransitivity; [exact Rh|]. exact (IH _ _ _ _ (Uk _) E).
  - pose proof (kept_fd K pl fd cb ud s Po) as Rh.
    destruct (poxchat_hook_fd _ pl fd cb ud s) as [id s1]. etransitivity; [exact Rh|]. exact (IH _ _ _ _ (Uk _) E).
  - pose proof (kept_unhook K (OUnhook id) id s Po eq_refl) as Rh.
    destruct (poxchat_unhook id s) as [u s1]. etransitivity; [exact Rh|]. exact (IH _ _ _ _ (Uk _) E).
  - apply and_then_Done in E as (eat & s1 & El & Ek).
    etransitivity; [exact (hook_run_keeps _ IH _ _ _ _ _ El)|exact (IH _ _ _ _ (Uk _) Ek)].
  - apply and_then_Done in E as (b & s1 & Ef & Ek).
    etransitivity; [exact (kill_keeps _ IH _ _ _ _ _ _ Po eq_refl Ef)|exact (IH _ _ _ _ (Uk _) Ek)].
  - apply and_then_Done in E as (b & s1 & Ef & Ek).
    etransitivity; [exact (add_keeps _ IH _ _ _ _ _ _ _ _ _ _ Po eq_refl Ef)|exact (IH _ _ _ _ (Uk _) Ek)].
Qed.
End preservation.

(** ** What the single calls do to the hooks *)

Definition same_hooks (s s' : state) : Prop :=
  hook_list s' = hook_list s /\ hooks s' = hooks s /\ sources s' = sources s /\ (next_addr s <= next_addr s')%nat.

(** With a new hook, inserted as if its priority were [pri]. *)
Definition added (s : state) (pri : Z) (h : hook) (srcs : list source) : state :=
  State (insert_before (hooks s) (new_hook_type (h_type h)) pri (next_addr s) (hook_list s)) (<[next_addr s := h]> (hooks s))
    (plugin_list s) (plugins s) (S (next_addr s)) srcs (calls s).

Definition dead (h : hook) : hook := without_strings (with_type HOOK_DELETED h).

Definition has_source (h : hook) : bool := ((h_type h =? HOOK_TIMER) || (h_type h =? HOOK_FD)) && negb (h_tag h =? 0).

(** With a hook marked as deleted. *)
Definition killed (s : state) (id : nat) (h : hook) : state :=
  State (hook_list s) (<[id := dead h]> (hooks s)) (plugin_list s) (plugins s) (next_addr s)
    (if has_source h then List.filter (fun x => negb (src_tag x =? h_tag h)) (sources s) else sources s) (calls s).

Section calls.
Context (new_source : list Z -> Z).

Definition is_added (s : state) (o : op) (pri : Z) (h : hook) (srcs : list source) : Prop :=
  match o with
  | OHook Hook_timer _ _ _ _ _ _ =>
      h_type h = HOOK_TIMER /\ h_pri h = pri /\ h_tag h = new_source (map src_tag (sources s)) /\
      srcs = sources s ++ [Source (h_tag h) false (next_addr s)]
  | OHook f _ _ _ _ _ _ => h_type h = fn_type f /\ h_pri h = pri /\ h_tag h = 0 /\ srcs = sources s
  | OHookFd _ _ _ _ =>
      h_type h = HOOK_FD /\ h_tag h = new_source (map src_tag (sources s)) /\ srcs = sources s ++ [Source (h_tag h) true (next_addr s)]
  | _ => False
  end.

Lemma poxchat_hook_added f pl pri name help cb ud s :
  exists pri' h srcs, is_added s (OHook f pl pri name help cb ud) pri' h srcs /\
    forall s', sources s' = sources s -> next_addr s' = next_addr s ->
      poxchat_hook new_source f pl pri name help cb ud s' = (next_addr s, added s' pri' h srcs).
Proof.
  assert (Plain : f <> Hook_timer -> exists pri' h srcs, is_added s (OHook f pl pri name help cb ud) pri' h srcs /\
    forall s', sources s' = sources s -> next_addr s' = next_addr s ->
      poxchat_hook new_source f pl pri name help cb ud s' = (next_addr s, added s' pri' h srcs)).
  { intros Hf. exists pri, (Hook pl name cb (match f with Hook_command => help | _ => None end) ud 0 (fn_type f) pri), (sources s).
    split; [by destruct f|]. intros s' <- <-. by destruct f. }
  destruct f; try (apply Plain; done). clear Plain.
  exists 0, (Hook pl None cb None ud (new_source (map src_tag (sources s))) HOOK_TIMER 0),
    (sources s ++ [Source (new_source (map src_tag (sources s))) false (next_addr s)]). split; [by repeat split|].
  intros s' <- <-. unfold poxchat_hook, plugin_add_hook, update_hook, plugin_insert_hook, new_tag. cbn. by rewrite alter_insert_eq.
Qed.

Lemma poxchat_hook_fd_added pl fd cb ud s :
  exists pri' h srcs, is_added s (OHookFd pl fd cb ud) pri' h srcs /\
    forall s', sources s' = sources s -> next_addr s' = next_addr s ->
      poxchat_hook_fd new_source pl fd cb ud s' = (next_addr s, added s' pri' h srcs).
Proof.
  exists 0, (Hook pl None cb None ud (new_source (map src_tag (sources s))) HOOK_FD fd),
    (sources s ++ [Source (new_source (map src_tag (sources s))) true (next_addr s)]). split; [by repeat split|].
  intros s' <- <-. unfold poxchat_hook_fd, plugin_add_hook, update_hook, plugin_insert_hook, new_tag. cbn. by rewrite !alter_insert_eq.
Qed.

Lemma poxchat_unhook_cases id s :
  (poxchat_unhook id s = (None, s) /\ (linked s -> alive s id = false \/ hooks s !! id = None)) \/
  exists h, id ∈ hook_list s /\ hooks s !! id = Some h /\ h_type h <> HOOK_DELETED /\
    poxchat_unhook id s = (Some (h_userdata h), killed s id h).
Proof.
  unfold poxchat_unhook. case_bool_decide as Hin.
  - destruct (hooks s !! id) as [h|] eqn:Eh; [|left; auto].
    destruct (Z.eqb_spec (h_type h) HOOK_DELETED) as [Ed|Ed].
    + left. split; [done|]. intros _. left. unfold alive, is_deleted. by rewrite Eh, Ed.
    + right. exists h. split; [done|]. split; [done|]. split; [done|]. f_equal. unfold killed, has_source, update_hook.
      assert (Ea : alter (fun h => without_strings (with_type HOOK_DELETED h)) id (hooks s) = <[id := dead h]> (hooks s)).
      { apply map_eq. intros i. destruct (decide (i = id)) as [->|Hne].
        - by rewrite lookup_alter_eq, lookup_insert_eq, Eh.
        - by rewrite lookup_alter_ne, lookup_insert_ne by done. }
      destruct (Z.eqb_spec (h_type h) HOOK_TIMER) as [Et|_]; [rewrite Et|];
        destruct (h_tag h =? 0); cbn; rewrite ?Ea; try done; destruct (h_type h =? HOOK_FD); cbn; by rewrite ?Ea.
  - left. split; [done|]. intros L. right. rewrite (linked_dom s L) in Hin. by apply eq_None_not_Some.
Qed.
End calls.

Lemma linked_added s pri h srcs : linked s -> linked (added s pri h srcs).
Proof.
  intros L. pose proof (linked_fresh s L) as Fr. destruct L as [N D A].
  pose proof (insert_before_perm (hooks s) (new_hook_type (h_type h)) pri (next_addr s) (hook_list s)) as Ep.
  split; cbn [hook_list hooks next_addr added].
  - rewrite Ep. apply NoDup_cons. split; [|done]. rewrite D. intros [h' Eh']. by rewrite Fr in Eh'.
  - intros id. rewrite Ep, elem_of_cons, lookup_insert_is_Some'. naive_solver.
  - intros id. rewrite lookup_insert_is_Some'. intros [<-|Hs]; [lia|]. specialize (A id Hs). lia.
Qed.

Lemma linked_killed s id h : linked s -> hooks s !! id = Some h -> linked (killed s id h).
Proof.
  intros L E. apply (linked_same s); [done|done| |done]. cbn. rewrite dom_insert_lookup_L; eauto.
Qed.

Lemma linked_live s : linked s -> linked (live s).
Proof.
  intros [N D A]. split.
  - cbn. by apply NoDup_ListNoDup, List.NoDup_filter, NoDup_ListNoDup.
  - intros id. cbn [live hook_list set_hooks]. rewrite list_elem_of_In, List.filter_In, <- list_elem_of_In, D.
    split; [intros [[h Eh] Ea]|intros [h Eh]].
    + rewrite (live_alive s id Ea). eauto.
    + apply live_lookup in Eh as [Eh Ht]. split; [eauto|]. by apply (alive_spec s id h Eh).
  - intros id [h Eh]. apply live_lookup in Eh as [Eh _]. apply A. eauto.
Qed.

Lemma linked_same_hooks s s' : linked s -> same_hooks s s' -> linked s'.
Proof. intros L (El & Em & _ & En). apply (linked_same s); [done|done|by rewrite Em|done]. Qed.

(** A relation between linked states is kept if it holds for these five steps. *)
Section kept_linked.
Context (new_source : list Z -> Z) (P : op -> Prop) (Q : state -> state -> Prop).

Definition linked_rel (s s' : state) : Prop := linked s -> linked s' /\ Q s s'.

Lemma linked_rel_preorder_when :
  (forall s, linked s -> Q s s) ->
  (forall s1 s2 s3, linked s1 -> linked s2 -> linked s3 -> Q s1 s2 -> Q s2 s3 -> Q s1 s3) -> PreOrder linked_rel.
Proof.
  intros Qr Qt. split; [intros s L; split; [done|by apply Qr]|].
  intros s1 s2 s3 H1 H2 L. destruct (H1 L) as [L2 Q2], (H2 L2) as [L3 Q3]. split; [done|]. by apply (Qt s1 s2 s3).
Qed.

#[global] Instance linked_rel_preorder : PreOrder Q -> PreOrder linked_rel.
Proof. intros PQ. apply linked_rel_preorder_when; [reflexivity|]. intros s1 s2 s3 _ _ _ H1 H2. by transitivity s2. Qed.

Lemma kept_linked :
  (forall s s', linked s -> same_hooks s s' -> Q s s') ->
  (forall s o pri h srcs, linked s -> P o -> is_added new_source s o pri h srcs -> Q s (added s pri h srcs)) ->
  (forall s o id h, linked s -> P o -> removes o = true -> hooks s !! id = Some h -> h_type h <> HOOK_DELETED ->
     Q s (killed s id h)) ->
  (forall s, linked s -> Q s (live s)) ->
  kept new_source P linked_rel.
Proof.
  intros Qs Qa Qk Ql.
  assert (Rs : forall s s', same_hooks s s' -> linked_rel s s')
    by (intros s s' Hs L; split; [by apply (linked_same_hooks s)|by apply Qs]).
  split.
  - intros. apply Rs. by repeat split.
  - intros pl sess s s'. unfold set_context. destruct (plugins s !! pl); [|done]. intros [= <-]. apply Rs. by repeat split.
  - intros f pl pri name help cb ud s Po.
    destruct (poxchat_hook_added new_source f pl pri name help cb ud s) as (pri' & h & srcs & A & ->); [|done..].
    intros L. split; [by apply linked_added|by eapply Qa].
  - intros pl fd cb ud s Po.
    destruct (poxchat_hook_fd_added new_source pl fd cb ud s) as (pri' & h & srcs & A & ->); [|done..].
    intros L. split; [by apply linked_added|by eapply Qa].
  - intros o id s Po Ro. destruct (poxchat_unhook_cases id s) as [[-> _]|(h & Hin & Eh & Ht & ->)].
    + apply Rs. by repeat split.
    + intros L. split; [by apply linked_killed|by eapply Qk].
  - intros s L. rewrite expunge_live by done. split; [by apply linked_live|by apply Ql].
  - intros o pl s _ _. apply Rs. by repeat split.
  - intros o sess filename name deinit fake s _ _. apply Rs. unfold plugin_list_add. repeat split. cbn. lia.
Qed.
End kept_linked.

(** ** Priorities *)

(** Hook [a] runs before [b]: a higher priority, or the same and newer. *)
Definition above (m : gmap nat hook) (a b : nat) : Prop :=
  exists ha hb, m !! a = Some ha /\ m !! b = Some hb /\
    (h_pri hb < h_pri ha \/ h_pri hb = h_pri ha /\ (b < a)%nat).

Definition of_kind (m : gmap nat hook) (mask : Z) (id : nat) : bool :=
  match m !! id with Some h => is_kind (h_type h) mask | None => false end.

Definition in_order (mask : Z) (s : state) : Prop :=
  StronglySorted (above (hooks s)) (List.filter (of_kind (hooks s) mask) (hook_list s)).

Lemma sorted_filter_impl {A} (R R' : A -> A -> Prop) (f f' : A -> bool) l :
  (forall x, x ∈ l -> f' x = true -> f x = true) ->
  (forall x y, x ∈ l -> y ∈ l -> f' x = true -> f' y = true -> R x y -> R' x y) ->
  StronglySorted R (List.filter f l) -> StronglySorted R' (List.filter f' l).
Proof.
  induction l as [|x l IH]; intros Hf HR Hs; [constructor|]. cbn in *.
  assert (Ht : StronglySorted R (List.filter f l)) by (destruct (f x); [by inversion Hs|done]).
  assert (IH' : StronglySorted R' (List.filter f' l)).
  { apply IH; [|intros y z Hy Hz; apply HR; by apply list_elem_of_further|done].
    intros y Hy. apply Hf. by apply list_elem_of_further. }
  destruct (f' x) eqn:Ex; [|done]. constructor; [done|].
  rewrite (Hf x (list_elem_of_here _ _) Ex) in Hs. apply StronglySorted_inv in Hs as [_ Ha].
  rewrite Forall_forall in Ha |- *. intros y Hy. apply list_elem_of_In, List.filter_In in Hy as [Hy Ey].
  apply list_elem_of_In in Hy. assert (Hy' : y ∈ x :: l) by by apply list_elem_of_further.
  apply HR; [apply list_elem_of_here|done..|]. apply Ha.
  apply list_elem_of_In, List.filter_In. split; [by apply list_elem_of_In|]. by apply Hf.
Qed.

Lemma above_mono (m m' : gmap nat hook) a b :
  m' !! a = m !! a -> m' !! b = m !! b -> above m a b -> above m' a b.
Proof. intros Ea Eb (ha & hb & Ha & Hb & Hp). exists ha, hb. by rewrite Ea, Eb. Qed.

Lemma of_kind_insert_ne m mask new h id : id <> new -> of_kind (<[new := h]> m) mask id = of_kind m mask id.
Proof. intros Hne. unfold of_kind. by rewrite lookup_insert_ne. Qed.

Lemma sorted_insert_before m mask new h l :
  (forall id, id ∈ l -> (id < new)%nat) -> is_kind (h_type h) mask = true ->
  StronglySorted (above m) (List.filter (of_kind m mask) l) ->
  StronglySorted (above (<[new := h]> m)) (List.filter (of_kind (<[new := h]> m) mask) (insert_before m mask (h_pri h) new l)).
Proof.
  intros Hl Hk. set (m' := <[new := h]> m).
  assert (Hnew : of_kind m' mask new = true) by (unfold of_kind, m'; by rewrite lookup_insert_eq).
  assert (Hm : forall id, id ∈ l -> m' !! id = m !! id).
  { intros id Hin. apply lookup_insert_ne. specialize (Hl id Hin). lia. }
  assert (Hkind : forall id, id ∈ l -> of_kind m' mask id = of_kind m mask id)
    by (intros id Hin; unfold of_kind; by rewrite Hm).
  induction l as [|id l IH]; intros Hs; [cbn; rewrite Hnew; repeat constructor|].
  assert (Hs' : StronglySorted (above m') (List.filter (of_kind m' mask) (id :: l))).
  { revert Hs. apply sorted_filter_impl; [intros x Hx; by rewrite Hkind|]. intros x y Hx Hy _ _. by apply above_mono; apply Hm. }
  assert (IH' : StronglySorted (above m') (List.filter (of_kind m' mask) (insert_before m mask (h_pri h) new l))).
  { apply IH; try (intros x Hx; (apply Hl || apply Hm || apply Hkind); by apply list_elem_of_further).
    cbn in Hs. destruct (of_kind m mask id); [by apply StronglySorted_inv in Hs as [? _]|done]. }
  pose proof (Hm id (list_elem_of_here _ _)) as Eid. pose proof (Hkind id (list_elem_of_here _ _)) as Kid.
  cbn [insert_before]. destruct (m !! id) as [hi|] eqn:Ei.
  2:{ cbn. unfold of_kind at 1. rewrite Eid. exact IH'. }
  assert (Ki : of_kind m' mask id = is_kind (h_type hi) mask) by (unfold of_kind; by rewrite Eid).
  destruct (is_kind (h_type hi) mask) eqn:Eki; cbn [andb]; [|cbn; by rewrite Ki].
  assert (Ha : Forall (above m' id) (List.filter (of_kind m' mask) l)).
  { cbn in Hs'. rewrite Ki in Hs'. by apply StronglySorted_inv in Hs' as [_ ?]. }
  rewrite Forall_forall in Ha.
  assert (Enew : m' !! new = Some h) by apply lookup_insert_eq.
  destruct (Z.leb_spec (h_pri hi) (h_pri h)) as [Hle|Hlt]; cbn [List.filter].
  - rewrite Hnew. constructor; [exact Hs'|]. rewrite Ki. pose proof (Hl id (list_elem_of_here _ _)) as Hid.
    apply Forall_cons. split; [exists h, hi; repeat split; [done..|lia]|]. apply Forall_forall. intros x Hx.
    destruct (Ha x Hx) as (ha & hb & Eha & Ehb & Hp). rewrite Eid in Eha. injection Eha as <-.
    exists h, hb. repeat split; [done..|]. apply list_elem_of_In, List.filter_In in Hx as [Hx _].
    apply list_elem_of_In in Hx. specialize (Hl x (list_elem_of_further _ _ _ Hx)). lia.
  - rewrite Ki. constructor; [exact IH'|]. apply Forall_forall. intros x Hx.
    apply list_elem_of_In, List.filter_In in Hx as [Hx Kx]. apply list_elem_of_In in Hx.
    rewrite insert_before_perm in Hx. apply elem_of_cons in Hx as [->|Hx]; [exists hi, h; repeat split; [done..|lia]|].
    apply Ha, list_elem_of_In, List.filter_In. split; [by apply list_elem_of_In|done].
Qed.

(** The kinds whose hooks are inserted among each other; the hooks of server
    lines are not among them. *)
Definition ordered_mask (mask : Z) : Prop :=
  mask = HOOK_COMMAND \/ mask = Z.lor HOOK_PRINT HOOK_PRINT_ATTRS \/ mask = HOOK_TIMER.

Definition any_op (o : op) : Prop := True.

Lemma uses_any p : uses any_op p.
Proof. induction p as [r|o k IH]; cbn; [done|]. by split. Qed.

Section order.
Context (new_source : list Z -> Z) (mask : Z) (M : ordered_mask mask).

Definition keeps_order (s s' : state) : Prop := in_order mask s -> in_order mask s'.

#[global] Instance keeps_order_preorder : PreOrder keeps_order.
Proof. split; [by intros s O|]. intros s1 s2 s3 H1 H2 O. by apply H2, H1. Qed.

Lemma order_added s o pri h srcs :
  linked s -> is_added new_source s o pri h srcs -> keeps_order s (added s pri h srcs).
Proof.
  intros L A O. unfold in_order, added. cbn [hook_list hooks].
  assert (Hl : forall id, id ∈ hook_list s -> (id < next_addr s)%nat) by (intros id; by apply linked_old).
  assert (C : is_kind (h_type h) mask = false \/ is_kind (h_type h) mask = true /\ new_hook_type (h_type h) = mask /\ pri = h_pri h).
  { destruct o as [f ? ? ? ? ? ?|? ? ? ?| | | |]; try done.
    - destruct f; destruct A as (T & Hp & _); rewrite T, Hp; destruct M as [->|[->| ->]]; auto.
    - destruct A as (T & _). rewrite T. destruct M as [->|[->| ->]]; auto. }
  destruct C as [Ck|(Ck & Em & Ep)].
  - rewrite insert_before_other by (unfold of_kind; by rewrite lookup_insert_eq).
    revert O. apply sorted_filter_impl.
    + intros x Hx%Hl. rewrite of_kind_insert_ne by lia. done.
    + intros x y Hx%Hl Hy%Hl _ _. apply above_mono; apply lookup_insert_ne; lia.
  - rewrite Em, Ep. by apply sorted_insert_before.
Qed.

Lemma order_killed s s' id h :
  h_type h = HOOK_DELETED -> hook_list s' = hook_list s -> hooks s' = <[id := h]> (hooks s) -> keeps_order s s'.
Proof.
  intros Et El Eh O. unfold in_order. rewrite El, Eh. clear s' El Eh.
  assert (Kd : of_kind (<[id := h]> (hooks s)) mask id = false).
  { unfold of_kind. rewrite lookup_insert_eq, Et. by destruct M as [->|[->| ->]]. }
  assert (Hne : forall x, of_kind (<[id := h]> (hooks s)) mask x = true -> x <> id) by (intros x Kx ->; by rewrite Kd in Kx).
  revert O. apply sorted_filter_impl.
  - intros x _ Kx. rewrite of_kind_insert_ne in Kx by auto. done.
  - intros x y _ _ Kx Ky. apply above_mono; apply lookup_insert_ne; apply not_eq_sym; auto.
Qed.

Lemma order_live s : keeps_order s (live s).
Proof.
  intros O. unfold in_order. cbn [live set_hooks hook_list].
  assert (Kl : forall x, of_kind (hooks (live s)) mask x = true -> of_kind (hooks s) mask x = true /\ alive s x = true).
  { intros x. unfold of_kind. destruct (hooks (live s) !! x) as [h|] eqn:E; [|done]. apply live_lookup in E as [E T].
    rewrite E. split; [done|]. by apply (alive_spec s x h E). }
  rewrite filter_twice. revert O. apply sorted_filter_impl.
  - intros x _ [_ Kx]%andb_prop. by apply Kl.
  - intros x y _ _ [Ax _]%andb_prop [Ay _]%andb_prop. by apply above_mono; apply live_alive.
Qed.

Lemma order_kept : kept new_source any_op (linked_rel keeps_order).
Proof.
  apply kept_linked.
  - intros s s' _ (El & Em & _). unfold keeps_order, in_order. by rewrite El, Em.
  - intros s o pri h srcs L _ A. by eapply order_added.
  - intros s o id h _ _ _ Eh _. by apply (order_killed s _ id (dead h)).
  - intros s _. apply order_live.
Qed.
End order.

(** ** Sources of the main loop *)

(** GLib's numbers: not 0 and not in use. *)
Definition fresh_tags (new_source : list Z -> Z) : Prop := forall l, (new_source l ∉ l) /\ new_source l <> 0.

(** The source that the hook is to have. *)
Definition source_of (id : nat) (h : hook) : source := Source (h_tag h) (h_type h =? HOOK_FD) id.

Record sourced (s : state) : Prop := Sourced {
  sourced_nodup : NoDup (map src_tag (sources s));
  sourced_iff : forall x, x ∈ sources s <-> exists h, hooks s !! src_hook x = Some h /\ has_source h = true /\ x = source_of (src_hook x) h }.

Lemma has_source_kind h : has_source h = true -> h_tag h <> 0 /\ (h_type h = HOOK_TIMER \/ h_type h = HOOK_FD).
Proof.
  unfold has_source. intros [[E|E]%orb_prop Ht]%andb_prop; apply Z.eqb_eq in E;
    apply negb_true_iff, Z.eqb_neq in Ht; auto.
Qed.

Lemma without_source tag (l : list source) x :
  x ∈ List.filter (fun y => negb (src_tag y =? tag)) l <-> x ∈ l /\ src_tag x <> tag.
Proof. by rewrite list_elem_of_In, List.filter_In, <- list_elem_of_In, negb_true_iff, Z.eqb_neq. Qed.

Lemma without_source_nodup tag (l : list source) :
  NoDup (map src_tag l) -> NoDup (map src_tag (List.filter (fun y => negb (src_tag y =? tag)) l)).
Proof.
  induction l as [|x l IH]; [done|]. cbn. intros [Hx Hl]%NoDup_cons.
  destruct (negb _); cbn; [|by apply IH]. apply NoDup_cons. split; [|by apply IH].
  intros (y & Ey & Hy)%list_elem_of_fmap. apply without_source in Hy as [Hy _]. apply Hx, list_elem_of_fmap. eauto.
Qed.

Lemma same_tag (l : list source) x y : NoDup (map src_tag l) -> x ∈ l -> y ∈ l -> src_tag x = src_tag y -> x = y.
Proof.
  intros N Hx Hy E. apply list_elem_of_lookup in Hx as [i Ei], Hy as [j Ej].
  assert (i = j) as ->.
  { apply (NoDup_lookup (map src_tag l) i j (src_tag x) N); rewrite list_lookup_fmap; [by rewrite Ei|by rewrite Ej, E]. }
  congruence.
Qed.

(** Marking a hook deleted when its source is gone with it. *)
Lemma sourced_dead s id h h' srcs :
  sourced s -> hooks s !! id = Some h -> has_source h' = false ->
  srcs = (if has_source h then List.filter (fun x => negb (src_tag x =? h_tag h)) (sources s) else sources s) ->
  NoDup (map src_tag srcs) /\
  forall x, x ∈ srcs <-> exists h, <[id := h']> (hooks s) !! src_hook x = Some h /\ has_source h = true /\ x = source_of (src_hook x) h.
Proof.
  intros [N I] Eh Hh' ->. split; [destruct (has_source h); [by apply without_source_nodup|done]|]. intros x.
  assert (Hr : x ∈ (if has_source h then List.filter (fun x => negb (src_tag x =? h_tag h)) (sources s) else sources s) <->
    x ∈ sources s /\ src_hook x <> id).
  { destruct (has_source h) eqn:Es.
    - rewrite without_source. assert (Hid : source_of id h ∈ sources s) by (apply I; exists h; auto).
      split; intros [Hx Hn]; (split; [done|]); intros Ex; apply Hn.
      + apply I in Hx as (hx & Ehx & _ & ->). rewrite Ex, Eh in Ehx. injection Ehx as <-. by rewrite Ex.
      + rewrite (same_tag _ x (source_of id h) N Hx Hid); done.
    - split; [|tauto]. intros Hx. split; [done|]. intros Ex. apply I in Hx as (hx & Ehx & Hs & _).
      rewrite Ex, Eh in Ehx. injection Ehx as <-. by rewrite Es in Hs. }
  rewrite Hr, I. split.
  - intros [(hx & Ehx & Hx) Hne]. exists hx. by rewrite lookup_insert_ne by auto.
  - intros (hx & Ehx & Hs & Ex). destruct (decide (src_hook x = id)) as [Eid|Hne].
    + rewrite Eid, lookup_insert_eq in Ehx. injection Ehx as <-. by rewrite Hh' in Hs.
    + rewrite lookup_insert_ne in Ehx by auto. split; eauto.
Qed.

Section sources.
Context (new_source : list Z -> Z) (F : fresh_tags new_source).

Definition keeps_sources (s s' : state) : Prop := sourced s -> sourced s'.

#[global] Instance keeps_sources_preorder : PreOrder keeps_sources.
Proof. split; [by intros s O|]. intros s1 s2 s3 H1 H2 O. by apply H2, H1. Qed.

Lemma sources_added s o pri h srcs :
  linked s -> is_added new_source s o pri h srcs -> keeps_sources s (added s pri h srcs).
Proof.
  intros L A [N I]. pose proof (linked_fresh s L) as Fr. destruct (F (map src_tag (sources s))) as [Ft F0].
  assert (Old : forall x, x ∈ sources s -> src_hook x <> next_addr s)
    by (intros x (hx & Ehx & _)%I E; by rewrite E, Fr in Ehx).
  assert (C : has_source h = false /\ srcs = sources s \/
    has_source h = true /\ (h_tag h ∉ map src_tag (sources s)) /\ srcs = sources s ++ [source_of (next_addr s) h]).
  { assert (Ho : forall t, h_type h = t -> h_tag h = 0 -> has_source h = false)
      by (intros t _ E; unfold has_source; rewrite E; by rewrite andb_false_r).
    destruct o as [f ? ? ? ? ? ?|? ? ? ?| | | |]; try done.
    - destruct f; cbn in A; try (destruct A as (T & _ & E & ->); left; split; [by eapply Ho|done]).
      destruct A as (T & _ & E & ->). right. unfold has_source, source_of. rewrite T, E.
      apply Z.eqb_neq in F0. rewrite F0. auto.
    - destruct A as (T & E & ->). right. unfold has_source, source_of. rewrite T, E.
      apply Z.eqb_neq in F0. rewrite F0. auto. }
  split; cbn [added sources hooks].
  - destruct C as [[_ ->]|(_ & Hn & ->)]; [done|]. rewrite map_app. apply NoDup_app. split; [done|].
    split; [|apply NoDup_singleton]. intros t Ht ->%list_elem_of_singleton. by apply Hn.
  - intros x. destruct (decide (src_hook x = next_addr s)) as [Ex|Hne].
    + rewrite Ex, lookup_insert_eq. destruct C as [[Hs ->]|(Hs & _ & ->)].
      * split; [by intros Hx%Old|]. intros (hx & [= <-] & Hx & _). by rewrite Hs in Hx.
      * rewrite elem_of_app, list_elem_of_singleton. split.
        -- intros [Hx%Old| ->]; [done|]. eauto.
        -- intros (hx & [= <-] & _ & ->). by right.
    + rewrite lookup_insert_ne by auto. rewrite <- I.
      destruct C as [[_ ->]|(_ & _ & ->)]; [done|]. rewrite elem_of_app, list_elem_of_singleton.
      split; [|tauto]. intros [?| ->]; [done|]. by destruct Hne.
Qed.

Lemma sources_kept : kept new_source any_op (linked_rel keeps_sources).
Proof.
  apply kept_linked.
  - intros s s' _ (_ & Em & Es & _) [N I]. split; [by rewrite Es|]. intros x. by rewrite Es, Em.
  - intros s o pri h srcs L _ A. by eapply sources_added.
  - intros s o id h _ _ _ Eh _ S. destruct (sourced_dead s id h (dead h) _ S Eh eq_refl eq_refl) as [N I]. by split.
  - intros s _ [N I]. split; [done|]. intros x. rewrite I. split; intros (h & Eh & Hs & Ex); exists h.
    + split; [|done]. apply live_lookup. split; [done|]. apply has_source_kind in Hs as [_ [-> | ->]]; done.
    + apply live_lookup in Eh as [Eh _]. done.
Qed.
End sources.

(** ** What becomes of the hooks that were there *)

Definition aged (s s' : state) : Prop :=
  (next_addr s <= next_addr s')%nat /\
  forall id h', (id < next_addr s)%nat -> hooks s' !! id = Some h' ->
    exists h, hooks s !! id = Some h /\ (h' = h \/ h_type h' = HOOK_DELETED).

#[global] Instance aged_preorder : PreOrder aged.
Proof.
  split; [split; [done|eauto]|]. intros s1 s2 s3 [L1 A1] [L2 A2]. split; [lia|]. intros id h3 Hid E3.
  destruct (A2 id h3 ltac:(lia) E3) as (h2 & E2 & C2). destruct (A1 id h2 Hid E2) as (h1 & E1 & C1).
  exists h1. split; [done|]. destruct C2 as [-> | C2]; [done|by right].
Qed.

Lemma aged_kept new_source : kept new_source any_op (linked_rel aged).
Proof.
  apply kept_linked.
  - intros s s' _ (_ & Em & _ & Hn). split; [done|]. rewrite Em. eauto.
  - intros s o pri h srcs L _ A. split; [cbn; lia|]. intros id h' Hid. cbn. rewrite lookup_insert_ne by lia. eauto.
  - intros s o id h _ _ _ Eh _. split; [done|]. intros id' h' _. cbn.
    destruct (decide (id' = id)) as [->|Hne]; [rewrite lookup_insert_eq; intros [= <-]; exists h; auto|].
    rewrite lookup_insert_ne by auto. eauto.
  - intros s _. split; [done|]. intros id h' _ [E _]%live_lookup. eauto.
Qed.

(** ** The list of plugins *)

(** The plugins of the list are those that have a record, each once. *)
Record listed (s : state) : Prop := Listed {
  listed_nodup : NoDup (plugin_list s);
  listed_iff : forall pl, pl ∈ plugin_list s <-> is_Some (plugins s !! pl);
  listed_old : forall pl, pl ∈ plugin_list s -> (pl < next_addr s)%nat }.

Definition keeps_listed (s s' : state) : Prop := listed s -> listed s'.

#[global] Instance keeps_listed_preorder : PreOrder keeps_listed.
Proof. split; [intros s L; exact L|intros s1 s2 s3 H1 H2 L; auto]. Qed.

Lemma same_listed s s' :
  plugin_list s' = plugin_list s -> (forall pl, is_Some (plugins s' !! pl) <-> is_Some (plugins s !! pl)) ->
  (next_addr s <= next_addr s')%nat -> keeps_listed s s'.
Proof.
  intros El Ep Hn [N I O]. split; rewrite El; [done|intros pl; by rewrite Ep|]. intros pl Hpl. apply O in Hpl. lia.
Qed.

Lemma set_context_listed pl sess s s' : set_context pl sess s = Some s' -> keeps_listed s s'.
Proof.
  unfold set_context. destruct (plugins s !! pl) as [p|] eqn:E; [|done]. intros [= <-]. apply same_listed; [done| |done].
  intros pl'. cbn. destruct (decide (pl' = pl)) as [->|]; [rewrite lookup_insert_eq, E; split; eauto|by rewrite lookup_insert_ne by auto].
Qed.

Lemma expunge_loop_plugins l s :
  plugin_list (expunge_loop l s) = plugin_list s /\ plugins (expunge_loop l s) = plugins s /\ next_addr (expunge_loop l s) = next_addr s.
Proof. revert s. induction l as [|id l IH]; intros s; [done|]. cbn [expunge_loop]. destruct (IH (if is_deleted s id then free_hook id s else s)) as (-> & -> & ->). by destruct (is_deleted s id). Qed.

Lemma free_plugin_listed pl s : keeps_listed s (free_plugin pl s).
Proof.
  intros [N I O]. pose proof (g_slist_remove_filter pl _ N) as E.
  assert (M : forall x, x ∈ List.filter (fun x => negb (Nat.eqb x pl)) (plugin_list s) <-> x ∈ plugin_list s /\ x <> pl).
  { intros x. rewrite !list_elem_of_In, List.filter_In, negb_true_iff, Nat.eqb_neq. done. }
  split; cbn; rewrite E.
  - by apply NoDup_ListNoDup, List.NoDup_filter, NoDup_ListNoDup.
  - intros x. rewrite M, I. destruct (decide (x = pl)) as [->|]; [rewrite lookup_delete_eq; split; [by intros [_ []]|by intros []]|].
    rewrite lookup_delete_ne by auto. tauto.
  - intros x [Hx _]%M. by apply O.
Qed.

Lemma listed_kept new_source : kept new_source any_op keeps_listed.
Proof.
  split.
  - intros. by apply same_listed.
  - intros pl sess s s'. apply set_context_listed.
  - intros f pl pri name help cb ud s _. destruct (poxchat_hook_added new_source f pl pri name help cb ud s) as (p & h & srcs & _ & ->); [|done..].
    apply same_listed; [done..|cbn; lia].
  - intros pl fd cb ud s _. destruct (poxchat_hook_fd_added new_source pl fd cb ud s) as (p & h & srcs & _ & ->); [|done..].
    apply same_listed; [done..|cbn; lia].
  - intros o id s _ _. destruct (poxchat_unhook_cases id s) as [[-> _]|(h & _ & _ & _ & ->)]; by apply same_listed.
  - intros s. unfold expunge. destruct (expunge_loop_plugins (hook_list s) s) as (El & Ep & En).
    apply same_listed; [done|by rewrite Ep|by rewrite En].
  - intros o pl s _ _. apply free_plugin_listed.
  - intros o sess filename name deinit fake s _ _ [N I O].
    assert (Hnew : next_addr s ∉ plugin_list s) by (intros Hin; apply O in Hin; lia).
    unfold plugin_list_add. split; cbn.
    + by constructor.
    + intros pl. rewrite elem_of_cons, I. destruct (decide (pl = next_addr s)) as [->|].
      * rewrite lookup_insert_eq. split; [eauto|by left].
      * rewrite lookup_insert_ne by auto. split; [by intros [?|?]|by right].
    + intros pl [->|Hpl]%elem_of_cons; [lia|]. apply O in Hpl. lia.
Qed.

(** ** Reachable states *)

Section reachable.
Context `{GLib} (code : list event -> nat -> nat -> call -> prog) (new_source : list Z -> Z).

(** Plugins and the client make calls; the main loop runs a timer or an input. *)
Inductive step : state -> state -> Prop :=
| step_calls n p s r s' : exec code new_source n p s = Done r s' -> step s s'
| step_source n sess condition x s r s' :
    x ∈ sources s -> dispatch code new_source n sess condition x s = Done r s' -> step s s'.

Definition reachable (s : state) : Prop := rtc step boot s.

Lemma exec_rel Q `{!PreOrder Q} n p s r s' :
  kept new_source any_op (linked_rel Q) -> linked s -> exec code new_source n p s = Done r s' -> linked s' /\ Q s s'.
Proof.
  intros K L E. refine (exec_keeps code new_source any_op (linked_rel Q) K _ n p s r s' _ E L); intros; apply uses_any.
Qed.

(** A source runs a program, then its hook is gone, or stays, or is unhooked. *)
Lemma dispatch_cases n sess condition x s r s' :
  dispatch code new_source n sess condition x s = Done r s' ->
  exists s0 p ret s1, same_hooks s s0 /\ exec code new_source n p s0 = Done ret s1 /\
    (unhooked (src_hook x) s1 = true /\ s' = source_destroyed x s1 \/
     unhooked (src_hook x) s1 = false /\ ret = 0 /\
       s' = source_destroyed x (poxchat_unhook (src_hook x) (update_hook (src_hook x) (with_tag 0) s1)).2 \/
     unhooked (src_hook x) s1 = false /\ ret <> 0 /\ s' = s1).
Proof.
  unfold dispatch. intros (r1 & s2 & E & Er)%and_then_Done.
  assert (Hs : exists s0 p, same_hooks s s0 /\ and_then (exec code new_source n p s0) (after_source (src_hook x)) = Done r1 s2).
  { destruct (src_input x); [unfold plugin_fd_cb in E|unfold plugin_timeout_cb in E];
      destruct (hooks s !! src_hook x) as [h|]; try done; cbn in E.
    - do 2 eexists. split; [|exact E]. by repeat split.
    - destruct (set_context (h_pl h) sess s) as [s0|] eqn:Ec; [|done]. cbn in E.
      unfold set_context in Ec. destruct (plugins s !! h_pl h); [|done]. injection Ec as <-.
      do 2 eexists. split; [|exact E]. by repeat split. }
  destruct Hs as (s0 & p & Hs & Ex). apply and_then_Done in Ex as (ret & s1 & Ex & Ea).
  exists s0, p, ret, s1. split; [done|]. split; [done|]. injection Er as <- <-. unfold after_source in Ea.
  destruct (unhooked (src_hook x) s1); [injection Ea as <- <-; auto|].
  destruct (Z.eqb_spec ret 0) as [->|Hr]; injection Ea as <- <-; [auto|].
  right. right. apply Z.eqb_neq in Hr as Hr'. by rewrite Hr'.
Qed.

Lemma unhooked_false id s : linked s -> unhooked id s = false -> exists h, hooks s !! id = Some h /\ h_type h <> HOOK_DELETED.
Proof.
  intros L. unfold unhooked. intros [Hin Hd]%orb_false_iff. apply negb_false_iff, bool_decide_eq_true in Hin.
  apply (linked_dom s L) in Hin as [h Eh]. exists h. split; [done|]. apply (alive_spec s id h Eh). unfold alive. by rewrite Hd.
Qed.

Lemma unhooked_true id s h : linked s -> unhooked id s = true -> hooks s !! id = Some h -> h_type h = HOOK_DELETED.
Proof.
  intros L. unfold unhooked. intros Hu Eh. assert (Hin : id ∈ hook_list s) by (apply (linked_dom s L); eauto).
  rewrite bool_decide_eq_true_2 in Hu by done. apply is_deleted_spec in Hu as (h' & Eh' & T). congruence.
Qed.

(** Unhooking after the tag was cleared. *)
Lemma unhook_cleared id s h :
  linked s -> hooks s !! id = Some h -> h_type h <> HOOK_DELETED ->
  (poxchat_unhook id (update_hook id (with_tag 0) s)).2 = set_hooks (hook_list s) (<[id := dead (with_tag 0 h)]> (hooks s)) s.
Proof.
  intros L Eh Ht. set (s1 := update_hook id (with_tag 0) s).
  assert (E1 : hooks s1 !! id = Some (with_tag 0 h)) by (unfold s1; cbn; by rewrite lookup_alter_eq, Eh).
  assert (L1 : linked s1) by (apply (linked_same s); [done|done|unfold s1; cbn; by rewrite dom_alter_L|done]).
  destruct (poxchat_unhook_cases id s1) as [[_ Hn]|(h1 & _ & Eh1 & _ & ->)].
  - destruct (Hn L1) as [Ha|Ha]; [|by rewrite E1 in Ha]. unfold alive, is_deleted in Ha. rewrite E1 in Ha.
    apply negb_false_iff, Z.eqb_eq in Ha. by destruct Ht.
  - rewrite E1 in Eh1. injection Eh1 as <-. unfold killed, set_hooks. cbn [hook_list plugin_list plugins next_addr sources calls snd].
    assert (Hs : has_source (with_tag 0 h) = false) by (unfold has_source; cbn; by rewrite andb_false_r).
    rewrite Hs. unfold s1. cbn. f_equal. apply map_eq. intros i. destruct (decide (i = id)) as [->|Hne].
    + by rewrite !lookup_insert_eq.
    + by rewrite !lookup_insert_ne, lookup_alter_ne by auto.
Qed.

Definition marked (id : nat) (h : hook) (s : state) : state :=
  set_hooks (hook_list s) (<[id := dead (with_tag 0 h)]> (hooks s)) s.

Lemma linked_marked id h s : linked s -> hooks s !! id = Some h -> linked (marked id h s).
Proof. intros L E. apply (linked_same s); [done|done| |done]. cbn. rewrite dom_insert_lookup_L; eauto. Qed.

Lemma linked_destroyed x s : linked s -> linked (source_destroyed x s).
Proof. intros L. by apply (linked_same s). Qed.

(** What a step is, but for the calls in it. *)
Lemma step_cases s s' :
  step s s' -> linked s ->
  exists s1, linked s1 /\ aged s s1 /\
    (forall Q, PreOrder Q -> kept new_source any_op (linked_rel Q) -> (forall a b, same_hooks a b -> Q a b) -> Q s s1) /\
    (s' = s1 \/ exists x, x ∈ sources s /\
       (s' = source_destroyed x s1 /\ (forall h, hooks s1 !! src_hook x = Some h -> h_type h = HOOK_DELETED) \/
        exists h, hooks s1 !! src_hook x = Some h /\ h_type h <> HOOK_DELETED /\
          s' = source_destroyed x (marked (src_hook x) h s1))).
Proof.
  intros [n p s0 r s0' E|n sess cond x s0 r s0' Hx E] L.
  - destruct (exec_rel aged n p s0 r s0' (aged_kept new_source) L E) as [L' A].
    exists s0'. split; [done|]. split; [done|]. split; [|by left]. intros Q PQ K _. by apply (exec_rel Q n p s0 r s0' K L E).
  - apply dispatch_cases in E as (s1 & p & ret & s2 & Hs & E & C).
    assert (L1 : linked s1) by (by apply (linked_same_hooks s0)).
    destruct (exec_rel aged n p s1 ret s2 (aged_kept new_source) L1 E) as [L2 A].
    exists s2. split; [done|]. split.
    { transitivity s1; [|done]. destruct Hs as (_ & Em & _ & Hn). split; [done|]. rewrite Em. eauto. }
    split; [intros Q PQ K Hq; transitivity s1; [by apply Hq|by apply (exec_rel Q n p s1 ret s2 K L1 E)]|].
    destruct C as [[Hu ->]|[(Hu & -> & ->)|(Hu & Hr & ->)]]; [| |by left].
    + right. exists x. split; [done|]. left. split; [done|]. intros h Eh. exact (unhooked_true _ s2 h L2 Hu Eh).
    + right. exists x. split; [done|]. right. destruct (unhooked_false _ s2 L2 Hu) as (h & Eh & Ht).
      exists h. split; [done|]. split; [done|]. by rewrite (unhook_cleared _ s2 h L2 Eh Ht).
Qed.

Lemma step_linked s s' : step s s' -> linked s -> linked s'.
Proof.
  intros S L. destruct (step_cases s s' S L) as (s1 & L1 & _ & _ & [->|(x & _ & [[-> _]|(h & Eh & _ & ->)])]); [done| |].
  - by apply linked_destroyed.
  - by apply linked_destroyed, linked_marked.
Qed.

Lemma boot_linked : linked boot.
Proof. split; [constructor|intros id; cbn; rewrite lookup_empty, elem_of_nil; split; [done|by intros []]|intros id; cbn; rewrite lookup_empty; by intros []]. Qed.

Lemma reachable_linked s : reachable s -> linked s.
Proof. unfold reachable. intros R. pose proof boot_linked as L. induction R; eauto using step_linked. Qed.

Lemma dispatch_listed n sess condition x s r s' :
  dispatch code new_source n sess condition x s = Done r s' -> keeps_listed s s'.
Proof.
  assert (U : forall l cb ud c, uses any_op (code l cb ud c)) by (intros; apply uses_any).
  unfold dispatch. intros (r1 & s2 & E & Er)%and_then_Done.
  transitivity s2; [|injection Er as <- <-; destruct (r1 =? 0); by apply same_listed].
  assert (After : forall s0 p, keeps_listed s s0 -> and_then (exec code new_source n p s0) (after_source (src_hook x)) = Done r1 s2 -> keeps_listed s s2).
  { intros s0 p H0 (ret & s1 & Ex & Ea)%and_then_Done. transitivity s0; [done|]. transitivity s1.
    - exact (exec_keeps code new_source any_op _ (listed_kept new_source) U n p s0 ret s1 (uses_any p) Ex).
    - unfold after_source in Ea. destruct (unhooked _ _); [by injection Ea as <- <-|].
      destruct (ret =? 0); injection Ea as <- <-; [|done]. transitivity (update_hook (src_hook x) (with_tag 0) s1); [by apply same_listed|].
      exact (kept_unhook _ _ _ (listed_kept new_source) (OUnhook (src_hook x)) (src_hook x) _ I eq_refl). }
  destruct (src_input x); [unfold plugin_fd_cb in E|unfold plugin_timeout_cb in E];
    destruct (hooks s !! src_hook x) as [h|]; try done; cbn in E.
  - eapply After; [|exact E]. by apply same_listed.
  - destruct (set_context (h_pl h) sess s) as [s0|] eqn:Ec; [|done]. cbn in E. eapply After; [|exact E].
    transitivity s0; [by eapply set_context_listed|by apply same_listed].
Qed.

Lemma reachable_listed s : reachable s -> listed s.
Proof.
  assert (U : forall l cb ud c, uses any_op (code l cb ud c)) by (intros; apply uses_any).
  assert (B : listed boot) by (split; [constructor|intros pl; cbn; rewrite lookup_empty, elem_of_nil; split; [done|by intros []]|by intros pl Hpl%elem_of_nil]).
  unfold reachable. intros R. revert B. induction R as [|s s1 s2 S R IH]; intros B; [done|]. apply IH. destruct S as [n p s r s' E|n sess cond x s r s' Hx E].
  - exact (exec_keeps code new_source any_op _ (listed_kept new_source) U n p s r s' (uses_any p) E B).
  - by eapply dispatch_listed.
Qed.

Lemma step_order mask s s' : ordered_mask mask -> step s s' -> linked s -> in_order mask s -> in_order mask s'.
Proof.
  intros M S L O. destruct (step_cases s s' S L) as (s1 & _ & _ & HQ & C).
  assert (O1 : in_order mask s1).
  { apply (HQ (keeps_order mask)); [apply _|by apply order_kept| |done].
    intros a b (El & Em & _). unfold keeps_order, in_order. by rewrite El, Em. }
  destruct C as [->|(x & _ & [[-> _]|(h & Eh & _ & ->)])]; [done..|].
  by apply (order_killed mask M s1 _ (src_hook x) (dead (with_tag 0 h))).
Qed.

(** C29.  Whatever plugins are loaded and whatever their callbacks do, nested
    events and unloaded plugins included: in every state that is reached the hooks of
    commands, those of print events and the timers are in the order of their
    priorities, the newer of two equal ones first. *)
Theorem hooks_stay_in_order s mask : reachable s -> ordered_mask mask -> in_order mask s.
Proof.
  intros R M. pose proof boot_linked as L. unfold reachable in R.
  assert (O : in_order mask boot) by constructor.
  induction R; eauto using step_order, step_linked.
Qed.

Lemma step_sources s s' : fresh_tags new_source -> step s s' -> linked s -> sourced s -> sourced s'.
Proof.
  intros F S L So. destruct (step_cases s s' S L) as (s1 & L1 & A & HQ & C).
  assert (S1 : sourced s1).
  { apply (HQ keeps_sources); [apply _|by apply sources_kept| |done].
    intros a b (_ & Em & Es & _) [N I]. split; [by rewrite Es|]. intros x. by rewrite Es, Em. }
  destruct C as [->|(x & Hx & C)]; [done|]. destruct S1 as [N I].
  destruct C as [[-> Hd]|(h & Eh & Ht & ->)].
  - assert (E : sources (source_destroyed x s1) = sources s1).
    { cbn. apply list_filter_all. intros y Hy. apply negb_true_iff, andb_false_iff. right. apply Nat.eqb_neq. intros Ey.
      apply I in Hy as (hy & Ehy & Hs & _). rewrite Ey in Ehy. apply Hd in Ehy.
      apply has_source_kind in Hs as [_ [Hs|Hs]]; by rewrite Hs in Ehy. }
    split; [by rewrite E|]. intros y. rewrite E. apply I.
  - pose proof So as [_ I0]. apply I0 in Hx as Hx0. destruct Hx0 as (h0 & E0 & Hs0 & Ex).
    destruct A as [_ A]. destruct (A (src_hook x) h) as (h0' & E0' & C); [by apply (linked_addr s L); eauto|done|].
    rewrite E0 in E0'. injection E0' as <-. destruct C as [->|C]; [|done].
    assert (Hx1 : x ∈ sources s1) by (apply I; eauto).
    assert (E : sources (source_destroyed x s1) = List.filter (fun y => negb (src_tag y =? h_tag h0)) (sources s1)).
    { cbn. apply List.filter_ext_in. intros y Hy%list_elem_of_In. rewrite Ex at 1. cbn [src_tag source_of].
      destruct (Z.eqb_spec (src_tag y) (h_tag h0)) as [Ey|]; [|done].
      rewrite (same_tag _ y x N Hy Hx1) by (by rewrite Ex). by rewrite Nat.eqb_refl. }
    destruct (sourced_dead s1 (src_hook x) h0 (dead (with_tag 0 h0)) _ (Sourced _ N I) Eh eq_refl eq_refl) as [N' I'].
    rewrite Hs0, <- E in N', I'. by split.
Qed.

Lemma reachable_sourced s : fresh_tags new_source -> reachable s -> sourced s.
Proof.
  intros F R. unfold reachable in R. pose proof boot_linked as L.
  assert (S : sourced boot).
  { split; [constructor|]. intros x. cbn. rewrite elem_of_nil. split; [done|]. intros (h & Eh & _). by rewrite lookup_empty in Eh. }
  revert S. induction R; eauto using step_sources, step_linked.
Qed.
End reachable.
