(* ===== verification/HooksWalk.v ===== *)
(** * Hooks: an event goes over a snapshot

    The specification of an event: the hooks that fit it when it begins are called
    in their order, those that are gone by then left out; a hook that is removed is
    gone at once.  The code keeps removed hooks in the list until the end of a run
    and walks the list itself; where it uses no freed memory it does the same. *)
From S2P Require Import Prelude Glib Casemap Text Hooks HooksSpec.

(** ** The specification *)

Section spec.
Context `{GLib} (code : list event -> nat -> nat -> call -> prog) (new_source : list Z -> Z).

Definition name_fits (e : emission) (h : hook) : bool :=
  match h_name h with
  | Some hname =>
      (g_ascii_strcasecmp hname (em_name e) =? 0) ||
      (is_kind (em_type e) HOOK_SERVER && (g_ascii_strcasecmp hname "RAW LINE" =? 0))
  | None => false
  end.

Definition matches (e : emission) (s : state) (id : nat) : bool :=
  match hooks s !! id with Some h => is_kind (h_type h) (em_type e) && name_fits e h | None => false end.

Definition snapshot (e : emission) (s : state) : list nat := List.filter (matches e s) (hook_list s).

Definition remove_hook (id : nat) (s : state) : option nat * state :=
  match hooks s !! id with
  | Some h => (Some (h_userdata h),
      State (List.filter (fun x => negb (Nat.eqb x id)) (hook_list s)) (delete id (hooks s)) (plugin_list s) (plugins s) (next_addr s)
        (if has_source h then List.filter (fun x => negb (src_tag x =? h_tag h)) (sources s) else sources s) (calls s))
  | None => (None, s)
  end.

Definition remove_if (pl : nat) (s : state) (id : nat) : state :=
  match hooks s !! id with
  | Some h => if Nat.eqb (h_pl h) pl then (remove_hook id s).2 else s
  | None => s
  end.

Definition spec_free_end (pl : nat) (s : state) : result bool :=
  if bool_decide (is_Some (plugins s !! pl)) then Done true (free_plugin pl (foldl (remove_if pl) s (hook_list s))) else Undefined.

(** The first of the snapshot that is still there, and those behind it. *)
Fixpoint first_left (s : state) (l : list nat) : option (nat * list nat) :=
  match l with
  | [] => None
  | id :: l => match hooks s !! id with Some _ => Some (id, l) | None => first_left s l end
  end.

Definition take_next (e : emission) (rest : list nat) (s : state) : option (option (list nat * prog * state)) :=
  match first_left s rest with
  | None => Some None
  | Some (id, rest) =>
      h ← hooks s !! id;
      s ← set_context (h_pl h) (em_sess e) s;
      Some (Some (rest, code (calls s) (h_callback h) (h_userdata h) (call_hook h e), note id (call_hook h e) s))
  end.

Section run.
Context (run : prog -> state -> result Z).

Fixpoint deliver (n : nat) (e : emission) (rest : list nat) (eat : bool) (s : state) : result bool :=
  match n with
  | O => NoFuel
  | S n =>
      match take_next e rest s with
      | None => Undefined
      | Some None => Done eat s
      | Some (Some (rest, p, s)) => and_then (run p s) (fun ret s =>
          if is_kind ret EAT_POXCHAT && is_kind ret EAT_PLUGIN then Done true s
          else if is_kind ret EAT_PLUGIN then Done eat s
          else deliver n e rest (if is_kind ret EAT_POXCHAT then true else eat) s)
      end
  end.

Definition spec_free (pl : nat) (do_deinit allow_refuse : bool) (s : state) : result bool :=
  match plugins s !! pl with
  | None => Undefined
  | Some p =>
      if p_fake p then Done true (free_plugin pl s)
      else match (if do_deinit then p_deinit p else None) with
      | Some deinit => and_then (run (code (calls s) deinit O Deinit_cb) (note pl Deinit_cb s)) (fun r s =>
          if (r =? 0) && allow_refuse then Done false s else spec_free_end pl s)
      | None => spec_free_end pl s
      end
  end.

Definition spec_kill (name : cstr) (by_filename : bool) (s : state) : result Z :=
  match find_plugin name by_filename s with
  | Some pl => and_then (spec_free pl true true s) (fun b s => Done (if b then 1 else 2) s)
  | None => Done 0 s
  end.

Definition spec_add (sess : nat) (filename : option cstr) (name : cstr) (init : nat) (deinit : option nat) (fake : bool)
    (s : state) : result bool :=
  let '(pl, s) := plugin_list_add sess filename name deinit fake s in
  if fake then Done true s
  else and_then (run (code (calls s) init pl Init_cb) (note pl Init_cb s)) (fun r s =>
    if r =? 0 then spec_free pl false false s else Done true s).
End run.

Fixpoint spec_exec (n : nat) (p : prog) (s : state) {struct n} : result Z :=
  match n with
  | O => NoFuel
  | S n =>
      match p with
      | Return r => Done r s
      | Do o k =>
          match o with
          | OHook f pl pri name help_text callb userdata =>
              let '(id, s) := poxchat_hook new_source f pl pri name help_text callb userdata s in spec_exec n (k (AHook id)) s
          | OHookFd pl fd callb userdata =>
              let '(id, s) := poxchat_hook_fd new_source pl fd callb userdata s in spec_exec n (k (AHook id)) s
          | OUnhook id => let '(u, s) := remove_hook id s in spec_exec n (k (AData u)) s
          | OEmit e => and_then (deliver (spec_exec n) n e (snapshot e s) false s) (fun eat s => spec_exec n (k (ARet (Z.b2z eat))) s)
          | OKill name by_filename => and_then (spec_kill (spec_exec n) name by_filename s) (fun r s => spec_exec n (k (ARet r)) s)
          | OLoad sess filename name init deinit fake =>
              and_then (spec_add (spec_exec n) sess filename name init deinit fake s) (fun _ s => spec_exec n (k (ARet 0)) s)
          end
      end
  end.
End spec.

(** ** Nodes *)

Lemma nodes_from_suffix c l t : nodes_from c l = Some t -> exists l1, l = l1 ++ t /\ exists t', t = c :: t'.
Proof.
  induction l as [|x l IH]; [done|]. cbn. destruct (Nat.eqb_spec x c) as [->|Hne].
  - intros [= <-]. exists []. eauto.
  - intros (l1 & -> & Ht)%IH. exists (x :: l1). auto.
Qed.

Lemma nodes_from_app c l1 t : NoDup (l1 ++ c :: t) -> nodes_from c (l1 ++ c :: t) = Some (c :: t).
Proof.
  induction l1 as [|x l1 IH]; cbn; [by rewrite Nat.eqb_refl|]. intros [Hx N]%NoDup_cons.
  destruct (Nat.eqb_spec x c) as [->|_]; [|by apply IH]. destruct Hx. apply elem_of_app. right. apply list_elem_of_here.
Qed.

Lemma nodes_from_filter (f : nat -> bool) c l t :
  f c = true -> nodes_from c l = Some t -> nodes_from c (List.filter f l) = Some (List.filter f t).
Proof.
  intros Hf. induction l as [|x l IH]; [done|]. cbn. destruct (Nat.eqb_spec x c) as [->|Hne].
  - intros [= <-]. cbn. rewrite Hf. cbn. by rewrite Nat.eqb_refl.
  - intros Ht. destruct (f x); [cbn; destruct (Nat.eqb_spec x c); [done|]|]; by apply IH.
Qed.

Lemma filter_absorb {A} (f g : A -> bool) l :
  (forall x, x ∈ l -> f x = true -> g x = true) -> List.filter f (List.filter g l) = List.filter f l.
Proof.
  intros Hfg. rewrite filter_twice. apply List.filter_ext_in. intros x Hx%list_elem_of_In.
  destruct (f x) eqn:E; [by rewrite Hfg|by rewrite andb_false_r].
Qed.

Section find.
Context `{GLib}.

Lemma plugin_hook_find_spec s e l r :
  plugin_hook_find s l (em_type e) (em_name e) = Some r ->
  List.filter (matches e s) l = List.filter (matches e s) r /\
  match r with
  | [] => True
  | id :: _ => (exists l1, l = l1 ++ r) /\ matches e s id = true
  end.
Proof.
  revert r. induction l as [|id l IH]; intros r; cbn [plugin_hook_find]; [by intros [= <-]|].
  destruct (hooks s !! id) as [h|] eqn:Eh; [|done]. cbn [mbind option_bind].
  assert (Skip : forall r, matches e s id = false -> plugin_hook_find s l (em_type e) (em_name e) = Some r ->
    List.filter (matches e s) (id :: l) = List.filter (matches e s) r /\
    match r with [] => True | id' :: _ => (exists l1, id :: l = l1 ++ r) /\ matches e s id' = true end).
  { clear r. intros r Hm [E C]%IH. cbn. rewrite Hm. split; [done|]. destruct r as [|id' r]; [done|].
    destruct C as [[l1 ->] C]. split; [by exists (id :: l1)|done]. }
  destruct (is_kind (h_type h) (em_type e)) eqn:Ek.
  2:{ apply Skip. unfold matches. by rewrite Eh, Ek. }
  destruct (h_name h) as [hname|] eqn:En; [|done]. cbn [mbind option_bind].
  assert (Em : matches e s id = (g_ascii_strcasecmp hname (em_name e) =? 0) ||
      (is_kind (em_type e) HOOK_SERVER && (g_ascii_strcasecmp hname "RAW LINE" =? 0))).
  { unfold matches, name_fits. by rewrite Eh, Ek, En. }
  rewrite <- Em. destruct (matches e s id) eqn:Hm; [|by apply Skip].
  intros [= <-]. split; [done|]. split; [by exists []|done].
Qed.

(** A hook an event is for is not a timer, an input or deleted. *)
Lemma em_type_kinds e :
  is_kind HOOK_TIMER (em_type e) = false /\ is_kind HOOK_FD (em_type e) = false /\ is_kind HOOK_DELETED (em_type e) = false.
Proof. unfold em_type. by destruct (em_fn e). Qed.

Lemma matches_alive e s id : matches e s id = true -> exists h, hooks s !! id = Some h /\ h_type h <> HOOK_DELETED.
Proof.
  unfold matches. destruct (hooks s !! id) as [h|]; [|done]. intros [Ek _]%andb_prop. exists h. split; [done|].
  intros Et. rewrite Et in Ek. by destruct (em_type_kinds e) as (_ & _ & Ed); rewrite Ed in Ek.
Qed.

Lemma matches_live e s id : matches e (live s) id = matches e s id.
Proof.
  destruct (alive s id) eqn:Ea.
  - unfold matches. by rewrite live_alive.
  - destruct (matches e s id) eqn:Em.
    + apply matches_alive in Em as (h & Eh & Et). apply (alive_spec s id h Eh) in Et. by rewrite Et in Ea.
    + unfold matches. destruct (hooks (live s) !! id) as [h|] eqn:Eh; [|done].
      apply live_lookup in Eh as [Eh Et]. apply (alive_spec s id h Eh) in Et. by rewrite Et in Ea.
Qed.

Lemma snapshot_live e s : snapshot e (live s) = List.filter (matches e s) (hook_list s).
Proof.
  unfold snapshot. cbn [live set_hooks hook_list]. rewrite (List.filter_ext _ _ (matches_live e s)).
  apply filter_absorb. intros x _ (h & Eh & Et)%matches_alive. by apply (alive_spec s x h Eh).
Qed.
End find.

(** ** While an event runs, its hooks only become fewer *)

(** Callbacks may hook timers and inputs; a new hook for the events that run would
    be inserted behind or before the place the loop has come to. *)
Definition timers_only (o : op) : Prop :=
  match o with OHook f _ _ _ _ _ _ => f = Hook_timer | _ => True end.

Record evolves (s s' : state) : Prop := Evolves {
  evolves_aged : aged s s';
  evolves_new id h : (next_addr s <= id)%nat -> hooks s' !! id = Some h ->
    h_type h = HOOK_TIMER \/ h_type h = HOOK_FD \/ h_type h = HOOK_DELETED;
  evolves_list : List.filter (fun id => Nat.ltb id (next_addr s)) (hook_list s') =
    List.filter (fun id => bool_decide (id ∈ hook_list s')) (hook_list s) }.

Lemma evolves_same s s' : linked s -> same_hooks s s' -> evolves s s'.
Proof.
  intros L (El & Em & _ & Hn). split.
  - split; [done|]. rewrite Em. eauto.
  - intros id h Hid. rewrite Em. intros Eh. assert (Hs : is_Some (hooks s !! id)) by eauto.
    apply (linked_addr s L) in Hs. lia.
  - rewrite El, !list_filter_all; [done| |]; intros x Hx; [by apply bool_decide_eq_true|].
    apply Nat.ltb_lt. by apply linked_old.
Qed.

Lemma evolves_trans s1 s2 s3 : linked s1 -> linked s2 -> linked s3 -> evolves s1 s2 -> evolves s2 s3 -> evolves s1 s3.
Proof.
  intros L1 L2 L3 [A1 N1 E1] [A2 N2 E2]. split.
  - by transitivity s2.
  - intros id h Hid Eh. destruct (decide (id < next_addr s2)%nat) as [Hlt|Hge]; [|apply (N2 id); [lia|done]].
    destruct A2 as [_ A2]. destruct (A2 id h Hlt Eh) as (h2 & Eh2 & [->|C]); [by apply (N1 id)|by right; right].
  - pose proof A1 as [H1 _]. pose proof A2 as [H2 A2'].
    transitivity (List.filter (fun id => Nat.ltb id (next_addr s1)) (List.filter (fun id => bool_decide (id ∈ hook_list s3)) (hook_list s2))).
    + rewrite <- E2. symmetry. apply filter_absorb. intros x _ Hx%Nat.ltb_lt. apply Nat.ltb_lt. lia.
    + rewrite filter_twice.
      rewrite (List.filter_ext _ (fun x => Nat.ltb x (next_addr s1) && bool_decide (x ∈ hook_list s3)) ltac:(intros; apply andb_comm)).
      rewrite <- filter_twice, E1. apply filter_absorb. intros x Hx Hx3%bool_decide_eq_true. apply bool_decide_eq_true.
      apply (linked_dom s3 L3) in Hx3 as [h3 Eh3]. apply (linked_old s1 x L1) in Hx.
      destruct (A2' x h3 ltac:(lia) Eh3) as (h2 & Eh2 & _). apply (linked_dom s2 L2). eauto.
Qed.

Lemma evolves_kept new_source : kept new_source timers_only (linked_rel evolves).
Proof.
  apply kept_linked; [exact evolves_same| | |].
  - intros s o pri h srcs L Po A.
    assert (Et : h_type h = HOOK_TIMER \/ h_type h = HOOK_FD).
    { destruct o as [f ? ? ? ? ? ?|? ? ? ?| | | |]; try done; [cbn in Po; subst f|]; cbn in A; destruct A as [E _]; auto. }
    split.
    + split; [cbn; lia|]. intros id h' Hid. cbn. rewrite lookup_insert_ne by lia. eauto.
    + intros id h' Hid. cbn. destruct (decide (id = next_addr s)) as [->|Hne].
      * rewrite lookup_insert_eq. intros [= <-]. tauto.
      * rewrite lookup_insert_ne by auto. intros Eh. assert (Hs : is_Some (hooks s !! id)) by eauto.
        apply (linked_addr s L) in Hs. lia.
    + cbn [added hook_list]. rewrite insert_before_other by (apply Nat.ltb_ge; lia).
      rewrite !list_filter_all; [done| |]; intros x Hx.
      * apply bool_decide_eq_true. rewrite insert_before_perm. by apply list_elem_of_further.
      * apply Nat.ltb_lt. by apply linked_old.
  - intros s o id h L _ _ Eh _. split.
    + split; [done|]. intros id' h' _. cbn.
      destruct (decide (id' = id)) as [->|Hne]; [rewrite lookup_insert_eq; intros [= <-]; exists h; auto|].
      rewrite lookup_insert_ne by auto. eauto.
    + intros id' h' Hid. cbn. destruct (decide (id' = id)) as [->|Hne]; [rewrite lookup_insert_eq; intros [= <-]; auto|].
      rewrite lookup_insert_ne by auto. intros E. assert (Hs : is_Some (hooks s !! id')) by eauto.
      apply (linked_addr s L) in Hs. lia.
    + cbn [killed hook_list]. rewrite !list_filter_all; [done| |]; intros x Hx; [by apply bool_decide_eq_true|].
      apply Nat.ltb_lt. by apply linked_old.
  - intros s L. split.
    + split; [done|]. intros id h' _ [E _]%live_lookup. eauto.
    + intros id h' Hid [E _]%live_lookup. assert (Hs : is_Some (hooks s !! id)) by eauto.
      apply (linked_addr s L) in Hs. cbn in Hid. lia.
    + cbn [live set_hooks hook_list]. rewrite list_filter_all.
      * apply List.filter_ext_in. intros x Hx%list_elem_of_In. symmetry. destruct (alive s x) eqn:Ea.
        -- apply bool_decide_eq_true, list_elem_of_In, List.filter_In. by rewrite <- list_elem_of_In.
        -- apply bool_decide_eq_false. intros [_ Hx']%list_elem_of_In%List.filter_In. by rewrite Hx' in Ea.
      * intros x [Hx _]%list_elem_of_In%List.filter_In. apply Nat.ltb_lt, (linked_old s x L). by apply list_elem_of_In.
Qed.

#[export] Instance evolves_preorder : PreOrder (linked_rel evolves).
Proof. apply linked_rel_preorder_when; [|exact evolves_trans]. intros s L. by apply evolves_same. Qed.

(** ** Where the loop is and what is left of the snapshot *)

Section waiting.
Context `{GLib}.

Record waiting (e : emission) (s : state) (cur : option nat) (rest : list nat) : Prop := Waiting {
  waiting_old : Forall (fun id => (id < next_addr s)%nat /\ (alive s id = true -> is_Some (hooks s !! id) -> matches e s id = true)) rest;
  waiting_nodes l : nodes cur s = Some l -> List.filter (matches e s) l = List.filter (matches e s) rest }.

Lemma waiting_start e s : linked s -> waiting e s (head (hook_list s)) (snapshot e (live s)).
Proof.
  intros L. rewrite snapshot_live. split.
  - apply Forall_forall. intros x [Hx Em]%list_elem_of_In%List.filter_In. split; [|done].
    apply (linked_old s x L). by apply list_elem_of_In.
  - intros l El. rewrite filter_absorb by done. f_equal. destruct (hook_list s) as [|x t] eqn:E; [by injection El as <-|].
    cbn in El. rewrite E in El. cbn in El. rewrite Nat.eqb_refl in El. by injection El as <-.
Qed.

Lemma matches_back e s s' id : evolves s s' -> (id < next_addr s)%nat -> matches e s' id = true -> matches e s id = true.
Proof.
  intros [[_ A] _ _] Hid Hm. destruct (matches_alive e s' id Hm) as (h' & Eh' & Et).
  destruct (A id h' Hid Eh') as (h & Eh & [->|C]); [|done]. revert Hm. unfold matches. by rewrite Eh, Eh'.
Qed.

Lemma matches_old e s s' id : evolves s s' -> matches e s' id = true -> (id < next_addr s)%nat.
Proof.
  intros [_ N _] Hm. destruct (decide (id < next_addr s)%nat) as [|Hge]; [done|]. exfalso.
  unfold matches in Hm. destruct (hooks s' !! id) as [h|] eqn:Eh; [|done]. apply andb_prop in Hm as [Ek _].
  destruct (em_type_kinds e) as (E1 & E2 & E3).
  destruct (N id h ltac:(lia) Eh) as [E|[E|E]]; by rewrite E, ?E1, ?E2, ?E3 in Ek.
Qed.

Lemma nodes_evolve e s s' c t l' :
  linked s -> linked s' -> evolves s s' -> nodes_from c (hook_list s) = Some t -> nodes_from c (hook_list s') = Some l' ->
  List.filter (matches e s') l' = List.filter (matches e s') t.
Proof.
  intros L L' E Et El. pose proof (nodes_from_suffix _ _ _ Et) as (t1 & Els & t' & Ect).
  pose proof (nodes_from_suffix _ _ _ El) as (l1 & Els' & l1' & Ecl).
  assert (Hc : c ∈ hook_list s) by (rewrite Els, Ect; apply elem_of_app; right; apply list_elem_of_here).
  assert (Hc' : c ∈ hook_list s') by (rewrite Els', Ecl; apply elem_of_app; right; apply list_elem_of_here).
  pose proof (linked_old s c L Hc) as Hold.
  apply (nodes_from_filter (fun id => Nat.ltb id (next_addr s))) in El; [|by apply Nat.ltb_lt].
  apply (nodes_from_filter (fun id => bool_decide (id ∈ hook_list s'))) in Et; [|by apply bool_decide_eq_true].
  rewrite (evolves_list s s' E), Et in El. injection El as El.
  rewrite <- (filter_absorb (matches e s') (fun id => Nat.ltb id (next_addr s)) l'), <- El.
  - apply filter_absorb. intros x _ Hx. apply bool_decide_eq_true, (linked_dom s' L').
    apply matches_alive in Hx as (h & Eh & _). eauto.
  - intros x _ Hx. apply Nat.ltb_lt. by apply (matches_old e s s').
Qed.

(** After a callback. *)
Lemma waiting_next e s s' id t rest :
  linked s -> linked s' -> evolves s s' ->
  (exists l1, hook_list s = l1 ++ id :: t) ->
  Forall (fun id => (id < next_addr s)%nat /\ (alive s id = true -> is_Some (hooks s !! id) -> matches e s id = true)) rest ->
  List.filter (matches e s) t = List.filter (matches e s) rest ->
  waiting e s' (head t) rest.
Proof.
  intros L L' E [l1 El] Ho Ef. assert (Ho' := Ho). rewrite Forall_forall in Ho.
  assert (Old : forall x, x ∈ rest -> (x < next_addr s)%nat) by (intros x Hx; by apply Ho).
  assert (Ef' : List.filter (matches e s') t = List.filter (matches e s') rest).
  { transitivity (List.filter (matches e s') (List.filter (matches e s) t)).
    - symmetry. apply filter_absorb. intros x _ Hx. apply (matches_back e s s' x E); [by apply (matches_old e s s')|done].
    - rewrite Ef. apply filter_absorb. intros x Hx. apply (matches_back e s s' x E). by apply Old. }
  split.
  - apply Forall_forall. intros x Hx. pose proof (Old x Hx) as Hlt. pose proof (evolves_aged s s' E) as [Hn A].
    split; [lia|]. intros Ha [h' Eh']. pose proof (proj1 (alive_spec s' x h' Eh') Ha) as Et.
    destruct (A x h' Hlt Eh') as (h & Eh & [->|C]); [|done].
    destruct (Ho x Hx) as [_ Hm]. assert (Hm' : matches e s x = true).
    { apply Hm; [by apply (alive_spec s x h Eh)|eauto]. }
    revert Hm'. unfold matches. by rewrite Eh, Eh'.
  - intros l. destruct t as [|c t]; cbn [head nodes].
    + intros [= <-]. by rewrite <- Ef'.
    + intros Hl. rewrite <- Ef'. apply (nodes_evolve e s s' c); try done.
      replace (hook_list s) with ((l1 ++ [id]) ++ c :: t) by (rewrite El; by rewrite <- app_assoc).
      apply nodes_from_app. rewrite <- app_assoc. cbn. rewrite <- El. apply L.
Qed.
End waiting.

(** ** Every call does the same to the hooks that are left *)

Section commute.
Context `{GLib} (new_source : list Z -> Z).

Lemma state_eq a b :
  hook_list a = hook_list b -> (forall id, hooks a !! id = hooks b !! id) ->
  plugin_list a = plugin_list b -> plugins a = plugins b -> next_addr a = next_addr b -> sources a = sources b ->
  calls a = calls b -> a = b.
Proof. destruct a, b. cbn. intros -> E%map_eq -> -> -> -> ->. by rewrite E. Qed.

Lemma live_note who c s : live (note who c s) = note who c (live s).
Proof. reflexivity. Qed.

Lemma live_context pl sess s : set_context pl sess (live s) = live <$> set_context pl sess s.
Proof. unfold set_context. cbn [live set_hooks plugins]. by destruct (plugins s !! pl). Qed.

Lemma live_free pl s : live (free_plugin pl s) = free_plugin pl (live s).
Proof. reflexivity. Qed.

Lemma live_idem s : live (live s) = live s.
Proof.
  assert (E : forall id, hooks (live (live s)) !! id = hooks (live s) !! id).
  { intros id. apply option_eq. intros h. rewrite live_lookup, !live_lookup. tauto. }
  apply state_eq; try done. cbn [live set_hooks hook_list]. rewrite filter_twice.
  apply List.filter_ext. intros id. destruct (alive s id) eqn:Ea; [|done]. cbn.
  unfold alive, is_deleted. rewrite (live_alive s id Ea). exact Ea.
Qed.

Lemma live_added s o pri h srcs :
  linked s -> is_added new_source s o pri h srcs -> live (added s pri h srcs) = added (live s) pri h srcs.
Proof.
  intros L A. pose proof (linked_fresh s L) as Fr.
  assert (Et : h_type h <> HOOK_DELETED /\ is_kind HOOK_DELETED (new_hook_type (h_type h)) = false).
  { destruct o as [f ? ? ? ? ? ?|? ? ? ?| | | |]; try done; [destruct f|]; destruct A as [E _]; by rewrite E. }
  destruct Et as [Et Ek].
  assert (Hm : forall id, hooks (live (added s pri h srcs)) !! id = <[next_addr s := h]> (hooks (live s)) !! id).
  { intros id. apply option_eq. intros h'. rewrite live_lookup. cbn [added hooks].
    destruct (decide (id = next_addr s)) as [->|Hne]; [rewrite !lookup_insert_eq; naive_solver|].
    rewrite !lookup_insert_ne by auto. by rewrite live_lookup. }
  apply state_eq; try done. cbn [live set_hooks added hook_list].
  assert (Al : forall id, id ∈ hook_list s -> alive (added s pri h srcs) id = alive s id).
  { intros id Hid%(linked_old s id L). unfold alive, is_deleted. cbn. by rewrite lookup_insert_ne by lia. }
  rewrite (insert_before_filter _ _ (hooks (live s))).
  - f_equal. apply List.filter_ext_in. intros id Hid%list_elem_of_In. by apply Al.
  - apply (alive_spec _ _ h); [cbn; by rewrite lookup_insert_eq|done].
  - intros id Hid Ha. rewrite Al in Ha by done. by apply live_alive.
  - intros id h' Eh Ha. assert (Hid : id ∈ hook_list s) by (apply (linked_dom s L); eauto). rewrite Al in Ha by done.
    assert (Hd : h_type h' = HOOK_DELETED).
    { destruct (decide (h_type h' = HOOK_DELETED)) as [|Hn]; [done|]. apply (alive_spec s id h' Eh) in Hn. by rewrite Hn in Ha. }
    by rewrite Hd.
Qed.

Lemma live_hook f pl pri name help cb ud s : linked s ->
  poxchat_hook new_source f pl pri name help cb ud (live s) =
  let '(id, s') := poxchat_hook new_source f pl pri name help cb ud s in (id, live s').
Proof.
  intros L. destruct (poxchat_hook_added new_source f pl pri name help cb ud s) as (pri' & h & srcs & A & E).
  rewrite !E by done. f_equal. symmetry. by eapply live_added.
Qed.

Lemma live_hook_fd pl fd cb ud s : linked s ->
  poxchat_hook_fd new_source pl fd cb ud (live s) =
  let '(id, s') := poxchat_hook_fd new_source pl fd cb ud s in (id, live s').
Proof.
  intros L. destruct (poxchat_hook_fd_added new_source pl fd cb ud s) as (pri' & h & srcs & A & E).
  rewrite !E by done. f_equal. symmetry. by eapply live_added.
Qed.

Lemma live_unhook id s : linked s ->
  remove_hook id (live s) = let '(u, s') := poxchat_unhook id s in (u, live s').
Proof.
  intros L. unfold remove_hook. destruct (poxchat_unhook_cases id s) as [[-> Hn]|(h & Hin & Eh & Et & ->)].
  - assert (E : hooks (live s) !! id = None); [|by rewrite E].
    apply live_lookup_None. destruct (Hn L) as [Ha|]; [right|by left]. by apply negb_false_iff in Ha.
  - rewrite (proj2 (live_lookup s id h) (conj Eh Et)). f_equal.
    apply state_eq; try done.
    + cbn. rewrite filter_twice. apply List.filter_ext. intros x. unfold alive at 2, is_deleted. cbn.
      destruct (Nat.eqb_spec x id) as [->|Hne].
      * rewrite lookup_insert_eq. cbn. by rewrite andb_false_r.
      * rewrite lookup_insert_ne by auto. by rewrite andb_true_r.
    + intros x. cbn [hooks killed]. destruct (decide (x = id)) as [->|Hne].
      * rewrite lookup_delete_eq. symmetry. apply live_lookup_None. right. apply is_deleted_spec. exists (dead h).
        cbn. by rewrite lookup_insert_eq.
      * rewrite lookup_delete_ne by auto. apply option_eq. intros h'. rewrite !live_lookup.
        cbn. by rewrite lookup_insert_ne by auto.
Qed.

Lemma remove_if_absent pl s id : hooks s !! id = None -> remove_if pl s id = s.
Proof. intros E. unfold remove_if. by rewrite E. Qed.

Lemma remove_if_keeps_absent pl s id id' : hooks s !! id' = None -> hooks (remove_if pl s id) !! id' = None.
Proof.
  intros E. unfold remove_if, remove_hook. destruct (hooks s !! id) as [h|]; [|done]. destruct (Nat.eqb _ _); [|done].
  cbn. destruct (decide (id = id')) as [->|]; [apply lookup_delete_eq|by rewrite lookup_delete_ne].
Qed.

Lemma remove_all_filter pl (f : nat -> bool) l s :
  (forall id, id ∈ l -> f id = false -> hooks s !! id = None) ->
  foldl (remove_if pl) s (List.filter f l) = foldl (remove_if pl) s l.
Proof.
  revert s. induction l as [|id l IH]; intros s Hf; [done|]. cbn.
  assert (IH' : foldl (remove_if pl) (remove_if pl s id) (List.filter f l) = foldl (remove_if pl) (remove_if pl s id) l).
  { apply IH. intros x Hx E. apply remove_if_keeps_absent, Hf; [by apply list_elem_of_further|done]. }
  destruct (f id) eqn:E; [done|]. rewrite <- IH'. by rewrite remove_if_absent by (apply Hf; [apply list_elem_of_here|done]).
Qed.

Lemma live_unhook_all pl s : linked s ->
  foldl (remove_if pl) (live s) (hook_list (live s)) = live (unhook_all pl s) /\ linked (unhook_all pl s).
Proof.
  intros L. unfold live at 2. cbn [set_hooks hook_list]. rewrite remove_all_filter.
  2:{ intros id _ Ha. apply live_lookup_None. right. by apply negb_false_iff in Ha. }
  unfold unhook_all. generalize (hook_list s) as l. intros l. revert s L.
  induction l as [|id l IH]; intros s L; [done|]. cbn [foldl].
  set (s1 := match hooks s !! id with Some h => if Nat.eqb (h_pl h) pl then (poxchat_unhook id s).2 else s | None => s end).
  assert (L1 : linked s1 /\ remove_if pl (live s) id = live s1); [|by destruct L1 as [L1 ->]; apply IH].
  unfold s1. clear IH s1. split.
  - destruct (hooks s !! id) as [h|]; [|done]. destruct (Nat.eqb _ _); [|done].
    destruct (poxchat_unhook_cases id s) as [[-> _]|(h' & _ & Eh & _ & ->)]; [done|by apply linked_killed].
  - pose proof (live_unhook id s L) as Eu. unfold remove_if. destruct (hooks (live s) !! id) as [h|] eqn:El.
    + apply live_lookup in El as [El _]. rewrite El. destruct (Nat.eqb _ _); [|done].
      rewrite Eu. by destruct (poxchat_unhook id s).
    + unfold remove_hook in Eu. rewrite El in Eu. destruct (hooks s !! id) as [h|]; [|done].
      destruct (Nat.eqb _ _); [|done]. destruct (poxchat_unhook id s). exact (f_equal snd Eu).
Qed.
End commute.

(** ** The refinement *)

#[local] Arguments live : simpl never.
#[local] Arguments snapshot : simpl never.
#[local] Arguments spec_kill : simpl never.
#[local] Arguments spec_add : simpl never.

Section refinement.
Context `{GLib} (code : list event -> nat -> nat -> call -> prog) (new_source : list Z -> Z).
Context (U : forall l cb ud c, uses timers_only (code l cb ud c)).

Lemma exec_evolves n p s r s' :
  uses timers_only p -> linked s -> exec code new_source n p s = Done r s' -> linked s' /\ evolves s s'.
Proof.
  intros Up L E. exact (exec_keeps code new_source timers_only _ (evolves_kept new_source) U n p s r s' Up E L).
Qed.

Lemma first_left_live e s rest id rest0 :
  Forall (fun id => (id < next_addr s)%nat /\ (alive s id = true -> is_Some (hooks s !! id) -> matches e s id = true)) rest ->
  List.filter (matches e s) rest = id :: rest0 ->
  exists rest', first_left (live s) rest = Some (id, rest') /\ List.filter (matches e s) rest' = rest0 /\
    Forall (fun id => (id < next_addr s)%nat /\ (alive s id = true -> is_Some (hooks s !! id) -> matches e s id = true)) rest'.
Proof.
  induction 1 as [|x rest [Hx Hm] Hr IH]; [done|]. cbn [List.filter first_left]. destruct (matches e s x) eqn:Em.
  - intros [= <- <-]. destruct (matches_alive e s x Em) as (h & Eh & Et).
    rewrite (proj2 (live_lookup s x h) (conj Eh Et)). eauto.
  - intros Ef. destruct (hooks (live s) !! x) as [h|] eqn:El; [|by apply IH].
    apply live_lookup in El as [Eh Et]. discriminate Hm; [by apply (alive_spec s x h Eh)|eauto].
Qed.

Lemma first_left_none e s rest :
  Forall (fun id => (id < next_addr s)%nat /\ (alive s id = true -> is_Some (hooks s !! id) -> matches e s id = true)) rest ->
  List.filter (matches e s) rest = [] -> first_left (live s) rest = None.
Proof.
  induction 1 as [|x rest [Hx Hm] Hr IH]; [done|]. cbn [List.filter first_left]. destruct (matches e s x) eqn:Em; [done|].
  destruct (hooks (live s) !! x) as [h|] eqn:El; [|done].
  apply live_lookup in El as [Eh Et]. discriminate Hm; [by apply (alive_spec s x h Eh)|eauto].
Qed.

Lemma and_then_step {A B} (r : result A) (f : A -> state -> result B) a s : r = Done a s -> and_then r f = f a s.
Proof. by intros ->. Qed.

(** One round of the loop. *)
Lemma fetch_live e s cur rest r :
  linked s -> waiting e s cur rest -> fetch code e cur s = Some r ->
  match r with
  | None => take_next code e rest (live s) = Some None
  | Some (next, p, s1) => linked s1 /\ uses timers_only p /\ exists rest',
      take_next code e rest (live s) = Some (Some (rest', p, live s1)) /\
      forall s2, linked s2 -> evolves s1 s2 -> waiting e s2 next rest'
  end.
Proof.
  intros L [Wo Wn]. unfold fetch. destruct (nodes cur s) as [l|] eqn:En; [|done]. cbn.
  destruct (plugin_hook_find s l (em_type e) (em_name e)) as [found|] eqn:Ef; [|done]. cbn.
  apply plugin_hook_find_spec in Ef as [Efl C]. specialize (Wn l eq_refl). rewrite Efl in Wn.
  destruct found as [|id t].
  { intros [= <-]. unfold take_next. by rewrite (first_left_none e). }
  destruct C as [[l1 El] Em]. destruct (hooks s !! id) as [h|] eqn:Eh; [|done]. cbn.
  destruct (set_context (h_pl h) (em_sess e) s) as [s1|] eqn:Ec; [|done]. cbn. intros [= <-].
  assert (Sh : same_hooks s (note id (call_hook h e) s1)).
  { unfold set_context in Ec. destruct (plugins s !! h_pl h); [|done]. injection Ec as <-. by repeat split. }
  assert (L1 : linked (note id (call_hook h e) s1)) by by apply (linked_same_hooks s).
  split; [done|]. split; [apply U|]. cbn in Wn. rewrite Em in Wn. symmetry in Wn.
  destruct (first_left_live e s rest id _ Wo Wn) as (rest' & Efl' & Er & Wo'). exists rest'.
  destruct (matches_alive e s id Em) as (h' & Eh' & Et). rewrite Eh in Eh'. injection Eh' as <-. split.
  - unfold take_next. rewrite Efl'. rewrite (proj2 (live_lookup s id h) (conj Eh Et)). cbn.
    rewrite live_context, Ec. cbn. done.
  - intros s2 L2 E2. assert (E02 : evolves s s2) by (eapply (evolves_trans s _ s2); [..|exact E2]; by try apply evolves_same).
    apply (waiting_next e s s2 id t rest' L L2 E02); [|done|by rewrite Er].
    destruct cur as [c|]; cbn in En; [|injection En as <-; by destruct l1].
    apply nodes_from_suffix in En as (l0 & -> & _). exists (l0 ++ l1). by rewrite El, app_assoc.
Qed.

(** Given a program that does the same on what is left. *)
Section run.
Context (run run' : prog -> state -> result Z).
Context (Hrun : forall p s r s', uses timers_only p -> linked s -> run p s = Done r s' ->
  linked s' /\ evolves s s' /\ run' p (live s) = Done r (live s')).

Lemma loop_refines n e cur rest eat s r s' :
  linked s -> waiting e s cur rest -> plugin_hook_loop code run n e cur eat s = Done r s' ->
  linked s' /\ deliver code run' n e rest eat (live s) = Done r (live s').
Proof.
  revert cur rest eat s. induction n as [|n IH]; intros cur rest eat s L W E; [done|]. cbn in E |- *.
  destruct (fetch code e cur s) as [rf|] eqn:Ef; [|done]. pose proof (fetch_live e s cur rest rf L W Ef) as F.
  destruct rf as [[[next p] s1]|]; [|rewrite F; by injection E as <- <-].
  destruct F as (L1 & Up & rest' & -> & Wn). apply and_then_Done in E as (ret & s2 & Ex & Er).
  destruct (Hrun p s1 ret s2 Up L1 Ex) as (L2 & E2 & Ex'). rewrite (and_then_step _ _ _ _ Ex').
  destruct (_ && _); [by injection Er as <- <-|]. destruct (is_kind ret EAT_PLUGIN); [by injection Er as <- <-|].
  apply (IH next); [done|by apply Wn|done].
Qed.

Lemma free_end_refines pl s r s' :
  linked s -> plugin_free_end pl s = Done r s' -> linked s' /\ spec_free_end pl (live s) = Done r (live s').
Proof.
  intros L. unfold plugin_free_end, spec_free_end. change (plugins (live s)) with (plugins s).
  destruct (bool_decide _); [|done]. intros [= <- <-]. destruct (live_unhook_all pl s L) as [E L'].
  split; [by apply (linked_same (unhook_all pl s))|]. by rewrite live_free, <- E.
Qed.

Lemma free_refines pl d a s r s' :
  linked s -> plugin_free code run pl d a s = Done r s' -> linked s' /\ spec_free code run' pl d a (live s) = Done r (live s').
Proof.
  intros L. unfold plugin_free, spec_free. change (plugins (live s)) with (plugins s).
  destruct (plugins s !! pl) as [p|]; [|done].
  destruct (p_fake p); [intros [= <- <-]; split; [by apply (linked_same s)|done]|].
  destruct (if d then p_deinit p else None) as [deinit|]; [|by apply free_end_refines].
  intros (ret & s1 & Ex & Er)%and_then_Done.
  assert (Ln : linked (note pl Deinit_cb s)) by by apply (linked_same s).
  destruct (Hrun _ _ _ _ (U _ _ _ _) Ln Ex) as (L1 & _ & Ex'). rewrite live_note in Ex'.
  rewrite (and_then_step _ _ _ _ Ex'). destruct (_ && _); [by injection Er as <- <-|by apply free_end_refines].
Qed.

Lemma kill_refines name by_filename s r s' :
  linked s -> plugin_kill code run name by_filename s = Done r s' ->
  linked s' /\ spec_kill code run' name by_filename (live s) = Done r (live s').
Proof.
  intros L. unfold plugin_kill, spec_kill. change (find_plugin name by_filename (live s)) with (find_plugin name by_filename s).
  destruct (find_plugin name by_filename s) as [pl|]; [|by intros [= <- <-]].
  intros (b & s1 & Ef & Er)%and_then_Done. injection Er as <- <-.
  destruct (free_refines _ _ _ _ _ _ L Ef) as [L1 Ed]. by rewrite (and_then_step _ _ _ _ Ed).
Qed.

Lemma add_refines sess filename name init deinit fake s r s' :
  linked s -> plugin_add code run sess filename name init deinit fake s = Done r s' ->
  linked s' /\ spec_add code run' sess filename name init deinit fake (live s) = Done r (live s').
Proof.
  intros L. unfold plugin_add, spec_add.
  assert (Ea : plugin_list_add sess filename name deinit fake (live s) =
    (next_addr s, live (plugin_list_add sess filename name deinit fake s).2)) by reflexivity.
  assert (L0 : linked (plugin_list_add sess filename name deinit fake s).2)
    by (unfold plugin_list_add; apply (linked_same s); cbn; [done..|lia]).
  rewrite Ea. change (plugin_list_add sess filename name deinit fake s)
    with (next_addr s, (plugin_list_add sess filename name deinit fake s).2) at 1.
  revert L0. generalize (plugin_list_add sess filename name deinit fake s).2 as s0. intros s0 L0. clear Ea.
  destruct fake; [by intros [= <- <-]|]. intros (ret & s1 & Ex & Er)%and_then_Done.
  assert (Ln : linked (note (next_addr s) Init_cb s0)) by by apply (linked_same s0).
  destruct (Hrun _ _ _ _ (U _ _ _ _) Ln Ex) as (L1 & _ & Ex'). rewrite live_note in Ex'.
  rewrite (and_then_step _ _ _ _ Ex'). destruct (ret =? 0); [by apply free_refines|by injection Er as <- <-].
Qed.
End run.

Lemma exec_refines n p s r s' : uses timers_only p -> linked s -> exec code new_source n p s = Done r s' ->
  spec_exec code new_source n p (live s) = Done r (live s').
Proof.
  revert p s r s'. induction n as [|n IH]; [done|].
  assert (Hrun : forall p s r s', uses timers_only p -> linked s -> exec code new_source n p s = Done r s' ->
    linked s' /\ evolves s s' /\ spec_exec code new_source n p (live s) = Done r (live s')).
  { intros p s r s' Up L E. destruct (exec_evolves n p s r s' Up L E). split; [done|]. split; [done|by apply IH]. }
  intros [r0|o k] s r s' Up L E; cbn in E; [by injection E as <- <-|]. destruct Up as [Po Uk].
  destruct o as [f pl pri name help cb ud|pl fd cb ud|id|e|name by_filename|sess filename name init deinit fake]; cbn.
  - rewrite live_hook by done.
    destruct (poxchat_hook_added new_source f pl pri name help cb ud s) as (pri' & h & srcs & A & Eh).
    rewrite Eh in E |- * by done. apply IH; [done|by apply linked_added|done].
  - rewrite live_hook_fd by done.
    destruct (poxchat_hook_fd_added new_source pl fd cb ud s) as (pri' & h & srcs & A & Eh).
    rewrite Eh in E |- * by done. apply IH; [done|by apply linked_added|done].
  - rewrite live_unhook by done.
    destruct (poxchat_unhook_cases id s) as [[Eu _]|(h & Hin & Eh & Et & Eu)]; rewrite Eu in E |- *;
      (apply IH; [done| |done]); [done|by apply linked_killed].
  - apply and_then_Done in E as (eat & s0 & El & Ek). apply and_then_Done in El as (eat' & s1 & El & Er).
    injection Er as <- <-. destruct (loop_refines _ _ Hrun n e _ _ _ _ _ _ L (waiting_start e s L) El) as [L1 Ed].
    rewrite (and_then_step _ _ _ _ Ed). rewrite (expunge_live s1 L1) in Ek. rewrite <- (live_idem s1).
    apply IH; [done|by apply linked_live|done].
  - apply and_then_Done in E as (b & s1 & Ef & Ek). destruct (kill_refines _ _ Hrun _ _ _ _ _ L Ef) as [L1 Ed].
    rewrite (and_then_step _ _ _ _ Ed). by apply IH.
  - apply and_then_Done in E as (b & s1 & Ef & Ek). destruct (add_refines _ _ Hrun _ _ _ _ _ _ _ _ _ L Ef) as [L1 Ed].
    rewrite (and_then_step _ _ _ _ Ed). by apply IH.
Qed.

(** C27. An event, with all the events and unloadings that its callbacks cause,
    goes over a snapshot: the hooks that fit it when it begins are called in the
    order of the list, those unhooked meanwhile are left out, as if unhooking took
    them out of the list at once. The callbacks hook nothing but timers and
    inputs, and the run comes to its end without using freed memory, which not
    every run does ([HooksCases.next_hook_freed_by_nested_event]). *)
Theorem event_walks_a_snapshot n e s eat s' :
  linked s -> plugin_hook_run code (exec code new_source n) n e s = Done eat s' ->
  deliver code (spec_exec code new_source n) n e (snapshot e (live s)) false (live s) = Done eat s'.
Proof.
  intros L E. apply and_then_Done in E as (eat' & s1 & El & Er). injection Er as <- <-.
  assert (Hrun : forall p s r s', uses timers_only p -> linked s -> exec code new_source n p s = Done r s' ->
    linked s' /\ evolves s s' /\ spec_exec code new_source n p (live s) = Done r (live s')).
  { intros p s0 r s0' Up L0 E. destruct (exec_evolves n p s0 r s0' Up L0 E). split; [done|]. split; [done|by apply exec_refines]. }
  destruct (loop_refines _ _ Hrun n e _ _ _ _ _ _ L (waiting_start e s L) El) as [L1 Ed]. by rewrite (expunge_live s1 L1).
Qed.
End refinement.

(** ** Callbacks that raise no events *)

Definition quiet_op (o : op) : Prop :=
  match o with
  | OHook f _ _ _ _ _ _ => f = Hook_timer
  | OHookFd _ _ _ _ | OUnhook _ => True
  | _ => False
  end.

Lemma uses_impl (P Q : op -> Prop) p : (forall o, P o -> Q o) -> uses P p -> uses Q p.
Proof. intros PQ. induction p as [r|o k IH]; cbn; [done|]. intros [Po Uk]. split; auto. Qed.

Lemma quiet_timers o : quiet_op o -> timers_only o.
Proof. by destruct o. Qed.

(** What such a program leaves: every hook still has its node. *)
Definition stays (s s' : state) : Prop :=
  linked s' /\ evolves s s' /\ (forall id, is_Some (hooks s !! id) -> is_Some (hooks s' !! id)) /\ plugins s' = plugins s.

Lemma stays_refl s : linked s -> stays s s.
Proof. intros L. split; [done|]. split; [by apply evolves_same|done]. Qed.

Lemma stays_trans s1 s2 s3 : linked s1 -> stays s1 s2 -> stays s2 s3 -> stays s1 s3.
Proof.
  intros L1 (L2 & E2 & S2 & P2) (L3 & E3 & S3 & P3). split; [done|]. split; [by apply (evolves_trans s1 s2)|].
  split; [auto|by rewrite P3].
Qed.

Section quiet.
Context `{GLib} (code : list event -> nat -> nat -> call -> prog) (new_source : list Z -> Z).

Lemma stays_hook f pl pri name help cb ud s :
  linked s -> f = Hook_timer -> stays s (poxchat_hook new_source f pl pri name help cb ud s).2.
Proof.
  intros L Hf. destruct (kept_hook _ _ _ (evolves_kept new_source) f pl pri name help cb ud s Hf L) as [L' E].
  split; [done|]. split; [done|].
  destruct (poxchat_hook_added new_source f pl pri name help cb ud s) as (pri' & h & srcs & A & ->); [|done..].
  split; [|done]. intros id Hs. cbn. rewrite lookup_insert_is_Some'. auto.
Qed.

Lemma stays_fd pl fd cb ud s : linked s -> stays s (poxchat_hook_fd new_source pl fd cb ud s).2.
Proof.
  intros L. destruct (kept_fd _ _ _ (evolves_kept new_source) pl fd cb ud s I L) as [L' E].
  split; [done|]. split; [done|].
  destruct (poxchat_hook_fd_added new_source pl fd cb ud s) as (pri' & h & srcs & A & ->); [|done..].
  split; [|done]. intros id Hs. cbn. rewrite lookup_insert_is_Some'. auto.
Qed.

Lemma stays_unhook id s : linked s -> stays s (poxchat_unhook id s).2.
Proof.
  intros L. destruct (kept_unhook _ _ _ (evolves_kept new_source) (OUnhook id) id s I eq_refl L) as [L' E].
  split; [done|]. split; [done|]. destruct (poxchat_unhook_cases id s) as [[-> _]|(h & _ & Eh & _ & ->)]; [done|].
  split; [|done]. intros id' Hs. cbn. rewrite lookup_insert_is_Some'. auto.
Qed.

Lemma quiet_exec p s :
  uses quiet_op p -> linked s ->
  exists N r s', (forall n, (N <= n)%nat -> exec code new_source n p s = Done r s') /\ stays s s'.
Proof.
  revert s. induction p as [r|o k IH]; intros s Up L.
  - exists 1%nat, r, s. split; [|by apply stays_refl]. intros [|n] Hn; [lia|done].
  - destruct Up as [Po Uk].
    assert (Next : forall a s1, stays s s1 ->
      (forall n, exec code new_source (S n) (Do o k) s = exec code new_source n (k a) s1) ->
      exists N r s', (forall n, (N <= n)%nat -> exec code new_source n (Do o k) s = Done r s') /\ stays s s').
    { intros a s1 S1 E1. destruct (IH a s1 (Uk a) (proj1 S1)) as (N & r & s' & E & S').
      exists (S N), r, s'. split; [|by apply (stays_trans s s1)]. intros [|n] Hn; [lia|]. rewrite E1. apply E. lia. }
    destruct o as [f pl pri name help cb ud|pl fd cb ud|id| | |]; try done.
    + pose proof (stays_hook f pl pri name help cb ud s L Po) as S1.
      destruct (poxchat_hook new_source f pl pri name help cb ud s) as [id s1] eqn:Eh.
      apply (Next (AHook id) s1 S1). intros n. cbn. by rewrite Eh.
    + pose proof (stays_fd pl fd cb ud s L) as S1.
      destruct (poxchat_hook_fd new_source pl fd cb ud s) as [id s1] eqn:Eh.
      apply (Next (AHook id) s1 S1). intros n. cbn. by rewrite Eh.
    + pose proof (stays_unhook id s L) as S1. destruct (poxchat_unhook id s) as [u s1] eqn:Eh.
      apply (Next (AData u) s1 S1). intros n. cbn. by rewrite Eh.
Qed.

(** The hooks the event may look at have names, and their plugins are loaded. *)
Definition ready (e : emission) (s : state) : Prop :=
  forall id h, hooks s !! id = Some h -> is_kind (h_type h) (em_type e) = true ->
    is_Some (h_name h) /\ is_Some (plugins s !! h_pl h).

Lemma ready_stays e s s' : ready e s -> stays s s' -> ready e s'.
Proof.
  intros Hr (L' & E & _ & Ep) id h Eh Ek. destruct (em_type_kinds e) as (E1 & E2 & E3). rewrite Ep.
  destruct (decide (id < next_addr s)%nat) as [Hlt|Hge].
  - destruct (evolves_aged s s' E) as [_ A]. destruct (A id h Hlt Eh) as (h0 & Eh0 & [->|C]); [by apply (Hr id)|].
    by rewrite C, E3 in Ek.
  - destruct (evolves_new s s' E id h ltac:(lia) Eh) as [C|[C|C]]; by rewrite C, ?E1, ?E2, ?E3 in Ek.
Qed.

Lemma plugin_hook_find_ready e s l :
  ready e s -> (forall id, id ∈ l -> is_Some (hooks s !! id)) -> exists r, plugin_hook_find s l (em_type e) (em_name e) = Some r.
Proof.
  intros Hr. induction l as [|id l IH]; intros Hl; cbn [plugin_hook_find]; [eauto|].
  destruct (Hl id (list_elem_of_here _ _)) as [h Eh]. rewrite Eh. cbn [mbind option_bind].
  destruct IH as [r Er]; [intros x Hx; apply Hl; by apply list_elem_of_further|].
  destruct (is_kind (h_type h) (em_type e)) eqn:Ek; [|eauto].
  destruct (Hr id h Eh Ek) as [[hname En] _]. rewrite En. cbn [mbind option_bind]. destruct (_ || _); eauto.
Qed.

Lemma stays_same s s' : linked s -> same_hooks s s' -> plugins s' = plugins s -> stays s s'.
Proof.
  intros L Sh Ep. split; [by apply (linked_same_hooks s)|]. split; [by apply evolves_same|].
  split; [|done]. destruct Sh as (_ & Em & _). by rewrite Em.
Qed.

Context (U : forall l cb ud c, uses quiet_op (code l cb ud c)).

Lemma ready_context e pl sess s s1 : set_context pl sess s = Some s1 -> ready e s -> ready e s1 /\ same_hooks s s1.
Proof.
  unfold set_context. destruct (plugins s !! pl) as [p|] eqn:Ep; [|done]. intros [= <-] Hr. split; [|by repeat split].
  intros id h Eh Ek. destruct (Hr id h Eh Ek) as [Hn Hp]. split; [done|]. cbn. rewrite lookup_insert_is_Some'. auto.
Qed.

Definition left_to_do (e : emission) (s : state) (l : list nat) : nat := length (List.filter (matches e s) l).

(** What the loop finds: nothing more, or a hook whose callback it can call. *)
Lemma fetch_ready e s cur l :
  linked s -> ready e s -> nodes cur s = Some l -> (forall id, id ∈ l -> id ∈ hook_list s) ->
  fetch code e cur s = Some None \/
  exists t p s1, fetch code e cur s = Some (Some (head t, p, s1)) /\ uses quiet_op p /\ linked s1 /\ ready e s1 /\
    (exists pre, hook_list s1 = pre ++ t) /\ left_to_do e s l = S (left_to_do e s1 t).
Proof.
  intros L Hr En Hl. unfold fetch. rewrite En. cbn.
  destruct (plugin_hook_find_ready e s l Hr) as [found Ef]; [intros id Hid; by apply (linked_dom s L), Hl|].
  destruct (plugin_hook_find_spec s e l found Ef) as [Efl C]. rewrite Ef. cbn.
  destruct found as [|id t]; [by left|]. right. destruct C as [[l1 El] Em]. assert (Em' := Em). unfold matches in Em'.
  destruct (hooks s !! id) as [h|] eqn:Eh; [|done]. apply andb_prop in Em' as [Ek _].
  destruct (Hr id h Eh Ek) as [_ Hp]. cbn.
  destruct (set_context (h_pl h) (em_sess e) s) as [s1|] eqn:Ec.
  2:{ unfold set_context in Ec. destruct Hp as [p Ep]. by rewrite Ep in Ec. }
  destruct (ready_context e _ _ s s1 Ec Hr) as [Hr1 (E1 & E2 & E3 & E4)]. cbn. do 3 eexists. split; [reflexivity|].
  split; [apply U|]. split; [apply (linked_same_hooks s); [done|by repeat split]|]. split; [exact Hr1|]. split.
  - cbn. rewrite E1. destruct cur as [c|]; cbn in En; [|injection En as <-; by destruct l1].
    apply nodes_from_suffix in En as (l0 & -> & _). exists (l0 ++ l1 ++ [id]). rewrite El. by rewrite <- !app_assoc.
  - unfold left_to_do. rewrite Efl. cbn. rewrite Em. cbn. do 2 f_equal. apply List.filter_ext. intros x.
    unfold matches. cbn. by rewrite E2.
Qed.

(** The node behind is still there after the callback. *)
Lemma nodes_stay e s1 s2 pre t :
  linked s1 -> stays s1 s2 -> hook_list s1 = pre ++ t ->
  exists l, nodes (head t) s2 = Some l /\ (left_to_do e s2 l <= left_to_do e s1 t)%nat /\ (forall id, id ∈ l -> id ∈ hook_list s2).
Proof.
  intros L1 (L2 & E2 & St & _) El. destruct t as [|c t]; [exists []; split; [done|]; split; [done|by intros x ?%elem_of_nil]|].
  assert (Hn1 : nodes_from c (hook_list s1) = Some (c :: t)) by (rewrite El; apply nodes_from_app; rewrite <- El; apply L1).
  assert (Hc : c ∈ hook_list s2).
  { apply (linked_dom s2 L2), St, (linked_dom _ L1). rewrite El. apply elem_of_app. right. apply list_elem_of_here. }
  apply list_elem_of_split in Hc as (a & b & Eab). exists (c :: b).
  assert (Hn2 : nodes_from c (hook_list s2) = Some (c :: b)) by (rewrite Eab; apply nodes_from_app; rewrite <- Eab; apply L2).
  split; [exact Hn2|]. split; [|intros x Hx; rewrite Eab; apply elem_of_app; by right].
  unfold left_to_do. rewrite (nodes_evolve e s1 s2 c (c :: t) (c :: b) L1 L2 E2 Hn1 Hn2).
  rewrite <- (filter_absorb (matches e s2) (matches e s1)); [apply List.filter_length_le|].
  intros x _ Hm. apply (matches_back e s1 s2 x E2); [by apply (matches_old e s1 s2)|done].
Qed.

(** Programs of at most [m] calls that are enough for every callback that runs. *)
Lemma quiet_loop e k : forall s cur l eat,
  linked s -> ready e s -> nodes cur s = Some l -> (left_to_do e s l <= k)%nat -> (forall id, id ∈ l -> id ∈ hook_list s) ->
  exists N r s', forall m n, (N <= m)%nat -> (N <= n)%nat ->
    plugin_hook_loop code (exec code new_source m) n e cur eat s = Done r s'.
Proof.
  induction k as [|k IH]; intros s cur l eat L Hr En Hk Hl;
    (destruct (fetch_ready e s cur l L Hr En Hl) as [Ef|(t & p & s1 & Ef & Up & L1 & Hr1 & [pre El] & Ek)];
     [exists 1%nat, eat, s; intros m [|n] Hm Hn; [lia|]; cbn; by rewrite Ef|]); [lia|].
  destruct (quiet_exec p s1 Up L1) as (N1 & ret & s2 & Ex & S2).
  destruct (nodes_stay e s1 s2 pre t L1 S2 El) as (l2 & En2 & Hk2 & Hl2).
  pose proof (ready_stays e s1 s2 Hr1 S2) as Hr2.
  destruct (IH s2 (head t) l2 (if is_kind ret EAT_POXCHAT then true else eat) (proj1 S2) Hr2 En2 ltac:(lia) Hl2) as (N2 & r & s' & E').
  assert (Step : forall m n, (N1 <= m)%nat ->
    plugin_hook_loop code (exec code new_source m) (S n) e cur eat s =
    (if is_kind ret EAT_POXCHAT && is_kind ret EAT_PLUGIN then Done true s2
     else if is_kind ret EAT_PLUGIN then Done eat s2
     else plugin_hook_loop code (exec code new_source m) n e (head t) (if is_kind ret EAT_POXCHAT then true else eat) s2)).
  { intros m n Hm. cbn. rewrite Ef. by rewrite (and_then_step _ _ _ _ (Ex m Hm)). }
  destruct (is_kind ret EAT_POXCHAT && is_kind ret EAT_PLUGIN) eqn:Ea; [|destruct (is_kind ret EAT_PLUGIN) eqn:Ep].
  - exists (S N1), true, s2. intros m [|n] Hm Hn; [lia|]. by rewrite Step by lia.
  - exists (S N1), eat, s2. intros m [|n] Hm Hn; [lia|]. by rewrite Step by lia.
  - exists (S (N1 + N2)), r, s'. intros m [|n] Hm Hn; [lia|]. rewrite Step by lia. apply E'; lia.
Qed.

(** C37.  An event whose callbacks raise no events, unload nothing and hook nothing
    but timers and inputs comes to an end and uses no freed memory, whatever they
    unhook: with enough fuel there is a result. *)
Theorem quiet_event_ends e s :
  linked s -> ready e s ->
  exists N eat s', forall n, (N <= n)%nat -> plugin_hook_run code (exec code new_source n) n e s = Done eat s'.
Proof.
  intros L Hr.
  assert (En : nodes (head (hook_list s)) s = Some (hook_list s)).
  { destruct (hook_list s) as [|c t] eqn:E; [done|]. cbn. rewrite E. cbn. by rewrite Nat.eqb_refl. }
  destruct (quiet_loop e _ s _ _ false L Hr En (le_n _)) as (N & r & s' & E); [done|].
  exists N, r, (expunge s'). intros n Hn. unfold plugin_hook_run. by rewrite (E n n Hn Hn).
Qed.
End quiet.

(** ** Unloading *)

Section unload.
Context `{GLib} (code : list event -> nat -> nat -> call -> prog) (new_source : list Z -> Z).

Lemma killed_lookup s id h id' h' :
  hooks s !! id = Some h -> hooks (killed s id h) !! id' = Some h' ->
  exists h0, hooks s !! id' = Some h0 /\ h_pl h' = h_pl h0 /\ (h_type h0 = HOOK_DELETED -> h_type h' = HOOK_DELETED).
Proof.
  intros Eh. cbn. destruct (decide (id' = id)) as [->|Hne].
  - rewrite lookup_insert_eq. intros [= <-]. exists h. by repeat split.
  - rewrite lookup_insert_ne by auto. eauto.
Qed.

(** The hooks of [pl] in [l] end up deleted. *)
Lemma unhook_all_dead pl l s : linked s ->
  (forall id h, hooks s !! id = Some h -> h_pl h = pl -> id ∈ l \/ h_type h = HOOK_DELETED) ->
  forall id h,
  hooks (foldl (fun s id =>
    match hooks s !! id with
    | Some h => if Nat.eqb (h_pl h) pl then snd (poxchat_unhook id s) else s
    | None => s
    end) s l) !! id = Some h -> h_pl h = pl -> h_type h = HOOK_DELETED.
Proof.
  revert s. induction l as [|x l IH]; intros s L Hs id h Eh Hp.
  - destruct (Hs id h Eh Hp) as [Hin|]; [by apply elem_of_nil in Hin|done].
  - cbn [foldl] in Eh. revert id h Eh Hp. apply IH; clear IH.
    + destruct (hooks s !! x) as [hx|]; [|done]. destruct (Nat.eqb _ _); [|done].
      destruct (poxchat_unhook_cases x s) as [[-> _]|(h' & _ & Ex & _ & ->)]; [done|by apply linked_killed].
    + intros id h. destruct (hooks s !! x) as [hx|] eqn:Ex.
      2:{ intros Eh Hp. destruct (Hs id h Eh Hp) as [[->|Hin]%elem_of_cons|]; [by rewrite Ex in Eh|auto..]. }
      destruct (Nat.eqb_spec (h_pl hx) pl) as [Epl|Hne].
      2:{ intros Eh Hp. destruct (Hs id h Eh Hp) as [[->|Hin]%elem_of_cons|]; [congruence|auto..]. }
      destruct (poxchat_unhook_cases x s) as [[-> Hn]|(h' & _ & Ex' & _ & ->)]; cbn [snd]; intros Eh Hp.
      * destruct (Hs id h Eh Hp) as [[->|Hin]%elem_of_cons|]; [|auto..]. right.
        destruct (Hn L) as [Ha|Ha]; [|congruence]. destruct (decide (h_type h = HOOK_DELETED)) as [|Hd]; [done|].
        apply (alive_spec s x h Eh) in Hd. by rewrite Hd in Ha.
      * destruct (decide (id = x)) as [->|Hnx]; [cbn in Eh; rewrite lookup_insert_eq in Eh; injection Eh as <-; by right|].
        cbn in Eh. rewrite lookup_insert_ne in Eh by auto. destruct (Hs id h Eh Hp) as [[->|Hin]%elem_of_cons|]; auto. done.
Qed.

(** C32.  A plugin that was unloaded leaves nothing behind: it is not in the list of
    plugins and its record is freed, no hook that is not deleted is its own, and no timer or
    input is left that would call it. *)
Theorem unloaded_plugin_leaves_nothing n pl p do_deinit allow_refuse s s' :
  fresh_tags new_source -> reachable code new_source s ->
  plugins s !! pl = Some p -> p_fake p = false ->
  plugin_free code (exec code new_source n) pl do_deinit allow_refuse s = Done true s' ->
  (pl ∉ plugin_list s') /\ plugins s' !! pl = None /\
  (forall id h, hooks s' !! id = Some h -> h_pl h = pl -> h_type h = HOOK_DELETED) /\
  (forall x, x ∈ sources s' -> exists h, hooks s' !! src_hook x = Some h /\ h_pl h <> pl).
Proof.
  intros F R Ep Hf E.
  assert (L : linked s) by (by apply (reachable_linked code new_source)).
  assert (S : sourced s) by (by apply (reachable_sourced code new_source)).
  assert (U : forall l cb ud c, uses any_op (code l cb ud c)) by (intros; apply uses_any).
  assert (Keep : linked s' /\ keeps_sources s s').
  { refine (free_keeps code new_source any_op _ (sources_kept new_source F) U (exec code new_source n) _
      (OKill [] true) pl do_deinit allow_refuse s true s' I eq_refl E L). apply exec_keeps; [apply _|by apply sources_kept|done]. }
  destruct Keep as [L' S']. apply S' in S. clear S'.
  assert (L'' : listed s').
  { refine (free_keeps code new_source any_op _ (listed_kept new_source) U (exec code new_source n) _
      (OKill [] true) pl do_deinit allow_refuse s true s' I eq_refl E (reachable_listed code new_source s R)).
    apply exec_keeps; [apply _|apply listed_kept|done]. }
  assert (End : exists s1, linked s1 /\ s' = free_plugin pl (unhook_all pl s1)).
  { unfold plugin_free in E. rewrite Ep, Hf in E.
    assert (Fe : forall s1, linked s1 -> plugin_free_end pl s1 = Done true s' -> exists s1, linked s1 /\ s' = free_plugin pl (unhook_all pl s1)).
    { intros s1 L1. unfold plugin_free_end. destruct (bool_decide _); [|done]. intros [= <-]. eauto. }
    destruct (if do_deinit then p_deinit p else None) as [deinit|]; [|by apply (Fe s)].
    apply and_then_Done in E as (ret & s1 & Ex & Er). destruct (_ && _); [done|]. apply (Fe s1); [|done].
    refine (proj1 (exec_rel code new_source aged n _ (note pl Deinit_cb s) ret s1 (aged_kept new_source) _ Ex)).
    by apply (linked_same s). }
  destruct End as (s1 & L1 & ->). assert (Gone : plugins (free_plugin pl (unhook_all pl s1)) !! pl = None) by (cbn; apply lookup_delete_eq).
  split; [rewrite (listed_iff _ L''), Gone; by intros []|]. split; [exact Gone|].
  assert (Dead : forall id h, hooks (free_plugin pl (unhook_all pl s1)) !! id = Some h -> h_pl h = pl -> h_type h = HOOK_DELETED).
  { cbn [free_plugin set_plugins hooks]. apply (unhook_all_dead pl); [done|]. intros id h Eh _. left. apply (linked_dom s1 L1). eauto. }
  split; [exact Dead|]. intros x Hx. apply S in Hx as (h & Eh & Hs & _). exists h. split; [done|]. intros Hp.
  apply (Dead _ _ Eh) in Hp. apply has_source_kind in Hs as [_ [C|C]]; by rewrite C in Hp.
Qed.
End unload.
