(* ===== verification/HooksCases.v ===== *)
(** * Hooks: concrete plugins, and the witnesses *)
From S2P Require Import Prelude Glib Casemap Text Hooks HooksSpec HooksWalk.

Definition next_tag (l : list Z) : Z := 1 + foldr Z.max 0 l.

Lemma next_tag_fresh : fresh_tags next_tag.
Proof.
  intros l. assert (M : forall x, x ∈ l -> x < next_tag l) by (intros x; unfold next_tag; induction 1; cbn in *; lia).
  split; [intros Hx%M; lia|]. unfold next_tag. clear M. assert (0 <= foldr Z.max 0 l); [|lia]. induction l; cbn; lia.
Qed.

(** The calls of a plugin one after another; the answers are not looked at. *)
Definition script (l : list op) (ret : Z) : prog := foldr (fun o p => Do o (fun _ => p)) (Return ret) l.

Lemma script_uses (P : op -> Prop) l ret : Forall P l -> uses P (script l ret).
Proof. induction 1; cbn; auto. Qed.

Definition print_hook (pri : Z) (cb : nat) : op := OHook Hook_print 0 pri (Some ("Join" : cstr)) None cb 0.
Definition join : emission := plugin_emit_print 1 [("Join" : cstr)] 0.
Definition loaded : op := OLoad 1 (Some ("a.so" : cstr)) "a" 0 None false.
Definition command (name : cstr) : emission := plugin_emit_command 1 name [name] [name].

Definition state_of {A} (r : result A) : state := match r with Done _ s => s | _ => boot end.

Definition run_event (code : list event -> nat -> nat -> call -> prog) (n : nat) (e : emission) (s : state) : result bool :=
  plugin_hook_run (H := glib_ref) code (exec (H := glib_ref) code next_tag n) n e s.

(** ** A plugin whose callbacks unhook and raise events *)

(** Its plugin has address 0 and its hooks 1 to 4.  Callback 2 unhooks the last of the
    three print hooks and raises a command event. *)
Definition busy (l : list event) (cb ud : nat) (c : call) : prog :=
  match cb with
  | 0 => script [print_hook 0 1; print_hook 5 2; print_hook 0 3; OHook Hook_timer 0 0 None None 4 0] 1
  | 2 => script [OUnhook 1; OEmit (command "x")] 0
  | 3 => script [] 1
  | _ => script [] 0
  end%nat.

Lemma busy_done : (exec (H := glib_ref) busy next_tag 20 (script [loaded] 0) boot) =
  Done 0 (state_of (exec (H := glib_ref) busy next_tag 20 (script [loaded] 0) boot)).
Proof. vm_compute. reflexivity. Qed.

Definition plugged : state := state_of (exec (H := glib_ref) busy next_tag 20 (script [loaded] 0) boot).

Lemma plugged_reachable : reachable (H := glib_ref) busy next_tag plugged.
Proof. eapply rtc_l; [|apply rtc_refl]. eapply step_calls. exact busy_done. Qed.

Example plugged_list : hook_list plugged = [2; 3; 1; 4]%nat.
Proof. vm_compute. reflexivity. Qed.

Lemma hooks_stay_in_order_witness :
  in_order (Z.lor HOOK_PRINT HOOK_PRINT_ATTRS) plugged.
Proof.
  apply (hooks_stay_in_order (H := glib_ref) busy next_tag plugged).
  - exact plugged_reachable.
  - right. left. reflexivity.
Defined.

(** The deliver of the join goes to the callbacks 2 and 3; hook 1 was unhooked by then. *)
Definition joined : state := state_of (run_event busy 30 join plugged).

(** Callbacks that hook only timers from now on. *)
Definition busy_later (l : list event) (cb ud : nat) (c : call) : prog :=
  match cb with O => script [] 1 | _ => busy l cb ud c end.

Lemma busy_later_timers l cb ud c : uses timers_only (busy_later l cb ud c).
Proof. destruct cb as [|[|[|[|cb]]]]; cbn; auto. Qed.

Lemma event_walks_a_snapshot_witness :
  linked plugged /\
  deliver busy_later (spec_exec (H := glib_ref) busy_later next_tag 30) 30 join (snapshot (H := glib_ref) join (live plugged)) false (live plugged) = Done true joined /\
  map ev_who (calls joined) = [0; 2; 3]%nat /\ hook_list joined = [2; 3; 4]%nat.
Proof.
  split; [apply (reachable_linked (H := glib_ref) busy next_tag); exact plugged_reachable|]. split.
  - apply (event_walks_a_snapshot (H := glib_ref) busy_later next_tag busy_later_timers 30 join plugged true joined).
    + apply (reachable_linked (H := glib_ref) busy next_tag). exact plugged_reachable.
    + vm_compute. reflexivity.
  - vm_compute. split; reflexivity.
Defined.

(** ** A plugin that only unhooks *)

Definition calm (l : list event) (cb ud : nat) (c : call) : prog :=
  match cb with
  | 2 => script [OUnhook 3; OUnhook 2; OHook Hook_timer 0 0 None None 4 0] 0
  | _ => script [] 1
  end%nat.

Lemma calm_quiet l cb ud c : uses quiet_op (calm l cb ud c).
Proof. destruct cb as [|[|[|cb]]]; cbn; auto. Qed.

Lemma ready_check e s :
  forallb (fun x => negb (is_kind (h_type x.2) (em_type e)) ||
    (bool_decide (is_Some (h_name x.2)) && bool_decide (is_Some (plugins s !! h_pl x.2)))) (map_to_list (hooks s)) = true ->
  ready e s.
Proof.
  intros Hc id h Eh Ek. rewrite forallb_forall in Hc.
  specialize (Hc (id, h)). cbn in Hc. rewrite Ek in Hc. cbn in Hc.
  assert (Hin : In (id, h) (map_to_list (hooks s))) by (apply list_elem_of_In, elem_of_map_to_list; done).
  specialize (Hc Hin). apply andb_prop in Hc as [H1%bool_decide_eq_true H2%bool_decide_eq_true]. done.
Qed.

Lemma quiet_event_ends_witness :
  (exists N eat s', forall n, (N <= n)%nat -> run_event calm n join plugged = Done eat s') /\
  exists s', run_event calm 9 join plugged = Done true s' /\ hook_list s' = [1; 5; 4]%nat.
Proof.
  split.
  - apply (quiet_event_ends (H := glib_ref) calm next_tag calm_quiet join plugged).
    + apply (reachable_linked (H := glib_ref) busy next_tag). exact plugged_reachable.
    + apply ready_check. vm_compute. reflexivity.
  - eexists. vm_compute. split; reflexivity.
Defined.

(** ** Unloading *)

Lemma unloaded_plugin_leaves_nothing_witness :
  exists s', plugin_free busy (exec (H := glib_ref) busy next_tag 5) 0 true true plugged = Done true s' /\
  (0%nat ∉ plugin_list s') /\ plugins s' !! 0%nat = None /\ (forall id h, hooks s' !! id = Some h -> h_pl h = 0%nat -> h_type h = HOOK_DELETED) /\
  (forall x, x ∈ sources s' -> exists h, hooks s' !! src_hook x = Some h /\ h_pl h <> 0%nat).
Proof.
  exists (state_of (plugin_free busy (exec (H := glib_ref) busy next_tag 5) 0 true true plugged)).
  split; [vm_compute; reflexivity|].
  apply (unloaded_plugin_leaves_nothing (H := glib_ref) busy next_tag 5 0
    (Plugin (Some ("a.so" : cstr)) "a" false None 1) true true plugged).
  - exact next_tag_fresh.
  - exact plugged_reachable.
  - vm_compute. reflexivity.
  - reflexivity.
  - vm_compute. reflexivity.
Defined.

(** ** Freed memory *)

(** The first callback unhooks the next hook and raises an event, at the end of which
    the hook that the outer loop goes to is freed. *)
Definition rude (l : list event) (cb ud : nat) (c : call) : prog :=
  match cb with
  | 2 => script [OUnhook 3; OEmit (command "x")] 0
  | _ => busy l cb ud c
  end%nat.

Theorem next_hook_freed_by_nested_event : run_event rude 30 join plugged = Undefined.
Proof. vm_compute. reflexivity. Qed.

(** Each callback touches at most its own hook: the first raises the same event once
    more, and there the second unhooks itself. *)
Definition selfish (l : list event) (cb ud : nat) (c : call) : prog :=
  match cb with
  | 2 => if Nat.ltb (length l) 2 then script [OEmit join] 0 else script [] 0
  | 3 => script [OUnhook 3] 0
  | _ => busy l cb ud c
  end%nat.

Theorem own_unhook_freed_by_nested_event : run_event selfish 40 join plugged = Undefined.
Proof. vm_compute. reflexivity. Qed.

(** A timer that has run out, right behind a hook whose callback raises an event. *)
Definition timed (l : list event) (cb ud : nat) (c : call) : prog :=
  match cb with
  | 0 => script [print_hook 0 1; OHook Hook_timer 0 0 None None 4 0] 1
  | 1 => script [OEmit (command "x")] 0
  | _ => script [] 0
  end%nat.

Theorem one_shot_timer_freed_by_nested_event :
  exists s s1, exec (H := glib_ref) timed next_tag 20 (script [loaded] 0) boot = Done 0 s /\
    dispatch (H := glib_ref) timed next_tag 5 1 0 (Source 1 false 2) s = Done 0 s1 /\
    run_event timed 30 join s1 = Undefined.
Proof.
  exists (state_of (exec (H := glib_ref) timed next_tag 20 (script [loaded] 0) boot)). eexists.
  split; [vm_compute; reflexivity|]. split; [vm_compute; reflexivity|]. vm_compute. reflexivity.
Qed.

(** ** Priorities of server hooks *)

Definition server_hook (f : hook_fn) (pri : Z) : op := OHook f 0 pri (Some ("PRIVMSG" : cstr)) None 1 0.

Definition server_hooks : prog := script [server_hook Hook_server_attrs 0; server_hook Hook_server 10] 0.

Definition hooked : state := state_of (exec (H := glib_ref) busy next_tag 9 server_hooks boot).

Lemma hooked_reachable : reachable (H := glib_ref) busy next_tag hooked.
Proof.
  assert (E : exec (H := glib_ref) busy next_tag 9 server_hooks boot = Done 0 hooked) by (vm_compute; reflexivity).
  eapply rtc_l; [|apply rtc_refl]. eapply step_calls. exact E.
Qed.

(** A hook with attributes is not among those a new server hook is ordered with. *)
Theorem server_hooks_out_of_order :
  reachable (H := glib_ref) busy next_tag hooked /\ ~ in_order (Z.lor HOOK_SERVER HOOK_SERVER_ATTRS) hooked.
Proof.
  split; [exact hooked_reachable|]. intros O. unfold in_order in O.
  assert (E : List.filter (of_kind (hooks hooked) (Z.lor HOOK_SERVER HOOK_SERVER_ATTRS)) (hook_list hooked) = [0; 1]%nat)
    by (vm_compute; reflexivity).
  rewrite E in O. apply StronglySorted_inv in O as [_ O]. apply Forall_inv in O as (ha & hb & Ea & Eb & Hp).
  assert (E0 : h_pri <$> hooks hooked !! 0%nat = Some 0) by (vm_compute; reflexivity).
  assert (E1 : h_pri <$> hooks hooked !! 1%nat = Some 10) by (vm_compute; reflexivity).
  rewrite Ea in E0. rewrite Eb in E1. injection E0 as E0. injection E1 as E1. lia.
Qed.

(** Two server hooks without attributes: one of an event of another kind between them. *)
Theorem print_attrs_reorders_server_hooks :
  hook_list (state_of (exec (H := glib_ref) busy next_tag 9
    (script [print_hook 0 1; server_hook Hook_server 10; OHook Hook_print_attrs 0 0 (Some ("Join" : cstr)) None 1 0;
             server_hook Hook_server 5] 0) boot)) = [3; 2; 0; 1]%nat.
Proof. vm_compute. reflexivity. Qed.
