(* ===== verification/History.v ===== *)
(** * The input history of a session (src/common/history.c)

    A ring of HISTORY_SIZE lines with the place of the next line ([realpos]) and
    the place the user looks at ([pos]), against the log of all lines: up and down
    walk over the newest of them. *)
From S2P Require Import Prelude.

Definition HISTORY_SIZE : nat := 100.

Record history := History { lines : list (option cstr); pos : nat; realpos : nat }.

Definition history_new : history := History (replicate HISTORY_SIZE None) 0 0.

Definition history_add (text : cstr) (h : history) : history :=
  let r := S (realpos h) in
  let r := if Nat.eqb r HISTORY_SIZE then O else r in
  History (<[realpos h := Some text]> (lines h)) r r.

Definition history_free (h : history) : history := History (replicate HISTORY_SIZE None) (pos h) (realpos h).

(** The line in a place; outside the ring is undefined behaviour. *)
Definition line_at (i : nat) (h : history) : option (option cstr) := lines h !! i.

(** [strcmp] with a line that may be a NULL pointer. *)
Definition differs (text : cstr) (line : option cstr) : option bool :=
  match line with Some l => Some (negb (bool_decide (text = l))) | None => None end.

Definition set_pos (p : nat) (h : history) : history := History (lines h) p (realpos h).

Definition history_down (h : history) : option (option cstr * history) :=
  if Nat.eqb (pos h) (realpos h) then Some (None, h)
  else if (if Nat.eqb (realpos h) 0 then Nat.eqb (pos h) (HISTORY_SIZE - 1) else Nat.eqb (pos h) (realpos h - 1))
  then Some (Some [], set_pos (if Nat.eqb (realpos h) 0 then 0 else S (pos h)) h)
  else
    let next := if Nat.ltb (pos h) (HISTORY_SIZE - 1) then S (pos h) else O in
    line ← line_at next h;
    Some (match line with Some l => (Some l, set_pos next h) | None => (None, h) end).

(** Whether what is in the input box is a new line, which is kept. *)
Definition is_new (text : cstr) (next : nat) (h : history) : option bool :=
  if bool_decide (text = []) then Some false
  else
    line ← line_at next h;
    d ← differs text line;
    if negb d then Some false
    else
      here ← line_at (pos h) h;
      d ← (match here with None => Some true | Some _ => differs text here end);
      if negb d then Some false
      else
        oldest ← line_at (realpos h) h;
        match oldest with None => Some true | Some _ => differs text here end.

Definition history_up (current_text : cstr) (h : history) : option (option cstr * history) :=
  if (if Nat.eqb (realpos h) (HISTORY_SIZE - 1) then Nat.eqb (pos h) 0 else Nat.eqb (pos h) (S (realpos h)))
  then Some (None, h)
  else
    let next := match pos h with O => (HISTORY_SIZE - 1)%nat | S p => p end in
    line ← line_at next h;
    match line with
    | None => Some (None, h)
    | Some _ =>
        new ← is_new current_text next h;
        let h := if (new : bool) then history_add current_text h else h in
        line ← line_at next h;
        Some (line, set_pos next h)
    end.

(** ** The log *)

(** All lines, the newest first, and how far up the user is. *)
Record log := Log { log_lines : list cstr; up : nat }.

Definition log_add (text : cstr) (l : log) : log := Log (text :: log_lines l) 0.

(** The line that is shown at a height; at 0 the ring still has the oldest line. *)
Definition shown_at (k : nat) (l : log) : option cstr := log_lines l !! (match k with O => 99%nat | S k => k end).

Definition log_down (l : log) : option cstr * log :=
  match up l with
  | O => (None, l)
  | S O => (Some [], Log (log_lines l) 0)
  | S (S k) => (log_lines l !! k, Log (log_lines l) (S k))
  end.

Definition log_up (text : cstr) (l : log) : option cstr * log :=
  if Nat.eqb (up l) 99 then (None, l)
  else match log_lines l !! up l with
  | None => (None, l)
  | Some line =>
      if negb (bool_decide (text = [])) && negb (bool_decide (text = line)) && negb (bool_decide (Some text = shown_at (up l) l))
      then (Some line, Log (text :: log_lines l) (if Nat.eqb (up l) 98 then 0 else S (S (up l))))
      else (Some line, Log (log_lines l) (S (up l)))
  end.

Inductive action := Add (text : cstr) | Up (text : cstr) | Down.

Definition act (a : action) (h : history) : option (option cstr * history) :=
  match a with
  | Add text => Some (None, history_add text h)
  | Up text => history_up text h
  | Down => history_down h
  end.

Definition log_act (a : action) (l : log) : option cstr * log :=
  match a with Add text => (None, log_add text l) | Up text => log_up text l | Down => log_down l end.

Fixpoint acts (l : list action) (h : history) : option (list (option cstr) * history) :=
  match l with
  | [] => Some ([], h)
  | a :: l => '(r, h) ← act a h; '(rs, h) ← acts l h; Some (r :: rs, h)
  end.

Fixpoint log_acts (l : list action) (g : log) : list (option cstr) :=
  match l with [] => [] | a :: l => let '(r, g) := log_act a g in r :: log_acts l g end.

(** ** The ring holds the newest lines of the log *)

(** The place of a line by its age, 0 for the newest. *)
Definition place (r k : nat) : nat := if Nat.ltb k r then (r - S k)%nat else (r + HISTORY_SIZE - S k)%nat.

Record ring (h : history) (l : log) : Prop := Ring {
  ring_length : length (lines h) = HISTORY_SIZE;
  ring_realpos : (realpos h < HISTORY_SIZE)%nat;
  ring_lines k : (k < HISTORY_SIZE)%nat -> lines h !! place (realpos h) k = Some (log_lines l !! k);
  ring_up : (up l < HISTORY_SIZE)%nat /\ (up l <= length (log_lines l))%nat;
  ring_pos : pos h = if Nat.leb (up l) (realpos h) then (realpos h - up l)%nat else (realpos h + HISTORY_SIZE - up l)%nat }.

Ltac places := unfold place, HISTORY_SIZE in *; repeat match goal with
  | |- context [Nat.ltb ?a ?b] => destruct (Nat.ltb_spec a b)
  | H : context [Nat.ltb ?a ?b] |- _ => destruct (Nat.ltb_spec a b)
  | |- context [Nat.leb ?a ?b] => destruct (Nat.leb_spec a b)
  | H : context [Nat.leb ?a ?b] |- _ => destruct (Nat.leb_spec a b)
  | |- context [Nat.eqb ?a ?b] => destruct (Nat.eqb_spec a b)
  | H : context [Nat.eqb ?a ?b] |- _ => destruct (Nat.eqb_spec a b)
  end; try lia.

Lemma ring_new : ring history_new (Log [] 0).
Proof.
  assert (H0 : (0 < HISTORY_SIZE)%nat) by (unfold HISTORY_SIZE; lia).
  split; [by apply length_replicate|done| |cbn; lia|done].
  intros k Hk. cbn [log_lines]. rewrite lookup_nil. apply lookup_replicate. split; [done|]. cbn [realpos history_new]. places.
Qed.

Lemma ring_add text h l : ring h l -> ring (history_add text h) (log_add text l).
Proof.
  intros [Le Hr Li [Hu _] Hp]. unfold history_add, log_add. split; cbn [lines pos realpos log_lines up]; [by rewrite length_insert|places| |lia|places].
  intros [|k] Hk.
  - replace (place _ 0) with (realpos h) by places. rewrite list_lookup_insert_eq; [done|by rewrite Le].
  - cbn. replace (place _ (S k)) with (place (realpos h) k) by places.
    rewrite list_lookup_insert_ne by places. apply Li. lia.
Qed.

(** The places the user walks over. *)
Lemma ring_here h l : ring h l -> lines h !! pos h = Some (shown_at (up l) l).
Proof.
  intros [Le Hr Li [Hu Hl] ->]. unfold shown_at. destruct (up l) as [|k] eqn:E.
  - rewrite <- Li by (unfold HISTORY_SIZE; lia). f_equal; places.
  - rewrite <- Li by (unfold HISTORY_SIZE in *; lia). f_equal; places.
Qed.

Lemma differs_some text line : differs text (Some line) = Some (negb (bool_decide (text = line))).
Proof. reflexivity. Qed.

Lemma some_text_eq (text line : cstr) : bool_decide (Some text = Some line) = bool_decide (text = line).
Proof. apply bool_decide_ext. split; congruence. Qed.

(** The last of the three tests looks at the same line as the second one. *)
Lemma is_new_spec text next line h l :
  ring h l -> lines h !! next = Some (Some line) ->
  is_new text next h = Some (negb (bool_decide (text = [])) && negb (bool_decide (text = line)) &&
    negb (bool_decide (Some text = shown_at (up l) l))).
Proof.
  intros R En. unfold is_new. case_bool_decide as Et; [done|]. unfold line_at. rewrite En. cbn.
  case_bool_decide as El; [done|]. cbn. rewrite (ring_here h l R). cbn.
  assert (Er : exists oldest, lines h !! realpos h = Some oldest /\ (oldest <> None -> is_Some (shown_at (up l) l))).
  { exists (log_lines l !! 99%nat). destruct R as [Le Hr Li [Hu Hl] _]. split.
    - rewrite <- Li by (unfold HISTORY_SIZE; lia). f_equal; places.
    - intros Ho. apply not_eq_None_Some in Ho. apply lookup_lt_is_Some in Ho. unfold shown_at, HISTORY_SIZE in *.
      apply lookup_lt_is_Some. destruct (up l); lia. }
  destruct Er as (oldest & Er & Ho). destruct (shown_at (up l) l) as [here|] eqn:Es.
  - rewrite some_text_eq. cbn. case_bool_decide; cbn; [done|]. rewrite Er. cbn. destruct oldest; done.
  - cbn. rewrite Er. cbn. destruct oldest; [destruct Ho; [done|congruence]|done].
Qed.

Lemma history_up_spec text h l :
  ring h l -> exists h', history_up text h = Some ((log_up text l).1, h') /\ ring h' (log_up text l).2.
Proof.
  intros R. pose proof R as [Le Hr Li [Hu Hl] Hp]. unfold history_up, log_up.
  assert (Et : (if Nat.eqb (realpos h) (HISTORY_SIZE - 1) then Nat.eqb (pos h) 0 else Nat.eqb (pos h) (S (realpos h))) = Nat.eqb (up l) 99).
  { rewrite Hp. clear Hp. places. }
  rewrite Et. destruct (Nat.eqb_spec (up l) 99) as [E99|N99]; [by exists h|].
  cbv zeta. set (next := match pos h with O => (HISTORY_SIZE - 1)%nat | S p => p end).
  assert (En : next = place (realpos h) (up l)) by (unfold next; destruct (pos h) eqn:E; places).
  assert (Ln : lines h !! next = Some (log_lines l !! up l)) by (rewrite En; apply Li; unfold HISTORY_SIZE in *; lia).
  assert (Lx : line_at next h = Some (log_lines l !! up l)) by exact Ln. rewrite Lx. cbn. destruct (log_lines l !! up l) as [line|] eqn:Ell; [|by exists h].
  assert (Hlt : (up l < length (log_lines l))%nat) by (apply lookup_lt_is_Some; eauto).
  rewrite (is_new_spec text next line h l R Ln). cbn.
  destruct (_ && _ && _).
  - assert (Ra := ring_add text h l R). destruct Ra as [La Ra Lia _ _].
    assert (Eadd : line_at next (history_add text h) = Some (Some line)).
    { unfold line_at. cbn. rewrite list_lookup_insert_ne; [done|]. rewrite En. clear -Hr Hu N99. places. }
    rewrite Eadd. cbn. eexists. split; [reflexivity|]. split; [exact La|exact Ra|exact Lia| |].
    + cbn. destruct (Nat.eqb_spec (up l) 98); unfold HISTORY_SIZE in *; lia.
    + cbn [pos set_pos realpos history_add up snd log_add]. rewrite En. clear -Hr Hu N99. places.
  - rewrite Lx. cbn. eexists. split; [reflexivity|]. split; [exact Le|exact Hr|exact Li| |].
    + cbn. unfold HISTORY_SIZE in *. lia.
    + cbn [pos set_pos realpos history_add up snd log_add]. rewrite En. clear -Hr Hu N99. places.
Qed.

Lemma history_down_spec h l :
  ring h l -> exists h', history_down h = Some ((log_down l).1, h') /\ ring h' (log_down l).2.
Proof.
  intros R. pose proof R as [Le Hr Li [Hu Hl] Hp]. unfold history_down, log_down.
  assert (E0 : Nat.eqb (pos h) (realpos h) = Nat.eqb (up l) 0) by (rewrite Hp; clear Hp; places).
  assert (E1 : up l <> O -> (if Nat.eqb (realpos h) 0 then Nat.eqb (pos h) (HISTORY_SIZE - 1) else Nat.eqb (pos h) (realpos h - 1)) = Nat.eqb (up l) 1)
    by (intros Hn; rewrite Hp; clear Hp; places).
  rewrite E0. destruct (up l) as [|[|k]] eqn:Eu; [exists h; split; [done|by destruct l; cbn in *; subst]|..].
  - rewrite E1 by done. cbn. eexists. split; [reflexivity|]. split; [exact Le|exact Hr|exact Li|cbn; unfold HISTORY_SIZE in *; lia|].
    cbn [pos set_pos realpos up snd]. rewrite Hp. clear -Hr. places.
  - rewrite E1 by done. cbn [Nat.eqb]. cbv zeta. set (next := if Nat.ltb (pos h) (HISTORY_SIZE - 1) then S (pos h) else O).
    assert (En : next = place (realpos h) k) by (unfold next; rewrite Hp; clear -Hr Hu; places).
    unfold line_at. rewrite En, Li by (unfold HISTORY_SIZE in *; lia). cbn.
    destruct (lookup_lt_is_Some_2 (log_lines l) k) as [line Ek]; [lia|]. rewrite Ek. eexists. split; [reflexivity|].
    split; [exact Le|exact Hr|exact Li|cbn; unfold HISTORY_SIZE in *; lia|]. cbn [pos set_pos realpos up snd]. clear -Hr Hu. places.
Qed.

(** C38.  Whatever is typed and however the user walks up and down: nothing outside
    the ring is read, no NULL line is compared, and every answer is the one of the log of all
    lines, of which the newest 99 can be reached. *)
Theorem history_walks_the_log l :
  exists h, acts l history_new = Some (log_acts l (Log [] 0), h).
Proof.
  assert (G : forall l h g, ring h g -> exists h', acts l h = Some (log_acts l g, h')); [|apply G, ring_new].
  clear l. induction l as [|a l IH]; intros h g R; [by exists h|]. cbn.
  assert (Ha : exists h', act a h = Some ((log_act a g).1, h') /\ ring h' (log_act a g).2).
  { destruct a as [text|text|]; [eexists; split; [reflexivity|by apply ring_add]|by apply history_up_spec|by apply history_down_spec]. }
  destruct Ha as (h1 & -> & R1). cbn. destruct (log_act a g) as [r g1]. cbn in R1 |- *.
  destruct (IH h1 g1 R1) as (h2 & ->). by exists h2.
Qed.

(** From the oldest line that can be reached, an edited line takes the user back to
    the bottom: 98 steps up, then one with new text. *)
Example edited_at_the_top :
  let typed := map (fun n => Add (replicate (S n) "x"%char)) (seq 0 120) in
  let '(r, _) := default ([], history_new) (acts (typed ++ replicate 98 (Up []) ++ [Up ["y"%char]; Down; Up []]) history_new) in
  drop 218 r = [Some (replicate 22 "x"%char); None; Some ["y"%char]].
Proof. vm_compute. reflexivity. Qed.
