(* ===== verification/Input.v ===== *)
(** * What the user enters (src/common/outbound.c)

    The table of commands and its search, the expansion of user commands
    ([auto_insert]) and of the commands of a network ([command_insert_vars]), long
    texts cut into messages ([split_up_text]), the completion of a nick, lines of a paste, and
    the typing indicator.  [None] is undefined behaviour. *)
From S2P Require Import Prelude Glib Casemap Text Access Modes Server Proto.

(** ** The table of commands *)

Record command := Command {
  cmd_name : string; needserver : bool; needchannel : bool; handle_quotes : bool; has_help : bool }.

Definition xc_cmds : list command := [
  Command "ADDBUTTON" false false true true;
  Command "ADDSERVER" false false true true;
  Command "ALLCHAN" false false true true;
  Command "ALLCHANL" false false true true;
  Command "ALLSERV" false false true true;
  Command "AWAY" true false true true;
  Command "BACK" true false true true;
  Command "BAN" true true true true;
  Command "CHANOPT" false false true true;
  Command "CHARSET" false false true true;
  Command "CLEAR" false false true true;
  Command "CLOSE" false false true true;
  Command "COUNTRY" false false true true;
  Command "CTCP" true false true true;
  Command "CYCLE" true true true true;
  Command "DCC" false false true true;
  Command "DEBUG" false false true false;
  Command "DEHOP" true true true true;
  Command "DELBUTTON" false false true true;
  Command "DEOP" true true true true;
  Command "DEVOICE" true true true true;
  Command "DISCON" false false true true;
  Command "DNS" false false true true;
  Command "DOAT" false false true true;
  Command "ECHO" false false true true;
  Command "EXEC" false false true true;
  Command "EXECCONT" false false true true;
  Command "EXECKILL" false false true true;
  Command "EXECSTOP" false false true true;
  Command "EXECWRITE" false false true true;
  Command "FLUSHQ" false false true true;
  Command "GAPS" true false true true;
  Command "GATE" false false true true;
  Command "GETBOOL" false false true true;
  Command "GETFILE" false false true true;
  Command "GETINT" false false true true;
  Command "GETSTR" false false true true;
  Command "GHOST" true false true true;
  Command "GUI" false false true true;
  Command "HELP" false false true false;
  Command "HISTORY" true false true true;
  Command "HOP" true true true true;
  Command "ID" true false true true;
  Command "IGNORE" false false true true;
  Command "INVITE" true false true true;
  Command "JOIN" true false false true;
  Command "KICK" true true true true;
  Command "KICKBAN" true true true true;
  Command "KILLALL" false false true true;
  Command "LAGCHECK" false false true true;
  Command "LASTLOG" false false true true;
  Command "LIST" true false true false;
  Command "LOAD" false false true true;
  Command "MARKREAD" true false true true;
  Command "MDEHOP" true true true true;
  Command "MDEOP" true true true true;
  Command "ME" false false true true;
  Command "MENU" false false true true;
  Command "METADATA" true false true true;
  Command "MHOP" true true true true;
  Command "MKICK" true true true true;
  Command "MODE" true false true false;
  Command "MONITOR" true false true true;
  Command "MOP" true true true true;
  Command "MSG" false false true true;
  Command "NAMES" true false true true;
  Command "NCTCP" true false true true;
  Command "NEWSERVER" false false true true;
  Command "NICK" false false true true;
  Command "NOTICE" true false true true;
  Command "NOTIFY" false false true true;
  Command "OP" true true true true;
  Command "PART" true true false true;
  Command "PERSISTENCE" true false true true;
  Command "PING" true false true true;
  Command "QUERY" false false true true;
  Command "QUIET" true true true true;
  Command "QUIT" false false true true;
  Command "QUOTE" true false true true;
  Command "REACT" true false true true;
  Command "RECONNECT" false false true true;
  Command "RECV" true false true true;
  Command "REDACT" true false true true;
  Command "REGISTER" true false true true;
  Command "RELOAD" false false true true;
  Command "REPLY" true false true true;
  Command "SAY" false false true true;
  Command "SEND" false false true true;
  Command "SERVCHAN" false false true true;
  Command "SERVER" false false true true;
  Command "SET" false false true true;
  Command "SETCURSOR" false false true true;
  Command "SETTAB" false false true true;
  Command "SETTEXT" false false true true;
  Command "SPLAY" false false true true;
  Command "TAGMSG" true false true true;
  Command "TOAST" false false true true;
  Command "TOPIC" true true true true;
  Command "TRAY" false false true true;
  Command "UNBAN" true true true true;
  Command "UNIGNORE" false false true true;
  Command "UNLOAD" false false true true;
  Command "UNQUIET" true true true true;
  Command "UNREACT" true false true true;
  Command "URL" false false true true;
  Command "USELECT" false true false true;
  Command "USERLIST" true true true false;
  Command "VERIFY" true false true true;
  Command "VOICE" true true true true;
  Command "WALLCHOP" true true true true].

Definition TBUFSIZE : Z := 4096.
Definition NICKLEN : Z := 64.

Section glib.
Context `{GLib}.

(** [bsearch] of the C library over the rows from [lo] up to [hi]. *)
Fixpoint bsearch (fuel : nat) (cmp : command -> Z) (base : list command) (lo hi : nat) : option command :=
  match fuel with
  | O => None
  | S fuel =>
      if Nat.leb hi lo then None
      else
        let idx := Nat.div (lo + hi) 2 in
        c ← base !! idx;
        let r := cmp c in
        if r =? 0 then Some c
        else if r <? 0 then bsearch fuel cmp base lo idx else bsearch fuel cmp base (S idx) hi
  end.

Definition command_compare (name : cstr) (c : command) : Z := g_ascii_strcasecmp name (cmd_name c : cstr).

Definition find_internal_command (name : cstr) : option command :=
  bsearch (S (length xc_cmds)) (command_compare name) xc_cmds 0 (length xc_cmds).

(** ** auto_insert *)

(** What the letters after a percent sign stand for; [v_time] is [ctime] and
    [v_date] the date, [to_utf8] is [g_locale_to_utf8] of one byte. *)
Record vars := Vars {
  v_a : option cstr; v_c : option cstr; v_d : option cstr; v_e : option cstr; v_h : option cstr; v_n : option cstr;
  v_s : option cstr; v_u : option cstr; v_sys : option cstr; v_time : cstr; v_version : cstr; v_date : cstr;
  to_utf8 : ascii -> option cstr }.

Definition var_of (v : vars) (letter : ascii) : option (option cstr) :=
  if letter =c "a" then Some (v_a v)
  else if letter =c "c" then Some (v_c v)
  else if letter =c "d" then Some (v_d v)
  else if letter =c "e" then Some (v_e v)
  else if letter =c "h" then Some (v_h v)
  else if letter =c "m" then Some (v_sys v)
  else if letter =c "n" then Some (v_n v)
  else if letter =c "s" then Some (v_s v)
  else if letter =c "t" then Some (Some (take 19 (v_time v)))
  else if letter =c "u" then Some (v_u v)
  else if letter =c "v" then Some (Some (v_version v))
  else if letter =c "y" then Some (Some (v_date v))
  else None.

(** The three digits after the sign as a byte. *)
Definition code_byte (d1 d2 d3 : ascii) : ascii :=
  ascii_of_N (Z.to_N ((100 * (uchar d1 - 48) + 10 * (uchar d2 - 48) + (uchar d3 - 48)) mod 256)).

(** The text is [dest] so far, [term] tells that a NUL is behind it already; [room] is
    [destlen] after it was decremented, one less than the size of the buffer. *)
Fixpoint insert_loop (fuel : nat) (room : Z) (v : vars) (word word_eol : option (list cstr)) (src dest : cstr) (term : bool)
    : option (Z * cstr * bool) :=
  match fuel with
  | O => None
  | S fuel =>
      let go := insert_loop fuel room v word word_eol in
      let fits (l : Z) := Z.of_nat (length dest) + l <? room in
      let writable := Z.of_nat (length dest) <=? room in
      let full := Some (2, dest, term) in
      let lamecode (c : ascii) (src : cstr) := if writable then go src (dest ++ [c]) false else None in
      match src with
      | [] => if writable then Some (1, dest, true) else None
      | c :: rest =>
          if (c =c "%") || (c =c "&") then
            let d1 := peek rest in
            let rest1 := tail rest in
            if isdigit d1 then
              if isdigit (peek rest1) && isdigit (peek (tail rest1)) then
                if writable then
                  match to_utf8 v (code_byte d1 (peek rest1) (peek (tail rest1))) with
                  | Some utf => if fits (Z.of_nat (length utf)) then go (drop 2 rest1) (dest ++ utf) false else Some (2, dest, false)
                  | None => go (drop 2 rest1) dest false
                  end
                else None
              else
                match word with
                | Some word =>
                    let num := Z.to_nat (uchar d1 - 48) in
                    w ← word !! num;
                    match w with
                    | [] => Some (0, dest, term)
                    | _ =>
                        utf ← (if c =c "%" then Some w else weol ← word_eol; weol !! num);
                        if fits (Z.of_nat (length utf)) then go rest1 (dest ++ utf) true else full
                    end
                | None => go rest dest term
                end
            else if c =c "&" then lamecode c rest
            else if d1 =c "%" then if fits 2 then go rest1 (dest ++ ["%"%char]) true else full
            else match var_of v d1 with
            | Some (Some utf) => if fits (Z.of_nat (length utf)) then go rest1 (dest ++ utf) true else full
            | Some None => go rest1 dest term
            | None => lamecode c rest
            end
          else
            let len := g_utf8_skip c in
            if negb (fits len) then full
            else if len =? 1 then lamecode c rest
            else if Z.of_nat (length src) <? len then None
            else go (drop (Z.to_nat len) src) (dest ++ take (Z.to_nat len) src) false
      end
  end.

(** What is returned, what the buffer then holds, and whether that has its NUL. *)
Definition auto_insert (destlen : Z) (src : cstr) (word word_eol : option (list cstr)) (v : vars) : option (Z * cstr * bool) :=
  insert_loop (S (length src)) (destlen - 1) v word word_eol src [] false.

(** ** split_up_text *)

(** GLib's search from the right in the first bytes, and the number of characters
    before a position. *)
Class Utf8Search := {
  g_utf8_strrchr : cstr -> nat -> ascii -> option nat;
  g_utf8_pointer_to_offset : cstr -> nat -> Z }.

Context `{Utf8Search}.

(** Where the text is cut: whole characters before [max]. *)
Fixpoint cut_point (fuel : nat) (text : cstr) (i max : Z) : option Z :=
  match fuel with
  | O => None
  | S fuel =>
      c ← (if i =? Z.of_nat (length text) then Some NUL else text !! Z.to_nat i);
      let size := g_utf8_skip c in
      if max <=? i + size then Some i else cut_point fuel text (i + size) max
  end.

(** Our own prefix as the server sends it on. *)
Record target := Target { t_nick : cstr; t_channel : cstr; t_hostname : option cstr }.

Definition max_text (t : target) (cmd_length : Z) : Z :=
  wrap_u32 (512 - 3 - cmd_length - Z.of_nat (length (t_nick t)) - Z.of_nat (length (t_channel t)) -
    match t_hostname t with Some h => Z.of_nat (length h) | None => 9 + 65 end).

(** None inside: the text need not be cut. *)
Definition split_up_text (t : target) (text : cstr) (cmd_length : Z) : option (option cstr) :=
  let max := max_text t cmd_length in
  if max <? Z.of_nat (length text) then
    max ← cut_point (S (length text)) text 0 max;
    let max :=
      match g_utf8_strrchr text (Z.to_nat max) " " with
      | Some space =>
          let space_offset := wrap_u32 (g_utf8_pointer_to_offset text space) in
          if negb (max =? space_offset) && (wrap_u32 (max - space_offset) <? 20) then space_offset + 1 else max
      | None => max
      end in
    Some (Some (take (Z.to_nat max) text))
  else Some None.

(** The loop of the callers: the pieces, and what is left behind the last of them. *)
Fixpoint pieces (fuel : nat) (t : target) (text : cstr) (cmd_length : Z) : option (list cstr) :=
  match fuel with
  | O => None
  | S fuel =>
      p ← split_up_text t text cmd_length;
      match p with
      | None => Some [text]
      | Some split_text =>
          rest ← pieces fuel t (drop (length split_text) text) cmd_length;
          Some (split_text :: rest)
      end
  end.

(** ** Completion of a nick *)

(** [before s c]: the text up to the first [c], if there is one. *)
Fixpoint strchr (s : cstr) (c : ascii) : option nat :=
  match s with [] => None | x :: s => if x =c c then Some O else S <$> strchr s c end.

(** [nick_comp_cb] over the users in the order of the tree: the first nick that is the
    whole word, else the shortest that begins with it. *)
Fixpoint nick_comp (nicks : list cstr) (nick : cstr) (best : option cstr) : option cstr :=
  match nicks with
  | [] => best
  | u :: nicks =>
      if rfc_ncasecmp u nick (Z.of_nat (length nick)) =? 0 then
        if Nat.eqb (length u) (length nick) then Some u
        else nick_comp nicks nick (match best with
          | Some b => if Nat.ltb (length u) (length b) then Some u else best
          | None => Some u end)
      else nick_comp nicks nick best
  end.

(** None: the copy is larger than the buffer of [size] bytes. *)
Definition perform_nick_completion (nicks : list cstr) (completion_suffix : cstr) (cmd : cstr) (size : Z) : option cstr :=
  let copied := if Z.of_nat (length cmd) <? size then Some cmd else None in
  match strchr cmd " " with
  | Some (S before) =>
      if (nth before cmd NUL =c peek completion_suffix) && negb (Nat.eqb before 0) && (Z.of_nat before <? NICKLEN) then
        match nick_comp nicks (take before cmd) None with
        | Some nick => Some (take (Z.to_nat TBUFSIZE - 1) (nick ++ drop before cmd))
        | None => copied
        end
      else copied
  | _ => copied
  end.
End glib.

(** ** The commands of a network *)

Record network_vars := NetworkVars { n_nick : option cstr; n_pass : option cstr; n_real : option cstr; n_user : option cstr }.
Record own_prefs := OwnPrefs { irc_nick1 : cstr; irc_real_name : cstr; irc_user_name : cstr }.

(** None: the copy goes on behind the end of the text. *)
Fixpoint insert_vars (fuel : nat) (net : network_vars) (p : own_prefs) (cmd : cstr) : option cstr :=
  match fuel with
  | O => None
  | S fuel =>
      match strchr cmd "%" with
      | None => Some cmd
      | Some pos =>
          let put (text : cstr) (rest : cstr) := rest ← insert_vars fuel net p rest; Some (take pos cmd ++ text ++ rest) in
          match drop (S pos) cmd with
          | [] => None
          | c :: rest =>
              if c =c "n" then put (default (irc_nick1 p) (n_nick net)) rest
              else if c =c "p" then put (default [] (n_pass net)) rest
              else if c =c "r" then put (default (irc_real_name p) (n_real net)) rest
              else if c =c "u" then put (default (irc_user_name p) (n_user net)) rest
              else put ["%"%char; c] rest
          end
      end
  end.

Definition command_insert_vars (net : option network_vars) (p : own_prefs) (cmd : cstr) : option cstr :=
  match net with None => Some cmd | Some net => insert_vars (S (length cmd)) net p cmd end.

(** ** Lines of a paste *)

Definition is_newline (c : ascii) : bool := (c =c LF) || (c =c CR).

(** [strcspn (p, newlines)] splits the text before the first newline. *)
Fixpoint next_line (s : cstr) : cstr * option cstr :=
  match s with
  | [] => ([], None)
  | c :: s => if is_newline c then ([], Some s) else let '(l, rest) := next_line s in (c :: l, rest)
  end.

(** The lines the fallback of [handle_multiline] hands on, one by one. *)
Fixpoint input_lines (fuel : nat) (cmd : cstr) : list cstr :=
  match fuel, cmd with
  | O, _ | _, [] => []
  | S fuel, _ =>
      let '(l, rest) := next_line cmd in
      l :: match rest with Some rest => input_lines fuel rest | None => [] end
  end.

Definition escaped (cmd_char : ascii) (p : cstr) : bool := (peek p =c cmd_char) && (peek (tail p) =c cmd_char).

(** Every line is plain text. *)
Fixpoint all_text (fuel : nat) (cmd_char : ascii) (p : cstr) : bool :=
  match fuel, p with
  | O, _ | _, [] => true
  | S fuel, c :: _ =>
      if (c =c cmd_char) && negb (peek (tail p) =c cmd_char) then false
      else match (next_line p).2 with Some rest => all_text fuel cmd_char rest | None => true end
  end.

(** The lines of a batch. *)
Fixpoint batch_lines (fuel : nat) (cmd_char : ascii) (p : cstr) : list cstr :=
  match fuel with
  | O => []
  | S fuel =>
      let '(l, rest) := next_line p in
      let l := if escaped cmd_char l then [tail l] else match l with [] => [] | _ => [l] end in
      l ++ match rest with Some rest => batch_lines fuel cmd_char rest | None => [] end
  end.

(** What becomes of the text: the lines go out in a batch, or are handled one by one until
    one is refused. *)
Inductive entered := AsBatch (lines : list cstr) | OneByOne (lines : list cstr).

(** The split puts a NUL over every newline, and the fallback reads the buffer again: of a
    text of one line it sees what is before the first of them. *)
Definition handle_multiline (have_multiline : bool) (max_lines : Z) (cmd_char : ascii) (cmd : cstr) : entered :=
  let fallback (cmd : cstr) := OneByOne (input_lines (S (length cmd)) cmd) in
  if have_multiline && (1 <? max_lines) && bool_decide (LF ∈ cmd) && all_text (S (length cmd)) cmd_char cmd then
    let lines := batch_lines (S (length cmd)) cmd_char cmd in
    if Nat.leb 2 (length lines) then AsBatch lines else fallback (next_line cmd).1
  else fallback cmd.

(** ** The typing indicator *)

(** [ty_timer]: the timer of 3 seconds runs; the times are those of the monotonic
    clock in microseconds, 0 for never. *)
Record typing := Typing { ty_timer : bool; ty_last_sent : Z; ty_last_keystroke : Z; ty_self_echo_until : Z }.

Inductive typing_event := TypingActive | TypingPaused | TypingDone.

(** What the server and the window allow. *)
Record typing_env := TypingEnv {
  te_prefs_send : bool; te_connected : bool; te_message_tags : bool; te_channel_or_dialog : bool; te_channel : cstr;
  te_allowed : bool; te_cmd_char : ascii }.

Definition TYPING_SEND_EXPIRE_US : Z := 6000000.
Definition TYPING_SELF_ECHO_WINDOW_US : Z := 5000000.

Definition typing_told (e : typing_env) (ev : typing_event) : list typing_event := if te_allowed e then [ev] else [].

Definition typing_send_active (e : typing_env) (now : Z) (t : typing) : typing * list typing_event :=
  (Typing true now (ty_last_keystroke t) (now + TYPING_SELF_ECHO_WINDOW_US), typing_told e TypingActive).

Definition typing_send_timer_cb (e : typing_env) (now : Z) (t : typing) : typing * list typing_event :=
  if ty_last_sent t <? ty_last_keystroke t then typing_send_active e now t
  else (Typing false 0 (ty_last_keystroke t) (now + TYPING_SELF_ECHO_WINDOW_US), typing_told e TypingPaused).

Definition typing_indicator_cancel (e : typing_env) (now : Z) (t : typing) : typing * list typing_event :=
  let sent := negb (ty_last_sent t =? 0) && te_connected e && te_message_tags e && negb (bool_decide (te_channel e = [])) in
  (Typing false 0 (ty_last_keystroke t) (if sent then now + TYPING_SELF_ECHO_WINDOW_US else ty_self_echo_until t),
   if sent then typing_told e TypingDone else []).

Section typing.
Context `{GLib}.

(** [text]: the contents of the input box. *)
Definition is_command_text (cmd_char : ascii) (text : cstr) : bool :=
  (peek text =c cmd_char) && negb (peek (tail text) =c cmd_char) &&
  negb (g_ascii_strncasecmp (tail text) ("me " : cstr) 3 =? 0).

Definition typing_indicator_keystroke (e : typing_env) (text : cstr) (now : Z) (t : typing) : typing * list typing_event :=
  if negb (te_prefs_send e && te_connected e && te_message_tags e && te_channel_or_dialog e && negb (bool_decide (te_channel e = [])))
  then (t, [])
  else match text with
  | [] => typing_indicator_cancel e now t
  | _ =>
      if is_command_text (te_cmd_char e) text then typing_indicator_cancel e now t
      else
        let t := Typing (ty_timer t) (ty_last_sent t) now (ty_self_echo_until t) in
        if (ty_last_sent t =? 0) || (TYPING_SEND_EXPIRE_US <=? now - ty_last_sent t) then typing_send_active e now t
        else (t, [])
  end.
End typing.
