(* ===== verification/InputSpec.v ===== *)
(** * What the user enters: the theorems

    The search of the table of commands finds what is in it; long texts are sent
    whole, in pieces that fit a line; an expansion does not write behind its
    buffer; an active typing indicator is taken back. *)
From S2P Require Import Prelude Glib Casemap Text Access Modes Server Proto Input.

(** ** The table *)

(** The documented sign of the comparison. *)
Class StrcasecmpSign (G : GLib) : Prop :=
  g_ascii_strcasecmp_sgn s1 s2 : nonul s1 -> nonul s2 -> Z.sgn (g_ascii_strcasecmp s1 s2) = Z.sgn (strcasecmp_ref s1 s2).

Lemma strcasecmp_ref_trans a b c :
  nonul a -> nonul b -> nonul c -> strcasecmp_ref a b <= 0 -> strcasecmp_ref b c < 0 -> strcasecmp_ref a c < 0.
Proof.
  revert b c. induction a as [|x a IH]; intros b c Na Nb Nc Hab Hbc.
  - destruct c as [|z c]; [destruct b as [|y b]; cbn in *; [done|]; apply nonul_cons in Nb as [Hy _]; apply uchar_pos in Hy;
      change (uchar NUL) with 0 in *; lia|].
    apply nonul_cons in Nc as [Hz _]. apply uchar_pos in Hz. cbn. change (uchar NUL) with 0. lia.
  - apply nonul_cons in Na as [Hx Na]. destruct b as [|y b].
    { cbn in Hab. apply uchar_pos in Hx. change (uchar NUL) with 0 in *. lia. }
    apply nonul_cons in Nb as [Hy Nb]. destruct c as [|z c].
    { cbn in Hbc. apply uchar_pos in Hy. change (uchar NUL) with 0 in *. lia. }
    apply nonul_cons in Nc as [Hz Nc]. cbn in *.
    destruct (Z.eqb_spec (uchar (ascii_lower x)) (uchar (ascii_lower y)));
      destruct (Z.eqb_spec (uchar (ascii_lower y)) (uchar (ascii_lower z)));
      destruct (Z.eqb_spec (uchar (ascii_lower x)) (uchar (ascii_lower z))); try lia.
    by apply (IH b c).
Qed.

(** The rows are in the order the binary search relies on. *)
Fixpoint sorted_names (l : list command) : bool :=
  match l with
  | c :: ((c' :: _) as l') => (strcasecmp_ref (cmd_name c : cstr) (cmd_name c' : cstr) <? 0) && sorted_names l'
  | _ => true
  end.

Definition plain_name (c : command) : bool := forallb (fun x => negb (x =c NUL)) (cmd_name c : cstr).

Lemma xc_cmds_sorted : sorted_names xc_cmds = true.
Proof. vm_compute. reflexivity. Qed.

Lemma xc_cmds_plain : forallb plain_name xc_cmds = true.
Proof. vm_compute. reflexivity. Qed.

Lemma plain_name_nonul c : plain_name c = true -> nonul (cmd_name c : cstr).
Proof.
  unfold plain_name. intros Hp. apply Forall_forall. intros x Hx. rewrite forallb_forall in Hp.
  apply list_elem_of_In in Hx. specialize (Hp x Hx). apply negb_true_iff in Hp. by destruct (Ascii.eqb_spec x NUL).
Qed.

Lemma sorted_names_lookup l i j c d :
  forallb plain_name l = true -> sorted_names l = true -> (i < j)%nat -> l !! i = Some c -> l !! j = Some d ->
  strcasecmp_ref (cmd_name c : cstr) (cmd_name d : cstr) < 0.
Proof.
  revert i j c d. induction l as [|x l IH]; intros i j c d P S Hij Ei Ej; [done|].
  cbn [forallb] in P. apply andb_prop in P as [Px Pl].
  destruct l as [|y l].
  { destruct j as [|j]; [lia|done]. }
  cbn [sorted_names] in S. apply andb_prop in S as [Sxy Sl]. apply Z.ltb_lt in Sxy.
  destruct i as [|i].
  - injection Ei as <-. destruct j as [|[|j]]; [lia|by injection Ej as <-|].
    apply (strcasecmp_ref_trans _ (cmd_name y : cstr)); [by apply plain_name_nonul| | |lia|].
    + apply plain_name_nonul. cbn in Pl. by apply andb_prop in Pl as [? _].
    + apply plain_name_nonul. rewrite forallb_forall in Pl. apply Pl, list_elem_of_In. apply list_elem_of_lookup_2 with (S j). exact Ej.
    + apply (IH 0%nat (S j)); [exact Pl|exact Sl|lia|reflexivity|exact Ej].
  - destruct j as [|j]; [lia|]. apply (IH i j); [exact Pl|exact Sl|lia|exact Ei|exact Ej].
Qed.

(** A binary search: rows before [lo] are below, rows from [hi] on above what is looked for. *)
Lemma bsearch_spec cmp base fuel lo hi :
  (hi <= length base)%nat -> (hi - lo < fuel)%nat ->
  (forall i j c d, (i < j)%nat -> base !! i = Some c -> base !! j = Some d ->
     (cmp c <= 0 -> cmp d < 0) /\ (0 <= cmp d -> 0 < cmp c)) ->
  match bsearch fuel cmp base lo hi with
  | Some c => c ∈ base /\ cmp c = 0
  | None => forall i c, (lo <= i < hi)%nat -> base !! i = Some c -> cmp c <> 0
  end.
Proof.
  intros Hh Hf Hm. revert lo hi Hh Hf. induction fuel as [|fuel IH]; intros lo hi Hh Hf; [lia|]. cbn [bsearch].
  destruct (Nat.leb_spec hi lo) as [|Hlt]; [intros i c Hi; lia|].
  set (idx := Nat.div (lo + hi) 2). assert (Hidx : (lo <= idx < hi)%nat).
  { unfold idx. split; [apply Nat.div_le_lower_bound; lia|apply Nat.Div0.div_lt_upper_bound; lia]. }
  destruct (base !! idx) as [c|] eqn:Ei; [|apply lookup_ge_None in Ei; lia]. cbn [mbind option_bind].
  destruct (Z.eqb_spec (cmp c) 0) as [E0|N0]; [split; [by apply list_elem_of_lookup_2 with idx|done]|].
  destruct (Z.ltb_spec (cmp c) 0) as [Hneg|Hpos].
  - specialize (IH lo idx ltac:(lia) ltac:(lia)). destruct (bsearch fuel cmp base lo idx) as [d|]; [done|].
    intros i d Hi Ed. destruct (decide (i < idx)%nat); [apply (IH i); [lia|done]|].
    destruct (decide (i = idx)) as [->|]; [congruence|]. destruct (Hm idx i c d ltac:(lia) Ei Ed) as [Hd _].
    specialize (Hd ltac:(lia)). lia.
  - specialize (IH (S idx) hi ltac:(lia) ltac:(lia)). destruct (bsearch fuel cmp base (S idx) hi) as [d|]; [done|].
    intros i d Hi Ed. destruct (decide (idx < i)%nat); [apply (IH i); [lia|done]|].
    destruct (decide (i = idx)) as [->|]; [congruence|]. destruct (Hm i idx d c ltac:(lia) Ed Ei) as [_ Hc].
    specialize (Hc ltac:(lia)). lia.
Qed.

Lemma strcasecmp_ref_anti a b : strcasecmp_ref a b = - strcasecmp_ref b a.
Proof.
  revert b. induction a as [|x a IH]; intros [|y b]; cbn; [lia..|].
  rewrite (Z.eqb_sym (uchar (ascii_lower y))). destruct (Z.eqb_spec (uchar (ascii_lower x)) (uchar (ascii_lower y))); [apply IH|lia].
Qed.

Section table.
Context `{GL : GLibLaws} `{!StrcasecmpSign _}.

Lemma command_compare_mono name i j c d :
  nonul name -> (i < j)%nat -> xc_cmds !! i = Some c -> xc_cmds !! j = Some d ->
  (command_compare name c <= 0 -> command_compare name d < 0) /\ (0 <= command_compare name d -> 0 < command_compare name c).
Proof.
  intros Hn Hij Ec Ed.
  assert (P : forall k x, xc_cmds !! k = Some x -> nonul (cmd_name x : cstr)).
  { intros k x Ex. apply plain_name_nonul. pose proof xc_cmds_plain as A. rewrite forallb_forall in A.
    apply A, list_elem_of_In. by apply list_elem_of_lookup_2 with k. }
  pose proof (P i c Ec) as Nc. pose proof (P j d Ed) as Nd.
  pose proof (sorted_names_lookup xc_cmds i j c d xc_cmds_plain xc_cmds_sorted Hij Ec Ed) as Hcd.
  pose proof (g_ascii_strcasecmp_sgn name (cmd_name c : cstr) Hn Nc) as S1.
  pose proof (g_ascii_strcasecmp_sgn name (cmd_name d : cstr) Hn Nd) as S2. unfold command_compare. split; intros Hle.
  - assert (A : strcasecmp_ref name (cmd_name d : cstr) < 0) by (apply (strcasecmp_ref_trans _ (cmd_name c : cstr)); [done..|lia|done]). lia.
  - assert (A : 0 < strcasecmp_ref name (cmd_name c : cstr)).
    { rewrite strcasecmp_ref_anti. assert (B : strcasecmp_ref (cmd_name c : cstr) name < 0); [|lia].
      destruct (Z_lt_le_dec (strcasecmp_ref (cmd_name c : cstr) name) 0) as [|Hge]; [done|].
      assert (D : strcasecmp_ref name (cmd_name d : cstr) < 0).
      { apply (strcasecmp_ref_trans _ (cmd_name c : cstr)); [done..| |done]. rewrite strcasecmp_ref_anti. lia. }
      lia. }
    lia.
Qed.

Definition same_name (name : cstr) (c : command) : bool := bool_decide (map ascii_lower name = map ascii_lower (cmd_name c : cstr)).

(** C39.  The binary search finds every command of the table, in whatever case its name is
    typed, and nothing else. *)
Theorem find_internal_command_finds name :
  nonul name -> find_internal_command name = List.find (same_name name) xc_cmds.
Proof.
  intros Hn. unfold find_internal_command.
  assert (Z0 : forall k c, xc_cmds !! k = Some c -> command_compare name c = 0 <-> same_name name c = true).
  { intros k c Ec. unfold command_compare, same_name. rewrite bool_decide_eq_true. apply g_ascii_strcasecmp_zero; [done|].
    apply plain_name_nonul. pose proof xc_cmds_plain as A. rewrite forallb_forall in A.
    apply A, list_elem_of_In. by apply list_elem_of_lookup_2 with k. }
  pose proof (bsearch_spec (command_compare name) xc_cmds (S (length xc_cmds)) 0 (length xc_cmds) ltac:(lia) ltac:(lia)
    (fun i j c d Hij Ec Ed => command_compare_mono name i j c d Hn Hij Ec Ed)) as B.
  destruct (bsearch _ _ _ _ _) as [c|].
  - destruct B as [Hin E0]. apply list_elem_of_lookup in Hin as [k Ek].
    destruct (List.find (same_name name) xc_cmds) as [d|] eqn:Ef.
    + apply List.find_some in Ef as [Hd Ed]. apply list_elem_of_In, list_elem_of_lookup in Hd as [m Em].
      apply (Z0 m d Em) in Ed. destruct (Nat.lt_trichotomy k m) as [Hlt|[->|Hlt]].
      * destruct (command_compare_mono name k m c d Hn Hlt Ek Em) as [Hm _]. specialize (Hm ltac:(lia)). lia.
      * congruence.
      * destruct (command_compare_mono name m k d c Hn Hlt Em Ek) as [Hm _]. specialize (Hm ltac:(lia)). lia.
    + pose proof (List.find_none _ _ Ef c) as Hc. apply (Z0 k c Ek) in E0. rewrite Hc in E0; [done|].
      apply list_elem_of_In. by apply list_elem_of_lookup_2 with k.
  - destruct (List.find (same_name name) xc_cmds) as [d|] eqn:Ef; [|done]. exfalso.
    apply List.find_some in Ef as [Hd Ed]. apply list_elem_of_In, list_elem_of_lookup in Hd as [m Em].
    apply (Z0 m d Em) in Ed. apply (B m d); [|done|done]. apply lookup_lt_Some in Em. lia.
Qed.
End table.

(** ** Long texts *)

(** What GLib documents of the two functions. *)
Class Utf8SearchLaws `{!Utf8Search} : Prop := {
  g_utf8_strrchr_some s len c i : g_utf8_strrchr s len c = Some i -> (i < len)%nat;
  g_utf8_pointer_to_offset_bound s p : 0 <= g_utf8_pointer_to_offset s p <= Z.of_nat p }.

(** The line the server sends on to the others. *)
Definition relayed (t : target) (user_host text : cstr) : cstr :=
  fmt [(":" : cstr); t_nick t; ("!" : cstr); user_host; (" PRIVMSG " : cstr); t_channel t; (" :" : cstr); text; EOL].

(** Of a length we know or assume. *)
Definition host_assumed (t : target) (user_host : cstr) : Prop :=
  match t_hostname t with Some h => user_host = h | None => (length user_host <= 74)%nat end.

(** What is left of 512 bytes. *)
Definition room_for_text (t : target) (cmd_length : Z) : Z :=
  512 - 3 - cmd_length - Z.of_nat (length (t_nick t)) - Z.of_nat (length (t_channel t)) -
    match t_hostname t with Some h => Z.of_nat (length h) | None => 74 end.

Section pieces.
Context `{GL : GLibLaws} `{UL : Utf8SearchLaws}.

Lemma max_text_room t cmd_length :
  0 <= cmd_length -> 0 <= room_for_text t cmd_length -> max_text t cmd_length = room_for_text t cmd_length.
Proof.
  intros Hc Hr. unfold max_text, room_for_text, wrap_u32 in *. apply Z.mod_small. change (9 + 65) with 74.
  destruct (t_hostname t); lia.
Qed.

Lemma cut_point_spec fuel text i max :
  0 <= i < max -> max <= Z.of_nat (length text) -> Z.of_nat (length text) - i < Z.of_nat fuel ->
  exists j, cut_point fuel text i max = Some j /\ i <= j < max.
Proof.
  revert i. induction fuel as [|fuel IH]; intros i Hi Hm Hf; [lia|]. cbn [cut_point].
  destruct (Z.eqb_spec i (Z.of_nat (length text))) as [|_]; [lia|].
  destruct (lookup_lt_is_Some_2 text (Z.to_nat i)) as [c Ec]; [lia|]. rewrite Ec. cbn [mbind option_bind].
  pose proof (g_utf8_skip_range c) as Hs. destruct (Z.leb_spec max (i + g_utf8_skip c)) as [|Hlt]; [exists i; split; [done|lia]|].
  destruct (IH (i + g_utf8_skip c)) as (j & -> & Hj); [lia..|]. exists j. split; [done|lia].
Qed.

(** With room for one character of any size the cut is not at the beginning. *)
Lemma cut_point_positive text max :
  7 <= max -> max <= Z.of_nat (length text) -> exists j, cut_point (S (length text)) text 0 max = Some j /\ 1 <= j < max.
Proof.
  intros H7 Hm. cbn [cut_point]. destruct (Z.eqb_spec 0 (Z.of_nat (length text))) as [|_]; [lia|].
  destruct (lookup_lt_is_Some_2 text (Z.to_nat 0)) as [c Ec]; [lia|]. rewrite Ec. cbn [mbind option_bind].
  pose proof (g_utf8_skip_range c) as Hs. destruct (Z.leb_spec max (0 + g_utf8_skip c)) as [|Hlt]; [lia|].
  destruct (cut_point_spec (length text) text (0 + g_utf8_skip c) max) as (j & -> & Hj); [lia..|]. exists j. split; [done|lia].
Qed.

Lemma split_up_text_spec t text cmd_length :
  0 <= cmd_length -> 7 <= room_for_text t cmd_length ->
  (split_up_text t text cmd_length = Some None /\ Z.of_nat (length text) <= room_for_text t cmd_length) \/
  exists k, split_up_text t text cmd_length = Some (Some (take k text)) /\ (1 <= k <= length text)%nat /\
    Z.of_nat k <= room_for_text t cmd_length.
Proof.
  intros Hc Hr. unfold split_up_text. rewrite max_text_room by lia.
  destruct (Z.ltb_spec (room_for_text t cmd_length) (Z.of_nat (length text))) as [Hlt|Hge]; [right|by left].
  destruct (cut_point_positive text (room_for_text t cmd_length) Hr ltac:(lia)) as (j & -> & Hj). cbn [mbind option_bind].
  assert (Hsmall : room_for_text t cmd_length < 2 ^ 32) by (unfold room_for_text in *; destruct (t_hostname t); lia).
  assert (Plain : exists k, Some (Some (take (Z.to_nat j) text)) = Some (Some (take k text)) /\ (1 <= k <= length text)%nat /\
    Z.of_nat k <= room_for_text t cmd_length) by (exists (Z.to_nat j); split; [done|lia]).
  destruct (g_utf8_strrchr text (Z.to_nat j) " ") as [space|] eqn:Es; [|exact Plain].
  apply g_utf8_strrchr_some in Es. pose proof (g_utf8_pointer_to_offset_bound text space) as Ho.
  assert (Hw : wrap_u32 (g_utf8_pointer_to_offset text space) = g_utf8_pointer_to_offset text space)
    by (unfold wrap_u32; apply Z.mod_small; lia).
  rewrite Hw. destruct (_ && _); [|exact Plain].
  exists (Z.to_nat (g_utf8_pointer_to_offset text space + 1)). split; [done|lia].
Qed.

Lemma pieces_spec fuel t text cmd_length :
  0 <= cmd_length -> 7 <= room_for_text t cmd_length -> (length text < fuel)%nat ->
  exists ps, pieces fuel t text cmd_length = Some ps /\ concat ps = text /\
    Forall (fun p => Z.of_nat (length p) <= room_for_text t cmd_length) ps.
Proof.
  intros Hc Hr. revert text. induction fuel as [|fuel IH]; intros text Hf; [lia|]. cbn [pieces].
  destruct (split_up_text_spec t text cmd_length Hc Hr) as [[-> Hl]|(k & -> & Hk & Hm)]; cbn [mbind option_bind].
  - exists [text]. split; [done|]. split; [cbn; by rewrite app_nil_r|]. by repeat constructor.
  - assert (Hlen : length (take k text) = k) by (rewrite length_take; lia). rewrite Hlen.
    destruct (IH (drop k text)) as (ps & -> & Ec & Hp); [rewrite length_drop; lia|]. cbn [mbind option_bind].
    exists (take k text :: ps). split; [done|]. split; [cbn; by rewrite Ec, take_drop|]. constructor; [lia|done].
Qed.

(** C35. A text of any length said to a channel goes out whole, and every piece of
    it fits the 512 bytes of the line in which the server passes it on, if nick,
    channel and host leave room for at least seven bytes, and the host is the one
    that is known or, unknown, no longer than what is left for it. Without room
    the pieces are empty for ever or too long ([InputCases.no_room_never_ends],
    [InputCases.the_room_wraps]). *)
Theorem long_text_is_sent_whole t user_host text :
  7 <= room_for_text t 13 -> host_assumed t user_host ->
  exists ps, pieces (S (length text)) t text 13 = Some ps /\ concat ps = text /\
    Forall (fun p => (length (relayed t user_host p) <= 512)%nat) ps.
Proof.
  intros Hr Hh. destruct (pieces_spec (S (length text)) t text 13 ltac:(lia) Hr ltac:(lia)) as (ps & E & Ec & Hp).
  exists ps. split; [done|]. split; [done|]. eapply Forall_impl; [exact Hp|]. intros p Hlen. cbn beta in Hlen.
  unfold relayed, fmt. cbn [concat]. rewrite !length_app. unfold host_assumed, room_for_text in *. cbn.
  destruct (t_hostname t); subst; lia.
Qed.
End pieces.

(** ** The typing indicator *)

#[export] Instance typing_event_eq : EqDecision typing_event.
Proof. solve_decision. Defined.

(** What the others were last told; active and paused are both shown as typing
    (src/common/inbound.c, inbound_tagmsg). *)
Definition last_told (trace : list typing_event) : option typing_event := last trace.
Definition shown_as_typing (trace : list typing_event) : Prop :=
  last_told trace = Some TypingActive \/ last_told trace = Some TypingPaused.

Inductive typing_step := Keystroke (text : cstr) | Timer | Cancel.

Section typing.
Context `{GLib} (e : typing_env).

(** The timer runs only when it is set. *)
Definition run_step (s : typing_step) (now : Z) (t : typing) : typing * list typing_event :=
  match s with
  | Keystroke text => typing_indicator_keystroke e text now t
  | Timer => if ty_timer t then typing_send_timer_cb e now t else (t, [])
  | Cancel => typing_indicator_cancel e now t
  end.

Fixpoint run_steps (l : list (typing_step * Z)) (t : typing) : typing * list typing_event :=
  match l with
  | [] => (t, [])
  | (s, now) :: l => let '(t, ev) := run_step s now t in let '(t, evs) := run_steps l t in (t, ev ++ evs)
  end.

(** The timer runs, and a time of sending is kept, just while the others were
    last told "active". *)
Record told_well (t : typing) (v : option typing_event) : Prop := ToldWell {
  told_timer : ty_timer t = true <-> ty_last_sent t <> 0;
  told_active : v = Some TypingActive <-> ty_last_sent t <> 0 }.

(** What was last told, after more was told. *)
Definition told_after (v : option typing_event) (ev : list typing_event) : option typing_event :=
  match ev with [] => v | _ => last ev end.

Lemma told_after_app v ev ev' : told_after v (ev ++ ev') = told_after (told_after v ev) ev'.
Proof.
  unfold told_after. destruct ev as [|x ev]; [done|]. destruct ev' as [|y ev']; [by rewrite app_nil_r|].
  change (last ((x :: ev) ++ y :: ev') = last (y :: ev')). apply last_app_cons.
Qed.

Context (Open : te_connected e = true /\ te_message_tags e = true /\ te_channel e <> []) (Allowed : te_allowed e = true).

Lemma told_active_sent now t v : now <> 0 ->
  let '(t', ev) := typing_send_active e now t in told_well t' (told_after v ev).
Proof. intros Hn. unfold typing_send_active, typing_told. rewrite Allowed. by split. Qed.

Lemma cancel_told now t v : told_well t v ->
  (typing_indicator_cancel e now t).2 = (if decide (v = Some TypingActive) then [TypingDone] else []).
Proof.
  intros [_ T]. destruct Open as (Hc & Hm & Hch). unfold typing_indicator_cancel, typing_told. cbn [snd].
  rewrite Hc, Hm, Allowed, bool_decide_eq_false_2, !andb_true_r by done.
  destruct (Z.eqb_spec (ty_last_sent t) 0) as [E|N]; destruct (decide _) as [Hv|Hv]; cbn; try done; [by apply T in Hv|by destruct Hv; apply T].
Qed.

Lemma told_cancel now t v : told_well t v ->
  let '(t', ev) := typing_indicator_cancel e now t in told_well t' (told_after v ev).
Proof.
  intros T. pose proof (cancel_told now t v T) as E. unfold typing_indicator_cancel in *. cbn [snd] in E. rewrite E.
  split; cbn; [done|]. destruct (decide _); cbn; [by split|tauto].
Qed.

Lemma told_step s now t v : now <> 0 -> told_well t v ->
  let '(t', ev) := run_step s now t in told_well t' (told_after v ev).
Proof.
  intros Hn T. pose proof (told_cancel now t v T) as C. destruct s as [text| |]; cbn [run_step]; [| |exact C].
  - unfold typing_indicator_keystroke. destruct (negb _); [done|].
    destruct text as [|c text]; [exact C|]. destruct (is_command_text _ _); [exact C|]. cbv zeta.
    destruct (_ || _); [by apply told_active_sent|by destruct T; split].
  - destruct (ty_timer t) eqn:Et; [|done]. unfold typing_send_timer_cb.
    destruct (ty_last_sent t <? ty_last_keystroke t); [by apply told_active_sent|].
    unfold typing_told. rewrite Allowed. by split.
Qed.

Lemma told_steps l t v : Forall (fun x => x.2 <> 0) l -> told_well t v ->
  let '(t', ev) := run_steps l t in told_well t' (told_after v ev).
Proof.
  revert t v. induction l as [|[s now] l IH]; intros t v Hl T; [done|]. apply Forall_cons in Hl as [Hn Hl]. cbn.
  pose proof (told_step s now t v Hn T) as T1. destruct (run_step s now t) as [t1 ev].
  specialize (IH t1 (told_after v ev) Hl T1). destruct (run_steps l t1) as [t2 evs]. by rewrite told_after_app.
Qed.

End typing.

(** ** Expansions *)

Section insert.
Context `{GL : GLibLaws}.

(** The template of a user command: a text, then references to words, %n or &n, each with
    the text behind it. *)
Record ref := Ref { r_eol : bool; r_num : nat; r_text : cstr }.

Definition digit_of (n : nat) : ascii := ascii_of_N (N.of_nat (48 + n)).

Definition print_ref (r : ref) : cstr := (if r_eol r then "&"%char else "%"%char) :: digit_of (r_num r) :: r_text r.
Definition print_template (text : cstr) (refs : list ref) : cstr := text ++ concat (map print_ref refs).

Definition plain_text (s : cstr) : Prop := whole_chars s /\ ("%"%char ∉ s) /\ ("&"%char ∉ s).

(** A text that begins with two digits would make the reference a byte. *)
Definition ref_ok (r : ref) : Prop :=
  (r_num r < 10)%nat /\ plain_text (r_text r) /\ isdigit (peek (r_text r)) && isdigit (peek (tail (r_text r))) = false.

(** What the template stands for; none when a word is missing. *)
Fixpoint substituted (word word_eol : list cstr) (refs : list ref) : option cstr :=
  match refs with
  | [] => Some []
  | r :: refs =>
      w ← word !! r_num r;
      match w with
      | [] => None
      | _ =>
          utf ← (if r_eol r then word_eol !! r_num r else Some w);
          rest ← substituted word word_eol refs;
          Some (utf ++ r_text r ++ rest)
      end
  end.

Lemma digit_of_spec n : (n < 10)%nat -> isdigit (digit_of n) = true /\ uchar (digit_of n) = 48 + Z.of_nat n.
Proof. intros Hn. do 10 (destruct n as [|n]; [done|]). lia. Qed.

Context (room : Z) (v : vars) (word word_eol : list cstr).

Definition go (fuel : nat) := insert_loop fuel room v (Some word) (Some word_eol).

Lemma whole_char_at c rest : whole_chars (c :: rest) ->
  exists k, g_utf8_skip c = Z.of_nat (S k) /\ (k <= length rest)%nat /\ whole_chars (drop k rest).
Proof.
  intros Hw. inversion Hw as [|c' block rest' Hlen Hr Ec]; subst. exists (length block). cbn in Hlen.
  split; [lia|]. rewrite drop_app_length. rewrite length_app. split; [lia|done].
Qed.

(** A text without signs is copied, as far as there is room. *)
Lemma go_text n : forall text rest fuel dest term,
  (length text <= n)%nat -> plain_text text -> Z.of_nat (length dest) < room -> (length (text ++ rest) < fuel)%nat ->
  (Z.of_nat (length (dest ++ text)) < room /\ exists fuel' term', (length rest < fuel')%nat /\
     go fuel (text ++ rest) dest term = go fuel' rest (dest ++ text) term') \/
  (room <= Z.of_nat (length (dest ++ text)) /\ exists d t, go fuel (text ++ rest) dest term = Some (2, d, t)).
Proof.
  induction n as [|n IH]; intros text rest fuel dest term Hn (Hw & Hp & Ha) Hd Hf.
  - destruct text; [|cbn in Hn; lia]. left. rewrite app_nil_r. split; [done|]. by exists fuel, term.
  - destruct text as [|c text]; [left; rewrite app_nil_r; split; [done|]; by exists fuel, term|].
    destruct (whole_char_at c text Hw) as (k & Hs & Hk & Hw').
    apply not_elem_of_cons in Hp as [Hpc Hp], Ha as [Hac Ha].
    assert (Es : (c =c "%") || (c =c "&") = false).
    { destruct (Ascii.eqb_spec c "%"); [congruence|]. by destruct (Ascii.eqb_spec c "&"); [congruence|]. }
    destruct fuel as [|fuel]; [lia|].
    assert (Etake : take (S k) (c :: text ++ rest) = c :: take k text) by (cbn; f_equal; apply take_app_le; lia).
    assert (Edrop : drop (S k) (c :: text ++ rest) = drop k text ++ rest) by (cbn; apply drop_app_le; lia).
    assert (Step : go (S fuel) ((c :: text) ++ rest) dest term =
      if Z.of_nat (length dest) + Z.of_nat (S k) <? room
      then go fuel (drop k text ++ rest) (dest ++ c :: take k text) false else Some (2, dest, term)).
    { unfold go at 1. cbn [app insert_loop]. cbv zeta. rewrite Es, Hs. destruct (Z.ltb_spec (Z.of_nat (length dest) + Z.of_nat (S k)) room); [|done].
      cbn [negb]. destruct (Z.eqb_spec (Z.of_nat (S k)) 1) as [E1|N1].
      - replace k with O in * by lia. cbn [drop take]. rewrite (proj2 (Z.leb_le _ _)) by lia. done.
      - destruct (Z.ltb_spec (Z.of_nat (length (c :: text ++ rest))) (Z.of_nat (S k))) as [Hl|_];
          [cbn in Hl; rewrite length_app in Hl; lia|]. by rewrite Nat2Z.id, Etake, Edrop. }
    rewrite Step. cbn [app length] in Hf, Hn. rewrite !length_app in *. cbn [length] in *.
    destruct (Z.ltb_spec (Z.of_nat (length dest) + Z.of_nat (S k)) room) as [Hfit|Hfull]; [|right; split; [lia|eauto]].
    assert (Hsplit : dest ++ c :: text = (dest ++ c :: take k text) ++ drop k text) by (rewrite <- app_assoc; cbn; by rewrite take_drop).
    assert (Hlen : length (c :: take k text) = S k) by (cbn; rewrite length_take; lia).
    destruct (IH (drop k text) rest fuel (dest ++ c :: take k text) false) as [(Hr & fuel' & term' & Hf' & E)|(Hr & d & t & E)].
    + rewrite length_drop. lia.
    + split; [done|]. split; intros Hx; [apply Hp|apply Ha]; rewrite <- (take_drop k text); apply elem_of_app; by right.
    + rewrite length_app, Hlen. lia.
    + rewrite length_app, length_drop. lia.
    + left. rewrite <- Hsplit, length_app in Hr. cbn [length] in Hr. split; [lia|]. exists fuel', term'. split; [done|].
      by rewrite E, Hsplit.
    + right. rewrite <- Hsplit, length_app in Hr. cbn [length] in Hr. split; [lia|]. eauto.
Qed.

(** One reference. *)
Lemma go_ref r rest fuel dest term w utf :
  ref_ok r -> word !! r_num r = Some w -> w <> [] -> (if r_eol r then word_eol !! r_num r else Some w) = Some utf ->
  isdigit (peek (r_text r ++ rest)) && isdigit (peek (tail (r_text r ++ rest))) = false ->
  go (S fuel) (print_ref r ++ rest) dest term =
  if Z.of_nat (length dest) + Z.of_nat (length utf) <? room then go fuel (r_text r ++ rest) (dest ++ utf) true else Some (2, dest, term).
Proof.
  intros (Hn & _ & _) Ew Hw Eu Hd. destruct (digit_of_spec (r_num r) Hn) as [Di Du].
  assert (En : Z.to_nat (uchar (digit_of (r_num r)) - 48) = r_num r) by (rewrite Du; lia).
  unfold go, print_ref. cbn [app insert_loop]. cbv zeta. cbn [peek hd tail].
  destruct (r_eol r) eqn:Er; cbn [Ascii.eqb orb];
    (replace (("&"%char =c "%") || ("&"%char =c "&")) with true by reflexivity
     || replace (("%"%char =c "%") || ("%"%char =c "&")) with true by reflexivity);
    rewrite Di, Hd, En, Ew; cbn [mbind option_bind]; destruct w as [|x w]; try done.
  - replace ("&"%char =c "%") with false by reflexivity. rewrite Eu. done.
  - replace ("%"%char =c "%") with true by reflexivity. injection Eu as <-. done.
Qed.

Lemma no_two_digits r refs :
  ref_ok r -> let s := r_text r ++ concat (map print_ref refs) in isdigit (peek s) && isdigit (peek (tail s)) = false.
Proof.
  intros (_ & _ & Hd). cbv zeta.
  assert (Hs : isdigit (peek (concat (map print_ref refs))) = false).
  { destruct refs as [|r' refs]; [done|]. cbn. by destruct (r_eol r'). }
  destruct (r_text r) as [|a [|b t]]; cbn [app tail peek hd] in *; [by rewrite Hs| |exact Hd].
  fold (peek (concat (map print_ref refs))). by rewrite Hs, andb_false_r.
Qed.

Lemma go_refs refs full dest term fuel :
  Forall ref_ok refs -> substituted word word_eol refs = Some full -> Z.of_nat (length dest) < room ->
  (length (concat (map print_ref refs)) < fuel)%nat ->
  if Z.of_nat (length (dest ++ full)) <? room then go fuel (concat (map print_ref refs)) dest term = Some (1, dest ++ full, true)
  else exists d t, go fuel (concat (map print_ref refs)) dest term = Some (2, d, t).
Proof.
  revert full dest term fuel. induction refs as [|r refs IH]; intros full dest term fuel Hok Es Hd Hf.
  - injection Es as <-. rewrite app_nil_r. rewrite (proj2 (Z.ltb_lt _ _) Hd). destruct fuel as [|fuel]; [cbn in Hf; lia|].
    cbn. by rewrite (proj2 (Z.leb_le _ _)) by lia.
  - apply Forall_cons in Hok as [Hr Hok]. cbn [substituted] in Es.
    destruct (word !! r_num r) as [w|] eqn:Ew; [|done]. cbn [mbind option_bind] in Es. destruct w as [|x w]; [done|].
    destruct (if r_eol r then word_eol !! r_num r else Some (x :: w)) as [utf|] eqn:Eu; [|done]. cbn [mbind option_bind] in Es.
    destruct (substituted word word_eol refs) as [rest|] eqn:Er; [|done]. cbn [mbind option_bind] in Es. injection Es as <-.
    destruct fuel as [|fuel]; [lia|]. cbn [map concat] in *.
    rewrite (go_ref r _ fuel dest term (x :: w) utf Hr Ew ltac:(done) Eu (no_two_digits r refs Hr)).
    set (D := (dest ++ utf) ++ r_text r). replace (dest ++ utf ++ r_text r ++ rest) with (D ++ rest)
      by (unfold D; by rewrite <- !app_assoc).
    assert (LD : length D = (length dest + length utf + length (r_text r))%nat) by (unfold D; by rewrite !length_app).
    assert (LR : length (D ++ rest) = (length D + length rest)%nat) by apply length_app.
    rewrite length_app in Hf. cbn [print_ref length] in Hf.
    destruct (Z.ltb_spec (Z.of_nat (length dest) + Z.of_nat (length utf)) room) as [Hfit|Hfull].
    2:{ rewrite (proj2 (Z.ltb_ge _ _)) by lia. eauto. }
    destruct (go_text (length (r_text r)) (r_text r) (concat (map print_ref refs)) fuel (dest ++ utf) true)
      as [(Hl & fuel' & term' & Hf' & ->)|(Hl & E)]; [done|by destruct Hr as (_ & ? & _)|rewrite length_app; lia|rewrite length_app; lia| |].
    + exact (IH rest D term' fuel' Hok eq_refl Hl Hf').
    + fold D in Hl. rewrite (proj2 (Z.ltb_ge _ _)) by lia. exact E.
Qed.
End insert.

(**  A user command whose text refers to words that are all there expands to that text with
    the words in place of the references, and is refused when that does not fit the
    buffer. *)
Theorem user_command_expands `{GL : GLibLaws} v word word_eol text refs rest destlen :
  plain_text text -> Forall ref_ok refs -> substituted word word_eol refs = Some rest -> 2 <= destlen ->
  if Z.of_nat (length (text ++ rest)) <? destlen - 1
  then auto_insert destlen (print_template text refs) (Some word) (Some word_eol) v = Some (1, text ++ rest, true)
  else exists d t, auto_insert destlen (print_template text refs) (Some word) (Some word_eol) v = Some (2, d, t).
Proof.
  intros Ht Hr Es Hd. unfold auto_insert, print_template.
  destruct (go_text (destlen - 1) v word word_eol (length text) text (concat (map print_ref refs))
    (S (length (text ++ concat (map print_ref refs)))) [] false ltac:(lia) Ht) as [(Hl & fuel' & term' & Hf & E)|(Hl & E)]; [cbn; lia|lia| |].
  - unfold go in E. rewrite E. cbn [app] in *.
    apply (go_refs (destlen - 1) v word word_eol refs rest text term' fuel' Hr Es Hl Hf).
  - cbn [app] in Hl. rewrite length_app. rewrite (proj2 (Z.ltb_ge _ _)) by lia. exact E.
Qed.

(** ** Pasted lines *)

Section paste.
Context (cmd_char : ascii) (Hnul : cmd_char <> NUL) (Hnl : is_newline cmd_char = false).

(** The text between the newlines. *)
Fixpoint split_lines (s : cstr) : list cstr :=
  match s with
  | [] => [[]]
  | c :: s => if is_newline c then [] :: split_lines s
              else match split_lines s with [] => [[c]] | l :: ls => (c :: l) :: ls end
  end.

Definition kept_lines (ls : list cstr) : list cstr := filter (fun l => l <> []) ls.

Definition unescaped (l : cstr) : cstr := if escaped cmd_char l then tail l else l.

(** A line that is not a command. *)
Definition is_text (l : cstr) : Prop := peek l = cmd_char -> escaped cmd_char l = true.

Lemma next_line_split s :
  match next_line s with
  | (l, None) => split_lines s = [l] /\ l = s
  | (l, Some rest) => split_lines s = l :: split_lines rest /\ (length l + length rest < length s)%nat
  end.
Proof.
  induction s as [|c s IH]; [done|]. cbn. destruct (is_newline c); [cbn; split; [done|lia]|].
  destruct (next_line s) as [l [rest|]]; destruct IH as [-> IH]; cbn; [split; [done|lia]|by rewrite IH].
Qed.

Lemma escaped_nil : escaped cmd_char [] = false.
Proof. unfold escaped. change (peek []) with NUL. destruct (Ascii.eqb_spec NUL cmd_char); [by destruct Hnul|done]. Qed.

Lemma kept_cons l ls : kept_lines (l :: ls) = match l with [] => kept_lines ls | _ => l :: kept_lines ls end.
Proof. unfold kept_lines. destruct l; [rewrite filter_cons_False; [done|by intros Hx; apply Hx]|by rewrite filter_cons_True]. Qed.

Lemma input_lines_kept fuel s : (length s < fuel)%nat -> kept_lines (input_lines fuel s) = kept_lines (split_lines s).
Proof.
  revert s. induction fuel as [|fuel IH]; intros s Hf; [lia|]. destruct s as [|c s]; [done|]. cbn [input_lines].
  pose proof (next_line_split (c :: s)) as Hs. destruct (next_line (c :: s)) as [l [rest|]]; destruct Hs as [-> Hs]; [|done].
  rewrite !kept_cons, IH by lia. done.
Qed.

Lemma batch_lines_kept fuel s :
  (length s < fuel)%nat -> batch_lines fuel cmd_char s = map unescaped (kept_lines (split_lines s)).
Proof.
  revert s. induction fuel as [|fuel IH]; intros s Hf; [lia|]. cbn [batch_lines].
  pose proof (next_line_split s) as Hs. destruct (next_line s) as [l [rest|]]; destruct Hs as [-> Hs]; rewrite kept_cons.
  - rewrite IH by lia. unfold unescaped. destruct l as [|c l]; [by rewrite escaped_nil|]. cbn [map].
    by destruct (escaped cmd_char (c :: l)).
  - unfold unescaped. destruct l as [|c l]; [by rewrite escaped_nil|]. cbn [map]. by destruct (escaped cmd_char (c :: l)).
Qed.

Lemma next_line_peek c s : peek (tail (c :: s)) = cmd_char -> is_newline c = false -> peek (tail (next_line (c :: s)).1) = cmd_char.
Proof.
  cbn. intros Hp ->. destruct s as [|d s]; [done|]. cbn in Hp |- *. subst d. rewrite Hnl. by destruct (next_line s).
Qed.

Lemma next_line_first c s : peek (next_line (c :: s)).1 = cmd_char -> c = cmd_char.
Proof. cbn. destruct (is_newline c); cbn; [congruence|]. by destruct (next_line s). Qed.

Lemma all_text_lines fuel s : (length s < fuel)%nat -> all_text fuel cmd_char s = true -> Forall is_text (split_lines s).
Proof.
  revert s. induction fuel as [|fuel IH]; intros s Hf Ha; [lia|]. destruct s as [|c s].
  { repeat constructor. unfold is_text. cbn. congruence. }
  cbn [all_text] in Ha. destruct (_ && _) eqn:Ec in Ha; [done|].
  assert (Ht : is_text (next_line (c :: s)).1).
  { intros Hp. pose proof Hp as Hc. apply next_line_first in Hc as ->. unfold escaped. rewrite Hp, Ascii.eqb_refl. cbn [andb].
    rewrite Ascii.eqb_refl in Ec. cbn [andb] in Ec. apply negb_false_iff in Ec.
    destruct (Ascii.eqb_spec (peek (tail (cmd_char :: s))) cmd_char) as [E|]; [|done].
    rewrite next_line_peek by done. apply Ascii.eqb_refl. }
  pose proof (next_line_split (c :: s)) as Hs. destruct (next_line (c :: s)) as [l [rest|]]; destruct Hs as [-> Hs]; cbn [fst snd] in *.
  - constructor; [done|]. apply IH; [lia|done].
  - by repeat constructor.
Qed.

Lemma kept_one ls l : l <> [] -> (length (kept_lines (l :: ls)) < 2)%nat -> kept_lines ls = [].
Proof. rewrite kept_cons. intros Hl Hk. destruct l; [done|]. cbn in Hk. destruct (kept_lines ls); [done|cbn in Hk; lia]. Qed.

(** C36. Of a text that does not begin with a newline every line that is not empty
    is handed on once and in order, in a batch or one by one; in a batch a doubled
    command character is taken for one, and no line of it is a command. One by one
    the lines are run as they are entered, which ends with a line that is refused.
    *)
Theorem paste_goes_out_whole have_multiline max_lines cmd :
  is_newline (peek cmd) = false ->
  match handle_multiline have_multiline max_lines cmd_char cmd with
  | AsBatch ls => ls = map unescaped (kept_lines (split_lines cmd)) /\ (2 <= length ls)%nat /\ Forall is_text (split_lines cmd)
  | OneByOne ls => kept_lines ls = kept_lines (split_lines cmd)
  end.
Proof.
  intros Hp. unfold handle_multiline.
  destruct (_ && _) eqn:Ec; [|apply input_lines_kept; lia]. apply andb_prop in Ec as [_ Ha].
  apply all_text_lines in Ha; [|lia]. rewrite batch_lines_kept by lia. rewrite length_map.
  destruct (Nat.leb_spec 2 (length (kept_lines (split_lines cmd)))) as [H2|H1]; [rewrite length_map; auto|].
  rewrite input_lines_kept by lia. pose proof (next_line_split cmd) as Hs.
  destruct (next_line cmd) as [l [rest|]] eqn:El; destruct Hs as [Es Hs]; cbn [fst]; [|by subst].
  assert (Hl : l <> []).
  { destruct cmd as [|c cmd]; [done|]. cbn in El, Hp. rewrite Hp in El. destruct (next_line cmd). by injection El as <- _. }
  rewrite Es in H1 |- *. rewrite kept_cons, (kept_one _ l Hl H1).
  assert (Hn : split_lines l = [l]).
  { clear -El. revert rest l El. induction cmd as [|c cmd IH]; intros rest l El; [done|]. cbn in El.
    destruct (is_newline c) eqn:Ec; [by injection El as <- _|]. destruct (next_line cmd) as [l' r'] eqn:E'.
    injection El as <- ->. cbn. by rewrite Ec, (IH rest l' eq_refl). }
  rewrite Hn, kept_cons. by destruct l.
Qed.
End paste.
