(* ===== verification/InputCases.v ===== *)
(** * What the user enters: cases

    The theorems at concrete inputs, and the inputs on which the code does not do what
    it means to. *)
From S2P Require Import Prelude Glib Casemap Text Access Modes Server Proto Input InputSpec.

#[export] Instance strcasecmp_sign_ref : StrcasecmpSign glib_ref.
Proof. intros s1 s2 _ _. reflexivity. Qed.

(** ** A reference for GLib's searches *)

Fixpoint strrchr_ref (s : cstr) (len i : nat) (c : ascii) (best : option nat) : option nat :=
  match s, len with
  | x :: s, S len => strrchr_ref s len (S i) c (if x =c c then Some i else best)
  | _, _ => best
  end.

(** Characters that begin before the position. *)
Fixpoint chars_ref (fuel : nat) (s : cstr) (p : nat) : Z :=
  match fuel, s, p with
  | S fuel, c :: _, S _ => 1 + chars_ref fuel (drop (Z.to_nat (skip_ref c)) s) (p - Z.to_nat (skip_ref c))
  | _, _, _ => 0
  end.

#[export] Instance utf8_search_ref : Utf8Search :=
  {| g_utf8_strrchr s len c := strrchr_ref s len 0 c None; g_utf8_pointer_to_offset s p := chars_ref p s p |}.

Lemma strrchr_ref_range s len i c best j :
  (forall k, best = Some k -> (k < i)%nat) -> strrchr_ref s len i c best = Some j -> (j < i + len)%nat.
Proof.
  revert len i best. induction s as [|x s IH]; intros [|len] i best Hb E; cbn in E;
    [apply Hb in E; lia..|].
  apply IH in E; [lia|]. intros k Ek. destruct (Ascii.eqb_spec x c) as [->|]; [injection Ek as <-; lia|].
  apply Hb in Ek. lia.
Qed.

Lemma skip_ref_pos c : 1 <= skip_ref c.
Proof. unfold skip_ref. repeat (z_case; try lia). Qed.

Lemma chars_ref_range fuel s p : 0 <= chars_ref fuel s p <= Z.of_nat p.
Proof.
  revert s p. induction fuel as [|fuel IH]; intros s p; [cbn; lia|]. destruct s as [|c s]; [cbn; lia|].
  destruct p as [|p]; [cbn; lia|]. cbn [chars_ref]. pose proof (skip_ref_pos c).
  specialize (IH (drop (Z.to_nat (skip_ref c)) (c :: s)) (S p - Z.to_nat (skip_ref c))%nat). lia.
Qed.

#[export] Instance utf8_search_ref_laws : Utf8SearchLaws.
Proof.
  split; cbn.
  - intros s len c i E. change len with (0 + len)%nat. by apply (strrchr_ref_range s len 0 c None).
  - intros s p. apply chars_ref_range.
Qed.

(** ** The table *)

Lemma find_internal_command_finds_witness :
  find_internal_command (H := glib_ref) ("mSg" : cstr) = List.find (same_name ("mSg" : cstr)) xc_cmds /\
  cmd_name <$> find_internal_command (H := glib_ref) ("mSg" : cstr) = Some "MSG"%string.
Proof.
  split; [|vm_compute; reflexivity].
  apply (find_internal_command_finds ("mSg" : cstr)). repeat constructor; discriminate.
Defined.

(** ** Long texts *)

Definition my_target : target := Target "me" "#chan" (Some ("user@host" : cstr)).

Lemma long_text_is_sent_whole_witness :
  exists ps, pieces 1001 my_target (replicate 1000 "x"%char) 13 = Some ps /\ concat ps = replicate 1000 "x"%char /\
    Forall (fun p => (length (relayed my_target ("user@host" : cstr) p) <= 512)%nat) ps.
Proof.
  apply (long_text_is_sent_whole my_target ("user@host" : cstr) (replicate 1000 "x"%char)); [vm_compute; discriminate|reflexivity].
Defined.

(** Room for 81 bytes. *)
Definition narrow_target (room : nat) : target :=
  Target (replicate 30 "n"%char) (replicate 200 "c"%char) (Some (replicate (266 - room) "h"%char)).

(** A space behind characters of two bytes: [split_up_text] counts in characters where it
    means bytes, and cuts the fifth of them in half. *)
Definition e_acute : cstr := ["195"; "169"]%char.
Definition accented : cstr := replicate 53 "a"%char ++ concat (replicate 8 e_acute) ++ " "%char :: replicate 40 "b"%char.

Example a_character_is_cut_in_half :
  room_for_text (narrow_target 81) 13 = 81 /\ accented !! 61%nat = Some "195"%char /\ accented !! 62%nat = Some "169"%char /\
  split_up_text (H := glib_ref) (narrow_target 81) accented 13 = Some (Some (take 62 accented)).
Proof. vm_compute. auto. Qed.

(** With less room than the first character needs the piece is empty, and the loop of
    the callers does not get further; with no room at all the unsigned number wraps and the text
    is sent as one line. *)
Example an_empty_piece : split_up_text (H := glib_ref) (narrow_target 2) (e_acute ++ e_acute) 13 = Some (Some []).
Proof. reflexivity. Qed.

Lemma pieces_of_no_room t text cmd_length fuel :
  split_up_text (H := glib_ref) t text cmd_length = Some (Some []) -> pieces (H := glib_ref) fuel t text cmd_length = None.
Proof. intros E. induction fuel as [|fuel IH]; [done|]. cbn [pieces]. rewrite E. cbn [mbind option_bind length drop]. by rewrite drop_0, IH. Qed.

Example no_room_never_ends fuel : pieces (H := glib_ref) fuel (narrow_target 2) (e_acute ++ e_acute) 13 = None.
Proof. apply pieces_of_no_room, an_empty_piece. Qed.

Example the_room_wraps :
  max_text (Target (replicate 60 "n"%char) (replicate 300 "c"%char) (Some (replicate 140 "h"%char))) 13 = 2 ^ 32 - 4 /\
  split_up_text (H := glib_ref) (Target (replicate 60 "n"%char) (replicate 300 "c"%char) (Some (replicate 140 "h"%char)))
    (replicate 1000 "x"%char) 13 = Some None.
Proof. vm_compute. auto. Qed.

(** ** The typing indicator *)

Definition open_env : typing_env := TypingEnv true true true true ("#c" : cstr) true "/".


(** "Send done if we previously sent active/paused": after paused it is not sent. *)
Example paused_is_not_taken_back :
  (run_steps (H := glib_ref) open_env [(Keystroke ("he" : cstr), 5); (Timer, 3000005); (Cancel, 4000000)] (Typing false 0 0 0)).2 =
  [TypingActive; TypingPaused].
Proof. reflexivity. Qed.

(** ** Expansions *)

Definition case_vars : vars :=
  Vars (Some []) (Some ("#c" : cstr)) (Some []) (Some ("net" : cstr)) (Some []) (Some ("me" : cstr)) (Some []) (Some [])
    (Some []) ("Thu Jan  1 00:00:00 1970" : cstr) ("2" : cstr) ("Jan" : cstr) (fun c => Some [c]).

Definition case_words : list cstr := map list_ascii_of_string ["tb"; "greet"; "ann"; "hi there"; ""; ""; ""; ""; ""; ""]%string.
Definition case_word_eol : list cstr := map list_ascii_of_string ["tb"; "greet ann hi there"; "ann hi there"; "hi there"; ""; ""; ""; ""; ""; ""]%string.

Definition plain_char (c : ascii) : bool := (uchar c <? 128) && negb (c =c "%") && negb (c =c "&").

Lemma plain_chars s : forallb plain_char s = true -> @plain_text glib_ref s.
Proof.
  induction s as [|c s IH]; cbn [forallb]; intros Hs; [split; [constructor|split; by intros ?%elem_of_nil]|].
  apply andb_prop in Hs as [Hc Hs]. destruct (IH Hs) as (Hw & Hp & Ha). unfold plain_char in Hc.
  apply andb_prop in Hc as [Hc Hca]. apply andb_prop in Hc as [Hc Hcp]. apply Z.ltb_lt in Hc.
  split; [apply (whole_char c [] s); [|exact Hw]|].
  - cbn. unfold skip_ref. by destruct (Z.ltb_spec (uchar c) 192); [|lia].
  - destruct (Ascii.eqb_spec c "%"), (Ascii.eqb_spec c "&"); try done.
    split; by apply not_elem_of_cons.
Qed.

Lemma user_command_expands_witness :
  if Z.of_nat (length (("msg " : cstr) ++ ("ann oh hi there" : cstr))) <? 2048 - 1
  then auto_insert (H := glib_ref) 2048 (print_template ("msg " : cstr) [Ref false 2 (" oh " : cstr); Ref true 3 []]) (Some case_words)
    (Some case_word_eol) case_vars = Some (1, ("msg " : cstr) ++ ("ann oh hi there" : cstr), true)
  else exists d t, auto_insert (H := glib_ref) 2048 (print_template ("msg " : cstr) [Ref false 2 (" oh " : cstr); Ref true 3 []]) (Some case_words)
    (Some case_word_eol) case_vars = Some (2, d, t).
Proof.
  apply (user_command_expands case_vars case_words case_word_eol ("msg " : cstr) [Ref false 2 (" oh " : cstr); Ref true 3 []]
    ("ann oh hi there" : cstr) 2048).
  - apply plain_chars. reflexivity.
  - repeat constructor; cbn; (lia || (apply plain_chars; reflexivity) || reflexivity).
  - reflexivity.
  - lia.
Defined.

(** The signs are written without a look at the room: one byte behind the buffer. *)
Example signs_overflow_the_buffer : auto_insert (H := glib_ref) 8 (replicate 9 "&"%char) (Some case_words) (Some case_word_eol) case_vars = None.
Proof. reflexivity. Qed.

(** A character cut short at the end of the template is read on behind it. *)
Example template_is_read_behind_its_end :
  auto_insert (H := glib_ref) 2048 (("say " : cstr) ++ ["195"%char]) (Some case_words) (Some case_word_eol) case_vars = None.
Proof. reflexivity. Qed.

(** A result too long is answered with 2, which [user_command] takes for success, and the
    buffer has no NUL yet. *)
Example too_long_is_not_refused :
  auto_insert (H := glib_ref) 8 ("say hello" : cstr) (Some case_words) (Some case_word_eol) case_vars = Some (2, ("say he" : cstr), false).
Proof. reflexivity. Qed.

(** ** A percent sign at the end of a command of a network *)

Definition case_net : network_vars := NetworkVars (Some ("me" : cstr)) None None None.
Definition case_prefs : own_prefs := OwnPrefs ("nick" : cstr) ("real" : cstr) ("user" : cstr).

Example last_percent_is_read_over :
  command_insert_vars (Some case_net) case_prefs ("NICK %n" : cstr) = Some ("NICK me" : cstr) /\
  command_insert_vars (Some case_net) case_prefs ("SAY 100%" : cstr) = None.
Proof. split; reflexivity. Qed.

(** ** Pasted lines *)

Example leading_newline_loses_the_text :
  handle_multiline true 24 "/" (LF :: ("hello" : cstr)) = OneByOne [] /\
  handle_multiline false 24 "/" (LF :: ("hello" : cstr)) = OneByOne [[]; ("hello" : cstr)].
Proof. split; reflexivity. Qed.

Definition pasted : cstr := ("one" : cstr) ++ LF :: LF :: ("//two" : cstr) ++ [CR; LF].

Lemma paste_goes_out_whole_witness :
  match handle_multiline true 24 "/" pasted with
  | AsBatch ls => ls = map (unescaped "/") (kept_lines (split_lines pasted)) /\ (2 <= length ls)%nat /\ Forall (is_text "/") (split_lines pasted)
  | OneByOne ls => kept_lines ls = kept_lines (split_lines pasted)
  end.
Proof. apply (paste_goes_out_whole "/"); [discriminate|reflexivity|reflexivity]. Defined.

Example pasted_goes_out : handle_multiline true 24 "/" pasted = AsBatch [("one" : cstr); ("/two" : cstr)].
Proof. vm_compute. reflexivity. Qed.

(** ** A long line to somebody *)

(** The buffer has room for the line, but the completed one is cut at TBUFSIZE. *)
Definition addressed : cstr := ("an: " : cstr) ++ replicate 5000 "x"%char.

Example completion_cuts_the_line :
  perform_nick_completion [("ann" : cstr)] (":" : cstr) addressed 5069 = Some (("ann: " : cstr) ++ replicate 4090 "x"%char) /\
  perform_nick_completion [("bob" : cstr)] (":" : cstr) addressed 5069 = Some addressed.
Proof. vm_compute. auto. Qed.
